(* ===== verification/_CoqProject ===== *)
-Q . S2P
Prelude.v
Callout.v
Quad.v
Bpf.v
Mbuf.v
Cksum.v
Ip.v
Sockbuf.v
Tcp.v
TcpReass.v
IpReass.v
IpOutput.v
IpRound.v
IpInput.v
IpForward.v
Pcb.v
Udp.v
TcpOpt.v
TcpOutput.v
TcpConn.v
Socket.v
SockIo.v
SockRecv.v
SockOpt.v
SockCall.v
UserIo.v
TcpFrame.v
TcpInput.v
TcpFsm.v
TcpUser.v
TcpRecv.v
TcpStream.v
SlComp.v
SlSync.v
Slip.v
SlipComp.v
