(* ===== verification/Prelude.v ===== *)
(** * Verification of ANP, a user-space port of the Net/3 TCP/IP stack

    ** The program

    ANP runs the Berkeley Net/3 networking code as a user process.  The sources
    under src/generic are the kernel code (kern, net, netinet, libkern, sys), those
    under src/uspace its new surroundings: system calls on a descriptor table, a
    callout queue driven by an interval timer instead of the clock interrupt,
    priority levels and sleep/wakeup on threads, a serial line as the interface.

    Data travel in mbufs.  A program calls anp_socket, anp_connect, anp_write and so on
    with a descriptor; the system call finds the socket, copies names and data in, and
    calls the socket layer.  [sosend] cuts the data into mbufs and hands them to the
    protocol as requests; [soreceive] takes records off the receive buffer.  The protocol
    is reached through the requests of its switch entry: [tcp_usrreq] and [udp_usrreq]
    work on a protocol control block, which holds the names of the connection.
    [tcp_output] copies the send buffer into segments under the limits of the windows;
    [udp_output] makes one packet of a datagram.  [ip_output] chooses the interface, and
    fragments what is too long for it.  In the other direction [ipintr] checks the header,
    processes the options, and delivers, forwards or reassembles; [tcp_input] and
    [udp_input] find the control block, and append what has arrived in order to the
    receive buffer, where it wakes the reader.  The connections a listening socket gets
    wait in its two queues until they are accepted.  The timers of TCP, of reassembly and
    of the interfaces hang on the callout queue.

    ** The files

    Generic parts:
    - Prelude: integers of a fixed width (the sources assume an ILP32 machine), the
      effect monad of code that can panic or fault, tactics and hints.
    - Callout ([uspace/timers.c], callout.h): the queue of timeouts as a list of
      entries with relative ticks, [timeout], [untimeout], the tick [hardclock], the
      drain [softclock], the simulated time and the timeval arithmetic.
    - Quad (libkern): the 64-bit integers as two 32-bit halves: Knuth's division
      [__qdivrem], the signed divisions, multiplication, shifts, comparisons and the
      bit operations.
    - Bpf (net/bpf_filter.c, bpf.h): the packet filter machine, one definition per
      class of instructions, on flat packets and on mbuf chains, and the validator.
    - Mbuf (kern/uipc_mbuf.c, sys/mbuf.h): an mbuf is a record whose data live in
      its own buffer or in a shared cluster of the state [mstate]; a chain is a list.
      Allocation can fail.  All the routines that build, copy, split and trim chains.
    - Cksum (netinet/in_cksum.c): the Internet checksum over a chain.
    - Sockbuf (kern/uipc_socket2.c, sys/socketvar.h): a socket buffer is a list of
      records, which are chains, with its counts and limits.

    IP and UDP:
    - Ip (netinet/ip.h, ip_var.h, in.h, in.c): the header of a packet as a record and as
      bytes, addresses and networks.
    - IpReass ([ip_reass], [ip_slowtimo] of netinet/ip_input.c): the reassembly queues,
      whose links are addresses into a heap of fragments.
    - IpOutput (netinet/ip_output.c): routes, options, multicast and fragmentation.
    - IpRound: fragmentation followed by reassembly.
    - IpInput (netinet/ip_input.c): [ipintr] for one packet, and the options.
    - IpForward: [ip_forward] and the source routes of replies.
    - Pcb (netinet/in_pcb.c): the list of control blocks of a protocol.
    - Udp (netinet/udp_usrreq.c): input, output and requests on the control blocks and
      the receive buffers.

    TCP:
    - Tcp (netinet/tcp_var.h, tcp_seq.h, tcp_fsm.h, tcp_timer.c, parts of tcp_input.c
      and tcp_output.c): a control block is a map from its fields to integers, a
      store converts to the width of the field; sequence comparison, the round-trip
      estimator, the timers.  What a timer asks of the rest of TCP is returned as a
      list of actions.
    - TcpReass ([tcp_reass] of netinet/tcp_input.c): the reassembly queue, over any
      payload with the operations of an mbuf chain (class [Payload]).
    - TcpOpt ([tcp_mss], [tcp_dooptions] of netinet/tcp_input.c): the segment size
      and the options, both ways.
    - TcpOutput (netinet/tcp_output.c): one definition per stage of a round of
      [tcp_output], the round and the loop, and the timers with the output they cause.
    - TcpConn (netinet/tcp_subr.c, parts of kern/uipc_socket2.c): the state of a
      connection as [tcp_input] sees it (record [conn]: control block, reassembly queue,
      socket state and buffers, what was sent), and the routines that change it:
      [tcp_close], [tcp_drop], [tcp_respond], [tcp_quench], the socket state routines.
    - TcpInput (netinet/tcp_input.c, lines 387 to 1300): [tcp_input] from the point
      where the connection is known, one definition per stage in the order of the code
      (header prediction, LISTEN, SYN_SENT, trimming, RST, ACK, urgent data, text, FIN,
      output), composed in a small error monad.
    - TcpFrame, TcpRecv: what each stage may write, and the invariant of a connection.
    - TcpFsm: the state machine of RFC 793 as a relation, and its refinement.
    - TcpStream: total correctness of [tcp_input] on a synchronised connection.
    - TcpUser (netinet/tcp_usrreq.c): the requests on a connection together with the list
      of control blocks of Pcb (record [tstate]), the timers that come through
      PRU_SLOWTIMO, the options of TCP.

    Sockets and system calls:
    - Socket (kern/uipc_socket.c, uipc_socket2.c, uipc_domain.c, [accept]): a heap of
      sockets with the links of the accept queues, the life of a socket; the protocol is
      an interface of requests.
    - SockIo, SockRecv (kern/uipc_socket.c, kern_subr.c): [uiomove], [sosend],
      [soreceive], against any protocol and any sequence of waits.
    - SockOpt: the socket options; the byte order of the host is the class [ByteOrder].
    - SockCall (kern/uipc_syscalls.c, sys_socket.c, uspace/anp_fdtbl.c, anp_syscall.c):
      the descriptor table and the calls on it; the class [SparesOpen] says what a
      protocol may do to the sockets that have a descriptor.
    - UserIo: [sendit], [recvit], [anp_read], [anp_write].

    The serial line:
    - SlComp (net/slcompress.c): header compression, with the states of the
      transmitter as a linked ring and headers as lists of bytes.
    - SlSync: the two ends of a compressed line kept in step, and the ring as an LRU
      cache.
    - Slip (kern/tty_subr.c, uspace/serline.c, net/if_sl.c): the character queues of
      the port (Module Clist) and the SLIP interface (Module Slip), over any header
      compression; the class [HeaderCompression] says what the line expects of it.
    - SlipComp: the compression of SlComp is an instance of that class.

    ** The theorems

    - Data are moved without loss: each mbuf routine is related to the bytes of the
      chain it works on (a take, a drop, an append), with its failures; the socket
      buffer routines to the bytes and the counts of the buffer; reassembly delivers
      exactly a prefix of the stream sent, however its segments arrive; every segment
      [tcp_output] sends carries the bytes of the send buffer that its sequence
      number says, inside the usable window; packets put on a serial line come out
      of it unchanged, with and without header compression, and so do the options of
      a SYN, a datagram through [udp_output] and [udp_input], and a packet through
      [ip_fragment] and [ip_reass] in any order of arrival.
    - [sosend] hands over a prefix of the user's data in order and, without an error, all
      of it; [soreceive] gives the oldest bytes of a stream, or one record, and takes
      exactly these; a read of an empty buffer says why; [sendit] reports what was sent;
      a socket option that was set is read back.
    - [tcp_input] on a synchronised connection always returns, keeps the invariant of
      the connection, appends to the receive buffer exactly the bytes of the sender's
      stream that come next, and takes exactly the acknowledged bytes off the send
      buffer; a segment that arrives in order is delivered.  The theorem is about
      segments without SYN and URG, whose FIN fits the window (record [arriving] of
      TcpStream), with fuel for the output of one unit per byte of the send buffer and
      two more, and with an [m_copy] that gets its mbufs.
    - [tcp_input] and [tcp_usrreq] refine the connection state machine of RFC 793: every
      change of state on any segment, request or timeout is a transition of the standard.
      A close with nothing outstanding sends a FIN.
    - Refinements of specifications: the accept queues are two first-in first-out queues
      of at most eight connections; the checks of [ipintr] accept exactly the correct
      headers; the circular list of the header compression is an LRU cache.
    - Optimised code is its specification: the unrolled, alignment-dependent checksum
      is the one's complement sum of RFC 1071; an access to a chain is an access to
      the flat packet; the estimator and the backoff are the published formulas as
      long as nothing overflows; the one-entry cache of UDP changes no look-up.
    - The 64-bit operations of libkern, which work on 16-bit digits, are the ones of
      the integers modulo 2^64; the division is Knuth's algorithm D, with the estimate
      of a digit at most two too large.
    - Loops end: an accepted filter stops, the callout queue drains, a socket buffer
      is flushed, the option scans of TCP and IP end for any input, [tcp_output] ends,
      a search for a port ends when one is free, a forwarded packet loses time to live.
    - Invariants: counts of a socket buffer, order of the send sequence space,
      exclusion of the retransmit and persist timers, order and expiry of the IP
      reassembly queues, uniqueness of the names of connections, a TCP control block
      behind every protocol control block of a socket, descriptors that never dangle.
    - Errors: panics and failures are results of the definitions, and a theorem says
      when they occur.  Where the code does not do what it means to, a theorem shows that
      behaviour: the filter validator accepts loops and wild stores; copying a packet with
      a cluster faults; a FIN overtakes data when options shorten a segment; [tcp_output]
      spins when [m_copy] fails; a send buffer of size 0 divides by zero; a timeout delays
      the ones after it; a short record-route option overwrites what is behind it; a UDP
      length below 8 is queued; connections with SO_REUSEADDR can get the same names; a
      large datagram is split; a low-water mark of zero and a read of 2^31 bytes spin;
      a failed socketpair leaves its descriptors; accept without a name returns garbage;
      MSG_PEEK with MSG_WAITALL repeats data; listen takes over a connected socket.

    ** Bounds and fuel

    A loop that is not structural has fuel.  [softclock] has one unit per entry that
    is due, [pullup_loop] one per mbuf, [flush_loop] one per record and one more, the
    option scans one per byte, [output_loop] one per byte of the send buffer and two more,
    [slstart] one per packet, the filter one per instruction, the normalisation of a
    divisor 17, the correction of a digit 4, the loop over fragments one per byte of the
    packet, the walks of the reassembly queues one per fragment of the heap, the search for
    a port one round per port of the range and one more (3978), [scale_loop] one round per
    window scale (15), the loops of [sosend] one per byte, the copy loop of [soreceive] one
    per mbuf of the buffer; the waits of a sleeping call are bounded by the list of what
    happens during them.  The theorems show that the fuel is enough.  Running out of
    fuel is [None] (or [Crash]) and never a result.

    ** What is not modelled

    The part of [tcp_input] before the connection is known (pull-up, checksum, lookup
    and the creation of a socket for a LISTEN), ICMP and IGMP, raw IP, the protocol
    switch, multicast routing, the routing tables with their radix tree and the routing
    socket, the BPF device, the interfaces other than the serial line and the interface
    requests ([in_control]), [select], [stat] and the copying of message headers, the
    threads, their sleeping and the kernel lock of src/uspace, the routines of libkern
    other than the 64-bit arithmetic, and the machine code for the SPARC.  These are pure
    input and output, depend on the machine, or (the routing tables, ICMP) would be
    developments of their own behind the arguments that stand for them here.
    The statistics counters, traces and messages are left out everywhere.
    A route and its metrics, the interfaces, the result of [ip_output] and the success of
    an allocation are arguments of the definitions that use them; what a protocol does
    with a request of the socket layer is an argument of the theorems on sockets.

    ** Order

    The parts build on each other in this order: memory (mbufs, socket buffers), the
    protocols (checksum, IP, control blocks, UDP, TCP), the socket layer, the system calls
    and the serial line.  The radix tree against longest-prefix match, ICMP and the front
    of [tcp_input] are the natural next parts. *)

From Stdlib Require Export ZArith Lia.
From stdpp Require Export base numbers gmap list.
From stdpp Require Import options.

#[export] Set Default Goal Selector "!".
#[export] Set Default Proof Using "Type".
Global Open Scope Z_scope.

(** ** Machine integers

    The sources are compiled for an ILP32 two's-complement machine: [char],
    [short], [int] and [long] have 8, 16, 32 and 32 bits, plain [char] is
    signed.  A C value of an integer type is a [Z] in the range of the type; an
    arithmetic result is brought back into the range by one of these functions. *)

Definition uwrap (w z : Z) : Z := z mod 2 ^ w.
Definition swrap (w z : Z) : Z := (z + 2 ^ (w - 1)) mod 2 ^ w - 2 ^ (w - 1).

Definition u8 (z : Z) : Z := z mod 256.
Definition u16 (z : Z) : Z := z mod 65536.
Definition u32 (z : Z) : Z := z mod 4294967296.
Definition u64 (z : Z) : Z := z mod 18446744073709551616.
Definition s8 (z : Z) : Z := (z + 128) mod 256 - 128.
Definition s16 (z : Z) : Z := (z + 32768) mod 65536 - 32768.
Definition s32 (z : Z) : Z := (z + 2147483648) mod 4294967296 - 2147483648.
Definition s64 (z : Z) : Z :=
  (z + 9223372036854775808) mod 18446744073709551616 - 9223372036854775808.

Definition is_u8 (z : Z) : Prop := 0 <= z < 256.
Definition is_u16 (z : Z) : Prop := 0 <= z < 65536.
Definition is_u32 (z : Z) : Prop := 0 <= z < 4294967296.
Definition is_u64 (z : Z) : Prop := 0 <= z < 18446744073709551616.
Definition is_s16 (z : Z) : Prop := -32768 <= z < 32768.
Definition is_s32 (z : Z) : Prop := -2147483648 <= z < 2147483648.
Definition is_s64 (z : Z) : Prop := -9223372036854775808 <= z < 9223372036854775808.

(** [b2z b] is the C value of a comparison or a logical operator. *)
Definition b2z (b : bool) : Z := if b then 1 else 0.

(** [ztrue z] is the truth value of a C scalar used as a condition. *)
Definition ztrue (z : Z) : bool := negb (z =? 0).

(** ** Tactics *)

Ltac unfold_ints :=
  unfold is_u8, is_u16, is_u32, is_u64, is_s16, is_s32, is_s64,
    u8, u16, u32, u64, s8, s16, s32, s64 in *.

(** [wraplia] is [lia] after unfolding the wrap functions into division equations. *)
Ltac wraplia := unfold_ints; Z.div_mod_to_equations; lia.

(** [zbool] turns the boolean comparisons on [Z] of the context into their
    propositions. *)
Ltac zbool :=
  repeat match goal with
  | H : (_ =? _) = true |- _ => apply Z.eqb_eq in H
  | H : (_ =? _) = false |- _ => apply Z.eqb_neq in H
  | H : (_ <? _) = true |- _ => apply Z.ltb_lt in H
  | H : (_ <? _) = false |- _ => apply Z.ltb_ge in H
  | H : (_ <=? _) = true |- _ => apply Z.leb_le in H
  | H : (_ <=? _) = false |- _ => apply Z.leb_gt in H
  | H : negb _ = true |- _ => apply negb_true_iff in H
  | H : negb _ = false |- _ => apply negb_false_iff in H
  | H : _ && _ = true |- _ => apply andb_true_iff in H; destruct H
  | H : _ || _ = false |- _ => apply orb_false_iff in H; destruct H
  end.

(** [ifs] splits on the conditions of the goal, one at a time. *)
Ltac ifs :=
  repeat match goal with
  | |- context [if ?b then _ else _] => destruct b eqn:?
  end; zbool.

(** [ifs_in H] splits on the conditions of [H]. *)
Ltac ifs_in H :=
  repeat match type of H with
  | context [if ?b then _ else _] => destruct b eqn:?
  end; zbool.

(** [notin] proves that an element is not in a concrete list. *)
Ltac notin := repeat (apply not_elem_of_cons; split; [done|]); apply not_elem_of_nil.

Create HintDb anp.
Create Rewrite HintDb anp.

(** ** Range lemmas *)

Lemma u8_range z : is_u8 (u8 z).
Proof. unfold is_u8, u8. apply Z.mod_pos_bound. lia. Qed.

Lemma u16_range z : is_u16 (u16 z).
Proof. unfold is_u16, u16. apply Z.mod_pos_bound. lia. Qed.

Lemma u32_range z : is_u32 (u32 z).
Proof. unfold is_u32, u32. apply Z.mod_pos_bound. lia. Qed.

Lemma u64_range z : is_u64 (u64 z).
Proof. unfold is_u64, u64. apply Z.mod_pos_bound. lia. Qed.

Lemma s16_range z : is_s16 (s16 z).
Proof. unfold is_s16, s16. pose proof (Z.mod_pos_bound (z + 32768) 65536). lia. Qed.

Lemma s32_range z : is_s32 (s32 z).
Proof. unfold is_s32, s32. pose proof (Z.mod_pos_bound (z + 2147483648) 4294967296). lia. Qed.

Lemma u8_id z : is_u8 z → u8 z = z.
Proof. apply Z.mod_small. Qed.

Lemma u16_id z : is_u16 z → u16 z = z.
Proof. apply Z.mod_small. Qed.

Lemma u32_id z : is_u32 z → u32 z = z.
Proof. apply Z.mod_small. Qed.

Lemma u64_id z : is_u64 z → u64 z = z.
Proof. apply Z.mod_small. Qed.

Lemma s16_id z : is_s16 z → s16 z = z.
Proof. intros H. unfold is_s16, s16 in *. rewrite Z.mod_small; lia. Qed.

Lemma s32_id z : is_s32 z → s32 z = z.
Proof. intros H. unfold is_s32, s32 in *. rewrite Z.mod_small; lia. Qed.

Lemma s32_u32 z : s32 (u32 z) = s32 z.
Proof. unfold s32, u32. by rewrite Zplus_mod_idemp_l. Qed.

Lemma u32_s32 z : u32 (s32 z) = u32 z.
Proof.
  unfold s32, u32. rewrite Zminus_mod_idemp_l. f_equal. lia.
Qed.

#[export] Hint Resolve u8_range u16_range u32_range u64_range s16_range s32_range : anp.
#[export] Hint Rewrite s32_u32 u32_s32 : anp.

(** ** Lists *)

Lemma filter_all {A} (P : A → Prop) `{!∀ x, Decision (P x)} (l : list A) :
  Forall P l → filter P l = l.
Proof. induction 1; [done|]. rewrite filter_cons_True by done. by f_equal. Qed.

(** [l !! i] for an index in [Z]. *)
Lemma lookup_lt_is_Some_Z {A} (l : list A) (i : Z) :
  0 <= i < Z.of_nat (length l) → ∃ x, l !! Z.to_nat i = Some x.
Proof. intros H. apply lookup_lt_is_Some_2. lia. Qed.

(** ** Bytes *)

Lemma testbit_high b n i : 0 <= b < 2 ^ n → n <= i → Z.testbit b i = false.
Proof.
  intros Hb Hi. destruct (Z.eq_dec b 0) as [->|]; [apply Z.bits_0|].
  apply Z.bits_above_log2; [lia|]. apply Z.log2_lt_pow2; [lia|].
  eapply Z.lt_le_trans; [apply Hb|]. apply Z.pow_le_mono_r; lia.
Qed.

(** Disjoint bits: [or] with a shifted value is addition. *)
Lemma lor_shiftl_add a b n :
  0 <= n → 0 <= b < 2 ^ n → Z.lor (Z.shiftl a n) b = a * 2 ^ n + b.
Proof.
  intros Hn Hb. rewrite <- Z.shiftl_mul_pow2 by done.
  assert (Hd : Z.land (Z.shiftl a n) b = 0).
  { apply Z.bits_inj'; intros i Hi. rewrite Z.land_spec, Z.bits_0.
    destruct (Z.lt_ge_cases i n); [by rewrite Z.shiftl_spec_low by lia|].
    rewrite (testbit_high b n i), andb_false_r by lia. done. }
  rewrite <- Z.lxor_lor by done. symmetry. by apply Z.add_nocarry_lxor.
Qed.

(** The big-endian value of a list of bytes. *)
Definition be_val (l : list Z) : Z := foldl (λ acc b, acc * 256 + b) 0 l.

(** ** Effects

    Kernel code that can stop: [Panic] is a call of [panic], [Crash] a memory
    access outside the objects the model knows (a null or wild pointer, an index
    past the end of a buffer).  [M S] threads a state of type [S] through it. *)

Inductive res (A : Type) := Ok (a : A) | Panic | Crash.
Arguments Ok {A} a.
Arguments Panic {A}.
Arguments Crash {A}.

Definition M (S A : Type) : Type := S → res (A * S).

Definition ret {S A} (a : A) : M S A := λ s, Ok (a, s).
Definition bind {S A B} (m : M S A) (f : A → M S B) : M S B := λ s,
  match m s with Ok (a, s) => f a s | Panic => Panic | Crash => Crash end.

Declare Scope anp_scope.
Notation "'let!' x := e 'in' k" := (bind e (λ x, k))
  (at level 10, x name, e at level 200, k at level 200, format "'let!'  x  :=  e  'in' '//' k")
  : anp_scope.
Notation "'let!' ' p := e 'in' k" := (bind e (λ p, k))
  (at level 10, p strict pattern, e at level 200, k at level 200) : anp_scope.
Notation "'do!' e 'in' k" := (bind e (λ _, k))
  (at level 10, e at level 200, k at level 200, format "'do!'  e  'in' '//' k") : anp_scope.
Global Open Scope anp_scope.

Definition panic {S A} : M S A := λ _, Panic.
Definition crash {S A} : M S A := λ _, Crash.
Definition get {S} : M S S := λ s, Ok (s, s).
Definition put {S} (s : S) : M S () := λ _, Ok ((), s).
Definition modify {S} (f : S → S) : M S () := λ s, Ok ((), f s).

(** A partial read in the monad. *)
Definition lift {S A} (o : option A) : M S A := match o with Some a => ret a | None => crash end.

Lemma bind_Ok {S A B} (m : M S A) (f : A → M S B) s r :
  bind m f s = Ok r ↔ ∃ a s', m s = Ok (a, s') ∧ f a s' = Ok r.
Proof.
  unfold bind. destruct (m s) as [[a s']| |]; split; try done.
  - intros H. by exists a, s'.
  - intros (a' & s'' & [= <- <-] & H). done.
  - intros (a' & s'' & ? & H). done.
  - intros (a' & s'' & ? & H). done.
Qed.

(** Total correctness: [m] started in [s] stops normally, with a result and a
    state that satisfy [Q]. *)
Definition wp {S A} (m : M S A) (s : S) (Q : A → S → Prop) : Prop :=
  match m s with Ok (a, s') => Q a s' | _ => False end.

Lemma wp_ok {S A} (m : M S A) s Q : wp m s Q ↔ ∃ a s', m s = Ok (a, s') ∧ Q a s'.
Proof.
  unfold wp. destruct (m s) as [[a s']| |]; split; try done.
  - intros H. by exists a, s'.
  - intros (? & ? & [= <- <-] & H). done.
  - by intros (? & ? & ? & H).
  - by intros (? & ? & ? & H).
Qed.

Lemma wp_bind {S A B} (m : M S A) (f : A → M S B) s Q :
  wp m s (λ a s', wp (f a) s' Q) → wp (bind m f) s Q.
Proof. unfold wp, bind. by destruct (m s) as [[a s']| |]. Qed.

Lemma wp_mono {S A} (m : M S A) s (P Q : A → S → Prop) :
  wp m s P → (∀ a s', P a s' → Q a s') → wp m s Q.
Proof. unfold wp. intros H HPQ. destruct (m s) as [[a s']| |]; auto. Qed.

Lemma wp_ret {S A} (a : A) (s : S) (Q : A → S → Prop) : Q a s → wp (ret a) s Q.
Proof. done. Qed.

Lemma wp_get {S} (s : S) (Q : S → S → Prop) : Q s s → wp get s Q.
Proof. done. Qed.

Lemma wp_put {S} (s s' : S) (Q : () → S → Prop) : Q () s' → wp (put s') s Q.
Proof. done. Qed.

Lemma wp_modify {S} (f : S → S) s (Q : () → S → Prop) : Q () (f s) → wp (modify f) s Q.
Proof. done. Qed.

Lemma wp_lift {S A} (o : option A) a (s : S) (Q : A → S → Prop) :
  o = Some a → Q a s → wp (lift o) s Q.
Proof. by intros ->. Qed.

(** Partial correctness: if [m] started in [s] stops normally, its result and
    state satisfy [Q]. *)
Definition wlp {S A} (m : M S A) (s : S) (Q : A → S → Prop) : Prop :=
  match m s with Ok (a, s') => Q a s' | _ => True end.

Lemma wlp_bind {S A B} (m : M S A) (f : A → M S B) s Q :
  wlp m s (λ a s', wlp (f a) s' Q) → wlp (bind m f) s Q.
Proof. unfold wlp, bind. by destruct (m s) as [[a s']| |]. Qed.

Lemma wlp_mono {S A} (m : M S A) s (P Q : A → S → Prop) :
  wlp m s P → (∀ a s', P a s' → Q a s') → wlp m s Q.
Proof. unfold wlp. intros H HPQ. destruct (m s) as [[a s']| |]; auto. Qed.

Lemma wlp_ret {S A} (a : A) (s : S) (Q : A → S → Prop) : Q a s → wlp (ret a) s Q.
Proof. done. Qed.

Lemma wlp_get {S} (s : S) (Q : S → S → Prop) : Q s s → wlp get s Q.
Proof. done. Qed.

Lemma wlp_modify {S} (f : S → S) s (Q : () → S → Prop) : Q () (f s) → wlp (modify f) s Q.
Proof. done. Qed.

Lemma wlp_lift {S A} (o : option A) (s : S) (Q : A → S → Prop) :
  (∀ a, o = Some a → Q a s) → wlp (lift o) s Q.
Proof. destruct o; [intros H; by apply H|done]. Qed.

Lemma wlp_crash {S A} (s : S) (Q : A → S → Prop) : wlp crash s Q.
Proof. done. Qed.

(** A step about which nothing needs to be known. *)
Lemma wlp_skip {S A B} (m : M S A) (f : A → M S B) s Q : (∀ a s', wlp (f a) s' Q) → wlp (bind m f) s Q.
Proof. intros H. apply wlp_bind. unfold wlp at 1. destruct (m s) as [[a s']| |]; [apply H|done..]. Qed.

Lemma wp_wlp {S A} (m : M S A) s (P Q : A → S → Prop) :
  wp m s P → wlp m s Q → wp m s (λ a s', P a s' ∧ Q a s').
Proof. unfold wp, wlp. by destruct (m s) as [[a s']| |]. Qed.

(** One step of a proof about monadic code. *)
Ltac wp_step :=
  lazymatch goal with
  | |- wp (bind _ _) _ _ => apply wp_bind
  | |- wp (ret _) _ _ => apply wp_ret
  | |- wp get _ _ => apply wp_get
  | |- wp (put _) _ _ => apply wp_put
  | |- wp (modify _) _ _ => apply wp_modify
  end.

Ltac wp_steps := repeat wp_step.

(** ** Buffers *)

Definition read_bytes (buf : list Z) (off n : Z) : option (list Z) :=
  if (0 <=? off) && (0 <=? n) && (off + n <=? Z.of_nat (length buf))
  then Some (take (Z.to_nat n) (drop (Z.to_nat off) buf)) else None.

Definition write_bytes (buf : list Z) (off : Z) (bs : list Z) : option (list Z) :=
  if (0 <=? off) && (off + Z.of_nat (length bs) <=? Z.of_nat (length buf))
  then Some (take (Z.to_nat off) buf ++ bs ++ drop (Z.to_nat off + length bs) buf) else None.

Lemma read_bytes_Some buf off n :
  0 <= off → 0 <= n → off + n <= Z.of_nat (length buf) →
  read_bytes buf off n = Some (take (Z.to_nat n) (drop (Z.to_nat off) buf)).
Proof.
  intros H1 H2 H3. unfold read_bytes.
  by rewrite (proj2 (Z.leb_le 0 off)), (proj2 (Z.leb_le 0 n)), (proj2 (Z.leb_le _ _)) by lia.
Qed.

Lemma write_bytes_Some buf off bs :
  0 <= off → off + Z.of_nat (length bs) <= Z.of_nat (length buf) →
  write_bytes buf off bs =
    Some (take (Z.to_nat off) buf ++ bs ++ drop (Z.to_nat off + length bs) buf).
Proof.
  intros H1 H2. unfold write_bytes.
  by rewrite (proj2 (Z.leb_le 0 off)), (proj2 (Z.leb_le _ _)) by lia.
Qed.

Lemma write_bytes_length buf off bs buf' :
  write_bytes buf off bs = Some buf' → length buf' = length buf.
Proof.
  unfold write_bytes. destruct (_ && _) eqn:E; [|done]. zbool. intros [= <-].
  rewrite !length_app, length_take, length_drop. lia.
Qed.
