(* ===== verification/Callout.v ===== *)
(** * The callout queue and the simulated clock (uspace/timers.c)

    The kernel simulator keeps its timers in a delta queue: every entry holds
    the number of ticks after the entry before it.  [timeout] and [untimeout]
    insert and cancel entries, [hardclock] (the clock thread) counts down,
    [softclock] (the inner loop of the callout thread) runs what has expired.
    The second part models the [timeval] arithmetic of the same file. *)

From Stdlib Require Import Sorted.
From stdpp Require Import options.
From S2P Require Import Prelude.

Module Callout.

(** ** Data (callout.h) *)

(** A queue entry; the function and its argument are addresses.  The [next]
    pointers are the list structure of the queue. *)
Record cqueue_t := Cq { cq_func : Z; cq_arg : Z; cq_ticks : Z }.

(** [cq_alloc]: a fresh entry. *)
Definition cq_alloc (func arg ticks : Z) : cqueue_t :=
  {| cq_func := func; cq_arg := arg; cq_ticks := ticks |}.

Definition set_ticks (c : cqueue_t) (t : Z) : cqueue_t := Cq (cq_func c) (cq_arg c) t.

(** ** Operations *)

(** The [for] loop of [timeout]: [t] is the tick count relative to the entry
    that was just passed. *)
Fixpoint timeout_walk (func arg t : Z) (q : list cqueue_t) : list cqueue_t :=
  match q with
  | it :: rest =>
      if cq_ticks it <=? t
      then it :: timeout_walk func arg (s32 (t - cq_ticks it)) rest
      else cq_alloc func arg t :: q
  | [] => [cq_alloc func arg t]
  end.

Definition timeout (func arg ticks : Z) (cq_head : list cqueue_t) : list cqueue_t :=
  match cq_head with
  | [] => [cq_alloc func arg ticks]
  | h :: tl =>
      if ticks <? cq_ticks h
      then cq_alloc func arg ticks :: set_ticks h (s32 (cq_ticks h - ticks)) :: tl
      else h :: timeout_walk func arg (s32 (ticks - cq_ticks h)) tl
  end.

Definition cq_matches (func arg : Z) (c : cqueue_t) : bool :=
  (cq_func c =? func) && (cq_arg c =? arg).

(** Unlinking an entry gives its ticks to the entry after it. *)
Definition cq_absorb (t : Z) (q : list cqueue_t) : list cqueue_t :=
  match q with
  | [] => []
  | c :: q' => set_ticks c (s32 (cq_ticks c + t)) :: q'
  end.

Fixpoint untimeout (func arg : Z) (q : list cqueue_t) : list cqueue_t :=
  match q with
  | [] => []
  | c :: q' =>
      if cq_matches func arg c then cq_absorb (cq_ticks c) q'
      else c :: untimeout func arg q'
  end.

(** The countdown loop of [hardclock]; the boolean is [needsoft]. *)
Fixpoint hardclock_loop (q : list cqueue_t) : list cqueue_t * bool :=
  match q with
  | [] => ([], false)
  | c :: q' =>
      let t := s32 (cq_ticks c - 1) in
      if 0 <? t then (set_ticks c t :: q', false)
      else if t =? 0 then (set_ticks c t :: q', true)
      else let '(q'', _) := hardclock_loop q' in (set_ticks c t :: q'', true)
  end.

(** [expired q] is the number of entries at the front that are due. *)
Fixpoint expired (q : list cqueue_t) : nat :=
  match q with
  | c :: q' => if cq_ticks c <=? 0 then S (expired q') else O
  | [] => O
  end.

Section Softclock.

(** What a callout function does to the queue when it is called. *)
Context (call : Z → Z → list cqueue_t → list cqueue_t).

(** The inner loop of [callout_thread]: unlink the entry, then call its
    function.  The result is the list of calls made and the queue left. *)
Fixpoint softclock (fuel : nat) (q : list cqueue_t) : option (list (Z * Z) * list cqueue_t) :=
  match q with
  | c :: q' =>
      if cq_ticks c <=? 0 then
        match fuel with
        | O => None
        | S fuel =>
            match softclock fuel (call (cq_func c) (cq_arg c) q') with
            | Some (calls, r) => Some ((cq_func c, cq_arg c) :: calls, r)
            | None => None
            end
        end
      else Some ([], q)
  | [] => Some ([], [])
  end.

End Softclock.

(** ** Deadlines

    [due t q] lists function, argument and absolute deadline of each entry,
    where the queue starts at time [t]; [tte] is the time to expiry as
    [hardclock] counts it, where an entry that is overdue delays nothing. *)

Fixpoint due (t : Z) (q : list cqueue_t) : list (Z * Z * Z) :=
  match q with
  | [] => []
  | c :: q' => (cq_func c, cq_arg c, t + cq_ticks c) :: due (t + cq_ticks c) q'
  end.

Fixpoint tte (t : Z) (q : list cqueue_t) : list Z :=
  match q with
  | [] => []
  | c :: q' => (t + Z.max 0 (cq_ticks c)) :: tte (t + Z.max 0 (cq_ticks c)) q'
  end.

Definition deadline (e : Z * Z * Z) : Z := snd e.
Definition shift_deadline (d : Z) (e : Z * Z * Z) : Z * Z * Z := (fst e, snd e + d).

(** How late the overdue entries are, together. *)
Fixpoint late (q : list cqueue_t) : Z :=
  match q with [] => 0 | c :: q' => Z.max 0 (- cq_ticks c) + late q' end.

(** A queue on which nothing is overdue and every deadline is an [int]. *)
Fixpoint total (q : list cqueue_t) : Z :=
  match q with [] => 0 | c :: q' => cq_ticks c + total q' end.

Definition wf (q : list cqueue_t) : Prop :=
  Forall (λ c, 0 <= cq_ticks c) q ∧ total q < 2147483648.

Definition keep (f a : Z) (q : list cqueue_t) : list cqueue_t := q.

(** The calls whose deadline is [d]. *)
Definition due_at (d : Z) (l : list (Z * Z * Z)) : list (Z * Z) :=
  fst <$> filter (λ e, deadline e = d) l.

(** ** The clock *)

Record timeval := Tv { tv_sec : Z; tv_usec : Z }.

(** [tick] and [hz] of kern_globals.c. *)
Definition tick : Z := 10000.
Definition hz : Z := 100.

Definition BUMPTIME (t : timeval) (usec : Z) : timeval :=
  let us := s32 (tv_usec t + usec) in
  if 1000000 <=? us then Tv (s32 (tv_sec t + 1)) (s32 (us - 1000000))
  else Tv (tv_sec t) us.

(** The state the clock thread works on; [clock_sig] counts the signals sent to
    the callout thread. *)
Record clock := Clock
  { cq_head : list cqueue_t; ticks : Z; anp_sys_time : timeval; clock_sig : nat }.

Definition hardclock (k : clock) : clock :=
  let '(q, needsoft) := hardclock_loop (cq_head k) in
  Clock q (s32 (ticks k + 1)) (BUMPTIME (anp_sys_time k) tick)
    (if needsoft then S (clock_sig k) else clock_sig k).

Definition microtime (k : clock) : timeval := anp_sys_time k.

(** What a callout function, or another thread between two ticks, asks for. *)
Inductive ask := Arm (f a n : Z) | Cancel (f a : Z).

Definition run_ask (q : list cqueue_t) (o : ask) : list cqueue_t :=
  match o with Arm f a n => timeout f a n q | Cancel f a => untimeout f a q end.

(** An event: a request of another thread, or a tick of the clock. *)
Inductive event := Ask (o : ask) | Tick.
#[export] Instance ask_eq_dec : EqDecision ask.
Proof. solve_decision. Defined.
#[export] Instance event_eq_dec : EqDecision event.
Proof. solve_decision. Defined.

Section Run.

(** The requests that the function at an address makes when it is called with an
    argument at a tick. *)
Context (asks : Z → Z → Z → list ask).

Definition call_at (now f a : Z) (q : list cqueue_t) : list cqueue_t := foldl run_ask q (asks now f a).

Definition set_head (q : list cqueue_t) (k : clock) : clock := Clock q (ticks k) (anp_sys_time k) (clock_sig k).

(** A tick, of the clock thread and of the callout thread, which is asleep until it is
    signalled and then runs what is due. *)
Definition clock_tick (now : Z) (k : clock) : option (list (Z * Z) * clock) :=
  let k' := hardclock k in
  if (clock_sig k <? clock_sig k')%nat then
    match softclock (call_at now) (expired (cq_head k')) (cq_head k') with
    | Some (calls, q) => Some (calls, set_head q k')
    | None => None
    end
  else Some ([], k').

(** The events from the tick [now] on: the calls, each with the tick at which it is
    made, and the clock. *)
Fixpoint run_clock (now : Z) (k : clock) (es : list event) : option (list (Z * (Z * Z)) * clock) :=
  match es with
  | [] => Some ([], k)
  | Ask o :: es => run_clock now (set_head (run_ask (cq_head k) o) k) es
  | Tick :: es =>
      match clock_tick (now + 1) k with
      | Some (calls, k) =>
          match run_clock (now + 1) k es with
          | Some (log, k) => Some ((pair (now + 1) <$> calls) ++ log, k)
          | None => None
          end
      | None => None
      end
  end.

(** *** The agenda

    What the queue stands for: the calls to be made, each with the tick at which it is
    due, in the order of these. *)

(** A new call, [n] ticks from now, goes behind those due no later.  The code does not
    take its ticks off the entry behind it, so in the middle of the queue it puts off
    the later ones by its distance from the one before. *)
Definition ag_arm (now f a n : Z) (l : list (Z * Z * Z)) : list (Z * Z * Z) :=
  let before := filter (λ e, deadline e <= now + n) l in
  let after := filter (λ e, now + n < deadline e) l in
  before ++ (f, a, now + n) ::
    match last before with None => after | Some e => shift_deadline (now + n - deadline e) <$> after end.

(** The first call of [f] with [a] is called off. *)
Definition ag_cancel (f a : Z) (l : list (Z * Z * Z)) : list (Z * Z * Z) :=
  match list_find (λ e, fst e = (f, a)) l with
  | Some (i, _) => take i l ++ drop (S i) l
  | None => l
  end.

(** Requests are for one tick or more, and no distance overflows an [int]. *)
Definition ag_ask (now : Z) (l : list (Z * Z * Z)) (o : ask) : option (list (Z * Z * Z)) :=
  match o with
  | Arm f a n =>
      if (1 <=? n) && (n <? 2147483648) && forallb (λ e, deadline e - now + n <? 2147483648) l
      then Some (ag_arm now f a n l) else None
  | Cancel f a => Some (ag_cancel f a l)
  end.

Fixpoint ag_asks (now : Z) (l : list (Z * Z * Z)) (os : list ask) : option (list (Z * Z * Z)) :=
  match os with
  | [] => Some l
  | o :: os => match ag_ask now l o with Some l => ag_asks now l os | None => None end
  end.

(** The calls due at [now] are made one after the other, each taken off the agenda
    before its function makes its requests. *)
Inductive fires (now : Z) : list (Z * Z * Z) → list (Z * Z) → list (Z * Z * Z) → Prop :=
  | fires_none l : Forall (λ e, deadline e ≠ now) l → fires now l [] l
  | fires_first f a l l1 calls l2 :
      ag_asks now l (asks now f a) = Some l1 → fires now l1 calls l2 →
      fires now ((f, a, now) :: l) ((f, a) :: calls) l2.

Inductive ag_runs : Z → list (Z * Z * Z) → list event → list (Z * (Z * Z)) → list (Z * Z * Z) → Prop :=
  | runs_nil now l : ag_runs now l [] [] l
  | runs_ask now l o l1 es log l2 :
      ag_ask now l o = Some l1 → ag_runs now l1 es log l2 → ag_runs now l (Ask o :: es) log l2
  | runs_tick now l calls l1 es log l2 :
      fires (now + 1) l calls l1 → ag_runs (now + 1) l1 es log l2 →
      ag_runs now l (Tick :: es) ((pair (now + 1) <$> calls) ++ log) l2.

End Run.

Definition tv_diff (t1 t2 : timeval) : timeval :=
  if tv_usec t1 <? tv_usec t2
  then Tv (s32 (tv_sec t1 - tv_sec t2 - 1)) (s32 (1000000 + tv_usec t1 - tv_usec t2))
  else Tv (s32 (tv_sec t1 - tv_sec t2)) (s32 (tv_usec t1 - tv_usec t2)).

Definition timevalfix (t : timeval) : timeval :=
  let t := if tv_usec t <? 0 then Tv (s32 (tv_sec t - 1)) (s32 (tv_usec t + 1000000)) else t in
  if 1000000 <=? tv_usec t then Tv (s32 (tv_sec t + 1)) (s32 (tv_usec t - 1000000)) else t.

Definition timevaladd (t1 t2 : timeval) : timeval :=
  timevalfix (Tv (s32 (tv_sec t1 + tv_sec t2)) (s32 (tv_usec t1 + tv_usec t2))).

Definition EINVAL : Z := 22.

(** [itimerfix] returns the error and the value, rounded up to a tick. *)
Definition itimerfix (tv : timeval) : Z * timeval :=
  if (tv_sec tv <? 0) || (100000000 <? tv_sec tv) ||
     (tv_usec tv <? 0) || (1000000 <=? tv_usec tv) then (EINVAL, tv)
  else if (tv_sec tv =? 0) && negb (tv_usec tv =? 0) && (tv_usec tv <? tick)
  then (0, Tv (tv_sec tv) tick)
  else (0, tv).

(** C division truncates: [Z.quot]. *)
Definition hzto (now tv : timeval) : Z :=
  let sec := s32 (tv_sec tv - tv_sec now) in
  if sec <=? Z.quot 2147483647 1000 - 1000 then
    Z.quot (s32 (s32 (s32 (tv_sec tv - tv_sec now) * 1000) +
                 Z.quot (s32 (tv_usec tv - tv_usec now)) 1000)) (Z.quot tick 1000)
  else if sec <=? Z.quot 2147483647 hz then s32 (sec * hz)
  else 2147483647.

(** The time in microseconds, and the values the code means to keep. *)
Definition usecs (t : timeval) : Z := tv_sec t * 1000000 + tv_usec t.
Definition tv_ok (t : timeval) : Prop := is_s32 (tv_sec t) ∧ 0 <= tv_usec t < 1000000.

(** ** Lemmas *)

Lemma total_nonneg q : Forall (λ c, 0 <= cq_ticks c) q → 0 <= total q.
Proof. induction 1; simpl; lia. Qed.

Lemma late_nonneg q : 0 <= late q.
Proof. induction q; simpl; lia. Qed.

Lemma wf_cons c q : wf (c :: q) → 0 <= cq_ticks c < 2147483648 ∧ wf q.
Proof.
  intros [H1 H2]. inversion H1 as [|? ? Hc Hq]; subst. simpl in H2.
  pose proof (total_nonneg q Hq). split; [lia|]. split; [done|lia].
Qed.

Lemma due_length t q : length (due t q) = length q.
Proof. revert t; induction q; intros t; simpl; auto. Qed.

Lemma due_shift d t q : due (t + d) q = shift_deadline d <$> due t q.
Proof.
  revert t; induction q as [|c q IH]; intros t; simpl; [done|].
  replace (t + d + cq_ticks c) with (t + cq_ticks c + d) by lia.
  unfold shift_deadline at 1; simpl. f_equal. apply IH.
Qed.

Lemma shift_deadline_0 (l : list (Z * Z * Z)) : shift_deadline 0 <$> l = l.
Proof.
  induction l as [|[[f a] d] l IH]; csimpl; [done|]. rewrite IH.
  unfold shift_deadline; simpl. by rewrite Z.add_0_r.
Qed.

Lemma due_ge t q : Forall (λ c, 0 <= cq_ticks c) q → Forall (λ e, t <= deadline e) (due t q).
Proof.
  intros H; revert t; induction H as [|c q Hc _ IH]; intros t; simpl; constructor.
  - unfold deadline; simpl; lia.
  - eapply Forall_impl; [apply (IH (t + cq_ticks c))|simpl; intros; lia].
Qed.

(** The walk splits the queue at the deadline of the new entry. *)
Lemma timeout_walk_due f a n t q :
  wf q → 0 <= n < 2147483648 →
  ∃ before after d,
    due t q = before ++ after ∧
    Forall (λ e, deadline e <= t + n) before ∧
    Forall (λ e, t + n < deadline e) after ∧
    d = n + t - deadline (default (0, 0, t) (last before)) ∧
    due t (timeout_walk f a n q) = before ++ (f, a, t + n) :: (shift_deadline d <$> after).
Proof.
  revert n t; induction q as [|c q IH]; intros n t Hwf Hn.
  { exists [], [], n. unfold deadline; simpl. repeat split; auto. lia. }
  apply wf_cons in Hwf as [Hc Hwf]. simpl. destruct (cq_ticks c <=? n) eqn:E; zbool.
  - rewrite s32_id by (unfold is_s32; lia).
    destruct (IH (n - cq_ticks c) (t + cq_ticks c) Hwf) as (bf & af & d & H1 & H2 & H3 & Hd & H4);
      [lia|].
    exists ((cq_func c, cq_arg c, t + cq_ticks c) :: bf), af, d. simpl.
    rewrite H1, H4. split; [done|]. split; [|split; [|split]].
    + constructor; [unfold deadline; simpl; lia|].
      eapply Forall_impl; [apply H2|simpl; intros; lia].
    + eapply Forall_impl; [apply H3|simpl; intros; lia].
    + destruct bf as [|e bf]; unfold deadline in *; simpl in *; [lia|].
      destruct (last (e :: bf)) eqn:El; simpl in *; [lia|].
      by apply last_None in El.
    + by replace (t + cq_ticks c + (n - cq_ticks c)) with (t + n) by lia.
  - exists [], ((cq_func c, cq_arg c, t + cq_ticks c) :: due (t + cq_ticks c) q), n.
    simpl. split; [done|]. split; [constructor|]. split; [|split].
    + constructor; [unfold deadline; simpl; lia|].
      eapply Forall_impl; [apply (due_ge _ _ (proj1 Hwf))|simpl; intros; lia].
    + unfold deadline; simpl; lia.
    + csimpl. rewrite <- due_shift. unfold shift_deadline; simpl.
      replace (t + n + cq_ticks c) with (t + cq_ticks c + n) by lia. done.
Qed.

Lemma hardclock_loop_tte t q :
  Forall (λ c, -2147483648 < cq_ticks c < 2147483648) q →
  tte t (fst (hardclock_loop q)) = (λ d, t + Z.max 0 (d - t - 1)) <$> tte t q.
Proof.
  intros H; revert t; induction H as [|c q Hc Hq IH]; intros t; simpl; [done|].
  rewrite s32_id by (unfold is_s32; lia).
  assert (Hsh : ∀ u, t < u → tte (u - 1) q = (λ d, t + Z.max 0 (d - t - 1)) <$> tte u q).
  { clear. induction q as [|c q IH]; intros u Hu; simpl; [done|].
    f_equal; [lia|]. rewrite <- IH by lia. f_equal; lia. }
  destruct (0 <? _) eqn:E1; [|destruct (_ =? 0) eqn:E2]; zbool; simpl.
  - f_equal; [lia|]. rewrite <- Hsh by lia. f_equal; lia.
  - f_equal; [lia|]. rewrite <- Hsh by lia. f_equal; lia.
  - specialize (IH t). destruct (hardclock_loop q) as [q' b]; simpl in *.
    rewrite !Z.max_l, !Z.add_0_r by lia. rewrite IH. f_equal; lia.
Qed.

Lemma hardclock_loop_soft q :
  Forall (λ c, -2147483648 < cq_ticks c < 2147483648) q →
  snd (hardclock_loop q) = negb (expired (fst (hardclock_loop q)) =? 0)%nat.
Proof.
  destruct 1 as [|c q Hc Hq]; simpl; [done|].
  rewrite s32_id by (unfold is_s32; lia).
  destruct (0 <? _) eqn:E1; [|destruct (_ =? 0) eqn:E2]; zbool; simpl.
  - destruct (_ <=? 0) eqn:E3; zbool; [lia|done].
  - destruct (_ <=? 0) eqn:E3; zbool; [done|lia].
  - destruct (hardclock_loop q); simpl. destruct (_ <=? 0) eqn:E3; zbool; [done|lia].
Qed.

Lemma untimeout_due f a t q :
  wf q →
  due t (untimeout f a q) =
  match list_find (λ c, cq_matches f a c = true) q with
  | Some (i, _) => take i (due t q) ++ drop (S i) (due t q)
  | None => due t q
  end.
Proof.
  revert t; induction q as [|c q IH]; intros t Hwf; [done|].
  pose proof Hwf as [Hall Htot]. apply wf_cons in Hwf as [Hc Hwf]. simpl in *.
  destruct (decide (cq_matches f a c = true)) as [E|E].
  - rewrite E. simpl. destruct q as [|c' q]; [done|]. simpl.
    apply wf_cons in Hwf as [Hc' Hwf]. pose proof (total_nonneg q (proj1 Hwf)).
    simpl in Htot. rewrite s32_id by (unfold is_s32; lia).
    replace (t + (cq_ticks c' + cq_ticks c)) with (t + cq_ticks c + cq_ticks c') by lia. done.
  - apply not_true_is_false in E. rewrite E. simpl. rewrite IH by done.
    destruct (list_find _ q) as [[i x]|]; simpl; done.
Qed.

Lemma hardclock_loop_length q : length (fst (hardclock_loop q)) = length q.
Proof.
  induction q as [|c q IH]; simpl; [done|]. ifs; simpl; auto.
  destruct (hardclock_loop q); simpl in *; auto.
Qed.

Lemma filter_due_none (P : Z * Z * Z → Prop) `{!∀ e, Decision (P e)} t q :
  Forall (λ c, 0 <= cq_ticks c) q → (∀ e, P e → deadline e < t) →
  filter P (due t q) = [].
Proof.
  intros Hq HP. pose proof (due_ge t q Hq) as Hge.
  induction Hge as [|e l He Hl IH]; [done|].
  rewrite filter_cons_False; [done|]. intros Hc. apply HP in Hc. lia.
Qed.

(** Draining a queue on which nothing is overdue runs the entries with
    deadline 0 and leaves the others with their deadlines. *)
Lemma softclock_keep q :
  wf q →
  ∃ r, softclock keep (length q) q = Some (due_at 0 (due 0 q), r) ∧ wf r ∧
       expired r = O ∧ due 0 r = filter (λ e, 0 < deadline e) (due 0 q).
Proof.
  unfold due_at. induction q as [|c q IH]; intros Hwf; [by exists []|].
  pose proof Hwf as Hwf'. apply wf_cons in Hwf as [Hc Hwf]. simpl.
  destruct (cq_ticks c <=? 0) eqn:E; zbool.
  - assert (cq_ticks c = 0) as H0 by lia. rewrite H0. simpl.
    destruct (IH Hwf) as (r & Hs & Hr & He & Hd). exists r.
    unfold keep at 2. rewrite Hs.
    rewrite filter_cons_False by (unfold deadline; simpl; lia). done.
  - exists (c :: q). split; [|split; [done|split]].
    + rewrite (filter_cons_False (λ e, deadline e = 0)) by (unfold deadline; simpl; lia).
      rewrite filter_due_none; [done|apply Hwf|]. intros e He; lia.
    + simpl. rewrite (proj2 (Z.leb_gt _ _)) by lia. done.
    + simpl. rewrite filter_cons_True by (unfold deadline; simpl; lia). f_equal.
      symmetry. apply filter_all.
      eapply Forall_impl; [apply due_ge, Hwf|]. simpl; intros; lia.
Qed.

(** On a queue with nothing due, a tick decrements the first entry only. *)
Lemma hardclock_loop_due q :
  wf q → expired q = O →
  wf (fst (hardclock_loop q)) ∧
  due 0 (fst (hardclock_loop q)) = shift_deadline (-1) <$> due 0 q.
Proof.
  destruct q as [|c q]; simpl; [done|]. intros Hwf Hex. pose proof Hwf as [Hall Htot].
  apply wf_cons in Hwf as [Hc Hwf]. destruct (cq_ticks c <=? 0) eqn:E; [done|]. zbool.
  rewrite s32_id by (unfold is_s32; lia). clear Hex.
  assert (Hgoal : wf (set_ticks c (cq_ticks c - 1) :: q) ∧
    due 0 (set_ticks c (cq_ticks c - 1) :: q) = shift_deadline (-1) <$> due 0 (c :: q)).
  { split.
    - split; [constructor; [simpl; lia|apply Hwf]|]. simpl in *. lia.
    - csimpl. rewrite <- due_shift. unfold shift_deadline; simpl.
      replace (cq_ticks c - 1) with (cq_ticks c + -1) by lia. done. }
  destruct (0 <? _) eqn:E1; [done|]. destruct (_ =? 0) eqn:E2; zbool; [done|lia].
Qed.

Lemma due_at_shift d k (l : list (Z * Z * Z)) :
  due_at d (shift_deadline k <$> l) = due_at (d - k) l.
Proof.
  unfold due_at. induction l as [|e l IH]; [done|]. csimpl.
  destruct (decide (deadline e = d - k)) as [E|E].
  - rewrite !filter_cons_True; [|unfold deadline, shift_deadline in *; simpl; lia..].
    csimpl. by rewrite IH.
  - rewrite !filter_cons_False; [done|unfold deadline, shift_deadline in *; simpl; lia..].
Qed.

Lemma due_at_filter d (l : list (Z * Z * Z)) :
  0 < d → due_at d (filter (λ e, 0 < deadline e) l) = due_at d l.
Proof.
  intros Hd. unfold due_at. f_equal. rewrite list_filter_filter.
  apply list_filter_iff. intros e. lia.
Qed.

Lemma timeout_walk_expired f a t q :
  1 <= t → t + late q < 2147483648 → expired (timeout_walk f a t q) = expired q.
Proof.
  revert t; induction q as [|c q IH]; intros t Ht Hl; simpl in *.
  { by rewrite (proj2 (Z.leb_gt _ _)) by lia. }
  pose proof (late_nonneg q). destruct (cq_ticks c <=? t) eqn:E; zbool; simpl.
  - destruct (cq_ticks c <=? 0) eqn:E2; zbool; [|done]. f_equal.
    rewrite s32_id by (unfold is_s32; lia). apply IH; lia.
  - rewrite !(proj2 (Z.leb_gt _ _)) by lia. done.
Qed.

(** A timeout of at least one tick never adds to the entries that are due. *)
Lemma timeout_expired f a n q :
  1 <= n → n + late q < 2147483648 → Forall (λ c, cq_ticks c < 2147483648) q →
  expired (timeout f a n q) = expired q.
Proof.
  intros Hn Hl Hr. destruct q as [|c q]; simpl in *.
  { by rewrite (proj2 (Z.leb_gt _ _)) by lia. }
  pose proof (late_nonneg q). inversion_clear Hr.
  destruct (n <? cq_ticks c) eqn:E; zbool; simpl.
  - rewrite !(proj2 (Z.leb_gt _ _)) by lia. done.
  - destruct (cq_ticks c <=? 0) eqn:E2; zbool; [|done]. f_equal.
    rewrite s32_id by (unfold is_s32; lia). apply timeout_walk_expired; lia.
Qed.

(** ** Properties *)

(** [timeout] gives the new entry exactly its deadline and leaves every
    entry due no later than it where it was.  When the new entry goes to the
    front the later ones keep their deadlines too; otherwise each later entry
    is pushed back by the distance between the new entry and the one before it,
    because the code does not take the new entry's ticks off its successor. *)
Theorem timeout_deadlines f a n q :
  wf q → 0 <= n < 2147483648 →
  ∃ before after,
    due 0 q = before ++ after ∧
    Forall (λ e, deadline e <= n) before ∧ Forall (λ e, n < deadline e) after ∧
    due 0 (timeout f a n q) = before ++ (f, a, n) ::
      (if before is [] then after
       else shift_deadline (n - deadline (default (0, 0, 0) (last before))) <$> after).
Proof.
  intros Hwf Hn. destruct q as [|c q]; [by exists [], []|].
  pose proof Hwf as Hwf'. apply wf_cons in Hwf as [Hc Hwf]. simpl.
  destruct (n <? cq_ticks c) eqn:E; zbool.
  - exists [], (due 0 (c :: q)). split; [done|]. split; [constructor|].
    simpl. rewrite s32_id by (unfold is_s32; lia). split.
    + constructor; [unfold deadline; simpl; lia|].
      eapply Forall_impl; [apply due_ge, Hwf|]. simpl; intros; lia.
    + rewrite !Z.add_0_l. by replace (n + (cq_ticks c - n)) with (cq_ticks c) by lia.
  - rewrite s32_id by (unfold is_s32; lia).
    destruct (timeout_walk_due f a (n - cq_ticks c) (cq_ticks c) q Hwf)
      as (bf & af & d & H1 & H2 & H3 & Hd & H4); [lia|].
    exists ((cq_func c, cq_arg c, cq_ticks c) :: bf), af. simpl. rewrite !Z.add_0_l, H1, H4.
    replace (cq_ticks c + (n - cq_ticks c)) with n in * by lia.
    split; [done|]. split; [constructor; [unfold deadline; simpl; lia|done]|]. split; [done|].
    assert (d = n - deadline (default (0, 0, 0)
      (last ((cq_func c, cq_arg c, cq_ticks c) :: bf)))) as ->; [|done].
    rewrite Hd. destruct bf as [|e bf]; [unfold deadline; simpl; lia|].
    change (last (?x :: e :: bf)) with (last (e :: bf)).
    destruct (last (e :: bf)) eqn:El; simpl in *; [lia|]. by apply last_None in El.
Qed.

Lemma timeout_deadlines_witness :
  ∃ before after,
    due 0 [Cq 1 1 5; Cq 2 2 5] = before ++ after ∧
    Forall (λ e, deadline e <= 7) before ∧ Forall (λ e, 7 < deadline e) after ∧
    due 0 (timeout 3 3 7 [Cq 1 1 5; Cq 2 2 5]) = before ++ (3, 3, 7) ::
      (if before is [] then after
       else shift_deadline (7 - deadline (default (0, 0, 0) (last before))) <$> after).
Proof.
  apply (timeout_deadlines 3 3 7 [Cq 1 1 5; Cq 2 2 5]); [|lia].
  split; [repeat constructor; simpl; lia|simpl; lia].
Defined.

(** The pushed-back successor on a concrete queue: the second timer was due in
    10 ticks and is due in 12 after an unrelated timer of 7 ticks is added. *)
Example timeout_pushes_back :
  due 0 [Cq 1 1 5; Cq 2 2 5] = [(1, 1, 5); (2, 2, 10)] ∧
  due 0 (timeout 3 3 7 [Cq 1 1 5; Cq 2 2 5]) = [(1, 1, 5); (3, 3, 7); (2, 2, 12)].
Proof. split; reflexivity. Qed.

(** [untimeout] removes the first entry with the given function and
    argument, and every other entry keeps its deadline; without such an entry
    the queue does not change. *)
Theorem untimeout_deadlines f a q :
  wf q →
  due 0 (untimeout f a q) =
  match list_find (λ c, cq_matches f a c = true) q with
  | Some (i, _) => take i (due 0 q) ++ drop (S i) (due 0 q)
  | None => due 0 q
  end.
Proof. apply untimeout_due. Qed.

Lemma untimeout_deadlines_witness :
  due 0 (untimeout 2 2 [Cq 1 1 5; Cq 2 2 3; Cq 3 3 4]) = [(1, 1, 5); (3, 3, 12)].
Proof.
  rewrite untimeout_deadlines; [reflexivity|].
  split; [repeat constructor; simpl; lia|simpl; lia].
Defined.

(** One [hardclock] brings every entry of the queue one tick closer to its
    expiry, overdue entries included in the count as zero, advances the tick
    counter and the simulated time by one tick, and signals the callout thread
    exactly when an entry is due. *)
Theorem hardclock_counts_down k :
  Forall (λ c, -2147483648 < cq_ticks c < 2147483648) (cq_head k) →
  -2147483648 <= ticks k < 2147483647 →
  tv_ok (anp_sys_time k) → tv_sec (anp_sys_time k) < 2147483647 →
  tte 0 (cq_head (hardclock k)) = (λ d, Z.max 0 (d - 1)) <$> tte 0 (cq_head k) ∧
  ticks (hardclock k) = ticks k + 1 ∧
  tv_ok (anp_sys_time (hardclock k)) ∧
  usecs (anp_sys_time (hardclock k)) = usecs (anp_sys_time k) + tick ∧
  clock_sig (hardclock k) =
    if (expired (cq_head (hardclock k)) =? 0)%nat then clock_sig k else S (clock_sig k).
Proof.
  intros Hq Ht [Hs Hu] Hsec. pose proof (hardclock_loop_tte 0 _ Hq) as H1.
  pose proof (hardclock_loop_soft _ Hq) as H2.
  unfold hardclock. destruct (hardclock_loop (cq_head k)) as [q b]; simpl in *. subst b.
  split; [rewrite H1; apply list_fmap_ext; intros; lia|].
  split; [apply s32_id; unfold is_s32; lia|].
  unfold BUMPTIME, tv_ok, usecs, tick, is_s32 in *.
  rewrite (s32_id (tv_usec _ + _)) by (unfold is_s32; lia).
  destruct (1000000 <=? _) eqn:E; zbool; simpl.
  - rewrite !s32_id by (unfold is_s32; lia). repeat split; try lia.
    by destruct (expired q).
  - repeat split; try lia. by destruct (expired q).
Qed.

Lemma hardclock_counts_down_witness :
  let k := Clock [Cq 1 1 (-2); Cq 2 2 1; Cq 3 3 4] 7 (Tv 100 995000) O in
  tte 0 (cq_head (hardclock k)) = [0; 0; 4] ∧ ticks (hardclock k) = 8 ∧
  tv_ok (anp_sys_time (hardclock k)) ∧ usecs (anp_sys_time (hardclock k)) = 101005000 ∧
  clock_sig (hardclock k) = 1%nat.
Proof.
  apply (hardclock_counts_down (Clock [Cq 1 1 (-2); Cq 2 2 1; Cq 3 3 4] 7 (Tv 100 995000) O));
    simpl; [repeat constructor; simpl; lia|lia| |lia].
  unfold tv_ok, is_s32; simpl; lia.
Defined.

(** *** The queue implements the agenda *)

Lemma shift_shift d d' (l : list (Z * Z * Z)) : shift_deadline d <$> (shift_deadline d' <$> l) = shift_deadline (d' + d) <$> l.
Proof. rewrite <- list_fmap_compose. apply list_fmap_ext. intros _ [[f a] x] _. unfold shift_deadline. simpl. f_equal. lia. Qed.

Lemma due_from t q : due t q = shift_deadline t <$> due 0 q.
Proof. rewrite <- due_shift. f_equal. Qed.

Lemma due_total t q : q ≠ [] → Forall (λ c, 0 <= cq_ticks c) q → ∃ e, e ∈ due t q ∧ deadline e = t + total q.
Proof.
  intros Hne H. revert t Hne. induction H as [|c q Hc Hq IH]; intros t Hne; [done|]. simpl. destruct q as [|c' q].
  - eexists. split; [by left|]. unfold deadline. simpl. lia.
  - destruct (IH (t + cq_ticks c) ltac:(done)) as (e & He & Ed). exists e. split; [by right|]. lia.
Qed.

Lemma timeout_walk_wf f a t q :
  wf q → 0 <= t < 2147483648 →
  Forall (λ c, 0 <= cq_ticks c) (timeout_walk f a t q) ∧ total (timeout_walk f a t q) <= total q + t.
Proof.
  revert t; induction q as [|c q IH]; intros t Hw Ht; simpl.
  { split; [repeat constructor; simpl; lia|lia]. }
  pose proof Hw as [Hall Htot]. apply wf_cons in Hw as [Hc Hw]. destruct (cq_ticks c <=? t) eqn:E; zbool.
  - rewrite s32_id by (unfold is_s32; lia). destruct (IH (t - cq_ticks c) Hw ltac:(lia)) as [H1 H2]. simpl. split; [|lia].
    constructor; [lia|done].
  - simpl. split; [constructor; [simpl; lia|done]|lia].
Qed.

Lemma timeout_wf f a n q : wf q → 0 <= n < 2147483648 → total q + n < 2147483648 → wf (timeout f a n q).
Proof.
  intros Hw Hn Ht. destruct q as [|c q]; simpl; [split; [repeat constructor; simpl; lia|simpl; lia]|].
  pose proof Hw as [Hall Htot]. apply wf_cons in Hw as [Hc Hw]. simpl in *. destruct (n <? cq_ticks c) eqn:E; zbool.
  - rewrite s32_id by (unfold is_s32; lia). split; [|simpl; lia]. constructor; [simpl; lia|]. constructor; [simpl; lia|apply Hw].
  - rewrite s32_id by (unfold is_s32; lia). destruct (timeout_walk_wf f a (n - cq_ticks c) q Hw ltac:(lia)) as [H1 H2].
    split; [constructor; [lia|done]|simpl; lia].
Qed.

Lemma untimeout_wf f a q : wf q → wf (untimeout f a q) ∧ total (untimeout f a q) <= total q.
Proof.
  induction q as [|c q IH]; intros Hw; simpl; [done|]. pose proof Hw as [Hall Htot]. apply wf_cons in Hw as [Hc Hw]. simpl in Htot.
  destruct (cq_matches f a c).
  - destruct q as [|c' q]; simpl; [split; [by split; [constructor|simpl; lia]|lia]|].
    pose proof Hw as [Hall' Htot']. apply wf_cons in Hw as [Hc' Hw]. simpl in *. pose proof (total_nonneg q (proj1 Hw)).
    rewrite s32_id by (unfold is_s32; lia). split; [|lia]. split; [constructor; [simpl; lia|apply Hw]|simpl; lia].
  - destruct (IH Hw) as [[H1 H2] H3]. split; [split; [constructor; [lia|done]|]|]; simpl; lia.
Qed.

Lemma untimeout_expired f a q : wf q → (expired (untimeout f a q) <= expired q)%nat.
Proof.
  induction q as [|c q IH]; intros Hw; simpl; [done|]. pose proof Hw as [Hall Htot]. apply wf_cons in Hw as [Hc Hw]. simpl in Htot.
  destruct (cq_matches f a c).
  - destruct q as [|c' q]; simpl; [lia|].
    pose proof Hw as [Hall' Htot']. apply wf_cons in Hw as [Hc' Hw]. simpl in *. pose proof (total_nonneg q (proj1 Hw)).
    rewrite s32_id by (unfold is_s32; lia). destruct (Z.leb_spec (cq_ticks c) 0), (Z.leb_spec (cq_ticks c' + cq_ticks c) 0), (Z.leb_spec (cq_ticks c') 0); lia.
  - simpl. specialize (IH Hw). destruct (cq_ticks c <=? 0); lia.
Qed.

Lemma wf_late q : wf q → late q = 0.
Proof. intros [H _]. induction H; simpl; lia. Qed.

Lemma filter_none {A} (P : A → Prop) `{!∀ x, Decision (P x)} (l : list A) : Forall (λ x, ¬ P x) l → filter P l = [].
Proof. induction 1 as [|x l Hx _ IH]; [done|]. by rewrite filter_cons_False. Qed.

Lemma arm_due now f a n q : wf q → 0 <= n < 2147483648 → due now (timeout f a n q) = ag_arm now f a n (due now q).
Proof.
  intros Hw Hn. destruct (timeout_deadlines f a n q Hw Hn) as (bf & af & E1 & H1 & H2 & E2).
  rewrite (due_from now (timeout _ _ _ _)), E2, (due_from now q), E1. unfold ag_arm.
  rewrite !fmap_app, !filter_app.
  assert (F1 : filter (λ e, deadline e <= now + n) (shift_deadline now <$> bf) = shift_deadline now <$> bf).
  { apply filter_all, Forall_fmap. eapply Forall_impl; [exact H1|]. intros e He. unfold deadline, shift_deadline in *. simpl in *. lia. }
  assert (F2 : filter (λ e, deadline e <= now + n) (shift_deadline now <$> af) = []).
  { apply filter_none, Forall_fmap. eapply Forall_impl; [exact H2|]. intros e He. unfold deadline, shift_deadline in *. simpl in *. lia. }
  assert (F3 : filter (λ e, now + n < deadline e) (shift_deadline now <$> bf) = []).
  { apply filter_none, Forall_fmap. eapply Forall_impl; [exact H1|]. intros e He. unfold deadline, shift_deadline in *. simpl in *. lia. }
  assert (F4 : filter (λ e, now + n < deadline e) (shift_deadline now <$> af) = shift_deadline now <$> af).
  { apply filter_all, Forall_fmap. eapply Forall_impl; [exact H2|]. intros e He. unfold deadline, shift_deadline in *. simpl in *. lia. }
  rewrite F1, F2, F3, F4, app_nil_r, app_nil_l. f_equal. rewrite fmap_last. csimpl. unfold shift_deadline at 1. cbn [fst snd]. f_equal; [f_equal; lia|].
  destruct bf as [|e bf]; [done|]. destruct (last (e :: bf)) as [x|] eqn:El; [|by apply last_None in El].
  csimpl. rewrite !shift_shift. apply list_fmap_ext. intros _ y _. unfold shift_deadline, deadline. simpl. f_equal. lia.
Qed.

Lemma cancel_due now f a q : wf q → due now (untimeout f a q) = ag_cancel f a (due now q).
Proof.
  intros Hw. rewrite untimeout_due by done. unfold ag_cancel.
  assert (E : ∀ l t, fst <$> list_find (λ e, fst e = (f, a)) (due t l) = fst <$> list_find (λ c, cq_matches f a c = true) l).
  { induction l as [|c l IH]; intros t; [done|]. simpl.
    assert (Hm : cq_matches f a c = true ↔ (cq_func c, cq_arg c) = (f, a)).
    { unfold cq_matches. rewrite andb_true_iff, !Z.eqb_eq. split; [by intros [-> ->]|by intros [= -> ->]]. }
    specialize (IH (t + cq_ticks c)). case_decide as H1; case_decide as H2; [done|tauto|tauto|].
    destruct (list_find _ (due _ l)) as [[]|], (list_find _ l) as [[]|]; simpl in *; congruence. }
  specialize (E q now). destruct (list_find _ (due now q)) as [[i x]|], (list_find _ q) as [[j y]|]; simplify_eq/=; done.
Qed.

(** One request does to the queue what it does to the agenda. *)
Lemma ask_due now o q l :
  wf q → ag_ask now (due now q) o = Some l →
  due now (run_ask q o) = l ∧ wf (run_ask q o) ∧ (expired (run_ask q o) <= expired q)%nat.
Proof.
  intros Hw. destruct o as [f a n|f a]; cbn [ag_ask run_ask].
  - destruct (_ && _) eqn:E; [|done]. intros [= <-]. apply andb_prop in E as [E E3]. apply andb_prop in E as [E1 E2]. zbool. split; [apply arm_due; [done|lia]|].
    assert (Ht : total q + n < 2147483648).
    { destruct q as [|c q]; [simpl; lia|]. destruct (due_total now (c :: q) ltac:(done) (proj1 Hw)) as (e & He & Ed).
      rewrite forallb_forall in E3. specialize (E3 e (proj1 (list_elem_of_In _ _) He)). zbool. lia. }
    split; [apply timeout_wf; [done|lia|done]|]. rewrite timeout_expired; [done|lia|rewrite wf_late by done; lia|].
    pose proof Hw as [Hall Htot]. clear -Hall Htot. induction Hall as [|c q Hc Hq IH]; [constructor|]. simpl in Htot.
    pose proof (total_nonneg q Hq). constructor; [lia|apply IH; lia].
  - intros [= <-]. split; [by apply cancel_due|]. split; [by apply untimeout_wf|by apply untimeout_expired].
Qed.

Lemma asks_due now os : ∀ q l,
  wf q → ag_asks now (due now q) os = Some l →
  due now (foldl run_ask q os) = l ∧ wf (foldl run_ask q os) ∧ (expired (foldl run_ask q os) <= expired q)%nat.
Proof.
  induction os as [|o os IH]; intros q l Hw; simpl; [by intros [= <-]|].
  destruct (ag_ask now (due now q) o) as [l1|] eqn:E; [|done]. destruct (ask_due now o q l1 Hw E) as (<- & Hw1 & He1).
  intros H. destruct (IH _ l Hw1 H) as (H1 & H2 & H3). split; [done|]. split; [done|lia].
Qed.

Lemma fires_softclock asks now l calls l' :
  fires asks now l calls l' → ∀ q fuel, due now q = l → wf q → (expired q <= fuel)%nat →
  ∃ r, softclock (call_at asks now) fuel q = Some (calls, r) ∧ due now r = l' ∧ wf r ∧ expired r = O.
Proof.
  induction 1 as [l Hl|f a l l1 calls l2 Ha Hf IH]; intros q fuel Eq Hw Hfuel.
  - exists q. assert (He : expired q = O).
    { destruct q as [|c q]; [done|]. apply wf_cons in Hw as [Hc _]. simpl in Eq. subst l. apply Forall_cons in Hl as [Hl _].
      unfold deadline in Hl. simpl in *. by rewrite (proj2 (Z.leb_gt _ _)) by lia. }
    split; [|done]. destruct q as [|c q]; [by destruct fuel|]. simpl in *. destruct (cq_ticks c <=? 0) eqn:E; [done|].
    destruct fuel; simpl; by rewrite E.
  - destruct q as [|c q]; [done|]. simpl in Eq. injection Eq as Ef Ea Et El. apply wf_cons in Hw as [Hc Hw].
    assert (H0 : cq_ticks c = 0) by lia. rewrite H0, Z.add_0_r in El. simpl in Hfuel. rewrite H0 in Hfuel. simpl in Hfuel.
    destruct fuel as [|fuel]; [lia|]. simpl. rewrite H0. simpl. rewrite <- El in Ha. unfold call_at at 2. rewrite Ef, Ea.
    destruct (asks_due now _ q l1 Hw Ha) as (E1 & Hw1 & He1). destruct (IH _ fuel E1 Hw1 ltac:(lia)) as (r & -> & Hr). by exists r.
Qed.

Lemma hardclock_due now q : wf q → expired q = O → due (now + 1) (fst (hardclock_loop q)) = due now q.
Proof.
  intros Hw He. destruct (hardclock_loop_due q Hw He) as [_ E]. rewrite due_from, E, shift_shift, (due_from now q).
  f_equal. f_equal. lia.
Qed.

Lemma wf_range q : wf q → Forall (λ c, -2147483648 < cq_ticks c < 2147483648) q.
Proof.
  intros [Hall Htot]. induction Hall as [|c q Hc Hq IH]; [constructor|]. simpl in Htot.
  pose proof (total_nonneg q Hq). constructor; [lia|apply IH; lia].
Qed.

(** A tick calls what is due, with the signal of the clock. *)
Lemma fires_tick asks now k calls l :
  wf (cq_head k) → expired (cq_head k) = O → fires asks (now + 1) (due now (cq_head k)) calls l →
  ∃ k', clock_tick asks (now + 1) k = Some (calls, k') ∧ due (now + 1) (cq_head k') = l ∧ wf (cq_head k') ∧ expired (cq_head k') = O.
Proof.
  intros Hw He Hf. rewrite <- (hardclock_due now _ Hw He) in Hf. destruct (hardclock_loop_due _ Hw He) as [Hw1 _].
  pose proof (hardclock_loop_soft _ (wf_range _ Hw)) as Hs. unfold clock_tick, hardclock.
  destruct (hardclock_loop (cq_head k)) as [q b]. cbn [fst snd cq_head clock_sig] in *. subst b.
  destruct (fires_softclock _ _ _ _ _ Hf q (expired q) eq_refl Hw1 ltac:(done)) as (r & Hr & Hd & Hwr & Her).
  destruct (Nat.eqb_spec (expired q) 0) as [E0|E0]; cbn [negb].
  - rewrite Nat.ltb_irrefl. rewrite E0 in Hr. assert (calls = [] ∧ r = q) as [-> ->].
    { destruct q as [|c q]; simpl in Hr, E0; [by simplify_eq|]. destruct (cq_ticks c <=? 0); [done|]. by simplify_eq. }
    eexists. split; [done|]. done.
  - rewrite (proj2 (Nat.ltb_lt _ _)) by lia. rewrite Hr. eexists. split; [done|]. done.
Qed.

Lemma runs_clock asks now l es log l' :
  ag_runs asks now l es log l' → ∀ k, due now (cq_head k) = l → wf (cq_head k) → expired (cq_head k) = O →
  ∃ k', run_clock asks now k es = Some (log, k') ∧
    due (now + Z.of_nat (length (filter (.= Tick) es))) (cq_head k') = l' ∧ expired (cq_head k') = O.
Proof.
  induction 1 as [now l|now l o l1 es log l2 Ho Hr IH|now l calls l1 es log l2 Hf Hr IH]; intros k <- Hw He.
  - exists k. split; [done|]. split; [f_equal; simpl; lia|done].
  - destruct (ask_due now o (cq_head k) l1 Hw Ho) as (E1 & Hw1 & He1).
    destruct (IH (set_head (run_ask (cq_head k) o) k) E1 Hw1 ltac:(simpl; lia)) as (k' & Hk & H). by exists k'.
  - destruct (fires_tick asks now k calls l1 Hw He Hf) as (k1 & Hk1 & E1 & Hw1 & He1).
    destruct (IH k1 E1 Hw1 He1) as (k' & Hk & Hd & Hx). exists k'. cbn [run_clock]. rewrite Hk1, Hk. split; [done|].
    split; [|done]. rewrite filter_cons_True by done. cbn [length]. rewrite <- Hd. f_equal. lia.
Qed.

(** *** Without requests *)

Definition quiet (now f a : Z) : list ask := [].

Lemma due_sorted t q : Forall (λ c, 0 <= cq_ticks c) q → StronglySorted (λ e e', deadline e <= deadline e') (due t q).
Proof.
  intros H. revert t. induction H as [|c q Hc Hq IH]; intros t; [constructor|]. simpl. constructor; [apply IH|].
  eapply Forall_impl; [by apply due_ge|]. intros e He. unfold deadline in *. simpl. lia.
Qed.

Lemma fires_quiet now l :
  StronglySorted (λ e e', deadline e <= deadline e') l → Forall (λ e, now <= deadline e) l →
  fires quiet now l (due_at now l) (filter (λ e, now < deadline e) l).
Proof.
  unfold due_at. induction 1 as [|[[f a] d] l Hs IH Hd]; intros Hge; [by constructor|].
  apply Forall_cons in Hge as [He Hge]. unfold deadline in He, Hd. simpl in He, Hd.
  destruct (decide (d = now)) as [->|Hn].
  - rewrite filter_cons_True, filter_cons_False by (unfold deadline; simpl; lia). csimpl.
    apply (fires_first _ _ f a l l); [done|]. by apply IH.
  - assert (Hall : Forall (λ e, now < deadline e) ((f, a, d) :: l)).
    { constructor; [unfold deadline; simpl; lia|]. eapply Forall_impl; [exact Hd|]. intros e He'. unfold deadline in *. simpl in *. lia. }
    rewrite (filter_all (λ e, now < deadline e)) by done. rewrite filter_none; [|eapply Forall_impl; [exact Hall|]; simpl; intros e Hx Hy; lia].
    constructor. eapply Forall_impl; [exact Hall|]. simpl. intros e Hx Hy. lia.
Qed.

(** The calls due in the next [n] ticks, each with its tick. *)
Definition due_within (now : Z) (n : nat) (l : list (Z * Z * Z)) : list (Z * (Z * Z)) :=
  concat ((λ i, pair (now + Z.of_nat i) <$> due_at (now + Z.of_nat i) l) <$> seq 1 n).

Lemma runs_quiet n : ∀ now l,
  StronglySorted (λ e e', deadline e <= deadline e') l → Forall (λ e, now < deadline e) l →
  ag_runs quiet now l (replicate n Tick) (due_within now n l) (filter (λ e, now + Z.of_nat n < deadline e) l).
Proof.
  induction n as [|n IH]; intros now l Hs Hl.
  - rewrite filter_all by (eapply Forall_impl; [exact Hl|simpl; lia]). constructor.
  - set (l1 := filter (λ e, now + 1 < deadline e) l).
    assert (E : due_within now (S n) l = (pair (now + 1) <$> due_at (now + 1) l) ++ due_within (now + 1) n l1).
    { unfold due_within. csimpl. f_equal. rewrite <- (fmap_S_seq 1 n), <- list_fmap_compose. f_equal. apply list_fmap_ext.
      intros i x Hx. apply lookup_seq in Hx as [-> _]. cbn [compose]. replace (now + Z.of_nat (S (1 + i))) with (now + 1 + Z.of_nat (1 + i)) by lia.
      assert (Ed : due_at (now + 1 + Z.of_nat (1 + i)) l = due_at (now + 1 + Z.of_nat (1 + i)) l1); [|by rewrite Ed].
      unfold due_at, l1. rewrite list_filter_filter. f_equal. apply list_filter_iff. intros e. lia. }
    rewrite E. simpl. apply (runs_tick _ _ _ _ l1); [apply fires_quiet; [done|]; eapply Forall_impl; [exact Hl|simpl; lia]|].
    assert (E2 : filter (λ e, now + Z.of_nat (S n) < deadline e) l = filter (λ e, now + 1 + Z.of_nat n < deadline e) l1).
    { unfold l1. rewrite list_filter_filter. apply list_filter_iff. intros e. lia. }
    rewrite E2. apply IH.
    + unfold l1. clear -Hs. induction Hs as [|e l Hs IH Hd]; [constructor|]. rewrite filter_cons.
      destruct (decide _); [|done]. constructor; [done|]. apply Forall_forall. intros x [_ Hx]%list_elem_of_filter.
      rewrite Forall_forall in Hd. by apply Hd.
    + apply Forall_forall. by intros x [Hx _]%list_elem_of_filter.
Qed.

(** C26: the timers fire on time.  The delta queue of [timeout], [untimeout], the clock
    and the callout thread, which sleeps until the clock signals it, makes exactly the
    calls of the agenda, an ordered list of the calls with their absolute ticks: each at
    the tick it is due, in order, and no other, whatever timers the functions called
    and the other threads set, for a tick or more, and cancel meanwhile.  When there are
    no such requests, the calls at a tick are those whose deadline it was at the start,
    in the order of the queue. *)
Theorem timers_fire_on_time now k :
  wf (cq_head k) → expired (cq_head k) = O →
  (∀ asks es log l, ag_runs asks now (due now (cq_head k)) es log l →
     ∃ k', run_clock asks now k es = Some (log, k') ∧
       due (now + Z.of_nat (length (filter (.= Tick) es))) (cq_head k') = l ∧ expired (cq_head k') = O) ∧
  (∀ n, ∃ k', run_clock quiet now k (replicate n Tick) = Some (due_within now n (due now (cq_head k)), k')).
Proof.
  intros Hw He. split; [intros asks es log l Hr; by eapply runs_clock|]. intros n.
  destruct (runs_clock quiet now (due now (cq_head k)) (replicate n Tick) (due_within now n (due now (cq_head k)))
    (filter (λ e, now + Z.of_nat n < deadline e) (due now (cq_head k)))) with (k := k) as (k' & H & _); [|done..|by exists k'].
  apply runs_quiet; [apply due_sorted, Hw|].
  destruct (cq_head k) as [|c q]; [constructor|]. pose proof Hw as [Hall _]. apply Forall_cons in Hall as [Hc Hall].
  simpl in He |- *. destruct (cq_ticks c <=? 0) eqn:E; [done|]. zbool. constructor; [unfold deadline; simpl; lia|].
  eapply Forall_impl; [by apply due_ge|]. simpl. intros e ?. lia.
Qed.

(** A timer that sets itself again for two ticks, one that cancels another, and one set
    by another thread. *)
Definition ex_asks (now f a : Z) : list ask :=
  if f =? 1 then [Arm 1 a 2] else if f =? 2 then [Cancel 3 30] else [].
Definition ex_clock : clock := Clock [Cq 1 10 1; Cq 2 20 2; Cq 3 30 0] 0 (Tv 100 0) O.
Definition ex_events : list event := [Tick; Ask (Arm 4 40 4); Tick; Tick; Tick; Tick].

Lemma timers_fire_on_time_witness :
  (∃ k', run_clock ex_asks 0 ex_clock ex_events =
     Some ([(1, (1, 10)); (3, (2, 20)); (3, (1, 10)); (5, (4, 40)); (5, (1, 10))], k') ∧
     due 5 (cq_head k') = [(1, 10, 7)]) ∧
  ∃ k', run_clock quiet 0 ex_clock (replicate 3 Tick) = Some ([(1, (1, 10)); (3, (2, 20)); (3, (3, 30))], k').
Proof.
  destruct (timers_fire_on_time 0 ex_clock) as [H1 H2].
  - split; [repeat constructor; simpl; lia|simpl; lia].
  - reflexivity.
  - split; [|apply (H2 3%nat)].
    edestruct (H1 ex_asks ex_events) as (k' & Hk & Hd & _); [|exists k'; split; [exact Hk|exact Hd]].
    change [(1, (1, 10)); (3, (2, 20)); (3, (1, 10)); (5, (4, 40)); (5, (1, 10))] with
      ((pair (0 + 1) <$> [(1, 10)]) ++ (pair (1 + 1) <$> []) ++ (pair (2 + 1) <$> [(2, 20); (1, 10)]) ++
       (pair (3 + 1) <$> []) ++ (pair (4 + 1) <$> [(4, 40); (1, 10)]) ++ []).
    repeat first
      [ eapply fires_first; [reflexivity|]
      | eapply fires_none; repeat constructor; vm_compute; congruence
      | eapply runs_ask; [reflexivity|] | eapply runs_tick | eapply runs_nil ].
Defined.

(** Draining the queue terminates for all callout functions that leave no
    more entries due than they found: as many calls as entries are due at the
    start suffice, and nothing is due afterwards.  [timeout_expired] shows that
    re-arming a timer for one or more ticks, as the protocol timers do, is such
    a function. *)
Theorem softclock_terminates call q :
  (∀ f a q, (expired (call f a q) <= expired q)%nat) →
  ∃ calls r, softclock call (expired q) q = Some (calls, r) ∧ expired r = O.
Proof.
  intros Hcall. assert (Hgen : ∀ n q, (expired q <= n)%nat →
    ∃ calls r, softclock call n q = Some (calls, r) ∧ expired r = O); [|by apply Hgen].
  clear q. induction n as [|n IH]; intros q Hq; destruct q as [|c q]; simpl in *;
    try (by eexists _, _).
  - destruct (cq_ticks c <=? 0) eqn:E; [lia|]. eexists _, _. split; [done|]. simpl. by rewrite E.
  - destruct (cq_ticks c <=? 0) eqn:E.
    + destruct (IH (call (cq_func c) (cq_arg c) q)) as (calls & r & -> & Hr).
      { specialize (Hcall (cq_func c) (cq_arg c) q). lia. }
      by eexists _, _.
    + eexists _, _. split; [done|]. simpl. by rewrite E.
Qed.

Lemma softclock_terminates_witness :
  ∃ calls r, softclock keep 2 [Cq 1 1 (-1); Cq 2 2 0; Cq 3 3 1] = Some (calls, r) ∧ expired r = O.
Proof. apply (softclock_terminates keep [Cq 1 1 (-1); Cq 2 2 0; Cq 3 3 1]). intros; apply le_n. Defined.

(** Adding two normalised times gives the normalised sum, and the
    difference of a later and an earlier time is normalised and exact. *)
Theorem timeval_arith t1 t2 :
  tv_ok t1 → tv_ok t2 → -2147483648 <= tv_sec t1 + tv_sec t2 < 2147483647 →
  -2147483648 < tv_sec t1 - tv_sec t2 < 2147483648 →
  tv_ok (timevaladd t1 t2) ∧ usecs (timevaladd t1 t2) = usecs t1 + usecs t2 ∧
  tv_ok (tv_diff t1 t2) ∧ usecs (tv_diff t1 t2) = usecs t1 - usecs t2.
Proof.
  destruct t1 as [s1 m1], t2 as [s2 m2]. unfold tv_ok, usecs, timevaladd, timevalfix, tv_diff.
  simpl. intros [H1 H1'] [H2 H2'] H3 H4.
  rewrite !(s32_id (_ + _)) by (unfold is_s32; lia). simpl.
  destruct (m1 + m2 <? 0) eqn:E1; zbool; [lia|]. simpl.
  destruct (1000000 <=? m1 + m2) eqn:E2, (m1 <? m2) eqn:E3; zbool; simpl;
    rewrite ?s32_id by (unfold is_s32; lia); unfold is_s32; repeat split; lia.
Qed.

Lemma timeval_arith_witness :
  tv_ok (timevaladd (Tv 5 700000) (Tv 3 800000)) ∧
  usecs (timevaladd (Tv 5 700000) (Tv 3 800000)) = 9500000 ∧
  tv_ok (tv_diff (Tv 5 700000) (Tv 3 800000)) ∧ usecs (tv_diff (Tv 5 700000) (Tv 3 800000)) = 1900000.
Proof.
  apply (timeval_arith (Tv 5 700000) (Tv 3 800000)); unfold tv_ok, is_s32; simpl; lia.
Defined.

End Callout.
