(* ===== verification/Quad.v ===== *)
(** * 64-bit arithmetic (libkern)

    A quad is two 32-bit longs; the compiler calls these routines for 64-bit
    operations.  A [quad_t] is a [Z] in the signed range, a [u_quad_t] one in the
    unsigned range, and [hi] and [lo] are the longs [ul[H]] and [ul[L]] of the
    union.  Division is Knuth's algorithm D on digits of 16 bits, with the arrays
    and the pointers into them as in the code: [u] points to [uspace + du]. *)

From S2P Require Import Prelude.
From stdpp Require Import options.

Module Quad.

(** ** quad.h *)

Definition LONG_BITS : Z := 32.
Definition QUAD_BITS : Z := 64.
Definition HALF_BITS : Z := 16.
Definition B : Z := 65536.

Definition hi (q : Z) : Z := u64 q / 4294967296.
Definition lo (q : Z) : Z := u64 q mod 4294967296.
Definition quad (h l : Z) : Z := s64 (h * 4294967296 + l).
Definition uquad (h l : Z) : Z := h * 4294967296 + l.

Definition HHALF (x : Z) : Z := Z.shiftr x HALF_BITS.
Definition LHALF (x : Z) : Z := Z.land x (B - 1).
Definition LHUP (x : Z) : Z := u32 (Z.shiftl x HALF_BITS).
Definition COMBINE (a b : Z) : Z := Z.lor (u32 (Z.shiftl a HALF_BITS)) b.

(** ** Addition, subtraction, shifts and comparison *)

Definition adddi3 (a b : Z) : Z :=
  let l := u32 (lo a + lo b) in quad (u32 (hi a + hi b + b2z (l <? lo b))) l.

Definition subdi3 (a b : Z) : Z :=
  let l := u32 (lo a - lo b) in quad (u32 (hi a - hi b - b2z (lo a <? l))) l.

Definition negdi2 (a : Z) : Z :=
  let l := u32 (- lo a) in quad (u32 (- hi a - b2z (0 <? l))) l.

Definition ashldi3 (a shift : Z) : Z :=
  if LONG_BITS <=? shift then
    quad (if QUAD_BITS <=? shift then 0 else u32 (Z.shiftl (lo a) (shift - LONG_BITS))) 0
  else if 0 <? shift then
    quad (Z.lor (u32 (Z.shiftl (hi a) shift)) (Z.shiftr (lo a) (LONG_BITS - shift))) (u32 (Z.shiftl (lo a) shift))
  else quad (hi a) (lo a).

Definition lshldi3 (a shift : Z) : Z :=
  if LONG_BITS <=? shift then
    quad (if QUAD_BITS <=? shift then 0 else u32 (Z.shiftl (lo a) (shift - LONG_BITS))) 0
  else if 0 <? shift then
    quad (Z.lor (u32 (Z.shiftl (hi a) shift)) (Z.shiftr (lo a) (LONG_BITS - shift))) (u32 (Z.shiftl (lo a) shift))
  else quad (hi a) (lo a).

Definition lshrdi3 (a shift : Z) : Z :=
  if LONG_BITS <=? shift then
    quad 0 (if QUAD_BITS <=? shift then 0 else Z.shiftr (hi a) (shift - LONG_BITS))
  else if 0 <? shift then
    quad (Z.shiftr (hi a) shift) (Z.lor (Z.shiftr (lo a) shift) (u32 (Z.shiftl (hi a) (LONG_BITS - shift))))
  else quad (hi a) (lo a).

(** [>>] of a signed long is arithmetic. *)
Definition ashrdi3 (a shift : Z) : Z :=
  if LONG_BITS <=? shift then
    let s := Z.shiftr (Z.shiftr (s32 (hi a)) (LONG_BITS - 1)) 1 in
    quad (u32 s) (u32 (if QUAD_BITS <=? shift then s else Z.shiftr (s32 (hi a)) (shift - LONG_BITS)))
  else if 0 <? shift then
    quad (u32 (Z.shiftr (s32 (hi a)) shift)) (Z.lor (Z.shiftr (lo a) shift) (u32 (Z.shiftl (hi a) (LONG_BITS - shift))))
  else quad (hi a) (lo a).

Definition cmpdi2 (a b : Z) : Z :=
  if s32 (hi a) <? s32 (hi b) then 0 else if s32 (hi b) <? s32 (hi a) then 2
  else if lo a <? lo b then 0 else if lo b <? lo a then 2 else 1.

Definition ucmpdi2 (a b : Z) : Z :=
  if hi a <? hi b then 0 else if hi b <? hi a then 2
  else if lo a <? lo b then 0 else if lo b <? lo a then 2 else 1.

(** The bitwise operations. *)
Definition anddi3 (a b : Z) : Z := quad (Z.land (hi a) (hi b)) (Z.land (lo a) (lo b)).
Definition iordi3 (a b : Z) : Z := quad (Z.lor (hi a) (hi b)) (Z.lor (lo a) (lo b)).
Definition xordi3 (a b : Z) : Z := quad (Z.lxor (hi a) (hi b)) (Z.lxor (lo a) (lo b)).
Definition one_cmpldi2 (a : Z) : Z := quad (u32 (Z.lnot (hi a))) (u32 (Z.lnot (lo a))).

(** ** Multiplication *)

(** The difference of two longs as sign and magnitude. *)
Definition absdiff (x y : Z) : bool * Z := if y <=? x then (false, u32 (x - y)) else (true, u32 (y - x)).

Definition lmulq (u v : Z) : Z :=
  let u1 := HHALF u in let u0 := LHALF u in let v1 := HHALF v in let v0 := LHALF v in
  let low := u32 (u0 * v0) in
  if (u1 =? 0) && (v1 =? 0) then low
  else
    let '(nu, udiff) := absdiff u1 u0 in
    let '(nv, vdiff) := absdiff v0 v1 in
    let mid := u32 (udiff * vdiff) in
    let high := u32 (u1 * v1) in
    let prodh := u32 (high + HHALF high) in
    let prodl := LHUP high in
    let '(prodh, prodl) :=
      if xorb nu nv then
        let was := prodl in let prodl := u32 (prodl - LHUP mid) in
        (u32 (prodh - (HHALF mid + b2z (was <? prodl))), prodl)
      else
        let was := prodl in let prodl := u32 (prodl + LHUP mid) in
        (u32 (prodh + (HHALF mid + b2z (prodl <? was))), prodl) in
    let was := prodl in
    let prodl := u32 (prodl + LHUP low) in
    let prodh := u32 (prodh + (HHALF low + b2z (prodl <? was))) in
    let prodl := u32 (prodl + low) in
    let prodh := if prodl <? low then u32 (prodh + 1) else prodh in
    quad prodh prodl.

Definition muldi3 (a b : Z) : Z :=
  let '(u, nega) := if 0 <=? a then (a, false) else (s64 (- a), true) in
  let '(v, negb) := if 0 <=? b then (b, false) else (s64 (- b), true) in
  let u1 := hi u in let u0 := lo u in let v1 := hi v in let v0 := lo v in
  let prod :=
    if (u1 =? 0) && (v1 =? 0) then lmulq u0 v0
    else
      let low := lmulq u0 v0 in
      let '(nu, udiff) := absdiff u1 u0 in
      let '(nv, vdiff) := absdiff v0 v1 in
      let mid := u32 (udiff * vdiff) in
      let high := u32 (u1 * v1) in
      quad (u32 (high + (if xorb nu nv then u32 (- mid) else mid) + lo low + hi low)) (lo low) in
  if xorb nega negb then s64 (- prod) else prod.

(** ** Division *)

(** [shl] on the [len + 1] digits at [p]. *)
Fixpoint shl_loop (k : nat) (p : nat) (sh : Z) (a : list Z) : list Z :=
  match k with
  | O => <[p := LHALF (Z.shiftl (a !!! p) sh)]> a
  | S k => shl_loop k (S p) sh (<[p := Z.lor (LHALF (Z.shiftl (a !!! p) sh)) (Z.shiftr (a !!! S p) (HALF_BITS - sh))]> a)
  end.
Definition shl (p len : nat) (sh : Z) (a : list Z) : list Z := shl_loop len p sh a.

(** The number of digits of the divisor, and how far [v] has moved. *)
Fixpoint find_n (n dv : nat) (v : list Z) : nat * nat :=
  match n with
  | S n' =>
      if v !!! S dv =? 0 then match n' with 1%nat => (1%nat, dv) | _ => find_n n' (S dv) v end
      else (n, dv)
  | O => (O, dv)
  end.

(** [m], and how far [u] has moved; [None] when the dividend has no digits left. *)
Fixpoint find_m (m du : nat) (u : list Z) : option (nat * nat) :=
  if u !!! S du =? 0 then match m with O => None | S m => find_m m (S du) u end
  else Some (m, du).

(** D1: the shift that normalises the divisor. *)
Fixpoint find_d (fuel : nat) (t d : Z) : option Z :=
  match fuel with
  | O => None
  | S fuel => if t <? B / 2 then find_d fuel (u32 (Z.shiftl t 1)) (d + 1) else Some d
  end.

(** D3: the label [qhat_too_big] and the loop. *)
Fixpoint too_big (fuel : nat) (v1 v2 uj2 qhat rhat : Z) : option Z :=
  match fuel with
  | O => None
  | S fuel =>
      let qhat := u32 (qhat - 1) in
      let rhat := u32 (rhat + v1) in
      if B <=? rhat then Some qhat
      else if COMBINE rhat uj2 <? u32 (v2 * qhat) then too_big fuel v1 v2 uj2 qhat rhat else Some qhat
  end.

Definition estimate (v1 v2 uj0 uj1 uj2 : Z) : option Z :=
  if uj0 =? v1 then too_big 4 v1 v2 uj2 B uj1
  else
    let n := COMBINE uj0 uj1 in
    let qhat := n / v1 in
    let rhat := n mod v1 in
    if COMBINE rhat uj2 <? u32 (v2 * qhat) then too_big 4 v1 v2 uj2 qhat rhat else Some qhat.

(** D4: multiply and subtract, for digits [i] down to 1 of the window at [u] and of
    [v]; the digits and the borrow. *)
Fixpoint mulsub (i : nat) (pu pv : nat) (qhat t : Z) (v u : list Z) : list Z * Z :=
  match i with
  | O => (u, t)
  | S i' =>
      let x := u32 (u !!! (pu + i)%nat - v !!! (pv + i)%nat * qhat - t) in
      mulsub i' pu pv qhat (Z.land (B - HHALF x) (B - 1)) v (<[(pu + i)%nat := LHALF x]> u)
  end.

(** D6: add back. *)
Fixpoint addback (i : nat) (pu pv : nat) (t : Z) (v u : list Z) : list Z * Z :=
  match i with
  | O => (u, t)
  | S i' =>
      let x := u32 (t + u !!! (pu + i)%nat + v !!! (pv + i)%nat) in
      addback i' pu pv (HHALF x) v (<[(pu + i)%nat := LHALF x]> u)
  end.

(** One round of the loop on [j]: [pu] is [u + j]. *)
Definition round (n pu pv : nat) (v u : list Z) : option (list Z * Z) :=
  qhat ← estimate (v !!! (pv + 1)%nat) (v !!! (pv + 2)%nat) (u !!! pu) (u !!! (pu + 1)%nat) (u !!! (pu + 2)%nat);
  let '(u, t) := mulsub n pu pv qhat 0 v u in
  let t := u32 (u !!! pu - t) in
  let u := <[pu := LHALF t]> u in
  if ztrue (HHALF t) then
    let qhat := u32 (qhat - 1) in
    let '(u, t) := addback n pu pv 0 v u in
    Some (<[pu := LHALF (u !!! pu + t)]> u, u16 qhat)
  else Some (u, u16 qhat).

(** The loop: [k] rounds, the first with [u + j] at [pu] and [q[j]] at [pq]. *)
Fixpoint rounds (k n pu pv pq : nat) (v u q : list Z) : option (list Z * list Z) :=
  match k with
  | O => Some (u, q)
  | S k =>
      '(u, qhat) ← round n pu pv v u;
      rounds k n (S pu) pv (S pq) v u (<[pq := qhat]> q)
  end.

(** The remainder shifted back: digits [p + k] down to [p + 1], and 0 into [p]. *)
Fixpoint shr_loop (k p : nat) (d : Z) (u : list Z) : list Z :=
  match k with
  | O => <[p := 0]> u
  | S k' =>
      shr_loop k' p d
        (<[(p + k)%nat := Z.lor (Z.shiftr (u !!! (p + k)%nat) d) (LHALF (Z.shiftl (u !!! (p + k')%nat) (HALF_BITS - d)))]> u)
  end.

(** The digits of a quad, in places 1 to 4, and back. *)
Definition to_digits (q : Z) : list Z := [0; HHALF (hi q); LHALF (hi q); HHALF (lo q); LHALF (lo q)].
Definition of_digits (a : list Z) : Z :=
  uquad (COMBINE (a !!! 1%nat) (a !!! 2%nat)) (COMBINE (a !!! 3%nat) (a !!! 4%nat)).

(** A divisor of one digit. *)
Definition short_division (u : list Z) (t : Z) : Z * Z :=
  let q1 := u16 (u !!! 1%nat / t) in
  let rbj := COMBINE (u !!! 1%nat mod t) (u !!! 2%nat) in
  let q2 := u16 (rbj / t) in
  let rbj := COMBINE (rbj mod t) (u !!! 3%nat) in
  let q3 := u16 (rbj / t) in
  let rbj := COMBINE (rbj mod t) (u !!! 4%nat) in
  let q4 := u16 (rbj / t) in
  (uquad (COMBINE q1 q2) (COMBINE q3 q4), rbj mod t).

(** A divisor of two digits or more: Program D. *)
Definition long_division (n dv : nat) (u v : list Z) : option (Z * Z) :=
  '(m, du) ← find_m (4 - n) 0 u;
  d ← find_d 17 (v !!! S dv) 0;
  let '(u, v) := if 0 <? d then (shl du (m + n) d u, shl (S dv) (n - 1) d v) else (u, v) in
  '(u, q) ← rounds (S m) n du dv (4 - m) v u (replicate 5 0);
  let u := if ztrue d then shr_loop n (du + m) d u else u in
  Some (of_digits q, of_digits u).

(** [__qdivrem]: the quotient and the remainder; [None] is the division by zero. *)
Definition qdivrem (uq vq : Z) : option (Z * Z) :=
  if vq =? 0 then None
  else if uq <? vq then Some (0, uq)
  else
    let u := to_digits uq in
    let v := to_digits vq in
    let '(n, dv) := find_n 4 0 v in
    if (n =? 1)%nat then Some (short_division u (v !!! (dv + 2)%nat)) else long_division n dv u v.

Definition udivdi3 (a b : Z) : option Z := fst <$> qdivrem a b.
Definition umoddi3 (a b : Z) : option Z := snd <$> qdivrem a b.

Definition divdi3 (a b : Z) : option Z :=
  let '(ua, nega) := if a <? 0 then (u64 (- a), true) else (a, false) in
  let '(ub, negb) := if b <? 0 then (u64 (- b), true) else (b, false) in
  '(uq, _) ← qdivrem ua ub; Some (s64 (if xorb nega negb then - uq else uq)).

Definition moddi3 (a b : Z) : option Z :=
  let '(ua, nega) := if a <? 0 then (u64 (- a), true) else (a, false) in
  let '(ub, negb) := if b <? 0 then (u64 (- b), true) else (b, false) in
  '(_, ur) ← qdivrem ua ub; Some (s64 (if xorb nega negb then - ur else ur)).

Example ex_divide : qdivrem 0x123456789abcdef0 0x100000000ffff = Some (0x123456789abcdef0 / 0x100000000ffff, 0x123456789abcdef0 mod 0x100000000ffff).
Proof. by vm_compute. Qed.

(** ** Words and halves *)

Lemma HHALF_div x : HHALF x = x / B.
Proof. unfold HHALF. by rewrite Z.shiftr_div_pow2. Qed.

Lemma LHALF_mod x : LHALF x = x mod B.
Proof. unfold LHALF. by apply (Z.land_ones x 16). Qed.

Lemma COMBINE_eq a b : 0 <= a < B → 0 <= b < B → COMBINE a b = a * B + b.
Proof.
  intros Ha Hb. unfold COMBINE. rewrite u32_id.
  - by rewrite lor_shiftl_add.
  - rewrite Z.shiftl_mul_pow2 by done. unfold is_u32, B in *. change (2 ^ HALF_BITS) with 65536. lia.
Qed.

Lemma lor_high_low a b d : 0 <= d <= 16 → 0 <= b < B →
  Z.lor (LHALF (Z.shiftl a d)) (Z.shiftr b (HALF_BITS - d)) = (a * 2 ^ d) mod B + b / 2 ^ (16 - d).
Proof.
  intros Hd Hb. unfold HALF_BITS. rewrite LHALF_mod, Z.shiftl_mul_pow2, Z.shiftr_div_pow2 by lia.
  assert (E : B = 2 ^ (16 - d) * 2 ^ d) by (rewrite <- Z.pow_add_r by lia; by replace (16 - d + d) with 16 by lia).
  assert (H1 : 0 < 2 ^ d) by (apply Z.pow_pos_nonneg; lia). assert (H2 : 0 < 2 ^ (16 - d)) by (apply Z.pow_pos_nonneg; lia).
  rewrite E at 1 2. rewrite Z.mul_mod_distr_r by lia. rewrite <- Z.shiftl_mul_pow2 at 1 by lia.
  rewrite lor_shiftl_add; [done|lia|]. split; [apply Z.div_pos; lia|]. apply Z.div_lt_upper_bound; [done|]. rewrite E in Hb. lia.
Qed.

(** ** Digits *)

(** The value of the [k] digits of [u] from place [a] on, the first the highest. *)
Fixpoint dval (u : list Z) (a k : nat) : Z :=
  match k with O => 0 | S k => dval u a k * B + u !!! (a + k)%nat end.

(** The digits of [u] from place [a] on are digits. *)
Definition digits (u : list Z) (a k : nat) : Prop := ∀ i, (a <= i < a + k)%nat → 0 <= u !!! i < B.

Lemma dval_bound u a k : digits u a k → 0 <= dval u a k < B ^ Z.of_nat k.
Proof.
  induction k as [|k IH]; intros H; [simpl; lia|]. rewrite Nat2Z.inj_succ, Z.pow_succ_r by lia. simpl dval.
  assert (IH' : 0 <= dval u a k < B ^ Z.of_nat k) by (apply IH; intros i Hi; apply H; lia).
  pose proof (H (a + k)%nat ltac:(lia)). unfold B in *. nia.
Qed.

Lemma dval_split u a p k : dval u a (p + k) = dval u a p * B ^ Z.of_nat k + dval u (a + p) k.
Proof.
  induction k as [|k IH]; [rewrite Nat.add_0_r; simpl; lia|]. rewrite Nat.add_succ_r, Nat2Z.inj_succ, Z.pow_succ_r by lia.
  simpl dval. rewrite IH. replace (a + (p + k))%nat with (a + p + k)%nat by lia. ring.
Qed.

Lemma dval_ext u u' a k : (∀ i, (a <= i < a + k)%nat → u !!! i = u' !!! i) → dval u a k = dval u' a k.
Proof.
  induction k as [|k IH]; intros H; [done|]. simpl. rewrite H by lia. rewrite IH; [done|]. intros i Hi. apply H. lia.
Qed.

Lemma dval_S u a k : dval u a (S k) = u !!! a * B ^ Z.of_nat k + dval u (S a) k.
Proof.
  change (S k) with (1 + k)%nat. rewrite dval_split. simpl dval at 1. rewrite Nat.add_0_r. by rewrite Nat.add_1_r.
Qed.

Lemma dval_zero u a k : (∀ i, (a <= i < a + k)%nat → u !!! i = 0) → dval u a k = 0.
Proof. induction k as [|k IH]; intros H; [done|]. simpl. rewrite H by lia. rewrite IH; [done|]. intros i Hi. apply H. lia. Qed.

(** ** Multiply and subtract, add back *)

Lemma mulsub_spec i pu pv q v : ∀ t u,
  digits v (S pv) i → digits u (S pu) i → (pu + i < length u)%nat → 0 <= q < B → 0 <= t <= q →
  let '(u', t') := mulsub i pu pv q t v u in
  length u' = length u ∧ (∀ k, (k <= pu ∨ pu + i < k)%nat → u' !!! k = u !!! k) ∧ digits u' (S pu) i ∧ 0 <= t' <= q ∧
  dval u' (S pu) i = dval u (S pu) i - q * dval v (S pv) i - t + B ^ Z.of_nat i * t'.
Proof.
  induction i as [|i IH]; intros t u Hv Hu Hl Hq Ht.
  { cbn [mulsub dval]. split_and!; try done; lia. }
  cbn [mulsub]. set (ud := u !!! (pu + S i)%nat). set (vd := v !!! (pv + S i)%nat).
  pose proof (Hu (pu + S i)%nat ltac:(lia)) as Hud. pose proof (Hv (pv + S i)%nat ltac:(lia)) as Hvd. fold ud in Hud. fold vd in Hvd.
  set (y := ud - vd * q - t). assert (Hy : - (q * B) <= y < B) by (unfold y, B in *; nia).
  assert (E1 : LHALF (u32 y) = y mod B).
  { rewrite LHALF_mod. unfold u32, B. change 4294967296 with (65536 * 65536). rewrite Z.rem_mul_r by lia.
    rewrite Z.mul_comm, Z.mod_add by lia. by rewrite Z.mod_mod. }
  assert (E2 : Z.land (B - HHALF (u32 y)) (B - 1) = - (y / B)).
  { assert (HHALF (u32 y) = (y / B) mod B) as ->.
    { rewrite HHALF_div. unfold u32, B. change 4294967296 with (65536 * 65536). rewrite Z.rem_mul_r by lia.
      rewrite Z.mul_comm, Z.div_add by lia. rewrite Z.div_small by (apply Z.mod_pos_bound; lia). done. }
    fold (LHALF (B - (y / B) mod B)). rewrite LHALF_mod. unfold B in *. Z.div_mod_to_equations. nia. }
  rewrite E1, E2. set (t1 := - (y / B)).
  assert (Ht1 : 0 <= t1 <= q) by (unfold t1, B in *; Z.div_mod_to_equations; nia).
  specialize (IH t1 (<[(pu + S i)%nat := y mod B]> u)).
  destruct (mulsub i pu pv q t1 v (<[(pu + S i)%nat := y mod B]> u)) as [u' t'].
  destruct IH as (L & O & D & T & V); try done.
  - intros k Hk. apply Hv. lia.
  - intros k Hk. rewrite list_lookup_total_insert_ne by lia. apply Hu. lia.
  - rewrite length_insert. lia.
  - rewrite length_insert in L. split_and!; try done; try lia.
    + intros k Hk. rewrite O by lia. apply list_lookup_total_insert_ne. lia.
    + intros k Hk. destruct (decide (k = pu + S i)%nat) as [->|]; [|apply D; lia].
      rewrite O by lia. rewrite list_lookup_total_insert_eq by lia. apply Z.mod_pos_bound. unfold B. lia.
    + cbn [dval]. rewrite V. replace (S pu + i)%nat with (pu + S i)%nat by lia. replace (S pv + i)%nat with (pv + S i)%nat by lia.
      rewrite (O (pu + S i)%nat) by lia. rewrite list_lookup_total_insert_eq by lia. fold ud vd.
      rewrite (dval_ext (<[(pu + S i)%nat := y mod B]> u) u) by (intros k Hk; apply list_lookup_total_insert_ne; lia).
      rewrite Nat2Z.inj_succ, Z.pow_succ_r by lia. assert (y mod B = y + B * t1) as ->.
      { unfold t1. rewrite Z.mod_eq by (unfold B; lia). ring. }
      unfold y. ring.
Qed.

Lemma addback_spec i pu pv v : ∀ t u,
  digits v (S pv) i → digits u (S pu) i → (pu + i < length u)%nat → 0 <= t <= 1 →
  let '(u', t') := addback i pu pv t v u in
  length u' = length u ∧ (∀ k, (k <= pu ∨ pu + i < k)%nat → u' !!! k = u !!! k) ∧ digits u' (S pu) i ∧ 0 <= t' <= 1 ∧
  dval u' (S pu) i = dval u (S pu) i + dval v (S pv) i + t - B ^ Z.of_nat i * t'.
Proof.
  induction i as [|i IH]; intros t u Hv Hu Hl Ht.
  { cbn [addback dval]. split_and!; try done; lia. }
  cbn [addback]. set (ud := u !!! (pu + S i)%nat). set (vd := v !!! (pv + S i)%nat).
  pose proof (Hu (pu + S i)%nat ltac:(lia)) as Hud. pose proof (Hv (pv + S i)%nat ltac:(lia)) as Hvd. fold ud in Hud. fold vd in Hvd.
  set (y := t + ud + vd). rewrite (u32_id y) by (unfold is_u32, y, B in *; lia). rewrite LHALF_mod, HHALF_div.
  assert (Ht1 : 0 <= y / B <= 1) by (unfold y, B in *; Z.div_mod_to_equations; lia).
  specialize (IH (y / B) (<[(pu + S i)%nat := y mod B]> u)).
  destruct (addback i pu pv (y / B) v (<[(pu + S i)%nat := y mod B]> u)) as [u' t'].
  destruct IH as (L & O & D & T & V); try done.
  - intros k Hk. apply Hv. lia.
  - intros k Hk. rewrite list_lookup_total_insert_ne by lia. apply Hu. lia.
  - rewrite length_insert. lia.
  - rewrite length_insert in L. split_and!; try done; try lia.
    + intros k Hk. rewrite O by lia. apply list_lookup_total_insert_ne. lia.
    + intros k Hk. destruct (decide (k = pu + S i)%nat) as [->|]; [|apply D; lia].
      rewrite O by lia. rewrite list_lookup_total_insert_eq by lia. apply Z.mod_pos_bound. unfold B. lia.
    + cbn [dval]. rewrite V. replace (S pu + i)%nat with (pu + S i)%nat by lia. replace (S pv + i)%nat with (pv + S i)%nat by lia.
      rewrite (O (pu + S i)%nat) by lia. rewrite list_lookup_total_insert_eq by lia. fold ud vd.
      rewrite (dval_ext (<[(pu + S i)%nat := y mod B]> u) u) by (intros k Hk; apply list_lookup_total_insert_ne; lia).
      rewrite Nat2Z.inj_succ, Z.pow_succ_r by lia. rewrite (Z.mod_eq y B) by (unfold B; lia). unfold y. ring.
Qed.

(** ** The estimate of a digit *)

Section Estimate.
Context (v1 v2 uj0 uj1 uj2 : Z).
Context (Hv1 : B / 2 <= v1 < B) (Hv2 : 0 <= v2 < B) (H0 : 0 <= uj0 <= v1) (H1 : 0 <= uj1 < B) (H2 : 0 <= uj2 < B).

(** Three digits of the dividend and two of the divisor. *)
Abbreviation U3 := ((uj0 * B + uj1) * B + uj2).
Abbreviation V2 := (v1 * B + v2).

(** The estimate [q] is not too big for these digits, and is the largest such digit. *)
Definition estimated (q : Z) : Prop := 0 <= q < B ∧ q * V2 <= U3 ∧ (q + 1 = B ∨ U3 < (q + 1) * V2).

Lemma too_big_spec fuel : ∀ qhat rhat,
  (qhat = B ∨ U3 < qhat * V2) → 0 <= qhat <= B → rhat = uj0 * B + uj1 - qhat * v1 → 0 <= rhat < B →
  B <= rhat + Z.of_nat fuel * v1 → ∃ q, too_big fuel v1 v2 uj2 qhat rhat = Some q ∧ estimated q.
Proof using Hv1 Hv2 H0 H1 H2.
  induction fuel as [|fuel IH]; intros qhat rhat Hbig Hq Hr Hr0 Hf; [lia|].
  assert (Hq1 : 1 <= qhat). { unfold B in *. destruct (Z.eq_dec qhat 0) as [->|]; lia. }
  cbn [too_big]. assert (Hv1' : 32768 <= v1 < B) by (by change (B / 2) with 32768 in Hv1).
  rewrite (u32_id (qhat - 1)) by (unfold is_u32, B in *; lia). rewrite (u32_id (rhat + v1)) by (unfold is_u32, B in *; lia).
  assert (Hprod : 0 <= v2 * (qhat - 1) < B * B) by (unfold B in *; nia).
  rewrite (u32_id (v2 * (qhat - 1))) by (unfold is_u32, B in *; lia).
  assert (Hlast : qhat - 1 + 1 = B ∨ U3 < (qhat - 1 + 1) * V2) by (by rewrite Z.sub_add).
  destruct (B <=? rhat + v1) eqn:E1; zbool.
  { exists (qhat - 1). split; [done|]. split; [lia|]. split; [|done]. rewrite Hr in E1. unfold B in *. nia. }
  rewrite COMBINE_eq by lia. destruct (_ <? _) eqn:E2; zbool.
  - apply IH; try lia; right; rewrite Hr in E2; unfold B in *; nia.
  - exists (qhat - 1). split; [done|]. split; [lia|]. split; [|done]. rewrite Hr in E2. unfold B in *. nia.
Qed.

Lemma estimate_spec : ∃ q, estimate v1 v2 uj0 uj1 uj2 = Some q ∧ estimated q.
Proof using Hv1 Hv2 H0 H1 H2.
  assert (Hv1' : 32768 <= v1 < B) by (by change (B / 2) with 32768 in Hv1).
  unfold estimate. destruct (Z.eqb_spec uj0 v1) as [E|N].
  { apply too_big_spec; first [by left|unfold B in *; lia]. }
  rewrite (COMBINE_eq uj0 uj1) by lia. set (n := uj0 * B + uj1).
  pose proof (Z.div_mod n v1 ltac:(lia)) as Hdm. pose proof (Z.mod_pos_bound n v1 ltac:(lia)) as Hm.
  assert (Hd : 0 <= n / v1 < B).
  { split; [apply Z.div_pos; unfold n, B in *; lia|]. apply Z.div_lt_upper_bound; [lia|]. unfold n, B in *. nia. }
  rewrite (COMBINE_eq (n mod v1)) by lia. rewrite (u32_id (v2 * _)) by (unfold is_u32, B in *; nia).
  destruct (_ <? _) eqn:E; zbool.
  - apply too_big_spec; fold n; [right; unfold B in *; nia|unfold B in *; lia..].
  - exists (n / v1). split; [done|]. split; [done|]. fold n. split; [unfold B in *; nia|]. right. unfold B in *. nia.
Qed.

End Estimate.

(** The estimate from the leading digits is the digit of the quotient or one more. *)
Lemma estimate_close v1 v2 uj0 uj1 uj2 q Bk ur vr :
  estimated v1 v2 uj0 uj1 uj2 q → 0 < Bk → 0 <= ur < Bk → 0 <= vr < Bk → 1 <= v1 → 0 <= v2 →
  let U := ((uj0 * B + uj1) * B + uj2) * Bk + ur in
  let V := (v1 * B + v2) * Bk + vr in
  U < V * B → U / V <= q <= U / V + 1.
Proof.
  intros (Hq & Hle & Hmax) Hk Hur Hvr Hv1 Hv2 U V HU.
  set (U3 := (uj0 * B + uj1) * B + uj2) in *. set (V2 := v1 * B + v2) in *.
  assert (HV2 : B <= V2) by (unfold V2, B in *; lia).
  assert (HV : 0 < V) by (unfold V, B in *; nia).
  assert (HVB : B * Bk <= V) by (unfold V; nia). split.
  - destruct Hmax as [Hb|Hmax].
    + assert (U / V < B); [|lia]. apply Z.div_lt_upper_bound; [done|]. lia.
    + assert (U / V < q + 1); [|lia]. apply Z.div_lt_upper_bound; [done|]. unfold U, V. nia.
  - assert (q - 1 <= U / V); [|lia]. apply Z.div_le_lower_bound; [done|].
    assert (q * V <= U3 * Bk + q * vr) by (unfold V; nia). assert (q * vr <= B * Bk) by nia. unfold U. nia.
Qed.

(** ** A digit of the quotient *)

(** A normalised divisor of [n] digits. *)
Record divisor (n pv : nat) (v : list Z) : Prop := Divisor
  { dv_two : (2 <= n)%nat; dv_digits : digits v (S pv) n; dv_norm : B / 2 <= v !!! S pv }.

Lemma pow_B k : 0 < B ^ Z.of_nat k.
Proof. apply Z.pow_pos_nonneg; unfold B; lia. Qed.

(** The leading digits of dividend and divisor. *)
Lemma leading n pu pv v u :
  divisor n pv v → digits u pu (S n) → dval u pu (S n) < dval v (S pv) n * B →
  ∃ q, estimate (v !!! (pv + 1)%nat) (v !!! (pv + 2)%nat) (u !!! pu) (u !!! (pu + 1)%nat) (u !!! (pu + 2)%nat) = Some q ∧
    0 <= q < B ∧ dval u pu (S n) / dval v (S pv) n <= q <= dval u pu (S n) / dval v (S pv) n + 1.
Proof.
  intros [Hn Hv Hnorm] Hu Hlt. pose proof (Hv (S pv) ltac:(lia)) as Hv1. pose proof (Hv (pv + 2)%nat ltac:(lia)) as Hv2.
  pose proof (Hu pu ltac:(lia)) as Hu0. pose proof (Hu (pu + 1)%nat ltac:(lia)) as Hu1. pose proof (Hu (pu + 2)%nat ltac:(lia)) as Hu2.
  rewrite Nat.add_1_r. destruct (estimate_spec (v !!! S pv) (v !!! (pv + 2)%nat) (u !!! pu) (u !!! (pu + 1)%nat) (u !!! (pu + 2)%nat))
    as (q & -> & Hq); try done.
  { split; [done|apply Hv1]. }
  { split; [lia|]. pose proof (dval_bound v (S (S pv)) (n - 1) ltac:(intros i Hi; apply Hv; lia)) as Hb.
    pose proof (dval_bound u (S pu) n ltac:(intros i Hi; apply Hu; lia)) as Hb'. pose proof (pow_B (n - 1)) as Hp.
    pose proof (dval_S v (S pv) (n - 1)) as EV. replace (S (n - 1)) with n in EV by lia. rewrite dval_S, EV in Hlt.
    replace (Z.of_nat n) with (Z.succ (Z.of_nat (n - 1))) in * by lia. rewrite Z.pow_succ_r in * by lia.
    set (P := B ^ Z.of_nat (n - 1)) in *. unfold B in Hlt. nia. }
  exists q. split; [done|]. split; [apply Hq|].
  pose proof (dval_split u pu 3 (n - 2)) as Eu. pose proof (dval_split v (S pv) 2 (n - 2)) as Ev.
  replace (3 + (n - 2))%nat with (S n) in Eu by lia. replace (2 + (n - 2))%nat with n in Ev by lia.
  cbn [dval] in Eu, Ev. rewrite !Nat.add_0_r in Eu, Ev. replace (S pv + 1)%nat with (pv + 2)%nat in Ev by lia.
  change (0 * B) with 0 in Eu, Ev. rewrite !Z.add_0_l in Eu, Ev. cbn [dval] in Hlt |- *. rewrite Eu, Ev in *.
  apply estimate_close; try done.
  - apply pow_B.
  - apply dval_bound. intros i Hi. apply Hu. lia.
  - apply dval_bound. intros i Hi. apply Hv. lia.
  - change (B / 2) with 32768 in Hnorm. lia.
  - apply Hv2.
Qed.

Lemma round_spec n pu pv v u :
  divisor n pv v → digits u pu (S n) → (pu + n < length u)%nat → dval u pu (S n) < dval v (S pv) n * B →
  ∃ u', round n pu pv v u = Some (u', dval u pu (S n) / dval v (S pv) n) ∧ length u' = length u ∧
    (∀ k, (k < pu ∨ pu + n < k)%nat → u' !!! k = u !!! k) ∧ digits u' pu (S n) ∧
    u' !!! pu = 0 ∧ dval u' (S pu) n = dval u pu (S n) mod dval v (S pv) n.
Proof.
  intros Hv Hu Hl Hlt. destruct (leading n pu pv v u Hv Hu Hlt) as (q & Eq & Hq & Hclose).
  pose proof (dval_bound v (S pv) n (dv_digits _ _ _ Hv)) as HV. unfold round. rewrite Eq. cbn [mbind option_bind].
  pose proof (mulsub_spec n pu pv q v 0 u (dv_digits _ _ _ Hv) ltac:(intros i Hi; apply Hu; lia) Hl Hq ltac:(lia)) as Hms.
  destruct (mulsub n pu pv q 0 v u) as [u1 t]. destruct Hms as (L1 & O1 & D1 & T1 & V1).
  rewrite (O1 pu) by lia. rewrite dval_S in Hlt, Hclose |- *. pose proof (Hu pu ltac:(lia)) as Hu0.
  pose proof (dval_bound u1 (S pu) n D1) as HD. pose proof (dval_bound u (S pu) n ltac:(intros i Hi; apply Hu; lia)) as HU.
  set (P := B ^ Z.of_nat n) in *. set (V := dval v (S pv) n) in *. set (x := u !!! pu) in *. set (D := dval u1 (S pu) n) in *.
  set (W := x * P + dval u (S pu) n) in *. assert (HVpos : 0 < V) by (assert (0 <= W) by (unfold W, B in *; nia); unfold B in *; lia).
  pose proof (Z.div_mod W V ltac:(lia)) as Hdm. pose proof (Z.mod_pos_bound W V HVpos) as Hmod.
  assert (HQ : 0 <= W / V < B) by (split; [apply Z.div_pos; unfold W, B in *; nia|apply Z.div_lt_upper_bound; lia]).
  assert (HW : W = q * V + (x - t) * P + D) by (unfold W; rewrite V1; unfold D; lia).
  assert (q = W / V ∨ q = W / V + 1) as [Eqq|Eqq] by lia.
  - assert (Ex : x - t = 0) by nia. rewrite Ex in HW |- *. change (u32 0) with 0. change (LHALF 0) with 0. change (ztrue (HHALF 0)) with false. cbv iota.
    rewrite u16_id by (rewrite Eqq; exact HQ). rewrite <- Eqq. eexists. split; [done|].
    split_and!.
    + by rewrite length_insert.
    + intros k Hk. rewrite list_lookup_total_insert_ne by lia. apply O1. lia.
    + intros k Hk. destruct (decide (k = pu)) as [->|]; [rewrite list_lookup_total_insert_eq by lia; by unfold B|].
      rewrite list_lookup_total_insert_ne by lia. apply D1. lia.
    + apply list_lookup_total_insert_eq. lia.
    + rewrite (dval_ext _ u1) by (intros k Hk; apply list_lookup_total_insert_ne; lia). fold D. rewrite Eqq in HW. lia.
  - assert (Ex : x - t = -1) by nia. rewrite Ex, Eqq in HW. rewrite Ex. change (u32 (-1)) with 4294967295. change (LHALF 4294967295) with 65535.
    change (ztrue (HHALF 4294967295)) with true. cbv iota.
    assert (Hu2 : digits (<[pu := 65535]> u1) (S pu) n).
    { intros k Hk. rewrite list_lookup_total_insert_ne by lia. apply D1. lia. }
    pose proof (addback_spec n pu pv v 0 (<[pu := 65535]> u1) (dv_digits _ _ _ Hv) Hu2 ltac:(rewrite length_insert; lia) ltac:(lia)) as Hab.
    destruct (addback n pu pv 0 v (<[pu := 65535]> u1)) as [u2 t2]. destruct Hab as (L2 & O2 & D2 & T2 & V2). rewrite length_insert in L2.
    rewrite (dval_ext (<[pu := 65535]> u1) u1) in V2 by (intros k Hk; apply list_lookup_total_insert_ne; lia). fold D V P in V2.
    pose proof (dval_bound u2 (S pu) n D2) as HD2. fold P in HD2. assert (t2 = 1) as -> by nia.
    rewrite (O2 pu) by lia. rewrite list_lookup_total_insert_eq by lia. change (LHALF (65535 + 1)) with 0.
    rewrite (u32_id (q - 1)) by (unfold is_u32, B in *; lia). replace (q - 1) with (W / V) by lia. rewrite u16_id by (exact HQ).
    eexists. split; [done|]. split_and!.
    + rewrite length_insert. lia.
    + intros k Hk. rewrite list_lookup_total_insert_ne by lia. rewrite O2 by lia. rewrite list_lookup_total_insert_ne by lia. apply O1. lia.
    + intros k Hk. destruct (decide (k = pu)) as [->|]; [rewrite list_lookup_total_insert_eq by lia; by unfold B|].
      rewrite list_lookup_total_insert_ne by lia. apply D2. lia.
    + apply list_lookup_total_insert_eq. lia.
    + rewrite (dval_ext _ u2) by (intros k Hk; apply list_lookup_total_insert_ne; lia). nia.
Qed.

(** ** The loop *)

Lemma rounds_spec n pv v : divisor n pv v → ∀ k pu pq u q,
  digits u pu (n + k) → (pu + n + k <= length u)%nat → (pq + k <= length q)%nat → dval u pu n < dval v (S pv) n →
  ∃ u' q', rounds k n pu pv pq v u q = Some (u', q') ∧ length u' = length u ∧ length q' = length q ∧
    (∀ i, (i < pu ∨ pu + n + k <= i)%nat → u' !!! i = u !!! i) ∧ digits u' pu (n + k) ∧
    (∀ i, (pu <= i < pu + k)%nat → u' !!! i = 0) ∧
    (∀ i, (i < pq ∨ pq + k <= i)%nat → q' !!! i = q !!! i) ∧ digits q' pq k ∧
    dval u pu (n + k) = dval q' pq k * dval v (S pv) n + dval u' (pu + k) n ∧
    dval u' (pu + k) n < dval v (S pv) n.
Proof.
  intros Hv. induction k as [|k IH]; intros pu pq u q Hu Hlu Hlq Hlt.
  { exists u, q. rewrite !Nat.add_0_r in *. split_and!; first [done|lia|intros i Hi; lia|simpl; lia]. }
  cbn [rounds]. destruct (round_spec n pu pv v u Hv) as (u1 & -> & L1 & O1 & D1 & Z1 & R1).
  { intros i Hi. apply Hu. lia. }
  { lia. }
  { cbn [dval]. pose proof (Hu (pu + n)%nat ltac:(lia)). unfold B in *. nia. }
  cbn [mbind option_bind]. set (V := dval v (S pv) n) in *. set (W := dval u pu (S n)) in *.
  assert (HW : 0 <= W < V * B).
  { split; [apply dval_bound; intros i Hi; apply Hu; lia|]. unfold W. cbn [dval]. pose proof (Hu (pu + n)%nat ltac:(lia)). unfold B in *. nia. }
  assert (HV : 0 < V) by (unfold B in *; lia). pose proof (Z.mod_pos_bound W V HV) as Hm.
  assert (HQ : 0 <= W / V < B) by (split; [apply Z.div_pos; lia|apply Z.div_lt_upper_bound; lia]).
  destruct (IH (S pu) (S pq) u1 (<[pq := W / V]> q)) as (u' & q' & -> & L & Lq & O & D & Z' & Oq & Dq & E & Rlt).
  { intros i Hi. destruct (decide (i <= pu + n)%nat); [apply D1; lia|]. rewrite O1 by lia. apply Hu. lia. }
  { lia. }
  { rewrite length_insert. lia. }
  { rewrite R1. apply Hm. }
  rewrite length_insert in Lq. exists u', q'. split; [done|].
  assert (Eq : q' !!! pq = W / V) by (rewrite Oq by lia; apply list_lookup_total_insert_eq; lia).
  split_and!; try lia.
  - intros i Hi. rewrite O by lia. apply O1. lia.
  - intros i Hi. destruct (decide (i = pu)) as [->|]; [rewrite O by lia; rewrite Z1; by unfold B|apply D; lia].
  - intros i Hi. destruct (decide (i = pu)) as [->|]; [by rewrite O by lia|apply Z'; lia].
  - intros i Hi. rewrite Oq by lia. apply list_lookup_total_insert_ne. lia.
  - intros i Hi. destruct (decide (i = pq)) as [->|]; [by rewrite Eq|apply Dq; lia].
  - replace (pu + S k)%nat with (S pu + k)%nat by lia. rewrite (dval_S q'), Eq.
    replace (n + S k)%nat with (S n + k)%nat by lia. rewrite dval_split. fold W.
    pose proof (dval_split u1 (S pu) n k) as E1. rewrite R1 in E1.
    rewrite (dval_ext u1 u (S pu + n)) in E1 by (intros i Hi; apply O1; lia).
    replace (pu + S n)%nat with (S pu + n)%nat by lia. pose proof (Z.div_mod W V ltac:(lia)) as Hdm. rewrite E in E1.
    replace (W * B ^ Z.of_nat k) with ((V * (W / V) + W mod V) * B ^ Z.of_nat k) by (by rewrite <- Hdm). nia.
  - by replace (pu + S k)%nat with (S pu + k)%nat by lia.
Qed.

(** ** Shifting digits *)

(** Powers of two up to a digit. *)
Lemma pow2_split d : 0 <= d <= 16 → B = 2 ^ (16 - d) * 2 ^ d ∧ 0 < 2 ^ d ∧ 0 < 2 ^ (16 - d).
Proof.
  intros Hd. split_and!; [|apply Z.pow_pos_nonneg; lia..]. rewrite <- Z.pow_add_r by lia. by replace (16 - d + d) with 16 by lia.
Qed.

Lemma shl_loop_spec sh k : 0 <= sh <= 16 → ∀ p a,
  digits a p (S k) → (p + k < length a)%nat →
  let a' := shl_loop k p sh a in
  length a' = length a ∧ (∀ i, (i < p ∨ p + k < i)%nat → a' !!! i = a !!! i) ∧ digits a' p (S k) ∧
  dval a' p (S k) + a !!! p / 2 ^ (16 - sh) * B ^ Z.of_nat (S k) = dval a p (S k) * 2 ^ sh.
Proof.
  intros Hsh. destruct (pow2_split sh Hsh) as (EB & P1 & P2).
  assert (Hc : ∀ x, 0 <= x < B → (x * 2 ^ sh) mod B + x / 2 ^ (16 - sh) * B = x * 2 ^ sh ∧ 0 <= (x * 2 ^ sh) mod B <= B - 2 ^ sh ∧ 0 <= x / 2 ^ (16 - sh) < 2 ^ sh).
  { intros x Hx. rewrite EB. rewrite Z.mul_mod_distr_r by lia. pose proof (Z.div_mod x (2 ^ (16 - sh)) ltac:(lia)).
    pose proof (Z.mod_pos_bound x (2 ^ (16 - sh)) ltac:(lia)). split; [nia|]. split; [nia|].
    split; [apply Z.div_pos; lia|apply Z.div_lt_upper_bound; lia]. }
  induction k as [|k IH]; intros p a Ha Hl.
  - cbn [shl_loop dval]. rewrite Nat.add_0_r. pose proof (Ha p ltac:(lia)) as Hp. destruct (Hc _ Hp) as (E & Hr & _).
    rewrite LHALF_mod, Z.shiftl_mul_pow2 by lia. split_and!.
    + by rewrite length_insert.
    + intros i Hi. apply list_lookup_total_insert_ne. lia.
    + intros i Hi. assert (i = p) as -> by lia. rewrite list_lookup_total_insert_eq by lia. lia.
    + rewrite list_lookup_total_insert_eq by lia. change (B ^ Z.of_nat 1) with B. lia.
  - cbn [shl_loop]. pose proof (Ha p ltac:(lia)) as Hp. pose proof (Ha (S p) ltac:(lia)) as Hp1.
    destruct (Hc _ Hp) as (E & Hr & _). destruct (Hc _ Hp1) as (_ & _ & Hr1). rewrite lor_high_low by done.
    set (x := (a !!! p * 2 ^ sh) mod B + a !!! S p / 2 ^ (16 - sh)) in *.
    destruct (IH (S p) (<[p := x]> a)) as (L & O & D & V).
    { intros i Hi. rewrite list_lookup_total_insert_ne by lia. apply Ha. lia. }
    { rewrite length_insert. lia. }
    rewrite length_insert in L. set (a' := shl_loop k (S p) sh (<[p := x]> a)) in *.
    assert (Ep : a' !!! p = x) by (rewrite O by lia; apply list_lookup_total_insert_eq; lia).
    rewrite list_lookup_total_insert_ne in V by lia.
    rewrite (dval_ext (<[p := x]> a) a) in V by (intros i Hi; apply list_lookup_total_insert_ne; lia).
    split_and!; [done| | |].
    + intros i Hi. rewrite O by lia. apply list_lookup_total_insert_ne. lia.
    + intros i Hi. destruct (decide (i = p)) as [->|]; [|apply D; lia]. rewrite Ep. unfold x. lia.
    + rewrite (dval_S a'), (dval_S a), Ep. rewrite (Nat2Z.inj_succ (S k)), Z.pow_succ_r by lia. unfold x.
      set (P := B ^ Z.of_nat (S k)) in *. nia.
Qed.

Lemma shr_loop_spec d k : 0 <= d <= 16 → ∀ p u,
  digits u p (S k) → (p + k < length u)%nat → u !!! p = 0 →
  let u' := shr_loop k p d u in
  length u' = length u ∧ (∀ i, (i <= p ∨ p + k < i)%nat → u' !!! i = u !!! i) ∧ digits u' p (S k) ∧
  dval u' (S p) k = dval u p (S k) / 2 ^ d.
Proof.
  intros Hd. destruct (pow2_split d Hd) as (EB & P1 & P2).
  induction k as [|k IH]; intros p u Hu Hl H0.
  - cbn [shr_loop dval]. rewrite Nat.add_0_r, H0. split_and!.
    + by rewrite length_insert.
    + intros i Hi. destruct (decide (i = p)) as [->|]; [rewrite list_lookup_total_insert_eq by lia; done|].
      apply list_lookup_total_insert_ne. lia.
    + intros i Hi. assert (i = p) as -> by lia. rewrite list_lookup_total_insert_eq by lia. by unfold B.
    + by rewrite Z.div_0_l by lia.
  - cbn [shr_loop]. pose proof (Hu (p + S k)%nat ltac:(lia)) as Hx. pose proof (Hu (p + k)%nat ltac:(lia)) as Hy.
    set (xd := u !!! (p + S k)%nat) in *. set (yd := u !!! (p + k)%nat) in *.
    rewrite Z.lor_comm. assert (Eor : Z.lor (LHALF (Z.shiftl yd (HALF_BITS - d))) (Z.shiftr xd d) = (yd mod 2 ^ d) * 2 ^ (16 - d) + xd / 2 ^ d).
    { pose proof (lor_high_low yd xd (16 - d) ltac:(lia) Hx) as E. unfold HALF_BITS in *. replace (16 - (16 - d)) with d in E by lia. rewrite E.
      f_equal. rewrite EB, (Z.mul_comm (2 ^ (16 - d)) (2 ^ d)). apply Z.mul_mod_distr_r; lia. }
    rewrite Eor. set (z := (yd mod 2 ^ d) * 2 ^ (16 - d) + xd / 2 ^ d).
    assert (Hz : 0 <= z < B).
    { pose proof (Z.mod_pos_bound yd (2 ^ d) P1). assert (0 <= xd / 2 ^ d < 2 ^ (16 - d)) by (split; [apply Z.div_pos; lia|apply Z.div_lt_upper_bound; lia]).
      unfold z. nia. }
    destruct (IH p (<[(p + S k)%nat := z]> u)) as (L & O & D & V).
    { intros i Hi. rewrite list_lookup_total_insert_ne by lia. apply Hu. lia. }
    { rewrite length_insert. lia. }
    { by rewrite list_lookup_total_insert_ne by lia. }
    rewrite length_insert in L. set (u' := shr_loop k p d (<[(p + S k)%nat := z]> u)) in *.
    assert (Ez : u' !!! (p + S k)%nat = z) by (rewrite O by lia; apply list_lookup_total_insert_eq; lia).
    rewrite (dval_ext (<[(p + S k)%nat := z]> u) u) in V by (intros i Hi; apply list_lookup_total_insert_ne; lia).
    split_and!; [done| | |].
    + intros i Hi. rewrite O by lia. apply list_lookup_total_insert_ne. lia.
    + intros i Hi. destruct (decide (i = p + S k)%nat) as [->|]; [by rewrite Ez|apply D; lia].
    + change (dval u' (S p) (S k)) with (dval u' (S p) k * B + u' !!! (S p + k)%nat).
      change (dval u p (S (S k))) with (dval u p (S k) * B + u !!! (p + S k)%nat). fold xd.
      replace (S p + k)%nat with (p + S k)%nat by lia. rewrite V, Ez. set (M := dval u p (S k)).
      assert (EM : M mod 2 ^ d = yd mod 2 ^ d).
      { unfold M. cbn [dval]. fold yd. rewrite EB, Z.mul_assoc. rewrite Z.add_comm. by apply Z.mod_add; lia. }
      pose proof (Z.div_mod M (2 ^ d) ltac:(lia)) as Hdm. symmetry.
      replace (M * B + xd) with (xd + (M / 2 ^ d * B + (M mod 2 ^ d) * 2 ^ (16 - d)) * 2 ^ d) by (rewrite Hdm at 3; rewrite EB; ring).
      rewrite Z.div_add by lia. rewrite EM. unfold z. ring.
Qed.

(** ** Normalisation *)

Lemma find_d_spec fuel : ∀ t d, 1 <= t < B → B / 2 <= t * 2 ^ Z.of_nat (fuel - 1) → (1 <= fuel)%nat →
  ∃ e, find_d fuel t d = Some (d + e) ∧ 0 <= e ∧ B / 2 <= t * 2 ^ e < B.
Proof.
  change (B / 2) with 32768. unfold B. induction fuel as [|fuel IH]; intros t d Ht Hf H1; [lia|]. cbn [find_d].
  change (B / 2) with 32768.
  destruct (t <? 32768) eqn:E; zbool.
  - rewrite Z.shiftl_mul_pow2 by lia. change (2 ^ 1) with 2. rewrite u32_id by (unfold is_u32; lia).
    destruct fuel as [|fuel]; [simpl in Hf; lia|].
    destruct (IH (t * 2) (d + 1)) as (e & -> & He & Hb); [lia| |lia|].
    { replace (Z.of_nat (S (S fuel) - 1)) with (Z.succ (Z.of_nat (S fuel - 1))) in Hf by lia. rewrite Z.pow_succ_r in Hf by lia. lia. }
    exists (e + 1). split; [f_equal; lia|]. split; [lia|]. rewrite Z.pow_add_r by lia. change (2 ^ 1) with 2. lia.
  - exists 0. split; [f_equal; lia|]. rewrite Z.pow_0_r. lia.
Qed.

Lemma find_m_spec n u V : (1 <= n)%nat → B ^ Z.of_nat (n - 1) <= V → ∀ m du,
  digits u (S du) (m + n) → V <= dval u (S du) (m + n) →
  ∃ m' du', find_m m du u = Some (m', du') ∧ (du' + m' = du + m)%nat ∧ (du <= du')%nat ∧
    (∀ i, (du < i <= du')%nat → u !!! i = 0) ∧ dval u (S du') (m' + n) = dval u (S du) (m + n).
Proof.
  intros Hn HV m. induction m as [|m IH]; intros du Hu Hge; cbn [find_m]; destruct (Z.eqb_spec (u !!! S du) 0) as [E|E].
  - exfalso. replace (0 + n)%nat with (S (n - 1)) in * by lia. rewrite dval_S, E in Hge.
    pose proof (dval_bound u (S (S du)) (n - 1) ltac:(intros i Hi; apply Hu; lia)). lia.
  - exists 0%nat, du. split_and!; try done. intros i Hi. lia.
  - change (S m + n)%nat with (S (m + n)) in *. rewrite dval_S, E in Hge |- *.
    destruct (IH (S du)) as (m' & du' & -> & E1 & E2 & E3 & E4); [intros i Hi; apply Hu; lia|lia|].
    exists m', du'. split_and!; try done; try lia. intros i Hi. destruct (decide (i = S du)) as [->|]; [done|]. apply E3. lia.
  - exists (S m), du. split_and!; try done. intros i Hi. lia.
Qed.

(** ** Quads as digits *)

Lemma to_digits_spec q : is_u64 q → digits (to_digits q) 0 5 ∧ dval (to_digits q) 1 4 = q.
Proof.
  intros Hq. unfold to_digits, hi, lo. rewrite (u64_id q Hq), !HHALF_div, !LHALF_mod. unfold is_u64, B in *. split.
  - intros i Hi. destruct i as [|[|[|[|[|i]]]]]; cbn [lookup_total list_lookup_total]; try lia; unfold B; Z.div_mod_to_equations; lia.
  - cbn [dval Nat.add lookup_total list_lookup_total]. unfold B. Z.div_mod_to_equations. lia.
Qed.

Lemma of_digits_dval a : digits a 1 4 → of_digits a = dval a 1 4.
Proof.
  intros H. unfold of_digits, uquad. pose proof (H 1%nat ltac:(lia)). pose proof (H 2%nat ltac:(lia)).
  pose proof (H 3%nat ltac:(lia)). pose proof (H 4%nat ltac:(lia)). rewrite !COMBINE_eq by done.
  cbn [dval Nat.add]. unfold B. lia.
Qed.

(** A number whose upper digits are zero. *)
Lemma dval_low a p : (1 <= p <= 5)%nat → (∀ i, (1 <= i < p)%nat → a !!! i = 0) → dval a 1 4 = dval a p (5 - p).
Proof.
  intros Hp Hz. pose proof (dval_split a 1 (p - 1) (5 - p)) as E. rewrite (dval_zero a 1 (p - 1)) in E by (intros i Hi; apply Hz; lia).
  replace (p - 1 + (5 - p))%nat with 4%nat in E by lia. replace (1 + (p - 1))%nat with p in E by lia. lia.
Qed.

Lemma find_n_spec v : v !!! 0%nat = 0 → dval v 1 4 ≠ 0 → digits v 0 5 →
  (find_n 4 0 v = (1%nat, 2%nat) ∧ dval v 1 4 = v !!! 4%nat) ∨
  ∃ n, (2 <= n <= 4)%nat ∧ find_n 4 0 v = (n, (4 - n)%nat) ∧ v !!! (5 - n)%nat ≠ 0 ∧ dval v 1 4 = dval v (5 - n) n.
Proof.
  intros H0 Hv Hd. unfold find_n. destruct (Z.eqb_spec (v !!! 1%nat) 0) as [E1|E1].
  2: { right. exists 4%nat. split_and!; try done; lia. }
  destruct (Z.eqb_spec (v !!! 2%nat) 0) as [E2|E2].
  2: { right. exists 3%nat. split_and!; try done; try lia. apply (dval_low v 2); [lia|]. intros i Hi. by replace i with 1%nat by lia. }
  destruct (Z.eqb_spec (v !!! 3%nat) 0) as [E3|E3].
  - left. split; [done|]. cbn [dval Nat.add]. rewrite E1, E2, E3. lia.
  - right. exists 2%nat. split_and!; try done; try lia. apply (dval_low v 3); [lia|].
    intros i Hi. by destruct (decide (i = 1)%nat) as [->|]; [|replace i with 2%nat by lia].
Qed.

Lemma short_division_spec u t : digits u 0 5 → 0 < t < B →
  short_division u t = (dval u 1 4 / t, dval u 1 4 mod t).
Proof.
  intros Hu Ht. unfold short_division. pose proof (Hu 1%nat ltac:(lia)) as H1. pose proof (Hu 2%nat ltac:(lia)) as H2.
  pose proof (Hu 3%nat ltac:(lia)) as H3. pose proof (Hu 4%nat ltac:(lia)) as H4.
  assert (Hstep : ∀ r x, 0 <= r < t → 0 <= x < B → COMBINE r x = r * B + x ∧ 0 <= (r * B + x) / t < B).
  { intros r x Hr Hx. split; [apply COMBINE_eq; lia|]. split; [apply Z.div_pos; unfold B in *; lia|].
    apply Z.div_lt_upper_bound; [lia|]. unfold B in *. nia. }
  assert (Hmod : ∀ x, 0 <= x mod t < t) by (intros x; apply Z.mod_pos_bound; lia).
  destruct (Hstep (u !!! 1%nat mod t) (u !!! 2%nat) (Hmod _) H2) as (-> & Q2).
  destruct (Hstep (((u !!! 1%nat) mod t * B + u !!! 2%nat) mod t) (u !!! 3%nat) (Hmod _) H3) as (-> & Q3).
  destruct (Hstep ((((u !!! 1%nat) mod t * B + u !!! 2%nat) mod t * B + u !!! 3%nat) mod t) (u !!! 4%nat) (Hmod _) H4) as (-> & Q4).
  assert (Q1 : 0 <= u !!! 1%nat / t < B) by (split; [apply Z.div_pos; lia|apply Z.div_lt_upper_bound; unfold B in *; nia]).
  rewrite !(u16_id (_ / t)) by done. unfold uquad. rewrite !COMBINE_eq by done. cbn [dval Nat.add].
  set (r1 := u !!! 1%nat mod t) in *. set (y2 := r1 * B + u !!! 2%nat) in *. set (r2 := y2 mod t) in *.
  set (y3 := r2 * B + u !!! 3%nat) in *. set (r3 := y3 mod t) in *. set (y4 := r3 * B + u !!! 4%nat) in *.
  pose proof (Z.div_mod (u !!! 1%nat) t ltac:(lia)) as D1. pose proof (Z.div_mod y2 t ltac:(lia)) as D2.
  pose proof (Z.div_mod y3 t ltac:(lia)) as D3. pose proof (Z.div_mod y4 t ltac:(lia)) as D4.
  fold r1 in D1. fold r2 in D2. fold r3 in D3. pose proof (Hmod y4) as M4.
  set (N := (((0 * B + u !!! 1%nat) * B + u !!! 2%nat) * B + u !!! 3%nat) * B + u !!! 4%nat).
  set (Q := ((u !!! 1%nat / t * B + y2 / t) * 4294967296 + (y3 / t * B + y4 / t))).
  assert (EN : N = t * Q + y4 mod t) by (unfold N, Q, y2, y3, y4, B in *; lia).
  f_equal; [by apply (Z.div_unique N t Q (y4 mod t)); [lia|]|by apply (Z.mod_unique N t Q (y4 mod t)); [lia|]].
Qed.

(** ** Division *)

(** The shift of both operands, also when it is by 0. *)
Lemma normalise a p k d :
  0 <= d <= 16 → digits a p (S k) → (p + k < length a)%nat → a !!! p * 2 ^ d < B →
  let a' := if 0 <? d then shl p k d a else a in
  length a' = length a ∧ (∀ i, (i < p ∨ p + k < i)%nat → a' !!! i = a !!! i) ∧ digits a' p (S k) ∧
  dval a' p (S k) = dval a p (S k) * 2 ^ d.
Proof.
  intros Hd Ha Hl Ht a'. unfold a'. destruct (0 <? d) eqn:E; zbool.
  - destruct (shl_loop_spec d k Hd p a Ha Hl) as (L & O & D & V). unfold shl. split_and!; try done.
    destruct (pow2_split d Hd) as (EB & P1 & P2). pose proof (Ha p ltac:(lia)) as Hp.
    rewrite (Z.div_small (a !!! p)) in V by nia. lia.
  - assert (d = 0) as -> by lia. rewrite Z.pow_0_r. split_and!; try done. lia.
Qed.

Lemma denormalise u p k d :
  0 <= d <= 16 → digits u p (S k) → (p + k < length u)%nat → u !!! p = 0 →
  let u' := if ztrue d then shr_loop k p d u else u in
  (∀ i, (i <= p ∨ p + k < i)%nat → u' !!! i = u !!! i) ∧ digits u' p (S k) ∧ dval u' (S p) k = dval u (S p) k / 2 ^ d.
Proof.
  intros Hd Hu Hl H0 u'. unfold u'. destruct (ztrue d) eqn:E.
  - destruct (shr_loop_spec d k Hd p u Hu Hl H0) as (L & O & D & V). split_and!; try done.
    rewrite dval_S, H0 in V. by rewrite Z.mul_0_l, Z.add_0_l in V.
  - assert (d = 0) as -> by (unfold ztrue in E; by zbool). rewrite Z.pow_0_r, Z.div_1_r. done.
Qed.

(** The divisor as its first digit and the rest. *)
Lemma divisor_low n v V :
  (2 <= n <= 4)%nat → digits v 0 5 → v !!! (5 - n)%nat ≠ 0 → V = dval v (5 - n) n →
  V = v !!! (5 - n)%nat * B ^ Z.of_nat (n - 1) + dval v (S (5 - n)) (n - 1) ∧ B ^ Z.of_nat (n - 1) <= V.
Proof.
  intros Hn Hv Hv1 HV. assert (E : V = v !!! (5 - n)%nat * B ^ Z.of_nat (n - 1) + dval v (S (5 - n)) (n - 1)).
  { rewrite HV. replace n with (S (n - 1)) at 2 by lia. apply dval_S. }
  split; [done|]. pose proof (Hv (5 - n)%nat ltac:(lia)) as Hvd. pose proof (pow_B (n - 1)) as HP.
  pose proof (dval_bound v (S (5 - n)) (n - 1) ltac:(intros i Hi; apply Hv; lia)) as Hvr. rewrite E. nia.
Qed.

(** The shifted divisor is normalised. *)
Lemma divisor_shifted n v v1 V d :
  (2 <= n <= 4)%nat → digits v 0 5 → digits v1 (5 - n) n → V = v !!! (5 - n)%nat * B ^ Z.of_nat (n - 1) + dval v (S (5 - n)) (n - 1) →
  0 < 2 ^ d → 32768 <= v !!! (5 - n)%nat * 2 ^ d → dval v1 (5 - n) n = V * 2 ^ d → divisor n (4 - n) v1.
Proof.
  intros Hn Hv Dv HvV HD Hd Vv. replace (5 - n)%nat with (S (4 - n)) in * by lia. split; [lia|done|]. change (B / 2) with 32768.
  pose proof (dval_S v1 (S (4 - n)) (n - 1)) as E. replace (S (n - 1)) with n in E by lia.
  pose proof (dval_bound v (S (S (4 - n))) (n - 1) ltac:(intros i Hi; apply Hv; lia)) as Hvr. pose proof (pow_B (n - 1)) as HP.
  rewrite Vv, HvV in E. pose proof (dval_bound v1 (S (S (4 - n))) (n - 1) ltac:(intros i Hi; apply Dv; lia)) as Hb.
  set (P := B ^ Z.of_nat (n - 1)) in *. nia.
Qed.

(** The first window is smaller than the divisor. *)
Lemma first_window n m du u1 U V d :
  (2 <= n)%nat → digits u1 du (S (m + n)) → dval u1 du (n + S m) = U * 2 ^ d → 0 < 2 ^ d →
  U < B ^ Z.of_nat (m + n) → B ^ Z.of_nat (n - 1) <= V → dval u1 du n < V * 2 ^ d.
Proof.
  intros Hn Du EU1 HD HU HV. pose proof (dval_split u1 du n (S m)) as E. rewrite EU1 in E.
  pose proof (dval_bound u1 (du + n) (S m) ltac:(intros i Hi; apply Du; lia)) as Hb.
  replace (Z.of_nat (m + n)) with (Z.of_nat (S m) + Z.of_nat (n - 1)) in HU by lia. rewrite Z.pow_add_r in HU by lia.
  set (PM := B ^ Z.of_nat (S m)) in *. set (PN := B ^ Z.of_nat (n - 1)) in *. pose proof (pow_B (S m)) as HPM. fold PM in HPM.
  assert (dval u1 du n * PM < (V * 2 ^ d) * PM); [|nia].
  assert (U * 2 ^ d < PM * PN * 2 ^ d) by nia. assert (PN * 2 ^ d <= V * 2 ^ d) by nia. nia.
Qed.

(** A number whose upper places hold zeros. *)
Lemma of_digits_low a p k : (1 <= p)%nat → (p + k = 5)%nat → digits a p k → (∀ i, (1 <= i < p)%nat → a !!! i = 0) →
  of_digits a = dval a p k.
Proof.
  intros Hp Hk Ha Hz. rewrite of_digits_dval.
  - rewrite (dval_low a p); [by replace (5 - p)%nat with k by lia|lia|done].
  - intros i Hi. destruct (decide (i < p)%nat); [rewrite Hz by lia; by unfold B|apply Ha; lia].
Qed.

Lemma long_division_spec n u v :
  (2 <= n <= 4)%nat → length u = 5%nat → length v = 5%nat → digits u 0 5 → digits v 0 5 → u !!! 0%nat = 0 →
  v !!! (5 - n)%nat ≠ 0 → dval v (5 - n) n <= dval u 1 4 →
  long_division n (4 - n) u v = Some (dval u 1 4 / dval v (5 - n) n, dval u 1 4 mod dval v (5 - n) n).
Proof.
  intros Hn Lu Lv Hu Hv Hu0 Hv1 Hge. set (U := dval u 1 4) in *. set (V := dval v (5 - n) n) in *. unfold long_division.
  destruct (divisor_low n v V Hn Hv Hv1 eq_refl) as [HvV HVlow]. pose proof (Hv (5 - n)%nat ltac:(lia)) as Hvd.
  destruct (find_m_spec n u V ltac:(lia) HVlow (4 - n) 0) as (m & du & -> & Em & _ & Hz & EU).
  { intros i Hi. apply Hu. lia. }
  { by replace (4 - n + n)%nat with 4%nat by lia. }
  replace (4 - n + n)%nat with 4%nat in EU by lia. fold U in EU. cbn [mbind option_bind].
  replace (S (4 - n)) with (5 - n)%nat by lia.
  destruct (find_d_spec 17 (v !!! (5 - n)%nat) 0) as (d & -> & Hd0 & Hd); [lia| |lia|].
  { change (2 ^ Z.of_nat (17 - 1)) with 65536. change (B / 2) with 32768. lia. }
  rewrite Z.add_0_l. cbn [mbind option_bind]. change (B / 2) with 32768 in Hd.
  assert (Hd16 : 0 <= d <= 16).
  { split; [done|]. destruct (Z.le_gt_cases d 16); [done|]. pose proof (Z.pow_le_mono_r 2 17 d ltac:(lia) ltac:(lia)).
    change (2 ^ 17) with 131072 in *. unfold B in *. nia. }
  assert (HD : 0 < 2 ^ d) by (apply Z.pow_pos_nonneg; lia).
  assert (Hud : u !!! du = 0) by (destruct (decide (du = 0)%nat) as [->|]; [done|apply Hz; lia]).
  (* both operands shifted *)
  destruct (normalise u du (m + n) d Hd16) as (Lu' & Ou & Du & Vu); [intros i Hi; apply Hu; lia|lia|by rewrite Hud|].
  destruct (normalise v (5 - n) (n - 1) d Hd16) as (Lv' & Ov & Dv & Vv); [intros i Hi; apply Hv; lia|lia|lia|].
  set (u1 := if 0 <? d then shl du (m + n) d u else u) in *. set (v1 := if 0 <? d then shl (5 - n) (n - 1) d v else v) in *.
  assert ((if 0 <? d then (shl du (m + n) d u, shl (5 - n) (n - 1) d v) else (u, v)) = (u1, v1)) as -> by (unfold u1, v1; by destruct (0 <? d)).
  clearbody u1 v1. replace (S (n - 1)) with n in Dv, Vv by lia. fold V in Vv.
  pose proof (divisor_shifted n v v1 V d Hn Hv Dv HvV HD ltac:(lia) Vv) as Hdiv.
  assert (EV1 : dval v1 (S (4 - n)) n = V * 2 ^ d) by (by replace (S (4 - n)) with (5 - n)%nat by lia).
  assert (EU1 : dval u1 du (n + S m) = U * 2 ^ d).
  { replace (n + S m)%nat with (S (m + n)) by lia. rewrite Vu, dval_S, Hud, EU. lia. }
  destruct (rounds_spec n (4 - n) v1 Hdiv (S m) du (4 - m) u1 (replicate 5 0))
    as (u2 & q & -> & L2 & Lq & O2 & D2 & Z2 & Oq & Dq & E & Hrem).
  { by replace (n + S m)%nat with (S (m + n)) by lia. }
  { lia. }
  { rewrite length_replicate. lia. }
  { rewrite EV1. apply (first_window n m du u1 U); try done; [lia|]. rewrite <- EU. apply dval_bound. intros i Hi. apply Hu. lia. }
  cbn [mbind option_bind]. rewrite EV1 in E, Hrem. rewrite EU1 in E.
  pose proof (dval_bound u2 (du + S m) n ltac:(intros i Hi; apply D2; lia)) as Hr0.
  (* the remainder shifted back *)
  destruct (denormalise u2 (du + m) n d Hd16) as (O3 & D3 & V3); [intros i Hi; apply D2; lia|lia|apply Z2; lia|].
  set (u3 := if ztrue d then _ else _) in *. replace (S (du + m)) with (du + S m)%nat in V3 by lia.
  assert (HV0 : 0 < V) by lia. set (Q := dval q (4 - m) (S m)) in *. set (R := dval u2 (du + S m) n) in *.
  assert (ER : R = (U - Q * V) * 2 ^ d) by lia. assert (HR : 0 <= U - Q * V < V) by nia.
  assert (Eq : of_digits q = Q).
  { apply of_digits_low; [lia|lia|done|]. intros i Hi. rewrite Oq by lia. by apply lookup_total_replicate_2; lia. }
  assert (Er : of_digits u3 = U - Q * V).
  { rewrite (of_digits_low u3 (du + S m) n); [|lia|lia|intros i Hi; apply D3; lia|].
    - rewrite V3, ER. by apply Z.div_mul; lia.
    - intros i Hi. rewrite O3 by lia. destruct (decide (i < du)%nat); [|apply Z2; lia].
      rewrite O2 by lia. rewrite Ou by lia. apply Hz. lia. }
  rewrite Eq, Er. f_equal. f_equal; [by apply (Z.div_unique U V Q (U - Q * V)); lia|by apply (Z.mod_unique U V Q (U - Q * V)); lia].
Qed.

Lemma qdivrem_spec u v : is_u64 u → 0 < v < 18446744073709551616 → qdivrem u v = Some (u / v, u mod v).
Proof.
  intros Hu Hv. unfold qdivrem. rewrite (proj2 (Z.eqb_neq v 0)) by lia.
  destruct (u <? v) eqn:E; zbool.
  { f_equal. f_equal; [by rewrite Z.div_small by (unfold is_u64 in Hu; lia)|by rewrite Z.mod_small by (unfold is_u64 in Hu; lia)]. }
  destruct (to_digits_spec u Hu) as [Du Eu]. destruct (to_digits_spec v ltac:(unfold is_u64; lia)) as [Dv Ev].
  destruct (find_n_spec (to_digits v)) as [[-> E1]|(n & Hn & -> & E1 & E2)]; [done|lia|done| |].
  - cbn [Nat.eqb]. rewrite short_division_spec; [|done|].
    + change (2 + 2)%nat with 4%nat. by rewrite Eu, <- E1, Ev.
    + change (2 + 2)%nat with 4%nat. split; [lia|]. apply Dv. lia.
  - rewrite (proj2 (Nat.eqb_neq n 1)) by lia. rewrite long_division_spec; try done; [by rewrite Eu, <- E2, Ev|]. rewrite Eu, <- E2, Ev. lia.
Qed.

(** ** The other operations *)

(** Quads are numbers modulo [2 ^ 64]. *)
Lemma s64_cong x y k : x = y + k * 18446744073709551616 → s64 x = s64 y.
Proof. intros ->. unfold s64. f_equal. replace (y + k * 18446744073709551616 + 9223372036854775808) with (y + 9223372036854775808 + k * 18446744073709551616) by ring. by apply Z.mod_add. Qed.

Lemma s64_id z : is_s64 z → s64 z = z.
Proof. intros H. unfold is_s64, s64 in *. rewrite Z.mod_small; lia. Qed.

Lemma s64_range z : is_s64 (s64 z).
Proof. unfold is_s64, s64. pose proof (Z.mod_pos_bound (z + 9223372036854775808) 18446744073709551616). lia. Qed.

(** The two longs of a quad. *)
Lemma hi_lo a : ∃ k, a = hi a * 4294967296 + lo a + k * 18446744073709551616 ∧ is_u32 (hi a) ∧ is_u32 (lo a).
Proof.
  exists (a / 18446744073709551616). unfold hi, lo, u64, is_u32.
  pose proof (Z.div_mod a 18446744073709551616). pose proof (Z.mod_pos_bound a 18446744073709551616).
  set (r := a mod 18446744073709551616) in *. pose proof (Z.div_mod r 4294967296). pose proof (Z.mod_pos_bound r 4294967296).
  split; [lia|]. split; [|lia]. split; [apply Z.div_pos; lia|apply Z.div_lt_upper_bound; lia].
Qed.

Lemma hi_lo_u64 a : is_u64 a → a = hi a * 4294967296 + lo a ∧ is_u32 (hi a) ∧ is_u32 (lo a).
Proof.
  intros Ha. destruct (hi_lo a) as (k & E & H1 & H2). split; [|done]. unfold is_u64, is_u32 in *. assert (k = 0) by nia. lia.
Qed.

(** Only the high long wraps in a result. *)
Lemma quad_u32 h l : quad (u32 h) l = s64 (h * 4294967296 + l).
Proof.
  unfold quad. apply (s64_cong _ _ (- (h / 4294967296))). unfold u32. rewrite Z.mod_eq by lia. ring.
Qed.

Lemma carry l y : is_u32 l → is_u32 y → u32 (l + y) + 4294967296 * b2z (u32 (l + y) <? l) = l + y.
Proof. intros Hl Hy. unfold b2z. ifs; wraplia. Qed.

Lemma borrow l y : is_u32 l → is_u32 y → u32 (l - y) = l - y + 4294967296 * b2z (l <? u32 (l - y)).
Proof. intros Hl Hy. unfold b2z. ifs; wraplia. Qed.

Lemma adddi3_spec a b : adddi3 a b = s64 (a + b).
Proof.
  destruct (hi_lo a) as (ka & Ea & _ & Ha), (hi_lo b) as (kb & Eb & _ & Hb). unfold adddi3. rewrite quad_u32.
  pose proof (carry (lo b) (lo a) Hb Ha) as Hc. rewrite (Z.add_comm (lo b)) in Hc.
  apply (s64_cong _ _ (- ka - kb)). lia.
Qed.

Lemma subdi3_spec a b : subdi3 a b = s64 (a - b).
Proof.
  destruct (hi_lo a) as (ka & Ea & _ & Ha), (hi_lo b) as (kb & Eb & _ & Hb). unfold subdi3. rewrite quad_u32.
  pose proof (borrow (lo a) (lo b) Ha Hb) as Hc. apply (s64_cong _ _ (kb - ka)). lia.
Qed.

Lemma negdi2_spec a : negdi2 a = s64 (- a).
Proof.
  destruct (hi_lo a) as (ka & Ea & _ & Ha). unfold negdi2. rewrite quad_u32.
  pose proof (borrow 0 (lo a) ltac:(done) Ha) as Hc. rewrite Z.sub_0_l in Hc. apply (s64_cong _ _ ka). lia.
Qed.

(** [x] shifted left by half a long, as two longs. *)
Lemma half_up x : is_u32 x → x * B = HHALF x * 4294967296 + LHUP x ∧ is_u32 (LHUP x).
Proof.
  intros Hx. unfold LHUP. rewrite HHALF_div, Z.shiftl_mul_pow2 by done. change (2 ^ HALF_BITS) with B.
  split; [|apply u32_range]. unfold B. wraplia.
Qed.

(** The difference of two longs. *)
Lemma absdiff_spec x y : is_u32 x → is_u32 y →
  let '(neg, d) := absdiff x y in is_u32 d ∧ x - y = if neg then - d else d.
Proof. intros Hx Hy. unfold absdiff. destruct (y <=? x) eqn:E; zbool; rewrite u32_id by (unfold is_u32 in *; lia); unfold is_u32 in *; lia. Qed.

Lemma u32_add_u32 x y : u32 (u32 x + y) = u32 (x + y).
Proof. unfold u32. by rewrite Zplus_mod_idemp_l. Qed.

Lemma u32_sub_u32 x y : u32 (u32 x - y) = u32 (x - y).
Proof. unfold u32. by rewrite Zminus_mod_idemp_l. Qed.

Lemma lmulq_spec u v : is_u32 u → is_u32 v → lmulq u v = s64 (u * v).
Proof.
  intros Hu Hv. unfold lmulq. set (u1 := HHALF u). set (u0 := LHALF u). set (v1 := HHALF v). set (v0 := LHALF v).
  assert (Eu : u = u1 * B + u0 ∧ 0 <= u1 < B ∧ 0 <= u0 < B).
  { unfold u1, u0. rewrite HHALF_div, LHALF_mod. unfold B. wraplia. }
  assert (Ev : v = v1 * B + v0 ∧ 0 <= v1 < B ∧ 0 <= v0 < B).
  { unfold v1, v0. rewrite HHALF_div, LHALF_mod. unfold B. wraplia. }
  destruct Eu as (Eu & Hu1 & Hu0), Ev as (Ev & Hv1 & Hv0). clearbody u1 u0 v1 v0.
  rewrite (u32_id (u0 * v0)) by (unfold is_u32, B in *; nia).
  destruct ((u1 =? 0) && (v1 =? 0)) eqn:E0.
  { zbool. subst u1 v1. rewrite Eu, Ev. rewrite s64_id by (unfold is_s64, B in *; nia). f_equal; lia. }
  clear E0. pose proof (absdiff_spec u1 u0 ltac:(unfold is_u32, B in *; lia) ltac:(unfold is_u32, B in *; lia)) as Hud.
  pose proof (absdiff_spec v0 v1 ltac:(unfold is_u32, B in *; lia) ltac:(unfold is_u32, B in *; lia)) as Hvd.
  destruct (absdiff u1 u0) as [nu ud], (absdiff v0 v1) as [nv vd]. destruct Hud as [Ru Hud], Hvd as [Rv Hvd].
  assert (Bu : 0 <= ud < B) by (unfold is_u32, B in *; destruct nu; lia). assert (Bv : 0 <= vd < B) by (unfold is_u32, B in *; destruct nv; lia).
  rewrite (u32_id (ud * vd)) by (unfold is_u32, B in *; nia). rewrite (u32_id (u1 * v1)) by (unfold is_u32, B in *; nia).
  set (mid := ud * vd). set (high := u1 * v1). set (low := u0 * v0).
  assert (Rm : is_u32 mid) by (unfold mid, is_u32, B in *; nia). assert (Rh : is_u32 high) by (unfold high, is_u32, B in *; nia).
  assert (Rl : is_u32 low) by (unfold low, is_u32, B in *; nia).
  destruct (half_up mid Rm) as [Em Lm], (half_up high Rh) as [Eh Lh], (half_up low Rl) as [El Ll].
  (* the middle term added or subtracted *)
  set (sgn := if xorb nu nv then -1 else 1).
  assert (Hsgn : sgn * mid = (u1 - u0) * (v0 - v1)).
  { rewrite Hud, Hvd. unfold sgn, mid. destruct nu, nv; simpl; ring. }
  assert (Hmid : ∃ c, ∃ h l, (if xorb nu nv
      then (u32 (u32 (high + HHALF high) - (HHALF mid + b2z (LHUP high <? u32 (LHUP high - LHUP mid)))), u32 (LHUP high - LHUP mid))
      else (u32 (u32 (high + HHALF high) + (HHALF mid + b2z (u32 (LHUP high + LHUP mid) <? LHUP high))), u32 (LHUP high + LHUP mid))) = (u32 h, l) ∧
      is_u32 l ∧ h * 4294967296 + l = high * 4294967296 + high * B + sgn * mid * B + c * 18446744073709551616).
  { exists 0. unfold sgn. destruct (xorb nu nv).
    - rewrite u32_sub_u32. do 2 eexists. split; [done|]. split; [apply u32_range|]. pose proof (borrow _ _ Lh Lm). lia.
    - rewrite u32_add_u32. do 2 eexists. split; [done|]. split; [apply u32_range|]. pose proof (carry _ _ Lh Lm). lia. }
  destruct Hmid as (c & h & l & -> & Rll & Hhl). cbv zeta.
  pose proof (carry l (LHUP low) Rll Ll) as C1. set (l2 := u32 (l + LHUP low)) in *.
  assert (Rl2 : is_u32 l2) by apply u32_range. pose proof (carry low l2 Rl Rl2) as C2. rewrite (Z.add_comm low l2) in C2.
  set (l3 := u32 (l2 + low)) in *.
  assert (Hend : ∀ x, (if l3 <? low then u32 (u32 x + 1) else u32 x) = u32 (x + b2z (l3 <? low))).
  { intros x. destruct (l3 <? low); simpl; [by rewrite u32_add_u32|by rewrite Z.add_0_r]. }
  rewrite Hend, <- Z.add_assoc, u32_add_u32, quad_u32. apply (s64_cong _ _ c). rewrite Eu, Ev.
  assert (EB : B * B = 4294967296) by done.
  assert (Hfin : (u1 * B + u0) * (v1 * B + v0) = high * 4294967296 + high * B + sgn * mid * B + low * B + low).
  { rewrite Hsgn, <- EB. unfold high, low. ring. }
  rewrite Hfin. lia.
Qed.

Lemma s64_neg x : s64 (- s64 x) = s64 (- x).
Proof.
  apply (s64_cong _ _ ((x + 9223372036854775808) / 18446744073709551616)). unfold s64. rewrite Z.mod_eq by lia. ring.
Qed.

(** The magnitude of an operand, as the code forms it. *)
Lemma magnitude a : is_s64 a →
  let '(u, neg) := if 0 <=? a then (a, false) else (s64 (- a), true) in
  u64 u = Z.abs a ∧ a = if neg then - Z.abs a else Z.abs a.
Proof.
  intros Ha. unfold is_s64 in Ha. destruct (0 <=? a) eqn:E; zbool; (split; [|lia]).
  - unfold u64. rewrite Z.mod_small; lia.
  - unfold u64, s64. rewrite Zminus_mod_idemp_l. replace (- a + 9223372036854775808 - 9223372036854775808) with (- a) by ring.
    rewrite Z.mod_small; lia.
Qed.

Lemma muldi3_spec a b : is_s64 a → is_s64 b → muldi3 a b = s64 (a * b).
Proof.
  intros Ha Hb. unfold muldi3. pose proof (magnitude a Ha) as Hma. pose proof (magnitude b Hb) as Hmb.
  destruct (if 0 <=? a then _ else _) as [u nega]. destruct (if 0 <=? b then _ else _) as [v negb].
  destruct Hma as [Eu Ea], Hmb as [Ev Eb].
  destruct (hi_lo_u64 (Z.abs a) ltac:(unfold is_u64, is_s64 in *; lia)) as (Du & Ru1 & Ru0).
  destruct (hi_lo_u64 (Z.abs b) ltac:(unfold is_u64, is_s64 in *; lia)) as (Dv & Rv1 & Rv0).
  assert (hi u = hi (Z.abs a) ∧ lo u = lo (Z.abs a)) as [-> ->].
  { unfold hi, lo. rewrite Eu, (u64_id (Z.abs a)) by (unfold is_u64, is_s64 in *; lia). done. }
  assert (hi v = hi (Z.abs b) ∧ lo v = lo (Z.abs b)) as [-> ->].
  { unfold hi, lo. rewrite Ev, (u64_id (Z.abs b)) by (unfold is_u64, is_s64 in *; lia). done. }
  set (u1 := hi (Z.abs a)) in *. set (u0 := lo (Z.abs a)) in *. set (v1 := hi (Z.abs b)) in *. set (v0 := lo (Z.abs b)) in *.
  match goal with |- context [if (u1 =? 0) && (v1 =? 0) then ?x else ?y] =>
    assert (Hp : (if (u1 =? 0) && (v1 =? 0) then x else y) = s64 (Z.abs a * Z.abs b)) end.
  { destruct ((u1 =? 0) && (v1 =? 0)) eqn:E0.
    { zbool. rewrite lmulq_spec by done. f_equal. rewrite Du, Dv. nia. }
    rewrite lmulq_spec by done.
    destruct (hi_lo (s64 (u0 * v0))) as (k & Ek & Rh & Rl).
    assert (Es : ∃ k', s64 (u0 * v0) = u0 * v0 + k' * 18446744073709551616).
    { exists (- ((u0 * v0 + 9223372036854775808) / 18446744073709551616)). unfold s64. rewrite Z.mod_eq by lia. ring. }
    destruct Es as [k' Ek']. set (h := hi (s64 (u0 * v0))) in *. set (l := lo (s64 (u0 * v0))) in *. rewrite Ek' in Ek.
    pose proof (absdiff_spec u1 u0 Ru1 Ru0) as Hud. pose proof (absdiff_spec v0 v1 Rv0 Rv1) as Hvd.
    destruct (absdiff u1 u0) as [nu ud], (absdiff v0 v1) as [nv vd]. destruct Hud as [_ Hud], Hvd as [_ Hvd].
    assert (Hm : ∃ k2, (if xorb nu nv then u32 (- u32 (ud * vd)) else u32 (ud * vd)) = (u1 - u0) * (v0 - v1) + k2 * 4294967296).
    { rewrite Hud, Hvd. set (q := ud * vd). assert (Eq : u32 q = q - q / 4294967296 * 4294967296) by (unfold u32; rewrite Z.mod_eq by lia; ring).
      destruct nu, nv; cbn [xorb].
      - exists (- (q / 4294967296)). rewrite Eq. unfold q. ring.
      - exists (q / 4294967296 - (- u32 q) / 4294967296). unfold u32 at 1. rewrite Z.mod_eq by lia. rewrite Eq at 1. unfold q. ring.
      - exists (q / 4294967296 - (- u32 q) / 4294967296). unfold u32 at 1. rewrite Z.mod_eq by lia. rewrite Eq at 1. unfold q. ring.
      - exists (- (q / 4294967296)). rewrite Eq. unfold q. ring. }
    destruct Hm as [k2 ->]. rewrite quad_u32.
    assert (Eh : u32 (u1 * v1) = u1 * v1 - u1 * v1 / 4294967296 * 4294967296) by (unfold u32; rewrite Z.mod_eq by lia; ring). rewrite Eh.
    apply (s64_cong _ _ (k2 - u1 * v1 / 4294967296 - u1 * v1 - h + (k' - k) * 4294967296 + (k' - k))).
    assert (El : l = u0 * v0 + (k' - k) * 18446744073709551616 - h * 4294967296) by lia. rewrite El, Du, Dv. ring. }
  rewrite Hp. assert (Eab : a * b = (if nega then - Z.abs a else Z.abs a) * (if negb then - Z.abs b else Z.abs b)) by (by rewrite <- Ea, <- Eb).
  rewrite Eab.
  destruct nega, negb; cbn [xorb]; rewrite ?s64_neg; f_equal; ring.
Qed.

(** ** Signed division *)

(** The magnitude of an operand of a division. *)
Lemma magnitude_u64 a : is_s64 a →
  (if a <? 0 then (u64 (- a), true) else (a, false)) = (Z.abs a, a <? 0) ∧ 0 <= Z.abs a <= 9223372036854775808.
Proof.
  intros Ha. unfold is_s64 in Ha. destruct (a <? 0) eqn:E; zbool; (split; [|lia]); f_equal; try lia.
  unfold u64. rewrite Z.mod_small; lia.
Qed.

Lemma divdi3_spec a b : is_s64 a → is_s64 b → b ≠ 0 → divdi3 a b = Some (s64 (Z.quot a b)).
Proof.
  intros Ha Hb Hb0. unfold divdi3. destruct (magnitude_u64 a Ha) as [-> Ma], (magnitude_u64 b Hb) as [-> Mb].
  rewrite qdivrem_spec by (unfold is_u64; lia). cbn [mbind option_bind]. rewrite (Z.quot_div a b Hb0).
  f_equal. f_equal. destruct (Z.ltb_spec a 0), (Z.ltb_spec b 0); cbn [xorb];
    rewrite ?(Z.sgn_neg a), ?(Z.sgn_neg b), ?(Z.sgn_pos b) by lia; try lia;
    (destruct (Z.eq_dec a 0) as [->|]; [done|]); rewrite (Z.sgn_pos a) by lia; lia.
Qed.

Lemma moddi3_spec a b : is_s64 a → is_s64 b → b ≠ 0 → moddi3 a b = Some (Z.sgn b * Z.rem a b).
Proof.
  intros Ha Hb Hb0. unfold moddi3. destruct (magnitude_u64 a Ha) as [-> Ma], (magnitude_u64 b Hb) as [-> Mb].
  rewrite qdivrem_spec by (unfold is_u64; lia). cbn [mbind option_bind]. rewrite (Z.rem_mod a b Hb0).
  pose proof (Z.mod_pos_bound (Z.abs a) (Z.abs b) ltac:(lia)) as Hr.
  rewrite s64_id by (unfold is_s64; destruct (xorb _ _); lia).
  f_equal. destruct (Z.ltb_spec a 0), (Z.ltb_spec b 0); cbn [xorb];
    rewrite ?(Z.sgn_neg a), ?(Z.sgn_neg b), ?(Z.sgn_pos b) by lia; try lia;
    (destruct (Z.eq_dec a 0) as [->|]; [done|]); rewrite (Z.sgn_pos a) by lia; lia.
Qed.

(** ** Shifts and comparison *)

(** A long shifted left by [n] and one shifted right by the rest do not overlap. *)
Lemma lor_long h l n : 0 <= n <= 32 → is_u32 l →
  Z.lor (u32 (Z.shiftl h n)) (Z.shiftr l (32 - n)) = u32 (h * 2 ^ n) + l / 2 ^ (32 - n).
Proof.
  intros Hn Hl. rewrite Z.shiftl_mul_pow2, Z.shiftr_div_pow2 by lia. unfold u32, is_u32 in *.
  assert (E : 4294967296 = 2 ^ (32 - n) * 2 ^ n) by (rewrite <- Z.pow_add_r by lia; by replace (32 - n + n) with 32 by lia).
  assert (H1 : 0 < 2 ^ n) by (apply Z.pow_pos_nonneg; lia). assert (H2 : 0 < 2 ^ (32 - n)) by (apply Z.pow_pos_nonneg; lia).
  rewrite E. rewrite Z.mul_mod_distr_r by lia. rewrite <- Z.shiftl_mul_pow2 at 1 by lia.
  rewrite lor_shiftl_add; [done|lia|]. split; [apply Z.div_pos; lia|]. apply Z.div_lt_upper_bound; [done|]. lia.
Qed.

(** The powers a long splits into. *)
Lemma pow_long n : 0 <= n <= 32 → 4294967296 = 2 ^ (32 - n) * 2 ^ n ∧ 0 < 2 ^ n ∧ 0 < 2 ^ (32 - n).
Proof.
  intros Hn. split_and!; [|apply Z.pow_pos_nonneg; lia..]. rewrite <- Z.pow_add_r by lia. by replace (32 - n + n) with 32 by lia.
Qed.

Lemma ashldi3_spec a n : 0 <= n → ashldi3 a n = s64 (a * 2 ^ n).
Proof.
  intros Hn. destruct (hi_lo a) as (k & Ea & Rh & Rl). unfold ashldi3, LONG_BITS, QUAD_BITS.
  set (h := hi a) in *. set (l := lo a) in *. clearbody h l.
  destruct (32 <=? n) eqn:E1; zbool; [destruct (64 <=? n) eqn:E2; zbool|destruct (0 <? n) eqn:E2; zbool].
  - unfold quad. apply (s64_cong _ _ (- (a * 2 ^ (n - 64)))). replace n with (64 + (n - 64)) at 1 by lia.
    rewrite Z.pow_add_r by lia. change (2 ^ 64) with 18446744073709551616. ring.
  - rewrite quad_u32, Z.shiftl_mul_pow2 by lia. apply (s64_cong _ _ (- (h * 2 ^ (n - 32)) - k * 2 ^ n)).
    assert (Ep : 2 ^ n = 4294967296 * 2 ^ (n - 32)).
    { replace n with (32 + (n - 32)) at 1 by lia. rewrite Z.pow_add_r by lia. done. }
    rewrite Ea, Ep. ring.
  - rewrite lor_long by (try done; lia). destruct (pow_long n ltac:(lia)) as (EB & P1 & P2). rewrite Z.shiftl_mul_pow2 by lia.
    unfold quad, u32. rewrite !(Z.mod_eq (_ * 2 ^ n) 4294967296) by lia.
    assert (El : l * 2 ^ n / 4294967296 = l / 2 ^ (32 - n)) by (rewrite EB; apply Z.div_mul_cancel_r; lia).
    rewrite El. apply (s64_cong _ _ (- (h * 2 ^ n / 4294967296) - k * 2 ^ n)). rewrite Ea. ring.
  - assert (n = 0) as -> by lia. rewrite Z.pow_0_r, Z.mul_1_r. unfold quad. apply (s64_cong _ _ (- k)). lia.
Qed.

(** A right shift of two longs. *)
Lemma shr_longs h l n : 0 <= n <= 32 → is_u32 l →
  h / 2 ^ n * 4294967296 + (u32 (h * 2 ^ (32 - n)) + l / 2 ^ n) = (h * 4294967296 + l) / 2 ^ n.
Proof.
  intros Hn Hl. destruct (pow_long n Hn) as (EB & P1 & P2). unfold u32. rewrite EB at 2.
  rewrite (Z.mul_comm (2 ^ (32 - n)) (2 ^ n)), Z.mul_mod_distr_r by lia. pose proof (Z.div_mod h (2 ^ n) ltac:(lia)) as Hdm.
  replace (h * 4294967296 + l) with (l + (h / 2 ^ n * 4294967296 + (h mod 2 ^ n) * 2 ^ (32 - n)) * 2 ^ n) by (rewrite Hdm at 3; rewrite EB; ring).
  rewrite Z.div_add by lia. ring.
Qed.

Lemma lshrdi3_spec a n : is_u64 a → 0 <= n → lshrdi3 a n = s64 (a / 2 ^ n).
Proof.
  intros Ha Hn. destruct (hi_lo_u64 a Ha) as (Ea & Rh & Rl). unfold lshrdi3, LONG_BITS, QUAD_BITS.
  destruct (32 <=? n) eqn:E1; zbool; [destruct (64 <=? n) eqn:E2; zbool|destruct (0 <? n) eqn:E2; zbool].
  - unfold quad. rewrite Z.div_small; [done|]. unfold is_u64 in Ha. pose proof (Z.pow_le_mono_r 2 64 n ltac:(lia) ltac:(lia)).
    change (2 ^ 64) with 18446744073709551616 in *. lia.
  - unfold quad. rewrite Z.shiftr_div_pow2 by lia. f_equal. rewrite Z.mul_0_l, Z.add_0_l.
    replace n with (32 + (n - 32)) at 2 by lia. rewrite Z.pow_add_r by lia. rewrite <- Z.div_div by (try (apply Z.pow_pos_nonneg); lia).
    f_equal. change (2 ^ 32) with 4294967296. unfold is_u32 in *. rewrite Ea at 2. rewrite Z.div_add_l by lia. rewrite Z.div_small; lia.
  - rewrite Z.lor_comm. replace n with (32 - (32 - n)) at 3 by lia. rewrite lor_long by (try done; lia).
    replace (32 - (32 - n)) with n by lia. rewrite Z.shiftr_div_pow2 by lia. unfold quad. rewrite shr_longs by (try done; lia). by rewrite <- Ea.
  - assert (n = 0) as -> by lia. rewrite Z.pow_0_r, Z.div_1_r. unfold quad. by rewrite <- Ea.
Qed.

(** The high long as a signed number. *)
Lemma hi_signed a : is_s64 a → a = s32 (hi a) * 4294967296 + lo a ∧ is_u32 (lo a).
Proof.
  intros Ha. destruct (hi_lo a) as (k & Ea & Rh & Rl). split; [|done]. pose proof (s32_range (hi a)) as Rs.
  assert (Es : s32 (hi a) = hi a ∨ s32 (hi a) = hi a - 4294967296) by (unfold s32, is_u32 in *; Z.div_mod_to_equations; lia).
  unfold is_s64, is_u32, is_s32 in *. nia.
Qed.

Lemma ashrdi3_spec a n : is_s64 a → 0 <= n → ashrdi3 a n = a / 2 ^ n.
Proof.
  intros Ha Hn. destruct (hi_signed a Ha) as (Ea & Rl). unfold ashrdi3, LONG_BITS, QUAD_BITS.
  pose proof (s32_range (hi a)) as Rs. set (h := s32 (hi a)) in *.
  assert (Hd : 0 < 2 ^ n) by (apply Z.pow_pos_nonneg; lia).
  assert (Hrng : is_s64 (a / 2 ^ n)).
  { unfold is_s64 in *. split; [apply Z.div_le_lower_bound; nia|apply Z.div_lt_upper_bound; nia]. }
  destruct (32 <=? n) eqn:E1; zbool.
  - assert (Hs : Z.shiftr (Z.shiftr h (32 - 1)) 1 = if h <? 0 then -1 else 0).
    { rewrite !Z.shiftr_div_pow2 by lia. change (2 ^ (32 - 1)) with 2147483648. change (2 ^ 1) with 2. unfold is_s32 in Rs.
      destruct (Z.ltb_spec h 0); Z.div_mod_to_equations; lia. }
    rewrite Hs. set (x := if 64 <=? n then _ else _).
    assert (Ex : x = a / 2 ^ n).
    { unfold x. destruct (64 <=? n) eqn:E2; zbool.
      - pose proof (Z.pow_le_mono_r 2 64 n ltac:(lia) ltac:(lia)) as Hp. change (2 ^ 64) with 18446744073709551616 in Hp. unfold is_s64, is_u32 in *.
        destruct (Z.ltb_spec h 0); [apply (Z.div_unique a (2 ^ n) (-1) (a + 2 ^ n)); lia|symmetry; apply Z.div_small; lia].
      - rewrite Z.shiftr_div_pow2 by lia. replace n with (32 + (n - 32)) at 2 by lia. rewrite Z.pow_add_r by lia.
        rewrite <- Z.div_div by (try (apply Z.pow_pos_nonneg); lia). f_equal. change (2 ^ 32) with 4294967296. unfold is_u32 in *.
        rewrite Ea. rewrite Z.div_add_l by lia. rewrite Z.div_small; lia. }
    rewrite Ex. rewrite <- (s64_id (a / 2 ^ n) Hrng) at 2. set (y := a / 2 ^ n) in *.
    assert (Hy : is_s32 y).
    { unfold is_s32. pose proof (Z.pow_le_mono_r 2 32 n ltac:(lia) ltac:(lia)) as Hp. change (2 ^ 32) with 4294967296 in Hp. unfold is_s64 in Ha.
      unfold y. split; [apply Z.div_le_lower_bound; nia|apply Z.div_lt_upper_bound; nia]. }
    assert (Esg : (y <? 0) = (h <? 0)).
    { unfold is_u32, is_s32 in *. unfold y. destruct (Z.ltb_spec h 0).
      - apply Z.ltb_lt. apply Z.div_lt_upper_bound; nia.
      - apply Z.ltb_ge. apply Z.div_pos; nia. }
    rewrite <- Esg, quad_u32. apply (s64_cong _ _ (if y <? 0 then 0 else 0)). unfold is_s32, u32 in *. destruct (Z.ltb_spec y 0); Z.div_mod_to_equations; lia.
  - destruct (0 <? n) eqn:E2; zbool.
    + rewrite Z.lor_comm. replace n with (32 - (32 - n)) at 3 by lia. rewrite lor_long by (try done; lia).
      replace (32 - (32 - n)) with n by lia. rewrite quad_u32, Z.shiftr_div_pow2 by lia.
      assert (Eu : u32 (hi a * 2 ^ (32 - n)) = u32 (h * 2 ^ (32 - n))).
      { unfold u32. rewrite <- (Zmult_mod_idemp_l (hi a)), <- (Zmult_mod_idemp_l h). do 2 f_equal. unfold h. fold (u32 (hi a)) (u32 (s32 (hi a))). by rewrite u32_s32. }
      rewrite Eu, shr_longs by (try done; lia). rewrite <- Ea. by apply s64_id.
    + assert (n = 0) as -> by lia. rewrite Z.pow_0_r, Z.div_1_r. destruct (hi_lo a) as (k & Ek & _ & _). unfold quad.
      rewrite <- (s64_id a Ha) at 3. apply (s64_cong _ _ (- k)). lia.
Qed.

Definition order (c : comparison) : Z := match c with Lt => 0 | Eq => 1 | Gt => 2 end.

Lemma cmpdi2_spec a b : is_s64 a → is_s64 b → cmpdi2 a b = order (a ?= b).
Proof.
  intros Ha Hb. destruct (hi_signed a Ha) as (Ea & Ra), (hi_signed b Hb) as (Eb & Rb). unfold cmpdi2, is_u32 in *.
  destruct (Z.compare_spec a b); simpl; ifs; try done; lia.
Qed.

Lemma ucmpdi2_spec a b : is_u64 a → is_u64 b → ucmpdi2 a b = order (a ?= b).
Proof.
  intros Ha Hb. destruct (hi_lo_u64 a Ha) as (Ea & _ & Ra), (hi_lo_u64 b Hb) as (Eb & _ & Rb). unfold ucmpdi2, is_u32 in *.
  destruct (Z.compare_spec a b); simpl; ifs; try done; lia.
Qed.

(** ** Bitwise operations *)

Lemma lo_bits a i : 0 <= i → Z.testbit (lo a) i = (i <? 32) && Z.testbit a i.
Proof.
  intros Hi. unfold lo, u64. change 18446744073709551616 with (2 ^ 64). change 4294967296 with (2 ^ 32).
  destruct (Z.ltb_spec i 32).
  - rewrite !Z.mod_pow2_bits_low by lia. done.
  - by rewrite Z.mod_pow2_bits_high by lia.
Qed.

Lemma hi_bits a i : 0 <= i → Z.testbit (hi a) i = (i <? 32) && Z.testbit a (i + 32).
Proof.
  intros Hi. unfold hi, u64. change 18446744073709551616 with (2 ^ 64). change 4294967296 with (2 ^ 32).
  rewrite Z.div_pow2_bits by lia. destruct (Z.ltb_spec i 32).
  - by rewrite Z.mod_pow2_bits_low by lia.
  - by rewrite Z.mod_pow2_bits_high by lia.
Qed.

(** A quad whose longs have the bits of [x] is [x]. *)
Lemma quad_bits h l x : is_s64 x → is_u32 h → is_u32 l →
  (∀ i, 0 <= i < 32 → Z.testbit l i = Z.testbit x i) → (∀ i, 0 <= i < 32 → Z.testbit h i = Z.testbit x (i + 32)) → quad h l = x.
Proof.
  intros Hx Hh Hl El Eh.
  assert (l = lo x) as ->.
  { apply Z.bits_inj'. intros i Hi. rewrite lo_bits by done. destruct (Z.ltb_spec i 32); [apply El; lia|].
    apply (testbit_high l 32); [exact Hl|done]. }
  assert (h = hi x) as ->.
  { apply Z.bits_inj'. intros i Hi. rewrite hi_bits by done. destruct (Z.ltb_spec i 32); [apply Eh; lia|].
    apply (testbit_high h 32); [exact Hh|done]. }
  destruct (hi_lo x) as (k & Ek & _ & _). unfold quad. rewrite <- (s64_id x Hx) at 3. apply (s64_cong _ _ (- k)). lia.
Qed.

(** Ranges of results of bitwise operations, by the bits above. *)
Lemma u32_bits x : 0 <= x → (∀ i, 32 <= i → Z.testbit x i = false) → is_u32 x.
Proof.
  intros H0 H. assert (x = x mod 2 ^ 32) as ->; [|change (2 ^ 32) with 4294967296; apply Z.mod_pos_bound; lia].
  apply Z.bits_inj'. intros i Hi. destruct (Z.lt_ge_cases i 32); [by rewrite Z.mod_pow2_bits_low by lia|].
  rewrite Z.mod_pow2_bits_high by lia. by apply H.
Qed.

Lemma s64_bits x : (∀ i, 63 <= i → Z.testbit x i = Z.testbit x 63) → is_s64 x.
Proof.
  intros H. assert (E : Z.shiftr x 63 = if Z.testbit x 63 then -1 else 0).
  { apply Z.bits_inj'. intros i Hi. rewrite Z.shiftr_spec by done. rewrite H by lia.
    destruct (Z.testbit x 63); [by rewrite Z.bits_m1|by rewrite Z.bits_0]. }
  rewrite Z.shiftr_div_pow2 in E by lia. change (2 ^ 63) with 9223372036854775808 in E. unfold is_s64.
  destruct (Z.testbit x 63); Z.div_mod_to_equations; lia.
Qed.

Lemma s64_top x i : is_s64 x → 63 <= i → Z.testbit x i = Z.testbit x 63.
Proof.
  intros Hx Hi. assert (E : Z.shiftr x 63 = if x <? 0 then -1 else 0).
  { rewrite Z.shiftr_div_pow2 by lia. change (2 ^ 63) with 9223372036854775808. unfold is_s64 in Hx.
    destruct (Z.ltb_spec x 0); Z.div_mod_to_equations; lia. }
  replace i with (i - 63 + 63) by lia. rewrite <- Z.shiftr_spec by lia. change 63 with (0 + 63) at 3. rewrite <- (Z.shiftr_spec x 63 0) by lia.
  rewrite E. destruct (x <? 0); [by rewrite !Z.bits_m1 by lia|by rewrite !Z.bits_0].
Qed.

Lemma bitwise_spec f op a b :
  (∀ x y i, 0 <= i → Z.testbit (op x y) i = f (Z.testbit x i) (Z.testbit y i)) → f false false = false →
  (∀ x y, 0 <= x → 0 <= y → 0 <= op x y) → is_s64 a → is_s64 b →
  quad (op (hi a) (hi b)) (op (lo a) (lo b)) = op a b.
Proof.
  intros Hop Hff Hpos Ha Hb. destruct (hi_lo a) as (_ & _ & Ra & La), (hi_lo b) as (_ & _ & Rb & Lb). unfold is_u32 in *.
  apply quad_bits.
  - apply s64_bits. intros i Hi. rewrite !Hop by lia. by rewrite !(s64_top _ i) by done.
  - apply u32_bits; [apply Hpos; lia|]. intros i Hi. rewrite Hop, !hi_bits by lia. by destruct (Z.ltb_spec i 32); [lia|].
  - apply u32_bits; [apply Hpos; lia|]. intros i Hi. rewrite Hop, !lo_bits by lia. by destruct (Z.ltb_spec i 32); [lia|].
  - intros i Hi. rewrite !Hop, !lo_bits by lia. by destruct (Z.ltb_spec i 32); [|lia].
  - intros i Hi. rewrite !Hop, !hi_bits by lia. by destruct (Z.ltb_spec i 32); [|lia].
Qed.

Lemma one_cmpldi2_spec a : is_s64 a → one_cmpldi2 a = Z.lnot a.
Proof.
  intros Ha. unfold one_cmpldi2. rewrite quad_u32. destruct (hi_lo a) as (k & Ea & Rh & Rl).
  assert (is_s64 (Z.lnot a)) as Hn by (unfold is_s64, Z.lnot in *; lia). rewrite <- (s64_id _ Hn).
  assert (u32 (Z.lnot (lo a)) = 4294967295 - lo a) as -> by (unfold Z.lnot, u32, is_u32 in *; Z.div_mod_to_equations; lia).
  apply (s64_cong _ _ k). unfold Z.lnot. lia.
Qed.

(** ** The properties *)

(** C28: [__qdivrem], Knuth's algorithm D on 16-bit digits, divides: for every
    dividend and every divisor but 0 it ends and returns the quotient and the
    remainder, and the only fault is the division by 0. *)
Theorem qdivrem_correct u v :
  is_u64 u → is_u64 v → qdivrem u v = if v =? 0 then None else Some (u / v, u mod v).
Proof.
  intros Hu Hv. destruct (Z.eqb_spec v 0) as [->|N]; [done|]. apply qdivrem_spec; [done|]. unfold is_u64 in Hv. lia.
Qed.

Lemma qdivrem_correct_witness :
  qdivrem 0xffffffff00000000 0x8000000000001 = Some (0xffffffff00000000 / 0x8000000000001, 0xffffffff00000000 mod 0x8000000000001).
Proof. apply (qdivrem_correct 0xffffffff00000000 0x8000000000001); by vm_compute. Defined.

(** The signed division of quads truncates as C asks; the remainder has the sign
    of the dividend, as C asks, when the divisor is positive, and the opposite sign
    when it is negative. *)
Theorem signed_division_correct a b :
  is_s64 a → is_s64 b → b ≠ 0 → divdi3 a b = Some (s64 (Z.quot a b)) ∧ moddi3 a b = Some (Z.sgn b * Z.rem a b).
Proof. intros Ha Hb H0. split; [by apply divdi3_spec|by apply moddi3_spec]. Qed.

Lemma signed_division_correct_witness : divdi3 (-7) (-2) = Some 3 ∧ moddi3 (-7) (-2) = Some 1 ∧ Z.rem (-7) (-2) = -1.
Proof.
  pose proof (signed_division_correct (-7) (-2) ltac:(by vm_compute) ltac:(by vm_compute) ltac:(lia)) as [H1 H2].
  rewrite H1, H2. by split_and!.
Defined.

(** C33: the other operations on quads, built from 32-bit and 16-bit ones, are the
    64-bit operations: sums, products by Karatsuba's method, shifts by any count,
    comparisons and the bitwise operations. *)
Theorem quad_operations_correct a b n :
  is_s64 a → is_s64 b → 0 <= n →
  adddi3 a b = s64 (a + b) ∧ subdi3 a b = s64 (a - b) ∧ negdi2 a = s64 (- a) ∧ muldi3 a b = s64 (a * b) ∧
  ashldi3 a n = s64 (a * 2 ^ n) ∧ lshldi3 a n = s64 (a * 2 ^ n) ∧ ashrdi3 a n = a / 2 ^ n ∧ lshrdi3 a n = s64 (u64 a / 2 ^ n) ∧
  cmpdi2 a b = order (a ?= b) ∧ ucmpdi2 a b = order (u64 a ?= u64 b) ∧
  anddi3 a b = Z.land a b ∧ iordi3 a b = Z.lor a b ∧ xordi3 a b = Z.lxor a b ∧ one_cmpldi2 a = Z.lnot a.
Proof.
  intros Ha Hb Hn. assert (Hu : ∀ x, hi (u64 x) = hi x ∧ lo (u64 x) = lo x).
  { intros x. unfold hi, lo. by rewrite (u64_id (u64 x)) by apply u64_range. }
  split_and!.
  - apply adddi3_spec.
  - apply subdi3_spec.
  - apply negdi2_spec.
  - by apply muldi3_spec.
  - by apply ashldi3_spec.
  - by apply (ashldi3_spec a n).
  - by apply ashrdi3_spec.
  - rewrite <- lshrdi3_spec by (try done; apply u64_range). unfold lshrdi3. by destruct (Hu a) as [-> ->].
  - by apply cmpdi2_spec.
  - rewrite <- ucmpdi2_spec by apply u64_range. unfold ucmpdi2. destruct (Hu a) as [-> ->]. by destruct (Hu b) as [-> ->].
  - apply (bitwise_spec andb); try done; [intros; by apply Z.land_spec|]. intros x y Hx Hy. apply Z.land_nonneg. lia.
  - apply (bitwise_spec orb); try done; [intros; by apply Z.lor_spec|]. intros x y Hx Hy. apply Z.lor_nonneg. lia.
  - apply (bitwise_spec xorb); try done; [intros; by apply Z.lxor_spec|]. intros x y Hx Hy. apply Z.lxor_nonneg. lia.
  - by apply one_cmpldi2_spec.
Qed.

Lemma quad_operations_correct_witness : muldi3 (-0x123456789ab) 0x100010001 = s64 (-0x123456789ab * 0x100010001).
Proof. apply (quad_operations_correct (-0x123456789ab) 0x100010001 0); by vm_compute. Defined.

End Quad.
