(* ===== verification/Bpf.v ===== *)
(** * The BPF packet filter machine (net/bpf_filter.c, net/bpf.h)

    [bpf_filter] runs a filter program on a packet, which is either a flat
    buffer ([buflen] non-zero) or an mbuf chain ([buflen] zero); [bpf_validate]
    is the check the kernel makes before it accepts a program. *)

From stdpp Require Import options.
From S2P Require Import Prelude.

Module Bpf.

(** ** Instruction encodings (bpf.h) *)

Definition BPF_CLASS (code : Z) : Z := Z.land code 0x07.
Definition BPF_LD : Z := 0x00.
Definition BPF_LDX : Z := 0x01.
Definition BPF_ST : Z := 0x02.
Definition BPF_STX : Z := 0x03.
Definition BPF_ALU : Z := 0x04.
Definition BPF_JMP : Z := 0x05.
Definition BPF_RET : Z := 0x06.
Definition BPF_MISC : Z := 0x07.
Definition BPF_W : Z := 0x00.
Definition BPF_H : Z := 0x08.
Definition BPF_B : Z := 0x10.
Definition BPF_IMM : Z := 0x00.
Definition BPF_ABS : Z := 0x20.
Definition BPF_IND : Z := 0x40.
Definition BPF_MEM : Z := 0x60.
Definition BPF_LEN : Z := 0x80.
Definition BPF_MSH : Z := 0xa0.
Definition BPF_OP (code : Z) : Z := Z.land code 0xf0.
Definition BPF_ADD : Z := 0x00.
Definition BPF_SUB : Z := 0x10.
Definition BPF_MUL : Z := 0x20.
Definition BPF_DIV : Z := 0x30.
Definition BPF_OR : Z := 0x40.
Definition BPF_AND : Z := 0x50.
Definition BPF_LSH : Z := 0x60.
Definition BPF_RSH : Z := 0x70.
Definition BPF_NEG : Z := 0x80.
Definition BPF_JA : Z := 0x00.
Definition BPF_JEQ : Z := 0x10.
Definition BPF_JGT : Z := 0x20.
Definition BPF_JGE : Z := 0x30.
Definition BPF_JSET : Z := 0x40.
Definition BPF_K : Z := 0x00.
Definition BPF_X : Z := 0x08.
Definition BPF_A : Z := 0x10.
Definition BPF_TAX : Z := 0x00.
Definition BPF_TXA : Z := 0x80.
Definition BPF_MEMWORDS : Z := 16.

(** The operator [|] of the case labels. *)
Notation "a .| b" := (Z.lor a b) (at level 50, left associativity).

Record bpf_insn := Insn { code : Z; jt : Z; jf : Z; k : Z }.

(** The fields have the widths of the C struct. *)
Definition insn_ok (i : bpf_insn) : Prop :=
  is_u16 (code i) ∧ is_u8 (jt i) ∧ is_u8 (jf i) ∧ is_s32 (k i).

(** ** Packets

    An mbuf as the filter sees it: its length and the bytes of its storage from
    [m_data] on.  An access outside the storage is a fault. *)
Record mbuf := Mbuf { m_len : Z; m_dat : list Z }.

Inductive packet :=
  | Flat (p : list Z)
  | Chain (m : list mbuf).

Inductive fault := FetchFault | MemFault | DivFault | PktFault.

(** [p[i]] for a byte pointer [p]. *)
Definition byte_at (p : list Z) (i : Z) : option Z :=
  if 0 <=? i then p !! Z.to_nat i else None.

Definition EXTRACT_SHORT (p : list Z) (i : Z) : option Z :=
  b0 ← byte_at p i; b1 ← byte_at p (i + 1);
  Some (Z.lor (Z.shiftl b0 8) b1).

Definition EXTRACT_LONG (p : list Z) (i : Z) : option Z :=
  b0 ← byte_at p i; b1 ← byte_at p (i + 1); b2 ← byte_at p (i + 2); b3 ← byte_at p (i + 3);
  Some (Z.lor (Z.lor (Z.lor (Z.shiftl b0 24) (Z.shiftl b1 16)) (Z.shiftl b2 8)) b3).

(** [MINDEX]: the mbuf that holds offset [k], the mbufs after it and the offset
    within it; [None] when the chain ends first. *)
Fixpoint MINDEX (ms : list mbuf) (k : Z) : option (mbuf * list mbuf * Z) :=
  match ms with
  | [] => None
  | m :: rest => if m_len m <=? k then MINDEX rest (s32 (k - m_len m)) else Some (m, rest, k)
  end.

(** The result of a packet access: the value, an error for the filter to act
    on, or a fault. *)
Inductive access := Val (v : Z) | Miss | Bad.

Definition of_bytes (v : option Z) : access :=
  match v with Some v => Val v | None => Bad end.

(** [m_xword] and [m_xhalf]; the offset [k] is added to [cp] and, where the
    value spans two mbufs, once more as an index. *)
Definition m_xword (ms : list mbuf) (k : Z) : access :=
  match ms with
  | [] => Bad
  | _ =>
      match MINDEX ms k with
      | None => Miss
      | Some (m, rest, k) =>
          let len := m_len m in
          if 4 <=? s32 (len - k) then of_bytes (EXTRACT_LONG (m_dat m) k)
          else
            match rest with
            | [] => Miss
            | m0 :: _ =>
                if s32 (m_len m0 + len - k) <? 4 then Miss
                else
                  let cp i := byte_at (m_dat m) (k + i) in
                  let np i := byte_at (m_dat m0) i in
                  of_bytes
                    (if s32 (len - k) =? 1 then
                       c0 ← cp k; n0 ← np 0; n1 ← np 1; n2 ← np 2;
                       Some (u32 (Z.shiftl c0 24 .| Z.shiftl n0 16 .| Z.shiftl n1 8 .| n2))
                     else if s32 (len - k) =? 2 then
                       c0 ← cp k; c1 ← cp (k + 1); n0 ← np 0; n1 ← np 1;
                       Some (u32 (Z.shiftl c0 24 .| Z.shiftl c1 16 .| Z.shiftl n0 8 .| n1))
                     else
                       c0 ← cp k; c1 ← cp (k + 1); c2 ← cp (k + 2); n0 ← np 0;
                       Some (u32 (Z.shiftl c0 24 .| Z.shiftl c1 16 .| Z.shiftl c2 8 .| n0)))
            end
      end
  end.

Definition m_xhalf (ms : list mbuf) (k : Z) : access :=
  match ms with
  | [] => Bad
  | _ =>
      match MINDEX ms k with
      | None => Miss
      | Some (m, rest, k) =>
          let len := m_len m in
          if 2 <=? s32 (len - k) then of_bytes (EXTRACT_SHORT (m_dat m) k)
          else
            match rest with
            | [] => Miss
            | m0 :: _ =>
                of_bytes (c0 ← byte_at (m_dat m) (k + k); n0 ← byte_at (m_dat m0) 0;
                          Some (Z.shiftl c0 8 .| n0))
            end
      end
  end.

Definition m_xbyte (ms : list mbuf) (k : Z) : access :=
  match ms with
  | [] => Bad
  | _ =>
      match MINDEX ms k with
      | None => Miss
      | Some (m, _, k) => of_bytes (byte_at (m_dat m) k)
      end
  end.

(** ** The machine *)

(** Registers and scratch memory.  [A] and [X] are [u_long], a scratch word is a
    [long]; the C code starts with whatever they hold. *)
Record state := St { pc : Z; rA : Z; rX : Z; mem : list Z }.

Inductive outcome := Next (s : state) | Return (v : Z) | Fault (f : fault).

Definition mem_read (s : state) (i : Z) : option Z :=
  if (0 <=? i) && (i <? BPF_MEMWORDS) then mem s !! Z.to_nat i else None.

Definition mem_write (s : state) (i v : Z) : option (list Z) :=
  if (0 <=? i) && (i <? BPF_MEMWORDS) then Some (<[Z.to_nat i := v]> (mem s)) else None.

Section Machine.
Context (pkt : packet) (wirelen buflen : Z).

(** The three packet accesses of the load instructions: a flat read when the
    bytes lie below [buflen], a rejected packet when they do not and the packet
    is flat, a read from the chain when [buflen] is zero. *)
Definition load (size : Z) (flat : list Z → Z → option Z) (chain : list mbuf → Z → access)
    (k : Z) : access :=
  if buflen <? u32 (k + size) then
    if negb (buflen =? 0) then Miss
    else match pkt with Chain ms => chain ms k | Flat _ => Bad end
  else match pkt with Flat p => of_bytes (flat p k) | Chain _ => Bad end.

Definition load_word : Z → access := load 4 EXTRACT_LONG m_xword.
Definition load_half : Z → access := load 2 EXTRACT_SHORT m_xhalf.

(** [BPF_LD|BPF_H|BPF_ABS] does not look at the error of [m_xhalf]. *)
Definition load_half_abs : Z → access :=
  load 2 EXTRACT_SHORT (λ ms k, match m_xhalf ms k with Miss => Val 0 | a => a end).

(** A byte load compares [k >= buflen]; [signed] is the [char *] of the chain
    read in [BPF_LD|BPF_B|BPF_IND]. *)
Definition load_byte (signed : bool) (k : Z) : access :=
  if buflen <=? u32 k then
    if negb (buflen =? 0) then Miss
    else match pkt with
         | Chain ms =>
             match m_xbyte ms k with
             | Val v => Val (if signed then u32 (s8 v) else v)
             | a => a
             end
         | Flat _ => Bad
         end
  else match pkt with Flat p => of_bytes (byte_at p k) | Chain _ => Bad end.

Definition with_access (a : access) (f : Z → state) : outcome :=
  match a with Val v => Next (f v) | Miss => Return 0 | Bad => Fault PktFault end.

Definition with_mem {A} (m : option A) (f : A → state) : outcome :=
  match m with Some v => Next (f v) | None => Fault MemFault end.

(** Register and program-counter updates; [continue] goes to the next
    instruction. *)
Definition setA (s : state) (v : Z) : state := St (pc s + 1) v (rX s) (mem s).
Definition setX (s : state) (v : Z) : state := St (pc s + 1) (rA s) v (mem s).
Definition skip (s : state) (n : Z) : state := St (pc s + 1 + n) (rA s) (rX s) (mem s).

(** A [switch] without its [default]: the value of the first matching case. *)
Fixpoint switch {A} (c : Z) (cases : list (Z * A)) : option A :=
  match cases with
  | [] => None
  | (c', o) :: cases => if c =? c' then Some o else switch c cases
  end.

(** The return, load and store cases. *)
Definition exec_ld (i : bpf_insn) (s : state) : option outcome :=
  switch (code i)
    [ (BPF_RET .| BPF_K, Return (u32 (k i)));
      (BPF_RET .| BPF_A, Return (rA s));
      (BPF_LD .| BPF_W .| BPF_ABS, with_access (load_word (k i)) (setA s));
      (BPF_LD .| BPF_H .| BPF_ABS, with_access (load_half_abs (k i)) (setA s));
      (BPF_LD .| BPF_B .| BPF_ABS, with_access (load_byte false (k i)) (setA s));
      (BPF_LD .| BPF_W .| BPF_LEN, Next (setA s wirelen));
      (BPF_LDX .| BPF_W .| BPF_LEN, Next (setX s wirelen));
      (BPF_LD .| BPF_W .| BPF_IND, with_access (load_word (s32 (rX s + k i))) (setA s));
      (BPF_LD .| BPF_H .| BPF_IND, with_access (load_half (s32 (rX s + k i))) (setA s));
      (BPF_LD .| BPF_B .| BPF_IND, with_access (load_byte true (s32 (rX s + k i))) (setA s));
      (BPF_LDX .| BPF_MSH .| BPF_B,
        with_access (load_byte false (k i)) (λ v, setX s (Z.shiftl (Z.land v 0xf) 2)));
      (BPF_LD .| BPF_IMM, Next (setA s (u32 (k i))));
      (BPF_LDX .| BPF_IMM, Next (setX s (u32 (k i))));
      (BPF_LD .| BPF_MEM, with_mem (mem_read s (k i)) (λ v, setA s (u32 v)));
      (BPF_LDX .| BPF_MEM, with_mem (mem_read s (k i)) (λ v, setX s (u32 v)));
      (BPF_ST, with_mem (mem_write s (k i) (s32 (rA s))) (St (pc s + 1) (rA s) (rX s)));
      (BPF_STX, with_mem (mem_write s (k i) (s32 (rX s))) (St (pc s + 1) (rA s) (rX s))) ].

(** The jump cases. *)
Definition exec_jmp (i : bpf_insn) (s : state) : option outcome :=
  let branch (b : bool) := Next (skip s (if b then jt i else jf i)) in
  switch (code i)
    [ (BPF_JMP .| BPF_JA, Next (skip s (k i)));
      (BPF_JMP .| BPF_JGT .| BPF_K, branch (u32 (k i) <? rA s));
      (BPF_JMP .| BPF_JGE .| BPF_K, branch (u32 (k i) <=? rA s));
      (BPF_JMP .| BPF_JEQ .| BPF_K, branch (rA s =? u32 (k i)));
      (BPF_JMP .| BPF_JSET .| BPF_K, branch (ztrue (Z.land (rA s) (u32 (k i)))));
      (BPF_JMP .| BPF_JGT .| BPF_X, branch (rX s <? rA s));
      (BPF_JMP .| BPF_JGE .| BPF_X, branch (rX s <=? rA s));
      (BPF_JMP .| BPF_JEQ .| BPF_X, branch (rA s =? rX s));
      (BPF_JMP .| BPF_JSET .| BPF_X, branch (ztrue (Z.land (rA s) (rX s)))) ].

(** A shift takes its count modulo 32, as the SPARC shift instructions do. *)
Definition lsh (a n : Z) : Z := u32 (Z.shiftl a (Z.land n 31)).
Definition rsh (a n : Z) : Z := Z.shiftr a (Z.land n 31).

(** The arithmetic and register-transfer cases. *)
Definition exec_alu (i : bpf_insn) (s : state) : option outcome :=
  let A v := Next (setA s v) in
  let kk := u32 (k i) in
  switch (code i)
    [ (BPF_ALU .| BPF_ADD .| BPF_X, A (u32 (rA s + rX s)));
      (BPF_ALU .| BPF_SUB .| BPF_X, A (u32 (rA s - rX s)));
      (BPF_ALU .| BPF_MUL .| BPF_X, A (u32 (rA s * rX s)));
      (BPF_ALU .| BPF_DIV .| BPF_X, if rX s =? 0 then Return 0 else A (rA s / rX s));
      (BPF_ALU .| BPF_AND .| BPF_X, A (Z.land (rA s) (rX s)));
      (BPF_ALU .| BPF_OR .| BPF_X, A (Z.lor (rA s) (rX s)));
      (BPF_ALU .| BPF_LSH .| BPF_X, A (lsh (rA s) (rX s)));
      (BPF_ALU .| BPF_RSH .| BPF_X, A (rsh (rA s) (rX s)));
      (BPF_ALU .| BPF_ADD .| BPF_K, A (u32 (rA s + kk)));
      (BPF_ALU .| BPF_SUB .| BPF_K, A (u32 (rA s - kk)));
      (BPF_ALU .| BPF_MUL .| BPF_K, A (u32 (rA s * kk)));
      (BPF_ALU .| BPF_DIV .| BPF_K, if kk =? 0 then Fault DivFault else A (rA s / kk));
      (BPF_ALU .| BPF_AND .| BPF_K, A (Z.land (rA s) kk));
      (BPF_ALU .| BPF_OR .| BPF_K, A (Z.lor (rA s) kk));
      (BPF_ALU .| BPF_LSH .| BPF_K, A (lsh (rA s) kk));
      (BPF_ALU .| BPF_RSH .| BPF_K, A (rsh (rA s) kk));
      (BPF_ALU .| BPF_NEG, A (u32 (- rA s)));
      (BPF_MISC .| BPF_TAX, Next (setX s (rA s)));
      (BPF_MISC .| BPF_TXA, Next (setA s (rX s))) ].

(** One turn of the loop; a code without a case is the [default]. *)
Definition exec (i : bpf_insn) (s : state) : outcome :=
  match exec_ld i s with
  | Some o => o
  | None => match exec_jmp i s with
            | Some o => o
            | None => match exec_alu i s with Some o => o | None => Return 0 end
            end
  end.

Definition fetch (prog : list bpf_insn) (pc : Z) : option bpf_insn :=
  if 0 <=? pc then prog !! Z.to_nat pc else None.

Definition step (prog : list bpf_insn) (s : state) : outcome :=
  match fetch prog (pc s) with
  | Some i => exec i s
  | None => Fault FetchFault
  end.

(** The [while (1)] loop with a bound on the number of instructions. *)
Fixpoint run (prog : list bpf_insn) (fuel : nat) (s : state) : option (Z + fault) :=
  match fuel with
  | O => None
  | S fuel =>
      match step prog s with
      | Next s => run prog fuel s
      | Return v => Some (inl v)
      | Fault f => Some (inr f)
      end
  end.

(** [bpf_filter]; no program accepts everything.  [A0], [X0] and [mem0] are the
    uninitialised locals. *)
Definition bpf_filter (prog : option (list bpf_insn)) (A0 X0 : Z) (mem0 : list Z) (fuel : nat) :
    option (Z + fault) :=
  match prog with
  | None => Some (inl (u32 (-1)))
  | Some prog => run prog fuel (St 0 A0 X0 mem0)
  end.

End Machine.

(** ** The validator *)

(** The body of the loop of [bpf_validate]; [false] is [return 0]. *)
Definition validate_insn (len : Z) (i : Z) (p : bpf_insn) : bool :=
  let from := i + 1 in
  let jump_ok :=
    if BPF_CLASS (code p) =? BPF_JMP then
      if BPF_OP (code p) =? BPF_JA then negb (len <=? s32 (from + k p))
      else negb ((len <=? from + jt p) || (len <=? from + jf p))
    else true in
  let mem_ok :=
    negb (((BPF_CLASS (code p) =? BPF_ST) ||
           ((BPF_CLASS (code p) =? BPF_LD) && (Z.land (code p) 0xe0 =? BPF_MEM))) &&
          ((BPF_MEMWORDS <=? k p) || (k p <? 0))) in
  let div_ok := negb ((code p =? (BPF_ALU .| BPF_DIV .| BPF_K)) && (k p =? 0)) in
  jump_ok && mem_ok && div_ok.

Fixpoint validate_from (len i : Z) (f : list bpf_insn) : bool :=
  match f with
  | [] => true
  | p :: f => validate_insn len i p && validate_from len (i + 1) f
  end.

(** [f] holds the [len] instructions; [f[len - 1]] is out of bounds for an empty
    program. *)
Definition bpf_validate (f : list bpf_insn) : option Z :=
  let len := Z.of_nat (length f) in
  if validate_from len 0 f then
    match last f with
    | Some p => Some (b2z (BPF_CLASS (code p) =? BPF_RET))
    | None => None
    end
  else Some 0.

(** The checks on one instruction that [bpf_validate] leaves out: an
    unconditional jump must go forward and its target must not overflow, and the
    [X] register's scratch accesses must be in range. *)
Definition unchecked_ok (len : Z) (i : bpf_insn) : bool :=
  (if code i =? (BPF_JMP .| BPF_JA) then (0 <=? k i) && (len + k i <? 2147483648) else true) &&
  (if (code i =? (BPF_LDX .| BPF_MEM)) || (code i =? BPF_STX)
   then (0 <=? k i) && (k i <? BPF_MEMWORDS) else true).

(** A load whose offset is known to be non-negative when the program is accepted:
    no indexed word or half-word load, no negative absolute one. *)
Definition load_offset_ok (i : bpf_insn) : bool :=
  negb (code i =? (BPF_LD .| BPF_W .| BPF_IND)) && negb (code i =? (BPF_LD .| BPF_H .| BPF_IND)) &&
  (if (code i =? (BPF_LD .| BPF_W .| BPF_ABS)) || (code i =? (BPF_LD .| BPF_H .| BPF_ABS))
   then 0 <=? k i else true).

(** The bytes of an mbuf chain, and the chains the mbuf layer builds. *)
Definition chain_bytes (ms : list mbuf) : list Z :=
  concat ((λ m, take (Z.to_nat (m_len m)) (m_dat m)) <$> ms).

Definition mbuf_ok (m : mbuf) : Prop :=
  0 <= m_len m < 2147483648 ∧ m_len m <= Z.of_nat (length (m_dat m)).

(** A packet a driver hands to the filter: a flat buffer of [buflen] bytes. *)
Definition flat_packet (p : list Z) (buflen : Z) : Prop :=
  Z.of_nat (length p) = buflen ∧ 0 < buflen < 2147483648 ∧ Forall is_u8 p.

(** ** Lemmas *)

Lemma switch_elem {A} c (cases : list (Z * A)) o : switch c cases = Some o → (c, o) ∈ cases.
Proof.
  induction cases as [|[c' o'] cases IH]; simpl; [done|].
  destruct (c =? c') eqn:E; [|intros H; right; auto].
  apply Z.eqb_eq in E as ->. intros [= ->]. left.
Qed.

(** A property of all cases of a [switch] holds of the one that is taken. *)
Lemma switch_Forall {A} (P : Z → A → Prop) c (cases : list (Z * A)) o :
  switch c cases = Some o → Forall (λ x, P x.1 x.2) cases → P c o.
Proof. intros H%switch_elem HP. by apply (proj1 (Forall_forall _ _) HP) in H. Qed.

Ltac each_case := repeat first [apply Forall_nil_2|apply Forall_cons_2]; simpl.

Section Exec.
Context (pkt : packet) (wirelen buflen : Z).

Lemma with_access_next a f s' :
  with_access a f = Next s' → ∃ v, a = Val v ∧ s' = f v.
Proof. destruct a; simpl; intros H; inversion H; eauto. Qed.

Lemma with_access_fault a f e : with_access a f = Fault e → e = PktFault.
Proof. destruct a; simpl; intros H; inversion H; eauto. Qed.

Lemma with_mem_next {A} (a : option A) f s' :
  with_mem a f = Next s' → ∃ v, a = Some v ∧ s' = f v.
Proof. destruct a; simpl; intros H; inversion H; eauto. Qed.

Lemma with_mem_fault {A} (a : option A) f e :
  with_mem a f = Fault e → e = MemFault ∧ a = None.
Proof. destruct a; simpl; intros H; inversion H; eauto. Qed.

Lemma mem_write_length s i v m : mem_write s i v = Some m → length m = length (mem s).
Proof.
  unfold mem_write. destruct (_ && _); [|done]. intros [= <-]. apply length_insert.
Qed.

Lemma mem_read_ok s i :
  length (mem s) = 16%nat → mem_read s i = None → ¬ (0 <= i < BPF_MEMWORDS).
Proof.
  unfold mem_read, BPF_MEMWORDS. intros Hl H Hi.
  rewrite (proj2 (Z.leb_le 0 i)), (proj2 (Z.ltb_lt i 16)) in H by lia. simpl in H.
  apply lookup_ge_None in H. lia.
Qed.

Lemma mem_write_ok s i v : mem_write s i v = None → ¬ (0 <= i < BPF_MEMWORDS).
Proof.
  unfold mem_write. intros H Hi.
  rewrite (proj2 (Z.leb_le 0 i)), (proj2 (Z.ltb_lt i BPF_MEMWORDS)) in H by lia. done.
Qed.

(** The successor state of a load, store or transfer. *)
Lemma exec_ld_next i s s' :
  exec_ld pkt wirelen buflen i s = Some (Next s') →
  pc s' = pc s + 1 ∧ length (mem s') = length (mem s) ∧
  BPF_CLASS (code i) ≠ BPF_JMP ∧ BPF_CLASS (code i) ≠ BPF_RET.
Proof.
  intros H. refine (switch_Forall (λ c o, o = Next s' → _ ∧ _ ∧ BPF_CLASS c ≠ BPF_JMP ∧
    BPF_CLASS c ≠ BPF_RET) _ _ _ H _ eq_refl).
  each_case; intros Hn; first
    [ discriminate Hn
    | apply with_access_next in Hn as (? & _ & ->)
    | apply with_mem_next in Hn as (? & Hm & ->); try apply mem_write_length in Hm
    | injection Hn as <- ]; done.
Qed.

Lemma exec_ld_fault i s f :
  length (mem s) = 16%nat →
  exec_ld pkt wirelen buflen i s = Some (Fault f) →
  f = PktFault ∨
  (f = MemFault ∧ ¬ (0 <= k i < BPF_MEMWORDS) ∧
   (code i = (BPF_LD .| BPF_MEM) ∨ code i = BPF_ST ∨ code i = (BPF_LDX .| BPF_MEM) ∨
    code i = BPF_STX)).
Proof.
  intros Hl H. refine (switch_Forall (λ c o, o = Fault f → _ ∨ (_ ∧ _ ∧ (c = _ ∨ c = _ ∨
    c = _ ∨ c = _))) _ _ _ H _ eq_refl).
  each_case; intros Hn; first
    [ discriminate Hn
    | apply with_access_fault in Hn; by left
    | apply with_mem_fault in Hn as [-> Hm];
      first [apply mem_read_ok in Hm; [|done]|apply mem_write_ok in Hm]; right; tauto ].
Qed.

Lemma exec_jmp_next i s o :
  exec_jmp i s = Some o →
  ∃ s', o = Next s' ∧ mem s' = mem s ∧ BPF_CLASS (code i) = BPF_JMP ∧
  (code i = (BPF_JMP .| BPF_JA) ∧ pc s' = pc s + 1 + k i ∨
   BPF_OP (code i) ≠ BPF_JA ∧ (pc s' = pc s + 1 + jt i ∨ pc s' = pc s + 1 + jf i)).
Proof.
  intros H. refine (switch_Forall (λ c o, ∃ s', o = Next s' ∧ _ ∧ BPF_CLASS c = BPF_JMP ∧
    (c = _ ∧ _ ∨ BPF_OP c ≠ BPF_JA ∧ _)) _ _ _ H _).
  each_case; eexists; (split; [reflexivity|]); (split; [done|]); (split; [done|]); simpl;
    first [left; split; [done|]; reflexivity | right; split; [done|]; ifs; auto].
Qed.

Lemma exec_alu_next i s s' :
  exec_alu i s = Some (Next s') →
  pc s' = pc s + 1 ∧ mem s' = mem s ∧ BPF_CLASS (code i) ≠ BPF_JMP ∧ BPF_CLASS (code i) ≠ BPF_RET.
Proof.
  intros H. refine (switch_Forall (λ c o, o = Next s' → _ ∧ _ ∧ BPF_CLASS c ≠ BPF_JMP ∧
    BPF_CLASS c ≠ BPF_RET) _ _ _ H _ eq_refl).
  each_case; intros Hn; ifs_in Hn; first [discriminate Hn|injection Hn as <-]; done.
Qed.

Lemma exec_alu_fault i s f :
  exec_alu i s = Some (Fault f) →
  f = DivFault ∧ code i = (BPF_ALU .| BPF_DIV .| BPF_K) ∧ u32 (k i) = 0.
Proof.
  intros H. refine (switch_Forall (λ c o, o = Fault f → _ ∧ c = _ ∧ _) _ _ _ H _ eq_refl).
  each_case; intros Hn; ifs_in Hn; first [discriminate Hn|by injection Hn as <-].
Qed.

End Exec.

Lemma validate_from_lookup len i f n p :
  validate_from len i f = true → f !! n = Some p → validate_insn len (i + Z.of_nat n) p = true.
Proof.
  revert i n; induction f as [|q f IH]; intros i n H Hn; [done|].
  simpl in H. apply andb_true_iff in H as [H1 H2]. destruct n as [|n]; simpl in Hn.
  - injection Hn as ->. by rewrite Z.add_0_r.
  - rewrite Nat2Z.inj_succ. replace (i + Z.succ (Z.of_nat n)) with (i + 1 + Z.of_nat n) by lia.
    by apply IH.
Qed.

Lemma validate_jump len pc i :
  validate_insn len pc i = true → BPF_CLASS (code i) = BPF_JMP →
  if BPF_OP (code i) =? BPF_JA then s32 (pc + 1 + k i) < len
  else pc + 1 + jt i < len ∧ pc + 1 + jf i < len.
Proof.
  unfold validate_insn. intros H Hc. rewrite Hc in H. simpl in H. zbool.
  destruct (BPF_OP (code i) =? BPF_JA); zbool; auto.
Qed.

Lemma validate_mem len pc i :
  validate_insn len pc i = true →
  code i = (BPF_LD .| BPF_MEM) ∨ code i = BPF_ST → 0 <= k i < BPF_MEMWORDS.
Proof.
  unfold validate_insn. intros H Hc. zbool.
  assert (Hm : ((BPF_CLASS (code i) =? BPF_ST) || ((BPF_CLASS (code i) =? BPF_LD) &&
    (Z.land (code i) 224 =? BPF_MEM))) = true) by (destruct Hc as [-> | ->]; done).
  rewrite Hm in *. simpl in *. zbool. lia.
Qed.

Lemma validate_div len pc i :
  validate_insn len pc i = true → code i = (BPF_ALU .| BPF_DIV .| BPF_K) → k i ≠ 0.
Proof.
  unfold validate_insn. intros H Hc. zbool. rewrite Hc in *. simpl in *.
  zbool. lia.
Qed.

Lemma unchecked_mem len i :
  unchecked_ok len i = true →
  code i = (BPF_LDX .| BPF_MEM) ∨ code i = BPF_STX → 0 <= k i < BPF_MEMWORDS.
Proof.
  unfold unchecked_ok. intros H Hc.
  assert (Hm : ((code i =? (BPF_LDX .| BPF_MEM)) || (code i =? BPF_STX)) = true)
    by (destruct Hc as [-> | ->]; done).
  rewrite Hm in H. zbool. lia.
Qed.

Section Sound.
Context (pkt : packet) (wirelen buflen : Z) (prog : list bpf_insn).
Context (Hok : Forall insn_ok prog) (Hval : bpf_validate prog = Some 1).
Context (Hun : forallb (unchecked_ok (Z.of_nat (length prog))) prog = true).

Lemma valid_insn n i :
  prog !! n = Some i →
  insn_ok i ∧ validate_insn (Z.of_nat (length prog)) (Z.of_nat n) i = true ∧
  unchecked_ok (Z.of_nat (length prog)) i = true ∧
  (S n = length prog → BPF_CLASS (code i) = BPF_RET).
Proof using All.
  intros Hi. unfold bpf_validate in Hval.
  destruct (validate_from _ 0 prog) eqn:Hf; [|done].
  split; [by eapply Forall_lookup_1|]. split.
  { by apply (validate_from_lookup _ 0 _ n i) in Hf. }
  split. { apply (proj1 (forallb_forall _ _) Hun), list_elem_of_In.
           by eapply list_elem_of_lookup_2. }
  intros Hn. destruct (last prog) as [p|] eqn:Hl; [|done].
  rewrite last_lookup in Hl. replace (pred (length prog)) with n in Hl by lia.
  rewrite Hi in Hl. injection Hl as <-. injection Hval as Hv.
  destruct (BPF_CLASS (code i) =? BPF_RET) eqn:E; [by zbool|done].
Qed.

(** A step of an accepted program goes forward inside the program, returns, or
    faults in a packet access. *)
Lemma step_sound s :
  0 <= pc s < Z.of_nat (length prog) → length (mem s) = 16%nat →
  match step pkt wirelen buflen prog s with
  | Next s' => pc s < pc s' < Z.of_nat (length prog) ∧ length (mem s') = 16%nat
  | Return _ => True
  | Fault f => f = PktFault
  end.
Proof using All.
  intros Hpc Hmem. unfold step, fetch. rewrite (proj2 (Z.leb_le _ _)) by lia.
  destruct (lookup_lt_is_Some_Z prog (pc s) Hpc) as [i Hi]. rewrite Hi.
  destruct (valid_insn _ _ Hi) as ((_ & Hjt & Hjf & _) & Hv & Hu & Hlast).
  rewrite Z2Nat.id in Hv by lia.
  assert (Hnext : BPF_CLASS (code i) ≠ BPF_RET → pc s + 1 < Z.of_nat (length prog)).
  { intros Hr. destruct (decide (S (Z.to_nat (pc s)) = length prog)) as [E|E]; [|lia].
    by apply Hlast in E. }
  unfold exec. destruct (exec_ld _ _ _ i s) as [[s'|v|f]|] eqn:E1; [| done | |].
  - apply exec_ld_next in E1 as (-> & -> & _ & Hr). apply Hnext in Hr. lia.
  - apply exec_ld_fault in E1; [|done].
    destruct E1 as [-> | (-> & Hm & Hc)]; [done|]. exfalso. apply Hm.
    destruct Hc as [Hc | [Hc | Hc]]; [eapply validate_mem; eauto..|].
    by eapply unchecked_mem.
  - destruct (exec_jmp i s) as [o|] eqn:E2.
    + apply exec_jmp_next in E2 as (s' & -> & Hm & Hc & Hj). rewrite Hm. split; [|done].
      pose proof (validate_jump _ _ _ Hv Hc) as Hjmp. unfold is_u8 in *.
      destruct Hj as [[Hja Hp]|[Hja Hp]].
      * unfold unchecked_ok in Hu. rewrite Hja in Hu, Hjmp. simpl in Hu, Hjmp. zbool.
        rewrite s32_id in Hjmp by (unfold is_s32; lia). lia.
      * destruct (BPF_OP (code i) =? BPF_JA) eqn:E; zbool; [done|]. lia.
    + destruct (exec_alu i s) as [[s'|v|f]|] eqn:E3; [| done | |done].
      * apply exec_alu_next in E3 as (-> & -> & _ & Hr). apply Hnext in Hr. lia.
      * apply exec_alu_fault in E3 as (_ & Hc & Hk). exfalso.
        pose proof (validate_div _ _ _ Hv Hc).
        destruct (valid_insn _ _ Hi) as ((_ & _ & _ & Hs) & _). wraplia.
Qed.

Lemma run_sound n s :
  0 <= pc s < Z.of_nat (length prog) → length (mem s) = 16%nat →
  Z.of_nat (length prog) - pc s <= Z.of_nat n →
  ∃ r, run pkt wirelen buflen prog n s = Some r ∧ (r = inr PktFault ∨ ∃ v, r = inl v).
Proof using All.
  revert s; induction n as [|n IH]; intros s Hpc Hm Hn; [lia|]. simpl.
  pose proof (step_sound s Hpc Hm) as Hs.
  destruct (step _ _ _ _ s) as [s'|v|f]; [|eauto|subst; eauto].
  apply IH; [lia|apply Hs|lia].
Qed.

End Sound.

(** ** Packet accesses *)

Lemma byte_at_drop p i j :
  0 <= i → 0 <= j → byte_at p (i + j) = drop (Z.to_nat i) p !! Z.to_nat j.
Proof.
  intros Hi Hj. unfold byte_at. rewrite (proj2 (Z.leb_le _ _)) by lia.
  rewrite lookup_drop. f_equal. lia.
Qed.

Lemma byte_at_neg p i : i < 0 → byte_at p i = None.
Proof. intros H. unfold byte_at. by rewrite (proj2 (Z.leb_gt _ _)) by lia. Qed.

Lemma EXTRACT_SHORT_be p i :
  Forall is_u8 p → 0 <= i → i + 2 <= Z.of_nat (length p) →
  EXTRACT_SHORT p i = Some (be_val (take 2 (drop (Z.to_nat i) p))).
Proof.
  intros Hp Hi Hl. unfold EXTRACT_SHORT. rewrite <- (Z.add_0_r i) at 1.
  rewrite !byte_at_drop by lia. apply (Forall_drop _ (Z.to_nat i)) in Hp.
  assert (Hd : (2 <= length (drop (Z.to_nat i) p))%nat) by (rewrite length_drop; lia).
  destruct (drop (Z.to_nat i) p) as [|b0 [|b1 r]]; simpl in *; try lia.
  decompose_Forall. f_equal. rewrite lor_shiftl_add by (unfold is_u8 in *; lia).
  unfold be_val; simpl. lia.
Qed.

Lemma EXTRACT_LONG_be p i :
  Forall is_u8 p → 0 <= i → i + 4 <= Z.of_nat (length p) →
  EXTRACT_LONG p i = Some (be_val (take 4 (drop (Z.to_nat i) p))).
Proof.
  intros Hp Hi Hl. unfold EXTRACT_LONG. rewrite <- (Z.add_0_r i) at 1.
  rewrite !byte_at_drop by lia. apply (Forall_drop _ (Z.to_nat i)) in Hp.
  assert (Hd : (4 <= length (drop (Z.to_nat i) p))%nat) by (rewrite length_drop; lia).
  destruct (drop (Z.to_nat i) p) as [|b0 [|b1 [|b2 [|b3 r]]]]; simpl in *; try lia.
  decompose_Forall. f_equal. unfold is_u8 in *.
  rewrite <- !Z.lor_assoc.
  rewrite (lor_shiftl_add b2 b3 8), (lor_shiftl_add b1 _ 16), (lor_shiftl_add b0 _ 24) by lia.
  unfold be_val; simpl. lia.
Qed.

(** The result of a flat load of [size] bytes at offset [k]: the bounds test adds
    in [u_int], so an offset within [size] below zero passes it. *)
Lemma load_flat p buflen size flat chain k :
  flat_packet p buflen → 0 < size <= 4 → is_s32 k →
  (∀ i, i < 0 → flat p i = None) →
  load (Flat p) buflen size flat chain k =
  if (0 <=? k) && (k + size <=? buflen) then of_bytes (flat p k)
  else if (k <? 0) && (0 <=? k + size) && (k + size <=? buflen) then Bad else Miss.
Proof.
  intros (Hlen & Hbuf & _) Hs Hk Hneg. unfold load.
  assert (Hu : u32 (k + size) = if 0 <=? k + size then k + size else k + size + 4294967296).
  { destruct (0 <=? k + size) eqn:E; zbool; wraplia. }
  rewrite Hu. clear Hu. unfold is_s32 in *.
  rewrite (proj2 (Z.eqb_neq buflen 0)) by lia. simpl.
  destruct (0 <=? k) eqn:E1, (0 <=? k + size) eqn:E2, (k + size <=? buflen) eqn:E3; zbool; simpl;
    rewrite ?(proj2 (Z.ltb_lt k 0)), ?(proj2 (Z.ltb_ge k 0)) by lia; simpl;
    first [rewrite (proj2 (Z.ltb_ge _ _)) by lia|rewrite (proj2 (Z.ltb_lt _ _)) by lia];
    rewrite ?Hneg by lia; done || lia.
Qed.

(** The chain walk finds the byte at offset [k] of the packet. *)
Lemma MINDEX_chain ms k :
  Forall mbuf_ok ms → 0 <= k < 2147483648 →
  match MINDEX ms k with
  | Some (m, rest, k') =>
      mbuf_ok m ∧ 0 <= k' < m_len m ∧
      drop (Z.to_nat k) (chain_bytes ms) =
        drop (Z.to_nat k') (take (Z.to_nat (m_len m)) (m_dat m)) ++ chain_bytes rest
  | None => (length (chain_bytes ms) <= Z.to_nat k)%nat
  end.
Proof.
  intros H; revert k; induction H as [|m ms [Hm Hm'] _ IH]; intros k Hk; simpl; [lia|].
  unfold chain_bytes in *. csimpl. destruct (m_len m <=? k) eqn:E; zbool.
  - rewrite s32_id by (unfold is_s32; lia). specialize (IH (k - m_len m)).
    destruct (MINDEX ms (k - m_len m)) as [[[m' rest] k']|].
    + destruct IH as (H1 & H2 & H3); [lia|]. split; [done|]. split; [done|].
      rewrite drop_app_ge by (rewrite length_take; lia). rewrite <- H3. f_equal.
      rewrite length_take. lia.
    + rewrite length_app, length_take. lia.
  - split; [done|]. split; [lia|]. by rewrite drop_app_le by (rewrite length_take; lia).
Qed.

Lemma load_byte_flat p buflen signed k :
  flat_packet p buflen → is_s32 k → load_byte (Flat p) buflen signed k ≠ Bad.
Proof.
  intros (Hlen & Hbuf & _) Hk. unfold load_byte.
  destruct (buflen <=? u32 k) eqn:E; zbool.
  - by rewrite (proj2 (Z.eqb_neq buflen 0)) by lia.
  - assert (Hk' : 0 <= k < Z.of_nat (length p)) by (unfold is_s32 in *; wraplia).
    destruct (lookup_lt_is_Some_Z p k Hk') as [b Hb].
    unfold byte_at. rewrite (proj2 (Z.leb_le 0 k)), Hb by lia. done.
Qed.

Lemma load_nonneg_flat p buflen size flat chain k :
  flat_packet p buflen → 0 < size <= 4 → 0 <= k < 2147483648 →
  (∀ i, i < 0 → flat p i = None) →
  (∀ i, 0 <= i → i + size <= buflen → flat p i ≠ None) →
  load (Flat p) buflen size flat chain k ≠ Bad.
Proof.
  intros Hp Hs Hk Hneg Hflat. rewrite load_flat by (done || unfold is_s32; lia).
  rewrite (proj2 (Z.leb_le 0 k)), (proj2 (Z.ltb_ge k 0)) by lia. simpl.
  destruct (k + size <=? buflen) eqn:E; zbool; [|done].
  specialize (Hflat k). destruct (flat p k); [done|]. destruct Hflat; [lia|done|done].
Qed.

Lemma SHORT_neg p i : i < 0 → EXTRACT_SHORT p i = None.
Proof. intros H. unfold EXTRACT_SHORT. rewrite (byte_at_neg p i) by done. done. Qed.

Lemma LONG_neg p i : i < 0 → EXTRACT_LONG p i = None.
Proof. intros H. unfold EXTRACT_LONG. rewrite (byte_at_neg p i) by done. done. Qed.

(** A program with no indexed word or half-word load and no negative offset does
    not fault on a flat packet. *)
Lemma exec_ld_flat p wirelen buflen i s :
  flat_packet p buflen → insn_ok i → load_offset_ok i = true →
  exec_ld (Flat p) wirelen buflen i s ≠ Some (Fault PktFault).
Proof.
  intros Hp (_ & _ & _ & Hk) Hoff H. pose proof Hp as (Hlen & Hbuf & Hb).
  unfold load_offset_ok in Hoff.
  assert (Hacc : ∀ a f, a ≠ Bad → with_access a f ≠ Fault PktFault) by (intros []; done).
  refine (switch_Forall (λ c o, negb (c =? _) && negb (c =? _) &&
    (if (c =? _) || (c =? _) then 0 <=? k i else true) = true → o ≠ Fault PktFault)
    _ _ _ H _ Hoff eq_refl). clear H Hoff.
  each_case; intros Hoff; try discriminate;
    try (by destruct (mem_read _ _)); try (by destruct (mem_write _ _ _));
    apply Hacc; try (apply load_byte_flat; [done|by auto with anp]); zbool.
  - apply load_nonneg_flat; try done; [unfold is_s32 in *; lia|apply LONG_neg|].
    intros j Hj1 Hj2. rewrite EXTRACT_LONG_be by (done || lia). done.
  - apply load_nonneg_flat; try done; [unfold is_s32 in *; lia|apply SHORT_neg|].
    intros j Hj1 Hj2. rewrite EXTRACT_SHORT_be by (done || lia). done.
Qed.

(** ** Properties *)

(** C25: a program that [bpf_validate] accepts, and that also passes the checks
    [bpf_validate] leaves out, always stops within as many instructions as it
    has: it never runs off its code, never touches scratch memory out of range
    and never divides by a zero constant, on every packet and from every content
    of the registers and the scratch memory. *)
Theorem bpf_filter_terminates pkt wirelen buflen prog A0 X0 mem0 :
  Forall insn_ok prog → bpf_validate prog = Some 1 →
  forallb (unchecked_ok (Z.of_nat (length prog))) prog = true → length mem0 = 16%nat →
  ∃ r, bpf_filter pkt wirelen buflen (Some prog) A0 X0 mem0 (length prog) = Some r ∧
       (r = inr PktFault ∨ ∃ v, r = inl v).
Proof.
  intros Hok Hval Hun Hm. apply run_sound; try done; simpl; [|lia].
  destruct prog; [discriminate Hval|simpl; lia].
Qed.

(** An Ethernet filter: accept IP packets. *)
Definition ip_filter : list bpf_insn :=
  [ Insn (BPF_LD .| BPF_H .| BPF_ABS) 0 0 12;
    Insn (BPF_JMP .| BPF_JEQ .| BPF_K) 0 1 0x800;
    Insn (BPF_RET .| BPF_K) 0 0 96;
    Insn (BPF_RET .| BPF_K) 0 0 0 ].

Lemma bpf_filter_terminates_witness :
  ∃ r, bpf_filter (Flat (replicate 12 0 ++ [8; 0; 0x45])) 15 15 (Some ip_filter) 7 7
         (replicate 16 0) 4 = Some r ∧ (r = inr PktFault ∨ ∃ v, r = inl v).
Proof.
  apply (bpf_filter_terminates _ _ _ ip_filter); try reflexivity.
  each_case; vm_compute; intuition discriminate.
Defined.

(** On a flat packet of [buflen] bytes such a program returns a verdict,
    without a fault, when it has no indexed word or half-word load and no
    negative load offset. *)
Theorem bpf_filter_safe p wirelen buflen prog A0 X0 mem0 :
  flat_packet p buflen →
  Forall insn_ok prog → bpf_validate prog = Some 1 →
  forallb (unchecked_ok (Z.of_nat (length prog))) prog = true →
  forallb load_offset_ok prog = true → length mem0 = 16%nat →
  ∃ v, bpf_filter (Flat p) wirelen buflen (Some prog) A0 X0 mem0 (length prog) = Some (inl v).
Proof.
  intros Hp Hok Hval Hun Hoff Hm.
  assert (Hrun : ∀ n s, run (Flat p) wirelen buflen prog n s ≠ Some (inr PktFault)).
  { induction n as [|n IH]; intros s; simpl; [done|]. unfold step, fetch.
    destruct (0 <=? pc s); [|done]. destruct (prog !! _) as [i|] eqn:Hi; [|done].
    assert (Hio : insn_ok i) by (by eapply Forall_lookup_1).
    assert (Hlo : load_offset_ok i = true).
    { apply (proj1 (forallb_forall _ _) Hoff), list_elem_of_In. by eapply list_elem_of_lookup_2. }
    pose proof (exec_ld_flat p wirelen buflen i s Hp Hio Hlo) as Hld. unfold exec.
    destruct (exec_ld _ _ _ i s) as [[s'|v|f]|] eqn:E1; [apply IH|done|congruence|].
    destruct (exec_jmp i s) as [o|] eqn:E2.
    { apply exec_jmp_next in E2 as (s' & -> & _). apply IH. }
    destruct (exec_alu i s) as [[s'|v|f]|] eqn:E3; [apply IH|done| |done].
    by apply exec_alu_fault in E3 as [-> _]. }
  destruct (run_sound (Flat p) wirelen buflen prog Hok Hval Hun (length prog) (St 0 A0 X0 mem0))
    as (r & Hr & [->|[v ->]]); simpl; try done; [|lia| |by exists v].
  - destruct prog; [discriminate Hval|simpl; lia].
  - by apply Hrun in Hr.
Qed.

Lemma bpf_filter_safe_witness :
  ∃ v, bpf_filter (Flat (replicate 12 0 ++ [8; 0; 0x45])) 15 15 (Some ip_filter) 7 7
         (replicate 16 0) 4 = Some (inl v).
Proof.
  apply (bpf_filter_safe _ 15 15 ip_filter); try reflexivity.
  - split; [reflexivity|]. split; [lia|]. apply Forall_app; split.
    + apply Forall_replicate. unfold is_u8; lia.
    + repeat constructor; unfold is_u8; lia.
  - each_case; vm_compute; intuition discriminate.
Defined.

(** What a word load does on a flat packet, for every offset: the
    big-endian word when it lies inside the packet; a fault, because the read
    starts before the buffer, when the offset is at most four below zero and
    the addition in the bounds test wraps around; a rejected packet otherwise. *)
Theorem load_word_flat p buflen k :
  flat_packet p buflen → is_s32 k →
  load_word (Flat p) buflen k =
  if (0 <=? k) && (k + 4 <=? buflen) then Val (be_val (take 4 (drop (Z.to_nat k) p)))
  else if (k <? 0) && (0 <=? k + 4) && (k + 4 <=? buflen) then Bad else Miss.
Proof.
  intros Hp Hk. unfold load_word. rewrite load_flat by (done || lia || apply LONG_neg).
  destruct ((0 <=? k) && (k + 4 <=? buflen)) eqn:E; [|done]. zbool.
  destruct Hp as (Hlen & Hbuf & Hb). by rewrite EXTRACT_LONG_be by (done || lia).
Qed.

Lemma load_word_flat_witness :
  load_word (Flat [1; 2; 3; 4; 5]) 5 1 = Val 33752069 ∧ load_word (Flat [1; 2; 3; 4; 5]) 5 (-4) = Bad.
Proof.
  split; (rewrite load_word_flat;
    [reflexivity|split; [reflexivity|split; [lia|repeat constructor; unfold is_u8; lia]]
    |unfold is_s32; lia]).
Defined.

(** On an mbuf chain a byte load reads the byte at that offset of the
    packet's data and rejects the packet when there is none. *)
Theorem m_xbyte_chain ms k :
  Forall mbuf_ok ms → ms ≠ [] → 0 <= k < 2147483648 →
  m_xbyte ms k = match chain_bytes ms !! Z.to_nat k with Some b => Val b | None => Miss end.
Proof.
  intros Hms Hne Hk. unfold m_xbyte. destruct ms as [|m ms]; [done|].
  pose proof (MINDEX_chain _ k Hms Hk) as H. rewrite <- (Nat.add_0_r (Z.to_nat k)).
  rewrite <- lookup_drop. destruct (MINDEX (m :: ms) k) as [[[m' rest] k']|].
  - destruct H as ([Hl Hl'] & Hk' & ->).
    destruct (lookup_lt_is_Some_Z (m_dat m') k') as [b Hb]; [lia|].
    unfold byte_at. rewrite (proj2 (Z.leb_le 0 k')) by lia.
    rewrite lookup_app_l by (rewrite length_drop, length_take; lia).
    rewrite lookup_drop, Nat.add_0_r, lookup_take_lt, Hb by lia. done.
  - by rewrite drop_ge by lia.
Qed.

Lemma m_xbyte_chain_witness :
  m_xbyte [Mbuf 2 [10; 11; 99]; Mbuf 0 []; Mbuf 3 [12; 13; 14]] 3 = Val 13.
Proof.
  rewrite m_xbyte_chain; [reflexivity| |done|lia].
  repeat constructor; simpl; lia.
Defined.

(** A word that lies inside one mbuf is read from a chain exactly as from
    the flat packet, and a word that begins beyond the data is a miss. *)
Theorem m_xword_contiguous ms k m rest k' :
  Forall mbuf_ok ms → 0 <= k < 2147483648 →
  MINDEX ms k = Some (m, rest, k') → Forall is_u8 (m_dat m) → k' + 4 <= m_len m →
  m_xword ms k = Val (be_val (take 4 (drop (Z.to_nat k) (chain_bytes ms)))).
Proof.
  intros Hms Hk Hidx Hbm Hfit. pose proof (MINDEX_chain _ k Hms Hk) as H.
  rewrite Hidx in H. destruct H as ([Hl Hl'] & Hk' & Heq). unfold m_xword.
  destruct ms as [|m0 ms]; [done|]. rewrite Hidx.
  rewrite s32_id by (unfold is_s32; lia). rewrite (proj2 (Z.leb_le 4 _)) by lia.
  rewrite EXTRACT_LONG_be by (done || lia). simpl. do 2 f_equal. rewrite Heq.
  rewrite take_app_le by (rewrite length_drop, length_take; lia).
  rewrite !take_drop_commute, take_take. do 2 f_equal. lia.
Qed.

Lemma m_xword_contiguous_witness :
  m_xword [Mbuf 2 [10; 11]; Mbuf 5 [1; 2; 3; 4; 5]] 3 = Val 33752069.
Proof.
  refine (m_xword_contiguous _ 3 (Mbuf 5 [1; 2; 3; 4; 5]) [] 1 _ _ _ _ _);
    try (repeat constructor; simpl; unfold is_u8; lia); simpl; lia.
Defined.

(** ** What the validator and the chain reads get wrong *)

(** [bpf_validate] accepts a program whose unconditional jump goes
    backwards; it runs forever. *)
Theorem bpf_validate_accepts_loop pkt wirelen buflen A0 X0 mem0 fuel :
  let prog := [Insn (BPF_JMP .| BPF_JA) 0 0 (-1); Insn (BPF_RET .| BPF_K) 0 0 0] in
  bpf_validate prog = Some 1 ∧
  bpf_filter pkt wirelen buflen (Some prog) A0 X0 mem0 fuel = None.
Proof.
  split; [reflexivity|]. induction fuel as [|fuel IH]; [done|]. exact IH.
Qed.

(** [bpf_validate] accepts a program that stores the [X] register far outside
    the sixteen scratch words, and the filter executes the store. *)
Theorem bpf_validate_accepts_wild_store pkt wirelen buflen A0 X0 mem0 :
  let prog := [Insn BPF_STX 0 0 1000; Insn (BPF_RET .| BPF_K) 0 0 0] in
  bpf_validate prog = Some 1 ∧
  bpf_filter pkt wirelen buflen (Some prog) A0 X0 mem0 1 = Some (inr MemFault).
Proof. split; reflexivity. Qed.

(** A word that spans two mbufs is assembled from the wrong bytes of the first
    one, because the offset is applied twice: here the bytes at offsets 2, 3, 4
    and 5 are 3, 4, 5 and 6, and [m_xword] takes the ones at 4 and 5 first. *)
Example m_xword_spanning :
  m_xword [Mbuf 4 [1; 2; 3; 4; 0xaa; 0xbb]; Mbuf 2 [5; 6]] 2 = Val (be_val [0xaa; 0xbb; 5; 6]) ∧
  take 4 (drop 2 (chain_bytes [Mbuf 4 [1; 2; 3; 4; 0xaa; 0xbb]; Mbuf 2 [5; 6]])) = [3; 4; 5; 6].
Proof. split; reflexivity. Qed.

End Bpf.
