(* ===== verification/Mbuf.v ===== *)
(** * The mbuf layer (kern/uipc_mbuf.c, sys/mbuf.h)

    An mbuf chain is a list of mbufs (the [m_next] links); the bytes of an mbuf
    are in its internal area, or in a cluster that several mbufs may share.
    Clusters live in a store indexed by their address, next to the port's table
    of reference counts and the free list.  Lengths are those of data in memory,
    so their sums are taken to fit an [int]. *)

From stdpp Require Import options.
From S2P Require Import Prelude.

Module Mbuf.

(** ** Constants *)

Definition MSIZE : Z := 128.
Definition MLEN : Z := MSIZE - 20.
Definition MHLEN : Z := MLEN - 8.
Definition MINCLSIZE : Z := MHLEN + MLEN.
Definition MCLBYTES : Z := 2048.
Definition CLBYTES : Z := 4096.
Definition M_EXT : Z := 0x0001.
Definition M_PKTHDR : Z := 0x0002.
Definition M_EOR : Z := 0x0004.
Definition M_BCAST : Z := 0x0100.
Definition M_MCAST : Z := 0x0200.
Definition M_COPYFLAGS : Z := Z.lor (Z.lor (Z.lor M_PKTHDR M_EOR) M_BCAST) M_MCAST.
Definition M_COPYALL : Z := 1000000000.
Definition MT_DATA : Z := 1.
Definition CLRCBRKSIZE : Z := 32.

(** ** Data *)

(** [m_data] is the offset of the data in the buffer in use: the internal area
    [m_dat] of [MLEN] bytes, whose first eight bytes hold the packet header when
    [M_PKTHDR] is set, or the cluster [ext_buf] when [M_EXT] is set. *)
Record mbuf := MB
  { m_len : Z; m_data : Z; m_type : Z; m_flags : Z;
    pkthdr_len : Z; rcvif : Z;
    ext_buf : Z; ext_size : Z;
    m_dat : list Z }.

Definition set_len (m : mbuf) (n : Z) : mbuf :=
  MB n (m_data m) (m_type m) (m_flags m) (pkthdr_len m) (rcvif m) (ext_buf m) (ext_size m) (m_dat m).
Definition set_data (m : mbuf) (d : Z) : mbuf :=
  MB (m_len m) d (m_type m) (m_flags m) (pkthdr_len m) (rcvif m) (ext_buf m) (ext_size m) (m_dat m).
Definition set_flags (m : mbuf) (f : Z) : mbuf :=
  MB (m_len m) (m_data m) (m_type m) f (pkthdr_len m) (rcvif m) (ext_buf m) (ext_size m) (m_dat m).
Definition set_pktlen (m : mbuf) (n : Z) : mbuf :=
  MB (m_len m) (m_data m) (m_type m) (m_flags m) n (rcvif m) (ext_buf m) (ext_size m) (m_dat m).
Definition set_rcvif (m : mbuf) (i : Z) : mbuf :=
  MB (m_len m) (m_data m) (m_type m) (m_flags m) (pkthdr_len m) i (ext_buf m) (ext_size m) (m_dat m).
Definition set_ext (m : mbuf) (b z : Z) : mbuf :=
  MB (m_len m) (m_data m) (m_type m) (m_flags m) (pkthdr_len m) (rcvif m) b z (m_dat m).
Definition set_dat (m : mbuf) (l : list Z) : mbuf :=
  MB (m_len m) (m_data m) (m_type m) (m_flags m) (pkthdr_len m) (rcvif m) (ext_buf m) (ext_size m) l.

Definition has (m : mbuf) (f : Z) : bool := ztrue (Z.land (m_flags m) f).

(** The state of the allocator.  [oracle] says which of the next calls of the
    host's [malloc] succeed (all of them when it is empty); [brk] is the next
    fresh address.  The free list is kept apart from the bytes of the clusters:
    the link the code writes into the first word of a free cluster is not in
    [clusters]. *)
Record mstate := MS
  { clusters : gmap Z (list Z);
    cl_rc_tbl : list (Z * Z);
    cl_rc_limit : Z;
    mclfree : list Z;
    m_clfree : Z;
    m_clusters : Z;
    m_mtypes : gmap Z Z;
    m_drain : Z;
    MCFail : Z;
    MPFail : Z;
    oracle : list bool;
    brk : Z }.

Definition with_clusters (c : gmap Z (list Z)) (s : mstate) : mstate :=
  MS c (cl_rc_tbl s) (cl_rc_limit s) (mclfree s) (m_clfree s) (m_clusters s) (m_mtypes s) (m_drain s)
    (MCFail s) (MPFail s) (oracle s) (brk s).
Definition with_rc (t : list (Z * Z)) (s : mstate) : mstate :=
  MS (clusters s) t (cl_rc_limit s) (mclfree s) (m_clfree s) (m_clusters s) (m_mtypes s) (m_drain s)
    (MCFail s) (MPFail s) (oracle s) (brk s).
Definition with_limit (l : Z) (s : mstate) : mstate :=
  MS (clusters s) (cl_rc_tbl s) l (mclfree s) (m_clfree s) (m_clusters s) (m_mtypes s) (m_drain s)
    (MCFail s) (MPFail s) (oracle s) (brk s).
Definition with_free (f : list Z) (n : Z) (s : mstate) : mstate :=
  MS (clusters s) (cl_rc_tbl s) (cl_rc_limit s) f n (m_clusters s) (m_mtypes s) (m_drain s)
    (MCFail s) (MPFail s) (oracle s) (brk s).
Definition with_nclusters (n : Z) (s : mstate) : mstate :=
  MS (clusters s) (cl_rc_tbl s) (cl_rc_limit s) (mclfree s) (m_clfree s) n (m_mtypes s) (m_drain s)
    (MCFail s) (MPFail s) (oracle s) (brk s).
Definition with_mtypes (t : gmap Z Z) (s : mstate) : mstate :=
  MS (clusters s) (cl_rc_tbl s) (cl_rc_limit s) (mclfree s) (m_clfree s) (m_clusters s) t (m_drain s)
    (MCFail s) (MPFail s) (oracle s) (brk s).
Definition with_drain (n : Z) (s : mstate) : mstate :=
  MS (clusters s) (cl_rc_tbl s) (cl_rc_limit s) (mclfree s) (m_clfree s) (m_clusters s) (m_mtypes s) n
    (MCFail s) (MPFail s) (oracle s) (brk s).
Definition with_fail (mc mp : Z) (s : mstate) : mstate :=
  MS (clusters s) (cl_rc_tbl s) (cl_rc_limit s) (mclfree s) (m_clfree s) (m_clusters s) (m_mtypes s)
    (m_drain s) mc mp (oracle s) (brk s).
Definition with_oracle (o : list bool) (b : Z) (s : mstate) : mstate :=
  MS (clusters s) (cl_rc_tbl s) (cl_rc_limit s) (mclfree s) (m_clfree s) (m_clusters s) (m_mtypes s)
    (m_drain s) (MCFail s) (MPFail s) o b.

(** The bytes of the buffer an mbuf uses, and its data. *)
Definition buffer (s : mstate) (m : mbuf) : option (list Z) :=
  if has m M_EXT then clusters s !! ext_buf m else Some (m_dat m).

Definition mbytes (s : mstate) (m : mbuf) : list Z :=
  take (Z.to_nat (m_len m)) (drop (Z.to_nat (m_data m)) (default [] (buffer s m))).

Definition bytes (s : mstate) (ms : list mbuf) : list Z := concat (mbytes s <$> ms).

(** [bcopy] out of and into the data of an mbuf, [off] bytes from [m_data]. *)
Definition m_read (m : mbuf) (off n : Z) : M mstate (list Z) :=
  let! s := get in
  let! b := lift (buffer s m) in
  lift (read_bytes b (m_data m + off) n).

Definition m_write (m : mbuf) (off : Z) (bs : list Z) : M mstate mbuf :=
  let! s := get in
  let! b := lift (buffer s m) in
  let! b := lift (write_bytes b (m_data m + off) bs) in
  if has m M_EXT then
    do! put (with_clusters (<[ext_buf m := b]> (clusters s)) s) in ret m
  else ret (set_dat m b).

(** ** Clusters and their reference counts (the port's table) *)

Definition malloc : M mstate bool :=
  let! s := get in
  match oracle s with
  | [] => ret true
  | b :: o => do! put (with_oracle o (brk s) s) in ret b
  end.

Definition cl_rc_insert (cl : Z) : M mstate () :=
  let! s := get in
  do! (if Z.of_nat (length (cl_rc_tbl s)) =? cl_rc_limit s then
         let! ok := malloc in
         if ok then modify (λ s, with_limit (cl_rc_limit s + CLRCBRKSIZE) s) else panic
       else ret ()) in
  modify (λ s, with_rc (cl_rc_tbl s ++ [(cl, 0)]) s).

(** The search loop of [cl_rc_incr] and [cl_rc_decr], updating the first entry
    found; the counts are [unsigned char]. *)
Fixpoint rc_update (f : Z → Z) (cl : Z) (t : list (Z * Z)) : option (Z * list (Z * Z)) :=
  match t with
  | [] => None
  | (b, c) :: t =>
      if b =? cl then Some (u8 (f c), (b, u8 (f c)) :: t)
      else match rc_update f cl t with
           | Some (r, t) => Some (r, (b, c) :: t)
           | None => None
           end
  end.

Definition cl_rc_incr (cl : Z) : M mstate () :=
  let! s := get in
  match rc_update (λ c, c + 1) cl (cl_rc_tbl s) with
  | Some (_, t) => put (with_rc t s)
  | None => panic
  end.

Definition cl_rc_decr (cl : Z) : M mstate Z :=
  let! s := get in
  match rc_update (λ c, c - 1) cl (cl_rc_tbl s) with
  | Some (r, t) => do! put (with_rc t s) in ret r
  | None => panic
  end.

Section Layer.

(** [max_linkhdr] and [max_protohdr] are set by the domains; [drain] is what the
    protocols' drain routines do; the bytes of a fresh mbuf or cluster and the
    length field of a fresh mbuf are arbitrary. *)
Context (max_linkhdr max_protohdr : Z) (drain : mstate → mstate).
Context (junk cljunk : list Z) (junk_len : Z).

(** The loop of [m_clalloc]. *)
Fixpoint clalloc_loop (n : nat) (p : Z) : M mstate () :=
  match n with
  | O => ret ()
  | S n =>
      do! modify (λ s, with_clusters (<[p := cljunk]> (clusters s)) s) in
      do! modify (λ s, with_free (p :: mclfree s) (m_clfree s) s) in
      do! cl_rc_insert p in
      do! modify (λ s, with_free (mclfree s) (m_clfree s + 1) s) in
      clalloc_loop n (p + MCLBYTES)
  end.

Definition m_clalloc (ncl : Z) : M mstate Z :=
  let! ok := malloc in
  if ok then
    let! s := get in
    let p := brk s in
    do! modify (λ s, with_oracle (oracle s) (p + ncl * CLBYTES) s) in
    let n := ncl * CLBYTES / MCLBYTES in
    do! clalloc_loop (Z.to_nat n) p in
    do! modify (λ s, with_nclusters (m_clusters s + n) s) in
    ret 1
  else ret 0.

Definition MCLALLOC : M mstate (option Z) :=
  let! s := get in
  do! (if mclfree s is [] then do! m_clalloc 1 in ret () else ret ()) in
  let! s := get in
  match mclfree s with
  | p :: rest =>
      do! cl_rc_incr p in
      do! modify (λ s, with_free rest (m_clfree s - 1) s) in
      ret (Some p)
  | [] => ret None
  end.

Definition MCLGET (m : mbuf) : M mstate mbuf :=
  let! p := MCLALLOC in
  match p with
  | Some p => ret (set_ext (set_flags (set_data m 0) (Z.lor (m_flags m) M_EXT)) p MCLBYTES)
  | None => ret m
  end.

Definition MCLFREE (p : Z) : M mstate () :=
  let! c := cl_rc_decr p in
  if c =? 0 then modify (λ s, with_free (p :: mclfree s) (m_clfree s + 1) s) else ret ().

(** ** Mbufs *)

Definition mtype_add (t d : Z) (s : mstate) : mstate :=
  with_mtypes (<[t := u16 (default 0 (m_mtypes s !! t) + d)]> (m_mtypes s)) s.

Definition m_reclaim : M mstate () :=
  do! modify drain in modify (λ s, with_drain (m_drain s + 1) s).

(** [MGET] and [MGETHDR]: on failure the protocols are asked to free memory and
    the allocation is tried once more ([m_retry], [m_retryhdr]). *)
Definition mget (m : mbuf) : M mstate (option mbuf) :=
  let! ok := malloc in
  if ok then do! modify (mtype_add (m_type m) 1) in ret (Some m)
  else
    do! m_reclaim in
    let! ok := malloc in
    if ok then do! modify (mtype_add (m_type m) 1) in ret (Some m) else ret None.

Definition MGET (t : Z) : M mstate (option mbuf) := mget (MB junk_len 0 t 0 0 0 0 0 junk).
Definition MGETHDR (t : Z) : M mstate (option mbuf) := mget (MB junk_len 8 t M_PKTHDR 0 0 0 0 junk).

Definition m_get (t : Z) : M mstate (option mbuf) := MGET t.
Definition m_gethdr (t : Z) : M mstate (option mbuf) := MGETHDR t.

Definition m_getclr (t : Z) : M mstate (option mbuf) :=
  let! m := MGET t in
  match m with
  | None => ret None
  | Some m => let! m := m_write m 0 (replicate (Z.to_nat MLEN) 0) in ret (Some m)
  end.

Definition MFREE (m : mbuf) : M mstate () :=
  do! modify (mtype_add (m_type m) (-1)) in
  if has m M_EXT then MCLFREE (ext_buf m) else ret ().

(** [m_free] returns the rest of the chain. *)
Definition m_free (ms : list mbuf) : M mstate (list mbuf) :=
  match ms with m :: rest => do! MFREE m in ret rest | [] => crash end.

Fixpoint m_freem (ms : list mbuf) : M mstate () :=
  match ms with [] => ret () | m :: rest => do! MFREE m in m_freem rest end.

(** ** Utility routines *)

(** [M_COPY_PKTHDR], [M_ALIGN] and [MH_ALIGN]. *)
Definition M_COPY_PKTHDR (to from : mbuf) : mbuf :=
  set_data (set_flags (set_rcvif (set_pktlen to (pkthdr_len from)) (rcvif from))
    (Z.land (m_flags from) M_COPYFLAGS)) 8.

Definition round_down (n : Z) : Z := Z.land n (Z.lnot 3).
Definition M_ALIGN (m : mbuf) (len : Z) : mbuf := set_data m (m_data m + round_down (MLEN - len)).
Definition MH_ALIGN (m : mbuf) (len : Z) : mbuf := set_data m (m_data m + round_down (MHLEN - len)).

Definition clear_pkthdr (m : mbuf) : mbuf :=
  set_flags m (Z.land (m_flags m) (Z.lnot M_PKTHDR)).

Definition m_prepend (ms : list mbuf) (len : Z) : M mstate (option (list mbuf)) :=
  match ms with
  | [] => crash
  | m :: rest =>
      let! mn := MGET (m_type m) in
      match mn with
      | None => do! m_freem ms in ret None
      | Some mn =>
          let '(mn, m) := if has m M_PKTHDR then (M_COPY_PKTHDR mn m, clear_pkthdr m) else (mn, m) in
          let mn := if len <? MHLEN then MH_ALIGN mn len else mn in
          ret (Some (set_len mn len :: m :: rest))
      end
  end.

Definition M_LEADINGSPACE (m : mbuf) : Z :=
  if has m M_EXT then 0 else if has m M_PKTHDR then m_data m - 8 else m_data m.

Definition M_PREPEND (ms : list mbuf) (plen : Z) : M mstate (option (list mbuf)) :=
  match ms with
  | [] => crash
  | m :: rest =>
      let! r := (if plen <=? M_LEADINGSPACE m
                 then ret (Some (set_len (set_data m (m_data m - plen)) (m_len m + plen) :: rest))
                 else m_prepend ms plen) in
      match r with
      | Some (m :: rest) =>
          ret (Some ((if has m M_PKTHDR then set_pktlen m (pkthdr_len m + plen) else m) :: rest))
      | r => ret r
      end
  end.

(** The first loop of [m_copym] and [m_copydata]: skip [off] bytes. *)
Fixpoint skip_off (ms : list mbuf) (off : Z) : M mstate (list mbuf * Z) :=
  if 0 <? off then
    match ms with
    | [] => panic
    | m :: rest => if off <? m_len m then ret (ms, off) else skip_off rest (off - m_len m)
    end
  else ret (ms, off).

(** The copy loop of [m_copym]: the mbufs copied so far, and whether all were.
    The count of a shared cluster is kept through [mclrefcnt], a pointer the
    port leaves null, so that branch is a wild store. *)
Fixpoint copym_loop (ms : list mbuf) (off0 off len : Z) (copyhdr : bool) :
    M mstate (list mbuf * bool) :=
  if 0 <? len then
    match ms with
    | [] => if len =? M_COPYALL then ret ([], true) else panic
    | m :: rest =>
        let! n := MGET (m_type m) in
        match n with
        | None => ret ([], false)
        | Some n =>
            let n := if copyhdr then
                       let n := M_COPY_PKTHDR n m in
                       set_pktlen n (if len =? M_COPYALL then pkthdr_len n - off0 else len)
                     else n in
            let n := set_len n (Z.min len (m_len m - off)) in
            if has m M_EXT then crash
            else
              let! b := m_read m off (m_len n) in
              let! n := m_write n 0 b in
              let len := if len =? M_COPYALL then len else len - m_len n in
              let! r := copym_loop rest off0 0 len false in
              ret (n :: r.1, r.2)
        end
    end
  else ret ([], true).

Definition m_copym (ms : list mbuf) (off0 len : Z) : M mstate (list mbuf) :=
  if (off0 <? 0) || (len <? 0) then panic
  else
    let! copyhdr := (if off0 =? 0
                     then match ms with m :: _ => ret (has m M_PKTHDR) | [] => crash end
                     else ret false) in
    let! so := skip_off ms off0 in
    let! r := copym_loop so.1 off0 so.2 len copyhdr in
    if r.2 then
      do! (if r.1 is [] then modify (λ s, with_fail (MCFail s + 1) (MPFail s) s) else ret ()) in
      ret r.1
    else
      do! m_freem r.1 in
      do! modify (λ s, with_fail (MCFail s + 1) (MPFail s) s) in
      ret [].

Fixpoint copydata_loop (ms : list mbuf) (off len : Z) : M mstate (list Z) :=
  if 0 <? len then
    match ms with
    | [] => panic
    | m :: rest =>
        let count := Z.min (m_len m - off) len in
        let! b := m_read m off count in
        let! r := copydata_loop rest 0 (len - count) in
        ret (b ++ r)
    end
  else ret [].

(** [m_copydata]; the result is what is written at [cp]. *)
Definition m_copydata (ms : list mbuf) (off len : Z) : M mstate (list Z) :=
  if (off <? 0) || (len <? 0) then panic
  else let! so := skip_off ms off in copydata_loop so.1 so.2 len.

(** The second loop of [m_cat], on the last mbuf [m] of the first chain. *)
Fixpoint cat_loop (m : mbuf) (n : list mbuf) : M mstate (list mbuf) :=
  match n with
  | [] => ret [m]
  | n0 :: rest =>
      if has m M_EXT || (MLEN <=? m_data m + m_len m + m_len n0) then ret (m :: n)
      else
        let! b := m_read n0 0 (m_len n0) in
        let! m := m_write m (m_len m) b in
        do! MFREE n0 in
        cat_loop (set_len m (m_len m + m_len n0)) rest
  end.

Fixpoint m_cat (ms n : list mbuf) : M mstate (list mbuf) :=
  match ms with
  | [] => crash
  | [m] => cat_loop m n
  | m :: rest => let! r := m_cat rest n in ret (m :: r)
  end.

(** ** [m_adj] *)

(** Trim [len] bytes from the head; the second result is what is left of [len]. *)
Fixpoint adj_head (ms : list mbuf) (len : Z) : list mbuf * Z :=
  match ms with
  | [] => ([], len)
  | m :: rest =>
      if 0 <? len then
        if m_len m <=? len then
          let '(r, len) := adj_head rest (len - m_len m) in (set_len m 0 :: r, len)
        else (set_data (set_len m (m_len m - len)) (m_data m + len) :: rest, 0)
      else (ms, len)
  end.

Definition chain_len (ms : list mbuf) : Z := foldr (λ m n, m_len m + n) 0 ms.

(** Cut the chain after [count] bytes; [None] is the null pointer the code would
    follow if the chain had fewer. *)
Fixpoint adj_cut (ms : list mbuf) (count : Z) : option (list mbuf) :=
  match ms with
  | [] => None
  | m :: rest =>
      if count <=? m_len m then Some (set_len m count :: ((λ m, set_len m 0) <$> rest))
      else match adj_cut rest (count - m_len m) with Some r => Some (m :: r) | None => None end
  end.

Definition on_head (f : mbuf → mbuf) (ms : list mbuf) : list mbuf :=
  match ms with [] => [] | m :: rest => f m :: rest end.

Fixpoint on_last (f : mbuf → mbuf) (ms : list mbuf) : list mbuf :=
  match ms with [] => [] | [m] => [f m] | m :: rest => m :: on_last f rest end.

Definition if_pkthdr (f : mbuf → mbuf) (m : mbuf) : mbuf := if has m M_PKTHDR then f m else m.

Definition m_adj (ms : list mbuf) (req_len : Z) : option (list mbuf) :=
  match ms with
  | [] => Some []
  | _ =>
      if 0 <=? req_len then
        let '(r, len) := adj_head ms req_len in
        Some (on_head (if_pkthdr (λ m, set_pktlen m (pkthdr_len m - (req_len - len)))) r)
      else
        let len := - req_len in
        match last ms with
        | None => Some []
        | Some l =>
            if len <=? m_len l then
              Some (on_head (if_pkthdr (λ m, set_pktlen m (pkthdr_len m - len)))
                      (on_last (λ m, set_len m (m_len m - len)) ms))
            else
              let count := Z.max 0 (chain_len ms - len) in
              adj_cut (on_head (if_pkthdr (λ m, set_pktlen m count)) ms) count
        end
  end.

(** ** [m_pullup] *)

(** The [do] loop: move data from the chain [n] into [m].  The result is [m], the
    rest of the chain and what is left of [len]. *)
Fixpoint pullup_loop (fuel : nat) (m : mbuf) (n : list mbuf) (len space : Z) :
    M mstate (mbuf * list mbuf * Z) :=
  match fuel, n with
  | S fuel, n0 :: rest =>
      let count := Z.min (Z.min (Z.max len max_protohdr) space) (m_len n0) in
      let! b := m_read n0 0 count in
      let! m := m_write m (m_len m) b in
      let m := set_len m (m_len m + count) in
      let len := len - count in
      let n0 := set_len n0 (m_len n0 - count) in
      let! n := (if negb (m_len n0 =? 0)
                 then ret (set_data n0 (m_data n0 + count) :: rest)
                 else do! MFREE n0 in ret rest) in
      match n with
      | _ :: _ => if 0 <? len then pullup_loop fuel m n len (space - count) else ret (m, n, len)
      | [] => ret (m, [], len)
      end
  | _, _ => crash
  end.

(** From the computation of [space] on. *)
Definition pullup_into (m : mbuf) (n : list mbuf) (len : Z) : M mstate (option (list mbuf)) :=
  let space := MLEN - (m_data m + m_len m) in
  let! r := pullup_loop (S (length n)) m n len space in
  let '(m, n, len) := r in
  if 0 <? len then
    do! MFREE m in
    do! m_freem n in
    do! modify (λ s, with_fail (MCFail s) (MPFail s + 1) s) in
    ret None
  else ret (Some (m :: n)).

Definition pullup_bad (n : list mbuf) : M mstate (option (list mbuf)) :=
  do! m_freem n in
  do! modify (λ s, with_fail (MCFail s) (MPFail s + 1) s) in
  ret None.

Definition m_pullup (n : list mbuf) (len : Z) : M mstate (option (list mbuf)) :=
  match n with
  | [] => crash
  | n0 :: rest =>
      if negb (has n0 M_EXT) && (m_data n0 + len <? MLEN) && (if rest is [] then false else true) then
        if len <=? m_len n0 then ret (Some n)
        else pullup_into n0 rest (len - m_len n0)
      else if MHLEN <? len then pullup_bad n
      else
        let! m := MGET (m_type n0) in
        match m with
        | None => pullup_bad n
        | Some m =>
            let m := set_len m 0 in
            let '(m, n0) := if has n0 M_PKTHDR then (M_COPY_PKTHDR m n0, clear_pkthdr n0)
                            else (m, n0) in
            pullup_into m (n0 :: rest) len
        end
  end.

(** ** [m_split] *)

(** Find the mbuf the split falls into; the result is the mbufs before it, the
    mbuf, those after it and the offset in it. *)
Fixpoint split_find (ms : list mbuf) (len : Z) : option (list mbuf * mbuf * list mbuf * Z) :=
  match ms with
  | [] => None
  | m :: rest =>
      if m_len m <? len then
        match split_find rest (len - m_len m) with
        | Some (pre, x, post, l) => Some (m :: pre, x, post, l)
        | None => None
        end
      else Some ([], m, rest, len)
  end.

(** From the label [extpacket] on: the front part, and the tail with the new
    mbuf [n] first. *)
Definition split_copy (pre : list mbuf) (m : mbuf) (post : list mbuf) (len remain : Z) (n : mbuf) :
    M mstate (list mbuf * option (list mbuf)) :=
  if has m M_EXT then crash
  else
    let! b := m_read m len remain in
    let! n := m_write n 0 b in
    ret (pre ++ [set_len m len], Some (set_len n remain :: post)).

(** The tail of a chain without a packet header. *)
Definition split_nohdr (m0 pre : list mbuf) (m : mbuf) (post : list mbuf) (len : Z) :
    M mstate (list mbuf * option (list mbuf)) :=
  let remain := m_len m - len in
  if remain =? 0 then ret (pre ++ [m], match post with [] => None | _ => Some post end)
  else
    let! n := MGET (m_type m) in
    match n with
    | None => ret (m0, None)
    | Some n => split_copy pre m post len remain (M_ALIGN n remain)
    end.

Definition m_split (m0 : list mbuf) (len0 : Z) : M mstate (list mbuf * option (list mbuf)) :=
  match m0 with
  | [] => ret ([], None)
  | h :: _ =>
      match split_find m0 (u32 len0) with
      | None => ret (m0, None)
      | Some (pre, m, post, len) =>
          if has h M_PKTHDR then
            let! n := MGETHDR (m_type h) in
            match n with
            | None => ret (m0, None)
            | Some n =>
                let n := set_pktlen (set_rcvif n (rcvif h)) (pkthdr_len h - len0) in
                let remain := m_len m - len in
                let setlen := on_head (λ h, set_pktlen h len0) in
                let pre_m := setlen (pre ++ [m]) in
                let m := default m (last pre_m) in
                let pre := setlen pre in
                if negb (has m M_EXT) && (MHLEN <? remain) then
                  if has m M_PKTHDR then crash (* the recursion would not end *) else
                  let n := MH_ALIGN n 0 in
                  let! r := split_nohdr (m :: post) [] m post len in
                  match r with
                  | (front, Some tail) => ret (pre ++ front, Some (n :: tail))
                  | (front, None) => do! MFREE n in ret (pre ++ front, None)
                  end
                else
                  let n := if has m M_EXT then n else MH_ALIGN n remain in
                  split_copy pre m post len remain n
            end
          else split_nohdr m0 pre m post len
      end
  end.

(** ** [m_devget] *)

(** The loop; [top] holds the mbufs filled so far, [m] is the header mbuf of the
    first round.  [epkt] is the end of the device buffer [buf]. *)
Fixpoint devget_loop (fuel : nat) (buf : list Z) (epkt cp totlen : Z) (top : list mbuf)
    (hdr : mbuf) : M mstate (option (list mbuf)) :=
  if 0 <? totlen then
    match fuel with
    | O => crash
    | S fuel =>
        let! m := (if top is [] then ret (Some hdr)
                   else let! m := MGET MT_DATA in
                        match m with Some m => ret (Some (set_len m MLEN)) | None => ret None end) in
        match m with
        | None => do! m_freem top in ret None
        | Some m =>
            let len := Z.min totlen (epkt - cp) in
            let! ml := (if MINCLSIZE <=? len then
                          let! m := MCLGET m in
                          if has m M_EXT then ret (set_len m (Z.min len MCLBYTES), Z.min len MCLBYTES)
                          else ret (m, m_len m)
                        else if len <? m_len m then
                          let m := if (if top is [] then true else false) &&
                                      (len + max_linkhdr <=? m_len m)
                                   then set_data m (m_data m + max_linkhdr) else m in
                          ret (set_len m len, len)
                        else ret (m, m_len m)) in
            let '(m, len) := ml in
            let! b := lift (read_bytes buf cp len) in
            let! m := m_write m 0 b in
            let cp := cp + len in
            devget_loop fuel buf epkt (if cp =? epkt then 0 else cp) (totlen - len) (top ++ [m]) hdr
        end
    end
  else ret (Some top).

Definition m_devget (buf : list Z) (totlen off0 ifp : Z) : M mstate (option (list mbuf)) :=
  let epkt := totlen in
  let '(cp, totlen) := if off0 =? 0 then (0, totlen) else (off0 + 4, totlen - 4) in
  let! m := MGETHDR MT_DATA in
  match m with
  | None => ret None
  | Some m =>
      let m := set_len (set_pktlen (set_rcvif m ifp) totlen) MHLEN in
      devget_loop (Z.to_nat totlen) buf epkt cp totlen [] m
  end.

End Layer.

(** ** Well-formed mbufs *)

(** The data lie inside the buffer in use, and behind the packet header. *)
Definition mbuf_ok (s : mstate) (m : mbuf) : Prop :=
  0 <= m_len m ∧ 0 <= m_data m ∧
  ∃ b, buffer s m = Some b ∧ m_data m + m_len m <= Z.of_nat (length b) ∧
  (has m M_EXT = false → Z.of_nat (length (m_dat m)) = MLEN ∧
                         (has m M_PKTHDR = true → 8 <= m_data m)).

(** The packet header, if there is one, holds the length of the chain. *)
Definition pkthdr_ok (ms : list mbuf) : Prop :=
  match ms with m :: _ => has m M_PKTHDR = true → pkthdr_len m = chain_len ms | [] => True end.

(** ** Lemmas *)

Lemma mbytes_length s m : mbuf_ok s m → Z.of_nat (length (mbytes s m)) = m_len m.
Proof.
  intros (H1 & H2 & b & Hb & H3 & _). unfold mbytes. rewrite Hb. simpl.
  rewrite length_take, length_drop. lia.
Qed.

Lemma bytes_cons s m ms : bytes s (m :: ms) = mbytes s m ++ bytes s ms.
Proof. done. Qed.

Lemma bytes_app s l1 l2 : bytes s (l1 ++ l2) = bytes s l1 ++ bytes s l2.
Proof. unfold bytes. by rewrite fmap_app, concat_app. Qed.

Lemma bytes_length s ms : Forall (mbuf_ok s) ms → Z.of_nat (length (bytes s ms)) = chain_len ms.
Proof.
  induction 1 as [|m ms Hm _ IH]; [done|].
  rewrite bytes_cons, length_app, Nat2Z.inj_add, IH, mbytes_length by done. done.
Qed.

Lemma chain_len_nonneg s ms : Forall (mbuf_ok s) ms → 0 <= chain_len ms.
Proof. intros H. rewrite <- (bytes_length s) by done. lia. Qed.

(** What an mbuf's data is after its first [n] bytes are trimmed, or all but its
    first [n]. *)
Lemma mbytes_trim s m n :
  mbuf_ok s m → 0 <= n <= m_len m →
  mbytes s (set_data (set_len m (m_len m - n)) (m_data m + n)) = drop (Z.to_nat n) (mbytes s m) ∧
  mbuf_ok s (set_data (set_len m (m_len m - n)) (m_data m + n)).
Proof.
  intros (H1 & H2 & b & Hb & H3 & H4) Hn. split.
  - unfold mbytes. change (buffer s (set_data _ _)) with (buffer s m). rewrite Hb. simpl.
    rewrite !take_drop_commute, drop_drop. f_equal; [lia|]. f_equal. lia.
  - split; [simpl; lia|]. split; [simpl; lia|]. exists b. simpl. split; [done|]. split; [lia|].
    intros He. destruct (H4 He) as [H5 H6]. split; [done|]. intros Hp. specialize (H6 Hp). lia.
Qed.

Lemma mbytes_cut s m n :
  mbuf_ok s m → 0 <= n <= m_len m →
  mbytes s (set_len m n) = take (Z.to_nat n) (mbytes s m) ∧ mbuf_ok s (set_len m n).
Proof.
  intros (H1 & H2 & b & Hb & H3 & H4) Hn. split.
  - unfold mbytes. change (buffer s (set_len m n)) with (buffer s m). rewrite Hb. simpl.
    rewrite take_take. f_equal. lia.
  - split; [simpl; lia|]. split; [simpl; lia|]. exists b. simpl. split; [done|]. split; [lia|]. done.
Qed.

Lemma mbytes_empty s m : mbytes s (set_len m 0) = [].
Proof. unfold mbytes. simpl. done. Qed.

Lemma adj_head_spec s ms len :
  Forall (mbuf_ok s) ms → 0 <= len →
  bytes s (adj_head ms len).1 = drop (Z.to_nat len) (bytes s ms) ∧
  Forall (mbuf_ok s) (adj_head ms len).1 ∧
  (adj_head ms len).2 = Z.max 0 (len - chain_len ms) ∧
  length (adj_head ms len).1 = length ms.
Proof.
  intros H; revert len; induction H as [|m ms Hm Hms IH]; intros len Hl; simpl.
  { split; [unfold bytes; simpl; by rewrite drop_nil|]. split; [done|]. split; [lia|done]. }
  pose proof (mbytes_length s m Hm) as Hlen. pose proof (chain_len_nonneg s ms Hms) as Hnn.
  pose proof Hm as (Hm0 & _).
  destruct (0 <? len) eqn:E1; zbool.
  2: { replace len with 0 by lia. split; [done|]. split; [by constructor|]. split; [simpl; lia|done]. }
  destruct (m_len m <=? len) eqn:E2; zbool.
  - specialize (IH (len - m_len m)). destruct (adj_head ms (len - m_len m)) as [r l]. simpl in *.
    destruct IH as (IH1 & IH2 & IH3 & IH4); [lia|].
    destruct (mbytes_cut s m 0 Hm) as [_ Hok]; [lia|].
    rewrite !bytes_cons, mbytes_empty, IH1.
    split; [rewrite drop_app_ge by lia; simpl; f_equal; lia|].
    split; [by constructor|]. split; [lia|by f_equal].
  - destruct (mbytes_trim s m len Hm) as [Hb Hok]; [lia|].
    simpl. rewrite !bytes_cons, Hb. split; [by rewrite drop_app_le by lia|].
    split; [by constructor|]. split; [lia|done].
Qed.

Lemma adj_cut_spec s ms count :
  Forall (mbuf_ok s) ms → ms ≠ [] → 0 <= count <= chain_len ms →
  ∃ r, adj_cut ms count = Some r ∧ bytes s r = take (Z.to_nat count) (bytes s ms) ∧
       Forall (mbuf_ok s) r.
Proof.
  intros H; revert count; induction H as [|m ms Hm Hms IH]; intros count Hne Hc; [done|].
  pose proof (mbytes_length s m Hm) as Hlen. pose proof Hm as (Hm0 & _). simpl in *.
  destruct (count <=? m_len m) eqn:E; zbool.
  - eexists. split; [done|]. destruct (mbytes_cut s m count Hm) as [Hb Hok]; [lia|].
    assert (Hz : bytes s ((λ m, set_len m 0) <$> ms) = []).
    { clear. induction ms as [|x ms IH]; [done|]. csimpl. by rewrite bytes_cons, mbytes_empty. }
    rewrite !bytes_cons, Hb, Hz, app_nil_r. rewrite take_app_le by lia. split; [done|].
    constructor; [done|]. apply Forall_fmap. eapply Forall_impl; [exact Hms|].
    intros x Hx. apply (mbytes_cut s x 0 Hx). destruct Hx; lia.
  - destruct ms as [|m' ms]; [simpl in *; lia|].
    destruct (IH (count - m_len m)) as (r & -> & Hr & Hok); [done|lia|].
    eexists. split; [done|]. rewrite !(bytes_cons s m), Hr. split; [|by constructor].
    rewrite take_app_ge by lia.
    by replace (Z.to_nat count - length (mbytes s m))%nat with (Z.to_nat (count - m_len m)) by lia.
Qed.

(** Changing the length in the packet header leaves the data alone. *)
Lemma mbuf_ok_pktlen s m n : mbuf_ok s m → mbuf_ok s (set_pktlen m n).
Proof. done. Qed.

Lemma if_pktlen_cases g m :
  if_pkthdr (λ m, set_pktlen m (g m)) m = m ∨ if_pkthdr (λ m, set_pktlen m (g m)) m = set_pktlen m (g m).
Proof. unfold if_pkthdr. destruct (has m M_PKTHDR); auto. Qed.

Lemma on_head_pktlen s g ms :
  let r := on_head (if_pkthdr (λ m, set_pktlen m (g m))) ms in
  bytes s r = bytes s ms ∧ (Forall (mbuf_ok s) ms → Forall (mbuf_ok s) r) ∧
  chain_len r = chain_len ms.
Proof.
  destruct ms as [|m ms]; simpl; [done|].
  destruct (if_pktlen_cases g m) as [-> | ->]; [done|].
  split; [done|]. split; [|done]. inversion_clear 1. by constructor.
Qed.

Lemma on_head_pkthdr_ok (g : mbuf → Z) ms :
  (∀ m rest, ms = m :: rest → has m M_PKTHDR = true → g m = chain_len ms) →
  pkthdr_ok (on_head (if_pkthdr (λ m, set_pktlen m (g m))) ms).
Proof.
  destruct ms as [|m ms]; simpl; [done|]. intros H. specialize (H m ms eq_refl).
  unfold if_pkthdr. destruct (has m M_PKTHDR) eqn:E; simpl.
  - intros _. rewrite H by done. done.
  - intros Hc. congruence.
Qed.

Lemma on_last_cut s ms l len :
  Forall (mbuf_ok s) ms → last ms = Some l → 0 <= len <= m_len l →
  let r := on_last (λ m, set_len m (m_len m - len)) ms in
  bytes s r = take (length (bytes s ms) - Z.to_nat len) (bytes s ms) ∧ Forall (mbuf_ok s) r ∧
  (∀ m rest, ms = m :: rest → ∃ m' rest', r = m' :: rest' ∧ m_flags m' = m_flags m ∧
     pkthdr_len m' = pkthdr_len m).
Proof.
  intros H Hl Hlen. simpl. induction H as [|m ms Hm Hms IH]; [done|].
  pose proof (mbytes_length s m Hm). destruct ms as [|m' ms].
  - injection Hl as <-. destruct (mbytes_cut s m (m_len m - len) Hm) as [Hb Hok]; [lia|].
    simpl. rewrite !bytes_cons, Hb. unfold bytes; simpl. rewrite !app_nil_r. split.
    + f_equal. lia.
    + split; [by constructor|]. intros ? ? [= <- <-]. by eexists _, _.
  - change (last (m :: m' :: ms)) with (last (m' :: ms)) in Hl. specialize (IH Hl).
    destruct IH as (IH1 & IH2 & _).
    change (on_last ?f (m :: m' :: ms)) with (m :: on_last f (m' :: ms)).
    rewrite !(bytes_cons s m), IH1, length_app. split; [|split; [by constructor|]].
    + rewrite take_app_ge; [do 2 f_equal; lia|].
      apply last_Some in Hl as [l' Hl']. rewrite Hl' in Hms |- *. rewrite bytes_app, length_app.
      apply Forall_app in Hms as [_ Hms]. inversion_clear Hms as [|? ? Hll _].
      pose proof (mbytes_length s l Hll). rewrite bytes_cons, length_app. lia.
    + intros ? ? [= <- <-]. by eexists _, _.
Qed.

Lemma adj_head_hd m ms len :
  ∃ m' rest, (adj_head (m :: ms) len).1 = m' :: rest ∧ m_flags m' = m_flags m ∧
             pkthdr_len m' = pkthdr_len m.
Proof.
  simpl. destruct (0 <? len); [|by eexists _, _]. destruct (m_len m <=? len); [|by eexists _, _].
  destruct (adj_head ms _). by eexists _, _.
Qed.

(** ** Reading and writing data *)

Lemma m_read_wp s m off n :
  mbuf_ok s m → 0 <= off → 0 <= n → off + n <= m_len m →
  wp (m_read m off n) s (λ b s', s' = s ∧ b = take (Z.to_nat n) (drop (Z.to_nat off) (mbytes s m))).
Proof.
  intros (H1 & H2 & b & Hb & H3 & _) Ho Hn Hle. unfold m_read. wp_steps.
  eapply wp_lift; [exact Hb|]. eapply wp_lift; [apply read_bytes_Some; lia|].
  split; [done|]. unfold mbytes. rewrite Hb. simpl.
  rewrite (take_drop_commute _ _ (Z.to_nat off)), take_take, !take_drop_commute, drop_drop.
  f_equal; [lia|]. f_equal. lia.
Qed.

Lemma skip_off_spec s ms off :
  Forall (mbuf_ok s) ms → 0 <= off →
  (chain_len ms < off → skip_off ms off s = Panic) ∧
  (off <= chain_len ms →
   wp (skip_off ms off) s (λ ro s', s' = s ∧ Forall (mbuf_ok s) ro.1 ∧
     drop (Z.to_nat off) (bytes s ms) = drop (Z.to_nat ro.2) (bytes s ro.1) ∧
     0 <= ro.2 ∧ (ro.1 = [] → ro.2 = 0) ∧ (∀ m rest, ro.1 = m :: rest → ro.2 <= m_len m) ∧
     chain_len ro.1 - ro.2 = chain_len ms - off ∧ (∃ pre, ms = pre ++ ro.1) ∧
     (off = 0 → ro.1 = ms))).
Proof.
  intros H; revert off; induction H as [|m ms Hm Hms IH]; intros off Ho; simpl.
  - destruct (0 <? off) eqn:E; zbool; (split; [intros|intros Hle]); try done; try lia.
    replace off with 0 by lia. wp_steps. split_and!; try done. by exists [].
  - pose proof (chain_len_nonneg s ms Hms). pose proof Hm as (Hm0 & _).
    destruct (0 <? off) eqn:E; zbool.
    + destruct (off <? m_len m) eqn:E2; zbool; (split; [intros|intros Hle]); try lia.
      * wp_steps. simpl. split_and!; try done; try lia; [by constructor| |by exists []].
        by intros ? ? [= -> ->]; lia.
      * apply IH; lia.
      * eapply wp_mono; [apply IH; lia|]. intros [r o] s' (-> & H1 & H2 & H3 & H4 & H5 & H6 & [pre H7] & H8).
        simpl in *. split_and!; try done; try lia; [|exists (m :: pre); by rewrite H7].
        rewrite <- H2, bytes_cons.
        pose proof (mbytes_length s m Hm). rewrite drop_app_ge by lia. f_equal. lia.
    + split; [lia|intros Hle]. replace off with 0 by lia. wp_steps. simpl.
      split_and!; try done; try lia; [by constructor| |by exists []]. by intros ? ? [= -> ->].
Qed.

Lemma copydata_loop_spec s ms off len :
  Forall (mbuf_ok s) ms → 0 <= off → (∀ m rest, ms = m :: rest → off <= m_len m) →
  (ms = [] → off = 0) → 0 <= len →
  copydata_loop ms off len s =
    if off + len <=? chain_len ms then Ok (take (Z.to_nat len) (drop (Z.to_nat off) (bytes s ms)), s)
    else Panic.
Proof.
  intros H; revert off len; induction H as [|m ms Hm Hms IH]; intros off len Ho Hoff Hnil Hl; simpl.
  - rewrite Hnil by done. destruct (0 <? len) eqn:E; zbool.
    + by rewrite (proj2 (Z.leb_gt _ _)) by lia.
    + replace len with 0 by lia. done.
  - pose proof (chain_len_nonneg s ms Hms). pose proof Hm as (Hm0 & _). specialize (Hoff _ _ eq_refl).
    destruct (0 <? len) eqn:E; zbool.
    2: { replace len with 0 by lia. rewrite (proj2 (Z.leb_le _ _)) by lia. done. }
    set (count := Z.min (m_len m - off) len).
    destruct (proj1 (wp_ok _ _ _) (m_read_wp s m off count Hm Ho ltac:(lia) ltac:(lia)))
      as (b & s' & Hr & -> & ->).
    unfold bind at 1. rewrite Hr. unfold bind. rewrite IH by (try done; try lia; intros; subst ms;
      inversion_clear Hms; destruct H0; lia).
    pose proof (mbytes_length s m Hm) as Hlen.
    destruct (Z.leb_spec (0 + (len - count)) (chain_len ms));
      destruct (Z.leb_spec (off + len) (m_len m + chain_len ms)); try lia; [|done].
    unfold ret. do 2 f_equal. rewrite bytes_cons. rewrite drop_app_le by lia.
    destruct (Z.leb_spec len (m_len m - off)).
    + replace (len - count) with 0 by lia. rewrite take_0, app_nil_r.
      rewrite take_app_le by (rewrite length_drop; lia). f_equal. lia.
    + rewrite (take_ge (drop _ _)) by (rewrite length_drop; lia).
      rewrite take_app_ge by (rewrite length_drop; lia). rewrite length_drop. do 2 f_equal. lia.
Qed.

(** ** What allocation and freeing leave alone *)

(** The bytes of the clusters and the set of clusters with a reference count. *)
Definition same_store (s s' : mstate) : Prop :=
  clusters s' = clusters s ∧ (cl_rc_tbl s').*1 = (cl_rc_tbl s).*1.

#[export] Instance same_store_preorder : PreOrder same_store.
Proof.
  split; [by intros s|]. intros s1 s2 s3 [H1 H2] [H3 H4]. split; congruence.
Qed.

Definition cl_known (s : mstate) (m : mbuf) : Prop :=
  has m M_EXT = true → ext_buf m ∈ (cl_rc_tbl s).*1.

Lemma mbuf_ok_store s s' m : same_store s s' → mbuf_ok s m → mbuf_ok s' m.
Proof. intros [H _]. unfold mbuf_ok, buffer. by rewrite H. Qed.

Lemma cl_known_store s s' m : same_store s s' → cl_known s m → cl_known s' m.
Proof. intros [_ H]. unfold cl_known. by rewrite H. Qed.

Lemma bytes_store s s' ms : same_store s s' → bytes s' ms = bytes s ms.
Proof.
  intros [H _]. unfold bytes. f_equal. apply list_fmap_ext. intros i m _. unfold mbytes, buffer.
  by rewrite H.
Qed.

Lemma Forall_store (P : mstate → mbuf → Prop) s s' ms :
  (∀ m, P s m → P s' m) → Forall (P s) ms → Forall (P s') ms.
Proof. intros H Hs. eapply Forall_impl; [exact Hs|]. apply H. Qed.

Lemma rc_update_known f cl t :
  cl ∈ t.*1 → ∃ c t', rc_update f cl t = Some (c, t') ∧ t'.*1 = t.*1.
Proof.
  induction t as [|[b c] t IH]; simpl; [by intros ?%elem_of_nil|].
  intros Hin. destruct (Z.eqb_spec b cl) as [->|]; [by eexists _, _|].
  apply elem_of_cons in Hin as [->|Hin]; [done|].
  destruct (IH Hin) as (c' & t' & -> & Ht). eexists _, _. split; [done|]. csimpl. by rewrite Ht.
Qed.

Lemma MCLFREE_wp s p :
  p ∈ (cl_rc_tbl s).*1 → wp (MCLFREE p) s (λ _ s', same_store s s').
Proof.
  intros Hin. unfold MCLFREE, cl_rc_decr. wp_steps.
  destruct (rc_update_known (λ c, c - 1) p _ Hin) as (c & t' & -> & Ht). wp_steps.
  destruct (c =? 0); by wp_steps.
Qed.

Lemma MFREE_wp s m : cl_known s m → wp (MFREE m) s (λ _ s', same_store s s').
Proof.
  intros Hk. unfold MFREE. wp_steps. destruct (has m M_EXT) eqn:E; [|by wp_steps].
  eapply wp_mono; [apply MCLFREE_wp; by apply Hk|]. done.
Qed.

Lemma m_freem_wp s ms : Forall (cl_known s) ms → wp (m_freem ms) s (λ _ s', same_store s s').
Proof.
  intros H; revert s H; induction ms as [|m ms IH]; intros s H; [by wp_steps|]. simpl.
  inversion_clear H. wp_steps. eapply wp_mono; [by apply MFREE_wp|]. intros [] s1 Hs1.
  eapply wp_mono; [apply IH|].
  - eapply (Forall_store cl_known s); [|done]. intros x. by apply cl_known_store.
  - intros [] s2 Hs2. by etrans.
Qed.

(** ** Flags *)

Lemma has_copyflags m f : Z.land M_COPYFLAGS f = f → ztrue (Z.land (Z.land (m_flags m) M_COPYFLAGS) f) = has m f.
Proof. intros H. unfold has. by rewrite <- Z.land_assoc, H. Qed.

Lemma has_clear_ext m : has (clear_pkthdr m) M_EXT = has m M_EXT.
Proof. unfold has, clear_pkthdr. simpl. by rewrite <- Z.land_assoc. Qed.

Lemma has_clear_pkthdr m : has (clear_pkthdr m) M_PKTHDR = false.
Proof. unfold has, clear_pkthdr. simpl. rewrite <- Z.land_assoc. by rewrite Z.land_0_r. Qed.

Lemma M_COPY_PKTHDR_flags to from :
  has (M_COPY_PKTHDR to from) M_EXT = false ∧
  has (M_COPY_PKTHDR to from) M_PKTHDR = has from M_PKTHDR.
Proof.
  unfold has, M_COPY_PKTHDR. simpl. rewrite <- !Z.land_assoc. split; [|done].
  by rewrite Z.land_0_r.
Qed.

Lemma clear_pkthdr_ok s m : mbuf_ok s m → mbuf_ok s (clear_pkthdr m) ∧ mbytes s (clear_pkthdr m) = mbytes s m.
Proof.
  unfold mbuf_ok, mbytes, buffer. rewrite has_clear_ext. simpl.
  intros (H1 & H2 & b & Hb & H3 & H4). split; [|done]. split; [done|]. split; [done|].
  exists b. split; [done|]. split; [done|]. intros He. split; [by apply H4|].
  by rewrite has_clear_pkthdr.
Qed.

Lemma clear_pkthdr_known s m : cl_known s m → cl_known s (clear_pkthdr m).
Proof. unfold cl_known. by rewrite has_clear_ext. Qed.

(** Appending to the data of an mbuf with an internal area. *)
Lemma m_append_wp s m bs :
  mbuf_ok s m → has m M_EXT = false → m_data m + m_len m + Z.of_nat (length bs) <= MLEN →
  wp (m_write m (m_len m) bs) s (λ m' s', s' = s ∧ ∃ d, m' = set_dat m d ∧
    mbytes s (set_len m' (m_len m + Z.of_nat (length bs))) = mbytes s m ++ bs ∧
    mbuf_ok s (set_len m' (m_len m + Z.of_nat (length bs)))).
Proof.
  intros (H1 & H2 & b & Hb & H3 & H4) He Hsp. unfold m_write. wp_steps.
  unfold buffer in Hb. rewrite He in Hb. injection Hb as <-. destruct (H4 He) as [Hlen Hph].
  eapply wp_lift; [unfold buffer; by rewrite He|].
  pose proof (write_bytes_Some (m_dat m) (m_data m + m_len m) bs ltac:(lia) ltac:(lia)) as Hw.
  wp_step. eapply wp_lift; [exact Hw|]. rewrite He. apply wp_ret. split; [done|].
  apply write_bytes_length in Hw. eexists. split; [done|]. split.
  - unfold mbytes, buffer. change (has (set_len _ _) M_EXT) with (has m M_EXT). rewrite He. simpl.
    rewrite drop_app_le by (rewrite length_take; lia).
    rewrite take_app_ge by (rewrite length_drop, length_take; lia).
    f_equal; [rewrite take_drop_commute; f_equal; f_equal; lia|].
    rewrite take_app_le by (rewrite length_drop, length_take; lia).
    apply take_ge. rewrite length_drop, length_take. lia.
  - split; [simpl; lia|]. split; [simpl; lia|]. eexists. split; [unfold buffer;
      change (has (set_len _ _) M_EXT) with (has m M_EXT); rewrite He; done|].
    simpl. split; [lia|]. intros _. split; [lia|done].
Qed.

Lemma set_len_known s m n : cl_known s m → cl_known s (set_len m n).
Proof. done. Qed.

Lemma cat_loop_wp s m n :
  Forall (mbuf_ok s) (m :: n) → Forall (cl_known s) n →
  wp (cat_loop m n) s (λ r s', same_store s s' ∧ bytes s r = bytes s (m :: n) ∧ Forall (mbuf_ok s) r).
Proof.
  revert s m; induction n as [|n0 n IH]; intros s m Hok Hk; simpl; [by wp_steps|].
  destruct (_ || _) eqn:E; [by wp_steps|]. zbool. wp_step.
  inversion_clear Hok as [|? ? Hm Hn]. inversion_clear Hn as [|? ? Hn0 Hns].
  inversion_clear Hk as [|? ? Hk0 Hks]. pose proof Hn0 as (Hl0 & _).
  pose proof (mbytes_length s n0 Hn0) as Hlen.
  eapply wp_mono; [apply m_read_wp; [done|lia|lia|lia]|]. intros b s0 [-> ->]. wp_step.
  rewrite drop_0, take_ge by lia.
  eapply wp_mono; [apply m_append_wp; [done|done|lia]|].
  intros m1 s0 (-> & d & -> & Hb1 & Hok1). rewrite Hlen in *. wp_step.
  eapply wp_mono; [by apply MFREE_wp|]. intros [] s1 Hs1.
  change (m_len (set_dat m d)) with (m_len m).
  eapply wp_mono; [apply IH|].
  - eapply (Forall_store mbuf_ok s); [|by constructor]. intros x. by apply mbuf_ok_store.
  - eapply (Forall_store cl_known s); [|done]. intros x. by apply cl_known_store.
  - intros r s2 (Hs2 & Hb2 & Hok2). split; [by etrans|].
    assert (Hs10 : same_store s1 s) by (destruct Hs1; by split).
    rewrite !(bytes_store s s1) in Hb2 by done. split.
    + rewrite Hb2, !bytes_cons, Hb1. by rewrite <- app_assoc.
    + eapply (Forall_store mbuf_ok s1); [|done]. intros x. by apply mbuf_ok_store.
Qed.

Lemma m_cat_wp s ms n :
  ms ≠ [] → Forall (mbuf_ok s) (ms ++ n) → Forall (cl_known s) n →
  wp (m_cat ms n) s (λ r s', same_store s s' ∧ bytes s r = bytes s (ms ++ n) ∧ Forall (mbuf_ok s) r).
Proof.
  intros Hne Hok Hk; induction ms as [|m ms IH]; [done|]. destruct ms as [|m' ms].
  - by apply cat_loop_wp.
  - change (m_cat (m :: m' :: ms) n) with (let! r := m_cat (m' :: ms) n in ret (m :: r)).
    inversion_clear Hok. wp_step. eapply wp_mono; [by apply IH|].
    intros r s' (Hs & Hb & Hr). wp_steps. split; [done|]. split; [|by constructor].
    by rewrite bytes_cons, Hb.
Qed.

Definition internal (m : mbuf) : Prop := has m M_EXT = false.

Lemma internal_known s m : internal m → cl_known s m.
Proof. unfold internal, cl_known. intros ->. done. Qed.

Lemma split_find_spec s ms len :
  Forall (mbuf_ok s) ms → ms ≠ [] → 0 <= len <= chain_len ms →
  ∃ pre x post l, split_find ms len = Some (pre, x, post, l) ∧ ms = pre ++ x :: post ∧
    0 <= l <= m_len x ∧ len = chain_len pre + l.
Proof.
  intros H; revert len; induction H as [|m ms Hm Hms IH]; intros len Hne Hl; [done|]. simpl in *.
  pose proof Hm as (Hm0 & _). destruct (m_len m <? len) eqn:E; zbool.
  - destruct ms as [|m' ms]; [simpl in *; lia|].
    destruct (IH (len - m_len m)) as (pre & x & post & l & -> & Hms' & Hl' & Hlen); [done|lia|].
    exists (m :: pre), x, post, l. split; [done|]. rewrite Hms'. split; [done|]. simpl. lia.
  - exists [], m, ms, len. split; [done|]. split; [done|]. simpl. lia.
Qed.

(** The two halves of a chain cut inside the mbuf [x]. *)
Lemma split_bytes s pre x post l :
  Forall (mbuf_ok s) (pre ++ [x]) → 0 <= l <= m_len x →
  take (Z.to_nat (chain_len pre + l)) (bytes s (pre ++ x :: post)) =
    bytes s pre ++ take (Z.to_nat l) (mbytes s x) ∧
  drop (Z.to_nat (chain_len pre + l)) (bytes s (pre ++ x :: post)) =
    drop (Z.to_nat l) (mbytes s x) ++ bytes s post.
Proof.
  intros [Hpre Hx]%Forall_app Hl. apply Forall_cons in Hx as [Hx _].
  pose proof (bytes_length s pre Hpre) as Hlp. pose proof (mbytes_length s x Hx) as Hlx.
  rewrite bytes_app, bytes_cons. split.
  - rewrite take_app_ge by lia. f_equal. rewrite take_app_le by lia. f_equal. lia.
  - rewrite drop_app_ge by lia. rewrite drop_app_le by lia. do 2 f_equal. lia.
Qed.

Lemma on_head_set_pktlen s n ms :
  bytes s (on_head (λ h, set_pktlen h n) ms) = bytes s ms ∧
  (Forall (mbuf_ok s) ms → Forall (mbuf_ok s) (on_head (λ h, set_pktlen h n) ms)) ∧
  (Forall internal ms → Forall internal (on_head (λ h, set_pktlen h n) ms)).
Proof.
  destruct ms as [|m ms]; simpl; [done|]. split; [done|].
  split; inversion_clear 1; by constructor.
Qed.

Lemma round_down_range n : 0 <= n → 0 <= round_down n <= n.
Proof.
  intros Hn. unfold round_down. change 3 with (Z.ones 2). rewrite <- Z.ldiff_land, Z.ldiff_ones_r by lia.
  rewrite Z.shiftr_div_pow2, Z.shiftl_mul_pow2 by lia. change (2 ^ 2) with 4.
  pose proof (Z.div_mod n 4). pose proof (Z.mod_pos_bound n 4). lia.
Qed.

Section Correct.
Context (max_linkhdr max_protohdr : Z) (drain : mstate → mstate).
Context (junk cljunk : list Z) (junk_len : Z).
(** Draining the protocols frees mbufs; a fresh mbuf has [MLEN] bytes. *)
Context (drain_ok : ∀ s, same_store s (drain s)).
Context (junk_ok : Z.of_nat (length junk) = MLEN).
Context (proto_ok : 0 <= max_protohdr).

Lemma mget_wp s m :
  wp (mget drain m) s (λ r s', same_store s s' ∧ (r = Some m ∨ r = None) ∧
    (oracle s = [] → r = Some m ∧ oracle s' = [])).
Proof using drain_ok.
  unfold mget, malloc, m_reclaim. wp_steps. destruct (oracle s) as [|[] o] eqn:E; wp_steps;
    [by split_and!; auto..|]. simpl.
  set (s1 := with_drain _ _).
  assert (Hs : same_store s s1) by (apply (drain_ok (with_oracle o (brk s) s))).
  destruct (oracle (drain _)) as [|[] o1]; wp_steps; (split; [done|]); (split; [by auto|done]).
Qed.

(** The data moved by the loop of [m_pullup]. *)
Lemma pullup_loop_wp fuel s m n len :
  mbuf_ok s m → has m M_EXT = false → Forall (mbuf_ok s) n → Forall (cl_known s) n → n ≠ [] →
  (length n <= fuel)%nat → 0 <= len → m_data m + m_len m + len <= MLEN →
  wp (pullup_loop max_protohdr fuel m n len (MLEN - (m_data m + m_len m))) s
    (λ r s', let '(m', n', len') := r in
      same_store s s' ∧ bytes s (m' :: n') = bytes s (m :: n) ∧ Forall (mbuf_ok s) (m' :: n') ∧
      Forall (cl_known s) n' ∧ m_flags m' = m_flags m ∧ pkthdr_len m' = pkthdr_len m ∧
      rcvif m' = rcvif m ∧ m_len m' + len' = m_len m + len ∧ (0 < len' → n' = [])).
Proof using proto_ok.
  clear junk_ok. revert s m n len. induction fuel as [|fuel IH]; intros s m n len Hm He Hn Hk Hne Hf Hl Hsp.
  { destruct n; [done|simpl in Hf; lia]. }
  destruct n as [|n0 n]; [done|]. simpl.
  inversion_clear Hn as [|? ? Hn0 Hns]. inversion_clear Hk as [|? ? Hk0 Hks].
  pose proof Hn0 as (Hn00 & _). pose proof (mbytes_length s n0 Hn0) as Hlen0.
  set (count := Z.min _ (m_len n0)). assert (Hc : 0 <= count <= m_len n0) by lia. wp_step.
  eapply wp_mono; [apply m_read_wp; [done|lia|lia|lia]|]. intros b s0 [-> ->].
  rewrite drop_0. set (b := take _ _).
  assert (Hb : Z.of_nat (length b) = count) by (unfold b; rewrite length_take; lia). wp_step.
  eapply wp_mono; [apply m_append_wp; [done|done|rewrite Hb; lia]|].
  intros m1 s0 (-> & d & -> & Hm1 & Hok1). rewrite Hb in Hm1, Hok1.
  change (m_len (set_dat m d)) with (m_len m). set (m1 := set_len _ _) in *.
  change (m_len (set_len n0 _)) with (m_len n0 - count).
  destruct (m_len n0 - count =? 0) eqn:E0; zbool; simpl negb; wp_steps.
  - (* the mbuf is used up *)
    eapply wp_mono; [by apply MFREE_wp|]. intros [] s1 Hs1. wp_steps.
    assert (Hbn : b = mbytes s n0) by (apply take_ge; lia).
    destruct n as [|n1 n].
    { wp_steps. split_and!; try done; [| |simpl; lia].
      - rewrite !bytes_cons, Hm1, Hbn. by rewrite <- app_assoc.
      - by constructor. }
    destruct (0 <? len - count) eqn:E1; zbool.
    + replace (MLEN - (m_data m + m_len m) - count) with (MLEN - (m_data m1 + m_len m1)) by (simpl; lia).
      eapply wp_mono; [apply IH|].
      * eapply mbuf_ok_store; done.
      * done.
      * eapply (Forall_store mbuf_ok s); [|done]. intros x. by apply mbuf_ok_store.
      * eapply (Forall_store cl_known s); [|done]. intros x. by apply cl_known_store.
      * done.
      * simpl in *. lia.
      * lia.
      * simpl; lia.
      * intros [[m' n'] len'] s2 (H1 & H2 & H3 & H4 & H5 & H6 & H7 & H8 & H9).
        assert (Hs10 : same_store s1 s) by (destruct Hs1; by split).
        rewrite !(bytes_store s s1) in H2 by done.
        split_and!; try done.
        -- by etrans.
        -- rewrite H2, !bytes_cons, Hm1, Hbn. by rewrite <- app_assoc.
        -- eapply (Forall_store mbuf_ok s1); [|done]. intros x. by apply mbuf_ok_store.
        -- eapply (Forall_store cl_known s1); [|done]. intros x. by apply cl_known_store.
        -- simpl in *. lia.
    + wp_steps. split_and!; try done; [| |simpl; lia|lia].
      * rewrite !bytes_cons, Hm1, Hbn. by rewrite <- app_assoc.
      * by constructor.
  - assert (len <= count) by lia. rewrite (proj2 (Z.ltb_ge _ _)) by lia. wp_steps.
    destruct (mbytes_trim s n0 count Hn0 Hc) as [Hb2 Hok2].
    split_and!; try done; [| |by constructor|simpl; lia|lia].
    + rewrite !bytes_cons, Hm1. change (set_data (set_len n0 (m_len n0 - count)) _) with
        (set_data (set_len n0 (m_len n0 - count)) (m_data n0 + count)).
      rewrite Hb2, <- app_assoc. f_equal. rewrite app_assoc. f_equal. unfold b. apply take_drop.
    + constructor; [done|]. by constructor.
Qed.

(** Both ways into the loop end the same. *)
Lemma pullup_into_wp s m n len :
  mbuf_ok s m → has m M_EXT = false → Forall (mbuf_ok s) n → Forall (cl_known s) n → n ≠ [] →
  0 <= len → m_data m + m_len m + len <= MLEN →
  wp (pullup_into max_protohdr m n len) s (λ r s', same_store s s' ∧
    match r with
    | Some r => bytes s r = bytes s (m :: n) ∧ Forall (mbuf_ok s) r ∧ Forall (cl_known s) r ∧
        ∃ m' n', r = m' :: n' ∧ m_flags m' = m_flags m ∧ pkthdr_len m' = pkthdr_len m ∧
                 m_len m + len <= m_len m'
    | None => chain_len n < len
    end).
Proof using proto_ok.
  clear junk_ok. intros Hm He Hn Hk Hne Hl Hsp. unfold pullup_into. wp_step.
  eapply wp_mono; [by apply pullup_loop_wp; auto|].
  intros [[m' n'] len'] s' (H1 & H2 & H3 & H4 & H5 & H6 & H7 & H8 & H9).
  destruct (0 <? len') eqn:E; zbool; wp_steps.
  - assert (Hk' : cl_known s' m').
    { unfold cl_known, has. rewrite H5. unfold has in He. by rewrite He. }
    eapply wp_mono; [by apply MFREE_wp|]. intros [] s1 Hs1. wp_steps.
    rewrite (H9 E). simpl. wp_steps. split; [by etrans; [|etrans]|].
    assert (Hlen : chain_len (m' :: n') = chain_len (m :: n)).
    { rewrite <- !(bytes_length s), H2 by (try done; by constructor). done. }
    rewrite (H9 E) in Hlen. simpl in Hlen. lia.
  - split; [done|]. split; [done|]. split; [done|]. split; [constructor; [|done]|].
    { unfold cl_known, has. rewrite H5. unfold has in He. by rewrite He. }
    exists m', n'. split_and!; try done. lia.
Qed.

Lemma fresh_ok s m :
  m_len m = 0 → m_dat m = junk → has m M_EXT = false →
  0 <= m_data m <= MLEN → (has m M_PKTHDR = true → 8 <= m_data m) → mbuf_ok s m ∧ mbytes s m = [].
Proof using junk_ok.
  intros Hl Hj He Hd Hp. split; [|unfold mbytes; by rewrite Hl].
  split; [lia|]. split; [lia|]. exists junk. unfold buffer. rewrite He, Hj, Hl, junk_ok.
  split; [done|]. split; [lia|]. done.
Qed.

(** What [m_pullup] promises for the chain [n0 :: rest]: either the same bytes with
    the first [len] of them in the first mbuf, every mbuf well formed and the
    packet header kept; or null, for one of three reasons. *)
Definition pullup_post (s : mstate) (n0 : mbuf) (rest : list mbuf) (len : Z)
    (r : option (list mbuf)) (s' : mstate) : Prop :=
  same_store s s' ∧
  match r with
  | Some r => bytes s' r = bytes s (n0 :: rest) ∧ Forall (mbuf_ok s') r ∧ Forall (cl_known s') r ∧
      ∃ m' n', r = m' :: n' ∧ len <= m_len m' ∧ has m' M_EXT = false ∧ has m' M_PKTHDR = has n0 M_PKTHDR ∧
               (has n0 M_PKTHDR = true → pkthdr_len m' = pkthdr_len n0)
  | None => chain_len (n0 :: rest) < len ∨ MHLEN < len ∨ oracle s ≠ []
  end.

Lemma pullup_bad_post s s1 n0 rest len :
  Forall (cl_known s) (n0 :: rest) → same_store s s1 → MHLEN < len ∨ oracle s ≠ [] →
  wp (pullup_bad (n0 :: rest)) s1 (pullup_post s n0 rest len).
Proof.
  clear. intros Hk Hs1 Hwhy. unfold pullup_bad. wp_step. eapply wp_mono; [apply m_freem_wp|].
  - eapply (Forall_store cl_known s); [|done]. intros x. by apply cl_known_store.
  - intros [] s2 Hs2. wp_steps. split; [|by right]. etrans; [exact Hs1|]. done.
Qed.

(** Pulling the chain [n1 :: rest] into [m], where [m] holds the first bytes. *)
Lemma pullup_into_post s s1 n0 rest len m n1 :
  same_store s s1 → mbuf_ok s m → has m M_EXT = false →
  Forall (mbuf_ok s) n1 → Forall (cl_known s) n1 → n1 ≠ [] →
  bytes s (m :: n1) = bytes s (n0 :: rest) → chain_len (m :: n1) = chain_len (n0 :: rest) →
  m_len m <= len → m_data m + len <= MLEN →
  has m M_PKTHDR = has n0 M_PKTHDR → (has n0 M_PKTHDR = true → pkthdr_len m = pkthdr_len n0) →
  wp (pullup_into max_protohdr m n1 (len - m_len m)) s1 (pullup_post s n0 rest len).
Proof using proto_ok.
  clear junk_ok. intros Hs Hm He Hn Hk Hne Hb Hcl Hl Hsp Hp Hpl.
  eapply wp_mono; [apply pullup_into_wp; try done; try lia|].
  - by eapply mbuf_ok_store.
  - eapply (Forall_store mbuf_ok s); [|done]. intros x. by apply mbuf_ok_store.
  - eapply (Forall_store cl_known s); [|done]. intros x. by apply cl_known_store.
  - intros [r|] s' [Hs' H]; (split; [by etrans|]).
    + destruct H as (Hb1 & Hok1 & Hk1 & m' & n' & -> & Hf & Hpl1 & Hle).
      rewrite !(bytes_store s1 s'), Hb1, (bytes_store s s1) by done. split; [done|].
      split; [eapply (Forall_store mbuf_ok s1); [|done]; intros x; by apply mbuf_ok_store|].
      split; [eapply (Forall_store cl_known s1); [|done]; intros x; by apply cl_known_store|].
      exists m', n'. split; [done|]. split; [lia|]. unfold has in *. rewrite Hf, Hpl1. done.
    + left. simpl in Hcl |- *. lia.
Qed.

Lemma m_pullup_spec s n0 rest len :
  Forall (mbuf_ok s) (n0 :: rest) → Forall (cl_known s) (n0 :: rest) → 0 <= len →
  wp (m_pullup max_protohdr drain junk junk_len (n0 :: rest) len) s (pullup_post s n0 rest len).
Proof using drain_ok junk_ok proto_ok.
  intros Hok Hk Hl. pose proof Hok as Hok'. inversion_clear Hok' as [|? ? H0 Hr].
  pose proof Hk as Hk'. inversion_clear Hk' as [|? ? Hk0 Hkr]. unfold m_pullup.
  destruct (_ && _) eqn:E1.
  - apply andb_true_iff in E1 as [E1 E3]. apply andb_true_iff in E1 as [E1 E2]. zbool.
    destruct (len <=? m_len n0) eqn:E4; zbool.
    + wp_steps. split; [done|]. split; [done|]. split; [done|]. split; [done|]. exists n0, rest. split_and!; try done.
    + apply pullup_into_post; try done; [by destruct rest|lia|lia].
  - destruct (MHLEN <? len) eqn:E2; zbool; [apply pullup_bad_post; auto; done|].
    wp_step. eapply wp_mono; [by apply mget_wp|]. intros r s1 (Hs1 & [-> | ->] & Hor);
      [|apply pullup_bad_post; [done|done|]; right; intros Ho; by destruct (Hor Ho)].
    unfold MHLEN in E2. destruct (has n0 M_PKTHDR) eqn:Ep.
    + set (m := M_COPY_PKTHDR _ _).
      destruct (M_COPY_PKTHDR_flags (set_len (MB junk_len 0 (m_type n0) 0 0 0 0 0 junk) 0) n0) as [Hc1 Hc2].
      destruct (fresh_ok s m) as [Hmok Hmb]; [done..|].
      destruct (clear_pkthdr_ok s n0 H0) as [Hn1 Hn1b].
      replace len with (len - m_len m) at 1 by (simpl; lia).
      apply pullup_into_post; try done; try (simpl; lia).
      * by constructor.
      * constructor; [by apply clear_pkthdr_known|done].
      * by rewrite !bytes_cons, Hmb, Hn1b.
    + set (m := set_len _ 0). destruct (fresh_ok s m) as [Hmok Hmb]; [done..|].
      replace len with (len - m_len m) at 1 by (simpl; lia).
      apply pullup_into_post; try done; try (simpl; lia). by rewrite Ep.
Qed.

(** C21: [m_pullup] for any length a protocol may ask for: when it succeeds the
    first [len] bytes of the packet are contiguous in the first mbuf, which is not a
    cluster, the packet has the same bytes, every mbuf is well formed with its cluster counted, and the
    packet header is that of the chain.  It returns null only if the packet is shorter than [len], [len]
    is over [MHLEN] or the host's [malloc] fails; the loop always ends. *)
Theorem m_pullup_correct s n0 rest len :
  Forall (mbuf_ok s) (n0 :: rest) → Forall (cl_known s) (n0 :: rest) → 0 <= len →
  wp (m_pullup max_protohdr drain junk junk_len (n0 :: rest) len) s (pullup_post s n0 rest len).
Proof using drain_ok junk_ok proto_ok. apply m_pullup_spec. Qed.

(** Filling a fresh mbuf. *)
Lemma m_fill_wp s m b :
  m_dat m = junk → has m M_EXT = false → m_len m = Z.of_nat (length b) → 0 <= m_data m →
  m_data m + m_len m <= MLEN → (has m M_PKTHDR = true → 8 <= m_data m) →
  wp (m_write m 0 b) s (λ m' s', s' = s ∧ ∃ d, m' = set_dat m d ∧ mbytes s m' = b ∧ mbuf_ok s m').
Proof using junk_ok.
  intros Hj He Hl H0 Hle Hp. unfold m_write. wp_steps.
  eapply wp_lift; [unfold buffer; by rewrite He, Hj|]. wp_step.
  pose proof (write_bytes_Some junk (m_data m + 0) b ltac:(lia) ltac:(lia)) as Hw.
  eapply wp_lift; [exact Hw|]. rewrite He. wp_step. split; [done|]. eexists. split; [done|].
  apply write_bytes_length in Hw. split.
  - unfold mbytes, buffer. change (has (set_dat m _) M_EXT) with (has m M_EXT). rewrite He. simpl.
    rewrite drop_app_ge, length_take by (rewrite length_take; lia).
    replace (_ - _)%nat with 0%nat by lia. rewrite drop_0, Hl, Nat2Z.id. by apply take_app_length.
  - split; [simpl; lia|]. split; [done|]. eexists. unfold buffer.
    change (has (set_dat m _) M_EXT) with (has m M_EXT). rewrite He. simpl.
    split; [done|]. rewrite Hw, junk_ok. split; [lia|]. done.
Qed.

(** What is copied: everything from [off] on, or [len] bytes. *)
Definition copied (len : Z) (bs : list Z) : list Z :=
  if len =? M_COPYALL then bs else take (Z.to_nat len) bs.

Lemma copied_app off len l1 l2 :
  0 <= off <= Z.of_nat (length l1) → 0 <= len <= M_COPYALL → Z.of_nat (length l1) <= M_COPYALL →
  let count := Z.min len (Z.of_nat (length l1) - off) in
  copied len (drop (Z.to_nat off) (l1 ++ l2)) =
    take (Z.to_nat count) (drop (Z.to_nat off) l1) ++
    copied (if len =? M_COPYALL then len else len - count) l2.
Proof.
  clear. intros Hoff Hl Hall count. unfold copied. rewrite drop_app_le by lia.
  destruct (Z.eqb_spec len M_COPYALL) as [->|Hne].
  { rewrite Z.eqb_refl. by rewrite (take_ge (drop _ _)) by (rewrite length_drop; lia). }
  rewrite (proj2 (Z.eqb_neq (len - count) _)) by lia. rewrite take_app, length_drop.
  f_equal; [|f_equal; lia].
  destruct (Z.le_ge_cases len (Z.of_nat (length l1) - off)); [f_equal; lia|].
  rewrite !take_ge by (rewrite length_drop; lia). done.
Qed.

(** The target mbuf of [m_copym]. *)
Lemma copy_target copyhdr m x :
  (copyhdr = true → has m M_PKTHDR = true) →
  let f := MB junk_len 0 (m_type m) 0 0 0 0 0 junk in
  let n := if copyhdr : bool then set_pktlen (M_COPY_PKTHDR f m) x else f in
  m_dat n = junk ∧ has n M_EXT = false ∧
  (m_data n = 0 ∧ has n M_PKTHDR = false ∨ m_data n = 8 ∧ has m M_PKTHDR = true).
Proof.
  clear. intros Hhdr. destruct copyhdr; simpl.
  - split; [done|]. split; [|right; auto].
    apply (M_COPY_PKTHDR_flags (MB junk_len 0 (m_type m) 0 0 0 0 0 junk) m).
  - split; [done|]. split; [done|by left].
Qed.

Lemma copym_loop_wp s ms off0 off len copyhdr :
  Forall (mbuf_ok s) ms → Forall internal ms → 0 <= off →
  (∀ m rest, ms = m :: rest → off <= m_len m ∧ (copyhdr = true → has m M_PKTHDR = true)) →
  (ms = [] → off = 0) → 0 <= len → len = M_COPYALL ∨ len < M_COPYALL ∧ off + len <= chain_len ms →
  wp (copym_loop drain junk junk_len ms off0 off len copyhdr) s (λ r s', same_store s s' ∧
    Forall (mbuf_ok s) r.1 ∧ Forall internal r.1 ∧
    if r.2 then bytes s r.1 = copied len (drop (Z.to_nat off) (bytes s ms)) else oracle s ≠ []).
Proof using drain_ok junk_ok.
  revert s off len copyhdr; induction ms as [|m ms IH]; intros s off len copyhdr Hok Hin H0 Hoff Hnil Hl Hlen.
  { simpl. rewrite (Hnil eq_refl). unfold copied. simpl in Hlen. rewrite (Hnil eq_refl) in Hlen.
    destruct Hlen as [-> | Hlen]; [by wp_steps|]. replace len with 0 by lia. by wp_steps. }
  inversion_clear Hok as [|? ? Hm Hms]. inversion_clear Hin as [|? ? Hi His].
  destruct (Hoff _ _ eq_refl) as [Hoffm Hhdr]. pose proof (mbytes_length s m Hm) as Hml.
  simpl. destruct (0 <? len) eqn:E; zbool.
  2: { wp_steps. unfold copied. replace len with 0 by lia. done. }
  wp_step. eapply wp_mono; [apply mget_wp|]. intros r s1 (Hs1 & [-> | ->] & Hor).
  2: { wp_steps. split_and!; try done. intros Ho. by destruct (Hor Ho). }
  set (x := if len =? M_COPYALL then _ else len).
  destruct (copy_target copyhdr m x Hhdr) as (T1 & T2 & T3).
  set (n := if copyhdr then _ else _) in *.
  rewrite Hi. set (count := Z.min len (m_len m - off)).
  assert (Hm1 : mbuf_ok s1 m) by by eapply mbuf_ok_store.
  pose proof Hm as (Hm0 & Hmd & bf & Hbf & Hbl & Hbi). specialize (Hbi Hi) as [Hbi Hbp].
  unfold buffer in Hbf. rewrite Hi in Hbf. injection Hbf as <-.
  wp_step. eapply wp_mono; [apply m_read_wp; [done|lia|simpl; lia|simpl; lia]|].
  intros b s0 [-> ->]. simpl. fold count. set (b := take _ _).
  assert (Hb : Z.of_nat (length b) = count).
  { unfold b, mbytes, buffer. rewrite Hi. simpl. rewrite length_take, length_drop, length_take, length_drop. lia. }
  wp_step. eapply wp_mono; [apply m_fill_wp|].
  - done.
  - done.
  - by rewrite Hb.
  - simpl. lia.
  - simpl. destruct T3 as [[-> _]|[-> Hp]]; [lia|]. specialize (Hbp Hp). lia.
  - simpl. destruct T3 as [[_ T3]|[-> _]]; [|lia]. unfold has in *. simpl. congruence.
  - intros n1 s0 (-> & d & -> & Hn1 & Hok1). wp_step.
    change (m_len (set_dat (set_len n count) d)) with count.
    eapply wp_mono; [apply IH|].
    + eapply (Forall_store mbuf_ok s); [|done]. intros y. by apply mbuf_ok_store.
    + done.
    + lia.
    + intros y rest ->. inversion_clear Hms as [|? ? Hy _]. destruct Hy. split; [lia|done].
    + done.
    + ifs; lia.
    + simpl in Hlen. pose proof (chain_len_nonneg s ms Hms). ifs; [by left|right].
      destruct Hlen as [Hlen|Hlen]; [done|]. lia.
    + assert (Hs10 : same_store s1 s) by (destruct Hs1; by split).
      intros r s2 (Hs2 & Hr1 & Hr2 & Hr3). wp_steps. simpl. split; [by etrans|].
      split; [constructor; [by eapply mbuf_ok_store|];
        eapply (Forall_store mbuf_ok s1); [|done]; intros y; by apply mbuf_ok_store|].
      split; [by constructor|]. destruct (r.2).
      * rewrite <- !(bytes_store s s1), !bytes_cons, Hn1, Hr3, drop_0 by done.
        pose proof (mbytes_length s1 m Hm1) as Hml1.
        rewrite (copied_app off len) by (unfold M_COPYALL, MLEN, MSIZE in *; lia).
        by rewrite Hml1.
      * intros Ho. destruct (Hor Ho) as [_ Ho1]. done.
Qed.

(** [m_copym] with the flags of the copy. *)
Lemma m_copym_spec s ms off0 len :
  ms ≠ [] → Forall (mbuf_ok s) ms → Forall internal ms → 0 <= off0 <= chain_len ms → 0 <= len →
  len = M_COPYALL ∨ len < M_COPYALL ∧ off0 + len <= chain_len ms →
  wp (m_copym drain junk junk_len ms off0 len) s (λ r s', same_store s s' ∧ Forall (mbuf_ok s') r ∧ Forall internal r ∧
    (bytes s' r = copied len (drop (Z.to_nat off0) (bytes s ms)) ∨ r = [] ∧ oracle s ≠ [])).
Proof using drain_ok junk_ok.
  intros Hne Hok Hin Ho Hl Hlen. unfold m_copym.
  rewrite (proj2 (Z.ltb_ge off0 0)), (proj2 (Z.ltb_ge len 0)) by lia. simpl. wp_step.
  assert (Hhd : wp (if off0 =? 0 then match ms with m :: _ => ret (has m M_PKTHDR) | [] => crash end
                    else ret false) s (λ c s', s' = s ∧ (c = true → off0 = 0 ∧
                      ∃ m rest, ms = m :: rest ∧ has m M_PKTHDR = true))).
  { destruct (Z.eqb_spec off0 0); [|by wp_steps]. destruct ms as [|m ms]; [done|]. wp_steps.
    split; [done|]. intros Hp. split; [done|]. by exists m, ms. }
  eapply wp_mono; [exact Hhd|]. intros copyhdr s0 [-> Hh]. wp_step.
  eapply wp_mono; [apply (skip_off_spec s ms off0); [done|lia|lia]|].
  intros [ms' off] s0 (-> & H1 & H2 & H3 & H4 & H5 & H6 & [pre H7] & H8). simpl in *. wp_step.
  assert (Hin' : Forall internal ms') by (rewrite H7 in Hin; by apply Forall_app in Hin as [_ ?]).
  eapply wp_mono; [apply copym_loop_wp; try done; [|lia]|].
  { intros m rest E. split; [by eapply H5|]. intros Hc. destruct (Hh Hc) as [-> (m' & r' & Hm' & Hp)].
    rewrite H8 in E by done. congruence. }
  intros [r ok] s1 (Hs1 & R1 & R2 & R3). simpl in *.
  assert (Hmono : ∀ l, Forall (mbuf_ok s) l → ∀ s2, same_store s s2 → Forall (mbuf_ok s2) l).
  { intros l Hl1 s2 Hs2. eapply (Forall_store mbuf_ok s); [|done]. intros y. by apply mbuf_ok_store. }
  destruct ok; wp_step.
  - eapply wp_mono; [instantiate (1 := λ _ s', same_store s s'); destruct r; by wp_steps|].
    intros [] s2 Hs2. wp_steps. split; [done|]. split; [by apply Hmono|]. split; [done|]. left.
    by rewrite (bytes_store s s2), R3, H2.
  - eapply wp_mono; [apply m_freem_wp|].
    { eapply Forall_impl; [exact R2|]. intros m. apply internal_known. }
    intros [] s2 Hs2. wp_steps. split; [by etrans|]. split; [done|]. split; [done|]. by right.
Qed.

(** C24: [m_copym] of a packet without clusters copies the [len] bytes from
    [off0] on, or all of them for [M_COPYALL], into fresh well-formed mbufs; it
    returns null, with the mbufs freed, only if the host's [malloc] fails. *)
Theorem m_copym_correct s ms off0 len :
  ms ≠ [] → Forall (mbuf_ok s) ms → Forall internal ms → 0 <= off0 <= chain_len ms → 0 <= len →
  len = M_COPYALL ∨ len < M_COPYALL ∧ off0 + len <= chain_len ms →
  wp (m_copym drain junk junk_len ms off0 len) s (λ r s', same_store s s' ∧ Forall (mbuf_ok s') r ∧
    (bytes s' r = copied len (drop (Z.to_nat off0) (bytes s ms)) ∨ r = [] ∧ oracle s ≠ [])).
Proof using drain_ok junk_ok.
  intros Hne Hok Hin Ho Hl Hlen. eapply wp_mono; [by apply m_copym_spec|]. intros r s' (H1 & H2 & _ & H3). done.
Qed.

(** Cutting the mbuf [m] of [pre ++ m :: post], with [n] fresh for its tail. *)
Lemma split_copy_wp s pre m post len n :
  Forall (mbuf_ok s) (pre ++ m :: post) → internal m → 0 <= len <= m_len m →
  m_dat n = junk → has n M_EXT = false → 0 <= m_data n → m_data n + (m_len m - len) <= MLEN →
  (has n M_PKTHDR = true → 8 <= m_data n) →
  wp (split_copy pre m post len (m_len m - len) n) s (λ r s', s' = s ∧
    ∃ tail, r.2 = Some tail ∧ bytes s r.1 = bytes s pre ++ take (Z.to_nat len) (mbytes s m) ∧
      bytes s tail = drop (Z.to_nat len) (mbytes s m) ++ bytes s post ∧
      Forall (mbuf_ok s) (r.1 ++ tail)).
Proof using junk_ok.
  intros Hok Hi Hl Hj He H0 Hsp Hp. apply Forall_app in Hok as [Hpre Hok].
  inversion_clear Hok as [|? ? Hm Hpost]. pose proof (mbytes_length s m Hm) as Hlm.
  unfold split_copy. rewrite Hi. wp_step.
  eapply wp_mono; [apply m_read_wp; [done|lia|lia|lia]|]. intros b s0 [-> ->]. wp_step.
  rewrite take_ge by (rewrite length_drop; lia). set (b := drop _ _).
  assert (Hb : Z.of_nat (length b) = m_len m - len) by (unfold b; rewrite length_drop; lia).
  pose proof (m_fill_wp s (set_len n (m_len m - len)) b Hj He) as Hf. simpl in Hf.
  specialize (Hf (eq_sym Hb) H0 Hsp Hp).
  assert (Hw : ∀ Q : mbuf → mstate → Prop, (∀ d, mbytes s (set_len (set_dat n d) (m_len m - len)) = b →
    mbuf_ok s (set_len (set_dat n d) (m_len m - len)) → Q (set_dat n d) s) → wp (m_write n 0 b) s Q).
  { intros Q HQ. revert Hf. unfold m_write, wp, bind, get, lift, buffer, ret.
    change (has (set_len n _) M_EXT) with (has n M_EXT). rewrite He. simpl.
    destruct (write_bytes _ _ _); simpl; [|done]. intros (_ & d & [= ->] & Hd1 & Hd2). by apply HQ. }
  apply Hw. intros d Hd1 Hd2. wp_steps. split; [done|]. eexists. split; [done|]. simpl.
  destruct (mbytes_cut s m len Hm Hl) as [Hc1 Hc2].
  rewrite bytes_app, !bytes_cons, Hc1, Hd1. unfold bytes at 2. simpl. rewrite app_nil_r.
  split; [done|]. split; [done|]. rewrite !Forall_app. split; [split; [done|by constructor]|by constructor].
Qed.

(** What a split at [cut] promises: the two halves of the bytes, or no tail and the
    same bytes, because memory ran out or there is nothing after the cut. *)
Definition split_post (s : mstate) (m0 : list mbuf) (cut : Z)
    (r : list mbuf * option (list mbuf)) (s' : mstate) : Prop :=
  same_store s s' ∧ Forall (mbuf_ok s) (r.1 ++ default [] r.2) ∧
  match r.2 with
  | Some tail => bytes s r.1 = take (Z.to_nat cut) (bytes s m0) ∧
                 bytes s tail = drop (Z.to_nat cut) (bytes s m0)
  | None => bytes s r.1 = bytes s m0 ∧ (oracle s ≠ [] ∨ cut = chain_len m0)
  end.

Lemma chain_len_app l1 l2 : chain_len (l1 ++ l2) = chain_len l1 + chain_len l2.
Proof. clear. induction l1 as [|m l1 IH]; simpl; [done|]. lia. Qed.

Lemma split_copy_post s s1 pre m post len n :
  same_store s s1 → Forall (mbuf_ok s) (pre ++ m :: post) → internal m → 0 <= len <= m_len m →
  m_dat n = junk → has n M_EXT = false → 0 <= m_data n → m_data n + (m_len m - len) <= MLEN →
  (has n M_PKTHDR = true → 8 <= m_data n) →
  wp (split_copy pre m post len (m_len m - len) n) s1
    (λ r s', split_post s (pre ++ m :: post) (chain_len pre + len) r s' ∧ r.2 ≠ None).
Proof using junk_ok.
  intros Hs Hok Hi Hl Hj He H0 Hsp Hp. assert (Hs' : same_store s1 s) by (destruct Hs; by split).
  eapply wp_mono; [apply split_copy_wp; try done|].
  { eapply (Forall_store mbuf_ok s); [|done]. intros x. by apply mbuf_ok_store. }
  intros [front tl] s2 (-> & tail & Ht & Hb1 & Hb2 & Hok2). simpl in *. subst tl. split; [|done].
  destruct (split_bytes s pre m post len) as [Hs1 Hs2]; [|done|].
  { rewrite (cons_middle m pre post), app_assoc in Hok. by apply Forall_app in Hok as [? _]. }
  split; [done|]. simpl. split; [eapply (Forall_store mbuf_ok s1); [|done]; intros x; by apply mbuf_ok_store|].
  rewrite Hs1, Hs2, <- !(bytes_store s s1), Hb1, Hb2 by done. unfold mbytes, buffer.
  destruct Hs as [-> _]. done.
Qed.

Lemma split_nohdr_wp s s1 pre m post len :
  same_store s s1 → (oracle s = [] → oracle s1 = []) →
  Forall (mbuf_ok s) (pre ++ m :: post) → internal m → 0 <= len <= m_len m →
  wp (split_nohdr drain junk junk_len (pre ++ m :: post) pre m post len) s1
    (split_post s (pre ++ m :: post) (chain_len pre + len)).
Proof using drain_ok junk_ok.
  intros Hs Ho Hok Hi Hl. unfold split_nohdr. destruct (_ =? 0) eqn:E; zbool.
  - wp_steps. destruct (split_bytes s pre m post len) as [Hs1 Hs2]; [|done|].
    { rewrite (cons_middle m pre post), app_assoc in Hok. by apply Forall_app in Hok as [? _]. }
    assert (Hm : mbuf_ok s m) by (apply Forall_app in Hok as [_ Hok]; by inversion Hok).
    pose proof (mbytes_length s m Hm) as Hlm.
    rewrite (take_ge (mbytes s m)) in Hs1 by lia. rewrite (drop_ge (mbytes s m)) in Hs2 by lia. split; [done|]. simpl.
    destruct post as [|p post]; simpl.
    + rewrite app_nil_r. split; [done|]. split; [done|]. right. rewrite chain_len_app. simpl. lia.
    + rewrite <- app_assoc. split; [done|]. rewrite Hs1, Hs2, bytes_app. split; [|done].
      f_equal. unfold bytes. simpl. by rewrite app_nil_r.
  - wp_step. eapply wp_mono; [apply mget_wp|]. intros r s2 (Hs2 & [-> | ->] & Hor).
    + assert (Hm : mbuf_ok s m) by (apply Forall_app in Hok as [_ Hok]; by inversion Hok).
      destruct Hm as (Hm0 & Hmd & bf & Hbf & Hbl & Hbi). specialize (Hbi Hi) as [Hbi _].
      unfold buffer in Hbf. rewrite Hi in Hbf. injection Hbf as <-.
      pose proof (round_down_range (MLEN - (m_len m - len)) ltac:(lia)).
      eapply wp_mono; [apply (split_copy_post s); try done; [by etrans|simpl; lia|simpl; lia]|].
      by intros r s3 [? _].
    + wp_steps. split; [by etrans|]. simpl. rewrite app_nil_r. split; [done|]. split; [done|].
      left. intros Ho1. by destruct (Hor (Ho Ho1)).
Qed.

Lemma setlen_last n pre m :
  let m' := default m (last (on_head (λ h, set_pktlen h n) (pre ++ [m]))) in
  m' = m ∨ m' = set_pktlen m n.
Proof.
  clear. destruct pre as [|p pre]; [by right|]. left. cbn [on_head app].
  by rewrite app_comm_cons, last_snoc.
Qed.

Lemma mbuf_internal_len s m :
  mbuf_ok s m → internal m → m_len m <= MLEN ∧ (has m M_PKTHDR = true → m_len m <= MHLEN).
Proof.
  clear. intros (Hm0 & Hmd & bf & Hbf & Hbl & Hbi) Hi. specialize (Hbi Hi) as [Hbi Hp].
  unfold buffer in Hbf. rewrite Hi in Hbf. injection Hbf as <-. split; [lia|].
  intros Hph. specialize (Hp Hph). unfold MHLEN. lia.
Qed.

Lemma split_post_prefix s pre ms l n r s' :
  Forall (mbuf_ok s) pre → mbuf_ok s n → mbytes s n = [] → 0 <= l → split_post s ms l r s' →
  split_post s (pre ++ ms) (chain_len pre + l) (pre ++ r.1, (n ::.) <$> r.2) s'.
Proof.
  clear. intros Hpre Hn Hb Hl (H1 & H2 & H3). pose proof (bytes_length s pre Hpre) as Hlp.
  split; [done|]. apply Forall_app in H2 as [H21 H22].
  destruct r as [front [tail|]]; simpl in *.
  - split; [rewrite !Forall_app; split; [by split|by constructor]|].
    rewrite !bytes_app, bytes_cons, Hb. destruct H3 as [-> H3]. simpl. rewrite H3.
    rewrite take_app_ge, drop_app_ge by lia. split; [f_equal; f_equal; lia|f_equal; lia].
  - split; [rewrite !Forall_app; done|]. rewrite !bytes_app, chain_len_app.
    destruct H3 as [-> H3]. split; [done|]. destruct H3; [by left|right; lia].
Qed.

(** [m_split] of a packet without clusters at [len0]: the chain keeps the
    first [len0] bytes and the rest is returned.  When null is returned the chain
    still has all its bytes, and either memory ran out or nothing follows the
    cut.  For a packet with a header the code relies on a fresh mbuf having the
    length 0, which it never sets. *)
Theorem m_split_correct s h rest len0 :
  (has h M_PKTHDR = true → junk_len = 0) →
  Forall (mbuf_ok s) (h :: rest) → Forall internal (h :: rest) →
  0 <= len0 <= chain_len (h :: rest) → len0 < 4294967296 →
  wp (m_split drain junk junk_len (h :: rest) len0) s (split_post s (h :: rest) len0).
Proof using drain_ok junk_ok.
  intros Hjl Hok Hin Hl Hl32. unfold m_split.
  rewrite u32_id by (unfold is_u32; lia). set (ms := h :: rest) in *.
  destruct (split_find_spec s ms len0 Hok ltac:(done) Hl) as (pre & m & post & l & -> & Hms & Hll & ->).
  assert (Him : internal m) by (rewrite Hms in Hin; apply Forall_app in Hin as [_ Hin]; by inversion Hin).
  clearbody ms. subst ms. destruct (has h M_PKTHDR); [specialize (Hjl eq_refl)|by apply split_nohdr_wp].
  wp_step. eapply wp_mono; [apply mget_wp|]. intros r s1 (Hs1 & [-> | ->] & Hor).
  2: { wp_steps. split; [done|]. simpl. rewrite app_nil_r. split; [done|]. split; [done|].
       left. intros Ho. by destruct (Hor Ho). }
  set (len0 := chain_len pre + l) in *. set (n := set_pktlen _ (pkthdr_len h - len0)).
  destruct (on_head_set_pktlen s len0 pre) as (P1 & P2 & _).
  pose proof (setlen_last len0 pre m) as Hm'. set (m' := default m _) in *.
  set (pre' := on_head _ pre) in *.
  assert (Hm's : mbytes s m' = mbytes s m ∧ (mbuf_ok s m → mbuf_ok s m') ∧ m_len m' = m_len m ∧
    internal m' ∧ (has m' M_PKTHDR = has m M_PKTHDR)) by by destruct Hm' as [-> | ->].
  destruct Hm's as (M1 & M2 & M3 & M4 & M5). rewrite M4. clearbody m' pre'.
  apply Forall_app in Hok as [Hpre Hok]. inversion_clear Hok as [|? ? Hm Hpost].
  assert (Hok' : Forall (mbuf_ok s) (pre' ++ m' :: post)).
  { apply Forall_app. split; [by apply P2|]. constructor; [by apply M2|done]. }
  assert (Hb' : bytes s (pre' ++ m' :: post) = bytes s (pre ++ m :: post)).
  { by rewrite !bytes_app, !bytes_cons, P1, M1. }
  assert (Hcl : chain_len pre' = chain_len pre).
  { rewrite <- !(bytes_length s), P1 by auto. done. }
  pose proof (mbuf_internal_len s m Hm Him) as [Hml Hmp].
  rewrite <- M3. destruct (MHLEN <? m_len m' - l) eqn:E; zbool; simpl.
  - rewrite M5. destruct (has m M_PKTHDR) eqn:Ep; [specialize (Hmp eq_refl); unfold MHLEN in *; lia|].
    wp_step. eapply wp_mono; [apply (split_nohdr_wp s s1 [] m' post l); try done|].
    + intros Ho. by apply Hor.
    + by apply Forall_app in Hok' as [_ ?].
    + lia.
    + intros [front tl] s2 (Hs2 & Hok2 & H2). simpl in *.
      destruct (fresh_ok s (MH_ALIGN n 0)) as [Hn Hnb]; [done..|].
      pose proof (split_post_prefix s pre' (m' :: post) l (MH_ALIGN n 0) (front, tl) s2
        (P2 Hpre) Hn Hnb ltac:(lia) (conj Hs2 (conj Hok2 H2))) as (G1 & G2 & G3).
      simpl in G2, G3. rewrite Hcl, Hb' in G3. fold len0 in G3.
      destruct tl as [tail|]; [by wp_steps|].
      wp_step. eapply wp_mono; [by apply MFREE_wp|]. intros [] s3 Hs3. wp_steps.
      split; [by etrans|]. split; [done|]. simpl. destruct G3 as [G3 G4]. split; [done|].
      destruct G4; [by left|right]. rewrite chain_len_app in *. simpl in *. lia.
  - eapply wp_mono; [apply (split_copy_post s s1 pre' m' post l); try done|].
    + lia.
    + simpl. pose proof (round_down_range (MHLEN - (m_len m' - l))). lia.
    + simpl. pose proof (round_down_range (MHLEN - (m_len m' - l))). unfold MHLEN in *. lia.
    + simpl. pose proof (round_down_range (MHLEN - (m_len m' - l))). lia.
    + intros [front tl] s2 [(H1 & H2 & H3) H4]. split; [done|]. split; [done|].
      rewrite Hb', Hcl in H3. by destruct tl.
Qed.

(** The chain with [plen] bytes in front, the packet header as before. *)
Definition prepend_post (s : mstate) (m : mbuf) (rest : list mbuf) (plen : Z) (r : list mbuf) : Prop :=
  ∃ m1 rest1, r = m1 :: rest1 ∧ Forall (mbuf_ok s) r ∧
    drop (Z.to_nat plen) (bytes s r) = bytes s (m :: rest) ∧
    has m1 M_PKTHDR = has m M_PKTHDR ∧ (has m M_PKTHDR = true → pkthdr_len m1 = pkthdr_len m) ∧
    plen <= m_len m1.

(** Making room inside the mbuf. *)
Lemma prepend_inside s m rest plen :
  Forall (mbuf_ok s) (m :: rest) → 0 <= plen → plen <= M_LEADINGSPACE m →
  prepend_post s m rest plen (set_len (set_data m (m_data m - plen)) (m_len m + plen) :: rest).
Proof.
  clear. intros Hok Hl E. inversion_clear Hok as [|? ? Hm Hr]. set (m1 := set_len _ _).
  assert (Hm1 : mbuf_ok s m1).
  { destruct Hm as (Hm0 & Hmd & bf & Hbf & Hbl & Hbi). unfold M_LEADINGSPACE in E.
    assert (plen <= m_data m) by (destruct (has m M_EXT), (has m M_PKTHDR); lia).
    split; [simpl; lia|]. split; [simpl; lia|]. exists bf. split; [done|]. split; [simpl; lia|].
    intros Hi. change (has m1 M_EXT) with (has m M_EXT) in Hi. rewrite Hi in E.
    destruct (Hbi Hi) as [Hbl1 Hbp]. split; [done|].
    change (has m1 M_PKTHDR) with (has m M_PKTHDR). intros Hp. rewrite Hp in E. simpl. lia. }
  destruct (mbytes_trim s m1 plen Hm1) as [Hb _]; [destruct Hm; simpl; lia|].
  assert (Hmm : set_data (set_len m1 (m_len m1 - plen)) (m_data m1 + plen) = m).
  { destruct m. unfold m1, set_data, set_len. simpl. f_equal; lia. }
  rewrite Hmm in Hb. exists m1, rest. split; [done|]. split; [by constructor|].
  pose proof (mbytes_length s m1 Hm1) as Hlm1. split_and!; try done.
  - rewrite !bytes_cons, Hb, drop_app_le; [done|]. destruct Hm; simpl in *; lia.
  - destruct Hm. simpl. lia.
Qed.

(** Making room in the fresh mbuf [mn], followed by the old chain. *)
Lemma prepend_fresh s mn m m2 rest plen :
  0 <= plen <= MHLEN → m_dat mn = junk → has mn M_EXT = false → 0 <= m_data mn <= 8 →
  (has mn M_PKTHDR = true → 8 <= m_data mn) →
  Forall (mbuf_ok s) (m2 :: rest) → mbytes s m2 = mbytes s m →
  has mn M_PKTHDR = has m M_PKTHDR → (has m M_PKTHDR = true → pkthdr_len mn = pkthdr_len m) →
  prepend_post s m rest plen
    (set_len (if plen <? MHLEN then MH_ALIGN mn plen else mn) plen :: m2 :: rest).
Proof using junk_ok.
  intros Hl Hj He Hd Hp Hm2 Hb2 Hph Hpl. pose proof (round_down_range (MHLEN - plen) ltac:(lia)) as Hrd.
  set (m1 := set_len _ _).
  assert (H1 : m_dat m1 = junk ∧ m_flags m1 = m_flags mn ∧ pkthdr_len m1 = pkthdr_len mn ∧
    m_data mn <= m_data m1 <= MLEN - plen).
  { unfold m1. simpl. destruct (_ <? _) eqn:E; zbool; simpl; split_and!; try done; unfold MHLEN in *; lia. }
  destruct H1 as (D1 & D2 & D3 & D4). unfold has in *. rewrite <- D2 in He, Hp, Hph.
  assert (Hm1 : mbuf_ok s m1).
  { split; [simpl; lia|]. split; [lia|]. exists junk. unfold buffer, has. rewrite He, D1.
    split; [done|]. rewrite junk_ok. change (m_len m1) with plen. split; [lia|].
    intros _. split; [done|]. intros Hx. specialize (Hp Hx). lia. }
  pose proof (mbytes_length s m1 Hm1) as Hlm1. change (m_len m1) with plen in Hlm1.
  exists m1, (m2 :: rest). split; [done|]. split; [by constructor|]. split_and!.
  - rewrite !bytes_cons, Hb2, drop_app_ge by lia. by replace (_ - _)%nat with 0%nat by lia.
  - done.
  - intros Hx. rewrite D3. auto.
  - done.
Qed.

Lemma prepend_core s m rest plen :
  Forall (mbuf_ok s) (m :: rest) → Forall (cl_known s) (m :: rest) → 0 <= plen <= MHLEN →
  wp (if plen <=? M_LEADINGSPACE m
      then ret (Some (set_len (set_data m (m_data m - plen)) (m_len m + plen) :: rest))
      else m_prepend drain junk junk_len (m :: rest) plen) s (λ r s', same_store s s' ∧
    match r with Some r => prepend_post s m rest plen r | None => oracle s ≠ [] end).
Proof using drain_ok junk_ok.
  intros Hok Hk Hl. pose proof Hok as Hok'. inversion_clear Hok' as [|? ? Hm Hr].
  destruct (plen <=? M_LEADINGSPACE m) eqn:E; zbool.
  { wp_steps. split; [done|]. apply prepend_inside; [done|lia|done]. }
  unfold m_prepend. wp_step. eapply wp_mono; [apply mget_wp|]. intros r s1 (Hs1 & [-> | ->] & Hor).
  2: { wp_step. eapply wp_mono; [apply m_freem_wp|].
       - eapply (Forall_store cl_known s); [|done]. intros x. by apply cl_known_store.
       - intros [] s2 Hs2. wp_steps. split; [by etrans|]. intros Ho. by destruct (Hor Ho). }
  set (fresh := MB _ _ _ _ _ _ _ _ _). destruct (has m M_PKTHDR) eqn:Ep.
  - destruct (M_COPY_PKTHDR_flags fresh m) as [F1 F2]. destruct (clear_pkthdr_ok s m Hm).
    wp_step. split; [done|]. apply prepend_fresh; try done. by constructor.
  - wp_step. split; [done|]. apply prepend_fresh; try done. by rewrite Ep.
Qed.

(** Prepending [plen] bytes with [M_PREPEND]: the packet gains [plen] bytes in
    front, contiguous in its first mbuf, and its header, if it has one, the new
    length; null only if the host's [malloc] fails. *)
Theorem M_PREPEND_correct s m rest plen :
  Forall (mbuf_ok s) (m :: rest) → Forall (cl_known s) (m :: rest) → pkthdr_ok (m :: rest) →
  0 <= plen <= MHLEN →
  wp (M_PREPEND drain junk junk_len (m :: rest) plen) s (λ r s', same_store s s' ∧
    match r with
    | Some r => drop (Z.to_nat plen) (bytes s' r) = bytes s (m :: rest) ∧ Forall (mbuf_ok s') r ∧
        pkthdr_ok r ∧ chain_len r = chain_len (m :: rest) + plen ∧
        ∃ m' rest', r = m' :: rest' ∧ plen <= m_len m' ∧ has m' M_PKTHDR = has m M_PKTHDR
    | None => oracle s ≠ []
    end).
Proof using drain_ok junk_ok.
  intros Hok Hk Hp Hl. unfold M_PREPEND. wp_step.
  eapply wp_mono; [by apply prepend_core|]. intros [r|] s1 [Hs1 H]; [|by wp_steps].
  destruct H as (m1 & rest1 & -> & H1 & H2 & H3 & H4 & H5). wp_step. split; [done|].
  change (if has m1 M_PKTHDR then _ else m1) with (if_pkthdr (λ x, set_pktlen x (pkthdr_len x + plen)) m1).
  destruct (on_head_pktlen s1 (λ x, pkthdr_len x + plen) (m1 :: rest1)) as (B1 & B2 & B3).
  cbn [on_head] in B1, B2, B3. rewrite B1, B3, (bytes_store s s1) by done.
  assert (Hc : chain_len (m1 :: rest1) = chain_len (m :: rest) + plen).
  { rewrite <- !(bytes_length s), <- H2, length_drop by done. inversion_clear H1.
    rewrite bytes_cons, length_app. pose proof (mbytes_length s m1 ltac:(done)). lia. }
  split; [done|]. split.
  { apply B2. eapply (Forall_store mbuf_ok s); [|done]. intros x. by apply mbuf_ok_store. }
  split; [|split; [done|]].
  - apply (on_head_pkthdr_ok (λ x, pkthdr_len x + plen) (m1 :: rest1)).
    intros x y [= <- <-] Hx. rewrite Hc. simpl in Hp. rewrite H4, Hp by congruence. done.
  - eexists _, _. split; [done|].
    by destruct (if_pktlen_cases (λ x, pkthdr_len x + plen) m1) as [-> | ->].
Qed.

(** [m_cat] appends the second chain to the first: the bytes of the result
    are those of both, whether the data are copied into the last mbuf of the
    first chain or the chains are joined. *)
Theorem m_cat_correct s ms n :
  ms ≠ [] → Forall (mbuf_ok s) (ms ++ n) → Forall (cl_known s) n →
  wp (m_cat ms n) s (λ r s', same_store s s' ∧ bytes s' r = bytes s ms ++ bytes s n ∧
    Forall (mbuf_ok s') r).
Proof.
  clear. intros Hne Hok Hk. eapply wp_mono; [by apply m_cat_wp|]. intros r s' (Hs & Hb & Hr).
  split; [done|]. rewrite (bytes_store s), Hb, bytes_app by done. split; [done|].
  eapply (Forall_store mbuf_ok s); [|done]. intros x. by apply mbuf_ok_store.
Qed.

End Correct.

(** *** Allocation that never fails

    [keeps m]: the calls in [m] leave an allocator that always succeeds as it is. *)

Definition keeps {A} (m : M mstate A) : Prop := ∀ s, wlp m s (λ _ s', oracle s = [] → oracle s' = []).

Lemma keeps_ret {A} (a : A) : keeps (ret a).
Proof. by intros s H. Qed.

Lemma keeps_crash {A} : keeps (@crash mstate A).
Proof. by intros s. Qed.

Lemma keeps_panic {A} : keeps (@panic mstate A).
Proof. by intros s. Qed.

Lemma keeps_get : keeps get.
Proof. by intros s H. Qed.

Lemma keeps_lift {A} (o : option A) : keeps (lift o).
Proof. destruct o; [by intros s H|by intros s]. Qed.

Lemma keeps_modify f : (∀ s, oracle (f s) = oracle s) → keeps (modify f).
Proof. intros H s E. simpl. by rewrite H. Qed.

Lemma keeps_bind {A B} (m : M mstate A) (f : A → M mstate B) : keeps m → (∀ a, keeps (f a)) → keeps (bind m f).
Proof.
  intros Hm Hf s. apply wlp_bind. eapply wlp_mono; [apply Hm|]. intros a s1 H1.
  eapply wlp_mono; [apply Hf|]. simpl. auto.
Qed.

Create HintDb keeps.
#[local] Hint Resolve keeps_ret keeps_crash keeps_panic keeps_get keeps_lift : keeps.

Lemma m_write_keeps m off bs : keeps (m_write m off bs).
Proof.
  intros s. unfold m_write, wlp, bind, get, lift, put, ret. destruct (buffer s m); [|done]. simpl.
  destruct (write_bytes _ _ _); [|done]. simpl. by destruct (has m M_EXT).
Qed.

Lemma m_read_keeps m off n : keeps (m_read m off n).
Proof. unfold m_read. apply keeps_bind; [auto with keeps|]. intros s. apply keeps_bind; auto with keeps. Qed.

Lemma MFREE_keeps m : keeps (MFREE m).
Proof.
  unfold MFREE. apply keeps_bind; [by apply keeps_modify|]. intros _. destruct (has m M_EXT); [|auto with keeps].
  unfold MCLFREE. apply keeps_bind.
  - intros s. unfold cl_rc_decr, wlp, bind, get, put, ret. by destruct (rc_update _ _ _) as [[]|].
  - intros c. destruct (c =? 0); [by apply keeps_modify|auto with keeps].
Qed.

Lemma m_freem_keeps ms : keeps (m_freem ms).
Proof. induction ms; simpl; [auto with keeps|]. apply keeps_bind; [apply MFREE_keeps|done]. Qed.

Lemma mget_keeps drain m : keeps (mget drain m).
Proof.
  intros s. unfold wlp. destruct (oracle s) as [|b o] eqn:E; [|by destruct (mget drain m s) as [[]| |]].
  unfold mget, malloc, bind, get, ret, modify. rewrite E. intros _. exact E.
Qed.

Lemma skip_off_keeps ms : ∀ off, keeps (skip_off ms off).
Proof.
  induction ms as [|m ms IH]; intros off; simpl; destruct (0 <? off); auto with keeps.
  destruct (off <? m_len m); auto with keeps.
Qed.

Lemma copym_loop_keeps drain junk junk_len ms : ∀ off0 off len c, keeps (copym_loop drain junk junk_len ms off0 off len c).
Proof.
  induction ms as [|m ms IH]; intros off0 off len c; simpl; destruct (0 <? len); auto with keeps.
  - destruct (len =? M_COPYALL); auto with keeps.
  - apply keeps_bind; [apply mget_keeps|]. intros [n|]; [|auto with keeps]. destruct (has m M_EXT); [auto with keeps|].
    apply keeps_bind; [apply m_read_keeps|]. intros b. apply keeps_bind; [apply m_write_keeps|]. intros n'.
    apply keeps_bind; [apply IH|]. auto with keeps.
Qed.

Lemma m_copym_keeps drain junk junk_len ms off len : keeps (m_copym drain junk junk_len ms off len).
Proof.
  unfold m_copym. destruct (_ || _); [auto with keeps|]. apply keeps_bind.
  { destruct (off =? 0); [destruct ms|]; auto with keeps. }
  intros c. apply keeps_bind; [apply skip_off_keeps|]. intros so. apply keeps_bind; [apply copym_loop_keeps|].
  intros [r []]; simpl.
  - apply keeps_bind; [destruct r; [by apply keeps_modify|auto with keeps]|]. auto with keeps.
  - apply keeps_bind; [apply m_freem_keeps|]. intros _. apply keeps_bind; [by apply keeps_modify|]. auto with keeps.
Qed.

Lemma pullup_loop_keeps max_protohdr fuel : ∀ m n len space, keeps (pullup_loop max_protohdr fuel m n len space).
Proof.
  induction fuel as [|fuel IH]; intros m [|n0 rest] len space; [auto with keeps..|]. cbn [pullup_loop].
  apply keeps_bind; [apply m_read_keeps|]. intros b. apply keeps_bind; [apply m_write_keeps|]. intros m'. cbv zeta.
  apply keeps_bind; [destruct (negb _); [auto with keeps|apply keeps_bind; [apply MFREE_keeps|auto with keeps]]|].
  intros [|n1 n]; [auto with keeps|]. destruct (0 <? _); [apply IH|auto with keeps].
Qed.

Lemma m_pullup_keeps max_protohdr drain junk junk_len n len : keeps (m_pullup max_protohdr drain junk junk_len n len).
Proof.
  assert (Hbad : ∀ n, keeps (pullup_bad n)).
  { intros n'. unfold pullup_bad. apply keeps_bind; [apply m_freem_keeps|]. intros _. apply keeps_bind; [by apply keeps_modify|]. auto with keeps. }
  assert (Hinto : ∀ m n len, keeps (pullup_into max_protohdr m n len)).
  { intros m' n' len'. unfold pullup_into. apply keeps_bind; [apply pullup_loop_keeps|]. intros [[m1 n1] l1].
    destruct (0 <? l1); [|auto with keeps]. apply keeps_bind; [apply MFREE_keeps|]. intros _.
    apply keeps_bind; [apply m_freem_keeps|]. intros _. apply keeps_bind; [by apply keeps_modify|]. auto with keeps. }
  unfold m_pullup. destruct n as [|n0 rest]; [auto with keeps|]. destruct (_ && _); [destruct (_ <=? _); auto with keeps|].
  destruct (MHLEN <? len); [done|]. apply keeps_bind.
  { unfold MGET. apply mget_keeps. }
  intros [m|]; [|done]. by destruct (has n0 M_PKTHDR).
Qed.


(** ** Properties *)

(** [m_adj] in both directions. *)
Lemma m_adj_spec s ms n :
  Forall (mbuf_ok s) ms → pkthdr_ok ms →
  ∃ r, m_adj ms n = Some r ∧
    bytes s r = (if 0 <=? n then drop (Z.to_nat n) (bytes s ms)
                 else take (length (bytes s ms) - Z.to_nat (- n)) (bytes s ms)) ∧
    Forall (mbuf_ok s) r ∧ pkthdr_ok r.
Proof.
  intros Hms Hp. destruct ms as [|m ms].
  { exists []. split; [done|]. unfold bytes; simpl. destruct (0 <=? n); simpl.
    - by rewrite drop_nil.
    - done. }
  unfold m_adj. pose proof (bytes_length s _ Hms) as Hlen. destruct (0 <=? n) eqn:E; zbool.
  - destruct (adj_head_spec s _ n Hms E) as (H1 & H2 & H3 & _).
    destruct (adj_head_hd m ms n) as (m' & rest & Hhd & Hfl & Hpl).
    destruct (adj_head (m :: ms) n) as [r len]. simpl fst in *; simpl snd in *. subst len.
    eexists. split; [done|].
    destruct (on_head_pktlen s (λ x, pkthdr_len x - (n - Z.max 0 (n - chain_len (m :: ms)))) r)
      as (Hb & Hok & _).
    rewrite Hb, H1. split; [done|]. split; [auto|]. apply on_head_pkthdr_ok.
    intros m0 rest0 -> Hm0. injection Hhd as -> ->. unfold has in *. rewrite Hfl in Hm0.
    rewrite Hpl, Hp by done. rewrite <- (bytes_length s _ H2), H1, length_drop. lia.
  - destruct (last (m :: ms)) as [l|] eqn:Hl; [|by apply last_None in Hl].
    destruct (- n <=? m_len l) eqn:E2; zbool.
    + destruct (on_last_cut s _ l (- n) Hms Hl) as (H1 & H2 & H3); [lia|].
      eexists. split; [done|].
      destruct (on_head_pktlen s (λ m, pkthdr_len m - - n)
        (on_last (λ m, set_len m (m_len m - - n)) (m :: ms))) as (Hb & Hok & _).
      rewrite Hb, H1. split; [done|]. split; [auto|]. apply on_head_pkthdr_ok.
      intros m0 rest0 Hr Hm0. destruct (H3 m ms eq_refl) as (m' & rest' & Hr' & Hfl & Hpl).
      rewrite Hr in Hr'. injection Hr' as <- <-. unfold has in *. rewrite Hfl in Hm0.
      rewrite Hpl, Hp, <- (bytes_length s _ H2), H1, length_take by done.
      apply last_Some in Hl as [l' Hl']. rewrite Hl' in Hms, Hlen |- *.
      apply Forall_app in Hms as [_ Hms]. inversion_clear Hms as [|? ? Hll _].
      pose proof (mbytes_length s l Hll). rewrite bytes_app, bytes_cons, !length_app in *. lia.
    + pose proof (chain_len_nonneg s _ Hms).
      set (count := Z.max 0 (chain_len (m :: ms) - - n)).
      destruct (on_head_pktlen s (λ _, count) (m :: ms)) as (Hb & Hok & Hcl).
      destruct (adj_cut_spec s _ count (Hok Hms)) as (r & Hr & Hbr & Hokr); [done| |].
      { rewrite Hcl. unfold count. lia. }
      exists r. split; [done|]. rewrite Hbr, Hb. split; [f_equal; unfold count; lia|].
      split; [done|]. cbn [on_head adj_cut] in Hr.
      assert (Hc : chain_len r = count).
      { rewrite <- (bytes_length s r), Hbr, Hb, length_take by done. unfold count. lia. }
      destruct r as [|m0 r]; [done|]. intros Hm0. unfold pkthdr_ok. rewrite Hc.
      unfold if_pkthdr in Hr. destruct (has m M_PKTHDR) eqn:Em.
      * destruct (count <=? _); [by injection Hr as <- _|].
        destruct (adj_cut ms _); [by injection Hr as <- _|done].
      * destruct (count <=? _); [injection Hr as <- _; unfold has in *; simpl in *; congruence|].
        destruct (adj_cut ms _); [injection Hr as <- _; unfold has in *; congruence|done].
Qed.

(** [m_adj] removes exactly the requested bytes: from the front of the
    packet for a non-negative argument, from its end for a negative one, all of
    them if there are fewer.  The chain stays well formed and the length in the
    packet header stays the length of the chain. *)
Theorem m_adj_correct s ms n :
  Forall (mbuf_ok s) ms → pkthdr_ok ms →
  ∃ r, m_adj ms n = Some r ∧
    bytes s r = (if 0 <=? n then drop (Z.to_nat n) (bytes s ms)
                 else take (length (bytes s ms) - Z.to_nat (- n)) (bytes s ms)) ∧
    Forall (mbuf_ok s) r ∧ pkthdr_ok r.
Proof. apply m_adj_spec. Qed.

(** [m_copydata] delivers exactly the [len] bytes from [off] on, and panics in
    every other case: a negative argument or a range that leaves the packet. *)
Theorem m_copydata_correct s ms off len :
  Forall (mbuf_ok s) ms →
  m_copydata ms off len s =
    if (0 <=? off) && (0 <=? len) && (off + len <=? chain_len ms)
    then Ok (take (Z.to_nat len) (drop (Z.to_nat off) (bytes s ms)), s) else Panic.
Proof.
  intros Hok. unfold m_copydata.
  destruct (Z.ltb_spec off 0), (Z.ltb_spec len 0); simpl;
    [by rewrite (proj2 (Z.leb_gt 0 off)) by lia..| |].
  { by rewrite (proj2 (Z.leb_gt 0 len)), andb_false_r by lia. }
  rewrite (proj2 (Z.leb_le 0 off)), (proj2 (Z.leb_le 0 len)) by lia. simpl.
  destruct (skip_off_spec s ms off Hok) as [H1 H2]; [done|].
  destruct (Z.leb_spec off (chain_len ms)).
  - destruct (proj1 (wp_ok _ _ _) (H2 ltac:(done))) as ([r o] & s' & Hr & -> & R1 & R2 & R3 & R4 & R5 & R6 & _).
    unfold bind. rewrite Hr. simpl in *. rewrite copydata_loop_spec by done. rewrite R2.
    destruct (Z.leb_spec (o + len) (chain_len r)), (Z.leb_spec (off + len) (chain_len ms)); try lia; done.
  - unfold bind. rewrite H1 by done. by rewrite (proj2 (Z.leb_gt _ _)) by lia.
Qed.

(** [m_copym] of any data in a cluster stores through the pointer [mclrefcnt],
    which the port never sets, instead of counting the reference. *)
Theorem m_copym_cluster_crash drain junk junk_len s m rest off len :
  oracle s = [] → has m M_EXT = true → 0 <= off < m_len m → 0 < len →
  m_copym drain junk junk_len (m :: rest) off len s = Crash.
Proof.
  intros Ho He Hoff Hl. unfold m_copym.
  rewrite (proj2 (Z.ltb_ge off 0)), (proj2 (Z.ltb_ge len 0)) by lia. cbn [orb].
  assert (Hc : ∀ o c, copym_loop drain junk junk_len (m :: rest) off o len c s = Crash).
  { intros o c. simpl. rewrite (proj2 (Z.ltb_lt 0 len)) by lia.
    unfold MGET, mget, malloc, bind, get, ret, modify. rewrite Ho. by rewrite He. }
  assert (Hs : skip_off (m :: rest) off s = Ok ((m :: rest, off), s)).
  { simpl. destruct (0 <? off); [|done]. by rewrite (proj2 (Z.ltb_lt off _)) by lia. }
  unfold bind, ret. destruct (off =? 0); rewrite Hs; cbn [fst snd]; by rewrite Hc.
Qed.

(** ** Examples *)

Definition ex_state : mstate := MS ∅ [] 0 [] 0 0 ∅ 0 0 0 [] 0.
Definition ex_head : mbuf := MB 40 8 MT_DATA M_PKTHDR 148 0 0 0 (replicate 108 1).
Definition ex_tail : mbuf := MB 108 0 MT_DATA 0 0 0 0 0 (replicate 108 2).
Definition ex_chain : list mbuf := [ex_head; ex_tail].

Lemma ex_chain_ok : Forall (mbuf_ok ex_state) ex_chain.
Proof.
  repeat constructor; try done; eexists; (split; [reflexivity|]); split; try done; by vm_compute.
Qed.

Lemma ex_chain_known : Forall (cl_known ex_state) ex_chain.
Proof. by repeat constructor. Qed.

Lemma ex_chain_internal : Forall internal ex_chain.
Proof. by repeat constructor. Qed.

Lemma ex_junk_ok : Z.of_nat (length (replicate 108 0)) = MLEN.
Proof. done. Qed.

Lemma m_pullup_correct_witness :
  wp (m_pullup 40 id (replicate 108 0) 77 ex_chain 60) ex_state
    (pullup_post ex_state ex_head [ex_tail] 60).
Proof.
  apply (m_pullup_correct 40 id (replicate 108 0) 77 (λ s, reflexivity s) ex_junk_ok ltac:(lia)
    ex_state ex_head [ex_tail] 60 ex_chain_ok ex_chain_known ltac:(lia)).
Defined.

Lemma m_copym_correct_witness :
  wp (m_copym id (replicate 108 0) 77 ex_chain 30 50) ex_state (λ r s', same_store ex_state s' ∧
    Forall (mbuf_ok s') r ∧
    (bytes s' r = copied 50 (drop (Z.to_nat 30) (bytes ex_state ex_chain)) ∨
     r = [] ∧ oracle ex_state ≠ [])).
Proof.
  apply (m_copym_correct id (replicate 108 0) 77 (λ s, reflexivity s) ex_junk_ok
    ex_state ex_chain 30 50 ltac:(done) ex_chain_ok ex_chain_internal).
  - vm_compute. split; discriminate.
  - lia.
  - right. split; [by vm_compute|]. vm_compute. discriminate.
Defined.

Lemma m_split_correct_witness :
  wp (m_split id (replicate 108 0) 0 ex_chain 41) ex_state (split_post ex_state ex_chain 41).
Proof.
  apply (m_split_correct id (replicate 108 0) 0 (λ s, reflexivity s) ex_junk_ok
    ex_state ex_head [ex_tail] 41 ltac:(done) ex_chain_ok ex_chain_internal).
  - vm_compute. split; discriminate.
  - lia.
Defined.

Lemma M_PREPEND_correct_witness :
  wp (M_PREPEND id (replicate 108 0) 77 ex_chain 20) ex_state (λ r s', same_store ex_state s' ∧
    match r with
    | Some r => drop (Z.to_nat 20) (bytes s' r) = bytes ex_state ex_chain ∧ Forall (mbuf_ok s') r ∧
        pkthdr_ok r ∧ chain_len r = chain_len ex_chain + 20 ∧
        ∃ m' rest', r = m' :: rest' ∧ 20 <= m_len m' ∧ has m' M_PKTHDR = has ex_head M_PKTHDR
    | None => oracle ex_state ≠ []
    end).
Proof.
  apply (M_PREPEND_correct id (replicate 108 0) 77 (λ s, reflexivity s) ex_junk_ok
    ex_state ex_head [ex_tail] 20 ex_chain_ok ex_chain_known ltac:(done)).
  vm_compute. split; discriminate.
Defined.

Lemma m_cat_correct_witness :
  wp (m_cat ex_chain [ex_tail]) ex_state (λ r s', same_store ex_state s' ∧
    bytes s' r = bytes ex_state ex_chain ++ bytes ex_state [ex_tail] ∧ Forall (mbuf_ok s') r).
Proof.
  apply (m_cat_correct ex_state ex_chain [ex_tail]).
  - done.
  - apply Forall_app. split; [apply ex_chain_ok|]. apply (Forall_drop (mbuf_ok ex_state) 1 ex_chain ex_chain_ok).
  - by repeat constructor.
Defined.

Lemma m_adj_correct_witness :
  ∃ r, m_adj ex_chain (-120) = Some r ∧
    bytes ex_state r = take (length (bytes ex_state ex_chain) - 120) (bytes ex_state ex_chain) ∧
    Forall (mbuf_ok ex_state) r ∧ pkthdr_ok r.
Proof. apply (m_adj_correct ex_state ex_chain (-120) ex_chain_ok). done. Defined.

Lemma m_copydata_correct_witness :
  m_copydata ex_chain 38 4 ex_state =
    Ok (take (Z.to_nat 4) (drop (Z.to_nat 38) (bytes ex_state ex_chain)), ex_state).
Proof. apply (m_copydata_correct ex_state ex_chain 38 4 ex_chain_ok). Defined.

Lemma m_copym_cluster_crash_witness :
  m_copym id [] 0 [MB 1000 0 MT_DATA M_EXT 0 0 4096 MCLBYTES []] 0 M_COPYALL ex_state = Crash.
Proof. apply m_copym_cluster_crash; done. Defined.

(** [m_split] inside a later mbuf of a packet with a header returns a header
    mbuf whose length is whatever the fresh mbuf held. *)
Theorem m_split_uninitialised_length junk_len :
  ∃ front n tail s', m_split id (replicate 108 0) junk_len ex_chain 41 ex_state =
    Ok ((front, Some (n :: tail)), s') ∧ m_len n = junk_len.
Proof. eexists _, _, _, _. split; [vm_compute; reflexivity|]. reflexivity. Qed.

End Mbuf.
