(* ===== verification/Cksum.v ===== *)
(** * The Internet checksum (netinet/in_cksum.c)

    The portable checksum routine adds 16-bit words in the byte order of the
    machine, mbuf by mbuf, however the packet is cut into mbufs and wherever
    their data are aligned.  Here it is shown to compute the one's complement sum
    of the packet. *)

From stdpp Require Import options.
From S2P Require Import Prelude Mbuf.

Module Cksum.

Section Machine.

(** [big] is the byte order of the machine. *)
Context (big : bool).

(** The value of [s_util.s], or of a word in memory, with the bytes [c0] and [c1]. *)
Definition word (c0 c1 : Z) : Z := if big then c0 * 256 + c1 else c0 + c1 * 256.

(** [REDUCE]; [l_util.s] are the two halves of the 32-bit pattern of [sum]. *)
Definition ADDCARRY (x : Z) : Z := if 65535 <? x then x - 65535 else x.
Definition REDUCE (sum : Z) : Z := ADDCARRY (u32 sum mod 65536 + u32 sum / 65536).

(** [sum += w[0]; ...; sum += w[n-1]; w += n], where [w] is the rest of the data
    of the mbuf. *)
Fixpoint add_words (n : nat) (sum : Z) (w : list Z) : option (Z * list Z) :=
  match n, w with
  | O, _ => Some (sum, w)
  | S n, c0 :: c1 :: w => add_words n (s32 (sum + word c0 c1)) w
  | _, _ => None
  end.

(** [while ((mlen -= 2 * n) >= 0) { ... }] with [n] words added in each round. *)
Fixpoint words_loop (fuel : nat) (n : nat) (sum : Z) (w : list Z) (mlen : Z) :
    option (Z * list Z * Z) :=
  match fuel with
  | O => None
  | S fuel =>
      let mlen := mlen - 2 * Z.of_nat n in
      if 0 <=? mlen then
        match add_words n sum w with
        | Some (sum, w) => words_loop fuel n sum w mlen
        | None => None
        end
      else Some (sum, w, mlen)
  end.

Definition run_words (n : nat) (sum : Z) (w : list Z) (mlen : Z) : option (Z * list Z * Z) :=
  words_loop (S (Z.to_nat mlen)) n sum w mlen.

(** The locals that live from one mbuf to the next: [sum], [mlen] (-1 when a byte
    is pending), [s_util.c[0]] and [len]. *)
Record cstate := CS { sum : Z; mlen : Z; c0 : Z; len : Z }.

(** One mbuf, from the test of the alignment on.  [addr] is the address of [w]. *)
Definition cksum_body (addr : Z) (w : list Z) (sum mlen c0 len : Z) : option cstate :=
  let swapped := (addr mod 2 =? 1) && (0 <? mlen) in
  match (if swapped then
           match w with
           | b :: w => Some (s32 (REDUCE sum * 256), b, w, mlen - 1)
           | [] => None
           end
         else Some (sum, c0, w, mlen)) with
  | None => None
  | Some (sum, c0, w, mlen) =>
      match run_words 16 sum w mlen with
      | None => None
      | Some (sum, w, mlen) =>
          let mlen := mlen + 32 in
          match run_words 4 sum w mlen with
          | None => None
          | Some (sum, w, mlen) =>
              let mlen := mlen + 8 in
              if (mlen =? 0) && negb swapped then Some (CS sum mlen c0 len)
              else
                match run_words 1 (REDUCE sum) w mlen with
                | None => None
                | Some (sum, w, mlen) =>
                    if swapped then
                      let sum := s32 (REDUCE sum * 256) in
                      if mlen =? -1 then
                        match w with
                        | b :: _ => Some (CS (s32 (sum + word c0 b)) 0 c0 len)
                        | [] => None
                        end
                      else Some (CS sum (-1) c0 len)
                    else if mlen =? -1 then
                      match w with b :: _ => Some (CS sum mlen b len) | [] => None end
                    else Some (CS sum mlen c0 len)
                end
          end
      end
  end.

(** One round of the [for] loop over the mbufs: [addr] is [m_data], [w] the data. *)
Definition cksum_mbuf (addr : Z) (w : list Z) (s : cstate) : option cstate :=
  let m_len := Z.of_nat (length w) in
  if m_len =? 0 then Some s
  else
    match (if mlen s =? -1 then
             match w with
             | b :: w => Some (addr + 1, w, s32 (sum s + word (c0 s) b), m_len - 1, len s - 1)
             | [] => None
             end
           else Some (addr, w, sum s, m_len, len s)) with
    | None => None
    | Some (addr, w, sum, mlen, len) =>
        let mlen := if len <? mlen then len else mlen in
        cksum_body addr w sum mlen (c0 s) (len - mlen)
    end.

Fixpoint cksum_loop (ms : list (Z * list Z)) (s : cstate) : option cstate :=
  match ms with
  | [] => Some s
  | (addr, w) :: ms =>
      if len s =? 0 then Some s
      else match cksum_mbuf addr w s with Some s => cksum_loop ms s | None => None end
  end.

(** [in_cksum]; the second result is whether "out of data" is printed.  The chain
    is given by the address and the bytes of each mbuf; [junk] is the
    uninitialised [s_util.c[0]]. *)
Definition in_cksum (junk : Z) (ms : list (Z * list Z)) (len0 : Z) : option (Z * bool) :=
  match cksum_loop ms (CS 0 0 junk len0) with
  | None => None
  | Some s =>
      let sum := if mlen s =? -1 then s32 (sum s + word (c0 s) 0) else sum s in
      Some (Z.land (Z.lnot (REDUCE sum)) 0xffff, negb (len s =? 0))
  end.

(** The mbufs of a chain. *)
Definition segments (s : Mbuf.mstate) (ms : list Mbuf.mbuf) : list (Z * list Z) :=
  (λ m, (Mbuf.m_data m, Mbuf.mbytes s m)) <$> ms.

(** ** The specification: RFC 1071

    The one's complement sum of the 16-bit words of the packet, an odd last byte
    padded with a zero, computed once from the exact sum. *)

Fixpoint word_sum (bs : list Z) : Z :=
  match bs with
  | [] => 0
  | [c0] => word c0 0
  | c0 :: c1 :: bs => word c0 c1 + word_sum bs
  end.

Definition ones_complement (s : Z) : Z := if s =? 0 then 0 else (s - 1) mod 65535 + 1.

Definition checksum (bs : list Z) : Z := 65535 - ones_complement (word_sum bs).

(** ** Sums by the position of the bytes *)

(** The weight of a byte that is the first ([false]) or the second of its word. *)
Definition wt (second : bool) (b : Z) : Z := if second then word 0 b else word b 0.

#[local] Arguments wt : simpl never.
#[local] Arguments word : simpl never.

Fixpoint wsum (second : bool) (bs : list Z) : Z :=
  match bs with [] => 0 | b :: bs => wt second b + wsum (negb second) bs end.

(** [U] stands for [S]: it is congruent to it and zero exactly when [S] is. *)
Definition agrees (U S : Z) : Prop := 0 <= U ∧ 0 <= S ∧ (∃ k, U = S + 65535 * k) ∧ (U = 0 ↔ S = 0).

Lemma word_wt a b : word a b = wt false a + wt true b.
Proof. unfold wt, word. destruct big; lia. Qed.

Lemma wt_range h b : is_u8 b → 0 <= wt h b.
Proof. unfold is_u8, wt, word. destruct h, big; lia. Qed.

Lemma wt_false_range b : is_u8 b → 0 <= wt false b <= 65280.
Proof. unfold is_u8, wt, word. destruct big; lia. Qed.

Lemma word_range a b : is_u8 a → is_u8 b → 0 <= word a b <= 65535.
Proof. unfold is_u8, word. destruct big; lia. Qed.

Lemma wsum_nonneg h bs : Forall is_u8 bs → 0 <= wsum h bs.
Proof.
  intros H; revert h; induction H as [|b bs Hb Hbs IH]; intros h; simpl; [lia|].
  pose proof (wt_range h b Hb). specialize (IH (negb h)). lia.
Qed.

Lemma wsum_app h l1 l2 :
  wsum h (l1 ++ l2) = wsum h l1 + wsum (xorb h (Nat.odd (length l1))) l2.
Proof.
  revert h; induction l1 as [|b l1 IH]; intros h; simpl app; simpl wsum.
  - simpl. by rewrite xorb_false_r.
  - rewrite IH. change (length (b :: l1)) with (S (length l1)). rewrite Nat.odd_succ, <- Nat.negb_odd.
    replace (xorb (negb h) (Nat.odd (length l1))) with (xorb h (negb (Nat.odd (length l1))))
      by by destruct h, (Nat.odd (length l1)). lia.
Qed.

Lemma word_sum_wsum bs : word_sum bs = wsum false bs.
Proof.
  induction bs as [bs IH] using (induction_ltof1 _ length).
  destruct bs as [|a [|b bs]]; [done| |].
  - simpl. unfold wt. lia.
  - cbn [word_sum wsum negb]. rewrite IH by (unfold ltof; simpl; lia). rewrite (word_wt a b). lia.
Qed.

(** ** Congruence *)

Lemma agrees_refl U : 0 <= U → agrees U U.
Proof. intros. split; [done|]. split; [done|]. split; [exists 0; lia|done]. Qed.

Lemma agrees_trans U V W : agrees U V → agrees V W → agrees U W.
Proof.
  intros (? & ? & [k ?] & ?) (? & ? & [l ?] & ?). split; [done|]. split; [done|].
  split; [exists (k + l); lia|]. tauto.
Qed.

Lemma agrees_add U S x : agrees U S → 0 <= x → agrees (U + x) (S + x).
Proof.
  intros (? & ? & [k ?] & ?) ?. split; [lia|]. split; [lia|]. split; [exists k; lia|]. lia.
Qed.

(** Exchanging the bytes of the words is multiplication by 256. *)
Lemma wt_swap h b : is_u8 b → agrees (wt h b * 256) (wt (negb h) b).
Proof.
  unfold is_u8, wt, word. intros Hb. destruct h, big; simpl;
    (split; [lia|]; split; [lia|]; split; [|lia]);
    first [exists 0; lia | exists b; lia].
Qed.

Lemma agrees_plus U1 S1 U2 S2 : agrees U1 S1 → agrees U2 S2 → agrees (U1 + U2) (S1 + S2).
Proof.
  intros (? & ? & [k ?] & ?) (? & ? & [l ?] & ?). split; [lia|]. split; [lia|].
  split; [exists (k + l); lia|]. lia.
Qed.

Lemma wsum_swap h bs : Forall is_u8 bs → agrees (wsum h bs * 256) (wsum (negb h) bs).
Proof.
  intros H; revert h; induction H as [|b bs Hb Hbs IH]; intros h; simpl.
  - by apply agrees_refl.
  - rewrite Z.mul_add_distr_r. apply agrees_plus; [by apply wt_swap|apply IH].
Qed.

Lemma agrees_mul U S : agrees U S → agrees (U * 256) (S * 256).
Proof.
  intros (? & ? & [k ?] & ?). split; [lia|]. split; [lia|]. split; [exists (256 * k); lia|]. lia.
Qed.

Lemma REDUCE_spec sum : agrees (REDUCE sum) (u32 sum) ∧ 0 <= REDUCE sum <= 65535.
Proof.
  unfold REDUCE, ADDCARRY. pose proof (u32_range sum) as Hr. unfold is_u32 in Hr.
  set (U := u32 sum) in *. pose proof (Z.div_mod U 65536). pose proof (Z.mod_pos_bound U 65536).
  assert (0 <= U / 65536 < 65536) by (Z.div_mod_to_equations; lia).
  destruct (65535 <? _) eqn:E; zbool; (split; [|lia]); (split; [lia|]); (split; [lia|]).
  - split; [exists (- (U / 65536) - 1); lia|lia].
  - split; [exists (- (U / 65536)); lia|lia].
Qed.

Lemma ones_complement_spec x S : agrees x S → x <= 65535 → x = ones_complement S.
Proof.
  intros (? & ? & [k ?] & ?) ?. unfold ones_complement. destruct (Z.eqb_spec S 0); [lia|].
  Z.div_mod_to_equations. lia.
Qed.

(** ** The loops *)

Lemma u32_s32_add sum x :
  0 <= x → u32 sum + x < 4294967296 → u32 (s32 (sum + x)) = u32 sum + x.
Proof.
  intros Hx Hb. rewrite u32_s32. pose proof (u32_range sum). unfold is_u32, u32 in *.
  rewrite <- Zplus_mod_idemp_l. apply Z.mod_small. lia.
Qed.

Lemma wsum_pairs n w :
  Forall is_u8 w → (2 * n <= length w)%nat → 0 <= wsum false (take (2 * n) w) <= 65535 * Z.of_nat n.
Proof.
  revert w; induction n as [|n IH]; intros w Hw Hl; [simpl; lia|].
  destruct w as [|a [|b w]]; simpl in Hl; [lia..|].
  inversion_clear Hw as [|? ? Ha Hw']. inversion_clear Hw' as [|? ? Hb Hw''].
  replace (2 * S n)%nat with (S (S (2 * n))) by lia. simpl take. simpl wsum.
  specialize (IH w Hw'' ltac:(lia)). pose proof (word_range a b Ha Hb) as Hr. rewrite word_wt in Hr.
  replace (n + (n + 0))%nat with (2 * n)%nat by lia. lia.
Qed.

Lemma add_words_spec n sum w :
  Forall is_u8 w → (2 * n <= length w)%nat → u32 sum + 65535 * Z.of_nat n < 4294967296 →
  ∃ sum', add_words n sum w = Some (sum', drop (2 * n) w) ∧
    u32 sum' = u32 sum + wsum false (take (2 * n) w).
Proof.
  revert sum w; induction n as [|n IH]; intros sum w Hw Hl Hb.
  { exists sum. simpl. split; [by destruct w|lia]. }
  destruct w as [|a [|b w]]; simpl in Hl; [lia..|].
  inversion_clear Hw as [|? ? Ha Hw']. inversion_clear Hw' as [|? ? Hb' Hw''].
  pose proof (word_range a b Ha Hb') as Hr. simpl add_words.
  pose proof (u32_s32_add sum (word a b) ltac:(lia) ltac:(lia)) as Hu.
  destruct (IH (s32 (sum + word a b)) w Hw'' ltac:(lia) ltac:(lia)) as (sum' & -> & Hs).
  exists sum'. replace (2 * S n)%nat with (S (S (2 * n))) by lia. split; [done|].
  cbn [take wsum negb]. rewrite Hs, Hu, word_wt. lia.
Qed.

Lemma wsum_even k l : Nat.Even k → (k <= length l)%nat →
  ∀ l', wsum false (take k l ++ l') = wsum false (take k l) + wsum false l'.
Proof.
  intros Hk Hl l'. rewrite wsum_app, length_take, Nat.min_l by done.
  by apply Nat.even_spec in Hk; rewrite <- Nat.negb_even, Hk.
Qed.

Lemma words_loop_spec fuel n sum w mlen :
  (0 < n)%nat → Forall is_u8 w → 0 <= mlen <= Z.of_nat (length w) → (Z.to_nat mlen < fuel)%nat →
  u32 sum + 65535 * (mlen / 2) < 4294967296 →
  ∃ sum' k, words_loop fuel n sum w mlen = Some (sum', drop k w, mlen - Z.of_nat k - 2 * Z.of_nat n) ∧
    Nat.Even k ∧ 0 <= mlen - Z.of_nat k < 2 * Z.of_nat n ∧
    u32 sum' = u32 sum + wsum false (take k w).
Proof.
  intros Hn. revert sum w mlen; induction fuel as [|fuel IH]; intros sum w mlen Hw Hm Hf Hb; [lia|].
  simpl. destruct (Z.leb_spec 0 (mlen - 2 * Z.of_nat n)).
  - assert (Z.of_nat n <= mlen / 2) by (apply Z.div_le_lower_bound; lia).
    destruct (add_words_spec n sum w Hw ltac:(lia) ltac:(lia)) as (sum1 & -> & Hs1).
    pose proof (wsum_pairs n w Hw ltac:(lia)) as Hp.
    assert (Hdiv : (mlen - 2 * Z.of_nat n) / 2 = mlen / 2 - Z.of_nat n) by (Z.div_mod_to_equations; lia).
    destruct (IH sum1 (drop (2 * n) w) (mlen - 2 * Z.of_nat n)) as (sum' & k & -> & Hk1 & Hk2 & Hs').
    + by apply Forall_drop.
    + rewrite length_drop. lia.
    + lia.
    + rewrite Hdiv. lia.
    + exists sum', (2 * n + k)%nat. rewrite drop_drop. split; [do 3 f_equal; lia|].
      split; [destruct Hk1 as [j Hj]; exists (n + j)%nat; lia|]. split; [lia|].
      rewrite Hs', Hs1, <- Z.add_assoc. f_equal.
      rewrite <- (take_drop (2 * n) (take (2 * n + k) w)), take_take, Nat.min_l by lia.
      rewrite wsum_even by (try (by exists n); lia). f_equal. f_equal.
      rewrite <- take_drop_commute. done.
  - exists sum, 0%nat. split; [do 3 f_equal; lia|]. split; [by exists 0%nat|]. simpl. lia.
Qed.

Lemma run_words_spec n sum w mlen :
  (0 < n)%nat → Forall is_u8 w → 0 <= mlen <= Z.of_nat (length w) →
  u32 sum + 65535 * (mlen / 2) < 4294967296 →
  ∃ sum' k, run_words n sum w mlen = Some (sum', drop k w, mlen - Z.of_nat k - 2 * Z.of_nat n) ∧
    Nat.Even k ∧ 0 <= mlen - Z.of_nat k < 2 * Z.of_nat n ∧
    u32 sum' = u32 sum + wsum false (take k w).
Proof. intros. apply words_loop_spec; auto; lia. Qed.

(** Two runs, one after the other, are a run over both prefixes. *)
Lemma wsum_take_drop k1 k2 w :
  Nat.Even k1 → (k1 <= length w)%nat →
  wsum false (take (k1 + k2) w) = wsum false (take k1 w) + wsum false (take k2 (drop k1 w)).
Proof.
  intros Hk Hl. rewrite <- (take_drop k1 (take (k1 + k2) w)), take_take, Nat.min_l by lia.
  rewrite wsum_even by done. by rewrite <- take_drop_commute.
Qed.

Lemma wsum_half k mlen w :
  Nat.Even k → Forall is_u8 w → Z.of_nat k <= mlen <= Z.of_nat (length w) →
  0 <= wsum false (take k w) <= 65535 * (Z.of_nat k / 2) ∧ Z.of_nat k / 2 + (mlen - Z.of_nat k) / 2 = mlen / 2.
Proof.
  intros [j ->] Hw Hl. pose proof (wsum_pairs j w Hw ltac:(lia)).
  assert (Z.of_nat (2 * j) / 2 = Z.of_nat j) by (rewrite Nat2Z.inj_mul; Z.div_mod_to_equations; lia).
  split; [lia|]. Z.div_mod_to_equations. lia.
Qed.

(** The two unrolled loops. *)
Lemma unrolled_spec sum w mlen :
  Forall is_u8 w → 0 <= mlen <= Z.of_nat (length w) → u32 sum + 65535 * (mlen / 2) < 4294967296 →
  ∃ sum1 w1 m1 sum2 k, run_words 16 sum w mlen = Some (sum1, w1, m1) ∧
    run_words 4 sum1 w1 (m1 + 32) = Some (sum2, drop k w, mlen - Z.of_nat k - 8) ∧
    Nat.Even k ∧ 0 <= mlen - Z.of_nat k < 8 ∧ u32 sum2 = u32 sum + wsum false (take k w).
Proof.
  intros Hw Hm Hb. destruct (run_words_spec 16 sum w mlen) as (sum1 & k1 & Hr1 & He1 & Hk1 & Hs1); [lia|done..|].
  destruct (wsum_half k1 mlen w He1 Hw ltac:(lia)) as [Hh1 Hh2].
  destruct (run_words_spec 4 sum1 (drop k1 w) (mlen - Z.of_nat k1)) as (sum2 & k2 & Hr2 & He2 & Hk2 & Hs2).
  { lia. } { by apply Forall_drop. } { rewrite length_drop. lia. } { lia. }
  eexists _, _, _, sum2, (k1 + k2)%nat. split; [exact Hr1|].
  replace (mlen - Z.of_nat k1 - 2 * Z.of_nat 16 + 32) with (mlen - Z.of_nat k1) by lia.
  rewrite Hr2, drop_drop. split; [do 2 f_equal; lia|].
  split; [destruct He1 as [i ?], He2 as [j ?]; exists (i + j)%nat; lia|]. split; [lia|].
  rewrite wsum_take_drop by (done || lia). lia.
Qed.

(** All three loops, with the [REDUCE] between them. *)
Lemma all_loops_spec sum w mlen :
  Forall is_u8 w → 0 <= mlen <= Z.of_nat (length w) →
  u32 sum + 65535 * (mlen / 2) < 4294967296 → 65535 * (1 + mlen / 2) < 4294967296 →
  ∃ sum1 w1 m1 sum2 k sum3 K, run_words 16 sum w mlen = Some (sum1, w1, m1) ∧
    run_words 4 sum1 w1 (m1 + 32) = Some (sum2, drop k w, mlen - Z.of_nat k - 8) ∧
    run_words 1 (REDUCE sum2) (drop k w) (mlen - Z.of_nat k) = Some (sum3, drop K w, mlen - Z.of_nat K - 2) ∧
    Nat.Even k ∧ Z.of_nat k <= mlen ∧ u32 sum2 = u32 sum + wsum false (take k w) ∧
    Nat.Even K ∧ 0 <= mlen - Z.of_nat K < 2 ∧ u32 sum3 <= 65535 * (1 + mlen / 2) ∧
    agrees (u32 sum3) (u32 sum + wsum false (take K w)).
Proof.
  intros Hw Hm Hb Hb2. destruct (unrolled_spec sum w mlen) as (sum1 & w1 & m1 & sum2 & k & H1 & H2 & He & Hk & Hs); [done..|].
  destruct (wsum_half k mlen w He Hw ltac:(lia)) as [Hh1 Hh2].
  destruct (REDUCE_spec sum2) as [Hag Hr].
  assert (Hu : u32 (REDUCE sum2) = REDUCE sum2) by (apply u32_id; unfold is_u32; lia).
  assert (0 <= Z.of_nat k / 2) by (apply Z.div_pos; lia).
  destruct (run_words_spec 1 (REDUCE sum2) (drop k w) (mlen - Z.of_nat k)) as (sum3 & k3 & H3 & He3 & Hk3 & Hs3).
  { lia. } { by apply Forall_drop. } { rewrite length_drop. lia. } { lia. }
  destruct (wsum_half k3 (mlen - Z.of_nat k) (drop k w) He3 (Forall_drop _ _ _ Hw)) as [Hh3 Hh4].
  { rewrite length_drop. lia. }
  assert (0 <= (mlen - Z.of_nat k - Z.of_nat k3) / 2) by (apply Z.div_pos; lia).
  eexists _, _, _, sum2, k, sum3, (k + k3)%nat. split; [exact H1|]. split; [exact H2|].
  rewrite H3, drop_drop. split; [do 2 f_equal; lia|]. split; [done|]. split; [lia|]. split; [done|].
  split; [destruct He as [i ?], He3 as [j ?]; exists (i + j)%nat; lia|]. split; [lia|].
  split; [lia|]. rewrite Hs3, Hu, wsum_take_drop by (done || lia). rewrite Z.add_assoc.
  apply agrees_add; [by rewrite <- Hs|lia].
Qed.

(** The sum with its pending byte, and what a round over [mlen] bytes does to it. *)
Definition total (s : cstate) : Z := u32 (sum s) + if mlen s =? -1 then wt false (c0 s) else 0.

Definition body_post (sum0 : Z) (bs : list Z) (len0 N : Z) (s' : cstate) : Prop :=
  len s' = len0 ∧ (mlen s' =? -1) = Nat.odd (length bs) ∧ (mlen s' = -1 → is_u8 (c0 s')) ∧
  u32 (sum s') <= 65535 * (256 + N + Z.of_nat (length bs) / 2) ∧
  agrees (total s') (u32 sum0 + wsum false bs).

(** What is left after an even number of bytes. *)
Lemma last_byte K mlen (w : list Z) :
  Nat.Even K → 0 <= mlen - Z.of_nat K < 2 → mlen <= Z.of_nat (length w) →
  (mlen = Z.of_nat K ∧ Nat.odd (Z.to_nat mlen) = false ∧ take (Z.to_nat mlen) w = take K w) ∨
  (mlen = Z.of_nat K + 1 ∧ Nat.odd (Z.to_nat mlen) = true ∧
   ∃ b w', drop K w = b :: w' ∧ take (Z.to_nat mlen) w = take K w ++ [b]).
Proof.
  intros He Hm Hl. assert (Hodd : Nat.odd K = false).
  { rewrite <- Nat.negb_even. by apply Nat.even_spec in He as ->. }
  assert (mlen = Z.of_nat K ∨ mlen = Z.of_nat K + 1) as [-> | ->] by lia.
  - left. rewrite Nat2Z.id. done.
  - right. replace (Z.to_nat (Z.of_nat K + 1)) with (S K) by lia.
    rewrite Nat.odd_succ, <- Nat.negb_odd, Hodd. split; [done|]. split; [done|].
    destruct (drop K w) as [|b w'] eqn:E.
    + apply (f_equal length) in E. rewrite length_drop in E. simpl in E. lia.
    + exists b, w'. split; [done|]. apply take_S_r. rewrite <- (Nat.add_0_r K), <- lookup_drop, E. done.
Qed.

Lemma wsum_snoc_even K w b :
  Nat.Even K → (K <= length w)%nat → ∀ h, wsum h (take K w ++ [b]) = wsum h (take K w) + wt h b.
Proof.
  intros He Hl h. rewrite wsum_app, length_take, Nat.min_l by done.
  rewrite <- Nat.negb_even. apply Nat.even_spec in He as ->. simpl. rewrite xorb_false_r. lia.
Qed.

Lemma cksum_body_aligned addr w sum mlen c len N :
  Forall is_u8 w → 0 <= mlen <= Z.of_nat (length w) → 0 <= N → u32 sum <= 65535 * (256 + N) →
  65535 * (257 + N + mlen / 2) < 4294967296 → (addr mod 2 =? 1) && (0 <? mlen) = false →
  ∃ s', cksum_body addr w sum mlen c len = Some s' ∧ body_post sum (take (Z.to_nat mlen) w) len N s'.
Proof.
  intros Hw Hm HN Hu Hb Hsw. unfold cksum_body. rewrite Hsw.
  destruct (all_loops_spec sum w mlen) as
    (sum1 & w1 & m1 & sum2 & k & sum3 & K & H1 & H2 & H3 & He & Hk & Hs2 & HeK & HK & Hs3 & Hag); [done|done|lia..|].
  pose proof (wsum_half k mlen w He Hw ltac:(lia)) as [Hh1 Hh2].
  pose proof (u32_range sum) as Hr. unfold is_u32 in Hr.
  assert (Hlen : Z.of_nat (length (take (Z.to_nat mlen) w)) = mlen) by (rewrite length_take; lia).
  assert (0 <= (mlen - Z.of_nat k) / 2) by (apply Z.div_pos; lia).
  rewrite H1, H2. replace (mlen - Z.of_nat k - 8 + 8) with (mlen - Z.of_nat k) by lia.
  destruct (Z.eqb_spec (mlen - Z.of_nat k) 0) as [E|E]; simpl negb; cbn [andb].
  - eexists. split; [done|]. unfold body_post, total. simpl. rewrite Hlen, E.
    replace (Z.to_nat mlen) with k by lia. split; [done|].
    split; [rewrite length_take, Nat.min_l, <- Nat.negb_even by lia; by apply Nat.even_spec in He as ->|].
    split; [done|]. split; [lia|]. rewrite Z.add_0_r, Hs2. apply agrees_refl. lia.
  - rewrite H3. pose proof (last_byte K mlen w HeK ltac:(lia) ltac:(lia)) as [(EK & Ho & Ht)|(EK & Ho & b & w' & Hd & Ht)].
    + rewrite (proj2 (Z.eqb_neq _ (-1))) by lia. eexists. split; [done|]. unfold body_post, total. simpl.
      rewrite Hlen, Ht. rewrite (proj2 (Z.eqb_neq _ (-1))) by lia. split; [done|].
      split; [rewrite <- Ht, length_take, Nat.min_l by lia; done|]. split; [lia|]. split; [lia|].
      by rewrite Z.add_0_r.
    + rewrite (proj2 (Z.eqb_eq _ (-1))) by lia. rewrite Hd. eexists. split; [done|]. unfold body_post, total. simpl.
      rewrite Hlen. rewrite (proj2 (Z.eqb_eq _ (-1))) by lia. split; [done|].
      assert (Hb8 : is_u8 b).
      { apply (Forall_drop _ K) in Hw. rewrite Hd in Hw. by inversion Hw. }
      split; [rewrite length_take, Nat.min_l by lia; done|]. split; [done|]. split; [lia|].
      rewrite Ht, wsum_snoc_even by (done || lia). rewrite Z.add_assoc. apply agrees_add; [done|].
      by apply wt_range.
Qed.

Lemma u32_shift x : 0 <= x <= 65535 → u32 (s32 (x * 256)) = x * 256.
Proof. intros Hx. rewrite u32_s32. apply u32_id. unfold is_u32. lia. Qed.

Lemma cksum_body_swapped addr w sum mlen c len N :
  Forall is_u8 w → 0 <= mlen <= Z.of_nat (length w) → 0 <= N →
  65535 * (257 + N + mlen / 2) < 4294967296 → (addr mod 2 =? 1) && (0 <? mlen) = true →
  ∃ s', cksum_body addr w sum mlen c len = Some s' ∧ body_post sum (take (Z.to_nat mlen) w) len N s'.
Proof.
  intros Hw Hm HN Hb Hsw. unfold cksum_body. rewrite Hsw. apply andb_true_iff in Hsw as [_ Hsw]. zbool.
  destruct w as [|b w]; [simpl in Hm; lia|]. inversion_clear Hw as [|? ? Hb8 Hw']. simpl in Hm.
  destruct (REDUCE_spec sum) as [HagR HR]. pose proof (u32_shift _ HR) as HuR.
  set (sum0 := s32 _) in *. assert (Hdl : (mlen - 1) / 2 <= mlen / 2) by (apply Z.div_le_mono; lia).
  destruct (all_loops_spec sum0 w (mlen - 1)) as
    (sum1 & w1 & m1 & sum2 & k & sum3 & K & H1 & H2 & H3 & He & Hk & Hs2 & HeK & HK & Hs3 & Hag);
    [done|lia..|].
  rewrite H1, H2. replace (mlen - 1 - Z.of_nat k - 8 + 8) with (mlen - 1 - Z.of_nat k) by lia.
  cbn [negb]. rewrite andb_false_r, H3.
  destruct (REDUCE_spec sum3) as [HagR3 HR3]. pose proof (u32_shift _ HR3) as HuR3.
  set (sum4 := s32 (REDUCE sum3 * 256)) in *.
  (* the sum after the second swap *)
  assert (Hag4 : agrees (u32 sum4) (u32 sum + wsum true (take K w))).
  { rewrite HuR3. eapply agrees_trans; [apply agrees_mul; eapply agrees_trans; [exact HagR3|exact Hag]|].
    rewrite HuR, Z.mul_add_distr_r. apply agrees_plus; [|by apply (wsum_swap false), Forall_take].
    eapply agrees_trans; [|exact HagR]. rewrite <- Z.mul_assoc.
    split; [lia|]. split; [lia|]. split; [exists (REDUCE sum); lia|lia]. }
  assert (Hlen : length (take (Z.to_nat mlen) (b :: w)) = S (Z.to_nat (mlen - 1))).
  { rewrite length_take. simpl. lia. }
  assert (Htake : take (Z.to_nat mlen) (b :: w) = b :: take (Z.to_nat (mlen - 1)) w).
  { replace (Z.to_nat mlen) with (S (Z.to_nat (mlen - 1))) by lia. done. }
  pose proof (wt_range false b Hb8) as Hwb.
  pose proof (last_byte K (mlen - 1) w HeK ltac:(lia) ltac:(lia)) as [(EK & Ho & Ht)|(EK & Ho & b' & w' & Hd & Ht)].
  - rewrite (proj2 (Z.eqb_neq _ (-1))) by lia. eexists. split; [done|]. unfold body_post, total. simpl.
    rewrite Hlen, Nat.odd_succ, <- Nat.negb_odd, Ho. split; [done|]. split; [done|]. split; [done|].
    split.
    { assert (0 <= Z.of_nat (S (Z.to_nat (mlen - 1))) / 2) by (apply Z.div_pos; lia). lia. }
    rewrite Htake, Ht. simpl. replace (u32 sum + _) with (u32 sum + wsum true (take K w) + wt false b) by lia.
    by apply agrees_add.
  - rewrite (proj2 (Z.eqb_eq _ (-1))) by lia. rewrite Hd. eexists. split; [done|].
    assert (Hb8' : is_u8 b').
    { apply (Forall_drop _ K) in Hw'. rewrite Hd in Hw'. by inversion Hw'. }
    pose proof (word_range b b' Hb8 Hb8') as Hwr. pose proof (wt_range true b' Hb8') as Hwb'.
    pose proof (u32_s32_add sum4 (word b b') ltac:(lia) ltac:(lia)) as Hu5.
    unfold body_post, total. simpl. rewrite Hlen, Nat.odd_succ, <- Nat.negb_odd, Ho, Hu5.
    split; [done|]. split; [done|]. split; [done|]. split.
    { assert (1 <= Z.of_nat (S (Z.to_nat (mlen - 1))) / 2) by (apply Z.div_le_lower_bound; lia). lia. }
    rewrite Htake, Ht. simpl. rewrite wsum_snoc_even by (done || lia). rewrite word_wt, Z.add_0_r.
    replace (u32 sum + _) with (u32 sum + wsum true (take K w) + (wt false b + wt true b')) by lia.
    apply agrees_add; [done|lia].
Qed.

(** ** The whole packet *)

(** The state after the bytes [D] have been added. *)
Definition cksum_inv (D : list Z) (s : cstate) : Prop :=
  (mlen s =? -1) = Nat.odd (length D) ∧ (mlen s = -1 → is_u8 (c0 s)) ∧
  u32 (sum s) <= 65535 * (256 + Z.of_nat (length D) / 2) ∧ agrees (total s) (wsum false D).

(** A round that starts on a word boundary. *)
Lemma cksum_even_step D addr w sum0 m c len0 :
  Nat.odd (length D) = false → Forall is_u8 w → 0 <= m <= Z.of_nat (length w) →
  Z.of_nat (length D) + m <= 65535 → u32 sum0 <= 65535 * (256 + Z.of_nat (length D) / 2) →
  agrees (u32 sum0) (wsum false D) →
  ∃ s', cksum_body addr w sum0 m c len0 = Some s' ∧ len s' = len0 ∧
    cksum_inv (D ++ take (Z.to_nat m) w) s'.
Proof.
  intros Ho Hw Hm Hn Hu Hag. set (N := Z.of_nat (length D) / 2) in *.
  assert (HN : 0 <= N) by (apply Z.div_pos; lia).
  assert (Hnm : N + m / 2 <= 32767) by (unfold N; Z.div_mod_to_equations; lia).
  assert (∃ s', cksum_body addr w sum0 m c len0 = Some s' ∧
    body_post sum0 (take (Z.to_nat m) w) len0 N s') as (s' & Hs & Hl & Ho' & Hc & Hu' & Hag').
  { destruct ((addr mod 2 =? 1) && (0 <? m)) eqn:E.
    - apply cksum_body_swapped; try done; lia.
    - apply cksum_body_aligned; try done; lia. }
  exists s'. split; [done|]. split; [done|]. split; [|split; [done|split]].
  - rewrite Ho', length_app, Nat.odd_add, Ho. by destruct (Nat.odd _).
  - etrans; [exact Hu'|]. apply Z.mul_le_mono_nonneg_l; [lia|]. rewrite length_app, Nat2Z.inj_add.
    unfold N. Z.div_mod_to_equations. lia.
  - eapply agrees_trans; [exact Hag'|]. rewrite wsum_app, Ho. simpl.
    apply agrees_add; [done|]. by apply wsum_nonneg, Forall_take.
Qed.

Lemma cksum_mbuf_spec D addr w s :
  cksum_inv D s → 0 < len s → Forall is_u8 w → Z.of_nat (length D) + len s <= 65535 →
  ∃ s', cksum_mbuf addr w s = Some s' ∧ cksum_inv (D ++ take (Z.to_nat (len s)) w) s' ∧
    len s' = len s - Z.min (len s) (Z.of_nat (length w)).
Proof.
  intros (Ho & Hc & Hu & Hag) Hlen Hw Hn. unfold cksum_mbuf.
  destruct w as [|b w]; [exists s; simpl; rewrite take_nil, app_nil_r; split_and!; try done; lia|].
  rewrite (proj2 (Z.eqb_neq _ 0)) by (simpl; lia). unfold total in Hag.
  destruct (mlen s =? -1) eqn:E.
  - (* a byte is pending *)
    zbool. specialize (Hc E). inversion_clear Hw as [|? ? Hb8 Hw'].
    pose proof (word_range _ _ Hc Hb8) as Hwr. pose proof (wt_range true b Hb8).
    assert (Hdiv : Z.of_nat (length (D ++ [b])) / 2 = Z.of_nat (length D) / 2 + 1).
    { symmetry in Ho. apply Nat.odd_spec in Ho as [j Hj]. rewrite length_app, Hj. simpl.
      Z.div_mod_to_equations. lia. }
    assert (Hd2 : Z.of_nat (length D) / 2 <= 32767) by (Z.div_mod_to_equations; lia).
    pose proof (u32_s32_add (sum s) (word (c0 s) b) ltac:(lia) ltac:(lia)) as Hus.
    set (m := if len s - 1 <? Z.of_nat (length (b :: w)) - 1 then _ else _).
    assert (Hm : m = Z.min (len s - 1) (Z.of_nat (length w))).
    { unfold m. rewrite length_cons. destruct (Z.ltb_spec (len s - 1) (Z.of_nat (S (length w)) - 1)); lia. }
    destruct (cksum_even_step (D ++ [b]) (addr + 1) w (s32 (sum s + word (c0 s) b)) m (c0 s)
      (len s - 1 - m)) as (s' & Hs & Hl & Hinv).
    + rewrite length_app, Nat.odd_add, <- Ho. done.
    + done.
    + lia.
    + rewrite length_app. simpl. lia.
    + rewrite Hus, Hdiv. lia.
    + rewrite Hus, word_wt, wsum_app, <- Ho. simpl. rewrite Z.add_assoc, Z.add_0_r.
      apply agrees_add; [done|lia].
    + exists s'. split; [done|]. rewrite <- app_assoc in Hinv. split; [|simpl length in *; lia].
      replace (take (Z.to_nat (len s)) (b :: w)) with ([b] ++ take (Z.to_nat m) w); [done|].
      replace (Z.to_nat (len s)) with (S (Z.to_nat (len s - 1))) by lia. simpl. f_equal.
      rewrite Hm. destruct (Z.le_ge_cases (len s - 1) (Z.of_nat (length w))); [f_equal; lia|].
      rewrite !take_ge by lia. done.
  - rewrite Z.add_0_r in Hag. set (m := if len s <? Z.of_nat (length (b :: w)) then _ else _).
    assert (Hm : m = Z.min (len s) (Z.of_nat (length (b :: w)))).
    { unfold m. destruct (_ <? _) eqn:Em; zbool; lia. }
    destruct (cksum_even_step D addr (b :: w) (sum s) m (c0 s) (len s - m)) as (s' & Hs & Hl & Hinv);
      try done; try lia.
    exists s'. split; [done|]. split; [|lia].
    replace (take (Z.to_nat (len s)) (b :: w)) with (take (Z.to_nat m) (b :: w)); [done|].
    rewrite Hm. destruct (Z.le_ge_cases (len s) (Z.of_nat (length (b :: w)))); [f_equal; lia|].
    rewrite !take_ge by lia. done.
Qed.

Lemma cksum_loop_spec ms D s :
  cksum_inv D s → 0 <= len s → Forall (Forall is_u8) ms.*2 → Z.of_nat (length D) + len s <= 65535 →
  ∃ s', cksum_loop ms s = Some s' ∧ cksum_inv (D ++ take (Z.to_nat (len s)) (concat ms.*2)) s' ∧
    len s' = Z.max 0 (len s - Z.of_nat (length (concat ms.*2))).
Proof.
  revert D s; induction ms as [|[addr w] ms IH]; intros D s Hinv Hl Hms Hn; csimpl.
  { exists s. rewrite take_nil, app_nil_r. split; [done|]. split; [done|]. lia. }
  apply Forall_cons in Hms as [Hw Hms].
  destruct (Z.eqb_spec (len s) 0) as [E|E].
  { exists s. rewrite E. change (Z.to_nat 0) with 0%nat. rewrite take_0, app_nil_r. split_and!; try done. lia. }
  destruct (cksum_mbuf_spec D addr w s Hinv ltac:(lia) Hw Hn) as (s1 & -> & Hinv1 & Hl1).
  destruct (IH _ _ Hinv1) as (s' & -> & Hinv' & Hl').
  - lia.
  - done.
  - rewrite length_app, length_take. lia.
  - exists s'. split; [done|]. rewrite length_app. split; [|lia].
    rewrite <- app_assoc, Hl1 in Hinv'. rewrite take_app.
    replace (Z.to_nat (len s) - length w)%nat with
      (Z.to_nat (len s - len s `min` Z.of_nat (length w))) by lia. done.
Qed.

Lemma in_cksum_checksum junk ms len0 :
  Forall (Forall is_u8) ms.*2 → 0 <= len0 <= 65535 →
  in_cksum junk ms len0 = Some (checksum (take (Z.to_nat len0) (concat ms.*2)),
                                Z.of_nat (length (concat ms.*2)) <? len0).
Proof.
  intros Hms Hl. unfold in_cksum.
  destruct (cksum_loop_spec ms [] (CS 0 0 junk len0)) as (s' & -> & (Ho & Hc & Hu & Hag) & Hl').
  - split; [done|]. split; [done|]. split; [by vm_compute|]. by apply agrees_refl.
  - simpl. lia.
  - done.
  - simpl. lia.
  - simpl in *. set (bs := take _ _) in *. unfold total in Hag.
    assert (Hfin : ∃ x, REDUCE (if mlen s' =? -1 then s32 (sum s' + word (c0 s') 0) else sum s') = x ∧
      agrees x (wsum false bs) ∧ x <= 65535).
    { eexists. split; [done|]. destruct (mlen s' =? -1) eqn:E.
      - zbool. pose proof (wt_false_range _ (Hc E)) as Hw.
        assert (Z.of_nat (length bs) / 2 <= 32768).
        { unfold bs. rewrite length_take. Z.div_mod_to_equations. lia. }
        destruct (REDUCE_spec (s32 (sum s' + word (c0 s') 0))) as [H1 H2]. split; [|lia].
        change (word (c0 s') 0) with (wt false (c0 s')) in H1.
        rewrite u32_s32_add in H1 by lia. by eapply agrees_trans.
      - destruct (REDUCE_spec (sum s')) as [H1 H2]. split; [|lia].
        rewrite Z.add_0_r in Hag. by eapply agrees_trans. }
    destruct Hfin as (x & -> & Hx1 & Hx2). f_equal. f_equal.
    + unfold checksum. rewrite word_sum_wsum, <- (ones_complement_spec _ _ Hx1 Hx2).
      destruct Hx1 as [Hx0 _]. change (Z.land (Z.lnot x) _) with (Z.land (Z.lnot x) (Z.ones 16)).
      rewrite Z.land_ones by lia.
      change (2 ^ 16) with 65536. unfold Z.lnot. symmetry. apply (Z.mod_unique_pos _ _ (-1)); lia.
    + rewrite Hl'. destruct (Z.eqb_spec (Z.max 0 (len0 - Z.of_nat (length (concat ms.*2)))) 0); simpl;
        symmetry; [apply Z.ltb_ge|apply Z.ltb_lt]; lia.
Qed.

Lemma in_cksum_spec junk s ms len0 :
  Forall is_u8 (Mbuf.bytes s ms) → 0 <= len0 <= 65535 →
  in_cksum junk (segments s ms) len0 =
    Some (checksum (take (Z.to_nat len0) (Mbuf.bytes s ms)),
          Z.of_nat (length (Mbuf.bytes s ms)) <? len0).
Proof.
  assert (Hs : (segments s ms).*2 = Mbuf.mbytes s <$> ms).
  { unfold segments. by rewrite <- list_fmap_compose. }
  intros H8 Hl. unfold Mbuf.bytes in *. rewrite in_cksum_checksum; rewrite ?Hs; [done| |done].
  by apply Forall_concat.
Qed.

(** C20: [in_cksum] is the Internet checksum of the first [len0] bytes of the
    packet: whatever the cut into mbufs (empty ones and odd lengths included), the
    alignment of their data and the byte order of the machine, the result is the
    one's complement of the one's complement sum of the 16-bit words, with the
    warning exactly when the packet is shorter than [len0]. *)
Theorem in_cksum_correct junk s ms len0 :
  Forall is_u8 (Mbuf.bytes s ms) → 0 <= len0 <= 65535 →
  in_cksum junk (segments s ms) len0 =
    Some (checksum (take (Z.to_nat len0) (Mbuf.bytes s ms)),
          Z.of_nat (length (Mbuf.bytes s ms)) <? len0).
Proof. apply in_cksum_spec. Qed.

Lemma checksum_store a x y b :
  Nat.odd (length a) = false → Forall is_u8 (a ++ [x; y] ++ b) →
  word x y = checksum (a ++ [0; 0] ++ b) → checksum (a ++ [x; y] ++ b) = 0.
Proof.
  intros Ho H8 Hxy. unfold checksum in *. rewrite word_sum_wsum in *. rewrite !wsum_app, Ho in *. simpl in *.
  assert (Hz : wt false 0 = 0 ∧ wt true 0 = 0) by (unfold wt, word; destruct big; lia).
  destruct Hz as [Hz1 Hz2]. rewrite Hz1, Hz2 in Hxy. rewrite word_wt in Hxy.
  apply Forall_app in H8 as [Ha H8]. apply Forall_cons in H8 as [Hx8 H8].
  apply Forall_cons in H8 as [Hy8 Hb]. pose proof (wt_range false x Hx8). pose proof (wt_range true y Hy8).
  pose proof (wsum_nonneg false a Ha). pose proof (wsum_nonneg false b Hb).
  unfold ones_complement in *.
  change (Nat.odd 2) with false in *. set (S0 := wsum false a + wsum false b).
  replace (wsum false a + (0 + (0 + 0) + wsum false b)) with S0 in Hxy by (unfold S0; lia).
  replace (wsum false a + _) with (S0 + (wt false x + wt true y)) by (unfold S0; lia).
  rewrite Hxy. destruct (Z.eqb_spec S0 0) as [E|E]; [by rewrite E|].
  set (r := (S0 - 1) mod 65535) in *. assert (Hr : r = S0 - 1 - 65535 * ((S0 - 1) / 65535)).
  { unfold r. rewrite Z.mod_eq by lia. lia. }
  pose proof (Z.mod_pos_bound (S0 - 1) 65535 ltac:(lia)) as Hb1. fold r in Hb1.
  assert (0 <= S0) by (unfold S0; lia).
  rewrite (proj2 (Z.eqb_neq _ 0)) by lia.
  replace (S0 + (65535 - (r + 1)) - 1) with (65534 + ((S0 - 1) / 65535) * 65535) by lia.
  rewrite Z.mod_add by lia. done.
Qed.

(** A receiver that sums a packet with the checksum stored in it gets zero:
    if [in_cksum] of the packet with a zero checksum field (at an even offset) is
    stored there in the byte order of the machine, then [in_cksum] of the result
    is zero, whatever the mbufs of either. *)
Theorem in_cksum_verifies junk ms junk' ms' a x y b len0 c out :
  Nat.odd (length a) = false → Forall is_u8 (a ++ [x; y] ++ b) → 0 <= len0 <= 65535 →
  len0 = Z.of_nat (length (a ++ [x; y] ++ b)) →
  concat ms.*2 = a ++ [0; 0] ++ b → concat ms'.*2 = a ++ [x; y] ++ b →
  in_cksum junk ms len0 = Some (c, out) → word x y = c →
  in_cksum junk' ms' len0 = Some (0, false).
Proof.
  intros Ho H8 Hl Hlen Hms Hms' Hc Hxy.
  assert (Hbytes : ∀ l (bs : list Z), concat l = bs → Forall is_u8 bs → Forall (Forall is_u8) l).
  { intros l bs <-. apply Forall_concat. }
  assert (H80 : Forall is_u8 (a ++ [0; 0] ++ b)).
  { rewrite !Forall_app in *. destruct H8 as (? & _ & ?). split; [done|].
    split; [repeat constructor; lia|done]. }
  rewrite in_cksum_checksum in Hc by eauto. injection Hc as Hc _.
  rewrite in_cksum_checksum by eauto. rewrite Hms in Hc. rewrite Hms'.
  rewrite !take_ge in * by (rewrite ?length_app in *; simpl in *; lia).
  rewrite checksum_store by (done || congruence). do 2 f_equal. apply Z.ltb_ge. lia.
Qed.

End Machine.

Lemma in_cksum_correct_witness :
  in_cksum true 0 (segments Mbuf.ex_state Mbuf.ex_chain) 99 =
    Some (checksum true (take 99 (Mbuf.bytes Mbuf.ex_state Mbuf.ex_chain)), false).
Proof.
  apply (in_cksum_correct true 0 Mbuf.ex_state Mbuf.ex_chain 99).
  - apply (Forall_forall is_u8). intros x Hx. vm_compute in Hx.
    repeat (apply elem_of_cons in Hx as [->|Hx]; [done|]). by apply elem_of_nil in Hx.
  - lia.
Defined.

Lemma in_cksum_verifies_witness :
  in_cksum false 3 [(1, [69; 0; 1]); (4, [44; 185; 211])] 6 = Some (0, false).
Proof.
  apply (in_cksum_verifies false 7 [(0, [69; 0; 1; 44; 0; 0])] 3 [(1, [69; 0; 1]); (4, [44; 185; 211])]
    [69; 0; 1; 44] 185 211 [] 6 54201 false); try reflexivity; [|lia].
  repeat constructor; lia.
Defined.

End Cksum.
