(* ===== verification/Ip.v ===== *)
(** * Internet headers and addresses (netinet/ip.h, ip_var.h, in.h, in_var.h, in.c)

    The header of a datagram is a record of its fields.  It overlays the first
    bytes of the packet: [ip_bytes] are these bytes on the wire (and, on the
    big-endian machine the sources are configured for, in memory).  A packet is
    the header, the bytes of its options, and the mbuf chain, whose first
    [ip_hl << 2] bytes are the room the header takes; the contents of that room
    are the two first components.  [in_ifaddr] is a list of the addresses of the
    interfaces. *)

From stdpp Require Import options.
From S2P Require Import Prelude Mbuf Cksum.

Module Ip.

(** ** Constants *)

Definition IPVERSION : Z := 4.
Definition IP_DF : Z := 0x4000.
Definition IP_MF : Z := 0x2000.
Definition IP_OFFMASK : Z := 0x1fff.
Definition IP_MAXPACKET : Z := 65535.
Definition IPFRAGTTL : Z := 60.
Definition IPTTLDEC : Z := 1.
Definition IPOPT_EOL : Z := 0.
Definition IPOPT_NOP : Z := 1.
Definition IPOPT_RR : Z := 7.
Definition IPOPT_TS : Z := 68.
Definition IPOPT_LSRR : Z := 131.
Definition IPOPT_SSRR : Z := 137.
Definition IPOPT_OPTVAL : Z := 0.
Definition IPOPT_OLEN : Z := 1.
Definition IPOPT_OFFSET : Z := 2.
Definition IPOPT_MINOFF : Z := 4.
Definition IPOPT_COPIED (o : Z) : Z := Z.land o 0x80.
Definition sizeof_ip : Z := 20.

(** ** The header *)

(** [struct ip]; [ip_len] and [ip_off] are [short].  As a [struct ipasfrag] the
    byte [ip_tos] is [ipf_mff]. *)
Record ip := IP
  { ip_v : Z; ip_hl : Z; ip_tos : Z; ip_len : Z; ip_id : Z; ip_off : Z;
    ip_ttl : Z; ip_p : Z; ip_sum : Z; ip_src : Z; ip_dst : Z }.

Definition set_v_hl (h : ip) (v hl : Z) : ip :=
  IP v hl (ip_tos h) (ip_len h) (ip_id h) (ip_off h) (ip_ttl h) (ip_p h) (ip_sum h) (ip_src h) (ip_dst h).
Definition set_tos (h : ip) (t : Z) : ip :=
  IP (ip_v h) (ip_hl h) t (ip_len h) (ip_id h) (ip_off h) (ip_ttl h) (ip_p h) (ip_sum h) (ip_src h) (ip_dst h).
Definition set_iplen (h : ip) (n : Z) : ip :=
  IP (ip_v h) (ip_hl h) (ip_tos h) (s16 n) (ip_id h) (ip_off h) (ip_ttl h) (ip_p h) (ip_sum h) (ip_src h) (ip_dst h).
Definition set_id (h : ip) (n : Z) : ip :=
  IP (ip_v h) (ip_hl h) (ip_tos h) (ip_len h) (u16 n) (ip_off h) (ip_ttl h) (ip_p h) (ip_sum h) (ip_src h) (ip_dst h).
Definition set_off (h : ip) (n : Z) : ip :=
  IP (ip_v h) (ip_hl h) (ip_tos h) (ip_len h) (ip_id h) (s16 n) (ip_ttl h) (ip_p h) (ip_sum h) (ip_src h) (ip_dst h).
Definition set_ttl (h : ip) (n : Z) : ip :=
  IP (ip_v h) (ip_hl h) (ip_tos h) (ip_len h) (ip_id h) (ip_off h) (u8 n) (ip_p h) (ip_sum h) (ip_src h) (ip_dst h).
Definition set_sum (h : ip) (n : Z) : ip :=
  IP (ip_v h) (ip_hl h) (ip_tos h) (ip_len h) (ip_id h) (ip_off h) (ip_ttl h) (ip_p h) (u16 n) (ip_src h) (ip_dst h).
Definition set_src (h : ip) (a : Z) : ip :=
  IP (ip_v h) (ip_hl h) (ip_tos h) (ip_len h) (ip_id h) (ip_off h) (ip_ttl h) (ip_p h) (ip_sum h) a (ip_dst h).
Definition set_dst (h : ip) (a : Z) : ip :=
  IP (ip_v h) (ip_hl h) (ip_tos h) (ip_len h) (ip_id h) (ip_off h) (ip_ttl h) (ip_p h) (ip_sum h) (ip_src h) a.

(** The ranges of the fields. *)
Definition ip_typed (h : ip) : Prop :=
  0 <= ip_v h < 16 ∧ 0 <= ip_hl h < 16 ∧ is_u8 (ip_tos h) ∧ is_s16 (ip_len h) ∧ is_u16 (ip_id h) ∧
  is_s16 (ip_off h) ∧ is_u8 (ip_ttl h) ∧ is_u8 (ip_p h) ∧ is_u16 (ip_sum h) ∧ is_u32 (ip_src h) ∧ is_u32 (ip_dst h).

(** [ip_hl << 2]. *)
Definition hdrlen (h : ip) : Z := Z.shiftl (ip_hl h) 2.
#[global] Arguments hdrlen : simpl never.

(** The bytes of a 16-bit and of a 32-bit field. *)
Definition be16 (z : Z) : list Z := [u16 z / 256; u16 z mod 256].
Definition be32 (z : Z) : list Z := be16 (u32 z / 65536) ++ be16 (u32 z mod 65536).

Definition ip_bytes (h : ip) : list Z :=
  [ip_v h * 16 + ip_hl h; ip_tos h] ++ be16 (ip_len h) ++ be16 (ip_id h) ++ be16 (ip_off h) ++
  [ip_ttl h; ip_p h] ++ be16 (ip_sum h) ++ be32 (ip_src h) ++ be32 (ip_dst h).

(** [mtod(m, struct ip * )]: the header in twenty bytes. *)
Definition ip_of_bytes (b : list Z) : option ip :=
  match b with
  | [b0; b1; b2; b3; b4; b5; b6; b7; b8; b9; b10; b11; b12; b13; b14; b15; b16; b17; b18; b19] =>
      Some (IP (b0 / 16) (b0 mod 16) b1 (s16 (be_val [b2; b3])) (be_val [b4; b5]) (s16 (be_val [b6; b7]))
              b8 b9 (be_val [b10; b11]) (be_val [b12; b13; b14; b15]) (be_val [b16; b17; b18; b19]))
  | _ => None
  end.

(** ** Packets *)

Record packet := Pkt { p_ip : ip; p_opts : list Z; p_m : list Mbuf.mbuf }.

(** The bytes of the header with its options, and the datagram on the wire. *)
Definition header (p : packet) : list Z := ip_bytes (p_ip p) ++ p_opts p.
Definition wire (s : Mbuf.mstate) (p : packet) : list Z :=
  header p ++ drop (Z.to_nat (hdrlen (p_ip p))) (Mbuf.bytes s (p_m p)).

(** [ip->ip_sum = 0; ip->ip_sum = in_cksum(m, hlen)], where the header lies in the
    first mbuf, at the address [addr].  [None] is a read past the header. *)
Definition put_sum (junk addr hlen : Z) (h : ip) (opts : list Z) : option ip :=
  let h := set_sum h 0 in
  match Cksum.in_cksum true junk [(addr, ip_bytes h ++ opts)] hlen with
  | Some (c, _) => Some (set_sum h c)
  | None => None
  end.

(** ** Interfaces and their addresses *)

Definition IFF_UP : Z := 0x1.
Definition IFF_BROADCAST : Z := 0x2.
Definition IFF_LOOPBACK : Z := 0x8.
Definition IFF_POINTOPOINT : Z := 0x10.
Definition IFF_MULTICAST : Z := 0x8000.

(** What IP uses of a [struct ifnet]; [if_index] stands for its address. *)
Record ifnet := IFN { if_index : Z; if_flags : Z; if_mtu : Z }.

(** [struct in_ifaddr]; [ia_dstaddr] is also [ia_broadaddr], and [ia_multiaddrs]
    holds the groups.  Addresses are in host order. *)
Record in_ifaddr := IA
  { ia_ifp : ifnet; ia_addr : Z; ia_dstaddr : Z; ia_net : Z; ia_netmask : Z; ia_subnet : Z;
    ia_subnetmask : Z; ia_netbroadcast : Z; ia_multiaddrs : list Z }.

Definition if_eq (a b : ifnet) : bool := if_index a =? if_index b.
Definition if_has (i : ifnet) (f : Z) : bool := ztrue (Z.land (if_flags i) f).

Definition INADDR_ANY : Z := 0.
Definition INADDR_BROADCAST : Z := 0xffffffff.
Definition IN_LOOPBACKNET : Z := 127.
Definition IN_CLASSA_NET : Z := 0xff000000.
Definition IN_CLASSB_NET : Z := 0xffff0000.
Definition IN_CLASSC_NET : Z := 0xffffff00.
Definition IN_CLASSD_NET : Z := 0xf0000000.
Definition IN_CLASSA (i : Z) : bool := Z.land i 0x80000000 =? 0.
Definition IN_CLASSB (i : Z) : bool := Z.land i 0xc0000000 =? 0x80000000.
Definition IN_CLASSC (i : Z) : bool := Z.land i 0xe0000000 =? 0xc0000000.
Definition IN_CLASSD (i : Z) : bool := Z.land i 0xf0000000 =? 0xe0000000.
Definition IN_MULTICAST (i : Z) : bool := IN_CLASSD i.
Definition IN_EXPERIMENTAL (i : Z) : bool := Z.land i 0xf0000000 =? 0xf0000000.

Section Addresses.
Context (in_ifaddrs : list in_ifaddr).

Definition in_netof (i : Z) : Z :=
  let subnet net :=
    match find (λ ia, net =? ia_net ia) in_ifaddrs with
    | Some ia => Z.land i (ia_subnetmask ia)
    | None => net
    end in
  if IN_CLASSA i then subnet (Z.land i IN_CLASSA_NET)
  else if IN_CLASSB i then subnet (Z.land i IN_CLASSB_NET)
  else if IN_CLASSC i then subnet (Z.land i IN_CLASSC_NET)
  else if IN_CLASSD i then subnet (Z.land i IN_CLASSD_NET)
  else 0.

Definition in_localaddr (subnetsarelocal : bool) (i : Z) : bool :=
  if subnetsarelocal then existsb (λ ia, Z.land i (ia_netmask ia) =? ia_net ia) in_ifaddrs
  else existsb (λ ia, Z.land i (ia_subnetmask ia) =? ia_subnet ia) in_ifaddrs.

Definition in_canforward (i : Z) : bool :=
  if IN_EXPERIMENTAL i || IN_MULTICAST i then false
  else if IN_CLASSA i then
    let net := Z.land i IN_CLASSA_NET in
    negb ((net =? 0) || (net =? Z.shiftl IN_LOOPBACKNET 24))
  else true.

(** [IFP_TO_IA], [INADDR_TO_IFP] and [IN_LOOKUP_MULTI]. *)
Definition IFP_TO_IA (ifp : ifnet) : option in_ifaddr := find (λ ia, if_eq (ia_ifp ia) ifp) in_ifaddrs.
Definition INADDR_TO_IFP (addr : Z) : option ifnet :=
  match find (λ ia, ia_addr ia =? addr) in_ifaddrs with Some ia => Some (ia_ifp ia) | None => None end.
Definition IN_LOOKUP_MULTI (addr : Z) (ifp : ifnet) : bool :=
  match IFP_TO_IA ifp with Some ia => existsb (λ a, a =? addr) (ia_multiaddrs ia) | None => false end.

(** The Internet addresses of [ifp->if_addrlist] are those of the list that belong
    to the interface. *)
Definition in_broadcast (i : Z) (ifp : ifnet) : bool :=
  if (i =? INADDR_BROADCAST) || (i =? INADDR_ANY) then true
  else if negb (if_has ifp IFF_BROADCAST) then false
  else existsb (λ ia, if_eq (ia_ifp ia) ifp &&
         ((i =? ia_dstaddr ia) || (i =? ia_netbroadcast ia) || (i =? ia_subnet ia) || (i =? ia_net ia))) in_ifaddrs.

End Addresses.

(** ** Lemmas *)

Lemma ip_bytes_length h : length (ip_bytes h) = 20%nat.
Proof. done. Qed.

Lemma be16_u8 z : Forall is_u8 (be16 z).
Proof.
  unfold be16. pose proof (u16_range z) as H. unfold is_u16 in H.
  repeat constructor; unfold is_u8; Z.div_mod_to_equations; lia.
Qed.

Lemma be32_u8 z : Forall is_u8 (be32 z).
Proof. apply Forall_app. split; apply be16_u8. Qed.

Lemma ip_bytes_u8 h : ip_typed h → Forall is_u8 (ip_bytes h).
Proof.
  intros (Hv & Hl & Ht & _ & _ & _ & Httl & Hp & _). unfold ip_bytes.
  rewrite !Forall_app, !Forall_cons, !Forall_nil. assert (is_u8 (ip_v h * 16 + ip_hl h)) by (unfold is_u8; lia).
  intuition auto using be16_u8, be32_u8.
Qed.

Lemma be16_val z : be_val (be16 z) = u16 z.
Proof. unfold be_val, be16. simpl. pose proof (u16_range z). unfold is_u16 in *. Z.div_mod_to_equations. lia. Qed.

Lemma be32_val z : be_val (be32 z) = u32 z.
Proof.
  unfold be_val, be32, be16. simpl. pose proof (u32_range z). unfold is_u32 in *.
  unfold u16. Z.div_mod_to_equations. lia.
Qed.

Lemma s16_u16 z : s16 (u16 z) = s16 z.
Proof. unfold s16, u16. by rewrite Zplus_mod_idemp_l. Qed.

(** A header is read back as it was written. *)
Lemma ip_of_bytes_bytes h : ip_typed h → ip_of_bytes (ip_bytes h) = Some h.
Proof.
  intros (Hv & Hl & Ht & Hlen & Hid & Hoff & Httl & Hp & Hsum & Hs & Hd).
  pose proof (be16_val (ip_len h)) as E1. pose proof (be16_val (ip_id h)) as E2.
  pose proof (be16_val (ip_off h)) as E3. pose proof (be16_val (ip_sum h)) as E4.
  pose proof (be32_val (ip_src h)) as E5. pose proof (be32_val (ip_dst h)) as E6.
  unfold ip_bytes, be32, be16 in *. cbn [ip_of_bytes app] in *. rewrite E1, E2, E3, E4, E5, E6.
  rewrite !s16_u16, !s16_id, !u16_id, !u32_id by done.
  rewrite Z.div_add_l, Z.div_small, Z.add_0_r, Z.add_comm, Z.mod_add, Z.mod_small by lia. by destruct h.
Qed.

Lemma ip_of_bytes_Some b : length b = 20%nat → ∃ h, ip_of_bytes b = Some h.
Proof. intros H. do 20 (destruct b as [|? b]; [done|]). destruct b; [|done]. by eexists. Qed.

Lemma ip_of_bytes_length b h : ip_of_bytes b = Some h → length b = 20%nat.
Proof. intros H. do 20 (destruct b as [|? b]; [done|]). by destruct b. Qed.

Lemma ip_of_bytes_typed b h : Forall is_u8 b → ip_of_bytes b = Some h → ip_typed h.
Proof.
  intros H8 E. do 20 (destruct b as [|? b]; [done|]). destruct b; [|done]. injection E as <-.
  repeat (apply Forall_cons in H8 as [? H8]). unfold ip_typed. simpl ip_v. simpl ip_hl. simpl ip_tos. simpl ip_len. simpl ip_id.
  simpl ip_off. simpl ip_ttl. simpl ip_p. simpl ip_sum. simpl ip_src. simpl ip_dst.
  unfold be_val. cbn [foldl]. unfold is_u8, is_u16, is_u32 in *.
  pose proof (Z.div_pos z 16). pose proof (Z.div_lt_upper_bound z 16 16). pose proof (Z.mod_pos_bound z 16).
  repeat split; try apply s16_range; lia.
Qed.

Lemma checksum_range bs : Forall is_u8 bs → is_u16 (Cksum.checksum true bs).
Proof.
  intros _. unfold Cksum.checksum, Cksum.ones_complement, is_u16. destruct (_ =? 0); [lia|].
  pose proof (Z.mod_pos_bound (Cksum.word_sum true bs - 1) 65535). lia.
Qed.

Lemma set_sum_typed h c : ip_typed h → ip_typed (set_sum h c).
Proof. unfold ip_typed. simpl. pose proof (u16_range c). tauto. Qed.

(** The checksum stored in a header is one that a receiver finds correct. *)
Lemma put_sum_spec junk addr hlen h opts :
  ip_typed h → Forall is_u8 opts → hlen = 20 + Z.of_nat (length opts) → hlen <= 60 →
  ∃ c, put_sum junk addr hlen h opts = Some (set_sum h c) ∧ ip_typed (set_sum h c) ∧
    Cksum.checksum true (ip_bytes (set_sum h c) ++ opts) = 0.
Proof.
  intros Ht Ho Hl Hb. unfold put_sum. set (h0 := set_sum h 0).
  assert (Ht0 : ip_typed h0) by by apply set_sum_typed.
  assert (H8 : Forall is_u8 (ip_bytes h0 ++ opts)) by (apply Forall_app; split; [by apply ip_bytes_u8|done]).
  rewrite Cksum.in_cksum_checksum; [|by apply Forall_singleton|lia]. cbn [fmap list_fmap concat snd].
  rewrite app_nil_r, take_ge by (rewrite length_app, ip_bytes_length; lia).
  set (c := Cksum.checksum true (ip_bytes h0 ++ opts)). pose proof (checksum_range _ H8) as Hc. fold c in Hc.
  exists c. split; [done|]. split; [by apply set_sum_typed|].
  set (a := take 10 (ip_bytes h0)). set (b := drop 12 (ip_bytes h0) ++ opts).
  assert (E : ip_bytes (set_sum h c) ++ opts = a ++ [u16 c / 256; u16 c mod 256] ++ b).
  { unfold a, b, ip_bytes, be32, be16. cbn [ip_sum set_sum ip_v ip_hl ip_tos ip_len ip_id ip_off ip_ttl ip_p ip_src ip_dst h0].
    rewrite (u16_id (u16 c)) by apply u16_range. done. }
  rewrite E. apply Cksum.checksum_store; [done| |].
  - rewrite <- E. apply Forall_app. split; [by apply ip_bytes_u8, set_sum_typed|done].
  - change (a ++ [0; 0] ++ b) with (ip_bytes h0 ++ opts). fold c. unfold Cksum.word. rewrite u16_id by done.
    unfold is_u16 in Hc. Z.div_mod_to_equations. lia.
Qed.

Lemma hdrlen_range h : ip_typed h → 0 <= hdrlen h <= 60.
Proof. intros (_ & H & _). unfold hdrlen. rewrite Z.shiftl_mul_pow2 by lia. lia. Qed.

End Ip.
