(* ===== verification/Sockbuf.v ===== *)
(** * Socket buffers (kern/uipc_socket2.c, sys/socketvar.h)

    A socket buffer is a queue of records, each a chain of mbufs, with counts of
    the data and of the mbuf space it holds.  The routines append packets, copy
    small ones into the last mbuf, and drop data from the front. *)

From stdpp Require Import options.
From S2P Require Import Prelude Mbuf.
Import Mbuf.

Module Sockbuf.

Definition SB_MAX : Z := 256 * 1024.
Definition SB_LOCK : Z := 0x01.
Definition SB_WANT : Z := 0x02.
Definition SB_WAIT : Z := 0x04.
Definition SB_SEL : Z := 0x08.
Definition MT_SONAME : Z := 8.
Definition MT_CONTROL : Z := 14.
Definition MT_OOBDATA : Z := 15.
Definition ENOBUFS : Z := 55.
Definition EWOULDBLOCK : Z := 35.

(** [sb_mb] is the list of records; a record is never empty. *)
Record sockbuf := SB
  { sb_cc : Z; sb_hiwat : Z; sb_mbcnt : Z; sb_mbmax : Z; sb_lowat : Z;
    sb_mb : list (list mbuf); sb_flags : Z }.

Definition with_mb (r : list (list mbuf)) (sb : sockbuf) : sockbuf :=
  SB (sb_cc sb) (sb_hiwat sb) (sb_mbcnt sb) (sb_mbmax sb) (sb_lowat sb) r (sb_flags sb).
Definition with_counts (cc mbcnt : Z) (sb : sockbuf) : sockbuf :=
  SB (u32 cc) (sb_hiwat sb) (u32 mbcnt) (sb_mbmax sb) (sb_lowat sb) (sb_mb sb) (sb_flags sb).
Definition with_limits (hiwat mbmax lowat : Z) (sb : sockbuf) : sockbuf :=
  SB (sb_cc sb) hiwat (sb_mbcnt sb) mbmax lowat (sb_mb sb) (sb_flags sb).
Definition with_flags (f : Z) (sb : sockbuf) : sockbuf :=
  SB (sb_cc sb) (sb_hiwat sb) (sb_mbcnt sb) (sb_mbmax sb) (sb_lowat sb) (sb_mb sb) f.

(** ** Accounting *)

(** The mbuf space of an mbuf. *)
Definition mb_space (m : mbuf) : Z := MSIZE + if has m M_EXT then ext_size m else 0.

Definition sballoc (m : mbuf) (sb : sockbuf) : sockbuf :=
  with_counts (sb_cc sb + m_len m) (sb_mbcnt sb + mb_space m) sb.
Definition sbfree (m : mbuf) (sb : sockbuf) : sockbuf :=
  with_counts (sb_cc sb - m_len m) (sb_mbcnt sb - mb_space m) sb.

(** [sbspace]: the two differences are converted to [int] before the minimum. *)
Definition sbspace (sb : sockbuf) : Z :=
  Z.min (s32 (sb_hiwat sb - sb_cc sb)) (s32 (sb_mbmax sb - sb_mbcnt sb)).

Section Limits.
Context (sb_max : Z).

(** [sbreserve]; [u_long] arithmetic, also in the comparison with [sb_lowat]. *)
Definition sbreserve (sb : sockbuf) (cc : Z) : sockbuf * Z :=
  if u32 (sb_max * MCLBYTES) / (MSIZE + MCLBYTES) <? cc then (sb, 0)
  else
    let mbmax := Z.min (u32 (cc * 2)) sb_max in
    let lowat := if cc <? u32 (sb_lowat sb) then s32 cc else sb_lowat sb in
    (with_limits cc mbmax lowat sb, 1).
End Limits.

(** ** Dropping data *)

(** The first loop of [sbdrop] over one record; the second result is what is left
    of the record, the third what is left of [len]. *)
Fixpoint drop_chain (sb : sockbuf) (m : list mbuf) (len : Z) : M mstate (sockbuf * list mbuf * Z) :=
  if 0 <? len then
    match m with
    | [] => ret (sb, [], len)
    | m0 :: mn =>
        if len <? m_len m0 then
          ret (with_counts (sb_cc sb - len) (sb_mbcnt sb) sb,
               set_data (set_len m0 (m_len m0 - len)) (m_data m0 + len) :: mn, 0)
        else
          do! MFREE m0 in
          drop_chain (sbfree m0 sb) mn (len - m_len m0)
    end
  else ret (sb, m, len).

(** The first loop; [next] are the records after the one being dropped. *)
Fixpoint drop_records (sb : sockbuf) (m : list mbuf) (next : list (list mbuf)) (len : Z) :
    M mstate (sockbuf * list mbuf * list (list mbuf)) :=
  let! r := drop_chain sb m len in
  let '(sb, m, len) := r in
  if 0 <? len then
    match next with
    | [] => panic
    | m :: next => drop_records sb m next len
    end
  else ret (sb, m, next).

(** The second loop: empty mbufs at the front. *)
Fixpoint drop_empty (sb : sockbuf) (m : list mbuf) : M mstate (sockbuf * list mbuf) :=
  match m with
  | [] => ret (sb, [])
  | m0 :: mn =>
      if m_len m0 =? 0 then do! MFREE m0 in drop_empty (sbfree m0 sb) mn
      else ret (sb, m)
  end.

Definition sbdrop (sb : sockbuf) (len : Z) : M mstate sockbuf :=
  let '(m, next) := match sb_mb sb with [] => ([], []) | m :: next => (m, next) end in
  let! r := drop_records sb m next len in
  let '(sb, m, next) := r in
  let! r := drop_empty sb m in
  let '(sb, m) := r in
  ret (with_mb (match m with [] => next | _ => m :: next end) sb).

Fixpoint droprecord_loop (sb : sockbuf) (m : list mbuf) : M mstate sockbuf :=
  match m with
  | [] => ret sb
  | m0 :: mn => do! MFREE m0 in droprecord_loop (sbfree m0 sb) mn
  end.

Definition sbdroprecord (sb : sockbuf) : M mstate sockbuf :=
  match sb_mb sb with
  | [] => ret sb
  | m :: next => droprecord_loop (with_mb next sb) m
  end.

(** [sbflush], with a bound on the rounds of its loop. *)
Fixpoint flush_loop (fuel : nat) (sb : sockbuf) : M mstate sockbuf :=
  if sb_mbcnt sb =? 0 then ret sb
  else match fuel with
       | O => crash
       | S fuel => let! sb := sbdrop sb (s32 (sb_cc sb)) in flush_loop fuel sb
       end.

Definition sbflush (fuel : nat) (sb : sockbuf) : M mstate sockbuf :=
  if ztrue (Z.land (sb_flags sb) SB_LOCK) then panic
  else
    let! sb := flush_loop fuel sb in
    if negb (sb_cc sb =? 0) || (match sb_mb sb with [] => false | _ => true end) then panic
    else ret sb.

Definition sbrelease (fuel : nat) (sb : sockbuf) : M mstate sockbuf :=
  let! sb := sbflush fuel sb in
  ret (with_limits 0 0 (sb_lowat sb) sb).

(** [soreserve] on the two buffers of a socket; the comparison of the low water
    mark with the limit is unsigned. *)
Definition soreserve (sb_max : Z) (fuel : nat) (snd rcv : sockbuf) (sndcc rcvcc : Z) :
    M mstate (sockbuf * sockbuf * Z) :=
  let '(snd, ok) := sbreserve sb_max snd sndcc in
  if ok =? 0 then ret (snd, rcv, ENOBUFS)
  else
    let '(rcv, ok) := sbreserve sb_max rcv rcvcc in
    if ok =? 0 then let! snd := sbrelease fuel snd in ret (snd, rcv, ENOBUFS)
    else
      let lowat sb v := with_limits (sb_hiwat sb) (sb_mbmax sb) v sb in
      let rcv := if sb_lowat rcv =? 0 then lowat rcv 1 else rcv in
      let snd := if sb_lowat snd =? 0 then lowat snd MCLBYTES else snd in
      let snd := if sb_hiwat snd <? u32 (sb_lowat snd) then lowat snd (s32 (sb_hiwat snd)) else snd in
      ret (snd, rcv, 0).

(** ** Appending data *)

Definition clear_eor (m : mbuf) : mbuf := set_flags m (Z.land (m_flags m) (Z.lnot M_EOR)).
Definition set_eor (m : mbuf) (eor : Z) : mbuf := set_flags m (Z.lor (m_flags m) eor).

(** [sbcompress]: [n] is the mbuf to append to, null if the buffer is empty; the
    result is [n] with what follows it.  An empty list is the buffer left empty
    (and the message of a record end without an mbuf to carry it). *)
Fixpoint compress_loop (sb : sockbuf) (m : list mbuf) (n : option mbuf) (eor : Z) :
    M mstate (sockbuf * list mbuf) :=
  match m with
  | [] =>
      match n with
      | Some n => ret (sb, [if eor =? 0 then n else set_eor n eor])
      | None => ret (sb, [])
      end
  | m0 :: mn =>
      let eor := Z.lor eor (Z.land (m_flags m0) M_EOR) in
      let o := match mn with o :: _ => Some o | [] => n end in
      if (m_len m0 =? 0) &&
         ((eor =? 0) || match o with Some o => m_type o =? m_type m0 | None => false end)
      then do! MFREE m0 in compress_loop sb mn n eor
      else
        match n with
        | Some n =>
            if negb (has n (Z.lor M_EXT M_EOR)) && (m_data n + m_len n + m_len m0 <? MLEN) &&
               (m_type n =? m_type m0)
            then
              let! b := m_read m0 0 (m_len m0) in
              let! n := m_write n (m_len n) b in
              let n := set_len n (m_len n + m_len m0) in
              let sb := with_counts (sb_cc sb + m_len m0) (sb_mbcnt sb) sb in
              do! MFREE m0 in
              compress_loop sb mn (Some n) eor
            else
              let! r := compress_loop (sballoc m0 sb) mn (Some (clear_eor m0)) eor in
              ret (r.1, n :: r.2)
        | None => compress_loop (sballoc m0 sb) mn (Some (clear_eor m0)) eor
        end
  end.

(** [m0->m_flags & M_EOR] moves to the mbuf after it. *)
Definition pass_eor (m0 : mbuf) (m : list mbuf) : mbuf * list mbuf :=
  match m with
  | m1 :: rest => if has m0 M_EOR then (clear_eor m0, set_eor m1 M_EOR :: rest) else (m0, m)
  | [] => (m0, m)
  end.

(** [sbcompress(sb, m, m0)] where [m0] is a record of its own. *)
Definition compress_record (sb : sockbuf) (m0 : mbuf) (m : list mbuf) : M mstate (sockbuf * list mbuf) :=
  let '(m0, m) := pass_eor m0 m in
  compress_loop (sballoc m0 sb) m (Some m0) 0.

Definition sbappendrecord (sb : sockbuf) (m : list mbuf) : M mstate sockbuf :=
  match m with
  | [] => ret sb
  | m0 :: m =>
      let! r := compress_record sb m0 m in
      ret (with_mb (sb_mb sb ++ [r.2]) r.1)
  end.

Definition sbappend (sb : sockbuf) (m : list mbuf) : M mstate sockbuf :=
  match m with
  | [] => ret sb
  | _ =>
      match last (sb_mb sb) with
      | Some n =>
          if existsb (λ x, has x M_EOR) n then sbappendrecord sb m
          else
            let! r := compress_loop sb m (last n) 0 in
            ret (with_mb (removelast (sb_mb sb) ++ [removelast n ++ r.2]) r.1)
      | None =>
          let! r := compress_loop sb m None 0 in
          ret (with_mb (match r.2 with [] => [] | c => [c] end) r.1)
      end
  end.

(** Is a record passed by [sbinsertoob]: out-of-band data, after any control mbufs. *)
Fixpoint oob_train (m : list mbuf) : bool :=
  match m with
  | [] => false
  | m0 :: mn =>
      if m_type m0 =? MT_OOBDATA then true
      else if m_type m0 =? MT_CONTROL then oob_train mn else false
  end.

Fixpoint insert_after_oob (r : list mbuf) (recs : list (list mbuf)) : list (list mbuf) :=
  match recs with
  | [] => [r]
  | m :: rest => if oob_train m then m :: insert_after_oob r rest else r :: recs
  end.

Definition sbinsertoob (sb : sockbuf) (m : list mbuf) : M mstate sockbuf :=
  match m with
  | [] => ret sb
  | m0 :: m =>
      let! r := compress_record sb m0 m in
      ret (with_mb (insert_after_oob r.2 (sb_mb sb)) r.1)
  end.

Definition alloc_chain (m : list mbuf) (sb : sockbuf) : sockbuf := foldl (λ sb m, sballoc m sb) sb m.

Definition sbappendcontrol (sb : sockbuf) (m0 control : list mbuf) : M mstate (sockbuf * Z) :=
  match control with
  | [] => panic
  | _ =>
      let space := chain_len control + chain_len m0 in
      if sbspace sb <? space then ret (sb, 0)
      else ret (with_mb (sb_mb sb ++ [control ++ m0]) (alloc_chain (control ++ m0) sb), 1)
  end.

Section Layer.
Context (drain : mstate → mstate) (junk : list Z) (junk_len : Z).

(** [sbappendaddr]; [asa] are the bytes of the address, [sa_len] of them. *)
Definition sbappendaddr (sb : sockbuf) (asa : list Z) (m0 control : list mbuf) :
    M mstate (sockbuf * Z) :=
  let sa_len := Z.of_nat (length asa) in
  let! pktlen := (match m0 with
                  | m :: _ => if has m M_PKTHDR then ret (pkthdr_len m) else panic
                  | [] => ret 0
                  end) in
  let space := sa_len + pktlen + chain_len control in
  if sbspace sb <? space then ret (sb, 0)
  else if MLEN <? sa_len then ret (sb, 0)
  else
    let! m := MGET drain junk junk_len MT_SONAME in
    match m with
    | None => ret (sb, 0)
    | Some m =>
        let! m := m_write (set_len m sa_len) 0 asa in
        let r := m :: control ++ m0 in
        ret (with_mb (sb_mb sb ++ [r]) (alloc_chain r sb), 1)
    end.
End Layer.

(** ** Locks

    [tsleep] may wait for the lock to be released, or fail; its outcome is a
    parameter. *)

Definition M_WAITOK : Z := 0.

(** The macro [sblock]: the comma operator binds weaker than the conditional, so
    the value is 0 whatever the branches give. *)
Definition sblock (sb_lock : sockbuf → sockbuf * Z) (sb : sockbuf) (wf : Z) : sockbuf * Z :=
  let '(sb, _) :=
    if ztrue (Z.land (sb_flags sb) SB_LOCK)
    then if wf =? M_WAITOK then sb_lock sb else (sb, EWOULDBLOCK)
    else let f := Z.lor (sb_flags sb) SB_LOCK in (with_flags f sb, f) in
  (sb, 0).

(** [sbunlock]; the second result says whether waiters are woken. *)
Definition sbunlock (sb : sockbuf) : sockbuf * bool :=
  let f := Z.land (sb_flags sb) (Z.lnot SB_LOCK) in
  if ztrue (Z.land f SB_WANT) then (with_flags (Z.land f (Z.lnot SB_WANT)) sb, true)
  else (with_flags f sb, false).

(** [sowakeup]; the second result says whether waiters are woken. *)
Definition sowakeup (sb : sockbuf) : sockbuf * bool :=
  let f := Z.land (sb_flags sb) (Z.lnot SB_SEL) in
  if ztrue (Z.land f SB_WAIT) then (with_flags (Z.land f (Z.lnot SB_WAIT)) sb, true)
  else (with_flags f sb, false).

(** ** Well-formed socket buffers *)

Definition mbufs (sb : sockbuf) : list mbuf := concat (sb_mb sb).
Definition sb_bytes (s : mstate) (sb : sockbuf) : list Z := bytes s (mbufs sb).
(** The bytes of every record. *)
Definition records (s : mstate) (sb : sockbuf) : list (list Z) := bytes s <$> sb_mb sb.
Definition space_of (ms : list mbuf) : Z := foldr (λ m n, mb_space m + n) 0 ms.

(** The counts are those of the mbufs ([sbcheck]), every mbuf is well formed and
    every record has an mbuf. *)
Definition sb_ok (s : mstate) (sb : sockbuf) : Prop :=
  sb_cc sb = u32 (chain_len (mbufs sb)) ∧ sb_mbcnt sb = u32 (space_of (mbufs sb)) ∧
  Forall (mbuf_ok s) (mbufs sb) ∧ Forall (cl_known s) (mbufs sb) ∧ Forall (.≠ []) (sb_mb sb).

Lemma sb_ok_store s s' sb : same_store s s' → sb_ok s sb → sb_ok s' sb.
Proof.
  intros Hs (H1 & H2 & H3 & H4 & H5). split_and!; try done.
  - eapply (Forall_store mbuf_ok s); [|done]. intros x. by apply mbuf_ok_store.
  - eapply (Forall_store cl_known s); [|done]. intros x. by apply cl_known_store.
Qed.

(** ** Lemmas

    Facts about mbufs are stated in a fixed state [s0] whose clusters all later
    states share. *)

Lemma MFREE_from s0 s m : same_store s0 s → cl_known s0 m → wp (MFREE m) s (λ _ s', same_store s0 s').
Proof.
  intros Hs Hk. eapply wp_mono; [apply MFREE_wp; by eapply cl_known_store|].
  intros [] s' Hs'. by etrans.
Qed.

Lemma m_read_from s0 s m :
  same_store s0 s → mbuf_ok s0 m → wp (m_read m 0 (m_len m)) s (λ b s', s' = s ∧ b = mbytes s0 m).
Proof.
  intros Hs Hm. pose proof (mbytes_length s0 m Hm) as Hl. pose proof Hm as (H0 & _).
  assert (Hm' : mbuf_ok s m) by by eapply mbuf_ok_store.
  eapply wp_mono; [apply m_read_wp; [done|lia|lia|lia]|]. intros b s' [-> ->]. split; [done|].
  rewrite drop_0. replace (mbytes s m) with (mbytes s0 m); [apply take_ge; lia|].
  unfold mbytes, buffer. by destruct Hs as [-> _].
Qed.

Lemma m_append_from s0 s m bs :
  same_store s0 s → mbuf_ok s0 m → has m M_EXT = false →
  m_data m + m_len m + Z.of_nat (length bs) <= MLEN →
  wp (m_write m (m_len m) bs) s (λ m' s', s' = s ∧ ∃ d, m' = set_dat m d ∧
    mbytes s0 (set_len m' (m_len m + Z.of_nat (length bs))) = mbytes s0 m ++ bs ∧
    mbuf_ok s0 (set_len m' (m_len m + Z.of_nat (length bs)))).
Proof.
  intros Hs Hm He Hsp. assert (Hs' : same_store s s0) by (destruct Hs; by split).
  eapply wp_mono; [apply m_append_wp; [by eapply mbuf_ok_store|done|done]|].
  intros m' s' (-> & d & -> & H1 & H2). split; [done|]. exists d. split; [done|]. split.
  - unfold mbytes, buffer in *. destruct Hs as [Hc _]. rewrite Hc in H1. done.
  - by eapply mbuf_ok_store.
Qed.

(** The counts, and how allocation and freeing change them. *)
Definition counts (sb : sockbuf) (ms : list mbuf) : Prop :=
  sb_cc sb = u32 (chain_len ms) ∧ sb_mbcnt sb = u32 (space_of ms).

Lemma u32_add_l a b : u32 (u32 a + b) = u32 (a + b).
Proof. unfold u32. by rewrite Zplus_mod_idemp_l. Qed.

Lemma u32_sub_l a b : u32 (u32 a - b) = u32 (a - b).
Proof. unfold u32. by rewrite Zminus_mod_idemp_l. Qed.

Lemma chain_len_app_sb l1 l2 : chain_len (l1 ++ l2) = chain_len l1 + chain_len l2.
Proof. apply chain_len_app. Qed.

Lemma space_of_app l1 l2 : space_of (l1 ++ l2) = space_of l1 + space_of l2.
Proof. induction l1 as [|m l1 IH]; simpl; lia. Qed.

(** [counts] up to the totals. *)
Lemma counts_eq sb l1 l2 :
  chain_len l1 = chain_len l2 → space_of l1 = space_of l2 → counts sb l1 → counts sb l2.
Proof. unfold counts. by intros -> ->. Qed.

Lemma counts_alloc sb m l : counts sb l → counts (sballoc m sb) (m :: l).
Proof.
  intros [H1 H2]. unfold counts, sballoc. simpl. rewrite H1, H2, !u32_add_l. split; f_equal; lia.
Qed.

Lemma counts_free sb m l : counts sb (m :: l) → counts (sbfree m sb) l.
Proof.
  intros [H1 H2]. unfold counts, sbfree. simpl. rewrite H1, H2, !u32_sub_l. split; f_equal; simpl; lia.
Qed.

Lemma counts_grow sb m m' l :
  counts sb (m :: l) → mb_space m' = mb_space m → ∀ d, m_len m' = m_len m + d →
  counts (with_counts (sb_cc sb + d) (sb_mbcnt sb) sb) (m' :: l).
Proof.
  intros [H1 H2] Hsp d Hl. unfold counts. simpl. rewrite H1, H2, Hsp, Hl, u32_add_l.
  split; [f_equal; simpl; lia|]. simpl. rewrite u32_id; [done|apply u32_range].
Qed.

(** The fields the data routines leave alone. *)
Definition same_limits (sb sb' : sockbuf) : Prop :=
  sb_hiwat sb' = sb_hiwat sb ∧ sb_mbmax sb' = sb_mbmax sb ∧ sb_lowat sb' = sb_lowat sb ∧
  sb_flags sb' = sb_flags sb ∧ sb_mb sb' = sb_mb sb.

#[export] Instance same_limits_preorder : PreOrder same_limits.
Proof.
  split; [by intros sb|]. intros a b c (?&?&?&?&?) (?&?&?&?&?). split_and!; congruence.
Qed.

Lemma same_limits_free m sb : same_limits sb (sbfree m sb).
Proof. done. Qed.

(** ** Dropping *)

Lemma drop_chain_spec s0 ms rest len s sb :
  same_store s0 s → Forall (mbuf_ok s0) ms → Forall (cl_known s0) ms → 0 <= len →
  counts sb (ms ++ rest) →
  wp (drop_chain sb ms len) s (λ r s', let '(sb', ms', len') := r in
    same_store s0 s' ∧ same_limits sb sb' ∧ counts sb' (ms' ++ rest) ∧
    Forall (mbuf_ok s0) ms' ∧ Forall (cl_known s0) ms' ∧
    bytes s0 ms' = drop (Z.to_nat len) (bytes s0 ms) ∧ len' = Z.max 0 (len - chain_len ms) ∧
    (0 < len' → ms' = [])).
Proof.
  intros Hs Hok Hk. revert len s sb Hs. induction Hok as [|m ms Hm Hms IH]; intros len s sb Hs Hl Hc; simpl.
  { destruct (0 <? len) eqn:E; zbool; wp_steps; split_and!; try done; try lia;
      unfold bytes; simpl; by rewrite ?drop_nil. }
  inversion_clear Hk as [|? ? Hk0 Hks]. pose proof (mbytes_length s0 m Hm) as Hlm.
  pose proof (chain_len_nonneg s0 ms Hms). pose proof Hm as (Hm0 & _).
  destruct (0 <? len) eqn:E; zbool.
  2: { wp_steps. replace len with 0 by lia. split_and!; try done; try lia; by constructor. }
  destruct (len <? m_len m) eqn:E2; zbool.
  - wp_steps. destruct (mbytes_trim s0 m len Hm ltac:(lia)) as [Hb Hok'].
    split_and!; try done; try lia; try (by constructor).
    + replace (sb_cc sb - len) with (sb_cc sb + - len) by lia.
      by apply (counts_grow sb m _ (ms ++ rest)); [done|done|simpl; lia].
    + rewrite !bytes_cons, Hb. by rewrite drop_app_le by lia.
  - wp_step. eapply wp_mono; [by apply MFREE_from|]. intros [] s1 Hs1.
    eapply wp_mono; [apply IH; [done|done|lia|by apply counts_free]|].
    intros [[sb' ms'] len'] s' (R1 & R2 & R3 & R4 & R5 & R6 & R7 & R8).
    split_and!; try done; try lia.
    rewrite R6, bytes_cons, drop_app_ge by lia. f_equal. lia.
Qed.

Lemma drop_records_spec s0 ms next len s sb :
  same_store s0 s → Forall (mbuf_ok s0) (ms ++ concat next) → Forall (cl_known s0) (ms ++ concat next) →
  0 <= len → counts sb (ms ++ concat next) →
  (chain_len (ms ++ concat next) < len → drop_records sb ms next len s = Panic) ∧
  (len <= chain_len (ms ++ concat next) →
   wp (drop_records sb ms next len) s (λ r s', let '(sb', ms', next') := r in
    same_store s0 s' ∧ same_limits sb sb' ∧ counts sb' (ms' ++ concat next') ∧
    Forall (mbuf_ok s0) (ms' ++ concat next') ∧ Forall (cl_known s0) (ms' ++ concat next') ∧
    bytes s0 (ms' ++ concat next') = drop (Z.to_nat len) (bytes s0 (ms ++ concat next)) ∧
    next' `suffix_of` next)).
Proof.
  revert ms len s sb; induction next as [|m next IH]; intros ms len s sb Hs Hok Hk Hl Hc.
  all: apply Forall_app in Hok as [Hok1 Hok2]; apply Forall_app in Hk as [Hk1 Hk2].
  all: destruct (proj1 (wp_ok _ _ _) (drop_chain_spec s0 ms _ len s sb Hs Hok1 Hk1 Hl Hc))
    as ([[sb1 ms1] len1] & s1 & E & R1 & R2 & R3 & R4 & R5 & R6 & R7 & R8).
  all: pose proof (bytes_length s0 ms Hok1) as Hlb; pose proof (chain_len_nonneg s0 _ Hok2) as Hn2.
  all: rewrite chain_len_app; unfold wp.
  - assert (Hst : drop_records sb ms [] len s = if 0 <? len1 then Panic else Ok (sb1, ms1, [], s1)).
    { simpl. unfold bind. rewrite E. by destruct (0 <? len1). }
    rewrite Hst. split; intros Hlen; [by rewrite (proj2 (Z.ltb_lt 0 len1)) by lia|].
    simpl in Hlen. rewrite (proj2 (Z.ltb_ge 0 len1)) by lia.
    split_and!; try done; [by apply Forall_app|by apply Forall_app|].
    by rewrite !app_nil_r.
  - assert (Hst : drop_records sb ms (m :: next) len s =
      if 0 <? len1 then drop_records sb1 m next len1 s1 else Ok (sb1, ms1, m :: next, s1)).
    { simpl. unfold bind. rewrite E. by destruct (0 <? len1). }
    rewrite Hst. split; intros Hlen.
    + rewrite (proj2 (Z.ltb_lt 0 len1)) by lia. rewrite R8 in R3 by lia.
      apply (IH m len1 s1 sb1); try done; [lia|]. simpl in *. lia.
    + destruct (0 <? len1) eqn:E1; zbool.
      * rewrite R8 in R3, R6 by done. destruct (IH m len1 s1 sb1) as [_ IH2]; try done; [lia|].
        specialize (IH2 ltac:(simpl in *; lia)). revert IH2. unfold wp.
        destruct (drop_records sb1 m next len1 s1) as [[[[sb2 ms2] next2] s2]| |]; try done.
        intros (Q1 & Q2 & Q3 & Q4 & Q5 & Q6 & Q7). split_and!; try done; [by etrans| |by apply suffix_cons_r].
        rewrite Q6, (bytes_app s0 ms), (drop_app_ge (bytes s0 ms)) by lia. simpl concat. f_equal. lia.
      * split_and!; try done; [by apply Forall_app|by apply Forall_app|].
        rewrite !bytes_app, R6, drop_app_le by lia. done.
Qed.

(** The loop over the empty mbufs. *)
Lemma drop_empty_spec s0 ms rest s sb :
  same_store s0 s → Forall (mbuf_ok s0) ms → Forall (cl_known s0) ms → counts sb (ms ++ rest) →
  wp (drop_empty sb ms) s (λ r s', same_store s0 s' ∧ same_limits sb r.1 ∧ counts r.1 (r.2 ++ rest) ∧
    Forall (mbuf_ok s0) r.2 ∧ Forall (cl_known s0) r.2 ∧ bytes s0 r.2 = bytes s0 ms ∧
    (bytes s0 r.2 = [] → r.2 = [])).
Proof.
  intros Hs Hok Hk. revert s sb Hs. induction Hok as [|m ms Hm Hms IH]; intros s sb Hs Hc; simpl; [by wp_steps|].
  inversion_clear Hk as [|? ? Hk0 Hks]. pose proof (mbytes_length s0 m Hm) as Hlm.
  destruct (m_len m =? 0) eqn:E; zbool.
  - wp_step. eapply wp_mono; [by apply MFREE_from|]. intros [] s1 Hs1.
    eapply wp_mono; [apply IH; [done|done|by apply counts_free]|].
    intros [sb' ms'] s' (R1 & R2 & R3 & R4 & R5 & R6 & R7). split_and!; try done. simpl in *.
    rewrite R6, bytes_cons. destruct (mbytes s0 m); [done|simpl in Hlm; lia].
  - wp_steps. simpl. split_and!; try done; try by constructor. intros Hb. exfalso.
    rewrite bytes_cons in Hb. destruct (mbytes s0 m); [simpl in Hlm; lia|done].
Qed.

(** ** Appending *)

(** A change of [M_EOR] is no change of the data. *)
Definition eor_only (m m' : mbuf) : Prop :=
  m_len m' = m_len m ∧ m_data m' = m_data m ∧ ext_buf m' = ext_buf m ∧ ext_size m' = ext_size m ∧
  m_dat m' = m_dat m ∧ has m' M_EXT = has m M_EXT ∧ has m' M_PKTHDR = has m M_PKTHDR.

Lemma eor_only_ok s m m' : eor_only m m' → mbuf_ok s m → mbuf_ok s m'.
Proof.
  intros (H1 & H2 & H3 & H4 & H5 & H6 & H7). unfold mbuf_ok, buffer. by rewrite H1, H2, H3, H5, H6, H7.
Qed.

Lemma eor_only_known s m m' : eor_only m m' → cl_known s m → cl_known s m'.
Proof. intros (H1 & H2 & H3 & H4 & H5 & H6 & H7). unfold cl_known. by rewrite H3, H6. Qed.

Lemma eor_only_bytes s m m' : eor_only m m' → mbytes s m' = mbytes s m.
Proof. intros (H1 & H2 & H3 & H4 & H5 & H6 & H7). unfold mbytes, buffer. by rewrite H1, H2, H3, H5, H6. Qed.

Lemma eor_only_space m m' : eor_only m m' → mb_space m' = mb_space m.
Proof. intros (H1 & H2 & H3 & H4 & H5 & H6 & H7). unfold mb_space. by rewrite H4, H6. Qed.

Lemma eor_only_counts sb m m' l : eor_only m m' → counts sb (m :: l) → counts sb (m' :: l).
Proof.
  intros H. apply counts_eq; simpl; [destruct H; lia|]. by rewrite (eor_only_space m m').
Qed.

Lemma clear_eor_only m : eor_only m (clear_eor m).
Proof. split_and!; try done; unfold has, clear_eor; simpl; by rewrite <- Z.land_assoc. Qed.

Lemma set_eor_only m eor : eor = 0 ∨ eor = M_EOR → eor_only m (set_eor m eor).
Proof.
  intros H. split_and!; try done; unfold has, set_eor; simpl; rewrite Z.land_lor_distr_l;
    destruct H as [-> | ->]; by rewrite Z.lor_0_r.
Qed.

Lemma no_ext_eor n : has n (Z.lor M_EXT M_EOR) = false → has n M_EXT = false.
Proof.
  unfold has, ztrue. rewrite !negb_false_iff, !Z.eqb_eq, Z.land_lor_distr_r. intros H.
  by apply Z.lor_eq_0_iff in H as [? _].
Qed.

Lemma eor_step eor f : eor = 0 ∨ eor = M_EOR → Z.lor eor (Z.land f M_EOR) = 0 ∨ Z.lor eor (Z.land f M_EOR) = M_EOR.
Proof.
  assert (Hf : Z.land f M_EOR = 0 ∨ Z.land f M_EOR = M_EOR).
  { unfold M_EOR. change 4 with (2 ^ 2). destruct (Z.testbit f 2) eqn:E; [right|left];
      apply Z.bits_inj'; intros i Hi; rewrite Z.land_spec, ?Z.bits_0, Z.pow2_bits_eqb by lia;
      destruct (Z.eqb_spec 2 i) as [<-|]; by rewrite ?E, ?andb_false_r. }
  intros [-> | ->]; destruct Hf as [-> | ->]; auto.
Qed.

Lemma compress_loop_spec s0 m n eor rest s sb :
  same_store s0 s → Forall (mbuf_ok s0) (option_list n ++ m) → Forall (cl_known s0) (option_list n ++ m) →
  eor = 0 ∨ eor = M_EOR → counts sb (option_list n ++ rest) →
  wp (compress_loop sb m n eor) s (λ r s', same_store s0 s' ∧ same_limits sb r.1 ∧
    counts r.1 (r.2 ++ rest) ∧ Forall (mbuf_ok s0) r.2 ∧ Forall (cl_known s0) r.2 ∧
    bytes s0 r.2 = bytes s0 (option_list n ++ m) ∧ (n ≠ None → r.2 ≠ [])).
Proof.
  revert n eor rest s sb; induction m as [|m0 mn IH]; intros n eor rest s sb Hs Hok Hk He Hc; simpl.
  { destruct n as [n|]; wp_steps; [|by split_and!]. rewrite !app_nil_r in *. simpl in *.
    inversion_clear Hok as [|? ? Hn _]. inversion_clear Hk as [|? ? Hkn _].
    assert (Ho : eor_only n (if eor =? 0 then n else set_eor n eor)) by (ifs; [done|by apply set_eor_only]).
    split_and!; try done.
    - by eapply eor_only_counts.
    - constructor; [by eapply eor_only_ok|done].
    - constructor; [by eapply eor_only_known|done].
    - by rewrite !bytes_cons, (eor_only_bytes s0 n). }
  pose proof (eor_step eor (m_flags m0) He) as He'.
  apply Forall_app in Hok as [Hokn Hok]. inversion_clear Hok as [|? ? Hm Hms].
  apply Forall_app in Hk as [Hkn Hk]. inversion_clear Hk as [|? ? Hkm Hks].
  pose proof (mbytes_length s0 m0 Hm) as Hlm. pose proof (clear_eor_only m0) as Hce.
  destruct ((m_len m0 =? 0) && _) eqn:E.
  - (* an empty mbuf *)
    apply andb_true_iff in E as [E _]. zbool. wp_step. eapply wp_mono; [by apply MFREE_from|].
    intros [] s1 Hs1. eapply wp_mono; [apply IH; try done; by apply Forall_app|].
    intros [sb' l] s' (R1 & R2 & R3 & R4 & R5 & R6 & R7). split_and!; try done.
    rewrite R6, !bytes_app, bytes_cons. destruct (mbytes s0 m0); [done|simpl in Hlm; lia].
  - destruct n as [n|].
    + inversion_clear Hokn as [|? ? Hn _]. inversion_clear Hkn as [|? ? Hkn' _].
      destruct (negb (has n (Z.lor M_EXT M_EOR)) && _ && _) eqn:E2.
      * (* copied into the last mbuf *)
        apply andb_true_iff in E2 as [E2 _]. zbool. pose proof (no_ext_eor n ltac:(done)) as Hne. wp_step.
        eapply wp_mono; [by apply m_read_from|]. intros b s' [-> ->]. wp_step.
        eapply wp_mono; [apply (m_append_from s0); [done|done|done|lia]|].
        intros n1 s' (-> & d & -> & Hb1 & Hok1). rewrite Hlm in *. wp_step.
        eapply wp_mono; [by apply MFREE_from|]. intros [] s1 Hs1.
        change (m_len (set_dat n d)) with (m_len n).
        eapply wp_mono; [apply (IH (Some (set_len (set_dat n d) (m_len n + m_len m0))) _ rest); try done|].
        -- by constructor.
        -- constructor; [|done]. done.
        -- by apply (counts_grow sb n _ rest).
        -- intros [sb' l] s' (R1 & R2 & R3 & R4 & R5 & R6 & R7). split_and!; try done;
             [|intros _; by apply R7].
           rewrite R6. simpl. rewrite !bytes_cons, Hb1. by rewrite <- app_assoc.
      * (* linked behind it *)
        wp_step. eapply wp_mono; [apply (IH (Some (clear_eor m0)) _ (n :: rest)); try done|].
        -- constructor; [by eapply eor_only_ok|done].
        -- constructor; [by eapply eor_only_known|done].
        -- simpl. eapply eor_only_counts; [done|]. by apply counts_alloc.
        -- intros [sb' l] s' (R1 & R2 & R3 & R4 & R5 & R6 & R7). wp_step. simpl in *. split_and!; try done.
           ++ revert R3. apply counts_eq; simpl; rewrite ?chain_len_app, ?space_of_app; simpl; lia.
           ++ by constructor.
           ++ by constructor.
           ++ rewrite !bytes_cons, R6, !bytes_cons. by rewrite (eor_only_bytes s0 m0 (clear_eor m0)).
    + eapply wp_mono; [apply (IH (Some (clear_eor m0)) _ rest); try done|].
      * constructor; [by eapply eor_only_ok|done].
      * constructor; [by eapply eor_only_known|done].
      * simpl. eapply eor_only_counts; [done|]. by apply counts_alloc.
      * intros [sb' l] s' (R1 & R2 & R3 & R4 & R5 & R6 & R7). simpl in *. split_and!; try done.
        rewrite R6, !bytes_cons. by rewrite (eor_only_bytes s0 m0 (clear_eor m0)).
Qed.

(** ** Properties *)

Lemma sb_ok_intro s0 s sb sb' recs :
  same_store s0 s → same_limits sb sb' → counts sb' (concat recs) → Forall (mbuf_ok s0) (concat recs) →
  Forall (cl_known s0) (concat recs) → Forall (.≠ []) recs → sb_ok s (with_mb recs sb').
Proof.
  intros Hs _ [H1 H2] H3 H4 H5. unfold sb_ok, mbufs. simpl. split_and!; try done.
  - eapply (Forall_store mbuf_ok s0); [|done]. intros x. by apply mbuf_ok_store.
  - eapply (Forall_store cl_known s0); [|done]. intros x. by apply cl_known_store.
Qed.

Lemma sb_ok_empty_space s sb :
  sb_ok s sb → space_of (mbufs sb) < 4294967296 → Forall (λ m, 0 <= ext_size m) (mbufs sb) →
  sb_mbcnt sb = 0 → mbufs sb = [].
Proof.
  intros (_ & Hm & _) Hs He Hz. rewrite Hm in Hz. destruct (mbufs sb) as [|m l]; [done|].
  assert (Hnn : ∀ l, Forall (λ m, 0 <= ext_size m) l → 0 <= space_of l).
  { clear. induction 1 as [|m l Hm Hl IH]; [done|]. simpl. unfold mb_space, MSIZE. destruct (has m M_EXT); lia. }
  inversion_clear He as [|? ? Hm0 Hl]. specialize (Hnn l Hl). simpl in *.
  assert (128 <= mb_space m) by (unfold mb_space, MSIZE; destruct (has m M_EXT); lia).
  rewrite u32_id in Hz by (unfold is_u32; lia). lia.
Qed.

Lemma sbdrop_spec s sb len :
  sb_ok s sb → 0 <= len →
  (chain_len (mbufs sb) < len → sbdrop sb len s = Panic) ∧
  (len <= chain_len (mbufs sb) →
   wp (sbdrop sb len) s (λ sb' s', same_store s s' ∧ sb_ok s' sb' ∧ sb_flags sb' = sb_flags sb ∧
     sb_bytes s sb' = drop (Z.to_nat len) (sb_bytes s sb) ∧
     (sb_bytes s sb' = [] → sb_mb sb' `suffix_of` tail (sb_mb sb)))).
Proof.
  intros (Hcc & Hmb & Hok & Hk & Hne) Hl. unfold sbdrop, sb_bytes.
  assert (Hc : counts sb (mbufs sb)) by by split.
  set (mn := match sb_mb sb with [] => ([], []) | m :: next => (m, next) end).
  assert (Hmn : mbufs sb = mn.1 ++ concat mn.2 ∧ mn.2 = tail (sb_mb sb) ∧ Forall (.≠ []) mn.2).
  { unfold mn, mbufs. destruct (sb_mb sb); [done|]. inversion_clear Hne. by split_and!. }
  destruct mn as [m next]. simpl in Hmn. destruct Hmn as (Hmn & Hnx & Hne').
  rewrite Hmn in Hc, Hok, Hk |- *.
  destruct (drop_records_spec s m next len s sb ltac:(done) Hok Hk Hl Hc) as [Hp Hw]. split.
  - intros Hlen. unfold bind. by rewrite Hp by done.
  - intros Hlen. wp_step. eapply wp_mono; [by apply Hw|].
    intros [[sb1 m1] next1] s1 (R1 & R2 & R3 & R4 & R5 & R6 & R7). wp_step.
    apply Forall_app in R4 as [R41 R42]. apply Forall_app in R5 as [R51 R52].
    eapply wp_mono; [by apply (drop_empty_spec s m1 (concat next1))|].
    intros [sb2 m2] s2 (Q1 & Q2 & Q3 & Q4 & Q5 & Q6 & Q7). wp_step. simpl in *.
    assert (Hcat : concat (match m2 with [] => next1 | _ => m2 :: next1 end) = m2 ++ concat next1)
      by by destruct m2.
    split; [done|]. split.
    { eapply (sb_ok_intro s s2 sb1); try rewrite Hcat; try done; [by apply Forall_app..|].
      destruct R7 as [k ->]. apply Forall_app in Hne' as [_ Hne'].
      destruct m2; [done|]. by constructor. }
    split; [destruct Q2 as (_ & _ & _ & -> & _); by destruct R2 as (_ & _ & _ & -> & _)|].
    unfold mbufs. simpl. rewrite Hcat, bytes_app, Q6, <- bytes_app. split; [done|].
    rewrite bytes_app. intros Hnil. apply app_eq_nil in Hnil as [Hnil _].
    rewrite Q7 by by rewrite Q6. by rewrite <- Hnx.
Qed.

Lemma compress_record_spec s m0 m rest sb :
  Forall (mbuf_ok s) (m0 :: m) → Forall (cl_known s) (m0 :: m) → counts sb rest →
  wp (compress_record sb m0 m) s (λ r s', same_store s s' ∧ same_limits sb r.1 ∧
    counts r.1 (r.2 ++ rest) ∧ Forall (mbuf_ok s) r.2 ∧ Forall (cl_known s) r.2 ∧
    bytes s r.2 = bytes s (m0 :: m) ∧ r.2 ≠ []).
Proof.
  intros Hok Hk Hc. unfold compress_record.
  assert (Hp : ∃ m0' m', pass_eor m0 m = (m0', m') ∧ eor_only m0 m0' ∧ Forall2 eor_only m m').
  { assert (Hrefl : ∀ x, eor_only x x) by done.
    assert (Hall : ∀ l, Forall2 eor_only l l) by (intros l; induction l; by constructor).
    unfold pass_eor. destruct m as [|m1 m]; [eexists _, _; by split_and!|].
    destruct (has m0 M_EOR); eexists _, _; (split; [done|]); [|by split].
    split; [apply clear_eor_only|]. constructor; [apply set_eor_only; by right|done]. }
  destruct Hp as (m0' & m' & -> & H0 & Hm').
  inversion_clear Hok as [|? ? Hm0 Hm]. inversion_clear Hk as [|? ? Hk0 Hkm].
  assert (Hok' : Forall (mbuf_ok s) m').
  { eapply Forall2_Forall_r; [exact Hm'|]. eapply Forall_impl; [exact Hm|]. intros x Hx y Hy. by eapply eor_only_ok. }
  assert (Hk' : Forall (cl_known s) m').
  { eapply Forall2_Forall_r; [exact Hm'|]. eapply Forall_impl; [exact Hkm|]. intros x Hx y Hy. by eapply eor_only_known. }
  assert (Hb' : bytes s m' = bytes s m).
  { clear -Hm'. induction Hm' as [|x y l l' Hxy _ IH]; [done|].
    by rewrite !bytes_cons, IH, (eor_only_bytes s x y). }
  eapply wp_mono; [apply (compress_loop_spec s m' (Some m0') 0 rest); try done|].
  - constructor; [by eapply eor_only_ok|done].
  - constructor; [by eapply eor_only_known|done].
  - by left.
  - simpl. apply counts_alloc; done.
  - intros r s' (R1 & R2 & R3 & R4 & R5 & R6 & R7). split_and!; try done.
    + rewrite R6. simpl. by rewrite !bytes_cons, Hb', (eor_only_bytes s m0 m0').
    + by apply R7.
Qed.

Lemma records_store s s' (l : list (list mbuf)) : same_store s s' → bytes s' <$> l = bytes s <$> l.
Proof. intros Hs. apply list_fmap_ext. intros _ x _. by apply bytes_store. Qed.

(** Does the last record go on: it has no mbuf with [M_EOR]? *)
Definition open_record (sb : sockbuf) : bool :=
  match last (sb_mb sb) with Some n => negb (existsb (λ x, has x M_EOR) n) | None => false end.

(** The records after [b] is appended: at the end of the last one if that is [open],
    else as one of its own. *)
Definition append_bytes (open : bool) (recs : list (list Z)) (b : list Z) : list (list Z) :=
  match last recs with
  | Some r => if open then removelast recs ++ [r ++ b] else recs ++ [b]
  | None => [b]
  end.

(** A record added at the end. *)
Lemma sbappendrecord_spec s sb m :
  sb_ok s sb → Forall (mbuf_ok s) m → Forall (cl_known s) m →
  wp (sbappendrecord sb m) s (λ sb' s', same_store s s' ∧ sb_ok s' sb' ∧
    sb_bytes s' sb' = sb_bytes s sb ++ bytes s m ∧ (m ≠ [] → records s' sb' = records s sb ++ [bytes s m])).
Proof.
  intros Hsb Hok Hk. destruct m as [|m0 m]; [wp_steps; split_and!; try done; by rewrite app_nil_r|].
  pose proof Hsb as (Hcc & Hmb & Hok0 & Hk0 & Hne). unfold sbappendrecord. wp_step.
  eapply wp_mono; [apply (compress_record_spec s m0 m (mbufs sb)); done|].
  intros r s' (R1 & R2 & R3 & R4 & R5 & R6 & R7). wp_step. split; [done|].
  assert (Hcat : concat (sb_mb sb ++ [r.2]) = mbufs sb ++ r.2).
  { rewrite concat_app. simpl. by rewrite app_nil_r. }
  split.
  - eapply (sb_ok_intro s s' sb); try rewrite Hcat; try done; [|by apply Forall_app..|].
    + revert R3. apply counts_eq; rewrite ?chain_len_app, ?space_of_app; lia.
    + apply Forall_app. split; [done|]. by constructor.
  - split; [unfold sb_bytes, mbufs; simpl; by rewrite Hcat, (bytes_store s s'), bytes_app, R6 by done|].
    intros _. unfold records. simpl. rewrite fmap_app. simpl. by rewrite (records_store s s'), (bytes_store s s'), R6 by done.
Qed.

Lemma sbappend_wp s sb m :
  sb_ok s sb → Forall (mbuf_ok s) m → Forall (cl_known s) m →
  wp (sbappend sb m) s (λ sb' s', same_store s s' ∧ sb_ok s' sb' ∧
    sb_bytes s' sb' = sb_bytes s sb ++ bytes s m ∧ (m = [] → sb' = sb) ∧
    (m ≠ [] → records s' sb' = append_bytes (open_record sb) (records s sb) (bytes s m) ∨
      records s sb = [] ∧ records s' sb' = [] ∧ bytes s m = [])).
Proof.
  intros Hsb Hok Hk. unfold sbappend.
  destruct m as [|m0 m]; [wp_steps; split_and!; try done; by rewrite app_nil_r|].
  assert (Hlast : last (records s sb) = bytes s <$> last (sb_mb sb)) by apply fmap_last.
  unfold append_bytes, open_record. rewrite Hlast.
  destruct (last (sb_mb sb)) as [n|] eqn:El; cbn [fmap option_fmap option_map].
  2: { apply last_None in El. pose proof Hsb as (Hcc & Hmb & Hok0 & Hk0 & Hne).
       assert (Hnil : mbufs sb = []) by (unfold mbufs; by rewrite El). wp_step.
       eapply wp_mono; [apply (compress_loop_spec s (m0 :: m) None 0 []); try done; [by left|]|].
       { rewrite Hnil in *. by split. }
       intros r s' (R1 & R2 & R3 & R4 & R5 & R6 & R7). wp_step. rewrite app_nil_r in R3.
       assert (Hcat : concat (match r.2 with [] => [] | c => [c] end) = r.2).
       { destruct (r.2); [done|]. simpl. by rewrite app_nil_r. }
       split; [done|]. split.
       - eapply (sb_ok_intro s s' sb); try rewrite Hcat; try done.
         destruct (r.2); [done|]. by constructor.
       - unfold sb_bytes. rewrite Hnil. unfold mbufs. simpl. rewrite Hcat, (bytes_store s s'), R6 by done.
         split; [done|]. split; [done|]. intros _. unfold records. simpl. rewrite El. simpl in R6.
         destruct (r.2) as [|c cs]; [right; split; [done|]; by split|left]. simpl. by rewrite (bytes_store s s'), R6 by done. }
  destruct (existsb _ n).
  { eapply wp_mono; [by apply sbappendrecord_spec|]. intros sb' s' (R1 & R2 & R3 & R4).
    split; [done|]. split; [done|]. split; [done|]. split; [done|]. left. by apply R4. }
  apply last_Some in El as [recs Hrecs]. pose proof Hsb as (Hcc & Hmb & Hok0 & Hk0 & Hne).
  assert (Hall : mbufs sb = concat recs ++ n).
  { unfold mbufs. rewrite Hrecs, concat_app. simpl. by rewrite app_nil_r. }
  rewrite Hrecs in Hne. apply Forall_app in Hne as [Hne Hn]. apply Forall_cons in Hn as [Hn _].
  destruct (last n) as [l|] eqn:Eln; [|by apply last_None in Eln].
  apply last_Some in Eln as [ini ->]. rewrite Hall, app_assoc in Hok0, Hk0.
  apply Forall_app in Hok0 as [Hok0 Hokl]. apply Forall_app in Hk0 as [Hk0 Hkl]. wp_step.
  eapply wp_mono; [apply (compress_loop_spec s (m0 :: m) (Some l) 0 (concat recs ++ ini)); try done|].
  - apply Forall_app. by split.
  - apply Forall_app. by split.
  - by left.
  - apply (counts_eq sb (mbufs sb)); [..|by split]; rewrite Hall; simpl;
      rewrite ?chain_len_app, ?space_of_app; simpl; lia.
  - intros r s' (R1 & R2 & R3 & R4 & R5 & R6 & R7). wp_step.
    rewrite Hrecs, !removelast_last.
    assert (Hcat : concat (recs ++ [ini ++ r.2]) = (concat recs ++ ini) ++ r.2).
    { rewrite concat_app. simpl. by rewrite app_nil_r, app_assoc. }
    split; [done|]. split.
    + eapply (sb_ok_intro s s' sb); try rewrite Hcat; try done; [|by apply Forall_app..|].
      * revert R3. apply counts_eq; rewrite ?chain_len_app, ?space_of_app; lia.
      * apply Forall_app. split; [done|]. constructor; [|done]. intros Hx. apply app_eq_nil in Hx as [_ Hx].
        by apply R7.
    + assert (Hb : bytes s' r.2 = bytes s [l] ++ bytes s (m0 :: m)).
      { rewrite (bytes_store s s'), R6 by done. simpl. rewrite !bytes_cons. unfold bytes at 3. simpl. by rewrite app_nil_r. }
      split; [unfold sb_bytes; rewrite Hall; unfold mbufs; simpl; rewrite Hcat, !bytes_app, Hb, !app_assoc;
        rewrite !(bytes_store s s') by done; done|].
      split; [done|]. intros _. left. unfold records. simpl. rewrite Hrecs, !fmap_app. simpl.
      rewrite removelast_last, (records_store s s'), !bytes_app, Hb, app_assoc by done. by rewrite (bytes_store s s') by done.
Qed.

(** C22: [sbappend] adds a packet at the end of the last record: the bytes of that
    record are the old ones followed by those of the packet, whatever mbufs are copied,
    linked or dropped as empty; a record that an mbuf with [M_EOR] ends stays as it is
    and the packet is a new one, as in an empty buffer (which stays empty when the packet
    has no bytes and all its mbufs are dropped).  The other records are not touched, and
    the counts stay those of the mbufs. *)
Theorem sbappend_correct s sb m :
  sb_ok s sb → Forall (mbuf_ok s) m → Forall (cl_known s) m →
  wp (sbappend sb m) s (λ sb' s', same_store s s' ∧ sb_ok s' sb' ∧
    sb_bytes s' sb' = sb_bytes s sb ++ bytes s m ∧ (m = [] → sb' = sb) ∧
    (m ≠ [] → records s' sb' = append_bytes (open_record sb) (records s sb) (bytes s m) ∨
      records s sb = [] ∧ records s' sb' = [] ∧ bytes s m = [])).
Proof. apply sbappend_wp. Qed.

(** C23: [sbdrop] removes exactly [len] bytes from the front and keeps the counts,
    and panics if there are fewer. *)
Theorem sbdrop_correct s sb len :
  sb_ok s sb → 0 <= len →
  (chain_len (mbufs sb) < len → sbdrop sb len s = Panic) ∧
  (len <= chain_len (mbufs sb) →
   wp (sbdrop sb len) s (λ sb' s', same_store s s' ∧ sb_ok s' sb' ∧
     sb_bytes s' sb' = drop (Z.to_nat len) (sb_bytes s sb))).
Proof.
  intros Hok Hl. destruct (sbdrop_spec s sb len Hok Hl) as [H1 H2]. split; [done|]. intros Hlen.
  eapply wp_mono; [by apply H2|]. intros sb' s' (R1 & R2 & _ & R3 & _). split; [done|]. split; [done|].
  unfold sb_bytes in *. by rewrite (bytes_store s s').
Qed.

(** What [sbflush] relies on: lengths and sizes are those of data in memory. *)
Definition flushable (sb : sockbuf) : Prop :=
  chain_len (mbufs sb) < 2147483648 ∧ space_of (mbufs sb) < 4294967296 ∧
  Forall (λ m, 0 <= ext_size m) (mbufs sb).

Lemma no_mbufs_no_records sb : Forall (.≠ []) (sb_mb sb) → mbufs sb = [] → sb_mb sb = [].
Proof.
  unfold mbufs. destruct (sb_mb sb) as [|r recs]; [done|]. intros H. inversion_clear H.
  simpl. intros Hn. by apply app_eq_nil in Hn as [? _].
Qed.

Lemma flushable_suffix sb sb' :
  flushable sb → sb_mb sb' `suffix_of` tail (sb_mb sb) → chain_len (mbufs sb') = 0 → flushable sb'.
Proof.
  intros (H1 & H2 & H3) [k Hk] Hz. unfold flushable. rewrite Hz.
  assert (Hpre : ∃ pre, mbufs sb = pre ++ mbufs sb').
  { unfold mbufs. destruct (sb_mb sb) as [|r recs]; simpl in Hk.
    - exists []. symmetry in Hk. apply app_eq_nil in Hk as [_ ->]. done.
    - rewrite Hk. exists (r ++ concat k). simpl. by rewrite concat_app, app_assoc. }
  destruct Hpre as [pre Hp]. rewrite Hp in H2, H3. rewrite space_of_app in H2.
  apply Forall_app in H3 as [H31 H32]. split; [lia|]. split; [|done].
  assert (0 <= space_of pre); [|lia]. clear -H31. induction H31 as [|m l Hm _ IH]; [done|].
  simpl. unfold mb_space, MSIZE. destruct (has m M_EXT); lia.
Qed.

Lemma flush_loop_spec fuel s sb :
  sb_ok s sb → flushable sb → (length (sb_mb sb) <= fuel)%nat →
  wp (flush_loop fuel sb) s (λ sb' s', same_store s s' ∧ sb_mb sb' = [] ∧ sb_cc sb' = 0 ∧ sb_mbcnt sb' = 0).
Proof.
  revert s sb; induction fuel as [|fuel IH]; intros s sb Hok Hfl Hf.
  all: pose proof Hok as (Hcc & Hmb & Hms & Hk & Hne); simpl; destruct (sb_mbcnt sb =? 0) eqn:E; zbool.
  1, 3: wp_steps; pose proof (sb_ok_empty_space s sb Hok ltac:(apply Hfl) ltac:(apply Hfl) E) as Hm;
    rewrite Hcc, Hm; split_and!; try done; by apply no_mbufs_no_records.
  - exfalso. destruct (sb_mb sb) eqn:Emb; [|simpl in Hf; lia]. unfold mbufs in Hmb. by rewrite Emb in Hmb.
  - pose proof (chain_len_nonneg s _ Hms) as Hnn. destruct Hfl as (Hf1 & Hf2 & Hf3).
    assert (Hcv : s32 (sb_cc sb) = chain_len (mbufs sb)).
    { rewrite Hcc, s32_u32. apply s32_id. unfold is_s32. lia. }
    wp_step. rewrite Hcv. eapply wp_mono; [apply (sbdrop_spec s sb (chain_len (mbufs sb))); [done|lia|lia]|].
    intros sb1 s1 (R1 & R2 & R3 & R4 & R5).
    assert (Hb : sb_bytes s sb1 = []).
    { rewrite R4. apply drop_ge. unfold sb_bytes. pose proof (bytes_length s _ Hms). lia. }
    specialize (R5 Hb). pose proof R2 as (_ & _ & Hms1 & _).
    assert (Hz : chain_len (mbufs sb1) = 0).
    { rewrite <- (bytes_length s1), (bytes_store s s1) by done. unfold sb_bytes in Hb. by rewrite Hb. }
    eapply wp_mono; [apply IH; [done|eapply flushable_suffix; done|]|].
    + apply suffix_length in R5. destruct (sb_mb sb) eqn:Emb; simpl in *; [|lia].
      exfalso. apply E. rewrite Hmb. unfold mbufs. by rewrite Emb.
    + intros sb2 s2 (Q1 & Q2). split; [by etrans|done].
Qed.

(** [sbflush] of an unlocked buffer ends, after at most as many calls of
    [sbdrop] as there are records, with an empty buffer and both counts zero:
    neither of its panics is reached. *)
Theorem sbflush_correct s sb fuel :
  sb_ok s sb → flushable sb → Z.land (sb_flags sb) SB_LOCK = 0 → (length (sb_mb sb) <= fuel)%nat →
  wp (sbflush fuel sb) s (λ sb' s', same_store s s' ∧ sb_mb sb' = [] ∧ sb_cc sb' = 0 ∧ sb_mbcnt sb' = 0).
Proof.
  intros Hok Hfl Hlk Hf. unfold sbflush, ztrue. rewrite Hlk. simpl. wp_step.
  eapply wp_mono; [by apply flush_loop_spec|]. intros sb' s' (R1 & R2 & R3 & R4).
  rewrite R2, R3. simpl. by wp_steps.
Qed.

Lemma counts_alloc_chain ms sb l : counts sb l → counts (alloc_chain ms sb) (ms ++ l).
Proof.
  revert sb l; induction ms as [|m ms IH]; intros sb l Hc; [done|]. simpl.
  apply (counts_eq _ (ms ++ m :: l)); [rewrite !chain_len_app; simpl; rewrite chain_len_app; lia|
    rewrite !space_of_app; simpl; rewrite space_of_app; lia|].
  by apply IH, counts_alloc.
Qed.

Lemma same_limits_alloc_chain ms sb : same_limits sb (alloc_chain ms sb).
Proof. revert sb; induction ms as [|m ms IH]; intros sb; [done|]. simpl. by etrans; [|apply IH]. Qed.

(** A record queued as it is. *)
Lemma queue_record s s' sb r :
  same_store s s' → sb_ok s sb → r ≠ [] → Forall (mbuf_ok s) r → Forall (cl_known s) r →
  sb_ok s' (with_mb (sb_mb sb ++ [r]) (alloc_chain r sb)) ∧
  sb_bytes s' (with_mb (sb_mb sb ++ [r]) (alloc_chain r sb)) = sb_bytes s sb ++ bytes s r.
Proof.
  intros Hs (Hcc & Hmb & Hok & Hk & Hne) Hr Hokr Hkr.
  assert (Hcat : concat (sb_mb sb ++ [r]) = mbufs sb ++ r).
  { rewrite concat_app. simpl. by rewrite app_nil_r. }
  split.
  - eapply (sb_ok_intro s s' sb); try rewrite Hcat; try done; [apply same_limits_alloc_chain| |by apply Forall_app..|].
    + apply (counts_eq _ (r ++ mbufs sb)); [rewrite !chain_len_app; lia|rewrite !space_of_app; lia|].
      by apply counts_alloc_chain.
    + apply Forall_app. split; [done|]. by constructor.
  - unfold sb_bytes, mbufs. simpl. by rewrite Hcat, (bytes_store s s'), bytes_app.
Qed.

Lemma sbappendcontrol_spec s sb m0 control :
  sb_ok s sb → control ≠ [] → Forall (mbuf_ok s) (control ++ m0) → Forall (cl_known s) (control ++ m0) →
  wp (sbappendcontrol sb m0 control) s (λ r s', s' = s ∧ sb_ok s r.1 ∧
    ((r = (sb, 0) ∧ sbspace sb < chain_len (control ++ m0)) ∨
     (r.2 = 1 ∧ chain_len (control ++ m0) <= sbspace sb ∧
      sb_bytes s r.1 = sb_bytes s sb ++ bytes s control ++ bytes s m0))).
Proof.
  intros Hsb Hc Hok Hk. unfold sbappendcontrol. destruct control as [|c0 control]; [done|].
  rewrite <- chain_len_app. destruct (sbspace sb <? _) eqn:E; zbool; wp_steps.
  - split; [done|]. split; [done|]. by left.
  - destruct (queue_record s s sb ((c0 :: control) ++ m0)) as [H1 H2]; try done.
    split; [done|]. split; [done|]. right. rewrite bytes_app in H2. done.
Qed.

(** [sbappendaddr] queues the address, the control message and the data as
    one record, exactly if there is room for all of it, the address fits an mbuf
    and there is one; otherwise it returns 0 and the buffer is unchanged. *)
Theorem sbappendaddr_correct drain junk junk_len s sb asa m0 control :
  (∀ s, same_store s (drain s)) → Z.of_nat (length junk) = MLEN →
  sb_ok s sb → Forall (mbuf_ok s) (control ++ m0) → Forall (cl_known s) (control ++ m0) →
  (match m0 with m :: _ => has m M_PKTHDR = true ∧ pkthdr_len m = chain_len m0 | [] => True end) →
  wp (sbappendaddr drain junk junk_len sb asa m0 control) s (λ r s', same_store s s' ∧ sb_ok s' r.1 ∧
    let need := Z.of_nat (length asa) + chain_len m0 + chain_len control in
    ((r = (sb, 0) ∧ (sbspace sb < need ∨ MLEN < Z.of_nat (length asa) ∨ oracle s ≠ [])) ∨
     (r.2 = 1 ∧ need <= sbspace sb ∧
      sb_bytes s' r.1 = sb_bytes s sb ++ asa ++ bytes s control ++ bytes s m0))).
Proof.
  intros Hdr Hj Hsb Hok Hk Hhd. unfold sbappendaddr. wp_step.
  assert (Hpk : wp (match m0 with m :: _ => if has m M_PKTHDR then ret (pkthdr_len m) else panic
    | [] => ret 0 end) s (λ p s', s' = s ∧ p = chain_len m0)).
  { destruct m0 as [|x m0]; [by wp_steps|]. destruct Hhd as [-> ->]. by wp_steps. }
  eapply wp_mono; [exact Hpk|]. intros p s' [-> ->]. set (need := _ + _ + _).
  assert (Hsb' : ∀ s', same_store s s' → sb_ok s' sb).
  { intros s' Hs. destruct Hsb as (H1 & H2 & H3 & H4 & H5). split_and!; try done.
    - eapply (Forall_store mbuf_ok s); [|done]. intros x. by apply mbuf_ok_store.
    - eapply (Forall_store cl_known s); [|done]. intros x. by apply cl_known_store. }
  destruct (sbspace sb <? need) eqn:E; zbool; [by wp_steps; split_and!; auto|].
  destruct (MLEN <? _) eqn:E2; zbool; [by wp_steps; split_and!; auto|]. wp_step.
  eapply wp_mono; [by apply mget_wp|]. intros r s1 (Hs1 & [-> | ->] & Hor).
  2: { wp_steps. split; [done|]. split; [by apply Hsb'|]. left. split; [done|]. right. right.
       intros Ho. by destruct (Hor Ho). }
  wp_step. eapply wp_mono; [apply (m_fill_wp junk Hj); try done; simpl; lia|].
  intros m s2 (-> & d & -> & Hb & Hm). wp_step. split; [done|].
  set (m := set_dat _ _) in *. assert (Hs10 : same_store s1 s) by (destruct Hs1; by split).
  destruct (queue_record s s1 sb (m :: control ++ m0)) as [H1 H2]; try done.
  { constructor; [by eapply mbuf_ok_store|done]. }
  { by constructor. }
  split; [done|]. right. split; [done|]. split; [done|]. etrans; [exact H2|].
  rewrite bytes_cons, bytes_app. do 2 f_equal. rewrite <- Hb. unfold mbytes, buffer. by destruct Hs1 as [-> _].
Qed.

(** ** Examples *)

Definition ex_sb : sockbuf := SB 148 4096 256 8192 1 [ex_chain] 0.

Lemma ex_sb_ok : sb_ok ex_state ex_sb.
Proof.
  split; [done|]. split; [done|]. split; [apply ex_chain_ok|]. split; [apply ex_chain_known|].
  by repeat constructor.
Qed.

Lemma sbappend_correct_witness :
  wp (sbappend ex_sb ex_chain) ex_state (λ sb' s', same_store ex_state s' ∧ sb_ok s' sb' ∧
    sb_bytes s' sb' = sb_bytes ex_state ex_sb ++ bytes ex_state ex_chain ∧ (ex_chain = [] → sb' = ex_sb) ∧
    (ex_chain ≠ [] → records s' sb' = append_bytes (open_record ex_sb) (records ex_state ex_sb) (bytes ex_state ex_chain) ∨
      records ex_state ex_sb = [] ∧ records s' sb' = [] ∧ bytes ex_state ex_chain = [])).
Proof. apply (sbappend_correct ex_state ex_sb ex_chain ex_sb_ok ex_chain_ok ex_chain_known). Defined.

Lemma sbdrop_correct_witness :
  sbdrop ex_sb 149 ex_state = Panic ∧
  wp (sbdrop ex_sb 60) ex_state (λ sb' s', same_store ex_state s' ∧ sb_ok s' sb' ∧
    sb_bytes s' sb' = drop (Z.to_nat 60) (sb_bytes ex_state ex_sb)).
Proof.
  split.
  - apply (sbdrop_correct ex_state ex_sb 149 ex_sb_ok ltac:(lia)). by vm_compute.
  - apply (sbdrop_correct ex_state ex_sb 60 ex_sb_ok ltac:(lia)). vm_compute. discriminate.
Defined.

Lemma sbflush_correct_witness :
  wp (sbflush 1 ex_sb) ex_state (λ sb' s', same_store ex_state s' ∧ sb_mb sb' = [] ∧ sb_cc sb' = 0 ∧
    sb_mbcnt sb' = 0).
Proof.
  apply (sbflush_correct ex_state ex_sb 1 ex_sb_ok).
  - split; [by vm_compute|]. split; [by vm_compute|]. by repeat constructor.
  - done.
  - simpl. lia.
Defined.

Lemma sbappendaddr_correct_witness :
  wp (sbappendaddr id (replicate 108 0) 0 ex_sb [16; 2; 0; 80] ex_chain []) ex_state
    (λ r s', same_store ex_state s' ∧ sb_ok s' r.1 ∧
      ((r = (ex_sb, 0) ∧ (sbspace ex_sb < 4 + chain_len ex_chain + 0 ∨ MLEN < 4 ∨ oracle ex_state ≠ [])) ∨
       (r.2 = 1 ∧ 4 + chain_len ex_chain + 0 <= sbspace ex_sb ∧
        sb_bytes s' r.1 = sb_bytes ex_state ex_sb ++ [16; 2; 0; 80] ++ [] ++ bytes ex_state ex_chain))).
Proof.
  apply (sbappendaddr_correct id (replicate 108 0) 0 ex_state ex_sb [16; 2; 0; 80] ex_chain []
    (λ s, reflexivity s) ex_junk_ok ex_sb_ok ex_chain_ok ex_chain_known). by split.
Defined.

End Sockbuf.
