(* ===== verification/Tcp.v ===== *)
(** * TCP control blocks, sequence numbers and timers

    (netinet/tcp_var.h, tcp_seq.h, tcp_fsm.h, tcp_timer.[ch]; [tcp_xmit_timer]
    of tcp_input.c; [tcp_setpersist] of tcp_output.c)

    A control block maps its fields to integers; a store converts the value to
    the width of the field, as the assignment in C does.  The statistics counters
    are left out. *)

From stdpp Require Import options.
From S2P Require Import Prelude.

Module Tcp.

(** ** Constants *)

Definition TCPS_CLOSED : Z := 0.
Definition TCPS_LISTEN : Z := 1.
Definition TCPS_SYN_SENT : Z := 2.
Definition TCPS_SYN_RECEIVED : Z := 3.
Definition TCPS_ESTABLISHED : Z := 4.
Definition TCPS_CLOSE_WAIT : Z := 5.
Definition TCPS_FIN_WAIT_1 : Z := 6.
Definition TCPS_CLOSING : Z := 7.
Definition TCPS_LAST_ACK : Z := 8.
Definition TCPS_FIN_WAIT_2 : Z := 9.
Definition TCPS_TIME_WAIT : Z := 10.
Definition TCPS_HAVERCVDSYN (s : Z) : bool := TCPS_SYN_RECEIVED <=? s.
Definition TCPS_HAVERCVDFIN (s : Z) : bool := TCPS_TIME_WAIT <=? s.

Definition TH_FIN : Z := 0x01.
Definition TH_SYN : Z := 0x02.
Definition TH_RST : Z := 0x04.
Definition TH_PUSH : Z := 0x08.
Definition TH_ACK : Z := 0x10.
Definition TH_URG : Z := 0x20.

Definition TF_ACKNOW : Z := 0x0001.
Definition TF_DELACK : Z := 0x0002.
Definition TF_NODELAY : Z := 0x0004.
Definition TF_NOOPT : Z := 0x0008.
Definition TF_SENTFIN : Z := 0x0010.
Definition TF_REQ_SCALE : Z := 0x0020.
Definition TF_RCVD_SCALE : Z := 0x0040.
Definition TF_REQ_TSTMP : Z := 0x0080.
Definition TF_RCVD_TSTMP : Z := 0x0100.

Definition TCPT_REXMT : nat := 0.
Definition TCPT_PERSIST : nat := 1.
Definition TCPT_KEEP : nat := 2.
Definition TCPT_2MSL : nat := 3.

Definition PR_SLOWHZ : Z := 2.
Definition TCPTV_MSL : Z := 30 * PR_SLOWHZ.
Definition TCPTV_SRTTBASE : Z := 0.
Definition TCPTV_SRTTDFLT : Z := 3 * PR_SLOWHZ.
Definition TCPTV_PERSMIN : Z := 5 * PR_SLOWHZ.
Definition TCPTV_PERSMAX : Z := 60 * PR_SLOWHZ.
Definition TCPTV_KEEP_INIT : Z := 75 * PR_SLOWHZ.
Definition TCPTV_KEEP_IDLE : Z := 120 * 60 * PR_SLOWHZ.
Definition TCPTV_KEEPINTVL : Z := 75 * PR_SLOWHZ.
Definition TCPTV_KEEPCNT : Z := 8.
Definition TCPTV_MIN : Z := 1 * PR_SLOWHZ.
Definition TCPTV_REXMTMAX : Z := 64 * PR_SLOWHZ.
Definition TCP_MAXRXTSHIFT : Z := 12.
Definition TCP_RTT_SHIFT : Z := 3.
Definition TCP_RTTVAR_SHIFT : Z := 2.
Definition TCP_MAXWIN : Z := 65535.
Definition TCP_MAX_WINSHIFT : Z := 14.
Definition TCP_ISSINCR : Z := 125 * 1024.
Definition ETIMEDOUT : Z := 60.

(** ** Sequence numbers *)

Definition SEQ_LT (a b : Z) : bool := s32 (a - b) <? 0.
Definition SEQ_LEQ (a b : Z) : bool := s32 (a - b) <=? 0.
Definition SEQ_GT (a b : Z) : bool := 0 <? s32 (a - b).
Definition SEQ_GEQ (a b : Z) : bool := 0 <=? s32 (a - b).

(** ** The control block *)

Inductive tfield :=
  | t_state | t_timer (i : nat) | t_rxtshift | t_rxtcur | t_dupacks | t_maxseg | t_force | t_flags
  | snd_una | snd_nxt | snd_up | snd_wl1 | snd_wl2 | iss | snd_wnd
  | rcv_wnd | rcv_nxt | rcv_up | irs | rcv_adv | snd_max | snd_cwnd | snd_ssthresh
  | t_idle | t_rtt | t_rtseq | t_srtt | t_rttvar | t_rttmin | max_sndwnd
  | t_oobflags | t_iobc | t_softerror
  | snd_scale | rcv_scale | request_r_scale | requested_s_scale
  | ts_recent | ts_recent_age | last_ack_sent.

#[export] Instance tfield_eq_dec : EqDecision tfield.
Proof. solve_decision. Defined.

(** The conversion of an assignment to a field. *)
Definition conv (f : tfield) (v : Z) : Z :=
  match f with
  | t_state | t_timer _ | t_rxtshift | t_rxtcur | t_dupacks
  | t_idle | t_rtt | t_srtt | t_rttvar | t_softerror => s16 v
  | t_maxseg | t_flags | t_rttmin => u16 v
  | t_force | t_oobflags | t_iobc => s8 v
  | snd_scale | rcv_scale | request_r_scale | requested_s_scale => u8 v
  | _ => u32 v
  end.

Definition tcpcb : Type := tfield → Z.

(** [wr f v tp] is [tp] after [tp->f = v]. *)
Definition wr (f : tfield) (v : Z) (tp : tcpcb) : tcpcb :=
  λ g, if decide (f = g) then conv f v else tp g.

Definition tflag (tp : tcpcb) (b : Z) : bool := ztrue (Z.land (tp t_flags) b).
Definition set_tflag (b : Z) (tp : tcpcb) : tcpcb := wr t_flags (Z.lor (tp t_flags) b) tp.
Definition clear_tflag (b : Z) (tp : tcpcb) : tcpcb := wr t_flags (Z.land (tp t_flags) (Z.lnot b)) tp.

Definition tcp_rcvseqinit (tp : tcpcb) : tcpcb :=
  let tp := wr rcv_nxt (tp irs + 1) tp in wr rcv_adv (tp rcv_nxt) tp.
Definition tcp_sendseqinit (tp : tcpcb) : tcpcb :=
  let v := tp iss in
  wr snd_una v (wr snd_nxt v (wr snd_max v (wr snd_up v tp))).

(** ** Timers *)

(** The value stored by [TCPT_RANGESET(tp->f, value, tvmin, tvmax)]: the first
    assignment converts [value], and the comparisons are on the field. *)
Definition TCPT_RANGESET (f : tfield) (value tvmin tvmax : Z) (tp : tcpcb) : tcpcb :=
  let tp := wr f value tp in
  if tp f <? tvmin then wr f tvmin tp
  else if tvmax <? tp f then wr f tvmax tp else tp.

Definition TCP_REXMTVAL (tp : tcpcb) : Z := Z.shiftr (tp t_srtt) TCP_RTT_SHIFT + tp t_rttvar.

Definition tcp_backoff : list Z := [1; 2; 4; 8; 16; 32; 64; 64; 64; 64; 64; 64; 64].

(** [tcp_backoff[i]] for an index inside the table. *)
Definition backoff (i : Z) : option Z := if 0 <=? i then tcp_backoff !! Z.to_nat i else None.

Fixpoint canceltimers_loop (n : nat) (tp : tcpcb) : tcpcb :=
  match n with O => tp | S n => wr (t_timer n) 0 (canceltimers_loop n tp) end.
Definition tcp_canceltimers (tp : tcpcb) : tcpcb := canceltimers_loop 4 tp.

(** [None] is the panic, or an index outside [tcp_backoff]. *)
Definition tcp_setpersist (tp : tcpcb) : option tcpcb :=
  let t := Z.shiftr (Z.shiftr (tp t_srtt) 2 + tp t_rttvar) 1 in
  if ztrue (tp (t_timer TCPT_REXMT)) then None
  else
    match backoff (tp t_rxtshift) with
    | None => None
    | Some b =>
        let tp := TCPT_RANGESET (t_timer TCPT_PERSIST) (t * b) TCPTV_PERSMIN TCPTV_PERSMAX tp in
        Some (if tp t_rxtshift <? TCP_MAXRXTSHIFT then wr t_rxtshift (tp t_rxtshift + 1) tp else tp)
    end.

(** [tcp_xmit_timer]: [rtt] and [delta] are [short]. *)
Definition tcp_xmit_timer (tp : tcpcb) (rtt : Z) : tcpcb :=
  let rtt := s16 rtt in
  let tp :=
    if negb (tp t_srtt =? 0) then
      let delta := s16 (rtt - 1 - Z.shiftr (tp t_srtt) TCP_RTT_SHIFT) in
      let tp := wr t_srtt (tp t_srtt + delta) tp in
      let tp := if tp t_srtt <=? 0 then wr t_srtt 1 tp else tp in
      let delta := if delta <? 0 then s16 (- delta) else delta in
      let delta := s16 (delta - Z.shiftr (tp t_rttvar) TCP_RTTVAR_SHIFT) in
      let tp := wr t_rttvar (tp t_rttvar + delta) tp in
      if tp t_rttvar <=? 0 then wr t_rttvar 1 tp else tp
    else
      wr t_rttvar (rtt * 2 ^ (TCP_RTTVAR_SHIFT - 1)) (wr t_srtt (rtt * 2 ^ TCP_RTT_SHIFT) tp) in
  let tp := wr t_rxtshift 0 (wr t_rtt 0 tp) in
  let tp := TCPT_RANGESET t_rxtcur (TCP_REXMTVAL tp) (tp t_rttmin) TCPTV_REXMTMAX tp in
  wr t_softerror 0 tp.

(** What [tcp_timers] asks of the rest of TCP. *)
Inductive timer_action :=
  | TOutput                       (* [tcp_output(tp)] *)
  | TForceOutput                  (* [tcp_output(tp)] with [t_force] set *)
  | TRespond (ack seq : Z)        (* a keep-alive probe *)
  | TDrop (errno : Z)             (* [tcp_drop(tp, errno)] *)
  | TClose                        (* [tcp_close(tp)] *)
  | TLosing                       (* [in_losing(inp)] *)
  | TPanic.

(** The conditions of the system a timer looks at. *)
Record tenv := TEnv { tcp_keepidle : Z; tcp_keepintvl : Z; tcp_maxidle : Z; so_keepalive : bool }.

(** [tcp_timers]; the calls are returned in order.  The control block is the one
    the first of [tcp_output], [tcp_drop] and [tcp_close] gets. *)
Definition tcp_timers (e : tenv) (tp : tcpcb) (timer : nat) : tcpcb * list timer_action :=
  if Nat.eqb timer TCPT_2MSL then
    if negb (tp t_state =? TCPS_TIME_WAIT) && (tp t_idle <=? tcp_maxidle e)
    then (wr (t_timer TCPT_2MSL) (tcp_keepintvl e) tp, [])
    else (tp, [TClose])
  else if Nat.eqb timer TCPT_REXMT then
    let tp := wr t_rxtshift (tp t_rxtshift + 1) tp in
    if TCP_MAXRXTSHIFT <? tp t_rxtshift then
      let tp := wr t_rxtshift TCP_MAXRXTSHIFT tp in
      (tp, [TDrop (if ztrue (tp t_softerror) then tp t_softerror else ETIMEDOUT)])
    else
      match backoff (tp t_rxtshift) with
      | None => (tp, [TPanic])
      | Some b =>
          let rexmt := s32 (TCP_REXMTVAL tp * b) in
          let tp := TCPT_RANGESET t_rxtcur rexmt (tp t_rttmin) TCPTV_REXMTMAX tp in
          let tp := wr (t_timer TCPT_REXMT) (tp t_rxtcur) tp in
          let losing := TCP_MAXRXTSHIFT / 4 <? tp t_rxtshift in
          let tp := if losing then
                      wr t_srtt 0 (wr t_rttvar (tp t_rttvar + Z.shiftr (tp t_srtt) TCP_RTT_SHIFT) tp)
                    else tp in
          let tp := wr t_rtt 0 (wr snd_nxt (tp snd_una) tp) in
          if tp t_maxseg =? 0 then (tp, [TPanic]) (* division by zero *)
          else
            let win := Z.min (tp snd_wnd) (tp snd_cwnd) / 2 / tp t_maxseg in
            let win := if win <? 2 then 2 else win in
            let tp := wr snd_cwnd (tp t_maxseg) tp in
            let tp := wr t_dupacks 0 (wr snd_ssthresh (win * tp t_maxseg) tp) in
            (tp, (if losing then [TLosing] else []) ++ [TOutput])
      end
  else if Nat.eqb timer TCPT_PERSIST then
    match tcp_setpersist tp with
    | None => (tp, [TPanic])
    | Some tp => (wr t_force 1 tp, [TForceOutput])
    end
  else if Nat.eqb timer TCPT_KEEP then
    if tp t_state <? TCPS_ESTABLISHED then (tp, [TDrop ETIMEDOUT])
    else if so_keepalive e && (tp t_state <=? TCPS_CLOSE_WAIT) then
      if tcp_keepidle e + tcp_maxidle e <=? tp t_idle then (tp, [TDrop ETIMEDOUT])
      else (wr (t_timer TCPT_KEEP) (tcp_keepintvl e) tp,
            [TRespond (tp rcv_nxt) (u32 (tp snd_una - 1))])
    else (wr (t_timer TCPT_KEEP) (tcp_keepidle e) tp, [])
  else (tp, []).

(** One connection in [tcp_slowtimo]: the timers that go off, in order, until the
    connection is gone; [fire] is [tcp_usrreq] with [PRU_SLOWTIMO], and returns
    [None] if the connection was removed from the list. *)
Fixpoint slowtimo_timers (fire : tcpcb → nat → option tcpcb) (i n : nat) (tp : tcpcb) : option tcpcb :=
  match n with
  | O => Some tp
  | S n =>
      if ztrue (tp (t_timer i)) then
        let tp := wr (t_timer i) (tp (t_timer i) - 1) tp in
        if tp (t_timer i) =? 0 then
          match fire tp i with
          | Some tp => slowtimo_timers fire (S i) n tp
          | None => None
          end
        else slowtimo_timers fire (S i) n tp
      else slowtimo_timers fire (S i) n tp
  end.

Definition slowtimo_conn (fire : tcpcb → nat → option tcpcb) (tp : tcpcb) : option tcpcb :=
  match slowtimo_timers fire 0 4 tp with
  | None => None
  | Some tp =>
      let tp := wr t_idle (tp t_idle + 1) tp in
      Some (if ztrue (tp t_rtt) then wr t_rtt (tp t_rtt + 1) tp else tp)
  end.

(** [tcp_slowtimo] over the list of connections; the globals [tcp_maxidle],
    [tcp_iss] and [tcp_now] with it. *)
Record tglobals := TG { g_maxidle : Z; g_iss : Z; g_now : Z }.

Definition tcp_slowtimo (fire : tcpcb → nat → option tcpcb) (keepintvl : Z)
    (g : tglobals) (conns : list tcpcb) : tglobals * list tcpcb :=
  (TG (s32 (TCPTV_KEEPCNT * keepintvl)) (u32 (g_iss g + TCP_ISSINCR / PR_SLOWHZ)) (u32 (g_now g + 1)),
   omap (slowtimo_conn fire) conns).

(** [tcp_fasttimo]: the connections with a delayed acknowledgement, which go to
    [tcp_output]. *)
Definition tcp_fasttimo (output : tcpcb → tcpcb) (conns : list tcpcb) : list tcpcb :=
  (λ tp, if tflag tp TF_DELACK
         then output (set_tflag TF_ACKNOW (clear_tflag TF_DELACK tp)) else tp) <$> conns.

(** ** Lemmas *)

Lemma wr_eq f v tp : wr f v tp f = conv f v.
Proof. unfold wr. by rewrite decide_True. Qed.

Lemma wr_ne f g v tp : f ≠ g → wr f v tp g = tp g.
Proof. intros H. unfold wr. by rewrite decide_False. Qed.

(** [tsimpl] reads the fields of updated control blocks. *)
Ltac tsimpl := repeat first [rewrite wr_eq | rewrite wr_ne by discriminate]; cbn [conv].
Ltac tsimpl_in H := repeat first [rewrite wr_eq in H | rewrite wr_ne in H by discriminate]; cbn [conv] in H.

Lemma s16_small z : -32768 <= z < 32768 → s16 z = z.
Proof. apply s16_id. Qed.

(** The comparison of sequence numbers less than half the space apart. *)
Lemma seq_diff a b : -2147483648 <= a - b < 2147483648 → s32 (u32 a - u32 b) = a - b.
Proof. wraplia. Qed.

(** [TCPT_RANGESET] on a [short] with bounds in its range. *)
Lemma RANGESET_field f value lo hi tp :
  (∀ v, conv f v = s16 v) → 0 <= lo <= hi → hi < 32768 →
  TCPT_RANGESET f value lo hi tp f = Z.max lo (Z.min (s16 value) hi).
Proof.
  intros Hf Hlo Hhi. unfold TCPT_RANGESET. rewrite wr_eq, Hf.
  destruct (Z.ltb_spec (s16 value) lo); [rewrite wr_eq, Hf, s16_small; lia|].
  destruct (Z.ltb_spec hi (s16 value)); rewrite wr_eq, Hf; [rewrite s16_small; lia|]. lia.
Qed.

Lemma RANGESET_other f g value lo hi tp : f ≠ g → TCPT_RANGESET f value lo hi tp g = tp g.
Proof. intros H. unfold TCPT_RANGESET. destruct (_ <? _); [|destruct (_ <? _)]; by rewrite !wr_ne. Qed.

Lemma backoff_Some i : 0 <= i <= TCP_MAXRXTSHIFT → backoff i = Some (Z.min (2 ^ i) 64).
Proof.
  unfold TCP_MAXRXTSHIFT. intros H.
  assert (i = 0 ∨ i = 1 ∨ i = 2 ∨ i = 3 ∨ i = 4 ∨ i = 5 ∨ i = 6 ∨ i = 7 ∨ i = 8 ∨ i = 9 ∨ i = 10 ∨
          i = 11 ∨ i = 12) as Hi by lia.
  by repeat (destruct Hi as [->|Hi]); [..|subst].
Qed.

(** ** Properties *)

(** The sequence comparisons order the positions of a stream: for positions
    less than 2^31 apart, [SEQ_LT] and its companions on their 32-bit sequence
    numbers are the comparisons of the positions. *)
Theorem seq_compare_correct a b :
  -2147483648 < a - b < 2147483648 →
  SEQ_LT (u32 a) (u32 b) = (a <? b) ∧ SEQ_LEQ (u32 a) (u32 b) = (a <=? b) ∧
  SEQ_GT (u32 a) (u32 b) = (b <? a) ∧ SEQ_GEQ (u32 a) (u32 b) = (b <=? a).
Proof.
  intros H. unfold SEQ_LT, SEQ_LEQ, SEQ_GT, SEQ_GEQ. rewrite seq_diff by lia.
  split_and!; apply Bool.eq_true_iff_eq; rewrite ?Z.ltb_lt, ?Z.leb_le; lia.
Qed.

(** What the estimator keeps: the smoothed values are positive (or there is no
    measurement yet) and far from the limits of a [short]. *)
Definition rtt_ok (tp : tcpcb) : Prop :=
  (tp t_srtt = 0 ∨ 1 <= tp t_srtt <= 16000) ∧ 0 <= tp t_rttvar <= 8000 ∧
  0 <= tp t_rttmin <= TCPTV_REXMTMAX.

(** The smoothing step. *)
Lemma xmit_smooth tp rtt :
  1 <= tp t_srtt <= 16000 → 0 <= tp t_rttvar <= 8000 → 1 <= rtt <= 2000 →
  let tp1 :=
    (let delta := s16 (rtt - 1 - Z.shiftr (tp t_srtt) TCP_RTT_SHIFT) in
     let tp := wr t_srtt (tp t_srtt + delta) tp in
     let tp := if tp t_srtt <=? 0 then wr t_srtt 1 tp else tp in
     let delta := if delta <? 0 then s16 (- delta) else delta in
     let delta := s16 (delta - Z.shiftr (tp t_rttvar) TCP_RTTVAR_SHIFT) in
     let tp := wr t_rttvar (tp t_rttvar + delta) tp in
     if tp t_rttvar <=? 0 then wr t_rttvar 1 tp else tp) in
  tp1 t_srtt = Z.max 1 (tp t_srtt + (rtt - 1 - tp t_srtt / 8)) ∧
  tp1 t_rttvar = Z.max 1 (tp t_rttvar + Z.abs (rtt - 1 - tp t_srtt / 8) - tp t_rttvar / 4).
Proof.
  intros H1 H2 H3. simpl. unfold TCP_RTT_SHIFT, TCP_RTTVAR_SHIFT. rewrite !Z.shiftr_div_pow2 by lia.
  change (2 ^ 3) with 8. change (2 ^ 2) with 4.
  assert (Hd : -2000 <= rtt - 1 - tp t_srtt / 8 <= 2000) by (Z.div_mod_to_equations; lia).
  rewrite (s16_small (rtt - 1 - tp t_srtt / 8)) by lia. set (d := rtt - 1 - tp t_srtt / 8) in *.
  rewrite (wr_eq t_srtt). cbn [conv]. rewrite (s16_small (tp t_srtt + d)) by lia.
  set (tp1 := if tp t_srtt + d <=? 0 then _ else _).
  assert (Hs : tp1 t_srtt = Z.max 1 (tp t_srtt + d) ∧ tp1 t_rttvar = tp t_rttvar).
  { unfold tp1. destruct (_ <=? 0) eqn:E; zbool; tsimpl; rewrite ?s16_small by lia; lia. }
  destruct Hs as [Hs Hv]. clearbody tp1. rewrite Hv.
  set (a := if d <? 0 then s16 (- d) else d).
  assert (Ha : a = Z.abs d) by (unfold a; destruct (d <? 0) eqn:E; zbool; rewrite ?s16_small by lia; lia).
  rewrite Ha. clearbody d a. assert (0 <= tp t_rttvar / 4 <= 2000) by (Z.div_mod_to_equations; lia).
  rewrite (s16_small (Z.abs d - _)) by lia. rewrite wr_eq. cbn [conv].
  rewrite (s16_small (tp t_rttvar + _)) by lia.
  destruct (_ <=? 0) eqn:E; zbool; tsimpl; rewrite ?s16_small by lia; rewrite ?Hs; lia.
Qed.

(** The round-trip estimator for a sample of 1 to 2000 ticks (about 16
    minutes): the smoothed round trip time moves by an eighth of the error and the
    variance by a quarter, both stay positive without overflow, the backoff is
    reset, and the retransmission timeout is srtt + 4 * rttvar clamped to its
    limits. *)
Theorem tcp_xmit_timer_correct tp rtt :
  rtt_ok tp → 1 <= rtt <= 2000 →
  let tp' := tcp_xmit_timer tp rtt in
  let delta := rtt - 1 - tp t_srtt / 8 in
  tp' t_srtt = (if tp t_srtt =? 0 then rtt * 8 else Z.max 1 (tp t_srtt + delta)) ∧
  tp' t_rttvar = (if tp t_srtt =? 0 then rtt * 2
                  else Z.max 1 (tp t_rttvar + Z.abs delta - tp t_rttvar / 4)) ∧
  tp' t_rxtcur = Z.max (tp t_rttmin) (Z.min (tp' t_srtt / 8 + tp' t_rttvar) TCPTV_REXMTMAX) ∧
  tp' t_rxtshift = 0 ∧ tp' t_rtt = 0 ∧ rtt_ok tp'.
Proof.
  intros (H1 & H2 & H3) Hr. simpl. unfold tcp_xmit_timer. rewrite (s16_small rtt) by lia.
  set (tp1 := if negb (tp t_srtt =? 0) then _ else _).
  assert (Hm : tp1 t_rttmin = tp t_rttmin).
  { unfold tp1. destruct (negb _); simpl; repeat (destruct (_ <=? 0)); by tsimpl. }
  assert (Hs : tp1 t_srtt = (if tp t_srtt =? 0 then rtt * 8 else Z.max 1 (tp t_srtt + (rtt - 1 - tp t_srtt / 8))) ∧
    tp1 t_rttvar = (if tp t_srtt =? 0 then rtt * 2
      else Z.max 1 (tp t_rttvar + Z.abs (rtt - 1 - tp t_srtt / 8) - tp t_rttvar / 4))).
  { unfold tp1. destruct (Z.eqb_spec (tp t_srtt) 0) as [E|E]; cbn [negb]; cbv iota.
    - tsimpl. change (2 ^ (TCP_RTTVAR_SHIFT - 1)) with 2. change (2 ^ TCP_RTT_SHIFT) with 8.
      rewrite !s16_small by lia. done.
    - apply xmit_smooth; lia. }
  destruct Hs as [Hs Hv]. clearbody tp1. tsimpl.
  rewrite RANGESET_field by (try done; rewrite ?wr_ne by discriminate; rewrite Hm; unfold TCPTV_REXMTMAX, PR_SLOWHZ in *; lia).
  rewrite !RANGESET_other by discriminate. unfold rtt_ok, TCP_REXMTVAL. tsimpl.
  rewrite !RANGESET_other by discriminate. tsimpl. rewrite Hm, <- Hs, <- Hv.
  rewrite Z.shiftr_div_pow2 by (unfold TCP_RTT_SHIFT; lia). change (2 ^ TCP_RTT_SHIFT) with 8.
  assert (1 <= tp1 t_srtt <= 16000 ∧ 1 <= tp1 t_rttvar <= 8000) as [Hb1 Hb2].
  { rewrite Hs, Hv. destruct (Z.eqb_spec (tp t_srtt) 0); Z.div_mod_to_equations; lia. }
  rewrite s16_small by (Z.div_mod_to_equations; lia). split_and!; try done; lia.
Qed.

Lemma tcp_xmit_timer_correct_witness :
  let tp := wr t_rttmin 2 (wr t_rttvar 24 (λ _, 0)) in
  tcp_xmit_timer tp 4 t_srtt = 32 ∧ tcp_xmit_timer tp 4 t_rxtcur = 12.
Proof.
  simpl. destruct (tcp_xmit_timer_correct (wr t_rttmin 2 (wr t_rttvar 24 (λ _, 0))) 4) as (H1 & _ & H2 & _).
  - split_and!; try (by vm_compute); by left.
  - lia.
  - split; [exact H1|]. etrans; [exact H2|]. by vm_compute.
Defined.

Lemma seq_compare_correct_witness :
  SEQ_LT (u32 4294967290) (u32 4294967300) = true ∧ SEQ_GEQ (u32 4294967290) (u32 4294967300) = false.
Proof.
  destruct (seq_compare_correct 4294967290 4294967300) as (H1 & _ & _ & H4); [lia|]. by split.
Defined.

(** A retransmission timeout that does not end the connection. *)
Lemma rexmt_fields e tp :
  0 <= tp t_rxtshift < TCP_MAXRXTSHIFT → 0 < tp t_maxseg →
  let r := tcp_timers e tp TCPT_REXMT in
  (r.2 = [TOutput] ∨ r.2 = [TLosing; TOutput]) ∧ r.1 t_rxtshift = tp t_rxtshift + 1 ∧
  r.1 t_maxseg = tp t_maxseg ∧ r.1 snd_nxt = u32 (tp snd_una) ∧
  r.1 snd_cwnd = u32 (tp t_maxseg) ∧ r.1 t_rtt = 0 ∧ r.1 t_dupacks = 0 ∧
  r.1 snd_ssthresh = u32 (Z.max 2 (Z.min (tp snd_wnd) (tp snd_cwnd) / 2 / tp t_maxseg) * tp t_maxseg) ∧
  r.1 (t_timer TCPT_REXMT) = s16 (r.1 t_rxtcur) ∧
  (0 <= tp t_rttmin <= TCPTV_REXMTMAX →
   r.1 t_rxtcur = Z.max (tp t_rttmin)
     (Z.min (s16 (s32 (TCP_REXMTVAL tp * Z.min (2 ^ (tp t_rxtshift + 1)) 64))) TCPTV_REXMTMAX)).
Proof.
  intros Hs Hm. unfold tcp_timers. simpl Nat.eqb. cbv iota. unfold TCP_MAXRXTSHIFT in Hs.
  rewrite (wr_eq t_rxtshift). cbn [conv]. rewrite s16_small by lia.
  rewrite (proj2 (Z.ltb_ge TCP_MAXRXTSHIFT _)) by (unfold TCP_MAXRXTSHIFT; lia).
  rewrite backoff_Some by (unfold TCP_MAXRXTSHIFT; lia).
  set (tp0 := wr t_rxtshift _ tp). set (tp1 := TCPT_RANGESET t_rxtcur _ _ _ _).
  assert (H1 : ∀ g, g ≠ t_rxtcur → tp1 g = tp0 g) by (intros g Hg; by apply RANGESET_other).
  assert (Hc : 0 <= tp t_rttmin <= TCPTV_REXMTMAX → tp1 t_rxtcur = Z.max (tp t_rttmin)
    (Z.min (s16 (s32 (TCP_REXMTVAL tp * Z.min (2 ^ (tp t_rxtshift + 1)) 64))) TCPTV_REXMTMAX)).
  { intros Hr. unfold tp1. assert (Hrm : tp0 t_rttmin = tp t_rttmin) by (unfold tp0; by tsimpl).
    assert (Hv : TCP_REXMTVAL tp0 = TCP_REXMTVAL tp) by (unfold TCP_REXMTVAL, tp0; by tsimpl).
    rewrite RANGESET_field by (try done; rewrite Hrm; unfold TCPTV_REXMTMAX, PR_SLOWHZ in *; lia).
    by rewrite Hrm, Hv. }
  set (tp2 := wr (t_timer TCPT_REXMT) (tp1 t_rxtcur) tp1). set (losing := _ <? tp2 t_rxtshift).
  set (tp3 := if losing then _ else tp2).
  assert (H3 : ∀ g, g ≠ t_srtt → g ≠ t_rttvar → tp3 g = tp2 g).
  { intros g Hg1 Hg2. unfold tp3. destruct losing; [|done]. by rewrite !wr_ne. }
  assert (H03 : ∀ g, g ≠ t_srtt → g ≠ t_rttvar → g ≠ t_rxtcur → g ≠ t_timer TCPT_REXMT →
    g ≠ t_rxtshift → tp3 g = tp g).
  { intros g Hg1 Hg2 Hg3 Hg4 Hg5. rewrite H3 by done. unfold tp2. rewrite wr_ne by done.
    rewrite H1 by done. unfold tp0. by rewrite wr_ne. }
  assert (Hsh : tp3 t_rxtshift = tp t_rxtshift + 1).
  { rewrite H3 by done. unfold tp2. tsimpl. rewrite H1 by done. unfold tp0. tsimpl. by rewrite s16_small by lia. }
  assert (Hcur : tp3 t_rxtcur = tp1 t_rxtcur) by (rewrite H3 by done; unfold tp2; by tsimpl).
  assert (Htm : tp3 (t_timer TCPT_REXMT) = s16 (tp1 t_rxtcur)) by (rewrite H3 by done; unfold tp2; by tsimpl).
  clearbody losing tp3. tsimpl. rewrite (H03 t_maxseg) by done.
  rewrite (proj2 (Z.eqb_neq _ 0)) by lia. cbn [fst snd]. tsimpl.
  rewrite Hsh, Hcur, Htm, (H03 t_maxseg), (H03 snd_una), (H03 snd_wnd), (H03 snd_cwnd) by done.
  split; [destruct losing; auto|].
  split_and!; try done. do 2 f_equal. destruct (Z.ltb_spec (Z.min (tp snd_wnd) (tp snd_cwnd) / 2 / tp t_maxseg) 2); lia.
Qed.

(** A retransmission timeout, short of the last: the segment at [snd_una] is
    sent again, the timer is set to the estimate times 2^shift (at most 64),
    clamped to its limits, and slow start begins with a window of one segment and
    the threshold at half the window, but at least two segments. *)
Theorem tcp_rexmt_backoff e tp :
  0 <= tp t_rxtshift < TCP_MAXRXTSHIFT → 0 < tp t_maxseg → is_u32 (tp snd_una) →
  rtt_ok tp → is_u16 (tp t_maxseg) → tp snd_wnd < 1073741824 → 0 <= tp snd_wnd → 0 <= tp snd_cwnd →
  let r := tcp_timers e tp TCPT_REXMT in
  let shift := tp t_rxtshift + 1 in
  last r.2 = Some TOutput ∧ r.1 t_rxtshift = shift ∧ r.1 snd_nxt = tp snd_una ∧
  r.1 snd_cwnd = tp t_maxseg ∧
  r.1 snd_ssthresh = Z.max 2 (Z.min (tp snd_wnd) (tp snd_cwnd) / 2 / tp t_maxseg) * tp t_maxseg ∧
  r.1 (t_timer TCPT_REXMT) = r.1 t_rxtcur ∧
  tp t_rttmin <= r.1 t_rxtcur <= TCPTV_REXMTMAX ∧
  (TCP_REXMTVAL tp * Z.min (2 ^ shift) 64 < 32768 →
   r.1 t_rxtcur = Z.max (tp t_rttmin) (Z.min (TCP_REXMTVAL tp * Z.min (2 ^ shift) 64) TCPTV_REXMTMAX)).
Proof.
  intros Hs Hm Hu (R1 & R2 & R3) H16 Hw Hw0 Hc0. simpl.
  destruct (rexmt_fields e tp Hs Hm) as (A & B & C & D & E & F & G & H & I & J). specialize (J R3).
  set (r := tcp_timers e tp TCPT_REXMT) in *. clearbody r. unfold is_u16 in H16.
  assert (Hv : 0 <= TCP_REXMTVAL tp).
  { unfold TCP_REXMTVAL. assert (0 <= Z.shiftr (tp t_srtt) TCP_RTT_SHIFT) by (apply Z.shiftr_nonneg; lia). lia. }
  assert (Hp : 0 <= Z.min (2 ^ (tp t_rxtshift + 1)) 64) by (pose proof (Z.pow_nonneg 2 (tp t_rxtshift + 1)); lia).
  assert (Hwin : 0 <= Z.min (tp snd_wnd) (tp snd_cwnd) / 2 / tp t_maxseg * tp t_maxseg < 1073741824).
  { split; [apply Z.mul_nonneg_nonneg; [apply Z.div_pos; [apply Z.div_pos; lia|lia]|lia]|].
    pose proof (Z.mul_div_le (Z.min (tp snd_wnd) (tp snd_cwnd) / 2) (tp t_maxseg)). Z.div_mod_to_equations. lia. }
  unfold TCPTV_REXMTMAX, PR_SLOWHZ in *.
  split; [by destruct A as [-> | ->]|]. split; [done|]. split; [by rewrite D, u32_id|].
  split; [rewrite E; apply u32_id; unfold is_u32; lia|].
  split; [rewrite H; apply u32_id; unfold is_u32; lia|].
  split; [rewrite I; apply s16_small; lia|]. split; [lia|]. intros Hsm. rewrite J.
  rewrite s32_id by (unfold is_s32; lia). rewrite s16_small by lia. done.
Qed.

Lemma tcp_rexmt_backoff_witness :
  let tp := wr t_maxseg 512 (wr t_rttmin 2 (wr t_srtt 32 (wr t_rttvar 8 (wr snd_wnd 8192 (wr snd_cwnd 4096 (λ _, 0)))))) in
  let r := tcp_timers (TEnv 14400 150 1200 true) tp TCPT_REXMT in
  r.1 (t_timer TCPT_REXMT) = 24 ∧ r.1 snd_ssthresh = 2048.
Proof.
  set (tp := wr t_maxseg 512 _). simpl.
  destruct (tcp_rexmt_backoff (TEnv 14400 150 1200 true) tp) as (_ & _ & _ & _ & H5 & H6 & _ & H8).
  - by vm_compute.
  - by vm_compute.
  - by vm_compute.
  - split_and!; try (by vm_compute); right; by vm_compute.
  - by vm_compute.
  - by vm_compute.
  - by vm_compute.
  - by vm_compute.
  - split; [|etrans; [exact H5|by vm_compute]].
    etrans; [exact H6|]. etrans; [apply H8; by vm_compute|by vm_compute].
Defined.

(** [n] retransmission timeouts in a row, with no acknowledgement in between. *)
Definition after_timeouts (e : tenv) (n : nat) (tp : tcpcb) : tcpcb :=
  Nat.iter n (λ tp, (tcp_timers e tp TCPT_REXMT).1) tp.

Lemma rexmt_softerror e tp :
  0 <= tp t_rxtshift < TCP_MAXRXTSHIFT → 0 < tp t_maxseg →
  (tcp_timers e tp TCPT_REXMT).1 t_softerror = tp t_softerror.
Proof.
  intros Hs Hm. unfold tcp_timers. simpl Nat.eqb. cbv iota. unfold TCP_MAXRXTSHIFT in Hs.
  rewrite (wr_eq t_rxtshift). cbn [conv]. rewrite s16_small by lia.
  rewrite (proj2 (Z.ltb_ge TCP_MAXRXTSHIFT _)) by (unfold TCP_MAXRXTSHIFT; lia).
  rewrite backoff_Some by (unfold TCP_MAXRXTSHIFT; lia).
  destruct (_ =? 0); cbn [fst]; tsimpl; destruct (_ <? _); tsimpl; rewrite RANGESET_other by discriminate; by tsimpl.
Qed.

Lemma after_timeouts_fields e n tp :
  tp t_rxtshift = 0 → 0 < tp t_maxseg → (n <= 12)%nat →
  let tp' := after_timeouts e n tp in
  tp' t_rxtshift = Z.of_nat n ∧ tp' t_maxseg = tp t_maxseg ∧ tp' t_softerror = tp t_softerror.
Proof.
  intros H0 Hm. induction n as [|n IH]; intros Hn; simpl; [by rewrite H0|].
  destruct (IH ltac:(lia)) as (IH1 & IH2 & IH3). fold (after_timeouts e n tp).
  set (tp1 := after_timeouts e n tp) in *. unfold TCP_MAXRXTSHIFT.
  destruct (rexmt_fields e tp1) as (_ & B & C & _); [unfold TCP_MAXRXTSHIFT; lia|lia|].
  rewrite B, C, rexmt_softerror by (unfold TCP_MAXRXTSHIFT; lia). split_and!; [lia|done|done].
Qed.

(** A segment that is never acknowledged is sent again at the first twelve
    timeouts, and at the thirteenth the connection is dropped with [ETIMEDOUT] or
    the error the network reported. *)
Theorem tcp_rexmt_gives_up e n tp :
  tp t_rxtshift = 0 → 0 < tp t_maxseg → (n <= 12)%nat →
  let actions := (tcp_timers e (after_timeouts e n tp) TCPT_REXMT).2 in
  ((n < 12)%nat → last actions = Some TOutput) ∧
  (n = 12%nat → actions = [TDrop (if tp t_softerror =? 0 then ETIMEDOUT else tp t_softerror)]).
Proof.
  intros H0 Hm Hn. destruct (after_timeouts_fields e n tp H0 Hm Hn) as (H1 & H2 & H3).
  intros actions. unfold actions. set (tp1 := after_timeouts e n tp) in *. clearbody tp1 actions.
  split; intros Hn'.
  - destruct (rexmt_fields e tp1) as ([-> | ->] & _); [unfold TCP_MAXRXTSHIFT; lia|lia|done..].
  - subst n. unfold tcp_timers. simpl Nat.eqb. cbv iota.
    rewrite (wr_eq t_rxtshift), H1. cbn [conv]. rewrite s16_small by (unfold TCP_MAXRXTSHIFT in *; lia).
    cbn [fst snd]. simpl. tsimpl. rewrite H3. unfold ztrue. by destruct (tp t_softerror =? 0).
Qed.

Lemma tcp_rexmt_gives_up_witness :
  let tp := wr t_maxseg 512 (λ _, 0) in let e := TEnv 14400 150 1200 false in
  (tcp_timers e (after_timeouts e 12 tp) TCPT_REXMT).2 = [TDrop ETIMEDOUT].
Proof. apply (tcp_rexmt_gives_up (TEnv 14400 150 1200 false) 12 (wr t_maxseg 512 (λ _, 0))); done. Defined.

(** The persist timer: if the retransmission timer is off (no panic then) it
    is set between 5 and 60 seconds and the backoff index stays in its table. *)
Theorem tcp_setpersist_bounds tp :
  tp (t_timer TCPT_REXMT) = 0 → 0 <= tp t_rxtshift <= TCP_MAXRXTSHIFT →
  ∃ tp', tcp_setpersist tp = Some tp' ∧
    TCPTV_PERSMIN <= tp' (t_timer TCPT_PERSIST) <= TCPTV_PERSMAX ∧
    tp' t_rxtshift = Z.min TCP_MAXRXTSHIFT (tp t_rxtshift + 1) ∧
    tp' (t_timer TCPT_REXMT) = 0.
Proof.
  intros H0 Hs. unfold tcp_setpersist. rewrite H0. simpl. rewrite backoff_Some by done.
  eexists. split; [done|]. set (tp1 := TCPT_RANGESET _ _ _ _ _).
  assert (H1 : tp1 t_rxtshift = tp t_rxtshift) by (by apply RANGESET_other).
  assert (H2 : TCPTV_PERSMIN <= tp1 (t_timer TCPT_PERSIST) <= TCPTV_PERSMAX).
  { unfold tp1. rewrite RANGESET_field by done. unfold TCPTV_PERSMIN, TCPTV_PERSMAX, PR_SLOWHZ. lia. }
  assert (H3 : tp1 (t_timer TCPT_REXMT) = 0) by (rewrite <- H0; by apply RANGESET_other).
  rewrite H1. unfold TCP_MAXRXTSHIFT in *. destruct (_ <? _) eqn:E; zbool; tsimpl.
  - rewrite s16_small by lia. split_and!; try done; lia.
  - rewrite H1. split_and!; try done; lia.
Qed.

Lemma tcp_setpersist_bounds_witness :
  ∃ tp', tcp_setpersist (λ _, 0) = Some tp' ∧ TCPTV_PERSMIN <= tp' (t_timer TCPT_PERSIST) <= TCPTV_PERSMAX ∧
    tp' t_rxtshift = 1 ∧ tp' (t_timer TCPT_REXMT) = 0.
Proof. apply (tcp_setpersist_bounds (λ _, 0)); done. Defined.

End Tcp.
