(* ===== verification/TcpReass.v ===== *)
(** * TCP reassembly (tcp_reass and TCP_REASS of netinet/tcp_input.c)

    The reassembly queue of a connection and the data it hands to the socket.
    The packets are seen through an interface, [Payload]: their bytes and
    [m_adj], which the mbuf layer implements. *)

From stdpp Require Import options.
From S2P Require Import Prelude Mbuf Tcp.
Import Tcp.

(** What TCP needs of a packet: its bytes, and trimming its front with [m_adj]. *)
Class Payload (P : Type) := {
  pl_ok : P → Prop;
  pl_bytes : P → list Z;
  pl_adj : P → Z → P;
  pl_adj_spec : ∀ p i, pl_ok p → 0 <= i → pl_ok (pl_adj p i) ∧ pl_bytes (pl_adj p i) = drop (Z.to_nat i) (pl_bytes p)
}.

(** [m_adj] leaves the clusters of a chain alone. *)
Section Known.
Context (s : Mbuf.mstate).
#[local] Abbreviation known := (Forall (Mbuf.cl_known s)).

Lemma on_head_known g ms : (∀ m, Mbuf.cl_known s m → Mbuf.cl_known s (g m)) → known ms → known (Mbuf.on_head g ms).
Proof. intros Hg H. destruct ms; [done|]. simpl. inversion_clear H. constructor; auto. Qed.

Lemma pktlen_known g m : Mbuf.cl_known s m → Mbuf.cl_known s (Mbuf.if_pkthdr (λ m, Mbuf.set_pktlen m (g m)) m).
Proof. unfold Mbuf.if_pkthdr. by destruct (Mbuf.has m Mbuf.M_PKTHDR). Qed.

Lemma adj_head_known ms : ∀ len, known ms → known (Mbuf.adj_head ms len).1.
Proof.
  induction ms as [|m ms IH]; intros len H; [done|]. inversion_clear H as [|? ? H1 H2]. simpl.
  destruct (0 <? len); [|by constructor]. destruct (Mbuf.m_len m <=? len); [|by constructor].
  specialize (IH (len - Mbuf.m_len m) H2). destruct (Mbuf.adj_head ms _). by constructor.
Qed.

Lemma adj_cut_known ms : ∀ count r, Mbuf.adj_cut ms count = Some r → known ms → known r.
Proof.
  induction ms as [|m ms IH]; intros count r; simpl; [done|]. intros H Hk. inversion_clear Hk as [|? ? H1 H2].
  destruct (count <=? Mbuf.m_len m); [|destruct (Mbuf.adj_cut ms _) eqn:E; [|done]]; injection H as <-; constructor; try done.
  - apply Forall_fmap. eapply Forall_impl; [exact H2|]. done.
  - by eapply IH.
Qed.

Lemma on_last_known g ms : (∀ m, Mbuf.cl_known s m → Mbuf.cl_known s (g m)) → known ms → known (Mbuf.on_last g ms).
Proof.
  intros Hg. induction 1 as [|m ms Hm H IH]; [done|]. destruct ms; simpl; [by constructor; auto|]. by constructor.
Qed.

Lemma m_adj_known ms n : known ms → known (default ms (Mbuf.m_adj ms n)).
Proof.
  intros H. destruct ms as [|m ms]; [done|]. unfold Mbuf.m_adj. destruct (0 <=? n).
  - pose proof (adj_head_known (m :: ms) n H) as Ha. destruct (Mbuf.adj_head (m :: ms) n) as [r len].
    simpl. apply on_head_known; [|done]. apply pktlen_known.
  - destruct (last (m :: ms)) as [l|]; [|by constructor]. destruct (_ <=? _).
    + cbn [default]. apply on_head_known; [apply pktlen_known|]. apply (on_last_known (λ x, Mbuf.set_len x (Mbuf.m_len x - - n))); done.
    + destruct (Mbuf.adj_cut _ _) eqn:E; [|done]. eapply adj_cut_known; [exact E|].
      apply on_head_known; [apply pktlen_known|done].
Qed.
End Known.

(** Mbuf chains are such packets, in any state of the clusters. *)
#[export, program] Instance mbuf_payload (s : Mbuf.mstate) : Payload (list Mbuf.mbuf) := {|
  pl_ok ms := Forall (Mbuf.mbuf_ok s) ms ∧ Forall (Mbuf.cl_known s) ms;
  pl_bytes ms := Mbuf.bytes s ms;
  pl_adj ms i := default ms (Mbuf.m_adj ms i)
|}.
Next Obligation.
  intros s ms i [Hok Hk] Hi. simpl. destruct ms as [|m ms]; [simpl; split; [done|]; unfold Mbuf.bytes; simpl; by rewrite drop_nil|].
  assert (Hk' : Forall (Mbuf.cl_known s) (default (m :: ms) (Mbuf.m_adj (m :: ms) i))) by by apply m_adj_known.
  revert Hk'. unfold Mbuf.m_adj. rewrite (proj2 (Z.leb_le 0 i)) by done.
  destruct (Mbuf.adj_head_spec s (m :: ms) i Hok Hi) as (H1 & H2 & _).
  destruct (Mbuf.adj_head (m :: ms) i) as [r len]. simpl in H1, H2. cbn [default].
  destruct (Mbuf.on_head_pktlen s (λ m, Mbuf.pkthdr_len m - (i - len)) r) as (Hb & Hok' & _).
  intros Hk'. split; [split; [by apply Hok'|exact Hk']|]. etrans; [exact Hb|exact H1].
Qed.

Module TcpReass.
Section Reass.
Context {P : Type} `{!Payload P}.

(** A segment on the queue: [ti_len] is a [short], [m] the packet. *)
Record tseg := TSeg { ti_seq : Z; ti_len : Z; ti_flags : Z; ti_m : P }.

(** Trim [i] bytes from the front of a segment. *)
Definition trim_front (i : Z) (x : tseg) : tseg :=
  TSeg (u32 (ti_seq x + i)) (s16 (ti_len x - i)) (ti_flags x) (pl_adj (ti_m x) i).

(** The search for the first segment that begins after [ti]. *)
Fixpoint split_at (seq : Z) (q : list tseg) : list tseg * list tseg :=
  match q with
  | [] => ([], [])
  | x :: q => if SEQ_GT (ti_seq x) seq then ([], x :: q)
              else let '(a, b) := split_at seq q in (x :: a, b)
  end.

(** The loop that trims or removes the segments [ti] overlaps. *)
Fixpoint trim_next (ti : tseg) (q : list tseg) : list tseg :=
  match q with
  | [] => []
  | x :: q =>
      let i := s32 (u32 (ti_seq ti + ti_len ti) - ti_seq x) in
      if i <=? 0 then x :: q
      else if i <? ti_len x then trim_front i x :: q
      else trim_next ti q
  end.

(** The loop that presents the data, with the flags of the last segment, the
    packets passed to [sbappend] (or freed) and the rest of the queue. *)
Fixpoint present_loop (tp : tcpcb) (flags : Z) (q : list tseg) : tcpcb * Z * list P * list tseg :=
  match q with
  | [] => (tp, flags, [], [])
  | x :: q' =>
      if ti_seq x =? tp rcv_nxt then
        let tp := wr rcv_nxt (tp rcv_nxt + ti_len x) tp in
        let '(tp, flags, ms, q) := present_loop tp (Z.land (ti_flags x) TH_FIN) q' in
        (tp, flags, ti_m x :: ms, q)
      else (tp, flags, [], q)
  end.

Definition present (tp : tcpcb) (q : list tseg) : tcpcb * Z * list P * list tseg :=
  if negb (TCPS_HAVERCVDSYN (tp t_state)) then (tp, 0, [], q)
  else
    match q with
    | [] => (tp, 0, [], q)
    | x :: _ =>
        if negb (ti_seq x =? tp rcv_nxt) then (tp, 0, [], q)
        else if (tp t_state =? TCPS_SYN_RECEIVED) && ztrue (ti_len x) then (tp, 0, [], q)
        else present_loop tp 0 q
    end.

(** [tcp_reass]: the control block, the flags returned, the packets presented to
    the socket in order ([sbappend], or [m_freem] when the socket cannot receive
    more), and the queue. *)
Definition tcp_reass (tp : tcpcb) (q : list tseg) (ti : option tseg) : tcpcb * Z * list P * list tseg :=
  match ti with
  | None => present tp q
  | Some ti =>
      let '(before, after) := split_at (ti_seq ti) q in
      match last before with
      | Some p =>
          let i := s32 (u32 (ti_seq p + ti_len p) - ti_seq ti) in
          if 0 <? i then
            if ti_len ti <=? i then (tp, 0, [], q)
            else let ti := trim_front i ti in present tp (before ++ ti :: trim_next ti after)
          else present tp (before ++ ti :: trim_next ti after)
      | None => present tp (before ++ ti :: trim_next ti after)
      end
  end.

(** The macro [TCP_REASS]. *)
Definition TCP_REASS (tp : tcpcb) (q : list tseg) (ti : tseg) : tcpcb * Z * list P * list tseg :=
  if (ti_seq ti =? tp rcv_nxt) && (if q is [] then true else false) && (tp t_state =? TCPS_ESTABLISHED)
  then
    let tp := set_tflag TF_DELACK tp in
    (wr rcv_nxt (tp rcv_nxt + ti_len ti) tp, Z.land (ti_flags ti) TH_FIN, [ti_m ti], q)
  else
    let '(tp, flags, ms, q) := tcp_reass tp q (Some ti) in
    (set_tflag TF_ACKNOW tp, flags, ms, q).

(** ** The stream

    The peer sends the bytes [f 0], [f 1], ...; position [o] has the sequence
    number [u32 (base + o)].  A FIN, if there is one, comes at position [fin]. *)

Context (f : Z → Z) (base fin : Z).

Definition slice (o n : Z) : list Z := f <$> seqZ o n.

(** The segment [x] carries the positions from [o] on. *)
Definition carries (o : Z) (x : tseg) : Prop :=
  ti_seq x = u32 (base + o) ∧ 0 <= ti_len x < 32768 ∧ pl_ok (ti_m x) ∧
  pl_bytes (ti_m x) = slice o (ti_len x) ∧
  (Z.land (ti_flags x) TH_FIN ≠ 0 → o + ti_len x = fin).

(** The window the receiver accepts: a segment lies within [W] of [rcv_nxt]. *)
Definition W : Z := 1073741824.

(** A queue with its positions is in order, without overlaps, from [lo] to [hi]. *)
Fixpoint ordered (lo hi : Z) (q : list (Z * tseg)) : Prop :=
  match q with
  | [] => lo <= hi
  | (o, x) :: q => lo <= o ∧ carries o x ∧ ordered (o + ti_len x) hi q
  end.

(** Position [p] is on the queue. *)
Definition covered (p : Z) (q : list (Z * tseg)) : Prop :=
  Exists (λ y, y.1 <= p < y.1 + ti_len y.2) q.

(** The state of the receiver after [r] positions have been delivered. *)
Definition receiver (r : Z) (tp : tcpcb) (q : list (Z * tseg)) : Prop :=
  0 <= r ∧ tp rcv_nxt = u32 (base + r) ∧ ordered r (r + W) q.

(** ** Lemmas *)

Lemma slice_drop o n i : 0 <= i → drop (Z.to_nat i) (slice o n) = slice (o + i) (n - i).
Proof.
  intros Hi. unfold slice. rewrite <- fmap_drop. f_equal. apply list_eq. intros k.
  rewrite lookup_drop. destruct (decide (Z.of_nat k < n - i)).
  - rewrite !lookup_seqZ_lt by lia. f_equal. lia.
  - rewrite !lookup_seqZ_ge by lia. done.
Qed.

Lemma slice_app o n1 n2 : 0 <= n1 → 0 <= n2 → slice o n1 ++ slice (o + n1) n2 = slice o (n1 + n2).
Proof. intros H1 H2. unfold slice. by rewrite <- fmap_app, <- seqZ_app. Qed.

Lemma slice_nil o : slice o 0 = [].
Proof. done. Qed.

Lemma slice_length o n : 0 <= n → Z.of_nat (length (slice o n)) = n.
Proof. intros H. unfold slice. rewrite length_fmap, length_seqZ. lia. Qed.

Lemma carries_trim o x i :
  carries o x → 0 <= i <= ti_len x → carries (o + i) (trim_front i x).
Proof.
  intros (H1 & H2 & H3 & H4 & H5) Hi. destruct (pl_adj_spec (ti_m x) i H3) as [H6 H7]; [lia|].
  unfold carries, trim_front. simpl. rewrite s16_id by (unfold is_s16; lia).
  split_and!; try done; try lia.
  - rewrite H1. unfold u32. rewrite Zplus_mod_idemp_l. f_equal. lia.
  - rewrite H7, H4. apply slice_drop. lia.
Qed.

Lemma trim_front_len o x i : carries o x → 0 <= i <= ti_len x → ti_len (trim_front i x) = ti_len x - i.
Proof. intros (H1 & H2 & _) Hi. simpl. apply s16_id. unfold is_s16. lia. Qed.

Lemma ordered_le lo hi q : ordered lo hi q → lo <= hi.
Proof.
  revert lo; induction q as [|[o x] q IH]; intros lo; simpl; [done|].
  intros (H1 & (_ & H2 & _) & H3). apply IH in H3. lia.
Qed.

Lemma ordered_weaken lo lo' hi hi' q : lo' <= lo → hi <= hi' → ordered lo hi q → ordered lo' hi' q.
Proof.
  intros Hlo Hhi. revert lo lo' Hlo; induction q as [|[o x] q IH]; intros lo lo' Hlo; simpl; [lia|].
  intros (H1 & H2 & H3). split; [lia|]. split; [done|]. by apply (IH (o + ti_len x)).
Qed.

Lemma ordered_app lo hi qa qb :
  ordered lo hi (qa ++ qb) ↔ ∃ mid, ordered lo mid qa ∧ ordered mid hi qb.
Proof.
  revert lo; induction qa as [|[o x] qa IH]; intros lo; simpl.
  - split; [intros H; exists lo; split; [lia|done]|]. intros (mid & H1 & H2). by apply (ordered_weaken mid _ hi).
  - rewrite IH. split.
    + intros (H1 & H2 & mid & H3 & H4). by exists mid.
    + intros (mid & (H1 & H2 & H3) & H4). split; [done|]. split; [done|]. by exists mid.
Qed.

Lemma covered_range lo hi q p : ordered lo hi q → covered p q → lo <= p < hi.
Proof.
  intros H Hc. revert lo H. induction Hc as [[o x] q Hx|[o x] q Hc IH]; intros lo; simpl.
  - intros (H1 & H2 & H3). apply ordered_le in H3. simpl in Hx. lia.
  - intros (H1 & (_ & H2 & _) & H3). apply IH in H3. lia.
Qed.

Lemma covered_app p qa qb : covered p (qa ++ qb) ↔ covered p qa ∨ covered p qb.
Proof. apply Exists_app. Qed.

Lemma covered_cons p o x q : covered p ((o, x) :: q) ↔ o <= p < o + ti_len x ∨ covered p q.
Proof. unfold covered. by rewrite Exists_cons. Qed.

(** Positions within the window, compared through their sequence numbers. *)
Lemma seq_pos a b : -2147483648 < a - b < 2147483648 →
  s32 (u32 (base + a) - u32 (base + b)) = a - b.
Proof. intros H. rewrite seq_diff; lia. Qed.

Lemma seq_end o x : carries o x → u32 (ti_seq x + ti_len x) = u32 (base + (o + ti_len x)).
Proof. intros (H & _). rewrite H. unfold u32. rewrite Zplus_mod_idemp_l. f_equal. lia. Qed.

Lemma seq_same a b : -2147483648 < a - b < 2147483648 →
  (u32 (base + a) =? u32 (base + b)) = (a =? b).
Proof.
  intros H. pose proof (seq_pos a b H) as Hs.
  destruct (Z.eqb_spec a b) as [->|Hne]; [apply Z.eqb_refl|]. apply Z.eqb_neq. intros E.
  rewrite E, Z.sub_diag in Hs. change (s32 0) with 0 in Hs. lia.
Qed.

Lemma split_at_spec lo hi q o :
  ordered lo hi q → lo <= o <= lo + W → hi <= lo + W →
  ∃ qa qb, q = qa ++ qb ∧ split_at (u32 (base + o)) q.*2 = (qa.*2, qb.*2) ∧
    Forall (λ y, y.1 <= o) qa ∧ (match qb with [] => True | y :: _ => o < y.1 end).
Proof.
  unfold W. revert lo; induction q as [|[o1 x] q IH]; intros lo Hq Ho Hhi; [by exists [], []|].
  destruct Hq as (H1 & H2 & H3). pose proof (ordered_le _ _ _ H3) as Hle.
  pose proof H2 as (Hs & Hl & _). csimpl. unfold SEQ_GT. rewrite Hs, seq_pos by lia.
  destruct (Z.ltb_spec 0 (o1 - o)).
  - exists [], ((o1, x) :: q). split_and!; try done. simpl. lia.
  - assert (Hq' : ordered lo hi q) by (eapply ordered_weaken; [|reflexivity|exact H3]; lia).
    destruct (IH lo Hq' Ho Hhi) as (qa & qb & -> & -> & Ha & Hb).
    exists ((o1, x) :: qa), qb. split_and!; try done. constructor; [simpl; lia|done].
Qed.

Lemma trim_next_spec lo hi q o ti :
  carries o ti → ordered lo hi q → o - W <= lo → hi <= o + W → o <= lo →
  ∃ q', trim_next ti q.*2 = q'.*2 ∧ ordered (o + ti_len ti) (Z.max hi (o + ti_len ti)) q' ∧
    (∀ p, o + ti_len ti <= p → covered p q' ↔ covered p q) ∧
    (∀ p, covered p q' → covered p q).
Proof.
  intros Hti. pose proof Hti as (_ & Hlt & _). set (e := o + ti_len ti) in *. unfold W.
  revert lo; induction q as [|[o1 x] q IH]; intros lo Hq H1 H2 H3.
  { exists []. simpl. split_and!; try done. lia. }
  destruct Hq as (G1 & G2 & G3). pose proof (ordered_le _ _ _ G3). pose proof G2 as (Hs & Hl & _).
  csimpl. rewrite (seq_end o ti Hti), Hs, seq_pos by lia. fold e.
  destruct (Z.leb_spec (e - o1) 0).
  { exists ((o1, x) :: q). split; [done|]. split; [|done].
    split; [lia|]. split; [done|]. eapply ordered_weaken; [reflexivity| |exact G3]. lia. }
  destruct (Z.ltb_spec (e - o1) (ti_len x)).
  - exists ((e, trim_front (e - o1) x) :: q). split; [done|].
    pose proof (trim_front_len o1 x (e - o1) G2 ltac:(lia)) as Htl. split; [split; [lia|split]|].
    + replace e with (o1 + (e - o1)) at 1 by lia. apply carries_trim; [done|lia].
    + rewrite Htl. replace (e + _) with (o1 + ti_len x) by lia.
      eapply ordered_weaken; [reflexivity| |exact G3]. lia.
    + split; intros p; rewrite !covered_cons, Htl; [intros Hp|]; intuition lia.
  - destruct (IH (o1 + ti_len x) G3) as (q' & Q1 & Q2 & Q3 & Q4); [lia..|].
    exists q'. split; [done|]. split; [done|]. split; intros p.
    + intros Hp. rewrite Q3, covered_cons by done. intuition lia.
    + intros Hc. rewrite covered_cons. right. by apply Q4.
Qed.

(** What presenting the queue [q] does to a receiver at [r]: the packets hold the
    next [r' - r] bytes of the stream, and the rest stays on the queue. *)
Definition presented (r : Z) (tp : tcpcb) (q : list (Z * tseg))
    (res : tcpcb * Z * list P * list tseg) (r' : Z) (q' : list (Z * tseg)) : Prop :=
  let '(tp', flags, ms, qr) := res in
  qr = q'.*2 ∧ r <= r' ∧ receiver r' tp' q' ∧ (∀ g, g ≠ rcv_nxt → tp' g = tp g) ∧
  concat (pl_bytes <$> ms) = slice r (r' - r) ∧
  (∀ p, r' <= p → covered p q' ↔ covered p q) ∧ (∀ p, r <= p < r' → covered p q) ∧
  (flags ≠ 0 → r' = fin) ∧ Forall pl_ok ms.

Lemma presented_none r tp q : receiver r tp q → presented r tp q (tp, 0, [], q.*2) r q.
Proof. intros H. unfold presented. rewrite Z.sub_diag. split_and!; try done; lia. Qed.

Lemma present_loop_spec r tp fl q :
  receiver r tp q → (fl ≠ 0 → r = fin) →
  ∃ r' q', presented r tp q (present_loop tp fl q.*2) r' q' ∧ ¬ covered r' q'.
Proof.
  revert r tp fl; induction q as [|[o x] q IH]; intros r tp fl Hrec Hfl.
  { exists r, []. split; [|by intros ?%Exists_nil]. unfold presented. simpl. rewrite Z.sub_diag.
    split_and!; try done. lia. }
  pose proof Hrec as (Hr & Hn & Ho & Hc & Hq). pose proof (ordered_le _ _ _ Hq) as Hle. unfold W in Hle.
  pose proof Hc as (Hs & Hl & Hpl & Hb & Hf). csimpl. rewrite Hs, Hn, seq_same by lia.
  destruct (Z.eqb_spec o r) as [->|Hne].
  - set (tp1 := wr rcv_nxt _ tp).
    assert (Hrec1 : receiver (r + ti_len x) tp1 q).
    { split; [lia|]. split.
      - unfold tp1. rewrite wr_eq. cbn [conv]. unfold u32. rewrite Zplus_mod_idemp_l. f_equal. lia.
      - eapply ordered_weaken; [reflexivity| |exact Hq]. lia. }
    destruct (IH _ _ (Z.land (ti_flags x) TH_FIN) Hrec1 Hf) as (r' & q' & Hp & Hnc).
    exists r', q'. split; [|done]. unfold presented in *.
    destruct (present_loop tp1 (Z.land (ti_flags x) TH_FIN) q.*2) as [[[tp' fl'] ms'] qr].
    destruct Hp as (P1 & P2 & P3 & P4 & P5 & P6 & P7 & P8 & P9). split_and!; try done.
    + lia.
    + intros g Hg. rewrite P4 by done. unfold tp1. by rewrite wr_ne.
    + csimpl. rewrite Hb, P5, slice_app by lia. f_equal. lia.
    + intros p Hp. rewrite P6, covered_cons by done. intuition lia.
    + intros p Hp. rewrite covered_cons. destruct (decide (p < r + ti_len x)); [by left; lia|right].
      apply P7. lia.
    + by constructor.
  - exists r, ((o, x) :: q). split.
    + unfold presented. rewrite Z.sub_diag. split_and!; try done; lia.
    + intros Hcv. apply covered_cons in Hcv as [Hcv|Hcv]; [lia|].
      apply (covered_range _ _ _ _ Hq) in Hcv. lia.
Qed.

(** The states in which data reaches the user. *)
Definition open_state (tp : tcpcb) : Prop := TCPS_SYN_RECEIVED < tp t_state.

Lemma present_spec r tp q :
  receiver r tp q →
  ∃ r' q', presented r tp q (present tp q.*2) r' q' ∧ (open_state tp → ¬ covered r' q').
Proof.
  intros Hrec. unfold present, open_state, TCPS_HAVERCVDSYN.
  assert (Hnone : ¬ open_state tp ∨ ¬ covered r q →
    ∃ r' q', presented r tp q (tp, 0, [], q.*2) r' q' ∧ (open_state tp → ¬ covered r' q')).
  { intros H. exists r, q. split; [by apply presented_none|]. tauto. }
  unfold open_state in *. destruct (Z.leb_spec TCPS_SYN_RECEIVED (tp t_state)); cbn [negb]; cbv iota; [|apply Hnone; lia].
  destruct q as [|[o x] q]; [apply Hnone; right; by intros ?%Exists_nil|].
  pose proof Hrec as (Hr & Hn & Ho & Hc & Hq). pose proof (ordered_le _ _ _ Hq) as Hle. unfold W in Hle.
  pose proof Hc as (Hs & Hl & _). cbn [snd fmap list_fmap]. rewrite Hs, Hn, seq_same by lia.
  destruct (Z.eqb_spec o r) as [->|Hne]; cbn [negb]; cbv iota.
  - destruct (Z.eqb_spec (tp t_state) TCPS_SYN_RECEIVED); cbn [andb]; cbv iota.
    + destruct (ztrue (ti_len x)); [apply Hnone; lia|].
      destruct (present_loop_spec r tp 0 ((r, x) :: q) Hrec) as (r' & q' & H1 & H2); [done|]. exists r', q'. split; [exact H1|by intros _].
    + destruct (present_loop_spec r tp 0 ((r, x) :: q) Hrec) as (r' & q' & H1 & H2); [done|]. exists r', q'. split; [exact H1|by intros _].
  - apply Hnone. right. intros Hcv. apply covered_cons in Hcv as [Hcv|Hcv]; [lia|].
    apply (covered_range _ _ _ _ Hq) in Hcv. lia.
Qed.

Lemma ordered_head lo lo' hi q :
  ordered lo hi q → lo' <= hi → (match q with [] => True | y :: _ => lo' <= y.1 end) → ordered lo' hi q.
Proof. destruct q as [|[o x] q]; simpl; [done|]. intros (H1 & H2 & H3) _ Hy. by split_and!. Qed.

(** Putting a segment in its place. *)
Lemma insert_spec r mid qa qb o ti :
  ordered r mid qa → mid <= o → r <= o → ordered mid (r + W) qb → carries o ti → o + ti_len ti <= r + W →
  (match qb with [] => True | y :: _ => o <= y.1 end) →
  ∃ q', qa.*2 ++ ti :: trim_next ti qb.*2 = q'.*2 ∧ ordered r (r + W) q' ∧
    ∀ p, covered p q' ↔ covered p (qa ++ qb) ∨ o <= p < o + ti_len ti.
Proof.
  intros Ha Hm Hr Hb Hti He Hh. pose proof Hti as (_ & Hl & _).
  assert (Hb' : ordered o (r + W) qb) by (apply (ordered_head mid); [done|lia|done]).
  destruct (trim_next_spec o (r + W) qb o ti Hti Hb') as (qb' & T1 & T2 & T3 & T4); [unfold W; lia..|].
  exists (qa ++ (o, ti) :: qb'). rewrite fmap_app. csimpl. rewrite T1. split; [done|]. split.
  - apply ordered_app. exists mid. split; [done|]. simpl. split; [done|]. split; [done|].
    by rewrite Z.max_l in T2 by lia.
  - intros p. rewrite !covered_app, covered_cons. split.
    + intros [?|[?|Hc]]; [tauto|tauto|]. apply T4 in Hc. tauto.
    + intros [[?|Hc]|?]; [tauto| |tauto]. destruct (decide (o + ti_len ti <= p)).
      * right. right. by apply T3.
      * pose proof (covered_range _ _ _ _ Hb' Hc). right. left. lia.
Qed.

(** What a call of [tcp_reass] with the segment at [o] does. *)
Definition step_post (r : Z) (tp : tcpcb) (q : list (Z * tseg)) (o : Z) (ti : tseg)
    (res : tcpcb * Z * list P * list tseg) (r' : Z) (q' : list (Z * tseg)) : Prop :=
  let '(tp', flags, ms, qr) := res in
  qr = q'.*2 ∧ r <= r' ∧ receiver r' tp' q' ∧ (∀ g, g ≠ rcv_nxt → g ≠ t_flags → tp' g = tp g) ∧
  concat (pl_bytes <$> ms) = slice r (r' - r) ∧
  (∀ p, r' <= p → covered p q' ↔ covered p q ∨ o <= p < o + ti_len ti) ∧
  (∀ p, r <= p < r' → covered p q ∨ o <= p < o + ti_len ti) ∧ (flags ≠ 0 → r' = fin) ∧ Forall pl_ok ms ∧
  (open_state tp → ¬ covered r q → ¬ covered r' q').

Lemma present_step r tp q o ti nq :
  receiver r tp q → ordered r (r + W) nq →
  (∀ p, covered p nq ↔ covered p q ∨ o <= p < o + ti_len ti) →
  ∃ r' q', step_post r tp q o ti (present tp nq.*2) r' q'.
Proof.
  intros (Hr & Hn & Hq) Hnq Hcv.
  destruct (present_spec r tp nq) as (r' & q' & Hp & Hnc); [by split_and!|].
  exists r', q'. unfold presented, step_post in *. destruct (present tp nq.*2) as [[[tp' fl] ms] qr].
  destruct Hp as (P1 & P2 & P3 & P4 & P5 & P6 & P7 & P8 & P9). split_and!; try done.
  - intros g Hg _. by apply P4.
  - intros p Hp. by rewrite P6, Hcv.
  - intros p Hp. apply Hcv. by apply P7.
  - intros Ho _. by apply Hnc.
Qed.

Lemma tcp_reass_step r tp q o ti :
  receiver r tp q → carries o ti → r <= o → o + ti_len ti <= r + W →
  ∃ r' q', step_post r tp q o ti (tcp_reass tp q.*2 (Some ti)) r' q'.
Proof.
  intros Hrec Hti Ho He. pose proof Hrec as (Hr & Hn & Hq). pose proof Hti as (Hs & Hl & _).
  unfold tcp_reass. rewrite Hs.
  destruct (split_at_spec r (r + W) q o Hq ltac:(lia) ltac:(lia)) as (qa & qb & -> & -> & Ha & Hb).
  assert (Hb' : match qb with [] => True | y :: _ => o <= y.1 end) by (destruct qb; [done|lia]).
  destruct (last qa) as [[op p]|] eqn:El.
  - apply last_Some in El as [qa' ->]. rewrite fmap_app. csimpl. rewrite last_snoc.
    rewrite <- app_assoc in Hq, Hrec |- *. simpl in Hq, Hrec |- *.
    pose proof Hq as Hq'. apply ordered_app in Hq' as (mid & Hqa & Hmid & Hp & Hqb).
    pose proof Hp as (Hps & Hpl & _). pose proof (ordered_le _ _ _ Hqa). pose proof (ordered_le _ _ _ Hqb) as Hle.
    apply Forall_app in Ha as [_ Ha]. apply Forall_cons in Ha as [Ha _]. simpl in Ha. unfold W in Hle, He.
    rewrite (seq_end op p Hp), seq_pos by lia. set (i := op + ti_len p - o).
    assert (Hqa2 : ordered r (op + ti_len p) (qa' ++ [(op, p)])).
    { apply ordered_app. exists mid. split; [done|]. simpl. split_and!; [done|done|lia]. }
    assert (Hcq : ∀ x, covered x (qa' ++ (op, p) :: qb) ↔ covered x ((qa' ++ [(op, p)]) ++ qb)).
    { intros x. by rewrite <- app_assoc. }
    assert (Hfm : qa'.*2 ++ [p] = (qa' ++ [(op, p)]).*2) by by rewrite fmap_app.
    destruct (Z.ltb_spec 0 i).
    + destruct (Z.leb_spec (ti_len ti) i).
      * (* all of it is there *)
        exists r, (qa' ++ (op, p) :: qb). unfold step_post. rewrite Z.sub_diag, fmap_app.
        split_and!; try done; try lia.
        intros x Hx. rewrite covered_app, covered_cons. unfold i in *. intuition lia.
      * (* its front is there *)
        pose proof (trim_front_len o ti i Hti ltac:(lia)) as Htl.
        destruct (insert_spec r (op + ti_len p) (qa' ++ [(op, p)]) qb (o + i) (trim_front i ti))
          as (nq & N1 & N2 & N3); try done.
        -- unfold i. lia.
        -- unfold i. lia.
        -- apply carries_trim; [done|lia].
        -- rewrite Htl. unfold W. lia.
        -- destruct qb as [|[oy y] qb]; [done|]. simpl in Hqb. simpl. unfold i. lia.
        -- rewrite Hfm, N1. apply present_step; [done|done|]. intros x. rewrite N3, Htl, Hcq.
           rewrite !covered_app, covered_cons. unfold i in *. intuition lia.
    + destruct (insert_spec r (op + ti_len p) (qa' ++ [(op, p)]) qb o ti) as (nq & N1 & N2 & N3); try done.
      * unfold i in *. lia.
      * rewrite Hfm, N1. apply present_step; [done|done|]. intros x. by rewrite N3, Hcq.
  - apply last_None in El as ->. simpl in *.
    destruct (insert_spec r r [] qb o ti) as (nq & N1 & N2 & N3); try done; [simpl; lia|].
    simpl in N1. rewrite N1. by apply present_step.
Qed.

Lemma set_tflag_other b tp g : g ≠ t_flags → set_tflag b tp g = tp g.
Proof. intros H. unfold set_tflag. by rewrite wr_ne. Qed.

Lemma TCP_REASS_step r tp q o ti :
  receiver r tp q → carries o ti → r <= o → o + ti_len ti <= r + W →
  ∃ r' q', step_post r tp q o ti (TCP_REASS tp q.*2 ti) r' q'.
Proof.
  intros Hrec Hti Ho He. unfold TCP_REASS. destruct (_ && _ && _) eqn:E.
  - apply andb_true_iff in E as [E1 E3]. apply andb_true_iff in E1 as [E1 E2]. zbool.
    destruct q as [|y q]; [|done]. pose proof Hrec as (Hr & Hn & Hq). pose proof Hti as (Hs & Hl & Hok & Hb & Hf).
    assert (o = r) as ->.
    { apply Z.eqb_eq. rewrite <- (seq_same o r) by (unfold W in *; lia). apply Z.eqb_eq. congruence. }
    exists (r + ti_len ti), []. unfold step_post. rewrite set_tflag_other by done. split_and!; try done.
    + lia.
    + split; [lia|]. split.
      * rewrite wr_eq, Hn. cbn [conv]. unfold u32. rewrite Zplus_mod_idemp_l. f_equal. lia.
      * simpl. unfold W. lia.
    + intros g Hg1 Hg2. rewrite wr_ne by done. by apply set_tflag_other.
    + csimpl. rewrite app_nil_r, Hb. f_equal. lia.
    + intros p Hp. split; [by intros ?%Exists_nil|]. intros [?%Exists_nil|]; [done|lia].
    + intros p Hp. by right.
    + by apply Forall_singleton.
    + by intros _ _ ?%Exists_nil.
  - destruct (tcp_reass_step r tp q o ti Hrec Hti Ho He) as (r' & q' & Hp). exists r', q'.
    unfold step_post in *. destruct (tcp_reass tp q.*2 (Some ti)) as [[[tp' fl] ms] qr].
    destruct Hp as (P1 & P2 & (R1 & R2 & R3) & P4 & P5 & P6 & P7 & P8 & P9 & P10). split_and!; try done.
    intros g Hg1 Hg2. rewrite set_tflag_other by done. by apply P4.
Qed.

(** ** Whole connections

    The executions of the receiving side, from an empty queue in an open state:
    segments arrive in any order, repeated and overlapping in any way, each within
    the window; [del] are the packets passed to the socket so far, [arr] the
    segments that have arrived with their positions. *)

Definition delivered (del : list P) : list Z := concat (pl_bytes <$> del).

Inductive execution : tcpcb → list tseg → list P → list (Z * tseg) → Prop :=
  | execution_start tp :
      tp rcv_nxt = u32 base → open_state tp → execution tp [] [] []
  | execution_step tp q del arr o ti tp' flags ms q' :
      execution tp q del arr → carries o ti →
      Z.of_nat (length (delivered del)) <= o →
      o + ti_len ti <= Z.of_nat (length (delivered del)) + W →
      TCP_REASS tp q ti = (tp', flags, ms, q') →
      execution tp' q' (del ++ ms) (arr ++ [(o, ti)]).

(** C10: TCP reassembly delivers the stream.  At every point of every execution the
    bytes passed to the socket are exactly the first bytes of the stream, in order
    and without gaps or repetitions; [rcv_nxt] is the sequence number of the next
    one; every delivered byte has arrived, and the next one has not: nothing that
    could be delivered is kept back. *)
Theorem reassembly_delivers_stream tp q del arr :
  execution tp q del arr →
  let r := Z.of_nat (length (delivered del)) in
  delivered del = slice 0 r ∧ tp rcv_nxt = u32 (base + r) ∧
  (∀ p, 0 <= p < r → covered p arr) ∧ ¬ covered r arr.
Proof.
  intros Hex. simpl.
  assert (Hinv : let r := Z.of_nat (length (delivered del)) in
    delivered del = slice 0 r ∧ open_state tp ∧ (∀ p, 0 <= p < r → covered p arr) ∧
    ∃ gq, q = gq.*2 ∧ receiver r tp gq ∧ ¬ covered r gq ∧
      ∀ p, r <= p → covered p gq ↔ covered p arr).
  { induction Hex as [tp Hn Ho|tp q del arr o ti tp' flags ms q' Hex IH Hti Ho He Hr]; simpl in *.
    - split; [done|]. split; [done|]. split; [lia|]. exists []. split; [done|]. split.
      + split; [done|]. split; [by rewrite Z.add_0_r|]. simpl. unfold W. lia.
      + split; [by intros ?%Exists_nil|done].
    - destruct IH as (I1 & I2 & I3 & gq & -> & I4 & I5 & I6).
      set (r := Z.of_nat (length (delivered del))) in *.
      destruct (TCP_REASS_step r tp gq o ti I4 Hti Ho He) as (r' & gq' & Hp). rewrite Hr in Hp.
      destruct Hp as (-> & P2 & P3 & P4 & P5 & P6 & P7 & P8 & _ & P9).
      assert (Hd : delivered (del ++ ms) = slice 0 r').
      { unfold delivered. rewrite fmap_app, concat_app. fold (delivered del). rewrite I1, P5.
        replace r with (0 + r) at 2 by lia. rewrite slice_app by lia. f_equal. lia. }
      assert (Hr' : Z.of_nat (length (delivered (del ++ ms))) = r').
      { rewrite Hd. apply slice_length. lia. }
      rewrite Hr'. split; [done|]. split; [unfold open_state; by rewrite P4|].
      assert (Hsnoc : ∀ p, covered p (arr ++ [(o, ti)]) ↔ covered p arr ∨ o <= p < o + ti_len ti).
      { intros p. rewrite covered_app, covered_cons. pose proof (Exists_nil (λ y : Z * tseg, y.1 <= p < y.1 + ti_len y.2)) as Hnil.
        unfold covered in *. tauto. }
      split.
      + intros p Hp. rewrite Hsnoc. destruct (decide (p < r)); [left; apply I3; lia|].
        destruct (P7 p ltac:(lia)) as [Hc|Hc]; [left; apply I6; [lia|done]|by right].
      + exists gq'. split; [done|]. split; [done|]. split; [by apply P9|].
        intros p Hp. rewrite P6, Hsnoc by done. rewrite I6 by lia. done. }
  simpl in Hinv. destruct Hinv as (H1 & H2 & H3 & gq & -> & (_ & H4 & _) & H5 & H6).
  split_and!; try done. rewrite <- H6; [done|lia].
Qed.

End Reass.

(** ** An execution *)

#[export, program] Instance list_payload : Payload (list Z) := {|
  pl_ok _ := True; pl_bytes l := l; pl_adj l i := drop (Z.to_nat i) l |}.
Next Obligation. done. Qed.

Definition ex_f (p : Z) : Z := p * 7 mod 256.
Definition ex_seg (o n : Z) : tseg := TSeg (u32 (4294967290 + o)) n TH_ACK (slice ex_f o n).

Lemma ex_carries o n : 0 <= n < 32768 → carries ex_f 4294967290 0 o (ex_seg o n).
Proof. intros Hn. by split_and!; try apply Hn. Qed.

(** Three segments, out of order, overlapping, across the wrap of the sequence
    numbers: all ten bytes are delivered. *)
Lemma reassembly_delivers_stream_witness :
  ∃ tp q del arr, execution ex_f 4294967290 0 tp q del arr ∧ tp rcv_nxt = 4 ∧
    delivered del = slice ex_f 0 10.
Proof.
  set (tp0 := wr t_state TCPS_ESTABLISHED (wr rcv_nxt 4294967290 (λ _, 0))).
  assert (Hex : ∃ tp q del arr, execution ex_f 4294967290 0 tp q del arr ∧
    Z.of_nat (length (delivered del)) = 10).
  { eexists _, _, _, _. split.
    - eapply (execution_step ex_f 4294967290 0 _ _ _ _ 0 (ex_seg 0 5));
        [eapply (execution_step ex_f 4294967290 0 _ _ _ _ 3 (ex_seg 3 3));
          [eapply (execution_step ex_f 4294967290 0 _ _ _ _ 4 (ex_seg 4 6));
            [apply (execution_start ex_f 4294967290 0 tp0); by vm_compute| | | |]| | | |]| | | |].
      all: try (apply ex_carries; lia).
      all: try (vm_compute; reflexivity).
      all: vm_compute; discriminate.
    - by vm_compute. }
  destruct Hex as (tp & q & del & arr & Hex & Hlen). exists tp, q, del, arr. split; [done|].
  destruct (reassembly_delivers_stream ex_f 4294967290 0 tp q del arr Hex) as (H1 & H2 & _).
  rewrite Hlen in H1, H2. done.
Defined.

End TcpReass.
