(* ===== verification/IpReass.v ===== *)
(** * IP reassembly (ip_reass, ip_freef, ip_slowtimo, ip_drain of netinet/ip_input.c)

    The list [ipq] of the datagrams being reassembled, each with the queue of its
    fragments, and the routines that change it.  The doubly linked lists are
    lists; a queue that has been found is given with the ones before and after it.
    The links of a fragment overlay the addresses in its header, which the queue
    head keeps meanwhile.  The proofs follow a datagram from its fragments,
    in any order, with overlaps and repetitions, to the packet delivered. *)

From stdpp Require Import options.
From S2P Require Import Prelude Mbuf Cksum Ip TcpReass.
Import Mbuf Ip.

Module IpReass.

(** ** Data *)

(** A fragment: its header ([ipf_mff] is [ip_tos]) and its packet without it. *)
Record ipasfrag := Frag { f_ip : ip; f_opts : list Z; f_m : list mbuf }.

(** [struct ipq], with the mbuf it lives in. *)
Record ipq := IPQ
  { ipq_ttl : Z; ipq_p : Z; ipq_id : Z; ipq_src : Z; ipq_dst : Z;
    ipq_mbuf : mbuf; ipq_frags : list ipasfrag }.

Definition set_frags (q : ipq) (l : list ipasfrag) : ipq :=
  IPQ (ipq_ttl q) (ipq_p q) (ipq_id q) (ipq_src q) (ipq_dst q) (ipq_mbuf q) l.
Definition set_qttl (q : ipq) (t : Z) : ipq :=
  IPQ t (ipq_p q) (ipq_id q) (ipq_src q) (ipq_dst q) (ipq_mbuf q) (ipq_frags q).

Definition MT_FTABLE : Z := 11.

Definition f_off (x : ipasfrag) : Z := ip_off (f_ip x).
Definition f_len (x : ipasfrag) : Z := ip_len (f_ip x).
Definition f_mff (x : ipasfrag) : bool := ztrue (Z.land (ip_tos (f_ip x)) 1).

(** [m->m_data += n; m->m_len -= n], and back. *)
Definition hide (n : Z) (m : list mbuf) : list mbuf :=
  on_head (λ m, set_len (set_data m (m_data m + n)) (m_len m - n)) m.

(** ** Operations *)

Section Ops.
Context (drain : mstate → mstate) (junk : list Z) (junk_len : Z).

(** [m_adj(dtom(x), i); x->ip_off += i; x->ip_len -= i]. *)
Definition trim (i : Z) (x : ipasfrag) : M mstate ipasfrag :=
  let! m := lift (m_adj (f_m x) i) in
  ret (Frag (set_iplen (set_off (f_ip x) (f_off x + i)) (f_len x - i)) (f_opts x) m).

(** The search for a fragment that begins after [off]. *)
Fixpoint split_after (off : Z) (l : list ipasfrag) : list ipasfrag * list ipasfrag :=
  match l with
  | [] => ([], [])
  | q :: l' => if off <? f_off q then ([], l)
               else let '(a, b) := split_after off l' in (q :: a, b)
  end.

(** The loop that trims or dequeues the fragments that [x] overlaps. *)
Fixpoint trim_succ (x : ipasfrag) (l : list ipasfrag) : M mstate (list ipasfrag) :=
  match l with
  | [] => ret []
  | q :: l' =>
      if f_off q <? f_off x + f_len x then
        let i := f_off x + f_len x - f_off q in
        if i <? f_len q then let! q := trim i q in ret (q :: l')
        else do! m_freem (f_m q) in trim_succ x l'
      else ret l
  end.

(** The loop that looks for a gap; [None] if there is one, else the end. *)
Fixpoint contiguous (next : Z) (l : list ipasfrag) : option Z :=
  match l with
  | [] => Some next
  | q :: l => if f_off q =? next then contiguous (next + f_len q) l else None
  end.

Fixpoint cat_frags (m : list mbuf) (l : list ipasfrag) : M mstate (list mbuf) :=
  match l with
  | [] => ret m
  | q :: l => let! m := m_cat m (f_m q) in cat_frags m l
  end.

(** From the label [insert] on, with the fragments [l] of [fp] after [ip_enq]. *)
Definition complete (pre : list ipq) (fp : ipq) (post : list ipq) (l : list ipasfrag) :
    M mstate (option ipasfrag * list ipq) :=
  let wait := (None, pre ++ set_frags fp l :: post) in
  match contiguous 0 l, l, last l with
  | Some next, q0 :: l', Some ql =>
      if f_mff ql then ret wait
      else
        match f_m q0 with
        | [] => crash
        | m0 :: t =>
            let! m := m_cat [m0] t in
            let! m := cat_frags m l' in
            let h := set_iplen (f_ip q0) next in
            let h := set_tos h (Z.land (ip_tos h) (Z.lnot 1)) in
            let h := set_dst (set_src h (ipq_src fp)) (ipq_dst fp) in
            do! MFREE (ipq_mbuf fp) in
            let m := hide (- hdrlen h) m in
            let m := on_head (if_pkthdr (λ m0, set_pktlen m0 (chain_len m))) m in
            ret (Some (Frag h (f_opts q0) m), pre ++ post)
        end
  | _, _, _ => ret wait
  end.

Definition dropfrag (x : ipasfrag) (qs : list ipq) : M mstate (option ipasfrag * list ipq) :=
  do! m_freem (f_m x) in ret (None, qs).

(** [ip_reass]; [fp] is the queue found, between those before and after it.  When
    [m_get] has to ask the protocols for memory, [ip_drain] empties the list. *)
Definition ip_reass (qs : list ipq) (fp : option (list ipq * ipq * list ipq)) (x : ipasfrag) :
    M mstate (option ipasfrag * list ipq) :=
  let x := Frag (f_ip x) (f_opts x) (hide (hdrlen (f_ip x)) (f_m x)) in
  match fp with
  | None =>
      let! s := get in
      let! t := m_get drain junk junk_len MT_FTABLE in
      let! s' := get in
      let qs := if m_drain s' =? m_drain s then qs else [] in
      match t with
      | None => dropfrag x qs
      | Some t =>
          let h := f_ip x in
          complete [] (IPQ IPFRAGTTL (ip_p h) (ip_id h) (ip_src h) (ip_dst h) t []) qs [x]
      end
  | Some (pre, fp, post) =>
      let '(before, after) := split_after (f_off x) (ipq_frags fp) in
      let insert x := let! after := trim_succ x after in complete pre fp post (before ++ x :: after) in
      match last before with
      | Some p =>
          let i := f_off p + f_len p - f_off x in
          if 0 <? i then
            if f_len x <=? i then dropfrag x (pre ++ fp :: post)
            else let! x := trim i x in insert x
          else insert x
      | None => insert x
      end
  end.

Fixpoint free_frags (l : list ipasfrag) : M mstate () :=
  match l with [] => ret () | q :: l => do! m_freem (f_m q) in free_frags l end.

Definition ip_freef (fp : ipq) : M mstate () :=
  do! free_frags (ipq_frags fp) in MFREE (ipq_mbuf fp).

(** [ip_slowtimo] on a list that [ip_init] has set up. *)
Fixpoint ip_slowtimo (qs : list ipq) : M mstate (list ipq) :=
  match qs with
  | [] => ret []
  | fp :: qs =>
      let fp := set_qttl fp (u8 (ipq_ttl fp - 1)) in
      if ipq_ttl fp =? 0 then do! ip_freef fp in ip_slowtimo qs
      else let! qs := ip_slowtimo qs in ret (fp :: qs)
  end.

Fixpoint ip_drain (qs : list ipq) : M mstate (list ipq) :=
  match qs with [] => ret [] | fp :: qs => do! ip_freef fp in ip_drain qs end.

(** The search in [ipintr] for the queue of a datagram. *)
Definition same_datagram (h : ip) (fp : ipq) : bool :=
  (ip_id h =? ipq_id fp) && (ip_src h =? ipq_src fp) && (ip_dst h =? ipq_dst fp) && (ip_p h =? ipq_p fp).

Fixpoint find_ipq (h : ip) (qs : list ipq) : option (list ipq * ipq * list ipq) :=
  match qs with
  | [] => None
  | fp :: qs =>
      if same_datagram h fp then Some ([], fp, qs)
      else match find_ipq h qs with Some (a, q, b) => Some (fp :: a, q, b) | None => None end
  end.

(** The label [ours] of [ipintr], for a packet with [ip_off & ~IP_DF] set: the
    packet to deliver, if there is one, and the list of queues. *)
Definition reassemble (hlen : Z) (qs : list ipq) (x : ipasfrag) : M mstate (option ipasfrag * list ipq) :=
  let fp := find_ipq (f_ip x) qs in
  let h := set_iplen (f_ip x) (ip_len (f_ip x) - hlen) in
  let h := set_tos h (Z.land (ip_tos h) (Z.lnot 1)) in
  let h := if ztrue (Z.land (ip_off h) IP_MF) then set_tos h (Z.lor (ip_tos h) 1) else h in
  let h := set_off h (Z.shiftl (ip_off h) 3) in
  let x := Frag h (f_opts x) (f_m x) in
  if f_mff x || ztrue (ip_off h) then ip_reass qs fp x
  else
    match fp with
    | Some (pre, fp, post) => do! ip_freef fp in ret (Some x, pre ++ post)
    | None => ret (Some x, qs)
    end.

End Ops.

(** ** Datagrams and their fragments *)

(** What the sender put into a datagram: its data, their length, the header. *)
Record dgram := Dgram { d_data : Z → Z; d_len : Z; d_hdr : ip; d_opts : list Z }.

(** Datagrams are told apart by identification, addresses and protocol. *)
Definition key : Type := Z * Z * Z * Z.
Definition key_of (h : ip) : key := (ip_id h, ip_src h, ip_dst h, ip_p h).
Definition qkey (q : ipq) : key := (ipq_id q, ipq_src q, ipq_dst q, ipq_p q).

(** The header fields that reassembly takes from the first fragment. *)
Definition agrees (h h' : ip) : Prop :=
  ip_v h = ip_v h' ∧ ip_hl h = ip_hl h' ∧ Z.land (ip_tos h) (Z.lnot 1) = Z.land (ip_tos h') (Z.lnot 1) ∧
  ip_ttl h = ip_ttl h' ∧ ip_id h = ip_id h' ∧ ip_p h = ip_p h'.

(** The chain of a fragment lies in memory, with the header in front of the data. *)
Definition chain_ok (s : mstate) (m : list mbuf) : Prop := Forall (mbuf_ok s) m ∧ Forall (cl_known s) m.

Definition room (h : ip) (m : list mbuf) : Prop :=
  match m with
  | m :: _ => has m M_EXT = false ∧ hdrlen h + (if has m M_PKTHDR then 8 else 0) <= m_data m
  | [] => False
  end.

(** The length of the packet put together is the sum of the lengths, as a [short]:
    32768 bytes and more make it negative. *)
Lemma complete_length pre fp post l s :
  wlp (complete pre fp post l) s (λ r _, ∀ p, r.1 = Some p → ∃ next, contiguous 0 l = Some next ∧ f_len p = s16 next).
Proof.
  unfold complete. destruct (contiguous 0 l) as [next|]; [|done]. destruct l as [|q0 l]; [done|].
  destruct (last (q0 :: l)) as [ql|]; [|done]. destruct (f_mff ql); [done|]. destruct (f_m q0) as [|m0 t]; [done|].
  unfold wlp, bind. destruct (m_cat [m0] t s) as [[m s1]| |]; [|done..]. destruct (cat_frags m l s1) as [[m2 s2]| |]; [|done..].
  destruct (MFREE (ipq_mbuf fp) s2) as [[[] s3]| |]; [|done..]. intros p [= <-]. by exists next.
Qed.

Section Proofs.
#[local] Set Default Proof Using "Type*".
Context (d : dgram) (d_len_ok : 0 < d_len d <= 32767).

#[local] Abbreviation slice := (TcpReass.slice (d_data d)).
#[local] Abbreviation N := (d_len d).

(** The fragment [x] is a piece of the datagram [d]. *)
Record carries (s : mstate) (x : ipasfrag) : Prop := {
  c_range : 0 <= f_off x ∧ 0 <= f_len x ∧ f_off x + f_len x <= N;
  c_last : f_mff x = false ↔ f_off x + f_len x = N;
  c_chain : chain_ok s (f_m x);
  c_bytes : bytes s (f_m x) = slice (f_off x) (f_len x);
  c_hl : 0 <= hdrlen (f_ip x);
  c_room : room (f_ip x) (f_m x);
  c_first : f_off x = 0 → agrees (f_ip x) (d_hdr d) ∧ f_opts x = d_opts d }.

(** Fragments in order, without overlaps, from [lo] on. *)
Fixpoint ordered (s : mstate) (lo : Z) (l : list ipasfrag) : Prop :=
  match l with
  | [] => True
  | x :: l => lo <= f_off x ∧ carries s x ∧ ordered s (f_off x + f_len x) l
  end.

Definition covered (p : Z) (l : list ipasfrag) : Prop :=
  Exists (λ x, f_off x <= p < f_off x + f_len x) l.

(** The end of the last fragment. *)
Definition stop (lo : Z) (l : list ipasfrag) : Z :=
  match last l with Some x => f_off x + f_len x | None => lo end.

(** *** Chains *)

Lemma chain_ok_store s s' m : same_store s s' → chain_ok s m → chain_ok s' m.
Proof.
  intros Hs [H1 H2]. split.
  - eapply Forall_impl; [exact H1|]. intros x. by apply mbuf_ok_store.
  - eapply Forall_impl; [exact H2|]. intros x. by apply cl_known_store.
Qed.

Lemma same_store_sym s s' : same_store s s' → same_store s' s.
Proof. intros [H1 H2]. by split. Qed.

Lemma frag_carries_store s s' x : same_store s s' → carries s x → carries s' x.
Proof.
  intros Hs []. split; try done.
  - by eapply chain_ok_store.
  - by rewrite (bytes_store s s') by done.
Qed.

Lemma ordered_store s s' lo l : same_store s s' → ordered s lo l → ordered s' lo l.
Proof.
  intros Hs. revert lo; induction l as [|x l IH]; intros lo; [done|].
  intros (H1 & H2 & H3). split; [done|]. split; [by eapply frag_carries_store|by apply IH].
Qed.

(** [m_adj] on the front keeps the header in front of the data. *)
Lemma m_adj_front s h ms i :
  0 <= i → chain_ok s ms → room h ms →
  ∃ r, m_adj ms i = Some r ∧ chain_ok s r ∧ bytes s r = drop (Z.to_nat i) (bytes s ms) ∧ room h r.
Proof.
  intros Hi Hok Hroom. destruct (pl_adj_spec (Payload := mbuf_payload s) ms i Hok Hi) as [H1 H2].
  cbn in H1, H2. destruct ms as [|m ms]; [done|].
  assert (E : ∃ r, m_adj (m :: ms) i = Some r ∧ room h r).
  { unfold m_adj. rewrite (proj2 (Z.leb_le 0 i)) by done. destruct Hroom as [G1 G2]. simpl.
    assert (Hr : ∀ g m', has m' M_EXT = false → hdrlen h + (if has m' M_PKTHDR then 8 else 0) <= m_data m' →
      ∀ l, room h (on_head (if_pkthdr (λ m, set_pktlen m (g m))) (m' :: l))).
    { intros g m' F1 F2 l. simpl. unfold if_pkthdr. destruct (has m' M_PKTHDR) eqn:E; [|by rewrite E in *].
      split; [exact F1|]. change (has (set_pktlen m' (g m')) M_PKTHDR) with (has m' M_PKTHDR). rewrite E. exact F2. }
    destruct (0 <? i) eqn:E1; [destruct (m_len m <=? i); [destruct (adj_head ms _)|]|].
    all: eexists; split; [reflexivity|]; apply Hr; try exact G1; try exact G2.
    change (has _ M_PKTHDR) with (has m M_PKTHDR). simpl. zbool. lia. }
  destruct E as (r & E & Hr). rewrite E in H1, H2. by exists r.
Qed.

Lemma trim_wp s x i :
  carries s x → 0 < i <= f_len x →
  wp (trim i x) s (λ y s', s' = s ∧ carries s y ∧ f_off y = f_off x + i ∧ f_len y = f_len x - i).
Proof.
  intros [(R1 & R2 & R3) Hl Hc Hb Hh Hr Hf] Hi. unfold trim.
  destruct (m_adj_front s (f_ip x) (f_m x) i ltac:(lia) Hc Hr) as (r & E & Hc' & Hb' & Hr').
  rewrite E. wp_step. apply wp_ret. wp_step. split; [done|].
  assert (Eo : s16 (f_off x + i) = f_off x + i) by (apply s16_id; unfold is_s16; lia).
  assert (El : s16 (f_len x - i) = f_len x - i) by (apply s16_id; unfold is_s16; lia).
  split; [|done]. split; unfold f_off, f_len, f_mff in *; simpl in *; rewrite ?Eo, ?El; try done; try lia.
  - rewrite Hl. lia.
  - rewrite Hb', Hb. by rewrite TcpReass.slice_drop by lia.
Qed.

(** *** Order and coverage *)

Lemma frag_ordered_weaken s lo lo' l : lo' <= lo → ordered s lo l → ordered s lo' l.
Proof. destruct l as [|x l]; [done|]. intros H (H1 & H2). split; [lia|done]. Qed.

Lemma stop_cons lo x l : stop lo (x :: l) = stop (f_off x + f_len x) l.
Proof. unfold stop. rewrite last_cons. by destruct (last l). Qed.

Lemma stop_snoc lo l x : stop lo (l ++ [x]) = f_off x + f_len x.
Proof. unfold stop. by rewrite last_snoc. Qed.

Lemma frag_ordered_app s lo a b : ordered s lo (a ++ b) ↔ ordered s lo a ∧ ordered s (stop lo a) b.
Proof.
  revert lo; induction a as [|x a IH]; intros lo; [simpl; tauto|].
  rewrite stop_cons. simpl. rewrite IH. tauto.
Qed.

Lemma ordered_stop s lo l : ordered s lo l → lo <= stop lo l.
Proof.
  revert lo; induction l as [|x l IH]; intros lo; [unfold stop; simpl; lia|].
  intros (H1 & [(? & ? & ?)] & H3). rewrite stop_cons. apply IH in H3. lia.
Qed.

Lemma covered_nil p : ¬ covered p [].
Proof. by intros ?%Exists_nil. Qed.

Lemma frag_covered_cons p x l : covered p (x :: l) ↔ f_off x <= p < f_off x + f_len x ∨ covered p l.
Proof. apply Exists_cons. Qed.

Lemma frag_covered_app p a b : covered p (a ++ b) ↔ covered p a ∨ covered p b.
Proof. apply Exists_app. Qed.

Lemma covered_ge s lo l p : ordered s lo l → covered p l → lo <= p < N.
Proof.
  intros H Hc. revert lo H. induction Hc as [x l Hx|x l Hc IH]; intros lo (H1 & [(? & ? & ?)] & H3); [lia|].
  apply IH in H3. lia.
Qed.

Lemma covered_stop s lo l p : ordered s lo l → covered p l → p < stop lo l.
Proof.
  intros H Hc. revert lo H. induction Hc as [x l Hx|x l Hc IH]; intros lo (H1 & [(? & ? & ?)] & H3);
    rewrite stop_cons; [pose proof (ordered_stop _ _ _ H3); lia|auto].
Qed.

Lemma split_after_spec o l :
  let '(a, b) := split_after o l in
  l = a ++ b ∧ Forall (λ x, f_off x <= o) a ∧ match b with [] => True | x :: _ => o < f_off x end.
Proof.
  induction l as [|x l IH]; simpl; [done|]. destruct (Z.ltb_spec o (f_off x)); [done|].
  destruct (split_after o l) as [a b]. destruct IH as (-> & H1 & H2). split; [done|]. split; [by constructor|done].
Qed.

Lemma trim_succ_wp s x l :
  carries s x → ordered s (f_off x) l →
  wp (trim_succ x l) s (λ l' s', same_store s s' ∧ ordered s (f_off x + f_len x) l' ∧
    (∀ p, f_off x + f_len x <= p → covered p l' ↔ covered p l) ∧ (∀ p, covered p l' → covered p l)).
Proof.
  intros Hx. set (e := f_off x + f_len x). pose proof (c_range _ _ Hx) as (X1 & X2 & X3).
  assert (Hgen : ∀ lo, f_off x <= lo → ordered s lo l → ∀ s1, same_store s s1 →
    wp (trim_succ x l) s1 (λ l' s', same_store s s' ∧ ordered s e l' ∧
    (∀ p, e <= p → covered p l' ↔ covered p l) ∧ (∀ p, covered p l' → covered p l))).
  { induction l as [|q l IH]; intros lo Hlo Ho s1 Hs1; simpl; [by wp_steps|].
    destruct Ho as (H1 & Hq & Ho). pose proof (c_range _ _ Hq) as (Q1 & Q2 & Q3). fold e.
    destruct (Z.ltb_spec (f_off q) e).
    - destruct (Z.ltb_spec (e - f_off q) (f_len q)).
      + wp_step. eapply wp_mono; [apply trim_wp; [by eapply frag_carries_store|lia]|].
        intros y s2 (-> & Hy & E1 & E2). wp_step. split; [done|]. split_and!.
        * split; [lia|]. split; [eapply frag_carries_store; [by apply same_store_sym|done]|]. rewrite E1, E2. by replace (_ + _) with (f_off q + f_len q) by lia.
        * intros p Hp. rewrite !frag_covered_cons, E1, E2. intuition lia.
        * intros p. rewrite !frag_covered_cons, E1, E2. intuition lia.
      + wp_step. eapply wp_mono; [apply m_freem_wp; eapply chain_ok_store; [done|apply Hq]|].
        intros [] s2 Hs2. eapply wp_mono; [eapply (IH (f_off q + f_len q)); [lia|done|by etrans]|].
        intros l' s3 (G1 & G2 & G3 & G4). split; [done|]. split; [done|]. split; intros p.
        * intros Hp. rewrite G3, frag_covered_cons by done. intuition lia.
        * rewrite frag_covered_cons. auto.
    - wp_step. split; [done|]. split; [|done]. split; [lia|]. by split. }
  intros Ho. by apply (Hgen (f_off x)).
Qed.

(** *** Concatenation *)

(** [r] begins with the mbuf of [m], moved or grown but at the same place. *)
Definition same_front (m r : list mbuf) : Prop :=
  match m, r with
  | m :: _, m' :: _ => m_data m' = m_data m ∧ m_flags m' = m_flags m
  | _, _ => False
  end.

Lemma room_front h m r : same_front m r → room h m → room h r.
Proof.
  destruct m as [|m ms], r as [|m' r]; try done. intros [E1 E2] [H1 H2].
  unfold room, has in *. by rewrite E1, E2.
Qed.

Lemma cat_loop_front m n s :
  cl_known s m → Forall (cl_known s) n →
  ∀ s1, wlp (cat_loop m n) s1 (λ r _, same_front [m] r ∧ Forall (cl_known s) r).
Proof.
  revert m; induction n as [|n0 n IH]; intros m Hm Hn s1; simpl.
  { apply wlp_ret. split; [done|]. by constructor. }
  destruct (has m M_EXT || _) eqn:E; [apply wlp_ret; split; [done|by constructor]|]. zbool.
  inversion_clear Hn as [|? ? Hn0 Hns].
  apply wlp_bind. eapply (wlp_mono _ _ (λ _ _, True)); [unfold wlp; by destruct (m_read _ _ _ _) as [[]| |]|].
  intros b s2 _. apply wlp_bind.
  eapply (wlp_mono _ _ (λ m' _, ∃ l, m' = set_dat m l)).
  { unfold m_write. apply wlp_bind, wlp_get, wlp_bind, wlp_lift. intros b1 _. apply wlp_bind, wlp_lift.
    intros b2 _. rewrite H. apply wlp_ret. by exists b2. }
  intros m' s3 [l ->]. apply wlp_bind. eapply (wlp_mono _ _ (λ _ _, True)); [unfold wlp; by destruct (MFREE _ _) as [[]| |]|].
  intros [] s4 _. apply (IH (set_len (set_dat m l) _)); [exact Hm|done].
Qed.

Lemma m_cat_front m ms n s :
  Forall (cl_known s) (m :: ms) → Forall (cl_known s) n →
  ∀ s1, wlp (m_cat (m :: ms) n) s1 (λ r _, same_front (m :: ms) r ∧ Forall (cl_known s) r).
Proof.
  revert m; induction ms as [|m' ms IH]; intros m Hm Hn s1.
  { inversion_clear Hm. by apply cat_loop_front. }
  change (m_cat (m :: m' :: ms) n) with (let! r := m_cat (m' :: ms) n in ret (m :: r)).
  inversion_clear Hm. apply wlp_bind. eapply wlp_mono; [by apply IH|]. intros r s2 [H1 H2]. apply wlp_ret.
  split; [done|]. by constructor.
Qed.

Lemma cat_wp s s1 m n :
  same_store s s1 → m ≠ [] → chain_ok s m → chain_ok s n →
  wp (m_cat m n) s1 (λ r s', same_store s s' ∧ chain_ok s r ∧ bytes s r = bytes s m ++ bytes s n ∧
    same_front m r).
Proof.
  intros Hs Hne [H1 H2] [H3 H4]. destruct m as [|m ms]; [done|].
  eapply wp_mono; [apply wp_wlp; [apply (m_cat_wp s1); [done| |]|by apply (m_cat_front m ms n s)]|].
  - eapply Forall_impl; [apply Forall_app; split; [exact H1|exact H3]|]. intros x. by apply mbuf_ok_store.
  - eapply Forall_impl; [exact H4|]. intros x. by apply cl_known_store.
  - intros r s' [(G1 & G2 & G3) [G4 G5]]. pose proof (same_store_sym _ _ Hs) as Hs'.
    rewrite !(bytes_store s s1) in G2 by done. rewrite bytes_app in G2.
    split; [by etrans|]. split; [|done]. split; [|done].
    eapply Forall_impl; [exact G3|]. intros x. by apply mbuf_ok_store.
Qed.

Lemma cat_frags_wp s s1 m l :
  same_store s s1 → m ≠ [] → chain_ok s m → Forall (λ x, chain_ok s (f_m x)) l →
  wp (cat_frags m l) s1 (λ r s', same_store s s' ∧ chain_ok s r ∧
    bytes s r = bytes s m ++ concat ((λ x, bytes s (f_m x)) <$> l) ∧ same_front m r).
Proof.
  intros Hs Hne Hm Hl. revert m s1 Hs Hne Hm; induction Hl as [|x l Hx Hl IH]; intros m s1 Hs Hne Hm; simpl.
  { wp_step. rewrite app_nil_r. destruct m; done. }
  wp_step. eapply wp_mono; [by apply (cat_wp s)|]. intros r s2 (G1 & G2 & G3 & G4).
  assert (r ≠ []) by (destruct m, r; done).
  eapply wp_mono; [by apply IH|]. intros r' s3 (F1 & F2 & F3 & F4). split; [done|]. split; [done|]. split.
  - by rewrite F3, G3, <- app_assoc.
  - destruct m as [|m ms], r as [|a r], r' as [|a' r']; try done. destruct G4, F4. split; congruence.
Qed.

(** *** Completion *)

Lemma contiguous_stop lo l e : contiguous lo l = Some e → e = stop lo l.
Proof.
  revert lo; induction l as [|x l IH]; intros lo; simpl; [by intros [= <-]|].
  destruct (Z.eqb_spec (f_off x) lo) as [<-|]; [|done]. rewrite stop_cons. apply IH.
Qed.

Lemma contiguous_bytes s lo l e :
  ordered s lo l → contiguous lo l = Some e →
  concat ((λ x, bytes s (f_m x)) <$> l) = slice lo (e - lo) ∧ (∀ p, lo <= p < e → covered p l).
Proof.
  revert lo; induction l as [|x l IH]; intros lo; csimpl.
  { intros _ [= <-]. rewrite Z.sub_diag. split; [done|lia]. }
  intros (H1 & Hx & Ho). destruct (Z.eqb_spec (f_off x) lo) as [<-|]; [|done]. intros E.
  pose proof (contiguous_stop _ _ _ E) as Es. pose proof (ordered_stop _ _ _ Ho).
  destruct (IH _ Ho E) as [G1 G2]. pose proof (c_range _ _ Hx) as (X1 & X2 & X3). split.
  - rewrite (c_bytes _ _ Hx), G1, TcpReass.slice_app by lia. f_equal. lia.
  - intros p Hp. rewrite frag_covered_cons. destruct (decide (p < f_off x + f_len x)); [left; lia|right; apply G2; lia].
Qed.

Lemma contiguous_covered s lo l :
  ordered s lo l → lo <= N → (∀ p, lo <= p < N → covered p l) → contiguous lo l = Some N.
Proof.
  revert lo; induction l as [|x l IH]; intros lo; simpl.
  { intros _ Hlo Hc. destruct (decide (lo = N)) as [->|]; [done|].
    destruct (covered_nil lo). apply Hc. lia. }
  intros (H1 & Hx & Ho) Hlo Hc. pose proof (c_range _ _ Hx) as (X1 & X2 & X3).
  assert (E : f_off x = lo).
  { destruct (decide (lo = N)) as [->|]; [lia|].
    destruct (proj1 (frag_covered_cons _ _ _) (Hc lo ltac:(lia))) as [?|Hcv]; [lia|].
    apply (covered_ge _ _ _ _ Ho) in Hcv. lia. }
  rewrite (proj2 (Z.eqb_eq _ _) E), <- E. apply IH; [done|lia|]. intros p Hp.
  destruct (proj1 (frag_covered_cons _ _ _) (Hc p ltac:(lia))) as [?|Hcv]; [lia|done].
Qed.

Lemma ordered_all s lo l : ordered s lo l → Forall (carries s) l.
Proof. revert lo; induction l as [|x l IH]; intros lo; [done|]. intros (H1 & H2 & H3). constructor; eauto. Qed.

(** The packet delivered for the datagram: the header of the first fragment with
    the whole length, and behind it the data. *)
Record delivered (s : mstate) (src dst : Z) (r : ipasfrag) : Prop := {
  dl_len : f_len r = N;
  dl_off : f_off r = 0;
  dl_hdr : agrees (f_ip r) (d_hdr d);
  dl_tos : Z.land (ip_tos (f_ip r)) 1 = 0;
  dl_addr : ip_src (f_ip r) = src ∧ ip_dst (f_ip r) = dst;
  dl_opts : f_opts r = d_opts d;
  dl_chain : chain_ok s (f_m r);
  dl_pkthdr : pkthdr_ok (f_m r);
  dl_front : ∃ m ms, f_m r = m :: ms ∧ hdrlen (f_ip r) <= m_len m;
  dl_bytes : drop (Z.to_nat (hdrlen (f_ip r))) (bytes s (f_m r)) = slice 0 N }.

Definition whole (l : list ipasfrag) : Prop := ∀ p, 0 <= p < N → covered p l.

(** Making the header visible again. *)
Lemma unhide_spec s h m :
  chain_ok s m → room h m → 0 <= hdrlen h →
  let r := hide (- hdrlen h) m in
  chain_ok s r ∧ drop (Z.to_nat (hdrlen h)) (bytes s r) = bytes s m ∧
  (∃ m0 ms, r = m0 :: ms ∧ hdrlen h <= m_len m0).
Proof.
  intros [H1 H2] Hr Hh. destruct m as [|m ms]; [done|]. destruct Hr as [He Hd]. simpl.
  apply Forall_cons in H1 as [(L1 & L2 & b & Hb & L3 & L4) Hms]. destruct (L4 He) as [Hlen Hp].
  assert (E8 : 0 <= (if has m M_PKTHDR then 8 else 0)) by (destruct (has m M_PKTHDR); lia).
  set (m' := set_len _ _). assert (Hm' : mbuf_ok s m').
  { split; [simpl; lia|]. split; [simpl; lia|]. exists b. split; [done|]. split; [simpl; lia|].
    intros _. split; [done|]. intros Hpk. change (has m M_PKTHDR = true) in Hpk. simpl. rewrite Hpk in Hd. lia. }
  split; [|split].
  - split; [by constructor|]. apply Forall_cons in H2 as [? ?]. by constructor.
  - rewrite !bytes_cons, drop_app_le by (rewrite Nat2Z.inj_le, mbytes_length by done; simpl; lia).
    f_equal. unfold mbytes. change (buffer s m') with (buffer s m). rewrite Hb. simpl.
    rewrite skipn_firstn_comm, drop_drop. f_equal; [|f_equal]; lia.
  - eexists _, _. split; [done|]. simpl. lia.
Qed.

(** The packet [complete] builds on the first fragment [q0] and the chain [r]. *)
Lemma delivered_packet s q0 src dst r :
  carries s q0 → f_off q0 = 0 → chain_ok s r → room (f_ip q0) r → bytes s r = slice 0 N →
  let h := set_iplen (f_ip q0) N in
  let h := set_dst (set_src (set_tos h (Z.land (ip_tos h) (Z.lnot 1))) src) dst in
  let m := hide (- hdrlen h) r in
  delivered s src dst (Frag h (f_opts q0) (on_head (if_pkthdr (λ m0, set_pktlen m0 (chain_len m))) m)).
Proof.
  intros [_ _ _ _ Hh _ Hf] E0 Hc Hr Hb h0 h m. destruct (Hf E0) as [Hag Hopt].
  destruct (unhide_spec s h r Hc Hr Hh) as (U1 & U2 & m1 & ms1 & U3 & U4). fold m in U1, U2, U3.
  destruct (on_head_pktlen s (λ _, chain_len m) m) as (P1 & P2 & _).
  split; simpl; try done.
  - apply s16_id. unfold is_s16. lia.
  - unfold agrees in *. simpl. rewrite <- Z.land_assoc, Z.land_diag. done.
  - by rewrite <- Z.land_assoc, (Z.land_comm (Z.lnot 1)), Z.land_lnot_diag, Z.land_0_r.
  - split; [apply P2, U1|]. apply on_head_known; [|apply U1]. by intros x; apply (pktlen_known s (λ _, chain_len m)).
  - apply (on_head_pkthdr_ok (λ _, chain_len m)). done.
  - rewrite U3. eexists _, _. split; [done|]. unfold if_pkthdr. by destruct (has m1 M_PKTHDR).
  - rewrite P1, U2. done.
Qed.

Lemma complete_wp s s1 pre fp post l :
  same_store s s1 → ordered s 0 l → l ≠ [] → cl_known s (ipq_mbuf fp) →
  wp (complete pre fp post l) s1 (λ r s', same_store s s' ∧
    (whole l ∧ (∃ p, r = (Some p, pre ++ post) ∧ delivered s (ipq_src fp) (ipq_dst fp) p) ∨
     ¬ whole l ∧ r = (None, pre ++ set_frags fp l :: post))).
Proof.
  intros Hs Ho Hne Hk. unfold complete.
  assert (Hw : whole l → contiguous 0 l = Some N) by (apply contiguous_covered with s; [done|lia]).
  destruct (contiguous 0 l) as [next|] eqn:Ec; [|wp_step; split; [done|]; right; split; [|done]; by intros ?%Hw].
  pose proof (contiguous_stop _ _ _ Ec) as Es. destruct (contiguous_bytes _ _ _ _ Ho Ec) as [Hb Hc].
  destruct l as [|q0 l]; [done|]. destruct (last (q0 :: l)) as [ql|] eqn:El; [|by apply last_None in El].
  unfold stop in Es. rewrite El in Es. pose proof (ordered_all _ _ _ Ho) as Hall.
  assert (Hql : carries s ql) by (rewrite Forall_forall in Hall; apply Hall, last_Some_elem_of, El).
  destruct (f_mff ql) eqn:Em.
  { wp_step. split; [done|]. right. split; [|done]. intros E%Hw. injection E as E.
    assert (f_mff ql = false) by (apply (c_last _ _ Hql); lia). congruence. }
  apply (c_last _ _ Hql) in Em. rewrite <- Es in Em. rewrite Em in *. clear ql Hql El Es Em next.
  apply Forall_cons in Hall as [H0 Hl]. pose proof H0 as [R0 _ C0 B0 HL0 RM0 F0].
  assert (E0 : f_off q0 = 0) by (simpl in Ec; by destruct (Z.eqb_spec (f_off q0) 0)).
  destruct (F0 E0) as [Hag Hopt]. destruct (f_m q0) as [|m0 t] eqn:Em0; [done|].
  assert (C1 : chain_ok s [m0] ∧ chain_ok s t).
  { destruct C0 as [C1 C2]. apply Forall_cons in C1 as [? ?], C2 as [? ?]. split; split; auto. }
  wp_step. eapply wp_mono; [apply (cat_wp s); try apply C1; done|]. intros m s2 (G1 & G2 & G3 & G4).
  assert (Hm : m ≠ []) by by destruct m.
  wp_step. eapply wp_mono; [apply (cat_frags_wp s); try done|].
  { eapply Forall_impl; [exact Hl|]. intros x Hx. apply Hx. }
  intros r s3 (F1 & F2 & F3 & F4). wp_step. eapply wp_mono; [apply MFREE_wp; by eapply cl_known_store|].
  intros [] s4 Hs4. wp_step. split; [by etrans|]. left. split; [exact Hc|]. eexists. split; [done|].
  apply delivered_packet; try done.
  - eapply room_front; [exact F4|]. eapply room_front; [exact G4|]. exact RM0.
  - rewrite F3, G3, <- bytes_app. rewrite Z.sub_0_r in Hb. csimpl in Hb. rewrite Em0 in Hb. exact Hb.
Qed.

(** *** One fragment *)

(** What [ip_reass] makes of the fragments [l], those of the queue [fp] and the
    one that came: the datagram if they are all of it, else a queue with them. *)
Definition outcome (s : mstate) (pre : list ipq) (fp : ipq) (post : list ipq) (l : list ipasfrag)
    (r : option ipasfrag * list ipq) : Prop :=
  whole l ∧ (∃ p, r = (Some p, pre ++ post) ∧ delivered s (ipq_src fp) (ipq_dst fp) p) ∨
  ¬ whole l ∧ (∃ l', r = (None, pre ++ set_frags fp l' :: post) ∧ ordered s 0 l' ∧ l' ≠ [] ∧
               ∀ p, covered p l' ↔ covered p l).

Lemma outcome_covered s pre fp post l l' r :
  (∀ p, covered p l ↔ covered p l') → outcome s pre fp post l r → outcome s pre fp post l' r.
Proof.
  intros H. assert (Hw : whole l ↔ whole l') by (unfold whole; by setoid_rewrite H).
  unfold outcome. rewrite Hw. by setoid_rewrite H.
Qed.

Lemma insert_wp s pre fp post before after x :
  ordered s 0 before → stop 0 before <= f_off x → ordered s (f_off x) after → carries s x →
  cl_known s (ipq_mbuf fp) →
  wp (let! after := trim_succ x after in complete pre fp post (before ++ x :: after)) s
    (λ r s', same_store s s' ∧ outcome s pre fp post (x :: before ++ after) r).
Proof.
  intros Hb Hst Ha Hx Hk. wp_step. eapply wp_mono; [by apply trim_succ_wp|].
  intros after' s1 (Hs & Ho & C1 & C2). pose proof (c_range _ _ Hx) as (X1 & X2 & X3).
  assert (Hc : ∀ p, covered p (before ++ x :: after') ↔ covered p (x :: before ++ after)).
  { intros p. rewrite frag_covered_app, !frag_covered_cons, frag_covered_app.
    destruct (decide (f_off x + f_len x <= p)); [rewrite C1 by done; tauto|]. split; [intros [?|[?|?%C2]]; tauto|].
    intros [?|[?|Hc]]; [tauto|tauto|]. apply (covered_ge _ _ _ _ Ha) in Hc. right. left. lia. }
  eapply wp_mono; [apply (complete_wp s); [done| |by destruct before|done]|].
  - apply frag_ordered_app. split; [done|]. by split_and!.
  - intros r s2 [Hs2 Hr]. split; [done|]. eapply outcome_covered; [exact Hc|].
    destruct Hr as [(Hw & p & Hr)|(Hw & ->)]; [left; eauto|right]. split; [done|]. eexists. split; [done|].
    split; [|by destruct before]. apply frag_ordered_app. split; [done|]. by split_and!.
Qed.

(** [x] without its header, as [ip_reass] puts it on the queue. *)
Definition stripped (x : ipasfrag) : ipasfrag := Frag (f_ip x) (f_opts x) (hide (hdrlen (f_ip x)) (f_m x)).

Lemma ip_reass_found drain junk junk_len s qs pre fp post x0 :
  let x := stripped x0 in
  carries s x → ordered s 0 (ipq_frags fp) → ¬ whole (ipq_frags fp) → ipq_frags fp ≠ [] → cl_known s (ipq_mbuf fp) →
  wp (ip_reass drain junk junk_len qs (Some (pre, fp, post)) x0) s
    (λ r s', same_store s s' ∧ outcome s pre fp post (x :: ipq_frags fp) r).
Proof.
  intros x Hx Ho Hw Hne Hk. unfold ip_reass. fold (stripped x0). fold x.
  pose proof (split_after_spec (f_off x) (ipq_frags fp)) as Hsp.
  destruct (split_after (f_off x) (ipq_frags fp)) as [before after]. destruct Hsp as (El & Hb & Hh).
  rewrite El in Ho. apply frag_ordered_app in Ho as [Ho1 Ho2]. pose proof (c_range _ _ Hx) as (X1 & X2 & X3).
  assert (Ho3 : ∀ lo, (match after with [] => True | y :: _ => lo <= f_off y end) → ordered s lo after).
  { intros lo Hlo. destruct after; [done|]. destruct Ho2 as [_ ?]. by split. }
  destruct (last before) as [p|] eqn:Elast.
  2: { apply last_None in Elast as ->. rewrite El.
       apply (insert_wp s pre fp post [] after x); try done. apply Ho3. destruct after; [done|lia]. }
  assert (Hp : p ∈ before) by by apply last_Some_elem_of. rewrite Forall_forall in Hb. pose proof (Hb p Hp) as Hpo.
  assert (Hst : stop 0 before = f_off p + f_len p) by (unfold stop; by rewrite Elast).
  destruct (Z.ltb_spec 0 (f_off p + f_len p - f_off x)); [destruct (Z.leb_spec (f_len x) (f_off p + f_len p - f_off x))|].
  - assert (Hc : ∀ q, covered q (x :: ipq_frags fp) ↔ covered q (ipq_frags fp)).
    { intros q. rewrite frag_covered_cons. split; [|tauto]. intros [?|?]; [|done]. rewrite El. apply frag_covered_app. left.
      apply Exists_exists. exists p. split; [done|]. lia. }
    unfold dropfrag. wp_step. eapply wp_mono; [apply m_freem_wp, Hx|]. intros [] s1 Hs1. wp_step. split; [done|].
    right. split; [unfold whole; by setoid_rewrite Hc|]. exists (ipq_frags fp). split; [by destruct fp|].
    split; [rewrite El; by apply frag_ordered_app|]. split; [done|]. intros q. by rewrite Hc.
  - wp_step. eapply wp_mono; [apply trim_wp; [done|lia]|]. intros y s1 (-> & Hy & Ey1 & Ey2).
    eapply wp_mono; [apply insert_wp; try done; [lia|]|].
    { apply Ho3. destruct after as [|z after]; [done|]. destruct Ho2 as [Ho2 _]. lia. }
    intros r s2 [Hs2 Hr]. split; [done|]. eapply outcome_covered; [|exact Hr]. intros q.
    rewrite El, !frag_covered_cons, Ey1, Ey2, frag_covered_app. split; [intros [?|?]; [left; lia|tauto]|].
    intros [?|?]; [|tauto]. destruct (decide (q < f_off p + f_len p)); [|left; lia]. right. left.
    apply Exists_exists. exists p. split; [done|]. lia.
  - rewrite El. apply insert_wp; try done; [lia|]. apply Ho3. destruct after; [done|lia].
Qed.

(** The first fragment of a datagram: the list loses its queues when there is no
    memory at once, and the fragment is dropped when there is none at all. *)
Lemma ip_reass_first drain junk junk_len s qs x0 :
  (∀ s, same_store s (drain s)) →
  let x := stripped x0 in
  carries s x →
  wp (ip_reass drain junk junk_len qs None x0) s (λ r s', same_store s s' ∧
    ∃ qs', (qs' = qs ∨ qs' = []) ∧
      ((∃ fp, outcome s [] fp qs' [x] r ∧ qkey fp = key_of (f_ip x0) ∧ cl_known s (ipq_mbuf fp) ∧ ipq_ttl fp = IPFRAGTTL) ∧
        (oracle s = [] → qs' = qs) ∨
       r = (None, qs') ∧ oracle s ≠ [])).
Proof.
  intros Hd x Hx. unfold ip_reass. fold (stripped x0). fold x. wp_step. wp_step. wp_step.
  unfold m_get, MGET. set (m := MB _ _ _ _ _ _ _ _ _).
  assert (Hw : wlp (mget drain m) s (λ _ s', oracle s = [] → m_drain s' = m_drain s)).
  { destruct (decide (oracle s = [])) as [E|E]; [unfold wlp, mget, malloc, bind; simpl; by rewrite E|].
    unfold wlp. by destruct (mget drain m s) as [[]| |]. }
  eapply wp_mono; [apply wp_wlp; [by apply mget_wp|exact Hw]|].
  intros t s1 [(Hs1 & Ht & Ho) Hdr]. wp_step. wp_step.
  set (qs' := if m_drain s1 =? m_drain s then qs else []).
  assert (Hq : qs' = qs ∨ qs' = []) by (unfold qs'; destruct (_ =? _); auto).
  destruct Ht as [->| ->].
  - set (fp := IPQ _ _ _ _ _ _ _). eapply wp_mono; [apply (complete_wp s); try done|].
    + simpl. pose proof (c_range _ _ Hx) as (X1 & _). by split_and!.
    + intros r s2 [Hs2 Hr]. split; [done|]. exists qs'. split; [done|]. left. split.
      * exists fp. split; [|done]. destruct Hr as [(Hw' & Hr)|(Hw' & ->)]; [left; by split|right]. split; [done|].
        eexists. split; [done|]. pose proof (c_range _ _ Hx) as (X1 & _). split; [by split_and!|done].
      * intros E. unfold qs'. by rewrite Hdr, Z.eqb_refl.
  - unfold dropfrag. wp_step. eapply wp_mono; [apply m_freem_wp; eapply chain_ok_store; [done|apply Hx]|].
    intros [] s2 Hs2. wp_step. split; [by etrans|]. exists qs'. split; [done|]. right. split; [done|].
    intros E. destruct (Ho E) as [? _]. done.
Qed.

End Proofs.
(** ** The list of queues

    [D k] is the datagram with the key [k] that is on its way. *)

(** The range of positions a packet says it carries. *)
Definition x_off (x : ipasfrag) : Z := 8 * Z.land (ip_off (f_ip x)) IP_OFFMASK.
Definition x_len (x : ipasfrag) : Z := ip_len (f_ip x) - hdrlen (f_ip x).
Definition in_frag (x : ipasfrag) (p : Z) : Prop := x_off x <= p < x_off x + x_len x.

(** A packet at the label [ours] that is a piece of [d], and not all of it. *)
Record arriving (d : dgram) (s : mstate) (x : ipasfrag) : Prop := {
  a_typed : ip_typed (f_ip x);
  a_chain : chain_ok s (f_m x);
  a_front : ∃ m ms, f_m x = m :: ms ∧ has m M_EXT = false ∧ hdrlen (f_ip x) <= m_len m;
  a_range : 0 <= x_len x ∧ x_off x + x_len x <= d_len d;
  a_part : x_off x ≠ 0 ∨ x_off x + x_len x ≠ d_len d;
  a_last : Z.land (ip_off (f_ip x)) IP_MF = 0 ↔ x_off x + x_len x = d_len d;
  a_bytes : drop (Z.to_nat (hdrlen (f_ip x))) (bytes s (f_m x)) = TcpReass.slice (d_data d) (x_off x) (x_len x);
  a_first : x_off x = 0 → agrees (f_ip x) (d_hdr d) ∧ f_opts x = d_opts d }.

(** The header as the label [ours] changes it. *)
Definition as_frag (h : ip) : ip :=
  let h' := set_iplen h (ip_len h - hdrlen h) in
  let h' := set_tos h' (Z.land (ip_tos h') (Z.lnot 1)) in
  let h' := if ztrue (Z.land (ip_off h') IP_MF) then set_tos h' (Z.lor (ip_tos h') 1) else h' in
  set_off h' (Z.shiftl (ip_off h') 3).
#[local] Arguments as_frag : simpl never.

Lemma as_frag_fields h :
  ip_len (as_frag h) = s16 (ip_len h - hdrlen h) ∧ ip_off (as_frag h) = s16 (Z.shiftl (ip_off h) 3) ∧
  hdrlen (as_frag h) = hdrlen h ∧ key_of (as_frag h) = key_of h ∧
  Z.land (ip_tos (as_frag h)) (Z.lnot 1) = Z.land (ip_tos h) (Z.lnot 1) ∧
  Z.land (ip_tos (as_frag h)) 1 = (if ztrue (Z.land (ip_off h) IP_MF) then 1 else 0) ∧
  ip_v (as_frag h) = ip_v h ∧ ip_hl (as_frag h) = ip_hl h ∧ ip_ttl (as_frag h) = ip_ttl h.
Proof.
  unfold as_frag. simpl. destruct (ztrue (Z.land (ip_off h) IP_MF)); simpl; split_and!; try done.
  - by rewrite Z.land_lor_distr_l, <- Z.land_assoc, Z.land_diag, Z.lor_0_r.
  - by rewrite Z.land_lor_distr_l, <- Z.land_assoc, Z.land_0_r.
  - by rewrite <- Z.land_assoc, Z.land_diag.
  - by rewrite <- Z.land_assoc, Z.land_0_r.
Qed.

Lemma shift_off off n : is_s16 off → 8 * Z.land off IP_OFFMASK <= n → n <= 32767 →
  s16 (Z.shiftl off 3) = 8 * Z.land off IP_OFFMASK.
Proof.
  intros H1 H2 H3. unfold IP_OFFMASK in *. change 0x1fff with (Z.ones 13) in *.
  rewrite Z.land_ones in * by lia. change (2 ^ 13) with 8192 in *. rewrite Z.shiftl_mul_pow2 by lia.
  change (2 ^ 3) with 8. unfold is_s16, s16 in *. Z.div_mod_to_equations. lia.
Qed.

(** Hiding the header. *)
Lemma hide_spec s h m0 ms :
  chain_ok s (m0 :: ms) → has m0 M_EXT = false → 0 <= hdrlen h <= m_len m0 →
  let r := hide (hdrlen h) (m0 :: ms) in
  chain_ok s r ∧ bytes s r = drop (Z.to_nat (hdrlen h)) (bytes s (m0 :: ms)) ∧ room h r.
Proof.
  intros [H1 H2] He Hh. simpl. apply Forall_cons in H1 as [Hm Hms]. pose proof Hm as (L1 & L2 & b & Hb & L3 & L4).
  destruct (L4 He) as [Hlen Hp]. set (m' := set_len _ _). apply Forall_cons in H2 as [K1 K2].
  split; [split|split].
  - constructor; [|done]. split; [simpl; lia|]. split; [simpl; lia|]. exists b. split; [done|]. split; [simpl; lia|].
    intros _. split; [done|]. intros Hpk%Hp. simpl. lia.
  - by constructor.
  - rewrite !bytes_cons, drop_app_le by (rewrite Nat2Z.inj_le, mbytes_length by done; lia).
    f_equal. unfold mbytes. change (buffer s m') with (buffer s m0). rewrite Hb. simpl.
    rewrite skipn_firstn_comm, drop_drop. f_equal; [|f_equal]; lia.
  - split; [done|]. change (has m' M_PKTHDR) with (has m0 M_PKTHDR). simpl. destruct (has m0 M_PKTHDR); [specialize (Hp eq_refl)|]; lia.
Qed.

(** A piece of [d] goes on the queue as one. *)
Lemma arriving_carries d s x :
  0 < d_len d <= 32767 → arriving d s x →
  let y := stripped (Frag (as_frag (f_ip x)) (f_opts x) (f_m x)) in
  carries d s y ∧ f_off y = x_off x ∧ f_len y = x_len x.
Proof.
  intros Hd [Ht Hc (m & ms & Em & He & Hm) [Hn Hr] Hp Hl Hb Hf] y.
  destruct (as_frag_fields (f_ip x)) as (E1 & E2 & E3 & _ & E4 & E5 & E6 & E7 & E8).
  pose proof (hdrlen_range _ Ht) as Hh. pose proof Ht as (_ & _ & _ & Hlen & Hid & Hoff & _).
  assert (Fo : f_off y = x_off x) by (change (f_off y) with (ip_off (as_frag (f_ip x))); rewrite E2; apply (shift_off _ (x_off x + x_len x)); [done|unfold x_off in *; lia|lia]).
  assert (H0 : 0 <= x_off x) by (unfold x_off, IP_OFFMASK; change 0x1fff with (Z.ones 13); rewrite Z.land_ones by lia; pose proof (Z.mod_pos_bound (ip_off (f_ip x)) (2 ^ 13)); lia).
  assert (Fl : f_len y = x_len x) by (change (f_len y) with (ip_len (as_frag (f_ip x))); rewrite E1; apply s16_id; unfold is_s16; fold (x_len x); lia).
  split; [|done]. rewrite Em in Hc, Hb.
  destruct (hide_spec s (as_frag (f_ip x)) m ms Hc He) as (G1 & G2 & G3); [rewrite E3; lia|].
  split; rewrite ?Fo, ?Fl; unfold y, stripped, f_mff; cbn [f_ip f_m f_opts]; rewrite ?Em; try done; try lia.
  - rewrite <- Hl, E5. unfold ztrue. destruct (Z.eqb_spec (Z.land (ip_off (f_ip x)) IP_MF) 0); simpl; split; intros; try done.
  - rewrite G2, E3. done.
  - intros E. destruct (Hf E) as [Ha Ho]. split; [|done]. unfold agrees in *. rewrite E4, E6, E7, E8.
    unfold as_frag. destruct (ztrue _); exact Ha.
Qed.

Lemma find_ipq_Some h qs pre fp post :
  find_ipq h qs = Some (pre, fp, post) → qs = pre ++ fp :: post ∧ qkey fp = key_of h.
Proof.
  revert pre; induction qs as [|q qs IH]; intros pre; simpl; [done|].
  destruct (same_datagram h q) eqn:E.
  - intros [= <- <- <-]. split; [done|]. unfold same_datagram in E. zbool. unfold qkey, key_of. congruence.
  - destruct (find_ipq h qs) as [[[a q'] b]|]; [|done]. intros [= <- <- <-].
    destruct (IH a eq_refl) as [-> ?]. done.
Qed.

Lemma find_ipq_None h qs : find_ipq h qs = None → key_of h ∉ (qkey <$> qs).
Proof.
  induction qs as [|q qs IH]; simpl; [intros _; apply not_elem_of_nil|].
  destruct (same_datagram h q) eqn:E; [done|]. destruct (find_ipq h qs) as [[[a q'] b]|]; [done|]. intros _.
  apply not_elem_of_cons. split; [|by apply IH]. unfold qkey, key_of. intros [= E1 E2 E3 E4].
  unfold same_datagram in E. rewrite E1, E2, E3, E4, !Z.eqb_refl in E. done.
Qed.

(** *** What reassembly does to the life of the queues *)

(** The queues [qs'] are some of [qs], with their keys and times. *)
Definition kept (qs qs' : list ipq) : Prop :=
  ∀ q', q' ∈ qs' → ∃ q, q ∈ qs ∧ qkey q' = qkey q ∧ ipq_ttl q' = ipq_ttl q.

(** ... or new ones. *)
Definition kept_or_new (qs qs' : list ipq) : Prop :=
  ∀ q', q' ∈ qs' → (∃ q, q ∈ qs ∧ qkey q' = qkey q ∧ ipq_ttl q' = ipq_ttl q) ∨ qkey q' ∉ (qkey <$> qs).

Lemma kept_sub qs qs' : qs' ⊆ qs → kept qs qs'.
Proof. intros H q Hq. exists q. split; [by apply H|done]. Qed.

Lemma kept_old qs qs' : kept qs qs' → kept_or_new qs qs'.
Proof. intros H q Hq. left. by apply H. Qed.

Lemma complete_kept pre fp post l s :
  wlp (complete pre fp post l) s (λ r _, kept (pre ++ fp :: post) r.2).
Proof.
  assert (Hw : kept (pre ++ fp :: post) (pre ++ set_frags fp l :: post)).
  { intros q. rewrite elem_of_app, elem_of_cons. intros [Hq|[->|Hq]]; [exists q|exists fp|exists q]; set_solver. }
  unfold complete. destruct (contiguous 0 l); [|done]. destruct l as [|q0 l]; [done|]. destruct (last _); [|done].
  destruct (f_mff _); [done|]. destruct (f_m q0); [done|].
  repeat (apply wlp_skip; intros ? ?). apply wlp_ret, kept_sub. set_solver.
Qed.

Lemma ip_reass_kept drain junk junk_len qs x h s :
  key_of (f_ip x) = key_of h →
  wlp (ip_reass drain junk junk_len qs (find_ipq h qs) x) s (λ r _, kept_or_new qs r.2).
Proof.
  intros Ek. unfold ip_reass. destruct (find_ipq h qs) as [[[pre fp] post]|] eqn:E.
  - apply find_ipq_Some in E as [-> _]. destruct (split_after _ _) as [before after].
    assert (Hd : ∀ y s, wlp (dropfrag y (pre ++ fp :: post)) s (λ r _, kept (pre ++ fp :: post) r.2)).
    { intros y s1. apply wlp_skip. intros [] s2. by apply wlp_ret, kept_sub. }
    eapply wlp_mono; [|intros r s1; apply kept_old].
    destruct (last before); [destruct (0 <? _); [destruct (_ <=? _); [apply Hd|]|]|].
    all: repeat (apply wlp_skip; intros ? ?); apply complete_kept.
  - apply find_ipq_None in E. apply wlp_skip; intros ? ?. apply wlp_skip. intros t s1. apply wlp_skip; intros ? ?.
    set (qs' := if _ =? _ then qs else []). assert (Hs : qs' ⊆ qs) by (unfold qs'; destruct (_ =? _); set_solver).
    destruct t as [t|].
    + eapply wlp_mono; [apply complete_kept|]. intros r s3 Ha q Hq. destruct (Ha q Hq) as (q0 & Hq0 & Hk & Ht).
      apply elem_of_cons in Hq0 as [->|Hq0]; [right; rewrite Hk|left; exists q0; split; [by apply Hs|done]].
      change (key_of (f_ip x) ∉ (qkey <$> qs)). by rewrite Ek.
    + apply wlp_skip. intros [] s3. by apply wlp_ret, kept_old, kept_sub.
Qed.

Lemma reassemble_kept drain junk junk_len hlen qs x s :
  wlp (reassemble drain junk junk_len hlen qs x) s (λ r _, kept_or_new qs r.2).
Proof.
  unfold reassemble. set (x1 := Frag _ _ _). assert (Ek : key_of (f_ip x1) = key_of (f_ip x)).
  { unfold x1. cbn [f_ip]. by destruct (ztrue _). }
  destruct (_ || _); [by apply ip_reass_kept|].
  destruct (find_ipq (f_ip x) qs) as [[[pre fp] post]|] eqn:E; [|by apply wlp_ret, kept_old, kept_sub].
  apply find_ipq_Some in E as [-> _]. apply wlp_skip. intros [] s1. apply wlp_ret, kept_old, kept_sub. set_solver.
Qed.

Section Global.
Context (D : key → dgram) (D_ok : ∀ k, 0 < d_len (D k) <= 32767).
Context (drain : mstate → mstate) (drain_ok : ∀ s, same_store s (drain s)).
Context (junk : list Z) (junk_len : Z).
#[local] Set Default Proof Using "Type*".

(** The invariant of a queue: pieces of its datagram in order, but not all of it. *)
Record queue_ok (s : mstate) (fp : ipq) : Prop := {
  q_ordered : ordered (D (qkey fp)) s 0 (ipq_frags fp);
  q_some : ipq_frags fp ≠ [];
  q_part : ¬ whole (D (qkey fp)) (ipq_frags fp);
  q_mbuf : cl_known s (ipq_mbuf fp);
  q_ttl : 0 < ipq_ttl fp <= IPFRAGTTL }.

Definition queues_ok (s : mstate) (qs : list ipq) : Prop := NoDup (qkey <$> qs) ∧ Forall (queue_ok s) qs.

(** Position [p] of the datagram [k] is on a queue. *)
Definition held (qs : list ipq) (k : key) (p : Z) : Prop :=
  Exists (λ fp, qkey fp = k ∧ covered p (ipq_frags fp)) qs.

Lemma queue_ok_store s s' fp : same_store s s' → queue_ok s fp → queue_ok s' fp.
Proof.
  intros Hs []. split; try done; [by eapply ordered_store|by eapply cl_known_store].
Qed.

Lemma queues_ok_store s s' qs : same_store s s' → queues_ok s qs → queues_ok s' qs.
Proof. intros Hs [H1 H2]. split; [done|]. eapply Forall_impl; [exact H2|]. intros x. by apply queue_ok_store. Qed.

Lemma queues_ok_remove s pre fp post : queues_ok s (pre ++ fp :: post) → queues_ok s (pre ++ post).
Proof.
  intros [H1 H2]. rewrite fmap_app in H1. csimpl in H1. apply NoDup_app in H1 as (N1 & N2 & N3).
  apply NoDup_cons in N3 as [_ N3]. apply Forall_app in H2 as [F1 F2]. apply Forall_cons in F2 as [_ F2]. split; [|by apply Forall_app].
  rewrite fmap_app. apply NoDup_app. split; [done|]. split; [|done]. intros k Hk Hk'. apply (N2 k Hk). by right.
Qed.

Lemma held_key qs k p : held qs k p → k ∈ (qkey <$> qs).
Proof. intros (fp & Hf & <- & _)%Exists_exists. by apply list_elem_of_fmap_2. Qed.

(** A queue and the others. *)
Lemma held_mid pre fp post k p :
  NoDup (qkey <$> (pre ++ fp :: post)) →
  held (pre ++ fp :: post) k p ↔ if decide (qkey fp = k) then covered p (ipq_frags fp) else held (pre ++ post) k p.
Proof.
  intros Hnd. unfold held. rewrite Exists_app, Exists_cons. destruct (decide (qkey fp = k)) as [<-|]; [|rewrite Exists_app; tauto].
  split; [|by auto]. rewrite fmap_app in Hnd. csimpl in Hnd. apply NoDup_app in Hnd as (_ & N2 & N3).
  apply NoDup_cons in N3 as [N3 _]. intros [Hc|[[_ Hc]|Hc]]; [|done|].
  - exfalso. apply held_key in Hc. apply (N2 _ Hc). by left.
  - exfalso. by apply held_key in Hc.
Qed.

Lemma held_other pre fp post k p :
  NoDup (qkey <$> (pre ++ fp :: post)) →
  held (pre ++ post) k p ↔ k ≠ qkey fp ∧ held (pre ++ fp :: post) k p.
Proof.
  intros Hnd. rewrite held_mid by done. destruct (decide (qkey fp = k)) as [<-|]; [|intuition congruence].
  split; [|tauto]. intros Hc%held_key. exfalso. rewrite fmap_app in *. csimpl in Hnd.
  apply NoDup_app in Hnd as (_ & N2 & N3). apply NoDup_cons in N3 as [N3 _].
  apply elem_of_app in Hc as [Hc|Hc]; [|done]. apply (N2 _ Hc). by left.
Qed.

(** The whole datagram is there once [x] has come. *)
Definition all_there (qs : list ipq) (k : key) (x : ipasfrag) : Prop :=
  ∀ p, 0 <= p < d_len (D k) → held qs k p ∨ in_frag x p.

(** What receiving [x] does: deliver the datagram as soon as it is all there, else
    hold what has come.  Only the first fragment of a datagram needs memory. *)
Definition received (s : mstate) (qs : list ipq) (x : ipasfrag) (r : option ipasfrag * list ipq) (s' : mstate) : Prop :=
  let k := key_of (f_ip x) in
  same_store s s' ∧ queues_ok s' r.2 ∧
  match r.1 with
  | Some p =>
      delivered (D k) s' (ip_src (f_ip x)) (ip_dst (f_ip x)) p ∧ all_there qs k x ∧
      ∀ k' p, held r.2 k' p ↔ k' ≠ k ∧ held qs k' p
  | None =>
      ¬ all_there qs k x ∧ (k ∈ (qkey <$> r.2)) ∧ (∀ k' p, held r.2 k' p ↔ held qs k' p ∨ k' = k ∧ in_frag x p) ∨
      oracle s ≠ [] ∧ (k ∉ (qkey <$> qs)) ∧ (∀ k' p, held r.2 k' p → held qs k' p ∨ k' = k ∧ in_frag x p)
  end.

Lemma delivered_store d s s' src dst p : same_store s s' → delivered d s src dst p → delivered d s' src dst p.
Proof.
  intros Hs []. split; try done; [by eapply chain_ok_store|by rewrite (bytes_store s s')].
Qed.

(** The fragment behind the header goes to a queue that was found. *)
Lemma received_found s s' pre fp post x y r :
  queues_ok s (pre ++ fp :: post) → qkey fp = key_of (f_ip x) → same_store s s' →
  f_off y = x_off x → f_len y = x_len x →
  outcome (D (key_of (f_ip x))) s pre fp post (y :: ipq_frags fp) r → received s (pre ++ fp :: post) x r s'.
Proof.
  intros Hq Hk Hs Eo El Hout. pose proof Hq as [Hnd Hall]. unfold received. set (k := key_of (f_ip x)) in *.
  assert (Hc : ∀ p, covered p (y :: ipq_frags fp) ↔ held (pre ++ fp :: post) k p ∨ in_frag x p).
  { intros p. rewrite frag_covered_cons, held_mid, decide_True, Eo, El by done. unfold in_frag. tauto. }
  assert (Hw : whole (D k) (y :: ipq_frags fp) ↔ all_there (pre ++ fp :: post) k x).
  { unfold whole, all_there. by setoid_rewrite Hc. }
  split; [done|]. unfold key_of in Hk. destruct Hout as [(W & p & -> & Hp)|(W & l' & -> & Ho & Hne & Hl)]; simpl.
  - split; [eapply queues_ok_store, queues_ok_remove; done|]. split; [|split; [by apply Hw|]].
    + eapply delivered_store; [done|]. unfold qkey, k, key_of in *. injection Hk as E1 E2 E3 E4. congruence.
    + intros k' q. rewrite (held_other pre fp post) by done. by rewrite Hk.
  - assert (Hnd' : NoDup (qkey <$> (pre ++ set_frags fp l' :: post))) by (rewrite fmap_app in *; done).
    split.
    + eapply queues_ok_store; [done|]. split; [done|]. apply Forall_app in Hall as [A1 A2].
      apply Forall_cons in A2 as [A2 A3]. apply Forall_app. split; [done|]. constructor; [|done].
      destruct A2. change (qkey fp = k) in Hk. split; try done; simpl.
      * change (qkey (set_frags fp l')) with (qkey fp). by rewrite Hk.
      * change (qkey (set_frags fp l')) with (qkey fp). rewrite Hk. unfold whole in *. by setoid_rewrite Hl.
    + left. split; [by rewrite <- Hw|]. split; [rewrite fmap_app; apply elem_of_app; right; csimpl;
        change (qkey (set_frags fp l')) with (qkey fp); rewrite Hk; by left|].
      intros k' q. rewrite !held_mid by done. change (qkey (set_frags fp l')) with (qkey fp).
      destruct (decide (qkey fp = k')) as [E|Hn].
      * rewrite Hl, Hc, held_mid by done. simpl. change (qkey fp = k) in Hk. rewrite decide_True by done. split; [intros [?|?]; [by left|right]; split; congruence|]. intuition congruence.
      * split; [by left|]. intros [?|[-> ?]]; [done|]. by destruct Hn.
Qed.

(** The first fragment to come goes to a queue of its own. *)
Lemma received_first s s' qs qs' fp x y r :
  queues_ok s qs → key_of (f_ip x) ∉ (qkey <$> qs) → qs' = qs ∨ qs' = [] → (oracle s = [] → qs' = qs) → same_store s s' →
  qkey fp = key_of (f_ip x) → cl_known s (ipq_mbuf fp) → ipq_ttl fp = IPFRAGTTL →
  x_off x ≠ 0 ∨ x_off x + x_len x ≠ d_len (D (key_of (f_ip x))) →
  carries (D (key_of (f_ip x))) s y → f_off y = x_off x → f_len y = x_len x →
  outcome (D (key_of (f_ip x))) s [] fp qs' [y] r → received s qs x r s'.
Proof.
  intros Hq Hn Hqs Horc Hs Hk Hm Ht Hp Hy Eo El Hout. unfold received. set (k := key_of (f_ip x)) in *.
  pose proof (D_ok k) as HN. pose proof (c_range _ _ _ Hy) as (Y1 & Y2 & Y3).
  assert (Hc : ∀ p, covered p [y] ↔ in_frag x p).
  { intros p. rewrite frag_covered_cons, Eo, El. pose proof (covered_nil p). unfold in_frag. tauto. }
  assert (Hw : ¬ whole (D k) [y]).
  { intros Hw. assert (H0 : in_frag x 0) by (apply Hc, Hw; lia).
    assert (H1 : in_frag x (d_len (D k) - 1)) by (apply Hc, Hw; lia). unfold in_frag in H0, H1. lia. }
  assert (Hat : ¬ all_there qs k x).
  { intros H. apply Hw. intros p Hp'. apply Hc. destruct (H p Hp') as [Hh|]; [|done]. by apply held_key in Hh. }
  split; [done|]. destruct Hout as [(W & _)|(W & l' & -> & Ho & Hne & Hl)]; [done|]. cbn [fst snd app].
  assert (Hh : ∀ k' p, held (set_frags fp l' :: qs') k' p ↔ held qs' k' p ∨ k' = k ∧ in_frag x p).
  { intros k' p. unfold held. rewrite Exists_cons. simpl. rewrite Hl, Hc. change (qkey (set_frags fp l')) with (qkey fp). rewrite Hk. intuition congruence. }
  split.
  - eapply queues_ok_store; [done|]. destruct Hq as [Q1 Q2]. split.
    + csimpl. change (qkey (set_frags fp l')) with (qkey fp). rewrite Hk.
      destruct Hqs as [->| ->]; apply NoDup_cons; split; try done; [apply not_elem_of_nil|apply NoDup_nil_2].
    + constructor; [|by destruct Hqs as [->| ->]; [|constructor]].
      split; try done; simpl; change (qkey (set_frags fp l')) with (qkey fp); rewrite ?Hk; try done; [|rewrite Ht; unfold IPFRAGTTL; lia].
      unfold whole in *. by setoid_rewrite Hl.
  - destruct (decide (oracle s = [])) as [E|E]; [left|right].
    + split; [done|]. split; [csimpl; change (qkey (set_frags fp l')) with (qkey fp); rewrite Hk; by left|].
      intros k' p. rewrite Hh. by rewrite (Horc E).
    + split; [done|]. split; [done|]. intros k' p. rewrite Hh. intros [H|?]; [|by right]. left.
      destruct Hqs as [->| ->]; [done|]. by apply Exists_nil in H.
Qed.

(** C11: a fragment that reaches [ipintr] keeps the invariant of the list of queues,
    one per datagram, each with pieces of its datagram in order, without overlaps and
    with a gap.  If with it the datagram is all there, it is delivered with the whole
    of its data behind the header of the first fragment, and its queue is gone; else
    what it carries is held.  Other datagrams are not touched, unless there is no
    memory for the queue of a new one. *)
Theorem reassemble_correct s qs x :
  queues_ok s qs → arriving (D (key_of (f_ip x))) s x →
  wp (reassemble drain junk junk_len (hdrlen (f_ip x)) qs x) s (received s qs x).
Proof.
  intros Hq Hx. pose proof (arriving_carries _ s x (D_ok _) Hx) as (Hy & Eo & El).
  set (k := key_of (f_ip x)) in *. unfold reassemble. fold (as_frag (f_ip x)).
  set (x1 := Frag (as_frag (f_ip x)) _ _) in *.
  assert (Hf : f_mff x1 || ztrue (ip_off (as_frag (f_ip x))) = true).
  { apply orb_true_iff. destruct (a_part _ _ _ Hx) as [H|H].
    - right. change (ip_off (as_frag (f_ip x))) with (f_off (stripped x1)). rewrite Eo. unfold ztrue. apply negb_true_iff. by apply Z.eqb_neq.
    - left. apply not_false_iff_true. intros E. apply H. rewrite <- Eo, <- El. by apply (c_last _ _ _ Hy). }
  rewrite Hf. destruct (find_ipq (f_ip x) qs) as [[[pre fp] post]|] eqn:Ef.
  - apply find_ipq_Some in Ef as [-> Ek]. pose proof Hq as [Hnd Hall]. apply Forall_app in Hall as [_ Hall].
    apply Forall_cons in Hall as [[] _]. rewrite Ek in *.
    eapply wp_mono; [by apply (ip_reass_found (D k) (D_ok k) drain junk junk_len s)|].
    intros r s' [Hs Hr]. by eapply received_found.
  - apply find_ipq_None in Ef. fold k in Ef.
    eapply wp_mono; [apply (ip_reass_first (D k) (D_ok k) drain junk junk_len s qs x1 drain_ok Hy)|].
    destruct (as_frag_fields (f_ip x)) as (_ & _ & _ & Ek & _). change (key_of (as_frag (f_ip x)) = k) in Ek.
    intros r s' (Hs & qs' & Hqs & [((fp & Hr & Hk & Hm & Ht) & Ho)|[-> Ho]]).
    + change (qkey fp = key_of (as_frag (f_ip x))) in Hk. rewrite Ek in Hk.
      eapply (received_first s s' qs qs' fp x); try done. apply (a_part _ _ _ Hx).
    + split; [done|]. split.
      * eapply queues_ok_store; [done|]. destruct Hqs as [->| ->]; [done|]. split; [apply NoDup_nil_2|done].
      * right. split; [done|]. split; [done|]. intros k' p H. left. destruct Hqs as [->| ->]; [done|]. by apply Exists_nil in H.
Qed.

(** ** Any order

    The fragments of one datagram one after the other. *)

Fixpoint receive_all (qs : list ipq) (xs : list ipasfrag) : M mstate (list (option ipasfrag) * list ipq) :=
  match xs with
  | [] => ret ([], qs)
  | x :: xs =>
      let! '(r, qs) := reassemble drain junk junk_len (hdrlen (f_ip x)) qs x in
      let! '(rs, qs) := receive_all qs xs in
      ret (r :: rs, qs)
  end.

(** The fragments [xs] are all of [d]. *)
Definition cover (d : dgram) (xs : list ipasfrag) : Prop :=
  ∀ p, 0 <= p < d_len d → Exists (λ x, in_frag x p) xs.

Lemma arriving_store d s s' x : same_store s s' → arriving d s x → arriving d s' x.
Proof.
  intros Hs []. split; try done; [by eapply chain_ok_store|by rewrite (bytes_store s s')].
Qed.

(** The fragments [ys] of [k] have come, and are held beside what was there. *)
Record progress (k : key) (s0 : mstate) (qs0 : list ipq) (ys : list ipasfrag) (s : mstate) (qs : list ipq) : Prop := {
  pr_store : same_store s0 s;
  pr_queues : queues_ok s qs;
  pr_first : ys = [] → oracle s = [];
  pr_queue : ys ≠ [] → k ∈ (qkey <$> qs);
  pr_held : ∀ k' p, held qs k' p ↔ held qs0 k' p ∨ k' = k ∧ Exists (λ x, in_frag x p) ys }.

(** The step from [ys] to [ys ++ [x]]. *)
Lemma progress_step k s0 qs0 ys s qs x :
  k ∉ (qkey <$> qs0) → progress k s0 qs0 ys s qs → key_of (f_ip x) = k → arriving (D k) s0 x →
  wp (reassemble drain junk junk_len (hdrlen (f_ip x)) qs x) s (λ r s',
    same_store s0 s' ∧
    match r.1 with
    | None => ¬ cover (D k) (ys ++ [x]) ∧ progress k s0 qs0 (ys ++ [x]) s' r.2
    | Some p => cover (D k) (ys ++ [x]) ∧ delivered (D k) s' (ip_src (f_ip x)) (ip_dst (f_ip x)) p ∧
                queues_ok s' r.2 ∧ ∀ k' p, held r.2 k' p ↔ held qs0 k' p
    end).
Proof.
  intros Hk [P1 P2 P3 P4 P5] Ek Hx. eapply wp_mono.
  { apply reassemble_correct; [done|]. rewrite Ek. by eapply arriving_store. }
  assert (Hh0 : ∀ p, ¬ held qs0 k p) by (intros p Hh%held_key; done).
  intros r s' (Hs & Hq & Hr). rewrite Ek in Hr. split; [by etrans|].
  assert (Hc : cover (D k) (ys ++ [x]) ↔ all_there qs k x).
  { unfold cover, all_there. split; intros H p Hp; specialize (H p Hp).
    - rewrite P5. apply Exists_app in H as [H|H]; [by auto|]. right. by apply Exists_cons in H as [H|H%Exists_nil].
    - rewrite P5 in H. apply Exists_app. rewrite Exists_cons. pose proof (Hh0 p). tauto. }
  destruct (r.1) as [p|].
  - destruct Hr as (H1 & H2 & H3). rewrite Hc. split; [done|]. split; [done|]. split; [done|].
    intros k' q. rewrite H3, P5. split; [tauto|]. intros H. split; [|by left]. intros ->. by apply (Hh0 q).
  - assert (Hn : ¬ (oracle s ≠ [] ∧ k ∉ (qkey <$> qs))).
    { intros [O1 O2]. destruct ys; [by apply O1, P3|]. by apply O2, P4. }
    destruct Hr as [(H1 & H2 & H3)|(H1 & H2 & _)]; [|by destruct Hn]. rewrite Hc. split; [done|].
    split; [by etrans|done|by destruct ys|done|]. intros k' q. rewrite H3, P5, Exists_app, Exists_cons.
    pose proof (Exists_nil (λ x, in_frag x q)). tauto.
Qed.

Lemma receive_all_progress k s0 qs0 x xs ys s qs :
  k ∉ (qkey <$> qs0) → progress k s0 qs0 ys s qs →
  Forall (λ x, key_of (f_ip x) = k ∧ arriving (D k) s0 x) (xs ++ [x]) →
  ¬ cover (D k) (ys ++ xs) → cover (D k) (ys ++ xs ++ [x]) →
  wp (receive_all qs (xs ++ [x])) s (λ r s', ∃ p, r.1 = replicate (length xs) None ++ [Some p] ∧
    delivered (D k) s' (ip_src (f_ip x)) (ip_dst (f_ip x)) p ∧ queues_ok s' r.2 ∧
    ∀ k' p, held r.2 k' p ↔ held qs0 k' p).
Proof.
  intros Hk. revert ys s qs; induction xs as [|y xs IH]; intros ys s qs Hp Hall Hn Hc; simpl in *.
  - apply Forall_cons in Hall as [[Ek Hx] _]. wp_step. eapply wp_mono; [by apply progress_step|].
    intros [r qs'] s' [Hs Hr]. simpl in Hr. wp_steps. destruct r as [p|]; [|by destruct Hr].
    exists p. split; [done|]. apply Hr.
  - apply Forall_cons in Hall as [[Ek Hy] Hall]. wp_step. eapply wp_mono; [by apply progress_step|].
    intros [r qs'] s' [Hs Hr]. simpl in Hr. destruct r as [p|].
    + destruct Hr as [Hcy _]. destruct Hn. intros q Hq. specialize (Hcy q Hq).
      apply Exists_app in Hcy as [H|H]; apply Exists_app; [by left|right; apply Exists_cons].
      apply Exists_cons in H as [H|H%Exists_nil]; [by left|done].
    + destruct Hr as [_ Hp']. wp_step. eapply wp_mono; [apply (IH (ys ++ [y])); try done|].
      * by rewrite <- app_assoc.
      * by rewrite <- app_assoc.
      * intros [rs qs''] s'' (p & E & Hd). wp_step. exists p. simpl in *. rewrite E. done.
Qed.

Theorem fragments_any_order k s qs xs x :
  oracle s = [] → queues_ok s qs → k ∉ (qkey <$> qs) →
  Forall (λ x, key_of (f_ip x) = k ∧ arriving (D k) s x) (xs ++ [x]) →
  ¬ cover (D k) xs → cover (D k) (xs ++ [x]) →
  wp (receive_all qs (xs ++ [x])) s (λ r s', ∃ p, r.1 = replicate (length xs) None ++ [Some p] ∧
    delivered (D k) s' (ip_src (f_ip x)) (ip_dst (f_ip x)) p ∧ queues_ok s' r.2 ∧
    ∀ k' p, held r.2 k' p ↔ held qs k' p).
Proof.
  intros Ho Hq Hk Hall Hn Hc. apply (receive_all_progress k s qs x xs []); try done.
  split; try done. intros k' p. pose proof (Exists_nil (λ x, in_frag x p)). tauto.
Qed.

(** ** Timers and memory shortage *)

Lemma free_frags_wp s l : Forall (λ x, chain_ok s (f_m x)) l → wp (free_frags l) s (λ _ s', same_store s s').
Proof.
  intros H. assert (Hg : ∀ s1, same_store s s1 → wp (free_frags l) s1 (λ _ s', same_store s s')).
  { induction H as [|x l Hx Hl IH]; intros s1 Hs1; simpl; [by wp_steps|]. wp_step.
    eapply wp_mono; [apply m_freem_wp; eapply chain_ok_store; [done|apply Hx]|].
    intros [] s2 Hs2. apply IH. by etrans. }
  by apply Hg.
Qed.

Lemma ip_freef_wp s fp :
  ordered (D (qkey fp)) s 0 (ipq_frags fp) → cl_known s (ipq_mbuf fp) → wp (ip_freef fp) s (λ _ s', same_store s s').
Proof.
  intros Ho Hm. unfold ip_freef. wp_step. eapply wp_mono; [apply free_frags_wp|].
  - eapply Forall_impl; [by eapply ordered_all|]. intros x Hx. apply Hx.
  - intros [] s1 Hs1. eapply wp_mono; [apply MFREE_wp; by eapply cl_known_store|]. intros [] s2 Hs2. by etrans.
Qed.

(** The queues that [ip_slowtimo] leaves. *)
Definition aged (qs : list ipq) : list ipq :=
  (λ fp, set_qttl fp (ipq_ttl fp - 1)) <$> filter (λ fp, ipq_ttl fp ≠ 1) qs.

Lemma ip_slowtimo_spec s qs :
  queues_ok s qs → wp (ip_slowtimo qs) s (λ qs' s', same_store s s' ∧ qs' = aged qs ∧ queues_ok s' qs').
Proof.
  intros Hq. assert (Hok : queues_ok s (aged qs)).
  { destruct Hq as [H1 H2]. unfold aged. split.
    - rewrite <- list_fmap_compose. assert (E : ∀ l, (qkey ∘ λ fp, set_qttl fp (ipq_ttl fp - 1)) <$> l = qkey <$> l) by (intros l; by apply list_fmap_ext).
      rewrite E. eapply sublist_NoDup; [exact H1|]. apply fmap_sublist, sublist_filter.
    - apply Forall_fmap, Forall_forall. intros fp [Hn Hf]%list_elem_of_filter. rewrite Forall_forall in H2.
      destruct (H2 fp Hf). split; try done. simpl. lia. }
  enough (Hg : Forall (queue_ok s) qs → ∀ s1, same_store s s1 → wp (ip_slowtimo qs) s1 (λ qs' s', same_store s s' ∧ qs' = aged qs)).
  { eapply wp_mono; [apply Hg; [apply Hq|done]|]. intros qs' s' [Hs ->]. split; [done|]. split; [done|]. by eapply queues_ok_store. }
  clear Hok Hq. intros Hall. induction Hall as [|fp qs Hfp Hall IH]; intros s1 Hs1; simpl; [by wp_steps|].
  pose proof (q_ttl _ _ Hfp) as Ht. unfold IPFRAGTTL in Ht. rewrite u8_id by (unfold is_u8; lia).
  unfold aged. rewrite filter_cons. destruct (Z.eqb_spec (ipq_ttl fp - 1) 0).
  - rewrite decide_False by lia. wp_step. eapply wp_mono; [apply ip_freef_wp; apply (queue_ok_store _ _ _ Hs1 Hfp)|].
    intros [] s2 Hs2. apply IH. by etrans.
  - rewrite decide_True by lia. wp_step. eapply wp_mono; [by apply IH|]. intros qs' s2 [Hs2 ->]. by wp_step.
Qed.

Lemma ip_drain_spec s qs : queues_ok s qs → wp (ip_drain qs) s (λ qs' s', same_store s s' ∧ qs' = []).
Proof.
  intros [_ Hall]. assert (Hg : ∀ s1, same_store s s1 → wp (ip_drain qs) s1 (λ qs' s', same_store s s' ∧ qs' = [])).
  { induction Hall as [|fp qs Hfp Hall IH]; intros s1 Hs1; simpl; [by wp_steps|]. wp_step.
    eapply wp_mono; [apply ip_freef_wp; apply (queue_ok_store _ _ _ Hs1 Hfp)|]. intros [] s2 Hs2. apply IH. by etrans. }
  by apply Hg.
Qed.

(** What happens to the list: a fragment arrives, the timer runs, memory is short. *)
Inductive event := Fragment (x : ipasfrag) | Slowtimo | Drain.

Definition run_event (e : event) (qs : list ipq) : M mstate (list ipq) :=
  match e with
  | Fragment x => let! '(_, qs) := reassemble drain junk junk_len (hdrlen (f_ip x)) qs x in ret qs
  | Slowtimo => ip_slowtimo qs
  | Drain => ip_drain qs
  end.

(** The lists after each of the events. *)
Fixpoint run_events (es : list event) (qs : list ipq) : M mstate (list (list ipq)) :=
  match es with
  | [] => ret []
  | e :: es => let! qs := run_event e qs in let! log := run_events es qs in ret (qs :: log)
  end.

Definition arrives (s : mstate) (e : event) : Prop :=
  match e with Fragment x => arriving (D (key_of (f_ip x))) s x | _ => True end.
Definition is_slowtimo (e : event) : bool := match e with Slowtimo => true | _ => false end.
Definition timer_runs (es : list event) : Z := Z.of_nat (length (filter (λ e, is_slowtimo e = true) es)).

(** A queue that an event leaves has aged by a run of the timer only. *)
Lemma run_event_ages e qs s :
  queues_ok s qs → arrives s e →
  wp (run_event e qs) s (λ qs' s', same_store s s' ∧ queues_ok s' qs' ∧
    ∀ fp, fp ∈ qs → qkey fp ∈ (qkey <$> qs') →
      ∃ fp', fp' ∈ qs' ∧ qkey fp' = qkey fp ∧ ipq_ttl fp' = ipq_ttl fp - (if is_slowtimo e then 1 else 0)).
Proof.
  intros Hq He. pose proof Hq as [Hnd _].
  assert (Huniq : ∀ q fp, q ∈ qs → fp ∈ qs → qkey q = qkey fp → q = fp).
  { intros q fp Hq1 Hf Hk. apply list_elem_of_lookup in Hq1 as [i Hi]. apply list_elem_of_lookup in Hf as [j Hj].
    assert (i = j) as ->; [|congruence]. eapply (NoDup_lookup (qkey <$> qs)); [done|rewrite list_lookup_fmap, Hi; done|].
    rewrite list_lookup_fmap, Hj. simpl. by f_equal. }
  destruct e as [x| |]; cbn [run_event is_slowtimo].
  - apply wp_bind. eapply wp_mono; [apply wp_wlp; [by apply reassemble_correct|apply reassemble_kept]|].
    intros [r qs'] s' [[Hs [Hq' _]] Hk]. apply wp_ret. split; [done|]. split; [done|]. cbn [snd] in *.
    intros fp Hf Hin. apply list_elem_of_fmap in Hin as (q' & Ek & Hq1). exists q'. split; [done|]. split; [done|].
    destruct (Hk q' Hq1) as [(q & Hq2 & Eq & ->)|Hn].
    + rewrite (Huniq q fp Hq2 Hf ltac:(congruence)). lia.
    + destruct Hn. rewrite <- Ek. by apply list_elem_of_fmap_2.
  - eapply wp_mono; [by apply ip_slowtimo_spec|]. intros qs' s' (Hs & -> & Hq'). split; [done|]. split; [done|].
    intros fp Hf Hin. apply list_elem_of_fmap in Hin as (q' & Ek & Hq1). exists q'. split; [done|]. split; [done|].
    unfold aged in Hq1. apply list_elem_of_fmap in Hq1 as (q & -> & [_ Hq2]%list_elem_of_filter).
    by rewrite (Huniq q fp Hq2 Hf ltac:(done)).
  - eapply wp_mono; [by apply ip_drain_spec|]. intros qs' s' (Hs & ->). split; [done|]. split; [split; [apply NoDup_nil_2|constructor]|].
    intros fp _ Hin. by apply not_elem_of_nil in Hin.
Qed.

(** C36: no queue outlives [IPFRAGTTL] runs of the timer, whatever else happens: when
    fragments of this and of other datagrams arrive, the timer runs and memory is
    taken back, in any order, a queue that is there after each of these events has
    lived through fewer than [ipq_ttl] runs of the timer, and so fewer than
    [IPFRAGTTL]: no fragment that arrives lengthens its life. *)
Theorem queues_expire s qs es :
  queues_ok s qs → Forall (arrives s) es →
  wp (run_events es qs) s (λ log _, ∀ fp, fp ∈ qs → Forall (λ qs', qkey fp ∈ (qkey <$> qs')) log →
    timer_runs es < ipq_ttl fp <= IPFRAGTTL).
Proof.
  intros Hq He. enough (Hg : ∀ s1, same_store s s1 → queues_ok s1 qs →
    wp (run_events es qs) s1 (λ log _, ∀ fp, fp ∈ qs → Forall (λ qs', qkey fp ∈ (qkey <$> qs')) log →
      timer_runs es < ipq_ttl fp <= IPFRAGTTL)) by by apply Hg.
  clear Hq. revert qs. induction He as [|e es He Hes IH]; intros qs s1 Hs Hq; cbn [run_events].
  - apply wp_ret. intros fp Hf _. destruct Hq as [_ Hq]. rewrite Forall_forall in Hq. apply (q_ttl _ _ (Hq fp Hf)).
  - apply wp_bind. eapply wp_mono; [apply run_event_ages; [done|]|].
    { destruct e; [|done..]. by eapply arriving_store. }
    intros qs' s2 (Hs2 & Hq2 & Ha). apply wp_bind. eapply wp_mono; [apply IH; [by etrans|done]|].
    intros log s3 Hlog. apply wp_ret. intros fp Hf [Hin Hall]%Forall_cons.
    destruct (Ha fp Hf Hin) as (fp' & Hf' & Ek & Et). rewrite <- Ek in Hall. specialize (Hlog fp' Hf' Hall).
    destruct Hq as [_ Hq]. rewrite Forall_forall in Hq. pose proof (q_ttl _ _ (Hq fp Hf)) as Ht.
    unfold timer_runs in *. rewrite filter_cons. destruct e; cbn [is_slowtimo] in *;
      [rewrite decide_False by done|rewrite decide_True by done; cbn [length]|rewrite decide_False by done]; lia.
Qed.

End Global.

(** ** A datagram of twenty bytes in three fragments *)

Definition ex_hdr (len off : Z) : ip := IP 4 5 0 len 7 off 64 17 0 0x0a000001 0x0a000002.
Definition ex_dgram : dgram := Dgram (λ p, p) 20 (ex_hdr 40 0) [].
Definition ex_frag (o n : Z) (more : bool) : ipasfrag :=
  Frag (ex_hdr (20 + n) (o / 8 + if more then IP_MF else 0)) []
    [MB (20 + n) 8 MT_DATA M_PKTHDR (20 + n) 0 0 0 (replicate 28 0 ++ seqZ o n ++ replicate (Z.to_nat (80 - n)) 0)].
Definition ex_frags : list ipasfrag := [ex_frag 16 4 false; ex_frag 0 8 true; ex_frag 0 8 true].

Lemma ex_frag_arriving o n more :
  (o, n, more) ∈ [(0, 8, true); (8, 8, true); (16, 4, false)] → arriving ex_dgram ex_state (ex_frag o n more).
Proof.
  intros H. repeat (apply elem_of_cons in H as [[= -> -> ->]|H]); [| | |by apply not_elem_of_nil in H].
  all: split.
  all: lazymatch goal with
  | |- chain_ok _ _ => split; apply Forall_singleton; [|done]; split; [vm_compute; congruence|];
      split; [vm_compute; congruence|]; eexists; split; [done|]; split; [vm_compute; congruence|]; done
  | |- ∃ _ _, _ => eexists _, _; split; [done|]; split; [done|]; vm_compute; congruence
  | |- _ ∨ _ => vm_compute; first [left; congruence | right; congruence]
  | |- _ → _ => intros E; first [discriminate (E : _ = 0) | by split; [split_and!|]]
  | |- _ => vm_compute; intuition congruence
  end.
Qed.

Lemma ex_queues D s : queues_ok D s [].
Proof. split; [apply NoDup_nil_2|constructor]. Qed.

Lemma reassemble_correct_witness :
  wp (reassemble id [] 0 20 [] (ex_frag 0 8 true)) ex_state (received (λ _, ex_dgram) ex_state [] (ex_frag 0 8 true)).
Proof.
  apply (reassemble_correct (λ _, ex_dgram) (λ _, ltac:(simpl; lia)) id (λ s, reflexivity s) [] 0 ex_state [] (ex_frag 0 8 true)).
  - apply ex_queues.
  - apply ex_frag_arriving. left.
Defined.

Lemma fragments_any_order_witness :
  wp (receive_all id [] 0 [] (ex_frags ++ [ex_frag 8 8 true])) ex_state (λ r s', ∃ p,
    r.1 = replicate 3 None ++ [Some p] ∧ delivered ex_dgram s' 0x0a000001 0x0a000002 p ∧
    queues_ok (λ _, ex_dgram) s' r.2 ∧ ∀ k' p, held r.2 k' p ↔ held [] k' p).
Proof.
  apply (fragments_any_order (λ _, ex_dgram) (λ _, ltac:(simpl; lia)) id (λ s, reflexivity s) [] 0
    (7, 0x0a000001, 0x0a000002, 17) ex_state [] ex_frags (ex_frag 8 8 true)).
  - done.
  - apply ex_queues.
  - apply not_elem_of_nil.
  - unfold ex_frags. cbn [app]. rewrite !Forall_cons, Forall_nil. split_and!; try done; apply ex_frag_arriving; set_solver.
  - intros H. specialize (H 8 ltac:(simpl; lia)). unfold ex_frags in H. rewrite !Exists_cons, Exists_nil in H. vm_compute in H. intuition discriminate.
  - intros p Hp. simpl in Hp. unfold ex_frags. simpl. rewrite !Exists_cons.
    change (in_frag (ex_frag 16 4 false) p) with (16 <= p < 20). change (in_frag (ex_frag 0 8 true) p) with (0 <= p < 8).
    change (in_frag (ex_frag 8 8 true) p) with (8 <= p < 16). lia.
Defined.

Definition ex_queue : ipq :=
  IPQ 60 17 7 0x0a000001 0x0a000002 (MB 0 0 MT_FTABLE 0 0 0 0 0 [])
    [stripped (Frag (as_frag (ex_hdr 28 (1 + IP_MF))) [] (f_m (ex_frag 8 8 true)))].

Lemma ex_queue_ok : queues_ok (λ _, ex_dgram) ex_state [ex_queue].
Proof.
  split; [apply NoDup_singleton|].
  apply Forall_singleton. destruct (arriving_carries ex_dgram ex_state (ex_frag 8 8 true)) as (H & E1 & E2); [simpl; lia| |].
  { apply ex_frag_arriving. set_solver. }
  split; try done.
  intros Hw. specialize (Hw 0 ltac:(simpl; lia)). apply Exists_cons in Hw as [Hw|Hw%Exists_nil]; [|done].
  vm_compute in Hw. by destruct Hw.
Qed.

(** The same fragment over and over between the runs of the timer. *)
Definition ex_events : list event := concat (replicate 60 [Slowtimo; Fragment (ex_frag 8 8 true)]).

Lemma queues_expire_witness :
  wp (run_events id [] 0 ex_events [ex_queue]) ex_state (λ log _, ∀ fp, fp ∈ [ex_queue] →
    Forall (λ qs', qkey fp ∈ (qkey <$> qs')) log → timer_runs ex_events < ipq_ttl fp <= IPFRAGTTL).
Proof.
  apply (queues_expire (λ _, ex_dgram) (λ _, ltac:(simpl; lia)) id (λ s, reflexivity s) [] 0 ex_state [ex_queue] ex_events).
  - apply ex_queue_ok.
  - apply Forall_concat. apply Forall_replicate. constructor; [done|]. constructor; [|done].
    apply ex_frag_arriving. set_solver.
Defined.

(** The queue of a datagram of which one piece is missing is gone when the timer has run
    sixty times, and a new one has begun with the last fragment. *)
Example ex_expired :
  match run_events id [] 0 ex_events [ex_queue] ex_state with
  | Ok (log, _) => (map ipq_ttl <$> log !! 117%nat, map ipq_ttl <$> log !! 118%nat, map ipq_ttl <$> log !! 119%nat) =
      (Some [1], Some [], Some [60])
  | _ => False
  end.
Proof. vm_compute. done. Qed.

End IpReass.
