(* ===== verification/IpOutput.v ===== *)
(** * IP output (netinet/ip_output.c)

    [ip_output] with its stages: options, header, route, destination, and sending
    in one piece or in fragments; [ip_optcopy] and [ip_insertoptions].  The proofs
    are about fragmentation: the fragments carry the data of the datagram in order,
    each fits the interface and says where it belongs. *)

From stdpp Require Import options.
From S2P Require Import Prelude Mbuf Cksum Ip.
Import Mbuf Ip.

Module IpOutput.

(** ** Data *)

Definition IP_FORWARDING : Z := 0x1.
Definition IP_RAWOUTPUT : Z := 0x2.
Definition IP_ROUTETOIF : Z := 0x10.
Definition IP_ALLOWBROADCAST : Z := 0x20.
Definition IP_DEFAULT_MULTICAST_TTL : Z := 1.
Definition RTF_UP : Z := 0x1.
Definition RTF_GATEWAY : Z := 0x2.
Definition EACCES : Z := 13.
Definition EMSGSIZE : Z := 40.
Definition EADDRNOTAVAIL : Z := 49.
Definition ENETUNREACH : Z := 51.
Definition ENOBUFS : Z := 55.
Definition EHOSTUNREACH : Z := 65.
Definition MT_HEADER : Z := 2.

Record rtentry := RT { rt_key : Z; rt_flags : Z; rt_ifa : in_ifaddr; rt_ifp : ifnet; rt_gateway : Z }.
Record route := RO { ro_rt : option rtentry; ro_dst : Z }.
Record ipoption := Opt { ipopt_dst : Z; ipopt_list : list Z }.
Record ip_moptions := MO { imo_multicast_ifp : option ifnet; imo_multicast_ttl : Z; imo_multicast_loop : Z }.

(** ** Options *)

(** The loop of [ip_optcopy] on the options [cp], [cnt] bytes before their end. *)
Fixpoint optcopy_loop (fuel : nat) (cp : list Z) (cnt : Z) : option (list Z) :=
  match fuel with
  | O => None
  | S fuel =>
      if 0 <? cnt then
        opt ← cp !! 0%nat;
        if opt =? IPOPT_EOL then Some []
        else if opt =? IPOPT_NOP then
          dp ← optcopy_loop fuel (drop 1 cp) (cnt - 1); Some (IPOPT_NOP :: dp)
        else
          olen ← cp !! Z.to_nat IPOPT_OLEN;
          let optlen := if cnt <? olen then cnt else olen in
          dp ← optcopy_loop fuel (drop (Z.to_nat optlen) cp) (cnt - optlen);
          Some (if ztrue (IPOPT_COPIED opt) then take (Z.to_nat optlen) cp ++ dp else dp)
      else Some []
  end.

(** The padding with [IPOPT_EOL]. *)
Definition pad4 (dp : list Z) : list Z :=
  dp ++ replicate ((4 - length dp mod 4) mod 4) IPOPT_EOL.

(** [ip_optcopy]: the options of a fragment.  The first argument is the options of
    the packet, of [(ip_hl << 2) - sizeof (struct ip)] bytes. *)
Definition ip_optcopy (opts : list Z) : option (list Z) :=
  dp ← optcopy_loop (S (length opts)) opts (Z.of_nat (length opts)); Some (pad4 dp).

Section Out.
Context (max_linkhdr : Z) (drain : mstate → mstate) (junk : list Z) (junk_len : Z).
(** The uninitialised byte of [in_cksum] and the uninitialised [len] of [ip_output]. *)
Context (sum_junk : Z) (len_junk : Z).

Definition head_data (m : list mbuf) : Z := match m with m :: _ => m_data m | [] => 0 end.

(** [ip_insertoptions]: the packet, and [*phlen] if it is set. *)
Definition ip_insertoptions (p : packet) (opt : ipoption) : M mstate (packet * option Z) :=
  let h := p_ip p in
  let optlen := Z.of_nat (length (ipopt_list opt)) in
  if IP_MAXPACKET <? optlen + u16 (ip_len h) then ret (p, None)
  else
    let h := if ztrue (ipopt_dst opt) then set_dst h (ipopt_dst opt) else h in
    match p_m p with
    | [] => crash
    | m :: rest =>
        if has m M_EXT || (m_data m - optlen <? 8) then
          let! n := MGETHDR drain junk junk_len MT_HEADER in
          match n with
          | None => ret (Pkt h (p_opts p) (p_m p), None)
          | Some n =>
              let n := set_pktlen n (pkthdr_len m + optlen) in
              let m := set_data (set_len m (m_len m - sizeof_ip)) (m_data m + sizeof_ip) in
              let n := set_data (set_len n (optlen + sizeof_ip)) (m_data n + max_linkhdr) in
              ret (Pkt (set_iplen h (ip_len h + optlen)) (ipopt_list opt) (n :: m :: rest),
                   Some (sizeof_ip + optlen))
          end
        else
          let m := set_pktlen (set_len (set_data m (m_data m - optlen)) (m_len m + optlen)) (pkthdr_len m + optlen) in
          ret (Pkt (set_iplen h (ip_len h + optlen)) (ipopt_list opt) (m :: rest), Some (sizeof_ip + optlen))
    end.

(** ** Fragments *)

(** [ip->ip_sum = 0; ip->ip_sum = in_cksum(m, hlen)]. *)
Definition with_sum (hlen : Z) (p : packet) : M mstate packet :=
  let! h := lift (put_sum sum_junk (head_data (p_m p)) hlen (p_ip p) (p_opts p)) in
  ret (Pkt h (p_opts p) (p_m p)).

(** The header length and the options of the fragments after the first. *)
Definition frag_opts (hlen : Z) (opts : list Z) : option (Z * list Z) :=
  if sizeof_ip <? hlen then
    o ← ip_optcopy opts; Some (Z.of_nat (length o) + sizeof_ip, o)
  else Some (sizeof_ip, []).

(** The header of the fragment at [off], and its length. *)
Definition frag_header (h : ip) (hlen mhlen len off : Z) : ip * Z :=
  let mh := if sizeof_ip <? hlen then set_v_hl h (ip_v h) (Z.land (Z.shiftr mhlen 2) 15) else h in
  let mh := set_off mh (Z.shiftr (off - hlen) 3 + Z.land (ip_off h) (Z.lnot IP_MF)) in
  let mh := if ztrue (Z.land (ip_off h) IP_MF) then set_off mh (Z.lor (ip_off mh) IP_MF) else mh in
  let '(mh, len) := if u16 (ip_len h) <=? off + len then (mh, u16 (ip_len h) - off)
                    else (set_off mh (Z.lor (ip_off mh) IP_MF), len) in
  (set_iplen mh (u16 (len + mhlen)), len).

(** The loop after the first fragment: the fragments and the error. *)
Fixpoint frag_loop (fuel : nat) (h : ip) (opts : list Z) (m0 : list mbuf) (hlen len off : Z) :
    M mstate (list packet * Z) :=
  if off <? u16 (ip_len h) then
    match fuel with
    | O => crash
    | S fuel =>
        let! m := MGETHDR drain junk junk_len MT_HEADER in
        match m with
        | None => ret ([], ENOBUFS)
        | Some m =>
            let m := set_data m (m_data m + max_linkhdr) in
            let! '(mhlen, mopts) := lift (frag_opts hlen opts) in
            let m := set_len m mhlen in
            let '(mh, len) := frag_header h hlen mhlen len off in
            let! c := m_copym drain junk junk_len m0 off len in
            match c with
            | [] => do! MFREE m in ret ([], ENOBUFS)
            | c =>
                let m := set_rcvif (set_pktlen m (mhlen + len)) 0 in
                let! p := with_sum mhlen (Pkt mh mopts (m :: c)) in
                let! r := frag_loop fuel h opts m0 hlen len (off + len) in
                ret (p :: r.1, r.2)
            end
        end
    end
  else ret ([], 0).

(** The first fragment, cut from the packet. *)
Definition first_frag (h : ip) (opts : list Z) (m0 : list mbuf) (hlen firstlen : Z) : M mstate packet :=
  let! m := lift (m_adj m0 (hlen + firstlen - u16 (ip_len h))) in
  let m := on_head (λ m, set_pktlen m (hlen + firstlen)) m in
  let h := set_iplen h (u16 (hlen + firstlen)) in
  let h := set_off h (u16 (Z.lor (ip_off h) IP_MF)) in
  with_sum hlen (Pkt h opts m).

(** The fragments of a packet and the error, from "Too large for interface" to the
    label [sendorfree]; on an error the packets are those to free. *)
Definition fragment (mtu : Z) (p : packet) (hlen : Z) : M mstate (list packet * Z) :=
  let len := s32 (Z.land (mtu - hlen) (Z.lnot 7)) in
  let h := p_ip p in
  let! '(frags, error) := frag_loop (Z.to_nat (u16 (ip_len h))) h (p_opts p) (p_m p) hlen len (hlen + len) in
  if error =? 0 then
    let! first := first_frag h (p_opts p) (p_m p) hlen len in
    ret (first :: frags, 0)
  else ret (p :: frags, error).

(** [if_output] is the interface's routine: the error it returns for a packet after
    those it has been given. *)
Context (if_output : ifnet → Z → list packet → packet → Z).

(** The label [sendorfree]: the packets sent, and the error. *)
Fixpoint sendorfree (ifp : ifnet) (dst : Z) (sent : list packet) (ps : list packet) (error : Z) : M mstate (list packet * Z) :=
  match ps with
  | [] => ret (sent, error)
  | p :: ps =>
      if error =? 0 then sendorfree ifp dst (sent ++ [p]) ps (if_output ifp dst sent p)
      else do! m_freem (p_m p) in sendorfree ifp dst sent ps error
  end.

(** The label [bad] frees [m0], the packet as it came: the last [n0] mbufs. *)
Definition bad (n0 : nat) (m : list mbuf) : M mstate () := m_freem (drop (length m - n0) m).

(** From the label [sendit] on: the packets sent, and the error. *)
Definition sendit (n0 : nat) (ifp : ifnet) (dst : Z) (hlen : Z) (p : packet) : M mstate (list packet * Z) :=
  let h := p_ip p in
  if u16 (ip_len h) <=? if_mtu ifp then
    let! p := with_sum hlen (Pkt (set_off (set_iplen h (u16 (ip_len h))) (u16 (ip_off h))) (p_opts p) (p_m p)) in
    ret ([p], if_output ifp dst [] p)
  else if ztrue (Z.land (ip_off h) IP_DF) then do! bad n0 (p_m p) in ret ([], EMSGSIZE)
  else if s32 (Z.land (if_mtu ifp - hlen) (Z.lnot 7)) <? 8 then do! bad n0 (p_m p) in ret ([], EMSGSIZE)
  else
    let! '(ps, error) := fragment (if_mtu ifp) p hlen in
    sendorfree ifp dst [] ps error.

(** ** [ip_output] *)

Context (rtalloc : Z → option rtentry) (ifa_ifwithdstaddr ifa_ifwithnet : Z → option in_ifaddr).
Context (in_ifaddrs : list in_ifaddr) (loif : ifnet).

Definition has_flag (flags f : Z) : bool := ztrue (Z.land flags f).

(** "Fill in IP header": the header and [hlen], with the next value of [ip_id]. *)
Definition fill_header (flags hlen : Z) (ip_id : Z) (h : ip) : ip * Z * Z :=
  if has_flag flags (Z.lor IP_FORWARDING IP_RAWOUTPUT) then (h, hdrlen h, ip_id)
  else
    let h := set_off h (Z.land (ip_off h) IP_DF) in
    let h := set_id h ip_id in
    (set_v_hl h IPVERSION (Z.land (Z.shiftr hlen 2) 15), hlen, u16 (ip_id + 1)).

(** The route: the header, the address of the interface, the interface, the next
    hop and the route found; or the error. *)
Definition find_route (flags : Z) (ro : route) (h : ip) :
    (ip * in_ifaddr * ifnet * Z * route) + (Z * route) :=
  let ro := match ro_rt ro with
            | Some rt => if negb (has_flag (rt_flags rt) RTF_UP) || negb (ro_dst ro =? ip_dst h)
                         then RO None (ro_dst ro) else ro
            | None => ro
            end in
  let ro := match ro_rt ro with None => RO None (ip_dst h) | Some _ => ro end in
  let dst := ro_dst ro in
  if has_flag flags IP_ROUTETOIF then
    match (match ifa_ifwithdstaddr dst with Some ia => Some ia | None => ifa_ifwithnet dst end) with
    | None => inr (ENETUNREACH, ro)
    | Some ia => inl (set_ttl h 1, ia, ia_ifp ia, dst, ro)
    end
  else
    let ro := match ro_rt ro with None => RO (rtalloc dst) dst | Some _ => ro end in
    match ro_rt ro with
    | None => inr (EHOSTUNREACH, ro)
    | Some rt =>
        inl (h, rt_ifa rt, rt_ifp rt, if has_flag (rt_flags rt) RTF_GATEWAY then rt_gateway rt else dst, ro)
    end.

Definition set_mflags (f : Z → Z) (m : list mbuf) : list mbuf := on_head (λ m, set_flags m (f (m_flags m))) m.

(** [ip_mloopback]: the copy given to [looutput], if there is memory for it. *)
Definition ip_mloopback (p : packet) : M mstate (option packet) :=
  let! c := m_copym drain junk junk_len (p_m p) 0 M_COPYALL in
  match c with
  | [] => ret None
  | c =>
      let h := p_ip p in
      let h := set_off (set_iplen h (u16 (ip_len h))) (u16 (ip_off h)) in
      let! p := with_sum (hdrlen h) (Pkt h (p_opts p) c) in
      ret (Some p)
  end.

(** What [ip_output] did: the packets given to the interface, the one looped back,
    the error, the route and the next [ip_id]. *)
Record outcome := Out
  { o_sent : list packet; o_loop : option packet; o_error : Z; o_ro : route; o_id : Z }.

(** A multicast destination. *)
Definition multicast (n0 : nat) (ifp : ifnet) (dst : Z) (ro : route) (hlen id : Z) (imo : option ip_moptions) (p : packet) :
    M mstate outcome :=
  let m := set_mflags (λ f, Z.lor f M_MCAST) (p_m p) in
  let h := p_ip p in
  let h := set_ttl h (match imo with Some i => imo_multicast_ttl i | None => IP_DEFAULT_MULTICAST_TTL end) in
  let ifp := match imo with
             | Some i => match imo_multicast_ifp i with Some ifp => ifp | None => ifp end
             | None => ifp
             end in
  if negb (if_has ifp IFF_MULTICAST) then do! bad n0 m in ret (Out [] None ENETUNREACH ro id)
  else
    let h := if ip_src h =? INADDR_ANY then
               match IFP_TO_IA in_ifaddrs ifp with Some ia => set_src h (ia_addr ia) | None => h end
             else h in
    let p := Pkt h (p_opts p) m in
    let! loop := (if IN_LOOKUP_MULTI in_ifaddrs (ip_dst h) ifp &&
                     (match imo with Some i => ztrue (imo_multicast_loop i) | None => true end)
                  then ip_mloopback p else ret None) in
    if (ip_ttl h =? 0) || if_eq ifp loif then do! m_freem m in ret (Out [] loop 0 ro id)
    else let! '(sent, e) := sendit n0 ifp dst hlen p in ret (Out sent loop e ro id).

(** The check of a broadcast destination: the error, or the flags of the packet. *)
Definition broadcast (flags : Z) (ifp : ifnet) (dst : Z) (h : ip) : (Z → Z) + Z :=
  if in_broadcast in_ifaddrs dst ifp then
    if negb (if_has ifp IFF_BROADCAST) then inr EADDRNOTAVAIL
    else if negb (has_flag flags IP_ALLOWBROADCAST) then inr EACCES
    else if if_mtu ifp <? u16 (ip_len h) then inr EMSGSIZE
    else inl (λ f, Z.lor f M_BCAST)
  else inl (λ f, Z.land f (Z.lnot M_BCAST)).

Definition ip_output (p : packet) (opt : option ipoption) (ro : route) (flags : Z) (imo : option ip_moptions)
    (ip_id : Z) : M mstate outcome :=
  let n0 := length (p_m p) in
  let! '(p, hlen) := (match opt with
                      | None => ret (p, sizeof_ip)
                      | Some o => let! '(p, l) := ip_insertoptions p o in ret (p, default len_junk l)
                      end) in
  let '(h, hlen, id) := fill_header flags hlen ip_id (p_ip p) in
  match find_route flags ro h with
  | inr (e, ro) => do! bad n0 (p_m p) in ret (Out [] None e ro id)
  | inl (h, ia, ifp, dst, ro) =>
      if IN_MULTICAST (ip_dst h) then multicast n0 ifp (ro_dst ro) ro hlen id imo (Pkt h (p_opts p) (p_m p))
      else
        let h := if ip_src h =? INADDR_ANY then set_src h (ia_addr ia) else h in
        match broadcast flags ifp dst h with
        | inr e => do! bad n0 (p_m p) in ret (Out [] None e ro id)
        | inl f =>
            let! '(sent, e) := sendit n0 ifp dst hlen (Pkt h (p_opts p) (set_mflags f (p_m p))) in
            ret (Out sent None e ro id)
        end
  end.

End Out.

(** ** Options of fragments

    [copies opts dp]: the options [opts] are well formed, and [dp] are those of
    them that go into every fragment. *)
Inductive copies : list Z → list Z → Prop :=
  | copies_nil : copies [] []
  | copies_eol l : copies (IPOPT_EOL :: l) []
  | copies_nop l dp : copies l dp → copies (IPOPT_NOP :: l) (IPOPT_NOP :: dp)
  | copies_opt t d l dp :
      t ≠ IPOPT_EOL → t ≠ IPOPT_NOP → copies l dp →
      let o := t :: Z.of_nat (2 + length d) :: d in
      copies (o ++ l) (if ztrue (IPOPT_COPIED t) then o ++ dp else dp).

Lemma optcopy_loop_spec opts dp fuel :
  copies opts dp → (length opts < fuel)%nat → optcopy_loop fuel opts (Z.of_nat (length opts)) = Some dp.
Proof.
  intros H. revert fuel; induction H as [|l|l dp H IH|t d l dp Ht1 Ht2 H IH o]; intros [|fuel] Hf; try (simpl in Hf; lia).
  - done.
  - done.
  - cbn [optcopy_loop length]. rewrite (proj2 (Z.ltb_lt _ _)) by lia. cbn [lookup list_lookup mbind option_bind drop].
    change (IPOPT_NOP =? IPOPT_EOL) with false. change (IPOPT_NOP =? IPOPT_NOP) with true. cbv iota.
    replace (Z.of_nat (S (length l)) - 1) with (Z.of_nat (length l)) by lia. simpl in Hf. by rewrite IH by lia.
  - assert (Hl : length (o ++ l) = (2 + length d + length l)%nat) by (rewrite length_app; unfold o; simpl; lia).
    rewrite Hl in *. cbn [optcopy_loop]. rewrite (proj2 (Z.ltb_lt _ _)) by lia.
    change ((o ++ l) !! 0%nat) with (Some t). change ((o ++ l) !! Z.to_nat IPOPT_OLEN) with (Some (Z.of_nat (2 + length d))).
    cbn [mbind option_bind]. rewrite (proj2 (Z.eqb_neq _ _) Ht1), (proj2 (Z.eqb_neq _ _) Ht2), (proj2 (Z.ltb_ge _ _)) by lia.
    rewrite Nat2Z.id. assert (Ho : (2 + length d)%nat = length o) by done. rewrite Ho at 1.
    rewrite drop_app_length. replace (Z.of_nat (2 + length d + length l) - Z.of_nat (2 + length d)) with (Z.of_nat (length l)) by lia.
    rewrite IH by lia. cbn [mbind option_bind]. rewrite Ho, take_app_length. done.
Qed.

Lemma copies_length opts dp : copies opts dp → (length dp <= length opts)%nat.
Proof. induction 1; simpl; try lia. destruct (ztrue _); simpl; rewrite ?length_app; simpl; lia. Qed.

Lemma pad4_length dp : (length (pad4 dp) mod 4 = 0)%nat ∧ (length dp <= length (pad4 dp) < length dp + 4)%nat.
Proof.
  unfold pad4. rewrite length_app, length_replicate. set (n := length dp).
  pose proof (Nat.mod_upper_bound n 4 ltac:(lia)). pose proof (Nat.div_mod n 4 ltac:(lia)) as E.
  set (q := (n / 4)%nat) in *. set (r := (n mod 4)%nat) in *. clearbody n q r.
  assert (Hr : r = 0%nat ∨ r = 1%nat ∨ r = 2%nat ∨ r = 3%nat) by lia.
  destruct Hr as [->|[->|[->| ->]]]; subst n; (split; [apply Nat.Div0.mod_divides; first [exists q; simpl; lia | exists (S q); simpl; lia]|simpl; lia]).
Qed.

(** The options copied are the well-formed ones with the copy flag, in order, padded
    to a multiple of four bytes, and no longer than the options of the packet. *)
Lemma ip_optcopy_spec opts dp :
  copies opts dp → ip_optcopy opts = Some (pad4 dp) ∧
  ((length opts mod 4 = 0)%nat → (length (pad4 dp) <= length opts)%nat).
Proof.
  intros H. unfold ip_optcopy. rewrite (optcopy_loop_spec opts dp) by (done || lia). split; [done|].
  intros Hm. apply copies_length in H. destruct (pad4_length dp) as [P1 P2].
  apply Nat.Div0.mod_divides in Hm as [a Ha], P1 as [b Hb]. lia.
Qed.

(** An option of length 0 is never passed. *)
Lemma optcopy_spins fuel t l cnt :
  t ≠ IPOPT_EOL → t ≠ IPOPT_NOP → 0 < cnt → optcopy_loop fuel (t :: 0 :: l) cnt = None.
Proof.
  intros H1 H2 Hc. revert cnt Hc; induction fuel as [|fuel IH]; intros cnt Hc; [done|].
  cbn [optcopy_loop]. rewrite (proj2 (Z.ltb_lt _ _)) by lia. cbn [lookup list_lookup mbind option_bind].
  rewrite (proj2 (Z.eqb_neq _ _) H1), (proj2 (Z.eqb_neq _ _) H2). change ((t :: 0 :: l) !! Z.to_nat IPOPT_OLEN) with (Some 0).
  cbn [mbind option_bind]. rewrite (proj2 (Z.ltb_ge cnt 0)) by lia. change (Z.to_nat 0) with 0%nat. cbn [drop].
  by rewrite IH by lia.
Qed.
(** ** The header of a fragment *)

(** A fragment field: an offset in units of eight bytes, with or without [IP_MF]. *)
Definition off_field (v : Z) (more : bool) : Z := v + if more then IP_MF else 0.

Lemma lor_MF v : 0 <= v < 8192 → Z.lor v IP_MF = v + IP_MF.
Proof.
  intros Hv. rewrite Z.lor_comm. change (Z.lor IP_MF v) with (Z.lor (Z.shiftl 1 13) v).
  rewrite lor_shiftl_add by lia. change (2 ^ 13) with IP_MF. lia.
Qed.

Lemma off_field_lor v more : 0 <= v < 8192 → Z.lor (off_field v more) IP_MF = off_field v true.
Proof.
  intros Hv. unfold off_field. destruct more; [|rewrite Z.add_0_r; by apply lor_MF].
  rewrite <- lor_MF, <- Z.lor_assoc by done. done.
Qed.

Lemma off_field_parts v more : 0 <= v < 8192 →
  Z.land (off_field v more) IP_OFFMASK = v ∧ (Z.land (off_field v more) IP_MF = 0 ↔ more = false) ∧
  0 <= off_field v more < IP_DF ∧ Z.land (off_field v more) (Z.lnot IP_MF) = v.
Proof.
  intros Hv. assert (H0 : Z.land v IP_OFFMASK = v).
  { unfold IP_OFFMASK. change 0x1fff with (Z.ones 13). rewrite Z.land_ones by lia. by apply Z.mod_small. }
  assert (H1 : Z.land v IP_MF = 0) by (rewrite <- H0, <- Z.land_assoc; apply Z.land_0_r).
  assert (H2 : Z.land v (Z.lnot IP_MF) = v) by (rewrite <- H0, <- Z.land_assoc; done).
  unfold off_field. destruct more.
  - rewrite <- lor_MF, !Z.land_lor_distr_l, H0, H1, H2 by done. rewrite (lor_MF v) by done.
    change (Z.land IP_MF IP_OFFMASK) with 0. change (Z.land IP_MF IP_MF) with IP_MF. change (Z.land IP_MF (Z.lnot IP_MF)) with 0.
    rewrite !Z.lor_0_r, Z.lor_0_l. unfold IP_MF, IP_DF. split; [done|]. split; [by split; intros E|]. split; [lia|done].
  - rewrite Z.add_0_r, H0, H1, H2. unfold IP_DF. split; [done|]. split; [done|]. split; [lia|done].
Qed.

(** A field with [IP_DF] clear is of that form. *)
Lemma off_field_of x : 0 <= x < IP_DF →
  x = off_field (Z.land x IP_OFFMASK) (ztrue (Z.land x IP_MF)) ∧ 0 <= Z.land x IP_OFFMASK < 8192.
Proof.
  intros Hx. assert (Hv : 0 <= Z.land x IP_OFFMASK < 8192).
  { unfold IP_OFFMASK. change 0x1fff with (Z.ones 13). rewrite Z.land_ones by lia. apply Z.mod_pos_bound. lia. }
  split; [|done]. assert (E : Z.land x 0x3fff = x).
  { change 0x3fff with (Z.ones 14). rewrite Z.land_ones by lia. by apply Z.mod_small. }
  change 0x3fff with (Z.lor IP_OFFMASK IP_MF) in E. rewrite Z.land_lor_distr_r in E.
  assert (Hm : Z.land x IP_MF = 0 ∨ Z.land x IP_MF = IP_MF).
  { unfold IP_MF. change 0x2000 with (2 ^ 13). destruct (Z.testbit x 13) eqn:Eb; [right|left]; apply Z.bits_inj'; intros i Hi;
      rewrite Z.land_spec, Z.pow2_bits_eqb, ?Z.bits_0 by lia; destruct (Z.eqb_spec 13 i) as [<-|]; rewrite ?Eb, ?andb_false_r; done. }
  unfold off_field, ztrue. destruct Hm as [Hm|Hm]; rewrite Hm in *.
  - simpl. rewrite Z.lor_0_r in E. lia.
  - rewrite lor_MF in E by done. simpl. lia.
Qed.

(** What the header of the fragment at [off], [o] bytes into the data, says. *)
Lemma frag_header_spec h hlen mhlen len off :
  ip_typed h → 0 <= ip_off h < IP_DF → hlen = hdrlen h → 20 <= mhlen <= 60 → mhlen mod 4 = 0 →
  (hlen <= 20 → mhlen = hlen) → 0 < len → hlen <= off < u16 (ip_len h) → (off - hlen) mod 8 = 0 →
  Z.land (ip_off h) IP_OFFMASK + (off - hlen) / 8 < 8192 →
  let n := Z.min len (u16 (ip_len h) - off) in
  let more := ztrue (Z.land (ip_off h) IP_MF) || (off + n <? u16 (ip_len h)) in
  ∃ mh, frag_header h hlen mhlen len off = (mh, n) ∧ ip_typed mh ∧ hdrlen mh = mhlen ∧
    ip_len mh = s16 (n + mhlen) ∧
    ip_off mh = off_field (Z.land (ip_off h) IP_OFFMASK + (off - hlen) / 8) more ∧
    ip_v mh = ip_v h ∧ ip_tos mh = ip_tos h ∧ ip_id mh = ip_id h ∧ ip_ttl mh = ip_ttl h ∧ ip_p mh = ip_p h ∧
    ip_src mh = ip_src h ∧ ip_dst mh = ip_dst h.
Proof.
  intros Ht Hoff -> Hm Hm4 Hm20 Hl Ho Ho8 Hv n more.
  destruct (off_field_of _ Hoff) as [Ex Hb]. set (base := Z.land (ip_off h) IP_OFFMASK) in *.
  assert (Hd : 0 <= (off - hdrlen h) / 8) by (apply Z.div_pos; lia). set (v := base + (off - hdrlen h) / 8) in *.
  destruct (off_field_parts base (ztrue (Z.land (ip_off h) IP_MF)) Hb) as (_ & _ & _ & El). rewrite <- Ex in El.
  assert (Hs : ∀ b, s16 (off_field v b) = off_field v b).
  { intros b. apply s16_id. destruct (off_field_parts v b) as (_ & _ & ? & _); [lia|]. unfold is_s16, IP_DF in *. lia. }
  unfold frag_header. cbn zeta.
  set (mh0 := if sizeof_ip <? hdrlen h then _ else h).
  assert (E0 : hdrlen mh0 = mhlen ∧ 0 <= ip_hl mh0 < 16).
  { unfold mh0, sizeof_ip. destruct (Z.ltb_spec 20 (hdrlen h)).
    - unfold hdrlen at 1. simpl ip_hl. change 15 with (Z.ones 4). rewrite Z.land_ones, Z.shiftr_div_pow2, Z.shiftl_mul_pow2 by lia.
      change (2 ^ 2) with 4. change (2 ^ 4) with 16. rewrite Z.mod_small by (Z.div_mod_to_equations; lia). split; [|Z.div_mod_to_equations; lia].
      Z.div_mod_to_equations; lia.
    - rewrite Hm20 by lia. split; [done|]. apply Ht. }
  assert (E1 : ip_v mh0 = ip_v h ∧ ip_tos mh0 = ip_tos h ∧ ip_id mh0 = ip_id h ∧ ip_ttl mh0 = ip_ttl h ∧ ip_p mh0 = ip_p h ∧
    ip_sum mh0 = ip_sum h ∧ ip_src mh0 = ip_src h ∧ ip_dst mh0 = ip_dst h) by (unfold mh0; by destruct (sizeof_ip <? hdrlen h)).
  clearbody mh0. destruct E0 as [E0 E0']. destruct E1 as (V & T & I & TT & PP & SS & SR & DS).
  assert (Hty : ∀ o' l', ip_typed (set_iplen (set_off mh0 o') l')).
  { intros o' l'. unfold ip_typed in *. simpl. pose proof (s16_range o'). pose proof (s16_range l'). intuition congruence. }
  assert (Hw : ∀ z, s16 (u16 z) = s16 z) by (intros; apply s16_u16).
  assert (Hsh : Z.shiftr (off - hdrlen h) 3 = (off - hdrlen h) / 8) by (rewrite Z.shiftr_div_pow2 by lia; done).
  rewrite El, Hsh. rewrite (Z.add_comm _ base). fold v.
  set (b := ztrue (Z.land (ip_off h) IP_MF)) in *.
  assert (Hset : ∀ a x y, set_off (set_off a x) y = set_off a y) by done.
  assert (Hv0 : ip_off (set_off mh0 v) = off_field v false).
  { simpl. rewrite <- (Hs false). unfold off_field. by rewrite Z.add_0_r. }
  assert (E2 : (if b then set_off (set_off mh0 v) (Z.lor (ip_off (set_off mh0 v)) IP_MF) else set_off mh0 v) = set_off mh0 (off_field v b)).
  { rewrite Hv0, off_field_lor by lia. destruct b; [done|]. unfold off_field. by rewrite Z.add_0_r. }
  rewrite E2. assert (E3 : ip_off (set_off mh0 (off_field v b)) = off_field v b) by apply Hs.
  rewrite E3, off_field_lor by lia. unfold more, n.
  destruct (Z.leb_spec (u16 (ip_len h)) (off + len)).
  - rewrite Z.min_r by lia. rewrite (proj2 (Z.ltb_ge (off + _) _)), orb_false_r by lia. eexists. split; [done|].
    split; [apply Hty|]. rewrite <- (Hw (_ + mhlen)). simpl. by rewrite Hs.
  - rewrite Z.min_l by lia. rewrite (proj2 (Z.ltb_lt (off + _) _)), orb_true_r by lia. eexists. split; [done|].
    split; [apply Hty|]. rewrite <- (Hw (_ + mhlen)). simpl. by rewrite Hs.
Qed.

(** ** Fragmentation *)

(** A datagram that can be cut: the header is consistent with the packet, [IP_DF]
    is clear, and the offsets of its bytes fit the field. *)
Record datagram (s : mstate) (p : packet) : Prop := {
  g_typed : ip_typed (p_ip p);
  g_hl : 20 <= hdrlen (p_ip p);
  g_opts : Z.of_nat (length (p_opts p)) = hdrlen (p_ip p) - 20;
  g_opts8 : Forall is_u8 (p_opts p);
  g_copies : ∃ dp, copies (p_opts p) dp;
  g_chain : Forall (mbuf_ok s) (p_m p);
  g_internal : Forall internal (p_m p);
  g_pkthdr : pkthdr_ok (p_m p);
  g_front : ∃ m ms, p_m p = m :: ms ∧ has m M_PKTHDR = true ∧ hdrlen (p_ip p) <= m_len m;
  g_len : u16 (ip_len (p_ip p)) = chain_len (p_m p);
  g_off : 0 <= ip_off (p_ip p) < IP_DF;
  g_end : 8 * Z.land (ip_off (p_ip p)) IP_OFFMASK + (u16 (ip_len (p_ip p)) - hdrlen (p_ip p)) <= 65536 }.

(** The data of a datagram. *)
Definition data_of (s : mstate) (p : packet) : list Z := drop (Z.to_nat (hdrlen (p_ip p))) (bytes s (p_m p)).
Definition data_len (p : packet) : Z := u16 (ip_len (p_ip p)) - hdrlen (p_ip p).

(** [q] is a fragment of [p] with the [n] bytes of its data from [o] on. *)
Record piece (s : mstate) (p : packet) (mtu o n : Z) (q : packet) : Prop := {
  pc_typed : ip_typed (p_ip q);
  pc_same : ip_v (p_ip q) = ip_v (p_ip p) ∧ ip_tos (p_ip q) = ip_tos (p_ip p) ∧ ip_id (p_ip q) = ip_id (p_ip p) ∧
            ip_ttl (p_ip q) = ip_ttl (p_ip p) ∧ ip_p (p_ip q) = ip_p (p_ip p) ∧
            ip_src (p_ip q) = ip_src (p_ip p) ∧ ip_dst (p_ip q) = ip_dst (p_ip p);
  pc_hl : 20 <= hdrlen (p_ip q);
  pc_opts : Z.of_nat (length (p_opts q)) = hdrlen (p_ip q) - 20 ∧ Forall is_u8 (p_opts q);
  pc_optcopy : if decide (o = 0) then hdrlen (p_ip q) = hdrlen (p_ip p) ∧ p_opts q = p_opts p
               else ip_optcopy (p_opts p) = Some (p_opts q);
  pc_len : ip_len (p_ip q) = s16 (hdrlen (p_ip q) + n);
  pc_fit : hdrlen (p_ip q) + n <= mtu;
  pc_off : ip_off (p_ip q) = off_field (Z.land (ip_off (p_ip p)) IP_OFFMASK + o / 8)
             (ztrue (Z.land (ip_off (p_ip p)) IP_MF) || (o + n <? data_len p));
  pc_aligned : o mod 8 = 0;
  pc_sum : Cksum.checksum true (header q) = 0;
  pc_chain : Forall (mbuf_ok s) (p_m q) ∧ Forall internal (p_m q) ∧ pkthdr_ok (p_m q);
  pc_front : ∃ m ms, p_m q = m :: ms ∧ has m M_PKTHDR = true ∧ hdrlen (p_ip q) <= m_len m;
  pc_data : data_of s q = take (Z.to_nat n) (drop (Z.to_nat o) (data_of s p)) }.

(** The fragments [ps] carry the data of [p] from [o] to the end, in order. *)
Fixpoint pieces (s : mstate) (p : packet) (mtu o : Z) (ps : list packet) : Prop :=
  match ps with
  | [] => o = data_len p
  | q :: ps => ∃ n, 0 < n ∧ piece s p mtu o n q ∧ pieces s p mtu (o + n) ps
  end.

Lemma frag_opts_spec s p :
  datagram s p →
  ∃ mhlen mopts, frag_opts (hdrlen (p_ip p)) (p_opts p) = Some (mhlen, mopts) ∧
    ip_optcopy (p_opts p) = Some mopts ∧ mhlen = 20 + Z.of_nat (length mopts) ∧ 20 <= mhlen <= hdrlen (p_ip p) ∧
    mhlen mod 4 = 0 ∧ Forall is_u8 mopts ∧ (hdrlen (p_ip p) <= 20 → mhlen = hdrlen (p_ip p)).
Proof.
  intros []. destruct g_copies0 as [dp Hc]. destruct (ip_optcopy_spec _ _ Hc) as [E Hl].
  assert (H4 : (length (p_opts p) mod 4 = 0)%nat).
  { assert (E4 : Z.of_nat (length (p_opts p)) mod 4 = 0).
    { rewrite g_opts0. unfold hdrlen. rewrite Z.shiftl_mul_pow2 by lia. change (2 ^ 2) with 4.
      replace (ip_hl (p_ip p) * 4 - 20) with ((ip_hl (p_ip p) - 5) * 4) by lia. apply Z.mod_mul. lia. }
    apply Nat2Z.inj. rewrite Nat2Z.inj_mod. done. }
  specialize (Hl H4). destruct (pad4_length dp) as [P4 _].
  assert (H8 : Forall is_u8 (pad4 dp)).
  { apply Forall_app. split; [|apply Forall_replicate; done]. clear -Hc g_opts9. induction Hc as [|l|l dp H IH|t d l dp Ht1 Ht2 H IH o].
    - done.
    - done.
    - apply Forall_cons in g_opts9 as [? ?]. constructor; [done|by apply IH].
    - apply Forall_app in g_opts9 as [? ?]. destruct (ztrue _); [apply Forall_app; split; [done|]|]; by apply IH. }
  unfold frag_opts, sizeof_ip. destruct (Z.ltb_spec 20 (hdrlen (p_ip p))).
  - rewrite E. simpl. eexists _, _. split; [done|]. split; [done|]. split; [lia|]. split; [lia|]. split; [|split; [done|lia]].
    apply Nat.Div0.mod_divides in P4 as [c Hcc]. rewrite Hcc. replace (Z.of_nat (4 * c) + 20) with ((Z.of_nat c + 5) * 4) by lia. apply Z.mod_mul. lia.
  - assert (Hn : p_opts p = []) by (destruct (p_opts p); [done|simpl in *; lia]). rewrite Hn in *.
    inversion Hc; subst. eexists _, _. split; [done|]. split; [done|]. simpl. split_and!; try done; try lia.
Qed.

(** The fragment built from the header mbuf and the copy [c] of the data. *)
Lemma piece_intro s p mtu off n c m mh mhlen mopts sum :
  datagram s p → hdrlen (p_ip p) < off → off + n <= u16 (ip_len (p_ip p)) → 0 < n → (off - hdrlen (p_ip p)) mod 8 = 0 →
  mhlen + n <= mtu → 20 <= mhlen → mhlen = 20 + Z.of_nat (length mopts) → Forall is_u8 mopts → ip_optcopy (p_opts p) = Some mopts →
  hdrlen mh = mhlen → ip_len mh = s16 (n + mhlen) →
  ip_off mh = off_field (Z.land (ip_off (p_ip p)) IP_OFFMASK + (off - hdrlen (p_ip p)) / 8)
                (ztrue (Z.land (ip_off (p_ip p)) IP_MF) || (off + n <? u16 (ip_len (p_ip p)))) →
  ip_v mh = ip_v (p_ip p) ∧ ip_tos mh = ip_tos (p_ip p) ∧ ip_id mh = ip_id (p_ip p) ∧ ip_ttl mh = ip_ttl (p_ip p) ∧
    ip_p mh = ip_p (p_ip p) ∧ ip_src mh = ip_src (p_ip p) ∧ ip_dst mh = ip_dst (p_ip p) →
  ip_typed (set_sum mh sum) → Cksum.checksum true (ip_bytes (set_sum mh sum) ++ mopts) = 0 →
  mbuf_ok s m ∧ internal m ∧ has m M_PKTHDR = true ∧ m_len m = mhlen ∧ pkthdr_len m = mhlen + n →
  Forall (mbuf_ok s) c → Forall internal c → bytes s c = take (Z.to_nat n) (drop (Z.to_nat off) (bytes s (p_m p))) →
  piece s p mtu (off - hdrlen (p_ip p)) n (Pkt (set_sum mh sum) mopts (m :: c)).
Proof.
  intros Hd Ho Hn Hn0 H8 Hfit Hmh Em Hmo Hoc Eh El Eo Es Ht Hck (M1 & M2 & M3 & M4 & M5) C1 C2 C3. pose proof (g_hl _ _ Hd) as Hh20.
  assert (Hlen : Z.of_nat (length (bytes s (p_m p))) = u16 (ip_len (p_ip p))).
  { rewrite (g_len _ _ Hd). apply bytes_length, Hd. }
  assert (Hcl : chain_len c = n).
  { rewrite <- (bytes_length s c C1), C3, length_take, length_drop. lia. }
  split; cbn [p_ip p_opts p_m]; change (hdrlen (set_sum mh sum)) with (hdrlen mh); rewrite ?Eh; try done.
  - split; [lia|done].
  - rewrite decide_False by lia. done.
  - change (ip_len (set_sum mh sum)) with (ip_len mh). rewrite El. f_equal. lia.
  - change (ip_off (set_sum mh sum)) with (ip_off mh). rewrite Eo. unfold data_len.
    assert (E : (off + n <? u16 (ip_len (p_ip p))) = (off - hdrlen (p_ip p) + n <? u16 (ip_len (p_ip p)) - hdrlen (p_ip p))).
    { destruct (Z.ltb_spec (off + n) (u16 (ip_len (p_ip p)))); symmetry; [apply Z.ltb_lt|apply Z.ltb_ge]; lia. }
    by rewrite E.
  - split; [by constructor|]. split; [by constructor|]. intros _. simpl. unfold chain_len in *. lia.
  - exists m, c. split; [done|]. split; [done|]. lia.
  - unfold data_of. cbn [p_ip p_m]. change (hdrlen (set_sum mh sum)) with (hdrlen mh). rewrite Eh, bytes_cons.
    rewrite drop_app_ge; rewrite ?Nat2Z.inj_ge; pose proof (mbytes_length s m M1); [|lia].
    replace (Z.to_nat mhlen - length (mbytes s m))%nat with 0%nat by lia. rewrite drop_0, C3, drop_drop. do 2 f_equal. pose proof (g_hl _ _ Hd). lia.
Qed.

Lemma with_sum_wp sum_junk hlen p s :
  ip_typed (p_ip p) → Forall is_u8 (p_opts p) → hlen = 20 + Z.of_nat (length (p_opts p)) → hlen <= 60 →
  wp (with_sum sum_junk hlen p) s (λ q s', s' = s ∧ ∃ c, q = Pkt (set_sum (p_ip p) c) (p_opts p) (p_m p) ∧
    ip_typed (set_sum (p_ip p) c) ∧ Cksum.checksum true (ip_bytes (set_sum (p_ip p) c) ++ p_opts p) = 0).
Proof.
  intros H1 H2 H3 H4. unfold with_sum. wp_step.
  destruct (put_sum_spec sum_junk (head_data (p_m p)) hlen (p_ip p) (p_opts p) H1 H2 H3 H4) as (c & E & H).
  eapply wp_lift; [exact E|]. wp_step. split; [done|]. by exists c.
Qed.

Lemma on_last_internal g l : Forall internal l → Forall internal (on_last (λ m, set_len m (g m)) l).
Proof.
  induction 1 as [|x l Hx Hl IH]; [done|]. destruct l; [by constructor|]. constructor; [done|exact IH].
Qed.

Lemma round8 a : 0 <= a < 65536 → s32 (Z.land a (Z.lnot 7)) = a / 8 * 8.
Proof.
  intros Ha. change 7 with (Z.ones 3). rewrite <- Z.ldiff_land, Z.ldiff_ones_r, Z.shiftr_div_pow2, Z.shiftl_mul_pow2 by lia.
  change (2 ^ 3) with 8. apply s32_id. unfold is_s32. Z.div_mod_to_equations. lia.
Qed.

(** What stays of the first mbuf when the end of a packet is cut. *)
Lemma m_adj_back s m ms n r :
  Forall (mbuf_ok s) (m :: ms) → Forall internal (m :: ms) → n < 0 → 0 <= chain_len (m :: ms) + n →
  m_adj (m :: ms) n = Some r →
  Forall internal r ∧ ∃ m' ms', r = m' :: ms' ∧ m_flags m' = m_flags m ∧ Z.min (m_len m) (chain_len (m :: ms) + n) <= m_len m'.
Proof.
  intros Hok Hin Hn Hc. unfold m_adj. rewrite (proj2 (Z.leb_gt 0 n)) by done.
  assert (Hpk : ∀ (g : mbuf → Z) x, internal x → internal (if_pkthdr (λ m, set_pktlen m (g m)) x)).
  { intros g x Hx. unfold if_pkthdr. by destruct (has x M_PKTHDR). }
  assert (Hfl : ∀ (g : mbuf → Z) x, m_flags (if_pkthdr (λ m, set_pktlen m (g m)) x) = m_flags x ∧
    m_len (if_pkthdr (λ m, set_pktlen m (g m)) x) = m_len x).
  { intros g x. unfold if_pkthdr. by destruct (has x M_PKTHDR). }
  destruct (last (m :: ms)) as [l|] eqn:El; [|by apply last_None in El].
  assert (Hms : 0 <= chain_len ms) by (apply (chain_len_nonneg s); by apply Forall_cons in Hok as [_ ?]).
  destruct (Z.leb_spec (- n) (m_len l)).
  - intros [= <-]. apply Forall_cons in Hin as [Hm Hin']. destruct ms as [|m1 ms].
    + injection El as <-. simpl in *. split; [constructor; [by apply (Hpk (λ m, pkthdr_len m - - n))|done]|].
      eexists _, _. split; [done|]. destruct (Hfl (λ m, pkthdr_len m - - n) (set_len m (m_len m - - n))) as [-> ->]. simpl. split; [done|]. lia.
    + cbn [on_last on_head]. split.
      * constructor; [by apply (Hpk (λ m, pkthdr_len m - - n))|]. by apply (on_last_internal (λ m, m_len m - - n) (m1 :: ms)).
      * eexists _, _. split; [done|]. destruct (Hfl (λ m, pkthdr_len m - - n) m) as [-> ->]. split; [done|]. lia.
  - rewrite Z.max_r by lia. set (count := chain_len (m :: ms) - - n). intros Hr.
    apply Forall_cons in Hin as [Hm Hin']. cbn [on_head adj_cut] in Hr.
    destruct (Hfl (λ _, count) m) as [F1 F2]. pose proof (Hpk (λ _, count) m Hm) as Hi.
    assert (Hcut : ∀ l c r, adj_cut l c = Some r → Forall internal l → Forall internal r).
    { clear. intros l. induction l as [|x l IH]; intros c r; simpl; [done|]. intros Hr Hl. apply Forall_cons in Hl as [Hx Hl].
      destruct (c <=? m_len x); [injection Hr as <-; constructor; [done|]|].
      - apply Forall_fmap. eapply Forall_impl; [exact Hl|]. done.
      - destruct (adj_cut l _) eqn:E; [|done]. injection Hr as <-. constructor; [done|]. by eapply IH. }
    rewrite F2 in Hr. destruct (Z.leb_spec count (m_len m)).
    + injection Hr as <-. split; [constructor; [done|]|].
      * apply Forall_fmap. eapply Forall_impl; [exact Hin'|]. done.
      * eexists _, _. split; [done|]. split; [done|]. cbn [m_len set_len]. unfold count. lia.
    + destruct (adj_cut ms _) as [r'|] eqn:E; [|done]. injection Hr as <-. split; [constructor; [done|]|].
      * by eapply Hcut.
      * eexists _, _. split; [done|]. split; [done|]. rewrite F2. lia.
Qed.

(** The first fragment. *)
Lemma first_frag_wp sum_junk s p mtu len s1 :
  datagram s p → same_store s s1 → 0 < len → hdrlen (p_ip p) + len < u16 (ip_len (p_ip p)) → hdrlen (p_ip p) + len <= mtu →
  wp (first_frag sum_junk (p_ip p) (p_opts p) (p_m p) (hdrlen (p_ip p)) len) s1
    (λ q s', s' = s1 ∧ piece s p mtu 0 len q).
Proof.
  intros Hd Hs1 Hl Hlt Hmtu. set (hlen := hdrlen (p_ip p)) in *. set (L := u16 (ip_len (p_ip p))) in *. unfold first_frag.
  pose proof (g_hl _ _ Hd) as Hh20. pose proof (hdrlen_range _ (g_typed _ _ Hd)) as Hh60. fold hlen in Hh20, Hh60.
  assert (Hcl : chain_len (p_m p) = L) by (symmetry; apply Hd).
  destruct (m_adj_spec s (p_m p) (hlen + len - L) (g_chain _ _ Hd) (g_pkthdr _ _ Hd)) as (r & Er & Hb & Hok & Hpk).
  destruct (g_front _ _ Hd) as (m & ms & Em & Hmp & Hml). fold hlen in Hml.
  pose proof (g_chain _ _ Hd) as Hch. pose proof (g_internal _ _ Hd) as Hint. rewrite Em in *.
  destruct (m_adj_back s m ms (hlen + len - L) r Hch Hint) as (Hin & m' & ms' & -> & Hfl & Hlen'); [lia|lia|done|].
  pose proof (bytes_length s _ Hch) as Hbl.
  rewrite (proj2 (Z.leb_gt 0 _)) in Hb by lia. fold L. rewrite Er. wp_step. eapply wp_lift; [done|].
  destruct (off_field_of _ (g_off _ _ Hd)) as [Eo Hv].
  set (v := Z.land (ip_off (p_ip p)) IP_OFFMASK) in *.
  set (h := set_off _ _). assert (Eoff : ip_off h = off_field v true).
  { unfold h. simpl. rewrite s16_u16. rewrite Eo at 1. rewrite off_field_lor by done. apply s16_id.
    destruct (off_field_parts v true Hv) as (_ & _ & ? & _). unfold is_s16, IP_DF in *. lia. }
  assert (Ht : ip_typed h).
  { pose proof (g_typed _ _ Hd) as Ht. unfold ip_typed in *. unfold h. simpl.
    pose proof (s16_range (u16 (Z.lor (ip_off (p_ip p)) IP_MF))). pose proof (s16_range (u16 (hlen + len))). tauto. }
  eapply wp_mono; [apply with_sum_wp; simpl; try done; [apply Hd|rewrite (g_opts _ _ Hd); fold hlen; lia|lia]|].
  intros q s2 (-> & c & -> & Hts & Hck). cbn [p_ip p_opts p_m] in *. split; [done|].
  destruct (on_head_set_pktlen s (hlen + len) (m' :: ms')) as (P1 & P2 & P3).
  assert (Hdl : chain_len (m' :: ms') = hlen + len).
  { rewrite <- (bytes_length s _ Hok), Hb, length_take. lia. }
  assert (Hhl : hdrlen (set_sum h c) = hlen) by done.
  split; cbn [p_ip p_opts p_m]; rewrite ?Hhl; try done; try lia.
  - split; [rewrite (g_opts _ _ Hd); done|apply Hd].
  - unfold h. simpl. rewrite s16_u16. done.
  - change (ip_off (set_sum h c)) with (ip_off h). rewrite Eoff. simpl (0 / 8). rewrite Z.add_0_r. fold v. f_equal.
    rewrite (proj2 (Z.ltb_lt _ _)), orb_true_r; [done|]. unfold data_len. fold L hlen. lia.
  - split; [by apply P2|]. split; [by apply P3|]. intros _. simpl in *. done.
  - eexists _, _. split; [done|]. split; [unfold has in *; simpl; by rewrite Hfl|]. simpl. lia.
  - unfold data_of. cbn [p_ip p_m]. rewrite Hhl, P1, Hb, Em. fold hlen. change (Z.to_nat 0) with 0%nat. rewrite drop_0.
    rewrite skipn_firstn_comm. f_equal. lia.
Qed.

Section Given.
Context (if_output : ifnet → Z → list packet → packet → Z).

(** The fragments [ps] given to the interface, in order, until it reports an error:
    [r] is those it was given, the one refused the last, and its answer to that one. *)
Definition given (ifp : ifnet) (dst : Z) (sent ps : list packet) (r : list packet * Z) : Prop :=
  ∃ k q, ps !! k = Some q ∧ r = (sent ++ take (S k) ps, if_output ifp dst (sent ++ take k ps) q) ∧
    (∀ i p, (i < k)%nat → ps !! i = Some p → if_output ifp dst (sent ++ take i ps) p = 0) ∧
    (r.2 = 0 → S k = length ps).

Lemma given_cons ifp dst sent q p ps r :
  if_output ifp dst sent q = 0 → given ifp dst (sent ++ [q]) (p :: ps) r → given ifp dst sent (q :: p :: ps) r.
Proof.
  intros H0 (k & x & Hk & -> & Hb & Hl). exists (S k), x. split; [exact Hk|]. split.
  - f_equal; [by rewrite <- app_assoc|]. rewrite <- app_assoc. done.
  - split; [|intros E; simpl; f_equal; by apply Hl]. intros [|i] y Hi Hy; [injection Hy as <-; by rewrite app_nil_r|].
    specialize (Hb i y ltac:(lia) Hy). by rewrite <- app_assoc in Hb.
Qed.

Lemma given_last ifp dst sent q ps e :
  e = if_output ifp dst sent q → (e = 0 → ps = []) → given ifp dst sent (q :: ps) (sent ++ [q], e).
Proof.
  intros -> He. exists 0%nat, q. split; [done|]. split; [simpl; by rewrite app_nil_r|]. split; [intros; lia|].
  intros E. by rewrite (He E).
Qed.

Lemma given_all ifp dst ps r : given ifp dst [] ps r → r.2 = 0 → r.1 = ps.
Proof. intros (k & q & _ & -> & _ & Hl) E. cbn [fst app]. rewrite (Hl E). by rewrite firstn_all. Qed.

End Given.

Section Frag.
Context (max_linkhdr : Z) (drain : mstate → mstate) (junk : list Z) (junk_len sum_junk : Z).
Context (drain_ok : ∀ s, same_store s (drain s)) (junk_ok : Z.of_nat (length junk) = MLEN).
(** There is room for a link header and an IP header in an mbuf. *)
Context (linkhdr_ok : 0 <= max_linkhdr <= 40).
#[local] Set Default Proof Using "Type*".

(** The fresh mbuf of a fragment's header. *)
Lemma frag_mbuf_ok s mhlen n :
  20 <= mhlen <= 60 →
  let m := MB junk_len 8 MT_HEADER M_PKTHDR 0 0 0 0 junk in
  let m := set_rcvif (set_pktlen (set_len (set_data m (m_data m + max_linkhdr)) mhlen) n) 0 in
  mbuf_ok s m ∧ internal m ∧ has m M_PKTHDR = true ∧ m_len m = mhlen ∧ pkthdr_len m = n.
Proof.
  intros Hm m m'. split; [|done]. split; [simpl; lia|]. split; [simpl; lia|]. exists junk. split; [done|].
  split; [|intros _; split; [done|intros _; simpl; lia]]. simpl. rewrite junk_ok. unfold MLEN, MSIZE. lia.
Qed.

Lemma frag_loop_wp s p mtu fuel :
  datagram s p →
  ∀ len off s1, same_store s s1 → hdrlen (p_ip p) < off →
  off = u16 (ip_len (p_ip p)) ∨
    (off < u16 (ip_len (p_ip p)) ∧ (off - hdrlen (p_ip p)) mod 8 = 0 ∧ len mod 8 = 0 ∧ 0 < len ∧ hdrlen (p_ip p) + len <= mtu) →
  u16 (ip_len (p_ip p)) - off <= Z.of_nat fuel →
  wp (frag_loop max_linkhdr drain junk junk_len sum_junk fuel (p_ip p) (p_opts p) (p_m p) (hdrlen (p_ip p)) len off) s1
    (λ r s', same_store s s' ∧ (oracle s1 = [] → oracle s' = []) ∧ Forall (λ q, Forall internal (p_m q)) r.1 ∧
      (r.2 = 0 ∧ pieces s p mtu (off - hdrlen (p_ip p)) r.1 ∨ r.2 = ENOBUFS ∧ oracle s1 ≠ [])).
Proof.
  intros Hd. set (hlen := hdrlen (p_ip p)). set (L := u16 (ip_len (p_ip p))).
  destruct (frag_opts_spec s p Hd) as (mhlen & mopts & Ef & Hoc & Em & Hm & Hm4 & Hmo & Hm20). fold hlen in Ef, Hm, Hm20.
  pose proof (hdrlen_range _ (g_typed _ _ Hd)) as Hh60. fold hlen in Hh60.
  induction fuel as [|fuel IH]; intros len off s1 Hs1 Hho Hcase Hfuel.
  { simpl. fold L. assert (off = L) by lia. rewrite (proj2 (Z.ltb_ge _ _)) by lia. wp_steps. split; [done|]. split; [done|]. split; [done|].
    left. split; [done|]. simpl. unfold data_len. fold L hlen. lia. }
  cbn [frag_loop]. fold L. destruct (Z.ltb_spec off L) as [Hlt|Hge].
  2: { wp_steps. split; [done|]. split; [done|]. split; [done|]. left. split; [done|]. simpl. unfold data_len. fold L hlen. lia. }
  destruct Hcase as [?|(_ & H8 & Hl8 & Hl0 & Hmtu)]; [lia|].
  unfold MGETHDR. set (m0 := MB _ _ _ _ _ _ _ _ _). wp_step. eapply wp_mono; [by apply mget_wp|].
  intros m s2 (Hs2 & Hm' & Ho2). assert (Hs12 : same_store s s2) by by transitivity s1.
  destruct Hm' as [->| ->].
  2: { wp_step. split; [by etrans|]. split; [by intros [? _]%Ho2|]. split; [done|]. right. split; [done|]. by intros [? _]%Ho2. }
  rewrite Ef. wp_step. eapply wp_lift; [done|].
  destruct (frag_header_spec (p_ip p) hlen mhlen len off) as (mh & Eh & Ht & Ehl & Elen & Eoff & Esame);
    try done; try lia; [apply Hd|apply Hd|pose proof (g_end _ _ Hd) as He; fold L hlen in He; Z.div_mod_to_equations; lia|].
  rewrite Eh. set (n := Z.min len (u16 (ip_len (p_ip p)) - off)) in *. assert (Hn : 0 < n <= len ∧ off + n <= L) by (unfold n; lia).
  assert (Hlen : chain_len (p_m p) = L) by (symmetry; apply Hd).
  wp_step. eapply wp_mono.
  { apply wp_wlp; [apply (m_copym_spec drain junk junk_len drain_ok junk_ok s2 (p_m p) off n)|apply m_copym_keeps].
    - destruct (g_front _ _ Hd) as (? & ? & -> & _). done.
    - eapply Forall_impl; [apply (g_chain _ _ Hd)|]. intros x. apply mbuf_ok_store. by etrans.
    - apply Hd.
    - lia.
    - lia.
    - right. pose proof (u16_range (ip_len (p_ip p))) as H16. fold L in H16. unfold is_u16, M_COPYALL in *. lia. }
  intros c s3 [(Hs3 & C1 & C2 & C3) Ho3]. assert (Hs13 : same_store s s3) by (etrans; [exact Hs1|]; by etrans).
  destruct c as [|c0 c].
  { destruct C3 as [C3|[_ Horc]].
    - exfalso. apply (f_equal length) in C3. revert C3. unfold copied. destruct (n =? M_COPYALL) eqn:En.
      + zbool. pose proof (u16_range (ip_len (p_ip p))) as H16. fold L in H16. unfold is_u16, M_COPYALL in *. lia.
      + rewrite length_take, length_drop. change (bytes s3 []) with (@nil Z). simpl. pose proof (bytes_length s (p_m p) (g_chain _ _ Hd)) as Hb.
        rewrite (bytes_store s s2 (p_m p) Hs12). lia.
    - wp_step. eapply wp_mono; [apply MFREE_wp; by intros|]. intros [] s4 Hs4. wp_step. split; [by etrans|]. split; [|split; [done|]].
      + intros Ho1. exfalso. apply Horc. by apply Ho2.
      + right. split; [done|]. intros Ho1. apply Horc. by apply Ho2. }
  assert (Cb : bytes s (c0 :: c) = take (Z.to_nat n) (drop (Z.to_nat off) (bytes s (p_m p)))).
  { destruct C3 as [C3|[? _]]; [|done]. rewrite <- (bytes_store s s3), C3, (bytes_store s s2) by done. unfold copied.
    rewrite (proj2 (Z.eqb_neq _ _)); [done|]. pose proof (u16_range (ip_len (p_ip p))) as H16. fold L in H16. unfold is_u16, M_COPYALL in *. lia. }
  wp_step. eapply wp_mono; [apply with_sum_wp; simpl; try done; lia|]. intros q s4 (-> & sum & -> & Hts & Hck).
  cbn [p_ip p_opts p_m] in *. wp_step. eapply wp_mono; [apply (IH n (off + n)); try done; [lia| |lia]|].
  { destruct (decide (off + n = L)) as [->|]; [by left|right]. assert (En : n = len) by (unfold n in *; lia). rewrite En in *.
    split; [lia|]. split; [|lia]. replace (off + len - hlen) with (off - hlen + len) by lia. rewrite Z.add_mod, H8, Hl8 by lia. done. }
  intros [r e] s5 (Hs5 & Ho5 & Hin & Hr). wp_step. split; [done|]. split; [intros Ho1; by apply Ho5, Ho3, Ho2|].
  split; [constructor; [by constructor|done]|]. cbn [fst snd] in *. destruct Hr as [(-> & Hp)|(-> & Hor)].
  - left. split; [done|]. exists n. split; [lia|]. split.
    + apply (piece_intro s p mtu off n (c0 :: c) _ mh mhlen mopts); try done; try lia.
      * apply (frag_mbuf_ok s mhlen (mhlen + n)). lia.
      * eapply Forall_impl; [exact C1|]. intros x. apply mbuf_ok_store. destruct Hs13; by split.
    + by replace (off - hlen + n) with (off + n - hlen) by lia.
  - right. split; [done|]. intros Ho1. by apply Hor, Ho3, Ho2.
Qed.
(** The fragments of a datagram that does not fit. *)
Lemma fragment_wp s p mtu :
  datagram s p → hdrlen (p_ip p) + 8 <= mtu < u16 (ip_len (p_ip p)) →
  wp (fragment max_linkhdr drain junk junk_len sum_junk mtu p (hdrlen (p_ip p))) s
    (λ r s', same_store s s' ∧ Forall (λ q, Forall internal (p_m q)) r.1 ∧
      (r.2 = 0 ∧ pieces s p mtu 0 r.1 ∨ r.2 = ENOBUFS ∧ oracle s ≠ [])).
Proof.
  intros Hd Hmtu. set (hlen := hdrlen (p_ip p)) in *. set (L := u16 (ip_len (p_ip p))) in *. unfold fragment.
  pose proof (u16_range (ip_len (p_ip p))) as H16. fold L in H16. unfold is_u16 in H16.
  pose proof (g_hl _ _ Hd) as Hh20. fold hlen in Hh20.
  rewrite round8 by lia. set (len := (mtu - hlen) / 8 * 8).
  assert (Hlen : 8 <= len <= mtu - hlen ∧ len mod 8 = 0) by (unfold len; split; [Z.div_mod_to_equations; lia|apply Z.mod_mul; lia]).
  wp_step. eapply wp_mono; [apply (frag_loop_wp s p mtu); try done|].
  - fold hlen. lia.
  - right. fold L hlen. replace (hlen + len - hlen) with len by lia. lia.
  - fold L. lia.
  - intros [r e] s1 (Hs1 & Ho & Hin & Hr). cbn [fst snd] in *. destruct Hr as [(-> & Hp)|(-> & Horc)].
    + simpl. wp_step. eapply wp_mono; [apply (first_frag_wp sum_junk s p mtu len s1); try done; fold L hlen; lia|].
      intros q s2 [-> Hq]. wp_step. split; [done|]. cbn [fst snd]. split; [constructor; [apply Hq|done]|]. left. split; [done|].
      exists len. split; [lia|]. split; [done|]. fold hlen in Hp. replace (hlen + len - hlen) with (0 + len) in Hp by lia. exact Hp.
    + simpl. wp_step. split; [done|]. cbn [fst snd]. split; [constructor; [apply Hd|done]|]. right. done.
Qed.

Context (if_output : ifnet → Z → list packet → packet → Z).

Lemma sendorfree_error ifp dst sent ps e s :
  e ≠ 0 → Forall (λ q, Forall internal (p_m q)) ps →
  wp (sendorfree if_output ifp dst sent ps e) s (λ r s', same_store s s' ∧ r = (sent, e)).
Proof.
  intros He Hps. revert s; induction Hps as [|q ps Hq Hps IH]; intros s; simpl; [by wp_steps|].
  rewrite (proj2 (Z.eqb_neq _ _) He). wp_step. eapply wp_mono; [apply m_freem_wp|].
  - eapply Forall_impl; [exact Hq|]. intros x. apply internal_known.
  - intros [] s1 Hs1. eapply wp_mono; [apply IH|]. intros r s2 [Hs2 ->]. split; [by etrans|done].
Qed.

(** The packets are given to the interface in order, up to the first error. *)
Lemma sendorfree_wp ifp dst ps : ∀ q sent s,
  Forall (λ q, Forall internal (p_m q)) ps →
  wp (sendorfree if_output ifp dst sent (q :: ps) 0) s (λ r s', same_store s s' ∧ given if_output ifp dst sent (q :: ps) r).
Proof.
  induction ps as [|p ps IH]; intros q sent s Hps.
  { simpl. wp_step. split; [done|]. by apply given_last. }
  pose proof Hps as [Hp Hps']%Forall_cons. change (sendorfree if_output ifp dst sent (q :: p :: ps) 0) with
    (sendorfree if_output ifp dst (sent ++ [q]) (p :: ps) (if_output ifp dst sent q)).
  destruct (decide (if_output ifp dst sent q = 0)) as [E|He].
  - rewrite E. eapply wp_mono; [by apply IH|]. intros r s1 [Hs Hr]. split; [done|]. by apply given_cons.
  - eapply wp_mono; [by apply sendorfree_error|]. intros r s1 [Hs ->]. split; [done|]. by apply given_last.
Qed.

Lemma sendit_fragments s p n0 ifp dst :
  datagram s p → hdrlen (p_ip p) + 8 <= if_mtu ifp < u16 (ip_len (p_ip p)) →
  wp (sendit max_linkhdr drain junk junk_len sum_junk if_output n0 ifp dst (hdrlen (p_ip p)) p) s (λ r s', same_store s s' ∧
    ((∃ ps, pieces s p (if_mtu ifp) 0 ps ∧ given if_output ifp dst [] ps r) ∨ r = ([], ENOBUFS) ∧ oracle s ≠ [])).
Proof.
  intros Hd Hmtu. unfold sendit. rewrite (proj2 (Z.leb_gt _ _)) by lia.
  destruct (off_field_of _ (g_off _ _ Hd)) as [Eo Hv].
  assert (Hdf : Z.land (ip_off (p_ip p)) IP_DF = 0).
  { rewrite <- (Z.mod_small (ip_off (p_ip p)) (2 ^ 14)) by apply (g_off _ _ Hd).
    rewrite <- Z.land_ones, <- Z.land_assoc by lia. apply Z.land_0_r. }
  unfold ztrue. rewrite Hdf. simpl.
  pose proof (u16_range (ip_len (p_ip p))) as H16. unfold is_u16 in H16. pose proof (g_hl _ _ Hd) as Hh20.
  change (-8) with (Z.lnot 7). rewrite round8, (proj2 (Z.ltb_ge _ 8)) by (lia || (Z.div_mod_to_equations; lia)).
  wp_step. eapply wp_mono; [by apply fragment_wp|]. intros [ps e] s1 (Hs1 & Hin & Hr). cbn [fst snd] in *.
  destruct Hr as [(-> & Hp)|(-> & Horc)].
  - destruct ps as [|q ps]; [simpl in Hp; unfold data_len in Hp; lia|]. apply Forall_cons in Hin as [_ Hin].
    eapply wp_mono; [by apply sendorfree_wp|]. intros r s2 [Hs2 Hr]. split; [by etrans|]. left. by eexists.
  - eapply wp_mono; [by apply sendorfree_error|]. intros r s2 [Hs2 ->]. split; [by etrans|]. by right.
Qed.


End Frag.

(** ** A datagram of forty bytes *)

Definition ex_packet : packet :=
  Pkt (IP 4 5 0 60 7 0 64 17 0 0x0a000001 0x0a000002) []
    [MB 60 8 MT_DATA M_PKTHDR 60 0 0 0 (replicate 28 0 ++ seqZ 0 40 ++ replicate 40 0)].
Definition ex_ifnet : ifnet := IFN 1 0 40.

Lemma ex_datagram : datagram ex_state ex_packet.
Proof.
  split; try done.
  - exists []. constructor.
  - apply Forall_singleton. split; [done|]. split; [done|]. eexists. split; [done|]. split; [done|]. done.
  - by apply Forall_singleton.
  - eexists _, _. split; [done|]. split; [done|]. vm_compute. congruence.
Qed.


End IpOutput.
