(* ===== verification/IpRound.v ===== *)
(** * Fragmentation and reassembly together

    The fragments that [ip_output] makes of a datagram travel as bytes.  Whatever
    the order in which they reach [ipintr], and however often each of them does,
    the datagram comes out of the reassembly with the arrival of the last missing
    one, and not before. *)

From stdpp Require Import options.
From S2P Require Import Prelude Mbuf Cksum Ip TcpReass IpReass IpOutput.
Import Mbuf Ip IpReass IpOutput.

Module IpRound.

(** A packet in the memory [s'] of the receiver with the bytes that [q] has on the
    wire: the header is what [mtod(m, struct ip * )] shows, and lies in the first
    mbuf, which has no cluster. *)
Record received_as (s : mstate) (q : packet) (s' : mstate) (x : ipasfrag) : Prop := {
  w_bytes : bytes s' (f_m x) = wire s q;
  w_hdr : ip_of_bytes (take 20 (bytes s' (f_m x))) = Some (f_ip x);
  w_opts : f_opts x = take (Z.to_nat (hdrlen (f_ip x)) - 20) (drop 20 (bytes s' (f_m x)));
  w_chain : chain_ok s' (f_m x);
  w_front : ∃ m ms, f_m x = m :: ms ∧ has m M_EXT = false ∧ hdrlen (f_ip x) <= m_len m }.

(** The datagram that [p] is. *)
Definition dgram_of (s : mstate) (p : packet) : dgram :=
  Dgram (λ i, default 0 (data_of s p !! Z.to_nat i)) (data_len p) (p_ip p) (p_opts p).

Lemma slice_list (l : list Z) o n :
  0 <= o → 0 <= n → o + n <= Z.of_nat (length l) →
  TcpReass.slice (λ i, default 0 (l !! Z.to_nat i)) o n = take (Z.to_nat n) (drop (Z.to_nat o) l).
Proof.
  intros Ho Hn Hl. unfold TcpReass.slice. apply list_eq. intros i. rewrite list_lookup_fmap.
  destruct (decide (Z.of_nat i < n)) as [Hi|Hi].
  - rewrite lookup_seqZ_lt by lia. simpl. rewrite lookup_take_lt, lookup_drop by lia.
    replace (Z.to_nat (o + Z.of_nat i)) with (Z.to_nat o + i)%nat by lia.
    destruct (lookup_lt_is_Some_2 l (Z.to_nat o + i)) as [y Hy]; [lia|]. by rewrite Hy.
  - rewrite lookup_seqZ_ge by lia. rewrite lookup_take_ge by lia. done.
Qed.

Section Round.
Context (s : mstate) (p : packet) (mtu : Z) (Hp : datagram s p).
Context (Hwhole : ip_off (p_ip p) = 0) (Hmtu : mtu < u16 (ip_len (p_ip p)) <= 32767).
#[local] Set Default Proof Using "Type*".

Lemma data_of_length : Z.of_nat (length (data_of s p)) = data_len p.
Proof.
  unfold data_of, data_len. rewrite length_drop. pose proof (bytes_length s (p_m p) (g_chain _ _ Hp)) as Hb.
  rewrite <- (g_len _ _ Hp) in Hb. pose proof (g_hl _ _ Hp). destruct (g_front _ _ Hp) as (m & ms & Em & _ & Hm).
  pose proof (g_chain _ _ Hp) as Hc. rewrite Em in Hc. apply Forall_cons in Hc as [_ Hc].
  pose proof (chain_len_nonneg s _ Hc). pose proof (g_len _ _ Hp) as El. rewrite Em in El. simpl in El. unfold chain_len in *. lia.
Qed.

(** Headers and options are read back from the bytes. *)
Lemma received_header o n q s' x :
  piece s p mtu o n q → received_as s q s' x → f_ip x = p_ip q ∧ f_opts x = p_opts q ∧
    drop (Z.to_nat (hdrlen (f_ip x))) (bytes s' (f_m x)) = data_of s q.
Proof.
  intros Hq [Wb Wh Wo _ _]. pose proof (ip_of_bytes_bytes _ (pc_typed _ _ _ _ _ _ Hq)) as E.
  assert (Eh : f_ip x = p_ip q).
  { rewrite Wb in Wh. unfold wire, header in Wh. rewrite <- app_assoc, take_app_length' in Wh by done. congruence. }
  destruct (pc_opts _ _ _ _ _ _ Hq) as [Ho _]. pose proof (pc_hl _ _ _ _ _ _ Hq) as Hh. rewrite Wo, Wb, Eh. split; [done|].
  unfold wire, header. split.
  - rewrite <- app_assoc, drop_app_length' by done. apply take_app_length'. lia.
  - apply drop_app_length'. rewrite length_app, ip_bytes_length. lia.
Qed.

(** A fragment that arrives is a piece of the datagram. *)
Lemma piece_arrives o n q s' x :
  0 <= o → 0 < n → o + n <= data_len p → piece s p mtu o n q → received_as s q s' x →
  arriving (dgram_of s p) s' x ∧ x_off x = o ∧ x_len x = n ∧ key_of (f_ip x) = key_of (p_ip p).
Proof.
  intros Ho Hn Hon Hq Hx. destruct (received_header o n q s' x Hq Hx) as (Eh & Eo & Ed).
  pose proof Hx as [_ _ _ Wc Wf]. pose proof Hq as [Q1 (S1 & S2 & S3 & S4 & S5 & S6 & S7) Q3 Q4 Q5 Q6 Q7 Q8 Q9 Q10 _ _ Q13].
  rewrite Hwhole in Q8. change (Z.land 0 IP_OFFMASK) with 0 in Q8. change (ztrue (Z.land 0 IP_MF)) with false in Q8.
  cbn [orb] in Q8. rewrite Z.add_0_l in Q8. pose proof (g_hl _ _ Hp) as Hh20. unfold data_len in *.
  destruct (off_field_parts (o / 8) (o + n <? u16 (ip_len (p_ip p)) - hdrlen (p_ip p))) as (F1 & F2 & _ & _).
  { split; [apply Z.div_pos; lia|]. Z.div_mod_to_equations. lia. }
  assert (Xo : x_off x = o) by (unfold x_off; rewrite Eh, Q8, F1; Z.div_mod_to_equations; lia).
  assert (Xl : x_len x = n) by (unfold x_len; rewrite Eh, Q6, s16_id by (unfold is_s16; lia); lia).
  split; [|split; [done|split; [done|]]]; [|rewrite Eh; unfold key_of; congruence].
  split; rewrite ?Xo, ?Xl; try done; try (rewrite Eh; done); simpl; unfold data_len; try lia.
  - destruct (decide (o = 0)) as [->|]; [|by left]. destruct Q5 as [Q5 _]. right. lia.
  - rewrite Eh, Q8, F2, Z.ltb_ge. lia.
  - rewrite Ed, Q13. symmetry. apply slice_list; [lia|lia|]. rewrite data_of_length. done.
  - intros ->. rewrite decide_True in Q5 by done. destruct Q5 as [Q5a Q5b]. rewrite Eh, Eo. split; [|done].
    unfold agrees. rewrite S1, S2, S3, S4, S5. split_and!; try done. unfold hdrlen in Q5a. rewrite !Z.shiftl_mul_pow2 in Q5a by lia. lia.
Qed.

(** Every piece lies in the datagram, every position is in a piece, and only one. *)
Lemma pieces_elem o ps q :
  0 <= o → pieces s p mtu o ps → q ∈ ps →
  ∃ o' n, piece s p mtu o' n q ∧ o <= o' ∧ 0 < n ∧ o' + n <= data_len p.
Proof.
  intros Ho Hps Hq. revert o Ho Hps. induction ps as [|q' ps IH]; intros o Ho Hps; [by apply not_elem_of_nil in Hq|].
  destruct Hps as (n & Hn & Hp' & Hps). assert (Hle : ∀ o ps, pieces s p mtu o ps → o <= data_len p).
  { clear -s p. intros o' l. revert o'. induction l as [|y l IH]; intros o'; simpl; [lia|]. intros (n & Hn & _ & H). apply IH in H. lia. }
  apply elem_of_cons in Hq as [->|Hq].
  - exists o, n. split; [done|]. apply Hle in Hps. lia.
  - destruct (IH Hq (o + n)) as (o' & n' & H1 & H2 & H3); [lia|done|]. exists o', n'. split; [done|]. lia.
Qed.

Lemma pieces_at o ps pos :
  pieces s p mtu o ps → o <= pos < data_len p →
  ∃ q o' n, q ∈ ps ∧ piece s p mtu o' n q ∧ o <= o' <= pos ∧ pos < o' + n.
Proof.
  revert o; induction ps as [|q ps IH]; intros o; simpl; [lia|]. intros (n & Hn & Hq & Hps) Hpos.
  destruct (decide (pos < o + n)).
  - exists q, o, n. split; [by left|]. split; [done|]. lia.
  - destruct (IH _ Hps) as (q' & o' & n' & H1 & H2 & H3); [lia|]. exists q', o', n'. split; [by right|]. split; [done|]. lia.
Qed.

(** The header says where a piece belongs. *)
Lemma piece_off o n q : piece s p mtu o n q → 0 <= o <= data_len p → 8 * Z.land (ip_off (p_ip q)) IP_OFFMASK = o.
Proof.
  intros Hq Ho. rewrite (pc_off _ _ _ _ _ _ Hq), Hwhole. change (Z.land 0 IP_OFFMASK) with 0. rewrite Z.add_0_l.
  pose proof (g_hl _ _ Hp). pose proof (pc_aligned _ _ _ _ _ _ Hq). unfold data_len in *.
  edestruct (off_field_parts (o / 8)) as (-> & _); Z.div_mod_to_equations; lia.
Qed.

Lemma piece_len o n q : piece s p mtu o n q → 0 < n → n = ip_len (p_ip q) - hdrlen (p_ip q).
Proof.
  intros Hq Hn. pose proof (pc_fit _ _ _ _ _ _ Hq). pose proof (pc_hl _ _ _ _ _ _ Hq).
  rewrite (pc_len _ _ _ _ _ _ Hq), s16_id by (unfold is_s16; lia). lia.
Qed.

(** Two pieces with a position in common are the same. *)
Lemma pieces_overlap o ps q q' pos o1 n1 o2 n2 :
  0 <= o → pieces s p mtu o ps → q ∈ ps → q' ∈ ps → piece s p mtu o1 n1 q → piece s p mtu o2 n2 q' →
  0 <= o1 <= pos ∧ pos < o1 + n1 ∧ o1 + n1 <= data_len p → 0 <= o2 <= pos ∧ pos < o2 + n2 ∧ o2 + n2 <= data_len p → q = q'.
Proof.
  intros Ho Hps Hq Hq' P1 P2 H1 H2. pose proof (piece_off _ _ _ P1 ltac:(lia)) as O1. pose proof (piece_off _ _ _ P2 ltac:(lia)) as O2.
  pose proof (piece_len _ _ _ P1 ltac:(lia)) as N1. pose proof (piece_len _ _ _ P2 ltac:(lia)) as N2.
  revert o Ho Hps. induction ps as [|q0 ps IH]; intros o Ho Hps; [by apply not_elem_of_nil in Hq|].
  pose proof Hps as (n0 & Hn0 & P0 & Hps'). assert (Hn : o + n0 <= data_len p).
  { destruct (pieces_elem o (q0 :: ps) q0) as (a & n & Pa & Ha & Hn & Hb); [done|done|by left|].
    pose proof (piece_off _ _ _ Pa ltac:(lia)). pose proof (piece_len _ _ _ Pa Hn). pose proof (piece_len _ _ _ P0 Hn0).
    destruct ps as [|q1 ps]; [simpl in Hps'; lia|]. destruct (pieces_elem (o + n0) (q1 :: ps) q1) as (? & ? & _ & ? & ? & ?); [lia|done|by left|]. lia. }
  pose proof (piece_off _ _ _ P0 ltac:(lia)) as O0. pose proof (piece_len _ _ _ P0 Hn0) as N0.
  assert (Htail : ∀ y, y ∈ ps → o + n0 <= 8 * Z.land (ip_off (p_ip y)) IP_OFFMASK).
  { intros y Hy. destruct (pieces_elem (o + n0) ps y) as (a & n & Pa & Ha & Hn' & Hb); [lia|done|done|].
    rewrite (piece_off _ _ _ Pa) by lia. lia. }
  apply elem_of_cons in Hq as [->|Hq], Hq' as [->|Hq'].
  - done.
  - apply Htail in Hq'. lia.
  - apply Htail in Hq. lia.
  - apply (IH Hq Hq' (o + n0)); [lia|done].
Qed.

(** The receiver, which has its own memory and knows other datagrams. *)
Context (D : key → dgram) (D_ok : ∀ k, 0 < d_len (D k) <= 32767).
Context (D_p : D (key_of (p_ip p)) = dgram_of s p).
Context (drain : mstate → mstate) (drain_ok : ∀ s, same_store s (drain s)) (junk : list Z) (junk_len : Z).

Lemma fragments_reassembled ps s' qs xs x :
  pieces s p mtu 0 ps → oracle s' = [] → queues_ok D s' qs → key_of (p_ip p) ∉ (qkey <$> qs) →
  Forall (λ y, ∃ q, q ∈ ps ∧ received_as s q s' y) (xs ++ [x]) →
  (∀ q, q ∈ ps → ∃ y, y ∈ xs ++ [x] ∧ received_as s q s' y) →
  (∃ q, q ∈ ps ∧ ∀ y, y ∈ xs → ¬ received_as s q s' y) →
  wp (receive_all drain junk junk_len qs (xs ++ [x])) s' (λ r s'', ∃ d,
    r.1 = replicate (length xs) None ++ [Some d] ∧
    drop (Z.to_nat (hdrlen (f_ip d))) (bytes s'' (f_m d)) = data_of s p ∧ f_len d = data_len p ∧
    agrees (f_ip d) (p_ip p) ∧ f_opts d = p_opts p ∧ ip_src (f_ip d) = ip_src (p_ip p) ∧ ip_dst (f_ip d) = ip_dst (p_ip p)).
Proof.
  intros Hps Horc Hqs Hk Hall Hin (q0 & Hq0 & Hno). set (k := key_of (p_ip p)) in *.
  assert (Harr : ∀ y q, q ∈ ps → received_as s q s' y → ∃ o n, piece s p mtu o n q ∧ 0 <= o ∧ 0 < n ∧ o + n <= data_len p ∧
    arriving (D k) s' y ∧ key_of (f_ip y) = k ∧ ∀ pos, in_frag y pos ↔ o <= pos < o + n).
  { intros y q Hq Hy. destruct (pieces_elem 0 ps q) as (o & n & Pq & H1 & H2 & H3); [done..|].
    exists o, n. destruct (piece_arrives o n q s' y H1 H2 H3 Pq Hy) as (A1 & A2 & A3 & A4).
    rewrite D_p. unfold in_frag. rewrite A2, A3. by split_and!. }
  assert (Hsrc : ∃ q, q ∈ ps ∧ received_as s q s' x) by (apply Forall_app in Hall as [_ Hall]; by apply Forall_cons in Hall as [Hall _]).
  eapply wp_mono; [apply (fragments_any_order D D_ok drain drain_ok junk junk_len k s' qs xs x); try done|].
  - eapply Forall_impl; [exact Hall|]. intros y (q & Hq & Hy). destruct (Harr y q Hq Hy) as (o & n & _ & _ & _ & _ & ? & ? & _). done.
  - destruct (Hin q0 Hq0) as (y0 & _ & Hy0). destruct (Harr y0 q0 Hq0 Hy0) as (o & n & P0 & O1 & O2 & O3 & _).
    intros Hc. specialize (Hc o). rewrite D_p in Hc. destruct (proj1 (Exists_exists _ _) (Hc ltac:(simpl; lia))) as (y & Hy & Hpos).
    assert (Hya : ∃ q, q ∈ ps ∧ received_as s q s' y).
    { rewrite Forall_forall in Hall. apply Hall. apply elem_of_app. by left. }
    destruct Hya as (q & Hq & Hyq). destruct (Harr y q Hq Hyq) as (o' & n' & Pq & Q1 & Q2 & Q3 & _ & _ & Hf). apply Hf in Hpos.
    apply (Hno y Hy). rewrite (pieces_overlap 0 ps q0 q o o n o' n'); done || lia.
  - intros pos Hpos. rewrite D_p in Hpos. simpl in Hpos.
    destruct (pieces_at 0 ps pos Hps) as (q & o & n & Hq & Pq & H1 & H2); [lia|].
    destruct (Hin q Hq) as (y & Hy & Hyq). apply Exists_exists. exists y. split; [done|].
    destruct (Harr y q Hq Hyq) as (o' & n' & Pq' & Q1 & Q2 & Q3 & _ & _ & Hf). apply Hf.
    assert (n' = n) as -> by (rewrite (piece_len _ _ _ Pq' Q2), (piece_len _ _ _ Pq ltac:(lia)); done).
    assert (o' = o) as -> by (rewrite <- (piece_off _ _ _ Pq' ltac:(lia)), <- (piece_off _ _ _ Pq ltac:(lia)); done). lia.
  - intros r s'' (d & Hr & Hd & _). exists d. destruct Hsrc as (q & Hq & Hx).
    destruct (Harr x q Hq Hx) as (o & n & Pq & _ & _ & _ & _ & Ek & _). unfold k, key_of in Ek. injection Ek as _ E2 E3 _.
    rewrite D_p in Hd. destruct Hd as [L1 L2 L3 L4 [L5 L6] L7 L8 L9 L10 L11]. simpl in *.
    split; [done|]. split; [|split_and!; congruence]. rewrite L11. rewrite slice_list; [|lia|pose proof (data_of_length); lia|rewrite data_of_length; lia].
    change (Z.to_nat 0) with 0%nat. rewrite drop_0. apply take_ge. pose proof data_of_length. lia.
Qed.


End Round.

(** The fragments of a datagram of forty bytes, in the reverse order and the first
    to come twice: the data at the end. *)
Example reverse_order :
  match sendit 16 id (replicate 108 0) 77 5 (λ _ _ _ _, 0) 1 ex_ifnet 0 20 ex_packet ex_state with
  | Ok ((sent, 0), s') =>
      match rev ((λ q, Frag (p_ip q) (p_opts q) (p_m q)) <$> sent) with
      | x :: xs =>
          match receive_all id (replicate 108 0) 77 [] (x :: x :: xs) s' with
          | Ok ((rs, qs), s'') => length sent = 3%nat ∧ qs = [] ∧
              (λ r, match r with Some d => drop 20 (bytes s'' (f_m d)) | None => [] end) <$> rs = [[]; []; []; seqZ 0 40]
          | _ => False
          end
      | [] => False
      end
  | _ => False
  end.
Proof. vm_compute. done. Qed.

End IpRound.
