(* ===== verification/IpInput.v ===== *)
(** * IP input (netinet/ip_input.c)

    [ipintr] on one packet: the checks of the header, the options, the destination,
    reassembly, and where the packet goes.  The options are read and written in the
    memory from the header to the end of its buffer, with the offsets the code uses,
    so that an access past the buffer is a result of the model. *)

From stdpp Require Import options.
From S2P Require Import Prelude Mbuf Cksum Ip TcpReass IpReass IpOutput.
Import Mbuf Ip IpReass IpOutput.

Module IpInput.

(** ** Constants *)

Definition ICMP_UNREACH : Z := 3.
Definition ICMP_UNREACH_HOST : Z := 1.
Definition ICMP_UNREACH_NEEDFRAG : Z := 4.
Definition ICMP_UNREACH_SRCFAIL : Z := 5.
Definition ICMP_SOURCEQUENCH : Z := 4.
Definition ICMP_REDIRECT : Z := 5.
Definition ICMP_REDIRECT_HOST : Z := 1.
Definition ICMP_TIMXCEED : Z := 11.
Definition ICMP_TIMXCEED_INTRANS : Z := 0.
Definition ICMP_PARAMPROB : Z := 12.
Definition IPOPT_TS_TSONLY : Z := 0.
Definition IPOPT_TS_TSANDADDR : Z := 1.
Definition IPOPT_TS_PRESPEC : Z := 3.
Definition RTF_DYNAMIC : Z := 0x10.
Definition RTF_MODIFIED : Z := 0x20.
Definition MAX_IPOPTLEN : Z := 40.

(** ** Memory *)

Definition byte_at (b : list Z) (i : Z) : option Z :=
  if i <? 0 then None else b !! Z.to_nat i.
Definition addr_at (b : list Z) (i : Z) : option Z :=
  l ← read_bytes b i 4; Some (be_val l).
Definition put_byte (b : list Z) (i v : Z) : option (list Z) := write_bytes b i [u8 v].
Definition put_addr (b : list Z) (i v : Z) : option (list Z) := write_bytes b i (be32 v).

(** The offsets of [ip_src] and [ip_dst]. *)
Definition OFF_SRC : Z := 12.
Definition OFF_DST : Z := 16.

(** [ip_nhops] and [ip_srcrt]: the destination of the route, and the option saved
    in [srcopt] and [route], of 3 + 40 bytes. *)
Record srcrt := SR { ip_nhops : Z; sr_dst : Z; sr_opt : list Z }.

(** [save_rte]; [sizeof(ip_srcrt) - (1 + sizeof(dst))] is 43. *)
Definition save_rte (b : list Z) (cp dst : Z) (r : srcrt) : option srcrt :=
  olen ← byte_at b (cp + IPOPT_OLEN);
  if 3 + MAX_IPOPTLEN <? olen then Some r
  else
    o ← read_bytes b cp olen;
    Some (SR (u32 (olen - IPOPT_OFFSET - 1) / 4) dst (o ++ drop (length o) (sr_opt r))).

Section In.
(** The interfaces: [ifa_ifwithaddr], [ifa_ifwithdstaddr], [ifa_ifwithnet],
    [ifaof_ifpforaddr] on the receiving interface, and [ip_rtaddr] find the address
    of an interface; [iptime] is the time of day. *)
Context (ifa_ifwithaddr ifa_ifwithdstaddr ifa_ifwithnet ifaof_ifpforaddr ip_rtaddr : Z → option Z).
Context (iptime : Z).

(** ** Options *)

(** What an option makes of the packet: the memory, the flag [forward] if it is set,
    the source route, or the error [(type, code)]. *)
Inductive optres := Next (b : list Z) (forward : option bool) (r : srcrt) | Bad (b : list Z) (type code : Z).

Definition source_route (b : list Z) (r : srcrt) (cp opt optlen : Z) : option optres :=
  off ← byte_at b (cp + IPOPT_OFFSET);
  if off <? IPOPT_MINOFF then Some (Bad b ICMP_PARAMPROB (cp + IPOPT_OFFSET))
  else
    dst ← addr_at b OFF_DST;
    match ifa_ifwithaddr dst with
    | None => Some (if opt =? IPOPT_SSRR then Bad b ICMP_UNREACH ICMP_UNREACH_SRCFAIL else Next b None r)
    | Some _ =>
        let off := off - 1 in
        if u32 (optlen - 4) <? off then
          src ← addr_at b OFF_SRC;
          r ← save_rte b cp src r;
          Some (Next b None r)
        else
          hop ← addr_at b (cp + off);
          match (if opt =? IPOPT_SSRR
                 then match ifa_ifwithdstaddr hop with Some a => Some a | None => ifa_ifwithnet hop end
                 else ip_rtaddr hop) with
          | None => Some (Bad b ICMP_UNREACH ICMP_UNREACH_SRCFAIL)
          | Some a =>
              b ← put_addr b OFF_DST hop;
              b ← put_addr b (cp + off) a;
              p ← byte_at b (cp + IPOPT_OFFSET);
              b ← put_byte b (cp + IPOPT_OFFSET) (p + 4);
              dst ← addr_at b OFF_DST;
              Some (Next b (Some (negb (IN_MULTICAST dst))) r)
          end
    end.

Definition record_route (b : list Z) (r : srcrt) (cp optlen : Z) : option optres :=
  off ← byte_at b (cp + IPOPT_OFFSET);
  if off <? IPOPT_MINOFF then Some (Bad b ICMP_PARAMPROB (cp + IPOPT_OFFSET))
  else
    let off := off - 1 in
    if u32 (optlen - 4) <? off then Some (Next b None r)
    else
      dst ← addr_at b OFF_DST;
      match (match ifa_ifwithaddr dst with Some a => Some a | None => ip_rtaddr dst end) with
      | None => Some (Bad b ICMP_UNREACH ICMP_UNREACH_HOST)
      | Some a =>
          b ← put_addr b (cp + off) a;
          p ← byte_at b (cp + IPOPT_OFFSET);
          b ← put_byte b (cp + IPOPT_OFFSET) (p + 4);
          Some (Next b None r)
      end.

(** [ntime] goes behind the pointer [ipt_ptr], which is advanced. *)
Definition stamp (b : list Z) (r : srcrt) (cp : Z) : option optres :=
  ptr ← byte_at b (cp + 2);
  b ← put_addr b (cp + ptr - 1) iptime;
  ptr ← byte_at b (cp + 2);
  b ← put_byte b (cp + 2) (ptr + 4);
  Some (Next b None r).

(** [ipt_oflw] and [ipt_flg] are the halves of the fourth byte; [dst] is [ip_dst] as
    it was before any option. *)
Definition timestamp (b : list Z) (r : srcrt) (dst cp : Z) : option optres :=
  len ← byte_at b (cp + 1);
  if len <? 5 then Some (Bad b ICMP_PARAMPROB cp)
  else
    ptr ← byte_at b (cp + 2);
    fl ← byte_at b (cp + 3);
    if len - 4 <? ptr then
      b ← put_byte b (cp + 3) (((fl / 16 + 1) mod 16) * 16 + fl mod 16);
      Some (if (fl / 16 + 1) mod 16 =? 0 then Bad b ICMP_PARAMPROB cp else Next b None r)
    else
      let sin := cp + ptr - 1 in
      let flg := fl mod 16 in
      if flg =? IPOPT_TS_TSONLY then stamp b r cp
      else if flg =? IPOPT_TS_TSANDADDR then
        if len <? ptr + 8 then Some (Bad b ICMP_PARAMPROB cp)
        else
          match ifaof_ifpforaddr dst with
          | None => Some (Next b None r)
          | Some a =>
              b ← put_addr b sin a;
              ptr ← byte_at b (cp + 2);
              b ← put_byte b (cp + 2) (ptr + 4);
              stamp b r cp
          end
      else if flg =? IPOPT_TS_PRESPEC then
        if len <? ptr + 8 then Some (Bad b ICMP_PARAMPROB cp)
        else
          hop ← addr_at b sin;
          match ifa_ifwithaddr hop with
          | None => Some (Next b None r)
          | Some _ =>
              b ← put_byte b (cp + 2) (ptr + 4);
              stamp b r cp
          end
      else Some (Bad b ICMP_PARAMPROB cp).

(** One option, of [optlen] bytes, at [cp]. *)
Definition do_option (b : list Z) (r : srcrt) (dst cp opt optlen : Z) : option optres :=
  if (opt =? IPOPT_LSRR) || (opt =? IPOPT_SSRR) then source_route b r cp opt optlen
  else if opt =? IPOPT_RR then record_route b r cp optlen
  else if opt =? IPOPT_TS then timestamp b r dst cp
  else Some (Next b None r).

(** The results of [ip_dooptions]: go on, forward the packet, an ICMP error, or an
    access outside the buffer; [Spin] is fuel that was not enough. *)
Inductive dooptions := Go (b : list Z) (r : srcrt) | Fwd (b : list Z) (r : srcrt) | Err (b : list Z) (type code : Z) | Wild | Spin.

Fixpoint options_loop (fuel : nat) (b : list Z) (r : srcrt) (dst : Z) (forward : bool) (cp cnt : Z) : dooptions :=
  if 0 <? cnt then
    match fuel with
    | O => Spin
    | S fuel =>
        match byte_at b (cp + IPOPT_OPTVAL) with
        | None => Wild
        | Some opt =>
            if opt =? IPOPT_EOL then (if forward then Fwd b r else Go b r)
            else
              match (if opt =? IPOPT_NOP then Some (inl 1)
                     else match byte_at b (cp + IPOPT_OLEN) with
                          | None => None
                          | Some optlen => Some (if (optlen <=? 0) || (cnt <? optlen) then inr (cp + IPOPT_OLEN) else inl optlen)
                          end) with
              | None => Wild
              | Some (inr code) => Err b ICMP_PARAMPROB code
              | Some (inl optlen) =>
                  match do_option b r dst cp opt optlen with
                  | None => Wild
                  | Some (Bad b type code) => Err b type code
                  | Some (Next b f r) => options_loop fuel b r dst (default forward f) (cp + optlen) (cnt - optlen)
                  end
              end
        end
    end
  else if forward then Fwd b r else Go b r.

(** [ip_dooptions] on the memory [b] from the header on, of [hlen] bytes. *)
Definition ip_dooptions (b : list Z) (r : srcrt) (hlen : Z) : dooptions :=
  match addr_at b OFF_DST with
  | None => Wild
  | Some dst => options_loop (Z.to_nat (hlen - sizeof_ip)) b r dst false sizeof_ip (hlen - sizeof_ip)
  end.

(** ** [ipintr] *)

Context (max_protohdr : Z) (drain : mstate → mstate) (junk : list Z) (junk_len sum_junk : Z).
Context (in_ifaddrs : list in_ifaddr) (ipforwarding : bool).

(** [mtod(m, struct ip * )]. *)
Definition mtod_ip (m : list mbuf) : M mstate ip :=
  match m with
  | [] => crash
  | m :: _ => let! b := m_read m 0 20 in lift (ip_of_bytes b)
  end.

(** [m->m_len], and a pull-up when the first mbuf holds less than [n] bytes. *)
Definition first_len (m : list mbuf) : Z := match m with m :: _ => m_len m | [] => 0 end.
Definition pullup_to (n : Z) (m : list mbuf) : M mstate (option (list mbuf)) :=
  if first_len m <? n then m_pullup max_protohdr drain junk junk_len m n else ret (Some m).

(** The label [bad]. *)
Definition drop_packet {A} (m : list mbuf) : M mstate (option A) := do! m_freem m in ret None.

(** Trim the packet to [ip_len] bytes. *)
Definition trim_to (n : Z) (m : list mbuf) : M mstate (list mbuf) :=
  match m with
  | [] => crash
  | m0 :: rest =>
      if n <? pkthdr_len m0 then
        if m_len m0 =? pkthdr_len m0 then ret (set_pktlen (set_len m0 n) n :: rest)
        else lift (m_adj m (n - pkthdr_len m0))
      else ret m
  end.

(** The checks of the header: the packet and its header, in host order. *)
Definition check_header (m : list mbuf) : M mstate (option (list mbuf * ip)) :=
  if (match in_ifaddrs with [] => true | _ => false end) then drop_packet m
  else
    let! m := pullup_to sizeof_ip m in
    match m with
    | None => ret None
    | Some m =>
        let! h := mtod_ip m in
        if negb (ip_v h =? IPVERSION) then drop_packet m
        else
        let hlen := hdrlen h in
        if hlen <? sizeof_ip then drop_packet m
        else
          let! m := pullup_to hlen m in
          match m with
          | None => ret None
          | Some m =>
              let! h := mtod_ip m in
              let! s := get in
              let! '(sum, _) := lift (Cksum.in_cksum true sum_junk (Cksum.segments s m) hlen) in
              if negb (sum =? 0) then drop_packet m
              else if ip_len h <? hlen then drop_packet m
              else
                match m with
                | [] => crash
                | m0 :: _ =>
                    if pkthdr_len m0 <? ip_len h then drop_packet m
                    else let! m := trim_to (ip_len h) m in ret (Some (m, set_sum h 0))
                end
          end
    end.

(** What becomes of a packet: nothing more, the input routine of its protocol,
    [ip_forward] (with [srcrt]), or [icmp_error]. *)
Inductive verdict :=
  | Gone
  | Deliver (x : ipasfrag) (hlen : Z)
  | Forward (x : ipasfrag) (srcrt : bool)
  | Icmp (x : ipasfrag) (type code : Z).

(** The options: the packet with the header and options as they are then. *)
Definition options_stage (m : list mbuf) (h : ip) (r : srcrt) : M mstate (ipasfrag * srcrt + verdict * srcrt) :=
  match m with
  | [] => crash
  | m0 :: rest =>
      let hlen := hdrlen h in
      if sizeof_ip <? hlen then
        let! s := get in
        let! buf := lift (buffer s m0) in
        (* the header with the sum that the check has stored *)
        let! mem := lift (write_bytes (drop (Z.to_nat (m_data m0)) buf) 10 [0; 0]) in
        let back b : M mstate ipasfrag :=
          let! m0 := m_write m0 0 b in
          let! h' := lift (ip_of_bytes (take 20 b)) in
          ret (Frag h' (take (Z.to_nat (hlen - sizeof_ip)) (drop 20 b)) (m0 :: rest)) in
        match ip_dooptions mem r hlen with
        | Go b r => let! x := back b in ret (inl (x, r))
        | Fwd b r => let! x := back b in ret (inr (Forward x true, r))
        | Err b t c =>
            let! x := back b in
            ret (inr (Icmp (Frag (set_iplen (f_ip x) (ip_len (f_ip x) - hlen)) (f_opts x) (f_m x)) t c, r))
        | Wild | Spin => crash
        end
      else ret (inl (Frag h [] m, r))
  end.

(** The search through the addresses for the destination. *)
Definition for_us (dst : Z) : bool :=
  existsb (λ ia, (ia_addr ia =? dst) ||
    (if_has (ia_ifp ia) IFF_BROADCAST &&
     ((ia_dstaddr ia =? dst) || (dst =? ia_netbroadcast ia) || (dst =? ia_subnet ia) || (dst =? ia_net ia)))) in_ifaddrs.

(** Whether the packet goes to the label [ours]; [rcvif] is the receiving interface. *)
Definition ours (dst rcvif : Z) : bool :=
  for_us dst ||
  (if IN_MULTICAST dst then IN_LOOKUP_MULTI in_ifaddrs dst (IFN rcvif 0 0)
   else (dst =? INADDR_BROADCAST) || (dst =? INADDR_ANY)).

(** From the label [ours] on: the packet to deliver, and the queues. *)
Definition deliver (hlen : Z) (qs : list ipq) (x : ipasfrag) : M mstate (verdict * list ipq) :=
  if ztrue (Z.land (ip_off (f_ip x)) (Z.lnot IP_DF)) then
    let! m := (match f_m x with
               | m0 :: _ => if has m0 M_EXT then m_pullup max_protohdr drain junk junk_len (f_m x) sizeof_ip
                            else ret (Some (f_m x))
               | [] => crash
               end) in
    match m with
    | None => ret (Gone, qs)
    | Some m =>
        let! '(r, qs) := reassemble drain junk junk_len hlen qs (Frag (f_ip x) (f_opts x) m) in
        ret (match r with Some p => Deliver p hlen | None => Gone end, qs)
    end
  else ret (Deliver (Frag (set_iplen (f_ip x) (ip_len (f_ip x) - hlen)) (f_opts x) (f_m x)) hlen, qs).

(** One packet through [ipintr]. *)
Definition ip_input (qs : list ipq) (r : srcrt) (m : list mbuf) : M mstate (verdict * list ipq * srcrt) :=
  let! c := check_header m in
  match c with
  | None => ret (Gone, qs, r)
  | Some (m, h) =>
      let r := SR 0 (sr_dst r) (sr_opt r) in
      let! o := options_stage m h r in
      match o with
      | inr (v, r) => ret (v, qs, r)
      | inl (x, r) =>
          let dst := ip_dst (f_ip x) in
          let rcv := match f_m x with m0 :: _ => rcvif m0 | [] => 0 end in
          if ours dst rcv then
            let! '(v, qs) := deliver (hdrlen h) qs x in ret (v, qs, r)
          else if IN_MULTICAST dst || negb ipforwarding then do! m_freem (f_m x) in ret (Gone, qs, r)
          else ret (Forward x false, qs, r)
      end
  end.

(** [ipintr]: the packets of [ipintrq] one after the other. *)
Fixpoint ipintr (qs : list ipq) (r : srcrt) (ipintrq : list (list mbuf)) : M mstate (list verdict * list ipq * srcrt) :=
  match ipintrq with
  | [] => ret ([], qs, r)
  | m :: ms =>
      let! '(v, qs, r) := ip_input qs r m in
      let! '(vs, qs, r) := ipintr qs r ms in
      ret (v :: vs, qs, r)
  end.

End In.
(** ** Accesses *)

(** [b'] is [b] with other bytes at most at the positions of [P]. *)
Definition touches (P : Z → Prop) (b b' : list Z) : Prop :=
  length b' = length b ∧ ∀ i, ¬ P i → byte_at b' i = byte_at b i.

Lemma touches_refl P b : touches P b b.
Proof. done. Qed.

Lemma touches_trans P b1 b2 b3 : touches P b1 b2 → touches P b2 b3 → touches P b1 b3.
Proof. intros [H1 H2] [H3 H4]. split; [congruence|]. intros i Hi. by rewrite H4, H2. Qed.

Lemma touches_mono (P Q : Z → Prop) b b' : (∀ i, P i → Q i) → touches P b b' → touches Q b b'.
Proof. intros H [H1 H2]. split; [done|]. intros i Hi. apply H2. auto. Qed.

Lemma write_touches b off bs :
  0 <= off → off + Z.of_nat (length bs) <= Z.of_nat (length b) →
  ∃ b', write_bytes b off bs = Some b' ∧ touches (λ i, off <= i < off + Z.of_nat (length bs)) b b'.
Proof.
  intros H1 H2. rewrite write_bytes_Some by lia. eexists. split; [done|]. split.
  - rewrite !length_app, length_take, length_drop. lia.
  - intros i Hi. unfold byte_at. destruct (Z.ltb_spec i 0); [done|].
    destruct (decide (i < off)).
    + rewrite lookup_app_l by (rewrite length_take; lia). by rewrite lookup_take_lt by lia.
    + rewrite lookup_app_r, lookup_app_r by (rewrite ?length_take; lia). rewrite lookup_drop, !length_take. f_equal. lia.
Qed.

Lemma put_byte_touches b i v : 0 <= i < Z.of_nat (length b) → ∃ b', put_byte b i v = Some b' ∧ touches (λ j, i <= j < i + 1) b b'.
Proof. intros H. apply (write_touches b i [u8 v]); simpl; lia. Qed.

Lemma put_addr_touches b i v : 0 <= i → i + 4 <= Z.of_nat (length b) → ∃ b', put_addr b i v = Some b' ∧ touches (λ j, i <= j < i + 4) b b'.
Proof. intros H1 H2. apply (write_touches b i (be32 v)); simpl; lia. Qed.

Lemma byte_at_Some b i : 0 <= i < Z.of_nat (length b) → ∃ x, byte_at b i = Some x.
Proof. intros H. unfold byte_at. rewrite (proj2 (Z.ltb_ge i 0)) by lia. apply lookup_lt_is_Some_2. lia. Qed.

Lemma addr_at_Some b i : 0 <= i → i + 4 <= Z.of_nat (length b) → ∃ x, addr_at b i = Some x.
Proof. intros H1 H2. unfold addr_at. rewrite read_bytes_Some by lia. by eexists. Qed.

(** What is written is read, also after a write at a lower address. *)
Lemma addr_at_put b i v : 0 <= i → i + 4 <= Z.of_nat (length b) → ∀ b', put_addr b i v = Some b' → addr_at b' i = Some (u32 v).
Proof.
  intros H1 H2 b'. unfold put_addr. rewrite write_bytes_Some by (simpl; lia). intros [= <-]. unfold addr_at.
  rewrite read_bytes_Some by (rewrite ?length_app, ?length_take, ?length_drop; simpl; lia). cbn [mbind option_bind].
  rewrite drop_app_ge by (rewrite length_take; lia). rewrite length_take. replace (_ - _)%nat with 0%nat by lia.
  transitivity (Some (be_val (be32 v))); [done|by rewrite be32_val].
Qed.

Lemma addr_at_below b b' i k bs : write_bytes b k bs = Some b' → 0 <= k → k + Z.of_nat (length bs) <= i → addr_at b' i = addr_at b i.
Proof.
  intros Hw H1 H2. pose proof (write_bytes_length _ _ _ _ Hw) as Hl. unfold write_bytes in Hw.
  destruct (_ && _) eqn:E; [|done]. injection Hw as Hw. apply andb_prop in E as []. zbool.
  unfold addr_at, read_bytes. rewrite Hl. destruct (_ && _); [|done]. cbn [mbind option_bind]. do 2 f_equal.
  rewrite <-Hw. rewrite drop_app_ge by (rewrite length_take; lia). rewrite length_take.
  rewrite drop_app_ge by lia. rewrite drop_drop. do 2 f_equal. lia.
Qed.

(** An option of at least the size its handler takes for granted: a route has room
    for an address, and a time stamp points behind its header. *)
Definition option_ok (b : list Z) (cp opt optlen : Z) : bool :=
  (if (opt =? IPOPT_LSRR) || (opt =? IPOPT_SSRR) || (opt =? IPOPT_RR) then 4 <=? optlen else true) &&
  (if (opt =? IPOPT_TS) && (5 <=? optlen) then match byte_at b (cp + IPOPT_OFFSET) with Some ptr => 5 <=? ptr | None => false end
   else true).

Lemma option_ok_spec b cp opt optlen :
  option_ok b cp opt optlen = true →
  (opt = IPOPT_LSRR ∨ opt = IPOPT_SSRR ∨ opt = IPOPT_RR → 4 <= optlen) ∧
  (opt = IPOPT_TS → 5 <= optlen → ∃ ptr, byte_at b (cp + 2) = Some ptr ∧ 5 <= ptr).
Proof.
  unfold option_ok, IPOPT_OFFSET. intros [H1 H2]%andb_prop. split.
  - intros [->|[->| ->]]; simpl in H1; lia.
  - intros -> H5. rewrite (proj2 (Z.leb_le 5 optlen)) in H2 by done. simpl in H2.
    destruct (byte_at b (cp + 2)) as [ptr|]; [|done]. exists ptr. split; [done|lia].
Qed.

Definition opt_mem (o : optres) : list Z := match o with Next b _ _ => b | Bad b _ _ => b end.

(** The bytes an option may change: [ip_dst] and its own. *)
Definition own (cp optlen : Z) (i : Z) : Prop := 16 <= i < 20 ∨ cp <= i < cp + optlen.

(** Every option up to the end of the list, or to the first one whose length is
    refused, is of such a size, and the byte of its length is in the buffer: no option
    but an end or a [NOP] begins with the last byte of the buffer. *)
Fixpoint wf_options (fuel : nat) (b : list Z) (cp cnt : Z) : bool :=
  match fuel with
  | O => true
  | S fuel =>
      if cnt <=? 0 then true
      else
        match byte_at b cp with
        | None => false
        | Some opt =>
            if opt =? IPOPT_EOL then true
            else
              match (if opt =? IPOPT_NOP then Some 1 else byte_at b (cp + IPOPT_OLEN)) with
              | None => false
              | Some optlen =>
                  if (optlen <=? 0) || (cnt <? optlen) then true
                  else option_ok b cp opt optlen && wf_options fuel b (cp + optlen) (cnt - optlen)
              end
        end
  end.

(** The options were processed, without an access outside of the memory, and left [b]. *)
Definition settled (b : list Z) (o : dooptions) : Prop :=
  match o with Go b' _ | Fwd b' _ | Err b' _ _ => b' = b | Wild | Spin => False end.

Section Safe.
Context (ifa_ifwithaddr ifa_ifwithdstaddr ifa_ifwithnet ifaof_ifpforaddr ip_rtaddr : Z → option Z) (iptime : Z).

#[local] Abbreviation one_option := (do_option ifa_ifwithaddr ifa_ifwithdstaddr ifa_ifwithnet ifaof_ifpforaddr ip_rtaddr iptime) (only parsing).
#[local] Abbreviation loop := (options_loop ifa_ifwithaddr ifa_ifwithdstaddr ifa_ifwithnet ifaof_ifpforaddr ip_rtaddr iptime) (only parsing).

(** [run E] performs the access that [E] says succeeds. *)
Ltac run E := rewrite E; cbn [mbind option_bind].

Lemma source_route_ok b r cp opt optlen :
  20 <= cp → 4 <= optlen <= 40 → cp + optlen <= Z.of_nat (length b) → byte_at b (cp + IPOPT_OLEN) = Some optlen →
  ∃ o, source_route ifa_ifwithaddr ifa_ifwithdstaddr ifa_ifwithnet ip_rtaddr b r cp opt optlen = Some o ∧ touches (own cp optlen) b (opt_mem o).
Proof.
  intros Hcp Hl Hb Elen. unfold source_route, IPOPT_OFFSET, IPOPT_OLEN, OFF_DST, OFF_SRC, IPOPT_MINOFF in *.
  destruct (byte_at_Some b (cp + 2)) as [off Eoff]; [lia|]. run Eoff.
  destruct (Z.ltb_spec off 4); [eexists; split; [done|apply touches_refl]|].
  destruct (addr_at_Some b 16) as [dst Edst]; [lia..|]. run Edst.
  destruct (ifa_ifwithaddr dst); [|eexists; split; [done|]; destruct (opt =? IPOPT_SSRR); apply touches_refl].
  rewrite u32_id by (unfold is_u32; lia). destruct (Z.ltb_spec (optlen - 4) (off - 1)).
  - destruct (addr_at_Some b 12) as [src Esrc]; [lia..|]. run Esrc. unfold save_rte, IPOPT_OLEN, MAX_IPOPTLEN. run Elen. destruct (Z.ltb_spec (3 + 40) optlen); [lia|]. rewrite read_bytes_Some by lia. cbn [mbind option_bind].
    eexists. split; [done|apply touches_refl].
  - destruct (addr_at_Some b (cp + (off - 1))) as [hop Ehop]; [lia..|]. run Ehop.
    destruct (if opt =? IPOPT_SSRR then _ else _) as [a|]; [|eexists; split; [done|apply touches_refl]].
    destruct (put_addr_touches b 16 hop) as (b1 & E1 & [L1 T1]); [lia..|]. run E1.
    destruct (put_addr_touches b1 (cp + (off - 1)) a) as (b2 & E2 & [L2 T2]); [lia..|]. run E2.
    destruct (byte_at_Some b2 (cp + 2)) as [p Ep]; [lia|]. run Ep.
    destruct (put_byte_touches b2 (cp + 2) (p + 4)) as (b3 & E3 & [L3 T3]); [lia|]. run E3.
    destruct (addr_at_Some b3 16) as [d Ed]; [lia..|]. run Ed. eexists. split; [done|].
    split; [simpl; congruence|]. intros i Hi. unfold own in Hi. simpl. rewrite T3, T2, T1 by lia. done.
Qed.
Lemma record_route_ok b r cp optlen :
  20 <= cp → 4 <= optlen <= 40 → cp + optlen <= Z.of_nat (length b) →
  ∃ o, record_route ifa_ifwithaddr ip_rtaddr b r cp optlen = Some o ∧ touches (own cp optlen) b (opt_mem o).
Proof.
  intros Hcp Hl Hb. unfold record_route, IPOPT_OFFSET, OFF_DST, IPOPT_MINOFF in *.
  destruct (byte_at_Some b (cp + 2)) as [off Eoff]; [lia|]. run Eoff.
  destruct (Z.ltb_spec off 4); [eexists; split; [done|apply touches_refl]|].
  rewrite u32_id by (unfold is_u32; lia). destruct (Z.ltb_spec (optlen - 4) (off - 1)); [eexists; split; [done|apply touches_refl]|].
  destruct (addr_at_Some b 16) as [dst Edst]; [lia..|]. run Edst.
  destruct (match ifa_ifwithaddr dst with Some _ => _ | None => _ end) as [a|]; [|eexists; split; [done|apply touches_refl]].
  destruct (put_addr_touches b (cp + (off - 1)) a) as (b1 & E1 & [L1 T1]); [lia..|]. run E1.
  destruct (byte_at_Some b1 (cp + 2)) as [p Ep]; [lia|]. run Ep.
  destruct (put_byte_touches b1 (cp + 2) (p + 4)) as (b2 & E2 & [L2 T2]); [lia|]. run E2. eexists. split; [done|].
  split; [simpl; congruence|]. intros i Hi. unfold own in Hi. simpl. rewrite T2, T1 by lia. done.
Qed.

Lemma stamp_ok b r cp optlen ptr :
  20 <= cp → cp + optlen <= Z.of_nat (length b) → byte_at b (cp + 2) = Some ptr → 5 <= ptr → ptr + 3 <= optlen →
  ∃ o, stamp iptime b r cp = Some o ∧ touches (own cp optlen) b (opt_mem o).
Proof.
  intros Hcp Hb Ep H5 Hl. unfold stamp. run Ep.
  destruct (put_addr_touches b (cp + ptr - 1) iptime) as (b1 & E1 & [L1 T1]); [lia..|]. run E1.
  destruct (byte_at_Some b1 (cp + 2)) as [p Ep1]; [lia|]. run Ep1.
  destruct (put_byte_touches b1 (cp + 2) (p + 4)) as (b2 & E2 & [L2 T2]); [lia|]. run E2. eexists. split; [done|].
  split; [simpl; congruence|]. intros i Hi. unfold own in Hi. simpl. rewrite T2, T1 by lia. done.
Qed.

(** The pointer moves behind an address, and the time goes there. *)
Lemma next_stamp b b1 r cp optlen ptr :
  20 <= cp → length b1 = length b → cp + optlen <= Z.of_nat (length b) → 5 <= ptr → ptr + 8 <= optlen <= 40 →
  (∀ i, ¬ own cp optlen i → byte_at b1 i = byte_at b i) →
  ∃ o, (b2 ← put_byte b1 (cp + 2) (ptr + 4); stamp iptime b2 r cp) = Some o ∧ touches (own cp optlen) b (opt_mem o).
Proof.
  intros Hcp L1 Hb H5 Hl T1. destruct (write_touches b1 (cp + 2) [u8 (ptr + 4)]) as (b2 & E2 & [L2 T2]); [lia|simpl; lia|].
  unfold put_byte. run E2. destruct (stamp_ok b2 r cp optlen (ptr + 4)) as (o & Eo & [L3 T3]); [done|lia| |lia|lia|].
  - rewrite write_bytes_Some in E2 by (simpl; lia). injection E2 as <-. unfold byte_at. rewrite (proj2 (Z.ltb_ge _ 0)) by lia.
    rewrite lookup_app_r by (rewrite length_take; lia). rewrite length_take. replace (_ - _)%nat with 0%nat by lia. simpl.
    rewrite u8_id by (unfold is_u8; lia). done.
  - exists o. split; [done|]. split; [congruence|]. intros i Hi. rewrite T3, T2, T1; try done. unfold own in Hi. simpl. lia.
Qed.

Lemma timestamp_ok b r dst cp optlen :
  20 <= cp → optlen <= 40 → cp + optlen <= Z.of_nat (length b) → byte_at b (cp + 1) = Some optlen →
  (5 <= optlen → ∃ ptr, byte_at b (cp + 2) = Some ptr ∧ 5 <= ptr) →
  ∃ o, timestamp ifa_ifwithaddr ifaof_ifpforaddr iptime b r dst cp = Some o ∧ touches (own cp optlen) b (opt_mem o).
Proof.
  intros Hcp Hl Hb Elen Hptr. unfold timestamp. run Elen.
  destruct (Z.ltb_spec optlen 5); [eexists; split; [done|apply touches_refl]|].
  destruct (Hptr ltac:(lia)) as (ptr & Eptr & H5). run Eptr. destruct (byte_at_Some b (cp + 3)) as [fl Efl]; [lia|]. run Efl.
  destruct (Z.ltb_spec (optlen - 4) ptr).
  { destruct (put_byte_touches b (cp + 3) ((fl / 16 + 1) mod 16 * 16 + fl mod 16)) as (b1 & E1 & T1); [lia|]. run E1.
    eexists. split; [done|]. eapply touches_mono; [|destruct ((fl / 16 + 1) mod 16 =? 0); exact T1]. cbn beta; intros i Hi; right; lia. }
  assert (Hself : ∃ o, Some (Bad b ICMP_PARAMPROB cp) = Some o ∧ touches (own cp optlen) b (opt_mem o)) by (eexists; split; [done|apply touches_refl]).
  destruct (fl mod 16 =? IPOPT_TS_TSONLY); [apply (stamp_ok b r cp optlen ptr); done || lia|].
  destruct (fl mod 16 =? IPOPT_TS_TSANDADDR); [|destruct (fl mod 16 =? IPOPT_TS_PRESPEC); [|done]].
  - destruct (Z.ltb_spec optlen (ptr + 8)); [done|].
    destruct (ifaof_ifpforaddr dst) as [a|]; [|eexists; split; [done|apply touches_refl]].
    destruct (put_addr_touches b (cp + ptr - 1) a) as (b1 & E1 & [L1 T1]); [lia..|]. run E1.
    assert (Ep1 : byte_at b1 (cp + 2) = Some ptr) by (rewrite T1 by lia; done). run Ep1. apply next_stamp; try done; try lia.
    intros i Hi. rewrite T1; [done|]. unfold own in Hi. lia.
  - destruct (Z.ltb_spec optlen (ptr + 8)); [done|].
    destruct (addr_at_Some b (cp + ptr - 1)) as [hop Ehop]; [lia..|]. run Ehop.
    destruct (ifa_ifwithaddr hop); [|eexists; split; [done|apply touches_refl]]. by apply next_stamp; try done; try lia.
Qed.

Lemma do_option_ok b r dst cp opt optlen :
  20 <= cp → 0 < optlen <= 40 → cp + optlen <= Z.of_nat (length b) →
  (opt ≠ IPOPT_NOP → byte_at b (cp + 1) = Some optlen) → option_ok b cp opt optlen = true →
  ∃ o, do_option ifa_ifwithaddr ifa_ifwithdstaddr ifa_ifwithnet ifaof_ifpforaddr ip_rtaddr iptime b r dst cp opt optlen = Some o ∧
    touches (own cp optlen) b (opt_mem o).
Proof.
  intros Hcp Hl Hb Hlen [Hr Ht]%option_ok_spec. unfold do_option.
  destruct (Z.eqb_spec opt IPOPT_LSRR) as [->|H1]; [|destruct (Z.eqb_spec opt IPOPT_SSRR) as [->|H2]]; cbn [orb].
  - apply source_route_ok; try done; [split; [by apply Hr; left|lia]|apply Hlen; done].
  - apply source_route_ok; try done; [split; [by apply Hr; right; left|lia]|apply Hlen; done].
  - destruct (Z.eqb_spec opt IPOPT_RR) as [->|H3].
    { apply record_route_ok; try done. split; [by apply Hr; right; right|lia]. }
    destruct (Z.eqb_spec opt IPOPT_TS) as [->|H4]; [|eexists; split; [done|apply touches_refl]].
    apply timestamp_ok; try done; [lia|apply Hlen; done|by apply Ht].
Qed.

(** *** The loop *)

(** What the loop makes of the byte of the length: an error, or the length. *)
Lemma loop_step fuel b r dst forward cp cnt opt :
  0 < cnt → byte_at b cp = Some opt → opt ≠ IPOPT_EOL →
  loop (S fuel) b r dst forward cp cnt =
    match (if opt =? IPOPT_NOP then Some 1 else byte_at b (cp + IPOPT_OLEN)) with
    | None => Wild
    | Some optlen =>
        if (optlen <=? 0) || (cnt <? optlen) then Err b ICMP_PARAMPROB (cp + IPOPT_OLEN)
        else
          match one_option b r dst cp opt optlen with
          | None => Wild
          | Some (Bad b type code) => Err b type code
          | Some (Next b f r) => loop fuel b r dst (default forward f) (cp + optlen) (cnt - optlen)
          end
    end.
Proof.
  intros Hc Eo He. cbn [options_loop]. rewrite (proj2 (Z.ltb_lt 0 cnt)) by done.
  replace (cp + IPOPT_OPTVAL) with cp by (unfold IPOPT_OPTVAL; lia). rewrite Eo. rewrite (proj2 (Z.eqb_neq opt IPOPT_EOL)) by done.
  destruct (opt =? IPOPT_NOP).
  - replace ((1 <=? 0) || (cnt <? 1)) with false by (symmetry; apply orb_false_intro; lia). done.
  - destruct (byte_at b (cp + IPOPT_OLEN)) as [optlen|]; [|done]. by destruct ((optlen <=? 0) || (cnt <? optlen)).
Qed.

(** One unit of fuel for each byte is enough. *)
Lemma loop_ends fuel : ∀ b r dst forward cp cnt, cnt <= Z.of_nat fuel → loop fuel b r dst forward cp cnt ≠ Spin.
Proof.
  induction fuel as [|fuel IH]; intros b r dst forward cp cnt Hf.
  - simpl. rewrite (proj2 (Z.ltb_ge 0 cnt)) by lia. by destruct forward.
  - destruct (Z.ltb_spec 0 cnt); [|simpl; rewrite (proj2 (Z.ltb_ge 0 cnt)) by lia; by destruct forward].
    destruct (byte_at b cp) as [opt|] eqn:Eo.
    + destruct (decide (opt = IPOPT_EOL)) as [->|He].
      * simpl. rewrite (proj2 (Z.ltb_lt 0 cnt)) by done. unfold IPOPT_OPTVAL. rewrite Z.add_0_r, Eo. by destruct forward.
      * rewrite (loop_step _ _ _ _ _ _ _ opt) by done. destruct (if opt =? IPOPT_NOP then _ else _) as [optlen|]; [|done].
        destruct ((optlen <=? 0) || (cnt <? optlen)) eqn:El; [done|]. apply orb_false_elim in El as [].
        destruct (one_option b r dst cp opt optlen) as [[b' f r'|]|]; [|done..]. apply IH. lia.
    + simpl. rewrite (proj2 (Z.ltb_lt 0 cnt)) by done. unfold IPOPT_OPTVAL. by rewrite Z.add_0_r, Eo.
Qed.

(** *** Safety *)

Lemma wf_options_ext fuel : ∀ b b' cp cnt,
  (∀ i, cp <= i → byte_at b' i = byte_at b i) → wf_options fuel b' cp cnt = wf_options fuel b cp cnt.
Proof.
  induction fuel as [|fuel IH]; intros b b' cp cnt E; [done|]. cbn [wf_options]. rewrite E by lia.
  destruct (cnt <=? 0); [done|]. destruct (byte_at b cp) as [opt|]; [|done]. destruct (opt =? IPOPT_EOL); [done|].
  unfold option_ok, IPOPT_OLEN, IPOPT_OFFSET. rewrite !E by lia. destruct (if opt =? IPOPT_NOP then _ else _) as [optlen|]; [|done].
  destruct ((optlen <=? 0) || (cnt <? optlen)) eqn:El; [done|]. apply orb_false_elim in El as [].
  f_equal. apply IH. intros i Hi. apply E. lia.
Qed.

(** The bytes the options may change: [ip_dst], and the options up to [e]. *)
Definition area (cp e : Z) (i : Z) : Prop := 16 <= i < 20 ∨ cp <= i < e.

Lemma loop_safe fuel : ∀ b r dst forward cp cnt,
  cnt <= Z.of_nat fuel → 20 <= cp → cnt <= 40 → cp + cnt <= Z.of_nat (length b) → wf_options fuel b cp cnt = true →
  ∃ b', settled b' (loop fuel b r dst forward cp cnt) ∧ touches (area cp (cp + cnt)) b b'.
Proof.
  induction fuel as [|fuel IH]; intros b r dst forward cp cnt Hf Hcp Hc Hb Hw.
  { exists b. split; [|apply touches_refl]. simpl. rewrite (proj2 (Z.ltb_ge 0 cnt)) by lia. by destruct forward. }
  destruct (Z.ltb_spec 0 cnt) as [H0|H0].
  2:{ exists b. split; [|apply touches_refl]. simpl. rewrite (proj2 (Z.ltb_ge 0 cnt)) by lia. by destruct forward. }
  destruct (byte_at_Some b cp) as [opt Eo]; [lia|]. destruct (decide (opt = IPOPT_EOL)) as [->|He].
  { exists b. split; [|apply touches_refl]. simpl. rewrite (proj2 (Z.ltb_lt 0 cnt)) by done. unfold IPOPT_OPTVAL.
    rewrite Z.add_0_r, Eo. by destruct forward. }
  rewrite (loop_step _ _ _ _ _ _ _ opt) by done.
  destruct (if opt =? IPOPT_NOP then Some 1 else byte_at b (cp + IPOPT_OLEN)) as [optlen|] eqn:El.
  2:{ cbn [wf_options] in Hw. by rewrite (proj2 (Z.leb_gt cnt 0)), Eo, (proj2 (Z.eqb_neq opt IPOPT_EOL)), El in Hw by done. }
  destruct ((optlen <=? 0) || (cnt <? optlen)) eqn:Ebad; [exists b; split; [done|apply touches_refl]|].
  apply orb_false_elim in Ebad as []. assert (Hl : 0 < optlen <= cnt) by lia.
  cbn [wf_options] in Hw. rewrite (proj2 (Z.leb_gt cnt 0)), Eo, (proj2 (Z.eqb_neq opt IPOPT_EOL)), El in Hw by done.
  replace ((optlen <=? 0) || (cnt <? optlen)) with false in Hw by (symmetry; apply orb_false_intro; lia).
  apply andb_prop in Hw as [Hok Hrest].
  destruct (do_option_ok b r dst cp opt optlen) as (o & -> & T); [done|lia|lia| |done|].
  { intros Hn. rewrite (proj2 (Z.eqb_neq _ _) Hn) in El. done. }
  destruct o as [b1 f r1|b1 t c]; simpl in T.
  - destruct (IH b1 r1 dst (default forward f) (cp + optlen) (cnt - optlen)) as (b' & Hs & T'); [lia..|destruct T; lia| |].
    { rewrite <-Hrest. apply wf_options_ext. intros i Hi. destruct T as [_ T]. apply T. unfold own. lia. }
    exists b'. split; [done|]. eapply touches_trans; eapply touches_mono; [|exact T| |exact T']; intros i; unfold own, area; lia.
  - exists b1. split; [done|]. eapply touches_mono; [|exact T]. intros i. unfold own, area. lia.
Qed.
End Safe.

(** ** The checks of the header *)

(** The datagrams that are accepted: at least a header, of version 4, of at least
    five words and complete, with a checksum of zero, and a total length that covers
    the header and is not more than what has arrived. *)
Definition accept (bs : list Z) : option ip :=
  h ← ip_of_bytes (take 20 bs);
  if (ip_v h =? IPVERSION) && (sizeof_ip <=? hdrlen h) && (hdrlen h <=? Z.of_nat (length bs)) &&
     (Cksum.checksum true (take (Z.to_nat (hdrlen h)) bs) =? 0) && (hdrlen h <=? ip_len h) && (ip_len h <=? Z.of_nat (length bs))
  then Some h else None.

(** A packet as a driver hands it over: well-formed mbufs of bytes, the first with
    the header of the packet. *)
Record arrived (s : mstate) (m : list mbuf) : Prop := {
  ar_ok : Forall (mbuf_ok s) m;
  ar_known : Forall (cl_known s) m;
  ar_u8 : Forall is_u8 (bytes s m);
  ar_hdr : match m with m0 :: _ => has m0 M_PKTHDR = true | [] => False end;
  ar_len : pkthdr_ok m;
}.

Lemma arrived_store s s' m : same_store s s' → arrived s m → arrived s' m.
Proof.
  intros Hs [H1 H2 H3 H4 H5]. split; try done.
  - eapply (Forall_store mbuf_ok s); [|done]. intros x. by apply mbuf_ok_store.
  - eapply (Forall_store cl_known s); [|done]. intros x. by apply cl_known_store.
  - by rewrite (bytes_store s) by done.
Qed.

Lemma arrived_length s m : arrived s m → Z.of_nat (length (bytes s m)) = chain_len m.
Proof. intros H. apply bytes_length, H. Qed.

Lemma mtod_ip_wp s m :
  arrived s m → 20 <= first_len m →
  ∃ h, ip_of_bytes (take 20 (bytes s m)) = Some h ∧ ip_typed h ∧ wp (mtod_ip m) s (λ h' s', s' = s ∧ h' = h).
Proof.
  intros Ha Hl. destruct m as [|m0 rest]; [by destruct Ha|]. pose proof (ar_ok _ _ Ha) as H0. apply Forall_cons in H0 as [H0 _].
  pose proof (mbytes_length s m0 H0) as Hlen. simpl in Hl.
  assert (Et : take 20 (bytes s (m0 :: rest)) = take 20 (mbytes s m0)) by (unfold bytes; simpl; rewrite take_app_le by lia; done).
  destruct (ip_of_bytes_Some (take 20 (mbytes s m0))) as [h Eh]; [rewrite length_take; lia|].
  exists h. rewrite Et. split; [done|]. split.
  - eapply ip_of_bytes_typed; [|exact Eh]. rewrite <-Et. apply Forall_take, Ha.
  - unfold mtod_ip. wp_steps. eapply wp_mono; [apply m_read_wp; [done|lia..]|]. intros b s' [-> ->]. wp_steps.
    eapply wp_lift; [|done]. done.
Qed.
(** Cutting the end of a packet leaves its mbufs, with their flags and clusters. *)
Definition same_shape (r m : list mbuf) : Prop := Forall2 (λ x y, m_flags x = m_flags y ∧ ext_buf x = ext_buf y) r m.

Lemma same_shape_refl m : same_shape m m.
Proof. induction m; by constructor. Qed.

Lemma same_shape_trans a b c : same_shape a b → same_shape b c → same_shape a c.
Proof.
  intros H. revert c. induction H as [|x y a b [H1 H2] H IH]; intros c Hc; inversion_clear Hc as [|? z ? c' [H3 H4] ?]; [constructor|].
  constructor; [split; congruence|by apply IH].
Qed.

Lemma on_head_shape (g : mbuf → Z) m : same_shape (on_head (if_pkthdr (λ x, set_pktlen x (g x))) m) m.
Proof.
  destruct m as [|x m]; [constructor|]. cbn [on_head]. unfold if_pkthdr. constructor; [by destruct (has x M_PKTHDR)|apply same_shape_refl].
Qed.

Lemma on_last_shape (g : mbuf → Z) m : same_shape (on_last (λ x, set_len x (g x)) m) m.
Proof. induction m as [|x [|y m] IH]; [constructor|by repeat constructor|]. cbn [on_last]. by constructor. Qed.

Lemma adj_cut_shape m : ∀ c r, adj_cut m c = Some r → same_shape r m.
Proof.
  induction m as [|x m IH]; intros c r; simpl; [done|]. destruct (c <=? m_len x).
  - intros [= <-]. constructor; [done|]. clear IH. induction m; by constructor.
  - destruct (adj_cut m _) as [r'|] eqn:E; [|done]. intros [= <-]. constructor; [done|by eapply IH].
Qed.

Lemma m_adj_shape m n r : n < 0 → m_adj m n = Some r → same_shape r m.
Proof.
  intros Hn. unfold m_adj. destruct m as [|m0 rest]; [intros [= <-]; constructor|]. rewrite (proj2 (Z.leb_gt 0 n)) by done.
  destruct (last (m0 :: rest)) as [l|] eqn:El; [|by apply last_None in El]. destruct (- n <=? m_len l).
  - intros [= <-]. eapply same_shape_trans; [apply (on_head_shape (λ x, pkthdr_len x - - n))|]. apply (on_last_shape (λ x, m_len x - - n) (m0 :: rest)).
  - intros Hr. eapply same_shape_trans; [by eapply adj_cut_shape|]. apply (on_head_shape (λ _, Z.max 0 _)).
Qed.

Lemma shape_known s r m : same_shape r m → Forall (cl_known s) m → Forall (cl_known s) r.
Proof.
  intros H Hm. induction H as [|x y r m [H1 H2] H IH]; [done|]. apply Forall_cons in Hm as [Hy Hm].
  constructor; [|by apply IH]. unfold cl_known, has in *. by rewrite H1, H2.
Qed.

Lemma shape_hdr r m : same_shape r m →
  match m with m0 :: _ => has m0 M_PKTHDR = true | [] => False end →
  match r with m0 :: _ => has m0 M_PKTHDR = true | [] => False end.
Proof. intros H. destruct H as [|x y r m [H1 _] H]; [done|]. unfold has. by rewrite H1. Qed.

(** Trimming to [n] bytes. *)
Lemma trim_to_wp s m n :
  arrived s m → 0 <= n <= chain_len m →
  wp (trim_to n m) s (λ m' s', s' = s ∧ arrived s m' ∧ bytes s m' = take (Z.to_nat n) (bytes s m)).
Proof.
  intros Ha Hn. pose proof (arrived_length _ _ Ha) as Hlen. destruct m as [|m0 rest]; [by destruct Ha|].
  pose proof Ha as [Hok Hk H8 Hh Hp]. simpl in Hh, Hp. specialize (Hp Hh). unfold trim_to.
  destruct (Z.ltb_spec n (pkthdr_len m0)); [destruct (Z.eqb_spec (m_len m0) (pkthdr_len m0)) as [E|E]|].
  - apply Forall_cons in Hok as [H0 Hr]. pose proof (chain_len_nonneg _ _ Hr). wp_step. split; [done|].
    assert (Hb : bytes s (set_pktlen (set_len m0 n) n :: rest) = take (Z.to_nat n) (bytes s (m0 :: rest))).
    { assert (bytes s rest = []) as Er.
      { apply length_zero_iff_nil. pose proof (bytes_length _ _ Hr). simpl in Hp. lia. }
      change (mbytes s (set_pktlen (set_len m0 n) n) ++ bytes s rest = take (Z.to_nat n) (mbytes s m0 ++ bytes s rest)).
      rewrite Er, !app_nil_r. unfold mbytes, buffer, set_pktlen, set_len, has. simpl. rewrite take_take. f_equal. lia. }
    split; [|done]. split.
    + constructor; [|done]. destruct H0 as (G1 & G2 & b & Gb & G3 & G4). split; [simpl; lia|]. split; [done|].
      exists b. split; [done|]. simpl. split; [simpl in Hp; lia|done].
    + apply Forall_cons in Hk as [? ?]. by constructor.
    + rewrite Hb. by apply Forall_take.
    + done.
    + intros _. simpl. simpl in Hp. lia.
  - destruct (m_adj_spec s (m0 :: rest) (n - pkthdr_len m0) Hok) as (r & Er & Hb & Hok' & Hp'); [by intros _|].
    pose proof (m_adj_shape (m0 :: rest) (n - pkthdr_len m0) r ltac:(lia) Er) as Hsh.
    eapply wp_lift; [exact Er|]. rewrite (proj2 (Z.leb_gt 0 _)) in Hb by lia.
    assert (Hb' : bytes s r = take (Z.to_nat n) (bytes s (m0 :: rest))) by (rewrite Hb; simpl in Hlen, Hp; f_equal; lia).
    split; [done|]. split; [|done]. split; [done|by eapply shape_known| |by apply (shape_hdr r (m0 :: rest))|done].
    rewrite Hb'. by apply Forall_take.
  - wp_step. split; [done|]. split; [done|]. rewrite take_ge; [done|]. simpl in Hlen, Hp, Hn. lia.
Qed.

Section Checks.
Context (max_protohdr : Z) (proto_ok : 0 <= max_protohdr) (drain : mstate → mstate) (drain_ok : ∀ s, same_store s (drain s)).
Context (junk : list Z) (junk_ok : Z.of_nat (length junk) = MLEN) (junk_len sum_junk : Z).

(** The first mbuf is not a cluster. *)
Definition first_internal (m : list mbuf) : Prop := match m with m0 :: _ => internal m0 | [] => True end.

(** A pull-up keeps the bytes and leaves [n] of them in the first mbuf; without so
    many the packet is gone. *)
Lemma pullup_to_wp s m n :
  arrived s m → 0 <= n <= 60 →
  wp (pullup_to max_protohdr drain junk junk_len n m) s (λ r s', same_store s s' ∧ (oracle s = [] → oracle s' = []) ∧
    match r with
    | Some r => arrived s' r ∧ bytes s' r = bytes s m ∧ n <= first_len r ∧ n <= Z.of_nat (length (bytes s m)) ∧
        (first_len m < n ∨ first_internal m → first_internal r)
    | None => Z.of_nat (length (bytes s m)) < n ∨ oracle s ≠ []
    end).
Proof using proto_ok drain_ok junk_ok.
  intros Ha Hn. destruct m as [|m0 rest]; [by destruct Ha|]. unfold pullup_to. pose proof (arrived_length _ _ Ha) as Hlen.
  assert (Hc : 0 <= chain_len rest).
  { pose proof (ar_ok _ _ Ha) as H. apply Forall_cons in H as [_ H]. by eapply chain_len_nonneg. }
  destruct (Z.ltb_spec (first_len (m0 :: rest)) n) as [Hs|Hs].
  - eapply wp_mono; [apply wp_wlp; [apply (m_pullup_spec max_protohdr drain junk junk_len drain_ok junk_ok proto_ok s m0 rest n); [apply Ha..|lia]|apply m_pullup_keeps]|].
    intros r s1 [[Hs1 Hr] Hk]. split; [done|]. split; [done|]. destruct r as [r|].
    + destruct Hr as (Hb & Hok & Hkn & m' & n' & -> & Hl & Hext & Hp & Hpl). destruct Ha as [_ _ H8 Hh Hpk].
      simpl in Hh. assert (Hlen' := bytes_length s1 _ Hok). rewrite Hb, Hlen in Hlen'.
      split; [split; try done|].
      * by rewrite Hb.
      * by rewrite Hp.
      * intros _. simpl in Hpk. rewrite Hpl by done. rewrite Hpk by done. simpl in Hlen'. simpl. lia.
      * split; [done|]. split; [done|]. rewrite Hlen. simpl in Hlen'.
        assert (0 <= chain_len n') by (eapply chain_len_nonneg; apply Forall_cons in Hok as [_ H]; exact H). split; [simpl; lia|done].
    + rewrite Hlen. destruct Hr as [Hr|[Hr|Hr]]; [by left| |by right]. unfold MHLEN, MLEN, MSIZE in Hr. lia.
  - wp_steps. split; [done|]. split; [done|]. split; [done|]. split; [done|]. split; [done|]. split; [simpl in *; lia|].
    intros [?|?]; [lia|done].
Qed.

Lemma drop_packet_wp {A} s m : Forall (cl_known s) m → wp (@drop_packet A m) s (λ r s', same_store s s' ∧ r = None).
Proof using. intros H. unfold drop_packet. wp_step. eapply wp_mono; [by apply m_freem_wp|]. intros [] s' Hs. by wp_steps. Qed.

(** The checks let exactly the packets of [accept] through, trimmed to their total
    length; only a lack of memory for the pull-up can lose one of them. *)
Lemma check_header_spec in_ifaddrs s m :
  arrived s m → in_ifaddrs ≠ [] →
  wp (check_header max_protohdr drain junk junk_len sum_junk in_ifaddrs m) s (λ r s', same_store s s' ∧
    match accept (bytes s m) with
    | None => r = None
    | Some h => r = None ∧ oracle s ≠ [] ∨
        ∃ m', r = Some (m', set_sum h 0) ∧ ip_typed h ∧ arrived s' m' ∧ bytes s' m' = take (Z.to_nat (ip_len h)) (bytes s m)
    end).
Proof using proto_ok drain_ok junk_ok.
  intros Ha Hif. unfold check_header. destruct in_ifaddrs as [|ia ias]; [done|]. clear Hif.
  wp_step. eapply wp_mono; [apply pullup_to_wp; [done|unfold sizeof_ip; lia]|]. intros r s1 (Hs1 & Hk1 & Hr).
  unfold accept, sizeof_ip in *. destruct r as [m1|].
  2:{ wp_steps. split; [done|]. destruct Hr as [Hr|Hr]; [|by destruct (_ ≫= _); [left|]].
    destruct (ip_of_bytes (take 20 (bytes s m))) as [h|] eqn:E; [|done]. apply ip_of_bytes_length in E. rewrite length_take in E. lia. }
  destruct Hr as (Ha1 & Hb1 & Hf1 & Hl1 & _). destruct (mtod_ip_wp s1 m1 Ha1 Hf1) as (h & Eh & Ht & Hw).
  rewrite Hb1 in Eh. rewrite Eh. cbn [mbind option_bind]. pose proof (hdrlen_range h Ht) as Hh.
  wp_step. eapply wp_mono; [exact Hw|]. intros h' s' [-> ->]. clear Hw.
  assert (Hdrop : ∀ s2 m2, same_store s s2 → arrived s2 m2 → wp (@drop_packet (list mbuf * ip) m2) s2 (λ r s', same_store s s' ∧ r = None)).
  { intros s2 m2 Hs2 Ha2. eapply wp_mono; [apply drop_packet_wp, Ha2|]. intros r s3 [? ->]. split; [by etrans|done]. }
  destruct (Z.eqb_spec (ip_v h) IPVERSION); cbn [negb andb]; [|by apply Hdrop].
  cbv zeta. destruct (Z.ltb_spec (hdrlen h) 20), (Z.leb_spec 20 (hdrlen h)); try lia; cbn [andb]; [by apply Hdrop|].
  wp_step. eapply wp_mono; [apply pullup_to_wp; [exact Ha1|done]|]. intros r s2 (Hs2 & Hk2 & Hr). rewrite Hb1 in Hr.
  assert (Hs02 : same_store s s2) by by etrans.
  destruct r as [m2|].
  2:{ wp_steps. split; [done|]. destruct (Z.leb_spec (hdrlen h) (Z.of_nat (length (bytes s m)))); [|done]. cbn [andb].
    destruct Hr as [Hr|Hr]; [lia|]. destruct (_ && _); [|done]. left. split; [done|]. auto. }
  destruct Hr as (Ha2 & Hb2 & Hf2 & Hl2 & _). rewrite (proj2 (Z.leb_le _ _) Hl2). cbn [andb].
  destruct (mtod_ip_wp s2 m2 Ha2 ltac:(lia)) as (h2 & Eh2 & _ & Hw). rewrite Hb2, Eh in Eh2. injection Eh2 as <-.
  wp_step. eapply wp_mono; [exact Hw|]. intros h' s' [-> ->]. clear Hw. wp_steps.
  eapply wp_lift; [apply Cksum.in_cksum_spec; [apply Ha2|lia]|]. rewrite Hb2. cbv beta iota.
  destruct (Cksum.checksum true _ =? 0); cbn [negb andb]; [|by apply Hdrop].
  destruct (Z.ltb_spec (ip_len h) (hdrlen h)), (Z.leb_spec (hdrlen h) (ip_len h)); try lia; cbn [andb]; [by apply Hdrop|].
  pose proof (arrived_length _ _ Ha2) as Hlen. rewrite Hb2 in Hlen.
  destruct m2 as [|m0 rest]; [by destruct Ha2|].
  assert (Hpk : pkthdr_len m0 = chain_len (m0 :: rest)) by (destruct Ha2 as [_ _ _ E1 E2]; by apply E2). rewrite Hpk, <-Hlen.
  destruct (Z.ltb_spec (Z.of_nat (length (bytes s m))) (ip_len h)), (Z.leb_spec (ip_len h) (Z.of_nat (length (bytes s m)))); try lia;
    cbn [andb]; [by apply Hdrop|].
  wp_step. eapply wp_mono; [apply trim_to_wp; [exact Ha2|lia]|]. intros m' s' (-> & Ha' & Hb'). wp_steps. split; [done|]. right.
  exists m'. rewrite Hb', Hb2. done.
Qed.
End Checks.

(** ** Properties *)

Section Properties.
Context (ifa_ifwithaddr ifa_ifwithdstaddr ifa_ifwithnet ifaof_ifpforaddr ip_rtaddr : Z → option Z) (iptime : Z).

(** The options of any packet are processed in finitely many steps: every option
    that is not refused is at least one byte long. *)
Theorem ip_dooptions_terminates b r hlen :
  ip_dooptions ifa_ifwithaddr ifa_ifwithdstaddr ifa_ifwithnet ifaof_ifpforaddr ip_rtaddr iptime b r hlen ≠ Spin.
Proof.
  unfold ip_dooptions. destruct (addr_at b OFF_DST); [|done].
  destruct (Z.le_gt_cases (hlen - sizeof_ip) 0) as [H|H]; [|apply loop_ends; lia].
  replace (Z.to_nat (hlen - sizeof_ip)) with 0%nat by lia. simpl. by rewrite (proj2 (Z.ltb_ge 0 _)) by lia.
Qed.


(** The length of an option is read before it is compared with what is left of the
    header: that of one which begins with the last byte, behind the buffer. *)
Theorem trailing_option_overruns b r n opt dst :
  Z.of_nat (length b) = sizeof_ip + n + 1 → 0 <= n → addr_at b OFF_DST = Some dst →
  (∀ i, 0 <= i < n → byte_at b (sizeof_ip + i) = Some IPOPT_NOP) →
  byte_at b (sizeof_ip + n) = Some opt → opt ≠ IPOPT_EOL → opt ≠ IPOPT_NOP →
  ip_dooptions ifa_ifwithaddr ifa_ifwithdstaddr ifa_ifwithnet ifaof_ifpforaddr ip_rtaddr iptime b r (sizeof_ip + n + 1) = Wild.
Proof.
  intros Hb Hn Hd Hnop Ho He Hno. unfold ip_dooptions. rewrite Hd. replace (sizeof_ip + n + 1 - sizeof_ip) with (n + 1) by lia.
  assert (Hg : ∀ k r dst fwd, 0 <= n - Z.of_nat k → (n + 1 <= Z.of_nat k + 1 + (n - Z.of_nat k)) →
    options_loop ifa_ifwithaddr ifa_ifwithdstaddr ifa_ifwithnet ifaof_ifpforaddr ip_rtaddr iptime (S k) b r dst fwd
      (sizeof_ip + (n - Z.of_nat k)) (Z.of_nat k + 1) = Wild).
  { induction k as [|k IH]; intros r' d f H1 H2.
    - replace (n - Z.of_nat 0) with n by lia. rewrite (loop_step _ _ _ _ _ _ _ _ _ _ _ _ _ opt) by (done || lia).
      rewrite (proj2 (Z.eqb_neq opt IPOPT_NOP)) by done. unfold byte_at, IPOPT_OLEN.
      rewrite (proj2 (Z.ltb_ge _ 0)) by (unfold sizeof_ip; lia). by rewrite lookup_ge_None_2 by lia.
    - rewrite (loop_step _ _ _ _ _ _ _ _ _ _ _ _ _ IPOPT_NOP); [|lia|apply Hnop; lia|done]. change (IPOPT_NOP =? IPOPT_NOP) with true. cbv iota.
      change (1 <=? 0) with false. rewrite (proj2 (Z.ltb_ge (Z.of_nat (S k) + 1) 1)) by lia. cbn [orb].
      change (do_option _ _ _ _ _ _ b r' _ _ IPOPT_NOP 1) with (Some (Next b None r')). cbv iota. cbn [default].
      specialize (IH r' d f ltac:(lia) ltac:(lia)).
      replace (sizeof_ip + (n - Z.of_nat (S k)) + 1) with (sizeof_ip + (n - Z.of_nat k)) by lia.
      replace (Z.of_nat (S k) + 1 - 1) with (Z.of_nat k + 1) by lia. exact IH. }
  specialize (Hg (Z.to_nat n) r dst false ltac:(lia) ltac:(lia)).
  replace (n - Z.of_nat (Z.to_nat n)) with 0 in Hg by lia. rewrite Z.add_0_r in Hg.
  replace (Z.to_nat (n + 1)) with (S (Z.to_nat n)) by lia. replace (Z.of_nat (Z.to_nat n) + 1) with (n + 1) in Hg by lia. exact Hg.
Qed.

(** A record-route option of one to three bytes passes the check for room, which
    is made with an unsigned difference: for every pointer of at least four, the
    address of the interface is written at the place the pointer names, which is
    behind the option. *)
Theorem short_route_overwrites b r cp optlen off dst a :
  20 <= cp → 1 <= optlen < 4 → byte_at b (cp + IPOPT_OFFSET) = Some off → IPOPT_MINOFF <= off < 256 →
  addr_at b OFF_DST = Some dst → ifa_ifwithaddr dst = Some a → cp + off + 3 <= Z.of_nat (length b) →
  ∃ b', record_route ifa_ifwithaddr ip_rtaddr b r cp optlen = Some (Next b' None r) ∧ cp + optlen <= cp + (off - 1) ∧
    addr_at b' (cp + (off - 1)) = Some (u32 a).
Proof.
  unfold IPOPT_OFFSET, IPOPT_MINOFF, OFF_DST. intros Hcp Hl Eoff Hoff Edst Ea Hb.
  unfold record_route, IPOPT_OFFSET, IPOPT_MINOFF, OFF_DST. rewrite Eoff. cbn [mbind option_bind].
  rewrite (proj2 (Z.ltb_ge off 4)) by lia. cbv zeta.
  assert (Hu : u32 (optlen - 4) = optlen - 4 + 4294967296).
  { unfold u32. symmetry. apply (Z.mod_unique _ _ (-1)); lia. }
  rewrite Hu, (proj2 (Z.ltb_ge _ (off - 1))) by lia. rewrite Edst. cbn [mbind option_bind]. rewrite Ea.
  destruct (put_addr_touches b (cp + (off - 1)) a) as (b1 & E1 & [L1 _]); [lia..|]. rewrite E1. cbn [mbind option_bind].
  destruct (byte_at_Some b1 (cp + 2)) as [p Ep]; [lia|]. rewrite Ep. cbn [mbind option_bind].
  destruct (put_byte_touches b1 (cp + 2) (p + 4)) as (b2 & E2 & _); [lia|]. rewrite E2. cbn [mbind option_bind].
  exists b2. split; [done|]. split; [lia|]. rewrite (addr_at_below b1 b2 _ (cp + 2) [u8 (p + 4)]); [|done|lia|simpl; lia].
  by apply (addr_at_put b (cp + (off - 1)) a ltac:(lia) ltac:(lia)).
Qed.
End Properties.

Section Input.
Context (ifa_ifwithaddr ifa_ifwithdstaddr ifa_ifwithnet ifaof_ifpforaddr ip_rtaddr : Z → option Z) (iptime : Z).
Context (max_protohdr : Z) (proto_ok : 0 <= max_protohdr) (drain : mstate → mstate) (drain_ok : ∀ s, same_store s (drain s)).
Context (junk : list Z) (junk_ok : Z.of_nat (length junk) = MLEN) (junk_len sum_junk : Z).
Context (in_ifaddrs : list in_ifaddr) (ipforwarding : bool).

(** C18: the checks of [ipintr] let a packet through exactly when its bytes are a
    datagram of version 4 with a complete header, a header checksum of zero and a
    total length between the header and what has arrived; the packet is then trimmed
    to that length, and every field of its header is in its range.  This holds for any
    cut into mbufs; only a lack of memory can lose a packet more. *)
Theorem check_header_refines s m :
  arrived s m → in_ifaddrs ≠ [] →
  wp (check_header max_protohdr drain junk junk_len sum_junk in_ifaddrs m) s (λ r s', same_store s s' ∧
    match accept (bytes s m) with
    | None => r = None
    | Some h => r = None ∧ oracle s ≠ [] ∨
        ∃ m', r = Some (m', set_sum h 0) ∧ ip_typed h ∧ arrived s' m' ∧ bytes s' m' = take (Z.to_nat (ip_len h)) (bytes s m)
    end).
Proof using proto_ok drain_ok junk_ok. by apply check_header_spec. Qed.

(** Where a packet without options that is no fragment goes. *)
Definition destination (h : ip) (m : list mbuf) : verdict :=
  if for_us in_ifaddrs (ip_dst h) || (ip_dst h =? INADDR_BROADCAST) || (ip_dst h =? INADDR_ANY)
  then Deliver (Frag (set_iplen h (ip_len h - 20)) [] m) 20
  else if ipforwarding then Forward (Frag h [] m) false else Gone.

(** [ipintr] on a packet without options that is no fragment and not for a
    group: a packet that does not pass the checks is dropped; one that does is given to
    its protocol, with the header in the host's order and the length of the data in
    [ip_len], when its destination is one of our addresses or a broadcast, and else
    to [ip_forward] or dropped, as [ipforwarding] says.  The reassembly queues stay as they are. *)
Theorem ip_input_destination s m qs r :
  arrived s m → in_ifaddrs ≠ [] →
  (∀ h, accept (bytes s m) = Some h → hdrlen h = 20 ∧ Z.land (ip_off h) (Z.lnot IP_DF) = 0 ∧ IN_MULTICAST (ip_dst h) = false) →
  wp (ip_input ifa_ifwithaddr ifa_ifwithdstaddr ifa_ifwithnet ifaof_ifpforaddr ip_rtaddr iptime max_protohdr drain junk junk_len sum_junk
        in_ifaddrs ipforwarding qs r m) s (λ v s', same_store s s' ∧ v.1.2 = qs ∧
    match accept (bytes s m) with
    | None => v.1.1 = Gone
    | Some h => v.1.1 = Gone ∧ oracle s ≠ [] ∨
        ∃ m', v.1.1 = destination (set_sum h 0) m' ∧ bytes s m' = take (Z.to_nat (ip_len h)) (bytes s m)
    end).
Proof using proto_ok drain_ok junk_ok.
  intros Ha Hif Hh. unfold ip_input. wp_step. eapply wp_mono; [by apply check_header_spec|]. intros c s1 [Hs1 Hc].
  destruct (accept (bytes s m)) as [h|]; [|subst c; by wp_steps]. destruct (Hh h eq_refl) as (H20 & Hoff & Hmc). clear Hh.
  destruct Hc as [[-> Ho]|(m' & -> & Ht & Ha' & Hb')]; [wp_steps; split; [done|]; split; [done|]; by left|].
  assert (Hb : bytes s m' = take (Z.to_nat (ip_len h)) (bytes s m)) by (by rewrite <-Hb', (bytes_store s s1)).
  wp_step. unfold options_stage. destruct m' as [|m0 rest]; [by destruct Ha'|]. cbv zeta.
  change (hdrlen (set_sum h 0)) with (hdrlen h). rewrite H20. cbn [Z.ltb sizeof_ip]. change (sizeof_ip <? 20) with false. cbn iota.
  wp_step. cbv beta iota. unfold ours. cbn [f_ip]. change (ip_dst (set_sum h 0)) with (ip_dst h). rewrite Hmc. unfold destination.
  change (ip_dst (set_sum h 0)) with (ip_dst h). rewrite orb_assoc.
  destruct (for_us in_ifaddrs (ip_dst h) || (ip_dst h =? INADDR_BROADCAST) || (ip_dst h =? INADDR_ANY)); cbn [orb].
  - unfold deliver. cbn [f_ip]. change (ip_off (set_sum h 0)) with (ip_off h). rewrite Hoff. change (ztrue 0) with false. cbn iota.
    wp_steps. split; [done|]. split; [done|]. right. exists (m0 :: rest). by split.
  - destruct ipforwarding; cbn [negb]; wp_steps.
    + split; [done|]. split; [done|]. right. exists (m0 :: rest). by split.
    + eapply wp_mono; [apply m_freem_wp, Ha'|]. intros [] s2 Hs2. wp_steps. split; [by etrans|]. split; [done|]. right. by exists (m0 :: rest).
Qed.
End Input.

(** ** A packet *)

Definition ex_arrived : list mbuf :=
  [MB 61 8 MT_DATA M_PKTHDR 61 0 0 0
     (replicate 8 0 ++ [69; 0; 0; 60; 0; 7; 0; 0; 64; 17; 102; 168; 10; 0; 0; 1; 10; 0; 0; 2] ++ seqZ 0 41 ++ replicate 39 0)].
Definition ex_ifaddrs : list in_ifaddr :=
  [IA (IFN 1 IFF_BROADCAST 1500) 0x0a000002 0x0a0000ff 0x0a000000 0xff000000 0x0a000000 0xffffff00 0x0affffff []].
Definition no_addr : Z → option Z := λ _, None.

Lemma ex_arrived_ok : arrived ex_state ex_arrived.
Proof.
  split; try done.
  - apply Forall_singleton. split; [done|]. split; [done|]. eexists. split; [done|]. split; [done|]. done.
  - by apply Forall_singleton.
  - apply (Forall_forall is_u8). intros x Hx. vm_compute in Hx.
    repeat (apply elem_of_cons in Hx as [->|Hx]; [done|]). by apply elem_of_nil in Hx.
Qed.

Example ex_accepted : accept (bytes ex_state ex_arrived) = Some (IP 4 5 0 60 7 0 64 17 26280 0x0a000001 0x0a000002).
Proof. reflexivity. Qed.

Lemma check_header_refines_witness :
  wp (check_header 64 id (replicate 108 0) 0 0 ex_ifaddrs ex_arrived) ex_state (λ r s', same_store ex_state s' ∧
    match accept (bytes ex_state ex_arrived) with
    | None => r = None
    | Some h => r = None ∧ oracle ex_state ≠ [] ∨
        ∃ m', r = Some (m', set_sum h 0) ∧ ip_typed h ∧ arrived s' m' ∧ bytes s' m' = take (Z.to_nat (ip_len h)) (bytes ex_state ex_arrived)
    end).
Proof.
  apply (check_header_refines 64 ltac:(lia) id ltac:(done) (replicate 108 0) ltac:(reflexivity) 0 0 ex_ifaddrs ex_state ex_arrived); [apply ex_arrived_ok|done].
Defined.

Lemma ip_input_destination_witness :
  wp (ip_input no_addr no_addr no_addr no_addr no_addr 0 64 id (replicate 108 0) 0 0 ex_ifaddrs true [] (SR 0 0 []) ex_arrived) ex_state
    (λ v s', same_store ex_state s' ∧ v.1.2 = [] ∧
    match accept (bytes ex_state ex_arrived) with
    | None => v.1.1 = Gone
    | Some h => v.1.1 = Gone ∧ oracle ex_state ≠ [] ∨
        ∃ m', v.1.1 = destination ex_ifaddrs true (set_sum h 0) m' ∧ bytes ex_state m' = take (Z.to_nat (ip_len h)) (bytes ex_state ex_arrived)
    end).
Proof.
  apply (ip_input_destination no_addr no_addr no_addr no_addr no_addr 0 64 ltac:(lia) id ltac:(done) (replicate 108 0) ltac:(reflexivity) 0 0
    ex_ifaddrs true ex_state ex_arrived [] (SR 0 0 [])); [apply ex_arrived_ok|done|].
  rewrite ex_accepted. intros h [= <-]. done.
Defined.

(** A header with a record-route option and the end of the list, and nothing behind it. *)
Definition ex_options : list Z :=
  [0x47; 0; 0; 28; 0; 7; 0; 0; 64; 17; 0; 0; 10; 0; 0; 1; 10; 0; 0; 2; 7; 7; 4; 0; 0; 0; 0; 0].


(** A record-route option of three bytes that points into the data. *)
Definition ex_short : list Z :=
  [0x46; 0; 0; 28; 0; 7; 0; 0; 64; 17; 0; 0; 10; 0; 0; 1; 10; 0; 0; 2; 7; 3; 6; 0; 21; 22; 23; 24; 25; 26; 27; 28].

Lemma short_route_overwrites_witness :
  ∃ b', record_route Some no_addr ex_short (SR 0 0 []) 20 3 = Some (Next b' None (SR 0 0 [])) ∧ 20 + 3 <= 20 + (6 - 1) ∧
    addr_at b' (20 + (6 - 1)) = Some (u32 0x0a000002).
Proof.
  apply (short_route_overwrites Some no_addr ex_short (SR 0 0 []) 20 3 6 0x0a000002 0x0a000002); try reflexivity; try lia;
    [unfold IPOPT_MINOFF; lia|simpl; lia].
Defined.

(** The same through [ip_dooptions]: the second to fifth byte of the data are lost. *)
Example short_route_through_dooptions :
  ip_dooptions Some no_addr no_addr no_addr no_addr 0 ex_short (SR 0 0 []) 24 =
    Go [0x46; 0; 0; 28; 0; 7; 0; 0; 64; 17; 0; 0; 10; 0; 0; 1; 10; 0; 0; 2; 7; 3; 10; 0; 21; 10; 0; 0; 2; 26; 27; 28] (SR 0 0 []).
Proof. reflexivity. Qed.

(** A time stamp whose pointer is zero is written over the destination address. *)
Example timestamp_without_pointer :
  ip_dooptions Some no_addr no_addr no_addr no_addr 0x01020304
    [0x47; 0; 0; 28; 0; 7; 0; 0; 64; 17; 0; 0; 10; 0; 0; 1; 10; 0; 0; 2; 68; 8; 0; 0; 0; 0; 0; 0; 99] (SR 0 0 []) 28 =
    Go [0x47; 0; 0; 28; 0; 7; 0; 0; 64; 17; 0; 0; 10; 0; 0; 1; 10; 0; 0; 1; 2; 3; 8; 0; 0; 0; 0; 0; 99] (SR 0 0 []).
Proof. reflexivity. Qed.

End IpInput.
