(* ===== verification/IpForward.v ===== *)
(** * Forwarding and source routes (netinet/ip_input.c)

    [ip_forward], with the route it keeps in [ipforward_rt] and the ICMP errors it
    asks for; [ip_srcroute], the way back of a source-routed packet; and
    [ip_stripoptions]. *)

From stdpp Require Import options.
From S2P Require Import Prelude Mbuf Cksum Ip TcpReass IpReass IpOutput IpInput.
Import Mbuf Ip IpReass IpOutput IpInput.

Module IpForward.

Definition MT_SOOPTS : Z := 10.

(** ** Source routes *)

(** [ip_srcrt.route[i]]: the option of [ip_srcrt] starts with the three bytes of
    [srcopt]. *)
Definition route_at (r : srcrt) (i : Z) : option (list Z) := read_bytes (sr_opt r) (3 + 4 * i) 4.

(** [while (p >= ip_srcrt.route) *q++ = *p--], with [n] hops left. *)
Fixpoint back_route (n : nat) (r : srcrt) : option (list Z) :=
  match n with
  | O => Some []
  | S n => a ← route_at r (Z.of_nat n); l ← back_route n r; Some (a ++ l)
  end.

Section Srcroute.
Context (drain : mstate → mstate) (junk : list Z) (junk_len : Z).

(** [ip_srcroute]: the options for the reply, with the first hop before them. *)
Definition ip_srcroute (r : srcrt) : M mstate (option mbuf * srcrt) :=
  if ip_nhops r =? 0 then ret (None, r)
  else
    let! m := MGET drain junk junk_len MT_SOOPTS in
    match m with
    | None => ret (None, r)
    | Some m =>
        let m := set_len m (ip_nhops r * 4 + 4 + 4) in
        let! first := lift (route_at r (ip_nhops r - 1)) in
        let! m := m_write m 0 first in
        let! o := lift (write_bytes (sr_opt r) IPOPT_OFFSET [IPOPT_MINOFF]) in
        let r := SR (ip_nhops r) (sr_dst r) o in
        let! srcopt := lift (read_bytes o 0 3) in
        let! m := m_write m 4 (IPOPT_NOP :: srcopt) in
        let! hops := lift (back_route (Z.to_nat (ip_nhops r - 1)) r) in
        let! m := m_write m 8 (hops ++ be32 (sr_dst r)) in
        ret (Some m, r)
    end.

End Srcroute.

(** [ip_stripoptions]: the options are moved out of the first mbuf. *)
Definition ip_stripoptions (h : ip) (m : list mbuf) : M mstate (ip * list mbuf) :=
  match m with
  | [] => crash
  | m :: rest =>
      let olen := hdrlen h - sizeof_ip in
      let i := m_len m - (sizeof_ip + olen) in
      let! b := m_read m (sizeof_ip + olen) i in
      let! m := m_write m sizeof_ip b in
      let m := set_len m (m_len m - olen) in
      let m := if has m M_PKTHDR then set_pktlen m (pkthdr_len m - olen) else m in
      ret (set_v_hl h (ip_v h) 5, m :: rest)
  end.

(** ** Forwarding *)

(** A call of [icmp_error]: the packet, the type, the code, [dest] and [destifp]. *)
Record icmp_call := IcmpErr { ie_p : packet; ie_type : Z; ie_code : Z; ie_dest : Z; ie_ifp : option ifnet }.

(** What [ip_forward] did: the packets given to the interface, the error message
    asked for, and the route kept. *)
Record forwarded := Fw { fw_sent : list packet; fw_icmp : option icmp_call; fw_rt : route; fw_id : Z }.

Section Forward.
Context (max_linkhdr : Z) (drain : mstate → mstate) (junk : list Z) (junk_len sum_junk len_junk : Z).
Context (if_output : ifnet → Z → list packet → packet → Z) (rtalloc : Z → option rtentry).
Context (ifa_ifwithdstaddr ifa_ifwithnet : Z → option in_ifaddr) (in_ifaddrs : list in_ifaddr) (loif : ifnet).
Context (ipsendredirects : bool).

(** The route of the last packet, or a new one. *)
Definition forward_route (ro : route) (dst : Z) : route :=
  match ro_rt ro with
  | Some _ => if ro_dst ro =? dst then ro else RO (rtalloc dst) dst
  | None => RO (rtalloc dst) dst
  end.

(** Whether the sender is told of a shorter way, and which gateway. *)
Definition redirect (rt : rtentry) (rcv : Z) (srcrt : bool) (h : ip) : option Z :=
  if (if_index (rt_ifp rt) =? rcv) && (Z.land (rt_flags rt) (Z.lor RTF_DYNAMIC RTF_MODIFIED) =? 0) &&
     negb (rt_key rt =? 0) && ipsendredirects && negb srcrt then
    if Z.land (ip_src h) (ia_subnetmask (rt_ifa rt)) =? ia_subnet (rt_ifa rt) then
      Some (if has_flag (rt_flags rt) RTF_GATEWAY then rt_gateway rt else ip_dst h)
    else None
  else None.

(** The type and code for the error of [ip_output]; [ro] is the route after it. *)
Definition forward_error (error : Z) (ro : route) : Z * Z * option ifnet :=
  if error =? EMSGSIZE then
    (ICMP_UNREACH, ICMP_UNREACH_NEEDFRAG, match ro_rt ro with Some rt => Some (rt_ifp rt) | None => None end)
  else if error =? ENOBUFS then (ICMP_SOURCEQUENCH, 0, None)
  else (ICMP_UNREACH, ICMP_UNREACH_HOST, None).

Definition ip_forward (p : packet) (srcrt : bool) (ro : route) (ip_id : Z) : M mstate forwarded :=
  let h := p_ip p in
  match p_m p with
  | [] => crash
  | m0 :: _ =>
      if has m0 M_BCAST || negb (in_canforward (ip_dst h)) then
        do! m_freem (p_m p) in ret (Fw [] None ro ip_id)
      else if ip_ttl h <=? IPTTLDEC then ret (Fw [] (Some (IcmpErr p ICMP_TIMXCEED ICMP_TIMXCEED_INTRANS 0 None)) ro ip_id)
      else
        let h := set_ttl h (ip_ttl h - IPTTLDEC) in
        let p := Pkt h (p_opts p) (p_m p) in
        let ro := forward_route ro (ip_dst h) in
        match ro_rt ro with
        | None => ret (Fw [] (Some (IcmpErr p ICMP_UNREACH ICMP_UNREACH_HOST 0 None)) ro ip_id)
        | Some rt =>
            let! mcopy := m_copym drain junk junk_len (p_m p) 0 (Z.min (ip_len h) 64) in
            let rd := redirect rt (rcvif m0) srcrt h in
            let! o := ip_output max_linkhdr drain junk junk_len sum_junk len_junk if_output rtalloc ifa_ifwithdstaddr ifa_ifwithnet
                        in_ifaddrs loif p None ro IP_FORWARDING None ip_id in
            let done icmp := Fw (o_sent o) icmp (o_ro o) (o_id o) in
            let copy := Pkt h (p_opts p) mcopy in
            if o_error o =? 0 then
              match rd, mcopy with
              | None, _ => do! m_freem mcopy in ret (done None)
              | Some _, [] => ret (done None)
              | Some dest, _ => ret (done (Some (IcmpErr copy ICMP_REDIRECT ICMP_REDIRECT_HOST dest None)))
              end
            else
              match mcopy with
              | [] => ret (done None)
              | _ => let '(t, c, ifp) := forward_error (o_error o) (o_ro o) in
                     ret (done (Some (IcmpErr copy t c (default 0 rd) ifp)))
              end
        end
  end.

End Forward.

(** ** What is sent keeps the header *)

(** [q] has the type of service, time to live, protocol and addresses of [h]. *)
Definition keeps_header (h : ip) (q : packet) : Prop :=
  ip_tos (p_ip q) = ip_tos h ∧ ip_ttl (p_ip q) = ip_ttl h ∧ ip_p (p_ip q) = ip_p h ∧
  ip_src (p_ip q) = ip_src h ∧ ip_dst (p_ip q) = ip_dst h.

Lemma with_sum_header sum_junk hlen p h s :
  keeps_header h p → wlp (with_sum sum_junk hlen p) s (λ q _, keeps_header h q).
Proof.
  intros H. unfold with_sum, put_sum. apply wlp_bind. apply wlp_lift. intros h' E. apply wlp_ret.
  destruct (Cksum.in_cksum _ _ _ _) as [[c ?]|]; [|done]. injection E as <-. exact H.
Qed.

Section Sent.
Context (drain : mstate → mstate) (max_linkhdr : Z) (junk : list Z) (junk_len sum_junk : Z).
Context (if_output : ifnet → Z → list packet → packet → Z).

Lemma frag_header_keeps h hlen mhlen len off mopts m : keeps_header h (Pkt (frag_header h hlen mhlen len off).1 mopts m).
Proof.
  unfold frag_header, keeps_header. cbv zeta.
  by destruct (sizeof_ip <? hlen), (ztrue (Z.land (ip_off h) IP_MF)), (u16 (ip_len h) <=? off + len).
Qed.

Lemma frag_loop_header h opts m0 hlen fuel : ∀ len off s,
  wlp (frag_loop max_linkhdr drain junk junk_len sum_junk fuel h opts m0 hlen len off) s (λ r _, Forall (keeps_header h) r.1).
Proof.
  induction fuel as [|fuel IH]; intros len off s; cbn [frag_loop]; (destruct (_ <? _); [|by apply wlp_ret, Forall_nil]); [apply wlp_crash|].
  apply wlp_skip. intros [m|] s1; [|by apply wlp_ret, Forall_nil]. cbv zeta. apply wlp_skip. intros [mhlen mopts] s2.
  pose proof (frag_header_keeps h hlen mhlen len off mopts) as Hk. destruct (frag_header h hlen mhlen len off) as [mh len'].
  apply wlp_skip. intros [|c0 c] s3; [apply wlp_skip; intros ? ?; by apply wlp_ret, Forall_nil|].
  apply wlp_bind. eapply wlp_mono; [apply with_sum_header, Hk|]. intros q s4 Hq.
  apply wlp_bind. eapply wlp_mono; [apply IH|]. intros r s5 Hr. apply wlp_ret. by constructor.
Qed.

Lemma fragment_header mtu p hlen s :
  wlp (fragment max_linkhdr drain junk junk_len sum_junk mtu p hlen) s (λ r _, Forall (keeps_header (p_ip p)) r.1).
Proof.
  unfold fragment. cbv zeta. apply wlp_bind. eapply wlp_mono; [apply frag_loop_header|]. intros [fs e] s1 Hf.
  destruct (e =? 0); [|apply wlp_ret; by constructor].
  apply wlp_bind. eapply (wlp_mono _ _ (λ q _, keeps_header (p_ip p) q)).
  - unfold first_frag. apply wlp_skip. intros m s2. by apply with_sum_header.
  - intros q s2 Hq. apply wlp_ret. by constructor.
Qed.

Lemma sendorfree_header ifp dst h ps : ∀ sent e s,
  Forall (keeps_header h) sent → Forall (keeps_header h) ps →
  wlp (sendorfree if_output ifp dst sent ps e) s (λ r _, Forall (keeps_header h) r.1).
Proof.
  induction ps as [|p ps IH]; intros sent e s Hs Hp; cbn [sendorfree]; [by apply wlp_ret|].
  apply Forall_cons in Hp as [Hp Hps]. destruct (e =? 0).
  - apply IH; [|done]. apply Forall_app. split; [done|by constructor].
  - apply wlp_skip. intros ? s1. by apply IH.
Qed.

Lemma sendit_header n0 ifp dst hlen p s :
  wlp (sendit max_linkhdr drain junk junk_len sum_junk if_output n0 ifp dst hlen p) s (λ r _, Forall (keeps_header (p_ip p)) r.1).
Proof.
  unfold sendit. cbv zeta. destruct (_ <=? _).
  { apply wlp_bind. eapply wlp_mono; [by apply (with_sum_header _ _ _ (p_ip p))|]. intros q s1 Hq. apply wlp_ret. by constructor. }
  destruct (ztrue _); [apply wlp_skip; intros ? ?; by apply wlp_ret, Forall_nil|].
  destruct (_ <? _); [apply wlp_skip; intros ? ?; by apply wlp_ret, Forall_nil|].
  apply wlp_bind. eapply wlp_mono; [apply fragment_header|]. intros [ps e] s1 Hp. apply sendorfree_header; [constructor|done].
Qed.

End Sent.

(** ** What is sent is sent *)

Lemma round8_all a : -65536 <= a < 65536 → s32 (Z.land a (Z.lnot 7)) = a / 8 * 8.
Proof.
  intros Ha. change 7 with (Z.ones 3). rewrite <- Z.ldiff_land, Z.ldiff_ones_r, Z.shiftr_div_pow2, Z.shiftl_mul_pow2 by lia.
  change (2 ^ 3) with 8. apply s32_id. unfold is_s32. Z.div_mod_to_equations. lia.
Qed.

Lemma canforward_unicast a : in_canforward a = true → IN_MULTICAST a = false.
Proof. unfold in_canforward. destruct (IN_EXPERIMENTAL a), (IN_MULTICAST a); done. Qed.

Lemma has_mflags m f g :
  (g = (λ f, Z.lor f M_BCAST) ∨ g = λ f, Z.land f (Z.lnot M_BCAST)) → f = M_EXT ∨ f = M_PKTHDR →
  has (set_flags m (g (m_flags m))) f = has m f.
Proof.
  intros Hg Hf. unfold has. simpl. f_equal.
  destruct Hg as [-> | ->], Hf as [-> | ->]; rewrite ?Z.land_lor_distr_l, <-?Z.land_assoc; try done; apply Z.lor_0_r.
Qed.

(** The flags of the packet do not matter to what it is. *)
Lemma datagram_mflags s p h g :
  (g = (λ f, Z.lor f M_BCAST) ∨ g = λ f, Z.land f (Z.lnot M_BCAST)) →
  datagram s p → ip_typed h → hdrlen h = hdrlen (p_ip p) → ip_len h = ip_len (p_ip p) → ip_off h = ip_off (p_ip p) →
  datagram s (Pkt h (p_opts p) (set_mflags g (p_m p))).
Proof.
  intros Hg Hd Ht Hh Hl Ho. destruct Hd as [D1 D2 D3 D4 D5 D6 D7 D8 (m & ms & D9 & D10 & D11) D12 D13 D14].
  rewrite D9 in *. cbn [set_mflags on_head]. apply Forall_cons in D6 as [D6 D6']. apply Forall_cons in D7 as [D7 D7'].
  pose proof (has_mflags m M_EXT g Hg ltac:(by left)) as He. pose proof (has_mflags m M_PKTHDR g Hg ltac:(by right)) as Hp.
  split; cbn [p_ip p_opts p_m]; rewrite ?Hh, ?Hl, ?Ho; try done.
  - constructor; [|done]. destruct D6 as (G1 & G2 & b & Gb & G3 & G4). split; [done|]. split; [done|]. exists b.
    rewrite He, Hp. split; [|done]. unfold buffer in *. by rewrite He.
  - constructor; [|done]. unfold internal. by rewrite He.
  - intros H. rewrite Hp in H. by apply D8.
  - exists (set_flags m (g (m_flags m))), ms. split; [done|]. rewrite Hp. done.
Qed.

Lemma datagram_header s p h :
  datagram s p → ip_typed h → hdrlen h = hdrlen (p_ip p) → ip_len h = ip_len (p_ip p) → ip_off h = ip_off (p_ip p) →
  datagram s (Pkt h (p_opts p) (p_m p)).
Proof. intros [] Ht Hh Hl Ho. split; cbn [p_ip p_opts p_m]; rewrite ?Hh, ?Hl, ?Ho; done. Qed.

Lemma datagram_store s s' p : same_store s s' → datagram s p → datagram s' p.
Proof. intros Hs []. split; try done. eapply (Forall_store mbuf_ok s); [|done]. intros x. by apply mbuf_ok_store. Qed.

Section Returns.
#[local] Set Default Proof Using "Type*".
Context (drain : mstate → mstate) (drain_ok : ∀ s, same_store s (drain s)).
Context (max_linkhdr : Z) (link_ok : 0 <= max_linkhdr <= 40) (junk : list Z) (junk_ok : Z.of_nat (length junk) = MLEN) (junk_len sum_junk len_junk : Z).
Context (if_output : ifnet → Z → list packet → packet → Z).

Lemma sendit_returns s p n0 ifp dst :
  datagram s p → 0 <= if_mtu ifp →
  wp (sendit max_linkhdr drain junk junk_len sum_junk if_output n0 ifp dst (hdrlen (p_ip p)) p) s (λ _ s', same_store s s').
Proof.
  intros Hd Hm. pose proof (g_typed _ _ Hd) as Ht. pose proof (hdrlen_range _ Ht) as Hh. pose proof (g_opts _ _ Hd) as Ho.
  assert (Hbad : wp (do! bad n0 (p_m p) in ret (([] : list packet), EMSGSIZE)) s (λ _ s', same_store s s')).
  { wp_step. eapply wp_mono; [apply m_freem_wp|by intros; wp_steps]. apply Forall_drop. eapply Forall_impl; [apply (g_internal _ _ Hd)|].
    intros m. apply internal_known. }
  destruct (Z.leb_spec (u16 (ip_len (p_ip p))) (if_mtu ifp)) as [H1|H1].
  - unfold sendit. rewrite (proj2 (Z.leb_le _ _) H1). wp_step. eapply wp_mono; [apply with_sum_wp|].
    + destruct Ht as (? & ? & ? & ? & ? & ? & ?). unfold ip_typed. cbn [p_ip set_off set_iplen ip_v ip_hl ip_tos ip_len ip_id ip_off ip_ttl ip_p ip_sum ip_src ip_dst].
      split; [done|]. split; [done|]. split; [done|]. split; [apply s16_range|]. split; [done|]. split; [apply s16_range|done].
    + apply (g_opts8 _ _ Hd).
    + simpl. lia.
    + lia.
    + intros q s1 [-> _]. by wp_steps.
  - destruct (Z.le_gt_cases (hdrlen (p_ip p) + 8) (if_mtu ifp)) as [H2|H2].
    + eapply wp_mono; [by apply sendit_fragments|]. intros r s1 [? _]. done.
    + unfold sendit. rewrite (proj2 (Z.leb_gt _ _) H1). destruct (ztrue _); [exact Hbad|].
      pose proof (u16_range (ip_len (p_ip p))) as H16. unfold is_u16 in H16.
      rewrite round8_all, (proj2 (Z.ltb_lt _ 8)) by (Z.div_mod_to_equations; lia). exact Hbad.
Qed.

Context (rtalloc : Z → option rtentry) (rtalloc_mtu : ∀ dst rt, rtalloc dst = Some rt → 0 <= if_mtu (rt_ifp rt)).
Context (ifa_ifwithdstaddr ifa_ifwithnet : Z → option in_ifaddr) (in_ifaddrs : list in_ifaddr) (loif : ifnet).

(** [ip_output] of a packet that is forwarded to one host. *)
Lemma ip_output_forwards s p ro id :
  datagram s p → IN_MULTICAST (ip_dst (p_ip p)) = false → ip_src (p_ip p) ≠ INADDR_ANY →
  (∀ rt, ro_rt ro = Some rt → 0 <= if_mtu (rt_ifp rt)) →
  wp (ip_output max_linkhdr drain junk junk_len sum_junk len_junk if_output rtalloc ifa_ifwithdstaddr ifa_ifwithnet in_ifaddrs loif
        p None ro IP_FORWARDING None id) s (λ o s', same_store s s' ∧ Forall (keeps_header (p_ip p)) (o_sent o)).
Proof.
  intros Hd Hmc Hsrc Hro. unfold ip_output. cbv zeta. wp_steps. cbv beta iota.
  unfold fill_header. change (has_flag IP_FORWARDING _) with true. cbv beta iota.
  assert (Hbad : ∀ e ro, wp (do! bad (length (p_m p)) (p_m p) in ret (Out [] None e ro id)) s (λ o s', same_store s s' ∧ Forall (keeps_header (p_ip p)) (o_sent o))).
  { intros e ro'. wp_step. eapply wp_mono; [apply m_freem_wp|intros [] s1 Hs1; wp_steps; by split; [|constructor]]. apply Forall_drop.
    eapply Forall_impl; [apply (g_internal _ _ Hd)|]. intros m. apply internal_known. }
  destruct (find_route _ _ _ _ _ _) as [[[[[h ia] ifp] dst] ro1]|[e ro1]] eqn:Er; [|apply Hbad].
  assert (h = p_ip p ∧ 0 <= if_mtu ifp) as [-> Hm].
  { unfold find_route in Er. cbv zeta in Er. change (has_flag IP_FORWARDING IP_ROUTETOIF) with false in Er. cbv iota in Er.
    destruct (ro_rt ro) as [rt|] eqn:E1; [destruct (_ || _)|]; cbn [ro_rt ro_dst] in Er.
    - destruct (rtalloc _) as [rt'|] eqn:E2; [|done]. injection Er as <- _ <- _ _. split; [done|]. by eapply rtalloc_mtu.
    - repeat (rewrite E1 in Er; cbv beta iota zeta in Er). injection Er as <- _ <- _ _. split; [done|]. by apply Hro.
    - repeat (rewrite E1 in Er; cbv beta iota zeta in Er); cbn [ro_rt ro_dst] in Er. destruct (rtalloc _) as [rt'|] eqn:E2; [|done]. cbn [ro_rt ro_dst] in Er. injection Er as <- _ <- _ _. split; [done|]. by eapply rtalloc_mtu. }
  rewrite Hmc, (proj2 (Z.eqb_neq _ _) Hsrc). destruct (broadcast _ _ _ _ _) as [g|e] eqn:Eb; [|apply Hbad].
  assert (Hg : g = (λ f, Z.lor f M_BCAST) ∨ g = λ f, Z.land f (Z.lnot M_BCAST)).
  { unfold broadcast in Eb. destruct (in_broadcast _ _ _); [|injection Eb as <-; by right].
    destruct (negb _); [done|]. destruct (negb _); [done|]. destruct (_ <? _); [done|]. injection Eb as <-. by left. }
  pose proof (datagram_mflags s p (p_ip p) g Hg Hd (g_typed _ _ Hd) eq_refl eq_refl eq_refl) as Hd'.
  wp_step. eapply wp_mono; [apply wp_wlp; [by apply (sendit_returns s _ (length (p_m p)) ifp dst Hd')|apply sendit_header]|].
  intros [sent e] s1 [Hs1 Hk]. by wp_steps.
Qed.

Context (ipsendredirects : bool).

(** [ip_forward] of a datagram with a source address ends, and every packet it
    gives the interface has a time to live one less than the datagram, and still
    positive, and its type of service, protocol and addresses.  A datagram whose time
    is up is not sent but reported; one that came as a broadcast, or is not for a
    host, is not sent at all. *)
Theorem ip_forward_ttl s p srcrt ro id :
  datagram s p → 0 <= ip_len (p_ip p) → ip_src (p_ip p) ≠ INADDR_ANY → (∀ rt, ro_rt ro = Some rt → 0 <= if_mtu (rt_ifp rt)) →
  wp (ip_forward max_linkhdr drain junk junk_len sum_junk len_junk if_output rtalloc ifa_ifwithdstaddr ifa_ifwithnet in_ifaddrs loif
        ipsendredirects p srcrt ro id) s (λ r s', same_store s s' ∧
    Forall (keeps_header (set_ttl (p_ip p) (ip_ttl (p_ip p) - 1))) (fw_sent r) ∧
    (fw_sent r ≠ [] → 1 < ip_ttl (p_ip p) ∧ in_canforward (ip_dst (p_ip p)) = true ∧ ∀ m ms, p_m p = m :: ms → has m M_BCAST = false) ∧
    (ip_ttl (p_ip p) <= 1 → in_canforward (ip_dst (p_ip p)) = true → (∀ m ms, p_m p = m :: ms → has m M_BCAST = false) →
     fw_icmp r = Some (IcmpErr p ICMP_TIMXCEED ICMP_TIMXCEED_INTRANS 0 None))).
Proof.
  intros Hd Hl Hsrc Hro. unfold ip_forward. cbv zeta. destruct (g_front _ _ Hd) as (m0 & ms & Em & Hpk & Hfr).
  destruct (p_m p) as [|m0' ms'] eqn:E0; [done|]. injection Em as -> ->. rewrite <-E0 in *.
  assert (Hk : Forall (cl_known s) (p_m p)) by (eapply Forall_impl; [apply (g_internal _ _ Hd)|]; intros m; apply internal_known).
  destruct (has m0 M_BCAST) eqn:Eb; [|destruct (in_canforward (ip_dst (p_ip p))) eqn:Ec]; cbn [orb negb].
  1, 3: wp_step; eapply wp_mono; [by apply m_freem_wp|]; intros [] s1 Hs1; wp_steps; (split; [done|]); (split; [constructor|]); split; [done|]; try done.
  { intros _ _ H. by rewrite (H _ _ E0) in Eb. }
  unfold IPTTLDEC. destruct (Z.leb_spec (ip_ttl (p_ip p)) 1).
  { wp_steps. by split; [|split; [constructor|]]. }
  set (h := set_ttl (p_ip p) (ip_ttl (p_ip p) - 1)). set (ro1 := forward_route rtalloc ro (ip_dst h)).
  assert (Hro1 : ∀ rt, ro_rt ro1 = Some rt → 0 <= if_mtu (rt_ifp rt)).
  { intros rt. unfold ro1, forward_route. destruct (ro_rt ro) eqn:E; [destruct (_ =? _)|]; cbn [ro_rt]; [by rewrite E; intros [= <-]; apply Hro| |]; apply rtalloc_mtu. }
  destruct (ro_rt ro1) as [rt|] eqn:Ert; [|wp_steps; by split; [|split; [constructor|split; [|intros ?; lia]]]].
  assert (Hd1 : datagram s (Pkt h (p_opts p) (p_m p))).
  { apply datagram_header; try done. destruct (g_typed _ _ Hd) as (?&?&?&?&?&?&?&?). do 6 (split; [done|]). by split; [apply u8_range|]. }
  pose proof (hdrlen_range _ (g_typed _ _ Hd)) as Hh. destruct (g_typed _ _ Hd) as (_&_&_&Hl16&_).
  pose proof (g_len _ _ Hd) as Hlen. rewrite u16_id in Hlen by (unfold is_u16, is_s16 in *; lia).
  cbn [p_m p_opts p_ip]. wp_step. eapply wp_mono.
  { apply (m_copym_spec drain junk junk_len drain_ok junk_ok s (p_m p) 0 (Z.min (ip_len h) 64)); [by rewrite E0|apply Hd..| | |];
      change (ip_len h) with (ip_len (p_ip p)); [lia|lia|right; unfold M_COPYALL; lia]. }
  intros mc s1 (Hs1 & _ & Hmc & _).
  assert (Hd2 : datagram s1 (Pkt h (p_opts p) (p_m p))) by by eapply datagram_store.
  wp_step. eapply wp_mono; [apply (ip_output_forwards s1 (Pkt h (p_opts p) (p_m p)) ro1 id Hd2)|].
  { by apply canforward_unicast. } { done. } { by rewrite Ert. }
  intros o s2 [Hs2 Hk2]. cbn [p_ip] in Hk2.
  assert (Hpost : ∀ icmp s', same_store s2 s' → same_store s s' ∧ Forall (keeps_header h) (o_sent o) ∧
    (o_sent o ≠ [] → 1 < ip_ttl (p_ip p) ∧ true = true ∧ ∀ m ms, p_m p = m :: ms → has m M_BCAST = false) ∧
    (ip_ttl (p_ip p) <= 1 → true = true → (∀ m ms, p_m p = m :: ms → has m M_BCAST = false) →
      icmp = Some (IcmpErr p ICMP_TIMXCEED ICMP_TIMXCEED_INTRANS 0 None))).
  { intros icmp s' Hs'. split; [do 2 (etrans; [done|]); done|]. split; [done|]. split; [|intros ?; lia].
    intros _. split; [done|]. split; [done|]. rewrite E0. by intros m ms' [= <- <-]. }
  destruct (o_error o =? 0).
  - destruct (redirect _ _ _ _ _) as [dest|].
    + destruct mc; wp_steps; by apply Hpost.
    + wp_step. eapply wp_mono; [apply m_freem_wp|].
      { eapply Forall_impl; [exact Hmc|]. intros m. apply internal_known. }
      intros [] s3 Hs3. wp_steps. by apply Hpost.
  - destruct mc; [wp_steps; by apply Hpost|]. destruct (forward_error _ _) as [[t c] ifp]. wp_steps. by apply Hpost.
Qed.
End Returns.

(** ** The way back *)

Definition addr_bytes (a : list Z) : Prop := length a = 4%nat.

Lemma concat_addrs hops : Forall addr_bytes hops → length (concat hops) = (4 * length hops)%nat.
Proof. induction 1 as [|a l Ha Hl IH]; [done|]. simpl. rewrite length_app, IH, Ha. lia. Qed.

(** The saved route: three bytes, the hops, and what an earlier route has left. *)
Lemma route_at_hop n d t l o pre x post old :
  Forall addr_bytes pre → addr_bytes x →
  route_at (SR n d ([t; l; o] ++ concat (pre ++ x :: post) ++ old)) (Z.of_nat (length pre)) = Some x.
Proof.
  intros Hpre Hx. unfold route_at. cbn [sr_opt]. pose proof (concat_addrs _ Hpre) as Hl. rewrite concat_app. cbn [concat].
  unfold addr_bytes in Hx. rewrite read_bytes_Some by (rewrite ?length_app; simpl; lia). f_equal.
  replace (Z.to_nat (3 + 4 * Z.of_nat (length pre))) with (3 + length (concat pre))%nat by lia.
  rewrite <-drop_drop. cbn [app]. change (drop 3 (t :: l :: o :: ?y)) with y. rewrite <-!app_assoc, drop_app_length.
  rewrite take_app_le by (rewrite Hx; done). apply take_ge. rewrite Hx. done.
Qed.

Lemma back_route_reverses n d t l o hops old : ∀ post,
  Forall addr_bytes hops →
  back_route (length hops) (SR n d ([t; l; o] ++ concat (hops ++ post) ++ old)) = Some (concat (reverse hops)).
Proof.
  induction hops as [|x hops IH] using rev_ind; intros post H; [done|]. apply Forall_app in H as [H Hx]. apply Forall_cons in Hx as [Hx _].
  rewrite length_app, Nat.add_1_r, reverse_app. cbn [back_route]. rewrite <-app_assoc. change ([x] ++ post) with (x :: post).
  rewrite (route_at_hop n d t l o hops x post old H Hx). cbn [mbind option_bind].
  rewrite (IH (x :: post) H). done.
Qed.

Lemma write_bytes_app pre x bs :
  (length bs <= length x)%nat → write_bytes (pre ++ x) (Z.of_nat (length pre)) bs = Some (pre ++ bs ++ drop (length bs) x).
Proof.
  intros H. rewrite write_bytes_Some by (rewrite ?length_app; lia). f_equal. rewrite Nat2Z.id, take_app_length.
  rewrite drop_app_ge by lia. do 3 f_equal. lia.
Qed.

Lemma m_write_app s m pre x bs i :
  has m M_EXT = false → m_data m = 0 → m_dat m = pre ++ x → i = Z.of_nat (length pre) → (length bs <= length x)%nat →
  wp (m_write m i bs) s (λ m' s', s' = s ∧ m' = set_dat m ((pre ++ bs) ++ drop (length bs) x)).
Proof.
  intros He Hd Hx -> Hl. unfold m_write. wp_steps. eapply wp_lift; [unfold buffer; by rewrite He, Hx|]. wp_step.
  eapply wp_lift; [rewrite Hd; by apply write_bytes_app|]. rewrite He. wp_step. split; [done|]. by rewrite <-app_assoc.
Qed.

(** What [save_rte] keeps of an option. *)
Lemma save_rte_spec pre post t ptr hops src r :
  Forall addr_bytes hops → (length hops <= 9)%nat →
  let olen := 3 + 4 * Z.of_nat (length hops) in
  save_rte (pre ++ (t :: olen :: ptr :: concat hops) ++ post) (Z.of_nat (length pre)) src r =
    Some (SR (Z.of_nat (length hops)) src ((t :: olen :: ptr :: concat hops) ++ drop (Z.to_nat olen) (sr_opt r))).
Proof.
  intros Hh Hn olen. pose proof (concat_addrs _ Hh) as Hl. unfold save_rte, IPOPT_OLEN, MAX_IPOPTLEN, IPOPT_OFFSET.
  assert (E : byte_at (pre ++ (t :: olen :: ptr :: concat hops) ++ post) (Z.of_nat (length pre) + 1) = Some olen).
  { unfold byte_at. rewrite (proj2 (Z.ltb_ge _ 0)) by lia. rewrite lookup_app_r by lia.
    by replace (Z.to_nat (Z.of_nat (length pre) + 1) - length pre)%nat with 1%nat by lia. }
  rewrite E. cbn [mbind option_bind]. rewrite (proj2 (Z.ltb_ge (3 + 40) olen)) by lia.
  rewrite read_bytes_Some by (rewrite ?length_app; simpl; unfold olen; lia). cbn [mbind option_bind].
  rewrite Nat2Z.id, drop_app_length, take_app_le by (simpl; unfold olen; lia).
  rewrite take_ge by (simpl; unfold olen; lia). f_equal. f_equal.
  - rewrite u32_id by (unfold is_u32, olen; lia). unfold olen.
    replace (3 + 4 * Z.of_nat (length hops) - 2 - 1) with (Z.of_nat (length hops) * 4) by lia. apply Z.div_mul. lia.
  - f_equal. f_equal. simpl. unfold olen. lia.
Qed.

Section Back.
#[local] Set Default Proof Using "Type*".
Context (drain : mstate → mstate) (drain_ok : ∀ s, same_store s (drain s)).
Context (junk : list Z) (junk_ok : Z.of_nat (length junk) = MLEN) (junk_len : Z).

(** When a packet has come along a source route, [ip_srcroute] gives, for the
    route [save_rte] has kept of it, the options of the way back: the last hop first,
    as the address the packet goes to, then a source-route option of the same kind
    and length that starts at its first address, with the other hops in reverse
    order and the source of the packet at the end. *)
Theorem srcroute_reverses s pre post t ptr hops hop src r :
  Forall addr_bytes (hops ++ [hop]) → (length hops < 9)%nat →
  let olen := 3 + 4 * Z.of_nat (length (hops ++ [hop])) in
  ∃ r', save_rte (pre ++ (t :: olen :: ptr :: concat (hops ++ [hop])) ++ post) (Z.of_nat (length pre)) src r = Some r' ∧
    wp (ip_srcroute drain junk junk_len r') s (λ x s', same_store s s' ∧
      match x.1 with
      | None => oracle s ≠ []
      | Some m => mbytes s' m = hop ++ [IPOPT_NOP; t; olen; IPOPT_MINOFF] ++ concat (reverse hops) ++ be32 src
      end).
Proof.
  intros Hh Hn olen. eexists. split; [apply save_rte_spec; [done|rewrite length_app; simpl; lia]|]. fold olen.
  set (old := drop _ _). pose proof (concat_addrs _ Hh) as Hl. rewrite length_app in Hl. simpl in Hl.
  pose proof Hh as Hh'. apply Forall_app in Hh' as [Hhs Hhop]. apply Forall_cons in Hhop as [Hhop _]. pose proof (concat_addrs _ Hhs) as Hl'.
  unfold ip_srcroute. cbn [ip_nhops sr_dst]. rewrite (proj2 (Z.eqb_neq _ 0)) by (rewrite length_app; simpl; lia).
  wp_step. eapply wp_mono; [by apply mget_wp|]. intros x s1 (Hs1 & [-> | ->] & Ho).
  2:{ wp_steps. split; [done|]. intros E. by destruct (Ho E). }
  cbv zeta. wp_step. eapply wp_lift.
  { pose proof (route_at_hop (Z.of_nat (length (hops ++ [hop]))) src t olen ptr hops hop [] old Hhs Hhop) as E.
    replace (Z.of_nat (length (hops ++ [hop])) - 1) with (Z.of_nat (length hops)) by (rewrite length_app; simpl; lia). exact E. }
  unfold MLEN, MSIZE in junk_ok. unfold addr_bytes in Hhop.
  set (n := Z.of_nat (length (hops ++ [hop]))) in *.
  wp_step. eapply wp_mono; [apply (m_write_app s1 _ [] junk hop 0); done || lia|]. intros m s' [-> ->].
  wp_step. eapply wp_lift; [apply (write_bytes_app [t; olen] (ptr :: concat (hops ++ [hop]) ++ old) [IPOPT_MINOFF]); simpl; lia|].
  wp_step. eapply wp_lift; [apply (read_bytes_Some ([t; olen] ++ [IPOPT_MINOFF] ++ concat (hops ++ [hop]) ++ old) 0 3); simpl; lia|].
  change (take (Z.to_nat 3) _) with [t; olen; IPOPT_MINOFF]. wp_step.
  eapply wp_mono; [apply (m_write_app s1 _ hop (drop (length hop) junk)); try done; [rewrite Hhop; done|rewrite length_drop; simpl; lia]|].
  intros m s' [-> ->]. wp_step. eapply wp_lift.
  { replace (Z.to_nat (n - 1)) with (length hops) by (unfold n; rewrite length_app; simpl; lia).
    apply (back_route_reverses n src t olen IPOPT_MINOFF hops old [hop] Hhs). }
  wp_step. eapply wp_mono; [eapply m_write_app; try done|].
  { rewrite length_app, Hhop. done. } { rewrite !length_app, !length_drop. simpl. rewrite (concat_addrs (reverse hops)), length_reverse; [lia|]. by apply Forall_reverse. }
  intros m s' [-> ->]. wp_steps. split; [done|]. cbn [fst]. unfold mbytes, buffer.
  change (has _ M_EXT) with false. cbn [m_len m_data set_dat set_len m_dat default drop Z.to_nat]. rewrite drop_0.
  unfold id. rewrite <-(app_assoc hop). rewrite take_app_length'; [done|].
  rewrite !length_app, Hhop, (concat_addrs (reverse hops)), length_reverse by by apply Forall_reverse.
  unfold n. rewrite length_app. simpl. lia.
Qed.
End Back.

(** ** Stripping options *)

Lemma m_write_wp s m off bs :
  mbuf_ok s m → has m M_EXT = false → 0 <= off → off + Z.of_nat (length bs) <= m_len m →
  wp (m_write m off bs) s (λ m' s', s' = s ∧ ∃ d, m' = set_dat m d ∧ mbuf_ok s m' ∧
    mbytes s m' = take (Z.to_nat off) (mbytes s m) ++ bs ++ drop (Z.to_nat off + length bs) (mbytes s m)).
Proof.
  intros (H1 & H2 & b & Hb & H3 & H4) He Ho Hl. unfold m_write. wp_steps. eapply wp_lift; [exact Hb|].
  unfold buffer in Hb. rewrite He in Hb. injection Hb as <-. destruct (H4 He) as [Hlen Hph].
  pose proof (write_bytes_Some (m_dat m) (m_data m + off) bs ltac:(lia) ltac:(lia)) as Hw.
  wp_step. eapply wp_lift; [exact Hw|]. rewrite He. apply wp_ret. split; [done|]. eexists. split; [done|].
  apply write_bytes_length in Hw. split.
  - split; [done|]. split; [done|]. eexists. split; [unfold buffer; change (has (set_dat _ _) M_EXT) with (has m M_EXT); by rewrite He|].
    simpl. split; [lia|]. intros _. split; [lia|done].
  - unfold mbytes, buffer. change (has (set_dat _ _) M_EXT) with (has m M_EXT). rewrite He. simpl.
    replace (Z.to_nat (m_data m + off)) with (Z.to_nat (m_data m) + Z.to_nat off)%nat by lia.
    rewrite drop_app_le by (rewrite length_take; lia). rewrite take_app_ge by (rewrite length_drop, length_take; lia).
    rewrite length_drop, length_take. f_equal; [rewrite take_take, take_drop_commute; f_equal; f_equal; lia|].
    rewrite take_app_ge by lia. f_equal. rewrite skipn_firstn_comm, drop_drop. f_equal; [lia|f_equal; lia].
Qed.

(** [ip_stripoptions] of a packet whose header lies in its first mbuf, outside of a
    cluster, takes exactly the options out: the bytes of the fixed header are followed by those of the data,
    the lengths agree, and [ip_hl] is that of a header without options. *)
Theorem ip_stripoptions_correct s h m rest :
  Forall (mbuf_ok s) (m :: rest) → has m M_EXT = false → pkthdr_ok (m :: rest) → sizeof_ip <= hdrlen h <= m_len m →
  wp (ip_stripoptions h (m :: rest)) s (λ r s', s' = s ∧ hdrlen r.1 = sizeof_ip ∧
    bytes s r.2 = take (Z.to_nat sizeof_ip) (bytes s (m :: rest)) ++ drop (Z.to_nat (hdrlen h)) (bytes s (m :: rest)) ∧
    Forall (mbuf_ok s) r.2 ∧ pkthdr_ok r.2).
Proof.
  intros Hok He Hp Hh. apply Forall_cons in Hok as [Hm Hr]. unfold ip_stripoptions, sizeof_ip in *. cbv zeta.
  pose proof (mbytes_length s m Hm) as Hlen. replace (20 + (hdrlen h - 20)) with (hdrlen h) by lia.
  wp_step. eapply wp_mono; [apply m_read_wp; [done|lia..]|]. intros b s' [-> ->]. wp_step.
  assert (Hb : take (Z.to_nat (m_len m - hdrlen h)) (drop (Z.to_nat (hdrlen h)) (mbytes s m)) = drop (Z.to_nat (hdrlen h)) (mbytes s m)).
  { apply take_ge. rewrite length_drop. lia. }
  rewrite Hb. eapply wp_mono; [apply m_write_wp; [done|done|lia|rewrite length_drop; lia]|].
  intros m' s' (-> & d & -> & Hok' & Hb'). wp_steps. split; [done|]. split; [done|]. cbn [snd].
  pose proof (mbytes_length _ _ Hok') as Hlen'. change (m_len (set_dat m d)) with (m_len m) in *.
  set (m1 := set_len (set_dat m d) (m_len m - (hdrlen h - 20))).
  set (m2 := if has m1 M_PKTHDR then _ else m1).
  assert (Hm1 : mbytes s m1 = take 20 (mbytes s m) ++ drop (Z.to_nat (hdrlen h)) (mbytes s m)).
  { transitivity (take (Z.to_nat (m_len m - (hdrlen h - 20))) (mbytes s (set_dat m d))).
    - unfold mbytes, m1. cbn [m_len set_len m_data]. rewrite take_take. f_equal. cbn [m_len set_dat]. lia.
    - rewrite Hb', app_assoc. apply take_app_length'. rewrite length_app, length_take, length_drop. lia. }
  assert (Hok1 : mbuf_ok s m1).
  { destruct Hok' as (G1 & G2 & b & Gb & G3 & G4). split; [simpl; lia|]. split; [done|]. exists b. split; [done|].
    change (m_data m1) with (m_data (set_dat m d)). change (m_len m1) with (m_len m - (hdrlen h - 20)). simpl in G3. split; [simpl; lia|done]. }
  assert (Hm2 : mbytes s m2 = mbytes s m1 ∧ mbuf_ok s m2 ∧ m_len m2 = m_len m1 ∧
    (has m2 M_PKTHDR = true → pkthdr_len m2 = pkthdr_len m - (hdrlen h - 20))).
  { unfold m2. destruct (has m1 M_PKTHDR) eqn:E; [done|]. by rewrite E. }
  destruct Hm2 as (E2 & Hok2 & El2 & Ep2). split; [|split; [by constructor|]].
  - change (mbytes s m2 ++ bytes s rest = take 20 (mbytes s m ++ bytes s rest) ++ drop (Z.to_nat (hdrlen h)) (mbytes s m ++ bytes s rest)).
    rewrite E2, Hm1. rewrite take_app_le, drop_app_le by lia. by rewrite app_assoc.
  - simpl. intros H. rewrite Ep2, El2 by done. change (m_len m1) with (m_len m - (hdrlen h - 20)).
    assert (has m M_PKTHDR = true) as H'. { unfold m2 in H. by destruct (has m1 M_PKTHDR) eqn:E; [exact E|rewrite E in H]. }
    specialize (Hp H'). simpl in Hp. lia.
Qed.

(** ** Examples *)

Definition ex_route : rtentry := RT 0x0b000000 RTF_UP (IA (IFN 1 IFF_BROADCAST 40) 0x0a000009 0x0a0000ff 0x0a000000 0xff000000 0x0a000000 0xffffff00 0x0affffff [])
  (IFN 1 IFF_BROADCAST 40) 0.

Lemma ip_forward_ttl_witness :
  wp (ip_forward 16 id (replicate 108 0) 0 0 0 (λ _ _ _ _, 0) (λ _, Some ex_route) (λ _, None) (λ _, None) [] (IFN 2 0 0) true
        ex_packet false (RO None 0) 1) ex_state (λ r s', same_store ex_state s' ∧
    Forall (keeps_header (set_ttl (p_ip ex_packet) (ip_ttl (p_ip ex_packet) - 1))) (fw_sent r) ∧
    (fw_sent r ≠ [] → 1 < ip_ttl (p_ip ex_packet) ∧ in_canforward (ip_dst (p_ip ex_packet)) = true ∧ ∀ m ms, p_m ex_packet = m :: ms → has m M_BCAST = false) ∧
    (ip_ttl (p_ip ex_packet) <= 1 → in_canforward (ip_dst (p_ip ex_packet)) = true → (∀ m ms, p_m ex_packet = m :: ms → has m M_BCAST = false) →
     fw_icmp r = Some (IcmpErr ex_packet ICMP_TIMXCEED ICMP_TIMXCEED_INTRANS 0 None))).
Proof.
  apply (ip_forward_ttl id ltac:(done) 16 ltac:(lia) (replicate 108 0) ltac:(reflexivity) 0 0 0 (λ _ _ _ _, 0) (λ _, Some ex_route)); try done.
  - by intros dst rt [= <-].
  - apply ex_datagram.
Defined.

(** The datagram of the example leaves in two fragments, with a time to live of 63. *)
Example ex_forwarded :
  match ip_forward 16 id (replicate 108 0) 0 0 0 (λ _ _ _ _, 0) (λ _, Some ex_route) (λ _, None) (λ _, None) [] (IFN 2 0 0) true
          ex_packet false (RO None 0) 1 ex_state with
  | Ok (r, _) => (λ q, (ip_ttl (p_ip q), ip_len (p_ip q), ip_off (p_ip q))) <$> fw_sent r
  | _ => []
  end = [(63, 36, 0x2000); (63, 36, 0x2002); (63, 28, 4)].
Proof. vm_compute. reflexivity. Qed.

Lemma srcroute_reverses_witness :
  ∃ r', save_rte ([69] ++ (131 :: 11 :: 12 :: concat ([[10; 0; 0; 3]] ++ [[10; 0; 0; 4]])) ++ [0]) 1 0x0a000001 (SR 0 0 []) = Some r' ∧
    wp (ip_srcroute id (replicate 108 0) 0 r') ex_state (λ x s', same_store ex_state s' ∧
      match x.1 with
      | None => oracle ex_state ≠ []
      | Some m => mbytes s' m = [10; 0; 0; 4] ++ [IPOPT_NOP; 131; 11; IPOPT_MINOFF] ++ concat (reverse [[10; 0; 0; 3]]) ++ be32 0x0a000001
      end).
Proof.
  apply (srcroute_reverses id ltac:(done) (replicate 108 0) ltac:(reflexivity) 0 ex_state [69] [0] 131 12 [[10; 0; 0; 3]] [10; 0; 0; 4] 0x0a000001 (SR 0 0 [])).
  - by repeat constructor.
  - simpl. lia.
Defined.

End IpForward.
