(* ===== verification/Pcb.v ===== *)
(** * Internet protocol control blocks (netinet/in_pcb.c)

    The list of the control blocks of a protocol, with the hint for the next port in
    its head; allocation, binding, connection, look-up and notification.  A control
    block is named by its address [inp_id]; the options and the state of its socket
    and the flags of its protocol are kept with it; [inp_ttl] and [inp_tos] are the fields of [inp_ip].  Ports and addresses are in host
    order. *)

From stdpp Require Import options.
From S2P Require Import Prelude Mbuf Ip IpOutput IpInput.
Import Ip IpOutput.

Module Pcb.

(** ** Constants *)

Definition IPPORT_RESERVED : Z := 1024.
Definition IPPORT_USERRESERVED : Z := 5000.
Definition INPLOOKUP_WILDCARD : Z := 1.
Definition SO_ACCEPTCONN : Z := 0x0002.
Definition SO_REUSEADDR : Z := 0x0004.
Definition SO_DONTROUTE : Z := 0x0010.
Definition SO_REUSEPORT : Z := 0x0200.
Definition SS_NOFDREF : Z := 0x001.
Definition PR_CONNREQUIRED : Z := 0x04.
Definition AF_INET : Z := 2.
Definition sizeof_sockaddr_in : Z := 16.
Definition EINVAL : Z := 22.
Definition ENOPROTOOPT : Z := 42.
Definition EAFNOSUPPORT : Z := 47.
Definition EADDRINUSE : Z := 48.
Definition ECONNREFUSED : Z := 61.
Definition EHOSTDOWN : Z := 64.
Definition PRC_HOSTDEAD : Z := 6.
Definition PRC_REDIRECT_NET : Z := 14.
Definition PRC_REDIRECT_TOSHOST : Z := 17.
Definition PRC_NCMDS : Z := 21.
Definition PRC_IS_REDIRECT (cmd : Z) : bool := (PRC_REDIRECT_NET <=? cmd) && (cmd <=? PRC_REDIRECT_TOSHOST).

(** ** Data *)

Record inpcb := Inp
  { inp_id : Z; inp_faddr : Z; inp_fport : Z; inp_laddr : Z; inp_lport : Z;
    so_options : Z; so_state : Z; pr_flags : Z; inp_route : route; inp_moptions : option ip_moptions;
    inp_flags : Z; inp_ttl : Z; inp_tos : Z; inp_options : option ipoption }.

(** The head of a list: the last port given out, and the blocks. *)
Record pcbs := Head { hd_lport : Z; hd_list : list inpcb }.

Record sockaddr_in := Sin { sin_family : Z; sin_port : Z; sin_addr : Z }.

Definition set_local (i : inpcb) (a p : Z) : inpcb :=
  Inp (inp_id i) (inp_faddr i) (inp_fport i) a p (so_options i) (so_state i) (pr_flags i) (inp_route i) (inp_moptions i)
    (inp_flags i) (inp_ttl i) (inp_tos i) (inp_options i).
Definition set_foreign (i : inpcb) (a p : Z) : inpcb :=
  Inp (inp_id i) a p (inp_laddr i) (inp_lport i) (so_options i) (so_state i) (pr_flags i) (inp_route i) (inp_moptions i)
    (inp_flags i) (inp_ttl i) (inp_tos i) (inp_options i).
Definition set_route (i : inpcb) (r : route) : inpcb :=
  Inp (inp_id i) (inp_faddr i) (inp_fport i) (inp_laddr i) (inp_lport i) (so_options i) (so_state i) (pr_flags i) r (inp_moptions i)
    (inp_flags i) (inp_ttl i) (inp_tos i) (inp_options i).

(** The block at [i]'s address becomes [i]. *)
Definition store (i : inpcb) (l : list inpcb) : list inpcb := (λ j, if inp_id j =? inp_id i then i else j) <$> l.

(** The block of an address, and a change of it as it is in the list now. *)
Definition find_id (h : pcbs) (id : Z) : option inpcb := find (λ j, inp_id j =? id) (hd_list h).
Definition update_pcb (h : pcbs) (id : Z) (f : inpcb → inpcb) : pcbs :=
  match find_id h id with Some i => Head (hd_lport h) (store (f i) (hd_list h)) | None => h end.

(** The addresses of the blocks. *)
Definition ids (h : pcbs) : list Z := inp_id <$> hd_list h.

(** ** Allocation *)

(** [in_pcballoc] when [malloc] gives the address [a]. *)
Definition in_pcballoc (a : option Z) (opts state prflags : Z) (h : pcbs) : Z * pcbs :=
  match a with
  | None => (ENOBUFS, h)
  | Some a => (0, Head (hd_lport h) (Inp a 0 0 0 0 opts state prflags (RO None 0) None 0 0 0 None :: hd_list h))
  end.

(** ** Look-up *)

(** One side of the comparison: [None] is [continue], otherwise what is added to
    [wildcard]. *)
Definition side (pa a : Z) (same : bool) : option Z :=
  if negb (pa =? INADDR_ANY) then
    if a =? INADDR_ANY then Some 1 else if same then Some 0 else None
  else if negb (a =? INADDR_ANY) then Some 1 else Some 0.

Definition wildcard (faddr fport laddr lport : Z) (i : inpcb) : option Z :=
  if negb (inp_lport i =? lport) then None
  else
    w1 ← side (inp_laddr i) laddr (inp_laddr i =? laddr);
    w2 ← side (inp_faddr i) faddr ((inp_faddr i =? faddr) && (inp_fport i =? fport));
    Some (w1 + w2).

Fixpoint lookup_loop (faddr fport laddr lport flags : Z) (m : option inpcb) (matchwild : Z) (l : list inpcb) : option inpcb :=
  match l with
  | [] => m
  | i :: l =>
      match wildcard faddr fport laddr lport i with
      | None => lookup_loop faddr fport laddr lport flags m matchwild l
      | Some w =>
          if ztrue w && negb (ztrue (Z.land flags INPLOOKUP_WILDCARD)) then lookup_loop faddr fport laddr lport flags m matchwild l
          else if w <? matchwild then
            if w =? 0 then Some i else lookup_loop faddr fport laddr lport flags (Some i) w l
          else lookup_loop faddr fport laddr lport flags m matchwild l
      end
  end.

Definition in_pcblookup (l : list inpcb) (faddr fport laddr lport flags : Z) : option inpcb :=
  lookup_loop faddr fport laddr lport flags None 3 l.

(** ** Binding *)

(** The next port after the hint. *)
Definition next_port (lport : Z) : Z :=
  let p := u16 (lport + 1) in
  if (lport <? IPPORT_RESERVED) || (IPPORT_USERRESERVED <? p) then IPPORT_RESERVED else p.

(** The [do] loop: the port found, which is also the new hint. *)
Fixpoint pick_port (fuel : nat) (lport : Z) (l : list inpcb) (laddr wild : Z) : option Z :=
  match fuel with
  | O => None
  | S fuel =>
      let p := next_port lport in
      match in_pcblookup l 0 0 laddr p wild with
      | Some _ => pick_port fuel p l laddr wild
      | None => Some p
      end
  end.

(** One round for each port of the range, and one to come back to the first. *)
Definition ports : nat := 3978.

Section Bind.
(** [ifa_ifwithaddr] says whether an address is ours; [suser] is what
    [anp_sys_suser] returns. *)
Context (ifa_ifwithaddr : Z → bool) (suser : Z) (in_ifaddrs : list in_ifaddr).

Definition bind_wild (i : inpcb) : Z :=
  if negb (has_flag (so_options i) (Z.lor SO_REUSEADDR SO_REUSEPORT)) &&
     (negb (has_flag (pr_flags i) PR_CONNREQUIRED) || negb (has_flag (so_options i) SO_ACCEPTCONN))
  then INPLOOKUP_WILDCARD else 0.

(** The checks of the name: the error, or the address and the port. *)
Definition bind_name (h : pcbs) (i : inpcb) (nam : option (Z * sockaddr_in)) : Z + Z * Z :=
  match nam with
  | None => inr (inp_laddr i, 0)
  | Some (m_len, sin) =>
      if negb (m_len =? sizeof_sockaddr_in) then inl EINVAL
      else
        let lport := sin_port sin in
        let mc := IN_MULTICAST (sin_addr sin) in
        let reuseport := if mc && has_flag (so_options i) SO_REUSEADDR then Z.lor SO_REUSEADDR SO_REUSEPORT
                         else Z.land (so_options i) SO_REUSEPORT in
        if negb mc && negb (sin_addr sin =? INADDR_ANY) && negb (ifa_ifwithaddr (sin_addr sin)) then inl EADDRNOTAVAIL
        else if negb (lport =? 0) && (lport <? IPPORT_RESERVED) && ztrue suser then inl suser
        else
          let clash := match (if lport =? 0 then None else in_pcblookup (hd_list h) 0 0 (sin_addr sin) lport (bind_wild i)) with
                       | Some t => Z.land reuseport (so_options t) =? 0
                       | None => false
                       end in
          if clash then inl EADDRINUSE else inr (sin_addr sin, lport)
  end.

(** [in_pcbbind]: the error and the list; [None] is a search for a port that has not
    ended. *)
Definition in_pcbbind (h : pcbs) (i : inpcb) (nam : option (Z * sockaddr_in)) : option (Z * pcbs) :=
  if (match in_ifaddrs with [] => true | _ => false end) then Some (EADDRNOTAVAIL, h)
  else if negb (inp_lport i =? 0) || negb (inp_laddr i =? INADDR_ANY) then Some (EINVAL, h)
  else
    match bind_name h i nam with
    | inl e => Some (e, h)
    | inr (laddr, lport) =>
        if lport =? 0 then
          p ← pick_port ports (hd_lport h) (hd_list h) laddr (bind_wild i);
          Some (0, Head p (store (set_local i laddr p) (hd_list h)))
        else Some (0, Head (hd_lport h) (store (set_local i laddr lport) (hd_list h)))
    end.

(** ** Connection *)

Context (rtalloc : Z → option rtentry) (ifa_ifwithdstaddr ifa_ifwithnet : Z → option in_ifaddr).

(** A foreign address that stands for one of ours. *)
Definition connect_addr (a : Z) : Z :=
  match in_ifaddrs with
  | [] => a
  | ia :: _ => if a =? INADDR_ANY then ia_addr ia
               else if (a =? INADDR_BROADCAST) && if_has (ia_ifp ia) IFF_BROADCAST then ia_dstaddr ia else a
  end.

(** The route to [dst], as [in_pcbconnect] finds or acquires it. *)
Definition connect_route (i : inpcb) (dst : Z) : route :=
  let dontroute := has_flag (so_options i) SO_DONTROUTE in
  let ro := inp_route i in
  let ro := match ro_rt ro with
            | Some _ => if negb (ro_dst ro =? dst) || dontroute then RO None (ro_dst ro) else ro
            | None => ro
            end in
  match ro_rt ro with
  | None => if dontroute then ro else RO (rtalloc dst) dst
  | Some _ => ro
  end.

(** The address of ours that a connection to [dst] gets, or the error. *)
Definition connect_ifaddr (i : inpcb) (ro : route) (dst : Z) : option in_ifaddr :=
  let ia := match ro_rt ro with
            | Some rt => if if_has (rt_ifp rt) IFF_LOOPBACK then None else Some (rt_ifa rt)
            | None => None
            end in
  let ia := match ia with Some ia => Some ia | None =>
            match ifa_ifwithdstaddr dst with Some ia => Some ia | None =>
            match ifa_ifwithnet dst with Some ia => Some ia | None => head in_ifaddrs end end end in
  ia ← ia;
  match (if IN_MULTICAST dst then o ← inp_moptions i; imo_multicast_ifp o else None) with
  | Some ifp => find (λ ia, if_eq (ia_ifp ia) ifp) in_ifaddrs
  | None => Some ia
  end.

(** The port of a block. *)
Definition port_of (h : pcbs) (id : Z) : Z :=
  match find (λ j, inp_id j =? id) (hd_list h) with Some j => inp_lport j | None => 0 end.

(** From the look-up on: [laddr] is the address of ours. *)
Definition connect_pcb (h : pcbs) (i : inpcb) (faddr fport laddr : Z) : option (Z * pcbs) :=
  match in_pcblookup (hd_list h) faddr fport laddr (inp_lport i) 0 with
  | Some _ => Some (EADDRINUSE, h)
  | None =>
      if inp_laddr i =? INADDR_ANY then
        h ← (if inp_lport i =? 0 then r ← in_pcbbind h i None; Some (r.2) else Some h);
        Some (0, Head (hd_lport h) (store (set_foreign (set_local i laddr (port_of h (inp_id i))) faddr fport) (hd_list h)))
      else Some (0, Head (hd_lport h) (store (set_foreign i faddr fport) (hd_list h)))
  end.

Definition in_pcbconnect (h : pcbs) (i : inpcb) (m_len : Z) (sin : sockaddr_in) : option (Z * pcbs) :=
  if negb (m_len =? sizeof_sockaddr_in) then Some (EINVAL, h)
  else if negb (sin_family sin =? AF_INET) then Some (EAFNOSUPPORT, h)
  else if sin_port sin =? 0 then Some (EADDRNOTAVAIL, h)
  else
    let faddr := connect_addr (sin_addr sin) in
    if inp_laddr i =? INADDR_ANY then
      let ro := connect_route i faddr in
      let i := set_route i ro in
      let h := Head (hd_lport h) (store i (hd_list h)) in
      match connect_ifaddr i ro faddr with
      | None => Some (EADDRNOTAVAIL, h)
      | Some ia => connect_pcb h i faddr (sin_port sin) (ia_addr ia)
      end
    else connect_pcb h i faddr (sin_port sin) (inp_laddr i).

End Bind.

(** ** The end of a connection *)

Definition in_pcbdetach (h : pcbs) (i : inpcb) : pcbs :=
  Head (hd_lport h) (filter (λ j, inp_id j ≠ inp_id i) (hd_list h)).

Definition in_pcbdisconnect (h : pcbs) (i : inpcb) : pcbs :=
  let i := set_foreign i INADDR_ANY 0 in
  let h := Head (hd_lport h) (store i (hd_list h)) in
  if has_flag (so_state i) SS_NOFDREF then in_pcbdetach h i else h.

(** [in_setsockaddr] and [in_setpeeraddr]. *)
Definition in_setsockaddr (i : inpcb) : sockaddr_in := Sin AF_INET (inp_lport i) (inp_laddr i).
Definition in_setpeeraddr (i : inpcb) : sockaddr_in := Sin AF_INET (inp_fport i) (inp_faddr i).

(** ** Notification *)

Definition inetctlerrmap : list Z :=
  [0; 0; 0; 0; 0; EMSGSIZE; EHOSTDOWN; EHOSTUNREACH; EHOSTUNREACH; EHOSTUNREACH; ECONNREFUSED; ECONNREFUSED;
   EMSGSIZE; EHOSTUNREACH; 0; 0; 0; 0; 0; 0; ENOPROTOOPT].

Definition in_rtchange (i : inpcb) : inpcb :=
  match ro_rt (inp_route i) with Some _ => set_route i (RO None (ro_dst (inp_route i))) | None => i end.

(** The blocks [in_pcbnotify] tells. *)
Definition concerned (faddr fport laddr lport : Z) (i : inpcb) : bool :=
  negb (negb (inp_faddr i =? faddr) || (negb (lport =? 0) && negb (inp_lport i =? lport)) ||
        (negb (laddr =? 0) && negb (inp_laddr i =? laddr)) || (negb (fport =? 0) && negb (inp_fport i =? fport))).

(** [in_pcbnotify]: the calls of [notify], with the blocks; redirects flush routes
    instead.  [None] is the read of [inetctlerrmap] past its end. *)
Definition in_pcbnotify (h : pcbs) (dst : sockaddr_in) (fport laddr lport cmd : Z) : option (list (inpcb * Z) * pcbs) :=
  if (PRC_NCMDS <? u32 cmd) || negb (sin_family dst =? AF_INET) then Some ([], h)
  else if sin_addr dst =? INADDR_ANY then Some ([], h)
  else
    let all := PRC_IS_REDIRECT cmd || (cmd =? PRC_HOSTDEAD) in
    let fport := if all then 0 else u16 fport in
    let lport := if all then 0 else u16 lport in
    let laddr := if all then 0 else laddr in
    errno ← inetctlerrmap !! Z.to_nat cmd;
    let hit := concerned (sin_addr dst) fport laddr lport in
    if all && negb (cmd =? PRC_HOSTDEAD)
    then Some ([], Head (hd_lport h) ((λ i, if hit i then in_rtchange i else i) <$> hd_list h))
    else Some ((λ i, (i, errno)) <$> filter (λ i, hit i = true) (hd_list h), h).

(** [in_losing]: the block, and whether the route is deleted. *)
Definition in_losing (i : inpcb) : inpcb * option (rtentry * bool) :=
  match ro_rt (inp_route i) with
  | Some rt => (set_route i (RO None (ro_dst (inp_route i))), Some (rt, has_flag (rt_flags rt) IpInput.RTF_DYNAMIC))
  | None => (i, None)
  end.

(** ** Look-up *)

Lemma side_range pa a same w : side pa a same = Some w → 0 <= w <= 1.
Proof. unfold side. destruct (pa =? INADDR_ANY), (a =? INADDR_ANY), same; simpl; intros [= <-]; lia. Qed.

Lemma wildcard_range faddr fport laddr lport i w : wildcard faddr fport laddr lport i = Some w → 0 <= w <= 2.
Proof.
  unfold wildcard. destruct (negb _); [done|].
  destruct (side (inp_laddr i) _ _) as [w1|] eqn:E1; [|done]. destruct (side (inp_faddr i) _ _) as [w2|] eqn:E2; [|done].
  apply side_range in E1, E2. intros [= <-]. lia.
Qed.

(** The blocks a search may return. *)
Definition eligible (flags w : Z) : bool := negb (ztrue w && negb (ztrue (Z.land flags INPLOOKUP_WILDCARD))).

(** [i] is the first of the blocks of [l] with the least wildcards. *)
Definition best (faddr fport laddr lport flags : Z) (l : list inpcb) (i : inpcb) : Prop :=
  ∃ l1 l2 w, l = l1 ++ i :: l2 ∧ wildcard faddr fport laddr lport i = Some w ∧ eligible flags w = true ∧
    (∀ j w', j ∈ l1 → wildcard faddr fport laddr lport j = Some w' → eligible flags w' = true → w < w') ∧
    (∀ j w', j ∈ l2 → wildcard faddr fport laddr lport j = Some w' → eligible flags w' = true → w <= w').

Lemma lookup_loop_spec faddr fport laddr lport flags l : ∀ m mw,
  match lookup_loop faddr fport laddr lport flags m mw l with
  | Some i =>
      (m = Some i ∧ ∀ j w, j ∈ l → wildcard faddr fport laddr lport j = Some w → eligible flags w = true → mw <= w) ∨
      best faddr fport laddr lport flags l i ∧ ∃ w, wildcard faddr fport laddr lport i = Some w ∧ w < mw
  | None => m = None ∧ ∀ j w, j ∈ l → wildcard faddr fport laddr lport j = Some w → eligible flags w = true → mw <= w
  end.
Proof.
  induction l as [|i l IH]; intros m mw; cbn [lookup_loop].
  { destruct m as [i|]; [left|]; (split; [done|]); by intros j w H%elem_of_nil. }
  (* an element that does not change what is kept *)
  assert (Hskip : (∀ w, wildcard faddr fport laddr lport i = Some w → eligible flags w = true → mw <= w) →
    match lookup_loop faddr fport laddr lport flags m mw l with
    | Some k => (m = Some k ∧ ∀ j w, j ∈ i :: l → wildcard faddr fport laddr lport j = Some w → eligible flags w = true → mw <= w) ∨
        best faddr fport laddr lport flags (i :: l) k ∧ ∃ w, wildcard faddr fport laddr lport k = Some w ∧ w < mw
    | None => m = None ∧ ∀ j w, j ∈ i :: l → wildcard faddr fport laddr lport j = Some w → eligible flags w = true → mw <= w
    end).
  { intros Hi. specialize (IH m mw). destruct (lookup_loop _ _ _ _ _ m mw l) as [k|].
    - destruct IH as [[-> H]|[(l1 & l2 & w & -> & Hw & He & H1 & H2) Hlt]].
      + left. split; [done|]. intros j w [->|Hj]%elem_of_cons; [apply Hi|by apply H].
      + right. split; [|done]. exists (i :: l1), l2, w. split; [done|]. split; [done|]. split; [done|]. split; [|done].
        intros j w' [->|Hj]%elem_of_cons; [|by apply H1]. intros Hw' He'. specialize (Hi w' Hw' He'). destruct Hlt as (w0 & E & ?). simplify_eq. lia.
    - destruct IH as [-> H]. split; [done|]. intros j w [->|Hj]%elem_of_cons; [apply Hi|by apply H]. }
  destruct (wildcard faddr fport laddr lport i) as [w|] eqn:Ew; [|apply Hskip; done].
  pose proof (wildcard_range _ _ _ _ _ _ Ew) as Hr.
  destruct (ztrue w && negb (ztrue (Z.land flags INPLOOKUP_WILDCARD))) eqn:Ee.
  { apply Hskip. intros w' [= <-]. unfold eligible. by rewrite Ee. }
  assert (He : eligible flags w = true) by (unfold eligible; by rewrite Ee).
  destruct (Z.ltb_spec w mw) as [Hlt|Hge]; [|apply Hskip; by intros w' [= <-]].
  destruct (Z.eqb_spec w 0) as [->|Hz].
  { right. split; [|by exists 0]. exists [], l, 0. split; [done|]. split; [done|]. split; [done|].
    split; [by intros j w' H%elem_of_nil|]. intros j w' _ H _. apply wildcard_range in H. lia. }
  specialize (IH (Some i) w). destruct (lookup_loop _ _ _ _ _ (Some i) w l) as [k|]; [|by destruct IH].
  right. destruct IH as [[[= <-] H]|[(l1 & l2 & w' & -> & Hw' & He' & H1 & H2) (w0 & E & Hlt')]].
  - split; [|by exists w]. exists [], l, w. split; [done|]. split; [done|]. split; [done|]. split; [by intros j w' H'%elem_of_nil|done].
  - simplify_eq. split; [|exists w'; split; [done|lia]]. exists (i :: l1), l2, w'. do 3 (split; [done|]). split; [|done].
    intros j w0 [->|Hj]%elem_of_cons; [|by apply H1]. intros. simplify_eq. done.
Qed.

Lemma in_pcblookup_spec l faddr fport laddr lport flags :
  match in_pcblookup l faddr fport laddr lport flags with
  | Some i => best faddr fport laddr lport flags l i
  | None => ∀ j w, j ∈ l → wildcard faddr fport laddr lport j = Some w → eligible flags w = false
  end.
Proof.
  unfold in_pcblookup. pose proof (lookup_loop_spec faddr fport laddr lport flags l None 3) as H.
  destruct (lookup_loop _ _ _ _ _ _ _ _) as [i|]; [by destruct H as [[]|[]]|]. destruct H as [_ H]. intros j w Hj Hw.
  destruct (eligible flags w) eqn:E; [|done]. specialize (H j w Hj Hw E). apply wildcard_range in Hw. lia.
Qed.

(** ** The search for a port *)

Definition in_range (p : Z) : Prop := IPPORT_RESERVED <= p <= IPPORT_USERRESERVED.

(** The hint of a head is 0 at first, and a port of the range later. *)
Definition hint_ok (p : Z) : Prop := p = 0 ∨ in_range p.

Definition port_free (l : list inpcb) (laddr wild p : Z) : Prop := in_pcblookup l 0 0 laddr p wild = None.

Lemma next_port_spec p :
  hint_ok p → in_range (next_port p) ∧ next_port p = if (p <? IPPORT_RESERVED) || (p =? IPPORT_USERRESERVED) then IPPORT_RESERVED else p + 1.
Proof.
  unfold hint_ok, in_range, next_port, IPPORT_RESERVED, IPPORT_USERRESERVED. intros Hp.
  rewrite u16_id by (unfold is_u16; lia).
  destruct (Z.ltb_spec p 1024), (Z.ltb_spec 5000 (p + 1)), (Z.eqb_spec p 5000); cbn [orb]; lia.
Qed.

(** The distance to come to [q] from the hint [p]. *)
Definition distance (p q : Z) : Z := (q - next_port p) mod 3977.

Lemma distance_next p q : hint_ok p → in_range q → next_port p ≠ q → distance (next_port p) q = distance p q - 1 ∧ 0 < distance p q.
Proof.
  intros Hp Hq Hne. destruct (next_port_spec p Hp) as [H1 _]. destruct (next_port_spec (next_port p)) as [_ E]; [by right|].
  unfold distance. rewrite E. unfold in_range, IPPORT_RESERVED, IPPORT_USERRESERVED in *. set (n := next_port p) in *.
  rewrite (proj2 (Z.ltb_ge n 1024)) by lia. cbn [orb].
  destruct (Z.le_gt_cases n q).
  - rewrite (Z.mod_small (q - n)) by lia. destruct (Z.eqb_spec n 5000); [lia|]. rewrite Z.mod_small by lia. lia.
  - assert (E1 : (q - n) mod 3977 = q - n + 3977) by (symmetry; apply (Z.mod_unique _ _ (-1)); lia). rewrite E1.
    destruct (Z.eqb_spec n 5000).
    + rewrite Z.mod_small by lia. lia.
    + split; [|lia]. symmetry. apply (Z.mod_unique _ _ (-1)); lia.
Qed.

Lemma pick_port_spec fuel : ∀ p l laddr wild q,
  hint_ok p → in_range q → port_free l laddr wild q → distance p q < Z.of_nat fuel →
  ∃ r, pick_port fuel p l laddr wild = Some r ∧ in_range r ∧ port_free l laddr wild r.
Proof.
  induction fuel as [|fuel IH]; intros p l laddr wild q Hp Hq Hf Hr.
  { unfold distance in Hr. pose proof (Z.mod_pos_bound (q - next_port p) 3977). lia. }
  destruct (next_port_spec p Hp) as [Hn _]. cbn [pick_port]. destruct (in_pcblookup l 0 0 laddr (next_port p) wild) eqn:E.
  - assert (Hne : next_port p ≠ q) by (intros <-; unfold port_free in Hf; congruence).
    destruct (distance_next p q Hp Hq Hne) as [E1 H1]. apply (IH _ _ _ _ q); [by right|done|done|lia].
  - by exists (next_port p).
Qed.

(** ** Connections *)

(** The same addresses and ports. *)
Definition same_conn (i j : inpcb) : Prop :=
  inp_faddr i = inp_faddr j ∧ inp_fport i = inp_fport j ∧ inp_laddr i = inp_laddr j ∧ inp_lport i = inp_lport j.

(** A list of blocks: the addresses of the blocks are distinct, a block with a peer
    or an address has a port, and no two have the same peer and local name. *)
Record pcbs_ok (h : pcbs) : Prop := {
  ok_hint : hint_ok (hd_lport h);
  ok_ids : NoDup (inp_id <$> hd_list h);
  ok_bound : ∀ i, i ∈ hd_list h → inp_faddr i ≠ INADDR_ANY ∨ inp_laddr i ≠ INADDR_ANY → inp_lport i ≠ 0;
  ok_unique : ∀ i j, i ∈ hd_list h → j ∈ hd_list h → inp_faddr i ≠ INADDR_ANY → same_conn i j → i = j }.

Lemma ids_inj l i j : NoDup (inp_id <$> l) → i ∈ l → j ∈ l → inp_id i = inp_id j → i = j.
Proof.
  intros Hn Hi Hj E. apply list_elem_of_lookup_1 in Hi as [a Ha], Hj as [b Hb].
  assert (a = b) as ->; [|congruence]. eapply (NoDup_lookup (inp_id <$> l)); [done|by rewrite list_lookup_fmap, Ha|].
  by rewrite list_lookup_fmap, Hb, E.
Qed.

Lemma store_elem i j l : i ∈ store j l → (i = j ∧ ∃ k, k ∈ l ∧ inp_id k = inp_id j) ∨ (i ∈ l ∧ inp_id i ≠ inp_id j).
Proof.
  unfold store. intros (k & -> & Hk)%list_elem_of_fmap. destruct (Z.eqb_spec (inp_id k) (inp_id j)); [left|right; done].
  split; [done|]. by exists k.
Qed.

Lemma store_ids i l : inp_id <$> store i l = inp_id <$> l.
Proof. unfold store. rewrite <-list_fmap_compose. apply list_fmap_ext. intros _ j _. simpl. by destruct (Z.eqb_spec (inp_id j) (inp_id i)). Qed.

Lemma ids_member h id : id ∈ ids h ↔ ∃ i, i ∈ hd_list h ∧ inp_id i = id.
Proof. unfold ids. rewrite list_elem_of_fmap. split; intros (i & ? & ?); by exists i. Qed.

Lemma find_id_in h id i : find_id h id = Some i → i ∈ hd_list h ∧ inp_id i = id.
Proof. unfold find_id. intros [H1 H2]%find_some. zbool. split; [by apply list_elem_of_In|done]. Qed.

Lemma bind_ids a b c h i nam e h' : in_pcbbind a b c h i nam = Some (e, h') → ids h' = ids h.
Proof.
  unfold in_pcbbind. destruct (match c with [] => _ | _ => _ end); [by intros [= _ <-]|]. destruct (_ || _); [by intros [= _ <-]|].
  destruct (bind_name _ _ _ _ _) as [?|[laddr lport]]; [by intros [= _ <-]|]. destruct (lport =? 0).
  - destruct (pick_port _ _ _ _ _); [|done]. intros [= _ <-]. apply store_ids.
  - intros [= _ <-]. apply store_ids.
Qed.

Lemma connect_pcb_ids a b c h i f p l e h' : connect_pcb a b c h i f p l = Some (e, h') → ids h' = ids h.
Proof.
  unfold connect_pcb. destruct (in_pcblookup _ _ _ _ _ _); [by intros [= _ <-]|]. destruct (inp_laddr i =? INADDR_ANY).
  - destruct (inp_lport i =? 0).
    + destruct (in_pcbbind _ _ _ _ _ _) as [[e1 h1]|] eqn:E; [|done]. cbn. intros [= _ <-]. apply bind_ids in E. rewrite <-E. apply store_ids.
    + cbn. intros [= _ <-]. apply store_ids.
  - intros [= _ <-]. apply store_ids.
Qed.

Lemma connect_ids a b c rt d n h i m sin e h' : in_pcbconnect a b c rt d n h i m sin = Some (e, h') → ids h' = ids h.
Proof.
  unfold in_pcbconnect. cbv zeta. destruct (negb _); [by intros [= _ <-]|]. destruct (negb _); [by intros [= _ <-]|].
  destruct (_ =? 0); [by intros [= _ <-]|]. destruct (inp_laddr i =? INADDR_ANY).
  - destruct (connect_ifaddr _ _ _ _ _ _).
    + intros E%connect_pcb_ids. rewrite E. apply store_ids.
    + intros [= _ <-]. apply store_ids.
  - apply connect_pcb_ids.
Qed.

Lemma stored_found p i l id j : find_id (Head p (store i l)) id = Some j → id = inp_id i → j = i.
Proof. intros E ->. apply find_id_in in E as [Hj Ej]. cbn [hd_list] in Hj. apply store_elem in Hj as [[-> _]|[_ ?]]; done. Qed.

(** Changing one block keeps the list in order if the block is, and if no other one
    has its names. *)
Lemma store_ok h i p :
  pcbs_ok h → hint_ok p → (inp_faddr i ≠ INADDR_ANY ∨ inp_laddr i ≠ INADDR_ANY → inp_lport i ≠ 0) →
  (inp_faddr i ≠ INADDR_ANY → ∀ j, j ∈ hd_list h → inp_id j ≠ inp_id i → ¬ same_conn i j) →
  pcbs_ok (Head p (store i (hd_list h))).
Proof.
  intros [H1 H2 H3 H4] Hp Hb Hu. split; cbn [hd_lport hd_list]; [done|by rewrite store_ids| |].
  - intros j [[-> _]|[Hj _]]%store_elem; [done|by apply H3].
  - intros a b [[-> _]|[Ha Ha']]%store_elem [[-> _]|[Hb' Hb'']]%store_elem Hf Hs; [done| | |by apply H4].
    + by destruct (Hu Hf b Hb' Hb'').
    + destruct Hs as (E1 & E2 & E3 & E4). destruct (Hu ltac:(congruence) a Ha Ha'). by split_and!.
Qed.

Lemma wildcard_exact i faddr fport laddr lport :
  inp_faddr i = faddr → inp_fport i = fport → inp_laddr i = laddr → inp_lport i = lport → wildcard faddr fport laddr lport i = Some 0.
Proof.
  intros <- <- <- <-. unfold wildcard, side. rewrite !Z.eqb_refl. cbn [negb andb mbind option_bind].
  by destruct (inp_laddr i =? INADDR_ANY), (inp_faddr i =? INADDR_ANY).
Qed.

(** A free port with the wildcard search has no block at all. *)
Lemma port_free_unused l p j : port_free l INADDR_ANY INPLOOKUP_WILDCARD p → j ∈ l → inp_lport j ≠ p.
Proof.
  unfold port_free. intros E Hj Hp. pose proof (in_pcblookup_spec l 0 0 INADDR_ANY p INPLOOKUP_WILDCARD) as H. rewrite E in H.
  assert (∃ w, wildcard 0 0 INADDR_ANY p j = Some w) as [w Hw].
  { unfold wildcard, side. rewrite Hp, Z.eqb_refl. cbn [negb]. change (INADDR_ANY =? INADDR_ANY) with true. change (0 =? INADDR_ANY) with true.
    cbn [negb]. destruct (inp_laddr j =? INADDR_ANY), (inp_faddr j =? INADDR_ANY); cbn; by eexists. }
  specialize (H j w Hj Hw). unfold eligible in H. change (ztrue (Z.land INPLOOKUP_WILDCARD INPLOOKUP_WILDCARD)) with true in H.
  by destruct (ztrue w).
Qed.

Lemma pick_port_range fuel : ∀ p l laddr wild r,
  hint_ok p → pick_port fuel p l laddr wild = Some r → in_range r ∧ port_free l laddr wild r.
Proof.
  induction fuel as [|fuel IH]; intros p l laddr wild r Hp; cbn [pick_port]; [done|]. destruct (next_port_spec p Hp) as [Hn _].
  destruct (in_pcblookup _ _ _ _ (next_port p) _) eqn:E; [apply IH; by right|by intros [= <-]].
Qed.

Lemma range_nonzero p : in_range p → p ≠ 0.
Proof. unfold in_range, IPPORT_RESERVED. lia. Qed.

(** Without wildcards a block with addresses is found by its own names only. *)
Lemma wildcard_zero i k :
  inp_faddr i ≠ INADDR_ANY → inp_laddr i ≠ INADDR_ANY →
  wildcard (inp_faddr i) (inp_fport i) (inp_laddr i) (inp_lport i) k = Some 0 → same_conn i k.
Proof.
  intros Hf Hl. unfold wildcard. destruct (Z.eqb_spec (inp_lport k) (inp_lport i)) as [E4|]; [|done]. cbn [negb].
  unfold side. rewrite (proj2 (Z.eqb_neq (inp_laddr i) _) Hl), (proj2 (Z.eqb_neq (inp_faddr i) _) Hf). cbn [negb].
  destruct (inp_laddr k =? INADDR_ANY); cbn [negb mbind option_bind].
  { destruct (inp_faddr k =? INADDR_ANY); cbn [negb]; [done|]. by destruct (_ && _). }
  destruct (Z.eqb_spec (inp_laddr k) (inp_laddr i)) as [E3|]; [|done]. cbn [mbind option_bind].
  destruct (inp_faddr k =? INADDR_ANY); cbn [negb]; [done|].
  destruct (Z.eqb_spec (inp_faddr k) (inp_faddr i)) as [E1|]; [|done]. destruct (Z.eqb_spec (inp_fport k) (inp_fport i)) as [E2|]; [|done]. done.
Qed.

(** In a list in order, a block with addresses is found by its names, also by a search
    with wildcards. *)
Lemma lookup_connected h i flags :
  pcbs_ok h → i ∈ hd_list h → inp_faddr i ≠ INADDR_ANY → inp_laddr i ≠ INADDR_ANY →
  in_pcblookup (hd_list h) (inp_faddr i) (inp_fport i) (inp_laddr i) (inp_lport i) flags = Some i.
Proof.
  intros Hok Hi Hf Hl.
  pose proof (in_pcblookup_spec (hd_list h) (inp_faddr i) (inp_fport i) (inp_laddr i) (inp_lport i) flags) as H.
  pose proof (wildcard_exact i _ _ _ _ eq_refl eq_refl eq_refl eq_refl) as Hw.
  destruct (in_pcblookup _ _ _ _ _ _) as [k|]; [|by specialize (H i 0 Hi Hw)]. f_equal.
  destruct H as (l1 & l2 & w & El & Hk & He & H1 & H2).
  assert (w = 0) as ->.
  { pose proof (wildcard_range _ _ _ _ _ _ Hk). rewrite El in Hi. apply elem_of_app in Hi as [Hi|[->|Hi]%elem_of_cons].
    - specialize (H1 i 0 Hi Hw eq_refl). lia.
    - congruence.
    - specialize (H2 i 0 Hi Hw eq_refl). lia. }
  symmetry. apply (ok_unique h Hok); [done|rewrite El; apply elem_of_app; right; by left|done|]. by apply wildcard_zero.
Qed.

Lemma in_pcbbind_ok ifa_ifwithaddr suser in_ifaddrs h i nam e h' :
  pcbs_ok h → i ∈ hd_list h → in_pcbbind ifa_ifwithaddr suser in_ifaddrs h i nam = Some (e, h') → pcbs_ok h'.
Proof.
  intros Hok Hi. unfold in_pcbbind. destruct in_ifaddrs; [by intros [= <- <-]|]. destruct (_ || _) eqn:E0; [by intros [= <- <-]|].
  apply orb_false_elim in E0 as [E0 E0']. zbool.
  assert (Hfa : inp_faddr i = INADDR_ANY).
  { destruct (decide (inp_faddr i = INADDR_ANY)); [done|]. by destruct (ok_bound h Hok i Hi); [left|]. }
  assert (Hst : ∀ hint a p, hint_ok hint → p ≠ 0 → pcbs_ok (Head hint (store (set_local i a p) (hd_list h)))).
  { intros hint a p Hh Hp. by apply store_ok. }
  destruct (bind_name _ _ _ _ _) as [e'|[laddr lport]]; [by intros [= <- <-]|].
  destruct (Z.eqb_spec lport 0).
  - destruct (pick_port _ _ _ _ _) as [p|] eqn:Ep; [|done]. intros [= <- <-].
    destruct (pick_port_range _ _ _ _ _ _ (ok_hint h Hok) Ep) as [Hr _]. apply Hst; [by right|by apply range_nonzero].
  - intros [= <- <-]. apply Hst; [apply Hok|done].
Qed.

Lemma store_member i l : i ∈ l → ∀ j, inp_id j = inp_id i → j ∈ store j l.
Proof. intros Hi j E. unfold store. apply list_elem_of_fmap. exists i. by rewrite E, Z.eqb_refl. Qed.

Section Ok.
Context (ifa_ifwithaddr : Z → bool) (suser : Z) (in_ifaddrs : list in_ifaddr).
Context (rtalloc : Z → option rtentry) (ifa_ifwithdstaddr ifa_ifwithnet : Z → option in_ifaddr).
#[local] Set Default Proof Using "Type*".

(** A port that [in_pcbbind] chooses without a name is used by no other block. *)
Lemma bind_fresh h i h' e :
  pcbs_ok h → i ∈ hd_list h → in_ifaddrs ≠ [] → inp_lport i = 0 → bind_wild i = INPLOOKUP_WILDCARD →
  in_pcbbind ifa_ifwithaddr suser in_ifaddrs h i None = Some (e, h') →
  ∃ p, h' = Head p (store (set_local i INADDR_ANY p) (hd_list h)) ∧ in_range p ∧ ∀ j, j ∈ hd_list h → inp_lport j ≠ p.
Proof.
  intros Hok Hi Hn Hl Hw. unfold in_pcbbind. destruct in_ifaddrs; [done|]. rewrite Hl.
  assert (inp_laddr i = INADDR_ANY) as Ela.
  { destruct (decide (inp_laddr i = INADDR_ANY)); [done|]. by destruct (ok_bound h Hok i Hi); [right|]. }
  rewrite Ela. cbn [negb orb bind_name Z.eqb]. change (INADDR_ANY =? INADDR_ANY) with true. cbn [negb]. rewrite Ela, Hw.
  destruct (pick_port _ _ _ _ _) as [p|] eqn:Ep; [|done]. intros [= <- <-].
  destruct (pick_port_range _ _ _ _ _ _ (ok_hint h Hok) Ep) as [Hr Hf]. exists p. split; [done|]. split; [done|].
  intros j. by apply port_free_unused.
Qed.

Lemma port_of_store h i j p : i ∈ hd_list h → inp_id j = inp_id i → port_of (Head p (store j (hd_list h))) (inp_id i) = inp_lport j.
Proof.
  clear. intros Hi Ej. unfold port_of. cbn [hd_list]. destruct (find _ _) as [k|] eqn:E.
  - apply find_some in E as [Hk E]. zbool. apply list_elem_of_In in Hk. apply store_elem in Hk as [[-> _]|[_ ?]]; [done|congruence].
  - pose proof (find_none _ _ E j) as H. cbn beta in H. rewrite Ej, Z.eqb_refl in H. discriminate H. apply list_elem_of_In. by apply (store_member i).
Qed.

Lemma port_of_member h i : pcbs_ok h → i ∈ hd_list h → port_of h (inp_id i) = inp_lport i.
Proof.
  clear. intros Hok Hi. unfold port_of. destruct (find _ _) as [k|] eqn:E.
  - apply find_some in E as [Hk E]. zbool. apply list_elem_of_In in Hk. by rewrite (ids_inj (hd_list h) k i (ok_ids h Hok)).
  - pose proof (find_none _ _ E i) as H. cbn beta in H. rewrite Z.eqb_refl in H. discriminate H. by apply list_elem_of_In.
Qed.

Lemma connect_pcb_ok h i faddr fport laddr e h' :
  pcbs_ok h → i ∈ hd_list h → inp_lport i ≠ 0 ∨ in_ifaddrs ≠ [] ∧ bind_wild i = INPLOOKUP_WILDCARD →
  (inp_laddr i ≠ INADDR_ANY → laddr = inp_laddr i) →
  connect_pcb ifa_ifwithaddr suser in_ifaddrs h i faddr fport laddr = Some (e, h') → pcbs_ok h'.
Proof.
  intros Hok Hi Hport Hla. unfold connect_pcb. pose proof (in_pcblookup_spec (hd_list h) faddr fport laddr (inp_lport i) 0) as Hlook.
  destruct (in_pcblookup _ _ _ _ _ _) as [k|]; [by intros [= <- <-]|].
  (* no block has the names of the connection with the port of [i] *)
  assert (Hnone : ∀ j, j ∈ hd_list h → ¬ (inp_faddr j = faddr ∧ inp_fport j = fport ∧ inp_laddr j = laddr ∧ inp_lport j = inp_lport i)).
  { intros j Hj (E1 & E2 & E3 & E4). by specialize (Hlook j 0 Hj (wildcard_exact j _ _ _ _ E1 E2 E3 E4)). }
  destruct (Z.eqb_spec (inp_laddr i) INADDR_ANY) as [Ela|Ela].
  - destruct (Z.eqb_spec (inp_lport i) 0) as [El|El].
    + destruct Hport as [?|[Hn Hw]]; [done|]. destruct (in_pcbbind _ _ _ _ _ _) as [[e1 h1]|] eqn:Eb; [|done]. cbn [mbind option_bind snd].
      intros [= <- <-]. destruct (bind_fresh _ _ _ _ Hok Hi Hn El Hw Eb) as (p & -> & Hp & Hfree).
      pose proof (in_pcbbind_ok _ _ _ _ _ _ _ _ Hok Hi Eb) as Hok1.
      rewrite (port_of_store h i (set_local i INADDR_ANY p) p) by done. cbn [hd_lport hd_list inp_lport set_local].
      apply (store_ok (Head p _)); [done|by right| |].
      * intros _. by apply range_nonzero.
      * intros _ j Hj Hid (E1 & E2 & E3 & E4). cbn [hd_list] in Hj. cbn in Hid, E4. apply store_elem in Hj as [[-> _]|[Hj _]]; [done|]. by apply (Hfree j Hj).
    + cbn [mbind option_bind]. intros [= <- <-]. rewrite port_of_member by done. apply store_ok; [done|apply Hok|done|].
      intros _ j Hj _ (E1 & E2 & E3 & E4). apply (Hnone j Hj). by cbn in *.
  - rewrite (Hla Ela) in *. intros [= <- <-]. apply store_ok; [done|apply Hok| |].
    + intros _. apply (ok_bound h Hok i Hi). by right.
    + intros _ j Hj _ (E1 & E2 & E3 & E4). apply (Hnone j Hj). by cbn in *.
Qed.

Lemma in_pcbconnect_ok h i m_len sin e h' :
  pcbs_ok h → i ∈ hd_list h → inp_lport i ≠ 0 ∨ in_ifaddrs ≠ [] ∧ bind_wild i = INPLOOKUP_WILDCARD →
  in_pcbconnect ifa_ifwithaddr suser in_ifaddrs rtalloc ifa_ifwithdstaddr ifa_ifwithnet h i m_len sin = Some (e, h') → pcbs_ok h'.
Proof.
  intros Hok Hi Hport. unfold in_pcbconnect. cbv zeta. destruct (negb _); [by intros [= <- <-]|]. destruct (negb _); [by intros [= <- <-]|].
  destruct (sin_port sin =? 0); [by intros [= <- <-]|]. destruct (Z.eqb_spec (inp_laddr i) INADDR_ANY) as [Ela|Ela].
  - set (ro := connect_route _ _ _).
    assert (Hok1 : pcbs_ok (Head (hd_lport h) (store (set_route i ro) (hd_list h)))).
    { apply store_ok; [done|apply Hok|by apply (ok_bound h Hok i Hi)|]. intros Hf j Hj Hid Hs. apply Hid. by rewrite (ok_unique h Hok i j Hi Hj Hf Hs). }
    destruct (connect_ifaddr _ _ _ _ _ _) as [ia|]; [|by intros [= <- <-]].
    apply (connect_pcb_ok _ (set_route i ro)); [done|by apply (store_member i)|done|done].
  - by apply connect_pcb_ok.
Qed.


(** A connection that fails leaves the list as it is, up to the route of the block. *)
Lemma connect_failed h i m_len sin e h' :
  in_pcbconnect ifa_ifwithaddr suser in_ifaddrs rtalloc ifa_ifwithdstaddr ifa_ifwithnet h i m_len sin = Some (e, h') → e ≠ 0 →
  h' = h ∨ ∃ ro, h' = Head (hd_lport h) (store (set_route i ro) (hd_list h)).
Proof.
  intros E He. unfold in_pcbconnect in E. cbv zeta in E.
  assert (Hf : ∀ h i f p l, connect_pcb ifa_ifwithaddr suser in_ifaddrs h i f p l = Some (e, h') → h' = h).
  { clear E. intros h1 i1 f p l. unfold connect_pcb. destruct (in_pcblookup _ _ _ _ _ _); [by intros [= <- <-]|].
    destruct (_ =? _); [|by intros [= <- <-]]. destruct (_ =? 0); [destruct (in_pcbbind _ _ _ _ _ _); [|done]|]; cbn; by intros [= <- <-]. }
  destruct (negb _); [left; congruence|]. destruct (negb _); [left; congruence|]. destruct (_ =? 0); [left; congruence|].
  destruct (_ =? _); [|left; by eapply Hf]. right. eexists.
  destruct (connect_ifaddr _ _ _ _ _ _); [eapply Hf, E|by injection E as <- <-].
Qed.
End Ok.

(** ** The life of a list *)

Lemma alloc_ok a opts st pr h : pcbs_ok h → a ∉ (inp_id <$> hd_list h) → pcbs_ok (in_pcballoc (Some a) opts st pr h).2.
Proof.
  intros [H1 H2 H3 H4] Ha. split; cbn [in_pcballoc snd hd_lport hd_list]; [done|by constructor| |].
  - intros i [->|Hi]%elem_of_cons; [by intros [|]|by apply H3].
  - intros i j [->|Hi]%elem_of_cons; [done|]. intros [->|Hj]%elem_of_cons Hf Hs; [|by apply H4]. destruct Hs as (E & _). by rewrite E in Hf.
Qed.

Lemma detach_ok h i : pcbs_ok h → pcbs_ok (in_pcbdetach h i).
Proof.
  intros [H1 H2 H3 H4]. split; cbn [in_pcbdetach hd_lport hd_list]; [done| | |].
  - eapply sublist_NoDup; [exact H2|]. apply fmap_sublist, sublist_filter.
  - intros j [_ Hj]%list_elem_of_filter. by apply H3.
  - intros a b [_ Ha]%list_elem_of_filter [_ Hb]%list_elem_of_filter. by apply H4.
Qed.

(** A change of a block that leaves its names alone. *)
Lemma store_same_ok h i j :
  pcbs_ok h → i ∈ hd_list h → inp_id j = inp_id i → same_conn j i → pcbs_ok (Head (hd_lport h) (store j (hd_list h))).
Proof.
  intros Hok Hi Hid (E1 & E2 & E3 & E4). apply store_ok; [done|apply Hok| |].
  - rewrite E1, E3, E4. by apply (ok_bound h Hok i Hi).
  - intros Hf k Hk Hk' (F1 & F2 & F3 & F4). apply Hk'. rewrite Hid. f_equal. symmetry. apply (ok_unique h Hok i k); [done|done|congruence|].
    split_and!; congruence.
Qed.

Lemma rtchange_ok h (f : inpcb → bool) : pcbs_ok h → pcbs_ok (Head (hd_lport h) ((λ i, if f i then in_rtchange i else i) <$> hd_list h)).
Proof.
  intros [H1 H2 H3 H4].
  assert (Hsame : ∀ i, let j := if f i then in_rtchange i else i in inp_id j = inp_id i ∧ same_conn j i).
  { intros i j. unfold j, in_rtchange. by destruct (f i); [destruct (ro_rt _)|]. }
  split; cbn [hd_lport hd_list]; [done| | |].
  - rewrite <-list_fmap_compose. erewrite list_fmap_ext; [exact H2|]. intros _ i _. apply Hsame.
  - intros j (i & -> & Hi)%list_elem_of_fmap. destruct (Hsame i) as (_ & E1 & E2 & E3 & E4). rewrite E1, E3, E4. by apply H3.
  - intros a b (i & -> & Hi)%list_elem_of_fmap (k & -> & Hk)%list_elem_of_fmap Hf Hs.
    destruct (Hsame i) as (_ & E1 & E2 & E3 & E4), (Hsame k) as (_ & F1 & F2 & F3 & F4), Hs as (G1 & G2 & G3 & G4).
    assert (i = k) as ->; [|done]. apply H4; [done|done|congruence|]. split_and!; congruence.
Qed.

Lemma disconnect_ids h i : has_flag (so_state i) SS_NOFDREF = false → ids (in_pcbdisconnect h i) = ids h.
Proof. intros H. unfold in_pcbdisconnect. cbv zeta. change (so_state (set_foreign _ _ _)) with (so_state i). rewrite H. apply store_ids. Qed.

(** A change of one block that leaves its names alone, or makes it one without a peer
    and with a port. *)
Definition mild (h : pcbs) (id : Z) (f : inpcb → inpcb) : Prop :=
  ∀ i, find_id h id = Some i → inp_id (f i) = inp_id i ∧
    (same_conn (f i) i ∨ inp_faddr (f i) = INADDR_ANY ∧ (inp_laddr (f i) ≠ INADDR_ANY → inp_lport (f i) ≠ 0)).

Lemma update_pcb_ok h id f : pcbs_ok h → mild h id f → pcbs_ok (update_pcb h id f) ∧ ids (update_pcb h id f) = ids h.
Proof.
  intros Hok Hf. unfold update_pcb. destruct (find_id h id) as [i|] eqn:E; [|done]. destruct (Hf i E) as [E1 E2].
  apply find_id_in in E as [Hi _]. split; [|unfold ids; cbn [hd_list]; apply store_ids].
  destruct E2 as [E2|[E2 E3]]; [by apply (store_same_ok h i)|]. apply store_ok; [done|apply Hok| |done].
  intros [?|?]; [done|by apply E3].
Qed.

(** What happens to the list of a protocol, with whatever interfaces, routes and
    privileges there are at the time: the operations of this file, and [step_update],
    a change of a block that keeps its names, or leaves it without a peer and with a
    port if it has an address: the options and the state of the socket, the name of
    ours that UDP clears when it disconnects, the names [tcp_input] gives to a new
    block.  A block is allocated where none is; a connection is made for a bound socket, or,
    on a system with an address, for one whose binding excludes the ports in use. *)
Inductive pcb_step : pcbs → pcbs → Prop :=
  | step_alloc a opts st pr h :
      a ∉ ids h → pcb_step h (in_pcballoc (Some a) opts st pr h).2
  | step_bind ifa_ifwithaddr suser in_ifaddrs h i nam e h' :
      i ∈ hd_list h → in_pcbbind ifa_ifwithaddr suser in_ifaddrs h i nam = Some (e, h') → pcb_step h h'
  | step_connect ifa_ifwithaddr suser in_ifaddrs rtalloc ifa_ifwithdstaddr ifa_ifwithnet h i m_len sin e h' :
      i ∈ hd_list h → inp_lport i ≠ 0 ∨ in_ifaddrs ≠ [] ∧ bind_wild i = INPLOOKUP_WILDCARD →
      in_pcbconnect ifa_ifwithaddr suser in_ifaddrs rtalloc ifa_ifwithdstaddr ifa_ifwithnet h i m_len sin = Some (e, h') → pcb_step h h'
  | step_disconnect h i : i ∈ hd_list h → pcb_step h (in_pcbdisconnect h i)
  | step_detach h i : i ∈ hd_list h → pcb_step h (in_pcbdetach h i)
  | step_notify h dst fport laddr lport cmd calls h' :
      in_pcbnotify h dst fport laddr lport cmd = Some (calls, h') → pcb_step h h'
  | step_update h id f : mild h id f → pcb_step h (update_pcb h id f).

Lemma pcb_step_ok h h' : pcb_step h h' → pcbs_ok h → pcbs_ok h'.
Proof.
  destruct 1 as [a opts st pr h Ha|? ? ? h i nam e h' Hi E|? ? ? ? ? ? h i m_len sin e h' Hi Hp E|h i Hi|h i Hi|
    h dst fport laddr lport cmd calls h' E|h id f Hf]; intros Hok.
  - by apply alloc_ok.
  - by eapply in_pcbbind_ok.
  - by eapply in_pcbconnect_ok.
  - unfold in_pcbdisconnect. cbv zeta.
    assert (Hok' : pcbs_ok (Head (hd_lport h) (store (set_foreign i INADDR_ANY 0) (hd_list h)))).
    { apply store_ok; [done|apply Hok| |done]. intros [|Hl]; [done|]. apply (ok_bound h Hok i Hi). by right. }
    destruct (has_flag _ _); [by apply detach_ok|done].
  - by apply detach_ok.
  - unfold in_pcbnotify in E. cbv zeta in E. destruct (_ || _); [by injection E as <- <-|]. destruct (_ =? _); [by injection E as <- <-|].
    destruct (inetctlerrmap !! _) as [en|]; [|done]. cbn [mbind option_bind] in E. destruct (_ && _); injection E as <- <-; [by apply rtchange_ok|done].
  - by apply update_pcb_ok.
Qed.

Lemma reachable_ok h : rtc pcb_step (Head 0 []) h → pcbs_ok h.
Proof.
  intros H. assert (pcbs_ok (Head 0 [])) as Hok.
  { split; cbn; [by left|constructor|by intros i Hi%elem_of_nil|by intros i j Hi%elem_of_nil]. }
  induction H as [h|h1 h2 h3 H1 H2 IH]; [done|]. apply IH. by eapply pcb_step_ok.
Qed.

(** ** Properties *)


(** A port of the range that no block has: bindings and connections return. *)
Definition spare (h : pcbs) : Prop := ∃ q, in_range q ∧ ∀ j, j ∈ hd_list h → inp_lport j ≠ q.

Lemma spare_store h i : spare h → i ∈ hd_list h → ∀ j p, inp_lport j = inp_lport i → spare (Head p (store j (hd_list h))).
Proof.
  intros (q & Hq & Hf) Hi j p E. exists q. split; [done|]. intros k [[-> _]|[Hk _]]%store_elem; [rewrite E; by apply Hf|by apply Hf].
Qed.

Lemma pick_port_returns h laddr wild : hint_ok (hd_lport h) → spare h → is_Some (pick_port ports (hd_lport h) (hd_list h) laddr wild).
Proof.
  intros Hh (q & Hq & Hf). destruct (pick_port_spec ports (hd_lport h) (hd_list h) laddr wild q) as (r & -> & _); [done|done| | |done].
  - unfold port_free. pose proof (in_pcblookup_spec (hd_list h) 0 0 laddr q wild) as H. destruct (in_pcblookup _ _ _ _ _ _) as [k|]; [|done].
    exfalso. destruct H as (l1 & l2 & w & El & Hw & _). apply (Hf k); [rewrite El; apply elem_of_app; right; by left|].
    unfold wildcard in Hw. destruct (Z.eqb_spec (inp_lport k) q); [done|discriminate Hw].
  - unfold distance, ports. pose proof (Z.mod_pos_bound (q - next_port (hd_lport h)) 3977). lia.
Qed.

Lemma bind_returns a b c h i nam : hint_ok (hd_lport h) → spare h → is_Some (in_pcbbind a b c h i nam).
Proof.
  intros Hh Hs. unfold in_pcbbind. destruct (match c with [] => true | _ => false end); [done|]. destruct (_ || _); [done|].
  destruct (bind_name _ _ _ _ _) as [|[la lp]]; [done|]. destruct (lp =? 0); [|done].
  by destruct (pick_port_returns h la (bind_wild i) Hh Hs) as [p ->].
Qed.

Lemma connect_returns a b c rt d n h i m sin :
  hint_ok (hd_lport h) → spare h → i ∈ hd_list h → is_Some (in_pcbconnect a b c rt d n h i m sin).
Proof.
  intros Hh Hs Hi. assert (Hp : ∀ h i f p l, hint_ok (hd_lport h) → spare h → is_Some (connect_pcb a b c h i f p l)).
  { clear. intros h i f p l Hh Hs. unfold connect_pcb. destruct (in_pcblookup _ _ _ _ _ _); [done|]. destruct (_ =? _); [|done].
    destruct (_ =? 0); [|done]. by destruct (bind_returns a b c h i None Hh Hs) as [r ->]. }
  unfold in_pcbconnect. cbv zeta. destruct (negb _); [done|]. destruct (negb _); [done|]. destruct (_ =? 0); [done|].
  destruct (_ =? _); [|by apply Hp]. destruct (connect_ifaddr _ _ _ _ _ _); [|done]. apply Hp; [done|by apply (spare_store h i)].
Qed.

(** [in_pcblookup] returns the first of the control blocks of the port that match
    with the fewest wildcards, and nothing only if there is none that matches. *)
Theorem in_pcblookup_best l faddr fport laddr lport flags :
  match in_pcblookup l faddr fport laddr lport flags with
  | Some i => best faddr fport laddr lport flags l i
  | None => ∀ j w, j ∈ l → wildcard faddr fport laddr lport j = Some w → eligible flags w = false
  end.
Proof. apply in_pcblookup_spec. Qed.

(** The search for a port ends, with a port of the range that is free, whenever there
    is one; when there is none it never ends. *)
Theorem port_search p l laddr wild :
  hint_ok p →
  (∀ q, in_range q → port_free l laddr wild q →
     ∃ r, pick_port ports p l laddr wild = Some r ∧ in_range r ∧ port_free l laddr wild r) ∧
  ((∀ q, in_range q → ¬ port_free l laddr wild q) → ∀ fuel, pick_port fuel p l laddr wild = None).
Proof.
  intros Hp. split.
  - intros q Hq Hf. apply (pick_port_spec _ _ _ _ _ q Hp Hq Hf). unfold distance, ports.
    pose proof (Z.mod_pos_bound (q - next_port p) 3977). lia.
  - intros Hnone fuel. destruct (pick_port fuel p l laddr wild) as [r|] eqn:E; [|done].
    apply pick_port_range in E as [Hr Hf]; [|done]. by destruct (Hnone r Hr).
Qed.

(** ** Examples *)

Definition ex_ia : in_ifaddr := IA (IFN 1 IFF_BROADCAST 1500) 0x0a000002 0x0a0000ff 0x0a000000 0xff000000 0x0a000000 0xffffff00 0x0affffff [].
Definition ex_rt : rtentry := RT 0 RTF_UP ex_ia (IFN 1 IFF_BROADCAST 1500) 0.
Definition ex_pcb (id faddr fport laddr lport opts : Z) : inpcb := Inp id faddr fport laddr lport opts 0 PR_CONNREQUIRED (RO None 0) None 0 0 0 None.

#[local] Abbreviation ex_connect := (in_pcbconnect (λ _, true) 0 [ex_ia] (λ _, Some ex_rt) (λ _, None) (λ _, None)).

(** A socket is made and connected. *)
Definition ex_connected : pcbs :=
  Head 1024 [Inp 7 0x0b000001 80 0x0a000002 1024 0 0 PR_CONNREQUIRED (RO (Some ex_rt) 0x0b000001) None 0 0 0 None].

Lemma ex_reachable : rtc pcb_step (Head 0 []) ex_connected.
Proof.
  eapply rtc_l; [apply (step_alloc 7 0 0 PR_CONNREQUIRED (Head 0 [])); by intros H%elem_of_nil|].
  eapply rtc_l; [|apply rtc_refl]. eapply (step_connect (λ _, true) 0 [ex_ia] (λ _, Some ex_rt) (λ _, None) (λ _, None) _ (ex_pcb 7 0 0 0 0 0) 16 (Sin AF_INET 80 0x0b000001) 0);
    [by left|by right|].
  vm_compute. reflexivity.
Qed.


Lemma port_search_witness :
  (∀ q, in_range q → port_free (hd_list ex_connected) 0 1 q →
     ∃ r, pick_port ports 5000 (hd_list ex_connected) 0 1 = Some r ∧ in_range r ∧ port_free (hd_list ex_connected) 0 1 r) ∧
  ((∀ q, in_range q → ¬ port_free (hd_list ex_connected) 0 1 q) → ∀ fuel, pick_port fuel 5000 (hd_list ex_connected) 0 1 = None).
Proof. apply (port_search 5000 (hd_list ex_connected) 0 1). right. unfold in_range, IPPORT_RESERVED, IPPORT_USERRESERVED. lia. Defined.

(** A socket with [SO_REUSEADDR] that connects without being bound can be given the
    port of another connection to the same peer: [in_pcbconnect] looks for the names
    before [in_pcbbind] chooses the port, and that choice looks only at blocks without
    addresses.  The two blocks then have the same names, and the segments of the new
    connection go to the one that is first in the list. *)
Theorem reuse_connect_duplicates :
  let i := ex_pcb 1 0x0b000001 80 0x0a000002 1024 SO_REUSEADDR in
  let j := ex_pcb 2 0 0 0 0 SO_REUSEADDR in
  ∃ h k, ex_connect (Head 5000 [i; j]) j 16 (Sin AF_INET 80 0x0b000001) = Some (0, h) ∧ hd_list h = [i; k] ∧ inp_id k = 2 ∧ same_conn i k ∧
    in_pcblookup (hd_list h) 0x0b000001 80 0x0a000002 1024 INPLOOKUP_WILDCARD = Some i.
Proof. intros i j. do 2 eexists. split; [vm_compute; reflexivity|]. by split. Qed.

(** [in_pcbnotify] accepts [PRC_NCMDS] itself, and reads past the table. *)
Example notify_past_table : in_pcbnotify (Head 0 []) (Sin AF_INET 0 0x0b000001) 0 0 0 PRC_NCMDS = None.
Proof. reflexivity. Qed.

End Pcb.
