(* ===== verification/Udp.v ===== *)
(** * UDP (netinet/udp_usrreq.c)

    [udp_input] and [udp_output] with the control blocks of UDP, the block found last,
    and the receive buffers of the sockets.  The header of the packet is a record, as in
    the files on IP; what is read or written behind or over it is in the mbufs. *)

From stdpp Require Import gmap options.
From S2P Require Import Prelude Mbuf Cksum Ip Sockbuf IpOutput IpInput IpForward Pcb.
Import Mbuf Ip Sockbuf IpOutput IpInput IpForward Pcb.

Module Udp.

Definition ICMP_UNREACH_PORT : Z := 3.
Definition INP_RECVOPTS : Z := 0x01.
Definition INP_RECVRETOPTS : Z := 0x02.
Definition INP_RECVDSTADDR : Z := 0x04.
Definition INP_CONTROLOPTS : Z := Z.lor (Z.lor INP_RECVOPTS INP_RECVRETOPTS) INP_RECVDSTADDR.
Definition IP_RECVDSTADDR : Z := 7.
Definition IPPROTO_IP : Z := 0.
Definition IPPROTO_UDP : Z := 17.
Definition MT_CONTROL : Z := 14.
Definition SO_BROADCAST : Z := 0x0020.
Definition EISCONN : Z := 56.
Definition ENOTCONN : Z := 57.
Definition sizeof_udphdr : Z := 8.
Definition sizeof_udpiphdr : Z := 28.

(** ** Data *)

Record udphdr := UH { uh_sport : Z; uh_dport : Z; uh_ulen : Z; uh_sum : Z }.

Definition uh_bytes (u : udphdr) : list Z := be16 (uh_sport u) ++ be16 (uh_dport u) ++ be16 (uh_ulen u) ++ be16 (uh_sum u).
Definition uh_of_bytes (b : list Z) : option udphdr :=
  match b with
  | [b0; b1; b2; b3; b4; b5; b6; b7] => Some (UH (be_val [b0; b1]) (be_val [b2; b3]) (be_val [b4; b5]) (be_val [b6; b7]))
  | _ => None
  end.

(** [struct ipovly]: the header with the links and [ih_x1] zero. *)
Definition ovly_bytes (pr len src dst : Z) : list Z :=
  replicate 8 0 ++ [0; pr] ++ be16 len ++ be32 src ++ be32 dst.

(** The bytes of [udp_in]. *)
Definition sin_bytes (port addr : Z) : list Z := [16; AF_INET] ++ be16 port ++ be32 addr ++ replicate 8 0.

(** [udb], [udp_last_inpcb] ([None] is [&udb]) and [so_rcv] of the sockets, by the
    addresses of their blocks. *)
Record ustate := US { udb : pcbs; udp_last : option Z; so_rcv : gmap Z sockbuf }.

Definition set_rcv (u : ustate) (id : Z) (sb : sockbuf) : ustate := US (udb u) (udp_last u) (<[id := sb]> (so_rcv u)).
Definition set_last (u : ustate) (l : option Z) : ustate := US (udb u) l (so_rcv u).
Definition set_udb (u : ustate) (h : pcbs) : ustate := US h (udp_last u) (so_rcv u).

(** What [udp_input] did: the state, the sockets woken and the error message. *)
Record uresult := UR { u_state : ustate; u_woken : list Z; u_icmp : option icmp_call }.

Section Udp.
Context (max_protohdr max_linkhdr : Z) (drain : mstate → mstate) (junk : list Z) (junk_len sum_junk : Z).
Context (in_ifaddrs : list in_ifaddr) (udpcksum : bool).

(** ** Input *)

(** Append to the receive buffer of a socket; [false] is a full one. *)
Definition rcv_append (u : ustate) (id : Z) (asa : list Z) (m opts : list mbuf) : M mstate (ustate * bool) :=
  match so_rcv u !! id with
  | None => crash
  | Some sb =>
      let! '(sb, r) := sbappendaddr drain junk junk_len sb asa m opts in
      ret (set_rcv u id sb, ztrue r)
  end.

(** The condition of the loop over the sockets of a broadcast. *)
Definition bcast_match (h : ip) (uh : udphdr) (i : inpcb) : bool :=
  (inp_lport i =? uh_dport uh) &&
  ((inp_laddr i =? INADDR_ANY) || (inp_laddr i =? ip_dst h)) &&
  ((inp_faddr i =? INADDR_ANY) || ((inp_faddr i =? ip_src h) && (inp_fport i =? uh_sport uh))).

(** The loop: [last] is the socket that is to have the datagram itself.  In the
    condition of the [break] the comparison with 0 binds closer than the [&]. *)
Fixpoint bcast_loop (h : ip) (uh : udphdr) (asa : list Z) (m : list mbuf) (u : ustate) (woken : list Z) (last : option Z)
    (l : list inpcb) : M mstate (ustate * list Z * option Z) :=
  match l with
  | [] => ret (u, woken, last)
  | i :: l =>
      if negb (bcast_match h uh i) then bcast_loop h uh asa m u woken last l
      else
        let! '(u, woken) := (match last with
                             | None => ret (u, woken)
                             | Some id =>
                                 let! n := m_copym drain junk junk_len m 0 M_COPYALL in
                                 match n with
                                 | [] => ret (u, woken)
                                 | n =>
                                     let! '(u, ok) := rcv_append u id asa n [] in
                                     if ok then ret (u, woken ++ [id]) else do! m_freem n in ret (u, woken)
                                 end
                             end) in
        if ztrue (Z.land (so_options i) (if Z.lor SO_REUSEPORT SO_REUSEADDR =? 0 then 1 else 0)) then ret (u, woken, Some (inp_id i))
        else bcast_loop h uh asa m u woken (Some (inp_id i)) l
  end.

(** A broadcast or multicast datagram. *)
Definition bcast_input (u : ustate) (h : ip) (uh : udphdr) (m : list mbuf) : M mstate uresult :=
  match m with
  | [] => crash
  | m0 :: rest =>
      let asa := sin_bytes (uh_sport uh) (ip_src h) in
      let m := set_data (set_len m0 (m_len m0 - sizeof_udpiphdr)) (m_data m0 + sizeof_udpiphdr) :: rest in
      let! '(u, woken, last) := bcast_loop h uh asa m u [] None (hd_list (udb u)) in
      match last with
      | None => do! m_freem m in ret (UR u woken None)
      | Some id =>
          let! '(u, ok) := rcv_append u id asa m [] in
          if ok then ret (UR u (woken ++ [id]) None) else do! m_freem m in ret (UR u woken None)
      end
  end.

(** The block for a datagram: the last one if it has the very names, else the one a
    search finds.  The head of the list is a block without a socket. *)
Definition head_pcb (h : pcbs) : inpcb := Inp (-1) 0 0 0 (hd_lport h) 0 0 0 (RO None 0) None 0 0 0 None.

Definition udp_lookup (u : ustate) (h : ip) (uh : udphdr) : option (option inpcb * ustate) :=
  c ← (match udp_last u with None => Some (head_pcb (udb u)) | Some id => find_id (udb u) id end);
  if negb (inp_lport c =? uh_dport uh) || negb (inp_fport c =? uh_sport uh) || negb (inp_faddr c =? ip_src h) || negb (inp_laddr c =? ip_dst h) then
    match in_pcblookup (hd_list (udb u)) (ip_src h) (uh_sport uh) (ip_dst h) (uh_dport uh) INPLOOKUP_WILDCARD with
    | Some i => Some (Some i, set_last u (Some (inp_id i)))
    | None => Some (None, u)
    end
  else Some (Some c, u).

Definition udp_saveopt (p : list Z) (type : Z) : M mstate (list mbuf) :=
  let! m := m_get drain junk junk_len MT_CONTROL in
  match m with
  | None => ret []
  | Some m =>
      let size := Z.of_nat (length p) + 12 in
      let! m := m_write m 12 p in
      let! m := m_write (set_len m size) 0 (be32 size ++ be32 IPPROTO_IP ++ be32 type) in
      ret [m]
  end.

(** A datagram for one host; [iphlen] is 20 here. *)
Definition unicast_input (u : ustate) (save_ip h : ip) (uh : udphdr) (m : list mbuf) : M mstate uresult :=
  let! '(i, u) := lift (udp_lookup u h uh) in
  match i, m with
  | _, [] => crash
  | None, m0 :: _ =>
      if has m0 M_BCAST || has m0 M_MCAST then do! m_freem m in ret (UR u [] None)
      else ret (UR u [] (Some (IcmpErr (Pkt (set_iplen save_ip (ip_len save_ip + sizeof_ip)) [] m) ICMP_UNREACH ICMP_UNREACH_PORT 0 None)))
  | Some i, m0 :: rest =>
      let! opts := (if has_flag (inp_flags i) INP_CONTROLOPTS && has_flag (inp_flags i) INP_RECVDSTADDR
                    then udp_saveopt (be32 (ip_dst h)) IP_RECVDSTADDR else ret []) in
      let n := sizeof_ip + sizeof_udphdr in
      let m := set_data (set_pktlen (set_len m0 (m_len m0 - n)) (pkthdr_len m0 - n)) (m_data m0 + n) :: rest in
      let! '(u, ok) := rcv_append u (inp_id i) (sin_bytes (uh_sport uh) (ip_src h)) m opts in
      if ok then ret (UR u [inp_id i] None)
      else do! m_freem m in do! m_freem opts in ret (UR u [] None)
  end.

(** The checksum over the header as [struct ipovly]; [false] is a wrong one. *)
Definition udp_check (h : ip) (uh : udphdr) (m : list mbuf) : M mstate (list mbuf * bool) :=
  match m with
  | [] => crash
  | m0 :: rest =>
      if udpcksum && negb (uh_sum uh =? 0) then
        let! m0 := m_write m0 0 (ovly_bytes (ip_p h) (uh_ulen uh) (ip_src h) (ip_dst h)) in
        let! s := get in
        let! '(sum, _) := lift (Cksum.in_cksum true sum_junk (Cksum.segments s (m0 :: rest)) (uh_ulen uh + sizeof_ip)) in
        let! m0 := m_write m0 26 (be16 sum) in
        ret (m0 :: rest, sum =? 0)
      else ret (m, true)
  end.

Definition mtod_uh (m : list mbuf) : M mstate udphdr :=
  match m with
  | [] => crash
  | m :: _ => let! b := m_read m 20 8 in lift (uh_of_bytes b)
  end.

Definition udp_input (u : ustate) (h : ip) (m : list mbuf) (iphlen : Z) : M mstate uresult :=
  let! '(h, m) := (if sizeof_ip <? iphlen then ip_stripoptions h m else ret (h, m)) in
  let! m := pullup_to max_protohdr drain junk junk_len sizeof_udpiphdr m in
  match m with
  | None => ret (UR u [] None)
  | Some m =>
      let! uh := mtod_uh m in
      let len := uh_ulen uh in
      if negb (ip_len h =? len) && (ip_len h <? len) then do! m_freem m in ret (UR u [] None)
      else
        let! m := (if ip_len h =? len then ret m else lift (m_adj m (len - ip_len h))) in
        let! '(m, ok) := udp_check h uh m in
        if negb ok then do! m_freem m in ret (UR u [] None)
        else
          let rcv := match m with m0 :: _ => rcvif m0 | [] => 0 end in
          if IN_MULTICAST (ip_dst h) || in_broadcast in_ifaddrs (ip_dst h) (IFN rcv 0 0) then bcast_input u h uh m
          else unicast_input u h h uh m
  end.

(** ** Output *)

Context (len_junk : Z) (if_output : ifnet → Z → list packet → packet → Z) (rtalloc : Z → option rtentry).
Context (ifa_ifwithaddr : Z → bool) (suser : Z) (ifa_ifwithdstaddr ifa_ifwithnet : Z → option in_ifaddr) (loif : ifnet).

(** The extended header in front of the data, with its checksum: the packet for
    [ip_output].  [len] is the length of the data. *)
Definition udp_packet (i : inpcb) (len : Z) (m : list mbuf) : M mstate packet :=
  match m with
  | [] => crash
  | m0 :: rest =>
      let ulen := u16 (u16 len + sizeof_udphdr) in
      let! m0 := m_write m0 0 (ovly_bytes IPPROTO_UDP ulen (inp_laddr i) (inp_faddr i) ++
                               uh_bytes (UH (inp_lport i) (inp_fport i) ulen 0)) in
      let! m0 := (if udpcksum then
                    let! s := get in
                    let! '(sum, _) := lift (Cksum.in_cksum true sum_junk (Cksum.segments s (m0 :: rest)) (sizeof_udpiphdr + len)) in
                    m_write m0 26 (be16 (if sum =? 0 then 0xffff else sum))
                  else ret m0) in
      ret (Pkt (IP 0 0 (inp_tos i) (s16 (sizeof_udpiphdr + len)) 0 0 (inp_ttl i) IPPROTO_UDP ulen (inp_laddr i) (inp_faddr i))
             [] (m0 :: rest))
  end.

(** [udp_output]: the error, the state and what [ip_output] did.  [addr] is the name of
    the destination, with the length of its mbuf. *)
Definition udp_output (u : ustate) (i : inpcb) (m : list mbuf) (addr : option (Z * sockaddr_in)) (control : list mbuf) (ip_id : Z) :
    M mstate (Z * ustate * option outcome) :=
  do! m_freem control in
  let len := match m with m0 :: _ => pkthdr_len m0 | [] => 0 end in
  let! '(error, h) := (match addr with
                       | Some (n, sin) =>
                           if negb (inp_faddr i =? INADDR_ANY) then ret (EISCONN, udb u)
                           else lift (in_pcbconnect ifa_ifwithaddr suser in_ifaddrs rtalloc ifa_ifwithdstaddr ifa_ifwithnet (udb u) i n sin)
                       | None => ret (if inp_faddr i =? INADDR_ANY then ENOTCONN else 0, udb u)
                       end) in
  let u := set_udb u h in
  if ztrue error then do! m_freem m in ret (error, u, None)
  else
    let! i1 := lift (find_id h (inp_id i)) in
    let! m := M_PREPEND drain junk junk_len m sizeof_udpiphdr in
    match m with
    | None => ret (ENOBUFS, u, None)
    | Some m =>
        let! p := udp_packet i1 len m in
        let! o := ip_output max_linkhdr drain junk junk_len sum_junk len_junk if_output rtalloc ifa_ifwithdstaddr ifa_ifwithnet in_ifaddrs loif
                    p (inp_options i1) (inp_route i1) (Z.land (so_options i1) (Z.lor SO_DONTROUTE SO_BROADCAST)) (inp_moptions i1) ip_id in
        let i1 := set_route i1 (o_ro o) in
        let h := Head (hd_lport h) (store i1 (hd_list h)) in
        let h := match addr with
                 | Some _ =>
                     let h := in_pcbdisconnect h i1 in
                     match find_id h (inp_id i1) with
                     | Some i2 => Head (hd_lport h) (store (set_local i2 (inp_laddr i) (inp_lport i2)) (hd_list h))
                     | None => h
                     end
                 | None => h
                 end in
        ret (o_error o, set_udb u h, Some o)
    end.

(** ** Control *)

(** [udp_ctlinput] without a packet, and with the names of one. *)
Definition udp_ctlinput (u : ustate) (cmd : Z) (sa : sockaddr_in) (names : option (Z * Z * Z)) : option (list (inpcb * Z) * ustate) :=
  if negb (PRC_IS_REDIRECT cmd) && ((PRC_NCMDS <=? u32 cmd) || (default 0 (inetctlerrmap !! Z.to_nat (u32 cmd)) =? 0)) then Some ([], u)
  else
    let '(dport, src, sport) := default (0, 0, 0) names in
    '(calls, h) ← in_pcbnotify (udb u) sa dport src sport cmd;
    Some (calls, set_udb u h).

(** [udp_detach]. *)
Definition udp_detach (u : ustate) (i : inpcb) : ustate :=
  let u := if decide (udp_last u = Some (inp_id i)) then set_last u None else u in
  set_udb u (in_pcbdetach (udb u) i).

(** ** Requests of the socket layer *)

Definition SS_ISCONNECTED : Z := 0x002.
Definition SS_ISCONNECTING : Z := 0x004.
Definition SS_ISDISCONNECTING : Z := 0x008.
Definition SS_CANTSENDMORE : Z := 0x010.
Definition SS_CANTRCVMORE : Z := 0x020.
Definition SS_ISCONFIRMING : Z := 0x400.
Definition EOPNOTSUPP : Z := 45.

Definition set_state (i : inpcb) (st : Z) : inpcb :=
  Inp (inp_id i) (inp_faddr i) (inp_fport i) (inp_laddr i) (inp_lport i) (so_options i) st (pr_flags i) (inp_route i) (inp_moptions i)
    (inp_flags i) (inp_ttl i) (inp_tos i) (inp_options i).
Definition set_ttl_of (i : inpcb) (t : Z) : inpcb :=
  Inp (inp_id i) (inp_faddr i) (inp_fport i) (inp_laddr i) (inp_lport i) (so_options i) (so_state i) (pr_flags i) (inp_route i) (inp_moptions i)
    (inp_flags i) t (inp_tos i) (inp_options i).

(** [soisconnected] of a socket that is not in a queue, [soisdisconnected] and
    [socantsendmore], on the state. *)
Definition st_connected (st : Z) : Z :=
  Z.lor (Z.land st (Z.lnot (Z.lor (Z.lor SS_ISCONNECTING SS_ISDISCONNECTING) SS_ISCONFIRMING))) SS_ISCONNECTED.
Definition st_disconnected (st : Z) : Z :=
  Z.lor (Z.land st (Z.lnot (Z.lor (Z.lor SS_ISCONNECTING SS_ISCONNECTED) SS_ISDISCONNECTING))) (Z.lor SS_CANTRCVMORE SS_CANTSENDMORE).

(** The requests.  [PRU_ATTACH] has the address that [malloc] gives, the options and
    the state of the socket, the flags of the protocol and what [soreserve] returns. *)
Inductive request :=
  | PRU_ATTACH (a : option Z) (opts st pr reserve : Z)
  | PRU_DETACH
  | PRU_BIND (nam : option (Z * sockaddr_in))
  | PRU_CONNECT (n : Z) (sin : sockaddr_in)
  | PRU_DISCONNECT
  | PRU_SHUTDOWN
  | PRU_SEND (m : list mbuf) (addr : option (Z * sockaddr_in)) (control : list mbuf)
  | PRU_ABORT
  | PRU_SOCKADDR
  | PRU_PEERADDR
  | PRU_SENSE
  | PRU_OTHER.

Context (ip_defttl : Z).

(** [udp_usrreq] on a socket with the block [inp]: the error and the state. *)
Definition udp_usrreq (u : ustate) (inp : option inpcb) (req : request) (ip_id : Z) : M mstate (Z * ustate) :=
  match inp, req with
  | None, PRU_ATTACH a opts st pr reserve =>
      let '(e, h) := in_pcballoc a opts st pr (udb u) in
      let u := set_udb u h in
      if ztrue e then ret (e, u)
      else if ztrue reserve then ret (reserve, u)
      else ret (0, set_udb u (match a with Some a => update_pcb (udb u) a (λ i, set_ttl_of i ip_defttl) | None => udb u end))
  | None, _ => ret (EINVAL, u)
  | Some _, PRU_ATTACH _ _ _ _ _ => ret (EINVAL, u)
  | Some i, PRU_DETACH => ret (0, udp_detach u i)
  | Some i, PRU_BIND nam => let! '(e, h) := lift (in_pcbbind ifa_ifwithaddr suser in_ifaddrs (udb u) i nam) in ret (e, set_udb u h)
  | Some i, PRU_CONNECT n sin =>
      if negb (inp_faddr i =? INADDR_ANY) then ret (EISCONN, u)
      else
        let! '(e, h) := lift (in_pcbconnect ifa_ifwithaddr suser in_ifaddrs rtalloc ifa_ifwithdstaddr ifa_ifwithnet (udb u) i n sin) in
        ret (e, set_udb u (if e =? 0 then update_pcb h (inp_id i) (λ i, set_state i (st_connected (so_state i))) else h))
  | Some i, PRU_DISCONNECT =>
      if inp_faddr i =? INADDR_ANY then ret (ENOTCONN, u)
      else
        let h := in_pcbdisconnect (udb u) i in
        ret (0, set_udb u (update_pcb h (inp_id i) (λ i,
          set_state (set_local i INADDR_ANY (inp_lport i)) (Z.land (so_state i) (Z.lnot SS_ISCONNECTED)))))
  | Some i, PRU_SHUTDOWN => ret (0, set_udb u (update_pcb (udb u) (inp_id i) (λ i, set_state i (Z.lor (so_state i) SS_CANTSENDMORE))))
  | Some i, PRU_SEND m addr control => let! '(e, u, _) := udp_output u i m addr control ip_id in ret (e, u)
  | Some i, PRU_ABORT =>
      ret (0, udp_detach (set_udb u (update_pcb (udb u) (inp_id i) (λ i, set_state i (st_disconnected (so_state i))))) i)
  | Some i, PRU_SOCKADDR | Some i, PRU_PEERADDR | Some i, PRU_SENSE => ret (0, u)
  | Some i, PRU_OTHER => ret (EOPNOTSUPP, u)
  end.

End Udp.

(** ** The checksum *)

(** The pseudo header of RFC 768. *)
Definition pseudo (src dst pr len : Z) : list Z := be32 src ++ be32 dst ++ [0; pr] ++ be16 len.

(** The overlay has the sum of the pseudo header. *)
Lemma ovly_pseudo src dst pr len bs :
  Cksum.checksum true (ovly_bytes pr len src dst ++ bs) = Cksum.checksum true (pseudo src dst pr len ++ bs).
Proof.
  unfold Cksum.checksum. do 2 f_equal. unfold ovly_bytes, pseudo, be32, be16. cbn [replicate app Cksum.word_sum].
  unfold Cksum.word. lia.
Qed.

Lemma be16_length z : length (be16 z) = 2%nat.
Proof. done. Qed.

Lemma be16_id z : is_u16 z → be_val (be16 z) = z.
Proof. intros H. rewrite be16_val. by apply u16_id. Qed.

Lemma uh_of_bytes_bytes u :
  is_u16 (uh_sport u) → is_u16 (uh_dport u) → is_u16 (uh_ulen u) → is_u16 (uh_sum u) → uh_of_bytes (uh_bytes u) = Some u.
Proof.
  intros H1 H2 H3 H4. destruct u as [a b c d]. simpl in *.
  change (Some (UH (be_val (be16 a)) (be_val (be16 b)) (be_val (be16 c)) (be_val (be16 d))) = Some (UH a b c d)).
  by rewrite !be16_id.
Qed.

Lemma ovly_length pr len src dst : length (ovly_bytes pr len src dst) = 20%nat.
Proof. done. Qed.

Lemma ovly_u8 pr len src dst : is_u8 pr → Forall is_u8 (ovly_bytes pr len src dst).
Proof.
  intros H. unfold ovly_bytes. rewrite !Forall_app. split_and!; [by apply Forall_replicate| |apply be16_u8|apply be32_u8|apply be32_u8].
  constructor; [done|]. constructor; [done|constructor].
Qed.

Lemma uh_bytes_u8 u : Forall is_u8 (uh_bytes u).
Proof. unfold uh_bytes. repeat (apply Forall_app; split); apply be16_u8. Qed.

(** Storing the sum of a datagram, or all ones for a sum of zero, makes it verify. *)
Lemma udp_sum_verifies pr len src dst sport dport ulen data c :
  is_u8 pr → Forall is_u8 data →
  c = Cksum.checksum true (ovly_bytes pr len src dst ++ uh_bytes (UH sport dport ulen 0) ++ data) →
  let c' := if c =? 0 then 0xffff else c in
  is_u16 c' ∧ c' ≠ 0 ∧ Cksum.checksum true (ovly_bytes pr len src dst ++ uh_bytes (UH sport dport ulen c') ++ data) = 0.
Proof.
  intros Hpr Hd Hc c'. pose proof (ovly_u8 pr len src dst Hpr) as Ho.
  set (a := ovly_bytes pr len src dst ++ be16 sport ++ be16 dport ++ be16 ulen).
  assert (Ha : Forall is_u8 a).
  { unfold a. apply Forall_app. split; [done|]. apply Forall_app. split; [apply be16_u8|]. apply Forall_app. split; apply be16_u8. }
  assert (E : ∀ x, ovly_bytes pr len src dst ++ uh_bytes (UH sport dport ulen x) ++ data = a ++ be16 x ++ data).
  { intros x. unfold a, uh_bytes. cbn [uh_sport uh_dport uh_ulen uh_sum]. by rewrite <-!app_assoc. }
  rewrite E in *. change (be16 0) with [0; 0] in Hc.
  assert (Hr : is_u16 c).
  { rewrite Hc. apply checksum_range. apply Forall_app. split; [done|]. apply Forall_app. split; [|done]. by constructor; [|constructor; [|constructor]]. }
  assert (Hr' : is_u16 c') by (unfold c'; destruct (c =? 0); [unfold is_u16; lia|done]).
  split; [done|]. split; [unfold c'; destruct (Z.eqb_spec c 0); lia|].
  assert (Hodd : Nat.odd (length a) = false) by done.
  unfold c'. destruct (Z.eqb_spec c 0) as [E0|E0].
  - (* all ones is the other zero *)
    assert (H0 : Cksum.checksum true (a ++ [0; 0] ++ data) = 0) by congruence.
    change (be16 65535) with [255; 255]. revert H0. unfold Cksum.checksum. rewrite !Cksum.word_sum_wsum, !Cksum.wsum_app, Hodd.
    change (xorb (xorb false false) _) with false. change (xorb false false) with false.
    change (Cksum.wsum true false [0; 0]) with 0. change (Cksum.wsum true false [255; 255]) with 65535.
    pose proof (Cksum.wsum_nonneg true false a Ha). pose proof (Cksum.wsum_nonneg true false data Hd).
    set (A := Cksum.wsum true false a) in *. set (B := Cksum.wsum true false data) in *. unfold Cksum.ones_complement.
    destruct (Z.eqb_spec (A + (0 + B)) 0), (Z.eqb_spec (A + (65535 + B)) 0); try lia.
    replace (A + (65535 + B) - 1) with (A + (0 + B) - 1 + 1 * 65535) by lia. rewrite Z.mod_add; lia.
  - unfold be16. apply (Cksum.checksum_store true a _ _ data Hodd).
    + apply Forall_app. split; [done|]. apply Forall_app. split; [apply be16_u8|done].
    + rewrite <-Hc. unfold Cksum.word. rewrite u16_id by done. pose proof (Z.div_mod c 256). lia.
Qed.

(** ** Output *)

(** The names of a block are in their ranges. *)
Definition inp_typed (i : inpcb) : Prop :=
  is_u32 (inp_laddr i) ∧ is_u32 (inp_faddr i) ∧ is_u16 (inp_lport i) ∧ is_u16 (inp_fport i).

(** What a packet has behind its IP header: a UDP datagram, whose checksum verifies
    with the pseudo header if there is one. *)
Definition datagram_of (src dst : Z) (uh : udphdr) (data bs : list Z) : Prop :=
  bs = uh_bytes uh ++ data ∧ uh_ulen uh = 8 + Z.of_nat (length data) ∧ is_u16 (uh_sport uh) ∧ is_u16 (uh_dport uh) ∧
  is_u16 (uh_sum uh) ∧ Forall is_u8 data ∧
  (uh_sum uh ≠ 0 → Cksum.checksum true (pseudo src dst IPPROTO_UDP (uh_ulen uh) ++ uh_bytes uh ++ data) = 0).

(** Overwriting the front of a packet. *)
Lemma m_write_front s m0 rest bs off :
  Forall (mbuf_ok s) (m0 :: rest) → internal m0 → 0 <= off → off + Z.of_nat (length bs) <= m_len m0 →
  wp (m_write m0 off bs) s (λ m' s', s' = s ∧ Forall (mbuf_ok s) (m' :: rest) ∧ (∃ d, m' = set_dat m0 d) ∧
    bytes s (m' :: rest) = take (Z.to_nat off) (bytes s (m0 :: rest)) ++ bs ++ drop (Z.to_nat off + length bs) (bytes s (m0 :: rest))).
Proof.
  intros Hok Hi Ho Hl. apply Forall_cons in Hok as [H0 Hr]. pose proof (mbytes_length s m0 H0) as Hlen.
  eapply wp_mono; [by apply m_write_wp|]. intros m' s' (-> & d & -> & Hok' & Hb). split; [done|]. split; [by constructor|].
  split; [by exists d|]. rewrite !bytes_cons, Hb, take_app_le, drop_app_le by lia. by rewrite <-!app_assoc.
Qed.

Section Output.
Context (sum_junk : Z) (udpcksum : bool).

(** The packet for [ip_output] carries the data in a datagram from the local to the
    foreign name of the block. *)
Lemma udp_packet_spec s i m0 rest len data :
  Forall (mbuf_ok s) (m0 :: rest) → internal m0 → 28 <= m_len m0 → inp_typed i → Forall is_u8 data →
  drop 28 (bytes s (m0 :: rest)) = data → len = Z.of_nat (length data) → len <= 65507 →
  wp (udp_packet sum_junk udpcksum i len (m0 :: rest)) s (λ p s', s' = s ∧ Forall (mbuf_ok s) (p_m p) ∧
    p_ip p = IP 0 0 (inp_tos i) (s16 (28 + len)) 0 0 (inp_ttl i) IPPROTO_UDP (8 + len) (inp_laddr i) (inp_faddr i) ∧ p_opts p = [] ∧
    (∃ d, p_m p = set_dat m0 d :: rest) ∧
    ∃ c, datagram_of (inp_laddr i) (inp_faddr i) (UH (inp_lport i) (inp_fport i) (8 + len) c) data (drop 20 (bytes s (p_m p))) ∧
      (c = 0 ↔ udpcksum = false)).
Proof.
  intros Hok Hi H28 (T1 & T2 & T3 & T4) Hd Hdata Hl Hmax. pose proof (bytes_length s _ Hok) as Hbl.
  assert (Hlong : (28 <= length (bytes s (m0 :: rest)))%nat).
  { apply Forall_cons in Hok as [H0 Hr]. pose proof (mbytes_length s m0 H0). rewrite bytes_cons, length_app. lia. }
  unfold udp_packet. cbv zeta. unfold sizeof_udphdr, sizeof_udpiphdr.
  assert (Eu : u16 (u16 len + 8) = 8 + len) by (rewrite (u16_id len), u16_id by (unfold is_u16; lia); lia). rewrite Eu.
  set (o := ovly_bytes IPPROTO_UDP (8 + len) (inp_laddr i) (inp_faddr i)).
  wp_step. eapply wp_mono; [apply (m_write_front s m0 rest); [done|done|lia|rewrite length_app; simpl; lia]|].
  intros m1 s' (-> & Hok1 & (d & ->) & Hb1). change (Z.to_nat 0) with 0%nat in Hb1. rewrite take_0 in Hb1. cbn [app] in Hb1.
  change (0 + length (o ++ _))%nat with 28%nat in Hb1. rewrite Hdata in Hb1. rewrite <-app_assoc in Hb1.
  assert (Hlen1 : Z.of_nat (length (bytes s (set_dat m0 d :: rest))) = 28 + len).
  { rewrite Hb1, !length_app. simpl. lia. }
  wp_step. destruct udpcksum.
  - wp_step. wp_step. wp_step. eapply wp_lift.
    { apply Cksum.in_cksum_spec; [|lia]. rewrite Hb1. apply Forall_app. split; [by apply ovly_u8|]. apply Forall_app. split; [apply uh_bytes_u8|done]. }
    cbv beta iota. rewrite take_ge by lia. rewrite Hb1. set (c := Cksum.checksum true _).
    destruct (udp_sum_verifies IPPROTO_UDP (8 + len) (inp_laddr i) (inp_faddr i) (inp_lport i) (inp_fport i) (8 + len) data c)
      as (C1 & C2 & C3); [done|done|done|]. set (c' := if c =? 0 then 65535 else c) in *.
    eapply wp_mono; [apply (m_write_front s _ rest); [done|done|lia|simpl; lia]|].
    intros m2 s' (-> & Hok2 & (d2 & ->) & Hb2). wp_steps. split; [done|]. split; [done|]. split; [done|]. split; [done|].
    split; [by exists d2|]. exists c'. rewrite Hb1 in Hb2. cbn [p_m]. rewrite Hb2.
    split; [|done]. split; [reflexivity|]. cbn [uh_ulen uh_sport uh_dport uh_sum]. rewrite <-ovly_pseudo. split_and!; try done. lia.
  - wp_steps. split; [done|]. split; [done|]. split; [done|]. split; [done|]. split; [by exists d|]. exists 0. cbn [p_m]. rewrite Hb1.
    split; [|done]. split; [done|]. split_and!; try done. simpl. lia.
Qed.
End Output.

(** ** Input *)

(** The blocks are in order, and the last one found is still among them. *)
Record ustate_ok (u : ustate) : Prop := {
  us_pcbs : pcbs_ok (udb u);
  us_last : ∀ id, udp_last u = Some id → ∃ i, i ∈ hd_list (udb u) ∧ inp_id i = id }.

Lemma find_id_member h i : pcbs_ok h → i ∈ hd_list h → find_id h (inp_id i) = Some i.
Proof.
  intros Hok Hi. unfold find_id. destruct (find _ _) as [k|] eqn:E.
  - apply find_some in E as [Hk E]. zbool. apply list_elem_of_In in Hk. f_equal. by apply (ids_inj (hd_list h)); [apply Hok|..].
  - pose proof (find_none _ _ E i) as H. cbn beta in H. rewrite Z.eqb_refl in H. discriminate H. by apply list_elem_of_In.
Qed.

Lemma udp_lookup_spec u h uh :
  ustate_ok u → ip_src h ≠ INADDR_ANY → ip_dst h ≠ INADDR_ANY →
  ∃ u', udp_lookup u h uh =
      Some (in_pcblookup (hd_list (udb u)) (ip_src h) (uh_sport uh) (ip_dst h) (uh_dport uh) INPLOOKUP_WILDCARD, u') ∧
    udb u' = udb u ∧ so_rcv u' = so_rcv u ∧ ustate_ok u'.
Proof.
  intros [Hok Hlast] Hs Hd. unfold udp_lookup.
  assert (∃ c, (match udp_last u with None => Some (head_pcb (udb u)) | Some id => find_id (udb u) id end) = Some c ∧
    (inp_faddr c ≠ INADDR_ANY → c ∈ hd_list (udb u))) as (c & -> & Hc).
  { destruct (udp_last u) as [id|]; [|by eexists]. destruct (Hlast id eq_refl) as (i & Hi & <-). exists i. by rewrite find_id_member. }
  cbn [mbind option_bind].
  destruct (_ || _) eqn:E.
  - pose proof (in_pcblookup_spec (hd_list (udb u)) (ip_src h) (uh_sport uh) (ip_dst h) (uh_dport uh) INPLOOKUP_WILDCARD) as Hl.
    destruct (in_pcblookup _ _ _ _ _ _) as [i|]; eexists; (split; [done|]); (split; [done|]); (split; [done|]); [|done].
    split; [done|]. intros id [= <-]. exists i. split; [|done]. destruct Hl as (l1 & l2 & w & El & _). cbn [udb set_last]. rewrite El. apply elem_of_app. right. by left.
  - repeat (apply orb_false_elim in E as [E ?]). zbool. exists u. split; [|done]. do 2 f_equal.
    assert (Hin : c ∈ hd_list (udb u)) by (apply Hc; congruence).
    replace (ip_src h) with (inp_faddr c) by congruence. replace (ip_dst h) with (inp_laddr c) by congruence.
    replace (uh_sport uh) with (inp_fport c) by congruence. replace (uh_dport uh) with (inp_lport c) by congruence.
    symmetry. apply lookup_connected; congruence || done.
Qed.

Lemma udp_check_wp sum_junk udpcksum s h uh m0 rest data :
  Forall (mbuf_ok s) (m0 :: rest) → internal m0 → 28 <= m_len m0 → ip_p h = IPPROTO_UDP →
  datagram_of (ip_src h) (ip_dst h) uh data (drop 20 (bytes s (m0 :: rest))) → uh_ulen uh <= 65515 →
  wp (udp_check sum_junk udpcksum h uh (m0 :: rest)) s (λ r s', s' = s ∧ r.2 = true ∧ ∃ d, r.1 = set_dat m0 d :: rest ∧
    Forall (mbuf_ok s) r.1 ∧ drop 28 (bytes s r.1) = data).
Proof.
  intros Hok Hi H28 Hp (Eb & El & U1 & U2 & U3 & U8 & Hsum) Hmax. unfold udp_check.
  assert (Hdata : drop 28 (bytes s (m0 :: rest)) = data).
  { change 28%nat with (20 + 8)%nat. rewrite <-drop_drop, Eb. done. }
  destruct (udpcksum && negb (uh_sum uh =? 0)) eqn:E.
  2:{ wp_steps. split; [done|]. split; [done|]. exists (m_dat m0). by destruct m0. }
  apply andb_prop in E as [_ E]. zbool. specialize (Hsum E). rewrite <-ovly_pseudo in Hsum.
  wp_step. eapply wp_mono; [apply (m_write_front s m0 rest); [done|done|lia|rewrite ovly_length; lia]|].
  intros m1 s' (-> & Hok1 & (d1 & ->) & Hb1). rewrite take_0, ovly_length in Hb1. change (Z.to_nat 0 + 20)%nat with 20%nat in Hb1. cbn [app] in Hb1. rewrite Eb, Hp in Hb1.
  assert (Hlen : Z.of_nat (length (bytes s (set_dat m0 d1 :: rest))) = uh_ulen uh + 20).
  { rewrite Hb1, !length_app, ovly_length. simpl. lia. }
  wp_steps. eapply wp_lift.
  { apply Cksum.in_cksum_spec; [|unfold sizeof_ip; lia]. rewrite Hb1. apply Forall_app. split; [by apply ovly_u8|].
    apply Forall_app. split; [apply uh_bytes_u8|done]. }
  cbv beta iota. rewrite take_ge by (unfold sizeof_ip; lia). rewrite Hb1, Hsum.
  wp_step. eapply wp_mono; [apply (m_write_front s _ rest); [done|done|lia|simpl; lia]|].
  intros m2 s' (-> & Hok2 & (d2 & ->) & Hb2). wp_steps. split; [done|]. split; [done|]. exists d2. split; [done|]. split; [done|].
  cbn [fst]. rewrite Hb2, Hb1. done.
Qed.

(** Taking [n] bytes off the front of an mbuf. *)
Lemma strip_front s m n p :
  mbuf_ok s m → 0 <= n <= m_len m →
  let m' := set_data (set_pktlen (set_len m (m_len m - n)) p) (m_data m + n) in
  mbuf_ok s m' ∧ mbytes s m' = drop (Z.to_nat n) (mbytes s m).
Proof.
  intros (H1 & H2 & b & Hb & H3 & H4) Hn m'. split.
  - split; [simpl; lia|]. split; [simpl; lia|]. exists b. split; [done|]. simpl. split; [lia|]. intros He. destruct (H4 He) as [? Hp]. split; [done|].
    intros Hk. specialize (Hp Hk). lia.
  - unfold mbytes, m'. change (buffer s (set_data _ _)) with (buffer s m). rewrite Hb. cbn [m_len m_data set_data set_len set_pktlen default].
    rewrite skipn_firstn_comm, drop_drop. f_equal; [lia|]. f_equal. lia.
Qed.

Section Input.
Context (max_protohdr : Z) (drain : mstate → mstate) (drain_ok : ∀ s, same_store s (drain s)).
Context (junk : list Z) (junk_ok : Z.of_nat (length junk) = MLEN) (junk_len sum_junk : Z).
Context (in_ifaddrs : list in_ifaddr) (udpcksum : bool).
#[local] Set Default Proof Using "Type*".

(** A datagram for one host is appended to the receive buffer of the socket that
    the search finds, with the name of its sender. *)
Lemma udp_input_spec s u h m0 rest uh data j sb :
  ustate_ok u → arrived s (m0 :: rest) → internal m0 → 28 <= m_len m0 → oracle s = [] →
  ip_p h = IPPROTO_UDP → ip_src h ≠ INADDR_ANY → ip_dst h ≠ INADDR_ANY → IN_MULTICAST (ip_dst h) = false →
  (∀ ifp, in_broadcast in_ifaddrs (ip_dst h) ifp = false) →
  datagram_of (ip_src h) (ip_dst h) uh data (drop 20 (bytes s (m0 :: rest))) → uh_ulen uh = ip_len h → ip_len h <= 65515 →
  in_pcblookup (hd_list (udb u)) (ip_src h) (uh_sport uh) (ip_dst h) (uh_dport uh) INPLOOKUP_WILDCARD = Some j →
  has_flag (inp_flags j) INP_CONTROLOPTS = false → so_rcv u !! inp_id j = Some sb → sb_ok s sb →
  16 + Z.of_nat (length data) <= sbspace sb →
  wp (udp_input max_protohdr drain junk junk_len sum_junk in_ifaddrs udpcksum u h (m0 :: rest) 20) s (λ r s', same_store s s' ∧
    u_woken r = [inp_id j] ∧ u_icmp r = None ∧ udb (u_state r) = udb u ∧
    ∃ sb', so_rcv (u_state r) = <[inp_id j := sb']> (so_rcv u) ∧ sb_ok s' sb' ∧
      sb_bytes s' sb' = sb_bytes s sb ++ sin_bytes (uh_sport uh) (ip_src h) ++ data).
Proof.
  intros Hu Ha Hi H28 Hor Hp Hsrc Hdst Hmc Hbc Hdg El Hmax Hj Hctl Hsb Hsbok Hsp. pose proof (ar_ok _ _ Ha) as Hok.
  unfold udp_input. change (sizeof_ip <? 20) with false. cbv iota. wp_steps. cbv beta iota.
  unfold pullup_to. cbn [first_len]. unfold sizeof_udpiphdr. rewrite (proj2 (Z.ltb_ge _ 28)) by lia. wp_step. wp_step.
  eapply (wp_mono _ _ (λ x s', s' = s ∧ x = uh)).
  { pose proof Hdg as (Eb & El' & U1 & U2 & U3 & _). apply Forall_cons in Hok as [H0 Hr]. pose proof (mbytes_length s m0 H0) as Hml.
    unfold mtod_uh. wp_step. eapply wp_mono; [apply m_read_wp; [done|lia..]|]. intros b s' [-> ->].
    eapply wp_lift; [|done]. rewrite bytes_cons, drop_app_le in Eb by lia. change (Z.to_nat 20) with 20%nat. change (Z.to_nat 8) with 8%nat.
    assert (E8 : take 8 (drop 20 (mbytes s m0)) = uh_bytes uh).
    { transitivity (take 8 (drop 20 (mbytes s m0) ++ bytes s rest)); [by rewrite take_app_le by (rewrite length_drop; lia)|]. by rewrite Eb. }
    rewrite E8. apply uh_of_bytes_bytes; try done. unfold is_u16. lia. }
  intros x s' [-> ->]. rewrite El, Z.eqb_refl. cbn [negb andb]. wp_steps.
  eapply wp_mono; [by apply (udp_check_wp sum_junk udpcksum s h uh m0 rest data); [| | | |done|lia]|].
  intros [m1 ok] s' (-> & Eok & d & Em & Hok1 & Hdata). cbn [fst snd] in *. subst ok m1. cbn [negb]. rewrite Hmc, Hbc. cbn [orb].
  unfold unicast_input. wp_step. destruct (udp_lookup_spec u h uh Hu Hsrc Hdst) as (u' & Eu & E1 & E2 & _).
  eapply wp_lift; [exact Eu|]. cbv beta iota. rewrite Hj. rewrite Hctl. cbn [andb]. wp_steps.
  unfold rcv_append. rewrite E2, Hsb. wp_steps. unfold sizeof_udphdr, sizeof_ip. cbn [Z.add Pos.add]. cbn [m_len m_data pkthdr_len set_dat].
  set (mc := set_data _ _). destruct Ha as [_ Hk H8 Hh Hpk]. apply Forall_cons in Hk as [Hk0 Hkr]. apply Forall_cons in Hok1 as [Hm1 Hr1].
  assert (mbuf_ok s mc ∧ mbytes s mc = drop 28 (mbytes s (set_dat m0 d))) as [Hok2 Hb2]
    by exact (strip_front s (set_dat m0 d) 28 (pkthdr_len m0 - 28) Hm1 ltac:(simpl; lia)).
  assert (Hb3 : bytes s (mc :: rest) = data).
  { rewrite bytes_cons, Hb2. rewrite bytes_cons, drop_app_le in Hdata; [done|]. pose proof (mbytes_length s _ Hm1) as Hl. simpl in Hl. lia. }
  assert (Hclen : chain_len (mc :: rest) = Z.of_nat (length data)) by (rewrite <-Hb3; symmetry; apply bytes_length; by constructor).
  eapply wp_mono; [apply (sbappendaddr_correct drain junk junk_len s sb _ (mc :: rest) []); [done|done|done|by constructor|by constructor|]|].
  { split; [done|]. simpl in Hpk. specialize (Hpk Hh). simpl. lia. }
  intros [sb' r] s1 (Hs1 & Hsb1 & Hr). cbn [fst snd] in Hr. rewrite Hclen, Hb3 in Hr. change (chain_len []) with 0 in Hr. change (bytes s []) with (@nil Z) in Hr. cbn [app] in Hr.
  change (Z.of_nat (length (sin_bytes (uh_sport uh) (ip_src h)))) with 16 in Hr. unfold MLEN, MSIZE in Hr.
  destruct Hr as [[_ [Hr|[Hr|Hr]]]|(-> & _ & Hb)]; [lia|lia|done|]. wp_steps. cbn iota. wp_steps. split; [done|]. split; [done|]. split; [done|].
  split; [done|]. exists sb'. cbn [u_state so_rcv set_rcv]. rewrite E2. done.
Qed.

(** The same for a packet whose headers have to be pulled up first. *)
Lemma udp_input_pulled s s1 u h m m1 :
  pullup_to max_protohdr drain junk junk_len 28 m s = Ok (Some m1, s1) → 28 <= first_len m1 →
  udp_input max_protohdr drain junk junk_len sum_junk in_ifaddrs udpcksum u h m 20 s =
  udp_input max_protohdr drain junk junk_len sum_junk in_ifaddrs udpcksum u h m1 20 s1.
Proof using Type.
  intros E H. unfold udp_input. change (sizeof_ip <? 20) with false. cbv iota. unfold bind, ret. unfold sizeof_udpiphdr.
  rewrite E. unfold pullup_to at 1. by rewrite (proj2 (Z.ltb_ge _ _) H).
Qed.

Lemma udp_input_any s u h m uh data j sb :
  0 <= max_protohdr → ustate_ok u → arrived s m → first_len m < 28 ∨ first_internal m → oracle s = [] →
  ip_p h = IPPROTO_UDP → ip_src h ≠ INADDR_ANY → ip_dst h ≠ INADDR_ANY → IN_MULTICAST (ip_dst h) = false →
  (∀ ifp, in_broadcast in_ifaddrs (ip_dst h) ifp = false) →
  datagram_of (ip_src h) (ip_dst h) uh data (drop 20 (bytes s m)) → uh_ulen uh = ip_len h → ip_len h <= 65515 →
  in_pcblookup (hd_list (udb u)) (ip_src h) (uh_sport uh) (ip_dst h) (uh_dport uh) INPLOOKUP_WILDCARD = Some j →
  has_flag (inp_flags j) INP_CONTROLOPTS = false → so_rcv u !! inp_id j = Some sb → sb_ok s sb →
  16 + Z.of_nat (length data) <= sbspace sb →
  wp (udp_input max_protohdr drain junk junk_len sum_junk in_ifaddrs udpcksum u h m 20) s (λ r s', same_store s s' ∧
    u_woken r = [inp_id j] ∧ u_icmp r = None ∧ udb (u_state r) = udb u ∧
    ∃ sb', so_rcv (u_state r) = <[inp_id j := sb']> (so_rcv u) ∧ sb_ok s' sb' ∧
      sb_bytes s' sb' = sb_bytes s sb ++ sin_bytes (uh_sport uh) (ip_src h) ++ data).
Proof.
  intros Hpr Hu Ha Hi Hor Hp Hsrc Hdst Hmc Hbc Hdg El Hmax Hj Hctl Hsb Hsbok Hsp.
  pose proof (pullup_to_wp max_protohdr Hpr drain drain_ok junk junk_ok junk_len s m 28 Ha ltac:(lia)) as Hw. unfold wp in Hw.
  destruct (pullup_to _ _ _ _ _ _ _) as [[r s1]| |] eqn:E; [|done..]. destruct Hw as (Hs1 & Ho1 & Hr).
  assert (Hlen : (28 <= length (bytes s m))%nat).
  { destruct Hdg as (Eb & _). apply (f_equal length) in Eb. rewrite length_drop, length_app in Eb. simpl in Eb. lia. }
  destruct r as [m1|]; [|destruct Hr; [lia|done]]. destruct Hr as (Ha1 & Hb1 & Hf1 & _ & Hi1). specialize (Hi1 Hi).
  unfold wp. rewrite (udp_input_pulled s s1 u h m m1 E Hf1). destruct m1 as [|m0 rest]; [by destruct Ha1|].
  rewrite <-Hb1 in Hdg. specialize (Ho1 Hor).
  assert (H := udp_input_spec s1 u h m0 rest uh data j sb Hu Ha1 Hi1 Hf1 Ho1 Hp Hsrc Hdst Hmc Hbc Hdg El Hmax Hj Hctl Hsb
    (sb_ok_store _ _ _ Hs1 Hsbok) Hsp). unfold wp in H.
  destruct (udp_input _ _ _ _ _ _ _ _ _ _ _ _) as [[r s3]| |]; [|done..].
  destruct H as (Hs3 & H1 & H2 & H3 & sb' & H4 & H5 & H6). split; [by etrans|]. do 3 (split; [done|]). exists sb'.
  split; [done|]. split; [done|]. rewrite H6. f_equal. by apply bytes_store.
Qed.
End Input.

(** ** Requests *)

(** A state is in order if its list is and the last block found is in it. *)
Lemma ustate_ok_intro u : pcbs_ok (udb u) → (∀ id, udp_last u = Some id → id ∈ ids (udb u)) → ustate_ok u.
Proof. intros H1 H2. split; [done|]. intros id E. by apply ids_member, H2. Qed.

Lemma ustate_ok_ids u h : ustate_ok u → pcbs_ok h → ids h = ids (udb u) → ustate_ok (set_udb u h).
Proof. intros [H1 H2] Hh E. apply ustate_ok_intro; [done|]. intros id Hl. cbn. rewrite E. apply ids_member. by apply H2. Qed.

Lemma disconnect_found h i j :
  has_flag (so_state i) SS_NOFDREF = false → find_id (in_pcbdisconnect h i) (inp_id i) = Some j → j = set_foreign i INADDR_ANY 0.
Proof.
  intros H E. apply find_id_in in E as [Hj Ej]. unfold in_pcbdisconnect in Hj. cbv zeta in Hj.
  change (so_state (set_foreign _ _ _)) with (so_state i) in Hj. rewrite H in Hj. cbn [hd_list] in Hj.
  apply store_elem in Hj as [[-> _]|[_ ?]]; [done|]. done.
Qed.

(** A connection keeps the state of the socket and a local address. *)
Lemma connect_found a b c rt d n h i m sin h' j :
  in_pcbconnect a b c rt d n h i m sin = Some (0, h') → find_id h' (inp_id i) = Some j →
  so_state j = so_state i ∧ (inp_laddr i ≠ INADDR_ANY → inp_laddr j = inp_laddr i).
Proof.
  assert (Hpcb : ∀ h i f p l, connect_pcb a b c h i f p l = Some (0, h') → find_id h' (inp_id i) = Some j →
    so_state j = so_state i ∧ (inp_laddr i ≠ INADDR_ANY → inp_laddr j = inp_laddr i)).
  { clear h i. intros h i f p l. unfold connect_pcb. destruct (in_pcblookup _ _ _ _ _ _); [done|].
    destruct (Z.eqb_spec (inp_laddr i) INADDR_ANY) as [E|E].
    - destruct (if inp_lport i =? 0 then _ else _) as [h1|]; [|done]. cbn [mbind option_bind]. intros [= <-] Hj.
      apply stored_found in Hj as ->; [|done]. split; [done|]. done.
    - intros [= <-] Hj. by apply stored_found in Hj as ->. }
  unfold in_pcbconnect. cbv zeta. destruct (negb _); [done|]. destruct (negb _); [done|]. destruct (_ =? 0); [done|].
  destruct (Z.eqb_spec (inp_laddr i) INADDR_ANY) as [E|E]; [|by apply Hpcb].
  destruct (connect_ifaddr _ _ _ _ _ _); [|done]. intros Hc Hj. destruct (Hpcb _ _ _ _ _ Hc Hj) as [H1 _]. by split.
Qed.

Section Requests.
Context (max_linkhdr : Z) (drain : mstate → mstate) (junk : list Z) (junk_len sum_junk len_junk : Z).
Context (in_ifaddrs : list in_ifaddr) (have_addr : in_ifaddrs ≠ []) (udpcksum : bool).
Context (if_output : ifnet → Z → list packet → packet → Z) (rtalloc : Z → option rtentry).
Context (ifa_ifwithaddr : Z → bool) (suser : Z) (ifa_ifwithdstaddr ifa_ifwithnet : Z → option in_ifaddr) (loif : ifnet) (ip_defttl : Z).
#[local] Set Default Proof Using "Type*".

(** A socket that is in use, and has a port or does not share ports. *)
Definition usable (i : inpcb) : Prop :=
  has_flag (so_state i) SS_NOFDREF = false ∧ (inp_lport i ≠ 0 ∨ bind_wild i = INPLOOKUP_WILDCARD).

Lemma udp_output_ok u i m addr control id s :
  ustate_ok u → i ∈ hd_list (udb u) → usable i →
  wlp (udp_output max_linkhdr drain junk junk_len sum_junk in_ifaddrs udpcksum len_junk if_output rtalloc ifa_ifwithaddr suser
         ifa_ifwithdstaddr ifa_ifwithnet loif u i m addr control id) s (λ r _, ustate_ok r.1.2).
Proof.
  intros Hu Hi [Hnf Hport]. pose proof (us_pcbs u Hu) as Hok. unfold udp_output. apply wlp_skip. intros [] s0. cbv zeta.
  (* what the connection leaves *)
  apply wlp_bind. eapply (wlp_mono _ _ (λ eh _, pcbs_ok eh.2 ∧ ids eh.2 = ids (udb u) ∧
    (eh.1 = 0 → ∀ j, find_id eh.2 (inp_id i) = Some j → so_state j = so_state i ∧ (inp_laddr i ≠ INADDR_ANY → inp_laddr j = inp_laddr i)))).
  { destruct addr as [[n sin]|].
    - destruct (negb _); [apply wlp_ret; split_and!; done|]. apply wlp_lift. intros [e h] E. cbn [fst snd].
      split; [eapply in_pcbconnect_ok; [done..| |exact E]; by destruct Hport; [left|right]|]. split; [by eapply connect_ids|]. intros ->. intros j. by eapply connect_found.
    - apply wlp_ret. cbn [fst snd]. split; [done|]. split; [done|]. intros _ j Hj. rewrite find_id_member in Hj by done. by injection Hj as <-. }
  intros [e h] s1 (Hh & Eids & Hj). cbn [fst snd] in *. destruct (ztrue e) eqn:Ee.
  { apply wlp_skip. intros [] s2. apply wlp_ret. by apply ustate_ok_ids. }
  assert (e = 0) as -> by (unfold ztrue in Ee; by destruct (Z.eqb_spec e 0)).
  apply wlp_bind, wlp_lift. intros i1 E1. destruct (Hj eq_refl i1 E1) as [Hst Hla]. apply find_id_in in E1 as [Hi1 Eid1].
  apply wlp_skip. intros [m1|] s2; [|apply wlp_ret; by apply ustate_ok_ids].
  apply wlp_skip. intros p s3. apply wlp_skip. intros o s4. apply wlp_ret. cbn [fst snd].
  set (i2 := set_route i1 (o_ro o)). set (h2 := Head (hd_lport h) (store i2 (hd_list h))).
  assert (Hh2 : pcbs_ok h2) by by apply (store_same_ok h i1). assert (E2 : ids h2 = ids h) by apply store_ids.
  assert (Hi2 : i2 ∈ hd_list h2) by by apply (store_member i1).
  destruct addr as [[n sin]|]; [|apply (ustate_ok_ids u h2); [done|done|congruence]].
  assert (Hnf2 : has_flag (so_state i2) SS_NOFDREF = false) by (change (so_state i2) with (so_state i1); congruence).
  assert (Hh3 : pcbs_ok (in_pcbdisconnect h2 i2)) by (eapply pcb_step_ok; [by apply step_disconnect|done]).
  assert (E3 : ids (in_pcbdisconnect h2 i2) = ids h2) by by apply disconnect_ids.
  change (inp_id (set_route i1 (o_ro o))) with (inp_id i2).
  destruct (update_pcb_ok (in_pcbdisconnect h2 i2) (inp_id i2) (λ j, set_local j (inp_laddr i) (inp_lport j))) as [H4 E4]; [done| |].
  { intros j Hj'. split; [done|]. right. apply disconnect_found in Hj' as ->; [|done]. split; [done|]. cbn. intros Hne.
    apply (ok_bound h2 Hh2 i2 Hi2). right. cbn. rewrite Hla; done. }
  apply (ustate_ok_ids u (update_pcb (in_pcbdisconnect h2 i2) (inp_id i2) (λ j, set_local j (inp_laddr i) (inp_lport j)))); [done|done|congruence].
Qed.

Lemma udp_detach_ok u i : ustate_ok u → ustate_ok (udp_detach u i).
Proof.
  clear. intros [H1 H2]. unfold udp_detach.
  assert (Hd : ∀ u', udb u' = udb u → (∀ id, udp_last u' = Some id → udp_last u = Some id ∧ id ≠ inp_id i) → ustate_ok (set_udb u' (in_pcbdetach (udb u') i))).
  { intros u' E Hl. apply ustate_ok_intro; cbn [udb set_udb udp_last]; [rewrite E; by apply detach_ok|].
    intros id Hid. destruct (Hl id Hid) as [Hid' Hne]. destruct (H2 id Hid') as (k & Hk & Ek). apply ids_member. exists k. split; [|done].
    cbn [in_pcbdetach hd_list]. rewrite E. apply list_elem_of_filter. split; [congruence|done]. }
  destruct (decide (udp_last u = Some (inp_id i))); apply Hd; try done. intros id E. split; [done|congruence].
Qed.

(** The requests other than one to send return, as long as there is a port that no block
    has: otherwise the search for one never ends ([port_search]). *)
Definition sends (req : request) : bool := match req with PRU_SEND _ _ _ => true | _ => false end.

Lemma udp_usrreq_returns u inp req id s :
  pcbs_ok (udb u) → spare (udb u) → (∀ i, inp = Some i → i ∈ hd_list (udb u)) → sends req = false →
  ∃ r, udp_usrreq max_linkhdr drain junk junk_len sum_junk in_ifaddrs udpcksum len_junk if_output rtalloc ifa_ifwithaddr suser
         ifa_ifwithdstaddr ifa_ifwithnet loif ip_defttl u inp req id s = Ok (r, s).
Proof using Type.
  intros Hok Hs Hinp Hr. unfold udp_usrreq. destruct inp as [i|].
  - specialize (Hinp i eq_refl). destruct req; try done; try (by eexists).
    + destruct (bind_returns ifa_ifwithaddr suser in_ifaddrs (udb u) i nam (ok_hint _ Hok) Hs) as [[er h] E].
      unfold bind, lift. rewrite E. by eexists.
    + destruct (negb _); [by eexists|].
      match goal with |- context [in_pcbconnect _ _ _ _ _ _ _ _ ?n ?sin] =>
        destruct (connect_returns ifa_ifwithaddr suser in_ifaddrs rtalloc ifa_ifwithdstaddr ifa_ifwithnet (udb u) i n sin (ok_hint _ Hok) Hs Hinp) as [[er h] E] end.
      unfold bind, lift. rewrite E. by eexists.
    + destruct (_ =? _); by eexists.
  - destruct req as [a ? ? ? ?| | | | | | | | | | |]; try (by eexists). 
    destruct a; cbn [in_pcballoc]; repeat (destruct (ztrue _); [by eexists|]); by eexists.
Qed.

End Requests.

(** ** Properties *)

(** The block that [udp_input] takes for a datagram with a source and a destination
    is the one [in_pcblookup] finds, whether the block found last has its names or
    not. *)
Theorem udp_cache_transparent u h uh :
  ustate_ok u → ip_src h ≠ INADDR_ANY → ip_dst h ≠ INADDR_ANY →
  ∃ u', udp_lookup u h uh =
      Some (in_pcblookup (hd_list (udb u)) (ip_src h) (uh_sport uh) (ip_dst h) (uh_dport uh) INPLOOKUP_WILDCARD, u') ∧
    udb u' = udb u ∧ so_rcv u' = so_rcv u ∧ ustate_ok u'.
Proof. apply udp_lookup_spec. Qed.

Section Roundtrip.
Context (max_protohdr : Z) (proto_ok : 0 <= max_protohdr) (drain : mstate → mstate) (drain_ok : ∀ s, same_store s (drain s)).
Context (junk : list Z) (junk_ok : Z.of_nat (length junk) = MLEN) (junk_len : Z) (in_ifaddrs : list in_ifaddr).
#[local] Set Default Proof Using "Type*".

End Roundtrip.

(** ** Examples *)

Definition ex_from : inpcb := Inp 1 0x0a000002 53 0x0a000001 1024 0 0 0 (RO None 0) None 0 64 0 None.
Definition ex_to : inpcb := Inp 5 0 0 0 53 0 0 0 (RO None 0) None 0 64 0 None.
Definition ex_room : mbuf := MB 30 8 MT_DATA M_PKTHDR 30 0 0 0 (replicate 36 0 ++ [104; 105] ++ replicate 70 0).
Definition ex_buf : sockbuf := SB 0 1000 0 2000 1 [] 0.
Definition ex_ustate : ustate := US (Head 0 [ex_to]) None {[5 := ex_buf]}.

Lemma ex_ustate_ok : ustate_ok ex_ustate.
Proof.
  split; [|done]. split; cbn; [by left|by apply NoDup_singleton| |].
  - intros i [->|[]%elem_of_nil]%elem_of_cons. done.
  - intros i j [->|[]%elem_of_nil]%elem_of_cons. done.
Qed.


Lemma udp_cache_transparent_witness :
  ∃ u', udp_lookup ex_ustate (IP 4 5 0 10 0 0 64 17 0 0x0a000001 0x0a000002) (UH 1024 53 10 0) =
      Some (in_pcblookup (hd_list (udb ex_ustate)) 0x0a000001 1024 0x0a000002 53 INPLOOKUP_WILDCARD, u') ∧
    udb u' = udb ex_ustate ∧ so_rcv u' = so_rcv ex_ustate ∧ ustate_ok u'.
Proof.
  apply (udp_cache_transparent ex_ustate (IP 4 5 0 10 0 0 64 17 0 0x0a000001 0x0a000002) (UH 1024 53 10 0)); [apply ex_ustate_ok|done|done].
Defined.


(** The whole way, from the block [ex_from] to the buffer of [ex_to]. *)
Example ex_udp_delivered :
  match udp_packet 0 true ex_from 2 [ex_room] ex_state with
  | Ok (p, s) =>
      match udp_input 64 id (replicate 108 0) 0 0 [] true ex_ustate (set_iplen (p_ip p) 10) (p_m p) 20 s with
      | Ok (r, s) => (u_woken r, sb_bytes s (default ex_buf (so_rcv (u_state r) !! 5)))
      | _ => ([], [])
      end
  | _ => ([], [])
  end = ([5], [16; 2; 4; 0; 10; 0; 0; 1; 0; 0; 0; 0; 0; 0; 0; 0; 104; 105]).
Proof. vm_compute. reflexivity. Qed.

(** A datagram whose UDP header says [ulen], without a checksum. *)
Definition ex_short (ulen : Z) : list mbuf :=
  [MB 30 8 MT_DATA M_PKTHDR 30 0 0 0 (replicate 28 0 ++ be16 1024 ++ be16 53 ++ be16 ulen ++ [0; 0] ++ [104; 105] ++ replicate 70 0)].

(** A length of less than the header in a UDP header is not refused: the datagram is
    delivered as an mbuf of negative length, and the count of the receive buffer is
    less than the bytes of the name that is in it. *)
Theorem short_length_accepted ulen :
  0 <= ulen < 8 →
  ∃ r s, udp_input 64 id (replicate 108 0) 0 0 [] true ex_ustate (IP 4 5 0 10 0 0 64 17 0 0x0a000001 0x0a000002) (ex_short ulen) 20 ex_state = Ok (r, s) ∧
    u_woken r = [5] ∧
    ∃ sb, so_rcv (u_state r) !! 5 = Some sb ∧ map (map m_len) (sb_mb sb) = [[16; ulen - 8]] ∧ sb_cc sb = ulen + 8.
Proof.
  intros H. assert (ulen ∈ [0; 1; 2; 3; 4; 5; 6; 7]) as Hin.
  { rewrite !elem_of_cons. lia. }
  repeat (apply elem_of_cons in Hin as [->|Hin]; [do 2 eexists; split; [vm_compute; reflexivity|]; split; [reflexivity|]; eexists; split; [reflexivity|]; split; reflexivity|]).
  by apply elem_of_nil in Hin.
Qed.

Lemma short_length_accepted_witness :
  ∃ r s, udp_input 64 id (replicate 108 0) 0 0 [] true ex_ustate (IP 4 5 0 10 0 0 64 17 0 0x0a000001 0x0a000002) (ex_short 3) 20 ex_state = Ok (r, s) ∧
    u_woken r = [5] ∧
    ∃ sb, so_rcv (u_state r) !! 5 = Some sb ∧ map (map m_len) (sb_mb sb) = [[16; 3 - 8]] ∧ sb_cc sb = 3 + 8.
Proof. apply (short_length_accepted 3). lia. Defined.

(** When there is no mbuf for the header, [udp_output] to a named destination returns
    ENOBUFS with the block still connected to it; a second datagram from the socket, to
    any destination, is then refused with EISCONN. *)
Theorem failed_send_stays_connected :
  let s := with_oracle [false; false] (brk ex_state) ex_state in
  let i := Inp 1 0 0 0 1024 0 0 0 (RO None 0) None 0 64 0 None in
  let m := [MB 2 0 MT_DATA M_PKTHDR 2 0 0 0 (replicate 108 0)] in
  let out u i m a s := udp_output 16 id (replicate 108 0) 0 0 [ex_ia] true 0 (λ _ _ _ _, 0) (λ _, Some ex_rt) (λ _, true) 0
                         (λ _, None) (λ _, None) (IFN 2 0 0) u i m (Some (16, Sin AF_INET 53 a)) [] 1 s in
  ∃ u j s', out (US (Head 0 [i]) None ∅) i m 0x0b000001 s = Ok (ENOBUFS, u, None, s') ∧ hd_list (udb u) = [j] ∧
    inp_faddr j = 0x0b000001 ∧ ∀ a, ∃ s2, out u j m a s' = Ok (EISCONN, u, None, s2).
Proof.
  cbv zeta. do 3 eexists. split; [vm_compute; reflexivity|]. split; [reflexivity|]. split; [reflexivity|]. intros a. eexists. vm_compute. reflexivity.
Qed.

(** A broadcast goes to every socket of the port, also behind one that does not share
    it: the [break] is never taken. *)
Example bcast_to_all :
  match udp_input 64 id (replicate 108 0) 0 0 [] true
          (US (Head 0 [ex_to; Inp 6 0 0 0 53 0 0 0 (RO None 0) None 0 64 0 None]) None (<[5 := ex_buf]> {[6 := ex_buf]}))
          (IP 4 5 0 10 0 0 64 17 0 0x0a000001 0xe0000001) (ex_short 10) 20 ex_state with
  | Ok (r, _) => u_woken r
  | _ => []
  end = [5; 6].
Proof. vm_compute. reflexivity. Qed.

End Udp.
