(* ===== verification/TcpOpt.v ===== *)
(** * TCP options and the segment size ([tcp_mss], [tcp_dooptions] of tcp_input.c)

    [tcp_mss] chooses the segment size from the route and an offer of the peer and
    resizes the socket buffers to it; [tcp_dooptions] scans the options of a
    received segment; [syn_options] and [tstamp_options] are the options
    [tcp_output] writes. *)

From stdpp Require Import options.
From S2P Require Import Prelude Mbuf Sockbuf Tcp.
Import Tcp.

Module TcpOpt.

Definition TCPOPT_EOL : Z := 0.
Definition TCPOPT_NOP : Z := 1.
Definition TCPOPT_MAXSEG : Z := 2.
Definition TCPOLEN_MAXSEG : Z := 4.
Definition TCPOPT_WINDOW : Z := 3.
Definition TCPOLEN_WINDOW : Z := 3.
Definition TCPOPT_TIMESTAMP : Z := 8.
Definition TCPOLEN_TIMESTAMP : Z := 10.
Definition TCPOLEN_TSTAMP_APPA : Z := TCPOLEN_TIMESTAMP + 2.
Definition TCPOPT_TSTAMP_HDR : Z :=
  Z.lor (Z.lor (Z.shiftl TCPOPT_NOP 24) (Z.shiftl TCPOPT_NOP 16))
        (Z.lor (Z.shiftl TCPOPT_TIMESTAMP 8) TCPOLEN_TIMESTAMP).
Definition RTV_RTT : Z := 0x40.
Definition RTM_RTTUNIT : Z := 1000000.
Definition TCP_RTT_SCALE : Z := 8.
Definition TCP_RTTVAR_SCALE : Z := 4.
Definition TCPIPHDR_SIZE : Z := 40.

(** The two buffers of a socket. *)
Record sock := Sock { so_snd : Sockbuf.sockbuf; so_rcv : Sockbuf.sockbuf }.

(** What [tcp_mss] reads of a route: the metrics, the MTU of the interface and
    whether the destination is local ([in_localaddr]). *)
Record route_info := Route
  { rmx_locks : Z; rmx_mtu : Z; rmx_recvpipe : Z; rmx_sendpipe : Z; rmx_ssthresh : Z;
    rmx_rtt : Z; rmx_rttvar : Z; if_mtu : Z; in_localaddr : bool }.

(** Big-endian bytes of a 16-bit and a 32-bit word ([htons], [htonl]). *)
Definition be16 (v : Z) : list Z := [u8 (v / 256); u8 v].
Definition be32 (v : Z) : list Z := [u8 (v / 16777216); u8 (v / 65536); u8 (v / 256); u8 v].

Section Options.

(** [route] is the route of the connection: the cached one, or the result of
    [rtalloc]. *)
Context (sb_max tcp_mssdflt : Z) (route : option route_info).

(** ** The segment size *)

(** [roundup(x, y)] in [u_long] arithmetic; [None] is a division by zero. *)
Definition roundup (x y : Z) : option Z :=
  if u32 y =? 0 then None else Some (u32 (u32 (x + u32 (y - 1)) / u32 y * u32 y)).

(** The initial round-trip estimate, from the metrics of the route. *)
Definition mss_rtt (rt : route_info) (tp : tcpcb) : tcpcb :=
  let rtt := s32 (rmx_rtt rt) in
  if (tp t_srtt =? 0) && ztrue rtt then
    let tp := if ztrue (Z.land (rmx_locks rt) RTV_RTT)
              then wr t_rttmin (Z.quot rtt (RTM_RTTUNIT / PR_SLOWHZ)) tp else tp in
    let tp := wr t_srtt (Z.quot rtt (RTM_RTTUNIT / (PR_SLOWHZ * TCP_RTT_SCALE))) tp in
    let tp := if ztrue (rmx_rttvar rt)
              then wr t_rttvar (rmx_rttvar rt / (RTM_RTTUNIT / (PR_SLOWHZ * TCP_RTTVAR_SCALE))) tp
              else wr t_rttvar (Z.quot (tp t_srtt * TCP_RTTVAR_SCALE) TCP_RTT_SCALE) tp in
    TCPT_RANGESET t_rxtcur (Z.shiftr (Z.shiftr (tp t_srtt) 2 + tp t_rttvar) 1)
      (tp t_rttmin) TCPTV_REXMTMAX tp
  else tp.

(** The size the route allows; [min] is on [u_int]. *)
Definition mss_route (rt : route_info) : Z :=
  if ztrue (rmx_mtu rt) then s32 (rmx_mtu rt - TCPIPHDR_SIZE)
  else
    let mss := s32 (if_mtu rt - TCPIPHDR_SIZE) in
    let mss := if Mbuf.MCLBYTES <? mss then Z.land mss (Z.lnot (Mbuf.MCLBYTES - 1)) else mss in
    if negb (in_localaddr rt) then s32 (Z.min (u32 mss) (u32 tcp_mssdflt)) else mss.

(** The socket buffers as multiples of the segment size; the new size. *)
Definition mss_buffers (rt : route_info) (so : sock) (mss : Z) : option (sock * Z) :=
  let bufsize := if rmx_sendpipe rt =? 0 then Sockbuf.sb_hiwat (so_snd so) else rmx_sendpipe rt in
  match
    (if bufsize <? u32 mss then Some (so, s32 bufsize)
     else
       match roundup bufsize mss with
       | None => None
       | Some b => Some (Sock (Sockbuf.sbreserve sb_max (so_snd so) (Z.min b sb_max)).1 (so_rcv so), mss)
       end)
  with
  | None => None
  | Some (so, mss) =>
      let bufsize := if rmx_recvpipe rt =? 0 then Sockbuf.sb_hiwat (so_rcv so) else rmx_recvpipe rt in
      if u32 mss <? bufsize then
        match roundup bufsize mss with
        | None => None
        | Some b => Some (Sock (so_snd so) (Sockbuf.sbreserve sb_max (so_rcv so) (Z.min b sb_max)).1, mss)
        end
      else Some (so, mss)
  end.

(** [tcp_mss(tp, offer)]: the control block, the socket and the value returned. *)
Definition tcp_mss (tp : tcpcb) (so : sock) (offer : Z) : option (tcpcb * sock * Z) :=
  match route with
  | None => Some (tp, so, tcp_mssdflt)
  | Some rt =>
      let tp := mss_rtt rt tp in
      let mss := mss_route rt in
      let mss := if ztrue offer then s32 (Z.min (u32 mss) offer) else mss in
      let mss := s32 (Z.max (u32 mss) 32) in
      match
        (if (mss <? tp t_maxseg) || ztrue offer then
           match mss_buffers rt so mss with
           | None => None
           | Some (so, mss) => Some (wr t_maxseg mss tp, so, mss)
           end
         else Some (tp, so, mss))
      with
      | None => None
      | Some (tp, so, mss) =>
          let tp := wr snd_cwnd mss tp in
          let tp := if ztrue (rmx_ssthresh rt)
                    then wr snd_ssthresh (Z.max (u32 (2 * mss)) (rmx_ssthresh rt)) tp else tp in
          Some (tp, so, mss)
      end
  end.

(** ** Options received *)

(** What the scan sets: [ts_present], [ts_val] and [ts_ecr]. *)
Record tstamps := TS { ts_present : bool; ts_val : Z; ts_ecr : Z }.

(** One option at [cp], of kind [opt] and length [optlen] (the switch). *)
Definition do_option (tcp_now ti_flags : Z) (cp : list Z) (opt optlen : Z)
    (tp : tcpcb) (so : sock) (ts : tstamps) : option (tcpcb * sock * tstamps) :=
  let syn := ztrue (Z.land ti_flags TH_SYN) in
  if opt =? TCPOPT_MAXSEG then
    if negb (optlen =? TCPOLEN_MAXSEG) || negb syn then Some (tp, so, ts)
    else
      match read_bytes cp 2 2 with
      | None => None
      | Some b =>
          match tcp_mss tp so (be_val b) with
          | None => None
          | Some (tp, so, _) => Some (tp, so, ts)
          end
      end
  else if opt =? TCPOPT_WINDOW then
    if negb (optlen =? TCPOLEN_WINDOW) || negb syn then Some (tp, so, ts)
    else
      match cp !! 2%nat with
      | None => None
      | Some c => Some (wr requested_s_scale (Z.min c TCP_MAX_WINSHIFT) (set_tflag TF_RCVD_SCALE tp), so, ts)
      end
  else if opt =? TCPOPT_TIMESTAMP then
    if negb (optlen =? TCPOLEN_TIMESTAMP) then Some (tp, so, ts)
    else
      match read_bytes cp 2 4, read_bytes cp 6 4 with
      | Some v, Some e =>
          let ts := TS true (be_val v) (be_val e) in
          Some (if syn then wr ts_recent_age tcp_now (wr ts_recent (ts_val ts) (set_tflag TF_RCVD_TSTMP tp))
                else tp, so, ts)
      | _, _ => None
      end
  else Some (tp, so, ts).

(** [tcp_dooptions]: [cp] are the bytes in memory from the options on, [cnt] the
    length of the options; [None] is a read past those bytes or a division by
    zero.  A step consumes at least one byte of [cnt]. *)
Fixpoint dooptions_loop (fuel : nat) (tcp_now ti_flags : Z) (cp : list Z) (cnt : Z)
    (tp : tcpcb) (so : sock) (ts : tstamps) : option (tcpcb * sock * tstamps) :=
  if negb (0 <? cnt) then Some (tp, so, ts)
  else
    match fuel, cp with
    | S fuel, opt :: rest =>
        if opt =? TCPOPT_EOL then Some (tp, so, ts)
        else
          match (if opt =? TCPOPT_NOP then Some 1 else rest !! 0%nat) with
          | None => None
          | Some optlen =>
              if optlen <=? 0 then Some (tp, so, ts)
              else
                match do_option tcp_now ti_flags cp opt optlen tp so ts with
                | None => None
                | Some (tp, so, ts) =>
                    dooptions_loop fuel tcp_now ti_flags (drop (Z.to_nat optlen) cp) (cnt - optlen) tp so ts
                end
          end
    | _, _ => None
    end.

Definition tcp_dooptions (tcp_now ti_flags : Z) (cp : list Z) (cnt : Z)
    (tp : tcpcb) (so : sock) (ts : tstamps) : option (tcpcb * sock * tstamps) :=
  dooptions_loop (Z.to_nat cnt) tcp_now ti_flags cp cnt tp so ts.

End Options.

(** ** Options sent (the [opt] array of [tcp_output]) *)

Definition mss_option (mss : Z) : list Z := [TCPOPT_MAXSEG; 4] ++ be16 (u16 mss).
Definition window_option (scale : Z) : list Z :=
  be32 (Z.lor (Z.lor (Z.shiftl TCPOPT_NOP 24) (Z.shiftl TCPOPT_WINDOW 16))
              (Z.lor (Z.shiftl TCPOLEN_WINDOW 8) scale)).
Definition tstamp_option (now recent : Z) : list Z :=
  be32 TCPOPT_TSTAMP_HDR ++ be32 now ++ be32 recent.

(** ** The segment size: properties *)

Definition route_mtu (rt : route_info) : Z := if ztrue (rmx_mtu rt) then rmx_mtu rt else if_mtu rt.

(** A size or a default the computation can work with. *)
Definition route_ok (sb_max tcp_mssdflt : Z) (rt : route_info) (so : sock) : Prop :=
  72 <= route_mtu rt <= 65575 ∧ 32 <= tcp_mssdflt <= 65535 ∧ 0 < sb_max < 1073741824 ∧
  0 <= rmx_sendpipe rt <= sb_max ∧ 0 <= rmx_recvpipe rt <= sb_max ∧
  0 < Sockbuf.sb_hiwat (so_snd so) <= sb_max ∧ 0 <= Sockbuf.sb_hiwat (so_rcv so) <= sb_max.

Lemma land_lnot_cluster z : Z.land z (Z.lnot (Mbuf.MCLBYTES - 1)) = z / 2048 * 2048.
Proof.
  change (Mbuf.MCLBYTES - 1) with (Z.ones 11). rewrite <- Z.ldiff_land, Z.ldiff_ones_r by lia.
  by rewrite Z.shiftl_mul_pow2, Z.shiftr_div_pow2 by lia.
Qed.

Lemma mss_route_bounds sb_max dflt rt so :
  route_ok sb_max dflt rt so → 32 <= mss_route dflt rt <= route_mtu rt - TCPIPHDR_SIZE.
Proof.
  unfold route_ok, mss_route, route_mtu, TCPIPHDR_SIZE. intros (H1 & H2 & _).
  destruct (ztrue (rmx_mtu rt)); [rewrite s32_id by (unfold is_s32; lia); lia|].
  rewrite (s32_id (if_mtu rt - 40)) by (unfold is_s32; lia). rewrite land_lnot_cluster.
  assert (32 <= (if Mbuf.MCLBYTES <? if_mtu rt - 40 then (if_mtu rt - 40) / 2048 * 2048 else if_mtu rt - 40)
    <= if_mtu rt - 40) as Hm.
  { destruct (Z.ltb_spec Mbuf.MCLBYTES (if_mtu rt - 40)); unfold Mbuf.MCLBYTES in *; Z.div_mod_to_equations; lia. }
  destruct (negb _); [|lia]. rewrite !u32_id, s32_id by (unfold is_s32, is_u32; lia). lia.
Qed.

Lemma roundup_Some x y : 0 <= x < 1073741824 → 0 < y < 1073741824 → ∃ b, roundup x y = Some b ∧ x <= b < x + y ∧ b mod y = 0.
Proof.
  intros Hx Hy. unfold roundup. rewrite (u32_id y), (u32_id (y - 1)) by (unfold is_u32; lia).
  rewrite (proj2 (Z.eqb_neq y 0)) by lia. rewrite (u32_id (x + (y - 1))) by (unfold is_u32; lia).
  eexists. split; [done|]. pose proof (Z.mul_div_le (x + (y - 1)) y). 
  pose proof (Z.mul_succ_div_gt (x + (y - 1)) y). rewrite u32_id by (unfold is_u32; lia).
  split; [lia|]. apply Z.mod_mul. lia.
Qed.

Lemma sbreserve_hiwat sb_max sb cc :
  Sockbuf.sb_hiwat (Sockbuf.sbreserve sb_max sb cc).1 = Sockbuf.sb_hiwat sb ∨
  Sockbuf.sb_hiwat (Sockbuf.sbreserve sb_max sb cc).1 = cc.
Proof. unfold Sockbuf.sbreserve. destruct (_ <? _); auto. Qed.

(** The buffers can be fitted, and the segment size is lowered at most to the
    size of the send buffer. *)
Lemma mss_buffers_Some sb_max dflt rt so mss :
  route_ok sb_max dflt rt so → 32 <= mss <= 65535 →
  ∃ so' mss', mss_buffers sb_max rt so mss = Some (so', mss') ∧ 1 <= mss' <= mss ∧ route_ok sb_max dflt rt so'.
Proof.
  intros (H1 & H2 & H3 & H4 & H5 & H6 & H7) Hm. unfold mss_buffers, route_ok.
  set (sb := if rmx_sendpipe rt =? 0 then _ else _).
  assert (Hsb : 0 < sb <= sb_max) by (unfold sb; destruct (_ =? 0) eqn:E; zbool; lia). clearbody sb.
  rewrite (u32_id mss) by (unfold is_u32; lia).
  set (r := if sb <? mss then _ else _).
  assert (∃ so' mss', r = Some (so', mss') ∧ 1 <= mss' <= mss ∧ so_rcv so' = so_rcv so ∧
    0 < Sockbuf.sb_hiwat (so_snd so') <= sb_max) as (so' & mss' & -> & Hm' & Hr & Hs).
  { unfold r. destruct (Z.ltb_spec sb mss).
    - rewrite s32_id by (unfold is_s32; lia). eexists _, _. split_and!; [done|lia|lia|done|lia|lia].
    - destruct (roundup_Some sb mss) as (b & -> & Hb & _); [lia|lia|]. eexists _, _. split_and!; [done|lia|lia|done|..];
        simpl; destruct (sbreserve_hiwat sb_max (so_snd so) (Z.min b sb_max)) as [-> | ->]; lia. }
  rewrite Hr. set (rb := if rmx_recvpipe rt =? 0 then _ else _).
  assert (Hrb : 0 <= rb <= sb_max) by (unfold rb; destruct (_ =? 0); lia). clearbody rb.
  destruct (_ <? _); [|eexists _, _; rewrite Hr; split_and!; done || lia].
  destruct (roundup_Some rb mss') as (b & -> & Hb & _); [lia|lia|].
  eexists _, _; split_and!; try done; try lia; simpl; try lia;
    destruct (sbreserve_hiwat sb_max (so_rcv so) (Z.min b sb_max)) as [-> | ->]; lia.
Qed.

(** What becomes of a buffer: only its limits may change, to the limit of the system
    or to a multiple of the segment size. *)
Definition resized (sb_max mss : Z) (sb sb' : Sockbuf.sockbuf) : Prop :=
  Sockbuf.sb_mb sb' = Sockbuf.sb_mb sb ∧ Sockbuf.sb_cc sb' = Sockbuf.sb_cc sb ∧ Sockbuf.sb_mbcnt sb' = Sockbuf.sb_mbcnt sb ∧
  Sockbuf.sb_flags sb' = Sockbuf.sb_flags sb ∧
  (sb' = sb ∨ Sockbuf.sb_hiwat sb' <= sb_max ∧ (Sockbuf.sb_hiwat sb' mod mss = 0 ∨ Sockbuf.sb_hiwat sb' = sb_max)).

Lemma resized_refl sb_max mss sb : resized sb_max mss sb sb.
Proof. unfold resized. split_and!; try done; by left. Qed.

Lemma sbreserve_resized sb_max mss sb b :
  b mod mss = 0 → resized sb_max mss sb (Sockbuf.sbreserve sb_max sb (Z.min b sb_max)).1.
Proof.
  intros Hb. unfold Sockbuf.sbreserve. destruct (_ <? _); [apply resized_refl|]. split_and!; try done. right. simpl.
  split; [lia|]. destruct (Z.le_gt_cases b sb_max); [left; by rewrite Z.min_l|right; lia].
Qed.

Lemma mss_buffers_resized sb_max dflt rt so mss so' mss' :
  route_ok sb_max dflt rt so → 32 <= mss <= 65535 → mss_buffers sb_max rt so mss = Some (so', mss') →
  resized sb_max mss' (so_snd so) (so_snd so') ∧ resized sb_max mss' (so_rcv so) (so_rcv so').
Proof.
  intros (H1 & H2 & H3 & H4 & H5 & H6 & H7) Hm. unfold mss_buffers.
  set (sb := if rmx_sendpipe rt =? 0 then _ else _).
  assert (Hsb : 0 < sb <= sb_max) by (unfold sb; destruct (_ =? 0) eqn:E; zbool; lia). clearbody sb.
  rewrite (u32_id mss) by (unfold is_u32; lia).
  assert (Hrcv : ∀ so1 mss1, 1 <= mss1 <= mss → so_rcv so1 = so_rcv so → resized sb_max mss1 (so_snd so) (so_snd so1) →
    (let bufsize := if rmx_recvpipe rt =? 0 then Sockbuf.sb_hiwat (so_rcv so1) else rmx_recvpipe rt in
     if u32 mss1 <? bufsize then
       match roundup bufsize mss1 with
       | None => None
       | Some b => Some (Sock (so_snd so1) (Sockbuf.sbreserve sb_max (so_rcv so1) (Z.min b sb_max)).1, mss1)
       end
     else Some (so1, mss1)) = Some (so', mss') →
    resized sb_max mss' (so_snd so) (so_snd so') ∧ resized sb_max mss' (so_rcv so) (so_rcv so')).
  { intros so1 mss1 Hm1 Er Hs. cbv zeta. rewrite Er. set (rb := if rmx_recvpipe rt =? 0 then _ else _).
    assert (Hrb : 0 <= rb <= sb_max) by (unfold rb; destruct (_ =? 0); lia). clearbody rb.
    destruct (_ <? _).
    - destruct (roundup_Some rb mss1) as (b & -> & _ & Hb); [lia|lia|]. intros [= <- <-]. split; [done|]. by apply sbreserve_resized.
    - intros [= <- <-]. split; [done|]. rewrite Er. apply resized_refl. }
  destruct (Z.ltb_spec sb mss).
  - rewrite s32_id by (unfold is_s32; lia). apply Hrcv; [lia|done|apply resized_refl].
  - destruct (roundup_Some sb mss) as (b & -> & _ & Hb); [lia|lia|]. apply Hrcv; [lia|done|]. by apply sbreserve_resized.
Qed.

(** What [mss_rtt] leaves alone. *)
Lemma mss_rtt_frame rt tp f :
  f ∉ [t_rttmin; t_srtt; t_rttvar; t_rxtcur] → mss_rtt rt tp f = tp f.
Proof.
  intros Hf. rewrite !not_elem_of_cons in Hf. destruct Hf as (F1 & F2 & F3 & F4 & _).
  unfold mss_rtt. destruct (_ && _); [|done]. rewrite RANGESET_other by done.
  destruct (ztrue _); destruct (ztrue _); by rewrite ?wr_ne by done.
Qed.

(** The fields [tcp_mss] may change. *)
Definition mss_fields : list tfield :=
  [t_rttmin; t_srtt; t_rttvar; t_rxtcur; t_maxseg; snd_cwnd; snd_ssthresh].

Lemma tcp_mss_frame sb_max dflt route tp so offer tp' so' v f :
  tcp_mss sb_max dflt route tp so offer = Some (tp', so', v) → f ∉ mss_fields → tp' f = tp f.
Proof.
  intros H Hf. unfold mss_fields in Hf. rewrite !not_elem_of_cons in Hf.
  destruct Hf as (F1 & F2 & F3 & F4 & F5 & F6 & F7 & _).
  assert (Hr : ∀ rt, mss_rtt rt tp f = tp f).
  { intros rt. apply mss_rtt_frame. notin. }
  unfold tcp_mss in H. destruct route as [rt|]; [|by injection H as <- _ _].
  match type of H with match ?b with _ => _ end = _ => destruct b as [[[tp1 so1] m1]|] eqn:E; [|done] end.
  assert (H1 : tp1 f = tp f).
  { destruct (_ || _) in E.
    - destruct (mss_buffers _ _ _ _) as [[so2 m2]|]; [|done]. injection E as <- _ _. rewrite wr_ne by done. apply Hr.
    - injection E as <- _ _. apply Hr. }
  injection H as <- _ _. rewrite <- H1.
  destruct (ztrue (rmx_ssthresh rt)); rewrite ?(wr_ne snd_ssthresh), (wr_ne snd_cwnd) by done; done.
Qed.

(** The size before the buffers are looked at. *)
Definition mss_offer (dflt : Z) (rt : route_info) (offer : Z) : Z :=
  let mss := mss_route dflt rt in
  let mss := if ztrue offer then s32 (Z.min (u32 mss) offer) else mss in
  s32 (Z.max (u32 mss) 32).

Lemma mss_offer_bounds sb_max dflt rt so offer :
  route_ok sb_max dflt rt so → is_u16 offer →
  let mss := mss_offer dflt rt offer in
  32 <= mss <= 65535 ∧ (offer ≠ 0 → mss <= Z.max 32 offer) ∧ mss <= route_mtu rt - TCPIPHDR_SIZE.
Proof.
  intros Hrt Ho. destruct (mss_route_bounds _ _ _ _ Hrt) as [B1 B2]. pose proof (proj1 Hrt) as B0.
  unfold is_u16, TCPIPHDR_SIZE, mss_offer, ztrue in *.
  destruct (Z.eqb_spec offer 0); simpl;
    rewrite ?(u32_id (mss_route dflt rt)) by (unfold is_u32; lia);
    rewrite ?(s32_id (Z.min _ _)) by (unfold is_s32; lia);
    rewrite ?u32_id, s32_id by (unfold is_s32, is_u32; lia); lia.
Qed.

(** The branch that fits the buffers and stores the size. *)
Lemma mss_store sb_max dflt rt tp so offer mss :
  route_ok sb_max dflt rt so → 32 <= mss <= 65535 →
  ∃ tp1 so1 m1,
    (if (mss <? mss_rtt rt tp t_maxseg) || ztrue offer then
       match mss_buffers sb_max rt so mss with
       | None => None
       | Some (so, mss) => Some (wr t_maxseg mss (mss_rtt rt tp), so, mss)
       end
     else Some (mss_rtt rt tp, so, mss)) = Some (tp1, so1, m1) ∧ 1 <= m1 <= mss ∧ route_ok sb_max dflt rt so1 ∧
    (offer ≠ 0 → tp1 t_maxseg = m1) ∧
    (offer = 0 → is_u16 (tp t_maxseg) → tp1 t_maxseg = Z.min (tp t_maxseg) m1) ∧
    resized sb_max m1 (so_snd so) (so_snd so1) ∧ resized sb_max m1 (so_rcv so) (so_rcv so1).
Proof.
  intros Hrt Hm.
  assert (Hr : mss_rtt rt tp t_maxseg = tp t_maxseg) by (apply mss_rtt_frame; notin).
  rewrite Hr. destruct (mss_buffers_Some _ _ _ _ _ Hrt Hm) as (so2 & m2 & Eb & Hm2 & Hso).
  destruct (mss_buffers_resized _ _ _ _ _ _ _ Hrt Hm Eb) as [Hr1 Hr2]. rewrite Eb.
  destruct (mss <? tp t_maxseg) eqn:C1; destruct (ztrue offer) eqn:C2; unfold ztrue in C2; zbool; simpl;
    eexists _, _, _; (split; [reflexivity|]); tsimpl; rewrite ?Hr, ?(u16_id m2) by (unfold is_u16; lia);
    split_and!; try done; try apply resized_refl; lia.
Qed.

Lemma tcp_mss_total sb_max dflt rt tp so offer :
  route_ok sb_max dflt rt so → is_u16 offer →
  ∃ tp' so' v, tcp_mss sb_max dflt (Some rt) tp so offer = Some (tp', so', v) ∧ route_ok sb_max dflt rt so'.
Proof.
  intros Hrt Ho. destruct (mss_offer_bounds _ _ _ _ _ Hrt Ho) as (M1 & _ & _).
  destruct (mss_store _ _ rt tp so offer _ Hrt M1) as (tp1 & so1 & m1 & E1 & _ & Hso & _).
  unfold tcp_mss. fold (mss_offer dflt rt offer). rewrite E1. by eexists _, _, _.
Qed.


(** An Ethernet route to a local host, and a socket with buffers of 8192 bytes. *)
Definition ex_route : route_info := Route 0 0 0 0 0 0 0 1500 true.
Definition ex_sockbuf (hiwat : Z) : Sockbuf.sockbuf := Sockbuf.SB 0 hiwat 0 (2 * hiwat) 1 [] 0.
Definition ex_sock : sock := Sock (ex_sockbuf 8192) (ex_sockbuf 8192).


(** A send buffer of size 0, which [setsockopt] accepts, makes the MSS option
    of any SYN divide by zero. *)
Theorem tcp_mss_divides_by_zero sb_max dflt rt tp so offer :
  Sockbuf.sb_hiwat (so_snd so) = 0 → rmx_sendpipe rt = 0 → rmx_recvpipe rt = 0 →
  0 < Sockbuf.sb_hiwat (so_rcv so) → offer ≠ 0 →
  tcp_mss sb_max dflt (Some rt) tp so offer = None.
Proof.
  intros H1 H2 H3 H4 H5. unfold tcp_mss, ztrue. rewrite (proj2 (Z.eqb_neq offer 0)) by done.
  cbn [negb]. rewrite orb_true_r. unfold mss_buffers. rewrite H2, H3, H1. cbn [Z.eqb].
  set (m := s32 (Z.max _ 32)).
  assert (Hm : 0 < u32 m).
  { unfold m. rewrite u32_s32. rewrite u32_id; [lia|]. pose proof (u32_range (s32 (Z.min (u32 (mss_route dflt rt)) offer))).
    unfold is_u32 in *. lia. }
  rewrite (proj2 (Z.ltb_lt 0 (u32 m)) Hm). change (u32 (s32 0)) with 0.
  by rewrite (proj2 (Z.ltb_lt 0 _) H4).
Qed.

Lemma tcp_mss_divides_by_zero_witness :
  tcp_mss 262144 512 (Some ex_route) (λ _, 0) (Sock (ex_sockbuf 0) (ex_sockbuf 8192)) 1460 = None.
Proof. apply tcp_mss_divides_by_zero; by vm_compute. Defined.

(** ** The options: properties *)

Lemma be_val_be16 v : is_u16 v → be_val (be16 v) = v.
Proof. unfold be_val, be16, is_u16. simpl. wraplia. Qed.

Lemma be_val_be32 v : is_u32 v → be_val (be32 v) = v.
Proof. unfold be_val, be32, is_u32. simpl. wraplia. Qed.

(** The bytes of the window scale option. *)
Lemma window_option_bytes s : 0 <= s < 256 → window_option s = [1; 3; 3; s].
Proof.
  intros Hs. unfold window_option. change (Z.lor (Z.shiftl TCPOPT_NOP 24) (Z.shiftl TCPOPT_WINDOW 16)) with (Z.shiftl 259 16).
  rewrite (lor_shiftl_add TCPOLEN_WINDOW s 8) by lia.
  rewrite lor_shiftl_add by (unfold TCPOLEN_WINDOW; lia). unfold be32, TCPOLEN_WINDOW, u8.
  repeat f_equal; Z.div_mod_to_equations; lia.
Qed.

Section Scan.
Context (sb_max dflt : Z) (route : option route_info) (tcp_now ti_flags : Z).

(** One step of the scan, over a complete option. *)
Lemma dooptions_step fuel o post cnt optlen tp so ts r :
  0 < cnt → Z.of_nat (length o) = optlen → head o ≠ Some TCPOPT_EOL →
  (o = [TCPOPT_NOP] ∨ head o ≠ Some TCPOPT_NOP ∧ o !! 1%nat = Some optlen) →
  do_option sb_max dflt route tcp_now ti_flags (o ++ post) (default 0 (head o)) optlen tp so ts = Some r →
  dooptions_loop sb_max dflt route (S fuel) tcp_now ti_flags (o ++ post) cnt tp so ts =
  dooptions_loop sb_max dflt route fuel tcp_now ti_flags post (cnt - optlen) r.1.1 r.1.2 r.2.
Proof.
  intros Hc Hl H0 H1 Hr. simpl. rewrite (proj2 (Z.ltb_lt 0 cnt)) by done. simpl.
  destruct o as [|x o]; [destruct H1 as [?|[_ ?]]; done|]. simpl in Hr, H0 |- *.
  rewrite (proj2 (Z.eqb_neq x TCPOPT_EOL)) by congruence.
  assert (E : (if x =? TCPOPT_NOP then Some 1 else (o ++ post) !! 0%nat) = Some optlen).
  { destruct H1 as [[= -> ->]|[Hx Ho]]; [subst optlen; done|]. rewrite (proj2 (Z.eqb_neq x TCPOPT_NOP)) by (simpl in Hx; congruence).
    simpl in Ho. by apply lookup_app_l_Some. }
  rewrite E. simpl in Hl. rewrite (proj2 (Z.leb_gt optlen 0)) by lia. rewrite Hr. destruct r as [[tp' so'] ts']. simpl.
  f_equal. change (x :: o ++ post) with ((x :: o) ++ post). rewrite drop_app_length'; [done|simpl; lia].
Qed.

Lemma do_nop post tp so ts :
  do_option sb_max dflt route tcp_now ti_flags ([TCPOPT_NOP] ++ post) TCPOPT_NOP 1 tp so ts = Some (tp, so, ts).
Proof. done. Qed.

Lemma read_bytes_app a b c n k :
  n = Z.of_nat (length a) → k = Z.of_nat (length b) → read_bytes (a ++ b ++ c) n k = Some b.
Proof.
  intros -> ->. rewrite read_bytes_Some by (rewrite ?length_app; lia). f_equal.
  rewrite drop_app_length' by lia. by rewrite take_app_length' by lia.
Qed.

Lemma do_maxseg post mss tp so ts tp1 so1 v :
  is_u16 mss → ztrue (Z.land ti_flags TH_SYN) = true → tcp_mss sb_max dflt route tp so mss = Some (tp1, so1, v) →
  do_option sb_max dflt route tcp_now ti_flags (mss_option mss ++ post) TCPOPT_MAXSEG 4 tp so ts = Some (tp1, so1, ts).
Proof.
  intros Hm Hsyn E. unfold do_option, mss_option. rewrite Hsyn. cbn [Z.eqb negb orb].
  rewrite <- app_assoc, read_bytes_app by done. rewrite (u16_id mss), be_val_be16 by done. by rewrite E.
Qed.

Lemma do_window post s tp so ts :
  0 <= s <= TCP_MAX_WINSHIFT → ztrue (Z.land ti_flags TH_SYN) = true →
  do_option sb_max dflt route tcp_now ti_flags ([TCPOPT_WINDOW; 3; s] ++ post) TCPOPT_WINDOW 3 tp so ts =
  Some (wr requested_s_scale s (set_tflag TF_RCVD_SCALE tp), so, ts).
Proof.
  intros Hs Hsyn. unfold do_option. rewrite Hsyn. cbn [Z.eqb negb orb]. simpl.
  by replace (Z.min s TCP_MAX_WINSHIFT) with s by lia.
Qed.

Lemma do_tstamp post v e tp so ts :
  is_u32 v → is_u32 e → ztrue (Z.land ti_flags TH_SYN) = true →
  do_option sb_max dflt route tcp_now ti_flags (([TCPOPT_TIMESTAMP; 10] ++ be32 v ++ be32 e) ++ post)
    TCPOPT_TIMESTAMP 10 tp so ts =
  Some (wr ts_recent_age tcp_now (wr ts_recent v (set_tflag TF_RCVD_TSTMP tp)), so, TS true v e).
Proof.
  intros Hv He Hsyn. unfold do_option. rewrite Hsyn.
  change (TCPOPT_TIMESTAMP =? TCPOPT_MAXSEG) with false. change (TCPOPT_TIMESTAMP =? TCPOPT_WINDOW) with false.
  change (TCPOPT_TIMESTAMP =? TCPOPT_TIMESTAMP) with true. change (10 =? TCPOLEN_TIMESTAMP) with true.
  cbn [negb]. cbv iota.
  rewrite <- !app_assoc, (read_bytes_app [TCPOPT_TIMESTAMP; 10] (be32 v)) by done.
  rewrite (app_assoc _ (be32 v)), (read_bytes_app _ (be32 e)) by done. by rewrite !be_val_be32 by done.
Qed.
End Scan.

(** The conditions of a step. *)
Ltac scan :=
  first [by eapply do_maxseg | by apply do_window | by apply do_tstamp | by left | by right | done].

(** C34: the options of a SYN survive the wire: what [tcp_output] writes for a
    segment size, a window scale and a timestamp, [tcp_dooptions] reads back: the
    size goes to [tcp_mss] as the offer, the scale and the timestamp are stored and
    the features are marked as received. *)
Theorem syn_options_roundtrip sb_max dflt route tcp_now tp so ts rest mss scale now recent tp1 so1 v :
  is_u16 mss → 0 <= scale <= TCP_MAX_WINSHIFT → is_u32 now → is_u32 recent →
  tcp_mss sb_max dflt route tp so mss = Some (tp1, so1, v) →
  tcp_dooptions sb_max dflt route tcp_now TH_SYN
    ((mss_option mss ++ window_option scale ++ tstamp_option now recent) ++ rest) 20 tp so ts =
  Some (wr ts_recent_age tcp_now (wr ts_recent now (set_tflag TF_RCVD_TSTMP
          (wr requested_s_scale scale (set_tflag TF_RCVD_SCALE tp1)))), so1, TS true now recent).
Proof.
  intros Hm Hs Hn Hr E. rewrite window_option_bytes by (unfold TCP_MAX_WINSHIFT in Hs; lia).
  unfold tcp_dooptions. change (Z.to_nat 20) with 20%nat. rewrite <- !app_assoc.
  erewrite (dooptions_step _ _ _ _ _ _ (mss_option mss)) by scan. simpl fst. simpl snd.
  change ([1; 3; 3; scale] ++ ?l) with ([TCPOPT_NOP] ++ [TCPOPT_WINDOW; 3; scale] ++ l).
  erewrite (dooptions_step _ _ _ _ _ _ [TCPOPT_NOP]) by scan. simpl fst. simpl snd.
  erewrite (dooptions_step _ _ _ _ _ _ [TCPOPT_WINDOW; 3; scale]) by scan. simpl fst. simpl snd.
  unfold tstamp_option. change (be32 TCPOPT_TSTAMP_HDR) with ([TCPOPT_NOP] ++ [TCPOPT_NOP] ++ [TCPOPT_TIMESTAMP; 10]).
  rewrite <- !app_assoc.
  erewrite (dooptions_step _ _ _ _ _ _ [TCPOPT_NOP]) by scan. simpl fst. simpl snd.
  erewrite (dooptions_step _ _ _ _ _ _ [TCPOPT_NOP]) by scan. simpl fst. simpl snd.
  rewrite (app_assoc (be32 now)), (app_assoc [TCPOPT_TIMESTAMP; 10]).
  erewrite (dooptions_step _ _ _ _ _ _ ([TCPOPT_TIMESTAMP; 10] ++ be32 now ++ be32 recent)) by scan.
  by replace (Z.min scale TCP_MAX_WINSHIFT) with scale by lia.
Qed.

Lemma syn_options_roundtrip_witness :
  ∃ tp so, tcp_dooptions 262144 512 (Some ex_route) 77 TH_SYN
    ((mss_option 1460 ++ window_option 3 ++ tstamp_option 1000 2000) ++ [9; 9]) 20 (λ _, 0) ex_sock (TS false 0 0) =
    Some (tp, so, TS true 1000 2000) ∧ tp requested_s_scale = 3 ∧ tp ts_recent = 1000.
Proof.
  eexists _, _. split; [|split].
  - eapply (syn_options_roundtrip 262144 512 (Some ex_route) 77 (λ _, 0) ex_sock (TS false 0 0) [9; 9] 1460 3 1000 2000).
    + by vm_compute.
    + by vm_compute.
    + by vm_compute.
    + by vm_compute.
    + vm_compute tcp_mss. reflexivity.
  - by vm_compute.
  - by vm_compute.
Defined.

Lemma do_option_Some sb_max dflt rt tcp_now ti_flags cp opt optlen tp so ts :
  route_ok sb_max dflt rt so → Forall is_u8 cp → (10 <= length cp)%nat →
  ∃ tp' so' ts', do_option sb_max dflt (Some rt) tcp_now ti_flags cp opt optlen tp so ts = Some (tp', so', ts') ∧
    route_ok sb_max dflt rt so'.
Proof.
  intros Hrt Hb Hl. unfold do_option. destruct (opt =? TCPOPT_MAXSEG).
  { destruct (_ || _); [by eexists _, _, _|]. rewrite read_bytes_Some by lia.
    destruct cp as [|b0 [|b1 [|b2 [|b3 cp]]]]; simpl in Hl; try lia.
    change (take _ _) with [b2; b3]. rewrite !Forall_cons in Hb. destruct Hb as (_ & _ & B2 & B3 & _).
    destruct (tcp_mss_total sb_max dflt rt tp so (be_val [b2; b3]) Hrt) as (tp' & so' & v & -> & Hso).
    - unfold be_val, is_u8, is_u16 in *. simpl. lia.
    - by eexists _, _, _. }
  destruct (opt =? TCPOPT_WINDOW).
  { destruct (_ || _); [by eexists _, _, _|].
    destruct (lookup_lt_is_Some_2 cp 2) as [c ->]; [lia|]. by eexists _, _, _. }
  destruct (opt =? TCPOPT_TIMESTAMP); [|by eexists _, _, _].
  destruct (negb _); [by eexists _, _, _|]. rewrite !read_bytes_Some by lia. by eexists _, _, _.
Qed.

Lemma dooptions_loop_Some sb_max dflt rt tcp_now ti_flags fuel : ∀ cp cnt tp so ts,
  route_ok sb_max dflt rt so → Forall is_u8 cp → cnt <= Z.of_nat fuel → cnt + 9 <= Z.of_nat (length cp) →
  ∃ r, dooptions_loop sb_max dflt (Some rt) fuel tcp_now ti_flags cp cnt tp so ts = Some r.
Proof.
  induction fuel as [|fuel IH]; intros cp cnt tp so ts Hrt Hb Hf Hl; simpl;
    destruct (Z.ltb_spec 0 cnt) as [Hc|Hc]; simpl; try by eexists.
  { lia. }
  destruct cp as [|opt [|l rest]]; simpl in Hl; try lia. destruct (opt =? TCPOPT_EOL); [by eexists|].
  set (ol := if opt =? TCPOPT_NOP then Some 1 else _).
  assert (∃ n, ol = Some n) as [n ->] by (unfold ol; destruct (_ =? _); by eexists).
  destruct (Z.leb_spec n 0) as [Hn|Hn]; [by eexists|].
  destruct (do_option_Some sb_max dflt rt tcp_now ti_flags (opt :: l :: rest) opt n tp so ts)
    as (tp' & so' & ts' & -> & Hso); [done|done|simpl; lia|].
  apply IH; [done|by apply Forall_drop|lia|]. rewrite length_drop. simpl length. lia.
Qed.

(** The scan of the options ends within [cnt] steps for any bytes, and reads
    at most nine bytes past the end of the options (a length byte is trusted
    without a check against [cnt]). *)
Theorem tcp_dooptions_bounded sb_max dflt rt tcp_now ti_flags cp cnt tp so ts :
  route_ok sb_max dflt rt so → Forall is_u8 cp → 0 <= cnt → cnt + 9 <= Z.of_nat (length cp) →
  ∃ r, tcp_dooptions sb_max dflt (Some rt) tcp_now ti_flags cp cnt tp so ts = Some r.
Proof. intros. apply dooptions_loop_Some; try done. lia. Qed.

Lemma tcp_dooptions_bounded_witness :
  ∃ r, tcp_dooptions 262144 512 (Some ex_route) 77 TH_SYN [8; 10; 0; 0; 0; 0; 0; 0; 0; 0; 0] 2 (λ _, 0) ex_sock (TS false 0 0) = Some r.
Proof.
  apply (tcp_dooptions_bounded 262144 512 ex_route 77 TH_SYN [8; 10; 0; 0; 0; 0; 0; 0; 0; 0; 0] 2 (λ _, 0) ex_sock (TS false 0 0)).
  - by vm_compute.
  - repeat (apply Forall_cons; split; [by vm_compute|]). apply Forall_nil_2.
  - by vm_compute.
  - by vm_compute.
Defined.

End TcpOpt.
