(* ===== verification/TcpOutput.v ===== *)
(** * TCP output (netinet/tcp_output.c)

    [tcp_output] decides what to send, builds a segment, updates the control
    block and repeats while there is more.  The stages of one round are separate
    definitions, in the order of the code.  Whether an allocation succeeds, the
    result of [ip_output] and the route are arguments. *)

From Stdlib Require Import FunctionalExtensionality.
From stdpp Require Import options.
From S2P Require Import Prelude Mbuf Sockbuf Tcp TcpOpt.
Import Tcp TcpOpt.

Module TcpOutput.

Definition tcp_outflags : list Z :=
  [Z.lor TH_RST TH_ACK; 0; TH_SYN; Z.lor TH_SYN TH_ACK; TH_ACK; TH_ACK;
   Z.lor TH_FIN TH_ACK; Z.lor TH_FIN TH_ACK; Z.lor TH_FIN TH_ACK; TH_ACK; TH_ACK].

Definition ENOBUFS : Z := 55.
Definition EHOSTUNREACH : Z := 65.
Definition ENETDOWN : Z := 50.

(** [so->so_snd.sb_cc] and [so->so_rcv.sb_hiwat]. *)
Definition snd_cc (so : sock) : Z := Sockbuf.sb_cc (so_snd so).
Definition rcv_hiwat (so : sock) : Z := Sockbuf.sb_hiwat (so_rcv so).

(** A segment handed to [ip_output]: header fields in host order, and which bytes
    of the send buffer it carries. *)
Record segment := Segm
  { sg_seq : Z; sg_ack : Z; sg_flags : Z; sg_win : Z; sg_urp : Z; sg_opt : list Z;
    sg_off : Z; sg_len : Z }.

Definition fl (flags b : Z) : bool := ztrue (Z.land flags b).

Section Output.

(** [mget n] and [mcopy n] say whether the allocations of round [n] succeed,
    [ip_output n] is the result of sending its segment, [route] the route
    [tcp_mss] finds, [template] whether the connection has a header template. *)
Context (max_linkhdr : Z) (mget mcopy : nat → bool) (ip_output : nat → segment → Z).
Context (sb_max tcp_mssdflt : Z) (route : option route_info) (tcp_now : Z) (template : bool).

(** ** How much to send *)

(** Up to the computation of [len]: the control block, [flags], [off], [len] and
    [sendalot]. *)
Record plan := Plan { p_tp : tcpcb; p_flags : Z; p_off : Z; p_len : Z; p_sendalot : bool }.

Definition out_plan (so : sock) (tp : tcpcb) : option plan :=
  let off := s32 (tp snd_nxt - tp snd_una) in
  let win := s32 (Z.min (tp snd_wnd) (tp snd_cwnd)) in
  match (if 0 <=? tp t_state then tcp_outflags !! Z.to_nat (tp t_state) else None) with
  | None => None
  | Some flags =>
      let '(tp, flags, win) :=
        if ztrue (tp t_force) then
          if win =? 0 then
            (tp, if u32 off <? snd_cc so then Z.land flags (Z.lnot TH_FIN) else flags, 1)
          else (wr t_rxtshift 0 (wr (t_timer TCPT_PERSIST) 0 tp), flags, win)
        else (tp, flags, win) in
      let len := s32 (Z.min (snd_cc so) (u32 win) - off) in
      let '(tp, len) :=
        if len <? 0 then
          (if win =? 0 then wr snd_nxt (tp snd_una) (wr (t_timer TCPT_REXMT) 0 tp) else tp, 0)
        else (tp, len) in
      let '(len, sendalot) := if tp t_maxseg <? len then (tp t_maxseg, true) else (len, false) in
      let flags := if SEQ_LT (u32 (tp snd_nxt + len)) (u32 (tp snd_una + snd_cc so))
                   then Z.land flags (Z.lnot TH_FIN) else flags in
      Some (Plan tp flags off len sendalot)
  end.

(** ** Whether to send *)

Definition out_decide (so : sock) (idle : bool) (pl : plan) : bool :=
  let tp := p_tp pl in
  let len := p_len pl in
  let win := Sockbuf.sbspace (so_rcv so) in
  (negb (len =? 0) &&
   ((len =? tp t_maxseg) ||
    ((idle || tflag tp TF_NODELAY) && (snd_cc so <=? u32 (len + p_off pl))) ||
    ztrue (tp t_force) ||
    (tp max_sndwnd / 2 <=? u32 len) ||
    SEQ_LT (tp snd_nxt) (tp snd_max))) ||
  ((0 <? win) &&
   (let adv := s32 (Z.min (u32 win) (u32 (TCP_MAXWIN * 2 ^ tp rcv_scale)) -
                    u32 (tp rcv_adv - tp rcv_nxt)) in
    (2 * tp t_maxseg <=? adv) || (s32 (rcv_hiwat so) <=? s32 (2 * adv)))) ||
  tflag tp TF_ACKNOW ||
  fl (p_flags pl) (Z.lor TH_SYN TH_RST) ||
  SEQ_GT (tp snd_up) (tp snd_una) ||
  (fl (p_flags pl) TH_FIN && (negb (tflag tp TF_SENTFIN) || (tp snd_nxt =? tp snd_una))).

(** No segment: perhaps start the persist timer. *)
Definition out_nothing (so : sock) (tp : tcpcb) : option tcpcb :=
  if ztrue (snd_cc so) && (tp (t_timer TCPT_REXMT) =? 0) && (tp (t_timer TCPT_PERSIST) =? 0)
  then tcp_setpersist (wr t_rxtshift 0 tp)
  else Some tp.

(** ** The segment *)

(** The options: the plan with the control block, [len] and [sendalot] brought up
    to date, the socket and the [opt] array. *)
Definition out_options (so : sock) (pl : plan) : option (plan * sock * list Z) :=
  let tp := p_tp pl in
  let flags := p_flags pl in
  match
    (if fl flags TH_SYN then
       let tp := wr snd_nxt (tp iss) tp in
       if negb (tflag tp TF_NOOPT) then
         match tcp_mss sb_max tcp_mssdflt route tp so 0 with
         | None => None
         | Some (tp, so, mss) =>
             Some (tp, so, mss_option mss ++
               if tflag tp TF_REQ_SCALE && (negb (fl flags TH_ACK) || tflag tp TF_RCVD_SCALE)
               then window_option (tp request_r_scale) else [])
         end
       else Some (tp, so, [])
     else Some (tp, so, []))
  with
  | None => None
  | Some (tp, so, opt) =>
      let opt :=
        if (Z.land (tp t_flags) (Z.lor TF_REQ_TSTMP TF_NOOPT) =? TF_REQ_TSTMP) &&
           negb (fl flags TH_RST) &&
           ((Z.land flags (Z.lor TH_SYN TH_ACK) =? TH_SYN) || tflag tp TF_RCVD_TSTMP)
        then opt ++ tstamp_option tcp_now (tp ts_recent) else opt in
      let room := u32 (tp t_maxseg - Z.of_nat (length opt)) in
      let pl := if room <? u32 (p_len pl) then Plan tp flags (p_off pl) (s32 room) true
                else Plan tp flags (p_off pl) (p_len pl) (p_sendalot pl) in
      Some (pl, so, opt)
  end.

(** The mbufs: [None] if there is no header mbuf; a failed [m_copy] leaves a
    segment without data. *)
Definition out_mbufs (so : sock) (n : nat) (pl : plan) (optlen : Z) : option plan :=
  if negb (mget n) then None
  else if p_len pl =? 0 then Some pl
  else
    let hdrlen := 40 + optlen in
    let len := if u32 (p_len pl) <=? u32 (Mbuf.MHLEN - hdrlen - max_linkhdr) then p_len pl
               else if mcopy n then p_len pl else 0 in
    let flags := if u32 (p_off pl + len) =? snd_cc so then Z.lor (p_flags pl) TH_PUSH else p_flags pl in
    Some (Plan (p_tp pl) flags (p_off pl) len (p_sendalot pl)).

(** The receive window to advertise. *)
Definition out_window (so : sock) (win : Z) (tp : tcpcb) : Z :=
  let win := if (win <? s32 (rcv_hiwat so / 4)) && (win <? tp t_maxseg) then 0 else win in
  let maxwin := s32 (TCP_MAXWIN * 2 ^ tp rcv_scale) in
  let win := if maxwin <? win then maxwin else win in
  let adv := s32 (tp rcv_adv - tp rcv_nxt) in
  if win <? adv then adv else win.

(** The header: the control block after the fields are filled in, and the segment. *)
Definition out_header (pl : plan) (opt : list Z) (win : Z) : tcpcb * segment :=
  let tp := p_tp pl in
  let flags := p_flags pl in
  let tp := if fl flags TH_FIN && tflag tp TF_SENTFIN && (tp snd_nxt =? tp snd_max)
            then wr snd_nxt (tp snd_nxt - 1) tp else tp in
  let seq := if negb (p_len pl =? 0) || fl flags (Z.lor TH_SYN TH_FIN) ||
                ztrue (tp (t_timer TCPT_PERSIST))
             then tp snd_nxt else tp snd_max in
  let '(tp, urp, flags) :=
    if SEQ_GT (tp snd_up) (tp snd_nxt)
    then (tp, u16 (tp snd_up - tp snd_nxt), Z.lor flags TH_URG)
    else (wr snd_up (tp snd_una) tp, 0, flags) in
  (tp, Segm seq (tp rcv_nxt) flags (u16 (Z.shiftr win (tp rcv_scale))) urp opt (p_off pl) (p_len pl)).

(** Advancing the send sequence, timing the segment and setting the timer. *)
Definition out_advance (pl : plan) (tp : tcpcb) : tcpcb :=
  let flags := p_flags pl in
  if (tp t_force =? 0) || (tp (t_timer TCPT_PERSIST) =? 0) then
    let startseq := tp snd_nxt in
    let tp := if fl flags TH_SYN then wr snd_nxt (tp snd_nxt + 1) tp else tp in
    let tp := if fl flags TH_FIN
              then set_tflag TF_SENTFIN (wr snd_nxt (tp snd_nxt + 1) tp) else tp in
    let tp := wr snd_nxt (tp snd_nxt + p_len pl) tp in
    let tp :=
      if SEQ_GT (tp snd_nxt) (tp snd_max) then
        let tp := wr snd_max (tp snd_nxt) tp in
        if tp t_rtt =? 0 then wr t_rtseq startseq (wr t_rtt 1 tp) else tp
      else tp in
    if (tp (t_timer TCPT_REXMT) =? 0) && negb (tp snd_nxt =? tp snd_una) then
      let tp := wr (t_timer TCPT_REXMT) (tp t_rxtcur) tp in
      if ztrue (tp (t_timer TCPT_PERSIST))
      then wr t_rxtshift 0 (wr (t_timer TCPT_PERSIST) 0 tp) else tp
    else tp
  else if SEQ_GT (u32 (tp snd_nxt + p_len pl)) (tp snd_max)
  then wr snd_max (tp snd_nxt + p_len pl) tp else tp.

(** ** Errors and the end of a round *)

(** The label [out]: the control block and the value returned. *)
Definition out_error (tp : tcpcb) (error : Z) : tcpcb * Z :=
  if error =? ENOBUFS then (wr snd_cwnd (tp t_maxseg) tp, 0) (* tcp_quench *)
  else if ((error =? EHOSTUNREACH) || (error =? ENETDOWN)) && TCPS_HAVERCVDSYN (tp t_state)
  then (wr t_softerror error tp, 0)
  else (tp, error).

Definition out_sent (tp : tcpcb) (win : Z) : tcpcb :=
  let tp := if (0 <? win) && SEQ_GT (u32 (tp rcv_nxt + win)) (tp rcv_adv)
            then wr rcv_adv (tp rcv_nxt + win) tp else tp in
  let tp := wr last_ack_sent (tp rcv_nxt) tp in
  clear_tflag (Z.lor TF_ACKNOW TF_DELACK) tp.

(** One round, from [again] on.  The result is the control block, the socket, the
    segment passed to [ip_output] if there was one, the value returned and whether
    the round is followed by another; [None] is a panic. *)
Definition output_round (idle : bool) (n : nat) (so : sock) (tp : tcpcb) :
    option (tcpcb * sock * option segment * Z * bool) :=
  match out_plan so tp with
  | None => None
  | Some pl =>
      let win := Sockbuf.sbspace (so_rcv so) in
      if negb (out_decide so idle pl) then
        match out_nothing so (p_tp pl) with
        | None => None
        | Some tp => Some (tp, so, None, 0, false)
        end
      else
        match out_options so pl with
        | None => None
        | Some (pl, so, opt) =>
            match out_mbufs so n pl (Z.of_nat (length opt)) with
            | None => let '(tp, error) := out_error (p_tp pl) ENOBUFS in Some (tp, so, None, error, false)
            | Some pl =>
                if negb template then None
                else
                  let win := out_window so win (p_tp pl) in
                  let '(tp, sg) := out_header pl opt win in
                  let tp := out_advance pl tp in
                  let error := ip_output n sg in
                  if negb (error =? 0) then
                    let '(tp, error) := out_error tp error in Some (tp, so, Some sg, error, false)
                  else Some (out_sent tp win, so, Some sg, 0, p_sendalot pl)
            end
        end
  end.

(** [tcp_output], with a bound on the rounds; the segments sent, in order. *)
Fixpoint output_loop (fuel : nat) (idle : bool) (n : nat) (so : sock) (tp : tcpcb) :
    option (tcpcb * sock * list segment * Z) :=
  match fuel with
  | O => None
  | S fuel =>
      match output_round idle n so tp with
      | None => None
      | Some (tp, so, sg, error, again) =>
          let sent := match sg with Some sg => [sg] | None => [] end in
          if again then
            match output_loop fuel idle (S n) so tp with
            | None => None
            | Some (tp, so, sgs, error) => Some (tp, so, sent ++ sgs, error)
            end
          else Some (tp, so, sent, error)
      end
  end.

(** A connection that has been idle for a while starts slowly again. *)
Definition idle_restart (tp : tcpcb) : tcpcb :=
  if (tp snd_max =? tp snd_una) && (tp t_rxtcur <=? tp t_idle) then wr snd_cwnd (tp t_maxseg) tp else tp.

Definition tcp_output (fuel : nat) (so : sock) (tp : tcpcb) :
    option (tcpcb * sock * list segment * Z) :=
  let idle := tp snd_max =? tp snd_una in
  output_loop fuel idle 0 so (idle_restart tp).

(** ** Timers that send *)

(** The connection after a timer: still there, with the segments sent, or gone. *)
Inductive timer_result := Keeps (tp : tcpcb) (so : sock) (sgs : list segment) | Gone.

(** The calls of [tcp_timers], in order; [None] is a panic.  [tcp_respond] and
    [in_losing] do not change the control block. *)
Fixpoint timer_calls (fuel : nat) (acts : list timer_action) (so : sock) (tp : tcpcb) : option timer_result :=
  match acts with
  | [] => Some (Keeps tp so [])
  | a :: acts =>
      match a with
      | TOutput =>
          match tcp_output fuel so tp with
          | None => None
          | Some (tp, so, sgs, _) =>
              match timer_calls fuel acts so tp with
              | Some (Keeps tp so sgs') => Some (Keeps tp so (sgs ++ sgs'))
              | r => r
              end
          end
      | TForceOutput =>
          match tcp_output fuel so tp with
          | None => None
          | Some (tp, so, sgs, _) =>
              match timer_calls fuel acts so (wr t_force 0 tp) with
              | Some (Keeps tp so sgs') => Some (Keeps tp so (sgs ++ sgs'))
              | r => r
              end
          end
      | TRespond _ _ | TLosing => timer_calls fuel acts so tp
      | TDrop _ | TClose => Some Gone
      | TPanic => None
      end
  end.

Definition timer_run (e : tenv) (fuel : nat) (so : sock) (tp : tcpcb) (timer : nat) : option timer_result :=
  let '(tp, acts) := tcp_timers e tp timer in timer_calls fuel acts so tp.

(** ** The send sequence space *)

(** The position of [snd_nxt] and of [snd_max] relative to [snd_una]. *)
Definition off_of (tp : tcpcb) : Z := s32 (tp snd_nxt - tp snd_una).
Definition max_of (tp : tcpcb) : Z := s32 (tp snd_max - tp snd_una).

(** The states in which a FIN is due, and whether timestamps are in use. *)
Definition fin_state (tp : tcpcb) : bool :=
  (tp t_state =? TCPS_FIN_WAIT_1) || (tp t_state =? TCPS_CLOSING) || (tp t_state =? TCPS_LAST_ACK).
Definition tstamps (tp : tcpcb) : bool :=
  (Z.land (tp t_flags) (Z.lor TF_REQ_TSTMP TF_NOOPT) =? TF_REQ_TSTMP) && tflag tp TF_RCVD_TSTMP.

(** What a synchronised connection keeps: [snd_una <= snd_nxt <= snd_max], which is
    at most one past the data of the send buffer, and that only if the FIN was
    sent; in the states of an unacknowledged FIN a FIN that was sent occupies that
    place.  With timestamps in use these states are left out
    ([fin_before_data] shows why). *)
Record send_ok (so : sock) (tp : tcpcb) : Prop := SendOk
  { ok_state : TCPS_ESTABLISHED <= tp t_state <= TCPS_TIME_WAIT;
    ok_una : is_u32 (tp snd_una);
    ok_nxt : is_u32 (tp snd_nxt);
    ok_max : is_u32 (tp snd_max);
    ok_wnd : is_u32 (tp snd_wnd);
    ok_cwnd : 0 <= tp snd_cwnd < 2147483648;
    ok_cc : 0 <= snd_cc so < 1073741824;
    ok_maxseg : TCPOLEN_TSTAMP_APPA < tp t_maxseg < 65536;
    ok_order : 0 <= off_of tp <= max_of tp;
    ok_data : max_of tp <= snd_cc so + b2z (tflag tp TF_SENTFIN);
    ok_fin : fin_state tp = true → tflag tp TF_SENTFIN = true → max_of tp = snd_cc so + 1;
    ok_early : fin_state tp = true → tstamps tp = false }.

Lemma s32_diff a b u :
  is_s32 (s32 (a - u) - s32 (b - u)) → s32 (a - b) = s32 (a - u) - s32 (b - u).
Proof. wraplia. Qed.

Lemma s32_shift a b k : is_s32 (s32 (a - b) + k) → s32 (u32 (a + k) - b) = s32 (a - b) + k.
Proof. wraplia. Qed.

Lemma s32_base a k : is_s32 k → s32 (u32 (a + k) - a) = k.
Proof. wraplia. Qed.

(** The flags of the states of a synchronised connection. *)
Lemma outflags_sync tp :
  TCPS_ESTABLISHED <= tp t_state <= TCPS_TIME_WAIT →
  (if 0 <=? tp t_state then tcp_outflags !! Z.to_nat (tp t_state) else None) =
  Some (if fin_state tp then Z.lor TH_FIN TH_ACK else TH_ACK).
Proof.
  unfold TCPS_ESTABLISHED, TCPS_TIME_WAIT, fin_state. intros H.
  assert (tp t_state = 4 ∨ tp t_state = 5 ∨ tp t_state = 6 ∨ tp t_state = 7 ∨ tp t_state = 8 ∨
          tp t_state = 9 ∨ tp t_state = 10) as Hs by lia.
  by repeat (destruct Hs as [-> | Hs]); [..|rewrite Hs].
Qed.

(** Masking a 16-bit store of the flags. *)
Lemma land_u16 z m : 0 <= m < 65536 → Z.land (u16 z) m = Z.land z m.
Proof.
  intros Hm. apply Z.bits_inj'; intros i Hi. rewrite !Z.land_spec. change (u16 z) with (z mod 2 ^ 16).
  destruct (Z.lt_ge_cases i 16); [by rewrite Z.mod_pow2_bits_low|].
  by rewrite (testbit_high m 16 i), !andb_false_r by lia.
Qed.

Lemma land_s16 z k : 0 <= k < 32768 → Z.land (s16 z) k = Z.land z k.
Proof.
  intros H. rewrite <- (land_u16 (s16 z)), <- (land_u16 z) by lia. f_equal. clear. wraplia.
Qed.

Lemma flags_set b tp m : 0 <= m < 65536 → Z.land b m = 0 → Z.land (set_tflag b tp t_flags) m = Z.land (tp t_flags) m.
Proof.
  intros Hm H. unfold set_tflag. tsimpl. rewrite land_u16 by done. rewrite Z.land_lor_distr_l, H. apply Z.lor_0_r.
Qed.

Lemma flags_clear b tp m :
  0 <= m < 65536 → Z.land (Z.lnot b) m = m → Z.land (clear_tflag b tp t_flags) m = Z.land (tp t_flags) m.
Proof. intros Hm H. unfold clear_tflag. tsimpl. rewrite land_u16 by done. by rewrite <- Z.land_assoc, H. Qed.

(** What a round leaves alone. *)
Definition kept : list tfield := [t_state; snd_una; snd_wnd; snd_cwnd; t_maxseg; t_force].
Definition same (tp tp' : tcpcb) : Prop := (∀ f, f ∈ kept → tp' f = tp f) ∧ tstamps tp' = tstamps tp.

#[local] Instance same_preorder : PreOrder same.
Proof.
  split; [by split|]. intros tp1 tp2 tp3 [A1 B1] [A2 B2]. split; [|by rewrite B2].
  intros f Hf. by rewrite A2, A1.
Qed.

(** ** The stages on a synchronised connection *)

(** The window the plan works with: a forced segment may use one byte. *)
Definition usable (tp : tcpcb) : Z :=
  let w := Z.min (tp snd_wnd) (tp snd_cwnd) in if ztrue (tp t_force) then Z.max w 1 else w.

(** What [out_plan] computes. *)
Record plan_ok (so : sock) (tp : tcpcb) (pl : plan) : Prop := PlanOk
  { pl_off : p_off pl = off_of tp;
    pl_len : 0 <= p_len pl <= tp t_maxseg;
    pl_data : p_len pl ≠ 0 → p_off pl + p_len pl <= Z.min (snd_cc so) (usable tp) ∧ p_tp pl snd_nxt = tp snd_nxt;
    pl_flags : p_flags pl = TH_ACK ∨
      p_flags pl = Z.lor TH_FIN TH_ACK ∧ fin_state tp = true ∧ snd_cc so <= off_of (p_tp pl) + p_len pl;
    pl_more : p_sendalot pl = true → p_len pl = tp t_maxseg;
    pl_nxt : p_tp pl snd_nxt = tp snd_nxt ∨ p_tp pl snd_nxt = tp snd_una;
    pl_same : ∀ f, f ∉ [t_timer TCPT_PERSIST; t_timer TCPT_REXMT; t_rxtshift; snd_nxt] → p_tp pl f = tp f;
    pl_probe : ztrue (tp t_force) = true → p_tp pl (t_timer TCPT_PERSIST) ≠ 0 → p_len pl <= 1 }.

Lemma land_fin (b : bool) :
  Z.land (if b then Z.lor TH_FIN TH_ACK else TH_ACK) (Z.lnot TH_FIN) = TH_ACK.
Proof. by destruct b. Qed.

(** The first stage of the plan: the window and a FIN that has to wait. *)
Lemma plan_force so tp :
  send_ok so tp →
  let flags := if fin_state tp then Z.lor TH_FIN TH_ACK else TH_ACK in
  let win := s32 (Z.min (tp snd_wnd) (tp snd_cwnd)) in
  ∃ tp1 flags1,
    (if ztrue (tp t_force) then
       if win =? 0 then
         (tp, if u32 (off_of tp) <? snd_cc so then Z.land flags (Z.lnot TH_FIN) else flags, 1)
       else (wr t_rxtshift 0 (wr (t_timer TCPT_PERSIST) 0 tp), flags, win)
     else (tp, flags, win)) = (tp1, flags1, usable tp) ∧
    (flags1 = TH_ACK ∨ flags1 = flags) ∧
    (∀ f, f ∉ [t_timer TCPT_PERSIST; t_rxtshift] → tp1 f = tp f) ∧
    (ztrue (tp t_force) = true → tp1 (t_timer TCPT_PERSIST) ≠ 0 → usable tp = 1).
Proof.
  intros Hok. destruct Hok as [_ _ _ _ Hw Hc _ _ _ _ _ _]. simpl. unfold usable, is_u32 in *.
  rewrite s32_id by (unfold is_s32; lia). destruct (ztrue (tp t_force)).
  - destruct (Z.eqb_spec (Z.min (tp snd_wnd) (tp snd_cwnd)) 0) as [E|E].
    + rewrite E. eexists _, _. split; [done|]. split; [|done]. destruct (_ <? _); [left; apply land_fin|by right].
    + rewrite Z.max_l by lia. eexists _, _. split; [done|]. split; [by right|]. split.
      * intros f Hf. apply not_elem_of_cons in Hf as [F1 Hf]. apply not_elem_of_cons in Hf as [F2 _].
        by rewrite !wr_ne.
      * intros _. by tsimpl.
  - eexists _, _. split; [done|]. split; [by right|]. done.
Qed.

(** The second stage: a length, or [snd_nxt] pulled back to a closed window. *)
Lemma plan_length so tp tp1 :
  send_ok so tp → (∀ f, f ∉ [t_timer TCPT_PERSIST; t_rxtshift] → tp1 f = tp f) →
  let len := s32 (Z.min (snd_cc so) (u32 (usable tp)) - off_of tp) in
  ∃ tp2 len2,
    (if len <? 0 then
       (if usable tp =? 0 then wr snd_nxt (tp1 snd_una) (wr (t_timer TCPT_REXMT) 0 tp1) else tp1, 0)
     else (tp1, len)) = (tp2, len2) ∧
    len2 = Z.max 0 (Z.min (snd_cc so) (usable tp) - off_of tp) ∧
    (len2 ≠ 0 → tp2 snd_nxt = tp snd_nxt) ∧
    (tp2 snd_nxt = tp snd_nxt ∨ tp2 snd_nxt = tp snd_una) ∧
    (∀ f, f ∉ [t_timer TCPT_PERSIST; t_timer TCPT_REXMT; t_rxtshift; snd_nxt] → tp2 f = tp f) ∧
    tp2 (t_timer TCPT_PERSIST) = tp1 (t_timer TCPT_PERSIST).
Proof.
  intros Hok H1. pose proof (ok_data _ _ Hok) as Hd. destruct Hok as [_ Hu _ _ Hw Hc Hcc _ Ho _ _ _]. simpl. unfold is_u32 in Hw.
  assert (b2z (tflag tp TF_SENTFIN) <= 1) by (unfold b2z; destruct (tflag _ _); lia).
  assert (Hus : 0 <= usable tp < 2147483648) by (unfold usable; destruct (ztrue _); lia).
  rewrite (u32_id (usable tp)) by (unfold is_u32; lia).
  rewrite s32_id by (unfold is_s32; lia).
  assert (Hn : tp1 snd_nxt = tp snd_nxt) by (apply H1; notin).
  assert (Hua : tp1 snd_una = tp snd_una) by (apply H1; notin).
  assert (Hfr : ∀ f, f ∉ [t_timer TCPT_PERSIST; t_timer TCPT_REXMT; t_rxtshift; snd_nxt] → tp1 f = tp f).
  { intros f Hf. apply H1. rewrite !not_elem_of_cons in Hf. destruct Hf as (F1 & F2 & F3 & F4 & _). notin. }
  destruct (Z.ltb_spec (Z.min (snd_cc so) (usable tp) - off_of tp) 0) as [Hl|Hl].
  - destruct (Z.eqb_spec (usable tp) 0) as [E|E]; eexists _, _; (split; [done|]); split_and!; try done; try lia; tsimpl.
    + right. rewrite Hua. by apply u32_id.
    + intros f Hf. rewrite <- Hfr by done. rewrite !not_elem_of_cons in Hf. destruct Hf as (F1 & F2 & F3 & F4 & _).
      by rewrite !wr_ne.
  - eexists _, _; (split; [done|]); split_and!; try done; lia.
Qed.

Lemma out_plan_ok so tp : send_ok so tp → ∃ pl, out_plan so tp = Some pl ∧ plan_ok so tp pl.
Proof.
  intros Hok. unfold out_plan. rewrite outflags_sync by apply Hok.
  destruct (plan_force so tp Hok) as (tp1 & fl1 & E1 & Hf1 & Hs1 & Hp1). fold (off_of tp). cbv zeta. rewrite E1. clear E1.
  destruct (plan_length so tp tp1 Hok Hs1) as (tp2 & l2 & E2 & Hl2 & Hd2 & Hn2 & Hs2 & Hp2).
  cbv zeta in E2. cbv beta iota. unfold tcpcb in *. rewrite E2. clear E2. cbv beta iota.
  pose proof (ok_maxseg _ _ Hok) as Hm. pose proof (ok_order _ _ Hok) as Ho. pose proof (ok_cc _ _ Hok) as Hc.
  pose proof (ok_data _ _ Hok) as Hd. unfold TCPOLEN_TSTAMP_APPA, TCPOLEN_TIMESTAMP in Hm.
  assert (b2z (tflag tp TF_SENTFIN) <= 1) by (unfold b2z; destruct (tflag _ _); lia).
  assert (Hms : tp2 t_maxseg = tp t_maxseg) by (apply Hs2; notin).
  assert (Hua : tp2 snd_una = tp snd_una) by (apply Hs2; notin). rewrite Hms, Hua.
  assert (∃ l3 m3, (if tp t_maxseg <? l2 then (tp t_maxseg, true) else (l2, false)) = (l3, m3) ∧
    0 <= l3 <= l2 ∧ l3 <= tp t_maxseg ∧ (l3 = l2 ∨ l3 ≠ 0) ∧ (m3 = true → l3 = tp t_maxseg)) as (l3 & m3 & -> & L1 & L2 & L3 & L4).
  { destruct (Z.ltb_spec (tp t_maxseg) l2); eexists _, _; (split; [done|]); split_and!; lia || done. }
  eexists. split; [done|].
  assert (Hoff : 0 <= off_of tp2 <= off_of tp).
  { unfold off_of in *. rewrite Hua. destruct Hn2 as [-> | ->]; [lia|]. rewrite Z.sub_diag. change (s32 0) with 0. lia. }
  constructor; simpl; try done; try lia.
  - assert (Hlt : SEQ_LT (u32 (tp2 snd_nxt + l3)) (u32 (tp snd_una + snd_cc so)) = (off_of tp2 + l3 <? snd_cc so)).
    { unfold SEQ_LT, off_of in *. rewrite Hua in *. rewrite (s32_diff _ _ (tp snd_una)).
      - rewrite s32_shift, s32_base by (unfold is_s32; lia). apply Bool.eq_true_iff_eq. rewrite !Z.ltb_lt. lia.
      - rewrite s32_shift, s32_base by (unfold is_s32; lia). unfold is_s32; lia. }
    rewrite Hlt. destruct (Z.ltb_spec (off_of tp2 + l3) (snd_cc so)).
    + left. destruct Hf1 as [-> | ->]; [done|apply land_fin].
    + destruct Hf1 as [-> | ->]; [by left|]. destruct (fin_state tp) eqn:Ef; [right|left]; done.
  - intros Hfo Hpe. rewrite Hp2 in Hpe. specialize (Hp1 Hfo Hpe). lia.
Qed.

Lemma same_fin tp tp' : same tp tp' → fin_state tp' = fin_state tp.
Proof. intros [H _]. unfold fin_state. by rewrite (H t_state) by (by left). Qed.

Lemma same_wr f v tp : f ∉ kept → f ≠ t_flags → same tp (wr f v tp).
Proof.
  intros Hf Hn. split; [|unfold tstamps, tflag; by rewrite wr_ne]. intros g Hg. apply wr_ne. by intros ->.
Qed.

(** Rebuilding the invariant after a stage. *)
Lemma send_ok_same so tp tp' :
  send_ok so tp → same tp tp' → is_u32 (tp' snd_nxt) → is_u32 (tp' snd_max) →
  0 <= off_of tp' <= max_of tp' → max_of tp' <= snd_cc so + b2z (tflag tp' TF_SENTFIN) →
  (fin_state tp' = true → tflag tp' TF_SENTFIN = true → max_of tp' = snd_cc so + 1) → send_ok so tp'.
Proof.
  intros Hok Hs Hn Hm Ho Hd Hf. pose proof (same_fin _ _ Hs) as Hfs. destruct Hs as [Hk Ht].
  assert (∀ f, f ∈ kept → tp' f = tp f) as Hk' by done. unfold kept in Hk'.
  destruct Hok. constructor; try done; try (rewrite Hk' by (by repeat first [left; done|right]); done).
  intros Hfin. rewrite Ht. apply ok_early0. congruence.
Qed.

Lemma plan_send_ok so tp pl : send_ok so tp → plan_ok so tp pl → send_ok so (p_tp pl) ∧ same tp (p_tp pl).
Proof.
  intros Hok Hpl. pose proof (pl_same _ _ _ Hpl) as Hs.
  assert (Hfl : p_tp pl t_flags = tp t_flags) by (apply Hs; notin).
  assert (Hmx : p_tp pl snd_max = tp snd_max) by (apply Hs; notin).
  assert (Hua : p_tp pl snd_una = tp snd_una) by (apply Hs; notin).
  assert (Hsame : same tp (p_tp pl)).
  { split; [|by unfold tstamps, tflag; rewrite Hfl]. intros f Hf. apply Hs. unfold kept in Hf. 
    repeat (apply elem_of_cons in Hf as [-> | Hf]; [notin|]). by apply elem_of_nil in Hf. }
  split; [|done]. assert (Hm : max_of (p_tp pl) = max_of tp) by (unfold max_of; by rewrite Hmx, Hua).
  assert (Hf : tflag (p_tp pl) TF_SENTFIN = tflag tp TF_SENTFIN) by (unfold tflag; by rewrite Hfl).
  assert (Ho : 0 <= off_of (p_tp pl) <= off_of tp ∧ is_u32 (p_tp pl snd_nxt)).
  { pose proof (ok_order _ _ Hok). unfold off_of in *. rewrite Hua. destruct (pl_nxt _ _ _ Hpl) as [-> | ->].
    - split; [lia|]. apply Hok.
    - rewrite Z.sub_diag. change (s32 0) with 0. split; [lia|]. apply Hok. }
  apply (send_ok_same _ tp); rewrite ?Hm, ?Hf, ?(same_fin _ _ Hsame), ?Hmx; try done; try apply Ho; try apply Hok.
  pose proof (ok_order _ _ Hok). lia.
Qed.

(** The flags of a segment of a synchronised connection. *)
Definition sync_flags (flags : Z) (fin : bool) : Prop :=
  flags = Z.lor TH_ACK (if fin then TH_FIN else 0) ∨ flags = Z.lor TH_PUSH (Z.lor TH_ACK (if fin then TH_FIN else 0)).

Lemma sync_flags_spec flags fin :
  sync_flags flags fin → fl flags TH_SYN = false ∧ fl flags TH_RST = false ∧ fl flags TH_FIN = fin ∧
  fl flags (Z.lor TH_SYN TH_FIN) = fin ∧ (Z.land flags (Z.lor TH_SYN TH_ACK) =? TH_SYN) = false.
Proof. intros [-> | ->]; by destruct fin. Qed.

Lemma plan_flags so tp pl :
  plan_ok so tp pl → ∃ fin, sync_flags (p_flags pl) fin ∧
    (fin = true → fin_state tp = true ∧ snd_cc so <= off_of (p_tp pl) + p_len pl).
Proof.
  intros Hpl. destruct (pl_flags _ _ _ Hpl) as [-> | (-> & Hf & Hc)].
  - exists false. split; [by left|done].
  - exists true. split; [by left|done].
Qed.

(** The options are twelve bytes or none. *)
Lemma out_options_ok so pl fin :
  sync_flags (p_flags pl) fin → TCPOLEN_TSTAMP_APPA < p_tp pl t_maxseg < 65536 → 0 <= p_len pl <= p_tp pl t_maxseg →
  ∃ opt more, let room := p_tp pl t_maxseg - Z.of_nat (length opt) in
    out_options so pl = Some (Plan (p_tp pl) (p_flags pl) (p_off pl) (Z.min (p_len pl) room) more, so, opt) ∧
    Z.of_nat (length opt) = (if tstamps (p_tp pl) then TCPOLEN_TSTAMP_APPA else 0) ∧
    (more = true → p_sendalot pl = true ∨ room < p_len pl).
Proof.
  intros Hfl Hm Hl. destruct (sync_flags_spec _ _ Hfl) as (F1 & F2 & _ & _ & F5).
  unfold out_options. rewrite F1, F2, F5. cbn [negb orb]. rewrite andb_true_r. fold (tstamps (p_tp pl)).
  set (opt := if tstamps (p_tp pl) then _ else _).
  assert (Hopt : Z.of_nat (length opt) = (if tstamps (p_tp pl) then TCPOLEN_TSTAMP_APPA else 0)).
  { unfold opt. by destruct (tstamps _). }
  clearbody opt. exists opt. unfold TCPOLEN_TSTAMP_APPA, TCPOLEN_TIMESTAMP in *.
  assert (0 <= Z.of_nat (length opt) <= 12) by (rewrite Hopt; destruct (tstamps _); lia).
  rewrite (u32_id (p_len pl)), (u32_id (_ - _)), s32_id by (unfold is_u32, is_s32; lia).
  destruct (Z.ltb_spec (p_tp pl t_maxseg - Z.of_nat (length opt)) (p_len pl)).
  - exists true. cbv zeta. rewrite Z.min_r by lia. split_and!; [done|done|by right].
  - exists (p_sendalot pl). cbv zeta. rewrite Z.min_l by lia. split_and!; [done|done|by left].
Qed.

(** The mbufs, when they can be had. *)
Lemma out_mbufs_ok so n pl optlen fin :
  sync_flags (p_flags pl) fin → mcopy n = true →
  out_mbufs so n pl optlen = None ∨
  ∃ flags, out_mbufs so n pl optlen = Some (Plan (p_tp pl) flags (p_off pl) (p_len pl) (p_sendalot pl)) ∧ sync_flags flags fin.
Proof.
  intros Hf Hc. unfold out_mbufs. destruct (mget n); [right|by left]. simpl.
  destruct (p_len pl =? 0) eqn:E; [exists (p_flags pl); split; [by destruct pl|done]|].
  rewrite Hc. set (l := if _ <=? _ then p_len pl else p_len pl). assert (l = p_len pl) as -> by (unfold l; by destruct (_ <=? _)).
  eexists. split; [done|]. destruct (u32 _ =? snd_cc so); [|done].
  right. destruct Hf as [-> | ->]; by destruct fin.
Qed.

Lemma nxt_eq so tp : send_ok so tp → off_of tp = max_of tp → tp snd_nxt = tp snd_max.
Proof.
  intros [_ Hu Hn Hm _ _ _ _ _ _ _ _] H. unfold off_of, max_of in H. clear so. wraplia.
Qed.

(** The plan a segment is built from. *)
Record seg_plan (so : sock) (tp : tcpcb) (pl : plan) (fin : bool) : Prop := SegPlan
  { sp_flags : sync_flags (p_flags pl) fin;
    sp_len : 0 <= p_len pl < 65536;
    sp_data : p_len pl ≠ 0 → off_of tp + p_len pl <= snd_cc so;
    sp_fin : fin = true → fin_state tp = true ∧ snd_cc so <= off_of tp + p_len pl }.

(** The fields the invariant looks at. *)
Definition core : list tfield := kept ++ [snd_nxt; snd_max; t_flags].

Lemma send_ok_core so tp tp' :
  (∀ f, f ∈ core → tp' f = tp f) → send_ok so tp → send_ok so tp' ∧ same tp tp' ∧ off_of tp' = off_of tp.
Proof.
  intros H Hok.
  assert (Hs : same tp tp').
  { split; [intros f Hf; apply H, elem_of_app; by left|]. unfold tstamps, tflag. by rewrite (H t_flags) by (repeat constructor). }
  assert (Hn : tp' snd_nxt = tp snd_nxt) by (apply H; repeat constructor).
  assert (Hm : tp' snd_max = tp snd_max) by (apply H; repeat constructor).
  assert (Hu : tp' snd_una = tp snd_una) by (apply H; repeat constructor).
  assert (Hf : tp' t_flags = tp t_flags) by (apply H; repeat constructor).
  assert (Ho : off_of tp' = off_of tp) by (unfold off_of; by rewrite Hn, Hu).
  assert (Hx : max_of tp' = max_of tp) by (unfold max_of; by rewrite Hm, Hu).
  split; [|done]. apply (send_ok_same _ tp); rewrite ?Ho, ?Hx, ?(same_fin _ _ Hs), ?Hn, ?Hm; unfold tflag; rewrite ?Hf;
    try done; apply Hok.
Qed.

(** A store to another field. *)
Lemma send_ok_wr so tp f v :
  f ∉ core → send_ok so tp → send_ok so (wr f v tp) ∧ same tp (wr f v tp) ∧ off_of (wr f v tp) = off_of tp.
Proof. intros Hf. apply send_ok_core. intros g Hg. apply wr_ne. by intros ->. Qed.

(** A FIN that is sent again goes where it was. *)
Lemma resend_fin so tp len fin :
  send_ok so tp → 0 <= len → (len ≠ 0 → off_of tp + len <= snd_cc so) →
  (fin = true → fin_state tp = true ∧ snd_cc so <= off_of tp + len) →
  let tp0 := if fin && tflag tp TF_SENTFIN && (tp snd_nxt =? tp snd_max) then wr snd_nxt (tp snd_nxt - 1) tp else tp in
  send_ok so tp0 ∧ same tp tp0 ∧ (len ≠ 0 → tp0 snd_nxt = tp snd_nxt) ∧
  off_of tp0 = (if fin then snd_cc so - len else off_of tp) ∧ (∀ i, tp0 (t_timer i) = tp (t_timer i)).
Proof.
  intros Hok Hl Hd Hf. pose proof (ok_order _ _ Hok) as Ho. pose proof (ok_data _ _ Hok) as Hmx.
  pose proof (ok_cc _ _ Hok) as Hc. simpl. destruct fin; simpl; [|by split_and!].
  destruct (Hf eq_refl) as [Hfs Hge]. destruct (tflag tp TF_SENTFIN) eqn:Es; simpl in *.
  - pose proof (ok_fin _ _ Hok Hfs Es) as Hm. destruct (Z.eqb_spec (tp snd_nxt) (tp snd_max)) as [E|E].
    + assert (Hom : off_of tp = snd_cc so + 1) by (rewrite <- Hm; unfold off_of, max_of; by rewrite E).
      assert (Hs : same tp (wr snd_nxt (tp snd_nxt - 1) tp)).
      { apply same_wr; [unfold kept; notin|done]. }
      assert (Ho' : off_of (wr snd_nxt (tp snd_nxt - 1) tp) = snd_cc so).
      { unfold off_of in *. tsimpl. unfold Z.sub at 2. rewrite s32_shift by (unfold is_s32; lia). lia. }
      split_and!; [|done|lia|rewrite Ho'; lia|by intros i; tsimpl].
      assert (Hm' : max_of (wr snd_nxt (tp snd_nxt - 1) tp) = max_of tp) by (unfold max_of; by tsimpl).
      apply (send_ok_same _ tp); rewrite ?Ho', ?Hm'; unfold tflag; tsimpl; try done; try apply Hok; try lia.
      apply u32_range.
    + split_and!; try done. destruct (Z.eq_dec (off_of tp) (max_of tp)) as [E'|E']; [by destruct (E (nxt_eq _ _ Hok E'))|lia].
  - split_and!; try done. lia.
Qed.

(** Filling in the header: [snd_nxt] goes back one only to send a FIN again. *)
Lemma out_header_ok so pl opt win fin :
  send_ok so (p_tp pl) → seg_plan so (p_tp pl) pl fin →
  ∃ tp1 sg, out_header pl opt win = (tp1, sg) ∧ send_ok so tp1 ∧ same (p_tp pl) tp1 ∧
    sg_len sg = p_len pl ∧ sg_off sg = p_off pl ∧ (p_len pl ≠ 0 → sg_seq sg = p_tp pl snd_nxt) ∧
    fl (sg_flags sg) TH_FIN = fin ∧ (fin = true → sg_seq sg = tp1 snd_nxt) ∧
    off_of tp1 = (if fin then snd_cc so - p_len pl else off_of (p_tp pl)) ∧
    (∀ i, tp1 (t_timer i) = p_tp pl (t_timer i)).
Proof.
  intros Hok Hsp. destruct (sync_flags_spec _ _ (sp_flags _ _ _ _ Hsp)) as (_ & _ & F3 & F4 & _).
  unfold out_header. rewrite F3, F4.
  destruct (resend_fin so (p_tp pl) (p_len pl) fin) as (H1 & H2 & H3 & H4 & H5);
    [done|apply Hsp|apply Hsp|apply Hsp|].
  set (tp0 := if fin && _ && _ then _ else p_tp pl) in *. clearbody tp0.
  destruct (send_ok_wr so tp0 snd_up (tp0 snd_una)) as (U1 & U2 & U3); [unfold core, kept; notin|done|].
  assert (Hq : ∀ b c : bool, p_len pl ≠ 0 → (if negb (p_len pl =? 0) || b || c then tp0 snd_nxt else tp0 snd_max) = p_tp pl snd_nxt).
  { intros b c Hne. rewrite (proj2 (Z.eqb_neq _ _) Hne). by apply H3. }
  assert (Hurg : fl (Z.lor (p_flags pl) TH_URG) TH_FIN = fin).
  { destruct (sp_flags _ _ _ _ Hsp) as [-> | ->]; by destruct fin. }
  destruct (SEQ_GT (tp0 snd_up) (tp0 snd_nxt)); eexists _, _; (split; [reflexivity|]); simpl.
  - split_and!; try done; [apply Hq|]. intros ->. by rewrite orb_true_r.
  - split_and!; try done; [by etrans|apply Hq|]. intros ->. tsimpl. by rewrite orb_true_r.
Qed.

(** Moving [snd_nxt] to [o] and [snd_max] along with it. *)
Lemma send_ok_move so tp tp' fin o :
  send_ok so tp → same tp tp' → is_u32 (tp' snd_nxt) → is_u32 (tp' snd_max) →
  0 <= off_of tp' → max_of tp' = Z.max (max_of tp) o → off_of tp' <= max_of tp' →
  tflag tp' TF_SENTFIN = tflag tp TF_SENTFIN || fin →
  (fin = true → fin_state tp = true ∧ o = snd_cc so + 1) → (fin = false → o <= snd_cc so ∨ o <= max_of tp) →
  send_ok so tp'.
Proof.
  intros Hok Hs Hn Hm H0 Hmx Ho Hf Hfin Hnf. pose proof (ok_data _ _ Hok) as Hd. pose proof (ok_order _ _ Hok) as Hord.
  pose proof (ok_fin _ _ Hok) as Hff.
  apply (send_ok_same _ tp); try done; rewrite ?Hf, ?(same_fin _ _ Hs), ?Hmx; try lia.
  - destruct fin.
    + destruct (Hfin eq_refl). rewrite orb_true_r. unfold b2z in *. destruct (tflag tp TF_SENTFIN); lia.
    + rewrite orb_false_r. specialize (Hnf eq_refl). unfold b2z in *. destruct (tflag tp TF_SENTFIN); lia.
  - intros Hfs Hse. destruct fin.
    + destruct (Hfin eq_refl). unfold b2z in *. destruct (tflag tp TF_SENTFIN); lia.
    + rewrite orb_false_r in Hse. specialize (Hff Hfs Hse). specialize (Hnf eq_refl). lia.
Qed.

(** [snd_nxt] over the segment and its FIN. *)
Lemma advance_nxt so tp len (fin : bool) :
  send_ok so tp → 0 <= len < 65536 →
  let tp1 := if fin then set_tflag TF_SENTFIN (wr snd_nxt (tp snd_nxt + 1) tp) else tp in
  let tp2 := wr snd_nxt (tp1 snd_nxt + len) tp1 in
  same tp tp2 ∧ off_of tp2 = off_of tp + len + b2z fin ∧ tp2 snd_max = tp snd_max ∧ is_u32 (tp2 snd_nxt) ∧
  tflag tp2 TF_SENTFIN = tflag tp TF_SENTFIN || fin.
Proof.
  intros Hok Hl. pose proof (ok_order _ _ Hok) as Ho. pose proof (ok_data _ _ Hok) as Hd. pose proof (ok_cc _ _ Hok) as Hc.
  assert (b2z (tflag tp TF_SENTFIN) <= 1) by (unfold b2z; destruct (tflag _ _); lia).
  intros tp1 tp2.
  assert (H1 : same tp tp1 ∧ off_of tp1 = off_of tp + b2z fin ∧ tp1 snd_max = tp snd_max ∧
    tflag tp1 TF_SENTFIN = tflag tp TF_SENTFIN || fin).
  { unfold tp1. destruct fin; [|simpl; rewrite orb_false_r; split_and!; try done; lia]. split_and!.
    - etrans; [apply (same_wr snd_nxt (tp snd_nxt + 1)); [unfold kept; notin|done]|]. split.
      + intros f Hf. apply wr_ne. intros <-. unfold kept in Hf. by repeat (apply elem_of_cons in Hf as [? | Hf]; [done|]); apply elem_of_nil in Hf.
      + unfold tstamps, tflag. by rewrite !flags_set by done.
    - unfold off_of, set_tflag in *. tsimpl. simpl b2z. rewrite s32_shift by (unfold is_s32; lia). done.
    - unfold set_tflag. by tsimpl.
    - rewrite orb_true_r. unfold tflag, set_tflag. tsimpl. rewrite land_u16 by done.
      rewrite Z.land_lor_distr_l. unfold ztrue. apply negb_true_iff, Z.eqb_neq. intros E.
      apply Z.lor_eq_0_iff in E as [_ E]. done. }
  destruct H1 as (S1 & O1 & M1 & F1). clearbody tp1. unfold tp2. split_and!.
  - etrans; [exact S1|]. apply same_wr; [unfold kept; notin|done].
  - unfold off_of in *. tsimpl. unfold b2z in *. rewrite s32_shift by (unfold is_s32; destruct fin; lia). lia.
  - by tsimpl.
  - tsimpl. apply u32_range.
  - rewrite <- F1. unfold tflag. by tsimpl.
Qed.

Lemma SEQ_GT_max tp v :
  is_s32 (s32 (v - tp snd_una) - max_of tp) → SEQ_GT v (tp snd_max) = (max_of tp <? s32 (v - tp snd_una)).
Proof.
  intros H. unfold SEQ_GT, max_of in *. rewrite (s32_diff _ _ (tp snd_una)) by done.
  apply Bool.eq_true_iff_eq. rewrite !Z.ltb_lt. lia.
Qed.

(** [snd_max] follows [snd_nxt]; a segment beyond it is timed. *)
Lemma advance_max so tp tp2 seq :
  send_ok so tp → tp2 snd_max = tp snd_max → same tp tp2 → is_u32 (tp2 snd_nxt) → -1 <= off_of tp2 < 2000000000 →
  let tp3 := if SEQ_GT (tp2 snd_nxt) (tp2 snd_max)
             then let tp := wr snd_max (tp2 snd_nxt) tp2 in
                  if tp t_rtt =? 0 then wr t_rtseq seq (wr t_rtt 1 tp) else tp
             else tp2 in
  same tp2 tp3 ∧ tp3 snd_nxt = tp2 snd_nxt ∧ is_u32 (tp3 snd_max) ∧ max_of tp3 = Z.max (max_of tp) (off_of tp2) ∧
  tflag tp3 TF_SENTFIN = tflag tp2 TF_SENTFIN.
Proof.
  intros Hok Hm Hs Hn Ho. pose proof (ok_order _ _ Hok) as Hord. pose proof (ok_data _ _ Hok) as Hd. pose proof (ok_cc _ _ Hok) as Hc.
  assert (b2z (tflag tp TF_SENTFIN) <= 1) by (unfold b2z; destruct (tflag _ _); lia).
  assert (Hu : tp2 snd_una = tp snd_una) by (apply Hs; repeat constructor).
  assert (Hm2 : max_of tp2 = max_of tp) by (unfold max_of; by rewrite Hm, Hu).
  rewrite SEQ_GT_max; fold (off_of tp2); [|unfold is_s32; lia]. rewrite Hm2.
  destruct (Z.ltb_spec (max_of tp) (off_of tp2)) as [Hlt|Hlt]; intros tp3.
  - assert (H3 : ∀ g, g ≠ t_rtseq → g ≠ t_rtt → g ≠ snd_max → tp3 g = tp2 g).
    { intros g G1 G2 G3. unfold tp3. simpl. destruct (_ =? 0); by rewrite ?wr_ne by done. }
    assert (Hx : tp3 snd_max = tp2 snd_nxt).
    { unfold tp3. simpl. destruct (_ =? 0); tsimpl; by apply u32_id. }
    clearbody tp3. assert (Hf : tp3 t_flags = tp2 t_flags) by (by apply H3). split_and!.
    + split; [|unfold tstamps, tflag; by rewrite Hf]. intros f Hf'. apply H3; intros ->; unfold kept in Hf';
        by repeat (apply elem_of_cons in Hf' as [? | Hf']; [done|]); apply elem_of_nil in Hf'.
    + by apply H3.
    + by rewrite Hx.
    + unfold max_of. rewrite Hx, H3 by done. fold (off_of tp2). fold (max_of tp). lia.
    + unfold tflag. by rewrite Hf.
  - split_and!; try done; [unfold tp3; rewrite Hm; apply Hok|]. unfold tp3. rewrite Hm2. lia.
Qed.

(** The retransmission timer; nothing of the invariant. *)
Lemma advance_timer so tp :
  let tp4 := if (tp (t_timer TCPT_REXMT) =? 0) && negb (tp snd_nxt =? tp snd_una) then
               let tp := wr (t_timer TCPT_REXMT) (tp t_rxtcur) tp in
               if ztrue (tp (t_timer TCPT_PERSIST)) then wr t_rxtshift 0 (wr (t_timer TCPT_PERSIST) 0 tp) else tp
             else tp in
  send_ok so tp → send_ok so tp4 ∧ same tp tp4 ∧ off_of tp4 = off_of tp.
Proof.
  intros tp4 Hok. apply send_ok_core; [|done]. intros f Hf.
  assert (f ∉ [t_timer TCPT_REXMT; t_timer TCPT_PERSIST; t_rxtshift]) as Hf'.
  { unfold core, kept in Hf. simpl in Hf. intros Hin.
    repeat (apply elem_of_cons in Hf as [-> | Hf]; [by repeat (apply elem_of_cons in Hin as [? | Hin]; [done|]); apply elem_of_nil in Hin|]).
    by apply elem_of_nil in Hf. }
  rewrite !not_elem_of_cons in Hf'. destruct Hf' as (F1 & F2 & F3 & _).
  unfold tp4. simpl. destruct (_ && _); [|done]. destruct (ztrue _); by rewrite ?wr_ne by done.
Qed.

Lemma out_advance_ok so pl tp fin :
  send_ok so tp → sync_flags (p_flags pl) fin → 0 <= p_len pl < 65536 →
  (p_len pl ≠ 0 → off_of tp + p_len pl <= snd_cc so) →
  (fin = true → fin_state tp = true ∧ off_of tp + p_len pl = snd_cc so) →
  send_ok so (out_advance pl tp) ∧ same tp (out_advance pl tp) ∧
  ((tp t_force =? 0) || (tp (t_timer TCPT_PERSIST) =? 0) = true →
   off_of (out_advance pl tp) = off_of tp + p_len pl + b2z fin).
Proof.
  intros Hok Hfl Hl Hd Hf. destruct (sync_flags_spec _ _ Hfl) as (F1 & _ & F3 & _).
  pose proof (ok_order _ _ Hok) as Ho. pose proof (ok_data _ _ Hok) as Hdd. pose proof (ok_cc _ _ Hok) as Hc.
  assert (0 <= b2z (tflag tp TF_SENTFIN) <= 1) by (unfold b2z; destruct (tflag _ _); lia).
  unfold out_advance. rewrite F1, F3. destruct ((tp t_force =? 0) || _).
  - destruct (advance_nxt so tp (p_len pl) fin Hok Hl) as (S2 & O2 & M2 & N2 & FL2). cbv zeta.
    set (tp2 := wr snd_nxt (_ + p_len pl) _) in *. clearbody tp2.
    assert (0 <= b2z fin <= 1) by (unfold b2z; destruct fin; lia).
    destruct (advance_max so tp tp2 (tp snd_nxt) Hok M2 S2 N2) as (S3 & N3 & X3 & MX3 & FL3); [lia|]. cbv zeta in *.
    set (tp3 := if SEQ_GT _ _ then _ else tp2) in *. clearbody tp3.
    assert (S13 : same tp tp3) by (by etrans).
    assert (O3 : off_of tp3 = off_of tp + p_len pl + b2z fin).
    { rewrite <- O2. unfold off_of. rewrite N3. by rewrite (proj1 S3 snd_una) by (repeat constructor). }
    assert (Hok3 : send_ok so tp3).
    { apply (send_ok_move so tp tp3 fin (off_of tp2)); try done; try lia.
      - by rewrite N3.
      - by rewrite FL3.
      - intros ->. destruct (Hf eq_refl). simpl in *. split; [done|lia].
      - intros ->. simpl in *. destruct (Z.eq_dec (p_len pl) 0); [right; lia|left; lia]. }
    destruct (advance_timer so tp3 Hok3) as (K1 & K2 & K3). split_and!; [done|by etrans|]. intros _. etrans; [exact K3|done].
  - assert (Hv : s32 (u32 (tp snd_nxt + p_len pl) - tp snd_una) = off_of tp + p_len pl).
    { unfold off_of in *. apply s32_shift. unfold is_s32. lia. }
    rewrite SEQ_GT_max; rewrite Hv; [|unfold is_s32; lia].
    destruct (Z.ltb_spec (max_of tp) (off_of tp + p_len pl)) as [Hlt|Hlt]; [|by split_and!].
    assert (S1 : same tp (wr snd_max (tp snd_nxt + p_len pl) tp)) by (apply same_wr; [unfold kept; notin|done]).
    split_and!; [|done|done].
    apply (send_ok_move so tp _ false (off_of tp + p_len pl)); try done; unfold off_of, max_of in *; tsimpl;
      rewrite ?Hv; try lia; try apply Hok; try apply u32_range.
    unfold tflag. tsimpl. by rewrite orb_false_r.
Qed.

(** ** A round and the whole of [tcp_output] *)

Lemma out_sent_ok so tp win : send_ok so tp → send_ok so (out_sent tp win) ∧ same tp (out_sent tp win) ∧ off_of (out_sent tp win) = off_of tp.
Proof.
  intros Hok. unfold out_sent. set (tp1 := if _ && _ then _ else tp).
  assert (H1 : send_ok so tp1 ∧ same tp tp1 ∧ off_of tp1 = off_of tp).
  { unfold tp1. destruct (_ && _); [apply send_ok_wr; [unfold core, kept; notin|done]|by split_and!]. }
  clearbody tp1. destruct H1 as (A1 & B1 & C1).
  destruct (send_ok_wr so tp1 last_ack_sent (tp1 rcv_nxt)) as (A2 & B2 & C2); [unfold core, kept; notin|done|].
  set (tp2 := wr last_ack_sent _ tp1) in *. clearbody tp2. set (b := Z.lor TF_ACKNOW TF_DELACK).
  assert (B3 : same tp2 (clear_tflag b tp2)).
  { split.
    - intros f Hf. unfold clear_tflag. apply wr_ne. intros <-. unfold kept in Hf.
      by repeat (apply elem_of_cons in Hf as [? | Hf]; [done|]); apply elem_of_nil in Hf.
    - unfold tstamps, tflag. by rewrite !flags_clear by done. }
  assert (C3 : off_of (clear_tflag b tp2) = off_of tp2) by (unfold off_of, clear_tflag; by tsimpl).
  assert (D3 : max_of (clear_tflag b tp2) = max_of tp2) by (unfold max_of, clear_tflag; by tsimpl).
  split_and!; [|etrans; [exact B1|by etrans]|congruence].
  assert (E3 : tflag (clear_tflag b tp2) TF_SENTFIN = tflag tp2 TF_SENTFIN) by (unfold tflag; by rewrite flags_clear by done).
  apply (send_ok_same _ tp2); rewrite ?C3, ?D3, ?E3, ?(same_fin _ _ B3); try done; try apply A2;
    unfold clear_tflag; tsimpl; apply A2.
Qed.

Lemma out_error_ok so tp e : send_ok so tp → send_ok so (out_error tp e).1.
Proof.
  intros Hok. unfold out_error. destruct (e =? ENOBUFS); simpl.
  - pose proof (ok_maxseg _ _ Hok) as Hm. destruct Hok. unfold TCPOLEN_TSTAMP_APPA, TCPOLEN_TIMESTAMP in Hm.
    constructor; unfold off_of, max_of, fin_state, tstamps, tflag in *; tsimpl; try done.
    rewrite u32_id; unfold is_u32; lia.
  - destruct (_ && _); simpl; [|done]. apply send_ok_wr; [unfold core, kept; notin|done].
Qed.

Lemma out_nothing_ok so tp :
  send_ok so tp → ∃ tp', out_nothing so tp = Some tp' ∧ send_ok so tp' ∧ same tp tp'.
Proof.
  intros Hok. unfold out_nothing. destruct (_ && _) eqn:E; [|by exists tp]. zbool.
  unfold tcp_setpersist. tsimpl. assert (tp (t_timer TCPT_REXMT) = 0) as -> by done. change (backoff (s16 0)) with (Some 1).
  cbn [ztrue negb Z.eqb]. eexists. split; [done|].
  set (tp1 := TCPT_RANGESET _ _ _ _ _).
  assert (Hcore : ∀ f, f ∈ core → tp1 f = tp f ∧ f ≠ t_rxtshift).
  { intros f Hf. assert (f ≠ t_timer TCPT_PERSIST ∧ f ≠ t_rxtshift) as [F1 F2].
    { unfold core, kept in Hf. simpl in Hf.
      repeat (apply elem_of_cons in Hf as [-> | Hf]; [done|]). by apply elem_of_nil in Hf. }
    split; [|done]. unfold tp1. rewrite RANGESET_other by done. by rewrite wr_ne. }
  destruct (send_ok_core so tp (if tp1 t_rxtshift <? TCP_MAXRXTSHIFT then wr t_rxtshift (tp1 t_rxtshift + 1) tp1 else tp1)) as (A & B & _);
    [|done|done]. intros f Hf. destruct (Hcore f Hf). destruct (_ <? _); [by rewrite wr_ne|done].
Qed.

(** A segment that may be sent: its data are bytes of the send buffer inside the
    usable window, with their sequence numbers, and a FIN comes right after the
    last byte of the buffer. *)
Definition seg_ok (so : sock) (tp : tcpcb) (sg : segment) : Prop :=
  0 <= sg_len sg <= tp t_maxseg ∧
  (sg_len sg ≠ 0 → 0 <= sg_off sg ∧ sg_off sg + sg_len sg <= Z.min (snd_cc so) (usable tp) ∧
                   sg_seq sg = u32 (tp snd_una + sg_off sg)) ∧
  (fl (sg_flags sg) TH_FIN = true → u32 (sg_seq sg + sg_len sg) = u32 (tp snd_una + snd_cc so)).

Lemma seg_ok_same so tp tp' sg : same tp tp' → seg_ok so tp' sg → seg_ok so tp sg.
Proof.
  intros [Hs _]. assert (∀ f, f ∈ kept → tp' f = tp f) as Hk by done. unfold kept in Hk. unfold seg_ok, usable.
  by rewrite (Hk t_maxseg), (Hk snd_una), (Hk snd_wnd), (Hk snd_cwnd), (Hk t_force) by (repeat constructor).
Qed.

Lemma nxt_off so tp : send_ok so tp → tp snd_nxt = u32 (tp snd_una + off_of tp).
Proof. intros [_ Hu Hn _ _ _ _ _ _ _ _ _]. unfold off_of. clear so. wraplia. Qed.

(** From a plan for a segment to the state after it is handed to [ip_output]. *)
Lemma segment_round so tp pl opt win fin :
  send_ok so (p_tp pl) → same tp (p_tp pl) → seg_plan so (p_tp pl) pl fin → p_len pl <= tp t_maxseg →
  p_off pl = off_of tp → (p_len pl ≠ 0 → p_off pl + p_len pl <= Z.min (snd_cc so) (usable tp) ∧ p_tp pl snd_nxt = tp snd_nxt) →
  send_ok so tp → 
  ∃ tp1 sg, out_header pl opt win = (tp1, sg) ∧ seg_ok so tp sg ∧
    send_ok so (out_advance pl tp1) ∧ same tp (out_advance pl tp1) ∧
    ((p_tp pl t_force =? 0) || (p_tp pl (t_timer TCPT_PERSIST) =? 0) = true → p_len pl ≠ 0 →
     off_of tp + p_len pl <= off_of (out_advance pl tp1)).
Proof.
  clear ip_output mget mcopy max_linkhdr. intros Hok Hs Hsp Hm Hoff Hd Hok0.
  destruct (out_header_ok so pl opt win fin Hok Hsp) as (tp1 & sg & -> & Ok1 & S1 & L1 & O1 & Q1 & F1 & Q2 & N1 & T1).
  exists tp1, sg. assert (Hfo : tp1 t_force = p_tp pl t_force) by (apply S1; repeat constructor).
  assert (Hfs : fin_state tp1 = fin_state (p_tp pl)) by (by apply same_fin).
  destruct (out_advance_ok so pl tp1 fin) as (Ok2 & S2 & N2); [done|apply Hsp|apply Hsp|..].
  { intros Hne. rewrite N1. pose proof (sp_data _ _ _ _ Hsp Hne). pose proof (sp_len _ _ _ _ Hsp). destruct fin; lia. }
  { intros ->. rewrite Hfs, N1. pose proof (sp_fin _ _ _ _ Hsp eq_refl). split; [apply H|lia]. }
  rewrite Hfo, T1 in N2. split_and!; try done; [|by do 2 (etrans; [done|])|].
  - unfold seg_ok. rewrite L1, O1. pose proof (sp_len _ _ _ _ Hsp) as Hl. pose proof (ok_order _ _ Hok0). split; [lia|]. split.
    + intros Hne. destruct (Hd Hne) as [D1 D2]. split; [lia|]. split; [done|].
      rewrite Q1, D2, Hoff by done. by eapply nxt_off.
    + rewrite F1. intros ->. rewrite (Q2 eq_refl), (nxt_off so tp1), N1 by done.
      assert (tp1 snd_una = tp snd_una) as ->; [|wraplia].
      rewrite (proj1 S1 snd_una) by (repeat constructor). apply Hs. repeat constructor.
  - intros Hpe Hne. rewrite (N2 Hpe), N1. destruct (Hd Hne) as [D1 D2].
    assert (off_of (p_tp pl) = off_of tp) as Ho.
    { unfold off_of. rewrite D2. by rewrite (proj1 Hs snd_una) by (repeat constructor). }
    pose proof (sp_data _ _ _ _ Hsp Hne) as Hx. rewrite Ho in Hx. destruct fin; simpl; lia.
Qed.

Lemma output_round_ok idle n so tp :
  template = true → mcopy n = true → send_ok so tp →
  ∃ tp' sg e again, output_round idle n so tp = Some (tp', so, sg, e, again) ∧ send_ok so tp' ∧
    (∀ x, sg = Some x → seg_ok so tp x) ∧
    (again = true → same tp tp' ∧ off_of tp < off_of tp').
Proof.
  intros Ht Hmc Hok. unfold output_round. destruct (out_plan_ok so tp Hok) as (pl & -> & Hpl).
  destruct (plan_send_ok so tp pl Hok Hpl) as [Okp Sp].
  destruct (negb (out_decide so idle pl)).
  { destruct (out_nothing_ok so (p_tp pl) Okp) as (tp' & -> & Ok' & _). by eexists _, _, _, _. }
  destruct (plan_flags so tp pl Hpl) as (fin & Hfl & Hfin).
  assert (Hms : p_tp pl t_maxseg = tp t_maxseg) by (apply Sp; repeat constructor).
  assert (Hts : tstamps (p_tp pl) = tstamps tp) by apply Sp.
  assert (Hfo : p_tp pl t_force = tp t_force) by (apply Sp; repeat constructor).
  pose proof (ok_maxseg _ _ Hok) as Hm. pose proof (pl_len _ _ _ Hpl) as Hl.
  destruct (out_options_ok so pl fin Hfl) as (opt & more & -> & Hol & Hmore); [by rewrite Hms|by rewrite Hms|].
  rewrite Hms, Hts in *. set (room := tp t_maxseg - Z.of_nat (length opt)) in *.
  assert (Hroom : 0 < room <= tp t_maxseg ∧ (fin = true → room = tp t_maxseg)).
  { unfold room. rewrite Hol. split.
    - unfold TCPOLEN_TSTAMP_APPA, TCPOLEN_TIMESTAMP in *. destruct (tstamps tp); lia.
    - intros ->. rewrite (ok_early _ _ Hok) by (by apply Hfin). lia. }
  match goal with |- context [out_mbufs so n ?p _] => set (pl1 := p) end.
  destruct (out_mbufs_ok so n pl1 (Z.of_nat (length opt)) fin Hfl Hmc) as [-> | (flags & -> & Hfl2)].
  { destruct (out_error (p_tp pl1) ENOBUFS) as [tp' e] eqn:E. eexists _, _, _, _. split; [done|].
    split; [|done]. change tp' with ((tp', e).1). rewrite <- E. by apply out_error_ok. }
  rewrite Ht. cbn [negb]. set (pl2 := Plan _ flags _ _ _).
  assert (Hlen : p_len pl ≠ 0 → p_off pl + p_len pl <= Z.min (snd_cc so) (usable tp) ∧ off_of (p_tp pl) = off_of tp ∧
    p_tp pl snd_nxt = tp snd_nxt).
  { intros Hne. destruct (pl_data _ _ _ Hpl Hne) as [D1 D2]. split; [done|]. split; [|done]. unfold off_of. rewrite D2.
    by rewrite (proj1 Sp snd_una) by (repeat constructor). }
  assert (Hoff : p_off pl = off_of tp) by apply Hpl. 
  assert (Hsp : seg_plan so (p_tp pl2) pl2 fin).
  { unfold TCPOLEN_TSTAMP_APPA, TCPOLEN_TIMESTAMP in *. constructor; simpl; [done|lia| |].
    - intros Hne. destruct Hlen as (D1 & D2 & _); lia.
    - intros Hf. destruct (Hfin Hf) as [Hf1 Hf2]. split; [by rewrite (same_fin _ _ Sp)|]. destruct Hroom as [_ Hr]. specialize (Hr Hf). lia. }
  destruct (segment_round so tp pl2 opt (out_window so (Sockbuf.sbspace (so_rcv so)) (p_tp pl2)) fin)
    as (tp1 & sg & -> & Hsg & Ok1 & S1 & N1); try done; simpl.
  { lia. }
  { intros Hne. destruct Hlen as (D1 & D2 & D3); [lia|]. split; [lia|done]. }
  destruct (negb (ip_output n sg =? 0)).
  { destruct (out_error _ (ip_output n sg)) as [tp' e] eqn:E. eexists _, _, _, _. split; [done|].
    split; [change tp' with ((tp', e).1); rewrite <- E; by apply out_error_ok|]. split; [|done]. by intros x [= ->]. }
  destruct (out_sent_ok so (out_advance pl2 tp1) (out_window so (Sockbuf.sbspace (so_rcv so)) (p_tp pl))) as (Ok3 & S3 & O3); [done|].
  eexists _, _, _, _. split; [done|]. split; [done|]. split; [by intros x [= ->]|]. intros Hag. split; [by etrans|].
  rewrite O3. simpl in Hag. assert (Hlp : 0 < Z.min (p_len pl) room).
  { destruct (Hmore Hag) as [Hsa|Hlt]; [|lia]. rewrite (pl_more _ _ _ Hpl Hsa). lia. }
  simpl in N1. enough (off_of tp + Z.min (p_len pl) room <= off_of (out_advance pl2 tp1)) by lia. apply N1; [|lia].
  destruct (p_tp pl t_force =? 0) eqn:E1; [done|]. destruct (p_tp pl (t_timer TCPT_PERSIST) =? 0) eqn:E2; [done|]. zbool.
  exfalso. rewrite Hfo in E1. assert (p_len pl <= 1).
  { apply (pl_probe _ _ _ Hpl); [|done]. unfold ztrue. by apply negb_true_iff, Z.eqb_neq. }
  unfold TCPOLEN_TSTAMP_APPA, TCPOLEN_TIMESTAMP in *.
  destruct (Hmore Hag) as [Hsa|Hlt]; [|lia]. rewrite (pl_more _ _ _ Hpl Hsa) in *. lia.
Qed.

Lemma output_loop_ok fuel : ∀ idle n so tp,
  template = true → (∀ n, mcopy n = true) → send_ok so tp → snd_cc so + 2 - off_of tp <= Z.of_nat fuel →
  ∃ tp' sgs e, output_loop fuel idle n so tp = Some (tp', so, sgs, e) ∧ send_ok so tp' ∧ Forall (seg_ok so tp) sgs.
Proof.
  induction fuel as [|fuel IH]; intros idle n so tp Ht Hmc Hok Hf.
  { pose proof (ok_order _ _ Hok). pose proof (ok_data _ _ Hok). unfold b2z in *. destruct (tflag _ _) in *; lia. }
  simpl. destruct (output_round_ok idle n so tp Ht (Hmc n) Hok) as (tp1 & sg & e & again & -> & Ok1 & Hsg & Hag).
  assert (Forall (seg_ok so tp) match sg with Some sg => [sg] | None => [] end) as Hs1.
  { destruct sg as [sg|]; [|done]. apply Forall_singleton. by apply Hsg. }
  destruct again; [|by eexists _, _, _]. destruct (Hag eq_refl) as [S1 O1].
  destruct (IH idle (S n) so tp1 Ht Hmc Ok1) as (tp2 & sgs & e2 & -> & Ok2 & Hs2); [lia|].
  eexists _, _, _. split; [done|]. split; [done|]. apply Forall_app_2; [done|].
  eapply Forall_impl; [exact Hs2|]. intros x. by apply seg_ok_same.
Qed.

Lemma idle_restart_ok so tp : send_ok so tp → send_ok so (idle_restart tp).
Proof.
  intros Hok. unfold idle_restart. destruct (_ && _); [|done].
  change (wr snd_cwnd (tp t_maxseg) tp) with ((out_error tp ENOBUFS).1). by apply out_error_ok.
Qed.

End Output.

(** ** Properties *)


(** An established connection with 3000 bytes to send, a window of 8192 bytes and
    segments of 1000 bytes. *)
Definition ex_tp (f : tfield) : Z :=
  match f with
  | t_state => TCPS_ESTABLISHED | t_maxseg => 1000 | snd_wnd | snd_cwnd | max_sndwnd => 8192
  | snd_una | snd_nxt | snd_max | snd_up => 4294967000 | rcv_nxt => 77 | rcv_adv => 77 + 8192
  | last_ack_sent => 77 | t_rxtcur => 12 | t_rttmin => 2
  | _ => 0
  end.
Definition ex_so (cc : Z) : sock := Sock (Sockbuf.SB cc 8192 cc 16384 1 [] 0) (ex_sockbuf 8192).

Lemma ex_send_ok : send_ok (ex_so 3000) ex_tp.
Proof. constructor; by vm_compute. Qed.


Definition sent (r : option (tcpcb * sock * list segment * Z)) : list segment :=
  match r with Some (_, _, sgs, _) => sgs | None => [] end.

(** The segments of that example: the sequence numbers wrap around. *)
Lemma ex_output :
  map (λ sg, (sg_seq sg, sg_off sg, sg_len sg))
    (sent (tcp_output 16 (λ _, true) (λ _, true) (λ _ _, 0) 262144 512 None 0 true 4 (ex_so 3000) ex_tp)) =
  [(4294967000, 0, 1000); (704, 1000, 1000); (1704, 2000, 1000)].
Proof. by vm_compute. Qed.

(** The same connection closing, with timestamps and 1000 bytes to send. *)
Definition ex_closing (f : tfield) : Z :=
  match f with
  | t_state => TCPS_FIN_WAIT_1 | t_flags => Z.lor TF_REQ_TSTMP TF_RCVD_TSTMP | _ => ex_tp f
  end.

(** With timestamps in use, a FIN can be sent before the data: shortening the
    segment to make room for the option does not take the FIN back.  Of the 1000
    bytes here, the first segment has 988 and a FIN, the rest is sent from byte 989
    on, under the sequence number of byte 988: byte 988 is never sent, and the FIN
    takes its place. *)
Theorem fin_before_data :
  map (λ sg, (sg_seq sg, sg_off sg, sg_len sg, fl (sg_flags sg) TH_FIN))
    (sent (tcp_output 16 (λ _, true) (λ _, true) (λ _ _, 0) 262144 512 None 0 true 4 (ex_so 1000) ex_closing)) =
  [(4294967000, 0, 988, true); (u32 (4294967000 + 988), 989, 11, true)].
Proof. by vm_compute. Qed.

(** A round of the first example when the data cannot be copied. *)
Lemma copy_failure_round n :
  output_round 16 (λ _, true) (λ _, false) (λ _ _, 0) 262144 512 None 0 true true n (ex_so 3000) ex_tp =
    Some (ex_tp, ex_so 3000, Some (Segm 4294967000 77 TH_ACK 8192 0 [] 0 0), 0, true).
Proof.
  etrans; [lazy; reflexivity|]. unfold ex_so, ex_sockbuf. do 5 f_equal.
  apply functional_extensionality. intros []; reflexivity.
Qed.

(** When [m_copy] fails the round goes on with no data but with [sendalot]
    set: each round sends an empty segment, leaves the connection as it was and asks
    for another, so that as long as the copy fails [tcp_output] never returns. *)
Theorem copy_failure_livelock :
  (∀ n, output_round 16 (λ _, true) (λ _, false) (λ _ _, 0) 262144 512 None 0 true true n (ex_so 3000) ex_tp =
        Some (ex_tp, ex_so 3000, Some (Segm 4294967000 77 TH_ACK 8192 0 [] 0 0), 0, true)) ∧
  ∀ fuel, tcp_output 16 (λ _, true) (λ _, false) (λ _ _, 0) 262144 512 None 0 true fuel (ex_so 3000) ex_tp = None.
Proof.
  split; [exact copy_failure_round|]. intros fuel.
  unfold tcp_output. change (idle_restart ex_tp) with ex_tp. change (ex_tp snd_max =? ex_tp snd_una) with true.
  generalize 0%nat. induction fuel as [|fuel IH]; intros n; [done|]. cbn [output_loop].
  rewrite copy_failure_round. by rewrite IH.
Qed.

(** ** Retransmit and persist *)

Definition exclusive (tp : tcpcb) : Prop := tp (t_timer TCPT_REXMT) = 0 ∨ tp (t_timer TCPT_PERSIST) = 0.

Lemma exclusive_ext tp tp' : (∀ i, tp' (t_timer i) = tp (t_timer i)) → exclusive tp → exclusive tp'.
Proof. unfold exclusive. by intros H; rewrite !H. Qed.

Lemma exclusive_plan so tp pl : out_plan so tp = Some pl → exclusive tp → exclusive (p_tp pl).
Proof.
  unfold out_plan. intros H He. destruct (if 0 <=? _ then _ else None) as [flags|]; [|done].
  match type of H with match ?x with _ => _ end = _ =>
    assert (exclusive x.1.1) as H1; [|destruct x as [[tp1 fl1] win1]] end.
  { destruct (ztrue _); [|done]. destruct (_ =? 0); [done|]. right. simpl. by tsimpl. }
  simpl in H1. match type of H with match ?x with _ => _ end = _ =>
    assert (exclusive x.1) as H2; [|destruct x as [tp2 len2]] end.
  { destruct (_ <? 0); [|done]. simpl. destruct (_ =? 0); [|done]. left. by tsimpl. }
  simpl in H2. destruct (if _ <? len2 then _ else _) as [l3 m3]. by injection H as <-.
Qed.

Lemma exclusive_nothing so tp tp' : out_nothing so tp = Some tp' → exclusive tp → exclusive tp'.
Proof.
  unfold out_nothing. intros H He. destruct (_ && _); [|by injection H as <-].
  unfold tcp_setpersist in H. destruct (ztrue _) eqn:E; [done|]. destruct (backoff _) as [b|]; [|done].
  injection H as <-. left. unfold ztrue in E. zbool.
  destruct (_ <? _); tsimpl; by rewrite RANGESET_other by discriminate.
Qed.

Lemma options_timers sb_max dflt route tcp_now so pl pl' so' opt i :
  out_options sb_max dflt route tcp_now so pl = Some (pl', so', opt) → p_tp pl' (t_timer i) = p_tp pl (t_timer i).
Proof.
  unfold out_options. intros H.
  match type of H with match ?x with _ => _ end = _ => destruct x as [[[tp1 so1] opt1]|] eqn:E; [|done] end.
  assert (tp1 (t_timer i) = p_tp pl (t_timer i)) as H1.
  { destruct (fl _ TH_SYN); [|by injection E as <- _ _].
    destruct (negb _); [|injection E as <- _ _; by tsimpl].
    destruct (tcp_mss _ _ _ _ _ _) as [[[tp2 so2] m]|] eqn:Em; [|done]. injection E as <- _ _.
    rewrite (tcp_mss_frame _ _ _ _ _ _ _ _ _ (t_timer i) Em) by (unfold mss_fields; notin). by tsimpl. }
  injection H as <- _ _. by destruct (_ <? _).
Qed.

Lemma exclusive_advance pl tp : exclusive tp → exclusive (out_advance pl tp).
Proof.
  intros He. unfold out_advance. destruct (_ || _); [|destruct (SEQ_GT _ _); [|done]; by apply (exclusive_ext tp); [intros i; tsimpl|]].
  cbv zeta. set (tp2 := wr snd_nxt (_ + p_len pl) _).
  set (tp3 := if SEQ_GT _ _ then _ else tp2).
  assert (H2 : ∀ i, tp2 (t_timer i) = tp (t_timer i)).
  { intros i. unfold tp2, set_tflag. repeat (destruct (fl _ _)); by tsimpl. }
  assert (H3 : exclusive tp3).
  { apply (exclusive_ext tp2); [|by apply (exclusive_ext tp)]. intros i. unfold tp3.
    destruct (SEQ_GT _ _); [|done]. destruct (_ =? 0); by tsimpl. }
  clearbody tp3. destruct (_ && _); [|done]. right. destruct (ztrue _) eqn:E; tsimpl; [done|].
  unfold ztrue in E. zbool. by tsimpl_in E.
Qed.

Lemma header_timers pl opt win tp sg i :
  out_header pl opt win = (tp, sg) → tp (t_timer i) = p_tp pl (t_timer i).
Proof.
  unfold out_header. set (tp0 := if _ && _ && _ then _ else _).
  assert (tp0 (t_timer i) = p_tp pl (t_timer i)) as <- by (unfold tp0; destruct (_ && _); by tsimpl).
  destruct (SEQ_GT _ _); intros [= <- _]; by tsimpl.
Qed.

Lemma error_timers tp e i : (out_error tp e).1 (t_timer i) = tp (t_timer i).
Proof. unfold out_error. destruct (_ =? _); [simpl; by tsimpl|]. destruct (_ && _); simpl; by tsimpl. Qed.

Lemma sent_timers tp win i : out_sent tp win (t_timer i) = tp (t_timer i).
Proof. unfold out_sent, clear_tflag. destruct (_ && _); by tsimpl. Qed.

Section Exclusive.
Context (max_linkhdr : Z) (mget mcopy : nat → bool) (ip_output : nat → segment → Z).
Context (sb_max dflt : Z) (route : option route_info) (tcp_now : Z) (template : bool).

Lemma exclusive_round idle n so tp tp' so' sg e again :
  output_round max_linkhdr mget mcopy ip_output sb_max dflt route tcp_now template idle n so tp =
    Some (tp', so', sg, e, again) → exclusive tp → exclusive tp'.
Proof.
  unfold output_round. intros H He. destruct (out_plan so tp) as [pl|] eqn:Ep; [|done].
  pose proof (exclusive_plan _ _ _ Ep He) as Hp. destruct (negb (out_decide so idle pl)).
  { destruct (out_nothing so (p_tp pl)) as [tp1|] eqn:En; [|done]. injection H as <- _ _ _ _. by eapply exclusive_nothing. }
  destruct (out_options _ _ _ _ so pl) as [[[pl1 so1] opt]|] eqn:Eo; [|done].
  assert (H1 : exclusive (p_tp pl1)) by (apply (exclusive_ext (p_tp pl)); [intros i; by eapply options_timers|done]).
  destruct (out_mbufs _ _ _ so1 n pl1 _) as [pl2|] eqn:Em.
  2: { injection H as <- _ _ _ _. apply (exclusive_ext (p_tp pl1)); [|done]. intros i. tsimpl. done. }
  assert (H2 : p_tp pl2 = p_tp pl1).
  { unfold out_mbufs in Em. destruct (negb (mget n)); [done|]. destruct (p_len pl1 =? 0); by injection Em as <-. }
  destruct (negb template); [done|]. destruct (out_header _ _ _) as [tp3 sg3] eqn:Eh.
  assert (H3 : exclusive (out_advance pl2 tp3)).
  { apply exclusive_advance, (exclusive_ext (p_tp pl2)); [intros i; by eapply header_timers|by rewrite H2]. }
  destruct (negb _).
  - destruct (out_error _ _) as [tp4 e4] eqn:Ee. injection H as <- _ _ _ _. 
    apply (exclusive_ext (out_advance pl2 tp3)); [|done]. intros i. change tp4 with ((tp4, e4).1). rewrite <- Ee. apply error_timers.
  - injection H as <- _ _ _ _. apply (exclusive_ext (out_advance pl2 tp3)); [|done]. intros i. apply sent_timers.
Qed.
End Exclusive.

Lemma output_exclusive max_linkhdr mget mcopy ip_output sb_max dflt route tcp_now template fuel so tp tp' so' sgs e :
  exclusive tp →
  tcp_output max_linkhdr mget mcopy ip_output sb_max dflt route tcp_now template fuel so tp = Some (tp', so', sgs, e) →
  exclusive tp'.
Proof.
  intros He. assert (exclusive (idle_restart tp)) as He'.
  { apply (exclusive_ext tp); [|done]. intros i. unfold idle_restart. destruct (_ && _); by tsimpl. }
  unfold tcp_output. generalize 0%nat, (tp snd_max =? tp snd_una). intros n idle. clear He. revert n so sgs He'.
  generalize (idle_restart tp). induction fuel as [|fuel IH]; intros tp0 n so sgs He H; [done|]. cbn [output_loop] in H.
  destruct (output_round _ _ _ _ _ _ _ _ _ idle n so tp0) as [[[[[tp1 so1] sg1] e1] ag]|] eqn:E; [|done].
  apply exclusive_round in E; [|done]. destruct ag; [|by injection H as <- _ _ _].
  destruct (output_loop _ _ _ _ _ _ _ _ _ fuel idle (S n) so1 tp1) as [[[[tp2 so2] sgs2] e2]|] eqn:E2; [|done].
  injection H as <- <- <- <-. by eapply IH.
Qed.

Lemma calls_exclusive max_linkhdr mget mcopy ip_output sb_max dflt route tcp_now template fuel acts : ∀ so tp tp' so' sgs,
  exclusive tp →
  timer_calls max_linkhdr mget mcopy ip_output sb_max dflt route tcp_now template fuel acts so tp = Some (Keeps tp' so' sgs) →
  exclusive tp'.
Proof.
  induction acts as [|a acts IH]; intros so tp tp' so' sgs He H; simpl in H; [by injection H as <- _ _|].
  destruct a; try done; try by eapply IH.
  all: destruct (tcp_output _ _ _ _ _ _ _ _ _ fuel so tp) as [[[[tp1 so1] sgs1] e1]|] eqn:E; [|done];
    apply output_exclusive in E; [|done].
  - destruct (timer_calls _ _ _ _ _ _ _ _ _ fuel acts so1 tp1) as [[tp2 so2 sgs2|]|] eqn:E2; [|done..].
    injection H as <- _ _. by eapply IH.
  - destruct (timer_calls _ _ _ _ _ _ _ _ _ fuel acts so1 _) as [[tp2 so2 sgs2|]|] eqn:E2; [|done..].
    injection H as <- _ _. eapply IH; [|exact E2]. apply (exclusive_ext tp1); [intros i; by tsimpl|done].
Qed.

(** A timer that has just run down, on a connection where the two exclude each
    other: the handler does not panic and they still do. *)
Lemma timers_exclusive e tp timer :
  exclusive tp → tp (t_timer timer) ≠ 0 → 0 <= tp t_rxtshift <= TCP_MAXRXTSHIFT → 0 < tp t_maxseg →
  let r := tcp_timers e (wr (t_timer timer) 0 tp) timer in exclusive r.1 ∧ TPanic ∉ r.2.
Proof.
  intros He Ht Hs Hm. unfold exclusive in *.
  destruct (decide (timer = TCPT_REXMT)) as [->|N0]; [|destruct (decide (timer = TCPT_PERSIST)) as [->|N1]].
  - destruct He as [He|He]; [done|]. unfold tcp_timers. simpl Nat.eqb. cbv iota zeta.
    tsimpl. unfold TCP_MAXRXTSHIFT in *. rewrite s16_small by lia.
    destruct (Z.ltb_spec 12 (tp t_rxtshift + 1)); [simpl; split; [right; by tsimpl|notin]|].
    rewrite backoff_Some by (unfold TCP_MAXRXTSHIFT; lia). 
    set (tp1 := TCPT_RANGESET _ _ _ _ _).
    assert (H1 : tp1 (t_timer TCPT_PERSIST) = 0 ∧ tp1 t_maxseg = tp t_maxseg).
    { unfold tp1. rewrite !RANGESET_other by discriminate. by tsimpl. }
    clearbody tp1. set (b := _ <? _). destruct b; tsimpl; rewrite (proj2 H1), (proj2 (Z.eqb_neq _ 0)) by lia; simpl; tsimpl;
      (split; [right; apply H1|notin]).
  - destruct He as [He|He]; [|done]. unfold tcp_timers. simpl Nat.eqb. cbv iota.
    unfold tcp_setpersist. tsimpl. rewrite He. cbn [ztrue negb Z.eqb]. rewrite backoff_Some by done. cbn [fst snd].
    split; [left|notin]. destruct (_ <? _); tsimpl; rewrite RANGESET_other by discriminate; by tsimpl.
  - assert (H0 : wr (t_timer timer) 0 tp (t_timer TCPT_REXMT) = 0 ∨ wr (t_timer timer) 0 tp (t_timer TCPT_PERSIST) = 0).
    { rewrite !wr_ne by congruence. done. }
    unfold tcp_timers. rewrite (proj2 (Nat.eqb_neq _ _) N0), (proj2 (Nat.eqb_neq _ _) N1).
    set (tp0 := wr _ 0 tp) in *. clearbody tp0.
    destruct (Nat.eqb timer TCPT_2MSL); [destruct (_ && _); simpl; split; tsimpl; done || notin|].
    destruct (Nat.eqb timer TCPT_KEEP); [|simpl; split; [done|notin]].
    destruct (_ <? _); [simpl; split; [done|notin]|]. destruct (_ && _); [|simpl; split; [by tsimpl|notin]].
    destruct (_ <=? _); simpl; split; tsimpl; done || notin.
Qed.

(** *** No panic *)

(** The persist timer is started only when neither of the two is on. *)
Lemma nothing_returns so tp : ∃ tp', out_nothing so tp = Some tp'.
Proof.
  unfold out_nothing. destruct (_ && _) eqn:E; [|by eexists]. zbool. unfold tcp_setpersist. tsimpl.
  assert (tp (t_timer TCPT_REXMT) = 0) as -> by done. change (backoff (s16 0)) with (Some 1). cbn [ztrue negb Z.eqb]. by eexists.
Qed.

Lemma plan_returns so tp :
  TCPS_CLOSED <= tp t_state <= TCPS_TIME_WAIT →
  ∃ pl, out_plan so tp = Some pl ∧ (TCPS_ESTABLISHED <= tp t_state → fl (p_flags pl) TH_SYN = false).
Proof.
  intros Hs. unfold out_plan. unfold TCPS_CLOSED, TCPS_TIME_WAIT, TCPS_ESTABLISHED in *. rewrite (proj2 (Z.leb_le 0 _)) by lia.
  destruct (tcp_outflags !! Z.to_nat (tp t_state)) as [flags|] eqn:E.
  2: { apply lookup_ge_None in E. unfold tcp_outflags in E. simpl in E. lia. }
  assert (Hf : 4 <= tp t_state → fl flags TH_SYN = false).
  { intros H4. revert E.
    assert (tp t_state = 4 ∨ tp t_state = 5 ∨ tp t_state = 6 ∨ tp t_state = 7 ∨ tp t_state = 8 ∨ tp t_state = 9 ∨ tp t_state = 10) as Hc by lia.
    repeat (destruct Hc as [-> | Hc]; [intros E; vm_compute in E; by injection E as <-|]). rewrite Hc. intros E; vm_compute in E; by injection E as <-. }
  assert (Hm : ∀ f, fl f TH_SYN = false → fl (Z.land f (Z.lnot TH_FIN)) TH_SYN = false).
  { intros f H. unfold fl in *. rewrite <- Z.land_assoc. by change (Z.land (Z.lnot TH_FIN) TH_SYN) with TH_SYN. }
  set (x := if ztrue (tp t_force) then _ else _). assert (H1 : 4 <= tp t_state → fl x.1.2 TH_SYN = false).
  { intros H4. specialize (Hf H4). unfold x. destruct (ztrue _); [|done]. destruct (_ =? 0); [|done]. simpl. destruct (_ <? _); auto. }
  clearbody x. destruct x as [[tp1 fl1] win1]. simpl in H1. cbv zeta.
  set (y := if _ <? 0 then _ else _). clearbody y. destruct y as [tp2 len2].
  set (z := if _ <? len2 then _ else _). clearbody z. destruct z as [l3 m3].
  eexists. split; [done|]. intros H4. specialize (H1 H4). simpl. destruct (SEQ_LT _ _); auto.
Qed.

(** A round returns, in every state, with a template and, before the connection is
    synchronised, no division by zero in [tcp_mss] ([tcp_mss_divides_by_zero]). *)
Lemma round_returns max_linkhdr mget mcopy ip_output sb_max dflt route tcp_now idle n so tp :
  TCPS_CLOSED <= tp t_state <= TCPS_TIME_WAIT →
  (TCPS_ESTABLISHED <= tp t_state ∨ ∀ tp so, tcp_mss sb_max dflt route tp so 0 ≠ None) →
  ∃ r, output_round max_linkhdr mget mcopy ip_output sb_max dflt route tcp_now true idle n so tp = Some r.
Proof.
  intros Hs Hm. unfold output_round. destruct (plan_returns so tp Hs) as (pl & -> & Hsyn).
  destruct (negb _). { destruct (nothing_returns so (p_tp pl)) as [tp' ->]. by eexists. }
  assert (∃ r, out_options sb_max dflt route tcp_now so pl = Some r) as [[[pl1 so1] opt] ->].
  { unfold out_options. destruct (fl (p_flags pl) TH_SYN).
    - destruct Hm as [Hm|Hm]; [by specialize (Hsyn Hm)|]. destruct (negb _); [|by eexists].
      destruct (tcp_mss _ _ _ _ _ _) as [[[? ?] ?]|] eqn:E; [by eexists|by apply Hm in E].
    - by eexists. }
  destruct (out_mbufs _ _ _ so1 n pl1 _) as [pl2|]; [|destruct (out_error _ _); by eexists].
  cbn [negb]. destruct (out_header _ _ _) as [tp2 sg]. destruct (negb _); [destruct (out_error _ _)|]; by eexists.
Qed.

(** C27: the retransmit and persist timers are never on together: [tcp_output] keeps
    it so on every path, errors included, and so does every timer that goes off with
    the output it causes.  The panic of [tcp_setpersist] does not happen: every round of
    [tcp_output] returns, whatever the timers (with a template and, before the connection
    is synchronised, a route for which [tcp_mss] does not divide by zero), and no timer
    panics. *)
Theorem rexmt_persist_exclusive max_linkhdr mget mcopy ip_output sb_max dflt route tcp_now template fuel so tp :
  exclusive tp →
  (∀ tp' so' sgs e,
     tcp_output max_linkhdr mget mcopy ip_output sb_max dflt route tcp_now template fuel so tp = Some (tp', so', sgs, e) →
     exclusive tp') ∧
  (∀ idle n,
     TCPS_CLOSED <= tp t_state <= TCPS_TIME_WAIT →
     (TCPS_ESTABLISHED <= tp t_state ∨ ∀ tp so, tcp_mss sb_max dflt route tp so 0 ≠ None) →
     ∃ tp' so' sg e again,
       output_round max_linkhdr mget mcopy ip_output sb_max dflt route tcp_now true idle n so tp = Some (tp', so', sg, e, again) ∧
       exclusive tp') ∧
  (∀ env timer,
     tp (t_timer timer) ≠ 0 → 0 <= tp t_rxtshift <= TCP_MAXRXTSHIFT → 0 < tp t_maxseg →
     (TPanic ∉ (tcp_timers env (wr (t_timer timer) 0 tp) timer).2) ∧
     ∀ tp' so' sgs,
       timer_run max_linkhdr mget mcopy ip_output sb_max dflt route tcp_now template env fuel so
         (wr (t_timer timer) 0 tp) timer = Some (Keeps tp' so' sgs) →
       exclusive tp').
Proof.
  intros He. split; [|split].
  - intros tp' so' sgs e. by apply output_exclusive.
  - intros idle n Hs Hm.
    destruct (round_returns max_linkhdr mget mcopy ip_output sb_max dflt route tcp_now idle n so tp Hs Hm) as [[[[[tp' so'] sg] e] again] E].
    exists tp', so', sg, e, again. split; [done|]. by eapply exclusive_round.
  - intros env timer Ht Hs Hm. destruct (timers_exclusive env tp timer He Ht Hs Hm) as [H1 H2]. split; [done|].
    intros tp' so' sgs H. unfold timer_run in H. destruct (tcp_timers env _ timer) as [tp1 acts].
    by eapply calls_exclusive.
Qed.

(** The established connection with its persist timer about to go off. *)
Definition ex_persist (f : tfield) : Z :=
  match f with t_timer 1 => 1 | snd_wnd => 0 | _ => ex_tp f end.

(** Its window is closed: one byte is sent, the persist timer runs again, the
    retransmit timer does not. *)
Lemma rexmt_persist_exclusive_witness :
  ∃ tp' so' sgs, timer_run 16 (λ _, true) (λ _, true) (λ _ _, 0) 262144 512 None 0 true (TEnv 14400 150 1200 false) 4
      (ex_so 3000) (wr (t_timer TCPT_PERSIST) 0 ex_persist) TCPT_PERSIST = Some (Keeps tp' so' sgs) ∧
    exclusive tp' ∧ map sg_len sgs = [1] ∧ tp' (t_timer TCPT_PERSIST) = 10.
Proof.
  destruct (rexmt_persist_exclusive 16 (λ _, true) (λ _, true) (λ _ _, 0) 262144 512 None 0 true 4 (ex_so 3000) ex_persist)
    as (_ & _ & H).
  - left. reflexivity.
  - destruct (H (TEnv 14400 150 1200 false) TCPT_PERSIST) as [_ H'].
    + discriminate.
    + by vm_compute.
    + by vm_compute.
    + eexists _, _, _. split; [lazy; reflexivity|]. split; [|by vm_compute].
      eapply H'. lazy; reflexivity.
Defined.

End TcpOutput.
