(* ===== verification/TcpConn.v ===== *)
(** * TCP connections (tcp_subr.c, the socket state routines of uipc_socket2.c)

    A connection is a control block with its reassembly queue, its socket and its
    route.  [tcp_close], [tcp_drop], [tcp_respond] and the routines that report
    the state of a connection to its socket work on it; the packets handed to IP
    and the calls that leave the connection are recorded in order. *)

From stdpp Require Import options.
From S2P Require Import Prelude Mbuf Sockbuf Tcp TcpReass TcpOpt TcpOutput.
Import Tcp TcpOpt TcpOutput.

Module TcpConn.

(** ** Constants *)

Definition SS_NOFDREF : Z := 0x001.
Definition SS_ISCONNECTED : Z := 0x002.
Definition SS_ISCONNECTING : Z := 0x004.
Definition SS_ISDISCONNECTING : Z := 0x008.
Definition SS_CANTSENDMORE : Z := 0x010.
Definition SS_CANTRCVMORE : Z := 0x020.
Definition SS_RCVATMARK : Z := 0x040.
Definition SS_ISCONFIRMING : Z := 0x400.
Definition SB_ASYNC : Z := 0x10.
Definition SB_NOTIFY : Z := Z.lor (Z.lor Sockbuf.SB_WAIT Sockbuf.SB_SEL) SB_ASYNC.
Definition SO_ACCEPTCONN : Z := 0x0002.
Definition SO_LINGER : Z := 0x0080.
Definition SO_OOBINLINE : Z := 0x0100.
Definition TCPOOB_HAVEDATA : Z := 0x01.
Definition TCPOOB_HADDATA : Z := 0x02.
Definition RTV_RTTVAR : Z := 0x80.
Definition RTV_SSTHRESH : Z := 0x20.
Definition EINVAL : Z := 22.
Definition ENETUNREACH : Z := 51.
Definition ECONNABORTED : Z := 53.
Definition ECONNRESET : Z := 54.
Definition EISCONN : Z := 56.
Definition ECONNREFUSED : Z := 61.
Definition EHOSTDOWN : Z := 64.

(** ** State *)

(** What TCP sees of a socket.  [so_queued] says that the socket waits on the
    [so_q0] of a listening socket. *)
Record socket := Socket
  { so_options : Z; so_linger : Z; so_state : Z; so_error : Z; so_oobmark : Z;
    so_queued : bool; so_buf : sock }.

Definition with_options (v : Z) (so : socket) : socket :=
  Socket v (so_linger so) (so_state so) (so_error so) (so_oobmark so) (so_queued so) (so_buf so).
Definition with_linger (v : Z) (so : socket) : socket :=
  Socket (so_options so) (s16 v) (so_state so) (so_error so) (so_oobmark so) (so_queued so) (so_buf so).
Definition with_state (v : Z) (so : socket) : socket :=
  Socket (so_options so) (so_linger so) (s16 v) (so_error so) (so_oobmark so) (so_queued so) (so_buf so).
Definition with_error (v : Z) (so : socket) : socket :=
  Socket (so_options so) (so_linger so) (so_state so) (u16 v) (so_oobmark so) (so_queued so) (so_buf so).
Definition with_oobmark (v : Z) (so : socket) : socket :=
  Socket (so_options so) (so_linger so) (so_state so) (so_error so) (u32 v) (so_queued so) (so_buf so).
Definition with_queued (v : bool) (so : socket) : socket :=
  Socket (so_options so) (so_linger so) (so_state so) (so_error so) (so_oobmark so) v (so_buf so).
Definition with_buf (v : sock) (so : socket) : socket :=
  Socket (so_options so) (so_linger so) (so_state so) (so_error so) (so_oobmark so) (so_queued so) v.

(** Bits of [so_state]. *)
Definition sflag (so : socket) (b : Z) : bool := ztrue (Z.land (so_state so) b).
Definition set_sflag (b : Z) (so : socket) : socket := with_state (Z.lor (so_state so) b) so.
Definition clear_sflag (b : Z) (so : socket) : socket := with_state (Z.land (so_state so) (Z.lnot b)) so.

(** What leaves a connection, in order. *)
Inductive event :=
  | Sent (sg : segment)      (* a segment of [tcp_output] *)
  | Respond (sg : segment)   (* a segment of [tcp_respond] *)
  | Accepted                 (* the socket moves to the [so_q] of its head *)
  | Detached                 (* [in_pcbdetach] *)
  | Aborted.                 (* [soabort] *)

Abbreviation packet := (list Mbuf.mbuf).
Abbreviation queued := (@TcpReass.tseg packet).

(** A connection.  [c_tp] is [None] once the control block is freed;
    [c_template] says whether [t_template] is set, [c_default] whether the route
    is the default route; [c_iss] is the global [tcp_iss]. *)
Record conn := Conn
  { c_ms : Mbuf.mstate; c_tp : option tcpcb; c_template : bool; c_q : list queued;
    c_so : socket; c_route : option route_info; c_default : bool; c_iss : Z; c_out : list event }.

Definition set_ms (v : Mbuf.mstate) (c : conn) : conn :=
  Conn v (c_tp c) (c_template c) (c_q c) (c_so c) (c_route c) (c_default c) (c_iss c) (c_out c).
Definition set_tp (v : option tcpcb) (c : conn) : conn :=
  Conn (c_ms c) v (c_template c) (c_q c) (c_so c) (c_route c) (c_default c) (c_iss c) (c_out c).
Definition set_template (v : bool) (c : conn) : conn :=
  Conn (c_ms c) (c_tp c) v (c_q c) (c_so c) (c_route c) (c_default c) (c_iss c) (c_out c).
Definition set_q (v : list queued) (c : conn) : conn :=
  Conn (c_ms c) (c_tp c) (c_template c) v (c_so c) (c_route c) (c_default c) (c_iss c) (c_out c).
Definition set_so (v : socket) (c : conn) : conn :=
  Conn (c_ms c) (c_tp c) (c_template c) (c_q c) v (c_route c) (c_default c) (c_iss c) (c_out c).
Definition set_route (v : option route_info) (c : conn) : conn :=
  Conn (c_ms c) (c_tp c) (c_template c) (c_q c) (c_so c) v (c_default c) (c_iss c) (c_out c).
Definition set_iss (v : Z) (c : conn) : conn :=
  Conn (c_ms c) (c_tp c) (c_template c) (c_q c) (c_so c) (c_route c) (c_default c) (u32 v) (c_out c).
Definition emit (es : list event) (c : conn) : conn :=
  Conn (c_ms c) (c_tp c) (c_template c) (c_q c) (c_so c) (c_route c) (c_default c) (c_iss c) (c_out c ++ es).

(** ** The monad of the handlers *)

(** The control block; a null [tp] that is followed stops the system. *)
Definition get_tp : M conn tcpcb := λ c, match c_tp c with Some tp => Ok (tp, c) | None => Crash end.
Definition put_tp (tp : tcpcb) : M conn () := modify (set_tp (Some tp)).
Definition mod_tp (f : tcpcb → tcpcb) : M conn () := let! tp := get_tp in put_tp (f tp).
Definition get_so : M conn socket := λ c, Ok (c_so c, c).
Definition mod_so (f : socket → socket) : M conn () := λ c, Ok ((), set_so (f (c_so c)) c).
Definition mod_buf (f : sock → sock) : M conn () := mod_so (λ so, with_buf (f (so_buf so)) so).
Definition raise (e : event) : M conn () := modify (emit [e]).

(** An operation of the mbuf layer. *)
Definition low {A} (m : M Mbuf.mstate A) : M conn A := λ c,
  match m (c_ms c) with Ok (a, s) => Ok (a, set_ms s c) | Panic => Panic | Crash => Crash end.

(** ** The state of the socket *)

(** No socket of the port has an upcall. *)
Definition sorwakeup (so : socket) : socket :=
  with_buf (Sock (so_snd (so_buf so)) (Sockbuf.sowakeup (so_rcv (so_buf so))).1) so.
Definition sowwakeup (so : socket) : socket :=
  with_buf (Sock (Sockbuf.sowakeup (so_snd (so_buf so))).1 (so_rcv (so_buf so))) so.

Definition soisconnecting (so : socket) : socket :=
  set_sflag SS_ISCONNECTING (clear_sflag (Z.lor SS_ISCONNECTED SS_ISDISCONNECTING) so).

(** A queued socket moves to the queue of the sockets ready to be accepted. *)
Definition soisconnected : M conn () :=
  let! so := get_so in
  let so := set_sflag SS_ISCONNECTED
              (clear_sflag (Z.lor (Z.lor SS_ISCONNECTING SS_ISDISCONNECTING) SS_ISCONFIRMING) so) in
  if so_queued so then
    do! mod_so (λ _, with_queued false so) in raise Accepted
  else mod_so (λ _, sowwakeup (sorwakeup so)).

Definition soisdisconnecting (so : socket) : socket :=
  sorwakeup (sowwakeup
    (set_sflag (Z.lor (Z.lor SS_ISDISCONNECTING SS_CANTRCVMORE) SS_CANTSENDMORE)
       (clear_sflag SS_ISCONNECTING so))).

Definition soisdisconnected (so : socket) : socket :=
  sorwakeup (sowwakeup
    (set_sflag (Z.lor SS_CANTRCVMORE SS_CANTSENDMORE)
       (clear_sflag (Z.lor (Z.lor SS_ISCONNECTING SS_ISCONNECTED) SS_ISDISCONNECTING) so))).

Definition socantsendmore (so : socket) : socket := sowwakeup (set_sflag SS_CANTSENDMORE so).
Definition socantrcvmore (so : socket) : socket := sorwakeup (set_sflag SS_CANTRCVMORE so).

(** ** The environment of a handler

    What the rest of the system answers while a handler runs: the allocations and
    [ip_output] as in [tcp_output], whether the allocations of an address, of a
    template and of an answer succeed, the result of [in_pcbconnect], and an
    uninitialised variable of [tcp_close].  [e_fuel] bounds the rounds of
    [tcp_output]. *)
Record env := Env
  { e_linkhdr : Z; e_mget : nat → bool; e_mcopy : nat → bool; e_ip : nat → segment → Z;
    e_sbmax : Z; e_mssdflt : Z; e_now : Z; e_keepidle : Z; e_maxidle : Z; e_fuel : nat;
    e_soname : bool; e_connect : bool; e_template : bool; e_header : bool; e_junk : Z }.

Section Subr.
Context (e : env).

(** A call of [tcp_output(tp)]. *)
Definition output : M conn Z := λ c,
  match c_tp c with
  | None => Crash
  | Some tp =>
      match tcp_output (e_linkhdr e) (e_mget e) (e_mcopy e) (e_ip e) (e_sbmax e) (e_mssdflt e)
              (c_route c) (e_now e) (c_template c) (e_fuel e) (so_buf (c_so c)) tp with
      | None => Panic
      | Some (tp, buf, sgs, error) =>
          Ok (error, emit (Sent <$> sgs) (set_so (with_buf buf (c_so c)) (set_tp (Some tp) c)))
      end
  end.

(** [tcp_template]: an mbuf is needed only if there is no template yet. *)
Definition tcp_template : M conn bool := λ c,
  if c_template c || e_template e then Ok (true, set_template true c) else Ok (false, c).

(** [tcp_respond]; [seg] says that the answer goes in the mbuf of a received
    segment, otherwise it is an acknowledgement in a fresh one. *)
Definition tcp_respond (seg : bool) (ack seq flags : Z) : M conn () := λ c,
  let win := match c_tp c with
             | Some tp => Z.shiftr (Sockbuf.sbspace (so_rcv (so_buf (c_so c)))) (tp rcv_scale)
             | None => 0
             end in
  let sg flags := Segm (u32 seq) (u32 ack) flags (u16 win) 0 [] 0 0 in
  if seg then Ok ((), emit [Respond (sg flags)] c)
  else if e_header e then Ok ((), emit [Respond (sg TH_ACK)] c) else Ok ((), c).

(** Half the old and half the new value of a metric, or the new one. *)
Definition filter_metric (old i : Z) : Z :=
  if ztrue old && ztrue i then u32 (old + i) / 2 else i.

Definition set_rmx_rtt (v : Z) (r : route_info) : route_info :=
  Route (rmx_locks r) (rmx_mtu r) (rmx_recvpipe r) (rmx_sendpipe r) (rmx_ssthresh r) v (rmx_rttvar r)
    (if_mtu r) (in_localaddr r).
Definition set_rmx_rttvar (v : Z) (r : route_info) : route_info :=
  Route (rmx_locks r) (rmx_mtu r) (rmx_recvpipe r) (rmx_sendpipe r) (rmx_ssthresh r) (rmx_rtt r) v
    (if_mtu r) (in_localaddr r).
Definition set_rmx_ssthresh (v : Z) (r : route_info) : route_info :=
  Route (rmx_locks r) (rmx_mtu r) (rmx_recvpipe r) (rmx_sendpipe r) v (rmx_rtt r) (rmx_rttvar r)
    (if_mtu r) (in_localaddr r).

(** The metrics [tcp_close] saves in the route.  [i] is one variable for the three
    metrics: with all three locked it has no value when it is compared with the
    pipe size.  [None] is a division by zero. *)
Definition save_metrics (tp : tcpcb) (rt : route_info) : option route_info :=
  let i := e_junk e in
  let '(i, rt) :=
    if Z.land (rmx_locks rt) RTV_RTT =? 0 then
      let i := u32 (tp t_srtt * (RTM_RTTUNIT / (PR_SLOWHZ * TCP_RTT_SCALE))) in
      (i, set_rmx_rtt (filter_metric (rmx_rtt rt) i) rt)
    else (i, rt) in
  let '(i, rt) :=
    if Z.land (rmx_locks rt) RTV_RTTVAR =? 0 then
      let i := u32 (tp t_rttvar * (RTM_RTTUNIT / (PR_SLOWHZ * TCP_RTTVAR_SCALE))) in
      (i, set_rmx_rttvar (filter_metric (rmx_rttvar rt) i) rt)
    else (i, rt) in
  let unlocked := Z.land (rmx_locks rt) RTV_SSTHRESH =? 0 in
  let i := if unlocked then tp snd_ssthresh else i in
  if (unlocked && ztrue i && ztrue (rmx_ssthresh rt)) || (i <? rmx_sendpipe rt / 2) then
    if tp t_maxseg =? 0 then None
    else
      let i := u32 (i + tp t_maxseg / 2) / tp t_maxseg in
      let i := if i <? 2 then 2 else i in
      let i := u32 (i * (tp t_maxseg + TCPIPHDR_SIZE)) in
      Some (set_rmx_ssthresh (if ztrue (rmx_ssthresh rt) then u32 (rmx_ssthresh rt + i) / 2 else i) rt)
  else Some rt.

(** The loop of [tcp_close] that frees the reassembly queue. *)
Fixpoint free_queue (q : list queued) : M Mbuf.mstate () :=
  match q with [] => ret () | x :: q => do! Mbuf.m_freem (TcpReass.ti_m x) in free_queue q end.

Definition tcp_close : M conn () :=
  let! tp := get_tp in
  let! c := get in
  let hiwat := Sockbuf.sb_hiwat (so_snd (so_buf (c_so c))) in
  let! rt := (match c_route c with
              | Some rt =>
                  if SEQ_LT (u32 (tp iss + hiwat * 16)) (tp snd_max) && negb (c_default c)
                  then lift (Some <$> save_metrics tp rt) else ret (Some rt)
              | None => ret None
              end) in
  do! modify (set_route rt) in
  do! low (free_queue (c_q c)) in
  do! modify (set_q []) in
  do! modify (set_template false) in
  do! modify (set_tp None) in
  do! mod_so soisdisconnected in
  raise Detached.

Definition tcp_drop (errno : Z) : M conn () :=
  let! tp := get_tp in
  do! (if TCPS_HAVERCVDSYN (tp t_state) then
         do! put_tp (wr t_state TCPS_CLOSED tp) in
         do! output in ret ()
       else ret ()) in
  let! tp := get_tp in
  let errno := if (errno =? ETIMEDOUT) && ztrue (tp t_softerror) then tp t_softerror else errno in
  do! mod_so (with_error errno) in
  tcp_close.

(** [soabort], that is [PRU_ABORT]; without a control block the request fails. *)
Definition soabort : M conn () :=
  do! raise Aborted in
  let! c := get in
  match c_tp c with Some _ => tcp_drop ECONNABORTED | None => ret () end.

(** [tcp_notify] and [tcp_quench]. *)
Definition tcp_notify (error : Z) : M conn () :=
  let! tp := get_tp in
  if (tp t_state =? TCPS_ESTABLISHED) &&
     ((error =? EHOSTUNREACH) || (error =? ENETUNREACH) || (error =? EHOSTDOWN))
  then ret ()
  else
    do! (if (tp t_state <? TCPS_ESTABLISHED) && (3 <? tp t_rxtshift) && ztrue (tp t_softerror)
         then mod_so (with_error error)
         else put_tp (wr t_softerror error tp)) in
    mod_so (λ so, sowwakeup (sorwakeup so)).

Definition tcp_quench : M conn () := λ c,
  match c_tp c with
  | Some tp => Ok ((), set_tp (Some (wr snd_cwnd (tp t_maxseg) tp)) c)
  | None => Ok ((), c)
  end.

End Subr.

(** [tcp_newtcpcb]: the fields of a control block that was just cleared. *)
Definition tcp_newtcpcb (mssdflt rttdflt : Z) (do_rfc1323 : bool) : tcpcb :=
  let tp := λ _, 0 in
  let tp := wr t_maxseg mssdflt tp in
  let tp := wr t_flags (if do_rfc1323 then Z.lor TF_REQ_SCALE TF_REQ_TSTMP else 0) tp in
  let tp := wr t_srtt TCPTV_SRTTBASE tp in
  let tp := wr t_rttvar (rttdflt * PR_SLOWHZ * 4) tp in
  let tp := wr t_rttmin TCPTV_MIN tp in
  let tp := TCPT_RANGESET t_rxtcur (Z.shiftr (Z.shiftr TCPTV_SRTTBASE 2 + TCPTV_SRTTDFLT * 4) 1)
              TCPTV_MIN TCPTV_REXMTMAX tp in
  let tp := wr snd_cwnd (TCP_MAXWIN * 2 ^ TCP_MAX_WINSHIFT) tp in
  wr snd_ssthresh (TCP_MAXWIN * 2 ^ TCP_MAX_WINSHIFT) tp.

End TcpConn.
