(* ===== verification/Socket.v ===== *)
(** * Sockets (kern/uipc_socket.c, kern/uipc_socket2.c, kern/uipc_domain.c)

    The sockets live in a heap, as the queues of a listening socket are linked
    through them: [so_q0] and [so_q] are at once the heads of the queues of a
    socket and the links of a queue it is on.  The file models the life of a
    socket (creation, the accept queues, closing) and its options; sending and
    receiving are in SockIo. *)

From stdpp Require Import gmap options.
From S2P Require Import Prelude Mbuf Sockbuf TcpOutput TcpConn.
Import Sockbuf.

Module Socket.

(** ** Constants *)

Definition SS_PRIV : Z := 0x080.
Definition SS_NBIO : Z := 0x100.
Definition SB_NOINTR : Z := 0x40.
Definition SOMAXCONN : Z := 5.
Definition SOCK_RAW : Z := 3.
Definition PR_ATOMIC : Z := 0x01.
Definition PR_ADDR : Z := 0x02.
Definition PR_CONNREQUIRED : Z := 0x04.
Definition PR_WANTRCVD : Z := 0x08.
Definition PRU_ATTACH : Z := 0.
Definition PRU_DETACH : Z := 1.
Definition PRU_BIND : Z := 2.
Definition PRU_LISTEN : Z := 3.
Definition PRU_CONNECT : Z := 4.
Definition PRU_ACCEPT : Z := 5.
Definition PRU_DISCONNECT : Z := 6.
Definition PRU_SHUTDOWN : Z := 7.
Definition PRU_RCVD : Z := 8.
Definition PRU_SEND : Z := 9.
Definition PRU_ABORT : Z := 10.
Definition PRU_RCVOOB : Z := 13.
Definition PRU_SENDOOB : Z := 14.
Definition PRU_CONNECT2 : Z := 17.
Definition FREAD : Z := 1.
Definition FWRITE : Z := 2.
Definition EDOM : Z := 33.
Definition EALREADY : Z := 37.
Definition EPROTOTYPE : Z := 41.
Definition ENOPROTOOPT : Z := 42.
Definition EPROTONOSUPPORT : Z := 43.
Definition EOPNOTSUPP : Z := 45.
Definition ENOTCONN : Z := 57.

(** ** Protocols *)

(** What the socket layer reads of an entry of the protocol switch. *)
Record protosw := Protosw
  { pr_type : Z; pr_protocol : Z; pr_flags : Z; pr_usrreq : bool; pr_ctloutput : bool }.

(** A domain: its family and its protocols. *)
Record domain := Domain { dom_family : Z; dom_protosw : list protosw }.

Definition find_domain (domains : list domain) (family : Z) : option domain :=
  List.find (λ dp, dom_family dp =? family) domains.

Definition pffindtype (domains : list domain) (family type : Z) : option protosw :=
  dp ← find_domain domains family;
  List.find (λ pr, ztrue (pr_type pr) && (pr_type pr =? type)) (dom_protosw dp).

(** The loop of [pffindproto], with the raw wildcard it falls back on. *)
Fixpoint findproto (prs : list protosw) (protocol type : Z) (maybe : option protosw) : option protosw :=
  match prs with
  | [] => maybe
  | pr :: prs =>
      if (pr_protocol pr =? protocol) && (pr_type pr =? type) then Some pr
      else
        findproto prs protocol type
          (if (type =? SOCK_RAW) && (pr_type pr =? SOCK_RAW) && (pr_protocol pr =? 0)
           then match maybe with None => Some pr | _ => maybe end else maybe)
  end.

Definition pffindproto (domains : list domain) (family protocol type : Z) : option protosw :=
  if family =? 0 then None
  else dp ← find_domain domains family; findproto (dom_protosw dp) protocol type None.

(** ** State *)

(** The integer fields of a socket; pointers are addresses, 0 is null. *)
Inductive sfield :=
  | so_type | so_options | so_linger | so_state | so_pcb | so_head | so_q0 | so_q | so_q0len | so_qlen
  | so_qlimit | so_timeo | so_error | so_pgid | so_oobmark | so_snd_timeo | so_rcv_timeo.

#[export] Instance sfield_eq : EqDecision sfield.
Proof. solve_decision. Defined.

(** The conversion of a store to the width of the field. *)
Definition convert (f : sfield) (v : Z) : Z :=
  match f with
  | so_type | so_options | so_linger | so_state | so_q0len | so_qlen | so_qlimit | so_timeo
  | so_snd_timeo | so_rcv_timeo => s16 v
  | so_error => u16 v
  | so_pgid => s32 v
  | so_pcb | so_head | so_q0 | so_q | so_oobmark => u32 v
  end.

Record socket := Socket
  { fld : sfield → Z; so_proto : protosw; so_rcv : sockbuf; so_snd : sockbuf }.

Definition set_fld (f : sfield) (v : Z) (so : socket) : socket :=
  Socket (λ g, if decide (g = f) then convert f v else fld so g) (so_proto so) (so_rcv so) (so_snd so).
Definition set_rcv (sb : sockbuf) (so : socket) : socket := Socket (fld so) (so_proto so) sb (so_snd so).
Definition set_snd (sb : sockbuf) (so : socket) : socket := Socket (fld so) (so_proto so) (so_rcv so) sb.

(** A cleared buffer and a cleared socket. *)
Definition no_buffer : sockbuf := SB 0 0 0 0 0 [] 0.
Definition no_socket (pr : protosw) : socket := Socket (λ _, 0) pr no_buffer no_buffer.

(** The channels threads sleep on: [so_timeo] and the counts of the buffers. *)
Inductive chan := Timeo (so : Z) | RcvCc (so : Z) | SndCc (so : Z).

(** The sockets, the mbuf layer and the wakeups issued so far. *)
Record world := World { socks : gmap Z socket; ms : Mbuf.mstate; wakeups : list chan }.

Definition set_socks (h : gmap Z socket) (w : world) : world := World h (ms w) (wakeups w).

Definition deref (p : Z) : M world socket := λ w,
  match socks w !! p with Some so => Ok (so, w) | None => Crash end.
Definition mod_so (p : Z) (g : socket → socket) : M world () := λ w,
  match socks w !! p with Some _ => Ok ((), set_socks (alter g p (socks w)) w) | None => Crash end.
Definition rd (f : sfield) (p : Z) : M world Z := let! so := deref p in ret (fld so f).
Definition wr (f : sfield) (p v : Z) : M world () := mod_so p (set_fld f v).
Definition orflag (f : sfield) (p b : Z) : M world () := let! v := rd f p in wr f p (Z.lor v b).
Definition clrflag (f : sfield) (p b : Z) : M world () := let! v := rd f p in wr f p (Z.land v (Z.lnot b)).
Definition testflag (f : sfield) (p b : Z) : M world bool := let! v := rd f p in ret (ztrue (Z.land v b)).
Definition wakeup (c : chan) : M world () := modify (λ w, World (socks w) (ms w) (wakeups w ++ [c])).
Definition low {A} (m : M Mbuf.mstate A) : M world A := λ w,
  match m (ms w) with
  | Ok (a, s) => Ok (a, World (socks w) s (wakeups w)) | Panic => Panic | Crash => Crash
  end.
Definition FREE (p : Z) : M world () := modify (λ w, set_socks (delete p (socks w)) w).

(** ** Wakeups and the state of a socket (uipc_socket2.c) *)

Definition sorwakeup (p : Z) : M world () :=
  let! so := deref p in
  let '(sb, woken) := sowakeup (so_rcv so) in
  do! mod_so p (set_rcv sb) in
  if woken : bool then wakeup (RcvCc p) else ret ().
Definition sowwakeup (p : Z) : M world () :=
  let! so := deref p in
  let '(sb, woken) := sowakeup (so_snd so) in
  do! mod_so p (set_snd sb) in
  if woken : bool then wakeup (SndCc p) else ret ().

Definition soisconnecting (so : Z) : M world () :=
  do! clrflag so_state so (Z.lor TcpConn.SS_ISCONNECTED TcpConn.SS_ISDISCONNECTING) in
  orflag so_state so TcpConn.SS_ISCONNECTING.

(** The links and the counts of the two queues. *)
Definition link (q : Z) : sfield := if q =? 0 then so_q0 else so_q.
Definition qcount (q : Z) : sfield := if q =? 0 then so_q0len else so_qlen.

(** The loop of [soqinsque]: the socket whose link ends the queue. *)
Fixpoint last_link (fuel : nat) (q prev : Z) : M world Z :=
  let! next := rd (link q) prev in
  if next =? 0 then ret prev
  else match fuel with O => crash | S fuel => last_link fuel q next end.

Definition soqinsque (head so q : Z) : M world () :=
  do! wr so_head so head in
  let! n := rd (qcount q) head in
  do! wr (qcount q) head (n + 1) in
  do! wr (link q) so 0 in
  let! w := get in
  let! prev := last_link (size (socks w)) q head in
  wr (link q) prev so.

(** The loop of [soqremque]: the socket whose link is [so]. *)
Fixpoint find_prev (fuel : nat) (q so prev : Z) : M world (option Z) :=
  let! next := rd (link q) prev in
  if next =? so then ret (Some prev)
  else if next =? 0 then ret None
  else match fuel with O => crash | S fuel => find_prev fuel q so next end.

Definition soqremque (so q : Z) : M world Z :=
  let! head := rd so_head so in
  let! w := get in
  let! prev := find_prev (size (socks w)) q so head in
  match prev with
  | None => ret 0
  | Some prev =>
      let! next := rd (link q) so in
      do! wr (link q) prev next in
      let! n := rd (qcount q) head in
      do! wr (qcount q) head (n - 1) in
      do! wr so_q so 0 in
      do! wr so_q0 so 0 in
      do! wr so_head so 0 in
      ret 1
  end.

Definition soisconnected (so : Z) : M world () :=
  let! head := rd so_head so in
  do! clrflag so_state so (Z.lor (Z.lor TcpConn.SS_ISCONNECTING TcpConn.SS_ISDISCONNECTING) TcpConn.SS_ISCONFIRMING) in
  do! orflag so_state so TcpConn.SS_ISCONNECTED in
  let! moved := (if ztrue head then soqremque so 0 else ret 0) in
  if ztrue moved then
    do! soqinsque head so 1 in
    do! sorwakeup head in
    wakeup (Timeo head)
  else
    do! wakeup (Timeo so) in
    do! sorwakeup so in
    sowwakeup so.

Definition soisdisconnecting (so : Z) : M world () :=
  do! clrflag so_state so TcpConn.SS_ISCONNECTING in
  do! orflag so_state so
    (Z.lor (Z.lor TcpConn.SS_ISDISCONNECTING TcpConn.SS_CANTRCVMORE) TcpConn.SS_CANTSENDMORE) in
  do! wakeup (Timeo so) in
  do! sowwakeup so in
  sorwakeup so.

Definition soisdisconnected (so : Z) : M world () :=
  do! clrflag so_state so
    (Z.lor (Z.lor TcpConn.SS_ISCONNECTING TcpConn.SS_ISCONNECTED) TcpConn.SS_ISDISCONNECTING) in
  do! orflag so_state so (Z.lor TcpConn.SS_CANTRCVMORE TcpConn.SS_CANTSENDMORE) in
  do! wakeup (Timeo so) in
  do! sowwakeup so in
  sorwakeup so.

Definition socantsendmore (so : Z) : M world () :=
  do! orflag so_state so TcpConn.SS_CANTSENDMORE in sowwakeup so.
Definition socantrcvmore (so : Z) : M world () :=
  do! orflag so_state so TcpConn.SS_CANTRCVMORE in sorwakeup so.

(** ** Operations (uipc_socket.c)

    The protocol answers requests through [usrreq pr req so]; [sb_max] is the limit of
    a buffer, [malloc] the allocator of sockets, [sb_lock] waits for the lock of a
    buffer, [tsleep] sleeps on a channel while the other threads run. *)

Section Ops.
Context (usrreq : protosw → Z → Z → M world Z) (sb_max : Z) (malloc : gmap Z socket → option Z)
  (sb_lock : sockbuf → sockbuf * Z) (tsleep : chan → M world Z) (sleeps : nat).

Definition request (req so : Z) : M world Z :=
  let! s := deref so in usrreq (so_proto s) req so.

(** One unit of fuel per record of the buffer and one more. *)
Definition flush_fuel (sb : sockbuf) : nat := S (length (sb_mb sb)).

(** [sorflush]; no domain of the port disposes of access rights. *)
Definition sorflush (so : Z) : M world () :=
  do! mod_so so (λ s, set_rcv (with_flags (Z.lor (sb_flags (so_rcv s)) SB_NOINTR) (so_rcv s)) s) in
  do! mod_so so (λ s, set_rcv (sblock sb_lock (so_rcv s) M_WAITOK).1 s) in
  do! socantrcvmore so in
  do! mod_so so (λ s, set_rcv (sbunlock (so_rcv s)).1 s) in
  let! s := deref so in
  let asb := so_rcv s in
  do! mod_so so (λ s, set_fld so_rcv_timeo 0 (set_rcv no_buffer s)) in
  do! low (sbrelease (flush_fuel asb) asb) in
  ret ().

(** The end of [sofree]: the buffers and the socket itself. *)
Definition release (so : Z) : M world () :=
  let! s := deref so in
  let! snd := low (sbrelease (flush_fuel (so_snd s)) (so_snd s)) in
  do! mod_so so (set_snd snd) in
  do! sorflush so in
  FREE so.

Definition sofree (so : Z) : M world () :=
  let! pcb := rd so_pcb so in
  let! nofd := testflag so_state so TcpConn.SS_NOFDREF in
  if ztrue pcb || negb nofd then ret ()
  else
    let! head := rd so_head so in
    do! (if ztrue head then
           let! r := soqremque so 0 in
           let! r := (if ztrue r then ret r else soqremque so 1) in
           if ztrue r then wr so_head so 0 else panic
         else ret ()) in
    release so.

(** The socket [sonewconn1] makes for a connection to [h]. *)
Definition newconn_socket (h : socket) : socket :=
  let s := no_socket (so_proto h) in
  let s := set_fld so_type (fld h so_type) s in
  let s := set_fld so_options (Z.land (fld h so_options) (Z.lnot TcpConn.SO_ACCEPTCONN)) s in
  let s := set_fld so_linger (fld h so_linger) s in
  let s := set_fld so_state (Z.lor (fld h so_state) TcpConn.SS_NOFDREF) s in
  let s := set_fld so_timeo (fld h so_timeo) s in
  set_fld so_pgid (fld h so_pgid) s.

(** The end of [sonewconn1], once the socket is queued. *)
Definition newconn_attach (head so connstatus : Z) : M world Z :=
  let! error := request PRU_ATTACH so in
  if ztrue error then
    do! soqremque so (if ztrue connstatus then 1 else 0) in
    do! FREE so in
    ret 0
  else
    do! (if ztrue connstatus then
           do! sorwakeup head in
           do! wakeup (Timeo head) in
           orflag so_state so connstatus
         else ret ()) in
    ret so.

Definition sonewconn1 (head connstatus : Z) : M world Z :=
  let soqueue := if ztrue connstatus then 1 else 0 in
  let! h := deref head in
  if 3 * fld h so_qlimit `quot` 2 <? fld h so_qlen + fld h so_q0len then ret 0
  else
    let! w := get in
    match malloc (socks w) with
    | None => ret 0
    | Some so =>
        let s := newconn_socket h in
        do! modify (λ w, set_socks (<[so := s]> (socks w)) w) in
        let! r := low (soreserve sb_max (flush_fuel (so_snd s)) (so_snd s) (so_rcv s)
                         (sb_hiwat (so_snd h)) (sb_hiwat (so_rcv h))) in
        do! mod_so so (λ s, set_rcv r.1.2 (set_snd r.1.1 s)) in
        do! soqinsque head so soqueue in
        newconn_attach head so connstatus
    end.

(** [socreate]; the result is an error, or 0 and the address of the socket.  An
    allocation that may wait does not fail. *)
Definition socreate (domains : list domain) (suser : bool) (dom type proto : Z) : M world (Z * Z) :=
  match (if ztrue proto then pffindproto domains dom proto type else pffindtype domains dom type) with
  | None => ret (EPROTONOSUPPORT, 0)
  | Some prp =>
      if negb (pr_usrreq prp) then ret (EPROTONOSUPPORT, 0)
      else if negb (pr_type prp =? type) then ret (EPROTOTYPE, 0)
      else
        let! w := get in
        let! so := lift (malloc (socks w)) in
        let s := set_fld so_type type (no_socket prp) in
        let s := if suser then set_fld so_state SS_PRIV s else s in
        do! modify (λ w, set_socks (<[so := s]> (socks w)) w) in
        let! error := usrreq prp PRU_ATTACH so in
        if ztrue error then
          do! orflag so_state so TcpConn.SS_NOFDREF in
          do! sofree so in
          ret (error, 0)
        else ret (0, so)
  end.

Definition sobind (so : Z) : M world Z := request PRU_BIND so.

Definition solisten (so backlog : Z) : M world Z :=
  let! error := request PRU_LISTEN so in
  if ztrue error then ret error
  else
    let! q := rd so_q so in
    do! (if q =? 0 then orflag so_options so TcpConn.SO_ACCEPTCONN else ret ()) in
    let backlog := if backlog <? 0 then 0 else backlog in
    do! wr so_qlimit so (Z.min backlog SOMAXCONN) in
    ret 0.

Definition soabort (so : Z) : M world Z := request PRU_ABORT so.

(** The loops of [soclose] that drop the queued sockets. *)
Fixpoint abort_queue (fuel : nat) (so q : Z) : M world () :=
  let! first := rd (link q) so in
  if ztrue first then
    match fuel with
    | O => crash
    | S fuel => do! soabort first in abort_queue fuel so q
    end
  else ret ().

Definition sodisconnect (so : Z) : M world Z :=
  let! connected := testflag so_state so TcpConn.SS_ISCONNECTED in
  if negb connected then ret ENOTCONN
  else
    let! disconnecting := testflag so_state so TcpConn.SS_ISDISCONNECTING in
    if disconnecting : bool then ret EALREADY else request PRU_DISCONNECT so.

(** The linger loop of [soclose]: [sleeps] bounds the sleeps. *)
Fixpoint linger_loop (n : nat) (so : Z) : M world Z :=
  let! connected := testflag so_state so TcpConn.SS_ISCONNECTED in
  if negb connected then ret 0
  else match n with
       | O => crash
       | S n => let! error := tsleep (Timeo so) in if ztrue error then ret error else linger_loop n so
       end.

(** [soclose] up to the label [drop]: [None] jumps there with an error of its own. *)
Definition close_disconnect (so : Z) : M world Z :=
  let! connected := testflag so_state so TcpConn.SS_ISCONNECTED in
  if negb connected then ret 0
  else
    let! disconnecting := testflag so_state so TcpConn.SS_ISDISCONNECTING in
    let! error := (if disconnecting : bool then ret 0 else sodisconnect so) in
    if ztrue error then ret error
    else
      let! linger := testflag so_options so TcpConn.SO_LINGER in
      if negb linger then ret 0
      else
        let! disconnecting := testflag so_state so TcpConn.SS_ISDISCONNECTING in
        let! nbio := testflag so_state so SS_NBIO in
        if (disconnecting : bool) && nbio then ret 0 else linger_loop sleeps so.

Definition soclose (so : Z) : M world Z :=
  let! accept := testflag so_options so TcpConn.SO_ACCEPTCONN in
  let! w := get in
  do! (if accept : bool then
         do! abort_queue (size (socks w)) so 0 in abort_queue (size (socks w)) so 1
       else ret ()) in
  let! pcb := rd so_pcb so in
  let! error :=
    (if ztrue pcb then
       let! error := close_disconnect so in
       let! pcb := rd so_pcb so in
       if ztrue pcb then
         let! error2 := request PRU_DETACH so in
         ret (if error =? 0 then error2 else error)
       else ret error
     else ret 0) in
  let! nofd := testflag so_state so TcpConn.SS_NOFDREF in
  if nofd : bool then panic
  else
    do! orflag so_state so TcpConn.SS_NOFDREF in
    do! sofree so in
    ret error.

Definition soaccept (so : Z) : M world Z :=
  let! nofd := testflag so_state so TcpConn.SS_NOFDREF in
  if negb nofd then panic
  else
    do! clrflag so_state so TcpConn.SS_NOFDREF in
    request PRU_ACCEPT so.

Definition soconnect (so : Z) : M world Z :=
  let! accept := testflag so_options so TcpConn.SO_ACCEPTCONN in
  if accept : bool then ret EOPNOTSUPP
  else
    let! busy := testflag so_state so (Z.lor TcpConn.SS_ISCONNECTED TcpConn.SS_ISCONNECTING) in
    let! s := deref so in
    let! refused :=
      (if busy : bool then
         if ztrue (Z.land (pr_flags (so_proto s)) PR_CONNREQUIRED) then ret true
         else let! error := sodisconnect so in ret (ztrue error)
       else ret false) in
    if refused : bool then ret TcpConn.EISCONN else request PRU_CONNECT so.

(** [soconnect2]; the second socket is an argument of the request. *)
Definition soconnect2 (so1 : Z) : M world Z := request PRU_CONNECT2 so1.

Definition soshutdown (so how : Z) : M world Z :=
  let how := s32 (how + 1) in
  do! (if ztrue (Z.land how FREAD) then sorflush so else ret ()) in
  if ztrue (Z.land how FWRITE) then request PRU_SHUTDOWN so else ret 0.

(** The sleep of [accept]: until a connection is complete or the socket has an
    error.  The result is the error of the sleep. *)
Fixpoint accept_wait (n : nat) (so : Z) : M world Z :=
  let! qlen := rd so_qlen so in
  let! error := rd so_error so in
  if (qlen =? 0) && (error =? 0) then
    let! cantrcv := testflag so_state so TcpConn.SS_CANTRCVMORE in
    if cantrcv : bool then do! wr so_error so TcpConn.ECONNABORTED in ret 0
    else match n with
         | O => crash
         | S n => let! error := tsleep (Timeo so) in if ztrue error then ret error else accept_wait n so
         end
  else ret 0.

(** The system call [accept] (uipc_syscalls.c) from the socket of the descriptor to
    the socket it returns, with [soaccept] for it. *)
Definition accept (so : Z) : M world (Z * Z) :=
  let! acc := testflag so_options so TcpConn.SO_ACCEPTCONN in
  if negb acc then ret (TcpConn.EINVAL, 0)
  else
    let! nbio := testflag so_state so SS_NBIO in
    let! qlen := rd so_qlen so in
    if (nbio : bool) && (qlen =? 0) then ret (EWOULDBLOCK, 0)
    else
      let! error := accept_wait sleeps so in
      if ztrue error then ret (error, 0)
      else
        let! error := rd so_error so in
        if ztrue error then do! wr so_error so 0 in ret (error, 0)
        else
          let! aso := rd so_q so in
          let! r := soqremque aso 1 in
          if r =? 0 then panic
          else
            do! soaccept aso in
            ret (0, aso).

End Ops.

(** ** The accept queues

    [rdf h p f] is the field [f] of the socket at [p]. *)

Definition rdf (h : gmap Z socket) (p : Z) (f : sfield) : option Z := (λ so, fld so f) <$> h !! p.
Definition upd (p : Z) (f : sfield) (v : Z) (h : gmap Z socket) : gmap Z socket := alter (set_fld f v) p h.

Lemma rdf_upd h p f v p' g :
  rdf (upd p f v h) p' g = if decide (p' = p ∧ g = f) then (λ _, convert f v) <$> h !! p else rdf h p' g.
Proof.
  unfold rdf, upd. destruct (decide (p' = p)) as [->|Hp].
  - rewrite lookup_alter_eq, <- option_fmap_compose. destruct (decide (p = p ∧ g = f)) as [[_ ->]|Hg].
    + apply option_fmap_ext. intros so. unfold compose, set_fld. cbn [fld]. by rewrite decide_True by done.
    + apply option_fmap_ext. intros so. unfold compose, set_fld. cbn [fld]. rewrite decide_False; [done|].
      intros ->. by apply Hg.
  - rewrite lookup_alter_ne by done. rewrite decide_False by (by intros [? ?]). done.
Qed.

Lemma rdf_Some_lookup h p f v : rdf h p f = Some v → is_Some (h !! p).
Proof. unfold rdf. destruct (h !! p); [by eexists|done]. Qed.

Lemma rdf_some h p f g v : rdf h p f = Some v → ∃ v', rdf h p g = Some v'.
Proof. unfold rdf. destruct (h !! p); [by eexists|done]. Qed.

Lemma wp_rd f p v w Q : rdf (socks w) p f = Some v → Q v w → wp (rd f p) w Q.
Proof. unfold rdf, rd, wp, bind, deref. destruct (socks w !! p); cbn; [by intros [= ->]|done]. Qed.

Lemma wp_wr f p v w (Q : () → world → Prop) :
  is_Some (socks w !! p) → Q () (set_socks (upd p f v (socks w)) w) → wp (wr f p v) w Q.
Proof. intros [so E]. unfold wr, mod_so, wp. by rewrite E. Qed.

(** A list of sockets linked through the field [f]: [p] points to the first, the
    last points to [e]. *)
Fixpoint seg (h : gmap Z socket) (f : sfield) (p : Z) (l : list Z) (e : Z) : Prop :=
  match l with
  | [] => p = e
  | x :: l => p = x ∧ x ≠ 0 ∧ ∃ n, rdf h x f = Some n ∧ seg h f n l e
  end.

Lemma seg_app h f p l1 l2 e : seg h f p (l1 ++ l2) e ↔ ∃ m, seg h f p l1 m ∧ seg h f m l2 e.
Proof.
  revert p. induction l1 as [|x l1 IH]; intros p; cbn.
  - split; [by exists p|]. by intros (m & -> & H).
  - setoid_rewrite IH. split.
    + intros (-> & H0 & n & Hn & m & H1 & H2). exists m. split; [|done]. split_and!; [done|done|]. by exists n.
    + intros (m & (-> & H0 & n & Hn & H1) & H2). split_and!; [done|done|]. exists n. split; [done|]. by exists m.
Qed.

Lemma seg_frame h h' f p l e :
  (∀ x, x ∈ l → rdf h' x f = rdf h x f) → seg h f p l e → seg h' f p l e.
Proof.
  revert p. induction l as [|x l IH]; intros p Hf; cbn; [done|].
  intros (-> & H0 & n & Hn & Hs). split_and!; [done|done|]. exists n. rewrite Hf by set_solver.
  split; [done|]. apply IH; [set_solver|done].
Qed.

Lemma seg_lookup h f p l e x : seg h f p l e → x ∈ l → x ≠ 0 ∧ is_Some (h !! x).
Proof.
  revert p. induction l as [|y l IH]; intros p; cbn; [set_solver|].
  intros (-> & H0 & n & Hn & Hs) [->|Hx]%elem_of_cons; [|by eapply IH].
  split; [done|]. by eapply rdf_Some_lookup.
Qed.

(** A duplicate-free segment is no longer than the heap is large. *)
Lemma seg_size h f p l e : NoDup l → seg h f p l e → (length l <= size h)%nat.
Proof.
  intros Hn Hs. rewrite <- (size_dom h), <- (size_list_to_set (C := gset Z) l) by done.
  apply subseteq_size. intros x Hx%elem_of_list_to_set. apply elem_of_dom. by eapply seg_lookup.
Qed.

Lemma last_link_spec fuel q w d l :
  seg (socks w) (link q) d (d :: l) 0 → (length l <= fuel)%nat →
  wp (last_link fuel q d) w (λ y w', w' = w ∧ last (d :: l) = Some y).
Proof.
  revert fuel d. induction l as [|x l IH]; intros fuel d (_ & H0 & n & Hn & Hs) Hl; cbn in Hs.
  - subst n. destruct fuel; cbn [last_link]; wp_step; (eapply wp_rd; [done|]); by rewrite Z.eqb_refl.
  - destruct Hs as (-> & Hx & m & Hm & Hs). destruct fuel as [|fuel]; [cbn in Hl; lia|].
    cbn [last_link]. wp_step. eapply wp_rd; [done|]. rewrite (proj2 (Z.eqb_neq x 0)) by done.
    eapply wp_mono; [apply IH; [|cbn in Hl; lia]|].
    + cbn. split_and!; [done|done|]. by exists m.
    + intros y w' [-> Hy]. split; [done|]. by rewrite <- Hy.
Qed.

Lemma find_prev_spec fuel q w so d l :
  so ≠ 0 → seg (socks w) (link q) d (d :: l) 0 → (length l <= fuel)%nat →
  wp (find_prev fuel q so d) w (λ r w', w' = w ∧
    match r with
    | Some y => ∃ l1 l2, l = l1 ++ so :: l2 ∧ (so ∉ l1) ∧ last (d :: l1) = Some y
    | None => so ∉ l
    end).
Proof.
  intros Hso. revert fuel d. induction l as [|x l IH]; intros fuel d (_ & H0 & n & Hn & Hs) Hl; cbn in Hs.
  - subst n. destruct fuel; cbn [find_prev]; wp_step; (eapply wp_rd; [done|]);
      rewrite (proj2 (Z.eqb_neq 0 so)), Z.eqb_refl by done; apply wp_ret; (split; [done|apply not_elem_of_nil]).
  - destruct Hs as (-> & Hx & m & Hm & Hs). destruct fuel as [|fuel]; [cbn in Hl; lia|].
    cbn [find_prev]. wp_step. eapply wp_rd; [done|]. destruct (x =? so) eqn:E; zbool.
    { subst x. apply wp_ret. split; [done|]. exists [], l. split_and!; [done|apply not_elem_of_nil|done]. }
    rewrite (proj2 (Z.eqb_neq x 0)) by done.
    eapply wp_mono; [apply IH; [|cbn in Hl; lia]|].
    + cbn. split_and!; [done|done|]. by exists m.
    + intros [y|] w' [-> Hy]; (split; [done|]).
      * destruct Hy as (l1 & l2 & -> & Hn1 & Hy). exists (x :: l1), l2. split_and!; [done| |by rewrite <- Hy].
        apply not_elem_of_cons. split; [congruence|done].
      * apply not_elem_of_cons. split; [congruence|done].
Qed.

(** The specification: every socket that is on no queue has the list of its
    connections in progress and the list of those ready to be accepted. *)
Abbreviation queues := (gmap Z (list Z * list Z)).

(** The queues of the socket [d] are [l0] and [l1]. *)
Record head_ok (h : gmap Z socket) (d : Z) (l0 l1 : list Z) : Prop := HeadOk
  { ho_head : rdf h d so_head = Some 0;
    ho_q0 : seg h so_q0 d (d :: l0) 0; ho_q : seg h so_q d (d :: l1) 0;
    ho_q0len : rdf h d so_q0len = Some (Z.of_nat (length l0));
    ho_qlen : rdf h d so_qlen = Some (Z.of_nat (length l1));
    ho_nodup : NoDup (l0 ++ l1);
    ho_member : ∀ x, x ∈ l0 ++ l1 → rdf h x so_head = Some d }.

(** A heap stands for [A]: the sockets of [A] have their queues, every socket is
    either in [A] or on a queue of its head. *)
Record repr (h : gmap Z socket) (A : queues) : Prop := Repr
  { rp_head : ∀ d l0 l1, A !! d = Some (l0, l1) → head_ok h d l0 l1;
    rp_addr : ∀ p d, rdf h p so_head = Some d → 0 < p < 4294967296;
    rp_all : ∀ p d, rdf h p so_head = Some d →
      if decide (d = 0) then is_Some (A !! p) else ∃ l0 l1, A !! d = Some (l0, l1) ∧ p ∈ l0 ++ l1;
    rp_leaf : ∀ p d f, rdf h p so_head = Some d → d ≠ 0 → f = so_q0len ∨ f = so_qlen → rdf h p f = Some 0 }.

(** The fields the queues are made of. *)
Definition queue_field (f : sfield) : Prop := f ∈ [so_head; so_q0; so_q; so_q0len; so_qlen].

#[export] Instance queue_field_dec f : Decision (queue_field f).
Proof. unfold queue_field. apply _. Defined.

Definition same_queues (h h' : gmap Z socket) : Prop :=
  ∀ p f, queue_field f → rdf h' p f = rdf h p f.

#[export] Instance same_queues_equiv : Equivalence same_queues.
Proof.
  split; [done| |].
  - intros h h' H p f Hf. by rewrite H.
  - intros h1 h2 h3 H1 H2 p f Hf. by rewrite H2, H1.
Qed.

Lemma head_ok_frame h h' d l0 l1 :
  (∀ p f, p ∈ d :: l0 ++ l1 → queue_field f → rdf h' p f = rdf h p f) → head_ok h d l0 l1 → head_ok h' d l0 l1.
Proof.
  intros Hf [H1 H2 H3 H4 H5 H6 H7].
  assert (Hq : ∀ f, f ∈ [so_head; so_q0; so_q; so_q0len; so_qlen] → queue_field f) by done.
  constructor; [| | | | |done|].
  - rewrite Hf; [done|set_solver|apply Hq; set_solver].
  - eapply seg_frame; [|exact H2]. intros x Hx. apply Hf; [set_solver|apply Hq; set_solver].
  - eapply seg_frame; [|exact H3]. intros x Hx. apply Hf; [set_solver|apply Hq; set_solver].
  - rewrite Hf; [done|set_solver|apply Hq; set_solver].
  - rewrite Hf; [done|set_solver|apply Hq; set_solver].
  - intros x Hx. rewrite Hf; [by apply H7|set_solver|apply Hq; set_solver].
Qed.

#[export] Instance repr_proper : Proper (same_queues ==> (=) ==> iff) repr.
Proof.
  assert (Hi : ∀ h h' A, same_queues h h' → repr h A → repr h' A).
  { intros h h' A Hs [H1 H2 H3 H4].
    assert (Hh : ∀ p, rdf h' p so_head = rdf h p so_head) by (intros p; apply Hs; unfold queue_field; set_solver).
    constructor.
    - intros d l0 l1 HA. eapply head_ok_frame; [|by apply H1]. intros p f _. apply Hs.
    - intros p d. rewrite Hh. apply H2.
    - intros p d. rewrite Hh. apply H3.
    - intros p d f. rewrite Hh. intros Hp Hd Hf. rewrite Hs; [by eapply H4|].
      unfold queue_field. destruct Hf as [-> | ->]; set_solver. }
  intros h h' Hs A ? <-. split; apply Hi; [done|by symmetry].
Qed.

(** Writing a field outside the queues. *)
Lemma same_queues_upd p f v h : ¬ queue_field f → same_queues h (upd p f v h).
Proof. intros Hf p' g Hg. rewrite rdf_upd, decide_False; [done|]. intros [_ ->]. done. Qed.

(** Sockets of different heads are different. *)
Lemma repr_member h A d l0 l1 x : repr h A → A !! d = Some (l0, l1) → x ∈ l0 ++ l1 →
  A !! x = None ∧ d ≠ 0 ∧ ∀ d' l0' l1', A !! d' = Some (l0', l1') → x ∈ d' :: l0' ++ l1' → d' = d.
Proof.
  intros Hr HA Hx. destruct (rp_head _ _ Hr _ _ _ HA) as [Hd _ _ _ _ _ Hm].
  assert (Hx0 : rdf h x so_head = Some d) by by apply Hm.
  assert (d ≠ 0) by (apply (rp_addr _ _ Hr) in Hd; lia).
  assert (Hn : A !! x = None).
  { destruct (A !! x) as [[m0 m1]|] eqn:E; [|done]. apply (rp_head _ _ Hr) in E as [E _ _ _ _ _ _]. congruence. }
  split_and!; [done|done|]. intros d' l0' l1' HA' [->|Hx']%elem_of_cons; [congruence|].
  apply (rp_head _ _ Hr) in HA' as [_ _ _ _ _ _ Hm']. apply Hm' in Hx'. congruence.
Qed.

Lemma seg_snoc h h' f d l x y :
  seg h f d (d :: l) 0 → last (d :: l) = Some y → NoDup (d :: l) → x ∉ d :: l → x ≠ 0 →
  rdf h' y f = Some x → rdf h' x f = Some 0 → (∀ p, p ≠ y → p ≠ x → rdf h' p f = rdf h p f) →
  seg h' f d (d :: l ++ [x]) 0.
Proof.
  intros Hs [l' E]%last_Some Hn Hx H0 Hy Hx' Hf.
  change (d :: l ++ [x]) with ((d :: l) ++ [x]). rewrite E in *.
  apply seg_app in Hs as (m & Hs & (-> & Hy0 & n & _ & _)).
  apply NoDup_app in Hn as (_ & Hn & _).
  apply seg_app. exists x. split; [|by split_and!; [..|exists 0]].
  apply seg_app. exists y. split; [|by split_and!; [..|exists x]].
  eapply seg_frame; [|exact Hs]. intros p Hp. apply Hf.
  - intros ->. by apply Hn in Hp as []%not_elem_of_cons.
  - intros ->. apply Hx. set_solver.
Qed.

Lemma seg_remove h h' f d l1 l2 x y n :
  seg h f d (d :: l1 ++ x :: l2) 0 → last (d :: l1) = Some y → NoDup (d :: l1 ++ x :: l2) →
  rdf h x f = Some n → rdf h' y f = Some n → (∀ p, p ≠ y → p ≠ x → rdf h' p f = rdf h p f) →
  seg h' f d (d :: l1 ++ l2) 0.
Proof.
  intros Hs [l' E]%last_Some Hn Hx Hy Hf.
  change (d :: l1 ++ x :: l2) with ((d :: l1) ++ x :: l2) in *.
  change (d :: l1 ++ l2) with ((d :: l1) ++ l2). rewrite E in *. clear E l1.
  apply seg_app in Hs as (m & Hs & (-> & Hx0 & n' & Hn' & Hs2)).
  assert (n' = n) as -> by congruence.
  apply seg_app in Hs as (m & Hs & (-> & Hy0 & _ & _ & _)).
  rewrite <- app_assoc in Hn. apply NoDup_app in Hn as (_ & Hn1 & [Hn2 Hn3]%NoDup_cons).
  apply NoDup_cons in Hn3 as [Hn3 _].
  apply seg_app. exists n. split.
  - apply seg_app. exists y. split; [|by split_and!; [..|exists n]].
    eapply seg_frame; [|exact Hs]. intros p Hp. apply Hn1 in Hp. apply Hf; intros ->; set_solver.
  - eapply seg_frame; [|exact Hs2]. intros p Hp. apply Hf; intros ->; set_solver.
Qed.

(** Adding a socket to the end of a queue, on the lists. *)
Definition enq (q x : Z) (ls : list Z * list Z) : list Z * list Z :=
  if q =? 0 then (ls.1 ++ [x], ls.2) else (ls.1, ls.2 ++ [x]).
Definition on_queue (q : Z) (ls : list Z * list Z) : list Z := if q =? 0 then ls.1 else ls.2.

Lemma link_not_head q : link q ≠ so_head.
Proof. unfold link. by destruct (q =? 0). Qed.

Lemma link_not_count q q' : link q ≠ qcount q'.
Proof. unfold link, qcount. by destruct (q =? 0), (q' =? 0). Qed.

Lemma count_not_head q : qcount q ≠ so_head.
Proof. unfold qcount. by destruct (q =? 0). Qed.

Lemma head_ok_queue h d ls q : head_ok h d ls.1 ls.2 →
  seg h (link q) d (d :: on_queue q ls) 0 ∧ rdf h d (qcount q) = Some (Z.of_nat (length (on_queue q ls))).
Proof. intros [? ? ? ? ? ? ?]. unfold link, qcount, on_queue. by destruct (q =? 0). Qed.

Lemma head_nodup h d l0 l1 : d ≠ 0 → head_ok h d l0 l1 → NoDup (d :: l0) ∧ NoDup (d :: l1).
Proof.
  intros Hd [H1 _ _ _ _ H6 H7]. apply NoDup_app in H6 as (H61 & H62 & H63).
  split; (apply NoDup_cons; split; [|done]); intros Hx.
  all: assert (rdf h d so_head = Some d) by (apply H7; set_solver); congruence.
Qed.

Lemma elem_of_enq q x ls p : p ∈ (enq q x ls).1 ++ (enq q x ls).2 ↔ p = x ∨ p ∈ ls.1 ++ ls.2.
Proof. unfold enq. destruct (q =? 0); cbn; set_solver. Qed.

Lemma NoDup_enq q x ls : x ∉ ls.1 ++ ls.2 → NoDup (ls.1 ++ ls.2) → NoDup ((enq q x ls).1 ++ (enq q x ls).2).
Proof.
  intros Hx Hn. apply (NoDup_Permutation_proper _ (x :: ls.1 ++ ls.2)); [|by apply NoDup_cons].
  unfold enq. destruct (q =? 0); cbn; solve_Permutation.
Qed.

(** What [soqinsque] makes of the links. *)
Record enqueued (q d x y n : Z) (h h' : gmap Z socket) : Prop := Enqueued
  { en_head : ∀ p, rdf h' p so_head = if decide (p = x) then Some d else rdf h p so_head;
    en_link : ∀ p, rdf h' p (link q) =
      if decide (p = y) then Some x else if decide (p = x) then Some 0 else rdf h p (link q);
    en_count : ∀ p, rdf h' p (qcount q) = if decide (p = d) then Some (n + 1) else rdf h p (qcount q);
    en_rest : ∀ p f, f ∉ [so_head; link q; qcount q] → rdf h' p f = rdf h p f }.

Lemma enqueued_other q d x y n h h' p f :
  enqueued q d x y n h h' → p ∉ [d; x; y] → rdf h' p f = rdf h p f.
Proof.
  intros [H1 H2 H3 H4] Hp. apply not_elem_of_cons in Hp as [Hd [Hx [Hy _]%not_elem_of_cons]%not_elem_of_cons].
  destruct (decide (f ∈ [so_head; link q; qcount q])) as [Hf|Hf]; [|by apply H4].
  apply elem_of_cons in Hf as [->|[->|[->|[]%not_elem_of_nil]%elem_of_cons]%elem_of_cons].
  - by rewrite H1, decide_False.
  - by rewrite H2, !decide_False.
  - by rewrite H3, decide_False.
Qed.

Lemma enqueue_head_ok q h h' d x y ls :
  d ≠ 0 → x ≠ 0 → x ≠ d → x ∉ ls.1 ++ ls.2 → head_ok h d ls.1 ls.2 → is_Some (h !! x) →
  last (d :: on_queue q ls) = Some y → enqueued q d x y (Z.of_nat (length (on_queue q ls))) h h' →
  head_ok h' d (enq q x ls).1 (enq q x ls).2.
Proof.
  intros Hd0 Hx0 Hxd Hx Hh Hxs Hy He. pose proof (head_nodup _ _ _ _ Hd0 Hh) as [Hn0 Hn1].
  destruct (head_ok_queue h d ls q Hh) as [Hs Hc].
  assert (Hyx : y ≠ x) by (intros ->; apply last_Some_elem_of in Hy; revert Hy; unfold on_queue; destruct (q =? 0); set_solver).
  assert (Hs' : seg h' (link q) d (d :: on_queue q ls ++ [x]) 0).
  { eapply seg_snoc; [exact Hs|exact Hy| | |done|..].
    - unfold on_queue. by destruct (q =? 0).
    - unfold on_queue. destruct (q =? 0); set_solver.
    - by rewrite (en_link _ _ _ _ _ _ _ He), decide_True.
    - by rewrite (en_link _ _ _ _ _ _ _ He), decide_False, decide_True.
    - intros p Hp1 Hp2. by rewrite (en_link _ _ _ _ _ _ _ He), !decide_False. }
  destruct Hh as [H1 H2 H3 H4 H5 H6 H7]. destruct He as [E1 E2 E3 E4].
  constructor.
  - by rewrite E1, decide_False.
  - revert Hs' E4. unfold enq, link, on_queue, qcount. destruct (q =? 0); cbn; [done|].
    intros _ E4. eapply (seg_frame h _ _ _ (_ :: _)); [|exact H2]. intros p _. apply E4. set_solver.
  - revert Hs' E4. unfold enq, link, on_queue, qcount. destruct (q =? 0); cbn; [|done].
    intros _ E4. eapply (seg_frame h _ _ _ (_ :: _)); [|exact H3]. intros p _. apply E4. set_solver.
  - revert E3 E4. unfold enq, link, on_queue, qcount. destruct (q =? 0); cbn; intros E3 E4.
    + rewrite E3, decide_True, length_app by done. do 2 f_equal. cbn. lia.
    + rewrite E4; [done|set_solver].
  - revert E3 E4. unfold enq, link, on_queue, qcount. destruct (q =? 0); cbn; intros E3 E4.
    + rewrite E4; [done|set_solver].
    + rewrite E3, decide_True, length_app by done. do 2 f_equal. cbn. lia.
  - by apply NoDup_enq.
  - intros p [->|Hp]%elem_of_enq; rewrite E1; [by rewrite decide_True|].
    rewrite decide_False by (intros ->; done). by apply H7.
Qed.

Lemma enqueue_repr q h h' A d x y ls :
  repr h A → A !! d = Some ls → A !! x = Some ([], []) → x ≠ d →
  last (d :: on_queue q ls) = Some y → enqueued q d x y (Z.of_nat (length (on_queue q ls))) h h' →
  repr h' (<[d := enq q x ls]> (delete x A)).
Proof.
  intros Hr HA HAx Hxd Hy He. destruct ls as [l0 l1].
  pose proof (rp_head _ _ Hr _ _ _ HA) as Hd. pose proof (rp_head _ _ Hr _ _ _ HAx) as Hx.
  pose proof (rp_addr _ _ Hr _ _ (ho_head _ _ _ _ Hd)). pose proof (rp_addr _ _ Hr _ _ (ho_head _ _ _ _ Hx)).
  assert (Hxn : ∀ d' l0' l1', A !! d' = Some (l0', l1') → x ∉ l0' ++ l1').
  { intros d' l0' l1' HA' Hin. destruct (repr_member _ _ _ _ _ _ Hr HA' Hin) as (Hn & _). congruence. }
  assert (Hyd : y ∈ d :: l0 ++ l1).
  { apply last_Some_elem_of in Hy. revert Hy. unfold on_queue. destruct (q =? 0); set_solver. }
  constructor.
  - intros d' m0 m1. destruct (decide (d' = d)) as [->|Hdd].
    { rewrite lookup_insert_eq. intros [= E]. pose proof (enqueue_head_ok q h h' d x y (l0, l1)) as Hq.
      rewrite E in Hq. apply Hq; [lia|lia|done|by eapply Hxn|done|by eapply rdf_Some_lookup, (ho_head _ _ _ _ Hx)|done|done]. }
    rewrite lookup_insert_ne by done. intros [Hdx HA']%lookup_delete_Some.
    eapply head_ok_frame; [|by apply (rp_head _ _ Hr)]. intros p f Hp _.
    eapply enqueued_other; [exact He|]. apply not_elem_of_cons. split.
    { intros ->. apply elem_of_cons in Hp as [?|Hp]; [done|].
      destruct (repr_member _ _ _ _ _ _ Hr HA' Hp) as (Hn & _). congruence. }
    apply not_elem_of_cons. split; [intros ->; apply elem_of_cons in Hp as [?|Hp]; [congruence|by eapply Hxn]|].
    apply not_elem_of_cons. split; [|apply not_elem_of_nil]. intros ->.
    apply elem_of_cons in Hyd as [->|Hyd].
    + apply elem_of_cons in Hp as [?|Hp]; [done|].
      destruct (repr_member _ _ _ _ _ _ Hr HA' Hp) as (Hn & _). congruence.
    + destruct (repr_member _ _ _ _ _ _ Hr HA Hyd) as (_ & _ & Hu). apply Hdd. by eapply Hu.
  - intros p e. rewrite (en_head _ _ _ _ _ _ _ He). case_decide; [by subst p|apply (rp_addr _ _ Hr)].
  - intros p e. rewrite (en_head _ _ _ _ _ _ _ He). case_decide as Hpx.
    { subst p. intros [= <-]. rewrite decide_False by lia. destruct (enq q x (l0, l1)) as [m0 m1] eqn:E.
      exists m0, m1. rewrite lookup_insert_eq. split; [done|].
      change (x ∈ (m0, m1).1 ++ (m0, m1).2). rewrite <- E. apply elem_of_enq. by left. }
    intros Hp%(rp_all _ _ Hr). case_decide.
    { destruct (decide (p = d)) as [->|]; [by rewrite lookup_insert_eq|].
      by rewrite lookup_insert_ne, lookup_delete_ne. }
    destruct Hp as (m0 & m1 & HA' & Hp). destruct (decide (e = d)) as [->|].
    { assert ((m0, m1) = (l0, l1)) as [= -> ->] by congruence.
      destruct (enq q x (l0, l1)) as [m0 m1] eqn:E. exists m0, m1. rewrite lookup_insert_eq. split; [done|].
      change (p ∈ (m0, m1).1 ++ (m0, m1).2). rewrite <- E. apply elem_of_enq. by right. }
    exists m0, m1. rewrite lookup_insert_ne by done. rewrite lookup_delete_ne; [done|].
    intros ->. rewrite HAx in HA'. injection HA' as <- <-. by apply elem_of_nil in Hp.
  - intros p e f. rewrite (en_head _ _ _ _ _ _ _ He). intros Hp He0 Hf.
    assert (Hpd : p ≠ d).
    { intros ->. rewrite decide_False in Hp by done. pose proof (ho_head _ _ _ _ Hd). congruence. }
    assert (Hpf : rdf h' p f = rdf h p f).
    { destruct (decide (f = qcount q)) as [->|]; [by rewrite (en_count _ _ _ _ _ _ _ He), decide_False|].
      apply (en_rest _ _ _ _ _ _ _ He). pose proof (link_not_count q 0). pose proof (link_not_count q 1).
      rewrite !not_elem_of_cons. destruct Hf as [-> | ->]; split_and!; try done; apply not_elem_of_nil. }
    rewrite Hpf. case_decide; [subst p|by eapply (rp_leaf _ _ Hr)].
    destruct Hf as [-> | ->]; [apply (ho_q0len _ _ _ _ Hx)|apply (ho_qlen _ _ _ _ Hx)].
Qed.

(** Taking a socket off a queue, on the lists. *)
Definition without (x : Z) (l : list Z) : list Z := filter (.≠ x) l.
Definition deq (q x : Z) (ls : list Z * list Z) : list Z * list Z :=
  if q =? 0 then (without x ls.1, ls.2) else (ls.1, without x ls.2).

Lemma without_notin x l : x ∉ l → without x l = l.
Proof. intros Hx. apply filter_all, Forall_forall. intros y Hy ->. done. Qed.

Lemma without_split x l1 l2 : x ∉ l1 → x ∉ l2 → without x (l1 ++ x :: l2) = l1 ++ l2.
Proof.
  intros H1 H2. unfold without. rewrite filter_app, filter_cons_False by (intros H; by apply H).
  rewrite !filter_all; [done| |]; apply Forall_forall; intros y Hy ->; done.
Qed.

Lemma elem_of_deq q x ls p : NoDup (ls.1 ++ ls.2) → x ∈ on_queue q ls →
  p ∈ (deq q x ls).1 ++ (deq q x ls).2 ↔ p ≠ x ∧ p ∈ ls.1 ++ ls.2.
Proof.
  intros (_ & Hd & _)%NoDup_app Hx. unfold deq, without. revert Hx. unfold on_queue.
  destruct (q =? 0); cbn; intros Hx; rewrite !elem_of_app, list_elem_of_filter; split.
  - intros [[? ?]|Hp]; [by split; [|left]|]. split; [|by right]. intros ->. by eapply Hd.
  - intros [? [?|?]]; [by left|by right].
  - intros [Hp|[? ?]]; [|by split; [|right]]. split; [|by left]. intros ->. by eapply Hd.
  - intros [? [?|?]]; [by left|by right].
Qed.

Lemma NoDup_deq q x ls : NoDup (ls.1 ++ ls.2) → NoDup ((deq q x ls).1 ++ (deq q x ls).2).
Proof.
  intros Hn. apply (sublist_NoDup _ _ Hn). unfold deq, without. destruct (q =? 0); cbn.
  - apply sublist_app; [apply sublist_filter|done].
  - apply sublist_app; [done|apply sublist_filter].
Qed.

(** What [soqremque] makes of the links. *)
Record dequeued (q d x y nx n : Z) (h h' : gmap Z socket) : Prop := Dequeued
  { de_head : ∀ p, rdf h' p so_head = if decide (p = x) then Some 0 else rdf h p so_head;
    de_link : ∀ p, rdf h' p (link q) =
      if decide (p = x) then Some 0 else if decide (p = y) then Some nx else rdf h p (link q);
    de_link' : ∀ p f, f = so_q0 ∨ f = so_q → f ≠ link q →
      rdf h' p f = if decide (p = x) then Some 0 else rdf h p f;
    de_count : ∀ p, rdf h' p (qcount q) = if decide (p = d) then Some (n - 1) else rdf h p (qcount q);
    de_rest : ∀ p f, f ∉ [so_head; so_q0; so_q; qcount q] → rdf h' p f = rdf h p f }.

Lemma dequeued_other q d x y nx n h h' p f :
  dequeued q d x y nx n h h' → p ∉ [d; x; y] → rdf h' p f = rdf h p f.
Proof.
  intros [H1 H2 H2' H3 H4] Hp. apply not_elem_of_cons in Hp as [Hd [Hx [Hy _]%not_elem_of_cons]%not_elem_of_cons].
  destruct (decide (f = link q)) as [->|Hl]; [by rewrite H2, !decide_False|].
  destruct (decide (f ∈ [so_head; so_q0; so_q; qcount q])) as [Hf|Hf]; [|by apply H4].
  apply elem_of_cons in Hf as [->|[->|[->|[->|[]%not_elem_of_nil]%elem_of_cons]%elem_of_cons]%elem_of_cons].
  - by rewrite H1, decide_False.
  - rewrite H2', decide_False; auto.
  - rewrite H2', decide_False; auto.
  - by rewrite H3, decide_False.
Qed.

Lemma dequeue_head_ok q h h' d x y nx ls l1 l2 :
  d ≠ 0 → head_ok h d ls.1 ls.2 → on_queue q ls = l1 ++ x :: l2 → x ∉ l1 →
  last (d :: l1) = Some y → rdf h x (link q) = Some nx →
  dequeued q d x y nx (Z.of_nat (length (on_queue q ls))) h h' →
  head_ok h' d (deq q x ls).1 (deq q x ls).2.
Proof.
  intros Hd0 Hh Hl Hx1 Hy Hnx He. pose proof (head_nodup _ _ _ _ Hd0 Hh) as [Hn0 Hn1].
  assert (Hn : NoDup (d :: on_queue q ls)) by (unfold on_queue; by destruct (q =? 0)).
  destruct (head_ok_queue h d ls q Hh) as [Hs Hc]. rewrite Hl in Hs, Hn.
  assert (Hx2 : x ∉ l2) by (apply NoDup_cons in Hn as [_ (_ & _ & [? _]%NoDup_cons)%NoDup_app]; done).
  assert (Hxd : x ≠ d) by (intros ->; apply NoDup_cons in Hn as [Hn _]; apply Hn; set_solver).
  assert (Hyx : y ≠ x).
  { intros ->. apply last_Some_elem_of in Hy. apply elem_of_cons in Hy as [?|?]; done. }
  assert (Hs' : seg h' (link q) d (d :: l1 ++ l2) 0).
  { eapply seg_remove; [exact Hs|exact Hy|exact Hn|exact Hnx|..].
    - by rewrite (de_link _ _ _ _ _ _ _ _ He), decide_False, decide_True.
    - intros p Hp1 Hp2. by rewrite (de_link _ _ _ _ _ _ _ _ He), !decide_False. }
  assert (Hw : without x (on_queue q ls) = l1 ++ l2) by (rewrite Hl; by apply without_split).
  assert (Hxin : x ∈ on_queue q ls) by (rewrite Hl; set_solver).
  assert (Hother : ∀ f l, f = so_q0 ∨ f = so_q → f ≠ link q → x ∉ l → seg h f d (d :: l) 0 → seg h' f d (d :: l) 0).
  { intros f l Hf Hf' Hxl Hsf. eapply seg_frame; [|exact Hsf]. intros p Hp.
    rewrite (de_link' _ _ _ _ _ _ _ _ He), decide_False; [done| |done|done].
    intros ->. by apply elem_of_cons in Hp as [?|?]. }
  destruct Hh as [H1 H2 H3 H4 H5 H6 H7]. pose proof (proj1 (NoDup_app _ _) H6) as (_ & Hdisj & _).
  constructor.
  - by rewrite (de_head _ _ _ _ _ _ _ _ He), decide_False.
  - revert Hs' Hxin Hw Hother. unfold deq, link, on_queue. destruct (q =? 0); cbn; [by intros ? ? ->|].
    intros _ Hxin _ Hother. apply Hother; [by left|done| |done]. intros Hin. by eapply Hdisj.
  - revert Hs' Hxin Hw Hother. unfold deq, link, on_queue. destruct (q =? 0); cbn; [|by intros ? ? ->].
    intros _ Hxin _ Hother. apply Hother; [by right|done| |done]. intros Hin. by eapply Hdisj.
  - pose proof (de_count _ _ _ _ _ _ _ _ He d) as E3. pose proof (de_rest _ _ _ _ _ _ _ _ He d so_q0len) as E4.
    revert Hl Hw E3 E4. unfold deq, on_queue, qcount. destruct (q =? 0); cbn; intros Hl Hw E3 E4.
    + rewrite E3, decide_True, Hw, Hl, !length_app by done. do 2 f_equal. cbn. lia.
    + rewrite E4; [done|set_solver].
  - pose proof (de_count _ _ _ _ _ _ _ _ He d) as E3. pose proof (de_rest _ _ _ _ _ _ _ _ He d so_qlen) as E4.
    revert Hl Hw E3 E4. unfold deq, on_queue, qcount. destruct (q =? 0); cbn; intros Hl Hw E3 E4.
    + rewrite E4; [done|set_solver].
    + rewrite E3, decide_True, Hw, Hl, !length_app by done. do 2 f_equal. cbn. lia.
  - by apply NoDup_deq.
  - intros p [Hp1 Hp2]%elem_of_deq; [|done..]. rewrite (de_head _ _ _ _ _ _ _ _ He), decide_False by done. by apply H7.
Qed.

Lemma dequeue_repr q h h' A d x y nx ls l1 l2 :
  repr h A → A !! d = Some ls → on_queue q ls = l1 ++ x :: l2 → x ∉ l1 →
  last (d :: l1) = Some y → rdf h x (link q) = Some nx →
  dequeued q d x y nx (Z.of_nat (length (on_queue q ls))) h h' →
  repr h' (<[x := ([], [])]> (<[d := deq q x ls]> A)).
Proof.
  intros Hr HA Hl Hx1 Hy Hnx He. destruct ls as [l0' l1'].
  pose proof (rp_head _ _ Hr _ _ _ HA) as Hd.
  assert (Hxq : x ∈ on_queue q (l0', l1')) by (rewrite Hl; set_solver).
  assert (Hxin : x ∈ l0' ++ l1') by (revert Hxq; unfold on_queue; destruct (q =? 0); set_solver).
  destruct (repr_member _ _ _ _ _ _ Hr HA Hxin) as (HAx & Hd0 & Hu).
  pose proof (rp_addr _ _ Hr _ _ (ho_member _ _ _ _ Hd _ Hxin)) as Hxa.
  assert (Hxd : x ≠ d) by (intros ->; congruence).
  assert (Hcn : ∀ p f, p ≠ d → f = so_q0len ∨ f = so_qlen → rdf h' p f = rdf h p f).
  { intros p f Hp Hf. destruct (decide (f = qcount q)) as [->|].
    - by rewrite (de_count _ _ _ _ _ _ _ _ He), decide_False.
    - apply (de_rest _ _ _ _ _ _ _ _ He). destruct Hf as [-> | ->]; set_solver. }
  assert (Hx0 : ∀ f, f = so_q0len ∨ f = so_qlen → rdf h' x f = Some 0).
  { intros f Hf. rewrite Hcn by done. eapply (rp_leaf _ _ Hr); [|done..]. by apply (ho_member _ _ _ _ Hd). }
  assert (Hyd : y ∈ d :: l0' ++ l1').
  { apply last_Some_elem_of in Hy. revert Hl. unfold on_queue. destruct (q =? 0); cbn; intros ->; set_solver. }
  assert (Hyx : y ≠ x) by (intros ->; apply last_Some_elem_of, elem_of_cons in Hy as [?|?]; done).
  constructor.
  - intros d' m0 m1. destruct (decide (d' = x)) as [->|Hdx].
    { rewrite lookup_insert_eq. intros [= <- <-].
      assert (Hlk : ∀ f, f = so_q0 ∨ f = so_q → rdf h' x f = Some 0).
      { intros f Hf. destruct (decide (f = link q)) as [->|]; [rewrite (de_link _ _ _ _ _ _ _ _ He)|
          rewrite (de_link' _ _ _ _ _ _ _ _ He) by done]; by rewrite decide_True. }
      constructor; [by rewrite (de_head _ _ _ _ _ _ _ _ He), decide_True| | | | |apply NoDup_nil_2|].
      - split_and!; [done|lia|]. exists 0. split; [apply Hlk; by left|done].
      - split_and!; [done|lia|]. exists 0. split; [apply Hlk; by right|done].
      - apply Hx0. by left.
      - apply Hx0. by right.
      - intros ? []%elem_of_nil. }
    rewrite lookup_insert_ne by done. destruct (decide (d' = d)) as [->|Hdd].
    { rewrite lookup_insert_eq. intros [= E]. pose proof (dequeue_head_ok q h h' d x y nx (l0', l1') l1 l2) as Hq.
      rewrite E in Hq. by apply Hq. }
    rewrite lookup_insert_ne by done. intros HA'.
    eapply head_ok_frame; [|by apply (rp_head _ _ Hr)]. intros p f Hp _.
    eapply dequeued_other; [exact He|].
    assert (Hnd : p ≠ d).
    { intros ->. apply elem_of_cons in Hp as [?|Hp]; [done|].
      destruct (repr_member _ _ _ _ _ _ Hr HA' Hp) as (Hn & _). congruence. }
    assert (Hmem : p ∉ l0' ++ l1').
    { intros Hin. destruct (repr_member _ _ _ _ _ _ Hr HA Hin) as (_ & _ & Hu'). apply Hdd. by eapply Hu'. }
    apply not_elem_of_cons. split; [done|]. apply not_elem_of_cons. split; [by intros ->|].
    apply not_elem_of_cons. split; [|apply not_elem_of_nil]. intros ->. by apply elem_of_cons in Hyd as [?|?].
  - intros p e. rewrite (de_head _ _ _ _ _ _ _ _ He). case_decide; [by subst p|apply (rp_addr _ _ Hr)].
  - intros p e. rewrite (de_head _ _ _ _ _ _ _ _ He). case_decide as Hpx.
    { subst p. intros [= <-]. rewrite decide_True by done. by rewrite lookup_insert_eq. }
    intros Hp%(rp_all _ _ Hr). case_decide.
    { rewrite lookup_insert_ne by done. destruct (decide (p = d)) as [->|]; [by rewrite lookup_insert_eq|].
      by rewrite lookup_insert_ne. }
    destruct Hp as (m0 & m1 & HA' & Hp).
    assert (e ≠ x) by congruence. rewrite lookup_insert_ne by done.
    destruct (decide (e = d)) as [->|]; [|by exists m0, m1; rewrite lookup_insert_ne].
    assert ((m0, m1) = (l0', l1')) as [= -> ->] by congruence. rewrite lookup_insert_eq.
    destruct (deq q x (l0', l1')) as [m0 m1] eqn:E. exists m0, m1. split; [done|].
    change (p ∈ (m0, m1).1 ++ (m0, m1).2). rewrite <- E. apply elem_of_deq; [by apply (ho_nodup _ _ _ _ Hd)|done..].
  - intros p e f. rewrite (de_head _ _ _ _ _ _ _ _ He). case_decide as Hpx; [by intros [= <-]|]. intros Hp He0 Hf.
    assert (p ≠ d) by (intros ->; pose proof (ho_head _ _ _ _ Hd); congruence).
    rewrite Hcn by done. by eapply (rp_leaf _ _ Hr).
Qed.

(** What the queue operations leave alone. *)
Definition bufs (h : gmap Z socket) (p : Z) : option (protosw * sockbuf * sockbuf) :=
  (λ so, (so_proto so, so_rcv so, so_snd so)) <$> h !! p.

Record queue_only (w w' : world) : Prop := QueueOnly
  { qo_fld : ∀ p f, ¬ queue_field f → rdf (socks w') p f = rdf (socks w) p f;
    qo_bufs : ∀ p, bufs (socks w') p = bufs (socks w) p;
    qo_ms : ms w' = ms w; qo_wakeups : wakeups w' = wakeups w }.

#[export] Instance queue_only_preorder : PreOrder queue_only.
Proof.
  split; [by constructor|]. intros w1 w2 w3 [A1 B1 C1 D1] [A2 B2 C2 D2].
  constructor; [|intros p; by rewrite B2|congruence|congruence]. intros p f Hf. by rewrite A2, A1.
Qed.

Lemma bufs_upd h p f v p' : bufs (upd p f v h) p' = bufs h p'.
Proof.
  unfold bufs, upd. destruct (decide (p' = p)) as [->|]; [|by rewrite lookup_alter_ne].
  rewrite lookup_alter_eq. by destruct (h !! p).
Qed.

Lemma lookup_upd h p f v p' : is_Some (upd p f v h !! p') ↔ is_Some (h !! p').
Proof.
  unfold upd. destruct (decide (p' = p)) as [->|]; [|by rewrite lookup_alter_ne].
  by rewrite lookup_alter_eq, fmap_is_Some.
Qed.

Lemma queue_only_upd w p f v : queue_field f → queue_only w (set_socks (upd p f v (socks w)) w).
Proof.
  intros Hf. constructor; [|intros p'; apply bufs_upd|done|done].
  intros p' g Hg. cbn. rewrite rdf_upd, decide_False; [done|]. by intros [_ ->].
Qed.

Lemma queue_field_link q : queue_field (link q).
Proof. unfold queue_field, link. destruct (q =? 0); set_solver. Qed.
Lemma queue_field_count q : queue_field (qcount q).
Proof. unfold queue_field, qcount. destruct (q =? 0); set_solver. Qed.
Lemma queue_field_head : queue_field so_head.
Proof. unfold queue_field. set_solver. Qed.
#[local] Hint Resolve queue_field_link queue_field_count queue_field_head : anp.

(** A store to a field of the queues, in a proof. *)
Lemma wp_wrq f p v w0 w Q :
  is_Some (socks w !! p) → queue_field f → queue_only w0 w →
  (∀ w', socks w' = upd p f v (socks w) → queue_only w0 w' → Q () w') → wp (wr f p v) w Q.
Proof.
  intros Hp Hf Hw HQ. apply wp_wr; [done|]. apply HQ; [done|]. etrans; [done|]. by apply queue_only_upd.
Qed.

Lemma repr_lookup h A d ls : repr h A → A !! d = Some ls → is_Some (h !! d) ∧ 0 < d < 4294967296.
Proof.
  intros Hr HA. destruct ls as [l0 l1]. pose proof (ho_head _ _ _ _ (rp_head _ _ Hr _ _ _ HA)) as Hd.
  split; [by eapply rdf_Some_lookup|]. by eapply (rp_addr _ _ Hr).
Qed.

Lemma repr_notin h A d ls x q : repr h A → A !! d = Some ls → A !! x = Some ([], []) → x ∉ on_queue q ls.
Proof.
  intros Hr HA HAx Hx. destruct ls as [l0 l1].
  assert (Hin : x ∈ l0 ++ l1) by (revert Hx; unfold on_queue; destruct (q =? 0); set_solver).
  destruct (repr_member _ _ _ _ _ _ Hr HA Hin) as (Hn & _). congruence.
Qed.

Lemma repr_queue q h A d ls : repr h A → A !! d = Some ls →
  seg h (link q) d (d :: on_queue q ls) 0 ∧ rdf h d (qcount q) = Some (Z.of_nat (length (on_queue q ls))) ∧
  NoDup (d :: on_queue q ls).
Proof.
  intros Hr HA. pose proof (repr_lookup _ _ _ _ Hr HA) as [_ Hd]. destruct ls as [l0 l1].
  pose proof (rp_head _ _ Hr _ _ _ HA) as Hh. destruct (head_nodup _ _ _ _ (ltac:(lia) : d ≠ 0) Hh) as [H1 H2].
  destruct (head_ok_queue _ _ (l0, l1) q Hh) as [Hs Hc]. split_and!; [done|done|].
  unfold on_queue. by destruct (q =? 0).
Qed.

(** The link of a socket of a segment. *)
Lemma seg_next h f d k1 x k2 : seg h f d (d :: k1 ++ x :: k2) 0 → ∃ n, rdf h x f = Some n ∧ (n = 0 ∨ n ∈ k2).
Proof.
  change (d :: k1 ++ x :: k2) with ((d :: k1) ++ x :: k2). intros (m & _ & Hs)%seg_app.
  destruct Hs as (-> & _ & n & Hn & Hs). exists n. split; [done|]. destruct k2; [by left|].
  destruct Hs as (-> & _). right. set_solver.
Qed.

(** Reads after stores. *)
Ltac rdf_simp :=
  repeat first
    [ rewrite rdf_upd | rewrite decide_True by done | rewrite decide_False by (intros [? ?]; congruence) ].

Lemma rdf_store h p f v p' g :
  is_Some (h !! p) → convert f v = v →
  rdf (upd p f v h) p' g = if decide (p' = p ∧ g = f) then Some v else rdf h p' g.
Proof. intros [so E] Hc. rewrite rdf_upd, E. cbn. by rewrite Hc. Qed.

Lemma convert_link q v : is_u32 v → convert (link q) v = v.
Proof. intros H. unfold link. by destruct (q =? 0); cbn; apply u32_id. Qed.

Lemma convert_count q n : is_s16 n → convert (qcount q) n = n.
Proof. intros H. unfold qcount. by destruct (q =? 0); cbn; apply s16_id. Qed.

(** A condition on a socket and a field, known in one of them. *)
Lemma decide_pf {A} (p p' : Z) (f g : sfield) (a b : A) : f = g →
  (if decide (p = p' ∧ f = g) then a else b) = if decide (p = p') then a else b.
Proof. intros ->. destruct (decide (p = p')) as [->|]; [by rewrite decide_True|]. rewrite decide_False; [done|by intros [? _]]. Qed.

Lemma decide_pf_ne {A} (p p' : Z) (f g : sfield) (a b : A) : f ≠ g →
  (if decide (p = p' ∧ f = g) then a else b) = b.
Proof. intros H. rewrite decide_False; [done|by intros [_ ?]]. Qed.

Ltac store_simp :=
  repeat first [rewrite decide_pf_ne by congruence | rewrite decide_pf by congruence].

Lemma enqueued_upd q d x y n h :
  is_Some (h !! d) → is_Some (h !! x) → is_Some (h !! y) → is_u32 d → is_u32 x → 0 <= n < 32767 →
  enqueued q d x y n h (upd y (link q) x (upd x (link q) 0 (upd d (qcount q) (n + 1) (upd x so_head d h)))).
Proof.
  intros Hd Hx Hy Hd1 Hx1 Hn.
  pose proof (link_not_head q) as N1. pose proof (link_not_count q q) as N2. pose proof (count_not_head q) as N3.
  assert (Hv : ∀ p f, rdf (upd y (link q) x (upd x (link q) 0 (upd d (qcount q) (n + 1) (upd x so_head d h)))) p f =
    if decide (p = y ∧ f = link q) then Some x else if decide (p = x ∧ f = link q) then Some 0 else
    if decide (p = d ∧ f = qcount q) then Some (n + 1) else if decide (p = x ∧ f = so_head) then Some d else rdf h p f).
  { intros p f. rewrite !rdf_store; rewrite ?lookup_upd; try done.
    - by apply u32_id.
    - apply convert_count. red; lia.
    - by apply convert_link.
    - by apply convert_link. }
  constructor; intros p; [..|intros f Hf]; rewrite Hv; store_simp; try done.
  rewrite !not_elem_of_cons in Hf. destruct Hf as (? & ? & ? & _). by store_simp.
Qed.

Lemma soqinsque_spec q w A d x ls :
  repr (socks w) A → A !! d = Some ls → A !! x = Some ([], []) → x ≠ d →
  Z.of_nat (length (on_queue q ls)) < 32767 →
  wp (soqinsque d x q) w (λ _ w',
    repr (socks w') (<[d := enq q x ls]> (delete x A)) ∧ queue_only w w').
Proof.
  intros Hr HA HAx Hxd Hlen.
  destruct (repr_lookup _ _ _ _ Hr HA) as [Hd Hda]. destruct (repr_lookup _ _ _ _ Hr HAx) as [Hx Hxa].
  pose proof (repr_notin _ _ _ _ x q Hr HA HAx) as Hxn.
  destruct (repr_queue q _ _ _ _ Hr HA) as (Hs & Hc & Hnd).
  pose proof (link_not_head q) as N1. pose proof (link_not_count q q) as N2. pose proof (count_not_head q) as N3.
  unfold soqinsque. wp_step. eapply wp_wrq; [done|auto with anp|reflexivity|]. intros w1 E1 Q1.
  wp_step. eapply wp_rd; [rewrite E1; rdf_simp; exact Hc|].
  wp_step. eapply wp_wrq; [by rewrite E1, lookup_upd|auto with anp|exact Q1|]. intros w2 E2 Q2.
  wp_step. eapply wp_wrq; [by rewrite E2, E1, !lookup_upd|auto with anp|exact Q2|]. intros w3 E3 Q3.
  wp_step. apply wp_get. wp_step.
  assert (Hs3 : seg (socks w3) (link q) d (d :: on_queue q ls) 0).
  { eapply seg_frame; [|exact Hs]. intros p Hp.
    assert (p ≠ x) by (intros ->; by apply elem_of_cons in Hp as [?|?]).
    rewrite E3, E2, E1. rdf_simp. done. }
  eapply wp_mono; [apply (last_link_spec _ q w3 d (on_queue q ls) Hs3)|].
  { pose proof (seg_size _ _ _ _ _ Hnd Hs3) as Hz. cbn in Hz. lia. }
  intros y ? [-> Hy].
  assert (Hys : is_Some (socks w !! y)) by (eapply seg_lookup; [exact Hs|]; by apply last_Some_elem_of).
  eapply wp_wrq; [by rewrite E3, E2, E1, !lookup_upd|auto with anp|exact Q3|]. intros w4 E4 Q4.
  split; [|done]. eapply enqueue_repr; [exact Hr|done|done|done|exact Hy|].
  rewrite E4, E3, E2, E1. apply enqueued_upd; try done; try (red; lia). lia.
Qed.

Lemma dequeued_upd q d x y nx n h :
  is_Some (h !! d) → is_Some (h !! x) → is_Some (h !! y) → is_u32 nx → 0 <= n - 1 < 32767 → y ≠ x →
  dequeued q d x y nx n h
    (upd x so_head 0 (upd x so_q0 0 (upd x so_q 0 (upd d (qcount q) (n - 1) (upd y (link q) nx h))))).
Proof.
  intros Hd Hx Hy Hd1 Hn Hyx.
  pose proof (link_not_head q) as N1. pose proof (link_not_count q q) as N2. pose proof (count_not_head q) as N3.
  assert (N4 : qcount q ≠ so_q0) by (unfold qcount; by destruct (q =? 0)).
  assert (N5 : qcount q ≠ so_q) by (unfold qcount; by destruct (q =? 0)).
  assert (Hv : ∀ p f, rdf (upd x so_head 0 (upd x so_q0 0 (upd x so_q 0 (upd d (qcount q) (n - 1) (upd y (link q) nx h))))) p f =
    if decide (p = x ∧ f = so_head) then Some 0 else if decide (p = x ∧ f = so_q0) then Some 0 else
    if decide (p = x ∧ f = so_q) then Some 0 else if decide (p = d ∧ f = qcount q) then Some (n - 1) else
    if decide (p = y ∧ f = link q) then Some nx else rdf h p f).
  { intros p f. rewrite !rdf_store; rewrite ?lookup_upd; try done.
    - by apply convert_link.
    - apply convert_count. red; lia. }
  constructor; intros p; [| |intros f Hf Hf'| |intros f Hf]; rewrite Hv; store_simp; try done.
  - revert N1 N2. unfold link. destruct (q =? 0); intros _ _; by store_simp.
  - destruct Hf as [-> | ->]; by store_simp.
  - rewrite !not_elem_of_cons in Hf. destruct Hf as (? & ? & ? & ? & _). store_simp.
    assert (f ≠ link q) by (unfold link; by destruct (q =? 0)). by store_simp.
Qed.

(** [soqremque]: the socket is taken off the queue if it is there. *)
Lemma soqremque_spec q w A d x ls :
  repr (socks w) A → A !! d = Some ls → x ∈ ls.1 ++ ls.2 → Z.of_nat (length (on_queue q ls)) < 32767 →
  wp (soqremque x q) w (λ r w',
    (r = 1 ∧ x ∈ on_queue q ls ∧ repr (socks w') (<[x := ([], [])]> (<[d := deq q x ls]> A)) ∧ queue_only w w') ∨
    (r = 0 ∧ (x ∉ on_queue q ls) ∧ w' = w)).
Proof.
  intros Hr HA Hx Hlen. destruct (repr_lookup _ _ _ _ Hr HA) as [Hd Hda].
  destruct (repr_queue q _ _ _ _ Hr HA) as (Hs & Hc & Hnd). destruct ls as [l0 l1].
  pose proof (rp_head _ _ Hr _ _ _ HA) as Hh. pose proof (ho_member _ _ _ _ Hh x Hx) as Hxh.
  pose proof (rp_addr _ _ Hr _ _ Hxh) as Hxa. pose proof (rdf_Some_lookup _ _ _ _ Hxh) as Hxs.
  unfold soqremque. wp_step. eapply wp_rd; [done|]. wp_step. apply wp_get. wp_step.
  eapply wp_mono; [apply (find_prev_spec _ q w x d (on_queue q (l0, l1)) (ltac:(lia)) Hs)|].
  { pose proof (seg_size _ _ _ _ _ Hnd Hs) as Hz. cbn in Hz. lia. }
  intros [y|] w' [-> Hp]; [|apply wp_ret; by right].
  destruct Hp as (k1 & k2 & E & Hk & Hy).
  assert (Hys : is_Some (socks w !! y)).
  { eapply seg_lookup; [exact Hs|]. apply last_Some_elem_of in Hy. rewrite E. set_solver. }
  assert (Hyx : y ≠ x).
  { intros ->. apply last_Some_elem_of, elem_of_cons in Hy as [->|?]; [|done].
    pose proof (ho_head _ _ _ _ Hh). assert (d = 0) by congruence. lia. }
  destruct (seg_next (socks w) (link q) d k1 x k2) as (nx & Hnx & Hnx0).
  { rewrite <- E. exact Hs. }
  assert (is_u32 nx).
  { destruct Hnx0 as [-> |Hin]; [red; lia|]. assert (Hin' : nx ∈ l0 ++ l1).
    { assert (nx ∈ on_queue q (l0, l1)) as H by (rewrite E; set_solver). revert H. unfold on_queue. destruct (q =? 0); set_solver. }
    pose proof (rp_addr _ _ Hr _ _ (ho_member _ _ _ _ Hh nx Hin')). red; lia. }
  pose proof (link_not_head q) as N1. pose proof (link_not_count q q) as N2. pose proof (count_not_head q) as N3.
  wp_step. eapply wp_rd; [done|]. wp_step. eapply wp_wrq; [done|auto with anp|reflexivity|]. intros w1 E1 Q1.
  wp_step. eapply wp_rd; [rewrite E1; rdf_simp; exact Hc|].
  wp_step. eapply wp_wrq; [by rewrite E1, lookup_upd|auto with anp|exact Q1|]. intros w2 E2 Q2.
  wp_step. eapply wp_wrq; [by rewrite E2, E1, !lookup_upd|unfold queue_field; set_solver|exact Q2|]. intros w3 E3 Q3.
  wp_step. eapply wp_wrq; [by rewrite E3, E2, E1, !lookup_upd|unfold queue_field; set_solver|exact Q3|]. intros w4 E4 Q4.
  wp_step. eapply wp_wrq; [by rewrite E4, E3, E2, E1, !lookup_upd|auto with anp|exact Q4|]. intros w5 E5 Q5.
  apply wp_ret. left. split_and!; [done|rewrite E; set_solver| |done].
  eapply dequeue_repr; [exact Hr|done|exact E|done|exact Hy|exact Hnx|].
  rewrite E5, E4, E3, E2, E1. apply dequeued_upd; try done.
  assert (0 < length (on_queue q (l0, l1)))%nat by (rewrite E, length_app; cbn; lia). lia.
Qed.

(** ** The invariant of the sockets *)

(** A buffer in order that nobody has locked. *)
Definition idle (s : Mbuf.mstate) (sb : sockbuf) : Prop :=
  sb_ok s sb ∧ flushable sb ∧ Z.land (sb_flags sb) SB_LOCK = 0.
Definition calm (s : Mbuf.mstate) (so : socket) : Prop := idle s (so_rcv so) ∧ idle s (so_snd so).

(** The bit [SS_NOFDREF] of the state. *)
Definition nofd (h : gmap Z socket) (p : Z) : option Z := (λ v, Z.land v TcpConn.SS_NOFDREF) <$> rdf h p so_state.

(** The sockets stand for [A]; queues are short; a queued socket has no
    descriptor and buffers nobody uses. *)
Record winv (w : world) (A : queues) : Prop := Winv
  { wi_repr : repr (socks w) A;
    wi_len : ∀ d ls, A !! d = Some ls → (length ls.1 + length ls.2 <= 8)%nat;
    wi_limit : ∀ p v, rdf (socks w) p so_qlimit = Some v → 0 <= v <= SOMAXCONN;
    wi_nofd : ∀ p d, rdf (socks w) p so_head = Some d → d ≠ 0 → nofd (socks w) p = Some 1;
    wi_calm : ∀ p so, socks w !! p = Some so → fld so so_head ≠ 0 → calm (ms w) so }.

(** A change that the queues do not see. *)
Record quiet (w w' : world) : Prop := Quiet
  { qt_queues : same_queues (socks w) (socks w');
    qt_limit : ∀ p, rdf (socks w') p so_qlimit = rdf (socks w) p so_qlimit;
    qt_nofd : ∀ p, nofd (socks w') p = nofd (socks w) p;
    qt_calm : ∀ p so', socks w' !! p = Some so' →
      ∃ so, socks w !! p = Some so ∧ (calm (ms w) so → calm (ms w') so') }.

#[export] Instance quiet_preorder : PreOrder quiet.
Proof.
  split; [constructor; [done..|]; intros p so E; by exists so|].
  intros w1 w2 w3 [A1 B1 C1 D1] [A2 B2 C2 D2].
  constructor; [by etrans|intros p; by rewrite B2|intros p; by rewrite C2|].
  intros p so3 E3. destruct (D2 _ _ E3) as (so2 & E2 & H2). destruct (D1 _ _ E2) as (so1 & E1 & H1).
  exists so1. auto.
Qed.

Lemma winv_quiet w w' A : quiet w w' → winv w A → winv w' A.
Proof.
  intros [Q1 Q2 Q3 Q4] [R1 R2 R3 R4 R5].
  assert (Hh : ∀ p, rdf (socks w') p so_head = rdf (socks w) p so_head) by (intros p; apply Q1; auto with anp).
  constructor; [by rewrite <- Q1|done| | |].
  - intros p v. rewrite Q2. apply R3.
  - intros p d. rewrite Hh, Q3. apply R4.
  - intros p so' E Hd. destruct (Q4 _ _ E) as (so & E' & H). apply H, (R5 _ _ E').
    pose proof (Hh p) as Hp. unfold rdf in Hp. rewrite E, E' in Hp. cbn in Hp. congruence.
Qed.

(** A change of one socket that keeps its queue fields. *)
Lemma quiet_mod w p g :
  (∀ so, socks w !! p = Some so → (∀ f, queue_field f ∨ f = so_qlimit → fld (g so) f = fld so f) ∧
    Z.land (fld (g so) so_state) 1 = Z.land (fld so so_state) 1 ∧ (calm (ms w) so → calm (ms w) (g so))) →
  quiet w (set_socks (alter g p (socks w)) w).
Proof.
  intros H.
  assert (Hf : ∀ p' f, queue_field f ∨ f = so_qlimit → rdf (alter g p (socks w)) p' f = rdf (socks w) p' f).
  { intros p' f Hq. unfold rdf. destruct (decide (p' = p)) as [->|]; [|by rewrite lookup_alter_ne].
    rewrite lookup_alter_eq. destruct (socks w !! p) as [so|]; [|done]. cbn. f_equal. by apply H. }
  constructor; cbn.
  - intros p' f Hq. apply Hf. by left.
  - intros p'. apply Hf. by right.
  - intros p'. unfold nofd, rdf. destruct (decide (p' = p)) as [->|]; [|by rewrite lookup_alter_ne].
    rewrite lookup_alter_eq. destruct (socks w !! p) as [so|]; [|done]. cbn. f_equal. by apply H.
  - intros p' so' E. destruct (decide (p' = p)) as [->|]; [|rewrite lookup_alter_ne in E by done; by exists so'].
    rewrite lookup_alter_eq in E. destruct (socks w !! p) as [so|]; [|done]. injection E as <-.
    exists so. split; [done|]. by apply H.
Qed.

Lemma land_s16_1 z : Z.land (s16 z) 1 = Z.land z 1.
Proof. change 1 with (Z.ones 1). rewrite !Z.land_ones by lia. change (2 ^ 1) with 2. unfold s16. Z.div_mod_to_equations. lia. Qed.

(** A store to a plain field. *)
Lemma quiet_upd w p f v :
  ¬ queue_field f → f ≠ so_qlimit → (f = so_state → ∀ so, socks w !! p = Some so → Z.land v 1 = Z.land (fld so so_state) 1) →
  quiet w (set_socks (upd p f v (socks w)) w).
Proof.
  intros Hq Hl Hs. apply quiet_mod. intros so E. split_and!; [| |done].
  - intros g [Hg|Hg]; cbn; (rewrite decide_False; [done|]); congruence.
  - cbn. case_decide as Hd; [|done]. subst f. cbn. rewrite land_s16_1. by apply Hs.
Qed.

Lemma wp_orflag f p b w Q :
  is_Some (socks w !! p) → ¬ queue_field f → f ≠ so_qlimit → (f = so_state → Z.land b 1 = 0) →
  (∀ w', quiet w w' → Q () w') → wp (orflag f p b) w Q.
Proof.
  intros [so E] Hq Hl Hb HQ. unfold orflag. wp_step. eapply wp_rd; [unfold rdf; by rewrite E|].
  apply wp_wr; [done|]. apply HQ, quiet_upd; [done|done|]. intros -> so' E'.
  assert (so' = so) as -> by congruence. by rewrite Z.land_lor_distr_l, Hb, Z.lor_0_r.
Qed.

Lemma wp_clrflag f p b w Q :
  is_Some (socks w !! p) → ¬ queue_field f → f ≠ so_qlimit → (f = so_state → Z.land (Z.lnot b) 1 = 1) →
  (∀ w', quiet w w' → Q () w') → wp (clrflag f p b) w Q.
Proof.
  intros [so E] Hq Hl Hb HQ. unfold clrflag. wp_step. eapply wp_rd; [unfold rdf; by rewrite E|].
  apply wp_wr; [done|]. apply HQ, quiet_upd; [done|done|]. intros -> so' E'.
  assert (so' = so) as -> by congruence. by rewrite <- Z.land_assoc, Hb.
Qed.

Lemma wp_wakeup c w (Q : () → world → Prop) :
  (∀ w', quiet w w' → socks w' = socks w → wakeups w' = wakeups w ++ [c] → Q () w') → wp (wakeup c) w Q.
Proof. intros HQ. apply wp_modify, HQ; [|done..]. constructor; [done..|]. intros p so E. by exists so. Qed.

Lemma idle_sowakeup s sb : idle s sb → idle s (sowakeup sb).1.
Proof.
  intros (H1 & H2 & H3). unfold sowakeup. destruct (ztrue _); cbn; (split; [done|split; [done|]]); cbn.
  - by rewrite <- !Z.land_assoc.
  - by rewrite <- !Z.land_assoc.
Qed.

Lemma wp_sorwakeup p w Q :
  is_Some (socks w !! p) → (∀ w', quiet w w' → (∃ l, wakeups w' = wakeups w ++ l) → Q () w') → wp (sorwakeup p) w Q.
Proof.
  intros [so E] HQ. unfold sorwakeup. wp_step. unfold wp at 1, deref. rewrite E.
  pose proof (idle_sowakeup (ms w) (so_rcv so)) as Hi.
  destruct (sowakeup (so_rcv so)) as [sb woken]. wp_step. unfold wp at 1, mod_so. rewrite E.
  assert (Hq : quiet w (set_socks (alter (set_rcv sb) p (socks w)) w)).
  { apply quiet_mod. intros so' E'. assert (so' = so) as -> by congruence. split_and!; [done|done|].
    intros [C1 C2]. split; [by apply Hi|done]. }
  destruct woken; [|apply wp_ret, HQ; [done|]; exists []; by rewrite app_nil_r].
  apply wp_wakeup. intros w' Hq' _ Ew. apply HQ; [by etrans|]. rewrite Ew. by eexists.
Qed.

Lemma wp_sowwakeup p w Q :
  is_Some (socks w !! p) → (∀ w', quiet w w' → (∃ l, wakeups w' = wakeups w ++ l) → Q () w') → wp (sowwakeup p) w Q.
Proof.
  intros [so E] HQ. unfold sowwakeup. wp_step. unfold wp at 1, deref. rewrite E.
  pose proof (idle_sowakeup (ms w) (so_snd so)) as Hi.
  destruct (sowakeup (so_snd so)) as [sb woken]. wp_step. unfold wp at 1, mod_so. rewrite E.
  assert (Hq : quiet w (set_socks (alter (set_snd sb) p (socks w)) w)).
  { apply quiet_mod. intros so' E'. assert (so' = so) as -> by congruence. split_and!; [done|done|].
    intros [C1 C2]. split; [done|by apply Hi]. }
  destruct woken; [|apply wp_ret, HQ; [done|]; exists []; by rewrite app_nil_r].
  apply wp_wakeup. intros w' Hq' _ Ew. apply HQ; [by etrans|]. rewrite Ew. by eexists.
Qed.

Lemma quiet_lookup w w' p : quiet w w' → is_Some (socks w !! p) → is_Some (socks w' !! p).
Proof.
  intros Hq [so E]. pose proof (qt_queues _ _ Hq p so_head queue_field_head) as H. unfold rdf in H.
  rewrite E in H. by destruct (socks w' !! p).
Qed.

(** The socket [x] may be put on a queue. *)
Definition ready (w : world) (x : Z) : Prop :=
  nofd (socks w) x = Some 1 ∧ ∀ so, socks w !! x = Some so → calm (ms w) so.

Lemma winv_ready w A d ls x : winv w A → A !! d = Some ls → x ∈ ls.1 ++ ls.2 → ready w x.
Proof.
  intros [R1 _ _ R4 R5] HA Hx. destruct ls as [l0 l1].
  pose proof (ho_member _ _ _ _ (rp_head _ _ R1 _ _ _ HA) x Hx) as Hh.
  assert (d ≠ 0) by (eapply repr_member; [done|done|exact Hx]).
  split; [by eapply R4|]. intros so E. apply (R5 _ _ E). unfold rdf in Hh. rewrite E in Hh. cbn in Hh. congruence.
Qed.

Lemma queue_only_nofd w w' p : queue_only w w' → nofd (socks w') p = nofd (socks w) p.
Proof. intros [Q _ _ _]. unfold nofd. rewrite Q; [done|]. unfold queue_field. set_solver. Qed.

Lemma queue_only_calm w w' p so' :
  queue_only w w' → socks w' !! p = Some so' → ∃ so, socks w !! p = Some so ∧ (calm (ms w) so → calm (ms w') so').
Proof.
  intros [_ Q2 Q3 _] E. specialize (Q2 p). unfold bufs in Q2. rewrite E in Q2.
  destruct (socks w !! p) as [so|]; [|done]. injection Q2 as _ H1 H2. exists so. split; [done|].
  unfold calm. by rewrite H1, H2, Q3.
Qed.

Lemma queue_only_ready w w' x : queue_only w w' → ready w x → ready w' x.
Proof.
  intros Q [H1 H2]. split; [by rewrite (queue_only_nofd _ _ _ Q)|].
  intros so' E. destruct (queue_only_calm _ _ _ _ Q E) as (so & E' & H). by apply H, H2.
Qed.

Lemma quiet_ready w w' x : quiet w w' → ready w x → ready w' x.
Proof.
  intros Q [H1 H2]. split; [by rewrite (qt_nofd _ _ Q)|].
  intros so' E. destruct (qt_calm _ _ Q _ _ E) as (so & E' & H). by apply H, H2.
Qed.

(** After a queue operation the invariant holds again, if whoever is on a queue
    now was on one before or was ready for it. *)
Lemma winv_requeue w w' A A' :
  winv w A → queue_only w w' → repr (socks w') A' →
  (∀ d ls, A' !! d = Some ls → (length ls.1 + length ls.2 <= 8)%nat) →
  (∀ x d, rdf (socks w') x so_head = Some d → d ≠ 0 →
    (∃ d0, d0 ≠ 0 ∧ rdf (socks w) x so_head = Some d0) ∨ ready w x) → winv w' A'.
Proof.
  intros [R1 R2 R3 R4 R5] Q Hr Hl Hx. constructor; [done|done| | |].
  - intros p v. rewrite (qo_fld _ _ Q); [apply R3|]. unfold queue_field. set_solver.
  - intros p d Hd Hd0. rewrite (queue_only_nofd _ _ _ Q).
    destruct (Hx _ _ Hd Hd0) as [(d' & ? & ?)|[? _]]; [by eapply R4|done].
  - intros p so' E Hd. destruct (queue_only_calm _ _ _ _ Q E) as (so & E' & H). apply H.
    destruct (Hx p (fld so' so_head)) as [(d' & Hd' & Hr')|[_ Hc]]; [unfold rdf; by rewrite E|done| |by apply Hc].
    apply (R5 _ _ E'). unfold rdf in Hr'. rewrite E' in Hr'. cbn in Hr'. congruence.
Qed.

(** Members of the queues after a change of the lists. *)
Lemma repr_queued h A x d : repr h A → rdf h x so_head = Some d → d ≠ 0 → ∃ ls, A !! d = Some ls ∧ x ∈ ls.1 ++ ls.2.
Proof.
  intros Hr Hx Hd. apply (rp_all _ _ Hr) in Hx. rewrite decide_False in Hx by done.
  destruct Hx as (l0 & l1 & HA & Hx). by exists (l0, l1).
Qed.

Lemma length_enq q x ls : (length (enq q x ls).1 + length (enq q x ls).2 = S (length ls.1 + length ls.2))%nat.
Proof. unfold enq. destruct (q =? 0); cbn; rewrite length_app; cbn; lia. Qed.

Lemma length_deq q x ls : NoDup (ls.1 ++ ls.2) → x ∈ on_queue q ls →
  S (length (deq q x ls).1 + length (deq q x ls).2) = (length ls.1 + length ls.2)%nat.
Proof.
  intros (H1 & _ & H2)%NoDup_app Hx. unfold deq, on_queue in *. destruct (q =? 0); cbn in *.
  all: apply list_elem_of_split in Hx as (k1 & k2 & E); rewrite E in *.
  all: rewrite without_split; [rewrite !length_app; cbn; lia|..].
  - apply NoDup_app in H1 as (_ & H1 & _). intros Hin. apply H1 in Hin. set_solver.
  - apply NoDup_app in H1 as (_ & _ & [H1 _]%NoDup_cons). done.
  - apply NoDup_app in H2 as (_ & H2 & _). intros Hin. apply H2 in Hin. set_solver.
  - apply NoDup_app in H2 as (_ & _ & [H2 _]%NoDup_cons). done.
Qed.

(** The two queue operations under the invariant. *)
Lemma soqremque_winv q w A d x ls :
  winv w A → A !! d = Some ls → x ∈ ls.1 ++ ls.2 →
  wp (soqremque x q) w (λ r w',
    (r = 1 ∧ x ∈ on_queue q ls ∧ winv w' (<[x := ([], [])]> (<[d := deq q x ls]> A)) ∧ queue_only w w') ∨
    (r = 0 ∧ (x ∉ on_queue q ls) ∧ w' = w)).
Proof.
  intros Hw HA Hx. pose proof (wi_len _ _ Hw _ _ HA) as Hlen.
  eapply wp_mono; [apply (soqremque_spec q w A d x ls); [apply Hw|done|done|]|].
  { unfold on_queue. destruct (q =? 0); lia. }
  intros r w' [(-> & Hq & Hr & Ho)|H]; [left|by right]. split_and!; [done|done| |done].
  pose proof (rp_head _ _ (wi_repr _ _ Hw) d ls.1 ls.2) as Hh. rewrite <- surjective_pairing in Hh.
  apply Hh in HA as Hn. apply ho_nodup in Hn.
  eapply winv_requeue; [done|done|done| |].
  - intros d' ls'. destruct (decide (d' = x)) as [->|]; [rewrite lookup_insert_eq; intros [= <-]; cbn; lia|].
    rewrite lookup_insert_ne by done. destruct (decide (d' = d)) as [->|]; [|rewrite lookup_insert_ne by done; by apply Hw].
    rewrite lookup_insert_eq. intros [= <-]. pose proof (length_deq q x ls Hn Hq). lia.
  - intros y e Hy He. left. destruct (repr_queued _ _ _ _ Hr Hy He) as (ls' & HA' & Hin).
    destruct (decide (e = x)) as [->|]; [rewrite lookup_insert_eq in HA'; injection HA' as <-; by apply elem_of_nil in Hin|].
    rewrite lookup_insert_ne in HA' by done. destruct (decide (e = d)) as [->|].
    + rewrite lookup_insert_eq in HA'. injection HA' as <-. apply elem_of_deq in Hin as [_ Hin]; [|done..].
      exists d. split; [done|]. by apply (ho_member _ _ _ _ (Hh HA)).
    + rewrite lookup_insert_ne in HA' by done. exists e. split; [done|]. destruct ls' as [m0 m1].
      by apply (ho_member _ _ _ _ (rp_head _ _ (wi_repr _ _ Hw) _ _ _ HA')).
Qed.

Lemma soqinsque_winv q w A d x ls :
  winv w A → A !! d = Some ls → A !! x = Some ([], []) → x ≠ d → ready w x →
  (length ls.1 + length ls.2 < 8)%nat →
  wp (soqinsque d x q) w (λ _ w', winv w' (<[d := enq q x ls]> (delete x A)) ∧ queue_only w w').
Proof.
  intros Hw HA HAx Hxd Hx Hlen. pose proof (wi_repr _ _ Hw) as Hr0.
  eapply wp_mono; [apply (soqinsque_spec q w A d x ls); [done|done|done|done|]|].
  { unfold on_queue. destruct (q =? 0); lia. }
  intros _ w' [Hr Ho]. split; [|done]. eapply winv_requeue; [done|done|done| |].
  - intros d' ls'. destruct (decide (d' = d)) as [->|].
    + rewrite lookup_insert_eq. intros [= <-]. rewrite length_enq. lia.
    + rewrite lookup_insert_ne by done. intros [_ H]%lookup_delete_Some. by apply (wi_len _ _ Hw) in H.
  - intros y e Hy He. destruct (repr_queued _ _ _ _ Hr Hy He) as (ls' & HA' & Hin).
    destruct (decide (e = d)) as [->|].
    + rewrite lookup_insert_eq in HA'. injection HA' as <-. apply elem_of_enq in Hin as [->|Hin]; [by right|left].
      exists d. split; [done|]. destruct ls as [l0 l1]. by apply (ho_member _ _ _ _ (rp_head _ _ Hr0 _ _ _ HA)).
    + rewrite lookup_insert_ne in HA' by done. apply lookup_delete_Some in HA' as [_ HA'].
      left. exists e. split; [done|]. destruct ls' as [m0 m1].
      by apply (ho_member _ _ _ _ (rp_head _ _ Hr0 _ _ _ HA')).
Qed.

(** [soisconnected] moves a connection in progress to the end of the queue of the
    complete ones and wakes the thread that waits for it. *)
Lemma soisconnected_spec w A d x ls :
  winv w A → A !! d = Some ls → x ∈ ls.1 →
  wp (soisconnected x) w (λ _ w',
    winv w' (<[d := (without x ls.1, ls.2 ++ [x])]> A) ∧ Timeo d ∈ wakeups w').
Proof.
  intros Hw HA Hx. assert (Hx' : x ∈ ls.1 ++ ls.2) by set_solver.
  pose proof (wi_repr _ _ Hw) as Hr. destruct (repr_lookup _ _ _ _ Hr HA) as [Hds Hda].
  assert (Hh : rdf (socks w) x so_head = Some d).
  { destruct ls as [l0 l1]. by apply (ho_member _ _ _ _ (rp_head _ _ Hr _ _ _ HA)). }
  assert (HAx : A !! x = None ∧ x ≠ d).
  { destruct ls as [l0 l1]. destruct (repr_member _ _ _ _ _ _ Hr HA Hx') as (H & _). split; congruence. }
  pose proof (rdf_Some_lookup _ _ _ _ Hh) as Hxs. pose proof (winv_ready _ _ _ _ _ Hw HA Hx') as Hrd.
  unfold soisconnected. wp_step. eapply wp_rd; [done|]. wp_step.
  apply wp_clrflag; [done|unfold queue_field; set_solver|done|done|]. intros w1 Q1. wp_step.
  apply wp_orflag; [by eapply quiet_lookup|unfold queue_field; set_solver|done|done|]. intros w2 Q2.
  assert (Q : quiet w w2) by by etrans. apply (winv_quiet _ _ _ Q) in Hw.
  wp_step. unfold ztrue at 1. rewrite (proj2 (Z.eqb_neq d 0)) by lia. cbn [negb].
  eapply wp_mono; [apply (soqremque_winv 0 w2 A d x ls Hw HA Hx')|]. intros r w3 [(-> & Hq & Hw3 & Qo)|(_ & Hn & _)]; [|done].
  cbn [ztrue]. change (ztrue 1) with true. cbn iota. wp_step.
  eapply wp_mono; [apply (soqinsque_winv 1 w3 _ d x (deq 0 x ls) Hw3)|].
  - rewrite lookup_insert_ne by (intros ->; by apply HAx). apply lookup_insert_eq.
  - apply lookup_insert_eq.
  - apply HAx.
  - eapply queue_only_ready; [done|]. by eapply quiet_ready.
  - pose proof (wi_len _ _ Hw _ _ HA). destruct ls as [l0 l1].
    pose proof (length_deq 0 x (l0, l1) (ho_nodup _ _ _ _ (rp_head _ _ Hr _ _ _ HA)) Hq). cbn in *. lia.
  - intros _ w4 [Hw4 Qo4]. wp_step. apply wp_sorwakeup.
    { apply (repr_lookup _ _ d (enq 1 x (deq 0 x ls)) (wi_repr _ _ Hw4)). apply lookup_insert_eq. }
    intros w5 Q5 _. apply wp_wakeup. intros w6 Q6 _ Ew. split; [|rewrite Ew; set_solver].
    eapply winv_quiet; [etrans; [exact Q5|exact Q6]|]. replace (<[d := (without x ls.1, ls.2 ++ [x])]> A) with
      (<[d := enq 1 x (deq 0 x ls)]> (delete x (<[x := ([], [])]> (<[d := deq 0 x ls]> A)))); [done|].
    rewrite delete_insert_id by (rewrite lookup_insert_ne; [apply HAx|destruct HAx; congruence]).
    by rewrite insert_insert_eq.
Qed.

(** ** New and freed sockets *)

Lemma rdf_insert_ne h x s p f : p ≠ x → rdf (<[x := s]> h) p f = rdf h p f.
Proof. intros H. unfold rdf. by rewrite lookup_insert_ne. Qed.
Lemma rdf_insert h x s f : rdf (<[x := s]> h) x f = Some (fld s f).
Proof. unfold rdf. by rewrite lookup_insert_eq. Qed.
Lemma rdf_delete_ne h x p f : p ≠ x → rdf (delete x h) p f = rdf h p f.
Proof. intros H. unfold rdf. by rewrite lookup_delete_ne. Qed.
Lemma rdf_delete h x f : rdf (delete x h) x f = None.
Proof. unfold rdf. by rewrite lookup_delete_eq. Qed.

Lemma repr_notmember h A d l0 l1 x : repr h A → h !! x = None → A !! d = Some (l0, l1) → x ∉ d :: l0 ++ l1.
Proof.
  intros Hr Hx HA Hin. pose proof (rp_head _ _ Hr _ _ _ HA) as Hh.
  assert (is_Some (h !! x)) as [? ?]; [|congruence].
  apply elem_of_cons in Hin as [->|Hin].
  - eapply rdf_Some_lookup, (ho_head _ _ _ _ Hh).
  - eapply rdf_Some_lookup, (ho_member _ _ _ _ Hh _ Hin).
Qed.

(** A new socket whose queue fields are clear. *)
Lemma winv_new w A x s :
  winv w A → socks w !! x = None → 0 < x < 4294967296 →
  (∀ f, queue_field f ∨ f = so_qlimit → fld s f = 0) →
  winv (set_socks (<[x := s]> (socks w)) w) (<[x := ([], [])]> A).
Proof.
  intros [R1 R2 R3 R4 R5] Hx Hxa Hs.
  assert (Hs' : ∀ f, f ∈ [so_head; so_q0; so_q; so_q0len; so_qlen] → fld s f = 0) by (intros f Hf; apply Hs; by left).
  assert (Hin : ∀ p d, rdf (<[x := s]> (socks w)) p so_head = Some d → d ≠ 0 → p ≠ x ∧ rdf (socks w) p so_head = Some d).
  { intros p d Hd Hd0. destruct (decide (p = x)) as [->|]; [|by rewrite rdf_insert_ne in Hd].
    rewrite rdf_insert, Hs' in Hd by set_solver. congruence. }
  assert (HAx : A !! x = None).
  { destruct (A !! x) as [[l0 l1]|] eqn:E; [|done]. eapply repr_notmember in E; [|done|done]. set_solver. }
  constructor; cbn.
  - constructor.
    + intros d l0 l1. destruct (decide (d = x)) as [->|].
      * rewrite lookup_insert_eq. intros [= <- <-].
        constructor; rewrite ?rdf_insert; [| | | | |apply NoDup_nil_2|intros ? []%elem_of_nil].
        { by rewrite Hs' by set_solver. }
        1, 2: split_and!; [done|lia|]; exists 0; rewrite rdf_insert, Hs' by set_solver; done.
        all: by rewrite Hs' by set_solver.
      * rewrite lookup_insert_ne by done. intros HA. eapply head_ok_frame; [|by apply (rp_head _ _ R1)].
        intros p f Hp _. apply rdf_insert_ne. intros ->. by eapply repr_notmember in HA.
    + intros p d Hd. destruct (decide (p = x)) as [->|]; [done|]. rewrite rdf_insert_ne in Hd by done. by eapply (rp_addr _ _ R1).
    + intros p d Hd. destruct (decide (d = 0)) as [->|Hd0].
      * destruct (decide (p = x)) as [->|]; [by rewrite lookup_insert_eq|]. rewrite lookup_insert_ne by done.
        rewrite rdf_insert_ne in Hd by done. apply (rp_all _ _ R1) in Hd. by rewrite decide_True in Hd.
      * destruct (Hin _ _ Hd Hd0) as [Hp Hd']. apply (rp_all _ _ R1) in Hd' as Hq. rewrite decide_False in Hq by done.
        destruct Hq as (l0 & l1 & HA & Hq). exists l0, l1. rewrite lookup_insert_ne; [done|congruence].
    + intros p d f Hd Hd0 Hf. destruct (Hin _ _ Hd Hd0) as [Hp Hd']. rewrite rdf_insert_ne by done. by eapply (rp_leaf _ _ R1).
  - intros d ls. destruct (decide (d = x)) as [->|]; [rewrite lookup_insert_eq; intros [= <-]; cbn; lia|].
    rewrite lookup_insert_ne by done. apply R2.
  - intros p v. destruct (decide (p = x)) as [->|]; [|rewrite rdf_insert_ne by done; apply R3].
    rewrite rdf_insert, Hs by by right. intros [= <-]. unfold SOMAXCONN. lia.
  - intros p d Hd Hd0. destruct (Hin _ _ Hd Hd0) as [Hp Hd']. unfold nofd. rewrite rdf_insert_ne by done. by eapply R4.
  - intros p so. destruct (decide (p = x)) as [->|]; [|rewrite lookup_insert_ne by done; apply R5].
    rewrite lookup_insert_eq. intros [= <-]. by rewrite Hs' by set_solver.
Qed.

(** A socket that is on no queue and has none is freed. *)
Lemma winv_free w A x :
  winv w A → A !! x = Some ([], []) → winv (set_socks (delete x (socks w)) w) (delete x A).
Proof.
  intros [R1 R2 R3 R4 R5] HAx.
  assert (Hxn : ∀ d l0 l1, A !! d = Some (l0, l1) → x ∉ l0 ++ l1).
  { intros d l0 l1 HA Hin. destruct (repr_member _ _ _ _ _ _ R1 HA Hin) as (Hn & _). congruence. }
  assert (Hin : ∀ p d f, rdf (delete x (socks w)) p f = Some d → p ≠ x ∧ rdf (socks w) p f = Some d).
  { intros p d f Hd. destruct (decide (p = x)) as [->|]; [by rewrite rdf_delete in Hd|]. by rewrite rdf_delete_ne in Hd. }
  constructor; cbn.
  - constructor.
    + intros d l0 l1 [Hd HA]%lookup_delete_Some. eapply head_ok_frame; [|by apply (rp_head _ _ R1)].
      intros p f Hp _. apply rdf_delete_ne. intros ->. apply elem_of_cons in Hp as [?|Hp]; [done|]. by eapply Hxn.
    + intros p d [Hp Hd]%Hin. by eapply (rp_addr _ _ R1).
    + intros p d [Hp Hd]%Hin. apply (rp_all _ _ R1) in Hd. case_decide; [by rewrite lookup_delete_ne|].
      destruct Hd as (l0 & l1 & HA & Hd). exists l0, l1. rewrite lookup_delete_ne; [done|].
      intros ->. rewrite HAx in HA. injection HA as <- <-. by apply elem_of_nil in Hd.
    + intros p d f [Hp Hd]%Hin Hd0 Hf. rewrite rdf_delete_ne by done. by eapply (rp_leaf _ _ R1).
  - intros d ls [_ HA]%lookup_delete_Some. by apply R2 in HA.
  - intros p v [_ Hv]%Hin. by apply R3 in Hv.
  - intros p d [Hp Hd]%Hin Hd0. unfold nofd. rewrite rdf_delete_ne by done. by eapply R4.
  - intros p so [_ E]%lookup_delete_Some. by apply (R5 p so E).
Qed.

(** Buffers when the mbuf layer moves on. *)
Lemma idle_store s s' sb : Mbuf.same_store s s' → idle s sb → idle s' sb.
Proof.
  intros Hs ((H1 & H2 & H3 & H4 & H5) & Hf & Hl). split_and!; [|done|done].
  split_and!; [done|done| |  |done].
  - eapply Forall_impl; [exact H3|]. intros m. by apply Mbuf.mbuf_ok_store.
  - eapply Forall_impl; [exact H4|]. intros m. by apply Mbuf.cl_known_store.
Qed.

Lemma quiet_store w s' : Mbuf.same_store (ms w) s' → quiet w (World (socks w) s' (wakeups w)).
Proof.
  intros Hs. constructor; [done..|]. intros p so E. exists so. split; [done|].
  intros [H1 H2]. split; by eapply idle_store.
Qed.

Lemma idle_sbrelease s sb : idle s sb → wp (sbrelease (flush_fuel sb) sb) s (λ _ s', Mbuf.same_store s s').
Proof.
  intros (H1 & H2 & H3). unfold sbrelease. wp_step.
  eapply wp_mono; [apply sbflush_correct; [done|done|done|unfold flush_fuel; lia]|].
  intros sb' s' (Hs & _). by apply wp_ret.
Qed.

Lemma wp_mbufs {A} (m : M Mbuf.mstate A) w P Q :
  wp m (ms w) P → (∀ a s', P a s' → Q a (World (socks w) s' (wakeups w))) → wp (low m) w Q.
Proof.
  unfold wp, low. intros H HQ. destruct (m (ms w)) as [[a s']| |]; [by apply HQ|done..].
Qed.

(** A socket that may be freed: not on a queue, without queues, with buffers
    nobody uses. *)
Lemma wp_deref p so w (Q : socket → world → Prop) : socks w !! p = Some so → Q so w → wp (deref p) w Q.
Proof. intros E HQ. unfold wp, deref. by rewrite E. Qed.

Lemma wp_mod_sock p g so w (Q : () → world → Prop) :
  socks w !! p = Some so → Q () (set_socks (alter g p (socks w)) w) → wp (mod_so p g) w Q.
Proof. intros E HQ. unfold wp, mod_so. by rewrite E. Qed.

(** Changing the buffers of a socket that is on no queue. *)
Lemma winv_buffers w A p g ls :
  winv w A → A !! p = Some ls →
  (∀ so f, queue_field f ∨ f = so_qlimit → fld (g so) f = fld so f) →
  winv (set_socks (alter g p (socks w)) w) A.
Proof.
  intros Hw HA Hg. pose proof (wi_repr _ _ Hw) as Hr. destruct ls as [l0 l1].
  pose proof (ho_head _ _ _ _ (rp_head _ _ Hr _ _ _ HA)) as Hh.
  assert (Hf : ∀ p' f, queue_field f ∨ f = so_qlimit → rdf (alter g p (socks w)) p' f = rdf (socks w) p' f).
  { intros p' f Hq. unfold rdf. destruct (decide (p' = p)) as [->|]; [|by rewrite lookup_alter_ne].
    rewrite lookup_alter_eq. destruct (socks w !! p) as [so|]; [|done]. cbn. f_equal. by apply Hg. }
  destruct Hw as [R1 R2 R3 R4 R5]. constructor; cbn; [|done| | |].
  - assert (Hs : same_queues (socks w) (alter g p (socks w))) by (intros p' f Hq; apply Hf; by left). by rewrite <- Hs.
  - intros p' v. rewrite Hf by by right. apply R3.
  - intros p' d. rewrite Hf by (left; auto with anp). intros Hd Hd0.
    unfold nofd. destruct (decide (p' = p)) as [->|]; [congruence|]. unfold rdf. rewrite lookup_alter_ne by done.
    by apply (R4 _ _ Hd).
  - intros p' so E Hd. destruct (decide (p' = p)) as [->|]; [|rewrite lookup_alter_ne in E by done; by apply (R5 _ _ E)].
    rewrite lookup_alter_eq in E. unfold rdf in Hh. destruct (socks w !! p) as [so0|]; [|done]. cbn in *.
    injection E as <-. injection Hh as Hh. rewrite Hg in Hd by (left; auto with anp). done.
Qed.

(** Steps on one socket [x] that is on no queue: the invariant and the socket are
    tracked. *)
Record solo (A : queues) (x : Z) (so : socket) (s : Mbuf.mstate) (w : world) : Prop := Solo
  { sl_inv : winv w A; sl_head : is_Some (A !! x); sl_so : socks w !! x = Some so; sl_ms : ms w = s }.

Lemma wp_solo_mod A x so s w g (Q : () → world → Prop) :
  solo A x so s w → (∀ so f, queue_field f ∨ f = so_qlimit → fld (g so) f = fld so f) →
  (∀ w', solo A x (g so) s w' → Q () w') → wp (mod_so x g) w Q.
Proof.
  intros [H1 [ls H2] H3 H4] Hg HQ. eapply wp_mod_sock; [done|]. apply HQ. constructor; [|by exists ls| |done].
  - by eapply winv_buffers.
  - cbn. by rewrite lookup_alter_eq, H3.
Qed.

Lemma wp_solo_wakeup A x so s w c (Q : () → world → Prop) :
  solo A x so s w → (∀ w', solo A x so s w' → Q () w') → wp (wakeup c) w Q.
Proof.
  intros [H1 H2 H3 H4] HQ. apply wp_modify, HQ. constructor; [|done..].
  eapply winv_quiet; [|exact H1]. constructor; [done..|]. intros p so' E. by exists so'.
Qed.

Lemma wp_solo_rd A x so s w f (Q : Z → world → Prop) : solo A x so s w → Q (fld so f) w → wp (rd f x) w Q.
Proof. intros [_ _ E _]. apply wp_rd. unfold rdf. by rewrite E. Qed.

Lemma wp_solo_orflag A x so s w b (Q : () → world → Prop) :
  solo A x so s w → Z.land b 1 = 0 →
  (∀ w', solo A x (set_fld so_state (Z.lor (fld so so_state) b) so) s w' → Q () w') → wp (orflag so_state x b) w Q.
Proof.
  intros [H1 H2 H3 H4] Hb HQ. unfold orflag. wp_step. eapply wp_rd; [unfold rdf; by rewrite H3|].
  apply wp_wr; [by eexists|]. apply HQ. constructor; [|done|cbn; unfold upd; by rewrite lookup_alter_eq, H3|done].
  eapply winv_quiet; [|exact H1]. apply quiet_upd; [unfold queue_field; set_solver|done|].
  intros _ so' E. cbn. assert (so' = so) as -> by congruence. by rewrite Z.land_lor_distr_l, Hb, Z.lor_0_r.
Qed.

Lemma wp_solo_sorwakeup A x so s w (Q : () → world → Prop) :
  solo A x so s w → (∀ w', solo A x (set_rcv (sowakeup (so_rcv so)).1 so) s w' → Q () w') → wp (sorwakeup x) w Q.
Proof.
  intros Hs HQ. unfold sorwakeup. wp_step. eapply wp_deref; [apply Hs|].
  destruct (sowakeup (so_rcv so)) as [sb b]. wp_step. eapply wp_solo_mod; [done|done|]. intros w' Hw'.
  destruct b; [by eapply wp_solo_wakeup|by apply wp_ret, HQ].
Qed.

Lemma wp_solo_sbrelease A x so s w sb (Q : sockbuf → world → Prop) :
  solo A x so s w → idle s sb →
  (∀ sb s' w', solo A x so s' w' → Mbuf.same_store s s' → Q sb w') → wp (low (sbrelease (flush_fuel sb) sb)) w Q.
Proof.
  intros [H1 H2 H3 <-] Hi HQ. eapply wp_mbufs; [by apply idle_sbrelease|]. intros sb' s' Hs. apply (HQ _ s'); [|done].
  constructor; [|done..]. eapply winv_quiet; [|exact H1]. by apply quiet_store.
Qed.

Lemma wp_solo_clrflag A x so s w b (Q : () → world → Prop) :
  solo A x so s w → (∀ so' w', solo A x so' s w' → Q () w') → wp (clrflag so_state x b) w Q.
Proof.
  intros Hs HQ. unfold clrflag. wp_step. eapply wp_solo_rd; [done|]. unfold wr. eapply wp_solo_mod; [done| |intros w'; apply HQ].
  intros so' f Hf. cbn. rewrite decide_False; [done|]. intros ->. destruct Hf as [Hf|?]; [|done]. revert Hf. unfold queue_field. set_solver.
Qed.

Section Free.
Context (sb_lock : sockbuf → sockbuf * Z).

Lemma land_lock_lor f b : Z.land f SB_LOCK = 0 → Z.land b SB_LOCK = 0 → Z.land (Z.lor f b) SB_LOCK = 0.
Proof. intros H1 H2. by rewrite Z.land_lor_distr_l, H1, H2. Qed.

Lemma land_lock_clear f : Z.land (Z.land f (Z.lnot SB_LOCK)) SB_LOCK = 0.
Proof. rewrite <- Z.land_assoc. change (Z.land (Z.lnot SB_LOCK) SB_LOCK) with 0. apply Z.land_0_r. Qed.

Lemma idle_flags s sb f : idle s sb → Z.land f SB_LOCK = 0 → idle s (with_flags f sb).
Proof. by intros (? & ? & ?) ?. Qed.

Lemma idle_sbunlock s sb : sb_ok s sb → flushable sb → idle s (sbunlock sb).1.
Proof.
  intros H1 H2. unfold sbunlock. destruct (ztrue _); cbn; (split; [done|split; [done|]]); cbn; [|apply land_lock_clear].
  rewrite <- Z.land_assoc, (Z.land_comm (Z.lnot SB_WANT)), Z.land_assoc, land_lock_clear. done.
Qed.

Lemma sorflush_solo A x so s w (Q : () → world → Prop) :
  solo A x so s w → idle s (so_rcv so) →
  (∀ so' s' w', solo A x so' s' w' → Mbuf.same_store s s' → so_snd so' = so_snd so → Q () w') →
  wp (sorflush sb_lock x) w Q.
Proof.
  intros Hs (Hok & Hfl & Hlk) HQ. unfold sorflush. wp_step. eapply wp_solo_mod; [done|done|]. intros w1 H1.
  wp_step. eapply wp_solo_mod; [done|done|]. intros w2 H2. wp_step. unfold socantrcvmore. wp_step.
  eapply wp_solo_orflag; [done|done|]. intros w3 H3. eapply wp_solo_sorwakeup; [done|]. intros w4 H4.
  wp_step. eapply wp_solo_mod; [done|done|]. intros w5 H5. wp_step. eapply wp_deref; [apply H5|].
  wp_step. eapply wp_solo_mod; [exact H5| |].
  { intros so0 f [Hf|Hf]; cbn; (rewrite decide_False; [done|]); [|by subst]. intros ->. revert Hf. unfold queue_field. set_solver. }
  intros w6 H6. wp_step.
  eapply wp_solo_sbrelease; [exact H6| |].
  - cbn. unfold sblock. cbn. rewrite (land_lock_lor _ SB_NOINTR Hlk) by done. cbn.
    apply idle_sbunlock; unfold sowakeup; destruct (ztrue _); done.
  - intros sb' s' w' H7 Hst. apply wp_ret. eapply HQ; [exact H7|done|done].
Qed.

Lemma release_solo A x so s w (Q : () → world → Prop) :
  solo A x so s w → A !! x = Some ([], []) → calm s so →
  (∀ w', winv w' (delete x A) → Q () w') → wp (release sb_lock x) w Q.
Proof.
  intros Hs HA [Hr Hsd] HQ. unfold release. wp_step. eapply wp_deref; [apply Hs|].
  wp_step. eapply wp_solo_sbrelease; [done|done|]. intros sb s1 w1 H1 Hst. wp_step.
  eapply wp_solo_mod; [done|done|]. intros w2 H2. wp_step.
  eapply sorflush_solo; [done| |].
  { cbn. by eapply idle_store. }
  intros so' s' w' H3 _ _. apply wp_modify, HQ. apply winv_free; [apply H3|done].
Qed.

(** A store of the value that is there already. *)
Lemma quiet_noop w p f v : rdf (socks w) p f = Some (convert f v) → quiet w (set_socks (upd p f v (socks w)) w).
Proof.
  intros Hv. assert (Hs : is_Some (socks w !! p)) by by eapply rdf_Some_lookup.
  assert (Hr : ∀ p' g, rdf (upd p f v (socks w)) p' g = rdf (socks w) p' g).
  { intros p' g. rewrite rdf_upd. case_decide as Hd; [|done]. destruct Hd as [-> ->]. destruct Hs as [so E].
    rewrite Hv, E. done. }
  constructor; cbn; [intros p' g _; apply Hr|intros p'; apply Hr|intros p'; unfold nofd; by rewrite Hr|].
  intros p' so' E. pose proof (bufs_upd (socks w) p f v p') as Hb. unfold bufs in Hb. rewrite E in Hb.
  destruct (socks w !! p') as [so|]; [|done]. injection Hb as _ H1 H2. exists so. split; [done|].
  unfold calm. by rewrite H1, H2.
Qed.

(** [sofree] of a queued socket: it leaves its queue and disappears. *)
Lemma sofree_queued A w d x ls :
  winv w A → A !! d = Some ls → x ∈ ls.1 ++ ls.2 → rdf (socks w) x so_pcb = Some 0 →
  wp (sofree sb_lock x) w (λ _ w', winv w' (<[d := (without x ls.1, without x ls.2)]> A)).
Proof.
  intros Hw HA Hx Hp. pose proof (wi_repr _ _ Hw) as Hr.
  destruct (winv_ready _ _ _ _ _ Hw HA Hx) as [Hn Hc]. destruct ls as [l0 l1].
  pose proof (rp_head _ _ Hr _ _ _ HA) as Hh. pose proof (ho_member _ _ _ _ Hh x Hx) as Hxh.
  destruct (repr_member _ _ _ _ _ _ Hr HA Hx) as (HAx & Hd0 & _).
  unfold nofd in Hn. destruct (rdf (socks w) x so_state) as [v|] eqn:Ev; [|done]. cbn in Hn. injection Hn as Hn.
  unfold sofree. wp_step. eapply wp_rd; [done|]. unfold testflag. wp_step. wp_step. eapply wp_rd; [done|]. wp_step.
  rewrite Hn. change (ztrue 0 || negb (ztrue 1)) with false. cbv iota. wp_step. eapply wp_rd; [done|].
  unfold ztrue at 1. rewrite (proj2 (Z.eqb_neq d 0)) by done. cbn [negb].
  assert (Hend : ∀ q w1, winv w1 (<[x := ([], [])]> (<[d := deq q x (l0, l1)]> A)) → queue_only w w1 → x ∈ on_queue q (l0, l1) →
    wp (bind (wr so_head x 0) (λ _, release sb_lock x)) w1 (λ _ w', winv w' (<[d := (without x l0, without x l1)]> A))).
  { intros q w1 Hw1 Qo Hq. assert (HA1 : (<[x := ([], [])]> (<[d := deq q x (l0, l1)]> A)) !! x = Some ([], [])) by apply lookup_insert_eq.
    pose proof (ho_head _ _ _ _ (rp_head _ _ (wi_repr _ _ Hw1) _ _ _ HA1)) as H0.
    wp_step. apply wp_wr; [by eapply rdf_Some_lookup|].
    assert (Q2 := quiet_noop w1 x so_head 0 H0). apply (winv_quiet _ _ _ Q2) in Hw1.
    destruct (quiet_lookup _ _ x Q2 (rdf_Some_lookup _ _ _ _ H0)) as [so2 E2].
    eapply release_solo; [constructor; [done|by exists ([], [])|exact E2|done]|done| |].
    - destruct (qt_calm _ _ Q2 _ _ E2) as (so1 & E1 & H1). apply H1.
      destruct (queue_only_calm _ _ _ _ Qo E1) as (so & E & Hcl). by apply Hcl, Hc.
    - intros w' Hw'. rewrite delete_insert_id in Hw' by (rewrite lookup_insert_ne; congruence).
      replace (without x l0, without x l1) with (deq q x (l0, l1)); [done|].
      apply ho_nodup, NoDup_app in Hh as (_ & Hdj & _). revert Hq. unfold deq, on_queue. destruct (q =? 0); cbn; intros Hq; f_equal.
      + symmetry. apply without_notin. by apply Hdj.
      + symmetry. apply without_notin. intros Hin. by eapply Hdj. }
  apply wp_bind, wp_bind. eapply wp_mono; [apply (soqremque_winv 0 w A d x (l0, l1) Hw HA Hx)|].
  intros r w1 [(-> & Hq & Hw1 & Qo)|(-> & Hq & ->)].
  - change (ztrue 1) with true. wp_step. apply wp_ret. change (ztrue 1) with true. cbv iota.
    specialize (Hend 0 w1 Hw1 Qo Hq). unfold wp, bind in *. by destruct (wr so_head x 0 w1) as [[]| |].
  - change (ztrue 0) with false. cbv iota. wp_step.
    eapply wp_mono; [apply (soqremque_winv 1 w A d x (l0, l1) Hw HA Hx)|].
    intros r w1 [(-> & Hq1 & Hw1 & Qo)|(-> & Hq1 & ->)].
    + change (ztrue 1) with true. cbv iota.
      specialize (Hend 1 w1 Hw1 Qo Hq1). unfold wp, bind in *. by destruct (wr so_head x 0 w1) as [[]| |].
    + exfalso. unfold on_queue in *. cbn in *. set_solver.
Qed.

End Free.

(** ** What the socket layer expects of a protocol *)

(** [PRU_ATTACH], [PRU_LISTEN] and [PRU_ACCEPT] leave the queues alone; [PRU_ABORT]
    of a queued socket takes it off its queue and frees it. *)
Class Protocol (usrreq : protosw → Z → Z → M world Z) : Prop := {
  proto_quiet : ∀ pr req so w, req ∈ [PRU_ATTACH; PRU_LISTEN; PRU_ACCEPT] → is_Some (socks w !! so) →
    wp (usrreq pr req so) w (λ _ w', quiet w w');
  proto_abort : ∀ pr w A d ls x, winv w A → A !! d = Some ls → x ∈ ls.1 ++ ls.2 →
    wp (usrreq pr PRU_ABORT x) w (λ _ w', winv w' (<[d := (without x ls.1, without x ls.2)]> A)) }.

(** The allocator: a fresh address, or none. *)
Definition malloc_ok (malloc : gmap Z socket → option Z) : Prop :=
  ∀ h p, malloc h = Some p → h !! p = None ∧ 0 < p < 4294967296.

(** A buffer without data. *)
Definition blank (sb : sockbuf) : Prop := sb_cc sb = 0 ∧ sb_mbcnt sb = 0 ∧ sb_mb sb = [] ∧ sb_flags sb = 0.

Lemma blank_idle s sb : blank sb → idle s sb.
Proof.
  intros (H1 & H2 & H3 & H4). unfold idle, sb_ok, flushable, mbufs. rewrite H1, H2, H3, H4. cbn. split_and!; try done.
  all: constructor.
Qed.

Lemma blank_soreserve sb_max fuel snd rcv a b s :
  blank snd → blank rcv →
  wp (soreserve sb_max fuel snd rcv a b) s (λ r s', s' = s ∧ blank r.1.1 ∧ blank r.1.2).
Proof.
  intros Hs Hr. unfold soreserve. unfold sbreserve at 1. destruct (_ <? a); cbn; [by apply wp_ret|].
  unfold sbreserve. destruct (_ <? b); cbn.
  - destruct Hs as (H1 & H2 & H3 & H4). unfold sbrelease, sbflush, wp, bind. destruct fuel; cbn; rewrite H2, H4; cbn; rewrite H1, H3; cbn; by rewrite ?H3.
  - apply wp_ret. split; [done|]. split; cbn; repeat case_match; done.
Qed.

Lemma newconn_socket_ok h :
  (∀ f, queue_field f ∨ f = so_qlimit → fld (newconn_socket h) f = 0) ∧
  Z.land (fld (newconn_socket h) so_state) 1 = 1 ∧ blank (so_snd (newconn_socket h)) ∧ blank (so_rcv (newconn_socket h)).
Proof.
  split_and!; [| |done|done].
  - intros f Hf. unfold queue_field in Hf. destruct f; try done; set_solver.
  - change (fld (newconn_socket h) so_state) with (s16 (Z.lor (fld h so_state) TcpConn.SS_NOFDREF)).
    rewrite land_s16_1, Z.land_lor_distr_l. change (Z.land TcpConn.SS_NOFDREF 1) with 1.
    change (Z.land (fld h so_state) 1) with (Z.land (fld h so_state) (Z.ones 1)).
    rewrite Z.land_ones by lia. change (2 ^ 1) with 2.
    pose proof (Z.mod_pos_bound (fld h so_state) 2 ltac:(lia)).
    assert (fld h so_state mod 2 = 0 ∨ fld h so_state mod 2 = 1) as [-> | ->] by lia; done.
Qed.

Lemma deq_enq q x ls : x ∉ ls.1 ++ ls.2 → deq q x (enq q x ls) = ls.
Proof.
  intros Hx. destruct ls as [l0 l1]. cbn in Hx. unfold deq, enq.
  destruct (q =? 0); cbn [fst snd]; (rewrite without_split; [by rewrite app_nil_r|set_solver|apply not_elem_of_nil]).
Qed.

Section Accept.
Context (usrreq : protosw → Z → Z → M world Z) `{!Protocol usrreq}.
#[local] Set Default Proof Using "Type*".

Lemma wp_request req so w Q :
  req ∈ [PRU_ATTACH; PRU_LISTEN; PRU_ACCEPT] → is_Some (socks w !! so) →
  (∀ e w', quiet w w' → Q e w') → wp (request usrreq req so) w Q.
Proof.
  intros Hq [s E] HQ. unfold request. wp_step. eapply wp_deref; [done|].
  eapply wp_mono; [by apply proto_quiet|]. intros e w' Hw. by apply HQ.
Qed.

(** The end of [sonewconn1]: the socket stays on its queue or is freed again. *)
Lemma newconn_attach_spec w A d ls x status :
  A !! d = Some ls → A !! x = None → x ∉ ls.1 ++ ls.2 → x ≠ d → Z.land status 1 = 0 →
  winv w (<[d := enq (if ztrue status then 1 else 0) x ls]> A) →
  wp (newconn_attach usrreq d x status) w (λ r w',
    (r = 0 ∧ winv w' A) ∨ (r = x ∧ winv w' (<[d := enq (if ztrue status then 1 else 0) x ls]> A))).
Proof.
  intros HA HAx Hx Hxd Hst Hw. set (q := if ztrue status then 1 else 0) in *. unfold newconn_attach. fold q.
  assert (HA1 : (<[d := enq q x ls]> A) !! d = Some (enq q x ls)) by apply lookup_insert_eq.
  assert (Hxin : x ∈ (enq q x ls).1 ++ (enq q x ls).2) by (apply elem_of_enq; by left).
  assert (Hxs : is_Some (socks w !! x)).
  { destruct (enq q x ls) as [m0 m1]. eapply rdf_Some_lookup.
    eapply (ho_member _ _ _ _ (rp_head _ _ (wi_repr _ _ Hw) _ _ _ HA1)). exact Hxin. }
  destruct (repr_lookup _ _ _ _ (wi_repr _ _ Hw) HA1) as [Hds _].
  wp_step. apply wp_request; [set_solver|done|]. intros e w1 Q1. apply (winv_quiet _ _ _ Q1) in Hw as Hw1.
  destruct (ztrue e).
  - wp_step. eapply wp_mono; [apply (soqremque_winv q w1 _ d x _ Hw1 HA1 Hxin)|].
    intros r w2 [(-> & Hq & Hw2 & _)|(_ & Hq & _)].
    2: { exfalso. apply Hq. unfold on_queue, enq. destruct (q =? 0); cbn; set_solver. }
    wp_step. apply wp_modify. apply wp_ret. left. split; [done|].
    apply (winv_free _ _ x) in Hw2; [|apply lookup_insert_eq].
    rewrite deq_enq, insert_insert_eq, (insert_id A d ls), delete_insert_id in Hw2 by done. done.
  - wp_step. destruct (ztrue status); [|apply wp_ret, wp_ret; by right].
    wp_step. apply wp_sorwakeup; [by eapply quiet_lookup|]. intros w2 Q2 _. wp_step. apply wp_wakeup. intros w3 Q3 _ _.
    assert (Q : quiet w w3) by (etrans; [exact Q1|]; etrans; [exact Q2|exact Q3]).
    apply wp_orflag; [by eapply quiet_lookup|unfold queue_field; set_solver|done|done|].
    intros w4 Q4. apply wp_ret. right. split; [done|]. eapply winv_quiet; [exact Q4|]. by eapply winv_quiet.
Qed.

(** [solisten] changes the limit only. *)
Lemma solisten_spec w A d ls backlog :
  winv w A → A !! d = Some ls → wp (solisten usrreq d backlog) w (λ _ w', winv w' A).
Proof.
  intros Hw HA. destruct (repr_lookup _ _ _ _ (wi_repr _ _ Hw) HA) as [Hd _]. unfold solisten.
  wp_step. apply wp_request; [set_solver|done|]. intros e w1 Q1. apply (winv_quiet _ _ _ Q1) in Hw as Hw1.
  destruct (ztrue e); [by apply wp_ret|].
  destruct (repr_queue 1 _ _ _ _ (wi_repr _ _ Hw1) HA) as ((_ & _ & n & Hn & _) & _).
  wp_step. eapply wp_rd; [exact Hn|]. wp_step. 
  assert (Hend : ∀ w2, winv w2 A → wp (do! wr so_qlimit d (Z.min (if backlog <? 0 then 0 else backlog) SOMAXCONN) in ret 0) w2 (λ _ w', winv w' A)).
  { intros w2 Hw2. wp_step. apply wp_wr; [by eapply repr_lookup; [apply Hw2|]|]. apply wp_ret.
    destruct Hw2 as [R1 R2 R3 R4 R5].
    assert (Hs : same_queues (socks w2) (upd d so_qlimit (Z.min (if backlog <? 0 then 0 else backlog) SOMAXCONN) (socks w2)))
      by (apply same_queues_upd; unfold queue_field; set_solver).
    constructor; cbn; [by rewrite <- Hs|done| | |].
    - intros p v. rewrite rdf_upd. case_decide as E; [|apply R3]. destruct E as [-> _].
      destruct (socks w2 !! d); [|done]. cbn. intros [= <-]. unfold SOMAXCONN. rewrite s16_id; [|red]; destruct (backlog <? 0) eqn:?; zbool; lia.
    - intros p e'. rewrite Hs by auto with anp. intros H1 H2. unfold nofd. rewrite rdf_upd, decide_False by (by intros [_ ?]). by apply (R4 p e').
    - intros p so E Hh. unfold upd in E. destruct (decide (p = d)) as [->|]; [|rewrite lookup_alter_ne in E by done; by apply (R5 p so E)].
      rewrite lookup_alter_eq in E. destruct (socks w2 !! d) as [so2|] eqn:E2; [|done]. injection E as <-.
      change (calm (ms w2) so2). apply (R5 d so2 E2). exact Hh. }
  destruct (n =? 0); [|by apply wp_ret, Hend].
  apply wp_orflag; [by eapply quiet_lookup|unfold queue_field; set_solver|done|done|].
  intros w2 Q2. apply Hend. by eapply winv_quiet.
Qed.

(** The loop of [soclose] empties a queue. *)
Lemma abort_queue_spec fuel q w A d ls :
  winv w A → A !! d = Some ls → (length (on_queue q ls) <= fuel)%nat →
  wp (abort_queue usrreq fuel d q) w (λ _ w', winv w' (<[d := if q =? 0 then ([], ls.2) else (ls.1, [])]> A)).
Proof.
  revert w A ls. induction fuel as [|fuel IH]; intros w A ls Hw HA Hl;
    destruct (repr_queue q _ _ _ _ (wi_repr _ _ Hw) HA) as ((_ & _ & n & Hn & Hs) & _ & Hnd).
  all: cbn [abort_queue]; wp_step; (eapply wp_rd; [exact Hn|]); destruct (on_queue q ls) as [|x l] eqn:E; cbn in Hs.
  1, 3: subst n; apply wp_ret; rewrite insert_id; [done|]; rewrite HA; f_equal; destruct ls as [l0 l1];
    unfold on_queue in E; destruct (q =? 0); cbn in *; by subst.
  { cbn in Hl. lia. }
  destruct Hs as (-> & Hx0 & _). unfold ztrue. rewrite (proj2 (Z.eqb_neq x 0)) by done. cbn [negb].
  assert (Hx : x ∈ ls.1 ++ ls.2).
  { assert (H : x ∈ on_queue q ls) by (rewrite E; set_solver). revert H. unfold on_queue. destruct (q =? 0); set_solver. }
  assert (Hxs : is_Some (socks w !! x)).
  { destruct ls as [l0 l1]. eapply rdf_Some_lookup, (ho_member _ _ _ _ (rp_head _ _ (wi_repr _ _ Hw) _ _ _ HA)), Hx. }
  destruct Hxs as [so Eso]. wp_step. unfold soabort, request. wp_step. eapply wp_deref; [done|].
  eapply wp_mono; [apply (proto_abort _ w A d ls x Hw HA Hx)|]. intros r w1 Hw1. cbv beta in Hw1.
  assert (Hon : on_queue q (without x ls.1, without x ls.2) = l).
  { unfold on_queue in *. apply NoDup_cons in Hnd as [_ [Hn1 _]%NoDup_cons].
    destruct (q =? 0); cbn [fst snd]; rewrite E; apply (without_split x [] l); set_solver. }
  eapply wp_mono; [apply (IH w1 _ (without x ls.1, without x ls.2) Hw1); [apply lookup_insert_eq|rewrite Hon; cbn in Hl; lia]|].
  intros [] w2 Hw2. cbv beta in Hw2. rewrite insert_insert_eq in Hw2. destruct ls as [l0 l1]. cbn [fst snd] in *.
  assert (Hother : x ∉ if q =? 0 then l1 else l0).
  { pose proof (ho_nodup _ _ _ _ (rp_head _ _ (wi_repr _ _ Hw) _ _ _ HA)) as (_ & Hdj & _)%NoDup_app.
    assert (H : x ∈ on_queue q (l0, l1)) by (rewrite E; set_solver). revert H. unfold on_queue. cbn [fst snd].
    destruct (q =? 0); intros H Hin; by eapply Hdj. }
  destruct (q =? 0); by rewrite (without_notin x _ Hother) in Hw2.
Qed.

(** [accept] when a connection is complete: the oldest one is taken off the queue,
    unless the socket does not listen or has an error to report. *)
Lemma accept_spec tsleep sleeps w A d l0 l1 x :
  winv w A → A !! d = Some (l0, x :: l1) →
  wp (accept usrreq tsleep sleeps d) w (λ r w',
    (r = (0, x) ∧ winv w' (<[x := ([], [])]> (<[d := (l0, l1)]> A))) ∨
    (r.1 ≠ 0 ∧ r.2 = 0 ∧ winv w' A)).
Proof.
  intros Hw HA. pose proof (wi_repr _ _ Hw) as Hr. destruct (repr_lookup _ _ _ _ Hr HA) as [[so Eso] Hda].
  destruct (repr_queue 1 _ _ _ _ Hr HA) as ((_ & _ & n & Hn & (-> & Hx0 & _)) & Hl & Hnd).
  change (link 1) with so_q in Hn. change (qcount 1) with so_qlen in Hl. change (on_queue 1 (l0, x :: l1)) with (x :: l1) in *.
  assert (Hx : x ∈ (l0, x :: l1).1 ++ (l0, x :: l1).2) by (cbn; set_solver).
  assert (Hrd : ∀ f, rdf (socks w) d f = Some (fld so f)) by (intros f; unfold rdf; by rewrite Eso).
  unfold accept, testflag. wp_step. wp_step. eapply wp_rd; [apply Hrd|]. apply wp_ret.
  destruct (ztrue (Z.land (fld so so_options) _)); cbn [negb]; [|apply wp_ret; right; by split_and!].
  wp_step. wp_step. eapply wp_rd; [apply Hrd|]. apply wp_ret. wp_step. eapply wp_rd; [exact Hl|].
  rewrite (proj2 (Z.eqb_neq (Z.of_nat (length (x :: l1))) 0)) by (cbn; lia). rewrite andb_false_r.
  wp_step. assert (Hwait : accept_wait tsleep sleeps d w = Ok (0, w)).
  { assert (Hq : fld so so_qlen = Z.of_nat (length (x :: l1))) by (rewrite (Hrd so_qlen) in Hl; congruence).
    destruct sleeps; cbn [accept_wait]; unfold rd, bind, deref, ret; rewrite !Eso;
      rewrite Hq, (proj2 (Z.eqb_neq (Z.of_nat (length (x :: l1))) 0)) by (cbn; lia); done. }
  unfold wp at 1. rewrite Hwait. change (ztrue 0) with false. cbv iota. wp_step. eapply wp_rd; [apply Hrd|].
  destruct (ztrue (fld so so_error)) eqn:Ee.
  { wp_step. apply wp_wr; [by eexists|]. apply wp_ret. right. split_and!; [|done|].
    - cbn. unfold ztrue in Ee. by zbool.
    - eapply winv_quiet; [|exact Hw]. apply quiet_upd; [unfold queue_field; set_solver|done|done]. }
  wp_step. eapply wp_rd; [exact Hn|]. wp_step.
  eapply wp_mono; [apply (soqremque_winv 1 w A d x _ Hw HA Hx)|].
  intros r w1 [(-> & Hq & Hw1 & Qo)|(_ & Hq & _)]; [|exfalso; apply Hq; unfold on_queue; cbn; set_solver].
  change (1 =? 0) with false. cbv iota.
  assert (Ed : deq 1 x (l0, x :: l1) = (l0, l1)).
  { unfold deq. cbn [Z.eqb fst snd]. f_equal. apply NoDup_cons in Hnd as [_ [Hn1 _]%NoDup_cons].
    apply (without_split x [] l1); [apply not_elem_of_nil|done]. }
  rewrite Ed in Hw1. pose proof (winv_ready _ _ _ _ _ Hw HA Hx) as [Hnf _]. rewrite <- (queue_only_nofd _ _ _ Qo) in Hnf.
  destruct (repr_lookup _ _ x ([], []) (wi_repr _ _ Hw1)) as [[so1 E1] _]; [apply lookup_insert_eq|].
  assert (Hs1 : solo (<[x := ([], [])]> (<[d := (l0, l1)]> A)) x so1 (ms w1) w1).
  { constructor; [done|by rewrite lookup_insert_eq|done|done]. }
  wp_step. unfold soaccept, testflag. wp_step. wp_step. eapply wp_solo_rd; [exact Hs1|]. apply wp_ret.
  unfold nofd, rdf in Hnf. rewrite E1 in Hnf. injection Hnf as Hnf. rewrite Hnf. change (negb (ztrue 1)) with false. cbv iota.
  wp_step. eapply wp_solo_clrflag; [exact Hs1|]. intros so2 w2 Hs2.
  apply wp_request; [set_solver|exists so2; apply Hs2|]. intros e w3 Q3. apply wp_ret. left. split; [done|].
  eapply winv_quiet; [exact Q3|apply Hs2].
Qed.

Context (sb_max : Z) (malloc : gmap Z socket → option Z) (Hmalloc : malloc_ok malloc).

(** [sonewconn1] refuses a connection when the queues hold more than one and a half
    times the limit; otherwise it queues a new socket, unless there is no memory for
    it or the protocol refuses it. *)
Lemma sonewconn1_spec w A d ls status limit :
  winv w A → A !! d = Some ls → Z.land status 1 = 0 → rdf (socks w) d so_qlimit = Some limit →
  wp (sonewconn1 usrreq sb_max malloc d status) w (λ r w',
    (r = 0 ∧ winv w' A) ∨
    (r ≠ 0 ∧ (∀ d' ls', A !! d' = Some ls' → r ∉ d' :: ls'.1 ++ ls'.2) ∧
     winv w' (<[d := enq (if ztrue status then 1 else 0) r ls]> A) ∧
     Z.of_nat (length ls.1 + length ls.2) <= 3 * limit `quot` 2)).
Proof.
  intros Hw HA Hst Hlim. pose proof (wi_repr _ _ Hw) as Hr. destruct (repr_lookup _ _ _ _ Hr HA) as [[h Eh] Hda].
  pose proof (wi_limit _ _ Hw _ _ Hlim) as Hlr.
  destruct (repr_queue 0 _ _ _ _ Hr HA) as (_ & Hl0 & _). destruct (repr_queue 1 _ _ _ _ Hr HA) as (_ & Hl1 & _).
  unfold rdf in Hl0, Hl1, Hlim. rewrite Eh in Hl0, Hl1, Hlim. injection Hl0 as Hl0. injection Hl1 as Hl1. injection Hlim as Hlim.
  unfold sonewconn1. wp_step. eapply wp_deref; [done|].
  change (qcount 0) with so_q0len in Hl0. change (qcount 1) with so_qlen in Hl1.
  change (on_queue 0 ls) with ls.1 in Hl0. change (on_queue 1 ls) with ls.2 in Hl1. rewrite Hl0, Hl1, Hlim.
  destruct (_ <? _) eqn:Efull; [apply wp_ret; by left|]. zbool. wp_step. apply wp_get.
  destruct (malloc (socks w)) as [x|] eqn:Em; [|apply wp_ret; by left].
  destruct (Hmalloc _ _ Em) as [Hx Hxa]. assert (Hxd : x ≠ d) by congruence.
  assert (Hnm : ∀ d' ls', A !! d' = Some ls' → x ∉ d' :: ls'.1 ++ ls'.2) by (intros d' [k0 k1] E; by eapply repr_notmember).
  assert (HAx : A !! x = None) by (destruct (A !! x) as [k|] eqn:E; [apply Hnm in E; set_solver|done]).
  destruct (newconn_socket_ok h) as (Hs0 & Hs1 & Hs2 & Hs3). set (s := newconn_socket h) in *. clearbody s.
  wp_step. apply wp_modify. apply (winv_new _ _ x s Hw Hx Hxa) in Hs0 as Hw1. wp_step.
  eapply wp_mbufs; [by apply blank_soreserve|]. intros [[sbs sbr] err] s' (-> & B1 & B2). cbn in B1, B2.
  wp_step. eapply (wp_solo_mod (<[x := ([], [])]> A) x s (ms w)); [|done|].
  { constructor; [done|by rewrite lookup_insert_eq|by cbn; rewrite lookup_insert_eq|done]. }
  intros w2 [Hw2 _ E2 Ems]. wp_step.
  eapply wp_mono; [apply (soqinsque_winv (if ztrue status then 1 else 0) w2 _ d x ls Hw2)|].
  - by rewrite lookup_insert_ne.
  - apply lookup_insert_eq.
  - done.
  - split; [unfold nofd, rdf; rewrite E2; exact (f_equal Some Hs1)|]. intros so E. rewrite E2 in E. injection E as <-.
    split; by apply blank_idle.
  - unfold SOMAXCONN in Hlr. rewrite Z.quot_div_nonneg in Efull by lia. Z.div_mod_to_equations. lia.
  - intros _ w3 [Hw3 _]. rewrite delete_insert_id in Hw3 by done.
    eapply wp_mono; [apply (newconn_attach_spec w3 A d ls x status); try done; by eapply not_elem_of_cons, Hnm|].
    intros r w4 [?|[-> ?]]; [by left|right]. split_and!; [lia|done|done|lia].
Qed.

(** ** Refinement

    The calls other layers make on the queues: a connection arrives (with the state
    to give its socket), is complete, is accepted, its socket is freed by the
    protocol; a socket starts to listen, or the queues of a closing one are
    dropped. *)

Inductive call :=
  | Newconn (d status : Z) | Connected (x : Z) | Accept (d : Z) | Freed (x : Z)
  | Listen (d backlog : Z) | Closing (d q : Z).

Context (sb_lock : sockbuf → sockbuf * Z) (tsleep : chan → M world Z) (sleeps : nat).

(** What runs for a call; the result is an error and a socket. *)
Definition run_call (c : call) : M world (Z * Z) :=
  match c with
  | Newconn d status => let! x := sonewconn1 usrreq sb_max malloc d status in ret (0, x)
  | Connected x => do! soisconnected x in ret (0, x)
  | Accept d => accept usrreq tsleep sleeps d
  | Freed x => do! wr so_pcb x 0 in do! sofree sb_lock x in ret (0, x)
  | Listen d backlog => let! e := solisten usrreq d backlog in ret (e, 0)
  | Closing d q => let! w := get in do! abort_queue usrreq (size (socks w)) d q in ret (0, 0)
  end.

(** When a call makes sense: the sockets it names exist and are in the right state. *)
Definition allowed (A : queues) (c : call) : Prop :=
  match c with
  | Newconn d status => is_Some (A !! d) ∧ Z.land status 1 = 0
  | Connected x => ∃ d ls, A !! d = Some ls ∧ x ∈ ls.1
  | Accept d => ∃ l0 x l1, A !! d = Some (l0, x :: l1)
  | Freed x => ∃ d ls, A !! d = Some ls ∧ x ∈ ls.1 ++ ls.2
  | Listen d _ => is_Some (A !! d)
  | Closing d _ => is_Some (A !! d)
  end.

(** The specification: two first-in first-out queues per listening socket. *)
Inductive spec (A : queues) : call → Z * Z → queues → Prop :=
  | spec_new d status ls x :
      A !! d = Some ls → x ≠ 0 → (∀ d' ls', A !! d' = Some ls' → x ∉ d' :: ls'.1 ++ ls'.2) →
      spec A (Newconn d status) (0, x) (<[d := enq (if ztrue status then 1 else 0) x ls]> A)
  | spec_refuse d status : spec A (Newconn d status) (0, 0) A
  | spec_complete d ls x :
      A !! d = Some ls → x ∈ ls.1 → spec A (Connected x) (0, x) (<[d := (without x ls.1, ls.2 ++ [x])]> A)
  | spec_accept d l0 x l1 :
      A !! d = Some (l0, x :: l1) → spec A (Accept d) (0, x) (<[x := ([], [])]> (<[d := (l0, l1)]> A))
  | spec_accept_error d e : e ≠ 0 → spec A (Accept d) (e, 0) A
  | spec_freed d ls x :
      A !! d = Some ls → x ∈ ls.1 ++ ls.2 →
      spec A (Freed x) (0, x) (<[d := (without x ls.1, without x ls.2)]> A)
  | spec_listen d backlog e : spec A (Listen d backlog) (e, 0) A
  | spec_closing d q ls :
      A !! d = Some ls → spec A (Closing d q) (0, 0) (<[d := if q =? 0 then ([], ls.2) else (ls.1, [])]> A).

Lemma call_refines w A c :
  winv w A → allowed A c → wp (run_call c) w (λ r w', ∃ A', spec A c r A' ∧ winv w' A').
Proof.
  intros Hw Hc. destruct c as [d status|x|d|x|d backlog|d q]; cbn in *.
  - destruct Hc as [[ls HA] Hst]. destruct (repr_lookup _ _ _ _ (wi_repr _ _ Hw) HA) as [[so E] _].
    wp_step. eapply wp_mono; [apply (sonewconn1_spec w A d ls status (fld so so_qlimit)); try done; unfold rdf; by rewrite E|].
    intros x w' [[-> Hw']|(Hx & Hf & Hw' & _)]; apply wp_ret.
    + exists A. split; [constructor|done].
    + eexists. split; [|exact Hw']. by constructor.
  - destruct Hc as (d & ls & HA & Hx). wp_step. eapply wp_mono; [by apply (soisconnected_spec w A d x ls)|].
    intros [] w' [Hw' _]. apply wp_ret. eexists. split; [|exact Hw']. by econstructor.
  - destruct Hc as (l0 & x & l1 & HA). eapply wp_mono; [by apply (accept_spec tsleep sleeps w A d l0 l1 x)|].
    intros r w' [[-> Hw']|(Hr1 & Hr2 & Hw')]; eexists; (split; [|exact Hw']); [by constructor|].
    destruct r as [e x']. cbn in *. subst x'. by constructor.
  - destruct Hc as (d & ls & HA & Hx). wp_step.
    assert (Hxs : is_Some (socks w !! x)).
    { destruct ls as [l0 l1]. eapply rdf_Some_lookup, (ho_member _ _ _ _ (rp_head _ _ (wi_repr _ _ Hw) _ _ _ HA)), Hx. }
    apply wp_wr; [done|].
    assert (Q : quiet w (set_socks (upd x so_pcb 0 (socks w)) w)) by (apply quiet_upd; [unfold queue_field; set_solver|done|done]).
    apply (winv_quiet _ _ _ Q) in Hw as Hw1. wp_step. eapply wp_mono; [apply (sofree_queued sb_lock A _ d x ls Hw1 HA Hx)|].
    + destruct Hxs as [so E]. cbn. rewrite rdf_upd, decide_True, E by done. done.
    + intros [] w' Hw'. apply wp_ret. eexists. split; [|exact Hw']. by econstructor.
  - destruct Hc as [ls HA]. wp_step. eapply wp_mono; [by eapply (solisten_spec w A d ls backlog)|].
    intros e w' Hw'. apply wp_ret. eexists. split; [|exact Hw']. constructor.
  - destruct Hc as [ls HA]. wp_step. apply wp_get. wp_step. eapply wp_mono; [apply (abort_queue_spec (size (socks w)) q w A d ls Hw HA)|].
    + destruct (repr_queue q _ _ _ _ (wi_repr _ _ Hw) HA) as (Hs & _ & Hnd). pose proof (seg_size _ _ _ _ _ Hnd Hs) as Hz. cbn in Hz. lia.
    + intros [] w' Hw'. apply wp_ret. eexists. split; [|exact Hw']. by constructor.
Qed.

(** A sequence of calls, and its specification. *)
Fixpoint run_calls (cs : list call) : M world (list (Z * Z)) :=
  match cs with
  | [] => ret []
  | c :: cs => let! r := run_call c in let! rs := run_calls cs in ret (r :: rs)
  end.

Inductive spec_run : queues → list call → list (Z * Z) → queues → Prop :=
  | run_nil A : spec_run A [] [] A
  | run_cons A c r A' cs rs A'' :
      spec A c r A' → spec_run A' cs rs A'' → spec_run A (c :: cs) (r :: rs) A''.

Fixpoint all_allowed (A : queues) (cs : list call) : Prop :=
  match cs with
  | [] => True
  | c :: cs => allowed A c ∧ ∀ r A', spec A c r A' → all_allowed A' cs
  end.

(** C12: The linked accept queues implement pairs of first-in first-out queues: any
    sequence of calls (connections arriving, completing, being accepted or freed,
    [listen], the dropping of the queues by [soclose]), each made on sockets the
    specification knows, runs without a panic or a wild access, gives the results of the
    specification, and leaves a heap that represents its state; no socket ever has more
    than eight connections waiting. *)
Theorem accept_queues_refine w A cs :
  winv w A → all_allowed A cs →
  wp (run_calls cs) w (λ rs w', ∃ A', spec_run A cs rs A' ∧ winv w' A' ∧
    ∀ d ls, A' !! d = Some ls → (length ls.1 + length ls.2 <= 8)%nat).
Proof.
  revert w A. induction cs as [|c cs IH]; intros w A Hw Ha.
  - apply wp_ret. exists A. split_and!; [constructor|done|apply Hw].
  - destruct Ha as [Hc Hcs]. cbn [run_calls]. wp_step. eapply wp_mono; [by apply (call_refines w A c)|].
    intros r w1 (A1 & Hs & Hw1). wp_step. eapply wp_mono; [apply (IH w1 A1 Hw1); by eapply Hcs|].
    intros rs w2 (A2 & Hs2 & Hw2 & Hl). apply wp_ret. exists A2. split_and!; [by econstructor|done|done].
Qed.

End Accept.

(** ** The Internet protocols as an instance

    What [tcp_usrreq] and [in_pcb.c] do to a socket on the requests above:
    [in_pcballoc] sets [so_pcb], [tcp_close] reports the end of the connection and
    [in_pcbdetach] clears [so_pcb] and frees the socket. *)

Definition pcb_attach (inp : option Z) (so : Z) : M world Z :=
  match inp with None => ret ENOBUFS | Some inp => do! wr so_pcb so inp in ret 0 end.

Definition pcb_detach (sb_lock : sockbuf → sockbuf * Z) (so : Z) : M world () :=
  do! wr so_pcb so 0 in sofree sb_lock so.

Definition inet_usrreq (sb_lock : sockbuf → sockbuf * Z) (inp : option Z) (pr : protosw) (req so : Z) : M world Z :=
  if req =? PRU_ATTACH then pcb_attach inp so
  else if req =? PRU_ABORT then
    do! soisdisconnected so in do! pcb_detach sb_lock so in ret 0
  else ret 0.

Lemma wp_soisdisconnected so w Q :
  is_Some (socks w !! so) → (∀ w', quiet w w' → Q () w') → wp (soisdisconnected so) w Q.
Proof.
  intros Hs HQ. unfold soisdisconnected. wp_step.
  apply wp_clrflag; [done|unfold queue_field; set_solver|done|done|]. intros w1 Q1. wp_step.
  apply wp_orflag; [by eapply quiet_lookup|unfold queue_field; set_solver|done|done|]. intros w2 Q2.
  assert (Q12 : quiet w w2) by by etrans. wp_step. apply wp_wakeup. intros w3 Q3 _ _.
  assert (Q13 : quiet w w3) by by etrans. wp_step. apply wp_sowwakeup; [by eapply quiet_lookup|]. intros w4 Q4 _.
  assert (Q14 : quiet w w4) by by etrans. apply wp_sorwakeup; [by eapply quiet_lookup|]. intros w5 Q5 _.
  apply HQ. by etrans.
Qed.

#[export] Instance inet_protocol sb_lock inp : Protocol (inet_usrreq sb_lock inp).
Proof.
  split.
  - intros pr req so w Hreq Hs. unfold inet_usrreq.
    apply elem_of_cons in Hreq as [->|[->|[->|[]%not_elem_of_nil]%elem_of_cons]%elem_of_cons]; cbn; [|by apply wp_ret..].
    unfold pcb_attach. destruct inp as [inp|]; [|by apply wp_ret]. wp_step. apply wp_wr; [done|]. apply wp_ret.
    apply quiet_upd; [unfold queue_field; set_solver|done|done].
  - intros pr w A d ls x Hw HA Hx. unfold inet_usrreq. cbn.
    assert (Hxs : is_Some (socks w !! x)).
    { destruct ls as [l0 l1]. eapply rdf_Some_lookup, (ho_member _ _ _ _ (rp_head _ _ (wi_repr _ _ Hw) _ _ _ HA)), Hx. }
    wp_step. apply wp_soisdisconnected; [done|]. intros w1 Q1. destruct (quiet_lookup _ _ x Q1 Hxs) as [so E].
    wp_step. unfold pcb_detach. wp_step. apply wp_wr; [by eexists|].
    assert (Q2 : quiet w1 (set_socks (upd x so_pcb 0 (socks w1)) w1)) by (apply quiet_upd; [unfold queue_field; set_solver|done|done]).
    eapply wp_mono; [apply (sofree_queued sb_lock A _ d x ls); [|done|done|]|].
    + eapply winv_quiet; [exact Q2|]. by eapply winv_quiet.
    + cbn. rewrite rdf_upd, decide_True, E by done. done.
    + intros [] w' Hw'. by apply wp_ret.
Qed.

(** ** Examples *)

Definition ex_tcp : protosw := Protosw 1 6 (Z.lor PR_CONNREQUIRED PR_WANTRCVD) true true.
Definition ex_lock (sb : sockbuf) : sockbuf * Z := (sb, 0).
Definition ex_malloc (h : gmap Z socket) : option Z :=
  List.find (λ p, match h !! p with None => true | _ => false end) [100; 200; 300; 400; 500].
Definition ex_empty : world := World ∅ Mbuf.ex_state [].
Definition ex_sleep (c : chan) : M world Z := ret 4.

(** A server: connections 200, 300 and 400 arrive, 300 and then 200 are complete,
    and are accepted in that order. *)
Definition ex_server : M world (list Z) :=
  let u := inet_usrreq ex_lock (Some 7) in
  let! r := socreate u ex_malloc ex_lock [Domain 2 [ex_tcp]] true 2 1 0 in
  let d := r.2 in
  do! solisten u d 5 in
  let! a := sonewconn1 u 262144 ex_malloc d 0 in
  let! b := sonewconn1 u 262144 ex_malloc d 0 in
  let! c := sonewconn1 u 262144 ex_malloc d 0 in
  do! soisconnected b in
  do! soisconnected a in
  let! x := accept u ex_sleep 0 d in
  let! y := accept u ex_sleep 0 d in
  ret [d; a; b; c; x.2; y.2].

Example ex_server_fifo :
  match ex_server ex_empty with Ok (l, _) => l = [100; 200; 300; 400; 300; 200] | _ => False end.
Proof. vm_compute. reflexivity. Qed.

(** A listening socket 100 with one connection on each queue. *)
Definition ex_sock (l : list (sfield * Z)) : socket :=
  Socket (λ f, match List.find (λ e, if decide (e.1 = f) then true else false) l with Some e => e.2 | None => 0 end)
    ex_tcp no_buffer no_buffer.
Definition ex_listener : socket :=
  ex_sock [(so_q0, 200); (so_q, 300); (so_q0len, 1); (so_qlen, 1); (so_qlimit, 5); (so_options, 2)].
Definition ex_conn : socket := ex_sock [(so_head, 100); (so_state, 1)].
Definition ex_heap : gmap Z socket := <[100 := ex_listener]> (<[200 := ex_conn]> (<[300 := ex_conn]> ∅)).
Definition ex_world : world := World ex_heap Mbuf.ex_state [].
Definition ex_queues : queues := <[100 := ([200], [300])]> ∅.

Lemma ex_heap_cases (P : Z → socket → Prop) :
  P 100 ex_listener → P 200 ex_conn → P 300 ex_conn → ∀ p so, ex_heap !! p = Some so → P p so.
Proof.
  intros H1 H2 H3 p so. unfold ex_heap.
  intros [[<- <-]|[_ [[<- <-]|[_ [[<- <-]|[_ E]]%lookup_insert_Some]]%lookup_insert_Some]]%lookup_insert_Some; try done.
Qed.

Lemma ex_heap_rdf (P : Z → Z → Prop) f :
  P 100 (fld ex_listener f) → P 200 (fld ex_conn f) → P 300 (fld ex_conn f) → ∀ p v, rdf ex_heap p f = Some v → P p v.
Proof.
  intros H1 H2 H3 p v E. unfold rdf in E. destruct (ex_heap !! p) as [so|] eqn:Eso; [|done]. injection E as <-.
  revert p so Eso. by apply (ex_heap_cases (λ p so, P p (fld so f))).
Qed.

Lemma ex_queues_lookup d ls : ex_queues !! d = Some ls → d = 100 ∧ ls = ([200], [300]).
Proof. unfold ex_queues. intros [[<- <-]|[_ E]]%lookup_insert_Some; [done|by rewrite lookup_empty in E]. Qed.

Lemma ex_winv : winv ex_world ex_queues.
Proof.
  constructor; cbn [socks ms ex_world].
  - constructor.
    + intros d l0 l1 [-> [= -> ->]]%ex_queues_lookup.
      constructor; try reflexivity.
      * split_and!; [done|done|]. exists 200. split; [reflexivity|]. split_and!; [done|done|]. by exists 0.
      * split_and!; [done|done|]. exists 300. split; [reflexivity|]. split_and!; [done|done|]. by exists 0.
      * apply NoDup_cons. split; [set_solver|apply NoDup_singleton].
      * intros x [->|[->|[]%not_elem_of_nil]%elem_of_cons]%elem_of_cons; reflexivity.
    + by apply (ex_heap_rdf (λ p _, 0 < p < 4294967296)).
    + apply (ex_heap_rdf (λ p d, if decide (d = 0) then is_Some (ex_queues !! p) else
        ∃ l0 l1, ex_queues !! d = Some (l0, l1) ∧ p ∈ l0 ++ l1)); cbn; [by eexists| |];
        exists [200], [300]; (split; [reflexivity|set_solver]).
    + intros p d f Hd Hd0 Hf. revert p d Hd Hd0. apply (ex_heap_rdf (λ p d, d ≠ 0 → rdf ex_heap p f = Some 0)); cbn; [done| |];
        intros _; destruct Hf as [-> | ->]; reflexivity.
  - intros d ls [-> ->]%ex_queues_lookup. cbn. lia.
  - unfold SOMAXCONN. apply (ex_heap_rdf (λ _ v, 0 <= v <= 5)); (split; vm_compute; discriminate).
  - apply (ex_heap_rdf (λ p d, d ≠ 0 → nofd ex_heap p = Some 1)); cbn; done.
  - apply (ex_heap_cases (λ p so, fld so so_head ≠ 0 → calm _ so)); intros _; split; by apply blank_idle.
Qed.

Lemma ex_malloc_ok : malloc_ok ex_malloc.
Proof.
  intros h p E. unfold ex_malloc in E. apply List.find_some in E as [Hp E]. cbv beta in E.
  split; [by destruct (h !! p)|]. cbn in Hp. lia.
Qed.

Lemma accept_queues_refine_witness :
  wp (run_calls (inet_usrreq ex_lock (Some 7)) 262144 ex_malloc ex_lock ex_sleep 0 [Connected 200; Accept 100]) ex_world
    (λ rs w', ∃ A', spec_run ex_queues [Connected 200; Accept 100] rs A' ∧ winv w' A' ∧
      ∀ d ls, A' !! d = Some ls → (length ls.1 + length ls.2 <= 8)%nat).
Proof.
  apply (accept_queues_refine (inet_usrreq ex_lock (Some 7)) 262144 ex_malloc ex_malloc_ok ex_lock ex_sleep 0 ex_world ex_queues
    [Connected 200; Accept 100] ex_winv).
  split; [exists 100, ([200], [300]); split; [reflexivity|cbn; set_solver]|].
  intros r A' Hs. inversion Hs as [| |d ls x HA Hx| | | | |]; subst. split; [|done].
  apply ex_queues_lookup in HA as [-> ->]. exists [], 300, [200]. reflexivity.
Defined.

End Socket.
