(* ===== verification/SockIo.v ===== *)
(** * Sending and receiving on a socket (kern/uipc_socket.c, kern/kern_subr.c)

    [sosend] cuts the data of the user into mbuf chains and hands them to the
    protocol; [soreceive] copies the front of the receive buffer to the user and
    drops it.  Both wait for the buffer through [sbwait], during which the rest of
    the system runs; the protocol and [sbwait] are arguments. *)

From stdpp Require Import options.
From S2P Require Import Prelude Mbuf Sockbuf TcpOutput TcpConn Socket.
Import Mbuf Sockbuf.

Module SockIo.

(** ** Constants *)

Definition MSG_OOB : Z := 0x1.
Definition MSG_PEEK : Z := 0x2.
Definition MSG_DONTROUTE : Z := 0x4.
Definition MSG_EOR : Z := 0x8.
Definition MSG_TRUNC : Z := 0x10.
Definition MSG_WAITALL : Z := 0x40.
Definition MSG_DONTWAIT : Z := 0x80.
Definition SO_DONTROUTE : Z := 0x0010.
Definition MT_HEADER : Z := 2.
Definition M_NOWAIT : Z := 1.
Definition EPIPE : Z := 32.
Definition EDESTADDRREQ : Z := 39.
Definition EMSGSIZE : Z := 40.

Definition test (v b : Z) : bool := ztrue (Z.land v b).

(** [min] of libkern takes unsigned arguments. *)
Definition min (a b : Z) : Z := Z.min (u32 a) (u32 b).

(** ** uiomove (kern_subr.c)

    The user's memory is a list of segments, given by their lengths; the bytes
    themselves are one sequence.  The results are the number of bytes moved, the
    segments left and the count left.  [copyin] and [copyout] of the port do not
    fail; running past the last segment is a wild access. *)
Fixpoint uiomove (iov : list Z) (resid n : Z) : option (Z * list Z * Z) :=
  if (0 <? n) && ztrue resid then
    match iov with
    | [] => None
    | cnt :: rest =>
        if n <? cnt then Some (n, (cnt - n) :: rest, resid - n)
        else if (0 <? n - cnt) && ztrue (resid - cnt) then
          '(k, iov', resid') ← uiomove rest (resid - cnt) (n - cnt);
          Some (cnt + k, iov', resid')
        else Some (cnt, 0 :: rest, resid - cnt)
    end
  else Some (0, iov, resid).

(** ** sosend *)

(** What [sosend] works on: the mbuf layer, the send buffer and the state of the
    socket, the user's data ([s_data] is what was not taken yet), and the chains
    handed to the protocol (the request, the bytes and the options of the socket). *)
Record sstate := SState
  { s_ms : mstate; s_snd : sockbuf; s_state : Z; s_error : Z; s_options : Z;
    s_iov : list Z; s_resid : Z; s_data : list Z; s_log : list (Z * list Z * Z) }.

Definition s_set_ms (v : mstate) (s : sstate) : sstate :=
  SState v (s_snd s) (s_state s) (s_error s) (s_options s) (s_iov s) (s_resid s) (s_data s) (s_log s).
Definition s_set_snd (v : sockbuf) (s : sstate) : sstate :=
  SState (s_ms s) v (s_state s) (s_error s) (s_options s) (s_iov s) (s_resid s) (s_data s) (s_log s).
Definition s_set_options (v : Z) (s : sstate) : sstate :=
  SState (s_ms s) (s_snd s) (s_state s) (s_error s) (s16 v) (s_iov s) (s_resid s) (s_data s) (s_log s).
Definition s_set_uio (iov : list Z) (resid : Z) (data : list Z) (s : sstate) : sstate :=
  SState (s_ms s) (s_snd s) (s_state s) (s_error s) (s_options s) iov resid data (s_log s).
Definition s_set_log (v : list (Z * list Z * Z)) (s : sstate) : sstate :=
  SState (s_ms s) (s_snd s) (s_state s) (s_error s) (s_options s) (s_iov s) (s_resid s) (s_data s) v.

Definition s_low {A} (m : M mstate A) : M sstate A := λ s,
  match m (s_ms s) with Ok (a, ms) => Ok (a, s_set_ms ms s) | Panic => Panic | Crash => Crash end.

(** [uiomove] of [n] bytes from the user. *)
Definition move_in (n : Z) : M sstate (list Z) := λ s,
  match uiomove (s_iov s) (s_resid s) n with
  | Some (k, iov, resid) =>
      Ok (take (Z.to_nat k) (s_data s), s_set_uio iov resid (drop (Z.to_nat k) (s_data s)) s)
  | None => Crash
  end.

Section Send.
Context (drain : mstate → mstate) (junk cljunk : list Z) (junk_len max_hdr : Z).
(** The protocol's answer to [PRU_SEND] and [PRU_SENDOOB], and the waits. *)
Context (usrreq : Z → list mbuf → list mbuf → M sstate Z) (sbwait : M sstate Z)
  (sb_lock : sockbuf → sockbuf * Z).
(** The protocol's flags, the flags of the call, is there an address, and the
    fuel of each loop. *)
Context (pr_flags flags : Z) (addr : bool) (fuel : nat).

Definition atomic : bool := test pr_flags Socket.PR_ATOMIC.

(** One mbuf of a chain: the buffer chosen, where the data go and how much. *)
Definition fill_mbuf (top : list mbuf) (resid space : Z) : M sstate (mbuf * Z * Z) :=
  let first := match top with [] => true | _ => false end in
  let! m := s_low (if first then MGETHDR drain junk junk_len MT_DATA else MGET drain junk junk_len MT_DATA) in
  match m with
  | None => crash
  | Some m =>
      let mlen := if first then MHLEN else MLEN in
      let m := if first then set_rcvif (set_pktlen m 0) 0 else m in
      let nopages m :=
        let len := s32 (min (min mlen resid) space) in
        let m := if atomic && first && (len <? mlen) then MH_ALIGN m len else m in
        ret (m, len, space - len) in
      if (MINCLSIZE <=? resid) && (MCLBYTES <=? space) then
        let! m := s_low (MCLGET cljunk m) in
        if negb (has m M_EXT) then nopages m
        else
          let '(m, len) :=
            if atomic && first then (set_data m (m_data m + max_hdr), s32 (min (MCLBYTES - max_hdr) resid))
            else (m, s32 (min MCLBYTES resid)) in
          ret (m, len, space - MCLBYTES)
      else nopages m
  end.

(** [top->m_pkthdr.len += len] and [top->m_flags |= M_EOR]. *)
Definition add_pktlen (len : Z) : list mbuf → list mbuf := on_head (λ m, set_pktlen m (pkthdr_len m + len)).
Definition mark_eor (top : list mbuf) : list mbuf :=
  if test flags MSG_EOR then on_head (λ m, set_eor m M_EOR) top else top.

(** One round of the loop that builds a chain: an mbuf is added; the second result
    is the space left. *)
Definition fill_one (top : list mbuf) (space : Z) : M sstate (list mbuf * Z) :=
  let! s := get in
  let! r := fill_mbuf top (s_resid s) space in
  let '(m, len, space) := r in
  let! b := move_in len in
  let! m := s_low (m_write m 0 b) in
  ret (add_pktlen len (top ++ [set_len m len]), space).

Fixpoint fill (n : nat) (top : list mbuf) (space : Z) : M sstate (list mbuf * Z) :=
  let! r := fill_one top space in
  let '(top, space) := r in
  let! s := get in
  if s_resid s <=? 0 then ret (mark_eor top, space)
  else if (0 <? space) && atomic then
    match n with O => crash | S n => fill n top space end
  else ret (top, space).

(** A chain is handed over; [SO_DONTROUTE] is set for the time of the call. *)
Definition dontroute (s : sstate) : bool :=
  test flags MSG_DONTROUTE && negb (test (s_options s) SO_DONTROUTE) && test pr_flags Socket.PR_ATOMIC.

Definition send_chain (dr : bool) (top control : list mbuf) : M sstate Z :=
  do! (if dr then modify (λ s, s_set_options (Z.lor (s_options s) SO_DONTROUTE) s) else ret ()) in
  let req := if test flags MSG_OOB then Socket.PRU_SENDOOB else Socket.PRU_SEND in
  do! modify (λ s, s_set_log (s_log s ++ [(req, bytes (s_ms s) top, s_options s)]) s) in
  let! error := usrreq req top control in
  do! (if dr then modify (λ s, s_set_options (Z.land (s_options s) (Z.lnot SO_DONTROUTE)) s) else ret ()) in
  ret error.

(** One round of the inner loop: an error and the space left. *)
Definition chunk (dr : bool) (control : list mbuf) (space : Z) : M sstate (Z * Z) :=
  let! r := fill fuel [] space in
  let '(top, space) := r in
  let! error := send_chain dr top control in
  ret (error, space).

(** The inner loop: chains as long as there is space. *)
Fixpoint chunks (n : nat) (dr : bool) (control : list mbuf) (space : Z) : M sstate Z :=
  let! r := chunk dr control space in
  let '(error, space) := r in
  if ztrue error then ret error
  else
    let! s := get in
    if ztrue (s_resid s) && (0 <? space) then
      match n with O => crash | S n => chunks n dr [] space end
    else ret 0.

(** The checks at the top of the outer loop: an error, a wait, or the space. *)
Inductive verdict := Error (e : Z) | Wait | Go (space : Z).

Definition clen (control : list mbuf) : Z := match control with m :: _ => m_len m | [] => 0 end.

Definition send_check (control : list mbuf) (s : sstate) : verdict :=
  let resid := s_resid s in
  if test (s_state s) TcpConn.SS_CANTSENDMORE then Error EPIPE
  else if ztrue (s_error s) then Error (s_error s)
  else if negb (test (s_state s) TcpConn.SS_ISCONNECTED) && test pr_flags Socket.PR_CONNREQUIRED &&
          negb (test (s_state s) TcpConn.SS_ISCONFIRMING) && negb ((resid =? 0) && ztrue (clen control))
  then Error Socket.ENOTCONN
  else if negb (test (s_state s) TcpConn.SS_ISCONNECTED) && negb (test pr_flags Socket.PR_CONNREQUIRED) && negb addr
  then Error EDESTADDRREQ
  else
    let space := sbspace (s_snd s) + if test flags MSG_OOB then 1024 else 0 in
    if (atomic && (sb_hiwat (s_snd s) <? u32 resid)) || (sb_hiwat (s_snd s) <? u32 (clen control))
    then Error EMSGSIZE
    else if (space <? resid + clen control) &&
            (atomic || (space <? sb_lowat (s_snd s)) || (space <? clen control))
    then if test (s_state s) Socket.SS_NBIO then Error EWOULDBLOCK else Wait
    else Go (space - clen control).

Definition lock_snd : M sstate () :=
  modify (λ s, s_set_snd (sblock sb_lock (s_snd s) (if test flags MSG_DONTWAIT then M_NOWAIT else M_WAITOK)).1 s).
Definition unlock_snd : M sstate () := modify (λ s, s_set_snd (sbunlock (s_snd s)).1 s).

(** The outer loop with the jump to [restart]; the lock is held. *)
Fixpoint rounds (n : nat) (dr : bool) (control : list mbuf) : M sstate Z :=
  let! s := get in
  match send_check control s with
  | Error e => do! unlock_snd in do! s_low (m_freem control) in ret e
  | Wait =>
      do! unlock_snd in
      let! error := sbwait in
      if ztrue error then do! s_low (m_freem control) in ret error
      else match n with O => crash | S n => do! lock_snd in rounds n dr control end
  | Go space =>
      let! error := chunks fuel dr control space in
      let! s := get in
      if ztrue error then do! unlock_snd in ret error
      else if ztrue (s_resid s) then match n with O => crash | S n => rounds n dr [] end
      else do! unlock_snd in ret 0
  end.

Definition sosend (control : list mbuf) : M sstate Z :=
  let! s := get in
  if s_resid s <? 0 then ret TcpConn.EINVAL
  else
    let dr := dontroute s in
    do! lock_snd in
    rounds fuel dr control.

End Send.

(** ** Clusters in use

    [held s top]: the clusters of the chain [top] are allocated, distinct and not on
    the free list, and so are the free ones; fresh memory lies above them. *)

Definition exts (top : list mbuf) : list Z := ext_buf <$> filter (λ m, has m M_EXT = true) top.

Record held (s : mstate) (top : list mbuf) : Prop := Held
  { hd_nodup : NoDup (mclfree s ++ exts top);
    hd_below : ∀ p, p ∈ mclfree s ++ exts top → p + MCLBYTES <= brk s;
    hd_known : ∀ p, p ∈ mclfree s → p ∈ (cl_rc_tbl s).*1;
    hd_size : ∀ p, p ∈ mclfree s ++ exts top → ∃ b, clusters s !! p = Some b ∧ Z.of_nat (length b) = MCLBYTES }.

Lemma exts_snoc top m : exts (top ++ [m]) = exts top ++ if has m M_EXT then [ext_buf m] else [].
Proof.
  unfold exts. rewrite filter_app, fmap_app. f_equal. destruct (has m M_EXT) eqn:E.
  - by rewrite filter_cons_True.
  - by rewrite filter_cons_False by congruence.
Qed.

(** The bytes of a chain depend on its clusters only. *)
Lemma bytes_frame s s' top :
  (∀ p, p ∈ exts top → clusters s' !! p = clusters s !! p) → bytes s' top = bytes s top.
Proof.
  intros H. unfold bytes. f_equal. apply list_fmap_ext. intros i m Hm. unfold mbytes, buffer.
  destruct (has m M_EXT) eqn:E; [|done]. rewrite H; [done|]. unfold exts. apply list_elem_of_fmap.
  exists m. split; [done|]. apply list_elem_of_filter. split; [done|]. by eapply list_elem_of_lookup_2.
Qed.

Lemma held_brk s s' top :
  held s top → clusters s' = clusters s → mclfree s' = mclfree s → cl_rc_tbl s' = cl_rc_tbl s → brk s <= brk s' → held s' top.
Proof.
  intros [H1 H2 H3 H4] E1 E2 E3 E4. constructor; rewrite ?E1, ?E2, ?E3; [done| |done|done].
  intros p Hp. apply H2 in Hp. lia.
Qed.

(** A cluster leaves the free list. *)
Lemma take_cluster_ok s top p rest :
  oracle s = [] → held s top → mclfree s = p :: rest →
  wp (do! cl_rc_incr p in do! modify (λ s, with_free rest (m_clfree s - 1) s) in ret (Some p)) s
    (λ r s', r = Some p ∧ clusters s' = clusters s ∧ oracle s' = [] ∧ held s' top ∧ (p ∉ mclfree s' ++ exts top) ∧
      p + MCLBYTES <= brk s' ∧ ∃ b, clusters s' !! p = Some b ∧ Z.of_nat (length b) = MCLBYTES).
Proof.
  intros Ho [H1 H2 H3 H4] E. rewrite E in *. unfold cl_rc_incr. wp_step. wp_step. apply wp_get.
  destruct (rc_update_known (λ c, c + 1) p (cl_rc_tbl s)) as (c & t' & -> & Ht); [apply H3; set_solver|].
  apply wp_put. wp_step. apply wp_modify. apply wp_ret. apply NoDup_cons in H1 as [H11 H12].
  split_and!; [done|done|done| |done|apply H2; set_solver|apply H4; set_solver].
  constructor; cbn; [done| | |].
  - intros q Hq. apply H2. set_solver.
  - intros q Hq. rewrite Ht. apply H3. set_solver.
  - intros q Hq. apply H4. set_solver.
Qed.

Lemma mget_ok drain s m top :
  oracle s = [] → held s top →
  wp (mget drain m) s (λ r s', r = Some m ∧ clusters s' = clusters s ∧ held s' top ∧ oracle s' = []).
Proof.
  intros Ho [H1 H2 H3 H4]. unfold mget, malloc. wp_step. wp_step. apply wp_get. rewrite Ho. wp_steps. by split_and!.
Qed.

Section Alloc.
Context (cljunk : list Z) (cljunk_ok : Z.of_nat (length cljunk) = MCLBYTES).

(** A cluster is added to the free list. *)
Lemma held_new s top p s2 :
  held s top → p ∉ mclfree s ++ exts top → p + MCLBYTES <= brk s →
  clusters s2 = <[p := cljunk]> (clusters s) → mclfree s2 = p :: mclfree s → brk s2 = brk s →
  cl_rc_tbl s2 = cl_rc_tbl s ++ [(p, 0)] → held s2 top.
Proof using cljunk_ok.
  intros [H1 H2 H3 H4] Hp Hb E1 E2 E3 E4. constructor; rewrite ?E1, ?E2, ?E3, ?E4.
  - by apply NoDup_cons.
  - intros q [->|Hq]%elem_of_cons; [done|]. by apply H2.
  - intros q Hq. rewrite fmap_app, elem_of_app. apply elem_of_cons in Hq as [->|Hq]; [right; set_solver|left; by apply H3].
  - intros q [->|Hq]%elem_of_cons; [exists cljunk; by rewrite lookup_insert_eq|].
    rewrite lookup_insert_ne by (intros ->; done). by apply H4.
Qed.

(** A new page of clusters. *)
Lemma clalloc_loop_ok n p s top :
  oracle s = [] → held s top → p + Z.of_nat n * MCLBYTES <= brk s →
  (∀ q, q ∈ mclfree s ++ exts top → q + MCLBYTES <= p) →
  wp (clalloc_loop cljunk n p) s (λ _ s', held s' top ∧ oracle s' = [] ∧
    (∀ q, q ∈ exts top → clusters s' !! q = clusters s !! q) ∧ length (mclfree s') = (n + length (mclfree s))%nat).
Proof using cljunk_ok.
  revert p s. induction n as [|n IH]; intros p s Ho Hh Hp Hb; cbn [clalloc_loop]; [by apply wp_ret|].
  assert (Hpn : p ∉ mclfree s ++ exts top) by (intros Hin; apply Hb in Hin; unfold MCLBYTES in Hin; lia).
  wp_step. apply wp_modify. wp_step. apply wp_modify. wp_step. unfold cl_rc_insert. wp_step. apply wp_get. wp_step.
  assert (Hgo : ∀ s1, clusters s1 = <[p := cljunk]> (clusters s) → mclfree s1 = p :: mclfree s → brk s1 = brk s →
    cl_rc_tbl s1 = cl_rc_tbl s → oracle s1 = [] →
    wp (modify (λ s, with_rc (cl_rc_tbl s ++ [(p, 0)]) s)) s1 (λ _ s', wp (do! modify (λ s0, with_free (mclfree s0) (m_clfree s0 + 1) s0) in
      clalloc_loop cljunk n (p + MCLBYTES)) s' (λ _ s', held s' top ∧ oracle s' = [] ∧
        (∀ q, q ∈ exts top → clusters s' !! q = clusters s !! q) ∧ length (mclfree s') = (S n + length (mclfree s))%nat))).
  { intros s1 E1 E2 E3 E4 E5. apply wp_modify. wp_step. apply wp_modify. set (s2 := with_free _ _ (with_rc _ _)).
    eapply wp_mono; [apply (IH (p + MCLBYTES) s2); [done| | |]|].
    - eapply (held_new s top p); [done|done| |done|done|done|cbn; by rewrite E4]. unfold MCLBYTES in *. lia.
    - cbn. rewrite E3. unfold MCLBYTES in *. lia.
    - intros q Hq. cbn in Hq. rewrite E2 in Hq. apply elem_of_cons in Hq as [->|Hq]; [lia|]. apply Hb in Hq. unfold MCLBYTES in *. lia.
    - intros [] s3 (G1 & G2 & G3 & G4). split_and!; [done|done| |].
      + intros q Hq. rewrite G3 by done. cbn. rewrite E1, lookup_insert_ne; [done|]. intros ->. apply Hpn. set_solver.
      + rewrite G4. cbn. rewrite E2. cbn. lia. }
  cbn [cl_rc_tbl with_free with_clusters cl_rc_limit]. destruct (_ =? _).
  - wp_step. unfold malloc. wp_step. apply wp_get. cbn [oracle with_free with_clusters]. rewrite Ho. apply wp_ret.
    apply wp_modify. by apply Hgo.
  - apply wp_ret. by apply Hgo.
Qed.

Lemma MCLALLOC_ok s top :
  oracle s = [] → held s top →
  wp (MCLALLOC cljunk) s (λ r s', ∃ p, r = Some p ∧ oracle s' = [] ∧ held s' top ∧
    (∀ q, q ∈ exts top → clusters s' !! q = clusters s !! q) ∧ (p ∉ mclfree s' ++ exts top) ∧ p + MCLBYTES <= brk s' ∧
    ∃ b, clusters s' !! p = Some b ∧ Z.of_nat (length b) = MCLBYTES).
Proof using cljunk_ok.
  intros Ho Hh. unfold MCLALLOC. wp_step. apply wp_get. wp_step.
  destruct (mclfree s) as [|p rest] eqn:E.
  - wp_step. unfold m_clalloc. wp_step. unfold malloc. wp_step. apply wp_get. rewrite Ho. apply wp_ret. wp_step. apply wp_get.
    wp_step. apply wp_modify. wp_step.
    eapply wp_mono; [apply (clalloc_loop_ok 2 (brk s) (with_oracle (oracle s) (brk s + 1 * CLBYTES) s) top)|].
    + done.
    + eapply held_brk; [exact Hh|done|done|done|cbn; unfold CLBYTES; lia].
    + cbn. unfold CLBYTES, MCLBYTES. lia.
    + intros q Hq. by apply (hd_below _ _ Hh).
    + intros [] s1 (G1 & G2 & G3 & G4). wp_step. apply wp_modify. apply wp_ret. apply wp_ret. wp_step. apply wp_get.
      cbn [mclfree with_nclusters]. destruct (mclfree s1) as [|p rest] eqn:E1; [cbn in G4; rewrite E in G4; done|].
      eapply wp_mono; [apply (take_cluster_ok (with_nclusters _ s1) top p rest); [done|eapply held_brk; [exact G1|done..|cbn; lia]|done]|].
      intros r s2 (-> & Ec & Q1 & Q2 & Q3 & Q4 & Q5). exists p. split_and!; try done. intros q Hq. rewrite Ec. by apply G3.
  - apply wp_ret. wp_step. apply wp_get. rewrite E. eapply wp_mono; [by apply (take_cluster_ok s top p rest)|].
    intros r s2 (-> & Ec & Q1 & Q2 & Q3 & Q4 & Q5). exists p. split_and!; try done. intros q Hq. by rewrite Ec.
Qed.

Lemma MCLGET_ok s top m :
  oracle s = [] → held s top →
  wp (MCLGET cljunk m) s (λ m' s', oracle s' = [] ∧ held s' top ∧
    (∀ q, q ∈ exts top → clusters s' !! q = clusters s !! q) ∧ has m' M_EXT = true ∧ m_data m' = 0 ∧
    (ext_buf m' ∉ mclfree s' ++ exts top) ∧ ext_buf m' + MCLBYTES <= brk s' ∧
    ∃ b, clusters s' !! ext_buf m' = Some b ∧ Z.of_nat (length b) = MCLBYTES).
Proof using cljunk_ok.
  intros Ho Hh. unfold MCLGET. wp_step. eapply wp_mono; [by apply (MCLALLOC_ok s top)|].
  intros r s' (p & -> & H1 & H2 & H3 & H4 & H5 & H6). apply wp_ret. split_and!; try done.
  unfold has, ztrue. cbn [m_flags set_ext set_flags]. apply negb_true_iff, Z.eqb_neq. rewrite Z.land_lor_distr_l.
  change (Z.land M_EXT M_EXT) with 1. intros E. apply Z.lor_eq_0_iff in E as [_ E]. done.
Qed.

End Alloc.

(** ** The user's data *)

Definition iov_total (iov : list Z) : Z := foldr Z.add 0 iov.

Lemma iov_total_nonneg iov : Forall (Z.le 0) iov → 0 <= iov_total iov.
Proof. unfold iov_total. induction 1; cbn; lia. Qed.

Lemma iov_total_cons c iov : iov_total (c :: iov) = c + iov_total iov.
Proof. done. Qed.

Lemma uiomove_spec iov resid n :
  Forall (Z.le 0) iov → resid = iov_total iov → 0 <= n <= resid →
  ∃ iov', uiomove iov resid n = Some (n, iov', resid - n) ∧ Forall (Z.le 0) iov' ∧ resid - n = iov_total iov'.
Proof.
  revert resid n. induction iov as [|c iov IH]; intros resid n Hp Hr Hn; cbn [uiomove].
  - change (iov_total []) with 0 in Hr. assert (n = 0) as -> by lia. cbn. exists []. rewrite Z.sub_0_r. by split_and!.
  - apply Forall_cons in Hp as [Hc Hp].
    pose proof (iov_total_nonneg iov Hp). rewrite iov_total_cons in Hr.
    unfold ztrue. destruct (0 <? n) eqn:E0; zbool; cbn [andb].
    2: { assert (n = 0) as -> by lia. exists (c :: iov). rewrite Z.sub_0_r, iov_total_cons. split_and!; [done|by constructor|done]. }
    rewrite (proj2 (Z.eqb_neq resid 0)) by lia. cbn [negb]. destruct (n <? c) eqn:E1; zbool.
    { exists ((c - n) :: iov). split_and!; [done|constructor; [lia|done]|rewrite iov_total_cons; lia]. }
    destruct (0 <? n - c) eqn:E2; zbool; cbn [andb].
    + rewrite (proj2 (Z.eqb_neq (resid - c) 0)) by lia. cbn [negb].
      destruct (IH (resid - c) (n - c)) as (iov' & E & Hp' & Hs'); [done|lia|lia|].
      exists iov'. rewrite E. cbn. split_and!; [|done|lia]. do 2 f_equal; [f_equal; lia|lia].
    + exists (0 :: iov). assert (n = c) as -> by lia. split_and!; [done|constructor; [lia|done]|rewrite iov_total_cons; lia].
Qed.

Definition uio_ok (s : sstate) : Prop :=
  Forall (Z.le 0) (s_iov s) ∧ s_resid s = iov_total (s_iov s) ∧ Z.of_nat (length (s_data s)) = s_resid s ∧
  s_resid s < 2147483648.

Lemma move_in_spec n s :
  uio_ok s → 0 <= n <= s_resid s →
  wp (move_in n) s (λ b s', b = take (Z.to_nat n) (s_data s) ∧ Z.of_nat (length b) = n ∧ uio_ok s' ∧
    s_resid s' = s_resid s - n ∧ s_data s' = drop (Z.to_nat n) (s_data s) ∧
    s' = s_set_uio (s_iov s') (s_resid s') (s_data s') s).
Proof.
  intros (H1 & H2 & H3 & H4) Hn. destruct (uiomove_spec _ _ _ H1 H2 Hn) as (iov' & E & H5 & H6).
  unfold wp, move_in. rewrite E. split_and!; [done|rewrite length_take; lia| |done|done|done].
  split_and!; cbn; [done|done|rewrite length_drop; lia|lia].
Qed.

(** ** One mbuf of a chain *)

(** The mbuf [m] can take [len] bytes at its data pointer, and shares no memory with
    [top]. *)
Definition room (s : mstate) (top : list mbuf) (m : mbuf) (len : Z) : Prop :=
  0 <= m_data m ∧ (∃ b, buffer s m = Some b ∧ m_data m + len <= Z.of_nat (length b)) ∧
  (has m M_EXT = true → (ext_buf m ∉ mclfree s ++ exts top) ∧ ext_buf m + MCLBYTES <= brk s ∧
    ∃ b, clusters s !! ext_buf m = Some b ∧ Z.of_nat (length b) = MCLBYTES).

(** What an mbuf holds: some data if there are any and space for them; and the
    space left is enough for the rest if it was enough for all, with [slack]. *)
Definition amount_ok (slack resid space len space' : Z) : Prop :=
  0 <= len <= resid ∧ (0 < resid → 0 < space → 0 < len) ∧ (resid + slack <= space → resid - len <= Z.max 0 space') ∧
  space' <= space ∧ (0 <= space → len <= space).

Lemma min_small a b c : 0 <= a <= 2048 → 0 <= b < 2147483648 →
  0 <= s32 (min (min a b) c) <= Z.min a b ∧ (0 < Z.min a b → 0 < c < 4294967296 → 0 < s32 (min (min a b) c)) ∧
  (Z.min a b <= c < 4294967296 → s32 (min (min a b) c) = Z.min a b).
Proof.
  intros Ha Hb. unfold min. rewrite (u32_id a), (u32_id b) by (red; lia).
  rewrite (u32_id (Z.min a b)) by (red; lia). pose proof (u32_range c) as Hc. red in Hc.
  rewrite s32_id by (red; lia). split_and!; [lia|lia| |].
  - intros H1 H2. rewrite u32_id by (red; lia). lia.
  - intros H1. rewrite u32_id by (red; lia). lia.
Qed.

Lemma wp_s_low {A} (m : M mstate A) s P Q :
  wp m (s_ms s) P → (∀ a ms, P a ms → Q a (s_set_ms ms s)) → wp (s_low m) s Q.
Proof. unfold wp, s_low. intros H HQ. destruct (m (s_ms s)) as [[a ms]| |]; [by apply HQ|done..]. Qed.

Section FillProof.
Context (drain : mstate → mstate) (junk cljunk : list Z) (junk_len max_hdr pr_flags flags : Z).
Context (junk_ok : Z.of_nat (length junk) = MLEN) (cljunk_ok : Z.of_nat (length cljunk) = MCLBYTES)
  (hdr_ok : 0 <= max_hdr < MCLBYTES).
#[local] Set Default Proof Using "Type*".

(** The room for the headers is taken off the space of an atomic message. *)
Definition slack (top : list mbuf) : Z := match top with [] => if atomic pr_flags then max_hdr else 0 | _ => 0 end.

Lemma fill_mbuf_spec top resid space s :
  oracle (s_ms s) = [] → held (s_ms s) top → 0 <= resid < 2147483648 → space < 4294967296 →
  wp (fill_mbuf drain junk cljunk junk_len max_hdr pr_flags top resid space) s (λ r s',
    let '(m, len, space') := r in
    s' = s_set_ms (s_ms s') s ∧ oracle (s_ms s') = [] ∧ held (s_ms s') top ∧
    (∀ p, p ∈ exts top → clusters (s_ms s') !! p = clusters (s_ms s) !! p) ∧
    room (s_ms s') top m len ∧ amount_ok (slack top) resid space len space').
Proof.
  intros Ho Hh Hr Hsp. unfold fill_mbuf. set (first := match top with [] => true | _ => false end).
  set (m0 := if first then MB junk_len 8 MT_DATA M_PKTHDR 0 0 0 0 junk else MB junk_len 0 MT_DATA 0 0 0 0 0 junk).
  wp_step. eapply wp_s_low.
  { replace (if first then MGETHDR drain junk junk_len MT_DATA else MGET drain junk junk_len MT_DATA) with (mget drain m0)
      by (unfold m0; by destruct first). by apply (mget_ok drain _ m0 top). }
  intros r s1 (-> & Ec1 & Hh1 & Ho1). set (m1 := if first then set_rcvif (set_pktlen m0 0) 0 else m0).
  set (mlen := if first then MHLEN else MLEN).
  assert (Hm1 : m_data m1 + mlen = MLEN ∧ 0 <= m_data m1 ∧ m_dat m1 = junk ∧ has m1 M_EXT = false).
  { unfold m1, m0, mlen. by destruct first. }
  assert (Hml : MHLEN <= mlen <= MLEN) by (unfold mlen, MHLEN; destruct first; lia).
  assert (Hno : wp (let len := s32 (min (min mlen resid) space) in
        let m := if atomic pr_flags && first && (len <? mlen) then MH_ALIGN m1 len else m1 in ret (m, len, space - len))
      (s_set_ms s1 s) (λ r s', let '(m, len, space') := r in
        s' = s_set_ms (s_ms s') s ∧ oracle (s_ms s') = [] ∧ held (s_ms s') top ∧
        (∀ p, p ∈ exts top → clusters (s_ms s') !! p = clusters (s_ms s) !! p) ∧
        room (s_ms s') top m len ∧ amount_ok (slack top) resid space len space')).
  { destruct Hm1 as (D1 & D2 & D3 & D4). cbv zeta. apply wp_ret.
    destruct (min_small mlen resid space) as (L1 & L2 & L3); [unfold MHLEN, MLEN, MSIZE in *; lia|done|].
    set (len := s32 (min (min mlen resid) space)) in *.
    split_and!; [done|done|done|intros p _; cbn; by rewrite Ec1| |].
    - assert (Hf : first = true → m_data m1 = 8 ∧ mlen = MHLEN) by (unfold m1, m0, mlen; by intros ->).
      destruct (atomic pr_flags && first && (len <? mlen)) eqn:Ea; zbool.
      + destruct Hf as [Hf1 Hf2]; [by destruct first; rewrite ?andb_false_r in *|].
        pose proof (round_down_range (MHLEN - len) ltac:(lia)) as Hrd.
        split_and!; [cbn; lia| |intros He; cbn in He; unfold has in *; cbn in *; congruence].
        exists junk. cbn [m_data MH_ALIGN set_data]. split; [unfold buffer, has in *; cbn in *; by rewrite D4, D3|].
        rewrite junk_ok. unfold MHLEN in *. lia.
      + split_and!; [lia| |congruence]. exists junk. split; [unfold buffer; by rewrite D4, D3|]. rewrite junk_ok. lia.
    - assert (Hsl : 0 <= slack top) by (unfold slack; destruct top, (atomic pr_flags); lia).
      split_and!; [lia|lia| | |lia|].
      3: { intros R1. destruct (Z.le_gt_cases (Z.min mlen resid) space); [lia|]. unfold len, min.
        rewrite (u32_id mlen), (u32_id resid), (u32_id (Z.min mlen resid)), (u32_id space) by (red; unfold MLEN, MSIZE in *; lia).
        rewrite s32_id by (red; unfold MLEN, MSIZE in *; lia). lia. }
      + intros R1 R2. apply L2; [unfold MHLEN, MLEN, MSIZE in *; lia|lia].
      + intros R1. lia. }
  destruct ((MINCLSIZE <=? resid) && (MCLBYTES <=? space)) eqn:Ecl; [|exact Hno]. zbool.
  wp_step. eapply wp_s_low; [by apply (MCLGET_ok cljunk cljunk_ok s1 top)|].
  intros m2 s2 (Ho2 & Hh2 & Hc2 & He2 & Hd2 & Hx2 & Hb2 & b2 & Eb2 & Hl2). rewrite He2. cbn [negb].
  assert (Hres : ∀ m len, m_data m + len <= MCLBYTES → 0 <= m_data m → has m M_EXT = true → ext_buf m = ext_buf m2 →
    0 <= len <= resid → (0 < resid → 0 < len) → (resid + slack top <= space → resid - len <= Z.max 0 (space - MCLBYTES)) →
    wp (ret (m, len, space - MCLBYTES)) (s_set_ms s2 (s_set_ms s1 s)) (λ r s', let '(m, len, space') := r in
        s' = s_set_ms (s_ms s') s ∧ oracle (s_ms s') = [] ∧ held (s_ms s') top ∧
        (∀ p, p ∈ exts top → clusters (s_ms s') !! p = clusters (s_ms s) !! p) ∧
        room (s_ms s') top m len ∧ amount_ok (slack top) resid space len space')).
  { intros m len R1 R2 R3 R4 R5 R6 R7. apply wp_ret. split_and!; [done|done|done| | |].
    - intros p Hp. cbn. rewrite Hc2 by done. by rewrite Ec1.
    - split_and!; [done| |].
      + exists b2. unfold buffer. rewrite R3, R4. split; [done|]. lia.
      + intros _. rewrite R4. split_and!; [done|done|]. by exists b2.
    - split_and!; [lia|lia|intros; by apply R6|done|unfold MCLBYTES; lia|unfold MCLBYTES in *; lia]. }
  unfold MINCLSIZE, MHLEN, MLEN, MSIZE, MCLBYTES in *.
  assert (Hmin : ∀ a, 0 < a <= 2048 → 0 < s32 (min a resid) <= a ∧ s32 (min a resid) = Z.min a resid).
  { intros a Ha. unfold min. rewrite !u32_id by (red; lia). rewrite s32_id by (red; lia). lia. }
  destruct (atomic pr_flags && first) eqn:Ea.
  - destruct (Hmin (2048 - max_hdr) ltac:(lia)) as [L1 L2]. apply Hres; cbn [m_data set_data ext_buf]; [rewrite Hd2; lia|lia|done|done|lia|lia|].
    unfold slack. unfold first in *. destruct top; [|by rewrite andb_false_r in Ea]. destruct (atomic pr_flags); [lia|done].
  - destruct (Hmin 2048 ltac:(lia)) as [L1 L2]. apply Hres; [rewrite Hd2; lia|lia|done|done|lia|lia|].
    assert (Hsl : 0 <= slack top) by (unfold slack; destruct top, (atomic pr_flags); lia). lia.
Qed.

End FillProof.

(** The data are written into the mbuf. *)
Lemma write_room s top m len b :
  held s top → room s top m len → Z.of_nat (length b) = len →
  wp (m_write m 0 b) s (λ m' s', oracle s' = oracle s ∧ held s' (top ++ [set_len m' len]) ∧
    bytes s' (top ++ [set_len m' len]) = bytes s top ++ b).
Proof.
  intros Hh (Hd & (buf & Eb & Hfit) & Hext) Hlen. unfold m_write. wp_step. apply wp_get. wp_step.
  eapply wp_lift; [exact Eb|]. wp_step. eapply wp_lift; [apply write_bytes_Some; lia|]. rewrite Z.add_0_r.
  set (buf' := take _ buf ++ b ++ drop _ buf).
  assert (Hmb : take (Z.to_nat len) (drop (Z.to_nat (m_data m)) buf') = b).
  { unfold buf'. rewrite drop_app_length' by (rewrite length_take; lia). by rewrite take_app_length' by lia. }
  assert (Hbl : length buf' = length buf).
  { unfold buf'. rewrite !length_app, length_take, length_drop. lia. }
  destruct (has m M_EXT) eqn:Ex.
  - destruct (Hext eq_refl) as (Hx & Hb & b0 & E0 & Hl0). wp_step. apply wp_put. apply wp_ret.
    assert (Hbuf : buf = b0) by (unfold buffer in Eb; rewrite Ex in Eb; congruence). subst b0.
    split_and!; [done| |].
    + destruct Hh as [H1 H2 H3 H4]. constructor; cbn [mclfree brk cl_rc_tbl clusters with_clusters]; [| |done|].
      * rewrite exts_snoc. change (has (set_len m len) M_EXT) with (has m M_EXT). rewrite Ex.
        change (ext_buf (set_len m len)) with (ext_buf m). rewrite app_assoc. apply NoDup_app. split_and!; [done| |apply NoDup_singleton].
        intros p Hp ->%list_elem_of_singleton. done.
      * intros p. rewrite exts_snoc. change (has (set_len m len) M_EXT) with (has m M_EXT). rewrite Ex, app_assoc.
        intros [Hp| ->%list_elem_of_singleton]%elem_of_app; [by apply H2|done].
      * intros p. rewrite exts_snoc. change (has (set_len m len) M_EXT) with (has m M_EXT). rewrite Ex, app_assoc.
        intros [Hp| ->%list_elem_of_singleton]%elem_of_app.
        -- rewrite lookup_insert_ne by (intros <-; done). by apply H4.
        -- exists buf'. cbn. rewrite lookup_insert_eq. split; [done|]. lia.
    + rewrite bytes_app. f_equal.
      * apply bytes_frame. intros p Hp. cbn. rewrite lookup_insert_ne; [done|]. intros <-. apply Hx. set_solver.
      * unfold bytes, mbytes, buffer. cbn [fmap list_fmap concat]. rewrite app_nil_r.
        change (has (set_len m len) M_EXT) with (has m M_EXT). rewrite Ex. cbn. by rewrite lookup_insert_eq.
  - apply wp_ret. split_and!; [done| |].
    + destruct Hh as [H1 H2 H3 H4].
      assert (Ee : exts (top ++ [set_len (set_dat m buf') len]) = exts top).
      { rewrite exts_snoc. change (has (set_len (set_dat m buf') len) M_EXT) with (has m M_EXT). rewrite Ex. by rewrite app_nil_r. }
      by constructor; rewrite ?Ee.
    + rewrite bytes_app. f_equal. unfold bytes, mbytes, buffer. cbn [fmap list_fmap concat]. rewrite app_nil_r.
      change (has (set_len (set_dat m buf') len) M_EXT) with (has m M_EXT). by rewrite Ex.
Qed.

(** Changes of the first mbuf that keep its data. *)
Lemma on_head_data f s top :
  (∀ m, m_len (f m) = m_len m ∧ m_data (f m) = m_data m ∧ has (f m) M_EXT = has m M_EXT ∧
    ext_buf (f m) = ext_buf m ∧ m_dat (f m) = m_dat m) →
  exts (on_head f top) = exts top ∧ bytes s (on_head f top) = bytes s top.
Proof.
  intros H. destruct top as [|m top]; [done|]. cbn [on_head]. destruct (H m) as (H1 & H2 & H3 & H4 & H5). split.
  - unfold exts. destruct (has m M_EXT) eqn:E.
    + rewrite !filter_cons_True by congruence. cbn. by rewrite H4.
    + by rewrite !filter_cons_False by congruence.
  - unfold bytes. cbn. f_equal. unfold mbytes, buffer. by rewrite H1, H2, H3, H4, H5.
Qed.

Lemma add_pktlen_data len s top : exts (add_pktlen len top) = exts top ∧ bytes s (add_pktlen len top) = bytes s top.
Proof. by apply on_head_data. Qed.

Lemma mark_eor_data flags s top : exts (mark_eor flags top) = exts top ∧ bytes s (mark_eor flags top) = bytes s top.
Proof.
  unfold mark_eor. destruct (test flags MSG_EOR); [|done]. apply on_head_data. intros m. split_and!; try done.
  unfold has, set_eor. cbn. by rewrite Z.land_lor_distr_l, Z.lor_0_r.
Qed.

Lemma held_exts s top top' : exts top' = exts top → held s top → held s top'.
Proof. intros E [H1 H2 H3 H4]. by constructor; rewrite ?E. Qed.

(** ** What is handed to the protocol *)

(** What [sosend] keeps besides the user's data: the log and the allocator. *)
Record same_socket (s s' : sstate) : Prop := SameSocket
  { ss_snd : s_snd s' = s_snd s; ss_state : s_state s' = s_state s; ss_error : s_error s' = s_error s;
    ss_options : s_options s' = s_options s; ss_log : s_log s' = s_log s }.

#[export] Instance same_socket_preorder : PreOrder same_socket.
Proof. split; [by constructor|]. intros s1 s2 s3 [] []. constructor; congruence. Qed.

(** The data of [s] are [d] followed by those of [s']. *)
Definition takes (d : list Z) (s s' : sstate) : Prop := s_data s = d ++ s_data s' ∧ uio_ok s'.

(** What a protocol promises: it neither touches the user's data nor fails to
    return, and leaves the allocator in order; the same for a wait that ends. *)
Class SendProtocol (usrreq : Z → list mbuf → list mbuf → M sstate Z) : Prop :=
  send_ok : ∀ req top control s, oracle (s_ms s) = [] → held (s_ms s) top →
    wp (usrreq req top control) s (λ _ s', s_iov s' = s_iov s ∧ s_resid s' = s_resid s ∧ s_data s' = s_data s ∧
      s_log s' = s_log s ∧ oracle (s_ms s') = [] ∧ held (s_ms s') []).

Class SendWait (sbwait : M sstate Z) : Prop :=
  wait_ok : ∀ s, oracle (s_ms s) = [] → held (s_ms s) [] →
    wlp sbwait s (λ _ s', s_iov s' = s_iov s ∧ s_resid s' = s_resid s ∧ s_data s' = s_data s ∧
      s_log s' = s_log s ∧ oracle (s_ms s') = [] ∧ held (s_ms s') []).

(** Everything handed to the protocol so far. *)
Definition sent (s : sstate) : list Z := concat ((λ e, e.1.2) <$> s_log s).

(** The state between two chains; data are neither lost nor repeated. *)
Record between (s s' : sstate) : Prop := Between
  { bt_data : sent s' ++ s_data s' = sent s ++ s_data s; bt_uio : uio_ok s';
    bt_oracle : oracle (s_ms s') = []; bt_held : held (s_ms s') []; bt_resid : s_resid s' <= s_resid s }.

Lemma between_trans s1 s2 s3 : between s1 s2 → between s2 s3 → between s1 s3.
Proof. intros [A1 B1 C1 D1 E1] [A2 B2 C2 D2 E2]. constructor; [congruence|done|done|done|lia]. Qed.

Lemma between_snd s s' sb : between s s' → between s (s_set_snd sb s').
Proof. by intros []. Qed.

Lemma between_refl s : uio_ok s → oracle (s_ms s) = [] → held (s_ms s) [] → between s s.
Proof. intros. by constructor. Qed.

Lemma between_same s s' :
  uio_ok s → s_iov s' = s_iov s ∧ s_resid s' = s_resid s ∧ s_data s' = s_data s ∧ s_log s' = s_log s ∧
    oracle (s_ms s') = [] ∧ held (s_ms s') [] → between s s'.
Proof.
  intros Hu (E1 & E2 & E3 & E4 & E5 & E6). constructor; [unfold sent; by rewrite E3, E4|unfold uio_ok; by rewrite E1, E2, E3|done|done|lia].
Qed.

Lemma send_check_go pr_flags flags addr control s space :
  send_check pr_flags flags addr control s = Go space → 0 <= clen control → space < 4294967296.
Proof.
  unfold send_check. intros H Hc. repeat (case_match; try done).
  all: injection H as <-; unfold sbspace; pose proof (s32_range (sb_hiwat (s_snd s) - sb_cc (s_snd s))) as R; red in R; lia.
Qed.

Lemma send_check_error pr_flags flags addr control s e : send_check pr_flags flags addr control s = Error e → e ≠ 0.
Proof.
  unfold send_check. intros H. destruct (test _ _); [by injection H as <-|].
  destruct (ztrue (s_error s)) eqn:E; [injection H as <-; unfold ztrue in E; by zbool|].
  repeat (case_match; try done; try by injection H as <-).
Qed.

Lemma wlp_of_wp {S A} (m : M S A) s Q : wp m s Q → wlp m s Q.
Proof. unfold wp, wlp. by destruct (m s) as [[]| |]. Qed.

Lemma wlp_s_low {A} (m : M mstate A) s (Q : A → sstate → Prop) : (∀ a ms, Q a (s_set_ms ms s)) → wlp (s_low m) s Q.
Proof. intros H. unfold wlp, s_low. destruct (m (s_ms s)) as [[a ms]| |]; [apply H|done..]. Qed.

Section SendProof.
Context (drain : mstate → mstate) (junk cljunk : list Z) (junk_len max_hdr pr_flags flags : Z).
Context (junk_ok : Z.of_nat (length junk) = MLEN) (cljunk_ok : Z.of_nat (length cljunk) = MCLBYTES)
  (hdr_ok : 0 <= max_hdr < MCLBYTES).
#[local] Set Default Proof Using "Type*".

Lemma fill_one_spec top space s :
  uio_ok s → oracle (s_ms s) = [] → held (s_ms s) top → space < 4294967296 →
  wp (fill_one drain junk cljunk junk_len max_hdr pr_flags top space) s (λ r s', ∃ d,
    takes d s s' ∧ bytes (s_ms s') r.1 = bytes (s_ms s) top ++ d ∧ oracle (s_ms s') = [] ∧ held (s_ms s') r.1 ∧
    same_socket s s' ∧ r.1 ≠ [] ∧
    amount_ok (slack max_hdr pr_flags top) (s_resid s) space (s_resid s - s_resid s') r.2).
Proof.
  intros Hu Ho Hh Hsp. pose proof Hu as (_ & Hr1 & Hr2 & Hr3). unfold fill_one. wp_step. apply wp_get. wp_step.
  eapply wp_mono; [apply (fill_mbuf_spec drain junk cljunk junk_len max_hdr pr_flags junk_ok cljunk_ok hdr_ok top (s_resid s) space s); [done|done|lia|done]|].
  intros [[m len] space1] s1 (E1 & Ho1 & Hh1 & Hc1 & Hroom & Ham).
  assert (Hu1 : uio_ok s1) by (rewrite E1; exact Hu).
  assert (Er1 : s_resid s1 = s_resid s) by (rewrite E1; done). assert (Ed1 : s_data s1 = s_data s) by (rewrite E1; done).
  pose proof Ham as (Hlen & _). wp_step. eapply wp_mono; [apply (move_in_spec len s1 Hu1); lia|].
  intros b s2 (Eb & Hlb & Hu2 & Er2 & Ed2 & E2). assert (Em2 : s_ms s2 = s_ms s1) by (rewrite E2; done).
  wp_step. eapply wp_s_low; [rewrite Em2; by apply (write_room (s_ms s1) top m len b Hh1 Hroom)|].
  intros m' ms3 (Ho3 & Hh3 & Hb3). apply wp_ret. exists b.
  destruct (add_pktlen_data len ms3 (top ++ [set_len m' len])) as [F1 F2]. cbn [fst snd s_set_ms s_ms s_resid].
  split_and!.
  - split; [|exact Hu2]. cbn. by rewrite Ed2, Eb, Ed1, take_drop.
  - rewrite F2, Hb3. f_equal. by apply bytes_frame.
  - congruence.
  - by eapply held_exts.
  - rewrite E2, E1. by constructor.
  - by destruct top.
  - by replace (s_resid s - s_resid s2) with len by lia.
Qed.

Lemma takes_trans d1 d2 s1 s2 s3 : takes d1 s1 s2 → takes d2 s2 s3 → takes (d1 ++ d2) s1 s3.
Proof using Type. intros [E1 _] [E2 H]. split; [|done]. by rewrite E1, E2, app_assoc. Qed.

(** A chain: its bytes are the next ones of the user, all of them if the message is
    atomic and there is space. *)
Lemma fill_spec n top space s :
  uio_ok s → oracle (s_ms s) = [] → held (s_ms s) top → space < 4294967296 → s_resid s <= Z.of_nat n →
  wp (fill drain junk cljunk junk_len max_hdr pr_flags flags n top space) s (λ r s', ∃ d,
    takes d s s' ∧ bytes (s_ms s') r.1 = bytes (s_ms s) top ++ d ∧ oracle (s_ms s') = [] ∧ held (s_ms s') r.1 ∧
    same_socket s s' ∧ r.2 <= space ∧ (0 < s_resid s → 0 < space → s_resid s' < s_resid s) ∧
    (space = 0 → s_resid s' = s_resid s) ∧
    (s_resid s + slack max_hdr pr_flags top <= space →
     if atomic pr_flags then s_resid s' = 0 else s_resid s' <= Z.max 0 r.2)).
Proof.
  revert top space s. induction n as [|n IH]; intros top space s Hu Ho Hh Hsp Hn; cbn [fill]; wp_step;
    (eapply wp_mono; [by apply (fill_one_spec top space s)|]);
    intros [top1 space1] s1 (d1 & Ht1 & Hb1 & Ho1 & Hh1 & Hs1 & Hne & Hl & Hp & Hsl & Hle & Hz); cbn [fst snd] in *;
    pose proof Ht1 as [_ (_ & Hr1 & Hr2 & Hr3)]; wp_step; apply wp_get; destruct (s_resid s1 <=? 0) eqn:E1; zbool.
  1, 3: apply wp_ret; exists d1; destruct (mark_eor_data flags (s_ms s1) top1) as [F1 F2];
    cbn [fst snd]; split_and!; [done|by rewrite F2|done|by eapply held_exts|done|done|lia|lia|]; intros; destruct (atomic pr_flags); lia.
  - destruct ((0 <? space1) && atomic pr_flags) eqn:E2.
    + lia.
    + apply wp_ret. exists d1. split_and!; try done; [cbn; lia|lia|]. cbn. intros Hs. apply andb_false_iff in E2.
      destruct (atomic pr_flags); [|lia]. destruct E2 as [E2|E2]; [|done]. zbool. lia.
  - destruct ((0 <? space1) && atomic pr_flags) eqn:E2.
    + zbool. destruct (Z.le_gt_cases space 0) as [Hsp0|Hsp0]; [lia|].
      eapply wp_mono; [apply (IH top1 space1 s1); [apply Ht1|done|done|lia|lia]|].
      intros [top2 space2] s2 (d2 & Ht2 & Hb2 & Ho2 & Hh2 & Hs2 & Hle2 & Hp2 & _ & Hsl2). cbn [fst snd] in *.
      exists (d1 ++ d2). split_and!; [by eapply takes_trans|by rewrite Hb2, Hb1, app_assoc|done|done|by etrans|lia| |lia|].
      * destruct Ht2 as [_ (_ & Hr1' & Hr2' & Hr3')]. intros. specialize (Hp2 ltac:(lia) ltac:(lia)). lia.
      * intros Hs. apply Hsl2. unfold slack. destruct top1; [done|]. lia.
    + apply wp_ret. exists d1. split_and!; try done; [cbn; lia|lia|]. cbn. intros Hs. apply andb_false_iff in E2.
      destruct (atomic pr_flags); [|lia]. destruct E2 as [E2|E2]; [|done]. zbool. lia.
Qed.

Context (usrreq : Z → list mbuf → list mbuf → M sstate Z) `{!SendProtocol usrreq}.

Definition send_req : Z := if test flags MSG_OOB then Socket.PRU_SENDOOB else Socket.PRU_SEND.

Lemma send_chain_spec dr top control s :
  oracle (s_ms s) = [] → held (s_ms s) top →
  wp (send_chain usrreq flags dr top control) s (λ _ s', s_iov s' = s_iov s ∧ s_resid s' = s_resid s ∧ s_data s' = s_data s ∧
    (∃ o, s_log s' = s_log s ++ [(send_req, bytes (s_ms s) top, o)]) ∧ oracle (s_ms s') = [] ∧ held (s_ms s') []).
Proof.
  intros Ho Hh. unfold send_chain. wp_step.
  assert (H1 : ∀ s1, s_ms s1 = s_ms s ∧ s_iov s1 = s_iov s ∧ s_resid s1 = s_resid s ∧ s_data s1 = s_data s ∧ s_log s1 = s_log s →
    wp (let req := if test flags MSG_OOB then Socket.PRU_SENDOOB else Socket.PRU_SEND in
      do! modify (λ s, s_set_log (s_log s ++ [(req, bytes (s_ms s) top, s_options s)]) s) in
      let! error := usrreq req top control in
      do! (if dr then modify (λ s, s_set_options (Z.land (s_options s) (Z.lnot SO_DONTROUTE)) s) else ret ()) in ret error) s1
      (λ _ s', s_iov s' = s_iov s ∧ s_resid s' = s_resid s ∧ s_data s' = s_data s ∧
        (∃ o, s_log s' = s_log s ++ [(send_req, bytes (s_ms s) top, o)]) ∧ oracle (s_ms s') = [] ∧ held (s_ms s') [])).
  { intros s1 (E1 & E2 & E3 & E4 & E5). cbv zeta. wp_step. apply wp_modify. wp_step.
    eapply wp_mono; [apply send_ok; cbn; by rewrite E1|]. cbn. intros e s2 (F1 & F2 & F3 & F4 & F5 & F6).
    wp_step. destruct dr.
    - apply wp_modify. apply wp_ret. cbn. rewrite F1, F2, F3, F4, E1, E2, E3, E4, E5. split_and!; try done. by eexists.
    - apply wp_ret. apply wp_ret. rewrite F1, F2, F3, F4, E1, E2, E3, E4, E5. split_and!; try done. by eexists. }
  destruct dr; [apply wp_modify|apply wp_ret]; by apply H1.
Qed.

Lemma chunk_spec fuel dr control space s :
  uio_ok s → oracle (s_ms s) = [] → held (s_ms s) [] → space < 4294967296 → s_resid s <= Z.of_nat fuel →
  wp (chunk drain junk cljunk junk_len max_hdr usrreq pr_flags flags fuel dr control space) s (λ r s',
    between s s' ∧ r.2 <= space ∧ (0 < s_resid s → 0 < space → s_resid s' < s_resid s) ∧
    (space = 0 → s_resid s' = s_resid s) ∧ (s_resid s' = 0 → ∃ o, s_log s' = s_log s ++ [(send_req, s_data s, o)]) ∧
    (s_resid s + slack max_hdr pr_flags [] <= space →
     if atomic pr_flags then s_resid s' = 0 else s_resid s' <= Z.max 0 r.2)).
Proof.
  intros Hu Ho Hh Hsp Hf. unfold chunk. wp_step. eapply wp_mono; [by apply (fill_spec fuel [] space s)|].
  intros [top space1] s1 (d & Ht & Hb & Ho1 & Hh1 & Hss & Hle & Hpr & Hz0 & Hall). cbn [fst snd] in *. wp_step.
  eapply wp_mono; [by apply (send_chain_spec dr top control s1)|].
  intros e s2 (E1 & E2 & E3 & (o & E4) & Ho2 & Hh2). apply wp_ret. cbn [fst snd]. rewrite E2.
  destruct Ht as [Ed Hu1]. pose proof Hu1 as (U1 & U2 & U3 & U4). pose proof Hu as (_ & _ & V3 & _).
  change (bytes (s_ms s) [] ++ d) with d in Hb. rewrite Hb, (ss_log _ _ Hss) in E4. split_and!; [|done|done|done| |done].
  - constructor; [|unfold uio_ok; by rewrite E1, E2, E3|done|done|].
    + unfold sent. rewrite E4, fmap_app, concat_app, E3, Ed. cbn. by rewrite app_nil_r, <- app_assoc.
    + rewrite E2. apply (f_equal length) in Ed. rewrite length_app in Ed. lia.
  - intros Hz. exists o. rewrite E4, Ed. destruct (s_data s1); [by rewrite app_nil_r|cbn in U3; lia].
Qed.

(** The inner loop.  With space for everything, nothing is left when it ends without
    an error, and an atomic message goes in one piece. *)
Lemma chunks_spec fuel n dr control space s :
  uio_ok s → oracle (s_ms s) = [] → held (s_ms s) [] → space < 4294967296 →
  s_resid s <= Z.of_nat fuel → s_resid s <= Z.of_nat n →
  wp (chunks drain junk cljunk junk_len max_hdr usrreq pr_flags flags fuel n dr control space) s (λ e s',
    between s s' ∧ (e = 0 → s_resid s + slack max_hdr pr_flags [] <= space → s_resid s' = 0 ∧
      (atomic pr_flags = true → ∃ o, s_log s' = s_log s ++ [(send_req, s_data s, o)]))).
Proof.
  revert control space s. induction n as [|n IH]; intros control space s Hu Ho Hh Hsp Hf Hn; cbn [chunks]; wp_step;
    (eapply wp_mono; [by apply (chunk_spec fuel dr control space s)|]); intros [e space1] s2 (Hbt & Hle & Hpr & _ & Hlog & Hall);
    cbn [fst snd] in *; (destruct (ztrue e) eqn:Ee; [apply wp_ret; split; [done|intros ->; done]|]); wp_step; apply wp_get;
    unfold ztrue at 1; destruct (s_resid s2 =? 0) eqn:Ez; zbool; cbn [negb andb];
    pose proof (bt_resid _ _ Hbt); destruct (bt_uio _ _ Hbt) as (U1 & U2 & U3 & U4).
  1, 3: apply wp_ret; split; [done|]; intros _ Hs; split; [done|]; intros _; by apply Hlog.
  all: destruct (0 <? space1) eqn:Es; zbool.
  2, 4: apply wp_ret; split; [done|]; intros _ Hs; exfalso; specialize (Hall Hs); destruct (atomic pr_flags); lia.
  - exfalso. assert (0 < space) by lia. specialize (Hpr ltac:(lia) ltac:(lia)). lia.
  - assert (s_resid s2 < s_resid s) by (apply Hpr; lia).
    eapply wp_mono; [apply (IH [] space1 s2); [apply Hbt|apply Hbt|apply Hbt|lia|lia|lia]|].
    intros e' s3 [Hbt3 Hall3]. split; [by eapply between_trans|]. intros He Hs. specialize (Hall Hs).
    destruct (atomic pr_flags) eqn:Ea; [lia|]. destruct (Hall3 He) as [Hz _]; [unfold slack; rewrite Ea; lia|]. done.
Qed.

Context (sbwait : M sstate Z) `{!SendWait sbwait} (sb_lock : sockbuf → sockbuf * Z) (addr : bool) (fuel : nat).

(** The outer loop, whatever the protocol does with the data and however long the
    waits are. *)
Lemma send_rounds_spec n dr control s :
  uio_ok s → oracle (s_ms s) = [] → held (s_ms s) [] → s_resid s <= Z.of_nat fuel → 0 <= clen control →
  wlp (rounds drain junk cljunk junk_len max_hdr usrreq sbwait sb_lock pr_flags flags addr fuel n dr control) s (λ e s',
    sent s' ++ s_data s' = sent s ++ s_data s ∧ uio_ok s' ∧ s_resid s' <= s_resid s ∧ (e = 0 → s_resid s' = 0)).
Proof.
  revert control s. induction n as [|n IH]; intros control s Hu Ho Hh Hf Hc; cbn [rounds]; apply wlp_bind, wlp_get;
    destruct (send_check _ _ _ _ s) as [e| |space] eqn:Ec.
  1, 4: apply wlp_bind, wlp_modify, wlp_bind, wlp_s_low; intros [] ms; apply wlp_ret; (split_and!; [done|done|cbn; lia|]); intros ->; by apply send_check_error in Ec.
  1, 3: apply wlp_bind, wlp_modify, wlp_bind; (eapply wlp_mono; [by apply wait_ok|]); intros e s1 Hs1;
    apply (between_same s s1 Hu) in Hs1; (destruct (ztrue e) eqn:Ee; [apply wlp_bind, wlp_s_low; intros [] ms; apply wlp_ret; (split_and!; [apply Hs1|apply Hs1|apply Hs1|]); by intros ->|]).
  { apply wlp_crash. }
  { apply wlp_bind, wlp_modify. pose proof (bt_resid _ _ Hs1).
    apply (between_snd _ _ (sblock sb_lock (s_snd s1) (if test flags MSG_DONTWAIT then M_NOWAIT else M_WAITOK)).1) in Hs1.
    eapply wlp_mono; [apply IH; [apply Hs1|apply Hs1|apply Hs1|cbn; lia|done]|].
    intros e' s3 (R1 & R2 & R3 & R4). split_and!; [|done|cbn in R3; lia|done]. rewrite R1. apply Hs1. }
  all: apply wlp_bind; eapply wlp_mono; [eapply wlp_of_wp, (chunks_spec fuel fuel dr control space s Hu Ho Hh (send_check_go _ _ _ _ _ _ Ec Hc) Hf Hf)|];
    intros e s1 [Hb _]; apply wlp_bind, wlp_get; pose proof (bt_resid _ _ Hb);
    (destruct (ztrue e) eqn:Ee; [apply wlp_bind, wlp_modify, wlp_ret; split_and!; [apply Hb|apply Hb|apply Hb|]; by intros ->|]);
    destruct (ztrue (s_resid s1)) eqn:Er.
  { apply wlp_crash. }
  2: { eapply wlp_mono; [apply (IH [] s1); [apply Hb|apply Hb|apply Hb|lia|done]|].
    intros e' s3 (R1 & R2 & R3 & R4). split_and!; [|done|lia|done]. rewrite R1. apply Hb. }
  all: apply wlp_bind, wlp_modify, wlp_ret; split_and!; [apply Hb|apply Hb|apply Hb|]; intros _; unfold ztrue in Er; by zbool.
Qed.

Lemma sosend_spec control s :
  uio_ok s → oracle (s_ms s) = [] → held (s_ms s) [] → s_resid s <= Z.of_nat fuel → 0 <= clen control →
  wlp (sosend drain junk cljunk junk_len max_hdr usrreq sbwait sb_lock pr_flags flags addr fuel control) s (λ e s',
    sent s' ++ s_data s' = sent s ++ s_data s ∧ uio_ok s' ∧ s_resid s' <= s_resid s ∧ (e = 0 → s_resid s' = 0)).
Proof.
  intros Hu Ho Hh Hf Hc. unfold sosend. apply wlp_bind, wlp_get. pose proof Hu as (_ & _ & Hl & _).
  rewrite (proj2 (Z.ltb_ge (s_resid s) 0)) by lia. apply wlp_bind, wlp_modify.
  eapply wlp_mono; [by apply send_rounds_spec|]. done.
Qed.

(** C13: [sosend] neither loses, repeats nor reorders data: whatever the protocol does
    with the chains it gets (it may fail, free them, change the state of the socket or
    of the buffer) and however often the call has to wait, when it returns the bytes
    handed over so far followed by the bytes not yet taken from the user are the user's
    data; and when it returns no error, everything was handed over. *)
Theorem sosend_in_order control s :
  uio_ok s → oracle (s_ms s) = [] → held (s_ms s) [] → s_resid s <= Z.of_nat fuel → 0 <= clen control →
  wlp (sosend drain junk cljunk junk_len max_hdr usrreq sbwait sb_lock pr_flags flags addr fuel control) s (λ e s',
    sent s' ++ s_data s' = sent s ++ s_data s ∧ (e = 0 → s_resid s' = 0)).
Proof.
  intros Hu Ho Hh Hf Hc. eapply wlp_mono; [by apply sosend_spec|]. intros e s' (H1 & _ & _ & H2). by split.
Qed.

(** The state once the buffer is locked. *)
Definition locked (s : sstate) : sstate :=
  s_set_snd (sblock sb_lock (s_snd s) (if test flags MSG_DONTWAIT then M_NOWAIT else M_WAITOK)).1 s.

(** If the protocol accepts everything, so does the inner loop. *)
Lemma chunks_accepted n dr control space s :
  (∀ req top c s, wlp (usrreq req top c) s (λ e _, e = 0)) →
  wlp (chunks drain junk cljunk junk_len max_hdr usrreq pr_flags flags fuel n dr control space) s (λ e _, e = 0).
Proof using Type.
  intros Hacc.
  assert (Hchunk : ∀ c sp s, wlp (chunk drain junk cljunk junk_len max_hdr usrreq pr_flags flags fuel dr c sp) s (λ r _, r.1 = 0)).
  { intros c sp s1. unfold chunk. apply wlp_skip. intros [top sp1] s2. apply wlp_bind. unfold send_chain.
    apply wlp_skip. intros _ s3. apply wlp_skip. intros _ s4. apply wlp_bind. eapply wlp_mono; [apply Hacc|].
    intros e s5 ->. apply wlp_skip. intros _ s6. apply wlp_ret. by apply wlp_ret. }
  revert control space s. induction n as [|n IH]; intros control space s; cbn [chunks]; apply wlp_bind;
    (eapply wlp_mono; [apply Hchunk|]); intros [e sp] s1; cbn; intros ->; apply wlp_bind, wlp_get;
    (destruct (ztrue (s_resid s1) && (0 <? sp)); [|by apply wlp_ret]); [apply wlp_crash|apply IH].
Qed.

Lemma rounds_complete n dr control s space :
  uio_ok s → oracle (s_ms s) = [] → held (s_ms s) [] → s_resid s <= Z.of_nat fuel → 0 <= clen control →
  (∀ req top c s, wlp (usrreq req top c) s (λ e _, e = 0)) →
  send_check pr_flags flags addr control s = Go space →
  s_resid s + (if atomic pr_flags then max_hdr else 0) <= space →
  wp (rounds drain junk cljunk junk_len max_hdr usrreq sbwait sb_lock pr_flags flags addr fuel n dr control) s (λ e s',
    e = 0 ∧ s_resid s' = 0 ∧ sent s' = sent s ++ s_data s ∧
    (atomic pr_flags = true → ∃ o, s_log s' = s_log s ++ [(send_req, s_data s, o)])).
Proof.
  intros Hu Ho Hh Hf Hc Hacc Hgo Hsp.
  destruct n; cbn [rounds]; wp_step; apply wp_get; rewrite Hgo; wp_step;
    (eapply wp_mono; [apply wp_wlp; [apply (chunks_spec fuel fuel dr control space s Hu Ho Hh (send_check_go _ _ _ _ _ _ Hgo Hc) Hf Hf)|
      apply (chunks_accepted fuel dr control space s Hacc)]|]); intros e s1 [[Hb Hall] ->]; cbv beta in *;
    destruct (Hall eq_refl Hsp) as [Hz Hlog]; wp_step; apply wp_get; rewrite Hz; change (ztrue 0) with false; cbv iota;
    wp_step; apply wp_modify, wp_ret; destruct Hb as [Hd (_ & _ & Hl & _) _ _ _];
    (split_and!; [done|done| |done]); change (sent s1 = sent s ++ s_data s); rewrite <- Hd;
    (destruct (s_data s1); [by rewrite app_nil_r|cbn in Hl; lia]).
Qed.


End SendProof.

(** ** A protocol that takes nothing *)

Definition take_nothing (req : Z) (top control : list mbuf) : M sstate Z := ret 0.

Lemma held_nil s top : held s top → held s [].
Proof.
  intros [H1 H2 H3 H4]. assert (E : exts [] = []) by done. constructor; rewrite ?E, ?app_nil_r; [| |done|].
  - by apply NoDup_app in H1 as (? & _).
  - intros p Hp. apply H2. set_solver.
  - intros p Hp. apply H4. set_solver.
Qed.

#[export] Instance take_nothing_ok : SendProtocol take_nothing.
Proof. intros req top control s Ho Hh. apply wp_ret. split_and!; try done. by eapply held_nil. Qed.

#[export] Instance no_wait_ok : SendWait (ret 4).
Proof. intros s Ho Hh. by apply wlp_ret. Qed.

(** The checks of a connected stream socket whose buffer is full and whose low water
    mark is not positive: there is no reason to wait. *)
Definition TCP_FLAGS : Z := Z.lor Socket.PR_CONNREQUIRED Socket.PR_WANTRCVD.

Record full (s : sstate) : Prop := Full
  { fu_state : s_state s = TcpConn.SS_ISCONNECTED; fu_error : s_error s = 0; fu_space : sbspace (s_snd s) = 0;
    fu_lowat : sb_lowat (s_snd s) <= 0; fu_hiwat : 0 <= sb_hiwat (s_snd s); fu_uio : uio_ok s; fu_resid : 0 < s_resid s;
    fu_oracle : oracle (s_ms s) = []; fu_held : held (s_ms s) [] }.

Lemma full_check s : full s → send_check TCP_FLAGS 0 false [] s = Go 0.
Proof.
  intros [H1 H2 H3 H4 H5 _ _ _ _]. unfold send_check. rewrite H1, H2, H3.
  change (test TcpConn.SS_ISCONNECTED TcpConn.SS_CANTSENDMORE) with false.
  change (test TcpConn.SS_ISCONNECTED TcpConn.SS_ISCONNECTED) with true. change (atomic TCP_FLAGS) with false.
  change (test 0 MSG_OOB) with false. change (clen []) with 0. change (u32 0) with 0. change (ztrue 0) with false.
  cbn [negb andb orb]. rewrite (proj2 (Z.ltb_ge (sb_hiwat (s_snd s)) 0)), !Z.add_0_r by done.
  rewrite (proj2 (Z.ltb_ge 0 (sb_lowat (s_snd s)))), (proj2 (Z.ltb_ge 0 0)), andb_false_r by lia. done.
Qed.

Section Spin.
Context (drain : mstate → mstate) (junk cljunk : list Z) (junk_len max_hdr : Z).
Context (junk_ok : Z.of_nat (length junk) = MLEN) (cljunk_ok : Z.of_nat (length cljunk) = MCLBYTES)
  (hdr_ok : 0 <= max_hdr < MCLBYTES).
Context (sbwait : M sstate Z) (sb_lock : sockbuf → sockbuf * Z) (fuel : nat).
#[local] Set Default Proof Using "Type*".

Lemma full_chunk s :
  full s → s_resid s <= Z.of_nat fuel →
  wp (chunk drain junk cljunk junk_len max_hdr take_nothing TCP_FLAGS 0 fuel false [] 0) s (λ r s',
    r.1 = 0 ∧ r.2 <= 0 ∧ full s' ∧ s_resid s' = s_resid s).
Proof.
  intros Hfu Hf. pose proof Hfu as [H1 H2 H3 H4 H5 H6 H7 H8 H9]. unfold chunk. wp_step.
  eapply wp_mono; [apply (fill_spec drain junk cljunk junk_len max_hdr TCP_FLAGS 0 junk_ok cljunk_ok hdr_ok fuel [] 0 s); done|].
  intros [top space1] s1 (d & [_ Hu1] & _ & Ho1 & Hh1 & [S1 S2 S3 S4 S5] & Hle & _ & Hz & _). cbn [fst snd] in *.
  apply wp_ret. cbn [fst snd]. specialize (Hz eq_refl). split_and!; [done|done| |done].
  constructor; cbn [s_snd s_state s_error s_ms s_resid s_set_log]; rewrite ?S1, ?S2, ?S3, ?Hz; try done. by eapply held_nil.
Qed.

(** With a send low water mark of zero or less, which [setsockopt] accepts, a write
    on a connected stream socket whose buffer is full does not wait: it hands empty chains
    to the protocol for ever, so no number of rounds is enough for it to return. *)
Theorem sndlowat_spins n s :
  full s → s_resid s <= Z.of_nat fuel →
  rounds drain junk cljunk junk_len max_hdr take_nothing sbwait sb_lock TCP_FLAGS 0 false fuel n false [] s = Crash.
Proof.
  revert s. induction n as [|n IH]; intros s Hfu Hf; cbn [rounds]; unfold bind at 1, get at 1; rewrite (full_check s Hfu);
    pose proof (full_chunk s Hfu Hf) as Hc; apply wp_ok in Hc as ([e space1] & s1 & Ec & He & Hsp & Hfu1 & Hr); cbn in He, Hsp; subst e.
  all: assert (Ek : chunks drain junk cljunk junk_len max_hdr take_nothing TCP_FLAGS 0 fuel fuel false [] 0 s = Ok (0, s1)).
  1, 3: destruct fuel; cbn [chunks]; unfold bind at 1; rewrite Ec; change (ztrue 0) with false; cbv iota;
    unfold bind, get; rewrite (proj2 (Z.ltb_ge 0 space1)), andb_false_r by lia; done.
  all: unfold bind; rewrite Ek; unfold get; change (ztrue 0) with false; cbv iota;
    assert (Ez : ztrue (s_resid s1) = true) by (unfold ztrue; rewrite (proj2 (Z.eqb_neq (s_resid s1) 0)); [done|]; pose proof (fu_resid _ Hfu1); lia);
    rewrite Ez.
  - done.
  - apply IH; [done|lia].
Qed.

End Spin.

(** ** Examples *)

Definition ex_junk : list Z := replicate 108 0.
Definition ex_cljunk : list Z := replicate 2048 0.
Definition ex_sb (hiwat lowat : Z) : sockbuf := SB 0 hiwat 0 (2 * hiwat) lowat [] 0.
Definition ex_send (sb : sockbuf) (data : list Z) : sstate :=
  SState ex_state sb TcpConn.SS_ISCONNECTED 0 0 [Z.of_nat (length data)] (Z.of_nat (length data)) data [].

Lemma ex_held : held ex_state [].
Proof. constructor; cbn; [apply NoDup_nil_2|intros ? []%elem_of_nil..]. Qed.

Lemma ex_uio_ok sb data : Z.of_nat (length data) < 2147483648 → uio_ok (ex_send sb data).
Proof. intros H. split_and!; [repeat constructor; lia|cbn; lia|done|done]. Qed.

(** A datagram as large as the send buffer of UDP allows goes out as two: the room
    for the headers in the first cluster counts against the space, so the chain ends 56
    bytes early and the rest is sent as a second datagram. *)
Theorem datagram_split :
  let r := sosend id ex_junk ex_cljunk 0 56 take_nothing (ret 4) (λ sb, (sb, 0))
             (Z.lor Socket.PR_ATOMIC Socket.PR_ADDR) 0 true (Z.to_nat 9216) []
             (ex_send (ex_sb 9216 2048) (replicate (Z.to_nat 9216) 7)) in
  match r with
  | Ok (e, s) => e = 0 ∧ (λ x, Z.of_nat (length x.1.2)) <$> s_log s = [9160; 56]
  | _ => False
  end.
Proof. vm_compute. done. Qed.

(** A 300-byte write on a connected stream socket: it goes in one cluster. *)
Definition ex_stream : sstate := ex_send (ex_sb 16384 2048) (replicate 300 7).

Lemma sosend_in_order_witness :
  wlp (sosend id ex_junk ex_cljunk 0 56 take_nothing (ret 4) (λ sb, (sb, 0)) TCP_FLAGS 0 false 300 []) ex_stream (λ e s',
    sent s' ++ s_data s' = sent ex_stream ++ s_data ex_stream ∧ (e = 0 → s_resid s' = 0)).
Proof.
  apply (sosend_in_order id ex_junk ex_cljunk 0 56 TCP_FLAGS 0 eq_refl eq_refl ltac:(by split) take_nothing (ret 4) (λ sb, (sb, 0)) false 300 [] ex_stream).
  - by apply ex_uio_ok.
  - done.
  - apply ex_held.
  - done.
  - done.
Defined.


Lemma sndlowat_spins_witness :
  rounds id ex_junk ex_cljunk 0 56 take_nothing (ret 4) (λ sb, (sb, 0)) TCP_FLAGS 0 false 10 1000 false []
    (ex_send (ex_sb 0 0) (replicate 10 7)) = Crash.
Proof.
  apply (sndlowat_spins id ex_junk ex_cljunk 0 56 eq_refl eq_refl ltac:(by split) (ret 4) (λ sb, (sb, 0)) 10 1000).
  - constructor; try done; [by apply ex_uio_ok|apply ex_held].
  - done.
Defined.

End SockIo.
