(* ===== verification/SockRecv.v ===== *)
(** * Receiving on a socket ([soreceive] of kern/uipc_socket.c)

    [soreceive] takes the first record of the receive buffer apart: the address, the
    control mbufs, then data up to the count of the user, to the out-of-band mark or to
    the end of the record.  The port always copies to the user's memory ([mp0] is null). *)

From stdpp Require Import options.
From S2P Require Import Prelude Mbuf Sockbuf TcpOutput TcpConn Socket SockIo.
Import Mbuf Sockbuf SockIo.

Module SockRecv.

(** ** State *)

(** The receive buffer and the state of the socket, the segments of the user's memory
    and the bytes written to them, the address and the control mbufs returned, and the
    flags of the [PRU_RCVD] requests made. *)
Record rstate := RState
  { r_ms : mstate; r_sb : sockbuf; r_state : Z; r_error : Z; r_oobmark : Z;
    r_iov : list Z; r_resid : Z; r_user : list Z; r_addr : list mbuf; r_control : list mbuf;
    r_flags : Z; r_rcvd : list Z }.

Definition r_set_ms (v : mstate) (s : rstate) : rstate :=
  RState v (r_sb s) (r_state s) (r_error s) (r_oobmark s) (r_iov s) (r_resid s) (r_user s) (r_addr s)
    (r_control s) (r_flags s) (r_rcvd s).
Definition r_set_sb (v : sockbuf) (s : rstate) : rstate :=
  RState (r_ms s) v (r_state s) (r_error s) (r_oobmark s) (r_iov s) (r_resid s) (r_user s) (r_addr s)
    (r_control s) (r_flags s) (r_rcvd s).
Definition r_set_state (v : Z) (s : rstate) : rstate :=
  RState (r_ms s) (r_sb s) (s16 v) (r_error s) (r_oobmark s) (r_iov s) (r_resid s) (r_user s) (r_addr s)
    (r_control s) (r_flags s) (r_rcvd s).
Definition r_set_error (v : Z) (s : rstate) : rstate :=
  RState (r_ms s) (r_sb s) (r_state s) v (r_oobmark s) (r_iov s) (r_resid s) (r_user s) (r_addr s)
    (r_control s) (r_flags s) (r_rcvd s).
Definition r_set_oobmark (v : Z) (s : rstate) : rstate :=
  RState (r_ms s) (r_sb s) (r_state s) (r_error s) (u32 v) (r_iov s) (r_resid s) (r_user s) (r_addr s)
    (r_control s) (r_flags s) (r_rcvd s).
Definition r_set_uio (iov : list Z) (resid : Z) (user : list Z) (s : rstate) : rstate :=
  RState (r_ms s) (r_sb s) (r_state s) (r_error s) (r_oobmark s) iov resid user (r_addr s)
    (r_control s) (r_flags s) (r_rcvd s).
Definition r_set_addr (v : list mbuf) (s : rstate) : rstate :=
  RState (r_ms s) (r_sb s) (r_state s) (r_error s) (r_oobmark s) (r_iov s) (r_resid s) (r_user s) v
    (r_control s) (r_flags s) (r_rcvd s).
Definition r_set_control (v : list mbuf) (s : rstate) : rstate :=
  RState (r_ms s) (r_sb s) (r_state s) (r_error s) (r_oobmark s) (r_iov s) (r_resid s) (r_user s) (r_addr s)
    v (r_flags s) (r_rcvd s).
Definition r_set_flags (v : Z) (s : rstate) : rstate :=
  RState (r_ms s) (r_sb s) (r_state s) (r_error s) (r_oobmark s) (r_iov s) (r_resid s) (r_user s) (r_addr s)
    (r_control s) v (r_rcvd s).
Definition r_set_rcvd (v : list Z) (s : rstate) : rstate :=
  RState (r_ms s) (r_sb s) (r_state s) (r_error s) (r_oobmark s) (r_iov s) (r_resid s) (r_user s) (r_addr s)
    (r_control s) (r_flags s) v.

Definition r_low {A} (m : M mstate A) : M rstate A := λ s,
  match m (r_ms s) with Ok (a, ms) => Ok (a, r_set_ms ms s) | Panic => Panic | Crash => Crash end.
Definition mod_sb (f : sockbuf → sockbuf) : M rstate () := modify (λ s, r_set_sb (f (r_sb s)) s).

(** [uiomove] of the bytes [b] to the user. *)
Definition move_out (b : list Z) : M rstate () := λ s,
  match uiomove (r_iov s) (r_resid s) (Z.of_nat (length b)) with
  | Some (k, iov, resid) => Ok ((), r_set_uio iov resid (r_user s ++ take (Z.to_nat k) b) s)
  | None => Crash
  end.

Section Recv.
Context (drain : mstate → mstate) (junk : list Z) (junk_len : Z).
(** The protocol's answers to [PRU_RCVD] and [PRU_RCVOOB], and the waits. *)
Context (usr_rcvd : Z → M rstate ()) (usr_rcvoob : mbuf → bool → M rstate (Z * list mbuf))
  (sbwait : M rstate Z) (sb_lock : sockbuf → sockbuf * Z).
(** The protocol's flags, is there a control block, what the caller asks for, and the
    fuel of the loops. *)
Context (pr_flags : Z) (so_pcb paddr controlp flagsp : bool) (fuel : nat).

Definition m_copy1 (m : mbuf) : M rstate (list mbuf) := r_low (m_copym drain junk junk_len [m] 0 (m_len m)).

(** ** Out-of-band data *)

Fixpoint oob_loop (m : list mbuf) : M rstate () :=
  match m with
  | [] => ret ()
  | m0 :: rest =>
      let! s := get in
      let! b := r_low (m_read m0 0 (min (r_resid s) (m_len m0))) in
      do! move_out b in
      do! r_low (MFREE m0) in
      let! s := get in
      if ztrue (r_resid s) then oob_loop rest else r_low (m_freem rest)
  end.

Definition recv_oob (peek : bool) : M rstate Z :=
  let! m := r_low (MGET drain junk junk_len MT_DATA) in
  let! m := lift m in
  let! r := usr_rcvoob m peek in
  let '(error, m) := r in
  if ztrue error then do! r_low (m_freem m) in ret error
  else do! oob_loop m in ret 0.

(** ** Waiting *)

Definition first_record (sb : sockbuf) : list mbuf := match sb_mb sb with m :: _ => m | [] => [] end.
Definition other_records (sb : sockbuf) : list (list mbuf) := match sb_mb sb with _ :: r => r | [] => [] end.

Definition too_little (flags : Z) (s : rstate) : bool :=
  let sb := r_sb s in
  match sb_mb sb with
  | [] => true
  | _ :: next =>
      negb (test flags MSG_DONTWAIT) && (sb_cc sb <? u32 (r_resid s)) &&
      ((sb_cc sb <? u32 (sb_lowat sb)) || (test flags MSG_WAITALL && (u32 (r_resid s) <=? sb_hiwat sb))) &&
      (match next with [] => true | _ => false end) && negb (test pr_flags Socket.PR_ATOMIC)
  end.

Inductive rverdict := Return (e : Z) | TakeError (e : Z) | Block | Proceed.

Definition recv_check (flags : Z) (s : rstate) : rverdict :=
  if too_little flags s then
    let m := first_record (r_sb s) in
    let some := match m with [] => false | _ => true end in
    if ztrue (r_error s) then if some then Proceed else TakeError (r_error s)
    else if test (r_state s) TcpConn.SS_CANTRCVMORE then if some then Proceed else Return 0
    else if existsb (λ m, (m_type m =? MT_OOBDATA) || has m M_EOR) m then Proceed
    else if negb (test (r_state s) (Z.lor TcpConn.SS_ISCONNECTED TcpConn.SS_ISCONNECTING)) &&
            test pr_flags Socket.PR_CONNREQUIRED then Return Socket.ENOTCONN
    else if r_resid s =? 0 then Return 0
    else if test (r_state s) Socket.SS_NBIO || test flags MSG_DONTWAIT then Return EWOULDBLOCK
    else Block
  else Proceed.

(** ** The address and the control mbufs *)

(** [PR_ADDR]; the result is the rest of the record. *)
Definition recv_addr (peek : bool) (m : list mbuf) : M rstate (list mbuf) :=
  match m with
  | [] => crash
  | m0 :: rest =>
      do! (if peek then
             if paddr then let! c := m_copy1 m0 in modify (r_set_addr c) else ret ()
           else
             do! mod_sb (sbfree m0) in
             if paddr then modify (r_set_addr [m0]) else r_low (MFREE m0)) in
      ret rest
  end.

(** The result is the rest of the record and whether [orig_resid] was cleared. *)
Fixpoint recv_control (peek : bool) (m : list mbuf) : M rstate (list mbuf * bool) :=
  match m with
  | [] => ret ([], false)
  | m0 :: rest =>
      if m_type m0 =? MT_CONTROL then
        do! (if peek then
               if controlp then
                 let! c := m_copy1 m0 in
                 match c with [] => crash | _ => modify (λ s, r_set_control (r_control s ++ c) s) end
               else ret ()
             else
               do! mod_sb (sbfree m0) in
               if controlp then modify (λ s, r_set_control (r_control s ++ [m0]) s) else r_low (MFREE m0)) in
        let! r := recv_control peek rest in
        ret (r.1, controlp || r.2)
      else ret (m, false)
  end.

(** ** The data *)

(** How much of an mbuf is copied. *)
Definition amount (m : mbuf) (moff offset : Z) (s : rstate) : Z :=
  let len := r_resid s in
  let len := if ztrue (r_oobmark s) && (u32 (r_oobmark s - offset) <? u32 len)
             then s32 (r_oobmark s - offset) else len in
  if m_len m - moff <? len then m_len m - moff else len.

(** What a round of the copy loop leaves: the flags, the rest of the record, the
    offsets; [stop] says that the loop is left. *)
Record progress := Progress { p_flags : Z; p_m : list mbuf; p_moff : Z; p_offset : Z; p_stop : bool }.

(** One round: some data of the first mbuf are copied and, unless it is a peek, taken
    off the buffer. *)
Definition copy_one (flags : Z) (m0 : mbuf) (rest : list mbuf) (moff offset : Z) : M rstate progress :=
  let peek := test flags MSG_PEEK in
  do! modify (λ s, r_set_state (Z.land (r_state s) (Z.lnot TcpConn.SS_RCVATMARK)) s) in
  let! s := get in
  let len := amount m0 moff offset s in
  let! b := r_low (m_read m0 moff len) in
  do! move_out b in
  let whole := len =? m_len m0 - moff in
  let flags := if whole && has m0 M_EOR then Z.lor flags MSG_EOR else flags in
  let! r := (if whole then
               if peek then ret (rest, 0)
               else
                 do! mod_sb (sbfree m0) in
                 do! r_low (MFREE m0) in
                 ret (rest, moff)
             else if peek then ret (m0 :: rest, moff + len)
             else
               do! mod_sb (λ sb, with_counts (sb_cc sb - len) (sb_mbcnt sb) sb) in
               ret (set_data (set_len m0 (m_len m0 - len)) (m_data m0 + len) :: rest, moff)) in
  let '(m, moff) := r in
  let! s := get in
  if ztrue (r_oobmark s) then
    if peek then
      let offset := offset + len in
      ret (Progress flags m moff offset ((u32 offset =? r_oobmark s) || test flags MSG_EOR))
    else
      do! modify (λ s, r_set_oobmark (r_oobmark s - len) s) in
      let! s := get in
      if r_oobmark s =? 0 then
        do! modify (λ s, r_set_state (Z.lor (r_state s) TcpConn.SS_RCVATMARK) s) in
        ret (Progress flags m moff offset true)
      else ret (Progress flags m moff offset (test flags MSG_EOR))
  else ret (Progress flags m moff offset (test flags MSG_EOR)).

(** The loop of [MSG_WAITALL] that waits for more data when the record is used up:
    [None] is the return after a failed wait. *)
Fixpoint wait_more (n : nat) (flags : Z) (m : list mbuf) (next : list (list mbuf)) :
    M rstate (option (list mbuf * list (list mbuf))) :=
  let! s := get in
  match m, next with
  | [], [] =>
      if test flags MSG_WAITALL && (0 <? r_resid s) && negb (test pr_flags Socket.PR_ATOMIC) then
        if ztrue (r_error s) || test (r_state s) TcpConn.SS_CANTRCVMORE then ret (Some ([], []))
        else
          do! (if test flags MSG_PEEK then ret () else mod_sb (with_mb [])) in
          let! error := sbwait in
          if ztrue error then do! mod_sb (λ sb, (sbunlock sb).1) in ret None
          else
            let! s := get in
            match n with
            | O => crash
            | S n => wait_more n flags (first_record (r_sb s)) (other_records (r_sb s))
            end
      else ret (Some (m, next))
  | _, _ => ret (Some (m, next))
  end.

(** The copy loop: the flags, what is left of the record and the records after it. *)
Fixpoint copy_loop (n : nat) (type flags : Z) (m : list mbuf) (next : list (list mbuf)) (moff offset : Z) :
    M rstate (option (Z * list mbuf * list (list mbuf))) :=
  let! s := get in
  match m with
  | [] => ret (Some (flags, m, next))
  | m0 :: rest =>
      if negb (0 <? r_resid s) || negb (Bool.eqb (m_type m0 =? MT_OOBDATA) (type =? MT_OOBDATA))
      then ret (Some (flags, m, next))
      else
        let! p := copy_one flags m0 rest moff offset in
        if p_stop p then ret (Some (p_flags p, p_m p, next))
        else
          let! r := wait_more fuel (p_flags p) (p_m p) next in
          match r with
          | None => ret None
          | Some (m, next) =>
              match n with
              | O => crash
              | S n => copy_loop n type (p_flags p) m next (p_moff p) (p_offset p)
              end
          end
  end.

(** ** soreceive *)

Definition lock_rcv (flags : Z) : M rstate () :=
  mod_sb (λ sb, (sblock sb_lock sb (if test flags MSG_DONTWAIT then M_NOWAIT else M_WAITOK)).1).
Definition unlock_rcv : M rstate () := mod_sb (λ sb, (sbunlock sb).1).

(** What follows the copy: the rest of an atomic record is dropped, the buffer is
    put together again, the protocol is told.  The result is the flags. *)
Definition recv_finish (flags : Z) (m : list mbuf) (next : list (list mbuf)) : M rstate Z :=
  let peek := test flags MSG_PEEK in
  let trunc := (match m with [] => false | _ => true end) && test pr_flags Socket.PR_ATOMIC in
  let flags := if trunc then Z.lor flags MSG_TRUNC else flags in
  if peek then ret flags
  else
    do! mod_sb (with_mb (match m with [] => next | _ => m :: next end)) in
    do! (if trunc then
           let! s := get in
           let! sb := r_low (sbdroprecord (r_sb s)) in
           mod_sb (λ _, sb)
         else ret ()) in
    do! (if test pr_flags Socket.PR_WANTRCVD && so_pcb then
           do! modify (λ s, r_set_rcvd (r_rcvd s ++ [flags]) s) in usr_rcvd flags
         else ret ()) in
    ret flags.

(** One pass from the label [dontblock]: [None] jumps back to [restart]; the lock is
    held. *)
Definition recv_pass (flags orig_resid : Z) : M rstate (option Z) :=
  let! s := get in
  let m := first_record (r_sb s) in
  let next := other_records (r_sb s) in
  let peek := test flags MSG_PEEK in
  let addr := test pr_flags Socket.PR_ADDR in
  let! m := (if addr then recv_addr peek m else ret m) in
  let! r := recv_control peek m in
  let '(m, cleared) := r in
  let orig_resid := if addr || cleared then 0 else orig_resid in
  let type := match m with m0 :: _ => m_type m0 | [] => 0 end in
  let flags := match m with m0 :: _ => if type =? MT_OOBDATA then Z.lor flags MSG_OOB else flags | [] => flags end in
  let! r := copy_loop fuel type flags m next 0 0 in
  match r with
  | None => ret (Some 0)
  | Some (flags, m, next) =>
      let! flags := recv_finish flags m next in
      let! s := get in
      if (orig_resid =? r_resid s) && ztrue orig_resid && negb (test flags MSG_EOR) &&
         negb (test (r_state s) TcpConn.SS_CANTRCVMORE)
      then do! unlock_rcv in ret None
      else
        do! (if flagsp then modify (λ s, r_set_flags (Z.lor (r_flags s) flags) s) else ret ()) in
        do! unlock_rcv in
        ret (Some 0)
  end.

(** From the label [restart]. *)
Fixpoint recv_loop (n : nat) (flags orig_resid : Z) : M rstate Z :=
  do! lock_rcv flags in
  let! s := get in
  match recv_check flags s with
  | Return e => do! unlock_rcv in ret e
  | TakeError e =>
      do! (if test flags MSG_PEEK then ret () else modify (r_set_error 0)) in
      do! unlock_rcv in
      ret e
  | Block =>
      do! unlock_rcv in
      let! error := sbwait in
      if ztrue error then ret error
      else match n with O => crash | S n => recv_loop n flags orig_resid end
  | Proceed =>
      let! r := recv_pass flags orig_resid in
      match r with
      | Some e => ret e
      | None => match n with O => crash | S n => recv_loop n flags orig_resid end
      end
  end.

(** [*paddr = 0] and [*controlp = 0]. *)
Definition clear_results (s : rstate) : rstate :=
  r_set_addr (if paddr then [] else r_addr s) (r_set_control (if controlp then [] else r_control s) s).

(** What follows. *)
Definition recv_start : M rstate Z :=
  let! s := get in
  let flags := if flagsp then Z.land (r_flags s) (Z.lnot MSG_EOR) else 0 in
  if test flags MSG_OOB then recv_oob (test flags MSG_PEEK)
  else
    do! (if test (r_state s) TcpConn.SS_ISCONFIRMING && ztrue (r_resid s) then
           do! modify (λ s, r_set_rcvd (r_rcvd s ++ [0]) s) in usr_rcvd 0
         else ret ()) in
    recv_loop fuel flags (r_resid s).

Definition soreceive : M rstate Z := do! modify clear_results in recv_start.

End Recv.

(** ** The copy loop *)

(** The segments of the user's memory add up to the count. *)
Definition out_ok (s : rstate) : Prop :=
  Forall (Z.le 0) (r_iov s) ∧ r_resid s = iov_total (r_iov s) ∧ r_resid s < 2147483648.

Lemma move_out_spec b s :
  out_ok s → Z.of_nat (length b) <= r_resid s →
  wp (move_out b) s (λ _ s', ∃ iov, s' = r_set_uio iov (r_resid s - Z.of_nat (length b)) (r_user s ++ b) s ∧ out_ok s').
Proof.
  intros (H1 & H2 & H3) Hn. destruct (uiomove_spec (r_iov s) (r_resid s) (Z.of_nat (length b)) H1 H2) as (iov & E & H4 & H5); [lia|].
  unfold wp, move_out. rewrite E. exists iov. rewrite Nat2Z.id, firstn_all. split; [done|]. split_and!; cbn; [done|done|lia].
Qed.

Lemma wp_r_low {A} (m : M mstate A) s P Q :
  wp m (r_ms s) P → (∀ a ms, P a ms → Q a (r_set_ms ms s)) → wp (r_low m) s Q.
Proof. unfold wp, r_low. intros H HQ. destruct (m (r_ms s)) as [[a ms]| |]; [by apply HQ|done..]. Qed.

(** Data mbufs of a record without a mark at its end. *)
Definition plain (m : mbuf) : Prop := m_type m ≠ MT_OOBDATA ∧ has m M_EOR = false.

(** What the loop leaves alone. *)
Record same_rest (s s' : rstate) : Prop := SameRest
  { sr_error : r_error s' = r_error s; sr_oobmark : r_oobmark s' = r_oobmark s; sr_addr : r_addr s' = r_addr s;
    sr_control : r_control s' = r_control s; sr_flags : r_flags s' = r_flags s; sr_rcvd : r_rcvd s' = r_rcvd s;
    sr_limits : same_limits (r_sb s) (r_sb s') }.

#[export] Instance same_rest_preorder : PreOrder same_rest.
Proof.
  split; [by constructor|]. intros s1 s2 s3 [A1 B1 C1 D1 E1 F1 G1] [A2 B2 C2 D2 E2 F2 G2].
  constructor; [congruence..|by etrans].
Qed.

Lemma amount_plain m moff offset s :
  r_oobmark s = 0 → 0 <= m_len m - moff → 0 < r_resid s → amount m moff offset s = Z.min (r_resid s) (m_len m - moff).
Proof. intros Ho Hm Hr. unfold amount. rewrite Ho. cbn. destruct (_ <? _) eqn:E; zbool; lia. Qed.

(** A call without [MSG_PEEK] and [MSG_WAITALL], before a record mark. *)
Definition taking (flags : Z) : Prop :=
  test flags MSG_PEEK = false ∧ test flags MSG_WAITALL = false ∧ test flags MSG_EOR = false.
Definition peeking (flags : Z) : Prop :=
  test flags MSG_PEEK = true ∧ test flags MSG_WAITALL = false ∧ test flags MSG_EOR = false.

(** The data part of a record, seen from the state [s0] of the mbuf layer. *)
Definition data_ok (s0 : mstate) (m : list mbuf) : Prop :=
  Forall plain m ∧ Forall (mbuf_ok s0) m ∧ Forall (cl_known s0) m.

Lemma data_ok_cons s0 m ms : data_ok s0 (m :: ms) ↔ (plain m ∧ mbuf_ok s0 m ∧ cl_known s0 m) ∧ data_ok s0 ms.
Proof. unfold data_ok. rewrite !Forall_cons. tauto. Qed.

(** One round without a peek: [k] bytes go to the user and leave the buffer. *)
Lemma copy_one_take flags m0 rest tail s s0 :
  taking flags → same_store s0 (r_ms s) → r_oobmark s = 0 → out_ok s → 0 < r_resid s →
  data_ok s0 (m0 :: rest) → counts (r_sb s) (m0 :: rest ++ tail) →
  wp (copy_one flags m0 rest 0 0) s (λ p s', let k := Z.min (r_resid s) (m_len m0) in
    p = Progress flags (p_m p) 0 0 false ∧ same_store s0 (r_ms s') ∧ out_ok s' ∧ same_rest s s' ∧
    r_resid s' = r_resid s - k ∧ r_user s' = r_user s ++ take (Z.to_nat k) (mbytes s0 m0) ∧
    data_ok s0 (p_m p) ∧ counts (r_sb s') (p_m p ++ tail) ∧
    bytes s0 (p_m p) = drop (Z.to_nat k) (mbytes s0 m0) ++ bytes s0 rest ∧
    (k = m_len m0 ∧ p_m p = rest ∨ k = r_resid s)).
Proof.
  intros (Fp & Fw & Fe) Hs Ho Hu Hr [(Hpl & Hok & Hk) Hd]%data_ok_cons Hc. pose proof Hok as (Hl0 & _).
  pose proof (mbytes_length s0 m0 Hok) as Hml. destruct Hpl as [Hty Heor].
  unfold copy_one. rewrite Fp. wp_step. apply wp_modify. wp_step. apply wp_get.
  set (s1 := r_set_state _ s). rewrite (amount_plain m0 0 0 s1) by (cbn; try done; lia). rewrite !Z.sub_0_r.
  change (r_resid s1) with (r_resid s). set (k := Z.min (r_resid s) (m_len m0)).
  wp_step. eapply wp_r_low; [apply (m_read_wp (r_ms s1) m0 0 k); [by eapply mbuf_ok_store|lia|lia|lia]|].
  intros b ms [-> Eb]. rewrite drop_0 in Eb.
  assert (Eb' : b = take (Z.to_nat k) (mbytes s0 m0)).
  { rewrite Eb. f_equal. unfold mbytes, buffer. destruct Hs as [Hs _]. change (r_ms s1) with (r_ms s). by rewrite Hs. }
  assert (Hlb : Z.of_nat (length b) = k) by (rewrite Eb', length_take; lia).
  wp_step. eapply wp_mono; [apply (move_out_spec b); [exact Hu|cbn; lia]|]. intros [] s2 (iov & E2 & Hu2).
  rewrite Heor, andb_false_r.
  assert (R2 : same_rest s s2) by (rewrite E2; by constructor).
  assert (Er2 : r_resid s2 = r_resid s - k) by (rewrite E2; cbn; lia).
  assert (Eu2 : r_user s2 = r_user s ++ take (Z.to_nat k) (mbytes s0 m0)) by (rewrite E2, <- Eb'; done).
  assert (Es2 : same_store s0 (r_ms s2)) by (rewrite E2; exact Hs).
  assert (Ec2 : r_sb s2 = r_sb s) by (rewrite E2; done).
  assert (Eo2 : r_oobmark s2 = 0) by (rewrite E2; exact Ho). clear E2.
  destruct (Z.eqb_spec k (m_len m0)) as [Ek|Ek]; wp_step; wp_step; apply wp_modify.
  - wp_step. eapply wp_r_low; [cbn; by apply (MFREE_from s0 (r_ms s2) m0)|]. intros [] ms3 Hs3. apply wp_ret.
    wp_step. apply wp_get. cbn [r_oobmark r_set_sb r_set_ms]. rewrite Eo2. change (ztrue 0) with false. cbv iota. rewrite Fe.
    apply wp_ret. cbn [p_m]. split_and!; try done.
    + etrans; [exact R2|]. by constructor.
    + cbn. rewrite Ec2. by apply counts_free.
    + rewrite drop_ge by lia. done.
    + left. done.
  - apply wp_ret. wp_step. apply wp_get. cbn [r_oobmark r_set_sb]. rewrite Eo2. change (ztrue 0) with false. cbv iota. rewrite Fe.
    apply wp_ret. cbn [p_m]. destruct (mbytes_trim s0 m0 k Hok ltac:(lia)) as [Hb Hok'].
    split_and!; try done.
    + etrans; [exact R2|]. by constructor.
    + by apply data_ok_cons.
    + cbn. rewrite Ec2. replace (sb_cc (r_sb s) - k) with (sb_cc (r_sb s) + - k) by lia.
      by apply (counts_grow (r_sb s) m0 _ (rest ++ tail)); [done|done|cbn; lia].
    + rewrite bytes_cons. by rewrite Hb.
    + right. lia.
Qed.

(** [MSG_WAITALL] is not set: no wait. *)
Lemma wait_more_skip sbwait pr_flags n flags m next s (Q : _ → rstate → Prop) :
  test flags MSG_WAITALL = false → Q (Some (m, next)) s → wp (wait_more sbwait pr_flags n flags m next) s Q.
Proof. intros Fw HQ. destruct n; cbn [wait_more]; wp_step; apply wp_get; rewrite Fw; by destruct m, next. Qed.

(** The next bytes of the record [m] went to the user; [tail] are the mbufs of the
    records after it. *)
Definition took (s0 : mstate) (tail m : list mbuf) (flags : Z) (next : list (list mbuf)) (s : rstate)
    (r : option (Z * list mbuf * list (list mbuf))) (s' : rstate) : Prop :=
  ∃ m', r = Some (flags, m', next) ∧ same_store s0 (r_ms s') ∧ out_ok s' ∧ same_rest s s' ∧
    r_user s' = r_user s ++ take (Z.to_nat (r_resid s)) (bytes s0 m) ∧
    bytes s0 m' = drop (Z.to_nat (r_resid s)) (bytes s0 m) ∧
    r_resid s' = r_resid s - Z.min (r_resid s) (chain_len m) ∧
    data_ok s0 m' ∧ counts (r_sb s') (m' ++ tail) ∧ (m' = [] ∨ r_resid s' = 0).

Section LoopProof.
Context (sbwait : M rstate Z) (pr_flags : Z) (fuel : nat).

(** The loop without a peek: the next bytes of the record go to the user. *)
Lemma copy_loop_take n type flags m next tail s s0 :
  taking flags → type ≠ MT_OOBDATA → same_store s0 (r_ms s) → r_oobmark s = 0 → out_ok s → 0 <= r_resid s →
  data_ok s0 m → counts (r_sb s) (m ++ tail) → r_resid s = 0 ∨ (length m <= n)%nat →
  wp (copy_loop sbwait pr_flags fuel n type flags m next 0 0) s (took s0 tail m flags next s).
Proof.
  intros Ft Hty. revert m s. induction n as [|n IH]; intros m s Hs Ho Hu Hr Hd Hc Hn; cbn [copy_loop]; wp_step; apply wp_get.
  all: assert (Hdone : m = [] ∨ r_resid s = 0 → wp (ret (Some (flags, m, next))) s (took s0 tail m flags next s)).
  1, 3: intros Hz; apply wp_ret; exists m; assert (0 <= chain_len m) by (eapply chain_len_nonneg, Hd);
    split_and!; try done; destruct Hz as [-> | ->]; cbn; rewrite ?take_nil, ?drop_nil, ?app_nil_r; try done; cbn; lia.
  - destruct m as [|m0 rest]; [apply Hdone; by left|]. destruct Hn as [Hn|Hn]; [|cbn in Hn; lia].
    destruct (Z.ltb_spec 0 (r_resid s)) as [Hr0|Hr0]; [lia|]. cbn [negb orb]. apply Hdone. by right.
  - destruct m as [|m0 rest]; [apply Hdone; by left|].
    destruct (Z.ltb_spec 0 (r_resid s)) as [Hr0|Hr0]; cbn [negb orb]; [|apply Hdone; right; lia].
    pose proof (proj1 (data_ok_cons _ _ _) Hd) as [([Hm0 _] & Hok & _) Hd'].
    rewrite (proj2 (Z.eqb_neq (m_type m0) MT_OOBDATA)), (proj2 (Z.eqb_neq type MT_OOBDATA)) by done. cbn [Bool.eqb negb].
    pose proof (mbytes_length s0 m0 Hok) as Hml. assert (Hcl : 0 <= chain_len rest) by (eapply chain_len_nonneg, Hd').
    wp_step. eapply wp_mono; [by apply (copy_one_take flags m0 rest tail s s0)|].
    intros p s1 (Ep & Hs1 & Hu1 & R1 & Er1 & Eu1 & Hd1 & Hc1 & Eb1 & Hk). rewrite Ep. cbn [p_stop p_flags p_m p_moff p_offset].
    wp_step. apply wait_more_skip; [apply Ft|].
    eapply wp_mono; [apply (IH (p_m p) s1); [done|by rewrite (sr_oobmark _ _ R1)|done|lia|done|done|]|].
    { destruct Hn as [Hn|Hn]; [lia|]. cbn in Hn. destruct Hk as [[_ ->]|Hk]; [right; lia|left; lia]. }
    intros r s2 (m' & -> & Hs2 & Hu2 & R2 & Eu2 & Eb2 & Er2 & Hd2 & Hc2 & Hend). exists m'.
    assert (Hcm : chain_len (p_m p) = chain_len (m0 :: rest) - Z.min (r_resid s) (m_len m0)).
    { rewrite <- (bytes_length s0 (p_m p)), Eb1, length_app, length_drop by apply Hd1.
      change (chain_len (m0 :: rest)) with (m_len m0 + chain_len rest).
      rewrite <- (bytes_length s0 rest) by apply Hd'. lia. }
    split_and!; [done|done|done|by etrans| | | |done|done|done].
    + rewrite Eu2, Eu1, Er1, Eb1, bytes_cons, <- app_assoc. f_equal.
      rewrite (take_app (mbytes s0 m0)). destruct (Z.le_gt_cases (r_resid s) (m_len m0)).
      * rewrite Z.min_l by lia. replace (r_resid s - r_resid s) with 0 by lia. cbn. rewrite take_0, !app_nil_r.
        replace (Z.to_nat (r_resid s) - length (mbytes s0 m0))%nat with O by lia. by rewrite take_0, app_nil_r.
      * rewrite Z.min_r by lia. rewrite (take_ge (mbytes s0 m0)), (take_ge (mbytes s0 m0)), drop_ge by lia. cbn.
        f_equal. f_equal. lia.
    + rewrite Eb2, Er1, Eb1, bytes_cons. destruct (Z.le_gt_cases (r_resid s) (m_len m0)).
      * rewrite Z.min_l by lia. replace (r_resid s - r_resid s) with 0 by lia. cbn. rewrite drop_0.
        by rewrite drop_app_le by lia.
      * rewrite Z.min_r by lia. rewrite (drop_ge (mbytes s0 m0)) by lia. cbn. rewrite drop_app_ge by lia. f_equal. lia.
    + rewrite Er2, Er1, Hcm. change (chain_len (m0 :: rest)) with (m_len m0 + chain_len rest). lia.
Qed.

Lemma copy_one_peek flags m0 rest s s0 :
  peeking flags → same_store s0 (r_ms s) → r_oobmark s = 0 → out_ok s → 0 < r_resid s → data_ok s0 (m0 :: rest) →
  wp (copy_one flags m0 rest 0 0) s (λ p s', let k := Z.min (r_resid s) (m_len m0) in
    p = Progress flags (p_m p) (p_moff p) 0 false ∧ r_ms s' = r_ms s ∧ out_ok s' ∧ same_rest s s' ∧ r_sb s' = r_sb s ∧
    r_resid s' = r_resid s - k ∧ r_user s' = r_user s ++ take (Z.to_nat k) (mbytes s0 m0) ∧
    (k = m_len m0 ∧ p_m p = rest ∧ p_moff p = 0 ∨ k = r_resid s)).
Proof.
  intros (Fp & Fw & Fe) Hs Ho Hu Hr [(Hpl & Hok & Hk) Hd]%data_ok_cons. pose proof Hok as (Hl0 & _).
  pose proof (mbytes_length s0 m0 Hok) as Hml. destruct Hpl as [Hty Heor].
  unfold copy_one. rewrite Fp. wp_step. apply wp_modify. wp_step. apply wp_get.
  set (s1 := r_set_state _ s). rewrite (amount_plain m0 0 0 s1) by (cbn; try done; lia). rewrite !Z.sub_0_r.
  change (r_resid s1) with (r_resid s). set (k := Z.min (r_resid s) (m_len m0)).
  wp_step. eapply wp_r_low; [apply (m_read_wp (r_ms s1) m0 0 k); [by eapply mbuf_ok_store|lia|lia|lia]|].
  intros b ms [-> Eb]. rewrite drop_0 in Eb.
  assert (Eb' : b = take (Z.to_nat k) (mbytes s0 m0)).
  { rewrite Eb. f_equal. unfold mbytes, buffer. destruct Hs as [Hs _]. change (r_ms s1) with (r_ms s). by rewrite Hs. }
  assert (Hlb : Z.of_nat (length b) = k) by (rewrite Eb', length_take; lia).
  wp_step. eapply wp_mono; [apply (move_out_spec b); [exact Hu|cbn; lia]|]. intros [] s2 (iov & E2 & Hu2).
  rewrite Heor, andb_false_r.
  assert (Hend : ∀ m' moff', (k = m_len m0 ∧ m' = rest ∧ moff' = 0 ∨ k = r_resid s) →
    wp (ret (Progress flags m' moff' 0 (test flags MSG_EOR))) s2 (λ p s',
      p = Progress flags (p_m p) (p_moff p) 0 false ∧ r_ms s' = r_ms s ∧ out_ok s' ∧ same_rest s s' ∧ r_sb s' = r_sb s ∧
      r_resid s' = r_resid s - k ∧ r_user s' = r_user s ++ take (Z.to_nat k) (mbytes s0 m0) ∧
      (k = m_len m0 ∧ p_m p = rest ∧ p_moff p = 0 ∨ k = r_resid s))).
  { intros m' moff' Hor. rewrite Fe. apply wp_ret. split_and!; try done; rewrite E2; try done; [by rewrite <- Hlb|by rewrite <- Eb']. }
  assert (Eo2 : r_oobmark s2 = 0) by (rewrite E2; exact Ho).
  destruct (Z.eqb_spec k (m_len m0)) as [Ek|Ek]; wp_step; apply wp_ret; wp_step; apply wp_get; rewrite Eo2;
    change (ztrue 0) with false; cbv iota; apply Hend; [by left|right; lia].
Qed.

(** A peek: the same bytes, and nothing leaves the buffer. *)
Lemma copy_loop_peek n type flags m next s s0 :
  peeking flags → type ≠ MT_OOBDATA → same_store s0 (r_ms s) → r_oobmark s = 0 → out_ok s → 0 <= r_resid s →
  data_ok s0 m → r_resid s = 0 ∨ (length m <= n)%nat → ∀ moff, r_resid s = 0 ∨ moff = 0 →
  wp (copy_loop sbwait pr_flags fuel n type flags m next moff 0) s (λ r s', ∃ m',
    r = Some (flags, m', next) ∧ r_ms s' = r_ms s ∧ r_sb s' = r_sb s ∧ out_ok s' ∧ same_rest s s' ∧
    r_user s' = r_user s ++ take (Z.to_nat (r_resid s)) (bytes s0 m) ∧
    r_resid s' = r_resid s - Z.min (r_resid s) (chain_len m)).
Proof.
  intros Ft Hty. revert m s. induction n as [|n IH]; intros m s Hs Ho Hu Hr Hd Hn moff Hmoff; cbn [copy_loop]; wp_step; apply wp_get.
  all: assert (Hdone : m = [] ∨ r_resid s = 0 → wp (ret (Some (flags, m, next))) s (λ r s', ∃ m',
    r = Some (flags, m', next) ∧ r_ms s' = r_ms s ∧ r_sb s' = r_sb s ∧ out_ok s' ∧ same_rest s s' ∧
    r_user s' = r_user s ++ take (Z.to_nat (r_resid s)) (bytes s0 m) ∧
    r_resid s' = r_resid s - Z.min (r_resid s) (chain_len m))).
  1, 3: intros Hz; apply wp_ret; exists m; assert (0 <= chain_len m) by (eapply chain_len_nonneg, Hd);
    split_and!; try done; destruct Hz as [-> | ->]; cbn; rewrite ?take_nil, ?app_nil_r; try done; cbn; lia.
  - destruct m as [|m0 rest]; [apply Hdone; by left|]. destruct Hn as [Hn|Hn]; [|cbn in Hn; lia].
    destruct (Z.ltb_spec 0 (r_resid s)) as [Hr0|Hr0]; [lia|]. cbn [negb orb]. apply Hdone. by right.
  - destruct m as [|m0 rest]; [apply Hdone; by left|].
    destruct (Z.ltb_spec 0 (r_resid s)) as [Hr0|Hr0]; cbn [negb orb]; [|apply Hdone; right; lia].
    destruct Hmoff as [? | ->]; [lia|].
    pose proof (proj1 (data_ok_cons _ _ _) Hd) as [([Hm0 _] & Hok & _) Hd'].
    rewrite (proj2 (Z.eqb_neq (m_type m0) MT_OOBDATA)), (proj2 (Z.eqb_neq type MT_OOBDATA)) by done. cbn [Bool.eqb negb].
    pose proof (mbytes_length s0 m0 Hok) as Hml. assert (Hcl : 0 <= chain_len rest) by (eapply chain_len_nonneg, Hd').
    wp_step. eapply wp_mono; [by apply (copy_one_peek flags m0 rest s s0)|].
    intros p s1 (Ep & Em1 & Hu1 & R1 & Es1 & Er1 & Eu1 & Hk). rewrite Ep. cbn [p_stop p_flags p_m p_moff p_offset].
    wp_step. apply wait_more_skip; [apply Ft|].
    assert (Hp : wp (copy_loop sbwait pr_flags fuel n type flags (p_m p) next (p_moff p) 0) s1 (λ r s', ∃ m',
      r = Some (flags, m', next) ∧ r_ms s' = r_ms s1 ∧ r_sb s' = r_sb s1 ∧ out_ok s' ∧ same_rest s1 s' ∧
      r_user s' = r_user s1 ++ take (Z.to_nat (r_resid s1)) (bytes s0 rest) ∧
      r_resid s' = r_resid s1 - Z.min (r_resid s1) (chain_len rest))).
    { destruct (decide (r_resid s1 = 0)) as [Ez|Ez].
      - assert (Hret : ∃ m', copy_loop sbwait pr_flags fuel n type flags (p_m p) next (p_moff p) 0 s1 = Ok (Some (flags, m', next), s1)).
        { exists (p_m p). destruct n; cbn [copy_loop]; unfold bind, get; rewrite Ez; by destruct (p_m p). }
        destruct Hret as [m' Hret]. unfold wp. rewrite Hret. exists m'. rewrite Ez. cbn. rewrite take_0, app_nil_r.
        split_and!; try done. lia.
      - destruct Hk as [(_ & Hpm & Hpo)|Hk]; [|lia]. rewrite Hpm, Hpo.
        apply (IH rest s1); [by rewrite Em1|by rewrite (sr_oobmark _ _ R1)|done|lia|done|destruct Hn as [?|Hn]; [lia|right; cbn in Hn; lia]|by right]. }
    eapply wp_mono; [exact Hp|]. intros r s2 (m' & -> & Em2 & Es2 & Hu2 & R2 & Eu2 & Er2). exists m'.
    split_and!; [done|congruence|congruence|done|by etrans| |].
    + rewrite Eu2, Eu1, Er1, bytes_cons, <- app_assoc. f_equal.
      rewrite (take_app (mbytes s0 m0)). destruct (Z.le_gt_cases (r_resid s) (m_len m0)).
      * rewrite Z.min_l by lia. replace (r_resid s - r_resid s) with 0 by lia. cbn. rewrite take_0, !app_nil_r.
        replace (Z.to_nat (r_resid s) - length (mbytes s0 m0))%nat with O by lia. by rewrite take_0, app_nil_r.
      * rewrite Z.min_r by lia. rewrite (take_ge (mbytes s0 m0)), (take_ge (mbytes s0 m0)) by lia. f_equal. f_equal. lia.
    + rewrite Er2, Er1. change (chain_len (m0 :: rest)) with (m_len m0 + chain_len rest). lia.
Qed.

End LoopProof.

(** ** A stream socket *)

(** What the protocol promises when it is told that data were taken: the data left in
    the buffer and what the user got stay as they are. *)
Class RcvdKeeps (usr_rcvd : Z → M rstate ()) : Prop :=
  rcvd_keeps : ∀ f s, sb_ok (r_ms s) (r_sb s) →
    wp (usr_rcvd f) s (λ _ s', r_user s' = r_user s ∧ r_resid s' = r_resid s ∧
      sb_ok (r_ms s') (r_sb s') ∧ sb_bytes (r_ms s') (r_sb s') = sb_bytes (r_ms s) (r_sb s)).

#[export] Instance rcvd_keeps_ret : RcvdKeeps (λ _, ret ()).
Proof. intros f s H. by apply wp_ret. Qed.

Lemma sb_ok_flags s f sb : sb_ok s (with_flags f sb) ↔ sb_ok s sb.
Proof. done. Qed.

Lemma sbunlock_flags sb : ∃ f, (sbunlock sb).1 = with_flags f sb.
Proof. unfold sbunlock. destruct (ztrue _); by eexists. Qed.

Lemma sblock_free sb_lock sb wf :
  ztrue (Z.land (sb_flags sb) SB_LOCK) = false → (sblock sb_lock sb wf).1 = with_flags (Z.lor (sb_flags sb) SB_LOCK) sb.
Proof. unfold sblock. by intros ->. Qed.

Lemma recv_control_data controlp drain junk junk_len peek m s (Q : _ → rstate → Prop) :
  Forall (λ m, m_type m = MT_DATA) m → Q (m, false) s → wp (recv_control drain junk junk_len controlp peek m) s Q.
Proof. intros Hm HQ. destruct m as [|m0 m]; [by apply wp_ret|]. inversion_clear Hm as [|? ? H]. cbn. rewrite H. by apply wp_ret. Qed.

(** The buffer of a stream socket that has something for the user. *)
Record stream_ready (s : rstate) (m : list mbuf) : Prop := StreamReady
  { st_ok : sb_ok (r_ms s) (r_sb s); st_mb : sb_mb (r_sb s) = [m];
    st_data : Forall (λ m, m_type m = MT_DATA ∧ has m M_EOR = false) m;
    st_cc : 0 < sb_cc (r_sb s); st_lowat : u32 (sb_lowat (r_sb s)) <= sb_cc (r_sb s);
    st_oob : r_oobmark s = 0; st_out : out_ok s;
    st_free : ztrue (Z.land (sb_flags (r_sb s)) SB_LOCK) = false;
    st_state : test (r_state s) TcpConn.SS_ISCONFIRMING = false }.

Lemma stream_plain s m : stream_ready s m → Forall (λ m, m_type m = MT_DATA) m ∧ data_ok (r_ms s) m.
Proof.
  intros [(_ & _ & Hok & Hk & _) Em Hd _ _ _ _ _ _]. unfold mbufs in *. rewrite Em in Hok, Hk. cbn in Hok, Hk.
  rewrite app_nil_r in Hok, Hk. split; [eapply Forall_impl; [exact Hd|by intros ? []]|]. split_and!; [|done..].
  eapply Forall_impl; [exact Hd|]. by intros x [Ht He]; split; [rewrite Ht|].
Qed.

Section Stream.
Context (drain : mstate → mstate) (junk : list Z) (junk_len : Z).
Context (usr_rcvd : Z → M rstate ()) `{!RcvdKeeps usr_rcvd} (usr_rcvoob : mbuf → bool → M rstate (Z * list mbuf))
  (sbwait : M rstate Z) (sb_lock : sockbuf → sockbuf * Z).
Context (pr_flags : Z) (so_pcb paddr controlp flagsp : bool) (fuel : nat).
Context (pr_stream : test pr_flags Socket.PR_ADDR = false ∧ test pr_flags Socket.PR_ATOMIC = false).

Lemma recv_finish_stream flags m next s :
  test flags MSG_PEEK = false → sb_ok (r_ms s) (with_mb (match m with [] => next | _ => m :: next end) (r_sb s)) →
  wp (recv_finish usr_rcvd pr_flags so_pcb flags m next) s (λ f s', f = flags ∧ r_user s' = r_user s ∧
    r_resid s' = r_resid s ∧ sb_ok (r_ms s') (r_sb s') ∧
    sb_bytes (r_ms s') (r_sb s') = bytes (r_ms s) (m ++ concat next)).
Proof using RcvdKeeps0 pr_stream.
  intros Fp Hok. unfold recv_finish. rewrite (proj2 pr_stream), andb_false_r, Fp.
  assert (Hb : sb_bytes (r_ms s) (with_mb (match m with [] => next | _ => m :: next end) (r_sb s)) = bytes (r_ms s) (m ++ concat next))
    by (unfold sb_bytes, mbufs; by destruct m).
  wp_step. apply wp_modify. wp_step. apply wp_ret. wp_step. destruct (_ && _).
  - wp_step. apply wp_modify. eapply wp_mono; [by apply rcvd_keeps|]. intros [] s' (E1 & E2 & E3 & E4). apply wp_ret.
    split_and!; [done|done|done|done|by rewrite E4].
  - apply wp_ret, wp_ret. by split_and!.
Qed.

(** What the caller of a stream socket sees. *)
Definition stream_result (peek : bool) (s s' : rstate) : Prop :=
  let old := sb_bytes (r_ms s) (r_sb s) in let n := Z.to_nat (r_resid s) in
  sb_ok (r_ms s') (r_sb s') ∧ r_user s' = r_user s ++ take n old ∧
  r_resid s' = Z.max 0 (r_resid s - Z.of_nat (length old)) ∧
  sb_bytes (r_ms s') (r_sb s') = if peek then old else drop n old.

Lemma recv_end_stream flags s1 s :
  stream_result (test flags MSG_PEEK) s1 s → 0 <= r_resid s1 → sb_bytes (r_ms s1) (r_sb s1) ≠ [] →
  wp (if (r_resid s1 =? r_resid s) && ztrue (r_resid s1) && negb (test flags MSG_EOR) &&
         negb (test (r_state s) TcpConn.SS_CANTRCVMORE)
      then do! unlock_rcv in ret None
      else
        do! (if flagsp then modify (λ s, r_set_flags (Z.lor (r_flags s) flags) s) else ret ()) in
        do! unlock_rcv in
        ret (Some 0)) s (λ r s', r = Some 0 ∧ stream_result (test flags MSG_PEEK) s1 s').
Proof.
  intros (H1 & H2 & H3 & H4) Hr Hne. assert (Hlen : (0 < length (sb_bytes (r_ms s1) (r_sb s1)))%nat)
    by (destruct (sb_bytes _ _); [done|cbn; lia]).
  assert (Hif : (r_resid s1 =? r_resid s) && ztrue (r_resid s1) = false).
  { unfold ztrue. destruct (Z.eqb_spec (r_resid s1) (r_resid s)); [|done]. destruct (Z.eqb_spec (r_resid s1) 0); [done|]. lia. }
  rewrite Hif. cbn [andb]. destruct (sbunlock_flags (r_sb s)) as [f Ef]. wp_step.
  destruct flagsp; [apply wp_modify|apply wp_ret]; wp_step; apply wp_modify; cbn [r_sb r_set_flags]; rewrite Ef; by apply wp_ret.
Qed.

Lemma recv_pass_stream flags m s :
  stream_ready s m → 0 <= r_resid s → test flags MSG_WAITALL = false → test flags MSG_EOR = false → (length m <= fuel)%nat →
  ∀ f, let sl := r_set_sb (with_flags f (r_sb s)) s in
  wp (recv_pass drain junk junk_len usr_rcvd sbwait pr_flags so_pcb paddr controlp flagsp fuel flags (r_resid s)) sl
    (λ r s', r = Some 0 ∧ stream_result (test flags MSG_PEEK) s s').
Proof using RcvdKeeps0 pr_stream.
  intros Hst Hr Fw Fe Hfuel f sl. destruct (stream_plain s m Hst) as [Hty Hd].
  destruct Hst as [Hok Hmb _ Hcc Hlow Hoob Hout Hfree Hconf]. pose proof Hok as (Hc & Hmc & Hoks & Hks & Hnes).
  assert (Hbs : sb_bytes (r_ms s) (r_sb s) = bytes (r_ms s) m) by (unfold sb_bytes, mbufs; rewrite Hmb; cbn; by rewrite app_nil_r).
  assert (Hlen : Z.of_nat (length (bytes (r_ms s) m)) = chain_len m) by (apply bytes_length, Hd).
  assert (Hne : sb_bytes (r_ms s) (r_sb s) ≠ []).
  { rewrite Hbs. intros E. rewrite E in Hlen. unfold mbufs in Hc. rewrite Hmb in Hc. cbn [concat] in Hc.
    rewrite app_nil_r, <- Hlen in Hc. change (u32 (Z.of_nat (length (@nil Z)))) with 0 in Hc. lia. }
  unfold recv_pass. wp_step. apply wp_get. unfold first_record, other_records.
  change (sb_mb (r_sb sl)) with (sb_mb (r_sb s)). rewrite Hmb, (proj1 pr_stream). cbn [orb]. wp_step. apply wp_ret.
  wp_step. apply recv_control_data; [done|]. cbn [orb].
  set (type := match m with m0 :: _ => m_type m0 | [] => 0 end).
  assert (Htype : type ≠ MT_OOBDATA) by (unfold type; destruct m; [done|]; inversion_clear Hty as [|? ? E]; by rewrite E).
  assert (Hflags : match m with m0 :: _ => if type =? MT_OOBDATA then Z.lor flags MSG_OOB else flags | [] => flags end = flags)
    by (rewrite (proj2 (Z.eqb_neq _ _) Htype); by destruct m).
  rewrite Hflags. wp_step. destruct (test flags MSG_PEEK) eqn:Fp.
  - eapply wp_mono; [by apply (copy_loop_peek sbwait pr_flags fuel fuel type flags m [] sl (r_ms s)); [..|right; done|right]|].
    intros r s' (m' & -> & Em & Es & Hu & R & Eu & Er). wp_step. unfold recv_finish.
    rewrite (proj2 pr_stream), andb_false_r, Fp. apply wp_ret. wp_step. apply wp_get.
    rewrite <- Fp. apply recv_end_stream; [|done|done]. rewrite Fp. unfold stream_result.
    rewrite Em, Es, Hbs. split_and!; [done|exact Eu| |exact Hbs]. rewrite Er, Hlen. change (r_resid sl) with (r_resid s).
    assert (0 <= chain_len m) by (eapply chain_len_nonneg, Hd). lia.
  - eapply wp_mono; [apply (copy_loop_take sbwait pr_flags fuel fuel type flags m [] [] sl (r_ms s)); try done; [|by right]|].
    { rewrite app_nil_r. unfold counts. unfold mbufs in Hc, Hmc. rewrite Hmb in Hc, Hmc. cbn in Hc, Hmc.
      rewrite app_nil_r in Hc, Hmc. by split. }
    intros r s' (m' & -> & Hs & Hu & R & Eu & Eb & Er & Hd' & Hc' & _). wp_step.
    assert (Hok' : sb_ok (r_ms s') (with_mb (match m' with [] => [] | _ => [m'] end) (r_sb s'))).
    { eapply (sb_ok_intro (r_ms s) (r_ms s') (r_sb s') (r_sb s')); [done|done|..].
      all: rewrite app_nil_r in Hc'; destruct m'; cbn [concat]; rewrite ?app_nil_r; try done; try apply Hd'. by repeat constructor. }
    eapply wp_mono; [by apply recv_finish_stream|]. intros f' s2 (-> & Eu2 & Er2 & Hok2 & Eb2).
    wp_step. apply wp_get. rewrite <- Fp. apply recv_end_stream; [|done|done]. rewrite Fp. unfold stream_result.
    split_and!; [done|rewrite Eu2, Eu, Hbs; done| |].
    + rewrite Er2, Er, Hbs, Hlen. change (r_resid sl) with (r_resid s). assert (0 <= chain_len m) by (eapply chain_len_nonneg, Hd). lia.
    + rewrite Eb2, Hbs. cbn [concat]. rewrite app_nil_r, (bytes_store (r_ms s) (r_ms s')), Eb by done. done.
Qed.

Lemma recv_start_stream s m :
  let flags := if flagsp then r_flags s else 0 in
  stream_ready s m → 0 <= r_resid s → test flags MSG_OOB = false → test flags MSG_WAITALL = false → (length m <= fuel)%nat →
  wp (recv_start drain junk junk_len usr_rcvd usr_rcvoob sbwait sb_lock pr_flags so_pcb paddr controlp flagsp fuel) s
    (λ e s', e = 0 ∧ stream_result (test flags MSG_PEEK) s s').
Proof using RcvdKeeps0 pr_stream.
  intros flags Hst Hr Fo Fw Hfuel. unfold recv_start. wp_step. apply wp_get.
  set (fl := if flagsp then Z.land (r_flags s) (Z.lnot MSG_EOR) else 0).
  assert (Hbit : ∀ b, Z.land b MSG_EOR = 0 → test fl b = test flags b).
  { intros b Hb. unfold fl, flags. destruct flagsp; [|done]. unfold test. f_equal. rewrite <- Z.land_assoc. f_equal.
    rewrite Z.land_comm, <- Z.ldiff_land. apply Z.bits_inj'. intros i Hi. rewrite Z.ldiff_spec.
    assert (Hbi : Z.testbit (Z.land b MSG_EOR) i = false) by (rewrite Hb; apply Z.bits_0). rewrite Z.land_spec in Hbi.
    by destruct (Z.testbit b i), (Z.testbit MSG_EOR i). }
  assert (Fe : test fl MSG_EOR = false).
  { unfold fl. destruct flagsp; [|done]. unfold test. by rewrite <- Z.land_assoc, (Z.land_comm (Z.lnot _)), Z.land_lnot_diag, Z.land_0_r. }
  rewrite Hbit, Fo by done. wp_step. rewrite (st_state _ _ Hst). apply wp_ret.
  assert (E : ∀ n P, wp (recv_pass drain junk junk_len usr_rcvd sbwait pr_flags so_pcb paddr controlp flagsp fuel fl (r_resid s))
      (r_set_sb (with_flags (Z.lor (sb_flags (r_sb s)) SB_LOCK) (r_sb s)) s) (λ r s', r = Some 0 ∧ P s') →
    wp (recv_loop drain junk junk_len usr_rcvd sbwait sb_lock pr_flags so_pcb paddr controlp flagsp fuel n fl (r_resid s)) s (λ e s', e = 0 ∧ P s')).
  { intros n P HP. destruct n; cbn [recv_loop]; wp_step; apply wp_modify; rewrite sblock_free by apply Hst; wp_step; apply wp_get.
    all: assert (Hck : recv_check pr_flags fl (r_set_sb (with_flags (Z.lor (sb_flags (r_sb s)) SB_LOCK) (r_sb s)) s) = Proceed)
      by (unfold recv_check, too_little; cbn [r_sb r_set_sb with_flags sb_mb sb_cc sb_lowat]; rewrite (st_mb _ _ Hst), (Hbit MSG_WAITALL), Fw by done;
        rewrite (proj2 (Z.ltb_ge _ _) (st_lowat _ _ Hst)); by rewrite andb_false_r).
    all: rewrite Hck; wp_step; eapply wp_mono; [exact HP|]; intros r s' [-> HP']; by apply wp_ret. }
  apply E. rewrite <- (Hbit MSG_PEEK) by done. apply (recv_pass_stream fl m); try done. by rewrite Hbit.
Qed.


End Stream.

(** ** A datagram socket *)

Lemma droprecord_loop_spec s0 m tail s sb :
  same_store s0 s → Forall (cl_known s0) m → counts sb (m ++ tail) →
  wp (droprecord_loop sb m) s (λ sb' s', same_store s0 s' ∧ same_limits sb sb' ∧ counts sb' tail).
Proof.
  intros Hs Hk. revert s sb Hs. induction Hk as [|m0 m Hm0 Hm IH]; intros s sb Hs Hc; cbn [droprecord_loop]; [by apply wp_ret|].
  wp_step. eapply wp_mono; [by apply (MFREE_from s0)|]. intros [] s1 Hs1.
  eapply wp_mono; [apply IH; [done|by apply counts_free]|]. done.
Qed.

Lemma recv_control_take drain junk junk_len controlp ctl data tail s s0 :
  Forall (λ m, m_type m = MT_CONTROL) ctl → Forall (λ m, m_type m = MT_DATA) data → Forall (cl_known s0) ctl →
  same_store s0 (r_ms s) → counts (r_sb s) (ctl ++ data ++ tail) →
  wp (recv_control drain junk junk_len controlp false (ctl ++ data)) s (λ r s', r.1 = data ∧ same_store s0 (r_ms s') ∧
    counts (r_sb s') (data ++ tail) ∧ ∃ ms sb, same_limits (r_sb s) sb ∧
    s' = r_set_control (r_control s ++ if controlp then ctl else []) (r_set_sb sb (r_set_ms ms s))).
Proof.
  intros Hctl Hdata. revert s. induction Hctl as [|c ctl Hc Hctl IH]; intros s Hk Hs Hcnt.
  - cbn [app]. apply recv_control_data; [done|]. cbn [fst]. split_and!; [done..|]. exists (r_ms s), (r_sb s). split; [done|].
    destruct s, controlp; cbn; by rewrite app_nil_r.
  - inversion_clear Hk as [|? ? Hk0 Hk']. cbn [app recv_control]. rewrite Hc, Z.eqb_refl. wp_step. wp_step. apply wp_modify.
    destruct controlp.
    + apply wp_modify. wp_step. eapply wp_mono; [apply IH; [done|exact Hs|by apply counts_free]|].
      intros r s1 (E1 & Hs1 & Hc1 & ms & sb & Hl & ->). apply wp_ret. split_and!; [done..|]. exists ms, sb. split; [exact Hl|].
      cbn. by rewrite <- app_assoc.
    + eapply wp_r_low; [by apply (MFREE_from s0 (r_ms s))|]. intros [] ms1 Hs1. cbn beta. wp_step.
      eapply wp_mono; [apply IH; [done|exact Hs1|by apply counts_free]|].
      intros r s1 (E1 & Hs2 & Hc1 & ms & sb & Hl & ->). apply wp_ret. split_and!; [done..|]. exists ms, sb. by split.
Qed.

(** A datagram socket whose first record is the address [a], control mbufs and data. *)
Record datagram_ready (s : rstate) (a : mbuf) (ctl data : list mbuf) (next : list (list mbuf)) : Prop := DatagramReady
  { dg_ok : sb_ok (r_ms s) (r_sb s); dg_mb : sb_mb (r_sb s) = (a :: ctl ++ data) :: next;
    dg_ctl : Forall (λ m, m_type m = MT_CONTROL) ctl;
    dg_data : Forall (λ m, m_type m = MT_DATA ∧ has m M_EOR = false) data;
    dg_oob : r_oobmark s = 0; dg_out : out_ok s; dg_resid : 0 <= r_resid s;
    dg_free : ztrue (Z.land (sb_flags (r_sb s)) SB_LOCK) = false;
    dg_state : test (r_state s) TcpConn.SS_ISCONFIRMING = false }.

(** The flags of UDP in the protocol switch. *)
Definition UDP_FLAGS : Z := Z.lor Socket.PR_ATOMIC Socket.PR_ADDR.

Section Datagram.
Context (drain : mstate → mstate) (junk : list Z) (junk_len : Z).
Context (usr_rcvd : Z → M rstate ()) (usr_rcvoob : mbuf → bool → M rstate (Z * list mbuf))
  (sbwait : M rstate Z) (sb_lock : sockbuf → sockbuf * Z).
Context (so_pcb controlp : bool) (fuel : nat).

Lemma recv_finish_datagram m next s s0 :
  same_store s0 (r_ms s) → data_ok s0 m → Forall (mbuf_ok s0) (concat next) → Forall (cl_known s0) (concat next) →
  Forall (.≠ []) next → counts (r_sb s) (m ++ concat next) →
  wp (recv_finish usr_rcvd UDP_FLAGS so_pcb 0 m next) s (λ f s',
    f = (match m with [] => 0 | _ => MSG_TRUNC end) ∧ sb_ok (r_ms s') (r_sb s') ∧ sb_mb (r_sb s') = next ∧ same_store s0 (r_ms s') ∧
    ∃ ms sb, s' = r_set_sb sb (r_set_ms ms s)).
Proof.
  intros Hs Hd Hok Hk Hne Hc. unfold recv_finish. change (test 0 MSG_PEEK) with false. cbv iota. wp_step. apply wp_modify. destruct m as [|m0 m].
  - cbn [andb]. wp_step. apply wp_ret. wp_step. apply wp_ret, wp_ret.
    assert (H : sb_ok (r_ms s) (with_mb next (r_sb s))) by by eapply (sb_ok_intro s0 _ (r_sb s)).
    split_and!; [done|exact H|done|done|]. by exists (r_ms s), (with_mb next (r_sb s)); destruct s.
  - cbn [andb]. change (test UDP_FLAGS Socket.PR_ATOMIC) with true. cbv iota. wp_step. wp_step. apply wp_get. wp_step.
    eapply wp_r_low.
    { unfold sbdroprecord. cbn [sb_mb r_sb r_set_sb with_mb]. apply (droprecord_loop_spec s0 (m0 :: m) (concat next)); [exact Hs|apply Hd|exact Hc]. }
    intros sb ms (Hs1 & Hl & Hc1). apply wp_modify. wp_step. apply wp_ret, wp_ret.
    assert (Emb : sb_mb sb = next) by (destruct Hl as (_ & _ & _ & _ & ->); done).
    split_and!; [done| |exact Emb|exact Hs1|by exists ms, sb].
    assert (H : sb_ok ms (with_mb next sb)) by by eapply (sb_ok_intro s0 _ sb). rewrite <- Emb in H. by destruct sb.
Qed.

Lemma recv_start_datagram s a ctl data next :
  datagram_ready s a ctl data next → r_flags s = 0 → (length data <= fuel)%nat →
  let d := bytes (r_ms s) data in
  wp (recv_start drain junk junk_len usr_rcvd usr_rcvoob sbwait sb_lock UDP_FLAGS so_pcb true controlp true fuel) s (λ e s',
    e = 0 ∧ r_addr s' = [a] ∧ r_control s' = r_control s ++ (if controlp then ctl else []) ∧
    r_user s' = r_user s ++ take (Z.to_nat (r_resid s)) d ∧
    r_resid s' = Z.max 0 (r_resid s - Z.of_nat (length d)) ∧
    sb_ok (r_ms s') (r_sb s') ∧ sb_mb (r_sb s') = next ∧ bytes (r_ms s') (concat next) = bytes (r_ms s) (concat next) ∧
    (r_flags s' = 0 ∨ r_flags s' = MSG_TRUNC) ∧
    (r_resid s < Z.of_nat (length d) → r_flags s' = MSG_TRUNC) ∧ (Z.of_nat (length d) < r_resid s → r_flags s' = 0)).
Proof.
  intros [Hok Hmb Hctl Hdata Hoob Hout Hr Hfree Hconf] Hfl Hfuel d.
  pose proof Hok as (Hcc & Hmbc & Hoks & Hks & Hnes). unfold mbufs in *. rewrite Hmb in *. cbn [concat] in *.
  cbn [app] in Hoks, Hks, Hcc, Hmbc. rewrite <- app_assoc in *.
  inversion_clear Hoks as [|? ? Hoka Hoks']. inversion_clear Hks as [|? ? Hka Hks']. inversion_clear Hnes as [|? ? _ Hnext].
  apply Forall_app in Hoks' as [Hokc [Hokd Hokn]%Forall_app]. apply Forall_app in Hks' as [Hkc [Hkd Hkn]%Forall_app].
  assert (Hty : Forall (λ m, m_type m = MT_DATA) data) by (eapply Forall_impl; [exact Hdata|by intros ? []]).
  assert (Hd : data_ok (r_ms s) data).
  { split_and!; [|done..]. eapply Forall_impl; [exact Hdata|]. intros x [Ht He]. split; [by rewrite Ht|done]. }
  unfold recv_start. wp_step. apply wp_get. rewrite Hfl. change (Z.land 0 _) with 0. change (test 0 _) with false. cbv iota.
  wp_step. rewrite Hconf. apply wp_ret.
  assert (E : ∀ n P, wp (recv_pass drain junk junk_len usr_rcvd sbwait UDP_FLAGS so_pcb true controlp true fuel 0 (r_resid s))
      (r_set_sb (with_flags (Z.lor (sb_flags (r_sb s)) SB_LOCK) (r_sb s)) s) (λ r s', r = Some 0 ∧ P s') →
    wp (recv_loop drain junk junk_len usr_rcvd sbwait sb_lock UDP_FLAGS so_pcb true controlp true fuel n 0 (r_resid s)) s (λ e s', e = 0 ∧ P s')).
  { intros n P HP. destruct n; cbn [recv_loop]; wp_step; apply wp_modify; rewrite sblock_free by done; wp_step; apply wp_get.
    all: assert (Hck : recv_check UDP_FLAGS 0 (r_set_sb (with_flags (Z.lor (sb_flags (r_sb s)) SB_LOCK) (r_sb s)) s) = Proceed)
      by (unfold recv_check, too_little; cbn [r_sb r_set_sb with_flags sb_mb]; rewrite Hmb;
        change (test UDP_FLAGS Socket.PR_ATOMIC) with true; by rewrite andb_false_r).
    all: rewrite Hck; wp_step; eapply wp_mono; [exact HP|]; intros r s' [-> HP']; by apply wp_ret. }
  apply E. clear E. set (sl := r_set_sb _ s).
  unfold recv_pass. wp_step. apply wp_get. unfold first_record, other_records.
  change (sb_mb (r_sb sl)) with (sb_mb (r_sb s)). rewrite Hmb. change (test UDP_FLAGS Socket.PR_ADDR) with true.
  change (test 0 MSG_PEEK) with false. cbn [orb recv_addr]. cbv iota. wp_step. wp_step. wp_step. apply wp_modify. apply wp_modify. apply wp_ret.
  wp_step. eapply wp_mono; [apply (recv_control_take drain junk junk_len controlp ctl data (concat next) _ (r_ms s)); try done|].
  { apply (counts_free (r_sb sl) a). by split. }
  intros [data' c] s1 (Edata & Hs1 & Hc1 & ms1 & sb1 & Hl1 & E1). cbn [fst] in Edata. subst data'.
  set (type := match data with m0 :: _ => m_type m0 | [] => 0 end).
  assert (Htype : type ≠ MT_OOBDATA) by (unfold type; destruct data; [done|]; inversion_clear Hty as [|? ? E]; by rewrite E).
  assert (Hflags : match data with m0 :: _ => if type =? MT_OOBDATA then Z.lor 0 MSG_OOB else 0 | [] => 0 end = 0)
    by (rewrite (proj2 (Z.eqb_neq _ _) Htype); by destruct data).
  rewrite Hflags. wp_step.
  assert (Hr1 : r_resid s1 = r_resid s) by by rewrite E1.
  eapply wp_mono; [apply (copy_loop_take sbwait UDP_FLAGS fuel fuel type 0 data next (concat next) s1 (r_ms s)); try done|].
  1-4: rewrite E1; try done. { by right. }
  intros r s2 (m' & -> & Hs2 & Hu2 & R2 & Eu2 & Eb2 & Er2 & Hd2 & Hc2 & Hend). wp_step.
  eapply wp_mono; [by apply (recv_finish_datagram m' next s2 (r_ms s))|].
  intros f s3 (-> & Hok3 & Hmb3 & Hs3 & ms3 & sb3 & E3). wp_step. apply wp_get. cbn [ztrue negb].
  change (ztrue 0) with false. rewrite andb_false_r. cbn [andb]. wp_step. apply wp_modify. wp_step. apply wp_modify. apply wp_ret.
  destruct (sbunlock_flags (r_sb (r_set_flags (Z.lor (r_flags s3) (match m' with [] => 0 | _ => MSG_TRUNC end)) s3))) as [g Eg]. rewrite Eg.
  assert (Hlen : Z.of_nat (length d) = chain_len data) by (apply bytes_length, Hd).
  assert (Hcl : 0 <= chain_len data) by (eapply chain_len_nonneg, Hd).
  assert (Ef : r_flags s3 = 0) by (rewrite E3; cbn; rewrite (sr_flags _ _ R2), E1; exact Hfl).
  cbn [r_addr r_control r_user r_resid r_sb r_ms r_flags r_set_sb r_set_flags]. rewrite Ef, Z.lor_0_l.
  split; [done|]. split_and!.
  - rewrite E3. cbn. rewrite (sr_addr _ _ R2), E1. done.
  - rewrite E3. cbn. rewrite (sr_control _ _ R2), E1. done.
  - rewrite E3. cbn. rewrite Eu2, E1. done.
  - rewrite E3. cbn. rewrite Er2, Hr1, Hlen. lia.
  - exact Hok3.
  - exact Hmb3.
  - by apply bytes_store.
  - destruct m'; [by left|by right].
  - intros Hlt. destruct m'; [|done]. exfalso. apply (f_equal length) in Eb2. rewrite length_drop in Eb2. cbn in Eb2. unfold d in *. lia.
  - intros Hlt. destruct Hend as [-> | Hz]; [done|]. lia.
Qed.

(** C17: Reading from a datagram socket takes exactly one record off the buffer, however
    much the user asked for: the caller gets the address mbuf, the control mbufs and the
    first bytes of the data; [MSG_TRUNC] is set if data were left behind, and is not if
    the user had room for more. *)
Theorem soreceive_datagram s a ctl data next :
  datagram_ready s a ctl data next → r_flags s = 0 → (length data <= fuel)%nat →
  let d := bytes (r_ms s) data in
  wp (soreceive drain junk junk_len usr_rcvd usr_rcvoob sbwait sb_lock UDP_FLAGS so_pcb true controlp true fuel) s (λ e s',
    e = 0 ∧ r_addr s' = [a] ∧ r_control s' = (if controlp then ctl else r_control s) ∧
    r_user s' = r_user s ++ take (Z.to_nat (r_resid s)) d ∧
    r_resid s' = Z.max 0 (r_resid s - Z.of_nat (length d)) ∧
    sb_ok (r_ms s') (r_sb s') ∧ sb_mb (r_sb s') = next ∧ bytes (r_ms s') (concat next) = bytes (r_ms s) (concat next) ∧
    (r_flags s' = 0 ∨ r_flags s' = MSG_TRUNC) ∧
    (r_resid s < Z.of_nat (length d) → r_flags s' = MSG_TRUNC) ∧ (Z.of_nat (length d) < r_resid s → r_flags s' = 0)).
Proof.
  intros Hdg Hfl Hfuel d. unfold soreceive. wp_step. apply wp_modify.
  eapply wp_mono; [apply (recv_start_datagram (clear_results true controlp s) a ctl data next); [by destruct Hdg|done..]|].
  intros e s' (H1 & H2 & H3 & H4). split; [done|]. split; [done|]. split; [|exact H4].
  rewrite H3. cbn. destruct controlp; [done|by rewrite app_nil_r].
Qed.

End Datagram.

(** ** An empty buffer *)

Lemma recv_start_empty drain junk junk_len usr_rcvd usr_rcvoob sbwait sb_lock pr_flags so_pcb paddr controlp fuel flags s :
  sb_mb (r_sb s) = [] → ztrue (Z.land (sb_flags (r_sb s)) SB_LOCK) = false →
  r_flags s = flags → test flags MSG_OOB = false → test (r_state s) TcpConn.SS_ISCONFIRMING = false →
  ztrue (r_error s) = true ∨ test (r_state s) TcpConn.SS_CANTRCVMORE = true ∨ test (r_state s) Socket.SS_NBIO = true →
  wp (recv_start drain junk junk_len usr_rcvd usr_rcvoob sbwait sb_lock pr_flags so_pcb paddr controlp true fuel) s (λ e s',
    e = (if ztrue (r_error s) then r_error s
         else if test (r_state s) TcpConn.SS_CANTRCVMORE then 0
         else if negb (test (r_state s) (Z.lor TcpConn.SS_ISCONNECTED TcpConn.SS_ISCONNECTING)) &&
                 test pr_flags Socket.PR_CONNREQUIRED then Socket.ENOTCONN
         else if r_resid s =? 0 then 0 else EWOULDBLOCK) ∧
    ∃ f, s' = r_set_sb (with_flags f (r_sb s))
                (if ztrue (r_error s) && negb (test flags MSG_PEEK) then r_set_error 0 s else s)).
Proof.
  intros Hmb Hfree Hfl Fo Hconf Hcase. unfold recv_start. wp_step. apply wp_get. rewrite Hfl.
  set (fl := Z.land flags (Z.lnot MSG_EOR)).
  assert (Hbit : ∀ b, Z.land (Z.lnot MSG_EOR) b = b → test fl b = test flags b)
    by (intros b Hb; unfold test, fl; by rewrite <- Z.land_assoc, Hb).
  rewrite Hbit, Fo by done. cbv iota. wp_step. rewrite Hconf. apply wp_ret.
  set (sl := r_set_sb (with_flags (Z.lor (sb_flags (r_sb s)) SB_LOCK) (r_sb s)) s).
  destruct (sbunlock_flags (r_sb sl)) as [f Ef].
  assert (Herr : ∀ (e : Z) (b : bool), wp (do! (if b then ret () else modify (r_set_error 0)) in do! unlock_rcv in ret e) sl
    (λ e' s', e' = e ∧ ∃ f, s' = r_set_sb (with_flags f (r_sb s)) (if b then s else r_set_error 0 s))).
  { intros e b. wp_step. destruct b; [apply wp_ret|apply wp_modify]; wp_step; apply wp_modify;
      try change (r_sb (r_set_error 0 sl)) with (r_sb sl); rewrite Ef; apply wp_ret; (split; [done|]); by exists f. }
  assert (Hret : ∀ e : Z, wp (do! unlock_rcv in ret e) sl (λ e' s', e' = e ∧ ∃ f, s' = r_set_sb (with_flags f (r_sb s)) s)).
  { intros e. exact (Herr e true). }
  assert (Hck : recv_check pr_flags fl sl = if ztrue (r_error s) then TakeError (r_error s) else
    if test (r_state s) TcpConn.SS_CANTRCVMORE then Return 0
    else if negb (test (r_state s) (Z.lor TcpConn.SS_ISCONNECTED TcpConn.SS_ISCONNECTING)) &&
            test pr_flags Socket.PR_CONNREQUIRED then Return Socket.ENOTCONN
    else if r_resid s =? 0 then Return 0 else Return EWOULDBLOCK).
  { unfold recv_check, too_little, first_record. cbn [r_sb r_set_sb with_flags sb_mb sl]. rewrite Hmb. cbn [existsb].
    change (r_error sl) with (r_error s). change (r_state sl) with (r_state s). change (r_resid sl) with (r_resid s).
    destruct Hcase as [-> | [-> | ->]]; [done|by destruct (ztrue _)|]. by rewrite orb_true_l. }
  destruct fuel; cbn [recv_loop]; wp_step; apply wp_modify; rewrite sblock_free by done; wp_step; apply wp_get; fold sl; rewrite Hck.
  all: destruct (ztrue (r_error s)); cbn [andb];
    [rewrite (Hbit MSG_PEEK) by done; eapply wp_mono; [apply Herr|]; intros e s' [-> [g ->]]; (split; [done|]); exists g; by destruct (test flags MSG_PEEK)|].
  all: destruct (test (r_state s) TcpConn.SS_CANTRCVMORE); [apply Hret|].
  all: destruct (negb _ && _); [apply Hret|]; destruct (_ =? 0); apply Hret.
Qed.

(** C40: Reading when nothing is in the receive buffer: a pending error is returned once
    (a peek leaves it), then the end of the stream reads as zero bytes, a socket that must
    be connected and is not answers [ENOTCONN], and a socket that does not block answers
    [EWOULDBLOCK]; the buffer and the user's memory stay as they are. *)
Theorem soreceive_empty drain junk junk_len usr_rcvd usr_rcvoob sbwait sb_lock pr_flags so_pcb paddr controlp fuel flags s :
  sb_mb (r_sb s) = [] → ztrue (Z.land (sb_flags (r_sb s)) SB_LOCK) = false →
  r_flags s = flags → test flags MSG_OOB = false → test (r_state s) TcpConn.SS_ISCONFIRMING = false →
  ztrue (r_error s) = true ∨ test (r_state s) TcpConn.SS_CANTRCVMORE = true ∨ test (r_state s) Socket.SS_NBIO = true →
  wp (soreceive drain junk junk_len usr_rcvd usr_rcvoob sbwait sb_lock pr_flags so_pcb paddr controlp true fuel) s (λ e s',
    e = (if ztrue (r_error s) then r_error s
         else if test (r_state s) TcpConn.SS_CANTRCVMORE then 0
         else if negb (test (r_state s) (Z.lor TcpConn.SS_ISCONNECTED TcpConn.SS_ISCONNECTING)) &&
                 test pr_flags Socket.PR_CONNREQUIRED then Socket.ENOTCONN
         else if r_resid s =? 0 then 0 else EWOULDBLOCK) ∧
    ∃ f, s' = r_set_sb (with_flags f (r_sb s))
                (if ztrue (r_error s) && negb (test flags MSG_PEEK) then r_set_error 0 (clear_results paddr controlp s)
                 else clear_results paddr controlp s)).
Proof.
  intros Hmb Hfree Hfl Fo Hconf Hcase. unfold soreceive. wp_step. apply wp_modify.
  by eapply wp_mono; [apply (recv_start_empty drain junk junk_len usr_rcvd usr_rcvoob sbwait sb_lock pr_flags so_pcb paddr controlp fuel flags
    (clear_results paddr controlp s))|].
Qed.

(** ** Examples *)

Definition ex_recv (sb : sockbuf) (resid flags : Z) : rstate :=
  RState ex_state sb TcpConn.SS_ISCONNECTED 0 0 [resid] resid [] [] [] flags [].

Lemma ex_out_ok sb resid flags : 0 <= resid < 2147483648 → out_ok (ex_recv sb resid flags).
Proof. intros H. split_and!; [repeat constructor; lia|cbn; lia|cbn; lia]. Qed.


Definition ex_name : mbuf := MB 16 0 MT_SONAME 0 0 0 0 0 (replicate 108 9).
Definition ex_datagram : sockbuf := SB 164 4096 384 8192 1 [ex_name :: ex_chain] 0.

Lemma ex_datagram_ok : sb_ok ex_state ex_datagram.
Proof.
  split; [done|]. split; [done|]. split; [|split; [|by repeat constructor]].
  - constructor; [|apply ex_chain_ok]. repeat constructor; try done; eexists; (split; [reflexivity|]); split; try done; by vm_compute.
  - constructor; [done|apply ex_chain_known].
Qed.

Lemma soreceive_datagram_witness :
  wp (soreceive id (replicate 108 0) 0 (λ _, ret ()) (λ _ _, crash) (ret 4) (λ sb, (sb, 0)) UDP_FLAGS true true true true 2)
    (ex_recv ex_datagram 60 0) (λ e s', e = 0 ∧ r_addr s' = [ex_name] ∧ r_flags s' = MSG_TRUNC).
Proof.
  eapply wp_mono; [apply (soreceive_datagram id (replicate 108 0) 0 (λ _, ret ()) (λ _ _, crash) (ret 4) (λ sb, (sb, 0))
    true true 2 (ex_recv ex_datagram 60 0) ex_name [] ex_chain [])|]; try done.
  - constructor; try done; [apply ex_datagram_ok|by repeat constructor|by apply ex_out_ok].
  - intros e s' (H1 & H2 & _ & _ & _ & _ & _ & _ & _ & H3 & _). split; [done|]. split; [done|]. apply H3. by vm_compute.
Defined.

Lemma soreceive_empty_witness :
  wp (soreceive id (replicate 108 0) 0 (λ _, ret ()) (λ _ _, crash) (ret 4) (λ sb, (sb, 0)) TCP_FLAGS true false false true 0)
    (r_set_state TcpConn.SS_CANTRCVMORE (ex_recv (SB 0 4096 0 8192 1 [] 0) 60 0)) (λ e _, e = 0).
Proof.
  eapply wp_mono; [apply (soreceive_empty id (replicate 108 0) 0 (λ _, ret ()) (λ _ _, crash) (ret 4) (λ sb, (sb, 0)) TCP_FLAGS
    true false false 0 0)|]; try done.
  - by right; left.
  - intros e s' [H _]. exact H.
Defined.

(** A peek that waits for more than the buffer can hold copies the same data again: the
    stream is 1, 1, 1, 2 and the user gets 1, 1, 1, 1, 1. *)
Definition ex_byte (n b : Z) : mbuf := MB n 0 MT_DATA 0 0 0 0 0 (replicate 108 b).
Definition ex_arrival : M rstate Z :=
  do! mod_sb (λ _, SB 4 4 256 8192 1 [[ex_byte 3 1; ex_byte 1 2]] 0) in ret 0.
Example peek_waitall_repeats :
  match soreceive id (replicate 108 0) 0 (λ _, ret ()) (λ _ _, crash) ex_arrival (λ sb, (sb, 0)) TCP_FLAGS true false false true 4
    (ex_recv (SB 3 4 128 8192 1 [[ex_byte 3 1]] 0) 5 (Z.lor MSG_PEEK MSG_WAITALL)) with
  | Ok (e, s) => e = 0 ∧ r_user s = [1; 1; 1; 1; 1]
  | _ => False
  end.
Proof. by vm_compute. Qed.

End SockRecv.
