(* ===== verification/SockOpt.v ===== *)
(** * Socket options ([sosetopt], [sogetopt] of kern/uipc_socket.c, and the system calls)

    An option is set from an mbuf that holds the bytes of the user's value, and read back
    into one.  The byte order of the host's integers is an interface ([ByteOrder]). *)

From stdpp Require Import gmap options.
From S2P Require Import Prelude Mbuf Sockbuf TcpOutput TcpConn Socket SockIo.
Import Mbuf Sockbuf Socket.

Module SockOpt.

Definition SOL_SOCKET : Z := 0xffff.
Definition SO_DEBUG : Z := 0x0001.
Definition SO_REUSEADDR : Z := 0x0004.
Definition SO_KEEPALIVE : Z := 0x0008.
Definition SO_DONTROUTE : Z := 0x0010.
Definition SO_BROADCAST : Z := 0x0020.
Definition SO_USELOOPBACK : Z := 0x0040.
Definition SO_REUSEPORT : Z := 0x0200.
Definition SO_SNDBUF : Z := 0x1001.
Definition SO_RCVBUF : Z := 0x1002.
Definition SO_SNDLOWAT : Z := 0x1003.
Definition SO_RCVLOWAT : Z := 0x1004.
Definition SO_SNDTIMEO : Z := 0x1005.
Definition SO_RCVTIMEO : Z := 0x1006.
Definition SO_ERROR : Z := 0x1007.
Definition SO_TYPE : Z := 0x1008.
Definition MT_SOOPTS : Z := 10.
Definition SHRT_MAX : Z := 32767.
Definition PRCO_GETOPT : Z := 0.
Definition PRCO_SETOPT : Z := 1.
(** [hz] and [tick] of the port. *)
Definition hz : Z := 100.
Definition tick : Z := 10000.

(** An [int] in memory. *)
Class ByteOrder (word : list Z → Z) (unword : Z → list Z) : Prop := {
  unword_len : ∀ v, length (unword v) = 4%nat;
  word_unword : ∀ v, is_s32 v → word (unword v) = v;
  unword_word : ∀ b, length b = 4%nat → Forall is_u8 b → unword (word b) = b;
  word_range : ∀ b, is_s32 (word b) }.

(** ** The options of a socket *)

(** The options that are bits of [so_options]. *)
Definition flag_names : list Z :=
  [SO_DEBUG; SO_KEEPALIVE; SO_DONTROUTE; SO_USELOOPBACK; SO_BROADCAST; SO_REUSEADDR; SO_REUSEPORT; TcpConn.SO_OOBINLINE].
Definition is_flag (optname : Z) : bool := existsb (Z.eqb optname) flag_names.

(** The value of the caller: the length of its mbuf and the [int] at an offset. *)
Definition value := option (Z * (Z → Z)).

Definition set_flag (optname : Z) (m : value) (so : socket) : socket * Z :=
  match m with
  | None => (so, TcpConn.EINVAL)
  | Some (len, int) =>
      if u32 len <? 4 then (so, TcpConn.EINVAL)
      else
        (set_fld so_options (if ztrue (int 0) then Z.lor (fld so so_options) optname
                             else Z.land (fld so so_options) (Z.lnot optname)) so, 0)
  end.

(** The switch of [sosetopt]: the socket and an error. *)
Definition set_option (sb_max optname : Z) (m : value) (so : socket) : socket * Z :=
  if optname =? TcpConn.SO_LINGER then
    match m with
    | Some (len, int) =>
        if u32 len =? 8 then set_flag optname m (set_fld so_linger (int 4) so) else (so, TcpConn.EINVAL)
    | None => (so, TcpConn.EINVAL)
    end
  else if is_flag optname then set_flag optname m so
  else if existsb (Z.eqb optname) [SO_SNDBUF; SO_RCVBUF; SO_SNDLOWAT; SO_RCVLOWAT] then
    match m with
    | Some (len, int) =>
        if u32 len <? 4 then (so, TcpConn.EINVAL)
        else if (optname =? SO_SNDBUF) || (optname =? SO_RCVBUF) then
          let snd := optname =? SO_SNDBUF in
          let '(sb, ok) := sbreserve sb_max (if snd then so_snd so else so_rcv so) (u32 (int 0)) in
          if ok =? 0 then (so, ENOBUFS) else (if snd then set_snd sb so else set_rcv sb so, 0)
        else if optname =? SO_SNDLOWAT then
          (set_snd (with_limits (sb_hiwat (so_snd so)) (sb_mbmax (so_snd so)) (int 0) (so_snd so)) so, 0)
        else (set_rcv (with_limits (sb_hiwat (so_rcv so)) (sb_mbmax (so_rcv so)) (int 0) (so_rcv so)) so, 0)
    | None => (so, TcpConn.EINVAL)
    end
  else if (optname =? SO_SNDTIMEO) || (optname =? SO_RCVTIMEO) then
    match m with
    | Some (len, int) =>
        if u32 len <? 8 then (so, TcpConn.EINVAL)
        else if Z.quot SHRT_MAX hz - hz <? int 0 then (so, EDOM)
        else
          let val := s16 (s32 (int 0 * hz + Z.quot (int 4) tick)) in
          (set_fld (if optname =? SO_SNDTIMEO then so_snd_timeo else so_rcv_timeo) val so, 0)
    | None => (so, TcpConn.EINVAL)
    end
  else (so, ENOPROTOOPT).

(** The switch of [sogetopt]: the [int]s of the answer and the socket, which
    [SO_ERROR] changes. *)
Definition get_option (optname : Z) (so : socket) : option (list Z * socket) :=
  if optname =? TcpConn.SO_LINGER then
    Some ([Z.land (fld so so_options) TcpConn.SO_LINGER; fld so so_linger], so)
  else if is_flag optname then Some ([Z.land (fld so so_options) optname], so)
  else if optname =? SO_TYPE then Some ([fld so so_type], so)
  else if optname =? SO_ERROR then Some ([fld so so_error], set_fld so_error 0 so)
  else if optname =? SO_SNDBUF then Some ([s32 (sb_hiwat (so_snd so))], so)
  else if optname =? SO_RCVBUF then Some ([s32 (sb_hiwat (so_rcv so))], so)
  else if optname =? SO_SNDLOWAT then Some ([sb_lowat (so_snd so)], so)
  else if optname =? SO_RCVLOWAT then Some ([sb_lowat (so_rcv so)], so)
  else if (optname =? SO_SNDTIMEO) || (optname =? SO_RCVTIMEO) then
    let val := fld so (if optname =? SO_SNDTIMEO then so_snd_timeo else so_rcv_timeo) in
    Some ([Z.quot val hz; Z.quot (Z.rem val hz) tick], so)
  else None.

(** ** sosetopt and sogetopt *)

Section Options.
Context (word : list Z → Z) (unword : Z → list Z).
Context (drain : mstate → mstate) (junk : list Z) (junk_len sb_max : Z).
(** The protocol's [pr_ctloutput]: the command, the socket, the level, the option and
    the mbuf; the answer is an error and an mbuf. *)
Context (ctloutput : Z → Z → Z → Z → option mbuf → M world (Z * option mbuf)).

(** What an mbuf holds, as the caller's value. *)
Definition value_of (s : mstate) (m : option mbuf) : value :=
  m ← m; Some (m_len m, λ off, word (take 4 (drop (Z.to_nat off) (mbytes s m)))).

Definition free_value (m : option mbuf) : M world () :=
  match m with Some m => low (MFREE m) | None => ret () end.

Definition sosetopt (so level optname : Z) (m0 : option mbuf) : M world Z :=
  let! s := deref so in
  if negb (level =? SOL_SOCKET) then
    if pr_ctloutput (so_proto s) then let! r := ctloutput PRCO_SETOPT so level optname m0 in ret r.1
    else do! free_value m0 in ret ENOPROTOOPT
  else
    let! w := get in
    let '(s', error) := set_option sb_max optname (value_of (ms w) m0) s in
    do! mod_so so (λ _, s') in
    if (error =? 0) && pr_ctloutput (so_proto s) then
      do! ctloutput PRCO_SETOPT so level optname m0 in ret 0
    else do! free_value m0 in ret error.

Definition sogetopt (so level optname : Z) : M world (Z * option mbuf) :=
  let! s := deref so in
  if negb (level =? SOL_SOCKET) then
    if pr_ctloutput (so_proto s) then ctloutput PRCO_GETOPT so level optname None
    else ret (ENOPROTOOPT, None)
  else
    let! m := low (m_get drain junk junk_len MT_SOOPTS) in
    let! m := lift m in
    match get_option optname s with
    | None => do! low (MFREE m) in ret (ENOPROTOOPT, None)
    | Some (ints, s') =>
        let b := concat (unword <$> ints) in
        do! mod_so so (λ _, s') in
        let! m := low (m_write (set_len m (Z.of_nat (length b))) 0 b) in
        ret (0, Some m)
    end.

(** ** The system calls

    [copyin] and [copyout] of the port are [memcpy]; reading past the user's value is a
    wild access. *)

Definition copyin (b : list Z) (n : Z) : option (list Z) :=
  if (0 <=? n) && (n <=? Z.of_nat (length b)) then Some (take (Z.to_nat n) b) else None.

Definition setsockopt (so level name : Z) (val : option (list Z)) (valsize : Z) : M world Z :=
  if MLEN <? valsize then ret TcpConn.EINVAL
  else
    match val with
    | None => sosetopt so level name None
    | Some val =>
        let! m := low (m_get drain junk junk_len MT_SOOPTS) in
        match m with
        | None => ret ENOBUFS
        | Some m =>
            let! b := lift (copyin val valsize) in
            let! m := low (m_write (set_len m valsize) 0 b) in
            sosetopt so level name (Some m)
        end
    end.

(** The result is an error and the bytes copied out, whose number is the new value
    size; [valsize] is the size the user gave, with [None] for no buffer. *)
Definition getsockopt (so level name : Z) (valsize : option Z) : M world (Z * list Z) :=
  let! r := sogetopt so level name in
  let '(error, m) := r in
  match m with
  | None => ret (error, [])
  | Some m =>
      let! b := (match valsize with
                 | Some valsize =>
                     if (error =? 0) && ztrue valsize then
                       low (m_read m 0 (if m_len m <? valsize then m_len m else valsize))
                     else ret []
                 | None => ret []
                 end) in
      do! low (MFREE m) in
      ret (error, b)
  end.

End Options.

(** ** What is set is what is read *)

(** The bits of [so_options] are those of a [short]. *)
Lemma land_short z n : 0 <= n < 32768 → Z.land (s16 z) n = Z.land z n.
Proof.
  intros Hn. assert (E : s16 z = z + - ((z + 32768) / 65536) * 65536) by (unfold s16; Z.div_mod_to_equations; lia).
  assert (Hm : ∀ x, Z.land x n = Z.land (x mod 65536) n).
  { intros x. change 65536 with (2 ^ 16). rewrite <- Z.land_ones by lia. rewrite <- Z.land_assoc. f_equal.
    rewrite Z.land_comm, Z.land_ones by lia. symmetry. apply Z.mod_small. lia. }
  rewrite (Hm (s16 z)), (Hm z). f_equal. rewrite E, Z.mod_add by lia. done.
Qed.

Lemma land_lor_same z n : Z.land (Z.lor z n) n = n.
Proof. apply Z.bits_inj'. intros i _. rewrite Z.land_spec, Z.lor_spec. by destruct (Z.testbit z i), (Z.testbit n i). Qed.

Lemma land_clear_same z n : Z.land (Z.land z (Z.lnot n)) n = 0.
Proof. by rewrite <- Z.land_assoc, (Z.land_comm (Z.lnot n)), Z.land_lnot_diag, Z.land_0_r. Qed.

(** Other bits stay. *)
Lemma land_other z n k : Z.land n k = 0 → Z.land (Z.lor z n) k = Z.land z k ∧ Z.land (Z.land z (Z.lnot n)) k = Z.land z k.
Proof.
  intros H. split; apply Z.bits_inj'; intros i Hi; pose proof (f_equal (λ x, Z.testbit x i) H) as Hb; cbv beta in Hb;
    rewrite Z.land_spec, Z.bits_0 in Hb; rewrite ?Z.land_spec, ?Z.lor_spec, ?Z.lnot_spec by done;
    destruct (Z.testbit z i), (Z.testbit n i), (Z.testbit k i); done.
Qed.

(** The answer expected after a successful call with the values [v0] and [v1]. *)
Definition answer (optname v0 v1 : Z) : list Z :=
  if optname =? TcpConn.SO_LINGER then [if ztrue v0 then optname else 0; s16 v1]
  else if is_flag optname then [if ztrue v0 then optname else 0]
  else if (optname =? SO_SNDTIMEO) || (optname =? SO_RCVTIMEO) then [v0; 0]
  else [v0].

(** The error expected: lengths, limits and unknown names. *)
Definition refusal (sb_max optname len v0 : Z) : Z :=
  if optname =? TcpConn.SO_LINGER then if len =? 8 then 0 else TcpConn.EINVAL
  else if is_flag optname || (optname =? SO_SNDLOWAT) || (optname =? SO_RCVLOWAT) then if len <? 4 then TcpConn.EINVAL else 0
  else if (optname =? SO_SNDBUF) || (optname =? SO_RCVBUF) then
    if len <? 4 then TcpConn.EINVAL
    else if u32 (sb_max * MCLBYTES) / (MSIZE + MCLBYTES) <? u32 v0 then ENOBUFS else 0
  else if (optname =? SO_SNDTIMEO) || (optname =? SO_RCVTIMEO) then
    if len <? 8 then TcpConn.EINVAL else if 227 <? v0 then EDOM else 0
  else ENOPROTOOPT.

Lemma set_option_error sb_max optname len int so :
  is_u32 len → (set_option sb_max optname (Some (len, int)) so).2 = refusal sb_max optname len (int 0).
Proof.
  intros Hl. unfold set_option, refusal, set_flag. rewrite (u32_id len) by done. cbn [existsb].
  destruct (optname =? TcpConn.SO_LINGER) eqn:E1.
  { destruct (len =? 8) eqn:E; [|done]. zbool. by subst len. }
  destruct (is_flag optname); cbn [orb]; [by destruct (len <? 4)|].
  destruct (optname =? SO_SNDBUF) eqn:E2; [zbool; subst optname; cbn; destruct (len <? 4); [done|]; unfold sbreserve; by destruct (_ <? _)|].
  destruct (optname =? SO_RCVBUF) eqn:E3; [zbool; subst optname; cbn; destruct (len <? 4); [done|]; unfold sbreserve; by destruct (_ <? _)|].
  destruct (optname =? SO_SNDLOWAT) eqn:E4; [cbn; by destruct (len <? 4)|].
  destruct (optname =? SO_RCVLOWAT) eqn:E5; [cbn; by destruct (len <? 4)|]. cbn [orb].
  destruct (_ || _); [|done]. destruct (len <? 8); [done|]. change (Z.quot SHRT_MAX hz - hz) with 227. by destruct (227 <? int 0).
Qed.

(** What [sosetopt] stores, [sogetopt] finds; only the fraction of a second of a
    timeout is lost. *)
Lemma set_get_option sb_max optname len int so so' :
  set_option sb_max optname (Some (len, int)) so = (so', 0) → is_s32 (int 0) →
  (optname = SO_SNDTIMEO ∨ optname = SO_RCVTIMEO → 0 <= int 0 ∧ 0 <= int 4 < 1000000) →
  get_option optname so' = Some (answer optname (int 0) (int 4), so').
Proof.
  intros H Hi Ht. unfold set_option, get_option, answer in *.
  destruct (optname =? TcpConn.SO_LINGER) eqn:E1.
  { zbool. subst optname. destruct (u32 len =? 8) eqn:E; [|done]. unfold set_flag in H.
    destruct (u32 len <? 4); [done|]. injection H as <-. unfold set_fld at 1. cbn [fld]. rewrite !decide_True by done.
    unfold set_fld at 1. cbn [fld]. rewrite decide_False by done. unfold set_fld at 1. cbn [fld]. rewrite decide_True by done.
    cbn [convert]. rewrite land_short by done. do 3 f_equal. destruct (ztrue (int 0)); [apply land_lor_same|apply land_clear_same]. }
  destruct (is_flag optname) eqn:E2.
  { unfold set_flag in H. destruct (u32 len <? 4); [done|]. injection H as <-. unfold set_fld at 1. cbn [fld]. rewrite !decide_True by done.
    cbn [convert]. rewrite land_short.
    - do 3 f_equal. destruct (ztrue (int 0)); [apply land_lor_same|apply land_clear_same].
    - unfold is_flag in E2. apply existsb_exists in E2 as (n & Hn & E). zbool. subst n.
      cbn in Hn. repeat destruct Hn as [<- | Hn]; try done. }
  cbn [existsb] in H. destruct (optname =? SO_SNDBUF) eqn:E3.
  { zbool. subst optname. cbn in H |- *. destruct (u32 len <? 4); [done|]. unfold sbreserve in H.
    destruct (_ <? _); [done|]. cbn in H. injection H as <-. cbn. do 3 f_equal. unfold s32, u32, is_s32 in *. Z.div_mod_to_equations; lia. }
  destruct (optname =? SO_RCVBUF) eqn:E4.
  { zbool. subst optname. cbn in H |- *. destruct (u32 len <? 4); [done|]. unfold sbreserve in H.
    destruct (_ <? _); [done|]. cbn in H. injection H as <-. cbn. do 3 f_equal. unfold s32, u32, is_s32 in *. Z.div_mod_to_equations; lia. }
  destruct (optname =? SO_SNDLOWAT) eqn:E5.
  { zbool. subst optname. cbn in H |- *. destruct (u32 len <? 4); [done|]. by injection H as <-. }
  destruct (optname =? SO_RCVLOWAT) eqn:E6.
  { zbool. subst optname. cbn in H |- *. destruct (u32 len <? 4); [done|]. by injection H as <-. }
  cbn [orb] in H. destruct (_ || _) eqn:E7; [|done]. destruct (u32 len <? 8); [done|].
  change (Z.quot SHRT_MAX hz - hz) with 227 in H. destruct (Z.ltb_spec 227 (int 0)) as [|Hle]; [done|]. injection H as <-.
  assert (Ho : optname = SO_SNDTIMEO ∨ optname = SO_RCVTIMEO) by (apply orb_true_iff in E7 as [E7|E7]; zbool; auto).
  destruct (Ht Ho) as [H0 [H1 H2]]. set (q := Z.quot (int 4) tick).
  assert (Hq : 0 <= q < 100) by (unfold q, tick; rewrite Z.quot_div_nonneg by lia; Z.div_mod_to_equations; lia).
  assert (Hv : s16 (s32 (int 0 * hz + q)) = int 0 * 100 + q) 
    by (unfold hz; rewrite s32_id, s16_id; unfold is_s16, is_s32; lia).
  destruct Ho as [-> | ->]; cbn; fold q; rewrite Hv; unfold hz, tick; rewrite (s16_id (int 0 * 100 + q)) by (unfold is_s16; lia);
    rewrite decide_True by done; clearbody q; rewrite Z.quot_div_nonneg, Z.rem_mod_nonneg by lia;
    replace ((int 0 * 100 + q) / 100) with (int 0) by (Z.div_mod_to_equations; lia);
    replace ((int 0 * 100 + q) mod 100) with q by (Z.div_mod_to_equations; lia);
    rewrite Z.quot_div_nonneg by lia; rewrite Z.div_small by lia; done.
Qed.

(** The other options that are bits keep their value. *)
Lemma set_option_others sb_max optname v so n :
  n ≠ optname → is_flag n = true → Z.land (fld (set_option sb_max optname v so).1 so_options) n = Z.land (fld so so_options) n.
Proof.
  intros Hn Hf. assert (Hn' : n ∈ flag_names).
  { unfold is_flag in Hf. apply existsb_exists in Hf as (x & Hx & E). zbool. subst x. by apply list_elem_of_In. }
  assert (Hr : 0 <= n < 32768) by (unfold flag_names in Hn'; rewrite !elem_of_cons, elem_of_nil in Hn';
    repeat destruct Hn' as [-> | Hn']; done).
  assert (Hset : ∀ s, is_flag optname = true ∨ optname = TcpConn.SO_LINGER → fld s so_options = fld so so_options →
    Z.land (fld (set_flag optname v s).1 so_options) n = Z.land (fld so so_options) n).
  { intros s Ho Es. unfold set_flag. destruct v as [[len int]|]; [|by rewrite <- Es]. destruct (_ <? _); [by rewrite <- Es|].
    cbn [fst fld set_fld]. rewrite decide_True by done. cbn [convert]. rewrite land_short, Es by done.
    assert (Hd : Z.land optname n = 0).
    { assert (Ho' : optname ∈ TcpConn.SO_LINGER :: flag_names).
      { destruct Ho as [Ho | ->]; [|by left]. right. unfold is_flag in Ho. apply existsb_exists in Ho as (x & Hx & E). zbool. subst x. by apply list_elem_of_In. }
      unfold flag_names in Hn', Ho'. rewrite !elem_of_cons, elem_of_nil in Hn'. rewrite !elem_of_cons, elem_of_nil in Ho'.
      repeat destruct Hn' as [-> | Hn']; try done; repeat destruct Ho' as [-> | Ho']; try done. }
    destruct (land_other (fld so so_options) optname n Hd) as [H1 H2]. by destruct (ztrue _). }
  unfold set_option. destruct (optname =? TcpConn.SO_LINGER) eqn:E1.
  { zbool. destruct v as [[len int]|]; [|done]. destruct (_ =? _); [|done]. apply Hset; [by right|done]. }
  destruct (is_flag optname); [apply Hset; [by left|done]|].
  destruct v as [[len int]|]; repeat (case_match; try done).
  all: cbn; try by rewrite decide_False.
Qed.

Lemma get_option_facts name s ints s' :
  get_option name s = Some (ints, s') → (length ints <= 2)%nat ∧ fld s' so_options = fld s so_options.
Proof. unfold get_option. intros H. repeat case_match; simplify_eq; cbn; (split; [lia|done]). Qed.

Section Calls.
Context (word : list Z → Z) (unword : Z → list Z) `{!ByteOrder word unword}.
Context (drain : mstate → mstate) (drain_ok : ∀ s, same_store s (drain s)) (junk : list Z) (junk_ok : Z.of_nat (length junk) = MLEN) (junk_len sb_max : Z).
Context (ctloutput : Z → Z → Z → Z → option mbuf → M world (Z * option mbuf)).

(** What a protocol promises when it is told of an option of the socket layer: it frees
    the mbuf and leaves the sockets alone. *)
Definition ctl_keeps : Prop :=
  ∀ so name m w, has m M_EXT = false →
    wp (ctloutput PRCO_SETOPT so SOL_SOCKET name (Some m)) w (λ _ w', socks w' = socks w ∧ oracle (ms w') = oracle (ms w)).
Context (ctl_ok : ctl_keeps).

Lemma wp_store_so p so g w (Q : () → world → Prop) :
  socks w !! p = Some so → Q () (set_socks (<[p := g so]> (socks w)) w) → wp (mod_so p g) w Q.
Proof.
  intros E HQ. eapply wp_mod_sock; [done|]. replace (alter g p (socks w)) with (<[p := g so]> (socks w)); [done|].
  apply map_eq. intros q. destruct (decide (q = p)) as [-> | Hne]; [by rewrite lookup_insert_eq, lookup_alter_eq, E|].
  by rewrite lookup_insert_ne, lookup_alter_ne by done.
Qed.

Lemma wp_low_op {A} (m : M mstate A) w P Q :
  wp m (ms w) P → (∀ a s, P a s → Q a (World (socks w) s (wakeups w))) → wp (low m) w Q.
Proof. unfold wp, low. intros H HQ. destruct (m (ms w)) as [[a s]| |]; [by apply HQ|done..]. Qed.

Lemma MFREE_plain m s : has m M_EXT = false → wp (MFREE m) s (λ _ s', oracle s' = oracle s).
Proof. intros He. unfold MFREE. wp_step. apply wp_modify. rewrite He. by apply wp_ret. Qed.

Lemma sosetopt_spec so name m s w :
  has m M_EXT = false → socks w !! so = Some s → oracle (ms w) = [] →
  let r := set_option sb_max name (Some (m_len m, λ off, word (take 4 (drop (Z.to_nat off) (mbytes (ms w) m))))) s in
  wp (sosetopt word sb_max ctloutput so SOL_SOCKET name (Some m)) w (λ e w',
    e = r.2 ∧ socks w' = <[so := r.1]> (socks w) ∧ oracle (ms w') = []).
Proof using ctl_ok.
  intros He E Ho r. unfold sosetopt. wp_step. apply (wp_deref _ s); [done|]. change (SOL_SOCKET =? SOL_SOCKET) with true. cbn [negb].
  wp_step. apply wp_get. cbn [value_of option_bind mbind]. fold r. destruct r as [s' e] eqn:Er. cbn [fst snd].
  wp_step. apply (wp_store_so _ s); [done|]. destruct (_ && _) eqn:Eb.
  - apply andb_true_iff in Eb as [Ee _]. zbool. subst e. wp_step. eapply wp_mono; [by apply ctl_ok|].
    intros [] w' [E1 E2]. apply wp_ret. split_and!; [done|by rewrite E1|by rewrite E2].
  - wp_step. cbn [free_value]. eapply wp_low_op; [by apply MFREE_plain|]. intros [] ms' Ems. apply wp_ret.
    split_and!; [done|done|]. cbn in *. by rewrite Ems.
Qed.

Lemma setsockopt_spec so name val s w :
  socks w !! so = Some s → oracle (ms w) = [] → Z.of_nat (length val) <= MLEN →
  let r := set_option sb_max name (Some (Z.of_nat (length val), λ off, word (take 4 (drop (Z.to_nat off) val)))) s in
  wp (setsockopt word drain junk junk_len sb_max ctloutput so SOL_SOCKET name (Some val) (Z.of_nat (length val))) w (λ e w',
    e = r.2 ∧ socks w' = <[so := r.1]> (socks w) ∧ oracle (ms w') = []).
Proof using ctl_ok drain_ok junk_ok.
  intros E Ho Hl r. unfold setsockopt. rewrite (proj2 (Z.ltb_ge _ _) Hl). wp_step.
  eapply wp_low_op; [by apply mget_wp|]. intros m s1 (_ & _ & Hm). destruct (Hm Ho) as [-> Ho1]. wp_step.
  eapply wp_lift; [unfold copyin; rewrite (proj2 (Z.leb_le 0 _)), Z.leb_refl by lia; cbn [andb]; rewrite Nat2Z.id, firstn_all; done|].
  wp_step. eapply wp_low_op.
  { apply (m_fill_wp junk junk_ok); try done; cbn; lia. }
  intros m s2 (-> & d & -> & Hb & _). eapply wp_mono; [by apply (sosetopt_spec so name _ s)|].
  cbn [socks ms] in Hb |- *. rewrite Hb. done.
Qed.

Lemma unword_bytes ints : length (concat (unword <$> ints)) = (4 * length ints)%nat.
Proof using ByteOrder0.
  induction ints as [|v ints IH]; [done|]. cbn [fmap list_fmap concat length]. rewrite length_app, unword_len, IH.
  by rewrite Nat.mul_succ_r, Nat.add_comm.
Qed.

Lemma getsockopt_spec so name size s w :
  socks w !! so = Some s → oracle (ms w) = [] → 8 <= size →
  wp (getsockopt unword drain junk junk_len ctloutput so SOL_SOCKET name (Some size)) w (λ r w',
    match get_option name s with
    | Some (ints, s') => r = (0, concat (unword <$> ints)) ∧ socks w' = <[so := s']> (socks w)
    | None => r = (ENOPROTOOPT, []) ∧ socks w' = socks w
    end).
Proof using ByteOrder0 drain_ok junk_ok.
  intros E Ho Hsz. unfold getsockopt, sogetopt. wp_step. wp_step. apply (wp_deref _ s); [done|].
  change (SOL_SOCKET =? SOL_SOCKET) with true. cbn [negb]. wp_step.
  eapply wp_low_op; [by apply mget_wp|]. intros m s1 (_ & _ & Hm). destruct (Hm Ho) as [-> _]. wp_step. eapply wp_lift; [done|].
  destruct (get_option name s) as [[ints s']|] eqn:Eg.
  - destruct (get_option_facts _ _ _ _ Eg) as [Hl _]. pose proof (unword_bytes ints) as Hb. wp_step. apply (wp_store_so _ s); [done|].
    set (b := concat (unword <$> ints)) in *. wp_step. eapply wp_low_op.
    { apply (m_fill_wp junk junk_ok); try done; change MLEN with 108; cbn; lia. }
    intros m s2 (-> & d & -> & Hmb & Hok). apply wp_ret. cbn [m_len set_dat set_len].
    wp_step. rewrite Z.eqb_refl. cbn [andb]. unfold ztrue. rewrite (proj2 (Z.eqb_neq size 0)) by lia. cbn [negb].
    assert (Hn : (if Z.of_nat (length b) <? size then Z.of_nat (length b) else size) = Z.of_nat (length b))
      by (destruct (Z.ltb_spec (Z.of_nat (length b)) size); lia).
    rewrite Hn. eapply wp_low_op; [apply m_read_wp; [exact Hok|lia|lia|cbn; lia]|].
    intros b' s2 [-> ->]. wp_step. eapply wp_low_op; [by apply MFREE_plain|]. intros [] s2 _. apply wp_ret.
    split; [|done]. f_equal. cbn [ms set_socks] in Hmb |- *. rewrite Hmb, drop_0, Nat2Z.id. by rewrite firstn_all.
  - wp_step. eapply wp_low_op; [by apply MFREE_plain|]. intros [] s2 _. apply wp_ret. by apply wp_ret.
Qed.

(** C29: [setsockopt] followed by [getsockopt] on an option of the socket layer: the first
    call fails exactly on the lengths, limits and names of [refusal]; after a success the
    second returns the bytes that were set, with these exceptions the code makes: a flag
    reads as its own bit, the linger time is a [short], and of a timeout the fraction of a
    second always reads as 0.  No other flag and no other socket changes. *)
Theorem sockopt_roundtrip so name val size s w :
  socks w !! so = Some s → oracle (ms w) = [] → Z.of_nat (length val) <= MLEN → 8 <= size →
  let v0 := word (take 4 val) in let v1 := word (take 4 (drop 4 val)) in
  (name = SO_SNDTIMEO ∨ name = SO_RCVTIMEO → 0 <= v0 ∧ 0 <= v1 < 1000000) →
  wp (let! e := setsockopt word drain junk junk_len sb_max ctloutput so SOL_SOCKET name (Some val) (Z.of_nat (length val)) in
      let! r := getsockopt unword drain junk junk_len ctloutput so SOL_SOCKET name (Some size) in
      ret (e, r)) w (λ er w',
    er.1 = refusal sb_max name (Z.of_nat (length val)) v0 ∧
    (er.1 = 0 → er.2 = (0, concat (unword <$> answer name v0 v1))) ∧
    (∃ s', socks w' !! so = Some s' ∧
      ∀ n, is_flag n = true → n ≠ name → Z.land (fld s' so_options) n = Z.land (fld s so_options) n) ∧
    ∀ p, p ≠ so → socks w' !! p = socks w !! p).
Proof using ByteOrder0 ctl_ok drain_ok junk_ok.
  intros E Ho Hl Hsz v0 v1 Ht. wp_step. eapply wp_mono; [by apply (setsockopt_spec so name val s)|].
  intros e w1 (He & E1 & Ho1). wp_step.
  set (int := λ off, word (take 4 (drop (Z.to_nat off) val))) in *.
  set (r := set_option sb_max name (Some (Z.of_nat (length val), int)) s) in *.
  assert (Ee : e = refusal sb_max name (Z.of_nat (length val)) v0)
    by (rewrite He; apply set_option_error; change MLEN with 108 in Hl; unfold is_u32; lia).
  assert (Hs1 : socks w1 !! so = Some r.1) by by rewrite E1, lookup_insert_eq.
  eapply wp_mono; [by apply (getsockopt_spec so name size r.1)|]. intros r2 w2 H2. apply wp_ret. cbn [fst snd].
  split; [done|]. split.
  { intros Hz. assert (Hr : r = (r.1, 0)) by (rewrite <- Hz, He; by destruct r).
    pose proof (set_get_option sb_max name _ int s r.1 Hr (word_range _) Ht) as Hg. rewrite Hg in H2. by destruct H2. }
  assert (Hothers : ∀ n, is_flag n = true → n ≠ name → Z.land (fld r.1 so_options) n = Z.land (fld s so_options) n)
    by (intros n Hn Hne; by apply set_option_others).
  destruct (get_option name r.1) as [[ints s']|] eqn:Eg; destruct H2 as [_ E2]; rewrite E2, E1.
  - destruct (get_option_facts _ _ _ _ Eg) as [_ Eo]. split.
    + exists s'. rewrite lookup_insert_eq. split; [done|]. intros n Hn Hne. rewrite Eo. by apply Hothers.
    + intros p Hp. by rewrite !lookup_insert_ne by done.
  - split; [exists r.1; by rewrite lookup_insert_eq|]. intros p Hp. by rewrite lookup_insert_ne.
Qed.

End Calls.

(** ** The byte order of SPARC, and an example *)

Definition be_word (b : list Z) : Z :=
  match b with
  | [b0; b1; b2; b3] => s32 (b0 * 16777216 + b1 * 65536 + b2 * 256 + b3)
  | _ => 0
  end.
Definition be_unword (v : Z) : list Z :=
  let v := u32 v in [v / 16777216; v / 65536 mod 256; v / 256 mod 256; v mod 256].

#[export] Instance big_endian : ByteOrder be_word be_unword.
Proof.
  split.
  - done.
  - intros v Hv. unfold be_word, be_unword. replace (_ * 16777216 + _ + _ + _) with (u32 v).
    + unfold is_s32 in Hv. unfold s32, u32. Z.div_mod_to_equations; lia.
    + pose proof (u32_range v) as R. unfold is_u32 in R. generalize dependent (u32 v). intros z R. Z.div_mod_to_equations; lia.
  - intros b Hb Hu. destruct b as [|b0 [|b1 [|b2 [|b3 []]]]]; try done.
    rewrite !Forall_cons in Hu. destruct Hu as (H0 & H1 & H2 & H3 & _). unfold is_u8 in *. unfold be_word, be_unword.
    set (n := b0 * 16777216 + b1 * 65536 + b2 * 256 + b3). assert (Hn : u32 (s32 n) = n) by (unfold s32, u32, n; Z.div_mod_to_equations; lia).
    rewrite Hn. repeat f_equal; unfold n; Z.div_mod_to_equations; lia.
  - intros b. unfold be_word. destruct b as [|? [|? [|? [|? []]]]]; try (split; lia). apply s32_range.
Qed.

(** A listening socket of the examples sets its send buffer to 4096 bytes. *)
Definition ex_ctl (op so level name : Z) (m : option mbuf) : M world (Z * option mbuf) := ret (0, None).
Lemma sockopt_roundtrip_witness :
  wp (let! e := setsockopt be_word id (replicate 108 0) 0 262144 ex_ctl 100 SOL_SOCKET SO_SNDBUF (Some [0; 0; 16; 0]) 4 in
      let! r := getsockopt be_unword id (replicate 108 0) 0 ex_ctl 100 SOL_SOCKET SO_SNDBUF (Some 8) in
      ret (e, r)) ex_world (λ er _, er = (0, (0, [0; 0; 16; 0]))).
Proof.
  eapply wp_mono; [apply (sockopt_roundtrip be_word be_unword id (λ s, reflexivity s) (replicate 108 0) eq_refl 0 262144 ex_ctl
    (λ _ _ _ _ _, conj eq_refl eq_refl) 100 SO_SNDBUF [0; 0; 16; 0] 8 ex_listener)|]; try done.
  intros [e r] w' (He & Hr & _). cbn [fst snd] in He, Hr. vm_compute in He. subst e. rewrite Hr by done. by vm_compute.
Defined.

End SockOpt.
