(* ===== verification/SockCall.v ===== *)
(** * Descriptors and the system calls on sockets (anp_fdtbl.c, kern/uipc_syscalls.c, anp_syscall.c)

    The table of descriptors is one array of pointers to sockets; the system calls find
    the socket of a descriptor in it and call the socket layer. *)

From stdpp Require Import gmap options.
From S2P Require Import Prelude Mbuf Sockbuf TcpOutput TcpConn Socket SockIo SockOpt.
Import Mbuf Sockbuf Socket SockOpt.

Module SockCall.

Definition MAXFDS : nat := 256.
Definition MT_SONAME : Z := 8.
Definition SOCK_DGRAM : Z := 2.
Definition EINTR : Z := 4.
Definition ERESTART : Z := -1.
Definition EINPROGRESS : Z := 36.
Definition PRU_SOCKADDR : Z := 15.
Definition PRU_PEERADDR : Z := 16.

Definition SS_ASYNC : Z := 0x200.
Definition SB_ASYNC : Z := 0x10.
Definition ENOTTY : Z := 25.
Definition FIONREAD : Z := 0x4004667f.
Definition FIONBIO : Z := 0x8004667e.
Definition FIOASYNC : Z := 0x8004667d.
Definition SIOCSPGRP : Z := 0x80047308.
Definition SIOCGPGRP : Z := 0x40047309.
Definition SIOCATMARK : Z := 0x40047307.
Definition IOCPARM_MASK : Z := 0x1fff.
Definition IOCPARM_MAX : Z := 4096.
Definition IOC_OUT : Z := 0x40000000.

(** ** State *)

(** The table, whether it was never used, the sockets, and [anp_errno]. *)
Record kern := Kern { k_virgin : bool; k_fds : list Z; k_world : world; k_errno : Z }.

Definition set_fds (l : list Z) (k : kern) : kern := Kern (k_virgin k) l (k_world k) (k_errno k).
Definition set_errno (e : Z) (k : kern) : kern := Kern (k_virgin k) (k_fds k) (k_world k) e.

(** A step of the socket layer. *)
Definition inw {A} (m : M world A) : M kern A := λ k,
  match m (k_world k) with
  | Ok (a, w) => Ok (a, Kern (k_virgin k) (k_fds k) w (k_errno k)) | Panic => Panic | Crash => Crash
  end.

(** ** Descriptors (anp_fdtbl.c) *)

Definition fdtbl_init (k : kern) : kern := Kern false (replicate MAXFDS 0) (k_world k) (k_errno k).

(** The loop of [anp_fdalloc] from the entry [i] on: the first free entry. *)
Fixpoint first_free (l : list Z) (i : Z) : option Z :=
  match l with
  | [] => None
  | p :: l => if p =? 0 then Some i else first_free l (i + 1)
  end.

Definition anp_fdalloc (sock : Z) : M kern Z :=
  do! modify (λ k, if k_virgin k then fdtbl_init k else k) in
  let! k := get in
  match first_free (k_fds k) 0 with
  | Some i => do! modify (λ k, set_fds (<[Z.to_nat i := sock]> (k_fds k)) k) in ret i
  | None => ret (-1)
  end.

(** A failed [assert] stops the program; so may a negative descriptor, which nothing
    checks. *)
Definition anp_fdfind (fd : Z) : M kern Z :=
  if negb (fd <? Z.of_nat MAXFDS) then panic
  else
    let! k := get in
    let! p := lift (if fd <? 0 then None else k_fds k !! Z.to_nat fd) in
    if p =? 0 then panic else ret p.

Definition anp_fdfree (fd : Z) : M kern () :=
  let! k := get in
  let! p := lift (if fd <? 0 then None else k_fds k !! Z.to_nat fd) in
  if p =? 0 then panic else modify (λ k, set_fds (<[Z.to_nat fd := 0]> (k_fds k)) k).

(** ** The system calls (uipc_syscalls.c)

    The protocol answers a request with the mbuf that holds a name; [nameof] is its answer to
    [PRU_SOCKADDR] and [PRU_PEERADDR], which fills the mbuf.  [others] is what the other
    threads do while a call sleeps. *)

Section Calls.
Context (usrreq : option mbuf → protosw → Z → Z → M world Z) (nameof : Z → Z → mbuf → M world (Z * mbuf))
  (sb_max : Z) (malloc : gmap Z socket → option Z) (sb_lock : sockbuf → sockbuf * Z) (tsleep : chan → M world Z) (sleeps : nat)
  (domains : list domain) (drain : mstate → mstate) (junk : list Z) (junk_len : Z).
Context (word : list Z → Z) (unword : Z → list Z) (ctloutput : Z → Z → Z → Z → option mbuf → M world (Z * option mbuf)).
(** Commands for interfaces, routes and protocols: an error and the data. *)
Context (ioctl_rest : Z → Z → Z → M world (Z * Z)).
(** What the local variable [error] of [accept] holds before anything is stored in it. *)
Context (uninit : Z).

(** [anp_sys_suser] always says yes. *)
Definition socket (domain type protocol : Z) : M kern (Z * Z) :=
  let! r := inw (socreate (usrreq None) malloc sb_lock domains true domain type protocol) in
  let '(error, so) := r in
  if ztrue error then ret (error, 0) else let! fd := anp_fdalloc so in ret (0, fd).

(** [sockargs]: an error, or the mbuf with the caller's bytes; a name gets its length
    stored in its first byte ([sa_len]). *)
Definition sockargs (buf : list Z) (buflen type : Z) : M mstate (Z * option mbuf) :=
  if MLEN <? u32 buflen then ret (TcpConn.EINVAL, None)
  else
    let! m := m_get drain junk junk_len type in
    match m with
    | None => ret (ENOBUFS, None)
    | Some m =>
        let! b := lift (copyin buf buflen) in
        let! m := m_write (set_len m buflen) 0 b in
        let! m := (if type =? MT_SONAME then m_write m 0 [u8 buflen] else ret m) in
        ret (0, Some m)
    end.

Definition free_name (m : option mbuf) : M world () := match m with Some m => low (m_freem [m]) | None => ret () end.

Definition bind_call (s : Z) (name : list Z) (namelen : Z) : M kern (Z * Z) :=
  let! so := anp_fdfind s in
  let! r := inw (low (sockargs name namelen MT_SONAME)) in
  let '(error, nam) := r in
  if ztrue error then ret (error, 0)
  else
    let! error := inw (sobind (usrreq nam) so) in
    do! inw (free_name nam) in
    ret (error, 0).

Definition listen_call (s backlog : Z) : M kern (Z * Z) :=
  let! so := anp_fdfind s in
  let! error := inw (solisten (usrreq None) so backlog) in
  ret (error, 0).

(** [accept] with [soqremque] and [soaccept] in [Socket.accept]; a null [name] leaves
    [error] as it was. *)
Definition accept_call (s : Z) (name : bool) : M kern (Z * Z) :=
  let! so := anp_fdfind s in
  let! r := inw (Socket.accept (usrreq None) tsleep sleeps so) in
  let '(error, so) := r in
  if ztrue error then ret (error, 0)
  else let! fd := anp_fdalloc so in ret (if name then 0 else uninit, fd).

(** The sleep of [connect]: until the connection is made or fails. *)
Fixpoint connect_wait (n : nat) (so : Z) : M world Z :=
  let! connecting := testflag so_state so TcpConn.SS_ISCONNECTING in
  let! e := rd so_error so in
  if (connecting : bool) && (e =? 0) then
    match n with
    | O => crash
    | S n => let! error := tsleep (Timeo so) in if ztrue error then ret error else connect_wait n so
    end
  else ret 0.

(** [connect] from the socket on. *)
Definition connect_so (so : Z) (name : list Z) (namelen : Z) : M world Z :=
  let! nbio := testflag so_state so SS_NBIO in
  let! connecting := testflag so_state so TcpConn.SS_ISCONNECTING in
  if (nbio : bool) && connecting then ret EALREADY
  else
    let! r := low (sockargs name namelen MT_SONAME) in
    let '(error, nam) := r in
    if ztrue error then ret error
    else
      let bad error :=
        do! clrflag so_state so TcpConn.SS_ISCONNECTING in
        do! free_name nam in
        ret (if error =? ERESTART then EINTR else error) in
      let! error := soconnect (usrreq nam) so in
      if ztrue error then bad error
      else
        let! nbio := testflag so_state so SS_NBIO in
        let! connecting := testflag so_state so TcpConn.SS_ISCONNECTING in
        if (nbio : bool) && connecting then do! free_name nam in ret EINPROGRESS
        else
          let! error := connect_wait sleeps so in
          if ztrue error then bad error
          else
            let! error := rd so_error so in
            do! wr so_error so 0 in
            bad error.

Definition connect_call (s : Z) (name : list Z) (namelen : Z) : M kern (Z * Z) :=
  let! so := anp_fdfind s in
  let! error := inw (connect_so so name namelen) in
  ret (error, 0).

(** [socketpair]; the descriptors are the result. *)
Definition socketpair (domain type protocol : Z) : M kern (Z * (Z * Z)) :=
  let close_call so := inw (soclose (usrreq None) sb_lock tsleep sleeps so) in
  let create := inw (socreate (usrreq None) malloc sb_lock domains true domain type protocol) in
  let! r := create in
  let '(error, so1) := r in
  if ztrue error then ret (error, (0, 0))
  else
    let! r := create in
    let '(error, so2) := r in
    if ztrue error then do! close_call so1 in ret (error, (0, 0))
    else
      let! sv0 := anp_fdalloc so1 in
      let! sv1 := anp_fdalloc so2 in
      let! error := inw (soconnect2 (usrreq None) so1) in
      let! error := (if ztrue error then ret error
                     else if type =? SOCK_DGRAM then inw (soconnect2 (usrreq None) so2) else ret 0) in
      if ztrue error then do! close_call so2 in do! close_call so1 in ret (error, (0, 0))
      else ret (0, (sv0, sv1)).

Definition shutdown_call (s how : Z) : M kern (Z * Z) :=
  let! so := anp_fdfind s in
  let! error := inw (soshutdown (usrreq None) sb_lock so how) in
  ret (error, 0).

Definition setsockopt_call (s level name : Z) (val : option (list Z)) (valsize : Z) : M kern (Z * Z) :=
  let! so := anp_fdfind s in
  let! error := inw (setsockopt word drain junk junk_len sb_max ctloutput so level name val valsize) in
  ret (error, 0).

(** The bytes of the answer are the second result. *)
Definition getsockopt_call (s level name : Z) (valsize : option Z) : M kern (Z * list Z) :=
  let! so := anp_fdfind s in
  inw (getsockopt unword drain junk junk_len ctloutput so level name valsize).

(** [getsockname] and [getpeername]: the request and the length of the caller's buffer. *)
Definition getname (req so len : Z) : M world (Z * list Z) :=
  let! m := low (m_getclr drain junk junk_len MT_SONAME) in
  match m with
  | None => ret (ENOBUFS, [])
  | Some m =>
      let! r := nameof req so m in
      let '(error, m) := r in
      if ztrue error then do! low (m_freem [m]) in ret (error, [])
      else
        let! b := low (m_read m 0 (if m_len m <? len then m_len m else len)) in
        do! low (m_freem [m]) in
        ret (0, b)
  end.

Definition getsockname_call (fdes len : Z) : M kern (Z * list Z) :=
  let! so := anp_fdfind fdes in inw (getname PRU_SOCKADDR so len).
Definition getpeername_call (fdes len : Z) : M kern (Z * list Z) :=
  let! so := anp_fdfind fdes in
  let! named := inw (testflag so_state so (Z.lor TcpConn.SS_ISCONNECTED TcpConn.SS_ISCONFIRMING)) in
  if negb named then ret (ENOTCONN, []) else inw (getname PRU_PEERADDR so len).

(** ** ioctl (sys_socket.c) *)

(** [soo_ioctl] on commands with an [int]: an error and the new value. *)
Definition soo_ioctl (so cmd data : Z) : M world (Z * Z) :=
  if cmd =? FIONBIO then
    do! (if ztrue data then orflag so_state so SS_NBIO else clrflag so_state so SS_NBIO) in ret (0, data)
  else if cmd =? FIOASYNC then
    let flag f := if ztrue data then Z.lor f SB_ASYNC else Z.land f (Z.lnot SB_ASYNC) in
    do! (if ztrue data then orflag so_state so SS_ASYNC else clrflag so_state so SS_ASYNC) in
    do! mod_so so (λ s, set_rcv (with_flags (flag (sb_flags (so_rcv s))) (so_rcv s)) s) in
    do! mod_so so (λ s, set_snd (with_flags (flag (sb_flags (so_snd s))) (so_snd s)) s) in
    ret (0, data)
  else if cmd =? FIONREAD then let! s := deref so in ret (0, s32 (sb_cc (so_rcv s)))
  else if cmd =? SIOCSPGRP then do! wr so_pgid so data in ret (0, data)
  else if cmd =? SIOCGPGRP then let! v := rd so_pgid so in ret (0, v)
  else if cmd =? SIOCATMARK then
    let! b := testflag so_state so TcpConn.SS_RCVATMARK in ret (0, if b : bool then 1 else 0)
  else ioctl_rest so cmd data.

(** [anp_ioctl] on such a command; the caller gets the value back from a command that
    reads. *)
Definition ioctl_call (fd com data : Z) : M kern (Z * Z) :=
  let! so := anp_fdfind fd in
  if IOCPARM_MAX <? Z.land (Z.shiftr com 16) IOCPARM_MASK then ret (ENOTTY, data)
  else
    let! r := inw (soo_ioctl so com data) in
    let '(error, value) := r in
    ret (error, if (error =? 0) && ztrue (Z.land com IOC_OUT) then value else data).

(** ** The wrappers of anp_syscall.c *)

(** An error goes to [anp_errno], and the call returns -1. *)
Definition wrapped (m : M kern (Z * Z)) : M kern Z :=
  let! r := m in
  do! modify (set_errno r.1) in
  ret (if ztrue r.1 then -1 else r.2).

Definition anp_close (fd : Z) : M kern Z :=
  let! so := anp_fdfind fd in
  do! inw (soclose (usrreq None) sb_lock tsleep sleeps so) in
  do! anp_fdfree fd in
  ret 0.

(** The system calls of a program. *)
Inductive syscall :=
  | Sys_socket (domain type protocol : Z) | Sys_bind (s : Z) (name : list Z) (namelen : Z) | Sys_listen (s backlog : Z)
  | Sys_accept (s : Z) (name : bool) | Sys_connect (s : Z) (name : list Z) (namelen : Z) | Sys_shutdown (s how : Z)
  | Sys_setsockopt (s level name : Z) (val : option (list Z)) (valsize : Z) | Sys_close (s : Z)
  | Sys_ioctl (s com data : Z) | Sys_getsockopt (s level name : Z) (valsize : option Z)
  | Sys_getsockname (s len : Z) | Sys_getpeername (s len : Z) | Sys_socketpair (domain type protocol : Z).

Definition run_syscall (c : syscall) : M kern Z :=
  match c with
  | Sys_socket d t p => wrapped (socket d t p)
  | Sys_bind s n l => wrapped (bind_call s n l)
  | Sys_listen s b => wrapped (listen_call s b)
  | Sys_accept s n => wrapped (accept_call s n)
  | Sys_connect s n l => wrapped (connect_call s n l)
  | Sys_shutdown s h => wrapped (shutdown_call s h)
  | Sys_setsockopt s l n v z => wrapped (setsockopt_call s l n v z)
  | Sys_close s => anp_close s
  | Sys_ioctl s c d => wrapped (let! r := ioctl_call s c d in ret (r.1, 0))
  | Sys_getsockopt s l n v => wrapped (let! r := getsockopt_call s l n v in ret (r.1, 0))
  | Sys_getsockname s len => wrapped (let! r := getsockname_call s len in ret (r.1, 0))
  | Sys_getpeername s len => wrapped (let! r := getpeername_call s len in ret (r.1, 0))
  | Sys_socketpair d t p => wrapped (let! r := socketpair d t p in ret (r.1, r.2.1))
  end.

Fixpoint run_syscalls (cs : list syscall) : M kern (list Z) :=
  match cs with
  | [] => ret []
  | c :: cs => let! r := run_syscall c in let! rs := run_syscalls cs in ret (r :: rs)
  end.

End Calls.

(** ** Sockets with a descriptor

    A socket is open if it exists and its bit [SS_NOFDREF] is clear.  [spares P m]: the
    open sockets in [P] are open after [m]. *)

Definition is_open (w : world) (p : Z) : Prop := nofd (socks w) p = Some 0.
Definition spares (P : Z → Prop) {A} (m : M world A) : Prop :=
  ∀ w, wlp m w (λ _ w', ∀ p, P p → is_open w p → is_open w' p).

Section Keeps.
Context (P : Z → Prop).

Lemma spares_bind {A B} (m : M world A) (f : A → M world B) : spares P m → (∀ a, spares P (f a)) → spares P (bind m f).
Proof.
  intros Hm Hf w. apply wlp_bind. eapply wlp_mono; [apply Hm|]. intros a w1 H1.
  eapply wlp_mono; [apply Hf|]. intros b w2 H2 p HP Hp. auto.
Qed.

Lemma spares_ret {A} (a : A) : spares P (ret a).
Proof. intros w. by apply wlp_ret. Qed.
Lemma spares_crash {A} : spares P (@crash world A).
Proof. intros w. apply wlp_crash. Qed.
Lemma spares_panic {A} : spares P (@panic world A).
Proof. by intros w. Qed.
Lemma spares_get : spares P (@get world).
Proof. intros w. by apply wlp_get. Qed.
Lemma spares_lift {A} (o : option A) : spares P (lift o).
Proof. intros w. by apply wlp_lift. Qed.
Lemma spares_low {A} (m : M mstate A) : spares P (low m).
Proof. intros w. unfold wlp, low. destruct (m (ms w)) as [[a s]| |]; [|done..]. intros p _ H. exact H. Qed.
Lemma spares_wakeup c : spares P (wakeup c).
Proof. intros w. apply wlp_modify. intros p _ H. exact H. Qed.
Lemma spares_deref p : spares P (deref p).
Proof. intros w. unfold wlp, deref. by destruct (socks w !! p). Qed.

(** A change of a socket that leaves the bit alone. *)
Lemma spares_mod_so x g : (∀ so, Z.land (fld (g so) so_state) 1 = Z.land (fld so so_state) 1) → spares P (mod_so x g).
Proof.
  intros Hg w. unfold wlp, mod_so. destruct (socks w !! x) as [so|] eqn:E; [|done]. intros p _ Hp.
  unfold is_open, nofd, rdf in *. cbn. destruct (decide (p = x)) as [-> | Hne].
  - rewrite lookup_alter_eq, E in *. cbn in *. change TcpConn.SS_NOFDREF with 1 in *. by rewrite Hg.
  - by rewrite lookup_alter_ne.
Qed.

Lemma spares_rd f p : spares P (rd f p).
Proof. apply spares_bind; [apply spares_deref|]. intros a. apply spares_ret. Qed.

Lemma spares_wr f p v : f ≠ so_state → spares P (wr f p v).
Proof. intros Hf. apply spares_mod_so. intros so. cbn. by rewrite decide_False by congruence. Qed.

Lemma spares_testflag f p b : spares P (testflag f p b).
Proof. apply spares_bind; [apply spares_rd|]. intros a. apply spares_ret. Qed.

Lemma spares_update x f (g : Z → Z) :
  (f = so_state → ∀ v, Z.land v 1 = 0 → Z.land (g v) 1 = 0) → spares P (let! v := rd f x in wr f x (g v)).
Proof.
  intros Hg w. unfold wlp, bind, rd, deref, wr, mod_so, bind, ret.
  destruct (socks w !! x) as [so|] eqn:E; cbv beta iota; [|exact I]. rewrite E. intros p _ Hp.
  unfold is_open, nofd, rdf in *. cbn. destruct (decide (p = x)) as [-> | Hne].
  - rewrite lookup_alter_eq, E in *. cbn in *. change TcpConn.SS_NOFDREF with 1 in *. injection Hp as Hp.
    destruct (decide (so_state = f)) as [<-|]; [|by rewrite Hp]. cbn [convert]. by rewrite land_s16_1, Hg.
  - by rewrite lookup_alter_ne.
Qed.

Lemma spares_orflag f p b : (f = so_state → Z.land b 1 = 0) → spares P (orflag f p b).
Proof. intros Hb. apply spares_update. intros Hf v Hv. by rewrite Z.land_lor_distr_l, Hv, Hb. Qed.

Lemma spares_clrflag f p b : spares P (clrflag f p b).
Proof.
  apply spares_update. intros _ v Hv. by rewrite <- Z.land_assoc, (Z.land_comm (Z.lnot b)), Z.land_assoc, Hv.
Qed.

End Keeps.

(** A step for each operation of the monad; what remains are the fields written. *)
Ltac spare := first
  [ apply spares_ret | apply spares_crash | apply spares_panic | apply spares_get | apply spares_lift | apply spares_low
  | apply spares_wakeup | apply spares_deref | apply spares_rd | apply spares_wr; discriminate | apply spares_testflag
  | apply spares_orflag; done | apply spares_clrflag | apply spares_mod_so; done
  | eassumption | by eauto with spares | apply spares_bind; [|intros ?] | progress cbv beta zeta | case_match ].
Ltac spares := repeat spare.
Create HintDb spares.

Lemma spares_sorwakeup P p : spares P (sorwakeup p).
Proof. unfold sorwakeup. spares. Qed.
Lemma spares_sowwakeup P p : spares P (sowwakeup p).
Proof. unfold sowwakeup. spares. Qed.
#[export] Hint Resolve spares_sorwakeup spares_sowwakeup : spares.

Lemma spares_last_link P n q x : spares P (last_link n q x).
Proof. revert x. induction n as [|n IH]; intros x; cbn [last_link]; spares. Qed.
Lemma spares_find_prev P n q so x : spares P (find_prev n q so x).
Proof. revert x. induction n as [|n IH]; intros x; cbn [find_prev]; spares. Qed.
#[export] Hint Resolve spares_last_link spares_find_prev : spares.

Lemma link_not_state q : link q ≠ so_state ∧ qcount q ≠ so_state.
Proof. unfold link, qcount. by destruct (q =? 0). Qed.

Lemma spares_soqremque P so q : spares P (soqremque so q).
Proof. destruct (link_not_state q). unfold soqremque. spares; by apply spares_wr. Qed.
Lemma spares_socantrcvmore P so : spares P (socantrcvmore so).
Proof. unfold socantrcvmore. spares. Qed.
#[export] Hint Resolve spares_soqremque spares_socantrcvmore : spares.

Lemma spares_sorflush P sb_lock so : spares P (sorflush sb_lock so).
Proof. unfold sorflush. spares. Qed.
#[export] Hint Resolve spares_sorflush : spares.

Lemma spares_FREE x : spares (.≠ x) (FREE x).
Proof.
  intros w. apply wlp_modify. intros p Hp Ho. unfold is_open, nofd, rdf in *. cbn. by rewrite lookup_delete_ne.
Qed.
#[export] Hint Resolve spares_FREE : spares.

Lemma spares_weaken (P Q : Z → Prop) {A} (m : M world A) : (∀ p, Q p → P p) → spares P m → spares Q m.
Proof. intros H Hm w. eapply wlp_mono; [apply Hm|]. eauto. Qed.

Lemma spares_release sb_lock so : spares (.≠ so) (release sb_lock so).
Proof. unfold release. spares. Qed.
#[export] Hint Resolve spares_release : spares.

(** [sofree] only frees sockets without a descriptor. *)
Lemma spares_sofree P sb_lock so : spares P (sofree sb_lock so).
Proof.
  intros w. unfold sofree. apply wlp_bind. unfold wlp at 1, rd at 1, bind at 1, deref at 1.
  destruct (socks w !! so) as [s|] eqn:E; [|done]. cbn.
  apply wlp_bind. unfold testflag, wlp at 1, rd at 1, bind at 1, bind at 1, deref at 1. rewrite E. cbn.
  destruct (ztrue (fld s so_pcb)); [by apply wlp_ret|]. cbn [orb].
  destruct (ztrue (Z.land (fld s so_state) TcpConn.SS_NOFDREF)) eqn:En; [|by apply wlp_ret]. cbn [negb].
  assert (Hk : spares (.≠ so) (let! head := rd so_head so in
    do! (if ztrue head then
           let! r := soqremque so 0 in
           let! r := (if ztrue r then ret r else soqremque so 1) in
           if ztrue r then wr so_head so 0 else panic
         else ret ()) in
    release sb_lock so)).
  { spares. }
  eapply wlp_mono; [apply Hk|]. intros [] w' H p _ Hp. apply H; [|done]. intros ->.
  unfold is_open, nofd, rdf in Hp. rewrite E in Hp. cbn in Hp. injection Hp as Hp. rewrite Hp in En. done.
Qed.
#[export] Hint Resolve spares_sofree : spares.

(** ** The operations of the socket layer *)

(** What a protocol promises, and the other threads during a sleep: a socket with a
    descriptor stays. *)
Class SparesOpen (usrreq : option mbuf → protosw → Z → Z → M world Z) : Prop :=
  usrreq_spares : ∀ P nam pr req so, spares P (usrreq nam pr req so).

(** Setting [SS_NOFDREF] closes one socket. *)
Lemma spares_close_bit x b : spares (.≠ x) (orflag so_state x b).
Proof.
  intros w. unfold wlp, orflag, bind, rd, bind, deref, wr, mod_so, ret.
  destruct (socks w !! x) as [so|] eqn:E; cbv beta iota; [|exact I]. rewrite E. intros p Hp Ho.
  unfold is_open, nofd, rdf in *. cbn. by rewrite lookup_alter_ne.
Qed.

#[export] Hint Resolve spares_close_bit : spares.

Section Descriptors.
Context (usrreq : option mbuf → protosw → Z → Z → M world Z) `{!SparesOpen usrreq} (nameof : Z → Z → mbuf → M world (Z * mbuf))
  (sb_max : Z) (malloc : gmap Z Socket.socket → option Z) (sb_lock : sockbuf → sockbuf * Z) (tsleep : chan → M world Z) (sleeps : nat)
  (domains : list domain) (drain : mstate → mstate) (junk : list Z) (junk_len : Z)
  (word : list Z → Z) (unword : Z → list Z) (ctloutput : Z → Z → Z → Z → option mbuf → M world (Z * option mbuf)) (ioctl_rest : Z → Z → Z → M world (Z * Z)) (uninit : Z).
Context (malloc_fresh : malloc_ok malloc) (sleep_spares : ∀ P c, spares P (tsleep c))
  (ctl_spares : ∀ P op so level name m, spares P (ctloutput op so level name m))
  (ioctl_spares : ∀ P so cmd data, spares P (ioctl_rest so cmd data)) (name_spares : ∀ P req so m, spares P (nameof req so m)).

Hint Resolve usrreq_spares sleep_spares ctl_spares ioctl_spares name_spares : spares.

Lemma spares_request P nam req so : spares P (request (usrreq nam) req so).
Proof using SparesOpen0. unfold request. spares. Qed.
Hint Resolve spares_request : spares.

Lemma spares_sobind P nam so : spares P (sobind (usrreq nam) so).
Proof using SparesOpen0. apply spares_request. Qed.
Lemma spares_solisten P so backlog : spares P (solisten (usrreq None) so backlog).
Proof using SparesOpen0. unfold solisten. spares. Qed.
Lemma spares_sodisconnect P nam so : spares P (sodisconnect (usrreq nam) so).
Proof using SparesOpen0. unfold sodisconnect. spares. Qed.
Hint Resolve spares_sobind spares_solisten spares_sodisconnect : spares.

Lemma spares_soconnect P nam so : spares P (soconnect (usrreq nam) so).
Proof using SparesOpen0. unfold soconnect. spares. Qed.
Lemma spares_soshutdown P so how : spares P (soshutdown (usrreq None) sb_lock so how).
Proof using SparesOpen0. unfold soshutdown. spares. Qed.
Lemma spares_abort_queue P n so q : spares P (abort_queue (usrreq None) n so q).
Proof using SparesOpen0. induction n as [|n IH]; cbn [abort_queue]; unfold soabort; spares. Qed.
Lemma spares_linger_loop P n so : spares P (linger_loop tsleep n so).
Proof using sleep_spares. induction n as [|n IH]; cbn [linger_loop]; spares. Qed.
Lemma spares_accept_wait P n so : spares P (accept_wait tsleep n so).
Proof using sleep_spares. induction n as [|n IH]; cbn [accept_wait]; spares. Qed.
Lemma spares_connect_wait P n so : spares P (connect_wait tsleep n so).
Proof using sleep_spares. induction n as [|n IH]; cbn [connect_wait]; spares. Qed.
Hint Resolve spares_soconnect spares_soshutdown spares_abort_queue spares_linger_loop spares_accept_wait spares_connect_wait : spares.

Lemma spares_close_disconnect P so : spares P (close_disconnect (usrreq None) tsleep sleeps so).
Proof using SparesOpen0 sleep_spares. unfold close_disconnect. spares. Qed.
Hint Resolve spares_close_disconnect : spares.

(** Closing a socket spares the others. *)
Lemma spares_soclose so : spares (.≠ so) (soclose (usrreq None) sb_lock tsleep sleeps so).
Proof using SparesOpen0 sleep_spares. unfold soclose. spares. Qed.

Lemma spares_free_name P m : spares P (free_name m).
Proof. unfold free_name. spares. Qed.
Hint Resolve spares_free_name : spares.

Lemma spares_connect_so P so name namelen : spares P (connect_so usrreq tsleep sleeps drain junk junk_len so name namelen).
Proof using SparesOpen0 sleep_spares. unfold connect_so. spares. Qed.

Lemma set_option_state name v s : fld (set_option sb_max name v s).1 so_state = fld s so_state.
Proof.
  unfold set_option, set_flag. destruct v as [[len int]|]; repeat (case_match; try done); cbn; by rewrite ?decide_False.
Qed.

Lemma spares_sosetopt P so level name m : spares P (sosetopt word sb_max ctloutput so level name m).
Proof using ctl_spares.
  intros w. unfold sosetopt. apply wlp_bind. unfold wlp at 1, deref. destruct (socks w !! so) as [s|] eqn:E; [|done].
  destruct (negb _).
  { assert (H : spares P (if pr_ctloutput (so_proto s) then let! r := ctloutput PRCO_SETOPT so level name m in ret r.1
      else do! free_value m in ret ENOPROTOOPT)) by (unfold free_value; spares). apply H. }
  apply wlp_bind, wlp_get. pose proof (set_option_state name (value_of word (ms w) m) s) as Hst.
  destruct (set_option _ _ _ _) as [s' e]. cbn [fst] in Hst.
  assert (Hk : spares P (if (e =? 0) && pr_ctloutput (so_proto s) then do! ctloutput PRCO_SETOPT so level name m in ret 0
    else do! free_value m in ret e)) by (unfold free_value; spares).
  apply wlp_bind. unfold wlp at 1, mod_so. rewrite E. eapply wlp_mono; [apply Hk|]. intros a w' H p HP Ho. apply H; [done|].
  unfold is_open, nofd, rdf in *. cbn. destruct (decide (p = so)) as [-> | Hne]; [|by rewrite lookup_alter_ne].
  rewrite lookup_alter_eq, E in *. cbn in *. by rewrite Hst.
Qed.
Hint Resolve spares_sosetopt : spares.

Lemma spares_setsockopt P so level name v n :
  spares P (setsockopt word drain junk junk_len sb_max ctloutput so level name v n).
Proof using ctl_spares. unfold setsockopt. spares. Qed.

Lemma spares_soo_ioctl P so cmd data : spares P (soo_ioctl ioctl_rest so cmd data).
Proof using ioctl_spares. unfold soo_ioctl. spares. Qed.

Lemma get_option_state name s ints s' : get_option name s = Some (ints, s') → fld s' so_state = fld s so_state.
Proof.
  unfold get_option. repeat (case_match; try done); intros [= _ <-]; cbn; by rewrite ?decide_False.
Qed.

Lemma spares_sogetopt P so level name : spares P (sogetopt unword drain junk junk_len ctloutput so level name).
Proof using ctl_spares.
  intros w. unfold sogetopt. apply wlp_bind. unfold wlp at 1, deref. destruct (socks w !! so) as [s|] eqn:E; [|done].
  destruct (negb _).
  { assert (H : spares P (if pr_ctloutput (so_proto s) then ctloutput PRCO_GETOPT so level name None else ret (ENOPROTOOPT, None))) by spares.
    apply H. }
  apply wlp_bind. unfold wlp at 1, low. destruct (m_get _ _ _ _ (ms w)) as [[m s1]| |]; [|done..].
  apply wlp_bind, wlp_lift. intros m0 _. destruct (get_option name s) as [[ints s']|] eqn:Eo.
  2: { assert (H : spares P (do! low (MFREE m0) in ret (ENOPROTOOPT, None : option mbuf))) by spares. exact (H (World (socks w) s1 (wakeups w))). }
  apply get_option_state in Eo.
  assert (Hk : spares P (let! m := low (m_write (set_len m0 (Z.of_nat (length (concat (unword <$> ints))))) 0 (concat (unword <$> ints))) in
    ret (0, Some m))) by spares.
  cbv zeta. apply wlp_bind. unfold wlp at 1, mod_so. cbn [socks]. rewrite E. eapply wlp_mono; [apply Hk|]. intros r w' H p HP Ho.
  apply H; [done|]. unfold is_open, nofd, rdf in *. cbn. destruct (decide (p = so)) as [-> | Hne]; [|by rewrite lookup_alter_ne].
  rewrite lookup_alter_eq, E in *. cbn in *. by rewrite Eo.
Qed.
Hint Resolve spares_sogetopt : spares.

Lemma spares_getsockopt P so level name v : spares P (getsockopt unword drain junk junk_len ctloutput so level name v).
Proof using ctl_spares. unfold getsockopt. spares. Qed.

Lemma spares_getname P req so len : spares P (getname nameof drain junk junk_len req so len).
Proof using name_spares. unfold getname. spares. Qed.

(** A new socket is open and was not before. *)
Definition new_socket (w : world) (r : Z * Z) (w' : world) : Prop :=
  (∀ p, is_open w p → is_open w' p) ∧ (r.1 = 0 → is_open w' r.2 ∧ ¬ is_open w r.2).

Lemma is_open_exists w p : is_open w p → is_Some (socks w !! p).
Proof. unfold is_open, nofd, rdf. destruct (socks w !! p); [by eexists|done]. Qed.

Lemma socreate_open dom type proto w :
  wlp (socreate (usrreq None) malloc sb_lock domains true dom type proto) w (new_socket w).
Proof using SparesOpen0 malloc_fresh.
  assert (Herr : ∀ e so w1, e ≠ 0 → (∀ p, is_open w p → is_open w1 p) → new_socket w (e, so) w1) by (intros; by split).
  unfold socreate. destruct (if ztrue proto then _ else _) as [prp|]; [|by apply wlp_ret, Herr].
  destruct (negb (pr_usrreq prp)); [by apply wlp_ret, Herr|]. destruct (negb (_ =? type)); [by apply wlp_ret, Herr|].
  apply wlp_bind, wlp_get, wlp_bind, wlp_lift. intros so Hso. destruct (malloc_fresh _ _ Hso) as [Hnew _].
  apply wlp_bind, wlp_modify. set (s := set_fld so_state SS_PRIV _). set (w1 := set_socks _ w).
  assert (H1 : ∀ p, is_open w p → p ≠ so ∧ is_open w1 p).
  { intros p Hp. assert (Hne : p ≠ so) by (intros ->; apply is_open_exists in Hp as [? Hp]; by rewrite Hnew in Hp). split; [done|].
    unfold is_open, nofd, rdf in *. cbn. by rewrite lookup_insert_ne. }
  assert (Hs : is_open w1 so) by (unfold is_open, nofd, rdf; cbn; by rewrite lookup_insert_eq).
  apply wlp_bind. eapply wlp_mono; [apply (usrreq_spares (λ _, True))|]. intros e w2 H2.
  destruct (ztrue e) eqn:Ee.
  - assert (Hk : spares (.≠ so) (do! orflag so_state so TcpConn.SS_NOFDREF in do! sofree sb_lock so in ret (e, 0))) by spares.
    assert (Hpost : wlp (do! orflag so_state so TcpConn.SS_NOFDREF in do! sofree sb_lock so in ret (e, 0)) w2 (λ r _, r = (e, 0)))
      by (apply wlp_skip; intros; apply wlp_skip; intros; by apply wlp_ret).
    unfold wlp in *. specialize (Hk w2). unfold wlp in Hk. destruct ((do! orflag _ _ _ in _) w2) as [[r w3]| |]; [|done..].
    subst r. apply Herr; [intros ->; done|]. intros p Hp. destruct (H1 p Hp) as [Hne Hp1]. by apply Hk, H2.
  - apply wlp_ret. split; [|intros _; split; [by apply H2|]].
    + intros p Hp. by apply H2, H1.
    + intros Hp. by apply H1 in Hp as [? _].
Qed.

(** [accept] returns a socket that had no descriptor. *)
Lemma accept_open so w : wlp (Socket.accept (usrreq None) tsleep sleeps so) w (new_socket w).
Proof using SparesOpen0 sleep_spares.
  assert (Hmono : ∀ {A} (m : M world A) (f : A → M world (Z * Z)) w1, spares (λ _, True) m →
    (∀ p, is_open w p → is_open w1 p) → (∀ a w2, (∀ p, is_open w p → is_open w2 p) → wlp (f a) w2 (new_socket w)) →
    wlp (bind m f) w1 (new_socket w)).
  { intros A m f w1 Hm H1 Hf. apply wlp_bind. eapply wlp_mono; [apply Hm|]. intros a w2 H2. apply Hf. auto. }
  assert (Herr : ∀ e w1, ztrue e = true → (∀ p, is_open w p → is_open w1 p) → wlp (ret (e, 0)) w1 (new_socket w)).
  { intros e w1 He H1. apply wlp_ret. split; [done|]. intros Hz. cbn in Hz. by subst e. }
  unfold Socket.accept. apply Hmono; [spares|done|]. intros acc w1 H1. destruct (negb acc); [by apply Herr|].
  apply Hmono; [spares|done|]. intros nbio w2 H2. apply Hmono; [spares|done|]. intros qlen w3 H3.
  destruct (_ && _); [by apply Herr|]. apply Hmono; [spares|done|]. intros e w4 H4.
  destruct (ztrue e) eqn:Ee; [by apply Herr|]. apply Hmono; [spares|done|]. intros e2 w5 H5.
  destruct (ztrue e2) eqn:Ee2; [apply Hmono; [spares|done|]; intros ? w6 H6; by apply Herr|].
  apply Hmono; [spares|done|]. intros aso w6 H6. apply Hmono; [spares|done|]. intros r w7 H7. destruct (r =? 0); [done|].
  unfold soaccept. apply wlp_bind. apply wlp_bind. unfold testflag, wlp at 1, rd, bind, deref, ret.
  destruct (socks w7 !! aso) as [s|] eqn:E; [|exact I]. cbv beta iota.
  destruct (ztrue (Z.land (fld s so_state) TcpConn.SS_NOFDREF)) eqn:En; cbn [negb]; [|exact I].
  assert (Hnot : ¬ is_open w aso).
  { intros Ho. apply H7 in Ho. unfold is_open, nofd, rdf in Ho. rewrite E in Ho. cbn in Ho. injection Ho as Ho. by rewrite Ho in En. }
  change (wlp (do! clrflag so_state aso TcpConn.SS_NOFDREF in request (usrreq None) PRU_ACCEPT aso) w7
    (λ _ w', wlp (ret (0, aso)) w' (new_socket w))).
  apply wlp_bind. unfold clrflag, wlp at 1, rd, bind, deref, wr, mod_so, ret. rewrite E. cbv beta iota. rewrite E.
  set (w8 := set_socks _ w7).
  assert (H8 : is_open w8 aso ∧ ∀ p, is_open w p → is_open w8 p).
  { split.
    - unfold is_open, nofd, rdf. cbn. rewrite lookup_alter_eq, E. cbn [fmap option_fmap option_map set_fld fld].
      rewrite decide_True by done. cbn [convert]. change TcpConn.SS_NOFDREF with 1. by rewrite land_s16_1, land_clear_same.
    - intros p Hp. assert (Hne : p ≠ aso) by (intros Heq; apply Hnot; by rewrite <- Heq). apply H7 in Hp. unfold is_open, nofd, rdf in *. cbn. by rewrite lookup_alter_ne. }
  eapply wlp_mono; [apply (spares_request (λ _, True))|]. intros ? w9 H9. apply wlp_ret. split; [|intros _; split; [|exact Hnot]].
  - intros p Hp. apply H9; [done|]. by apply H8.
  - apply H9; [done|]. exact (proj1 H8).
Qed.

(** ** The table of descriptors *)

(** The table has its size, every entry in use is a socket with a descriptor, and no
    two entries are the same socket. *)
Record table_ok (l : list Z) (w : world) : Prop := TableOk
  { fo_len : length l = MAXFDS;
    fo_open : ∀ i p, l !! i = Some p → p ≠ 0 → is_open w p;
    fo_inj : ∀ i j p, l !! i = Some p → l !! j = Some p → p ≠ 0 → i = j }.

Definition fds_ok (k : kern) : Prop := table_ok (k_fds k) (k_world k).

(** A step of the socket layer that spares the sockets of the table. *)
Lemma fds_ok_world w k :
  fds_ok k → (∀ p, is_open (k_world k) p → is_open w p) → fds_ok (Kern (k_virgin k) (k_fds k) w (k_errno k)).
Proof. intros [H1 H2 H3] Hw. constructor; [done|cbn; eauto|done]. Qed.

Lemma wlp_inw {A} (m : M world A) k (Q : A → kern → Prop) :
  wlp m (k_world k) (λ a w, Q a (Kern (k_virgin k) (k_fds k) w (k_errno k))) → wlp (inw m) k Q.
Proof. unfold wlp, inw. by destruct (m (k_world k)) as [[a w]| |]. Qed.

Definition whole : Z → Prop := λ _, True.

Lemma wlp_inw_spares {A} (m : M world A) k (Q : A → kern → Prop) :
  fds_ok k → spares whole m → (∀ a k', fds_ok k' → Q a k') → wlp (inw m) k Q.
Proof.
  intros Hk Hm HQ. apply wlp_inw. eapply wlp_mono; [apply Hm|]. intros a w Hw. apply HQ, fds_ok_world; [done|]. intros p. by apply Hw.
Qed.

Lemma wlp_fdfind fd k (Q : Z → kern → Prop) :
  (∀ p, k_fds k !! Z.to_nat fd = Some p → 0 <= fd → p ≠ 0 → Q p k) → wlp (anp_fdfind fd) k Q.
Proof.
  intros HQ. unfold anp_fdfind. destruct (negb _); [done|]. apply wlp_bind, wlp_get, wlp_bind, wlp_lift. intros p Hp.
  destruct (Z.ltb_spec fd 0); [done|]. destruct (Z.eqb_spec p 0); [done|]. apply wlp_ret. by apply HQ.
Qed.

Lemma first_free_Some l i n :
  first_free l i = Some n → i <= n ∧ l !! Z.to_nat (n - i) = Some 0 ∧ ∀ j p, (j < Z.to_nat (n - i))%nat → l !! j = Some p → p ≠ 0.
Proof.
  revert i. induction l as [|q l IH]; intros i H; [done|]. cbn in H. destruct (Z.eqb_spec q 0) as [->|Hq].
  - injection H as <-. rewrite Z.sub_diag. split_and!; [lia|done|]. intros j p Hj. cbn in Hj. lia.
  - apply IH in H as (H1 & H2 & H3). split; [lia|].
    replace (Z.to_nat (n - i)) with (S (Z.to_nat (n - (i + 1)))) by lia. split; [done|].
    intros [|j] p Hj Hl; cbn in Hl; [by injection Hl as <-|]. apply (H3 j); [lia|done].
Qed.

Lemma first_free_None l i : first_free l i = None → ∀ j p, l !! j = Some p → p ≠ 0.
Proof.
  revert i. induction l as [|q l IH]; intros i H; [done|]. cbn in H. destruct (Z.eqb_spec q 0); [done|].
  intros [|j] p Hl; cbn in Hl; [by injection Hl as <-|]. by apply (IH _ H j).
Qed.

(** A table that was used. *)
Definition in_use (k : kern) : list Z := if k_virgin k then replicate MAXFDS 0 else k_fds k.

Lemma anp_fdalloc_spec sock k :
  wp (anp_fdalloc sock) k (λ fd k', k_world k' = k_world k ∧ k_virgin k' = false ∧
    match first_free (in_use k) 0 with
    | Some i => fd = i ∧ k_fds k' = <[Z.to_nat i := sock]> (in_use k)
    | None => fd = -1 ∧ k_fds k' = in_use k
    end).
Proof.
  unfold anp_fdalloc, in_use. wp_step. apply wp_modify. wp_step. apply wp_get.
  destruct (k_virgin k) eqn:Ev; cbn [fdtbl_init k_fds]; destruct (first_free _ 0);
    [wp_step; apply wp_modify|..|wp_step; apply wp_modify|]; by apply wp_ret.
Qed.

Lemma in_use_ok k w : table_ok (k_fds k) w → table_ok (in_use k) w ∧ ∀ i p, in_use k !! i = Some p → p = 0 ∨ k_fds k !! i = Some p.
Proof.
  intros Hk. unfold in_use. destruct (k_virgin k); [|by split; [|right]].
  assert (Hz : ∀ (i : nat) p, replicate MAXFDS 0 !! i = Some p → p = 0) by (intros i p Hp; by apply lookup_replicate in Hp as [? _]).
  split; [|intros i p Hp; left; by eapply Hz].
  constructor; [apply length_replicate|intros i p Hp; by apply Hz in Hp|intros i j p Hp; by apply Hz in Hp].
Qed.

Lemma table_ok_insert l w n sock :
  table_ok l w → l !! n = Some 0 → (sock ≠ 0 → is_open w sock ∧ ∀ i, l !! i ≠ Some sock) → table_ok (<[n := sock]> l) w.
Proof.
  intros [U1 U2 U3] Hl Hs. assert (Hlen : (n < length l)%nat) by by eapply lookup_lt_Some.
  constructor.
  - by rewrite length_insert.
  - intros i p Hp Hp0. destruct (decide (i = n)) as [-> | Hi].
    + rewrite list_lookup_insert_eq in Hp by done. injection Hp as <-. by apply Hs.
    + rewrite list_lookup_insert_ne in Hp by done. by eapply U2.
  - intros i j p Hp Hq Hp0. destruct (decide (i = n)) as [-> | Hi], (decide (j = n)) as [-> | Hj]; [done|..].
    + rewrite list_lookup_insert_eq in Hp by done. injection Hp as <-. rewrite list_lookup_insert_ne in Hq by done.
      by apply (proj2 (Hs Hp0)) in Hq.
    + rewrite list_lookup_insert_eq in Hq by done. injection Hq as <-. rewrite list_lookup_insert_ne in Hp by done.
      by apply (proj2 (Hs Hp0)) in Hp.
    + rewrite list_lookup_insert_ne in Hp, Hq by done. by eapply U3.
Qed.

(** The table with a descriptor for a socket that is open in the world [w]. *)
Lemma table_ok_alloc sock k w :
  table_ok (k_fds k) w → is_open w sock → (sock ≠ 0 → ∀ i, k_fds k !! i ≠ Some sock) →
  wlp (anp_fdalloc sock) k (λ _ k', k_world k' = k_world k ∧ table_ok (k_fds k') w).
Proof.
  intros Hk Ho Hn. eapply wlp_mono; [apply SockIo.wlp_of_wp, anp_fdalloc_spec|]. intros fd k' (Ew & _ & Hf). split; [done|].
  destruct (in_use_ok k w Hk) as [Hu Hin].
  destruct (first_free (in_use k) 0) as [n|] eqn:En; destruct Hf as [_ ->]; [|done].
  apply first_free_Some in En as (_ & Hl & _). rewrite Z.sub_0_r in Hl. apply table_ok_insert; [done|done|].
  intros Hs. split; [done|]. intros i Hi. apply Hin in Hi as [?|Hi]; [done|]. by apply (Hn Hs) in Hi.
Qed.

Lemma fds_ok_alloc sock k :
  fds_ok k → is_open (k_world k) sock → (sock ≠ 0 → ∀ i, k_fds k !! i ≠ Some sock) → wlp (anp_fdalloc sock) k (λ _ k', fds_ok k').
Proof.
  intros Hk Ho Hn. eapply wlp_mono; [by apply (table_ok_alloc sock k (k_world k))|]. intros fd k' [Ew Ht]. unfold fds_ok. by rewrite Ew.
Qed.

Lemma fds_ok_errno e k : fds_ok k → fds_ok (set_errno e k).
Proof. by intros []. Qed.

Lemma wrapped_ok m k : wlp m k (λ _ k', fds_ok k') → wlp (wrapped m) k (λ _ k', fds_ok k').
Proof.
  intros Hm. unfold wrapped. apply wlp_bind. eapply wlp_mono; [exact Hm|]. intros r k1 H1.
  apply wlp_bind, wlp_modify, wlp_ret. by apply fds_ok_errno.
Qed.

(** A call on the socket of a descriptor that spares the open sockets. *)
Lemma on_socket_ok {A B} s (m : Z → M world A) (f : Z → A → M kern B) k :
  fds_ok k → (∀ so, spares whole (m so)) → (∀ so a k', fds_ok k' → wlp (f so a) k' (λ _ k', fds_ok k')) →
  wlp (let! so := anp_fdfind s in let! a := inw (m so) in f so a) k (λ _ k', fds_ok k').
Proof.
  intros Hk Hm Hf. apply wlp_bind, wlp_fdfind. intros so _ _ _. apply wlp_bind, wlp_inw_spares; [done|done|]. intros a k' Hk'. by apply Hf.
Qed.

(** A new socket gets a descriptor. *)
Lemma new_socket_ok (m : M world (Z * Z)) (f : Z → Z → Z * Z) k :
  fds_ok k → wlp m (k_world k) (new_socket (k_world k)) →
  wlp (let! r := inw m in let '(error, so) := r in
       if ztrue error then ret (error, 0) else let! fd := anp_fdalloc so in ret (f error fd)) k (λ _ k', fds_ok k').
Proof.
  intros Hk Hm. apply wlp_bind, wlp_inw. eapply wlp_mono; [exact Hm|]. intros [e so] w1 [H1 H2]. cbn in H2.
  assert (Hk1 : fds_ok (Kern (k_virgin k) (k_fds k) w1 (k_errno k))) by by apply fds_ok_world.
  destruct (ztrue e) eqn:Ee; [by apply wlp_ret|]. assert (e = 0) as -> by (unfold ztrue in Ee; zbool; done).
  destruct (H2 eq_refl) as [Ho Hn]. apply wlp_bind. eapply wlp_mono; [apply fds_ok_alloc; [done|done|]|].
  - intros Hz i Hi. by apply Hn, (fo_open _ _ Hk i).
  - intros fd k2 Hk2. by apply wlp_ret.
Qed.

(** A call that gives an answer about the socket of a descriptor. *)
Lemma on_answer_ok {A} s (f : Z → M kern (Z * A)) k :
  fds_ok k → (∀ so k1, fds_ok k1 → wlp (f so) k1 (λ _ k', fds_ok k')) →
  wlp (let! r := (let! so := anp_fdfind s in f so) in ret (r.1, 0)) k (λ _ k', fds_ok k').
Proof.
  intros Hk Hf. apply wlp_bind, wlp_bind, wlp_fdfind. intros so _ _ _. eapply wlp_mono; [by apply Hf|]. intros r k1 Hk1. by apply wlp_ret.
Qed.

(** A [socketpair] that succeeds: the second socket is not one of the table with the
    first in it. *)
Lemma socketpair_ok d t p k :
  fds_ok k → wlp (socketpair usrreq malloc sb_lock tsleep sleeps domains d t p) k (λ r k', r.1 = 0 → fds_ok k').
Proof using SparesOpen0 malloc_fresh.
  intros Hk. assert (Hz : ∀ e, ztrue e = true → e ≠ 0) by (intros e He ->; done). assert (Hnz : ∀ e, ztrue e = false → e = 0).
  { intros e He. unfold ztrue in He. by zbool. }
  assert (Hfail : ∀ e k1, ztrue e = true → wlp (ret (e, (0, 0))) k1 (λ r k', r.1 = 0 → fds_ok k')).
  { intros e k1 He. apply wlp_ret. cbn. intros ->. done. }
  unfold socketpair. cbv zeta. apply wlp_bind, wlp_inw. eapply wlp_mono; [apply socreate_open|]. intros [e1 so1] w1 [M1 N1]. cbn in N1.
  destruct (ztrue e1) eqn:E1; [by apply Hfail|]. destruct (N1 (Hnz _ E1)) as [O1 F1].
  apply wlp_bind, wlp_inw. eapply wlp_mono; [apply socreate_open|]. intros [e2 so2] w2 [M2 N2]. cbn in N2, M2.
  destruct (ztrue e2) eqn:E2; [apply wlp_skip; intros; by apply Hfail|]. destruct (N2 (Hnz _ E2)) as [O2 F2]. cbn in O2, F2.
  apply wlp_bind. eapply wlp_mono; [apply (table_ok_alloc so1 _ w1)|].
  - destruct Hk as [H1 H2 H3]. constructor; [done|cbn; eauto|done].
  - done.
  - intros Hs i Hi. by apply F1, (fo_open _ _ Hk i).
  - intros sv0 k3 [Ew3 Ht3]. cbn in Ew3. apply wlp_bind. eapply wlp_mono; [apply (fds_ok_alloc so2 k3)|].
    + unfold fds_ok. rewrite Ew3. destruct Ht3 as [H1 H2 H3]. constructor; [done|eauto|done].
    + by rewrite Ew3.
    + intros Hs i Hi. by apply F2, (fo_open _ _ Ht3 i).
    + intros sv1 k4 Hk4. apply wlp_bind, wlp_inw_spares; [done|apply spares_request|]. intros e3 k5 Hk5.
      apply wlp_bind, (wlp_mono _ _ (λ _ k', fds_ok k')).
      { destruct (ztrue e3); [by apply wlp_ret|]. destruct (_ =? _); [|by apply wlp_ret].
        by apply wlp_inw_spares; [|apply spares_request|]. }
      intros e4 k6 Hk6. destruct (ztrue e4) eqn:E4; [do 2 (apply wlp_skip; intros); by apply Hfail|by apply wlp_ret].
Qed.

(** A [socketpair] that fails leaves descriptors of freed sockets behind. *)
Definition is_pair (c : syscall) : bool := match c with Sys_socketpair _ _ _ => true | _ => false end.

Lemma run_syscall_ok c k :
  fds_ok k →
  wlp (run_syscall usrreq nameof sb_max malloc sb_lock tsleep sleeps domains drain junk junk_len word unword ctloutput ioctl_rest uninit c) k
    (λ r k', is_pair c = false ∨ r ≠ -1 → fds_ok k').
Proof using SparesOpen0 malloc_fresh sleep_spares ctl_spares ioctl_spares name_spares.
  intros Hk. destruct c; cbn [run_syscall is_pair];
    try (match goal with |- wlp _ _ (λ _ k', false = false ∨ _ → _) => eapply (wlp_mono _ _ (λ _ k', fds_ok k')); [|by intros] end);
    try apply wrapped_ok.
  - apply new_socket_ok; [done|]. apply socreate_open.
  - apply on_socket_ok; [done|intros; apply spares_low|]. intros so [e nam] k1 Hk1. destruct (ztrue e); [by apply wlp_ret|].
    apply wlp_bind, wlp_inw_spares; [done|apply spares_sobind|]. intros e1 k2 Hk2.
    apply wlp_bind, wlp_inw_spares; [done|apply spares_free_name|]. intros [] k3 Hk3. by apply wlp_ret.
  - apply on_socket_ok; [done|intros; apply spares_solisten|]. intros so e k1 Hk1. by apply wlp_ret.
  - unfold accept_call. apply wlp_bind, wlp_fdfind. intros so _ _ _. apply (new_socket_ok _ (λ _ fd, (if name then 0 else uninit, fd))); [done|]. apply accept_open.
  - apply on_socket_ok; [done|intros; apply spares_connect_so|]. intros so e k1 Hk1. by apply wlp_ret.
  - apply on_socket_ok; [done|intros; apply spares_soshutdown|]. intros so e k1 Hk1. by apply wlp_ret.
  - apply on_socket_ok; [done|intros; apply spares_setsockopt|]. intros so e k1 Hk1. by apply wlp_ret.
  - unfold anp_close. apply wlp_bind, wlp_fdfind. intros so Hso Hs0 Hnz. apply wlp_bind, wlp_inw.
    eapply wlp_mono; [apply spares_soclose|]. intros e w1 Hw1. apply wlp_bind. unfold anp_fdfree.
    apply wlp_bind, wlp_get, wlp_bind, wlp_lift. cbn [k_fds]. intros p Hp. rewrite (proj2 (Z.ltb_ge s 0)) in Hp by done.
    destruct (p =? 0); [done|]. apply wlp_modify, wlp_ret. destruct Hk as [H1 H2 H3].
    assert (Hl : (Z.to_nat s < length (k_fds k))%nat) by by eapply lookup_lt_Some.
    assert (Hins : ∀ i q, <[Z.to_nat s := 0]> (k_fds k) !! i = Some q → q ≠ 0 → i ≠ Z.to_nat s ∧ k_fds k !! i = Some q).
    { intros i q Hq Hq0. destruct (decide (i = Z.to_nat s)) as [-> | Hi].
      - rewrite list_lookup_insert_eq in Hq by done. by injection Hq as <-.
      - rewrite list_lookup_insert_ne in Hq by done. done. }
    constructor; cbn [k_fds set_fds k_world].
    + by rewrite length_insert.
    + intros i q Hq Hq0. destruct (Hins i q Hq Hq0) as [Hi Hq']. apply Hw1; [|by eapply H2].
      intros ->. by apply Hi, (H3 i (Z.to_nat s) so).
    + intros i j q Hq Hq' Hq0. destruct (Hins i q Hq Hq0) as [_ Hi], (Hins j q Hq' Hq0) as [_ Hj]. by eapply H3.
  - apply wlp_bind. apply wlp_mono with (P := λ _ k', fds_ok k'); [|intros r k1 Hk1; by apply wlp_ret].
    apply wlp_bind, wlp_fdfind. intros so _ _ _.
    destruct (_ <? _); [by apply wlp_ret|]. apply wlp_bind, wlp_inw_spares; [done|apply spares_soo_ioctl|].
    intros [e v] k1 Hk1. by apply wlp_ret.
  - apply on_answer_ok; [done|]. intros so k1 Hk1. by apply wlp_inw_spares; [|apply spares_getsockopt|].
  - apply on_answer_ok; [done|]. intros so k1 Hk1. by apply wlp_inw_spares; [|apply spares_getname|].
  - apply on_answer_ok; [done|]. intros so k1 Hk1. apply wlp_bind, wlp_inw_spares; [done|apply spares_testflag|]. intros b k2 Hk2.
    destruct (negb b); [by apply wlp_ret|]. by apply wlp_inw_spares; [|apply spares_getname|].
  - unfold wrapped. apply wlp_bind, wlp_bind. eapply wlp_mono; [by apply socketpair_ok|]. intros [e [fd0 fd1]] k1 Hk1. cbn in Hk1.
    apply wlp_ret. apply wlp_bind, wlp_modify, wlp_ret. intros [?|Hr]; [done|]. apply fds_ok_errno, Hk1. cbn [fst] in Hr.
    destruct (ztrue e) eqn:Ee; [done|]. unfold ztrue in Ee. by zbool.
Qed.


(** A free descriptor is found, the lowest one, and leads to the socket; the other
    descriptors stay as they were. *)
Theorem fdalloc_lowest sock k n :
  k_virgin k = false → length (k_fds k) = MAXFDS → sock ≠ 0 → k_fds k !! n = Some 0 →
  wp (let! fd := anp_fdalloc sock in let! p := anp_fdfind fd in ret (fd, p)) k (λ r k',
    r.2 = sock ∧ 0 <= r.1 <= Z.of_nat n ∧ k_fds k' = <[Z.to_nat r.1 := sock]> (k_fds k) ∧ k_fds k !! Z.to_nat r.1 = Some 0 ∧
    ∀ i, (i < Z.to_nat r.1)%nat → ∃ p, k_fds k !! i = Some p ∧ p ≠ 0).
Proof.
  intros Hv Hl Hs Hn. wp_step. eapply wp_mono; [apply anp_fdalloc_spec|]. intros fd k1 (_ & _ & Hf).
  unfold in_use in Hf. rewrite Hv in Hf. destruct (first_free (k_fds k) 0) as [i|] eqn:Ei.
  2: { by apply (first_free_None _ _ Ei) in Hn. }
  destruct Hf as [-> Ek]. apply first_free_Some in Ei as (H0 & Hz & Hlow). rewrite Z.sub_0_r in *.
  assert (Hin : (Z.to_nat i <= n)%nat) by (destruct (decide (n < Z.to_nat i)%nat) as [Hlt|]; [by apply (Hlow n 0) in Hlt|lia]).
  assert (Hlt : (Z.to_nat i < length (k_fds k))%nat) by by eapply lookup_lt_Some.
  rewrite Hl in Hlt. change MAXFDS with (Z.to_nat 256) in Hlt. wp_step. unfold anp_fdfind.
  change (Z.of_nat MAXFDS) with 256. rewrite (proj2 (Z.ltb_lt i 256)), (proj2 (Z.ltb_ge i 0)) by lia. cbn [negb].
  wp_step. apply wp_get. wp_step. eapply wp_lift; [rewrite Ek; apply list_lookup_insert_eq; by eapply lookup_lt_Some|].
  rewrite (proj2 (Z.eqb_neq sock 0)) by done. apply wp_ret, wp_ret. cbn [fst snd]. split_and!; [done|lia|lia|done|done|].
  intros j Hj. destruct (lookup_lt_is_Some_2 (k_fds k) j) as [p Hp]; [rewrite Hl; change MAXFDS with (Z.to_nat 256); lia|].
  exists p. split; [done|]. by apply (Hlow j).
Qed.

End Descriptors.

(** ** Examples *)

(** The Internet protocols keep the sockets with a descriptor. *)
Definition inet_proto (inp : option Z) (nam : option mbuf) (pr : protosw) (req so : Z) : M world Z :=
  if req =? PRU_CONNECT2 then ret EOPNOTSUPP
  else if req =? PRU_DETACH then do! pcb_detach ex_lock so in ret 0
  else inet_usrreq ex_lock inp pr req so.

#[export] Instance inet_spares inp : SparesOpen (inet_proto inp).
Proof.
  intros P nam pr req so. unfold inet_proto, inet_usrreq, pcb_attach, pcb_detach, soisdisconnected. spares.
Qed.

Definition ex_kern : kern := Kern true (replicate MAXFDS 0) ex_empty 0.
Definition ex_domains : list domain := [Domain 2 [ex_tcp]].
Definition ex_ioctl (so cmd data : Z) : M world (Z * Z) := ret (EOPNOTSUPP, data).
Definition ex_nameof (req so : Z) (m : mbuf) : M world (Z * mbuf) := ret (0, set_len m 16).
Definition ex_run : list syscall → M kern (list Z) :=
  run_syscalls (inet_proto (Some 7)) ex_nameof 262144 ex_malloc ex_lock ex_sleep 0 ex_domains id (replicate 108 0) 0 be_word be_unword ex_ctl ex_ioctl 0.

Lemma ex_kern_ok : fds_ok ex_kern.
Proof.
  assert (Hz : ∀ (i : nat) p, replicate MAXFDS 0 !! i = Some p → p = 0) by (intros i p Hp; by apply lookup_replicate in Hp as [? _]).
  constructor; [apply length_replicate|intros i p Hp; by apply Hz in Hp|intros i j p Hp; by apply Hz in Hp].
Qed.

Definition ex_calls : list syscall := [Sys_socket 2 1 0; Sys_listen 0 5; Sys_socket 2 1 0; Sys_getsockname 1 16; Sys_close 0; Sys_socket 2 1 0].


Lemma fdalloc_lowest_witness :
  wp (let! fd := anp_fdalloc 700 in let! p := anp_fdfind fd in ret (fd, p)) (Kern false (replicate MAXFDS 0) ex_empty 0)
    (λ r _, r.2 = 700).
Proof.
  eapply wp_mono; [apply (fdalloc_lowest 700 (Kern false (replicate MAXFDS 0) ex_empty 0) 3); done|].
  intros r k' [H _]. exact H.
Defined.

(** [socketpair] on an Internet protocol fails, but its two descriptors stay in the
    table and point to sockets that were freed. *)
Theorem socketpair_dangles :
  match socketpair (inet_proto (Some 7)) ex_malloc ex_lock ex_sleep 0 ex_domains 2 1 0 ex_kern with
  | Ok ((error, _), k) => error = EOPNOTSUPP ∧ take 3 (k_fds k) = [100; 200; 0] ∧ socks (k_world k) = ∅
  | _ => False
  end.
Proof. by vm_compute. Qed.

(** [accept] with a null name returns what its variable [error] happened to hold: the
    caller gets -1 although the connection was taken and has a descriptor. *)
Definition ex_listening : kern :=
  Kern false (100 :: replicate 255 0) ex_world 0.
Theorem accept_null_name :
  match wrapped (accept_call (inet_proto (Some 7)) ex_sleep 0 5 0 false) ex_listening with
  | Ok (r, k) => r = -1 ∧ k_errno k = 5 ∧ take 3 (k_fds k) = [100; 300; 0]
  | _ => False
  end.
Proof. by vm_compute. Qed.

End SockCall.
