(* ===== verification/UserIo.v ===== *)
(** * Reading and writing through a descriptor (sendit, recvit, anp_read, anp_write)

    The calls that move data ([sendto], [sendmsg], [recvfrom], [recvmsg] of
    kern/uipc_syscalls.c, [read] and [write] of uspace/anp_syscall.c), from the socket of
    the descriptor on: they add up the segments, copy the names in and out and turn an
    interrupted call that moved data into a short count. *)

From stdpp Require Import options.
From S2P Require Import Prelude Mbuf Sockbuf TcpOutput TcpConn Socket SockIo SockRecv SockOpt SockCall.
Import Mbuf Sockbuf SockIo SockRecv.

Module UserIo.

Definition MSG_CTRUNC : Z := 0x20.
Definition sizeof_cmsghdr : Z := 12.

(** The sum of the lengths in [uio_resid], an [int]; the lengths themselves are unsigned. *)
Fixpoint sum_iov (iov : list Z) (resid : Z) : option Z :=
  match iov with
  | [] => Some resid
  | len :: iov => let r := s32 (resid + len) in if r <? 0 then None else sum_iov iov r
  end.

(** Errors that leave a short count when data were moved. *)
Definition interrupted (e : Z) : bool := (e =? SockCall.ERESTART) || (e =? SockCall.EINTR) || (e =? EWOULDBLOCK).
Definition short_count (len resid e : Z) : Z := if ztrue e && negb (resid =? len) && interrupted e then 0 else e.

(** ** Sending *)

Section Send.
Context (drain : mstate → mstate) (junk cljunk : list Z) (junk_len max_hdr : Z).
Context (usrreq : Z → list mbuf → list mbuf → M sstate Z) (sbwait : M sstate Z) (sb_lock : sockbuf → sockbuf * Z).
Context (pr_flags : Z) (fuel : nat).

Definition free_name (m : option mbuf) : M sstate () := match m with Some m => s_low (m_freem [m]) | None => ret () end.

(** A name or a control message of the caller: its bytes and its length. *)
Definition get_arg (a : option (list Z * Z)) (type : Z) : M sstate (Z * option mbuf) :=
  match a with
  | Some (b, n) => s_low (SockCall.sockargs drain junk junk_len b n type)
  | None => ret (0, None)
  end.

(** The result is an error and the number of bytes sent. *)
Definition sendit (iov : list Z) (data : list Z) (name control : option (list Z * Z)) (flags : Z) : M sstate (Z * Z) :=
  match sum_iov iov 0 with
  | None => ret (TcpConn.EINVAL, 0)
  | Some len =>
      do! modify (s_set_uio iov len data) in
      let! r := get_arg name SockCall.MT_SONAME in
      let '(error, to) := r in
      if ztrue error then ret (error, 0)
      else
        let! r := (match control with
                   | Some (_, n) => if u32 n <? sizeof_cmsghdr then ret (TcpConn.EINVAL, None) else get_arg control MT_CONTROL
                   | None => ret (0, None)
                   end) in
        let '(error, ctl) := r in
        if ztrue error then do! free_name to in ret (error, 0)
        else
          let! error := sosend drain junk cljunk junk_len max_hdr usrreq sbwait sb_lock pr_flags flags
                          (match to with Some _ => true | None => false end) fuel (option_list ctl) in
          let! s := get in
          let error := short_count len (s_resid s) error in
          do! free_name to in
          ret (error, if error =? 0 then len - s_resid s else 0)
  end.

(** [anp_write]: what it returns and [anp_errno]. *)
Definition anp_write (buf : list Z) (nbytes : Z) : M sstate (Z * Z) :=
  do! modify (s_set_uio [nbytes] (s32 nbytes) buf) in
  let! error := sosend drain junk cljunk junk_len max_hdr usrreq sbwait sb_lock pr_flags 0 false fuel [] in
  let! s := get in
  let error := short_count (s32 nbytes) (s_resid s) error in
  ret (if ztrue error then -1 else s32 nbytes - s_resid s, error).

End Send.

(** ** Receiving *)

Section Receive.
Context (drain : mstate → mstate) (junk : list Z) (junk_len : Z).
Context (usr_rcvd : Z → M rstate ()) (usr_rcvoob : mbuf → bool → M rstate (Z * list mbuf))
  (sbwait : M rstate Z) (sb_lock : sockbuf → sockbuf * Z).
Context (pr_flags : Z) (so_pcb : bool) (fuel : nat).

(** What a call returns: the error, the count, the bytes of the name, the bytes of the
    control message and the flags. *)
Record received := Received { g_error : Z; g_count : Z; g_name : list Z; g_control : list Z; g_flags : Z }.

(** The first bytes of an mbuf, as many as the caller has room for. *)
Definition copy_out (m : mbuf) (len : Z) : M rstate (list Z) :=
  r_low (m_read m 0 (if m_len m <? len then m_len m else len)).

(** [namelen] and [controllen] are the caller's rooms; [None] stands for no buffer. *)
Definition recvit (iov : list Z) (flags : Z) (namelen controllen : option Z) : M rstate received :=
  match sum_iov iov 0 with
  | None => ret (Received TcpConn.EINVAL 0 [] [] flags)
  | Some len =>
      do! modify (λ s, r_set_flags flags (r_set_control [] (r_set_addr [] (r_set_uio iov len [] s)))) in
      let! error := soreceive drain junk junk_len usr_rcvd usr_rcvoob sbwait sb_lock pr_flags so_pcb true
                      (match controllen with Some _ => true | None => false end) true fuel in
      let! s := get in
      let error := short_count len (r_resid s) error in
      let! out :=
        (if ztrue error then ret (Received error 0 [] [] (r_flags s))
         else
           let count := len - r_resid s in
           let! name := (match namelen, r_addr s with
                         | Some n, m :: _ => if s32 n <=? 0 then ret [] else copy_out m (s32 n)
                         | _, _ => ret []
                         end) in
           match controllen, r_control s with
           | Some n, m :: _ =>
               if s32 n <=? 0 then ret (Received 0 count name [] (r_flags s))
               else
                 let! ctl := copy_out m (s32 n) in
                 ret (Received 0 count name ctl (if m_len m <=? s32 n then r_flags s else Z.lor (r_flags s) MSG_CTRUNC))
           | _, _ => ret (Received 0 count name [] (r_flags s))
           end) in
      do! r_low (m_freem (r_addr s)) in
      do! r_low (m_freem (r_control s)) in
      ret out
  end.

(** [anp_read]: what it returns and [anp_errno]. *)
Definition anp_read (nbytes : Z) : M rstate (Z * Z) :=
  do! modify (λ s, r_set_flags 0 (r_set_uio [nbytes] (s32 nbytes) [] s)) in
  let! error := soreceive drain junk junk_len usr_rcvd usr_rcvoob sbwait sb_lock pr_flags so_pcb false false false fuel in
  let! s := get in
  let error := short_count (s32 nbytes) (r_resid s) error in
  ret (if ztrue error then -1 else s32 nbytes - r_resid s, error).

End Receive.

(** ** Sending: the count is what was handed over *)

Lemma sum_iov_total iov resid :
  Forall (Z.le 0) iov → 0 <= resid → resid + iov_total iov < 2147483648 → sum_iov iov resid = Some (resid + iov_total iov).
Proof.
  intros Hi. revert resid. induction Hi as [|c iov Hc Hi IH]; intros resid Hr Ht; cbn [sum_iov].
  - cbn. f_equal. lia.
  - rewrite iov_total_cons in *. pose proof (iov_total_nonneg _ Hi). rewrite s32_id by (unfold is_s32; lia).
    rewrite (proj2 (Z.ltb_ge (resid + c) 0)), IH by lia. f_equal. lia.
Qed.

Lemma wlp_m_write_internal m off b s (Q : mbuf → mstate → Prop) :
  has m M_EXT = false → (∀ d, Q (set_dat m d) s) → wlp (m_write m off b) s Q.
Proof.
  intros He HQ. unfold m_write. apply wlp_bind, wlp_get, wlp_bind, wlp_lift. intros x _. apply wlp_bind, wlp_lift. intros y _.
  rewrite He. by apply wlp_ret.
Qed.

Lemma sockargs_ok drain junk junk_len b n t s :
  oracle s = [] → held s [] →
  wlp (SockCall.sockargs drain junk junk_len b n t) s (λ r s', oracle s' = [] ∧ held s' [] ∧ ∀ m, r.2 = Some m → 0 <= m_len m).
Proof.
  intros Ho Hh. unfold SockCall.sockargs. destruct (Z.ltb_spec MLEN (u32 n)) as [Hn|Hn]; [by apply wlp_ret|].
  apply wlp_bind. eapply wlp_mono; [apply wlp_of_wp; by apply (mget_ok drain s _ [])|]. intros m s1 (-> & _ & Hh1 & Ho1).
  apply wlp_bind, wlp_lift. intros x Hx. unfold SockOpt.copyin in Hx. destruct (Z.leb_spec 0 n); [|done].
  apply wlp_bind, wlp_m_write_internal; [done|]. intros d. apply wlp_bind.
  assert (Hdone : ∀ d, wlp (ret (0, Some (set_dat (set_len (MB junk_len 0 t 0 0 0 0 0 junk) n) d))) s1
    (λ r s', oracle s' = [] ∧ held s' [] ∧ ∀ m, r.2 = Some m → 0 <= m_len m)).
  { intros d'. apply wlp_ret. split_and!; [done|done|]. by intros m [= <-]. }
  destruct (t =? _); [|apply wlp_ret, Hdone]. by apply wlp_m_write_internal.
Qed.

Lemma short_count_zero len resid e : short_count len resid e = 0 → e = 0 ∨ interrupted e = true.
Proof. unfold short_count. destruct (ztrue e && _ && _) eqn:E; [|by left]. intros _. right. by apply andb_true_iff in E as [_ ?]. Qed.

(** From what [sosend] keeps to a count. *)
Lemma sent_prefix s s' data :
  sent s' ++ s_data s' = sent s ++ data → Z.of_nat (length (s_data s')) = s_resid s' → s_resid s' <= Z.of_nat (length data) →
  sent s' = sent s ++ take (Z.to_nat (Z.of_nat (length data) - s_resid s')) data.
Proof.
  intros H1 H2 H3. assert (Hl : length (sent s') = (length (sent s) + Z.to_nat (Z.of_nat (length data) - s_resid s'))%nat).
  { apply (f_equal length) in H1. rewrite !length_app in H1. lia. }
  apply (f_equal (take (length (sent s')))) in H1. rewrite take_app_length in H1. rewrite H1, take_app.
  rewrite take_ge by lia. do 2 f_equal. lia.
Qed.

Section SendProof.
Context (drain : mstate → mstate) (junk cljunk : list Z) (junk_len max_hdr pr_flags : Z).
Context (junk_ok : Z.of_nat (length junk) = MLEN) (cljunk_ok : Z.of_nat (length cljunk) = MCLBYTES) (hdr_ok : 0 <= max_hdr < MCLBYTES).
Context (usrreq : Z → list mbuf → list mbuf → M sstate Z) `{!SendProtocol usrreq}.
Context (sbwait : M sstate Z) `{!SendWait sbwait} (sb_lock : sockbuf → sockbuf * Z) (fuel : nat).

Definition counted (len : Z) (data : list Z) (s : sstate) (r : Z * Z) (s' : sstate) : Prop :=
  ∃ k, 0 <= k <= len ∧ sent s' = sent s ++ take (Z.to_nat k) data ∧ (r.1 = 0 → r.2 = k).

(** C30: Whatever the protocol does and however the call is interrupted, the bytes
    handed to the protocol by [sendto] or [sendmsg] are the first [k] of the caller's data,
    the caller's segments in order, and a call that reports success reports this [k]. *)
Theorem sendit_count iov data name control flags s :
  Forall (Z.le 0) iov → iov_total iov = Z.of_nat (length data) → Z.of_nat (length data) < 2147483648 →
  Z.of_nat (length data) <= Z.of_nat fuel → oracle (s_ms s) = [] → held (s_ms s) [] →
  wlp (sendit drain junk cljunk junk_len max_hdr usrreq sbwait sb_lock pr_flags fuel iov data name control flags) s
    (counted (Z.of_nat (length data)) data s).
Proof using All.
  intros Hi Ht Hl Hf Ho Hh. set (len := Z.of_nat (length data)) in *. unfold sendit.
  rewrite sum_iov_total by (try done; lia). rewrite Ht, Z.add_0_l. fold len. apply wlp_bind, wlp_modify.
  set (s1 := s_set_uio iov len data s).
  assert (Hnone : ∀ s' e, ztrue e = true → sent s' = sent s → counted len data s (e, 0) s').
  { intros s' e He Es. exists 0. split; [lia|]. split; [by rewrite Es, app_nil_r|]. cbn. intros ->. done. }
  (* an argument of the caller *)
  assert (Harg : ∀ a t s2, (∃ x, s2 = s_set_ms x s1) → oracle (s_ms s2) = [] → held (s_ms s2) [] →
    wlp (get_arg drain junk junk_len a t) s2 (λ r s', (∃ x, s' = s_set_ms x s1) ∧ oracle (s_ms s') = [] ∧ held (s_ms s') [] ∧
      0 <= clen (option_list r.2))).
  { intros a t s2 [x ->] Ho2 Hh2. destruct a as [[b n]|]; [|apply wlp_ret; split_and!; [by exists x|done|done|done]].
    cbn [get_arg]. unfold wlp, s_low. pose proof (sockargs_ok drain junk junk_len b n t _ Ho2 Hh2) as H. unfold wlp in H.
    destruct (SockCall.sockargs _ _ _ _ _ _ _) as [[r ms]| |]; [|done..]. destruct H as (H1 & H2 & H3).
    split_and!; [by exists ms|done|done|]. destruct r as [e [m|]]; [|done]. by apply (H3 m). }
  assert (Hfree : ∀ to s2 (Q : () → sstate → Prop), (∀ x, Q () (s_set_ms x s2)) → wlp (free_name to) s2 Q).
  { intros [m|] s2 Q HQ; cbn [free_name]; [apply wlp_s_low; intros [] x; apply HQ|]. apply wlp_ret. specialize (HQ (s_ms s2)). by destruct s2. }
  apply wlp_bind. eapply wlp_mono; [apply (Harg name SockCall.MT_SONAME s1); [by exists (s_ms s); destruct s|done|done]|].
  intros [e to] s2 (Hs2 & Ho2 & Hh2 & _). destruct (ztrue e) eqn:Ee; [apply wlp_ret, Hnone; [done|by destruct Hs2 as [x ->]]|].
  apply wlp_bind. eapply wlp_mono with (P := λ r s', (∃ x, s' = s_set_ms x s1) ∧ oracle (s_ms s') = [] ∧ held (s_ms s') [] ∧
      0 <= clen (option_list r.2)).
  { destruct control as [[b n]|]; [|apply wlp_ret; by split_and!]. destruct (_ <? _); [apply wlp_ret; by split_and!|]. by apply Harg. }
  intros [e2 ctl] s3 (Hs3 & Ho3 & Hh3 & Hc3). cbn [snd] in Hc3. destruct (ztrue e2) eqn:Ee2.
  { apply wlp_bind, Hfree. intros x. apply wlp_ret, Hnone; [done|]. by destruct Hs3 as [y ->]. }
  assert (Hu3 : uio_ok s3) by (destruct Hs3 as [x ->]; split_and!; [exact Hi|symmetry; exact Ht|done|exact Hl]).
  assert (Er3 : s_resid s3 = len ∧ s_data s3 = data ∧ sent s3 = sent s) by (destruct Hs3 as [x ->]; done).
  destruct Er3 as (Er3 & Ed3 & Es3).
  apply wlp_bind. eapply wlp_mono; [apply (sosend_spec drain junk cljunk junk_len max_hdr pr_flags flags junk_ok cljunk_ok hdr_ok usrreq sbwait
    sb_lock _ fuel (option_list ctl) s3); [done|done|done|lia|done]|].
  intros e3 s4 (H1 & (_ & _ & H2 & _) & H3 & _). apply wlp_bind, wlp_get, wlp_bind, Hfree. intros x. apply wlp_ret.
  rewrite Ed3, Es3 in H1. rewrite Er3 in H3. exists (len - s_resid s4). split_and!.
  - lia.
  - lia.
  - cbn. apply sent_prefix; [done|done|unfold len in H3; lia].
  - cbn [fst snd]. intros ->. done.
Qed.

End SendProof.

(** ** Reading a stream *)

Section ReadProof.
Context (drain : mstate → mstate) (junk : list Z) (junk_len : Z).
Context (usr_rcvd : Z → M rstate ()) `{!RcvdKeeps usr_rcvd} (usr_rcvoob : mbuf → bool → M rstate (Z * list mbuf))
  (sbwait : M rstate Z) (sb_lock : sockbuf → sockbuf * Z).
Context (pr_flags : Z) (so_pcb : bool) (fuel : nat).
Context (pr_stream : test pr_flags Socket.PR_ADDR = false ∧ test pr_flags Socket.PR_ATOMIC = false).

(** The state of the call: a read of [n] bytes. *)
Definition reading (n : Z) (s : rstate) : rstate := r_set_flags 0 (r_set_uio [n] (s32 n) [] s).

(** [read] on a connected stream with data: it returns the number of bytes it
    delivered, the smaller of what was asked for and what is in the buffer, without an
    error; the bytes are the oldest ones and exactly these leave the buffer. *)
Theorem anp_read_stream n s m :
  stream_ready (reading n s) m → 0 <= n < 2147483648 → (length m <= fuel)%nat →
  let old := sb_bytes (r_ms s) (r_sb s) in
  wp (anp_read drain junk junk_len usr_rcvd usr_rcvoob sbwait sb_lock pr_flags so_pcb fuel n) s (λ r s',
    r = (Z.min n (Z.of_nat (length old)), 0) ∧ r_user s' = take (Z.to_nat n) old ∧
    sb_ok (r_ms s') (r_sb s') ∧ sb_bytes (r_ms s') (r_sb s') = drop (Z.to_nat n) old).
Proof using RcvdKeeps0 pr_stream.
  intros Hst Hn Hf old. unfold anp_read. wp_step. apply wp_modify. fold (reading n s). wp_step. unfold soreceive. wp_step. apply wp_modify.
  assert (Hs : s32 n = n) by (apply s32_id; unfold is_s32; lia).
  eapply wp_mono; [apply (recv_start_stream drain junk junk_len usr_rcvd usr_rcvoob sbwait sb_lock pr_flags so_pcb false false false fuel
    pr_stream (clear_results false false (reading n s)) m); [by destruct Hst|cbn; lia|done|done|done]|].
  intros e s1 [-> (H1 & H2 & H3 & H4)]. cbn in H2, H3, H4. rewrite Hs in *. fold old in H2, H3, H4. wp_step. apply wp_get. apply wp_ret.
  split_and!; [|done|done|exact H4]. rewrite H3. unfold short_count. cbn. f_equal. lia.
Qed.

End ReadProof.

(** ** A read of two gigabytes *)

Section Huge.
Context (drain : mstate → mstate) (junk : list Z) (junk_len : Z).
Context (usr_rcvoob : mbuf → bool → M rstate (Z * list mbuf)) (sbwait : M rstate Z) (sb_lock : sockbuf → sockbuf * Z) (fuel : nat).

(** A connected stream with data and a negative count. *)
Record huge (s : rstate) : Prop := Huge
  { hg_mb : ∃ m, sb_mb (r_sb s) = [m] ∧ m ≠ [] ∧ Forall (λ m, m_type m = MT_DATA) m;
    hg_lowat : u32 (sb_lowat (r_sb s)) <= sb_cc (r_sb s); hg_resid : r_resid s < 0;
    hg_free : ztrue (Z.land (sb_flags (r_sb s)) SB_LOCK) = false;
    hg_state : test (r_state s) TcpConn.SS_CANTRCVMORE = false }.

Lemma unlocked sb : ztrue (Z.land (sb_flags (sbunlock sb).1) SB_LOCK) = false.
Proof.
  unfold sbunlock. assert (H : ∀ f, Z.land (Z.land f (Z.lnot SB_LOCK)) SB_LOCK = 0) by
    (intros f; by rewrite <- Z.land_assoc, (Z.land_comm (Z.lnot _)), Z.land_lnot_diag, Z.land_0_r).
  destruct (ztrue (Z.land (Z.land (sb_flags sb) (Z.lnot SB_LOCK)) SB_WANT)); cbn [fst sb_flags with_flags]; [|by rewrite H].
  by rewrite <- Z.land_assoc, (Z.land_comm (Z.lnot SB_WANT)), Z.land_assoc, H.
Qed.

Lemma copy_loop_negative n type flags m next s :
  r_resid s < 0 → copy_loop sbwait TCP_FLAGS fuel n type flags m next 0 0 s = Ok (Some (flags, m, next), s).
Proof. intros Hr. destruct n, m; cbn [copy_loop]; unfold bind, get; rewrite ?(proj2 (Z.ltb_ge 0 (r_resid s))) by lia; done. Qed.

Lemma huge_pass s f :
  huge s → ∃ s', huge s' ∧ r_resid s' = r_resid s ∧
    recv_pass drain junk junk_len (λ _, ret ()) sbwait TCP_FLAGS true false false false fuel 0 (r_resid s)
      (r_set_sb (with_flags f (r_sb s)) s) = Ok (None, s').
Proof.
  intros [(m & Hmb & Hne & Hty) Hlow Hr Hfree Hst].
  set (s1 := r_set_sb (with_flags f (r_sb s)) s). set (s2 := r_set_rcvd (r_rcvd s ++ [0]) (r_set_sb (with_mb [m] (r_sb s1)) s1)).
  exists (r_set_sb (sbunlock (r_sb s2)).1 s2). destruct (sbunlock_flags (r_sb s2)) as [g Eg].
  split; [|split; [done|]].
  - constructor; cbn [r_sb r_set_sb r_resid r_state]; [|by rewrite Eg|done|apply unlocked|done]. exists m. rewrite Eg. by split_and!.
  - unfold recv_pass, bind, get, first_record, other_records. change (sb_mb (r_sb s1)) with (sb_mb (r_sb s)). rewrite Hmb.
    change (test TCP_FLAGS Socket.PR_ADDR) with false. cbv iota.
    destruct m as [|m0 m]; [done|]. inversion Hty as [|? ? Ht0 _]; subst. unfold ret.
    cbn [recv_control]. rewrite Ht0. change (MT_DATA =? MT_CONTROL) with false. unfold ret. cbv beta iota.
    rewrite !Ht0. change (MT_DATA =? MT_OOBDATA) with false. cbv iota. rewrite copy_loop_negative by done.
    unfold recv_finish. change (test 0 MSG_PEEK) with false. change (test TCP_FLAGS Socket.PR_ATOMIC) with false. cbn [andb].
    cbv iota. unfold bind, mod_sb, modify, ret. change (test TCP_FLAGS Socket.PR_WANTRCVD) with true. cbn [andb].
    unfold bind, modify, get. cbn [orb]. cbv beta iota.
    cbn [r_resid r_set_rcvd r_set_sb s1]. rewrite Z.eqb_refl. unfold ztrue at 1. rewrite (proj2 (Z.eqb_neq (r_resid s) 0)) by lia.
    change (test 0 MSG_EOR) with false. cbn [negb andb]. cbn [r_state r_set_rcvd r_set_sb s1]. rewrite Hst. done.
Qed.

Lemma recv_loop_spins s n :
  huge s → recv_loop drain junk junk_len (λ _, ret ()) sbwait sb_lock TCP_FLAGS true false false false fuel n 0 (r_resid s) s = Crash.
Proof.
  revert s. induction n as [|n IH]; intros s Hh; pose proof Hh as [(m & Hmb & Hne & Hty) Hlow Hr Hfree Hst];
    set (f := Z.lor (sb_flags (r_sb s)) SB_LOCK); destruct (huge_pass s f Hh) as (s' & Hh' & Er & Ep);
    (assert (Hck : recv_check TCP_FLAGS 0 (r_set_sb (with_flags f (r_sb s)) s) = Proceed);
      [unfold recv_check, too_little; cbn [r_sb r_set_sb with_flags sb_mb sb_cc sb_lowat]; rewrite Hmb, (proj2 (Z.ltb_ge _ _) Hlow);
        change (test 0 MSG_WAITALL) with false; cbn [orb andb]; by rewrite andb_false_r|]);
    cbn [recv_loop]; unfold bind at 1, lock_rcv, mod_sb, modify; rewrite sblock_free by done; fold f; unfold bind at 1, get at 1;
    rewrite Hck; unfold bind; rewrite Ep; [done|]. rewrite <- Er. by apply IH.
Qed.

(** [read] of 2^31 bytes or more from a stream with data never returns: the count is
    negative, nothing is copied, and the call starts again for ever; no number of rounds
    is enough. *)
Theorem huge_read_spins nbytes s :
  2147483648 <= nbytes < 4294967296 → test (r_state s) TcpConn.SS_ISCONFIRMING = false → huge (reading nbytes s) →
  anp_read drain junk junk_len (λ _, ret ()) usr_rcvoob sbwait sb_lock TCP_FLAGS true fuel nbytes s = Crash.
Proof.
  intros Hn Hc Hh. unfold anp_read, bind at 1, modify. change (r_set_flags 0 _) with (reading nbytes s).
  unfold bind at 1, soreceive, bind at 1, modify. unfold recv_start, bind at 1, get. change (test 0 MSG_OOB) with false. cbv iota.
  set (s1 := clear_results false false (reading nbytes s)). unfold bind at 1. change (r_state s1) with (r_state s). rewrite Hc. cbn [andb].
  unfold ret at 1. cbv iota. rewrite (recv_loop_spins s1 fuel); [done|by destruct Hh].
Qed.

End Huge.

(** ** Examples *)

Definition ex_junk : list Z := replicate 108 0.
Definition ex_cljunk : list Z := replicate 2048 0.

(** 300 bytes in two segments. *)
Lemma sendit_count_witness :
  wlp (sendit id ex_junk ex_cljunk 0 56 take_nothing (ret 4) (λ sb, (sb, 0)) TCP_FLAGS 300 [100; 200] (replicate 300 7) None None 0)
    (ex_send (SockIo.ex_sb 16384 2048) []) (counted 300 (replicate 300 7) (ex_send (SockIo.ex_sb 16384 2048) [])).
Proof.
  apply (sendit_count id ex_junk ex_cljunk 0 56 TCP_FLAGS eq_refl eq_refl ltac:(by split) take_nothing (ret 4) (λ sb, (sb, 0)) 300
    [100; 200] (replicate 300 7) None None 0); try done; [by repeat constructor|apply SockIo.ex_held].
Defined.

Lemma anp_read_stream_witness :
  wp (anp_read id ex_junk 0 (λ _, ret ()) (λ _ _, crash) (ret 4) (λ sb, (sb, 0)) TCP_FLAGS true 2 60) (ex_recv Sockbuf.ex_sb 0 0)
    (λ r _, r = (60, 0)).
Proof.
  eapply wp_mono; [apply (anp_read_stream id ex_junk 0 (λ _, ret ()) (λ _ _, crash) (ret 4) (λ sb, (sb, 0)) TCP_FLAGS true 2
    (conj eq_refl eq_refl) 60 (ex_recv Sockbuf.ex_sb 0 0) ex_chain); try done|].
  - constructor; try done; [apply ex_sb_ok|by repeat constructor|split_and!; [by repeat constructor|done|done]].
  - intros r s' [H _]. rewrite H. by vm_compute.
Defined.

Lemma huge_read_spins_witness :
  anp_read id ex_junk 0 (λ _, ret ()) (λ _ _, crash) (ret 4) (λ sb, (sb, 0)) TCP_FLAGS true 50 2147483648 (ex_recv Sockbuf.ex_sb 0 0) = Crash.
Proof.
  apply (huge_read_spins id ex_junk 0 (λ _ _, crash) (ret 4) (λ sb, (sb, 0)) 50 2147483648 (ex_recv Sockbuf.ex_sb 0 0)); try done.
  constructor; try done. exists ex_chain. by repeat constructor.
Defined.

End UserIo.
