(* ===== verification/TcpFrame.v ===== *)
(** * What the routines of TCP write

    [writes F tp tp'] says that [tp'] is [tp] after assignments to fields of [F].
    The routines of the control block are described by it: the fields outside [F]
    keep their values, and every field keeps to the range of its type. *)

From stdpp Require Import options.
From S2P Require Import Prelude Mbuf Sockbuf Tcp TcpReass TcpOpt TcpOutput TcpConn.
Import Tcp TcpOpt TcpOutput TcpConn.

Module TcpFrame.

Inductive writes (F : tfield → Prop) (tp : tcpcb) : tcpcb → Prop :=
  | writes_refl : writes F tp tp
  | writes_wr f v tp' : F f → writes F tp tp' → writes F tp (wr f v tp').

(** The control block is well typed: every field is a value of its type. *)
Definition typed (tp : tcpcb) : Prop := ∀ f, conv f (tp f) = tp f.

Lemma conv_conv f v : conv f (conv f v) = conv f v.
Proof. destruct f; simpl; try apply u32_id; try apply u16_id; try apply s16_id; auto with anp; wraplia. Qed.

Lemma typed_wr f v tp : typed tp → typed (wr f v tp).
Proof.
  intros H g. destruct (decide (f = g)) as [->|Hn]; [rewrite wr_eq; apply conv_conv|].
  rewrite wr_ne by done. apply H.
Qed.

Lemma writes_frame F tp tp' f : writes F tp tp' → ¬ F f → tp' f = tp f.
Proof. induction 1 as [|g v tp' Hg H IH]; intros Hf; [done|]. rewrite wr_ne; [by apply IH|]. by intros ->. Qed.

Lemma writes_typed F tp tp' : writes F tp tp' → typed tp → typed tp'.
Proof. induction 1; intros Ht; [done|]. apply typed_wr. auto. Qed.

Lemma writes_trans F tp1 tp2 tp3 : writes F tp1 tp2 → writes F tp2 tp3 → writes F tp1 tp3.
Proof. intros H1. induction 1; [done|]. by constructor. Qed.

Lemma writes_mono (F G : tfield → Prop) tp tp' : (∀ f, F f → G f) → writes F tp tp' → writes G tp tp'.
Proof. intros HF. induction 1; constructor; auto. Qed.

Lemma writes_if F tp (b : bool) tp1 tp2 : writes F tp tp1 → writes F tp tp2 → writes F tp (if b then tp1 else tp2).
Proof. by destruct b. Qed.

Create HintDb frame.
#[export] Hint Resolve writes_refl writes_if : frame.

(** [writes] proves that a chain of assignments and conditionals stays in [F]. *)
Ltac writes :=
  repeat first
    [ assumption
    | apply writes_refl
    | progress cbv zeta
    | apply writes_if
    | apply writes_wr; [first [by (simpl; auto) | by (simpl; split_and!; first [done | discriminate])]|]
    | progress unfold set_tflag, clear_tflag, TCPT_RANGESET
    | match goal with
      | |- writes _ _ (match ?b with (_, _) => _ end) => destruct b
      end ].

(** ** The routines of the control block *)

Definition rtt_field (f : tfield) : Prop :=
  match f with
  | t_srtt | t_rttvar | t_rtt | t_rxtshift | t_rxtcur | t_softerror => True
  | _ => False
  end.

Lemma xmit_writes tp rtt : writes rtt_field tp (tcp_xmit_timer tp rtt).
Proof. unfold tcp_xmit_timer. writes. Qed.

Definition timer_field (f : tfield) : Prop := match f with t_timer _ => True | _ => False end.

Lemma cancel_writes tp : writes timer_field tp (tcp_canceltimers tp).
Proof. unfold tcp_canceltimers. simpl. writes. Qed.

Lemma setpersist_writes tp tp' :
  tcp_setpersist tp = Some tp' → writes (λ f, f = t_timer TCPT_PERSIST ∨ f = t_rxtshift) tp tp'.
Proof.
  unfold tcp_setpersist. destruct (ztrue _); [done|]. destruct (backoff _); [|done]. intros [= <-]. writes.
Qed.

Definition mss_field (f : tfield) : Prop :=
  match f with
  | t_rttmin | t_srtt | t_rttvar | t_rxtcur | t_maxseg | snd_cwnd | snd_ssthresh => True
  | _ => False
  end.

Lemma mss_rtt_writes rt tp : writes mss_field tp (mss_rtt rt tp).
Proof. unfold mss_rtt. writes. Qed.

(** Resizing a buffer keeps its data. *)
Lemma sbreserve_cc sb_max sb cc : Sockbuf.sb_cc (Sockbuf.sbreserve sb_max sb cc).1 = Sockbuf.sb_cc sb.
Proof. unfold Sockbuf.sbreserve. by destruct (_ <? _). Qed.

Lemma mss_buffers_cc sb_max rt so mss so' mss' :
  mss_buffers sb_max rt so mss = Some (so', mss') → Sockbuf.sb_cc (so_snd so') = Sockbuf.sb_cc (so_snd so).
Proof.
  unfold mss_buffers. intros H.
  match type of H with match ?b with _ => _ end = _ => destruct b as [[so1 m1]|] eqn:E; [|done] end.
  assert (Sockbuf.sb_cc (so_snd so1) = Sockbuf.sb_cc (so_snd so)) as <-.
  { destruct (_ <? _) in E; [by injection E as <- _|]. destruct (roundup _ _) in E; [|done].
    injection E as <- _. apply sbreserve_cc. }
  destruct (_ <? _) in H; [|by injection H as <- _]. destruct (roundup _ _) in H; [|done]. by injection H as <- _.
Qed.

Lemma tcp_mss_writes sb_max dflt route tp so offer tp' so' v :
  tcp_mss sb_max dflt route tp so offer = Some (tp', so', v) →
  writes mss_field tp tp' ∧ Sockbuf.sb_cc (so_snd so') = Sockbuf.sb_cc (so_snd so).
Proof.
  unfold tcp_mss. destruct route as [rt|]; [|intros [= <- <- _]; split; [writes|done]].
  intros H. match type of H with match ?b with _ => _ end = _ => destruct b as [[[tp1 so1] m1]|] eqn:E; [|done] end.
  injection H as <- <- _. 
  assert (writes mss_field tp tp1 ∧ Sockbuf.sb_cc (so_snd so1) = Sockbuf.sb_cc (so_snd so)) as [Hw Hc].
  { pose proof (mss_rtt_writes rt tp). destruct (_ || _) in E; [|by injection E as <- <- _].
    destruct (mss_buffers _ _ _ _) as [[so2 m2]|] eqn:Eb in E; [|done]. injection E as <- <- _. split; [writes|].
    by eapply mss_buffers_cc. }
  split; [writes|done].
Qed.

Definition opt_field (f : tfield) : Prop :=
  match f with
  | t_flags | requested_s_scale | ts_recent | ts_recent_age => True
  | f => mss_field f
  end.

Lemma mss_opt f : mss_field f → opt_field f.
Proof. by destruct f. Qed.

Lemma do_option_writes sb_max dflt route now flags cp opt len tp so t tp' so' t' :
  do_option sb_max dflt route now flags cp opt len tp so t = Some (tp', so', t') →
  writes opt_field tp tp' ∧ Sockbuf.sb_cc (so_snd so') = Sockbuf.sb_cc (so_snd so) ∧
  (fl flags TH_SYN = false → tp' = tp ∧ so' = so).
Proof.
  unfold do_option, fl. intros H. destruct (ztrue (Z.land flags TH_SYN)); simpl in H.
  - repeat match type of H with
           | (if ?b then _ else _) = _ => destruct b
           | match ?b with _ => _ end = Some _ => destruct b eqn:?; [|discriminate H]
           | (let '(_, _) := ?p in _) = _ => destruct p
           end; simplify_eq; split_and!; try done; try (by writes).
    + eapply writes_mono; [apply mss_opt|]. by eapply tcp_mss_writes.
    + by eapply tcp_mss_writes.
  - rewrite !orb_true_r in H.
    repeat match type of H with
           | (if ?b then _ else _) = _ => destruct b
           | match ?b with _ => _ end = Some _ => destruct b eqn:?; [|discriminate H]
           end; simplify_eq; split_and!; try done; by writes.
Qed.

Lemma dooptions_writes sb_max dflt route now flags cp cnt tp so t tp' so' t' :
  tcp_dooptions sb_max dflt route now flags cp cnt tp so t = Some (tp', so', t') →
  writes opt_field tp tp' ∧ Sockbuf.sb_cc (so_snd so') = Sockbuf.sb_cc (so_snd so) ∧
  (fl flags TH_SYN = false → tp' = tp ∧ so' = so).
Proof.
  unfold tcp_dooptions. generalize (Z.to_nat cnt) as n. intros n. revert cp cnt tp so t.
  induction n as [|n IH]; intros cp cnt tp so t; simpl; destruct (negb (0 <? cnt)).
  - intros [= <- <- _]. split_and!; try done. writes.
  - done.
  - intros [= <- <- _]. split_and!; try done. writes.
  - destruct cp as [|opt rest]; [done|]. destruct (opt =? TCPOPT_EOL).
    { intros [= <- <- _]. split_and!; try done. writes. }
    destruct (if opt =? TCPOPT_NOP then _ else _) as [len|]; [|done]. destruct (len <=? 0).
    { intros [= <- <- _]. split_and!; try done. writes. }
    destruct (do_option _ _ _ _ _ _ _ _ _ _ _) as [[[tp1 so1] t1]|] eqn:E; [|done].
    apply do_option_writes in E as (W1 & C1 & K1). intros H. apply IH in H as (W2 & C2 & K2).
    split_and!; [by eapply writes_trans|congruence|]. intros Hs. destruct (K1 Hs) as [-> ->]. auto.
Qed.

(** What [tcp_output] writes on a synchronised connection, and otherwise. *)
Definition sync_field (f : tfield) : Prop :=
  match f with
  | t_timer _ | t_rxtshift | snd_nxt | snd_max | snd_up | t_rtt | t_rtseq | t_flags | rcv_adv
  | last_ack_sent | t_softerror | snd_cwnd => True
  | _ => False
  end.
Definition out_field (f : tfield) : Prop := sync_field f ∨ mss_field f.

Lemma mss_out f : mss_field f → out_field f.
Proof. by right. Qed.

Lemma sync_out tp tp' : writes sync_field tp tp' → writes out_field tp tp'.
Proof. apply writes_mono. by left. Qed.

(** The plan: what it writes, and its flags, which are those of the state less a FIN. *)
Lemma out_plan_spec so tp pl :
  out_plan so tp = Some pl →
  writes (λ f, sync_field f ∧ f ≠ t_flags ∧ f ≠ snd_max) tp (p_tp pl) ∧
  ∃ flags, tcp_outflags !! Z.to_nat (tp t_state) = Some flags ∧
    (p_flags pl = flags ∨ p_flags pl = Z.land flags (Z.lnot TH_FIN)).
Proof.
  unfold out_plan. destruct (0 <=? tp t_state); [|done].
  destruct (tcp_outflags !! _) as [flags|]; [|done]. cbv zeta. intros H.
  assert (Hidem : ∀ v, v = flags ∨ v = Z.land flags (Z.lnot TH_FIN) →
    Z.land v (Z.lnot TH_FIN) = flags ∨ Z.land v (Z.lnot TH_FIN) = Z.land flags (Z.lnot TH_FIN)).
  { intros v [-> | ->]; [by right|]. right. by rewrite <- Z.land_assoc, Z.land_diag. }
  match type of H with (let '(_, _) := ?b in _) = _ => destruct b as [[tp1 fl1] w1] eqn:E1 end.
  assert (writes (λ f, sync_field f ∧ f ≠ t_flags ∧ f ≠ snd_max) tp tp1 ∧ (fl1 = flags ∨ fl1 = Z.land flags (Z.lnot TH_FIN))) as [W1 F1].
  { destruct (ztrue _); [destruct (_ =? 0)|]; injection E1 as <- <- _; (split; [writes|]); try (by left). destruct (u32 _ <? snd_cc so); [by right|by left]. }
  clear E1. cbv beta iota in H. match type of H with (let '(_, _) := ?b in _) = _ => destruct b as [tp2 l2] eqn:E2 end.
  assert (writes (λ f, sync_field f ∧ f ≠ t_flags ∧ f ≠ snd_max) tp tp2) as W2.
  { destruct (_ <? 0); injection E2 as <- _; [destruct (_ =? 0)|]; writes. }
  clear E2. cbv beta iota in H. match type of H with (let '(_, _) := ?b in _) = _ => destruct b as [l3 m3] end.
  injection H as <-. split; [done|]. exists flags. split; [done|]. simpl. destruct (SEQ_LT _ _); auto.
Qed.

Lemma out_plan_writes so tp pl : out_plan so tp = Some pl → writes sync_field tp (p_tp pl).
Proof. intros [H _]%out_plan_spec. eapply writes_mono; [|exact H]. by intros f (? & _). Qed.

Lemma out_nothing_writes so tp tp' :
  out_nothing so tp = Some tp' → writes (λ f, f = t_timer TCPT_PERSIST ∨ f = t_rxtshift) tp tp'.
Proof.
  unfold out_nothing. destruct (_ && _); [|intros [= <-]; writes].
  intros H%setpersist_writes. eapply writes_trans; [|exact H]. writes.
Qed.

Lemma persist_sync tp tp' : writes (λ f, f = t_timer TCPT_PERSIST ∨ f = t_rxtshift) tp tp' → writes sync_field tp tp'.
Proof. apply writes_mono. by intros f [-> | ->]. Qed.

(** Without a SYN the options leave the control block alone. *)
Lemma out_options_writes sb_max dflt route now so pl pl' so' opt :
  out_options sb_max dflt route now so pl = Some (pl', so', opt) →
  writes out_field (p_tp pl) (p_tp pl') ∧ snd_cc so' = snd_cc so ∧ p_flags pl' = p_flags pl ∧
  (fl (p_flags pl) TH_SYN = false → p_tp pl' = p_tp pl).
Proof.
  unfold out_options. intros H.
  match type of H with match ?x with _ => _ end = _ => destruct x as [[[tp1 so1] opt1]|] eqn:E; [|done] end.
  assert (writes out_field (p_tp pl) tp1 ∧ snd_cc so1 = snd_cc so ∧ (fl (p_flags pl) TH_SYN = false → tp1 = p_tp pl)) as (Hw & Hc & Hs).
  { destruct (fl _ TH_SYN); [|injection E as <- <- _; split_and!; [writes|done|done]].
    destruct (negb _); [|injection E as <- <- _; split_and!; [|done|done]; apply sync_out; writes].
    destruct (tcp_mss _ _ _ _ _ _) as [[[tp2 so2] mm]|] eqn:Em; [|done]. injection E as <- <- _.
    apply tcp_mss_writes in Em as [Hw Hc]. split_and!; [|done|done].
    apply (writes_trans _ _ (wr snd_nxt (p_tp pl iss) (p_tp pl))); [apply sync_out; writes|]. by eapply writes_mono; [apply mss_out|]. }
  destruct (_ <? u32 (p_len pl)) in H; by injection H as <- <- _.
Qed.

Lemma out_mbufs_tp linkhdr mget mcopy so n pl optlen pl' :
  out_mbufs linkhdr mget mcopy so n pl optlen = Some pl' →
  p_tp pl' = p_tp pl ∧ (p_flags pl' = p_flags pl ∨ p_flags pl' = Z.lor (p_flags pl) TH_PUSH).
Proof.
  unfold out_mbufs. destruct (negb (mget n)); [done|]. destruct (p_len pl =? 0); intros [= <-]; [auto|].
  simpl. split; [done|]. destruct (_ =? snd_cc so); auto.
Qed.

Lemma out_header_writes pl opt win tp sg :
  out_header pl opt win = (tp, sg) → writes (λ f, f = snd_nxt ∨ f = snd_up) (p_tp pl) tp.
Proof. unfold out_header. cbv zeta. destruct (SEQ_GT _ _); intros [= <- _]; writes. Qed.

Lemma out_advance_writes pl tp : writes sync_field tp (out_advance pl tp).
Proof. unfold out_advance. writes. Qed.

(** [snd_max] stays or moves forward. *)
Definition grows (tp tp' : tcpcb) : Prop :=
  tp' snd_max = tp snd_max ∨ SEQ_GT (tp' snd_max) (tp snd_max) = true.

Lemma out_advance_grows pl tp : grows tp (out_advance pl tp).
Proof.
  assert (Hg : ∀ v, SEQ_GT v (tp snd_max) = true → SEQ_GT (u32 v) (tp snd_max) = true).
  { intros v. unfold SEQ_GT. intros H. rewrite <- H. f_equal. wraplia. }
  unfold grows, out_advance. destruct (_ || _); cbv zeta.
  - set (tp1 := if fl _ TH_FIN then _ else _). assert (tp1 snd_max = tp snd_max) as E1.
    { unfold tp1, set_tflag. destruct (fl _ TH_FIN), (fl _ TH_SYN); by tsimpl. }
    clearbody tp1. set (tp2 := wr snd_nxt _ tp1). assert (tp2 snd_max = tp snd_max) as E2 by (unfold tp2; by tsimpl).
    clearbody tp2. set (tp3 := if SEQ_GT _ _ then _ else _).
    assert (tp3 snd_max = tp snd_max ∨ SEQ_GT (tp3 snd_max) (tp snd_max) = true) as H3.
    { unfold tp3. clear tp3. rewrite E2. destruct (SEQ_GT (tp2 snd_nxt) (tp snd_max)) eqn:E; [right|left; exact E2].
      destruct (_ =? 0); tsimpl; by apply Hg. }
    clearbody tp3. destruct (_ && _); [|done]. destruct (ztrue _); by tsimpl.
  - destruct (SEQ_GT _ _) eqn:E; [right; by tsimpl|by left].
Qed.

Lemma out_error_writes tp error : writes (λ f, f = snd_cwnd ∨ f = t_softerror) tp (out_error tp error).1.
Proof. unfold out_error. destruct (_ =? ENOBUFS); [|destruct (_ && _)]; simpl; writes. Qed.

Lemma out_sent_writes tp win : writes (λ f, sync_field f ∧ f ≠ snd_max) tp (out_sent tp win).
Proof. unfold out_sent. writes. Qed.

(** [sub] relaxes the set of fields written. *)
Ltac sub := let f := fresh "f" in intros f; simpl; intuition (subst; simpl; auto).

Section Output.
Context (linkhdr : Z) (mget mcopy : nat → bool) (ip : nat → segment → Z).
Context (sb_max dflt : Z) (route : option route_info) (now : Z) (template : bool).
Abbreviation round := (output_round linkhdr mget mcopy ip sb_max dflt route now template).
Abbreviation loop := (output_loop linkhdr mget mcopy ip sb_max dflt route now template).

Lemma output_round_writes idle n so tp tp' so' sg e again :
  round idle n so tp = Some (tp', so', sg, e, again) →
  writes out_field tp tp' ∧ snd_cc so' = snd_cc so ∧
  (TCPS_ESTABLISHED <= tp t_state <= TCPS_TIME_WAIT → writes sync_field tp tp' ∧ grows tp tp').
Proof.
  unfold output_round. intros H. destruct (out_plan so tp) as [pl|] eqn:Ep; [|done].
  assert (Hsyn : TCPS_ESTABLISHED <= tp t_state <= TCPS_TIME_WAIT → fl (p_flags pl) TH_SYN = false).
  { intros Hst. pose proof (outflags_sync tp Hst) as Ho. apply out_plan_spec in Ep as (_ & flags & E & Hf).
    unfold TCPS_ESTABLISHED in Hst. rewrite (proj2 (Z.leb_le _ _)) in Ho by lia. rewrite E in Ho. injection Ho as ->.
    by destruct (fin_state tp), Hf as [-> | ->]. }
  assert (Hmax : p_tp pl snd_max = tp snd_max).
  { apply out_plan_spec in Ep as [W _]. apply (writes_frame _ _ _ _ W). by intros (_ & _ & ?). }
  apply out_plan_writes in Ep. pose proof (sync_out _ _ Ep) as Ep'.
  assert (Hsame : ∀ F tp1 tp2, writes F tp1 tp2 → ¬ F snd_max → tp2 snd_max = tp1 snd_max).
  { intros F tp1 tp2. apply writes_frame. }
  destruct (negb (out_decide so idle pl)).
  { destruct (out_nothing so (p_tp pl)) as [tp1|] eqn:En; [|done]. injection H as <- <- _ _ _.
    apply out_nothing_writes in En. assert (Hm : tp1 snd_max = p_tp pl snd_max) by (apply (Hsame _ _ _ En); by intros [|]). apply persist_sync in En.
    assert (writes sync_field tp tp1) by (by eapply writes_trans).
    split_and!; [by apply sync_out|done|]. intros _. split; [done|]. left. congruence. }
  destruct (out_options _ _ _ _ so pl) as [[[pl1 so1] opt]|] eqn:Eo; [|done]. apply out_options_writes in Eo as (Wo & Co & _ & So).
  assert (W1 : writes out_field tp (p_tp pl1)) by (by eapply writes_trans).
  assert (S1 : TCPS_ESTABLISHED <= tp t_state <= TCPS_TIME_WAIT → p_tp pl1 = p_tp pl) by auto.
  assert (Hend : ∀ tp2, writes sync_field (p_tp pl1) tp2 → grows (p_tp pl1) tp2 → writes out_field tp tp2 ∧ snd_cc so1 = snd_cc so ∧
    (TCPS_ESTABLISHED <= tp t_state <= TCPS_TIME_WAIT → writes sync_field tp tp2 ∧ grows tp tp2)).
  { intros tp2 W G. split_and!; [eapply writes_trans; [exact W1|]; by apply sync_out|done|]. intros Hst. rewrite S1 in * by done.
    split; [by eapply writes_trans|]. unfold grows in *. by rewrite Hmax in G. }
  destruct (out_mbufs _ _ _ so1 n pl1 _) as [pl2|] eqn:Em.
  2: { injection H as <- <- _ _ _. apply Hend; [writes|]. left. by tsimpl. }
  apply out_mbufs_tp in Em as [Em _]. destruct (negb template); [done|]. destruct (out_header _ _ _) as [tp3 sg3] eqn:Eh.
  apply out_header_writes in Eh. rewrite Em in Eh. assert (Hm3 : tp3 snd_max = p_tp pl1 snd_max) by (apply (Hsame _ _ _ Eh); by intros [|]).
  assert (W3 : writes sync_field (p_tp pl1) (out_advance pl2 tp3)).
  { eapply writes_trans; [|apply out_advance_writes]. eapply writes_mono; [|exact Eh]. sub. }
  pose proof (out_advance_grows pl2 tp3) as G3. unfold grows in G3. rewrite Hm3 in G3.
  destruct (negb _).
  - destruct (out_error _ _) as [tp4 e4] eqn:Ee. injection H as <- <- _ _ _.
    pose proof (out_error_writes (out_advance pl2 tp3) (ip n sg3)) as W4. rewrite Ee in W4. simpl in W4. apply Hend.
    + eapply writes_trans; [exact W3|]. eapply writes_mono; [|exact W4]. sub.
    + unfold grows. rewrite (Hsame _ _ _ W4) by (by intros [|]). done.
  - injection H as <- <- _ _ _. pose proof (out_sent_writes (out_advance pl2 tp3)) as W4. apply Hend.
    + eapply writes_trans; [exact W3|]. eapply writes_mono; [|apply W4]. sub.
    + unfold grows. rewrite (Hsame _ _ _ (W4 _)) by (by intros (_ & ?)). done.
Qed.

Lemma output_writes fuel so tp tp' so' sgs e :
  tcp_output linkhdr mget mcopy ip sb_max dflt route now template fuel so tp = Some (tp', so', sgs, e) →
  writes out_field tp tp' ∧ snd_cc so' = snd_cc so ∧
  (TCPS_ESTABLISHED <= tp t_state <= TCPS_TIME_WAIT → writes sync_field tp tp').
Proof.
  unfold tcp_output. assert (W0 : writes sync_field tp (idle_restart tp)) by (unfold idle_restart; writes).
  assert (P0 : writes out_field tp (idle_restart tp) ∧ snd_cc so = snd_cc so ∧
    (TCPS_ESTABLISHED <= tp t_state <= TCPS_TIME_WAIT → writes sync_field tp (idle_restart tp))) by (by split_and!; [apply sync_out|..]).
  clear W0. revert P0. generalize (idle_restart tp) as tp0. generalize (tp snd_max =? tp snd_una) as idle. generalize O as n.
  generalize (snd_cc so) at 2 3 as cc. intros cc n idle tp0 W0 H.
  revert n so tp0 sgs H W0. induction fuel as [|fuel IH]; intros n so tp0 sgs H (W0 & Hc & Hs); [done|]. simpl in H.
  destruct (round idle n so tp0) as [[[[[tp1 so1] sg] e1] ag]|] eqn:E; [|done].
  apply output_round_writes in E as (W1 & C1 & S1).
  assert (P2 : writes out_field tp tp1 ∧ snd_cc so1 = cc ∧
    (TCPS_ESTABLISHED <= tp t_state <= TCPS_TIME_WAIT → writes sync_field tp tp1)).
  { split_and!; [by eapply writes_trans|congruence|]. intros Hst. eapply writes_trans; [by apply Hs|]. apply S1.
    rewrite (writes_frame _ _ _ _ (Hs Hst)) by (simpl; tauto). done. }
  destruct ag; [|by injection H as <- <- _ _].
  destruct (loop fuel idle (S n) so1 tp1) as [[[[tp2 so2] sgs2] e2]|] eqn:E2; [|done].
  injection H as <- <- <- <-. by eapply IH.
Qed.
End Output.

End TcpFrame.
