(* ===== verification/TcpInput.v ===== *)
(** * TCP input (netinet/tcp_input.c)

    [tcp_input] from the point where the connection of the segment is known: the
    stages are definitions in the order of the code, each with the lines it
    translates; a [goto] ends a stage with its label.  The statistics counters and
    the debugging trace are left out. *)

From stdpp Require Import options.
From S2P Require Import Prelude Mbuf Sockbuf Tcp TcpReass TcpOpt TcpOutput TcpConn.
Import Tcp TcpOpt TcpOutput TcpConn.

Module TcpInput.

Definition tcprexmtthresh : Z := 3.
Definition TCP_PAWS_IDLE : Z := 24 * 24 * 60 * 60 * PR_SLOWHZ.
Definition TSTMP_LT (a b : Z) : bool := s32 (a - b) <? 0.
Definition TSTMP_GEQ (a b : Z) : bool := 0 <=? s32 (a - b).

(** ** The variables of the handler *)

(** The fields of the header in host order ([ti_len] is the length of the data),
    the copy [tiflags] of the flags, [tiwin], the timestamps, the options still to
    be scanned (the bytes from [optp] on and [optlen]), the packet, [off],
    [needoutput], [dropsocket], [iss], and whether the segment was sent to a
    broadcast or multicast address. *)
Record locals := Loc
  { ti_seq : Z; ti_ack : Z; ti_len : Z; ti_urp : Z; ti_flags : Z; tiflags : Z; tiwin : Z;
    ts : TcpOpt.tstamps; optp : option (list Z * Z); m : packet; off : Z;
    needoutput : bool; dropsocket : bool; new_iss : Z; bcast : bool }.

Definition set_seq (v : Z) (x : locals) : locals :=
  Loc (u32 v) (ti_ack x) (ti_len x) (ti_urp x) (ti_flags x) (tiflags x) (tiwin x) (ts x) (optp x) (m x)
    (off x) (needoutput x) (dropsocket x) (new_iss x) (bcast x).
Definition set_len (v : Z) (x : locals) : locals :=
  Loc (ti_seq x) (ti_ack x) (s16 v) (ti_urp x) (ti_flags x) (tiflags x) (tiwin x) (ts x) (optp x) (m x)
    (off x) (needoutput x) (dropsocket x) (new_iss x) (bcast x).
Definition set_urp (v : Z) (x : locals) : locals :=
  Loc (ti_seq x) (ti_ack x) (ti_len x) (u16 v) (ti_flags x) (tiflags x) (tiwin x) (ts x) (optp x) (m x)
    (off x) (needoutput x) (dropsocket x) (new_iss x) (bcast x).
Definition set_tiflags (v : Z) (x : locals) : locals :=
  Loc (ti_seq x) (ti_ack x) (ti_len x) (ti_urp x) (ti_flags x) v (tiwin x) (ts x) (optp x) (m x)
    (off x) (needoutput x) (dropsocket x) (new_iss x) (bcast x).
Definition set_ts (v : TcpOpt.tstamps) (x : locals) : locals :=
  Loc (ti_seq x) (ti_ack x) (ti_len x) (ti_urp x) (ti_flags x) (tiflags x) (tiwin x) v (optp x) (m x)
    (off x) (needoutput x) (dropsocket x) (new_iss x) (bcast x).
Definition set_m (v : packet) (x : locals) : locals :=
  Loc (ti_seq x) (ti_ack x) (ti_len x) (ti_urp x) (ti_flags x) (tiflags x) (tiwin x) (ts x) (optp x) v
    (off x) (needoutput x) (dropsocket x) (new_iss x) (bcast x).
Definition set_needoutput (x : locals) : locals :=
  Loc (ti_seq x) (ti_ack x) (ti_len x) (ti_urp x) (ti_flags x) (tiflags x) (tiwin x) (ts x) (optp x) (m x)
    (off x) true (dropsocket x) (new_iss x) (bcast x).
Definition keep_socket (x : locals) : locals :=
  Loc (ti_seq x) (ti_ack x) (ti_len x) (ti_urp x) (ti_flags x) (tiflags x) (tiwin x) (ts x) (optp x) (m x)
    (off x) (needoutput x) false (new_iss x) (bcast x).

Definition has_flag (x : locals) (b : Z) : bool := fl (tiflags x) b.
Definition clear_flag (b : Z) (x : locals) : locals := set_tiflags (Z.land (tiflags x) (Z.lnot b)) x.

(** ** Control flow *)

(** Where a stage jumps to; [Lreturn] is a [return]. *)
Inductive label := Ldrop | Ldropafterack | Ldropwithreset | Lfindpcb (iss : Z) | Lreturn.
Inductive next := Fall (x : locals) | Goto (l : label) (x : locals).

Definition stage : Type := locals → M conn next.
Definition fall (x : locals) : M conn next := ret (Fall x).
Definition goto (l : label) (x : locals) : M conn next := ret (Goto l x).

(** One stage after the other. *)
Definition andthen (f g : stage) : stage := λ x,
  let! r := f x in
  match r with Fall x => g x | Goto l x => goto l x end.
Infix "⊳" := andthen (at level 60, right associativity).

(** The socket buffers. *)
Definition snd_drop (n : Z) : M conn () :=
  let! so := get_so in
  let! sb := low (Sockbuf.sbdrop (so_snd (so_buf so)) n) in
  mod_buf (λ b, Sock sb (so_rcv b)).
Definition rcv_append (p : packet) : M conn () :=
  let! so := get_so in
  let! sb := low (Sockbuf.sbappend (so_rcv (so_buf so)) p) in
  mod_buf (λ b, Sock (so_snd b) sb).

(** [m_adj] on the packet of the segment. *)
Definition adj (n : Z) (x : locals) : M conn locals :=
  let! p := lift (Mbuf.m_adj (m x) n) in ret (set_m p x).

Section Input.
Context (e : env).

(** ** Arrival *)

(** A segment received on the connection (tcp_input, "Segment received on
    connection"). *)
Definition arrive : stage := λ x,
  do! mod_tp (λ tp, wr (t_timer TCPT_KEEP) (e_keepidle e) (wr t_idle 0 tp)) in
  fall x.

(** [tcp_dooptions] on the connection. *)
Definition do_options (x : locals) : M conn locals :=
  match optp x with
  | None => ret x
  | Some (cp, cnt) =>
      let! tp := get_tp in
      let! c := get in
      let! r := lift (tcp_dooptions (e_sbmax e) (e_mssdflt e) (c_route c) (e_now e) (ti_flags x) cp cnt tp
                        (so_buf (c_so c)) (ts x)) in
      let '(tp, buf, t) := r in
      do! put_tp tp in
      do! mod_buf (λ _, buf) in
      ret (set_ts t x)
  end.

Definition options : stage := λ x,
  let! tp := get_tp in
  if negb (tp t_state =? TCPS_LISTEN) then let! x := do_options x in fall x else fall x.

(** The header and the options are cut off the first mbuf. *)
Definition strip (x : locals) : M conn locals :=
  match m x with
  | [] => crash
  | m0 :: rest =>
      let n := TCPIPHDR_SIZE + off x - 20 in
      ret (set_m (Mbuf.set_data (Mbuf.set_len m0 (Mbuf.m_len m0 - n)) (Mbuf.m_data m0 + n) :: rest) x)
  end.

(** ** Header prediction *)

(** A round-trip measurement: from the timestamp, or from the timed segment. *)
Definition measure (x : locals) (tp : tcpcb) : tcpcb :=
  if ts_present (ts x) then tcp_xmit_timer tp (u32 (e_now e - ts_ecr (ts x) + 1))
  else if ztrue (tp t_rtt) && SEQ_GT (ti_ack x) (tp t_rtseq) then tcp_xmit_timer tp (tp t_rtt)
  else tp.

(** The next segment expected, without control flags, and the window unchanged. *)
Definition predicted (x : locals) (tp : tcpcb) : bool :=
  (tp t_state =? TCPS_ESTABLISHED) &&
  (Z.land (tiflags x) (Z.lor (Z.lor (Z.lor (Z.lor TH_SYN TH_FIN) TH_RST) TH_URG) TH_ACK) =? TH_ACK) &&
  (negb (ts_present (ts x)) || TSTMP_GEQ (ts_val (ts x)) (tp ts_recent)) &&
  (ti_seq x =? tp rcv_nxt) && ztrue (tiwin x) && (tiwin x =? tp snd_wnd) && (tp snd_nxt =? tp snd_max).

(** A pure acknowledgement of outstanding data. *)
Definition predict_ack (x : locals) : M conn next :=
  do! mod_tp (measure x) in
  let! tp := get_tp in
  let acked := s32 (ti_ack x - tp snd_una) in
  do! snd_drop acked in
  do! put_tp (wr snd_una (ti_ack x) tp) in
  do! low (Mbuf.m_freem (m x)) in
  let! tp := get_tp in
  do! put_tp (if tp snd_una =? tp snd_max then wr (t_timer TCPT_REXMT) 0 tp
              else if tp (t_timer TCPT_PERSIST) =? 0 then wr (t_timer TCPT_REXMT) (tp t_rxtcur) tp
              else tp) in
  let! so := get_so in
  do! (if ztrue (Z.land (Sockbuf.sb_flags (so_snd (so_buf so))) SB_NOTIFY) then mod_so sowwakeup else ret ()) in
  let! so := get_so in
  do! (if ztrue (snd_cc (so_buf so)) then do! output e in ret () else ret ()) in
  goto Lreturn x.

(** A pure, in-sequence data segment, with room for it. *)
Definition predict_data (x : locals) : M conn next :=
  do! mod_tp (λ tp, wr rcv_nxt (tp rcv_nxt + ti_len x) tp) in
  let! x := strip x in
  do! rcv_append (m x) in
  do! mod_so sorwakeup in
  do! mod_tp (set_tflag TF_DELACK) in
  goto Lreturn x.

Definition predict : stage := λ x,
  let! tp := get_tp in
  if negb (predicted x tp) then fall x
  else
    let tp := if ts_present (ts x) && SEQ_LEQ (ti_seq x) (tp last_ack_sent) &&
                 SEQ_LT (tp last_ack_sent) (u32 (ti_seq x + ti_len x))
              then wr ts_recent (ts_val (ts x)) (wr ts_recent_age (e_now e) tp) else tp in
    do! put_tp tp in
    let! c := get in
    if ti_len x =? 0 then
      if SEQ_GT (ti_ack x) (tp snd_una) && SEQ_LEQ (ti_ack x) (tp snd_max) &&
         (tp snd_wnd <=? tp snd_cwnd)
      then predict_ack x else fall x
    else if (ti_ack x =? tp snd_una) && (match c_q c with [] => true | _ => false end) &&
            (ti_len x <=? Sockbuf.sbspace (so_rcv (so_buf (c_so c))))
    then predict_data x else fall x.

(** The headers are dropped and the receive window computed; [max] is on
    [u_int]. *)
Definition receive_window : stage := λ x,
  let! x := strip x in
  let! so := get_so in
  let win := Sockbuf.sbspace (so_rcv (so_buf so)) in
  let win := if win <? 0 then 0 else win in
  do! mod_tp (λ tp, wr rcv_wnd (Z.max (u32 win) (u32 (tp rcv_adv - tp rcv_nxt))) tp) in
  fall x.

(** ** LISTEN and SYN_SENT *)

(** [tp->t_flags & (TF_RCVD_SCALE|TF_REQ_SCALE)] both set: the scales take effect. *)
Definition scale_windows (tp : tcpcb) : tcpcb :=
  let both := Z.lor TF_RCVD_SCALE TF_REQ_SCALE in
  if Z.land (tp t_flags) both =? both
  then let tp := wr snd_scale (tp requested_s_scale) tp in wr rcv_scale (tp request_r_scale) tp
  else tp.

(** What [tcp_reass] presents goes to the socket, or is freed. *)
Fixpoint present_all (ps : list packet) : M conn () :=
  match ps with
  | [] => ret ()
  | p :: ps =>
      let! so := get_so in
      do! (if sflag so SS_CANTRCVMORE then low (Mbuf.m_freem p) else rcv_append p) in
      present_all ps
  end.

(** [tcp_reass(tp, 0, 0)]; the socket is woken if anything was presented. *)
Definition reass_present : M conn () :=
  let! tp := get_tp in
  let! c := get in
  let '(tp, _, ps, q) := @TcpReass.tcp_reass _ (mbuf_payload (c_ms c)) tp (c_q c) None in
  do! put_tp tp in
  do! modify (set_q q) in
  do! present_all ps in
  match ps with [] => ret () | _ => mod_so sorwakeup end.

Definition listen : stage := λ x,
  if has_flag x TH_RST then goto Ldrop x
  else if has_flag x TH_ACK then goto Ldropwithreset x
  else if negb (has_flag x TH_SYN) then goto Ldrop x
  else if bcast x then goto Ldrop x
  else if negb (e_soname e) then goto Ldrop x
  else if negb (e_connect e) then goto Ldrop x
  else
    let! ok := tcp_template e in
    if negb ok then do! tcp_drop e ENOBUFS in goto Ldrop (keep_socket x)
    else
      let! x := do_options x in
      let! tp := get_tp in
      let! c := get in
      let tp := wr iss (if ztrue (new_iss x) then new_iss x else c_iss c) tp in
      do! modify (set_iss (c_iss c + TCP_ISSINCR / 2)) in
      let tp := wr irs (ti_seq x) tp in
      let tp := tcp_rcvseqinit (tcp_sendseqinit tp) in
      let tp := wr t_state TCPS_SYN_RECEIVED (set_tflag TF_ACKNOW tp) in
      do! put_tp (wr (t_timer TCPT_KEEP) TCPTV_KEEP_INIT tp) in
      fall (keep_socket x).

(** Our SYN is acknowledged: the connection is established. *)
Definition establish : M conn () :=
  do! soisconnected in
  do! mod_tp (λ tp, scale_windows (wr t_state TCPS_ESTABLISHED tp)) in
  reass_present.

Definition syn_sent : stage := λ x,
  let! tp := get_tp in
  if has_flag x TH_ACK && (SEQ_LEQ (ti_ack x) (tp iss) || SEQ_GT (ti_ack x) (tp snd_max))
  then goto Ldropwithreset x
  else if has_flag x TH_RST then
    do! (if has_flag x TH_ACK then tcp_drop e ECONNREFUSED else ret ()) in goto Ldrop x
  else if negb (has_flag x TH_SYN) then goto Ldrop x
  else
    let tp := if has_flag x TH_ACK then
                let tp := wr snd_una (ti_ack x) tp in
                if SEQ_LT (tp snd_nxt) (tp snd_una) then wr snd_nxt (tp snd_una) tp else tp
              else tp in
    let tp := wr irs (ti_seq x) (wr (t_timer TCPT_REXMT) 0 tp) in
    let tp := set_tflag TF_ACKNOW (tcp_rcvseqinit tp) in
    do! put_tp tp in
    do! (if has_flag x TH_ACK && SEQ_GT (tp snd_una) (tp iss) then
           do! establish in
           mod_tp (λ tp, if ztrue (tp t_rtt) then tcp_xmit_timer tp (tp t_rtt) else tp)
         else put_tp (wr t_state TCPS_SYN_RECEIVED tp)) in
    fall x.

(** The label [trimthenstep6]: skip the SYN and keep what fits the window. *)
Definition trim_syn : stage := λ x,
  let x := set_seq (ti_seq x + 1) x in
  let! tp := get_tp in
  let! x := (if tp rcv_wnd <? u32 (ti_len x) then
               let todrop := s32 (ti_len x - tp rcv_wnd) in
               let! x := adj (- todrop) x in
               ret (clear_flag TH_FIN (set_len (tp rcv_wnd) x))
             else ret x) in
  do! put_tp (wr rcv_up (ti_seq x) (wr snd_wl1 (ti_seq x - 1) tp)) in
  fall x.

(** ** Trimming to the window *)

(** RFC 1323 PAWS. *)
Definition paws : stage := λ x,
  let! tp := get_tp in
  if ts_present (ts x) && negb (has_flag x TH_RST) && ztrue (tp ts_recent) &&
     TSTMP_LT (ts_val (ts x)) (tp ts_recent)
  then
    if TCP_PAWS_IDLE <? s32 (e_now e - tp ts_recent_age)
    then do! put_tp (wr ts_recent 0 tp) in fall x
    else goto Ldropafterack x
  else fall x.

(** A SYN before the window is skipped; [todrop] counts it. *)
Definition skip_syn (x : locals) (todrop : Z) : locals * Z :=
  if has_flag x TH_SYN then
    let x := set_seq (ti_seq x + 1) (clear_flag TH_SYN x) in
    (if 1 <? ti_urp x then set_urp (ti_urp x - 1) x else clear_flag TH_URG x, todrop - 1)
  else (x, todrop).

(** [todrop] bytes come off the front. *)
Definition cut_front (x : locals) (todrop : Z) : M conn next :=
  let! x := adj todrop x in
  let x := set_len (ti_len x - todrop) (set_seq (ti_seq x + todrop) x) in
  fall (if todrop <? ti_urp x then set_urp (ti_urp x - todrop) x else set_urp 0 (clear_flag TH_URG x)).

(** Data before [rcv_nxt]. *)
Definition trim_left : stage := λ x,
  let! tp := get_tp in
  let todrop := s32 (tp rcv_nxt - ti_seq x) in
  if negb (0 <? todrop) then fall x
  else
    let '(x, todrop) := skip_syn x todrop in
    if ti_len x <=? todrop then
      if has_flag x TH_FIN && (todrop =? ti_len x + 1) then
        do! put_tp (set_tflag TF_ACKNOW tp) in
        cut_front (clear_flag TH_FIN x) (ti_len x)
      else if negb (todrop =? 0) || negb (has_flag x TH_ACK) then goto Ldropafterack x
      else cut_front x todrop
    else cut_front x todrop.

(** New data for a process that is gone. *)
Definition nobody : stage := λ x,
  let! tp := get_tp in
  let! so := get_so in
  if sflag so SS_NOFDREF && (TCPS_CLOSE_WAIT <? tp t_state) && ztrue (ti_len x)
  then do! tcp_close e in goto Ldropwithreset x
  else fall x.

(** [todrop] bytes come off the end, with PUSH and FIN. *)
Definition cut_back (x : locals) (todrop : Z) : M conn next :=
  let! x := adj (- todrop) x in
  fall (clear_flag (Z.lor TH_PUSH TH_FIN) (set_len (ti_len x - todrop) x)).

(** Data after the window. *)
Definition trim_right : stage := λ x,
  let! tp := get_tp in
  let todrop := s32 (u32 (ti_seq x + ti_len x) - u32 (tp rcv_nxt + tp rcv_wnd)) in
  if negb (0 <? todrop) then fall x
  else if ti_len x <=? todrop then
    if has_flag x TH_SYN && (tp t_state =? TCPS_TIME_WAIT) && SEQ_GT (ti_seq x) (tp rcv_nxt) then
      do! tcp_close e in goto (Lfindpcb (u32 (tp rcv_nxt + TCP_ISSINCR))) x
    else if (tp rcv_wnd =? 0) && (ti_seq x =? tp rcv_nxt) then
      do! put_tp (set_tflag TF_ACKNOW tp) in cut_back x todrop
    else goto Ldropafterack x
  else cut_back x todrop.

(** The timestamp to echo. *)
Definition record_ts : stage := λ x,
  do! mod_tp (λ tp,
    if ts_present (ts x) && SEQ_LEQ (ti_seq x) (tp last_ack_sent) &&
       SEQ_LT (tp last_ack_sent) (u32 (ti_seq x + ti_len x + b2z (has_flag x (Z.lor TH_SYN TH_FIN))))
    then wr ts_recent (ts_val (ts x)) (wr ts_recent_age (e_now e) tp) else tp) in
  fall x.

(** ** RST, SYN and ACK *)

(** [so->so_error = err; close:] *)
Definition reset_by (err : Z) (x : locals) : M conn next :=
  do! mod_so (with_error err) in
  do! mod_tp (wr t_state TCPS_CLOSED) in
  do! tcp_close e in
  goto Ldrop x.

Definition check_rst : stage := λ x,
  if negb (has_flag x TH_RST) then fall x
  else
    let! tp := get_tp in
    let s := tp t_state in
    if s =? TCPS_SYN_RECEIVED then reset_by ECONNREFUSED x
    else if (s =? TCPS_ESTABLISHED) || (s =? TCPS_FIN_WAIT_1) || (s =? TCPS_FIN_WAIT_2) || (s =? TCPS_CLOSE_WAIT)
    then reset_by ECONNRESET x
    else if (s =? TCPS_CLOSING) || (s =? TCPS_LAST_ACK) || (s =? TCPS_TIME_WAIT)
    then do! tcp_close e in goto Ldrop x
    else fall x.

Definition check_syn : stage := λ x,
  if has_flag x TH_SYN then do! tcp_drop e ECONNRESET in goto Ldropwithreset x else fall x.

Definition need_ack : stage := λ x,
  if negb (has_flag x TH_ACK) then goto Ldrop x else fall x.

(** ** Acknowledgements *)

(** In SYN_RECEIVED an acknowledgement of our SYN establishes the connection. *)
Definition ack_syn : stage := λ x,
  let! tp := get_tp in
  if negb (tp t_state =? TCPS_SYN_RECEIVED) then fall x
  else if SEQ_GT (tp snd_una) (ti_ack x) || SEQ_GT (ti_ack x) (tp snd_max) then goto Ldropwithreset x
  else
    do! establish in
    do! mod_tp (wr snd_wl1 (ti_seq x - 1)) in
    fall x.

(** The third duplicate: retransmit one segment, with half the window. *)
Definition fast_retransmit (x : locals) (tp : tcpcb) : M conn next :=
  let onxt := tp snd_nxt in
  if tp t_maxseg =? 0 then crash
  else
    let win := Z.min (tp snd_wnd) (tp snd_cwnd) / 2 / tp t_maxseg in
    let win := if win <? 2 then 2 else win in
    let tp := wr snd_ssthresh (win * tp t_maxseg) tp in
    let tp := wr t_rtt 0 (wr (t_timer TCPT_REXMT) 0 tp) in
    let tp := wr snd_nxt (ti_ack x) tp in
    do! put_tp (wr snd_cwnd (tp t_maxseg) tp) in
    do! output e in
    let! tp := get_tp in
    let tp := wr snd_cwnd (tp snd_ssthresh + tp t_maxseg * tp t_dupacks) tp in
    do! put_tp (if SEQ_GT onxt (tp snd_nxt) then wr snd_nxt onxt tp else tp) in
    goto Ldrop x.

(** An acknowledgement of nothing new. *)
Definition duplicate_ack (x : locals) (tp : tcpcb) : M conn next :=
  if (ti_len x =? 0) && (tiwin x =? tp snd_wnd) then
    if (tp (t_timer TCPT_REXMT) =? 0) || negb (ti_ack x =? tp snd_una)
    then do! put_tp (wr t_dupacks 0 tp) in fall x
    else
      let tp := wr t_dupacks (tp t_dupacks + 1) tp in
      if tp t_dupacks =? tcprexmtthresh then fast_retransmit x tp
      else if tcprexmtthresh <? tp t_dupacks then
        do! put_tp (wr snd_cwnd (tp snd_cwnd + tp t_maxseg) tp) in
        do! output e in
        goto Ldrop x
      else do! put_tp tp in fall x
  else do! put_tp (wr t_dupacks 0 tp) in fall x.

(** The congestion window opens; [u_int] arithmetic. *)
Definition open_cwnd (tp : tcpcb) : tcpcb :=
  let cw := tp snd_cwnd in
  let incr := tp t_maxseg in
  let incr := if tp snd_ssthresh <? cw then u32 (u32 (incr * incr) / cw + incr / 8) else incr in
  wr snd_cwnd (Z.min (u32 (cw + incr)) (u32 (TCP_MAXWIN * 2 ^ tp snd_scale))) tp.

(** The data acknowledged leaves the send buffer; whether our FIN is among it. *)
Definition drop_acked (x : locals) (acked : Z) : M conn bool :=
  let! tp := get_tp in
  let! so := get_so in
  let cc := snd_cc (so_buf so) in
  let! fin :=
    (if cc <? u32 acked then
       do! put_tp (wr snd_wnd (tp snd_wnd - cc) tp) in
       do! snd_drop (s32 cc) in ret true
     else
       do! snd_drop acked in
       do! put_tp (wr snd_wnd (tp snd_wnd - acked) tp) in ret false) in
  let! so := get_so in
  do! (if ztrue (Z.land (Sockbuf.sb_flags (so_snd (so_buf so))) SB_NOTIFY) then mod_so sowwakeup else ret ()) in
  do! mod_tp (λ tp,
    let tp := wr snd_una (ti_ack x) tp in
    if SEQ_LT (tp snd_nxt) (tp snd_una) then wr snd_nxt (tp snd_una) tp else tp) in
  ret fin.

(** What an acknowledgement of our FIN does to the state of the connection. *)
Definition ack_fin (x : locals) (ourfinisacked : bool) : M conn next :=
  let! tp := get_tp in
  let s := tp t_state in
  if s =? TCPS_FIN_WAIT_1 then
    if ourfinisacked then
      let! so := get_so in
      do! (if sflag so SS_CANTRCVMORE then
             do! mod_so soisdisconnected in
             put_tp (wr (t_timer TCPT_2MSL) (e_maxidle e) tp)
           else ret ()) in
      do! mod_tp (wr t_state TCPS_FIN_WAIT_2) in
      fall x
    else fall x
  else if s =? TCPS_CLOSING then
    if ourfinisacked then
      let tp := tcp_canceltimers (wr t_state TCPS_TIME_WAIT tp) in
      do! put_tp (wr (t_timer TCPT_2MSL) (2 * TCPTV_MSL) tp) in
      do! mod_so soisdisconnected in
      fall x
    else fall x
  else if s =? TCPS_LAST_ACK then
    if ourfinisacked then do! tcp_close e in goto Ldrop x else fall x
  else if s =? TCPS_TIME_WAIT then
    do! put_tp (wr (t_timer TCPT_2MSL) (2 * TCPTV_MSL) tp) in
    goto Ldropafterack x
  else fall x.

(** The retransmission timer after an acknowledgement. *)
Definition ack_timer (x : locals) (tp : tcpcb) : tcpcb * locals :=
  if ti_ack x =? tp snd_max then (wr (t_timer TCPT_REXMT) 0 tp, set_needoutput x)
  else if tp (t_timer TCPT_PERSIST) =? 0 then (wr (t_timer TCPT_REXMT) (tp t_rxtcur) tp, x)
  else (tp, x).

(** An acknowledgement of new data. *)
Definition new_ack (x : locals) (tp : tcpcb) : M conn next :=
  let tp := if (tcprexmtthresh <? tp t_dupacks) && (tp snd_ssthresh <? tp snd_cwnd)
            then wr snd_cwnd (tp snd_ssthresh) tp else tp in
  let tp := wr t_dupacks 0 tp in
  do! put_tp tp in
  if SEQ_GT (ti_ack x) (tp snd_max) then goto Ldropafterack x
  else
    let acked := s32 (ti_ack x - tp snd_una) in
    let '(tp, x) := ack_timer x (measure x tp) in
    do! put_tp (open_cwnd tp) in
    let! fin := drop_acked x acked in
    ack_fin x fin.

Definition process_ack : stage := λ x,
  let! tp := get_tp in
  if TCPS_ESTABLISHED <=? tp t_state then
    if SEQ_LEQ (ti_ack x) (tp snd_una) then duplicate_ack x tp else new_ack x tp
  else fall x.

(** ** From [step6] on *)

Definition update_window : stage := λ x,
  let! tp := get_tp in
  if has_flag x TH_ACK &&
     (SEQ_LT (tp snd_wl1) (ti_seq x) ||
      (tp snd_wl1 =? ti_seq x) &&
      (SEQ_LT (tp snd_wl2) (ti_ack x) || (tp snd_wl2 =? ti_ack x) && (tp snd_wnd <? tiwin x)))
  then
    let tp := wr snd_wl2 (ti_ack x) (wr snd_wl1 (ti_seq x) (wr snd_wnd (tiwin x) tp)) in
    do! put_tp (if tp max_sndwnd <? tp snd_wnd then wr max_sndwnd (tp snd_wnd) tp else tp) in
    fall (set_needoutput x)
  else fall x.

(** [tcp_pulloutofband]: the byte at [cnt] leaves the packet; [None] for [tp] is
    the panic. *)
Fixpoint pull_byte (cnt : Z) (p : packet) : M Mbuf.mstate (Z * packet) :=
  if cnt <? 0 then panic
  else
    match p with
    | [] => panic
    | m0 :: rest =>
        if cnt <? Mbuf.m_len m0 then
          let! b := Mbuf.m_read m0 cnt 1 in
          let! tail := Mbuf.m_read m0 (cnt + 1) (Mbuf.m_len m0 - cnt - 1) in
          let! m0 := Mbuf.m_write m0 cnt tail in
          let! c := lift (head b) in
          ret (c, Mbuf.set_len m0 (Mbuf.m_len m0 - 1) :: rest)
        else
          let! r := pull_byte (cnt - Mbuf.m_len m0) rest in
          ret (r.1, m0 :: r.2)
    end.

Definition tcp_pulloutofband (x : locals) : M conn locals :=
  let! r := low (pull_byte (ti_urp x - 1) (m x)) in
  do! mod_tp (λ tp, wr t_oobflags (Z.lor (tp t_oobflags) TCPOOB_HAVEDATA) (wr t_iobc r.1 tp)) in
  ret (set_m r.2 x).

(** The urgent pointer advances to [rcv_up]. *)
Definition urgent_mark (x : locals) : M conn () :=
  let! tp := get_tp in
  let! so := get_so in
  let up := u32 (ti_seq x + ti_urp x) in
  if SEQ_GT up (tp rcv_up) then
    let tp := wr rcv_up up tp in
    let mark := u32 (Sockbuf.sb_cc (so_rcv (so_buf so)) + u32 (tp rcv_up - tp rcv_nxt) - 1) in
    do! mod_so (λ so, let so := with_oobmark mark so in
                      if mark =? 0 then set_sflag SS_RCVATMARK so else so) in
    put_tp (wr t_oobflags (Z.land (tp t_oobflags) (Z.lnot (Z.lor TCPOOB_HAVEDATA TCPOOB_HADDATA))) tp)
  else ret ().

Definition urgent : stage := λ x,
  let! tp := get_tp in
  let! so := get_so in
  if has_flag x TH_URG && ztrue (ti_urp x) && negb (TCPS_HAVERCVDFIN (tp t_state)) then
    if e_sbmax e <? u32 (ti_urp x + Sockbuf.sb_cc (so_rcv (so_buf so)))
    then fall (clear_flag TH_URG (set_urp 0 x))
    else
      do! urgent_mark x in
      if (ti_urp x <=? ti_len x) && negb (ztrue (Z.land (so_options so) SO_OOBINLINE))
      then let! x := tcp_pulloutofband x in fall x
      else fall x
  else
    do! (if SEQ_GT (tp rcv_nxt) (tp rcv_up) then put_tp (wr rcv_up (tp rcv_nxt) tp) else ret ()) in
    fall x.

(** [TCP_REASS] on the connection: its data goes to the socket; the flags it
    leaves replace [tiflags]. *)
Definition segment_text : stage := λ x,
  let! tp := get_tp in
  let! c := get in
  if (ztrue (ti_len x) || has_flag x TH_FIN) && negb (TCPS_HAVERCVDFIN (tp t_state)) then
    let ti := TcpReass.TSeg (ti_seq x) (ti_len x) (ti_flags x) (m x) in
    let inline := (ti_seq x =? tp rcv_nxt) && (match c_q c with [] => true | _ => false end) &&
                  (tp t_state =? TCPS_ESTABLISHED) in
    let '(tp, flags, ps, q) := @TcpReass.TCP_REASS _ (mbuf_payload (c_ms c)) tp (c_q c) ti in
    do! put_tp tp in
    do! modify (set_q q) in
    do! (if inline then rcv_append (m x) else present_all ps) in
    do! (match ps with [] => ret () | _ => mod_so sorwakeup end) in
    fall (set_tiflags flags x)
  else
    do! low (Mbuf.m_freem (m x)) in
    fall (clear_flag TH_FIN x).

Definition process_fin : stage := λ x,
  if negb (has_flag x TH_FIN) then fall x
  else
    let! tp := get_tp in
    do! (if negb (TCPS_HAVERCVDFIN (tp t_state)) then
           do! mod_so socantrcvmore in
           put_tp (let tp := set_tflag TF_ACKNOW tp in wr rcv_nxt (tp rcv_nxt + 1) tp)
         else ret ()) in
    let! tp := get_tp in
    let s := tp t_state in
    do! (if (s =? TCPS_SYN_RECEIVED) || (s =? TCPS_ESTABLISHED) then put_tp (wr t_state TCPS_CLOSE_WAIT tp)
         else if s =? TCPS_FIN_WAIT_1 then put_tp (wr t_state TCPS_CLOSING tp)
         else if s =? TCPS_FIN_WAIT_2 then
           let tp := tcp_canceltimers (wr t_state TCPS_TIME_WAIT tp) in
           do! put_tp (wr (t_timer TCPT_2MSL) (2 * TCPTV_MSL) tp) in
           mod_so soisdisconnected
         else if s =? TCPS_TIME_WAIT then put_tp (wr (t_timer TCPT_2MSL) (2 * TCPTV_MSL) tp)
         else ret ()) in
    fall x.

Definition send_reply : stage := λ x,
  let! tp := get_tp in
  do! (if needoutput x || tflag tp TF_ACKNOW then do! output e in ret () else ret ()) in
  goto Lreturn x.

Definition step6 : stage := update_window ⊳ urgent ⊳ segment_text ⊳ process_fin ⊳ send_reply.

(** ** The labels *)

Definition at_drop (x : locals) : M conn () :=
  do! low (Mbuf.m_freem (m x)) in
  if dropsocket x then soabort e else ret ().

Definition at_dropafterack (x : locals) : M conn () :=
  if has_flag x TH_RST then at_drop x
  else
    do! low (Mbuf.m_freem (m x)) in
    do! mod_tp (set_tflag TF_ACKNOW) in
    do! output e in ret ().

(** [tcp_respond] frees the data of the segment and sends the header back. *)
Definition at_dropwithreset (x : locals) : M conn () :=
  if has_flag x TH_RST || bcast x then at_drop x
  else
    do! low (Mbuf.m_freem (tail (m x))) in
    do! (if has_flag x TH_ACK then tcp_respond e true 0 (ti_ack x) TH_RST
         else
           let len := if has_flag x TH_SYN then s16 (ti_len x + 1) else ti_len x in
           tcp_respond e true (ti_seq x + len) 0 (Z.lor TH_RST TH_ACK)) in
    if dropsocket x then soabort e else ret ().

(** ** The whole handler *)

(** The states other than LISTEN and SYN_SENT, up to [step6]. *)
Definition synchronised : stage :=
  paws ⊳ trim_left ⊳ nobody ⊳ trim_right ⊳ record_ts ⊳ check_rst ⊳ check_syn ⊳ need_ack ⊳
  ack_syn ⊳ process_ack.

Definition by_state : stage := λ x,
  let! tp := get_tp in
  if tp t_state =? TCPS_LISTEN then (listen ⊳ trim_syn) x
  else if tp t_state =? TCPS_SYN_SENT then (syn_sent ⊳ trim_syn) x
  else synchronised x.

Definition process : stage := arrive ⊳ options ⊳ predict ⊳ receive_window ⊳ by_state ⊳ step6.

(** [tcp_input] on a connection: [Some iss] asks for another look-up of the
    connection, with the initial sequence number to use. *)
Definition tcp_input (x : locals) : M conn (option (Z * locals)) :=
  let! r := process x in
  match r with
  | Fall _ => ret None
  | Goto Lreturn _ => ret None
  | Goto Ldrop x => do! at_drop x in ret None
  | Goto Ldropafterack x => do! at_dropafterack x in ret None
  | Goto Ldropwithreset x => do! at_dropwithreset x in ret None
  | Goto (Lfindpcb i) x => ret (Some (i, x))
  end.

End Input.

(** ** Examples *)

Definition ex_env : env :=
  Env 16 (λ _, true) (λ _, true) (λ _ _, 0) 262144 512 1000 14400 1200 3000 true true true true 0.

(** A packet of one mbuf: 40 bytes of headers and [n] bytes of data 1, 2, ... *)
Definition ex_packet (n : nat) : packet :=
  [Mbuf.MB (40 + Z.of_nat n) 0 Mbuf.MT_DATA Mbuf.M_PKTHDR (40 + Z.of_nat n) 0 0 0
     (replicate 40 0 ++ (Z.of_nat <$> seq 1 n) ++ replicate (60 - n) 0)].

Definition ex_buf (cc hiwat : Z) (p : list packet) : Sockbuf.sockbuf :=
  Sockbuf.SB cc hiwat (128 * Z.of_nat (length p)) (2 * hiwat) 1 p 0.
Definition ex_socket (snd rcv : Sockbuf.sockbuf) : socket :=
  Socket 0 0 SS_ISCONNECTED 0 0 false (Sock snd rcv).
Definition ex_conn (tp : tcpcb) (so : socket) : conn :=
  Conn Mbuf.ex_state (Some tp) true [] so None false 1 [].

(** A segment of [n] bytes with the sequence number, the acknowledgement, the flags
    and the window given. *)
Definition ex_seg (seq ack flags win : Z) (n : nat) : locals :=
  Loc seq ack (Z.of_nat n) 0 flags flags win (TcpOpt.TS false 0 0) None (ex_packet n) 20 false false 0 false.

(** What is left of a connection: state, [rcv_nxt], [snd_wnd] and the bytes
    received. *)
Definition ex_result (r : res (option (Z * locals) * conn)) : option (Z * Z * Z * list Z) :=
  match r with
  | Ok (_, c) =>
      match c_tp c with
      | Some tp => Some (tp t_state, tp rcv_nxt, tp snd_wnd, Sockbuf.sb_bytes (c_ms c) (so_rcv (so_buf (c_so c))))
      | None => None
      end
  | _ => None
  end.

(** A FIN beyond the window is accepted: of a segment with ten bytes and a FIN,
    for a window of five bytes, the trimming clears the FIN in [tiflags] only;
    [TCP_REASS] takes it from the header again.  The connection enters CLOSE_WAIT
    after five bytes and acknowledges the FIN there; the other five are lost. *)
Theorem fin_beyond_window_accepted :
  ex_result (tcp_input ex_env (ex_seg 77 4294967000 (Z.lor TH_ACK TH_FIN) 8192 10)
    (ex_conn (wr rcv_adv 82 ex_tp) (ex_socket (ex_buf 0 8192 []) (ex_buf 0 5 [])))) =
  Some (TCPS_CLOSE_WAIT, 77 + 5 + 1, 8192, [1; 2; 3; 4; 5]).
Proof. by vm_compute. Qed.

(** Ten bytes outstanding; a segment ahead of [rcv_nxt] has shrunk the window to
    four. *)
Definition ex_shrunk : tcpcb :=
  wr snd_nxt (4294967000 + 10) (wr snd_max (4294967000 + 10) (wr snd_wnd 4 (wr snd_wl1 80 ex_tp))).

(** The send window wraps around: an acknowledgement of more than the window is
    subtracted from it, and when its segment is older than the last window update
    the new window is not taken.  The window becomes 2^32 - 6. *)
Theorem send_window_underflow :
  ex_result (tcp_input ex_env (ex_seg 77 (4294967000 + 10) TH_ACK 0 0)
    (ex_conn ex_shrunk (ex_socket (ex_buf 10 8192 [[Mbuf.MB 10 0 1 0 0 0 0 0 (replicate 108 1)]]) (ex_buf 0 8192 [])))) =
  Some (TCPS_ESTABLISHED, 77, 2 ^ 32 - 6, []).
Proof. by vm_compute. Qed.

(** A connection that listens, for a socket that was just created. *)
Definition ex_listen : conn :=
  ex_conn (wr t_state TCPS_LISTEN (tcp_newtcpcb 512 3 true)) (ex_socket (ex_buf 0 8192 []) (ex_buf 0 8192 [])).

(** A SYN with a FIN takes a listening connection to CLOSE_WAIT without the
    handshake: no SYN of ours is ever sent, only an acknowledgement. *)
Theorem syn_fin_skips_handshake :
  ∃ c sg, tcp_input ex_env (ex_seg 500 0 (Z.lor TH_SYN TH_FIN) 8192 0) ex_listen = Ok (None, c) ∧
    (λ tp, tp t_state) <$> c_tp c = Some TCPS_CLOSE_WAIT ∧
    c_out c = [Sent sg] ∧ sg_flags sg = TH_ACK ∧ sg_ack sg = 502.
Proof. eexists _, _. by vm_compute. Qed.

End TcpInput.
