(* ===== verification/TcpFsm.v ===== *)
(** * The connection state machine

    The states of a connection follow the diagram of RFC 793 (figure 6): the steps
    a segment can cause are an inductive relation on states, and [tcp_input]
    refines sequences of its steps. *)

From stdpp Require Import options.
From S2P Require Import Prelude Mbuf Sockbuf Tcp TcpReass TcpOpt TcpOutput TcpConn TcpFrame TcpInput.
Import Tcp TcpOpt TcpOutput TcpConn TcpFrame TcpInput.

Module TcpFsm.

(** ** The specification *)

(** What a segment says to the state machine: its control flags, a FIN among its
    data (or among the data it completes), whether it acknowledges our FIN, and
    whether it has data for a process that has closed the socket. *)
Record signals := Signals
  { g_syn : bool; g_ack : bool; g_rst : bool; g_fin : bool; g_finack : bool; g_orphan : bool }.

Inductive rfc793 (g : signals) : Z → Z → Prop :=
  | listen_syn : g_syn g = true → g_ack g = false → g_rst g = false → rfc793 g TCPS_LISTEN TCPS_SYN_RECEIVED
  | listen_discard : rfc793 g TCPS_LISTEN TCPS_CLOSED
  | synsent_syn : g_syn g = true → g_ack g = false → g_rst g = false → rfc793 g TCPS_SYN_SENT TCPS_SYN_RECEIVED
  | synsent_synack : g_syn g = true → g_ack g = true → g_rst g = false → rfc793 g TCPS_SYN_SENT TCPS_ESTABLISHED
  | synsent_refused : g_rst g = true → g_ack g = true → rfc793 g TCPS_SYN_SENT TCPS_CLOSED
  | synrcvd_ack : g_ack g = true → g_rst g = false → rfc793 g TCPS_SYN_RECEIVED TCPS_ESTABLISHED
  | synrcvd_fin : g_fin g = true → rfc793 g TCPS_SYN_RECEIVED TCPS_CLOSE_WAIT
  | established_fin : g_fin g = true → rfc793 g TCPS_ESTABLISHED TCPS_CLOSE_WAIT
  | finwait1_finack : g_ack g = true → g_finack g = true → rfc793 g TCPS_FIN_WAIT_1 TCPS_FIN_WAIT_2
  | finwait1_fin : g_fin g = true → rfc793 g TCPS_FIN_WAIT_1 TCPS_CLOSING
  | finwait2_fin : g_fin g = true → rfc793 g TCPS_FIN_WAIT_2 TCPS_TIME_WAIT
  | closing_finack : g_ack g = true → g_finack g = true → rfc793 g TCPS_CLOSING TCPS_TIME_WAIT
  | lastack_finack : g_ack g = true → g_finack g = true → rfc793 g TCPS_LAST_ACK TCPS_CLOSED
  | reset s : TCPS_SYN_RECEIVED <= s → g_rst g = true ∨ g_syn g = true → rfc793 g s TCPS_CLOSED
  | orphan s : TCPS_CLOSE_WAIT < s → g_orphan g = true → rfc793 g s TCPS_CLOSED.

(** ** The abstraction *)

(** The state of a connection; one without a control block is closed. *)
Definition st (c : conn) : Z := match c_tp c with Some tp => tp t_state | None => TCPS_CLOSED end.
Definition una (c : conn) : Z := match c_tp c with Some tp => tp snd_una | None => 0 end.
Definition cc (c : conn) : Z := snd_cc (so_buf (c_so c)).

(** A queued segment carries a FIN. *)
Definition fins (q : list queued) : bool := existsb (λ t, fl (TcpReass.ti_flags t) TH_FIN) q.

Definition signals_of (x : locals) (c : conn) : signals := Signals
  (fl (ti_flags x) TH_SYN) (fl (ti_flags x) TH_ACK) (fl (ti_flags x) TH_RST)
  (fl (ti_flags x) TH_FIN || fins (c_q c))
  (cc c <? u32 (s32 (ti_ack x - una c))) (sflag (c_so c) SS_NOFDREF).

(** ** Rules for the handlers *)

Lemma wlp_get_tp c (Q : tcpcb → conn → Prop) :
  (∀ tp, c_tp c = Some tp → Q tp c) → wlp get_tp c Q.
Proof. unfold wlp, get_tp. destruct (c_tp c); auto. Qed.

Lemma wlp_put_tp tp c (Q : () → conn → Prop) : Q () (set_tp (Some tp) c) → wlp (put_tp tp) c Q.
Proof. done. Qed.

Lemma wlp_mod_tp f c (Q : () → conn → Prop) :
  (∀ tp, c_tp c = Some tp → Q () (set_tp (Some (f tp)) c)) → wlp (mod_tp f) c Q.
Proof. intros H. apply wlp_bind, wlp_get_tp. intros tp Htp. apply wlp_put_tp. auto. Qed.

Lemma wlp_get_so c (Q : socket → conn → Prop) : Q (c_so c) c → wlp get_so c Q.
Proof. done. Qed.

Lemma wlp_mod_so f c (Q : () → conn → Prop) : Q () (set_so (f (c_so c)) c) → wlp (mod_so f) c Q.
Proof. done. Qed.

Lemma wlp_mod_buf f c (Q : () → conn → Prop) :
  Q () (set_so (with_buf (f (so_buf (c_so c))) (c_so c)) c) → wlp (mod_buf f) c Q.
Proof. done. Qed.

Lemma wlp_raise ev c (Q : () → conn → Prop) : Q () (emit [ev] c) → wlp (raise ev) c Q.
Proof. done. Qed.

Lemma wlp_low {A} (m : M Mbuf.mstate A) c (Q : A → conn → Prop) :
  (∀ a s, m (c_ms c) = Ok (a, s) → Q a (set_ms s c)) → wlp (low m) c Q.
Proof. unfold wlp, low. destruct (m (c_ms c)) as [[a s]| |]; auto. Qed.

Lemma wlp_output e c (Q : Z → conn → Prop) :
  (∀ tp tp' buf sgs er, c_tp c = Some tp → writes out_field tp tp' → snd_cc buf = snd_cc (so_buf (c_so c)) →
     Q er (emit sgs (set_so (with_buf buf (c_so c)) (set_tp (Some tp') c)))) →
  wlp (output e) c Q.
Proof.
  unfold wlp, output. destruct (c_tp c) as [tp|]; [|done]. intros H.
  destruct (tcp_output _ _ _ _ _ _ _ _ _ _ _ _) as [[[[tp' buf] sgs] er]|] eqn:E; [|done].
  apply output_writes in E as (W & C & _). by apply (H tp).
Qed.

(** [wlps] steps through the code of a handler. *)
Ltac wlp_step :=
  lazymatch goal with
  | |- wlp (bind _ _) _ _ => apply wlp_bind
  | |- wlp (ret _) _ _ => apply wlp_ret
  | |- wlp (fall _) _ _ => apply wlp_ret
  | |- wlp (goto _ _) _ _ => apply wlp_ret
  | |- wlp crash _ _ => apply wlp_crash
  | |- wlp get _ _ => apply wlp_get
  | |- wlp (modify _) _ _ => apply wlp_modify
  | |- wlp (lift _) _ _ => apply wlp_lift; intros ? ?
  | |- wlp get_tp _ _ => apply wlp_get_tp; intros ? ?
  | |- wlp (put_tp _) _ _ => apply wlp_put_tp
  | |- wlp (mod_tp _) _ _ => apply wlp_mod_tp; intros ? ?
  | |- wlp get_so _ _ => apply wlp_get_so
  | |- wlp (mod_so _) _ _ => apply wlp_mod_so
  | |- wlp (mod_buf _) _ _ => apply wlp_mod_buf
  | |- wlp (raise _) _ _ => apply wlp_raise
  | |- wlp (low _) _ _ => apply wlp_low; intros ? ? ?
  | |- wlp (output _) _ _ => apply wlp_output; intros ? ? ? ? ? ? ? ?
  | |- wlp (if ?b then _ else _) _ _ => destruct b eqn:?
  | |- wlp (let '(_, _) := ?p in _) _ _ => destruct p eqn:?
  | |- wlp (match ?o with Some _ => _ | None => _ end) _ _ => destruct o eqn:?
  end.
Ltac wlps := repeat (cbv beta zeta; wlp_step).

(** ** The reassembly queue *)

Section Queue.
Context (s : Mbuf.mstate).
#[local] Existing Instance mbuf_payload.
Implicit Types (q : list queued) (ti : queued).

Lemma fins_app q1 q2 : fins (q1 ++ q2) = fins q1 || fins q2.
Proof. apply existsb_app. Qed.

Lemma fins_cons ti q : fins (ti :: q) = fl (TcpReass.ti_flags ti) TH_FIN || fins q.
Proof. done. Qed.

Lemma split_fins seq q a b : TcpReass.split_at seq q = (a, b) → q = a ++ b.
Proof.
  revert a b; induction q as [|y q IH]; simpl; intros a b; [by intros [= <- <-]|].
  destruct (SEQ_GT _ _); [by intros [= <- <-]|]. destruct (TcpReass.split_at seq q) as [a' b'].
  intros [= <- <-]. simpl. f_equal. by apply IH.
Qed.

Lemma trim_fins ti q : fins (@TcpReass.trim_next _ (mbuf_payload s) ti q) = true → fins q = true.
Proof.
  induction q as [|y q IH]; simpl; [done|]. destruct (_ <=? 0); [done|]. destruct (_ <? _); simpl; [done|].
  intros H. rewrite IH by done. apply orb_true_r.
Qed.

Lemma fl_land a b c : fl (Z.land a b) c = true → fl a c = true.
Proof.
  unfold fl, ztrue. rewrite !negb_true_iff, !Z.eqb_neq. intros H Hx. apply H.
  rewrite <- Z.land_assoc, (Z.land_comm b), Z.land_assoc, Hx. apply Z.land_0_l.
Qed.

(** What a presentation does to the control block, the flags and the queue. *)
Definition presents tp q (r : tcpcb * Z * list packet * list queued) : Prop :=
  let '(tp', flags, _, q') := r in
  writes (.= rcv_nxt) tp tp' ∧ (fl flags TH_FIN = true → fins q = true) ∧ (fins q' = true → fins q = true).

Lemma present_loop_presents q : ∀ tp flags,
  let '(tp', flags', ps, q') := TcpReass.present_loop (P := packet) tp flags q in
  writes (.= rcv_nxt) tp tp' ∧ (fl flags' TH_FIN = true → fl flags TH_FIN || fins q = true) ∧
  (fins q' = true → fins q = true).
Proof.
  induction q as [|y q IH]; intros tp flags; simpl.
  { split_and!; [writes|by intros ->|done]. }
  destruct (_ =? _).
  - specialize (IH (wr rcv_nxt (tp rcv_nxt + TcpReass.ti_len y) tp) (Z.land (TcpReass.ti_flags y) TH_FIN)).
    destruct (TcpReass.present_loop _ _ q) as [[[tp' fl'] ps] q']. destruct IH as (W & F & Q). split_and!.
    + eapply writes_trans; [|done]. writes.
    + intros H. apply F in H. apply orb_true_iff in H as [H%fl_land|H]; rewrite H; by rewrite ?orb_true_r.
    + intros H. rewrite Q by done. apply orb_true_r.
  - split_and!; [writes|by intros ->|done].
Qed.

Lemma present_presents tp q : presents tp q (TcpReass.present (P := packet) tp q).
Proof.
  unfold TcpReass.present, presents. destruct (negb _); [split_and!; [writes|done..]|].
  destruct q as [|y q]; [split_and!; [writes|done..]|]. destruct (negb _); [split_and!; [writes|done..]|].
  destruct (_ && _); [split_and!; [writes|done..]|].
  pose proof (present_loop_presents (y :: q) tp 0) as H.
  destruct (TcpReass.present_loop tp 0 (y :: q)) as [[[tp' fl'] ps] q']. by destruct H as (W & F & Q).
Qed.

Lemma presents_mono tp q q' r : (fins q = true → fins q' = true) → presents tp q r → presents tp q' r.
Proof. intros H. destruct r as [[[? ?] ?] ?]. intros (W & F & Q). split_and!; auto. Qed.

Lemma reass_presents tp q (o : option queued) :
  presents tp (option_list o ++ q) (@TcpReass.tcp_reass _ (mbuf_payload s) tp q o).
Proof.
  unfold TcpReass.tcp_reass. destruct o as [ti|]; [|apply present_presents]. simpl.
  destruct (TcpReass.split_at (TcpReass.ti_seq ti) q) as [a b] eqn:E. apply split_fins in E as ->.
  assert (H : ∀ ti', TcpReass.ti_flags ti' = TcpReass.ti_flags ti →
    presents tp (ti :: a ++ b) (TcpReass.present tp (a ++ ti' :: @TcpReass.trim_next _ (mbuf_payload s) ti' b))).
  { intros ti' Ht. eapply presents_mono; [|apply present_presents].
    rewrite fins_app, !fins_cons, fins_app, Ht. intros H. apply orb_true_iff in H as [->|H]; [by rewrite orb_true_r|].
    apply orb_true_iff in H as [->|H%trim_fins]; [done|]. by rewrite H, !orb_true_r. }
  destruct (last a); [|by apply H]. destruct (0 <? _); [|by apply H]. destruct (_ <=? _); [|by apply H].
  split_and!; [writes|done|]. rewrite fins_cons. intros ->. apply orb_true_r.
Qed.

Lemma TCP_REASS_presents tp q ti :
  let '(tp', flags, _, q') := @TcpReass.TCP_REASS _ (mbuf_payload s) tp q ti in
  writes (λ f, f = rcv_nxt ∨ f = t_flags) tp tp' ∧ (fl flags TH_FIN = true → fins (ti :: q) = true) ∧
  (fins q' = true → fins (ti :: q) = true).
Proof.
  unfold TcpReass.TCP_REASS. destruct (_ && _).
  - split_and!; [writes|intros H%fl_land; by rewrite fins_cons, H|rewrite fins_cons; intros ->; apply orb_true_r].
  - pose proof (reass_presents tp q (Some ti)) as H. unfold presents in H.
    destruct (@TcpReass.tcp_reass _ _ tp q (Some ti)) as [[[tp' fl'] ps] q']. destruct H as (W & F & Q).
    split_and!; [|done..]. writes. eapply writes_mono; [|done]. by left.
Qed.
End Queue.

(** ** Up to the acknowledgement *)

Section Segment.
Context (e : env) (c0 : conn) (x0 : locals).
Abbreviation steps := (rtc (rfc793 (signals_of x0 c0))).

(** Nothing has happened to the connection yet. *)
Record early (x : locals) (c : conn) : Prop := Early
  { ea_st : st c = st c0; ea_una : una c = una c0; ea_cc : cc c = cc c0; ea_q : c_q c = c_q c0;
    ea_ss : so_state (c_so c) = so_state (c_so c0); ea_alive : is_Some (c_tp c);
    ea_ack : ti_ack x = ti_ack x0; ea_hdr : ti_flags x = ti_flags x0;
    ea_sub : ∀ b, has_flag x b = true → fl (ti_flags x0) b = true;
    ea_eq : ∀ b, b = TH_RST ∨ b = TH_ACK → has_flag x b = fl (ti_flags x0) b;
    ea_sock : dropsocket x = true → st c = TCPS_LISTEN }.

(** The segment is dealt with, apart from freeing it. *)
Definition left (x : locals) (c : conn) : Prop :=
  steps (st c0) (st c) ∧ (dropsocket x = true → st c = TCPS_LISTEN).

(** A stage that goes on in [F] or leaves. *)
Definition goes (F : locals → conn → Prop) (r : next) (c : conn) : Prop :=
  match r with Fall x => F x c | Goto _ x => left x c end.

Lemma wlp_andthen (f g : stage) x c (F G : locals → conn → Prop) :
  wlp (f x) c (goes F) → (∀ x c, F x c → wlp (g x) c (goes G)) → wlp (andthen f g x) c (goes G).
Proof.
  intros Hf Hg. apply wlp_bind. eapply wlp_mono; [exact Hf|]. intros [x'|l x'] c' H; [by apply Hg|exact H].
Qed.

Lemma early_left x c : early x c → left x c.
Proof. intros H. split; [rewrite (ea_st _ _ H); apply rtc_refl|apply H]. Qed.

Lemma early_tp x c tp tp' :
  early x c → c_tp c = Some tp → tp' t_state = tp t_state → tp' snd_una = tp snd_una → early x (set_tp (Some tp') c).
Proof.
  intros [A B C D E F G H I I2 J] Ht H1 H2. constructor; try done; unfold st, una in *; simpl; rewrite Ht in *; try congruence.
  intros K. rewrite H1. by apply J.
Qed.

Lemma early_ms x c s : early x c → early x (set_ms s c).
Proof. intros [A B C D E F G H I I2 J]. by constructor. Qed.

Lemma early_buf x c buf : early x c → snd_cc buf = cc c → early x (set_so (with_buf buf (c_so c)) c).
Proof. intros [A B C D E F G H I I2 J] K. constructor; try done. unfold cc in *. simpl. congruence. Qed.

Lemma early_x x x' c :
  early x c → ti_ack x' = ti_ack x → ti_flags x' = ti_flags x → dropsocket x' = dropsocket x →
  (∀ b, has_flag x' b = true → has_flag x b = true) →
  (∀ b, b = TH_RST ∨ b = TH_ACK → has_flag x' b = has_flag x b) → early x' c.
Proof.
  intros [A B C D E F G H I I2 J] K1 K2 K3 K4 K5. constructor; try done; try congruence; auto; [|by rewrite K3].
  intros b Hb. rewrite K5 by done. auto.
Qed.

Lemma clear_sub b x b' : has_flag (clear_flag b x) b' = true → has_flag x b' = true.
Proof.
  unfold has_flag, fl, clear_flag. simpl. unfold ztrue. rewrite !negb_true_iff, !Z.eqb_neq. intros H Hx. apply H.
  rewrite <- Z.land_assoc, (Z.land_comm (Z.lnot b)), Z.land_assoc, Hx. apply Z.land_0_l.
Qed.

Lemma clear_eq b x b' : Z.land b b' = 0 → has_flag (clear_flag b x) b' = has_flag x b'.
Proof.
  intros H. unfold has_flag, fl, clear_flag. simpl. f_equal. rewrite <- Z.land_assoc. f_equal.
  apply Z.bits_inj'. intros i Hi. rewrite Z.land_spec, Z.lnot_spec by done.
  assert (Z.testbit b i && Z.testbit b' i = false) as Hb by (rewrite <- Z.land_spec, H; apply Z.bits_0).
  by destruct (Z.testbit b i), (Z.testbit b' i).
Qed.

(** Clearing flags other than RST and ACK. *)
Lemma early_clear b x c :
  early x c → Z.land b TH_RST = 0 → Z.land b TH_ACK = 0 → early (clear_flag b x) c.
Proof.
  intros H H1 H2. apply (early_x x); try done; [apply clear_sub|]. intros b' [-> | ->]; by apply clear_eq.
Qed.

Lemma measure_keeps x tp f : ¬ rtt_field f → measure e x tp f = tp f.
Proof.
  intros H. unfold measure. destruct (ts_present _); [|destruct (_ && _); [|done]];
    by rewrite (writes_frame _ _ _ _ (xmit_writes _ _)).
Qed.

Lemma arrive_early x c : early x c → wlp (arrive e x) c (goes early).
Proof. intros H. unfold arrive. wlps. eapply early_tp; [done|done|by tsimpl|by tsimpl]. Qed.

Lemma do_options_early x c : early x c → wlp (do_options e x) c early.
Proof.
  intros H. unfold do_options. destruct (optp x) as [[cp cnt]|]; wlps; [|done].
  match goal with H : tcp_dooptions _ _ _ _ _ _ _ _ _ _ = _ |- _ => apply dooptions_writes in H as (W & C & _) end.
  apply (early_x x); [|done..]. apply (early_buf x (set_tp _ _)); [|done].
  eapply early_tp; [done|done|by apply (writes_frame _ _ _ _ W); simpl; auto..].
Qed.

Lemma options_early x c : early x c → wlp (options e x) c (goes early).
Proof.
  intros H. unfold options. wlps; [|done]. eapply wlp_mono; [by apply do_options_early|]. intros x' c' H'. by wlps.
Qed.

Lemma strip_early x c : early x c → wlp (strip x) c early.
Proof. intros H. unfold strip. destruct (m x); wlps. by apply (early_x x). Qed.

Lemma receive_window_early x c : early x c → wlp (receive_window x) c (goes early).
Proof.
  intros H. unfold receive_window. wlps. eapply wlp_mono; [by apply strip_early|]. intros x' c' H'. wlps.
  eapply early_tp; [done|done|by tsimpl|by tsimpl].
Qed.

(** A state that did not change. *)
Lemma same_left x c : st c = st c0 → (dropsocket x = true → st c0 = TCPS_LISTEN) → left x c.
Proof. intros H Hd. split; rewrite H; [apply rtc_refl|done]. Qed.

Lemma early_sock x c : early x c → dropsocket x = true → st c0 = TCPS_LISTEN.
Proof. intros H K. rewrite <- (ea_st _ _ H). by apply H. Qed.

Lemma early_state x c tp : early x c → c_tp c = Some tp → tp t_state = st c0.
Proof. intros H Ht. rewrite <- (ea_st _ _ H). unfold st. by rewrite Ht. Qed.

Lemma early_tpuna x c tp : early x c → c_tp c = Some tp → tp snd_una = una c0.
Proof. intros H Ht. rewrite <- (ea_una _ _ H). unfold una. by rewrite Ht. Qed.

(** [kept] reads the state of the control block a handler leaves. *)
Ltac kept :=
  repeat first
    [ progress unfold set_tflag | rewrite wr_eq | rewrite wr_ne by discriminate
    | rewrite measure_keeps by (simpl; tauto)
    | match goal with
      | H : writes out_field ?tp ?tp' |- context [?tp' t_state] => rewrite (writes_frame _ _ _ t_state H) by (by intros [|])
      | |- context [(if ?b then _ else _) ?f] => destruct b
      end ].

Lemma predict_ack_left x c : early x c → wlp (predict_ack e x) c (goes early).
Proof.
  intros H. unfold predict_ack, snd_drop. wlps; simplify_eq/=; (apply same_left; [|by eapply early_sock]);
    unfold st; simpl; kept; by eapply early_state.
Qed.

Lemma predict_data_left x c : early x c → wlp (predict_data x) c (goes early).
Proof.
  intros H. unfold predict_data, rcv_append. wlps.
  eapply wlp_mono; [apply strip_early|].
  { eapply early_tp; [done|done|by tsimpl|by tsimpl]. }
  intros x' c' H'. wlps. simplify_eq/=. apply same_left; [|by eapply early_sock]. unfold st, set_tflag. simpl. tsimpl.
  by eapply early_state.
Qed.

Lemma predict_early x c : early x c → wlp (predict e x) c (goes early).
Proof.
  intros H. unfold predict. wlps; simplify_eq/=; try done;
    match goal with |- context [set_tp (Some ?tp') c] =>
      assert (H' : early x (set_tp (Some tp') c)) by (eapply early_tp; [done|done|by kept..])
    end; try done; [by apply predict_ack_left|by apply predict_data_left].
Qed.

(** ** Trimming *)

Lemma paws_early x c : early x c → wlp (paws e x) c (goes early).
Proof.
  intros H. unfold paws. wlps; try done; [|by apply early_left]. eapply early_tp; [done|done|by tsimpl..].
Qed.

Lemma adj_early n x c : early x c → wlp (adj n x) c early.
Proof. intros H. unfold adj. wlps. by apply (early_x x). Qed.

Lemma cut_front_early n x c : early x c → wlp (cut_front x n) c (goes early).
Proof.
  intros H. unfold cut_front. wlps. eapply wlp_mono; [by apply adj_early|]. intros x' c' H'. wlps; simpl.
  apply (early_clear TH_URG) in H' as H2; [|done..]. destruct (_ <? _); [by apply (early_x x')|].
  by apply (early_x (clear_flag TH_URG x')).
Qed.

Lemma skip_syn_early n x x' n' c : early x c → skip_syn x n = (x', n') → early x' c.
Proof.
  intros H. unfold skip_syn. destruct (has_flag x TH_SYN); [|by intros [= <- _]]. cbv zeta. intros [= <- _].
  apply (early_clear TH_SYN) in H as H1; [|done..]. apply (early_clear TH_URG) in H1 as H2; [|done..].
  destruct (_ <? _); [by apply (early_x (clear_flag TH_SYN x))|].
  by apply (early_x (clear_flag TH_URG (clear_flag TH_SYN x))).
Qed.

Lemma trim_left_early x c : early x c → wlp (trim_left x) c (goes early).
Proof.
  intros H. unfold trim_left. wlps; try done;
    match goal with E : skip_syn _ _ = _ |- _ => eapply skip_syn_early in E; [|done] end.
  - apply cut_front_early. eapply early_tp; [|done|unfold set_tflag; by tsimpl..]. by apply early_clear.
  - by apply early_left.
  - by apply cut_front_early.
  - by apply cut_front_early.
Qed.

(** ** Closing *)

Lemma close_closed c : wlp (tcp_close e) c (λ _ c', c_tp c' = None).
Proof.
  unfold tcp_close. wlps; done.
Qed.

Lemma drop_closed err c : wlp (tcp_drop e err) c (λ _ c', c_tp c' = None).
Proof. unfold tcp_drop. wlps; apply close_closed. Qed.

Lemma abort_closed c : wlp (soabort e) c (λ _ c', c_tp c' = None).
Proof. unfold soabort. wlps; [apply drop_closed|done]. Qed.

(** A step to CLOSED, on a connection whose socket stays. *)
Lemma closed_left x x' c c' :
  early x c → rfc793 (signals_of x0 c0) (st c0) TCPS_CLOSED → TCPS_LISTEN < st c0 →
  dropsocket x' = dropsocket x → c_tp c' = None → left x' c'.
Proof.
  intros H Hr Hs Hd Hc. assert (Hst : st c' = TCPS_CLOSED) by (unfold st; by rewrite Hc).
  split; rewrite Hst; [by apply rtc_once|].
  intros K. rewrite Hd in K. apply (early_sock _ _ H) in K. lia.
Qed.

Lemma nobody_early x c : early x c → wlp (nobody e x) c (goes early).
Proof.
  intros H. unfold nobody. wlps; [|done]. eapply wlp_mono; [apply close_closed|]. intros [] c' Hc. wlps.
  zbool. pose proof (early_state _ _ _ H ltac:(eassumption)) as Hs.
  eapply closed_left; [done| |unfold TCPS_LISTEN, TCPS_CLOSE_WAIT in *; lia|done|done].
  apply orphan; [by rewrite <- Hs|]. unfold signals_of, sflag. simpl. by rewrite <- (ea_ss _ _ H).
Qed.

Definition synced : Prop := TCPS_SYN_RECEIVED <= st c0.

Lemma reset_left x x' c c' b :
  synced → early x c → has_flag x b = true → b = TH_RST ∨ b = TH_SYN → dropsocket x' = dropsocket x →
  c_tp c' = None → left x' c'.
Proof.
  unfold synced. intros Hsync H Hb Hor Hd Hc. eapply closed_left; [done| |unfold TCPS_LISTEN, TCPS_SYN_RECEIVED in *; lia|done|done].
  apply reset; [done|]. apply (ea_sub _ _ H) in Hb. simpl. destruct Hor as [-> | ->]; auto.
Qed.

Lemma cut_back_early n x c : early x c → wlp (cut_back x n) c (goes early).
Proof.
  intros H. unfold cut_back. wlps. eapply wlp_mono; [by apply adj_early|]. intros x' c' H'. wlps; simpl.
  apply early_clear; [|done..]. by apply (early_x x').
Qed.

Lemma trim_right_early x c : synced → early x c → wlp (trim_right e x) c (goes early).
Proof.
  intros Hsync H. unfold trim_right. wlps; try done.
  - eapply wlp_mono; [apply close_closed|]. intros [] c' Hc. wlps. zbool. eapply reset_left; eauto.
  - apply cut_back_early. eapply early_tp; [done|done|unfold set_tflag; by tsimpl..].
  - by apply early_left.
  - by apply cut_back_early.
Qed.

Lemma record_ts_early x c : early x c → wlp (record_ts e x) c (goes early).
Proof. intros H. unfold record_ts. wlps. eapply early_tp; [done|done|by kept..]. Qed.

Lemma check_rst_early x c :
  synced → st c0 <= TCPS_TIME_WAIT → early x c →
  wlp (check_rst e x) c (goes (λ x c, early x c ∧ fl (ti_flags x0) TH_RST = false)).
Proof.
  intros Hsync Hmax H. pose proof (ea_eq _ _ H TH_RST) as Hr.
  unfold check_rst, reset_by. wlps; [by zbool; rewrite <- Hr by auto| | | |].
  4: { zbool. repeat match goal with K : _ || _ = false |- _ => apply orb_false_iff in K as [? ?] end. zbool.
       pose proof (early_state _ _ _ H ltac:(eassumption)). exfalso. unfold synced in *.
       repeat match goal with K : _ ≠ _ |- _ => revert K end.
       unfold TCPS_SYN_RECEIVED, TCPS_TIME_WAIT, TCPS_ESTABLISHED, TCPS_CLOSE_WAIT, TCPS_FIN_WAIT_1, TCPS_FIN_WAIT_2,
         TCPS_CLOSING, TCPS_LAST_ACK in *. lia. }
  all: zbool; (eapply wlp_mono; [apply close_closed|]); intros [] c' Hc;
    wlps; (eapply reset_left; [done|done|eassumption|by left|done|done]).
Qed.

Lemma check_syn_early x c : synced → early x c → wlp (check_syn e x) c (goes early).
Proof.
  intros Hsync H. unfold check_syn. wlps; [|done]. eapply wlp_mono; [apply drop_closed|]. intros [] c' Hc. wlps.
  eapply reset_left; eauto.
Qed.

Lemma need_ack_early x c :
  early x c → wlp (need_ack x) c (goes (λ x c, early x c ∧ fl (ti_flags x0) TH_ACK = true)).
Proof.
  intros H. unfold need_ack. wlps; [by apply early_left|]. split; [done|]. apply (ea_sub _ _ H). by zbool.
Qed.
(** ** From the acknowledgement on *)

(** The connection may have moved; the socket stays. *)
Record late (x : locals) (c : conn) : Prop := Late
  { la_steps : steps (st c0) (st c); la_alive : is_Some (c_tp c);
    la_q : fins (c_q c) = true → g_fin (signals_of x0 c0) = true;
    la_fin : has_flag x TH_FIN = true → g_fin (signals_of x0 c0) = true;
    la_hdr : ti_flags x = ti_flags x0; la_sock : dropsocket x = false }.

(** And nothing has been acknowledged yet. *)
Definition mid (x : locals) (c : conn) : Prop :=
  late x c ∧ una c = una c0 ∧ cc c = cc c0 ∧ ti_ack x = ti_ack x0.

Lemma late_left x c : late x c → left x c.
Proof. intros H. split; [apply H|]. by rewrite (la_sock _ _ H). Qed.

Lemma early_mid x c : early x c → TCPS_LISTEN < st c0 → mid x c.
Proof.
  intros H Hl. split; [|by destruct H]. pose proof (early_sock _ _ H) as Hd. destruct H as [A B C D E F G H I I2 J].
  constructor; try done; simpl.
  - rewrite A. apply rtc_refl.
  - rewrite D. intros ->. apply orb_true_r.
  - intros Hf. by rewrite (I _ Hf).
  - destruct (dropsocket x); [|done]. specialize (Hd eq_refl). lia.
Qed.

Lemma late_to x c c' :
  late x c → st c' = st c → c_q c' = c_q c → is_Some (c_tp c') → late x c'.
Proof. intros [A B C D E F] H1 H2 H3. constructor; rewrite ?H1, ?H2; done. Qed.

Lemma late_step x c c' :
  late x c → rfc793 (signals_of x0 c0) (st c) (st c') → c_q c' = c_q c → is_Some (c_tp c') → late x c'.
Proof. intros [A B C D E F] Hs H2 H3. constructor; rewrite ?H2; try done. by eapply rtc_r. Qed.

Lemma late_x x x' c :
  late x c → ti_flags x' = ti_flags x → dropsocket x' = dropsocket x →
  (has_flag x' TH_FIN = true → has_flag x TH_FIN = true) → late x' c.
Proof. intros [A B C D E F] H1 H2 H3. constructor; try done; try congruence. auto. Qed.

(** [late] follows a handler that keeps the state of the control block. *)
Ltac late :=
  first [apply late_left; late_go | late_go]
with late_go :=
  eapply late_to; [eassumption|unfold st; simpl;
     repeat match goal with H : c_tp _ = Some _ |- _ => rewrite ?H; clear H end; by kept|done|simpl; by eauto].

Lemma duplicate_ack_late x c tp :
  late x c → c_tp c = Some tp → wlp (duplicate_ack e x tp) c (goes late).
Proof. intros H Ht. unfold duplicate_ack, fast_retransmit. wlps; simplify_eq/=; late. Qed.

Lemma st_tp c tp : c_tp c = Some tp → st c = tp t_state.
Proof. unfold st. by intros ->. Qed.

Lemma una_tp c tp : c_tp c = Some tp → una c = tp snd_una.
Proof. unfold una. by intros ->. Qed.

(** [moves r] is a step [r] of the state machine. *)
Ltac moves r :=
  eapply late_step; [eassumption| |done|simpl; by eauto];
  match goal with K : c_tp ?c = Some _, S : _ t_state = _ |- rfc793 _ (st ?c) _ => rewrite (st_tp _ _ K), S end;
  erewrite st_tp by done; kept; apply r; auto.

(** What [drop_acked] says of our FIN. *)
Lemma drop_acked_late x acked c :
  late x c → wlp (drop_acked x acked) c (λ fin c', fin = (cc c <? u32 acked) ∧ late x c').
Proof.
  intros H. unfold drop_acked, snd_drop. wlps; simplify_eq/=; (split; [done|]); late.
Qed.

Lemma ack_fin_late x fin c :
  late x c → fl (ti_flags x0) TH_ACK = true → (fin = true → g_finack (signals_of x0 c0) = true) →
  wlp (ack_fin e x fin) c (goes late).
Proof.
  intros H Ha Hf. unfold ack_fin.
  assert (Hg : g_ack (signals_of x0 c0) = true) by done.
  wlps; simplify_eq/=; try done; zbool; try (late; fail);
    [moves finwait1_finack|moves finwait1_finack|moves closing_finack|].
  eapply wlp_mono; [apply close_closed|]. intros [] c' Hc. wlps. split; [|by rewrite (la_sock _ _ H)].
  eapply rtc_r; [apply H|]. unfold st at 2. rewrite Hc.
  match goal with K : c_tp c = Some _, S : _ t_state = _ |- _ => rewrite (st_tp _ _ K), S end.
  apply lastack_finack; auto.
Qed.

Lemma ack_timer_keeps x tp tp' x' :
  ack_timer x tp = (tp', x') → tp' t_state = tp t_state ∧ (x' = x ∨ x' = set_needoutput x).
Proof. unfold ack_timer. intros H. ifs_in H; simplify_eq/=; (split; [by kept|auto]). Qed.

Lemma new_ack_late x c tp :
  mid x c → fl (ti_flags x0) TH_ACK = true → c_tp c = Some tp → wlp (new_ack e x tp) c (goes late).
Proof.
  intros (H & Hu & Hc & Hk) Ha Ht. unfold new_ack. wlps; [simplify_eq/=; late|].
  match goal with E : ack_timer _ _ = _ |- _ => apply ack_timer_keeps in E as [Hs Hx] end.
  match goal with |- wlp _ ?c' _ => assert (Hl : late x c') end.
  { eapply late_to; [exact H| |done|simpl; by eauto]. rewrite (st_tp _ _ Ht). unfold st, open_cwnd. simpl. kept.
    rewrite Hs. by kept. }
  match goal with |- wlp (drop_acked ?x' _) ?c' _ => assert (late x' c') as Hl' end.
  { destruct Hx as [-> | ->]; [done|]. by apply (late_x x). }
  eapply wlp_mono; [by apply drop_acked_late|]. intros fin c' [Hfin Hl2]. apply ack_fin_late; [done..|].
  intros ->. symmetry in Hfin. simpl. rewrite <- Hc, <- Hk, <- Hu, (una_tp _ _ Ht).
  revert Hfin. unfold cc. simpl. kept; done.
Qed.

Lemma process_ack_late x c :
  mid x c → fl (ti_flags x0) TH_ACK = true → wlp (process_ack e x) c (goes late).
Proof.
  intros H Ha. unfold process_ack. wlps; [by apply duplicate_ack_late; [apply H|]|by apply new_ack_late|by apply H].
Qed.

(** ** The connection is established *)

Lemma wakeup_cc sb : Sockbuf.sb_cc (Sockbuf.sowakeup sb).1 = Sockbuf.sb_cc sb.
Proof. unfold Sockbuf.sowakeup. by destruct (ztrue _). Qed.

Lemma soisconnected_keeps c :
  wlp soisconnected c (λ _ c', c_tp c' = c_tp c ∧ c_q c' = c_q c ∧ cc c' = cc c).
Proof. unfold soisconnected. wlps; try done. split_and!; try done. apply wakeup_cc. Qed.

Lemma present_all_keeps ps : ∀ c,
  wlp (present_all ps) c (λ _ c', c_tp c' = c_tp c ∧ c_q c' = c_q c ∧ cc c' = cc c).
Proof.
  induction ps as [|p ps IH]; intros c; simpl; unfold rcv_append; wlps; try done;
    (eapply wlp_mono; [apply IH|]); intros [] c' (-> & -> & ->); done.
Qed.

Lemma reass_present_keeps c tp :
  c_tp c = Some tp →
  wlp reass_present c (λ _ c', (∃ tp', c_tp c' = Some tp' ∧ writes (.= rcv_nxt) tp tp') ∧
    (fins (c_q c') = true → fins (c_q c) = true) ∧ cc c' = cc c).
Proof.
  intros Ht. pose proof (reass_presents (c_ms c) tp (c_q c) None) as Hp. unfold presents in Hp.
  unfold reass_present. wlps; simplify_eq;
    match goal with E : TcpReass.tcp_reass _ _ _ = _ |- _ => rewrite E in Hp; destruct Hp as (W & _ & Q) end;
    (eapply wlp_mono; [apply present_all_keeps|]); intros [] c' (Ht' & Hq' & Hc'); simpl in *;
    match goal with |- wlp (match ?l with _ => _ end) _ _ => destruct l end; wlps;
    (split; [eexists; by split|]); simpl; rewrite ?Hq'; split; try done; by rewrite <- Hc'.
Qed.

(** [establish] from a state with a step to ESTABLISHED. *)
Lemma establish_late x c :
  late x c → rfc793 (signals_of x0 c0) (st c) TCPS_ESTABLISHED →
  wlp establish c (λ _ c', late x c' ∧ una c' = una c ∧ cc c' = cc c).
Proof.
  intros H Hr. unfold establish. wlps. eapply wlp_mono; [apply soisconnected_keeps|].
  intros [] c1 (T1 & Q1 & C1). wlps.
  match goal with |- wlp reass_present (set_tp (Some ?t) _) _ => set (tp1 := t) end.
  eapply wlp_mono; [by apply (reass_present_keeps _ tp1)|]. intros [] c2 ((tp2 & T2 & W2) & Q2 & C2). simpl in *.
  match goal with K : c_tp c1 = Some _ |- _ => rewrite T1 in K; rewrite (una_tp _ _ K) end.
  assert (Hun : tp2 snd_una = tp snd_una ∧ tp2 t_state = TCPS_ESTABLISHED).
  { rewrite !(writes_frame _ _ _ _ W2) by done. unfold tp1, scale_windows. cbv zeta. split; by kept. }
  destruct Hun as [Hun Hst]. split_and!; [|by rewrite (una_tp _ _ T2)|unfold cc in *; simpl in *; congruence].
  destruct H as [A B C D E F]. constructor; try done.
  - eapply rtc_r; [done|]. rewrite (st_tp _ _ T2), Hst. done.
  - intros K. apply C. rewrite <- Q1. auto.
Qed.

Lemma ack_syn_mid x c :
  early x c → synced → fl (ti_flags x0) TH_RST = false → fl (ti_flags x0) TH_ACK = true →
  wlp (ack_syn x) c (goes mid).
Proof.
  intros H Hs Hr Ha. apply early_mid in H as (H & Hu & Hc & Hk); [|unfold synced, TCPS_LISTEN, TCPS_SYN_RECEIVED in *; lia].
  unfold ack_syn. wlps; [by split|by apply late_left|].
  eapply wlp_mono; [apply (establish_late x); [done|]|].
  { zbool. match goal with K : c_tp c = Some _, S : _ t_state = _ |- _ => rewrite (st_tp _ _ K), S end. by apply synrcvd_ack. }
  intros [] c' (H' & Hu' & Hc'). wlps.
  split_and!; [late|unfold una in *; simpl; kept|unfold cc in *; simpl|done]; [|congruence].
  rewrite <- Hu, <- Hu'. match goal with K : c_tp c' = Some _ |- _ => by rewrite K end.
Qed.

(** ** The first segment of a connection *)

Lemma early_late x x' c :
  early x c → ti_flags x' = ti_flags x → tiflags x' = tiflags x → dropsocket x' = false → late x' c.
Proof.
  intros [A B C D E F G H I I2 J] K1 K2 K3. constructor; try done; simpl; try congruence.
  - rewrite A. apply rtc_refl.
  - rewrite D. intros ->. apply orb_true_r.
  - unfold has_flag. rewrite K2. intros Hf. by rewrite (I _ Hf).
Qed.

Lemma listen_late x c : early x c → st c0 = TCPS_LISTEN → wlp (listen e x) c (goes late).
Proof.
  intros H Hs. unfold listen.
  destruct (has_flag x TH_RST) eqn:Er; [by apply early_left|].
  destruct (has_flag x TH_ACK) eqn:Ea; [by apply early_left|].
  destruct (negb (has_flag x TH_SYN)) eqn:Es; [by apply early_left|].
  wlps; try by apply early_left.
  unfold wlp at 1, tcp_template. zbool. apply (ea_sub _ _ H) in Es.
  rewrite (ea_eq _ _ H) in Er, Ea by auto.
  destruct (c_template c || e_template e); cbv beta iota; simpl negb; cbv iota.
  - wlps. eapply wlp_mono; [apply (do_options_early x)|].
    { destruct H. by constructor. }
    intros x' c' H'. wlps. simplify_eq/=.
    match goal with |- late _ ?c'' => assert (late (keep_socket x') c') as Hl by (by apply (early_late x')) end.
    eapply late_step; [exact Hl| |done|simpl; by eauto].
    match goal with K : c_tp c' = Some _ |- _ => rewrite (st_tp _ _ K), (early_state _ _ _ H' K), Hs end.
    erewrite st_tp by done. unfold tcp_rcvseqinit, tcp_sendseqinit. cbv zeta. kept. by apply listen_syn.
  - wlps. eapply wlp_mono; [apply drop_closed|]. intros [] c' Hc. wlps. split; [|done].
    unfold st at 2. rewrite Hc, Hs. apply rtc_once, listen_discard.
Qed.

Lemma trim_syn_late x c : late x c → wlp (trim_syn x) c (goes late).
Proof.
  intros H. unfold trim_syn, adj. wlps; simplify_eq/=.
  - eapply late_x; [eapply late_to; [exact H| |done|simpl; by eauto]|done|done|intros K; apply clear_sub in K; exact K].
    unfold st; simpl. match goal with K : c_tp c = Some _ |- _ => rewrite K end. by kept.
  - apply (late_x x); [late|done..].
Qed.

(** In SYN_SENT an acceptable acknowledgement covers our SYN. *)
Lemma syn_acked ack i : SEQ_LEQ ack i = false → SEQ_GT (u32 ack) i = true.
Proof. unfold SEQ_LEQ, SEQ_GT. rewrite Z.leb_gt, Z.ltb_lt. wraplia. Qed.

Lemma syn_sent_late x c : early x c → st c0 = TCPS_SYN_SENT → wlp (syn_sent e x) c (goes late).
Proof.
  intros H Hs. assert (Hd : dropsocket x = false).
  { destruct (dropsocket x) eqn:Ed; [|done]. apply (early_sock _ _ H) in Ed. by rewrite Hs in Ed. }
  unfold syn_sent. apply wlp_bind, wlp_get_tp. intros tp Ht.
  pose proof (early_state _ _ _ H Ht) as Hst. rewrite Hs in Hst.
  destruct (_ && _) eqn:E1; [by apply early_left|].
  pose proof (ea_eq _ _ H) as Heq.
  destruct (has_flag x TH_RST) eqn:Er.
  { rewrite Heq in Er by auto. destruct (has_flag x TH_ACK) eqn:Ea; wlps; [|by apply early_left].
    rewrite Heq in Ea by auto. eapply wlp_mono; [apply drop_closed|]. intros [] c' Hc. wlps. split; [|by rewrite Hd].
    unfold st at 2. rewrite Hc, Hs. by apply rtc_once, synsent_refused. }
  destruct (negb (has_flag x TH_SYN)) eqn:Es; [by apply early_left|]. zbool. apply (ea_sub _ _ H) in Es.
  rewrite Heq in Er by auto. pose proof (early_late x x c H eq_refl eq_refl Hd) as Hl.
  assert (Hc : st c = TCPS_SYN_SENT) by (by rewrite (st_tp _ _ Ht)).
  destruct (has_flag x TH_ACK) eqn:Ea; rewrite Heq in Ea by auto.
  - simpl in E1. apply orb_false_iff in E1 as [E1 _]. cbv zeta.
    match goal with |- context [put_tp (set_tflag TF_ACKNOW ?t)] => set (tp1 := t) end.
    assert (Hg : SEQ_GT (set_tflag TF_ACKNOW tp1 snd_una) (set_tflag TF_ACKNOW tp1 iss) = true).
    { unfold tp1, tcp_rcvseqinit. cbv zeta. kept; cbn [conv]; by apply syn_acked. }
    rewrite Hg. simpl andb. cbv iota. wlps. eapply wlp_mono.
    { eapply (establish_late x).
      - eapply late_to; [exact Hl| |done|simpl; by eauto]. rewrite Hc. unfold st. simpl. unfold tp1, tcp_rcvseqinit. by kept.
      - unfold st. simpl. unfold tp1, tcp_rcvseqinit. cbv zeta. kept; rewrite Hst; by apply synsent_synack. }
    intros [] c' (H' & _). wlps; simplify_eq/=.
    eapply late_to; [exact H'| |done|simpl; by eauto]. unfold st. simpl.
    match goal with K : c_tp c' = Some _ |- _ => rewrite K end. destruct (ztrue _); [|done].
    apply (writes_frame _ _ _ _ (xmit_writes _ _)). simpl; tauto.
  - simpl andb. cbv iota zeta. wlps. eapply late_step; [exact Hl| |done|simpl; by eauto].
    rewrite Hc. unfold st. simpl. tsimpl. by apply synsent_syn.
Qed.

(** ** From [step6] to the end *)

Lemma update_window_late x c : late x c → wlp (update_window x) c (goes late).
Proof. intros H. unfold update_window. wlps; [|done]. apply (late_x x); [|done..]. late. Qed.

Lemma urgent_mark_late x c : late x c → wlp (urgent_mark x) c (λ _ c', late x c').
Proof. intros H. unfold urgent_mark. wlps; [|done]. late. Qed.

Lemma urgent_late x c : late x c → wlp (urgent e x) c (goes late).
Proof.
  intros H. unfold urgent, tcp_pulloutofband. wlps; try late.
  - apply (late_x x); [done..|]. intros K. apply clear_sub in K. exact K.
  - eapply wlp_mono; [by apply urgent_mark_late|]. intros [] c' H'. wlps; [|done]. simplify_eq/=.
    apply (late_x x); [late|done..].
Qed.

Lemma segment_text_late x c : late x c → wlp (segment_text x) c (goes late).
Proof.
  intros H. unfold segment_text. apply wlp_bind, wlp_get_tp. intros tp Ht. apply wlp_bind, wlp_get.
  destruct (_ && _).
  - cbv zeta. set (ti := TcpReass.TSeg (ti_seq x) (ti_len x) (ti_flags x) (m x)).
    pose proof (TCP_REASS_presents (c_ms c) tp (c_q c) ti) as Hp.
    destruct (@TcpReass.TCP_REASS _ _ tp (c_q c) ti) as [[[tp' flags] ps] q']. destruct Hp as (W & F & Q).
    assert (Hf : fins (ti :: c_q c) = true → g_fin (signals_of x0 c0) = true).
    { rewrite fins_cons. unfold ti. simpl TcpReass.ti_flags. rewrite (la_hdr _ _ H). intros K.
      apply orb_true_iff in K as [K|K]; [simpl; by rewrite K|by apply (la_q _ _ H)]. }
    assert (Hl : ∀ c', c_tp c' = Some tp' → c_q c' = q' → late (set_tiflags flags x) c').
    { intros c' T' Q'. destruct H as [A B C D E G]. constructor; try done.
      - rewrite (st_tp _ _ T'). rewrite (st_tp _ _ Ht) in A. rewrite (writes_frame _ _ _ _ W); [done|]. by intros [|].
      - rewrite Q'. auto.
      - unfold has_flag. simpl. auto. }
    apply wlp_bind, wlp_put_tp, wlp_bind, wlp_modify, wlp_bind.
    match goal with |- wlp ?m ?c1 _ => eapply (wlp_mono m c1 (λ _ c', c_tp c' = Some tp' ∧ c_q c' = q')) end.
    { destruct (_ && _); [unfold rcv_append; by wlps|].
      eapply wlp_mono; [apply present_all_keeps|]. by intros [] c' (-> & -> & _). }
    intros [] c' [T' Q']. destruct ps; wlps; by apply Hl.
  - wlps. eapply late_x; [by apply (late_to x c); [done..|eauto using la_alive]|done|done|].
    intros K. by apply clear_sub in K.
Qed.

Lemma process_fin_late x c : late x c → wlp (process_fin x) c (goes late).
Proof.
  intros H. unfold process_fin. destruct (negb (has_flag x TH_FIN)) eqn:Ef; [done|]. zbool.
  pose proof (la_fin _ _ H Ef) as Hg. apply wlp_bind, wlp_get_tp. intros tp Ht. apply wlp_bind.
  match goal with |- wlp ?m _ _ => eapply (wlp_mono m c (λ _ c', late x c')) end.
  { wlps; [late|done]. }
  clear H tp Ht c. intros [] c H. cbv zeta. apply wlp_bind, wlp_get_tp. intros tp Ht.
  wlps; zbool; try done; try (late; fail);
    [|moves finwait1_fin|unfold tcp_canceltimers; simpl; moves finwait2_fin].
  match goal with K : _ || _ = true |- _ => apply orb_true_iff in K as [K|K] end; zbool;
    [moves synrcvd_fin|moves established_fin].
Qed.

Lemma send_reply_late x c : late x c → wlp (send_reply e x) c (goes late).
Proof. intros H. unfold send_reply. wlps; simplify_eq/=; late. Qed.

Lemma step6_late x c : late x c → wlp (step6 e x) c (goes late).
Proof.
  intros H. unfold step6. eapply wlp_andthen; [by apply update_window_late|]. clear x c H. intros x c H.
  eapply wlp_andthen; [by apply urgent_late|]. clear x c H. intros x c H.
  eapply wlp_andthen; [by apply segment_text_late|]. clear x c H. intros x c H.
  eapply wlp_andthen; [by apply process_fin_late|]. clear x c H. intros x c H. by apply send_reply_late.
Qed.

Lemma by_state_late x c :
  early x c → TCPS_LISTEN <= st c0 <= TCPS_TIME_WAIT → wlp (by_state e x) c (goes late).
Proof.
  intros H Hst. unfold by_state. apply wlp_bind, wlp_get_tp. intros tp Ht.
  pose proof (early_state _ _ _ H Ht) as Hs. rewrite Hs.
  destruct (Z.eqb_spec (st c0) TCPS_LISTEN) as [E1|E1].
  { eapply wlp_andthen; [by apply listen_late|]. intros x' c' H'. by apply trim_syn_late. }
  destruct (Z.eqb_spec (st c0) TCPS_SYN_SENT) as [E2|E2].
  { eapply wlp_andthen; [by apply syn_sent_late|]. intros x' c' H'. by apply trim_syn_late. }
  assert (Hy : synced).
  { unfold synced, TCPS_LISTEN, TCPS_SYN_SENT, TCPS_SYN_RECEIVED, TCPS_TIME_WAIT in *. lia. }
  unfold synchronised. eapply wlp_andthen; [by apply paws_early|]. clear x c H tp Ht Hs. intros x c H.
  eapply wlp_andthen; [by apply trim_left_early|]. clear x c H. intros x c H.
  eapply wlp_andthen; [by apply nobody_early|]. clear x c H. intros x c H.
  eapply wlp_andthen; [by apply trim_right_early|]. clear x c H. intros x c H.
  eapply wlp_andthen; [by apply record_ts_early|]. clear x c H. intros x c H.
  eapply wlp_andthen; [by apply check_rst_early; [|apply Hst|]|]. clear x c H. intros x c [H Hr].
  eapply wlp_andthen; [by apply check_syn_early|]. clear x c H. intros x c H.
  eapply wlp_andthen; [by apply need_ack_early|]. clear x c H. intros x c [H Ha].
  eapply wlp_andthen; [by apply ack_syn_mid|]. clear x c H. intros x c H. by apply process_ack_late.
Qed.

(** ** The labels *)

Lemma at_drop_left x c : left x c → wlp (at_drop e x) c (λ _ c', steps (st c0) (st c')).
Proof.
  intros [Hs Hd]. unfold at_drop. wlps; [|exact Hs]. eapply wlp_mono; [apply abort_closed|].
  intros [] c' Hc. unfold st at 2. rewrite Hc. rewrite Hd in Hs by done. eapply rtc_r; [exact Hs|apply listen_discard].
Qed.

Lemma at_dropafterack_left x c : left x c → wlp (at_dropafterack e x) c (λ _ c', steps (st c0) (st c')).
Proof.
  intros H. unfold at_dropafterack. destruct (has_flag x TH_RST); [by apply at_drop_left|].
  destruct H as [H _]. wlps. simplify_eq/=. unfold st at 2. simpl. kept.
  match goal with K : c_tp c = Some _ |- _ => by rewrite <- (st_tp _ _ K) end.
Qed.

Lemma respond_state seg ack seq flags c : wlp (tcp_respond e seg ack seq flags) c (λ _ c', st c' = st c).
Proof. unfold wlp, tcp_respond. destruct seg; [done|]. by destruct (e_header e). Qed.

Lemma at_dropwithreset_left x c : left x c → wlp (at_dropwithreset e x) c (λ _ c', steps (st c0) (st c')).
Proof.
  intros H. unfold at_dropwithreset. destruct (_ || _); [by apply at_drop_left|]. destruct H as [Hs Hd].
  wlps; (eapply wlp_mono; [apply respond_state|]); intros [] c' Hc; change (st c' = st c) in Hc; wlps; try (by rewrite Hc);
    (eapply wlp_mono; [apply abort_closed|]); intros [] c2 H2; unfold st at 2; rewrite H2; rewrite Hd in Hs by done;
    (eapply rtc_r; [exact Hs|apply listen_discard]).
Qed.

End Segment.

(** ** Properties *)

(** C2: [tcp_input] refines the state machine of RFC 793: whatever segment arrives
    for a connection, the state it is left in is reached from its state before by
    steps of the diagram that the segment's flags, its acknowledgement of our FIN
    and the FINs in its data allow (no step is a step, too). *)
Theorem tcp_input_refines_rfc793 e x c r c' :
  TCPS_LISTEN <= st c <= TCPS_TIME_WAIT → tiflags x = ti_flags x →
  (dropsocket x = true → st c = TCPS_LISTEN) →
  tcp_input e x c = Ok (r, c') → rtc (rfc793 (signals_of x c)) (st c) (st c').
Proof.
  intros Hst Hf Hd H. assert (He : early c x x c).
  { constructor; try done.
    - unfold st in Hst. destruct (c_tp c); [done|]. unfold TCPS_LISTEN, TCPS_CLOSED in Hst. lia.
    - intros b. unfold has_flag. by rewrite Hf.
    - intros b _. unfold has_flag. by rewrite Hf. }
  assert (Hp : wlp (process e x) c (goes c x (late c x))).
  { unfold process. eapply wlp_andthen; [by apply arrive_early|]. intros x1 c1 H1.
    eapply wlp_andthen; [by apply options_early|]. clear x1 c1 H1. intros x1 c1 H1.
    eapply wlp_andthen; [by apply predict_early|]. clear x1 c1 H1. intros x1 c1 H1.
    eapply wlp_andthen; [by apply receive_window_early|]. clear x1 c1 H1. intros x1 c1 H1.
    eapply wlp_andthen; [by apply by_state_late|]. clear x1 c1 H1. intros x1 c1 H1. by apply step6_late. }
  assert (Ht : wlp (tcp_input e x) c (λ _ c', rtc (rfc793 (signals_of x c)) (st c) (st c'))).
  { unfold tcp_input. apply wlp_bind. eapply wlp_mono; [exact Hp|]. intros [x1|l x1] c1 H1; [by apply la_steps in H1|].
    simpl in H1. destruct l; wlps.
    - eapply wlp_mono; [by apply at_drop_left|]. intros [] c2 H2. by wlps.
    - eapply wlp_mono; [by apply at_dropafterack_left|]. intros [] c2 H2. by wlps.
    - eapply wlp_mono; [by apply at_dropwithreset_left|]. intros [] c2 H2. by wlps.
    - by destruct H1.
    - by destruct H1. }
  unfold wlp in Ht. by rewrite H in Ht.
Qed.

(** A FIN takes an established connection to CLOSE_WAIT. *)
Definition ex_fin : locals := ex_seg 77 4294967000 (Z.lor TH_ACK TH_FIN) 8192 0.
Definition ex_open : conn := ex_conn ex_tp (ex_socket (ex_buf 0 8192 []) (ex_buf 0 8192 [])).

Lemma tcp_input_refines_rfc793_witness :
  ∃ c, tcp_input ex_env ex_fin ex_open = Ok (None, c) ∧ st c = TCPS_CLOSE_WAIT ∧
    rtc (rfc793 (signals_of ex_fin ex_open)) TCPS_ESTABLISHED (st c).
Proof.
  assert (match tcp_input ex_env ex_fin ex_open with Ok (None, c) => st c =? TCPS_CLOSE_WAIT | _ => false end = true) as H by (by vm_compute).
  destruct (tcp_input ex_env ex_fin ex_open) as [[[?|] c]| |] eqn:E; try discriminate H.
  exists c. split; [reflexivity|]. split; [apply Z.eqb_eq; exact H|].
  change TCPS_ESTABLISHED with (st ex_open). refine (tcp_input_refines_rfc793 ex_env ex_fin ex_open None c _ _ _ E).
  - split; discriminate.
  - reflexivity.
  - discriminate.
Defined.

End TcpFsm.
