(* ===== verification/TcpUser.v ===== *)
(** * The requests of the users of TCP (netinet/tcp_usrreq.c)

    [tcp_usrreq], which the socket layer and the timers call, with [tcp_attach],
    [tcp_disconnect] and [tcp_usrclosed], and the options of TCP.  The state is a
    connection with the list of the protocol control blocks of TCP; the socket points at
    its block, and the block at the control block of TCP. *)

From stdpp Require Import options.
From S2P Require Import Prelude Mbuf Sockbuf Ip IpOutput IpInput Pcb Tcp TcpReass TcpOpt TcpOutput TcpConn.
From S2P Require Import Socket SockIo SockOpt TcpFrame TcpInput TcpFsm.
Import Ip IpOutput Pcb Tcp TcpOpt TcpOutput TcpConn TcpFrame TcpFsm.

Module TcpUser.

(** ** Constants *)

Definition IPPROTO_TCP : Z := 6.
Definition TCP_NODELAY : Z := 1.
Definition TCP_MAXSEG : Z := 2.
Definition TCP_LINGERTIME : Z := 120.
Definition tcp_sendspace : Z := 1024 * 8.
Definition tcp_recvspace : Z := 1024 * 8.

(** ** State *)

(** The connection of a socket, the control block [so_pcb] points at, and the list
    [tcb]. *)
Record tstate := TS { conn_of : conn; so_pcb : option Z; tcb : pcbs }.

Definition set_conn (c : conn) (u : tstate) : tstate := TS c (so_pcb u) (tcb u).
Definition set_tcb (h : pcbs) (u : tstate) : tstate := TS (conn_of u) (so_pcb u) h.

(** A control block keeps the options and the state of its socket as they are now. *)
Definition seen (so : TcpConn.socket) (i : inpcb) : inpcb :=
  Inp (inp_id i) (inp_faddr i) (inp_fport i) (inp_laddr i) (inp_lport i) (TcpConn.so_options so) (TcpConn.so_state so)
    (pr_flags i) (inp_route i) (inp_moptions i) (inp_flags i) (inp_ttl i) (inp_tos i) (inp_options i).
Definition set_ttl (t : Z) (i : inpcb) : inpcb :=
  Inp (inp_id i) (inp_faddr i) (inp_fport i) (inp_laddr i) (inp_lport i) (Pcb.so_options i) (Pcb.so_state i)
    (pr_flags i) (inp_route i) (inp_moptions i) (inp_flags i) t (inp_tos i) (inp_options i).

(** [in_pcbdetach] on the block of the socket; [sofree] is part of the socket layer. *)
Definition detach (u : tstate) : tstate :=
  match so_pcb u with
  | Some id =>
      match find_id (tcb u) id with
      | Some i => TS (conn_of u) None (in_pcbdetach (tcb u) i)
      | None => TS (conn_of u) None (tcb u)
      end
  | None => u
  end.

(** A step of the connection; what it did to the control block follows. *)
Definition is_detached (ev : event) : bool := match ev with Detached => true | _ => false end.
Definition settle (evs : list event) (u : tstate) : tstate := if existsb is_detached evs then detach u else u.

Definition on_conn {A} (m : M conn A) : M tstate A := λ u,
  match m (conn_of u) with
  | Ok (a, c) => Ok (a, settle (drop (length (c_out (conn_of u))) (c_out c)) (set_conn c u))
  | Panic => Panic
  | Crash => Crash
  end.

(** The block of the socket, up to date. *)
Definition refresh (u : tstate) : tstate :=
  match so_pcb u with Some id => set_tcb (update_pcb (tcb u) id (seen (c_so (conn_of u)))) u | None => u end.
Definition inp_of : M tstate inpcb := λ u,
  match (so_pcb u ≫= find_id (tcb u)) with Some i => Ok (i, u) | None => Crash end.

(** An operation on the block, with its error. *)
Definition on_pcb (f : inpcb → pcbs → option (Z * pcbs)) : M tstate Z :=
  do! modify refresh in
  let! i := inp_of in
  let! u := get in
  let! '(error, h) := lift (f i (tcb u)) in
  do! modify (set_tcb h) in ret error.
Definition mod_pcb (f : inpcb → inpcb) : M tstate () :=
  let! i := inp_of in modify (λ u, set_tcb (update_pcb (tcb u) (inp_id i) f) u).

(** ** Requests

    The argument [m] of a request is a chain, [nam] a length and an address. *)
Inductive request :=
  | PRU_ATTACH (a : option Z) (cb : bool)       (* what [malloc] gives for the block, and for the control block of TCP *)
  | PRU_DETACH
  | PRU_BIND (nam : option (Z * sockaddr_in))
  | PRU_LISTEN
  | PRU_CONNECT (n : Z) (sin : sockaddr_in)
  | PRU_CONNECT2
  | PRU_DISCONNECT
  | PRU_ACCEPT
  | PRU_SHUTDOWN
  | PRU_RCVD
  | PRU_SEND (m : packet)
  | PRU_ABORT
  | PRU_SENSE
  | PRU_RCVOOB (m : packet) (flags : Z)
  | PRU_SENDOOB (m : packet)
  | PRU_SOCKADDR
  | PRU_PEERADDR
  | PRU_SLOWTIMO (timer : nat)
  | PRU_CONTROL (cmd : Z)
  | PRU_OTHER.

(** What is stored through the arguments: a name, the block size of [stat], the byte
    out of band. *)
Inductive reply := Nothing | Name (sin : sockaddr_in) | Blksize (n : Z) | Oob (m : packet).

(** The chain of a request. *)
Definition data_of (req : request) : packet :=
  match req with PRU_SEND m | PRU_RCVOOB m _ | PRU_SENDOOB m => m | _ => [] end.

Section User.
Context (e : env) (sb_max rttdflt keepintvl ip_defttl : Z) (do_rfc1323 : bool).
(** The interfaces and the routes, as for [in_pcbbind] and [in_pcbconnect]; the metrics of
    a route and whether it is a default route; [in_control]. *)
Context (ifa_ifwithaddr : Z → bool) (suser : Z) (in_ifaddrs : list in_ifaddr) (rtalloc : Z → option rtentry).
Context (ifa_ifwithdstaddr ifa_ifwithnet : Z → option in_ifaddr) (metrics : rtentry → route_info * bool).
Context (in_control : Z → Z).

(** ** Attaching *)

Definition reserve : M conn Z :=
  let! so := get_so in
  let snd := so_snd (so_buf so) in
  let rcv := so_rcv (so_buf so) in
  let! r := low (Sockbuf.soreserve sb_max (Socket.flush_fuel snd) snd rcv tcp_sendspace tcp_recvspace) in
  let '(snd, rcv, error) := r in
  do! mod_buf (λ _, Sock snd rcv) in ret error.

(** [in_pcballoc]: [so_pcb] points at the new block. *)
Definition pcballoc (a : option Z) : M tstate Z := λ u,
  let so := c_so (conn_of u) in
  let '(error, h) := in_pcballoc a (TcpConn.so_options so) (TcpConn.so_state so) (Z.lor PR_CONNREQUIRED Socket.PR_WANTRCVD) (tcb u) in
  Ok (error, TS (conn_of u) (if error =? 0 then a else so_pcb u) h).

Definition tcp_attach (a : option Z) (cb : bool) : M tstate Z :=
  let! so := on_conn get_so in
  let! error := (if (Sockbuf.sb_hiwat (so_snd (so_buf so)) =? 0) || (Sockbuf.sb_hiwat (so_rcv (so_buf so)) =? 0)
                 then on_conn reserve else ret 0) in
  if ztrue error then ret error
  else
    let! error := pcballoc a in
    if ztrue error then ret error
    else if negb cb then
      let! so := on_conn get_so in
      let nofd := Z.land (TcpConn.so_state so) TcpConn.SS_NOFDREF in
      do! on_conn (mod_so (clear_sflag TcpConn.SS_NOFDREF)) in
      do! modify detach in
      do! on_conn (mod_so (set_sflag nofd)) in
      ret ENOBUFS
    else
      do! on_conn (do! modify (set_tp (Some (tcp_newtcpcb (e_mssdflt e) rttdflt do_rfc1323))) in
                   do! modify (set_q []) in modify (set_template false)) in
      do! mod_pcb (set_ttl ip_defttl) in
      do! on_conn (mod_tp (wr t_state TCPS_CLOSED)) in
      ret 0.

(** ** Leaving *)

(** [if (tp) tcp_output(tp)]: nothing happens once the control block is gone. *)
Definition output_if : M conn Z := λ c,
  match c_tp c with Some _ => output e c | None => Ok (0, c) end.

Definition tcp_usrclosed : M conn () :=
  let! tp := get_tp in
  let s := tp t_state in
  do! (if (s =? TCPS_CLOSED) || (s =? TCPS_LISTEN) || (s =? TCPS_SYN_SENT) then
         do! put_tp (wr t_state TCPS_CLOSED tp) in tcp_close e
       else if (s =? TCPS_SYN_RECEIVED) || (s =? TCPS_ESTABLISHED) then put_tp (wr t_state TCPS_FIN_WAIT_1 tp)
       else if s =? TCPS_CLOSE_WAIT then put_tp (wr t_state TCPS_LAST_ACK tp)
       else ret ()) in
  let! c := get in
  match c_tp c with
  | Some tp => if TCPS_FIN_WAIT_2 <=? tp t_state then mod_so soisdisconnected else ret ()
  | None => ret ()
  end.

(** The receive buffer is emptied. *)
Definition flush_rcv : M conn () :=
  let! so := get_so in
  let rcv := so_rcv (so_buf so) in
  let! rcv := low (Sockbuf.sbflush (Socket.flush_fuel rcv) rcv) in
  mod_buf (λ b, Sock (so_snd b) rcv).

Definition tcp_disconnect : M conn () :=
  let! tp := get_tp in
  let! so := get_so in
  if tp t_state <? TCPS_ESTABLISHED then tcp_close e
  else if ztrue (Z.land (TcpConn.so_options so) SO_LINGER) && (so_linger so =? 0) then tcp_drop e 0
  else
    do! mod_so soisdisconnecting in
    do! flush_rcv in
    do! tcp_usrclosed in
    do! output_if in ret ().

(** ** Connecting *)

(** The window scale to ask for; the loop has at most one round for each scale. *)
Fixpoint scale_loop (fuel : nat) (hiwat : Z) (tp : tcpcb) : option tcpcb :=
  if (tp request_r_scale <? TCP_MAX_WINSHIFT) && (Z.shiftl TCP_MAXWIN (tp request_r_scale) <? hiwat) then
    match fuel with
    | O => None
    | S fuel => scale_loop fuel hiwat (wr request_r_scale (tp request_r_scale + 1) tp)
    end
  else Some tp.

(** The route [tcp_mss] finds: the one of the block, or a new one to its peer. *)
Definition peer_route (i : inpcb) : option rtentry :=
  match ro_rt (inp_route i) with
  | Some rt => Some rt
  | None => if inp_faddr i =? INADDR_ANY then None else rtalloc (inp_faddr i)
  end.
Definition use_route (rt : option rtentry) (c : conn) : conn :=
  Conn (c_ms c) (c_tp c) (c_template c) (c_q c) (c_so c) ((λ rt, (metrics rt).1) <$> rt)
    (match rt with Some rt => (metrics rt).2 | None => false end) (c_iss c) (c_out c).

Definition find_route : M tstate () :=
  let! i := inp_of in on_conn (modify (use_route (peer_route i))).

Definition pcbbind (nam : option (Z * sockaddr_in)) : M tstate Z :=
  on_pcb (λ i h, in_pcbbind ifa_ifwithaddr suser in_ifaddrs h i nam).
Definition pcbconnect (n : Z) (sin : sockaddr_in) : M tstate Z :=
  on_pcb (λ i h, in_pcbconnect ifa_ifwithaddr suser in_ifaddrs rtalloc ifa_ifwithdstaddr ifa_ifwithnet h i n sin).

(** The peer of a passive open ([tcp_input], LISTEN): [in_pcbconnect] to the source of the
    segment, with its destination for the address of ours if the block has none; the
    address is put back when that fails. *)
Definition passive_connect (src sport dst : Z) (h : pcbs) (i : inpcb) : option (Z * pcbs) :=
  let i1 := if inp_laddr i =? INADDR_ANY then set_local i dst (inp_lport i) else i in
  let h1 := Head (hd_lport h) (store i1 (hd_list h)) in
  '(error, h2) ← in_pcbconnect ifa_ifwithaddr suser in_ifaddrs rtalloc ifa_ifwithdstaddr ifa_ifwithnet h1 i1 sizeof_sockaddr_in
                   (Sin AF_INET sport src);
  if error =? 0 then Some (error, h2)
  else Some (error, update_pcb h2 (inp_id i) (λ j, set_local j (inp_laddr i) (inp_lport j))).

(** [in_pcbdisconnect], which detaches the block of a socket nobody refers to. *)
Definition pcbdisconnect : M tstate () :=
  do! modify refresh in
  let! i := inp_of in
  modify (λ u, TS (conn_of u) (if IpOutput.has_flag (Pcb.so_state i) Pcb.SS_NOFDREF then None else so_pcb u)
                 (in_pcbdisconnect (tcb u) i)).

(** The opening segment, from the window scale on. *)
Definition send_syn : M tstate Z :=
  let! so := on_conn get_so in
  do! on_conn (let! tp := get_tp in
               let! tp := lift (scale_loop 15 (Sockbuf.sb_hiwat (so_rcv (so_buf so))) tp) in put_tp tp) in
  do! on_conn (mod_so soisconnecting) in
  do! on_conn (mod_tp (λ tp, wr (t_timer TCPT_KEEP) TCPTV_KEEP_INIT (wr t_state TCPS_SYN_SENT tp))) in
  let! c := on_conn get in
  do! on_conn (mod_tp (wr iss (c_iss c))) in
  do! on_conn (modify (set_iss (c_iss c + TCP_ISSINCR / 2))) in
  do! on_conn (mod_tp tcp_sendseqinit) in
  do! find_route in
  on_conn (output e).

Definition tcp_connect (n : Z) (sin : sockaddr_in) : M tstate Z :=
  let! i := inp_of in
  let! error := (if inp_lport i =? 0 then pcbbind None else ret 0) in
  if ztrue error then ret error
  else
    let! error := pcbconnect n sin in
    if ztrue error then ret error
    else
      let! ok := on_conn (tcp_template e) in
      if negb ok then do! pcbdisconnect in ret ENOBUFS else send_syn.

(** ** Segments

    [src], [sport], [dst] and [dport] are the names in the headers of the segment. *)

(** The checks of LISTEN before [in_pcbconnect]. *)
Definition asks_connect (x : TcpInput.locals) : bool :=
  negb (TcpInput.has_flag x TH_RST) && negb (TcpInput.has_flag x TH_ACK) && TcpInput.has_flag x TH_SYN &&
  negb (TcpInput.bcast x) && e_soname e.

Definition with_connect (b : bool) : env :=
  Env (e_linkhdr e) (e_mget e) (e_mcopy e) (e_ip e) (e_sbmax e) (e_mssdflt e) (e_now e) (e_keepidle e) (e_maxidle e) (e_fuel e)
    (e_soname e) b (e_template e) (e_header e) (e_junk e).

(** [tcp_input] from the point where the connection is known, with the list: what
    [in_pcbconnect] does to the block of a listening connection comes first, since the
    stages before it do not look at the list. *)
Definition tcp_segment (src sport dst : Z) (x : TcpInput.locals) : M tstate (option (Z * TcpInput.locals)) :=
  let! tp := on_conn get_tp in
  if (tp t_state =? TCPS_LISTEN) && asks_connect x then
    let! error := on_pcb (λ i h, passive_connect src sport dst h i) in
    on_conn (TcpInput.tcp_input (with_connect (error =? 0)) x)
  else on_conn (TcpInput.tcp_input e x).

(** The names of the block that [sonewconn] attached to the new socket. *)
Definition named (dst dport : Z) (srcroute : option ipoption) (i : inpcb) : inpcb :=
  Inp (inp_id i) (inp_faddr i) (inp_fport i) dst dport (Pcb.so_options i) (Pcb.so_state i) (pr_flags i) (inp_route i)
    (inp_moptions i) (inp_flags i) (inp_ttl i) (inp_tos i) srcroute.

(** The new socket of a segment for a listening one: its block has the names of the
    segment, it listens, and asks for the window scale of its buffer. *)
Definition new_connection (dst dport : Z) (srcroute : option ipoption) : M tstate () :=
  do! mod_pcb (named dst dport srcroute) in
  do! on_conn (mod_tp (wr t_state TCPS_LISTEN)) in
  on_conn (let! so := get_so in
           let! tp := get_tp in
           let! tp := lift (scale_loop 15 (Sockbuf.sb_hiwat (so_rcv (so_buf so))) tp) in put_tp tp).

(** ** Data *)

(** [sbappend(&so->so_snd, m)]. *)
Definition snd_append (m : TcpConn.packet) : M conn () :=
  let! so := get_so in
  let! sb := low (Sockbuf.sbappend (so_snd (so_buf so)) m) in
  mod_buf (λ b, Sock sb (so_rcv b)).

Definition rcv_oob (m : TcpConn.packet) (flags : Z) : M conn (Z * reply) :=
  let! so := get_so in
  let! tp := get_tp in
  if ((so_oobmark so =? 0) && negb (sflag so SS_RCVATMARK)) || ztrue (Z.land (TcpConn.so_options so) SO_OOBINLINE) ||
     ztrue (Z.land (tp t_oobflags) TCPOOB_HADDATA)
  then ret (EINVAL, Nothing)
  else if negb (ztrue (Z.land (tp t_oobflags) TCPOOB_HAVEDATA)) then ret (Sockbuf.EWOULDBLOCK, Nothing)
  else
    match m with
    | [] => crash
    | m0 :: rest =>
        let! m0 := low (Mbuf.m_write (Mbuf.set_len m0 1) 0 [u8 (tp t_iobc)]) in
        do! (if Z.land flags SockIo.MSG_PEEK =? 0
             then put_tp (wr t_oobflags (Z.lxor (tp t_oobflags) (Z.lor TCPOOB_HAVEDATA TCPOOB_HADDATA)) tp) else ret ()) in
        ret (0, Oob (m0 :: rest))
    end.

Definition send_oob (m : TcpConn.packet) : M conn Z :=
  let! so := get_so in
  if Sockbuf.sbspace (so_snd (so_buf so)) <? -512 then do! low (Mbuf.m_freem m) in ret ENOBUFS
  else
    do! snd_append m in
    let! so := get_so in
    do! mod_tp (λ tp, wr t_force 1 (wr snd_up (tp snd_una + snd_cc (so_buf so)) tp)) in
    let! error := output e in
    do! mod_tp (wr t_force 0) in
    ret error.

(** ** Timers *)

(** The calls of [tcp_timers], in order. *)
Definition timer_call (a : timer_action) : M tstate () :=
  match a with
  | TOutput => do! on_conn (output e) in ret ()
  | TForceOutput => do! on_conn (do! output e in mod_tp (wr t_force 0)) in ret ()
  | TRespond ack seq =>
      let! c := on_conn get in
      if c_template c then on_conn (tcp_respond e false ack seq 0) else crash
  | TDrop errno => on_conn (tcp_drop e errno)
  | TClose => on_conn (tcp_close e)
  | TLosing => do! mod_pcb (λ i, (in_losing i).1) in find_route
  | TPanic => panic
  end.

Fixpoint run_calls (acts : list timer_action) : M tstate () :=
  match acts with [] => ret () | a :: acts => do! timer_call a in run_calls acts end.

Definition slowtimo (timer : nat) : M tstate () :=
  let! acts := on_conn (
    let! so := get_so in
    let! tp := get_tp in
    let keepalive := ztrue (Z.land (TcpConn.so_options so) SockOpt.SO_KEEPALIVE) in
    let '(tp, acts) := tcp_timers (TEnv (e_keepidle e) keepintvl (e_maxidle e) keepalive) tp timer in
    do! put_tp tp in ret acts) in
  run_calls acts.

(** ** The switch *)

Definition quiet (m : M tstate ()) : M tstate (Z * reply) := do! m in ret (0, Nothing).
Definition failing (m : M tstate Z) : M tstate (Z * reply) := let! error := m in ret (error, Nothing).

(** The requests on a socket with a control block; [tp] is not null from here on, or
    the system stops. *)
Definition attached_request (req : request) : M tstate (Z * reply) :=
  let! tp := on_conn get_tp in
  match req with
  | PRU_ATTACH _ _ => ret (EISCONN, Nothing)
  | PRU_DETACH => quiet (on_conn (if TCPS_LISTEN <? tp t_state then tcp_disconnect else tcp_close e))
  | PRU_BIND nam => failing (pcbbind nam)
  | PRU_LISTEN =>
      let! i := inp_of in
      let! error := (if inp_lport i =? 0 then pcbbind None else ret 0) in
      do! (if error =? 0 then on_conn (mod_tp (wr t_state TCPS_LISTEN)) else ret ()) in
      ret (error, Nothing)
  | PRU_CONNECT n sin => failing (tcp_connect n sin)
  | PRU_CONNECT2 => ret (Socket.EOPNOTSUPP, Nothing)
  | PRU_DISCONNECT => quiet (on_conn tcp_disconnect)
  | PRU_ACCEPT | PRU_PEERADDR => let! i := inp_of in ret (0, Name (in_setpeeraddr i))
  | PRU_SHUTDOWN =>
      failing (on_conn (do! mod_so socantsendmore in do! tcp_usrclosed in output_if))
  | PRU_RCVD => quiet (on_conn (do! output e in ret ()))
  | PRU_SEND m => failing (on_conn (do! snd_append m in output e))
  | PRU_ABORT => quiet (on_conn (tcp_drop e ECONNABORTED))
  | PRU_SENSE => let! so := on_conn get_so in ret (0, Blksize (Sockbuf.sb_hiwat (so_snd (so_buf so))))
  | PRU_RCVOOB m flags => on_conn (rcv_oob m flags)
  | PRU_SENDOOB m => failing (on_conn (send_oob m))
  | PRU_SOCKADDR => let! i := inp_of in ret (0, Name (in_setsockaddr i))
  | PRU_SLOWTIMO timer => quiet (slowtimo timer)
  | PRU_CONTROL cmd => ret (in_control cmd, Nothing)
  | PRU_OTHER => panic
  end.

(** The attachment of a socket without a block. *)
Definition attach_request (a : option Z) (cb : bool) : M tstate Z :=
  let! error := tcp_attach a cb in
  if ztrue error then ret error
  else
    do! on_conn (mod_so (λ so, if ztrue (Z.land (TcpConn.so_options so) SO_LINGER) && (so_linger so =? 0)
                               then with_linger TCP_LINGERTIME so else so)) in
    do! on_conn get_tp in ret 0.

(** [control && control->m_len]. *)
Definition has_control (control : TcpConn.packet) : bool :=
  match control with [] => false | m :: _ => ztrue (Mbuf.m_len m) end.

Definition tcp_usrreq (req : request) (control : TcpConn.packet) : M tstate (Z * reply) :=
  match req with
  | PRU_CONTROL cmd => ret (in_control cmd, Nothing)
  | _ =>
      if has_control control then
        do! on_conn (low (do! Mbuf.m_freem control in Mbuf.m_freem (data_of req))) in ret (EINVAL, Nothing)
      else
        let! u := get in
        match so_pcb u, req with
        | None, PRU_ATTACH a cb => failing (attach_request a cb)
        | None, _ => ret (EINVAL, Nothing)
        | Some _, _ => attached_request req
        end
  end.

(** ** Options *)

Section Options.
Context (word : list Z → Z) (unword : Z → list Z) `{!SockOpt.ByteOrder word unword}.
Context (drain : Mbuf.mstate → Mbuf.mstate) (junk : list Z) (junk_len : Z).

(** The result of [tcp_ctloutput]: the options of another level go to [ip_ctloutput];
    otherwise an error and what is stored through [mp]. *)
Inductive ctl_result := To_ip | Ctl (error : Z) (mp : option Mbuf.mbuf).

Definition free_opt (m : option Mbuf.mbuf) : M conn () :=
  match m with Some m => low (Mbuf.MFREE m) | None => ret () end.

(** The [int] at the data of an mbuf, whatever its length says. *)
Definition int_at (m : Mbuf.mbuf) : M conn Z := let! b := low (Mbuf.m_read m 0 4) in ret (word b).

Definition set_tcp_option (optname : Z) (m : option Mbuf.mbuf) : M conn Z :=
  let! tp := get_tp in
  if optname =? TCP_NODELAY then
    match m with
    | Some m =>
        if u32 (Mbuf.m_len m) <? 4 then ret EINVAL
        else
          let! i := int_at m in
          do! put_tp (if ztrue i then set_tflag TF_NODELAY tp else clear_tflag TF_NODELAY tp) in ret 0
    | None => ret EINVAL
    end
  else if optname =? TCP_MAXSEG then
    match m with
    | Some m =>
        let! i := int_at m in
        if (0 <? i) && (i <=? tp t_maxseg) then do! put_tp (wr t_maxseg i tp) in ret 0 else ret EINVAL
    | None => ret EINVAL
    end
  else ret ENOPROTOOPT.

Definition get_tcp_option (optname : Z) (tp : tcpcb) : option Z :=
  if optname =? TCP_NODELAY then Some (Z.land (tp t_flags) TF_NODELAY)
  else if optname =? TCP_MAXSEG then Some (tp t_maxseg)
  else None.

Definition tcp_ctloutput (op level optname : Z) (mp : option Mbuf.mbuf) : M tstate ctl_result :=
  let! u := get in
  match so_pcb u with
  | None => do! (if op =? SockOpt.PRCO_SETOPT then on_conn (free_opt mp) else ret ()) in ret (Ctl ECONNRESET None)
  | Some _ =>
      if negb (level =? IPPROTO_TCP) then ret To_ip
      else if op =? SockOpt.PRCO_SETOPT then
        let! error := on_conn (set_tcp_option optname mp) in
        do! on_conn (free_opt mp) in ret (Ctl error None)
      else if op =? SockOpt.PRCO_GETOPT then
        let! m := on_conn (low (Mbuf.m_get drain junk junk_len SockOpt.MT_SOOPTS)) in
        let! m := lift m in
        let m := Mbuf.set_len m 4 in
        let! tp := on_conn get_tp in
        match get_tcp_option optname tp with
        | Some v => let! m := on_conn (low (Mbuf.m_write m 0 (unword v))) in ret (Ctl 0 (Some m))
        | None => ret (Ctl ENOPROTOOPT (Some m))
        end
      else ret (Ctl 0 mp)
  end.
End Options.

(** ** The specification *)

(** The calls of a user in RFC 793, and the timeout. *)
Inductive call := Passive_open | Active_open | Close | Abort | Timeout.

Inductive rfc793_user : call → Z → Z → Prop :=
  | user_passive : rfc793_user Passive_open TCPS_CLOSED TCPS_LISTEN
  | user_active : rfc793_user Active_open TCPS_CLOSED TCPS_SYN_SENT
  | user_closed : rfc793_user Close TCPS_CLOSED TCPS_CLOSED
  | user_listen : rfc793_user Close TCPS_LISTEN TCPS_CLOSED
  | user_synsent : rfc793_user Close TCPS_SYN_SENT TCPS_CLOSED
  | user_synrcvd : rfc793_user Close TCPS_SYN_RECEIVED TCPS_FIN_WAIT_1
  | user_established : rfc793_user Close TCPS_ESTABLISHED TCPS_FIN_WAIT_1
  | user_closewait : rfc793_user Close TCPS_CLOSE_WAIT TCPS_LAST_ACK
  | user_abort s : rfc793_user Abort s TCPS_CLOSED
  | user_timeout s : rfc793_user Timeout s TCPS_CLOSED.

(** A disconnection is an abort before the connection is established, and when the
    socket lingers for no time. *)
Definition aborts (c : conn) : bool :=
  (st c <? TCPS_ESTABLISHED) ||
  (ztrue (Z.land (TcpConn.so_options (c_so c)) SO_LINGER) && (so_linger (c_so c) =? 0)).

Definition call_of (req : request) (c : conn) : option call :=
  match req with
  | PRU_LISTEN => Some Passive_open
  | PRU_CONNECT _ _ => Some Active_open
  | PRU_SHUTDOWN => Some Close
  | PRU_DETACH | PRU_DISCONNECT => Some (if aborts c then Abort else Close)
  | PRU_ABORT => Some Abort
  | PRU_SLOWTIMO _ => Some Timeout
  | _ => None
  end.
Definition opens (req : request) : bool := match req with PRU_LISTEN | PRU_CONNECT _ _ => true | _ => false end.
End User.

(** ** Rules *)

Lemma settle_conn evs u : conn_of (settle evs u) = conn_of u.
Proof. unfold settle, detach. destruct (existsb _ _); [|done]. destruct (so_pcb u); [|done]. by destruct (find_id _ _). Qed.

Lemma wlp_on_conn {A} (m : M conn A) u (Q : A → tstate → Prop) :
  wlp m (conn_of u) (λ a c, ∀ u', conn_of u' = c → Q a u') → wlp (on_conn m) u Q.
Proof. unfold wlp, on_conn. destruct (m _) as [[a c]| |]; [|done..]. intros H. apply H. by rewrite settle_conn. Qed.

Lemma wlp_inp_of u (Q : inpcb → tstate → Prop) : (∀ i, Q i u) → wlp inp_of u Q.
Proof. intros H. unfold wlp, inp_of. by destruct (so_pcb u ≫= _). Qed.

Lemma refresh_conn u : conn_of (refresh u) = conn_of u.
Proof. unfold refresh. by destruct (so_pcb u). Qed.

Lemma wlp_on_pcb f u (Q : Z → tstate → Prop) :
  (∀ error u', conn_of u' = conn_of u → Q error u') → wlp (on_pcb f) u Q.
Proof.
  intros H. unfold on_pcb. apply wlp_bind, wlp_modify, wlp_bind, wlp_inp_of. intros i. apply wlp_bind, wlp_get, wlp_bind, wlp_lift.
  intros [error h] _. apply wlp_bind, wlp_modify, wlp_ret, H. apply refresh_conn.
Qed.

Lemma wlp_mod_pcb f u (Q : () → tstate → Prop) : (∀ u', conn_of u' = conn_of u → Q () u') → wlp (mod_pcb f) u Q.
Proof. intros H. unfold mod_pcb. apply wlp_bind, wlp_inp_of. intros i. by apply wlp_modify, H. Qed.

(** ** States *)

(** A state that stays, or follows the diagram. *)
Definition moved (k : call) (s s' : Z) : Prop := s' = s ∨ rfc793_user k s s'.

Lemma scale_loop_writes fuel hiwat : ∀ tp tp', scale_loop fuel hiwat tp = Some tp' → writes (.= request_r_scale) tp tp'.
Proof.
  induction fuel as [|fuel IH]; simpl; intros tp tp'; destruct (_ && _); intros H; simplify_eq; try writes.
  eapply writes_trans; [|by apply IH]. writes.
Qed.

Lemma timers_state te tp i : (tcp_timers te tp i).1 t_state = tp t_state.
Proof.
  unfold tcp_timers. destruct (Nat.eqb i TCPT_2MSL); [destruct (_ && _); cbn [fst]; by tsimpl|].
  destruct (Nat.eqb i TCPT_REXMT).
  { cbv zeta. destruct (_ <? _); [cbn [fst]; by tsimpl|]. destruct (backoff _); [|cbn [fst]; by tsimpl].
    destruct (_ =? 0); cbn [fst]; tsimpl; destruct (_ <? _); tsimpl; rewrite RANGESET_other by discriminate; by tsimpl. }
  destruct (Nat.eqb i TCPT_PERSIST).
  { destruct (tcp_setpersist tp) as [tp'|] eqn:E; cbn [fst]; [|done]. tsimpl. by apply (writes_frame _ _ _ t_state (setpersist_writes _ _ E)); intros [|]. }
  destruct (Nat.eqb i TCPT_KEEP); [|done]. destruct (_ <? _); [done|]. destruct (_ && _); [|cbn [fst]; by tsimpl].
  destruct (_ <=? _); cbn [fst]; by tsimpl.
Qed.

Section States.
Context (e : env).

Lemma output_st c : wlp (output e) c (λ _ c', st c' = st c).
Proof.
  apply wlp_output. intros tp tp' buf sgs er Ht W _. unfold st. cbn. rewrite Ht. apply (writes_frame _ _ _ _ W).
  by intros [|].
Qed.

Lemma output_if_st c : wlp (output_if e) c (λ _ c', st c' = st c).
Proof. unfold wlp, output_if. destruct (c_tp c) eqn:E; [|done]. apply output_st. Qed.

Lemma closed_st c : c_tp c = None → st c = TCPS_CLOSED.
Proof. unfold st. by intros ->. Qed.

Lemma put_st v tp c : c_tp c = Some tp → st (set_tp (Some (wr t_state v tp)) c) = s16 v.
Proof. intros _. unfold st. cbn. by rewrite wr_eq. Qed.

Lemma usrclosed_st c : wlp (tcp_usrclosed e) c (λ _ c', moved Close (st c) (st c')).
Proof.
  unfold tcp_usrclosed. apply wlp_bind, wlp_get_tp. intros tp Ht. apply wlp_bind. rewrite (st_tp _ _ Ht).
  match goal with |- wlp ?m _ _ => apply (wlp_mono m c (λ _ c', moved Close (tp t_state) (st c'))) end.
  - destruct ((tp t_state =? TCPS_CLOSED) || (tp t_state =? TCPS_LISTEN) || (tp t_state =? TCPS_SYN_SENT)) eqn:E1.
    { apply wlp_bind, wlp_put_tp. eapply wlp_mono; [apply TcpFsm.close_closed|]. intros [] c' ->%closed_st. right.
      apply orb_true_iff in E1 as [[E1|E1]%orb_true_iff|E1]; apply Z.eqb_eq in E1; rewrite E1; constructor. }
    destruct ((tp t_state =? TCPS_SYN_RECEIVED) || _) eqn:E2.
    { apply wlp_put_tp. rewrite (put_st _ _ c) by done. right. apply orb_true_iff in E2 as [E2|E2]; apply Z.eqb_eq in E2; rewrite E2; constructor. }
    destruct (Z.eqb_spec (tp t_state) TCPS_CLOSE_WAIT) as [E3|E3].
    { apply wlp_put_tp. rewrite (put_st _ _ c) by done. right. rewrite E3. constructor. }
    apply wlp_ret. left. by apply st_tp.
  - intros [] c' H. wlps; exact H.
Qed.

Lemma disconnect_st c :
  wlp (tcp_disconnect e) c (λ _ c', moved (if aborts c then Abort else Close) (st c) (st c')).
Proof.
  unfold tcp_disconnect. apply wlp_bind, wlp_get_tp. intros tp Ht. apply wlp_bind, wlp_get_so.
  unfold aborts. rewrite (st_tp _ _ Ht). destruct (_ <? _).
  { eapply wlp_mono; [apply TcpFsm.close_closed|]. intros [] c' ->%closed_st. right. constructor. }
  cbn [orb]. destruct (_ && _).
  { eapply wlp_mono; [apply TcpFsm.drop_closed|]. intros [] c' ->%closed_st. right. constructor. }
  unfold flush_rcv. wlps. eapply wlp_mono; [apply usrclosed_st|]. intros [] c' Hm.
  wlps. eapply wlp_mono; [apply output_if_st|]. intros er c2 E. wlps. rewrite E. unfold st at 1 in Hm. cbn in Hm. by rewrite Ht in Hm.
Qed.

(** Steps of the whole state. *)
Abbreviation ust u := (st (conn_of u)).

Lemma wlp_conn_st {A} (m : M conn A) u (P : Z → Prop) (Q : A → tstate → Prop) :
  wlp m (conn_of u) (λ _ c, P (st c)) → (∀ a u', P (ust u') → Q a u') → wlp (on_conn m) u Q.
Proof. intros H HQ. apply wlp_on_conn. eapply wlp_mono; [exact H|]. intros a c Hc u' <-. by apply HQ. Qed.

Lemma slowtimo_st keepintvl rtalloc metrics i u :
  wlp (slowtimo e keepintvl rtalloc metrics i) u (λ _ u', moved Timeout (ust u) (ust u')).
Proof.
  unfold slowtimo. apply wlp_bind, (wlp_conn_st _ _ (moved Timeout (ust u))).
  { apply wlp_bind, wlp_get_so, wlp_bind, wlp_get_tp. intros tp Ht.
    match goal with |- wlp (let '(_, _) := tcp_timers ?te _ _ in _) _ _ =>
      pose proof (timers_state te tp i) as Hs; destruct (tcp_timers te tp i) as [tp' acts] end.
    cbn [fst] in Hs. apply wlp_bind, wlp_put_tp, wlp_ret. left. rewrite (st_tp _ _ Ht). exact Hs. }
  intros acts u3 Hu. revert u3 Hu.
  induction acts as [|a acts IH]; intros u3 Hu; cbn [run_calls]; [by apply wlp_ret|].
  apply wlp_bind, (wlp_mono _ _ (λ _ u', moved Timeout (ust u) (ust u'))); [|intros [] u4; apply IH]. clear IH.
  destruct a; cbn [timer_call].
  - apply wlp_bind, (wlp_conn_st _ _ (moved Timeout (ust u))); [|intros; by apply wlp_ret].
    eapply wlp_mono; [apply output_st|]. by intros ? ? ->.
  - apply wlp_bind, (wlp_conn_st _ _ (moved Timeout (ust u))); [|intros; by apply wlp_ret].
    apply wlp_bind. eapply wlp_mono; [apply output_st|]. intros ? c' E. apply wlp_mod_tp. intros tp Ht.
    rewrite <-E, (st_tp _ _ Ht) in Hu. unfold st. cbn. by tsimpl.
  - apply wlp_bind, wlp_on_conn, wlp_get. intros u4 E. destruct (c_template _); [|done].
    apply (wlp_conn_st _ _ (moved Timeout (ust u))); [|done]. rewrite E. eapply wlp_mono; [apply TcpFsm.respond_state|].
    intros [] c' H. by rewrite (H : st c' = _).
  - apply wlp_on_conn. eapply wlp_mono; [apply TcpFsm.drop_closed|]. intros [] c' Hc%closed_st u' Hu'. right. rewrite Hu', Hc. constructor.
  - apply wlp_on_conn. eapply wlp_mono; [apply TcpFsm.close_closed|]. intros [] c' Hc%closed_st u' Hu'. right. rewrite Hu', Hc. constructor.
  - apply wlp_bind, wlp_mod_pcb. intros u4 E4. unfold find_route. apply wlp_bind, wlp_inp_of. intros j.
    apply wlp_on_conn, wlp_modify. intros u5 E5. rewrite E5, E4. exact Hu.
  - done.
Qed.

(** The state survives output. *)
Ltac kept_state :=
  repeat first
    [ rewrite wr_eq | rewrite wr_ne by discriminate
    | match goal with H : writes out_field ?tp ?tp' |- context [?tp' t_state] => rewrite (writes_frame _ _ _ t_state H) by (by intros [|]) end ].

Section Requests.
Context (sb_max rttdflt keepintvl ip_defttl : Z) (do_rfc1323 : bool).
Context (ifa_ifwithaddr : Z → bool) (suser : Z) (in_ifaddrs : list in_ifaddr) (rtalloc : Z → option rtentry).
Context (ifa_ifwithdstaddr ifa_ifwithnet : Z → option in_ifaddr) (metrics : rtentry → route_info * bool).
Context (in_control : Z → Z).
Abbreviation usrreq := (tcp_usrreq e sb_max rttdflt keepintvl ip_defttl do_rfc1323 ifa_ifwithaddr suser in_ifaddrs rtalloc
  ifa_ifwithdstaddr ifa_ifwithnet metrics in_control).
Abbreviation connect := (tcp_connect e ifa_ifwithaddr suser in_ifaddrs rtalloc ifa_ifwithdstaddr ifa_ifwithnet metrics).

Lemma connect_st n sin u : wlp (connect n sin) u (λ _ u', ust u' = ust u ∨ rfc793_user Active_open TCPS_CLOSED (ust u')).
Proof.
  assert (Hu : ust u = ust u) by done. revert Hu. generalize (ust u) at 2 3. intros s0 Hu. unfold tcp_connect, send_syn. apply wlp_bind, wlp_inp_of. intros i.
  apply wlp_bind, (wlp_mono _ _ (λ _ u', ust u' = s0)).
  { destruct (_ =? 0); [|by apply wlp_ret]. apply wlp_on_pcb. by intros er u' ->. }
  clear u Hu. intros er u Hu. destruct (ztrue er); [by apply wlp_ret; left|].
  apply wlp_bind, wlp_on_pcb. intros er2 u2 E2. rewrite <-E2 in Hu. clear E2. destruct (ztrue er2); [by apply wlp_ret; left|].
  apply wlp_bind, (wlp_conn_st _ _ (.= s0)). { unfold wlp, tcp_template. by destruct (_ || _). }
  clear u u2 Hu. intros ok u Hu. destruct (negb ok).
  { apply wlp_bind. unfold pcbdisconnect. apply wlp_bind, wlp_modify, wlp_bind, wlp_inp_of. intros j. apply wlp_modify, wlp_ret.
    left. cbn. by rewrite refresh_conn. }
  apply wlp_bind, wlp_on_conn, wlp_get_so. intros u1 E1. apply wlp_bind, wlp_on_conn, wlp_bind, wlp_get_tp. intros tp Ht.
  apply wlp_bind, wlp_lift. intros tp' Hs. apply wlp_put_tp. intros u3 E3.
  apply wlp_bind, wlp_on_conn, wlp_mod_so. intros u4 E4. apply wlp_bind, wlp_on_conn, wlp_mod_tp. intros tp4 H4 u5 E5.
  apply wlp_bind, wlp_on_conn, wlp_get. intros u6 E6. apply wlp_bind, wlp_on_conn, wlp_mod_tp. intros tp6 H6 u7 E7.
  apply wlp_bind, wlp_on_conn, wlp_modify. intros u8 E8. apply wlp_bind, wlp_on_conn, wlp_mod_tp. intros tp8 H8 u9 E9.
  unfold find_route. apply wlp_bind, wlp_bind, wlp_inp_of. intros j. apply wlp_on_conn, wlp_modify. intros u10 E10.
  apply (wlp_conn_st _ _ (.= TCPS_SYN_SENT)).
  - eapply wlp_mono; [apply output_st|]. intros a c ->. rewrite E10. unfold st. cbn. rewrite E9. cbn.
    unfold tcp_sendseqinit. tsimpl. rewrite E8 in H8. cbn in H8. rewrite E7 in H8. cbn in H8. injection H8 as <-. tsimpl.
    rewrite E6, E5 in H6. cbn in H6. injection H6 as <-. by tsimpl.
  - intros a u' ->. right. constructor.
Qed.

(** What a request with a control block does to the state: it stays, or makes the step
    of the call; the opening requests take the state for [CLOSED]. *)
Definition follows_call (req : request) (c : conn) (s' : Z) : Prop :=
  s' = st c ∨ ∃ k, call_of req c = Some k ∧ rfc793_user k (if opens req then TCPS_CLOSED else st c) s'.

Lemma attached_st req u :
  wlp (attached_request e keepintvl ifa_ifwithaddr suser in_ifaddrs rtalloc ifa_ifwithdstaddr ifa_ifwithnet metrics in_control req) u
    (λ _ u', follows_call req (conn_of u) (ust u')).
Proof.
  unfold attached_request. apply wlp_bind, wlp_on_conn, wlp_get_tp. intros tp Ht u1 E1. rewrite <-E1 in Ht |- *. clear u E1.
  rename u1 into u. pose proof (st_tp _ _ Ht) as Hst.
  assert (Hm : ∀ k s, opens req = false → call_of req (conn_of u) = Some k → moved k (ust u) s → follows_call req (conn_of u) s).
  { intros k s Ho Hk [->|Hs]; [by left|right; exists k; by rewrite Ho]. }
  destruct req; cbn [call_of] in *; unfold quiet, failing; try (apply wlp_ret; by left); try done;
    try (apply wlp_bind, wlp_inp_of; intros i; apply wlp_ret; by left).
  - apply wlp_bind. apply (wlp_conn_st _ _ (moved (if aborts (conn_of u) then Abort else Close) (ust u)));
      [|intros [] u' H; apply wlp_ret; by eapply Hm].
    destruct (Z.ltb_spec TCPS_LISTEN (tp t_state)); [apply disconnect_st|].
    eapply wlp_mono; [apply TcpFsm.close_closed|]. intros [] c' ->%closed_st. right. unfold aborts. rewrite Hst.
    rewrite (proj2 (Z.ltb_lt _ TCPS_ESTABLISHED)) by (unfold TCPS_LISTEN, TCPS_ESTABLISHED in *; lia). constructor.
  - apply wlp_bind, wlp_on_pcb. intros er u' E. apply wlp_ret. left. by rewrite E.
  - apply wlp_bind, wlp_inp_of. intros i. apply wlp_bind, (wlp_mono _ _ (λ _ u', conn_of u' = conn_of u)).
    { destruct (_ =? 0); [|by apply wlp_ret]. apply wlp_on_pcb. by intros er u' ->. }
    intros er u1 E. destruct (er =? 0); wlps; [|left; by rewrite E].
    apply wlp_on_conn, wlp_mod_tp. intros tp1 H1 u2 E2. wlps. right. exists Passive_open. split; [done|]. rewrite E2.
    unfold st. cbn. tsimpl. constructor.
  - apply wlp_bind. eapply wlp_mono; [apply connect_st|]. intros er u' [H|H]; apply wlp_ret; [by left|by right; exists Active_open].
  - apply wlp_bind, (wlp_conn_st _ _ (moved (if aborts (conn_of u) then Abort else Close) (ust u)));
      [apply disconnect_st|intros [] u' H; apply wlp_ret; by eapply Hm].
  - apply wlp_bind, (wlp_conn_st _ _ (moved Close (ust u))); [|intros er u' H; apply wlp_ret; by eapply Hm].
    apply wlp_bind, wlp_mod_so, wlp_bind. eapply wlp_mono; [apply usrclosed_st|]. intros [] c' H.
    eapply wlp_mono; [apply output_if_st|]. intros er c2 ->. exact H.
  - apply wlp_bind, (wlp_conn_st _ _ (.= ust u)); [|intros [] u' H; apply wlp_ret; by left].
    apply wlp_bind. eapply wlp_mono; [apply output_st|]. intros er c' H. by apply wlp_ret.
  - apply wlp_bind, (wlp_conn_st _ _ (.= ust u)); [|intros er u' H; apply wlp_ret; by left].
    unfold snd_append. wlps. rewrite Hst. simplify_eq/=. unfold st. cbn. by kept_state.
  - apply wlp_bind, wlp_on_conn. eapply wlp_mono; [apply TcpFsm.drop_closed|]. intros [] c' Hc%closed_st u' E. apply wlp_ret.
    apply (Hm Abort); [done..|]. right. rewrite E, Hc. constructor.
  - apply wlp_bind, wlp_on_conn, wlp_get_so. intros u' E. apply wlp_ret. left. by rewrite E.
  - apply (wlp_conn_st _ _ (.= ust u)); [|intros [? ?] u' H; by left]. unfold rcv_oob. wlps; try done; simplify_eq/=; try done.
    destruct m as [|m0 rest]; [done|]. wlps; rewrite Hst; unfold st; cbn; by tsimpl.
  - apply wlp_bind, (wlp_conn_st _ _ (.= ust u)); [|intros er u' H; apply wlp_ret; by left]. unfold send_oob, snd_append.
    wlps; [done|]. rewrite Hst.
    simplify_eq/=. unfold st. cbn. by kept_state.
  - apply wlp_bind. eapply wlp_mono; [apply slowtimo_st|]. intros [] u' H. apply wlp_ret. by apply (Hm Timeout).
Qed.

End Requests.
End States.

(** ** The control blocks of a socket *)

(** A step of the connection that frees the control block says so. *)
Definition follows (c c' : conn) : Prop :=
  ∃ evs, c_out c' = c_out c ++ evs ∧
    if existsb is_detached evs then c_tp c' = None else is_Some (c_tp c) ↔ is_Some (c_tp c').

Lemma follows_refl c : follows c c.
Proof. exists []. by rewrite app_nil_r. Qed.

Lemma follows_trans c1 c2 c3 : follows c1 c2 → follows c2 c3 → follows c1 c3.
Proof.
  intros (ev1 & E1 & H1) (ev2 & E2 & H2). exists (ev1 ++ ev2). split; [by rewrite E2, E1, app_assoc|]. rewrite existsb_app.
  destruct (existsb is_detached ev1), (existsb is_detached ev2); cbn [orb]; [done| |done|tauto].
  destruct (c_tp c3); [|done]. rewrite H1 in H2. exfalso. by apply (is_Some_None (A := tcpcb)), H2.
Qed.

Lemma follows_same c0 c c' : follows c0 c → c_out c' = c_out c → (is_Some (c_tp c) ↔ is_Some (c_tp c')) → follows c0 c'.
Proof. intros H E Ht. eapply follows_trans; [done|]. exists []. rewrite app_nil_r. by split. Qed.

Lemma follows_emit c0 c evs : follows c0 c → existsb is_detached evs = false → follows c0 (emit evs c).
Proof. intros H E. eapply follows_trans; [done|]. exists evs. by rewrite E. Qed.

Lemma follows_detach c0 c so :
  follows c0 c → follows c0 (emit [Detached] (set_so so (set_tp None c))).
Proof. intros H. eapply follows_trans; [done|]. exists [Detached]. by split. Qed.

Lemma sent_silent sgs : existsb is_detached (Sent <$> sgs) = false.
Proof. induction sgs; [done|]. done. Qed.

(** [chase] closes the goals about what a connection turns into. *)
Ltac chase := first
  [ apply follows_refl | assumption
  | apply follows_detach; chase
  | apply follows_emit; [chase|first [done|apply sent_silent]]
  | match goal with |- follows ?c0 ?c' =>
      match c' with
      | set_tp (Some _) ?c => apply (follows_same c0 c); [chase|done|match goal with H : c_tp _ = Some _ |- _ => cbn in *; rewrite ?H; by split; eauto end]
      | set_ms _ ?c => apply (follows_same c0 c); [chase|done|done]
      | set_so _ ?c => apply (follows_same c0 c); [chase|done|done]
      | set_q _ ?c => apply (follows_same c0 c); [chase|done|done]
      | set_route _ ?c => apply (follows_same c0 c); [chase|done|done]
      | set_iss _ ?c => apply (follows_same c0 c); [chase|done|done]
      | set_template _ ?c => apply (follows_same c0 c); [chase|done|done]
      end
    end ].

Lemma wlp_follows {A} (m : M conn A) c0 c (Q : A → conn → Prop) :
  (∀ c, wlp m c (λ _ c', follows c c')) → follows c0 c → (∀ a c', follows c0 c' → Q a c') → wlp m c Q.
Proof. intros H H0 HQ. eapply wlp_mono; [apply H|]. intros a c' H1. eapply HQ, follows_trans; eauto. Qed.

Lemma close_follows e c : wlp (tcp_close e) c (λ _ c', follows c c').
Proof. unfold tcp_close. wlps; chase. Qed.

Lemma output_follows e c : wlp (output e) c (λ _ c', follows c c').
Proof.
  unfold wlp, output. destruct (c_tp c) as [tp|] eqn:E; [|done]. destruct (tcp_output _ _ _ _ _ _ _ _ _ _ _ _) as [[[[tp' buf] sgs] er]|]; [|done].
  chase.
Qed.

(** [fol c0] steps through a handler that started in [c0]. *)
Ltac fol_with c0 l := apply (wlp_follows _ c0); [apply l|chase|intros ? ? ?].
Ltac fol c0 :=
  repeat (cbv beta zeta; first [
    lazymatch goal with
    | |- wlp (output _) _ _ => fol_with c0 output_follows
    | |- wlp (tcp_close _) _ _ => fol_with c0 close_follows
    end | TcpFsm.wlp_step]); try chase.

Lemma drop_follows e errno c : wlp (tcp_drop e errno) c (λ _ c', follows c c').
Proof. unfold tcp_drop. fol c. Qed.

Lemma output_if_follows e c : wlp (output_if e) c (λ _ c', follows c c').
Proof. unfold wlp, output_if. destruct (c_tp c) eqn:E; [|chase]. apply output_follows. Qed.

Lemma usrclosed_follows e c : wlp (tcp_usrclosed e) c (λ _ c', follows c c').
Proof. unfold tcp_usrclosed. fol c. Qed.

Lemma flush_follows c : wlp flush_rcv c (λ _ c', follows c c').
Proof. unfold flush_rcv. fol c. Qed.

Lemma disconnect_follows e c : wlp (tcp_disconnect e) c (λ _ c', follows c c').
Proof.
  unfold tcp_disconnect. fol c.
  - apply drop_follows.
  - fol_with c flush_follows. fol c. fol_with c usrclosed_follows. fol c. fol_with c output_if_follows. fol c.
Qed.

Lemma send_oob_follows e m c : wlp (send_oob e m) c (λ _ c', follows c c').
Proof. unfold send_oob, snd_append. fol c. Qed.

Lemma rcv_oob_follows m flags c : wlp (rcv_oob m flags) c (λ _ c', follows c c').
Proof. unfold rcv_oob. fol c. destruct m; [done|]. fol c. Qed.

Lemma template_follows e c : wlp (tcp_template e) c (λ _ c', follows c c').
Proof. unfold wlp, tcp_template. destruct (_ || _); chase. Qed.

Lemma respond_follows e seg ack seq flags c : wlp (tcp_respond e seg ack seq flags) c (λ _ c', follows c c').
Proof. unfold wlp, tcp_respond. destruct seg; [chase|]. destruct (e_header e); chase. Qed.

Lemma reserve_follows sb_max c : wlp (reserve sb_max) c (λ _ c', follows c c').
Proof. unfold reserve. fol c. Qed.
(** ** Segments *)

Lemma present_all_follows ps c : wlp (TcpInput.present_all ps) c (λ _ c', follows c c').
Proof.
  assert (H : ∀ c', follows c c' → wlp (TcpInput.present_all ps) c' (λ _ c2, follows c c2)); [|by apply H, follows_refl].
  induction ps as [|p ps IH]; intros c' Hc; cbn [TcpInput.present_all]; [by apply wlp_ret|]. unfold TcpInput.rcv_append.
  fol c; apply IH; chase.
Qed.

Lemma reass_follows c : wlp TcpInput.reass_present c (λ _ c', follows c c').
Proof. unfold TcpInput.reass_present. fol c; fol_with c present_all_follows; fol c. Qed.

Lemma soabort_follows e c : wlp (soabort e) c (λ _ c', follows c c').
Proof. unfold soabort. fol c. fol_with c drop_follows. chase. Qed.

Lemma establish_follows c : wlp TcpInput.establish c (λ _ c', follows c c').
Proof. unfold TcpInput.establish, soisconnected. fol c; fol_with c reass_follows; chase. Qed.

Ltac seg c0 :=
  repeat (cbv beta zeta; first [
    lazymatch goal with
    | |- wlp (output _) _ _ => fol_with c0 output_follows
    | |- wlp (tcp_close _) _ _ => fol_with c0 close_follows
    | |- wlp (tcp_drop _ _) _ _ => fol_with c0 drop_follows
    | |- wlp (soabort _) _ _ => fol_with c0 soabort_follows
    | |- wlp TcpInput.establish _ _ => fol_with c0 establish_follows
    | |- wlp (TcpInput.present_all _) _ _ => fol_with c0 present_all_follows
    | |- wlp (tcp_respond _ _ _ _ _) _ _ => fol_with c0 respond_follows
    | |- wlp (tcp_template _) _ _ => fol_with c0 template_follows
    | |- wlp (TcpInput.fall _) _ _ => apply wlp_ret
    | |- wlp (TcpInput.goto _ _) _ _ => apply wlp_ret
    | |- wlp (match ?l with [] => _ | _ :: _ => _ end) _ _ => destruct l
    end | TcpFsm.wlp_step]); try chase.

Lemma arrive_follows e x c : wlp (TcpInput.arrive e x) c (λ _ c', follows c c').
Proof. unfold TcpInput.arrive. seg c. Qed.
Lemma options_follows e x c : wlp (TcpInput.options e x) c (λ _ c', follows c c').
Proof. unfold TcpInput.options, TcpInput.do_options. seg c. Qed.
Lemma predict_follows e x c : wlp (TcpInput.predict e x) c (λ _ c', follows c c').
Proof.
  unfold TcpInput.predict, TcpInput.predict_ack, TcpInput.predict_data, TcpInput.strip, TcpInput.snd_drop, TcpInput.rcv_append. seg c.
Qed.
Lemma receive_window_follows x c : wlp (TcpInput.receive_window x) c (λ _ c', follows c c').
Proof. unfold TcpInput.receive_window, TcpInput.strip. seg c. Qed.
Lemma listen_follows e x c : wlp (TcpInput.listen e x) c (λ _ c', follows c c').
Proof. unfold TcpInput.listen, TcpInput.do_options. seg c. Qed.
Lemma syn_sent_follows e x c : wlp (TcpInput.syn_sent e x) c (λ _ c', follows c c').
Proof. unfold TcpInput.syn_sent. seg c. Qed.
Lemma trim_syn_follows x c : wlp (TcpInput.trim_syn x) c (λ _ c', follows c c').
Proof. unfold TcpInput.trim_syn, TcpInput.adj. seg c. Qed.
Lemma paws_follows e x c : wlp (TcpInput.paws e x) c (λ _ c', follows c c').
Proof. unfold TcpInput.paws. seg c. Qed.
Lemma trim_left_follows x c : wlp (TcpInput.trim_left x) c (λ _ c', follows c c').
Proof. unfold TcpInput.trim_left, TcpInput.cut_front, TcpInput.adj. seg c. Qed.
Lemma nobody_follows e x c : wlp (TcpInput.nobody e x) c (λ _ c', follows c c').
Proof. unfold TcpInput.nobody. seg c. Qed.
Lemma trim_right_follows e x c : wlp (TcpInput.trim_right e x) c (λ _ c', follows c c').
Proof. unfold TcpInput.trim_right, TcpInput.cut_back, TcpInput.adj. seg c. Qed.
Lemma record_ts_follows e x c : wlp (TcpInput.record_ts e x) c (λ _ c', follows c c').
Proof. unfold TcpInput.record_ts. seg c. Qed.
Lemma check_rst_follows e x c : wlp (TcpInput.check_rst e x) c (λ _ c', follows c c').
Proof. unfold TcpInput.check_rst, TcpInput.reset_by. seg c. Qed.
Lemma check_syn_follows e x c : wlp (TcpInput.check_syn e x) c (λ _ c', follows c c').
Proof. unfold TcpInput.check_syn. seg c. Qed.
Lemma need_ack_follows x c : wlp (TcpInput.need_ack x) c (λ _ c', follows c c').
Proof. unfold TcpInput.need_ack. seg c. Qed.
Lemma ack_syn_follows x c : wlp (TcpInput.ack_syn x) c (λ _ c', follows c c').
Proof. unfold TcpInput.ack_syn. seg c. Qed.
Lemma process_ack_follows e x c : wlp (TcpInput.process_ack e x) c (λ _ c', follows c c').
Proof. unfold TcpInput.process_ack, TcpInput.duplicate_ack, TcpInput.fast_retransmit, TcpInput.new_ack, TcpInput.drop_acked, TcpInput.snd_drop, TcpInput.ack_fin. seg c. Qed.
Lemma update_window_follows x c : wlp (TcpInput.update_window x) c (λ _ c', follows c c').
Proof. unfold TcpInput.update_window. seg c. Qed.
Lemma urgent_follows e x c : wlp (TcpInput.urgent e x) c (λ _ c', follows c c').
Proof. unfold TcpInput.urgent, TcpInput.urgent_mark, TcpInput.tcp_pulloutofband. seg c. Qed.
Lemma segment_text_follows x c : wlp (TcpInput.segment_text x) c (λ _ c', follows c c').
Proof. unfold TcpInput.segment_text, TcpInput.rcv_append. seg c. Qed.
Lemma process_fin_follows x c : wlp (TcpInput.process_fin x) c (λ _ c', follows c c').
Proof. unfold TcpInput.process_fin. seg c. Qed.
Lemma send_reply_follows e x c : wlp (TcpInput.send_reply e x) c (λ _ c', follows c c').
Proof. unfold TcpInput.send_reply. seg c. Qed.
Lemma at_drop_follows e x c : wlp (TcpInput.at_drop e x) c (λ _ c', follows c c').
Proof. unfold TcpInput.at_drop. seg c. Qed.
Lemma at_dropafterack_follows e x c : wlp (TcpInput.at_dropafterack e x) c (λ _ c', follows c c').
Proof. unfold TcpInput.at_dropafterack, TcpInput.at_drop. seg c. Qed.
Lemma at_dropwithreset_follows e x c : wlp (TcpInput.at_dropwithreset e x) c (λ _ c', follows c c').
Proof. unfold TcpInput.at_dropwithreset, TcpInput.at_drop. seg c. Qed.

Definition steady (f : TcpInput.stage) : Prop := ∀ x c, wlp (f x) c (λ _ c', follows c c').

Lemma steady_then (f g : TcpInput.stage) : steady f → steady g → steady (TcpInput.andthen f g).
Proof.
  intros Hf Hg x c. apply wlp_bind. eapply wlp_mono; [apply Hf|]. intros [y|l y] c' H; [|by apply wlp_ret].
  eapply wlp_mono; [apply Hg|]. intros r c2. by apply follows_trans.
Qed.

Lemma steady_by_state e : steady (TcpInput.by_state e).
Proof.
  intros x c. unfold TcpInput.by_state. apply wlp_bind, wlp_get_tp. intros tp _.
  destruct (_ =? _); [apply steady_then; intros ??; [apply listen_follows|apply trim_syn_follows]|].
  destruct (_ =? _); [apply steady_then; intros ??; [apply syn_sent_follows|apply trim_syn_follows]|].
  unfold TcpInput.synchronised. repeat apply steady_then; intros ??;
    auto using paws_follows, trim_left_follows, nobody_follows, trim_right_follows, record_ts_follows, check_rst_follows,
      check_syn_follows, need_ack_follows, ack_syn_follows, process_ack_follows.
Qed.

Lemma tcp_input_follows e x c : wlp (TcpInput.tcp_input e x) c (λ _ c', follows c c').
Proof.
  unfold TcpInput.tcp_input. apply wlp_bind, (wlp_mono _ _ (λ _ c', follows c c')).
  - unfold TcpInput.process. repeat apply steady_then; try apply steady_by_state; intros ??;
      auto using arrive_follows, options_follows, predict_follows, receive_window_follows, update_window_follows,
        urgent_follows, segment_text_follows, process_fin_follows, send_reply_follows.
  - intros [y|[] y] c' H; try (by apply wlp_ret); apply wlp_bind.
    + fol_with c at_drop_follows. by apply wlp_ret.
    + fol_with c at_dropafterack_follows. by apply wlp_ret.
    + fol_with c at_dropwithreset_follows. by apply wlp_ret.
Qed.

(** What the lists of a socket keep: the control blocks are in order, and [so_pcb] points
    at one exactly when there is a control block of TCP. *)
Record wf (u : tstate) : Prop := {
  wf_tcb : pcbs_ok (tcb u);
  wf_some : ∀ id, so_pcb u = Some id → id ∈ ids (tcb u) ∧ is_Some (c_tp (conn_of u));
  wf_none : so_pcb u = None → c_tp (conn_of u) = None }.

Lemma find_member h id : id ∈ ids h → is_Some (find_id h id).
Proof.
  intros (i & Hi & <-)%ids_member. unfold find_id. destruct (find _ _) eqn:E; [done|].
  pose proof (find_none _ _ E i) as H. cbn beta in H. rewrite Z.eqb_refl in H. discriminate H. by apply list_elem_of_In.
Qed.

Lemma settle_wf c evs u :
  wf u → (if existsb is_detached evs then c_tp c = None else is_Some (c_tp (conn_of u)) ↔ is_Some (c_tp c)) →
  wf (settle evs (set_conn c u)).
Proof.
  intros [H1 H2 H3] H. unfold settle. destruct (existsb is_detached evs).
  - unfold detach. cbn [so_pcb set_conn tcb]. destruct (so_pcb u) as [id|] eqn:E; [|by split; cbn; [|rewrite E|]].
    destruct (find_id _ _) as [i|]; split; cbn; try done. by apply detach_ok.
  - split; cbn; [done| |].
    + intros id Hid. destruct (H2 id Hid) as [? Ht]. split; [done|by apply H].
    + intros Hn. specialize (H3 Hn). rewrite H3 in H. destruct (c_tp c); [|done]. exfalso. by eapply is_Some_None, H.
Qed.

(** A step that reports nothing. *)
Lemma wlp_conn_quiet {A} (m : M conn A) u (Q : A → tstate → Prop) :
  wlp m (conn_of u) (λ a c, c_out c = c_out (conn_of u) ∧ Q a (set_conn c u)) → wlp (on_conn m) u Q.
Proof.
  unfold wlp, on_conn. destruct (m (conn_of u)) as [[a c]| |]; [|done..]. intros [-> H]. by rewrite drop_all.
Qed.

Lemma detach_wf u : pcbs_ok (tcb u) → c_tp (conn_of u) = None → wf (detach u).
Proof.
  intros Hh Ht. unfold detach. destruct (so_pcb u) as [id|] eqn:E; [|by split; rewrite ?E].
  destruct (find_id _ _) as [i|]; split; cbn; try done. by apply detach_ok.
Qed.

Lemma wlp_conn_both {A} (m : M conn A) u (Q : A → tstate → Prop) :
  wlp m (conn_of u) (λ _ c', follows (conn_of u) c') → wf u →
  wlp m (conn_of u) (λ a c, ∀ u', wf u' → conn_of u' = c → Q a u') → wlp (on_conn m) u Q.
Proof.
  intros Hm Hu HQ. unfold wlp, on_conn in *. destruct (m (conn_of u)) as [[a c]| |]; [|done..].
  destruct Hm as (evs & E & H). apply HQ; [|by rewrite settle_conn]. rewrite E, drop_app_length. by apply settle_wf.
Qed.

Lemma wlp_conn_wf {A} (m : M conn A) u (Q : A → tstate → Prop) :
  (∀ c, wlp m c (λ _ c', follows c c')) → wf u → (∀ a u', wf u' → Q a u') → wlp (on_conn m) u Q.
Proof.
  intros Hm Hu HQ. apply wlp_conn_both; [apply Hm|done|]. unfold wlp. destruct (m (conn_of u)) as [[a c]| |]; [|done..]. intros u' H _. by apply HQ.
Qed.

(** A segment that does not ask for a connection is handled without [in_pcbconnect]. *)
Lemma listen_asks e b x : asks_connect e x = false → TcpInput.listen (with_connect e b) x = TcpInput.listen e x.
Proof.
  unfold asks_connect, TcpInput.listen, with_connect. cbn [e_soname].
  destruct (TcpInput.has_flag x TH_RST); [done|]. destruct (TcpInput.has_flag x TH_ACK); [done|].
  destruct (TcpInput.has_flag x TH_SYN); [|done]. destruct (TcpInput.bcast x); [done|]. by destruct (e_soname e).
Qed.

Lemma store_store i j l : inp_id i = inp_id j → store i (store j l) = store i l.
Proof.
  intros E. unfold store. rewrite <-list_fmap_compose. apply list_fmap_ext. intros _ k _. cbn.
  destruct (Z.eqb_spec (inp_id k) (inp_id j)) as [F|F]; rewrite E; [by rewrite Z.eqb_refl, F, Z.eqb_refl|done].
Qed.

(** A passive open keeps the list in order, whether there is a connection or not. *)
Lemma passive_connect_ok a b c rt d n src sport dst h i er h' :
  pcbs_ok h → i ∈ hd_list h → inp_lport i ≠ 0 → passive_connect a b c rt d n src sport dst h i = Some (er, h') →
  pcbs_ok h' ∧ ids h' = ids h.
Proof.
  intros Hh Hi Hl. unfold passive_connect. set (i1 := if inp_laddr i =? INADDR_ANY then _ else i).
  assert (inp_id i1 = inp_id i ∧ inp_lport i1 = inp_lport i ∧ inp_faddr i1 = inp_faddr i ∧ inp_fport i1 = inp_fport i) as (Eid & Ep & Ef & Ef2)
    by (unfold i1; by destruct (_ =? _)).
  set (h1 := Head _ _). destruct (in_pcbconnect _ _ _ _ _ _ _ _ _ _) as [[er1 h2]|] eqn:E; [|done]. cbn [mbind option_bind].
  assert (Hids : ids h2 = ids h) by (rewrite (connect_ids _ _ _ _ _ _ _ _ _ _ _ _ E); apply store_ids).
  assert (Hi1 : i1 ∈ hd_list h1) by by apply (store_member i).
  destruct (Z.eqb_spec er1 0) as [->|Hne]; intros [= <- <-].
  - split; [|done]. destruct (decide (inp_laddr i1 = inp_laddr i)) as [Ea|Ea].
    { eapply in_pcbconnect_ok; [by apply (store_same_ok h i i1)|exact Hi1|by left; rewrite Ep|exact E]. }
    unfold i1 in Ea. destruct (Z.eqb_spec (inp_laddr i) INADDR_ANY) as [Ea1|]; [|done]. cbn in Ea.
    (* the block of [h] gets the names at once *)
    revert E. unfold in_pcbconnect. cbv zeta. change (negb (sizeof_sockaddr_in =? sizeof_sockaddr_in)) with false.
    change (negb (sin_family _ =? AF_INET)) with false. cbv iota. destruct (_ =? 0); [done|].
    assert (inp_laddr i1 = dst) as Ed by done.
    rewrite Ed, (proj2 (Z.eqb_neq dst INADDR_ANY)) by congruence. unfold connect_pcb.
    pose proof (in_pcblookup_spec (hd_list h1) (connect_addr c (sin_addr (Sin AF_INET sport src))) (sin_port (Sin AF_INET sport src)) dst (inp_lport i1) 0) as Hlook.
    destruct (in_pcblookup _ _ _ _ _ _) as [k|]; [done|]. rewrite Ed, (proj2 (Z.eqb_neq dst INADDR_ANY)) by congruence.
    intros [= <-]. unfold h1. cbn [hd_list hd_lport]. rewrite store_store by done. apply store_ok; [done|apply Hh|done|].
    intros _ j Hj Hid (E1 & E2 & E3 & E4). cbn in Hid, E1, E2, E3, E4.
    assert (Hj1 : j ∈ hd_list h1).
    { apply list_elem_of_fmap. exists j. split; [|done]. destruct (Z.eqb_spec (inp_id j) (inp_id i1)); [done|done]. }
    by specialize (Hlook j 0 Hj1 (wildcard_exact j _ _ _ _ (eq_sym E1) (eq_sym E2) (eq_sym E3) (eq_sym E4))).
  - (* the block has its names again *)
    assert (∃ j, inp_id j = inp_id i ∧ same_conn (set_local j (inp_laddr i) (inp_lport j)) i ∧
      h2 = Head (hd_lport h) (store j (hd_list h))) as (j & Ej & Hs & ->).
    { destruct (connect_failed _ _ _ _ _ _ _ _ _ _ _ _ E Hne) as [->|[ro ->]].
      - exists i1. split; [done|]. by split_and!.
      - exists (Pcb.set_route i1 ro). split; [done|]. split; [by split_and!|]. unfold h1. cbn [hd_list hd_lport]. by rewrite store_store. }
    assert (Hf : is_Some (find_id (Head (hd_lport h) (store j (hd_list h))) (inp_id i))).
    { apply find_member. unfold ids. cbn. rewrite store_ids. apply ids_member. by exists i. }
    destruct Hf as [k Hk]. pose proof (stored_found _ _ _ _ _ Hk (eq_sym Ej)) as ->. unfold update_pcb. rewrite Hk. cbn [hd_list hd_lport].
    rewrite store_store by done. split; [by apply (store_same_ok h i)|apply store_ids].
Qed.

(** A change of the list that keeps it in order and keeps its blocks. *)
Lemma list_wf h u : wf u → pcbs_ok h → ids h = ids (tcb u) → wf (set_tcb h u).
Proof. intros [H1 H2 H3] Hh E. split; cbn; [done|rewrite E; done|done]. Qed.

Lemma update_wf id f u : wf u → mild (tcb u) id f → wf (set_tcb (update_pcb (tcb u) id f) u).
Proof. intros Hu Hf. destruct (update_pcb_ok (tcb u) id f (wf_tcb u Hu) Hf). by apply list_wf. Qed.

Lemma refresh_pcb u : so_pcb (refresh u) = so_pcb u.
Proof. unfold refresh. by destruct (so_pcb u) eqn:E. Qed.

Lemma refresh_seen u id k :
  so_pcb u = Some id → find_id (tcb (refresh u)) id = Some k → Pcb.so_state k = TcpConn.so_state (c_so (conn_of u)).
Proof.
  intros E. unfold refresh. rewrite E. cbn [tcb set_tcb]. unfold update_pcb. destruct (find_id (tcb u) id) as [j|] eqn:F; [|by rewrite F].
  intros ->%stored_found; [done|]. cbn. by apply find_id_in in F as [_ ->].
Qed.

Lemma refresh_wf u : wf u → wf (refresh u).
Proof. intros Hu. unfold refresh. destruct (so_pcb u); [|done]. apply update_wf; [done|]. intros i _. split; [done|]. by left. Qed.

Lemma wlp_inp_wf u (Q : inpcb → tstate → Prop) :
  (∀ i, so_pcb u = Some (inp_id i) → find_id (tcb u) (inp_id i) = Some i → Q i u) → wlp inp_of u Q.
Proof.
  intros H. unfold wlp, inp_of. destruct (so_pcb u) as [id|] eqn:E; cbn; [|done]. destruct (find_id (tcb u) id) as [i|] eqn:F; [|done].
  pose proof (find_id_in _ _ _ F) as [_ <-]. by apply H.
Qed.

Lemma wlp_mod_pcb_wf f u (Q : () → tstate → Prop) :
  wf u → (∀ h id, mild h id f) → (∀ u', wf u' → conn_of u' = conn_of u → so_pcb u' = so_pcb u → Q () u') → wlp (mod_pcb f) u Q.
Proof. intros Hu Hf HQ. unfold mod_pcb. apply wlp_bind, wlp_inp_of. intros i. apply wlp_modify, HQ; [by apply update_wf|done..]. Qed.

Lemma wlp_on_pcb_wf f u (P : Z → pcbs → Prop) (Q : Z → tstate → Prop) :
  wf u →
  (∀ i h er h', pcbs_ok h → i ∈ hd_list h → so_pcb u = Some (inp_id i) → f i h = Some (er, h') →
     (∀ k, find_id (tcb u) (inp_id i) = Some k → inp_lport i = inp_lport k) →
     pcbs_ok h' ∧ ids h' = ids h ∧ P er h') →
  (∀ er u', wf u' → P er (tcb u') → conn_of u' = conn_of u → so_pcb u' = so_pcb u → Q er u') → wlp (on_pcb f) u Q.
Proof.
  intros Hu Hf HQ. unfold on_pcb. apply wlp_bind, wlp_modify, wlp_bind, wlp_inp_wf. intros i Ei Fi.
  apply wlp_bind, wlp_get, wlp_bind, wlp_lift. intros [er h] E. apply wlp_bind, wlp_modify, wlp_ret.
  pose proof (refresh_wf u Hu) as Hr. pose proof (refresh_pcb u) as Ep. rewrite Ep in Ei. destruct (Hf i _ _ _ (wf_tcb _ Hr) (proj1 (find_id_in _ _ _ Fi)) Ei E) as (H1 & H2 & H3).
  - intros k Hk. unfold refresh in Fi. rewrite Ei in Fi. cbn [tcb set_tcb] in Fi. unfold update_pcb in Fi. rewrite Hk in Fi.
    apply stored_found in Fi; [by subst i|]. cbn. by apply find_id_in in Hk as [_ ->].
  - apply HQ; [by apply list_wf|done|apply refresh_conn|done].
Qed.

(** A block that [in_pcbbind] binds has a port. *)
Lemma bind_port a b c h i h' j :
  pcbs_ok h → in_pcbbind a b c h i None = Some (0, h') → find_id h' (inp_id i) = Some j → inp_lport j ≠ 0.
Proof.
  intros Hok. unfold in_pcbbind. destruct (match c with [] => true | _ => false end); [done|]. destruct (_ || _); [done|].
  cbn [bind_name]. change (0 =? 0) with true. cbv iota. destruct (pick_port _ _ _ _ _) as [p|] eqn:Ep; [|done]. cbn [mbind option_bind].
  intros [= <-] Hj. apply stored_found in Hj as ->; [|done]. apply range_nonzero. by eapply pick_port_range; [apply Hok|].
Qed.

Section Keeps.
Context (e : env) (sb_max rttdflt keepintvl ip_defttl : Z) (do_rfc1323 : bool).
Context (ifa_ifwithaddr : Z → bool) (suser : Z) (in_ifaddrs : list in_ifaddr) (rtalloc : Z → option rtentry).
Context (ifa_ifwithdstaddr ifa_ifwithnet : Z → option in_ifaddr) (metrics : rtentry → route_info * bool).
Context (in_control : Z → Z).
#[local] Set Default Proof Using "Type*".
Abbreviation usrreq := (tcp_usrreq e sb_max rttdflt keepintvl ip_defttl do_rfc1323 ifa_ifwithaddr suser in_ifaddrs rtalloc
  ifa_ifwithdstaddr ifa_ifwithnet metrics in_control).
Abbreviation connect := (tcp_connect e ifa_ifwithaddr suser in_ifaddrs rtalloc ifa_ifwithdstaddr ifa_ifwithnet metrics).
Abbreviation bound := (pcbbind ifa_ifwithaddr suser in_ifaddrs).

(** What [malloc] gives is new, and a socket that connects has a descriptor. *)
Definition proper (req : request) (u : tstate) : Prop :=
  match req with
  | PRU_ATTACH (Some a) _ => a ∉ ids (tcb u)
  | PRU_CONNECT _ _ => sflag (c_so (conn_of u)) TcpConn.SS_NOFDREF = false
  | _ => True
  end.

Lemma bound_wf nam u (Q : Z → tstate → Prop) :
  wf u →
  (∀ er u', wf u' → conn_of u' = conn_of u → so_pcb u' = so_pcb u →
     (nam = None → er = 0 → ∀ id j, so_pcb u = Some id → find_id (tcb u') id = Some j → inp_lport j ≠ 0) → Q er u') →
  wlp (bound nam) u Q.
Proof.
  intros Hu HQ. unfold pcbbind. eapply (wlp_on_pcb_wf _ _ (λ er h, nam = None → er = 0 → ∀ id j, so_pcb u = Some id → find_id h id = Some j → inp_lport j ≠ 0)).
  - done.
  - intros i h er h' Hh Hi Ei E _. split; [by eapply in_pcbbind_ok|]. split; [by eapply bind_ids|].
    intros -> -> id j Eid. rewrite Ei in Eid. injection Eid as <-. by eapply bind_port.
  - intros er u' H1 H2 H3 H4. by apply HQ.
Qed.

Lemma route_wf u : wf u → wlp (find_route rtalloc metrics) u (λ _ u', wf u').
Proof.
  intros Hu. unfold find_route. apply wlp_bind, wlp_inp_of. intros i. apply wlp_conn_wf; [|done|done].
  intros c. apply wlp_modify. by apply (follows_same c c); [apply follows_refl|..].
Qed.

Lemma syn_wf u : wf u → wlp (send_syn e rtalloc metrics) u (λ _ u', wf u').
Proof.
  intros Hu. unfold send_syn.
  do 8 (apply wlp_bind, wlp_conn_wf; [intros c; by fol c|done|]; clear u Hu; intros ? u Hu).
  apply wlp_bind. eapply wlp_mono; [by apply route_wf|]. intros [] u' H'. apply wlp_conn_wf; [apply output_follows|done|done].
Qed.

Lemma connect_wf n sin u :
  wf u → sflag (c_so (conn_of u)) TcpConn.SS_NOFDREF = false → wlp (connect n sin) u (λ _ u', wf u').
Proof.
  intros Hu Hfd. unfold tcp_connect. apply wlp_bind, wlp_inp_wf. intros i Ei Fi.
  apply wlp_bind, (wlp_mono _ _ (λ er u', wf u' ∧ conn_of u' = conn_of u ∧ so_pcb u' = so_pcb u ∧
    (er = 0 → ∀ j, find_id (tcb u') (inp_id i) = Some j → inp_lport j ≠ 0))).
  { destruct (Z.eqb_spec (inp_lport i) 0) as [E|E].
    - apply bound_wf; [done|]. intros er u' H1 H2 H3 H4. split_and!; try done. intros E0 j. by apply H4.
    - apply wlp_ret. split_and!; try done. intros _ j Hj. rewrite Fi in Hj. by injection Hj as <-. }
  intros er u1 (H1 & Ec1 & Ep1 & Hport). unfold ztrue. destruct (Z.eqb_spec er 0) as [->|]; [|by apply wlp_ret]. cbn [negb].
  specialize (Hport eq_refl). rewrite <-Ec1 in Hfd. rewrite <-Ep1 in Ei. clear u Hu Ec1 Ep1 Fi.
  apply wlp_bind. unfold pcbconnect. eapply (wlp_on_pcb_wf _ _ (λ _ _, True)); [done| |].
  { intros k h er h' Hh Hk Ek E Hl. rewrite Ei in Ek. injection Ek as Ek.
    assert (is_Some (find_id (tcb u1) (inp_id k))) as [j Hj] by (rewrite <-Ek; apply find_member, H1; done).
    split; [|by split; [eapply connect_ids|]]. eapply in_pcbconnect_ok; [done|done| |exact E]. left.
    rewrite (Hl _ Hj). apply Hport. by rewrite Ek. }
  intros er u2 H2 _ Ec2 Ep2. destruct (negb (er =? 0)); [by apply wlp_ret|]. rewrite <-Ec2 in Hfd. rewrite <-Ep2 in Ei. clear u1 H1 Hport Ec2 Ep2 er.
  apply wlp_bind, wlp_conn_both; [apply template_follows|done|]. unfold wlp at 1, tcp_template.
  assert (Hsyn : ∀ u', wf u' → wlp (send_syn e rtalloc metrics) u' (λ _ u', wf u')) by apply syn_wf.
  destruct (_ || _); intros u3 H3 E3; cbn [negb]; [by apply Hsyn|].
  rewrite <-E3 in Hfd. unfold pcbdisconnect. apply wlp_bind, wlp_bind, wlp_modify, wlp_bind, wlp_inp_wf. intros k Ek Fk.
  apply wlp_modify, wlp_ret. apply refresh_wf in H3 as Hr. assert (Hk : has_flag (Pcb.so_state k) Pcb.SS_NOFDREF = false).
  { rewrite refresh_pcb in Ek. by rewrite (refresh_seen u3 _ k Ek Fk). }
  rewrite Hk. apply (list_wf _ _ Hr); [|by apply disconnect_ids].
  eapply pcb_step_ok; [|apply Hr].
  by apply step_disconnect, (find_id_in _ _ _ Fk).
Qed.

Lemma slowtimo_wf i u : wf u → wlp (slowtimo e keepintvl rtalloc metrics i) u (λ _ u', wf u').
Proof.
  intros Hu. unfold slowtimo. apply wlp_bind, wlp_conn_wf; [|done|].
  { intros c. apply wlp_bind, wlp_get_so, wlp_bind, wlp_get_tp. intros tp Ht. cbv zeta.
    destruct (tcp_timers _ tp i) as [tp' acts]. fol c. }
  clear u Hu. intros acts u Hu. revert u Hu. induction acts as [|a acts IH]; intros u Hu; [by apply wlp_ret|].
  apply wlp_bind, (wlp_mono _ _ (λ _ u', wf u')); [|intros [] u'; apply IH]. clear IH.
  destruct a; cbn [timer_call].
  - apply wlp_bind, wlp_conn_wf; [apply output_follows|done|intros; by apply wlp_ret].
  - apply wlp_bind, wlp_conn_wf; [intros c; by fol c|done|intros; by apply wlp_ret].
  - apply wlp_bind, wlp_conn_wf; [intros c; by fol c|done|]. clear u Hu. intros c u Hu. destruct (c_template c); [|done].
    by apply wlp_conn_wf; [apply respond_follows|..].
  - by apply wlp_conn_wf; [apply drop_follows|..].
  - by apply wlp_conn_wf; [apply close_follows|..].
  - apply wlp_bind, wlp_mod_pcb_wf; [done| |intros u' H' _ _; by apply route_wf].
    intros h id k _. split; unfold in_losing; destruct (ro_rt _); cbn; try done; by left.
  - done.
Qed.

Lemma attached_wf req u :
  wf u → proper req u →
  wlp (attached_request e keepintvl ifa_ifwithaddr suser in_ifaddrs rtalloc ifa_ifwithdstaddr ifa_ifwithnet metrics in_control req) u
    (λ _ u', wf u').
Proof.
  intros Hu Hp. unfold attached_request. apply wlp_bind, wlp_conn_both; [by fol (conn_of u)|done|]. apply wlp_get_tp. intros tp Ht u1 H1 E1.
  assert (Hfd : proper req u1 ∨ ∃ a cb, req = PRU_ATTACH a cb).
  { destruct req; try (by left); [right; by eexists _, _|]. left. cbn in *. by rewrite E1. }
  clear u Hu Hp Ht E1. rename u1 into u, H1 into Hu.
  destruct req; unfold quiet, failing; try (by apply wlp_ret); try done; try (apply wlp_bind, wlp_inp_of; intros i; by apply wlp_ret).
  - apply wlp_bind, wlp_conn_wf; [|done|intros; by apply wlp_ret]. intros c. destruct (_ <? _); [apply disconnect_follows|apply close_follows].
  - apply wlp_bind, bound_wf; [done|]. intros; by apply wlp_ret.
  - apply wlp_bind, wlp_inp_of. intros i. apply wlp_bind, (wlp_mono _ _ (λ _ u', wf u')).
    { destruct (_ =? 0); [|by apply wlp_ret]. by apply bound_wf. }
    clear u Hu Hfd. intros er u Hu. apply wlp_bind. destruct (_ =? 0); [|by do 2 apply wlp_ret].
    apply wlp_conn_wf; [intros c; by fol c|done|intros; by apply wlp_ret].
  - destruct Hfd as [Hfd|(?&?&?)]; [|done]. apply wlp_bind. eapply wlp_mono; [by apply connect_wf|]. intros; by apply wlp_ret.
  - apply wlp_bind, wlp_conn_wf; [apply disconnect_follows|done|intros; by apply wlp_ret].
  - apply wlp_bind, wlp_conn_wf; [|done|intros; by apply wlp_ret]. intros c. fol c. fol_with c usrclosed_follows. fol c. fol_with c output_if_follows. chase.
  - apply wlp_bind, wlp_conn_wf; [intros c; by fol c|done|intros; by apply wlp_ret].
  - apply wlp_bind, wlp_conn_wf; [intros c; unfold snd_append; by fol c|done|intros; by apply wlp_ret].
  - apply wlp_bind, wlp_conn_wf; [apply drop_follows|done|intros; by apply wlp_ret].
  - apply wlp_bind, wlp_conn_wf; [intros c; by fol c|done|intros; by apply wlp_ret].
  - by apply wlp_conn_wf; [apply rcv_oob_follows|..].
  - apply wlp_bind, wlp_conn_wf; [apply send_oob_follows|done|intros; by apply wlp_ret].
  - apply wlp_bind. eapply wlp_mono; [by apply slowtimo_wf|]. intros; by apply wlp_ret.
Qed.

Lemma attach_wf a cb u :
  wf u → so_pcb u = None → proper (PRU_ATTACH a cb) u →
  wlp (attach_request e sb_max rttdflt ip_defttl do_rfc1323 a cb) u (λ _ u', wf u').
Proof.
  intros Hu Hn Hp. unfold attach_request, tcp_attach.
  apply wlp_bind, (wlp_mono _ _ (λ er u', wf u')); [|].
  - apply wlp_bind, wlp_conn_quiet, wlp_get_so. split; [done|]. replace (set_conn (conn_of u) u) with u by (by destruct u).
    apply wlp_bind, (wlp_mono _ _ (λ er u', wf u' ∧ so_pcb u' = None ∧ ids (tcb u') = ids (tcb u))).
    { destruct (_ || _); [|by apply wlp_ret]. apply wlp_conn_quiet. unfold reserve. wlps. split; [done|]. split; [|done].
      destruct Hu as [H1 H2 H3]. split; cbn; [done| |done]. by rewrite Hn. }
    intros er u1 (H1 & Hn1 & Ei). destruct (ztrue er); [by apply wlp_ret|].
    apply wlp_bind. unfold pcballoc, wlp at 1. destruct a as [a|]; cbn [in_pcballoc]; [|by apply wlp_ret; destruct u1].
    cbn in Hp. rewrite <-Ei in Hp. clear u Hu Hn Ei. change (0 =? 0) with true. cbv iota. change (ztrue 0) with false. cbv iota.
    pose proof (alloc_ok a (TcpConn.so_options (c_so (conn_of u1))) (TcpConn.so_state (c_so (conn_of u1)))
      (Z.lor PR_CONNREQUIRED Socket.PR_WANTRCVD) _ (wf_tcb _ H1) Hp) as Ha. cbn [in_pcballoc snd] in Ha.
    destruct (negb cb).
    + apply wlp_bind, wlp_conn_quiet, wlp_get_so. split; [done|]. apply wlp_bind, wlp_conn_quiet, wlp_mod_so. split; [done|].
      apply wlp_bind, wlp_modify, wlp_bind.
      match goal with |- wlp _ (detach ?v) _ => assert (Hv : wf (detach v)) by (apply detach_wf; [exact Ha|by apply (wf_none _ H1)]) end.
      apply wlp_conn_wf; [intros c; by fol c|done|]. intros; by apply wlp_ret.
    + apply wlp_bind, wlp_conn_quiet. wlps. split; [done|]. apply wlp_bind, wlp_mod_pcb_wf.
      * split; cbn; [done| |done]. intros id [= <-]. split; [unfold ids; cbn; by left|done].
      * intros h id k _. split; [done|]. by left.
      * intros u' H' _ _. apply wlp_bind, wlp_conn_wf; [intros c; by fol c|done|]. intros [] u2 H2. by apply wlp_ret.
  - intros er u' H'. destruct (ztrue er); [by apply wlp_ret|]. clear u Hu Hn Hp.
    apply wlp_bind, wlp_conn_wf; [intros c; by fol c|done|]. intros [] u2 H2.
    apply wlp_bind, wlp_conn_wf; [intros c; by fol c|done|]. intros; by apply wlp_ret.
Qed.

Lemma usrreq_wf req control u :
  wf u → proper req u → wlp (usrreq req control) u (λ _ u', wf u').
Proof.
  intros Hu Hp. unfold tcp_usrreq.
  assert (Hc : wlp (do! on_conn (low (do! Mbuf.m_freem control in Mbuf.m_freem (data_of req))) in ret (EINVAL, Nothing)) u (λ _ u', wf u')).
  { apply wlp_bind, wlp_conn_wf; [intros c; by fol c|done|intros; by apply wlp_ret]. }
  destruct req as [a cb| | | | | | | | | | | | | | | | | |cmd|] eqn:Er; try (by apply wlp_ret);
    (destruct (has_control control); [exact Hc|]); apply wlp_bind, wlp_get; destruct (so_pcb u) eqn:Ep;
    try (by apply wlp_ret); try (by apply attached_wf).
  unfold failing. apply wlp_bind. eapply wlp_mono; [by apply attach_wf|]. intros; by apply wlp_ret.
Qed.

(** The options of TCP. *)
Lemma ctloutput_wf word unword drain junk junk_len op level optname mp u :
  wf u → wlp (tcp_ctloutput word unword drain junk junk_len op level optname mp) u (λ _ u', wf u').
Proof using Type.
  intros Hu. unfold tcp_ctloutput. apply wlp_bind, wlp_get. destruct (so_pcb u).
  2: { apply wlp_bind. destruct (_ =? _); [|by do 2 apply wlp_ret].
       apply wlp_conn_wf; [intros c; unfold free_opt; destruct mp; by fol c|done|intros; by apply wlp_ret]. }
  destruct (negb _); [by apply wlp_ret|]. destruct (_ =? _).
  - apply wlp_bind, wlp_conn_wf; [|done|].
    { intros c. unfold set_tcp_option, int_at. fol c. }
    clear u Hu. intros er u Hu. apply wlp_bind, wlp_conn_wf; [|done|intros; by apply wlp_ret].
    intros c. unfold free_opt. destruct mp; by fol c.
  - destruct (_ =? _); [|by apply wlp_ret].
    apply wlp_bind, wlp_conn_wf; [intros c; by fol c|done|]. clear u Hu. intros m u Hu. apply wlp_bind, wlp_lift. intros m' _.
    apply wlp_bind, wlp_conn_wf; [intros c; by fol c|done|]. clear u Hu. intros tp u Hu. destruct (get_tcp_option _ _); [|by apply wlp_ret].
    apply wlp_bind, wlp_conn_wf; [intros c; by fol c|done|intros; by apply wlp_ret].
Qed.

(** A segment, for a block that has a port if it listens. *)
Lemma segment_wf src sport dst x u :
  wf u → (st (conn_of u) = TCPS_LISTEN → ∀ i, so_pcb u ≫= find_id (tcb u) = Some i → inp_lport i ≠ 0) →
  wlp (tcp_segment e ifa_ifwithaddr suser in_ifaddrs rtalloc ifa_ifwithdstaddr ifa_ifwithnet src sport dst x) u (λ _ u', wf u').
Proof using Type.
  intros Hu Hl. unfold tcp_segment. apply wlp_bind, wlp_conn_quiet, wlp_get_tp. intros tp Ht. split; [done|].
  replace (set_conn (conn_of u) u) with u by by destruct u.
  destruct ((tp t_state =? TCPS_LISTEN) && _) eqn:E; [|by apply wlp_conn_wf; [apply tcp_input_follows|..]].
  apply andb_prop in E as [E _]. zbool. rewrite <-(st_tp _ _ Ht) in E. specialize (Hl E). clear tp Ht E.
  apply wlp_bind, (wlp_on_pcb_wf _ _ (λ _ _, True)); [done| |].
  - intros i h er h' Hh Hi Ei E Hp.
    assert (is_Some (find_id (tcb u) (inp_id i))) as [j Hj] by by apply find_member, Hu.
    assert (inp_lport i ≠ 0) as Hl1 by (rewrite (Hp _ Hj); apply Hl; by rewrite Ei).
    by destruct (passive_connect_ok _ _ _ _ _ _ _ _ _ _ _ _ _ Hh Hi Hl1 E).
  - intros er u' H' _ _ _. by apply wlp_conn_wf; [apply tcp_input_follows|..].
Qed.

(** The new block of a passive open, which has no peer. *)
Lemma new_connection_wf dst dport srcroute u :
  wf u → dport ≠ 0 → (∀ i, so_pcb u ≫= find_id (tcb u) = Some i → inp_faddr i = INADDR_ANY) →
  wlp (new_connection dst dport srcroute) u (λ _ u', wf u' ∧ ∀ i, so_pcb u' ≫= find_id (tcb u') = Some i → inp_lport i ≠ 0).
Proof using Type.
  intros Hu Hp Hf. unfold new_connection, mod_pcb. apply wlp_bind, wlp_bind, wlp_inp_wf. intros i Ei Fi. apply wlp_modify.
  assert (Hi : ∀ j, find_id (tcb u) (inp_id i) = Some j → inp_faddr j = INADDR_ANY) by (intros j Hj; apply Hf; by rewrite Ei).
  assert (H1 : wf (set_tcb (update_pcb (tcb u) (inp_id i) (named dst dport srcroute)) u)).
  { apply update_wf; [done|]. intros j Hj. split; [done|]. right. split; [exact (Hi j Hj)|done]. }
  assert (H2 : ∀ k, find_id (update_pcb (tcb u) (inp_id i) (named dst dport srcroute)) (inp_id i) = Some k → inp_lport k ≠ 0).
  { intros k. unfold update_pcb. rewrite Fi. by intros ->%stored_found. }
  set (u1 := set_tcb _ u) in *.
  assert (Hq : ∀ c, is_Some (c_tp (conn_of u1)) ↔ is_Some (c_tp c) → wf (set_conn c u1)).
  { intros c Hc. exact (settle_wf c [] u1 H1 Hc). }
  apply wlp_bind, wlp_conn_quiet, wlp_mod_tp. intros tp Ht. split; [done|].
  apply wlp_conn_quiet. apply wlp_bind, wlp_get_so, wlp_bind, wlp_get_tp. intros tp1 Ht1. apply wlp_bind, wlp_lift. intros tp2 _.
  apply wlp_put_tp. split; [done|]. split.
  - apply Hq. cbn [conn_of set_conn u1 set_tcb] in Ht |- *. rewrite Ht. cbn. by split.
  - cbn. rewrite Ei. cbn. exact H2.
Qed.
End Keeps.

(** What happens to a socket of TCP: the requests, the timers among them; segments for its
    connection; the options; and the steps of the other sockets, which leave its block in
    the list.  The interfaces, the routes, the memory and what the other services answer
    are those of the moment.  [step_passive] is a segment for a listening socket, on the
    socket that [sonewconn] has made and attached, whose block has no peer; the port of
    a segment for a listening block is not zero. *)
Inductive user_step (u : tstate) : tstate → Prop :=
  | step_request e sb_max rttdflt keepintvl ip_defttl do_rfc1323 ifa_ifwithaddr suser in_ifaddrs rtalloc ifa_ifwithdstaddr
      ifa_ifwithnet metrics in_control req control r u' :
      proper req u →
      tcp_usrreq e sb_max rttdflt keepintvl ip_defttl do_rfc1323 ifa_ifwithaddr suser in_ifaddrs rtalloc ifa_ifwithdstaddr
        ifa_ifwithnet metrics in_control req control u = Ok (r, u') → user_step u u'
  | step_segment e ifa_ifwithaddr suser in_ifaddrs rtalloc ifa_ifwithdstaddr ifa_ifwithnet src sport dst x r u' :
      (st (conn_of u) = TCPS_LISTEN → ∀ i, so_pcb u ≫= find_id (tcb u) = Some i → inp_lport i ≠ 0) →
      tcp_segment e ifa_ifwithaddr suser in_ifaddrs rtalloc ifa_ifwithdstaddr ifa_ifwithnet src sport dst x u = Ok (r, u') →
      user_step u u'
  | step_passive e ifa_ifwithaddr suser in_ifaddrs rtalloc ifa_ifwithdstaddr ifa_ifwithnet src sport dst dport srcroute x r u' :
      dport ≠ 0 → (∀ i, so_pcb u ≫= find_id (tcb u) = Some i → inp_faddr i = INADDR_ANY) →
      (do! new_connection dst dport srcroute in
       tcp_segment e ifa_ifwithaddr suser in_ifaddrs rtalloc ifa_ifwithdstaddr ifa_ifwithnet src sport dst x) u = Ok (r, u') →
      user_step u u'
  | step_ctl word unword drain junk junk_len op level optname mp r u' :
      tcp_ctloutput word unword drain junk junk_len op level optname mp u = Ok (r, u') → user_step u u'
  | step_others h : pcb_step (tcb u) h → (∀ id, so_pcb u = Some id → id ∈ ids h) → user_step u (set_tcb h u).

Lemma wlp_result {S A} (m : M S A) s a s' (P : S → Prop) : wlp m s (λ _ s', P s') → m s = Ok (a, s') → P s'.
Proof. unfold wlp. intros H E. by rewrite E in H. Qed.

Lemma user_step_wf u u' : user_step u u' → wf u → wf u'.
Proof.
  destruct 1 as [e ? ? ? ? ? ? ? ? ? ? ? ? ? req control r u' Hp H|e ? ? ? ? ? ? src sport dst x r u' Hl H|
    e ? ? ? ? ? ? src sport dst dport sr x r u' Hp Hf H|w uw d jk jl op lv on mp r u' H|h Hh Hi]; intros Hu.
  - eapply wlp_result; [by apply usrreq_wf|exact H].
  - eapply wlp_result; [by apply segment_wf|exact H].
  - eapply wlp_result; [|exact H]. apply wlp_bind. eapply wlp_mono; [by apply new_connection_wf|].
    intros [] u1 [H1 H2]. by apply segment_wf.
  - eapply wlp_result; [by apply ctloutput_wf|exact H].
  - destruct Hu as [H1 H2 H3]. split; cbn; [by eapply pcb_step_ok| |done]. intros id Hid. split; [by apply Hi|exact (proj2 (H2 id Hid))].
Qed.

Lemma reachable_wf h c u : pcbs_ok h → c_tp c = None → rtc user_step (TS c None h) u → wf u.
Proof.
  intros Hh Hc Hr. assert (H0 : wf (TS c None h)) by (by split).
  induction Hr as [u|u1 u2 u3 H1 H2 IH]; [done|]. apply IH. by eapply user_step_wf.
Qed.

(** ** The FIN *)

Section Fin.
Context (max_linkhdr : Z) (mget mcopy : nat → bool) (ip_output : nat → segment → Z) (sb_max dflt : Z) (route : option route_info) (now : Z).

(** Nothing is left to send or to be acknowledged, and the FIN was not sent. *)
Record drained (buf : sock) (tp : tcpcb) : Prop := {
  dr_cc : snd_cc buf = 0;
  dr_nxt : tp snd_nxt = tp snd_una;
  dr_max : tp snd_max = tp snd_una;
  dr_una : is_u32 (tp snd_una);
  dr_seg : 0 <= tp t_maxseg;
  dr_force : tp t_force = 0;
  dr_fin : tflag tp TF_SENTFIN = false }.

Lemma drained_wr f v buf tp :
  f ∉ [snd_nxt; snd_una; snd_max; t_maxseg; t_force; t_flags] → drained buf tp → drained buf (wr f v tp).
Proof.
  intros Hf [A B C D E F G]. repeat setoid_rewrite not_elem_of_cons in Hf. destruct Hf as (F1 & F2 & F3 & F4 & F5 & F6 & _).
  split; unfold tflag; rewrite ?wr_ne by done; done.
Qed.

(** The plan is a FIN without data. *)
Lemma drained_plan buf tp :
  drained buf tp → fin_state tp = true → tp t_state ≠ TCPS_CLOSING → out_plan buf tp = Some (Plan tp (Z.lor TH_FIN TH_ACK) 0 0 false).
Proof.
  intros [A B C D E F G] Hs Hc. unfold out_plan.
  assert (Hf : (if 0 <=? tp t_state then tcp_outflags !! Z.to_nat (tp t_state) else None) = Some (Z.lor TH_FIN TH_ACK)).
  { unfold fin_state in Hs. apply orb_true_iff in Hs as [[Hs|Hs]%orb_true_iff|Hs]; zbool; by rewrite Hs in *. }
  rewrite Hf, F, A, B. change (ztrue 0) with false. cbv iota zeta. rewrite Z.sub_diag. change (s32 0) with 0.
  pose proof (u32_range (s32 (tp snd_wnd `min` tp snd_cwnd))) as Hr. unfold is_u32 in Hr. rewrite Z.min_l by lia.
  change (s32 (0 - 0)) with 0. change (0 <? 0) with false. cbv iota. rewrite (proj2 (Z.ltb_ge _ 0)) by lia. cbv iota.
  rewrite !Z.add_0_r, B. unfold SEQ_LT. by rewrite Z.sub_diag.
Qed.

Lemma drained_sends fuel buf tp :
  drained buf tp → fin_state tp = true → tp t_state ≠ TCPS_CLOSING → mget 0%nat = true →
  ∃ tp' sg er, tcp_output max_linkhdr mget mcopy ip_output sb_max dflt route now true (S fuel) buf tp = Some (tp', buf, [sg], er) ∧
    fl (sg_flags sg) TH_FIN = true ∧ sg_seq sg = tp snd_una ∧ sg_len sg = 0.
Proof.
  intros Hd Hs Hc Hm. unfold tcp_output. set (tp1 := idle_restart tp).
  assert (drained buf tp1 ∧ fin_state tp1 = true ∧ tp1 t_state ≠ TCPS_CLOSING ∧ tp1 snd_una = tp snd_una) as (Hd1 & Hs1 & Hc1 & <-).
  { unfold tp1, idle_restart. destruct (_ && _); [|done]. split; [apply drained_wr; [notin|done]|]. unfold fin_state. by tsimpl. }
  clearbody tp1. cbn [output_loop]. unfold output_round. rewrite drained_plan by done.
  assert (Hdec : ∀ idle, out_decide buf idle (Plan tp1 (Z.lor TH_FIN TH_ACK) 0 0 false) = true).
  { intros idle. unfold out_decide. cbn [p_tp p_flags]. rewrite (dr_fin _ _ Hd1). change (fl (Z.lor TH_FIN TH_ACK) TH_FIN) with true. by rewrite !orb_true_r. }
  rewrite Hdec. cbn [negb]. unfold out_options. cbn [p_tp p_flags p_len p_off p_sendalot].
  change (fl (Z.lor TH_FIN TH_ACK) TH_SYN) with false. cbv iota zeta. set (opt := if _ && _ then _ else _).
  change (u32 0) with 0. rewrite (proj2 (Z.ltb_ge _ 0)) by (pose proof (u32_range (tp1 t_maxseg - Z.of_nat (length opt))); unfold is_u32 in *; lia).
  unfold out_mbufs. rewrite Hm. cbn [negb p_len]. change (0 =? 0) with true. cbv iota. cbn [p_tp p_sendalot].
  unfold out_header. cbn [p_flags p_tp p_len p_off]. rewrite (dr_fin _ _ Hd1), andb_false_r. cbn [andb]. cbv iota zeta.
  change (fl (Z.lor TH_FIN TH_ACK) (Z.lor TH_SYN TH_FIN)) with true. rewrite !orb_true_r. cbn [orb].
  rewrite (dr_nxt _ _ Hd1).
  destruct (SEQ_GT (tp1 snd_up) (tp1 snd_una)); cbv beta iota;
    (destruct (negb (ip_output 0 _ =? 0)); [destruct (out_error _ _)|]; eexists _, _, _; split; [reflexivity|done..]).
Qed.
End Fin.

(** ** Bits *)

Lemma land_mod z k n : 0 <= n → 0 <= k < 2 ^ n → Z.land (z mod 2 ^ n) k = Z.land z k.
Proof.
  intros Hn Hk. apply Z.bits_inj'; intros i Hi. rewrite !Z.land_spec. destruct (Z.lt_ge_cases i n); [by rewrite Z.mod_pow2_bits_low|].
  by rewrite (testbit_high k n i), !andb_false_r by lia.
Qed.

Lemma land_s8 z k : 0 <= k < 128 → Z.land (s8 z) k = Z.land z k.
Proof. intros H. rewrite <-(land_mod (s8 z) k 7), <-(land_mod z k 7) by lia. f_equal. change (2 ^ 7) with 128. wraplia. Qed.

(** Reading the byte sets [TCPOOB_HADDATA] if it was clear. *)
Lemma oob_toggle z : ztrue (Z.land z 2) = false → ztrue (Z.land (s8 (Z.lxor z (Z.lor 1 2))) 2) = true.
Proof.
  intros H. rewrite land_s8 by lia. unfold ztrue in *. apply negb_false_iff, Z.eqb_eq in H. apply negb_true_iff, Z.eqb_neq. intros E.
  assert (T : Z.testbit (Z.land (Z.lxor z 3) 2) 1 = Z.testbit 0 1) by (by rewrite <-E).
  assert (T2 : Z.testbit (Z.land z 2) 1 = Z.testbit 0 1) by (by rewrite H).
  rewrite Z.land_spec, Z.bits_0 in T, T2. rewrite Z.lxor_spec in T. by destruct (Z.testbit z 1).
Qed.

(** ** Properties *)

Section Properties.
Context (e : env) (sb_max rttdflt keepintvl ip_defttl : Z) (do_rfc1323 : bool).
Context (ifa_ifwithaddr : Z → bool) (suser : Z) (in_ifaddrs : list in_ifaddr) (rtalloc : Z → option rtentry).
Context (ifa_ifwithdstaddr ifa_ifwithnet : Z → option in_ifaddr) (metrics : rtentry → route_info * bool).
Context (in_control : Z → Z).
Abbreviation usrreq := (tcp_usrreq e sb_max rttdflt keepintvl ip_defttl do_rfc1323 ifa_ifwithaddr suser in_ifaddrs rtalloc
  ifa_ifwithdstaddr ifa_ifwithnet metrics in_control).

Lemma attach_st a cb u :
  c_tp (conn_of u) = None →
  wlp (attach_request e sb_max rttdflt ip_defttl do_rfc1323 a cb) u (λ _ u', st (conn_of u') = TCPS_CLOSED).
Proof.
  intros Ht. pose proof (closed_st _ Ht) as Hs. unfold attach_request, tcp_attach.
  apply wlp_bind, (wlp_mono _ _ (λ _ u', st (conn_of u') = TCPS_CLOSED)).
  - apply wlp_bind, wlp_on_conn, wlp_get_so. intros u1 E1.
    apply wlp_bind, (wlp_mono _ _ (λ _ u', st (conn_of u') = TCPS_CLOSED)).
    { destruct (_ || _); [|apply wlp_ret; by rewrite E1]. apply wlp_on_conn. unfold reserve. wlps. intros u2 ->. by rewrite E1. }
    clear u u1 Ht Hs E1. intros er u Hs. destruct (ztrue er); [by apply wlp_ret|].
    apply wlp_bind. unfold pcballoc, wlp at 1. destruct (in_pcballoc _ _ _ _ _) as [er2 h].
    destruct (ztrue er2); [by apply wlp_ret|]. destruct (negb cb).
    + apply wlp_bind, wlp_on_conn, wlp_get_so. intros u1 E1. apply wlp_bind, wlp_on_conn, wlp_mod_so. intros u2 E2.
      apply wlp_bind, wlp_modify, wlp_bind, wlp_on_conn, wlp_mod_so. intros u3 E3. apply wlp_ret. rewrite E3. unfold detach.
      destruct (so_pcb u2); [destruct (find_id _ _)|]; unfold st; cbn; rewrite E2; cbn; by rewrite E1.
    + apply wlp_bind, wlp_on_conn. wlps. intros u1 E1. apply wlp_bind, wlp_mod_pcb. intros u2 E2.
      apply wlp_bind, wlp_on_conn, wlp_mod_tp. intros tp _ u3 E3. apply wlp_ret. rewrite E3. unfold st. cbn. by tsimpl.
  - intros er u' H. destruct (ztrue er); [by apply wlp_ret|]. apply wlp_bind, wlp_on_conn, wlp_mod_so. intros u2 E2.
    apply wlp_bind, wlp_on_conn, wlp_get_tp. intros tp _ u3 E3. apply wlp_ret. by rewrite E3, E2.
Qed.


(** C4: a socket of TCP points at a protocol control block exactly as long as there is a
    control block of TCP behind it, so the check [tp] lacks ("WHAT IF TP IS 0?") is not
    needed; the block is in the list, and a connection finds its own block by its names, so
    no two connections have the same: an invariant of all sequences of requests, timers,
    segments (with the passive opens, whose [in_pcbconnect] works on the list), options,
    and operations of other sockets on the list that leave the block of this one in it.
    The interfaces, the routes and the memory may be others at each step; as [user_step]
    says, the blocks allocated are new, a socket that connects has a descriptor, and a
    listening block has a port. *)
Theorem tcp_blocks_attached h c u :
  pcbs_ok h → c_tp c = None → rtc user_step (TS c None h) u →
  (is_Some (so_pcb u) ↔ is_Some (c_tp (conn_of u))) ∧
  (∀ id, so_pcb u = Some id → ∃ i, find_id (tcb u) id = Some i ∧
     (inp_faddr i ≠ INADDR_ANY → inp_laddr i ≠ INADDR_ANY →
      in_pcblookup (hd_list (tcb u)) (inp_faddr i) (inp_fport i) (inp_laddr i) (inp_lport i) INPLOOKUP_WILDCARD = Some i)).
Proof.
  intros Hh Hc Hr. eapply reachable_wf in Hr as [H1 H2 H3]; [|done..]. split.
  - destruct (so_pcb u) as [id|] eqn:E; [|by rewrite H3]. destruct (H2 id eq_refl). split; [done|by eexists].
  - intros id Hid. destruct (H2 id Hid) as [Hi _]. apply find_member in Hi as [i Hi]. exists i. split; [done|].
    intros Hf Hl. apply lookup_connected; [done| |done..]. by apply find_id_in in Hi as [? _].
Qed.

Lemma cantsend_set so : sflag (socantsendmore so) TcpConn.SS_CANTSENDMORE = true.
Proof.
  unfold sflag, socantsendmore, set_sflag, with_state. cbn. rewrite land_s16 by done.
  rewrite Z.land_lor_distr_l. unfold ztrue. apply negb_true_iff, Z.eqb_neq. intros [_ H]%Z.lor_eq_0_iff. discriminate H.
Qed.

Lemma usrclosed_step c tp :
  c_tp c = Some tp → tp t_state = TCPS_ESTABLISHED ∨ tp t_state = TCPS_CLOSE_WAIT →
  tcp_usrclosed e c = Ok ((), set_tp (Some (wr t_state (if tp t_state =? TCPS_ESTABLISHED then TCPS_FIN_WAIT_1 else TCPS_LAST_ACK) tp)) c).
Proof.
  intros Ht Hs. unfold tcp_usrclosed, bind at 1, get_tp. rewrite Ht.
  destruct Hs as [Hs|Hs]; rewrite Hs; cbn [Z.eqb orb]; unfold bind, put_tp, modify, get; cbn [c_tp set_tp]; by tsimpl.
Qed.

(** C9: a user that closes is told to the peer: when everything sent is acknowledged,
    [PRU_SHUTDOWN] on an established connection, or one whose peer has closed, returns
    and sends one segment, a FIN with the next sequence number; the socket takes no more
    data. *)
Theorem shutdown_sends_fin u tp n :
  is_Some (so_pcb u) → c_tp (conn_of u) = Some tp → c_template (conn_of u) = true →
  tp t_state = TCPS_ESTABLISHED ∨ tp t_state = TCPS_CLOSE_WAIT → drained (so_buf (c_so (conn_of u))) tp →
  e_mget e 0 = true → e_fuel e = S n →
  ∃ er sg u', usrreq PRU_SHUTDOWN [] u = Ok ((er, Nothing), u') ∧
    c_out (conn_of u') = c_out (conn_of u) ++ [Sent sg] ∧
    fl (sg_flags sg) TH_FIN = true ∧ sg_seq sg = tp snd_una ∧ sg_len sg = 0 ∧
    st (conn_of u') = (if tp t_state =? TCPS_ESTABLISHED then TCPS_FIN_WAIT_1 else TCPS_LAST_ACK) ∧
    sflag (c_so (conn_of u')) TcpConn.SS_CANTSENDMORE = true.
Proof.
  intros [id Hid] Ht Htm Hst Hd Hm Hf. set (so := socantsendmore (c_so (conn_of u))).
  set (st' := if tp t_state =? TCPS_ESTABLISHED then TCPS_FIN_WAIT_1 else TCPS_LAST_ACK).
  set (tp1 := wr t_state st' tp). set (c1 := set_tp (Some tp1) (set_so so (conn_of u))).
  assert (Hs1 : tp1 t_state = st') by (unfold tp1, st'; tsimpl; by destruct (_ =? _)).
  assert (Hd1 : drained (so_buf so) tp1).
  { apply (drained_wr t_state st'); [notin|]. destruct Hd as [A B C D E F G]. split; try done.
    unfold snd_cc in *. cbn. by rewrite TcpFsm.wakeup_cc. }
  destruct (drained_sends (e_linkhdr e) (e_mget e) (e_mcopy e) (e_ip e) (e_sbmax e) (e_mssdflt e) (c_route c1) (e_now e) n (so_buf so) tp1)
    as (tp2 & sg & er & Eo & F1 & F2 & F3); [done| | |done|].
  { unfold fin_state. rewrite Hs1. unfold st'. by destruct (_ =? _). }
  { rewrite Hs1. unfold st'. by destruct (_ =? _). }
  pose proof Eo as [W _]%output_writes.
  set (c2 := emit [Sent sg] (set_so (with_buf (so_buf so) so) (set_tp (Some tp2) c1))).
  exists er, sg, (settle [Sent sg] (set_conn c2 u)).
  assert (E1 : (do! mod_so socantsendmore in do! tcp_usrclosed e in output_if e) (conn_of u) = Ok (er, c2)).
  { unfold bind at 1, mod_so. fold so. unfold bind at 1. rewrite (usrclosed_step (set_so so (conn_of u)) tp) by done.
    fold st' tp1 c1. unfold output_if, output. cbn [c_tp c1 set_tp]. change (c_template c1) with (c_template (conn_of u)). rewrite Htm, Hf.
    change (c_so c1) with so. by rewrite Eo. }
  split.
  - unfold tcp_usrreq. cbn [has_control]. unfold bind at 1, get. rewrite Hid. unfold attached_request, failing.
    assert (Eg : on_conn get_tp u = Ok (tp, u)).
    { unfold on_conn, get_tp. rewrite Ht, drop_all. unfold settle. cbn. by destruct u. }
    unfold bind at 1. rewrite Eg. unfold bind at 1, on_conn at 1. rewrite E1. cbn [c_out emit c2].
    change (c_out c1) with (c_out (conn_of u)). by rewrite drop_app_length.
  - rewrite settle_conn. cbn [conn_of set_conn]. split; [done|]. split; [done|].
    split; [by rewrite F2; unfold tp1; tsimpl|]. split; [done|]. split.
    + unfold st. cbn. rewrite (writes_frame _ _ _ t_state W) by (by intros [|]). exact Hs1.
    + apply cantsend_set.
Qed.

(** Before the connection is established, a disconnection sends nothing, also when the
    peer's SYN has been answered; the control block is just freed. *)
Theorem early_disconnect_silent u tp r u' :
  is_Some (so_pcb u) → c_tp (conn_of u) = Some tp → tp t_state < TCPS_ESTABLISHED →
  usrreq PRU_DISCONNECT [] u = Ok (r, u') → c_out (conn_of u') = c_out (conn_of u) ++ [Detached].
Proof.
  intros [id Hid] Ht Hs H. assert (Hw : wlp (usrreq PRU_DISCONNECT []) u (λ _ u', c_out (conn_of u') = c_out (conn_of u) ++ [Detached])).
  2: { unfold wlp in Hw. by rewrite H in Hw. }
  unfold tcp_usrreq. cbn [has_control]. apply wlp_bind, wlp_get. rewrite Hid. unfold attached_request, quiet.
  apply wlp_bind, wlp_on_conn, wlp_get_tp. intros tp1 _ u1 E1. apply wlp_bind, wlp_on_conn. unfold tcp_disconnect. rewrite E1.
  apply wlp_bind, wlp_get_tp. intros tp2 H2. rewrite Ht in H2. injection H2 as <-. apply wlp_bind, wlp_get_so.
  rewrite (proj2 (Z.ltb_lt _ _) Hs). unfold tcp_close. wlps; intros u2 E2; apply wlp_ret; rewrite E2; done.
Qed.

(** [PRU_LISTEN] does not look at the state: a connected socket with a port turns into a
    listening one, with the names and the sequence numbers of its connection. *)
Theorem listen_takes_connection u id i tp :
  so_pcb u = Some id → find_id (tcb u) id = Some i → inp_lport i ≠ 0 → c_tp (conn_of u) = Some tp →
  usrreq PRU_LISTEN [] u = Ok ((0, Nothing), set_conn (set_tp (Some (wr t_state TCPS_LISTEN tp)) (conn_of u)) u).
Proof.
  intros Hid Hi Hl Ht. unfold tcp_usrreq. cbn [has_control]. unfold bind at 1, get. rewrite Hid. unfold attached_request, on_conn.
  unfold bind at 1, get_tp at 1. rewrite Ht, drop_all. change (settle [] ?v) with v. unfold bind at 1, inp_of. cbn [so_pcb set_conn tcb]. rewrite Hid. cbn [mbind option_bind].
  rewrite Hi, (proj2 (Z.eqb_neq _ 0) Hl). unfold bind, ret. change (0 =? 0) with true. cbv iota. unfold mod_tp, bind, get_tp, put_tp, modify. cbn [conn_of set_conn].
  rewrite Ht. cbn [c_out set_tp]. by rewrite drop_all.
Qed.

(** A byte that was read is not given again. *)
Lemma oob_refused u id tp m flags :
  so_pcb u = Some id → c_tp (conn_of u) = Some tp → ztrue (Z.land (tp t_oobflags) TCPOOB_HADDATA) = true →
  usrreq (PRU_RCVOOB m flags) [] u = Ok ((EINVAL, Nothing), u).
Proof.
  intros Hid Ht Hh. unfold tcp_usrreq. cbn [has_control]. unfold bind at 1, get. rewrite Hid. unfold attached_request.
  assert (Eg : on_conn get_tp u = Ok (tp, u)).
  { unfold on_conn, get_tp. rewrite Ht, drop_all. unfold settle. cbn. by destruct u. }
  unfold bind. rewrite Eg. unfold on_conn, rcv_oob, bind, get_so, get_tp. rewrite Ht, Hh, orb_true_r. unfold ret. rewrite drop_all.
  unfold settle. cbn. by destruct u.
Qed.

(** A byte out of band is read once: after [PRU_RCVOOB] has given it, without [MSG_PEEK],
    a second request fails and changes nothing. *)
Theorem oob_once u m flags m' u' m2 flags2 :
  Z.land flags SockIo.MSG_PEEK = 0 → usrreq (PRU_RCVOOB m flags) [] u = Ok ((0, Oob m'), u') →
  usrreq (PRU_RCVOOB m2 flags2) [] u' = Ok ((EINVAL, Nothing), u').
Proof.
  intros Hf. unfold tcp_usrreq. cbn [has_control]. unfold bind at 1, get. destruct (so_pcb u) as [id|] eqn:Hid; [|done].
  unfold attached_request. unfold bind at 1, on_conn at 1, get_tp at 1. destruct (c_tp (conn_of u)) as [tp|] eqn:Ht; [|done].
  rewrite drop_all. change (settle [] ?v) with v. unfold on_conn at 1. cbn [conn_of set_conn]. unfold rcv_oob at 1, bind at 1 2, get_so at 1, get_tp at 1.
  rewrite Ht. destruct (_ || _ || _) eqn:E1; [by intros [=]|]. destruct (negb (ztrue _)) eqn:E2; [intros H; discriminate H|]. destruct m as [|m0 rest]; [done|].
  unfold bind at 1, low at 1. destruct (Mbuf.m_write _ _ _ _) as [[m1 s]| |]; [|done..]. rewrite Hf. change (0 =? 0) with true. cbv iota.
  unfold bind, put_tp, modify, ret at 1. cbn [c_out set_tp set_ms set_conn conn_of]. rewrite drop_all. change (settle [] ?v) with v. intros [= _ <-].
  pose proof (oob_refused (set_conn (set_tp (Some (wr t_oobflags (Z.lxor (tp t_oobflags) (Z.lor TCPOOB_HAVEDATA TCPOOB_HADDATA)) tp))
    (set_ms s (conn_of u))) (set_conn (conn_of u) u)) id _ m2 flags2 Hid eq_refl) as Hr.
  unfold tcp_usrreq in Hr. cbn [has_control] in Hr. unfold bind at 1, get at 1 in Hr. apply Hr.
  tsimpl. apply orb_false_iff in E1 as [_ E1]. by apply oob_toggle.
Qed.
End Properties.


(** ** Examples *)

Definition ex_metrics (rt : rtentry) : route_info * bool := (Route 0 0 0 0 0 0 0 1500 false, false).
Definition ex_usrreq : request → TcpConn.packet → M tstate (Z * reply) :=
  tcp_usrreq TcpInput.ex_env 262144 3 150 64 true (λ _, true) 0 [ex_ia] (λ _, Some ex_rt) (λ _, None) (λ _, None) ex_metrics (λ _, 0).
Definition ex_buffers : TcpConn.socket :=
  TcpConn.Socket 0 0 0 0 0 false (Sock (TcpInput.ex_buf 0 8192 []) (TcpInput.ex_buf 0 8192 [])).
Definition ex_fresh : conn := Conn Mbuf.ex_state None false [] ex_buffers None false 1 [].

(** A SYN for a listening socket at port 21, on the socket that was made for it. *)
Definition ex_syn : TcpInput.locals :=
  TcpInput.Loc 500 0 0 0 TH_SYN TH_SYN 8192 (TcpOpt.TS false 0 0) None (TcpInput.ex_packet 0) 20 false true 0 false.
Definition ex_passive : M tstate (option (Z * TcpInput.locals)) :=
  do! new_connection 0x0a000002 21 None in
  tcp_segment TcpInput.ex_env (λ _, true) 0 [ex_ia] (λ _, Some ex_rt) (λ _, None) (λ _, None) 0x0b000001 80 0x0a000002 ex_syn.

(** The names of a block. *)
Definition ex_names (i : inpcb) : Z * Z * Z * Z := (inp_faddr i, inp_fport i, inp_laddr i, inp_lport i).

(** A socket that is attached and gets a connection: its block has the names of the
    connection. *)
Lemma tcp_blocks_attached_witness :
  ∃ u i, rtc user_step (TS ex_fresh None (Head 1024 [])) u ∧
    so_pcb u = Some 7 ∧ st (conn_of u) = TCPS_SYN_RECEIVED ∧ is_Some (c_tp (conn_of u)) ∧ find_id (tcb u) 7 = Some i ∧
    in_pcblookup (hd_list (tcb u)) 0x0b000001 80 0x0a000002 21 INPLOOKUP_WILDCARD = Some i.
Proof.
  set (u0 := TS ex_fresh None (Head 1024 [])).
  assert (match ex_usrreq (PRU_ATTACH (Some 7) true) [] u0 with
          | Ok (_, u1) => match ex_passive u1 with
                          | Ok (_, u) => (st (conn_of u) =? TCPS_SYN_RECEIVED) && bool_decide (so_pcb u = Some 7) &&
                                         bool_decide (inp_faddr <$> (so_pcb u1 ≫= find_id (tcb u1)) = Some INADDR_ANY) &&
                                         bool_decide (ex_names <$> find_id (tcb u) 7 = Some (0x0b000001, 80, 0x0a000002, 21))
                          | _ => false end
          | _ => false end = true) as H by (vm_compute; reflexivity).
  destruct (ex_usrreq (PRU_ATTACH (Some 7) true) [] u0) as [[r1 u1]| |] eqn:E1; try discriminate H.
  destruct (ex_passive u1) as [[r2 u2]| |] eqn:E2; try discriminate H.
  repeat setoid_rewrite andb_true_iff in H. setoid_rewrite bool_decide_eq_true in H. destruct H as [[[H1 H2] H3] H4]. zbool.
  assert (Hr : rtc user_step u0 u2).
  { eapply rtc_l; [eapply step_request; [|exact E1]; by intros ?%elem_of_nil|].
    apply rtc_once. eapply step_passive; [| |exact E2]; [done|]. intros i Hi. rewrite Hi in H3. by injection H3. }
  pose proof (tcp_blocks_attached (Head 1024 []) ex_fresh u2) as [Ha Hb]; [|done|exact Hr|].
  { split; cbn; [right; unfold in_range, IPPORT_RESERVED, IPPORT_USERRESERVED; lia|constructor|by intros i Hi%elem_of_nil|by intros i j Hi%elem_of_nil]. }
  destruct (Hb 7 H2) as (i & Hi & Hl). exists u2, i. split; [exact Hr|]. split; [done|]. split; [done|].
  split; [apply Ha; by rewrite H2|]. split; [done|]. rewrite Hi in H4. injection H4 as F1 F2 F3 F4. rewrite F1, F2, F3, F4 in Hl. by apply Hl.
Defined.

(** An established connection with nothing outstanding. *)
Definition ex_open : tstate :=
  TS (Conn Mbuf.ex_state (Some TcpOutput.ex_tp) true [] ex_buffers None false 1 []) (Some 7) ex_connected.


Lemma shutdown_sends_fin_witness :
  ∃ er sg u', ex_usrreq PRU_SHUTDOWN [] ex_open = Ok ((er, Nothing), u') ∧ c_out (conn_of u') = [Sent sg] ∧
    fl (sg_flags sg) TH_FIN = true ∧ sg_seq sg = 4294967000.
Proof.
  destruct (shutdown_sends_fin TcpInput.ex_env 262144 3 150 64 true (λ _, true) 0 [ex_ia] (λ _, Some ex_rt) (λ _, None) (λ _, None)
    ex_metrics (λ _, 0) ex_open TcpOutput.ex_tp 2999) as (er & sg & u' & H1 & H2 & H3 & H4 & _); [done|done|done|by left| |done|done|].
  { split; try done; vm_compute; done. }
  exists er, sg, u'. split; [exact H1|]. split; [exact H2|]. split; [exact H3|exact H4].
Defined.

End TcpUser.
