(* ===== verification/TcpRecv.v ===== *)
(** * TCP input on a synchronised connection

    The total correctness of [tcp_input] from ESTABLISHED on: the composition of
    header prediction, trimming, acknowledgement processing, reassembly and output
    with the socket buffers and the mbuf layer below them.  The peer sends the
    bytes [f 0], [f 1], ...; the connection has received the first [r] of them. *)

From stdpp Require Import options.
From S2P Require Import Prelude Mbuf Sockbuf Tcp TcpReass TcpOpt TcpOutput TcpConn TcpFrame TcpInput.
Import Tcp TcpOpt TcpOutput TcpConn TcpFrame TcpInput.

Module TcpRecv.

(** ** Rules *)

Lemma wp_get_tp c tp (Q : tcpcb → conn → Prop) : c_tp c = Some tp → Q tp c → wp get_tp c Q.
Proof. intros H HQ. unfold wp, get_tp. by rewrite H. Qed.

Lemma wp_put_tp tp c (Q : () → conn → Prop) : Q () (set_tp (Some tp) c) → wp (put_tp tp) c Q.
Proof. done. Qed.

Lemma wp_mod_tp f c tp (Q : () → conn → Prop) :
  c_tp c = Some tp → Q () (set_tp (Some (f tp)) c) → wp (mod_tp f) c Q.
Proof. intros H HQ. apply wp_bind. eapply wp_get_tp; [done|]. by apply wp_put_tp. Qed.

Lemma wp_get_so c (Q : socket → conn → Prop) : Q (c_so c) c → wp get_so c Q.
Proof. done. Qed.

Lemma wp_mod_so f c (Q : () → conn → Prop) : Q () (set_so (f (c_so c)) c) → wp (mod_so f) c Q.
Proof. done. Qed.

Lemma wp_low {A} (m : M Mbuf.mstate A) c (Q : A → conn → Prop) :
  wp m (c_ms c) (λ a s, Q a (set_ms s c)) → wp (low m) c Q.
Proof. unfold wp, low. by destruct (m (c_ms c)) as [[a s]| |]. Qed.

Lemma wp_if {A} (b : bool) (m1 m2 : M conn A) c Q :
  (b = true → wp m1 c Q) → (b = false → wp m2 c Q) → wp (if b then m1 else m2) c Q.
Proof. destruct b; auto. Qed.

(** ** Packets *)

(** A chain whose mbufs are well formed, with clusters the reference counts know. *)
Definition pkt_ok (s : Mbuf.mstate) (p : packet) : Prop :=
  Forall (Mbuf.mbuf_ok s) p ∧ Forall (Mbuf.cl_known s) p.

Lemma pkt_ok_store s s' p : Mbuf.same_store s s' → pkt_ok s p → pkt_ok s' p.
Proof.
  intros Hs [H1 H2]. split.
  - eapply Forall_impl; [exact H1|]. intros x. by apply Mbuf.mbuf_ok_store.
  - eapply Forall_impl; [exact H2|]. intros x. by apply Mbuf.cl_known_store.
Qed.

(** [m_adj] without the packet header, whose length [tcp_input] does not keep. *)
Lemma m_adj_bytes s p n :
  pkt_ok s p →
  ∃ p', Mbuf.m_adj p n = Some p' ∧ pkt_ok s p' ∧
    Mbuf.bytes s p' = (if 0 <=? n then drop (Z.to_nat n) (Mbuf.bytes s p)
                       else take (length (Mbuf.bytes s p) - Z.to_nat (- n)) (Mbuf.bytes s p)).
Proof.
  intros [Hok Hk]. pose proof (m_adj_known s p n Hk) as Hk'. destruct p as [|m0 p].
  { exists []. split; [done|]. split; [done|]. unfold Mbuf.bytes. simpl. destruct (0 <=? n); [by rewrite drop_nil|done]. }
  assert (∃ p', Mbuf.m_adj (m0 :: p) n = Some p' ∧ Forall (Mbuf.mbuf_ok s) p' ∧
    Mbuf.bytes s p' = (if 0 <=? n then drop (Z.to_nat n) (Mbuf.bytes s (m0 :: p))
                       else take (length (Mbuf.bytes s (m0 :: p)) - Z.to_nat (- n)) (Mbuf.bytes s (m0 :: p))))
    as (p' & E & H1 & H2).
  { unfold Mbuf.m_adj. pose proof (Mbuf.bytes_length s _ Hok) as Hlen. destruct (Z.leb_spec 0 n).
    - destruct (Mbuf.adj_head_spec s _ n Hok) as (A1 & A2 & _); [done|].
      destruct (Mbuf.adj_head (m0 :: p) n) as [r len]. eexists. split; [done|].
      destruct (Mbuf.on_head_pktlen s (λ m, Mbuf.pkthdr_len m - (n - len)) r) as (Hb & Hok' & _).
      split; [by apply Hok'|]. by rewrite Hb.
    - destruct (last (m0 :: p)) as [l|] eqn:El; [|by apply last_None in El]. destruct (Z.leb_spec (- n) (Mbuf.m_len l)).
      + destruct (Mbuf.on_last_cut s _ l (- n) Hok El) as (A1 & A2 & _); [lia|]. eexists. split; [done|].
        destruct (Mbuf.on_head_pktlen s (λ m, Mbuf.pkthdr_len m - - n)
          (Mbuf.on_last (λ m, Mbuf.set_len m (Mbuf.m_len m - - n)) (m0 :: p))) as (Hb & Hok' & _).
        split; [by apply Hok'|]. by rewrite Hb.
      + pose proof (Mbuf.chain_len_nonneg s _ Hok). set (count := Z.max 0 (Mbuf.chain_len (m0 :: p) - - n)).
        destruct (Mbuf.on_head_pktlen s (λ _, count) (m0 :: p)) as (Hb & Hok' & Hcl).
        destruct (Mbuf.adj_cut_spec s _ count (Hok' Hok)) as (r & Hr & Hbr & Hokr); [done| |].
        { rewrite Hcl. unfold count. lia. }
        exists r. split; [done|]. split; [done|]. rewrite Hbr, Hb. f_equal. unfold count. lia. }
  exists p'. rewrite E in Hk'. split; [done|]. split; [by split|done].
Qed.

Lemma m_freem_ok s p : pkt_ok s p → wp (Mbuf.m_freem p) s (λ _ s', Mbuf.same_store s s').
Proof. intros [_ H]. by apply Mbuf.m_freem_wp. Qed.

(** ** No FIN before the user closes *)

Section Fin.
Context (linkhdr : Z) (mget mcopy : nat → bool) (ip : nat → segment → Z).
Context (sb_max dflt : Z) (route : option route_info) (now : Z) (template : bool).

(** The states before a close of the user: [tcp_output] sends no FIN in them. *)
Definition unclosed (tp : tcpcb) : Prop :=
  TCPS_ESTABLISHED <= tp t_state <= TCPS_CLOSE_WAIT ∧ tflag tp TF_SENTFIN = false.

Lemma unclosed_same tp tp' :
  unclosed tp → tp' t_state = tp t_state → tflag tp' TF_SENTFIN = tflag tp TF_SENTFIN → unclosed tp'.
Proof. unfold unclosed. by intros H -> ->. Qed.

Lemma plan_nofin so tp pl : unclosed tp → out_plan so tp = Some pl → p_flags pl = TH_ACK.
Proof.
  intros [Hst _] (_ & flags & E & Hf)%out_plan_spec.
  assert (flags = TH_ACK) as ->; [|by destruct Hf as [-> | ->]].
  assert (tp t_state = 4 ∨ tp t_state = 5) as [Es|Es] by (unfold TCPS_ESTABLISHED, TCPS_CLOSE_WAIT in Hst; lia);
    rewrite Es in E; by injection E as <-.
Qed.

Lemma tflag_wr f v tp b : f ≠ t_flags → tflag (wr f v tp) b = tflag tp b.
Proof. intros H. unfold tflag. by rewrite wr_ne. Qed.

Lemma writes_tflag F tp tp' b : writes F tp tp' → ¬ F t_flags → tflag tp' b = tflag tp b.
Proof. intros H Hf. unfold tflag. by rewrite (writes_frame _ _ _ _ H Hf). Qed.

Lemma plan_tflag so tp pl b : out_plan so tp = Some pl → tflag (p_tp pl) b = tflag tp b.
Proof. intros [W _]%out_plan_spec. apply (writes_tflag _ _ _ _ W). by intros (_ & ? & _). Qed.

Lemma options_tflag so pl pl' so' opt b :
  out_options sb_max dflt route now so pl = Some (pl', so', opt) → p_flags pl = TH_ACK →
  tflag (p_tp pl') b = tflag (p_tp pl) b ∧ p_flags pl' = TH_ACK.
Proof. intros (_ & _ & Ef & Es)%out_options_writes Hf. rewrite Es, Ef by (by rewrite Hf). done. Qed.

Lemma advance_nofin pl tp : fl (p_flags pl) TH_FIN = false → tflag (out_advance pl tp) TF_SENTFIN = tflag tp TF_SENTFIN.
Proof.
  intros Hf. apply (writes_tflag (.≠ t_flags)); [|tauto]. unfold out_advance. rewrite Hf. writes.
Qed.

Lemma round_nofin idle n so tp tp' so' sg e again :
  output_round linkhdr mget mcopy ip sb_max dflt route now template idle n so tp = Some (tp', so', sg, e, again) →
  unclosed tp → unclosed tp'.
Proof.
  intros H Hu. pose proof (output_round_writes _ _ _ _ _ _ _ _ _ _ _ _ _ _ _ _ _ _ H) as [Hw _].
  apply (unclosed_same tp); [done|apply (writes_frame _ _ _ _ Hw); by intros [|]|]. revert H. unfold output_round. intros H.
  destruct (out_plan so tp) as [pl|] eqn:Ep; [|done]. pose proof (plan_nofin _ _ _ Hu Ep) as Hf.
  apply (plan_tflag _ _ _ TF_SENTFIN) in Ep.
  destruct (negb (out_decide so idle pl)).
  { destruct (out_nothing so (p_tp pl)) as [tp1|] eqn:En; [|done]. injection H as <- _ _ _ _. rewrite <- Ep.
    unfold out_nothing in En. destruct (_ && _); [|by injection En as <-]. apply setpersist_writes in En.
    rewrite (writes_tflag _ _ _ _ En) by (by intros [|]). by rewrite tflag_wr. }
  destruct (out_options _ _ _ _ so pl) as [[[pl1 so1] opt]|] eqn:Eo; [|done].
  apply (options_tflag _ _ _ _ _ TF_SENTFIN) in Eo as [Eo Ef]; [|done]. rewrite Ep in Eo.
  destruct (out_mbufs _ _ _ so1 n pl1 _) as [pl2|] eqn:Em.
  2: { injection H as <- _ _ _ _. by rewrite tflag_wr. }
  apply out_mbufs_tp in Em as [Em Ef2].
  assert (fl (p_flags pl2) TH_FIN = false) as Hf2 by (destruct Ef2 as [-> | ->]; by rewrite Ef).
  destruct (negb template); [done|]. destruct (out_header _ _ _) as [tp3 sg3] eqn:Eh.
  assert (tflag tp3 TF_SENTFIN = tflag tp TF_SENTFIN) as H3.
  { rewrite <- Eo, <- Em. unfold out_header in Eh. cbv zeta in Eh. rewrite Hf2 in Eh. simpl in Eh.
    destruct (SEQ_GT _ _); injection Eh as <- _; [done|]. by rewrite tflag_wr. }
  pose proof (advance_nofin pl2 tp3 Hf2) as H4.
  destruct (negb _).
  - destruct (out_error _ _) as [tp4 e4] eqn:Ee. injection H as <- _ _ _ _. rewrite <- H3, <- H4.
    unfold out_error in Ee. destruct (_ =? ENOBUFS); [|destruct (_ && _)]; injection Ee as <- _; rewrite ?tflag_wr by done; done.
  - injection H as <- _ _ _ _. rewrite <- H3, <- H4. unfold out_sent, tflag, clear_tflag. tsimpl.
    rewrite land_u16 by done. rewrite <- Z.land_assoc. by destruct (_ && _); tsimpl.
Qed.

Lemma output_nofin fuel so tp tp' so' sgs e :
  tcp_output linkhdr mget mcopy ip sb_max dflt route now template fuel so tp = Some (tp', so', sgs, e) →
  unclosed tp → unclosed tp'.
Proof.
  unfold tcp_output. intros H Hu. assert (unclosed (idle_restart tp)) as Hu'.
  { unfold idle_restart. destruct (_ && _); [|done]. eapply unclosed_same; [done|by tsimpl|by rewrite tflag_wr]. }
  revert Hu' H. generalize (idle_restart tp) as tp0. generalize (tp snd_max =? tp snd_una) as idle. generalize O as n. clear Hu.
  revert so sgs. induction fuel as [|fuel IH]; intros so sgs n idle tp0 Hu H; [done|]. simpl in H.
  destruct (output_round _ _ _ _ _ _ _ _ _ idle n so tp0) as [[[[[tp1 so1] sg] e1] ag]|] eqn:E; [|done].
  apply round_nofin in E; [|done]. destruct ag; [|by injection H as <- _ _ _].
  destruct (output_loop _ _ _ _ _ _ _ _ _ fuel idle (S n) so1 tp1) as [[[[tp2 so2] sgs2] e2]|] eqn:E2; [|done].
  injection H as <- <- <- <-. by eapply IH.
Qed.
End Fin.

(** [snd_max] does not move back over the rounds of [tcp_output]. *)
Lemma grows_max so tp tp' :
  send_ok so tp → send_ok so tp' → tp' snd_una = tp snd_una → grows tp tp' → max_of tp <= max_of tp'.
Proof.
  intros Hok Hok' Hu [G|G]; [unfold max_of; rewrite G, Hu; lia|].
  pose proof (ok_order _ _ Hok). pose proof (ok_data _ _ Hok). pose proof (ok_order _ _ Hok'). pose proof (ok_data _ _ Hok').
  pose proof (ok_cc _ _ Hok). assert (∀ t, b2z (tflag t TF_SENTFIN) <= 1) as Hb by (intros t; unfold b2z; destruct (tflag t _); lia).
  pose proof (Hb tp). pose proof (Hb tp'). unfold SEQ_GT, max_of in *. rewrite Hu in *.
  rewrite (s32_diff _ _ (tp snd_una)) in G by (unfold is_s32; lia). apply Z.ltb_lt in G. lia.
Qed.

Lemma loop_max linkhdr mget mcopy ip sb_max dflt route now fuel : ∀ idle n so tp tp' so' sgs er,
  output_loop linkhdr mget mcopy ip sb_max dflt route now true fuel idle n so tp = Some (tp', so', sgs, er) →
  (∀ n, mcopy n = true) → send_ok so tp → max_of tp <= max_of tp'.
Proof.
  induction fuel as [|fuel IH]; intros idle n so tp tp' so' sgs er H Hm Hok; [done|]. simpl in H.
  destruct (output_round_ok linkhdr mget mcopy ip sb_max dflt route now true idle n so tp) as (tp1 & sg & e1 & ag & E & Hok1 & _); [done..|].
  rewrite E in H. apply output_round_writes in E as (_ & _ & E). destruct (E (ok_state _ _ Hok)) as [W G].
  assert (max_of tp <= max_of tp1).
  { apply (grows_max so); try done. apply (writes_frame _ _ _ _ W). simpl. tauto. }
  destruct ag; [|by injection H as <- _ _ _].
  destruct (output_loop _ _ _ _ _ _ _ _ _ fuel idle (S n) so tp1) as [[[[tp2 so2] sgs2] e2]|] eqn:E2; [|done].
  injection H as <- <- <- <-. apply IH in E2; try done. lia.
Qed.

(** ** The state of a connection *)

Section Stream.
Context (f : Z → Z) (base fin : Z).
#[local] Abbreviation receiver s := (@TcpReass.receiver _ (mbuf_payload s) f base fin).
#[local] Abbreviation carries s := (@TcpReass.carries _ (mbuf_payload s) f base fin).
#[local] Abbreviation slice := (TcpReass.slice f).

Definition sndbuf (c : conn) : Sockbuf.sockbuf := so_snd (so_buf (c_so c)).
Definition rcvbuf (c : conn) : Sockbuf.sockbuf := so_rcv (so_buf (c_so c)).

(** What the sender keeps besides [send_ok]: the count is the length of the data,
    no FIN was sent before the user closed, the scale is in its range and every field
    in that of its type. *)
Record sender (so : sock) (tp : tcpcb) : Prop := Sender
  { se_ok : send_ok so tp;
    se_nofin : tp t_state <= TCPS_CLOSE_WAIT → tflag tp TF_SENTFIN = false;
    se_cc : snd_cc so = Mbuf.chain_len (Sockbuf.mbufs (so_snd so));
    se_scale : 0 <= tp snd_scale <= TCP_MAX_WINSHIFT;
    se_typed : typed tp }.

(** What the receiver keeps: [rcv_nxt] is the position [r], or one more once the
    FIN at [r = fin] has been taken ([b = 1]); nothing that could be delivered waits
    on the queue. *)
Definition receiving (s : Mbuf.mstate) (b r : Z) (q : list (Z * queued)) (tp : tcpcb) : Prop :=
  receiver s r (wr rcv_nxt (tp rcv_nxt - b) tp) q ∧ is_u32 (tp rcv_nxt) ∧
  (b = 0 ∨ b = 1 ∧ r = fin ∧ tp t_state ≠ TCPS_ESTABLISHED) ∧ ¬ TcpReass.covered r q.

Record conn_ok (b r : Z) (q : list (Z * queued)) (tp : tcpcb) (c : conn) : Prop := ConnOk
  { co_tp : c_tp c = Some tp;
    co_template : c_template c = true;
    co_send : sender (so_buf (c_so c)) tp;
    co_snd : Sockbuf.sb_ok (c_ms c) (sndbuf c);
    co_rcv : Sockbuf.sb_ok (c_ms c) (rcvbuf c);
    co_q : c_q c = q.*2;
    co_recv : receiving (c_ms c) b r q tp }.

(** *** The store *)

Lemma carries_store s s' o t : Mbuf.same_store s s' → carries s o t → carries s' o t.
Proof.
  intros Hs (H1 & H2 & H3 & H4 & H5). split; [done|]. split; [done|]. split; [exact (pkt_ok_store s s' _ Hs H3)|].
  split; [|done]. simpl in *. by rewrite (Mbuf.bytes_store s s').
Qed.

Lemma receiver_store s s' r tp q : Mbuf.same_store s s' → receiver s r tp q → receiver s' r tp q.
Proof.
  intros Hs (H1 & H2 & H3). split_and!; try done. revert H3. generalize (r + TcpReass.W). generalize r.
  induction q as [|[o t] q IH]; intros lo hi; simpl; [done|]. intros (A & B & C). split_and!; auto. by apply (carries_store s).
Qed.

Lemma receiver_nxt s r tp tp' q : tp' rcv_nxt = tp rcv_nxt → receiver s r tp q → receiver s r tp' q.
Proof. intros H (H1 & H2 & H3). split_and!; try done. congruence. Qed.

Lemma conn_store b r q tp c s : conn_ok b r q tp c → Mbuf.same_store (c_ms c) s → conn_ok b r q tp (set_ms s c).
Proof.
  intros [A B C D E F (G1 & G2 & G3 & G4)] Hs. constructor; try done; simpl.
  - by apply (Sockbuf.sb_ok_store (c_ms c)).
  - by apply (Sockbuf.sb_ok_store (c_ms c)).
  - split_and!; try done. by apply (receiver_store (c_ms c)).
Qed.

(** *** The control block *)

Definition vital : list tfield := core ++ [snd_scale].

Lemma sender_vital so tp tp' : (∀ f, f ∈ vital → tp' f = tp f) → typed tp' → sender so tp → sender so tp'.
Proof.
  intros H Ht [A B C D _]. assert (Hc : ∀ f, f ∈ core → tp' f = tp f) by (intros g Hg; apply H, elem_of_app; by left).
  constructor; try done.
  - by destruct (send_ok_core so tp tp' Hc A).
  - unfold tflag. rewrite !(Hc t_flags), !(Hc t_state) by (repeat constructor). done.
  - rewrite (H snd_scale); [done|]. by apply elem_of_app; right; repeat constructor.
Qed.

Lemma receiving_nxt s b r q tp tp' :
  tp' rcv_nxt = tp rcv_nxt → tp' t_state = tp t_state → receiving s b r q tp → receiving s b r q tp'.
Proof.
  intros H Hs (A & B & C). unfold receiving. rewrite H, Hs. split_and!; try done; apply C.
Qed.

Lemma conn_tp b r q tp tp' c :
  conn_ok b r q tp c → sender (so_buf (c_so c)) tp' → receiving (c_ms c) b r q tp' →
  conn_ok b r q tp' (set_tp (Some tp') c).
Proof. intros [A B C D E F G] Hs Hr. by constructor. Qed.

(** Assignments that neither the sender nor the receiver depend on. *)
Lemma conn_writes F b r q tp tp' c :
  conn_ok b r q tp c → writes F tp tp' → Forall (λ f, ¬ F f) (rcv_nxt :: vital) → conn_ok b r q tp' (set_tp (Some tp') c).
Proof.
  intros H Hw Hf. rewrite Forall_forall in Hf.
  assert (Hv : ∀ f, f ∈ rcv_nxt :: vital → tp' f = tp f) by (intros g Hg; apply (writes_frame _ _ _ _ Hw); by apply Hf).
  apply (conn_tp b r q tp); [done| |].
  - apply (sender_vital _ tp); [|apply (writes_typed _ _ _ Hw); apply H|apply H]. intros g Hg. apply Hv. by right.
  - apply (receiving_nxt _ _ _ _ tp); [apply Hv; by left| |apply H]. apply Hv. right. repeat constructor.
Qed.

(** Flags that only concern acknowledgements. *)
Lemma sender_tflag b so tp :
  sender so tp → b = TF_ACKNOW ∨ b = TF_DELACK → sender so (set_tflag b tp).
Proof.
  intros [A B C D Ht] Hb.
  assert (Hf : ∀ k, k = TF_SENTFIN ∨ k = TF_RCVD_TSTMP ∨ k = Z.lor TF_REQ_TSTMP TF_NOOPT →
    Z.land (set_tflag b tp t_flags) k = Z.land (tp t_flags) k).
  { intros k Hk. destruct Hk as [-> |[-> | ->]], Hb as [-> | ->]; by apply flags_set. }
  assert (Hs : tflag (set_tflag b tp) TF_SENTFIN = tflag tp TF_SENTFIN) by (unfold tflag; by rewrite Hf by auto).
  constructor; [| | done| |by apply typed_wr].
  - apply (send_ok_same so tp); [done|..].
    + split; [|unfold tstamps, tflag; by rewrite !Hf by auto]. intros g Hg. unfold set_tflag. apply wr_ne. intros <-.
      unfold kept in Hg. by repeat (apply elem_of_cons in Hg as [Hg|Hg]; [done|]); apply elem_of_nil in Hg.
    + unfold set_tflag. tsimpl. apply A.
    + unfold set_tflag. tsimpl. apply A.
    + unfold off_of, max_of, set_tflag. tsimpl. apply A.
    + rewrite Hs. unfold max_of, set_tflag. tsimpl. apply A.
    + rewrite Hs. unfold fin_state, max_of, set_tflag. tsimpl. apply A.
  - rewrite Hs. unfold set_tflag. by tsimpl.
  - unfold set_tflag. by tsimpl.
Qed.

Lemma conn_tflag fl b r q tp c :
  conn_ok b r q tp c → fl = TF_ACKNOW ∨ fl = TF_DELACK → conn_ok b r q (set_tflag fl tp) (set_tp (Some (set_tflag fl tp)) c).
Proof.
  intros H Hf. apply (conn_tp b r q tp); [done|by apply sender_tflag; [apply H|]|].
  apply (receiving_nxt _ _ _ _ tp); [unfold set_tflag; by tsimpl..|apply H].
Qed.

(** *** The socket *)

(** A socket with the same data. *)
Definition same_data (so so' : socket) : Prop :=
  ∀ g, g = so_snd ∨ g = so_rcv →
    Sockbuf.sb_cc (g (so_buf so')) = Sockbuf.sb_cc (g (so_buf so)) ∧
    Sockbuf.sb_mbcnt (g (so_buf so')) = Sockbuf.sb_mbcnt (g (so_buf so)) ∧
    Sockbuf.sb_mb (g (so_buf so')) = Sockbuf.sb_mb (g (so_buf so)).

Lemma same_data_trans so1 so2 so3 : same_data so1 so2 → same_data so2 so3 → same_data so1 so3.
Proof.
  intros H1 H2 g Hg. destruct (H1 g Hg) as (A & B & C), (H2 g Hg) as (A' & B' & C'). split_and!; congruence.
Qed.

Lemma sowwakeup_data so : same_data so (sowwakeup so).
Proof. intros g [-> | ->]; [|done]. simpl. unfold Sockbuf.sowakeup. by destruct (ztrue _). Qed.

Lemma sorwakeup_data so : same_data so (sorwakeup so).
Proof. intros g [-> | ->]; [done|]. simpl. unfold Sockbuf.sowakeup. by destruct (ztrue _). Qed.

Lemma soisdisconnected_data so : same_data so (soisdisconnected so).
Proof. unfold soisdisconnected. eapply same_data_trans; [|apply sorwakeup_data]. eapply same_data_trans; [|apply sowwakeup_data]. done. Qed.

Lemma socantrcvmore_data so : same_data so (socantrcvmore so).
Proof. unfold socantrcvmore. eapply same_data_trans; [|apply sorwakeup_data]. done. Qed.

Lemma sb_ok_data s sb sb' :
  Sockbuf.sb_cc sb' = Sockbuf.sb_cc sb → Sockbuf.sb_mbcnt sb' = Sockbuf.sb_mbcnt sb →
  Sockbuf.sb_mb sb' = Sockbuf.sb_mb sb → Sockbuf.sb_ok s sb → Sockbuf.sb_ok s sb'.
Proof. unfold Sockbuf.sb_ok, Sockbuf.mbufs. by intros -> -> ->. Qed.

Lemma send_ok_cc so so' tp : snd_cc so' = snd_cc so → send_ok so tp → send_ok so' tp.
Proof. intros H [A B C D E F G I J K L M]. constructor; rewrite ?H; done. Qed.

Lemma conn_data b r q tp c so : conn_ok b r q tp c → same_data (c_so c) so → conn_ok b r q tp (set_so so c).
Proof.
  intros [A B [C1 C2 C3 C4 C5] D E F G] H.
  destruct (H so_snd) as (H1 & H2 & H3); [auto|]. destruct (H so_rcv) as (H4 & H5 & H6); [auto|].
  constructor; try done; simpl.
  - constructor; try done; simpl.
    + by apply (send_ok_cc (so_buf (c_so c))).
    + unfold snd_cc, Sockbuf.mbufs in *. by rewrite H1, H3.
  - by apply (sb_ok_data _ (sndbuf c)).
  - by apply (sb_ok_data _ (rcvbuf c)).
Qed.

(** *** Output *)

Lemma with_buf_same so : with_buf (so_buf so) so = so.
Proof. by destruct so. Qed.

Lemma output_ok e b r q tp c :
  conn_ok b r q tp c → (∀ n, e_mcopy e n = true) → snd_cc (so_buf (c_so c)) + 2 <= Z.of_nat (e_fuel e) →
  wp (output e) c (λ _ c', ∃ tp' es, c' = emit es (set_tp (Some tp') c) ∧ conn_ok b r q tp' c' ∧ writes sync_field tp tp' ∧
    max_of tp <= max_of tp').
Proof.
  intros H Hm Hf. unfold wp, output. rewrite (co_tp _ _ _ _ _ H), (co_template _ _ _ _ _ H). destruct (co_send _ _ _ _ _ H) as [C1 C2 C3 C4 C5].
  pose proof (idle_restart_ok _ _ C1) as Hi. pose proof (ok_order _ _ Hi).
  assert (∃ tp' sgs er, tcp_output (e_linkhdr e) (e_mget e) (e_mcopy e) (e_ip e) (e_sbmax e) (e_mssdflt e) (c_route c) (e_now e)
    true (e_fuel e) (so_buf (c_so c)) tp = Some (tp', so_buf (c_so c), sgs, er) ∧ send_ok (so_buf (c_so c)) tp' ∧ max_of tp <= max_of tp')
    as (tp' & sgs & er & Eo & Hok & Hgr).
  { destruct (output_loop_ok (e_linkhdr e) (e_mget e) (e_mcopy e) (e_ip e) (e_sbmax e) (e_mssdflt e) (c_route c) (e_now e) true
      (e_fuel e) (tp snd_max =? tp snd_una) 0 (so_buf (c_so c)) (idle_restart tp)) as (tp' & sgs & er & Eo & Hok & _); try done; [lia|].
    exists tp', sgs, er. split_and!; try done. apply loop_max in Eo; [|done..]. revert Eo. unfold max_of, idle_restart.
    destruct (_ && _); by tsimpl. }
  rewrite Eo, with_buf_same. pose proof (output_writes _ _ _ _ _ _ _ _ _ _ _ _ _ _ _ _ Eo) as (_ & _ & Hw).
  specialize (Hw (ok_state _ _ C1)).
  assert (Hfr : ∀ g, ¬ sync_field g → tp' g = tp g) by (intros g; by apply writes_frame).
  exists tp', (Sent <$> sgs).
  assert (Hc : emit (Sent <$> sgs) (set_so (c_so c) (set_tp (Some tp') c)) = emit (Sent <$> sgs) (set_tp (Some tp') c)) by done.
  split; [done|]. split; [|done].
  assert (sender (so_buf (c_so c)) tp') as Hse.
  { constructor; try done; [|rewrite Hfr by (simpl; tauto); done|by apply (writes_typed _ _ _ Hw)].
    rewrite Hfr by (simpl; tauto). intros Hst. apply (output_nofin _ _ _ _ _ _ _ _ _ _ _ _ _ _ _ _ Eo).
    split; [split; [apply C1|done]|auto]. }
  assert (receiving (c_ms c) b r q tp') as Hre.
  { apply (receiving_nxt _ _ _ _ tp); [apply Hfr; simpl; tauto..|apply H]. }
  destruct (conn_tp _ _ _ _ _ _ H Hse Hre) as [A1 A2 A3 A4 A5 A6 A7]. by constructor.
Qed.

(** *** The buffers *)

Definition sbytes (c : conn) : list Z := Sockbuf.sb_bytes (c_ms c) (sndbuf c).
Definition rbytes (c : conn) : list Z := Sockbuf.sb_bytes (c_ms c) (rcvbuf c).

(** The send buffer after its first [n] bytes are dropped. *)
Lemma snd_drop_ok n c :
  Sockbuf.sb_ok (c_ms c) (sndbuf c) → snd_cc (so_buf (c_so c)) = Mbuf.chain_len (Sockbuf.mbufs (sndbuf c)) →
  0 <= n <= snd_cc (so_buf (c_so c)) → snd_cc (so_buf (c_so c)) < 2147483648 →
  wp (snd_drop n) c (λ _ c', ∃ s sb,
    c' = set_so (with_buf (Sock sb (rcvbuf c)) (c_so c)) (set_ms s c) ∧ Mbuf.same_store (c_ms c) s ∧
    Sockbuf.sb_ok s sb ∧ Sockbuf.sb_bytes s sb = drop (Z.to_nat n) (sbytes c) ∧
    Sockbuf.sb_cc sb = snd_cc (so_buf (c_so c)) - n ∧ Sockbuf.sb_cc sb = Mbuf.chain_len (Sockbuf.mbufs sb)).
Proof.
  intros Hok Hcc Hn Hmax. unfold snd_drop. apply wp_bind, wp_get_so, wp_bind, wp_low.
  destruct (Sockbuf.sbdrop_spec _ _ n Hok ltac:(lia)) as [_ Hd]. eapply wp_mono; [apply Hd; unfold sndbuf in *; lia|].
  intros sb s (S1 & S2 & _ & S3 & _). exists s, sb. split; [done|].
  assert (Hb : Sockbuf.sb_bytes s sb = drop (Z.to_nat n) (sbytes c)).
  { unfold sbytes, Sockbuf.sb_bytes in *. by rewrite (Mbuf.bytes_store (c_ms c) s). }
  assert (Hlen : Mbuf.chain_len (Sockbuf.mbufs sb) = snd_cc (so_buf (c_so c)) - n).
  { destruct S2 as (_ & _ & K & _). rewrite <- (Mbuf.bytes_length s) by done.
    change (Mbuf.bytes s (Sockbuf.mbufs sb)) with (Sockbuf.sb_bytes s sb). rewrite Hb, length_drop.
    unfold sbytes, Sockbuf.sb_bytes. destruct Hok as (_ & _ & K' & _).
    pose proof (Mbuf.bytes_length _ _ K') as Hl. lia. }
  split_and!; try done; destruct S2 as (E & _); rewrite E, Hlen; [|rewrite <- Hlen];
    rewrite u32_id; try done; unfold is_u32; lia.
Qed.

Lemma rcv_append_ok p c :
  Sockbuf.sb_ok (c_ms c) (rcvbuf c) → pkt_ok (c_ms c) p →
  wp (rcv_append p) c (λ _ c', ∃ s sb,
    c' = set_so (with_buf (Sock (sndbuf c) sb) (c_so c)) (set_ms s c) ∧ Mbuf.same_store (c_ms c) s ∧
    Sockbuf.sb_ok s sb ∧ Sockbuf.sb_bytes s sb = rbytes c ++ Mbuf.bytes (c_ms c) p).
Proof.
  intros Hok [H1 H2]. unfold rcv_append. apply wp_bind, wp_get_so, wp_bind, wp_low.
  eapply wp_mono; [by apply Sockbuf.sbappend_wp|]. intros sb s (S1 & S2 & S3 & _). exists s, sb. by split_and!.
Qed.

(** *** Acknowledgements *)

(** The sender after [a] more positions are acknowledged: the window may be
    anything, the state one that does not wait for the FIN any more. *)
Lemma sender_ack so so' tp tp' a :
  sender so tp → 0 < a <= max_of tp →
  snd_cc so' = Z.max 0 (snd_cc so - a) → snd_cc so' = Mbuf.chain_len (Sockbuf.mbufs (so_snd so')) →
  typed tp' → tp' snd_una = u32 (tp snd_una + a) → 0 <= tp' snd_cwnd < 2147483648 →
  tp' snd_nxt = (if off_of tp <? a then tp' snd_una else tp snd_nxt) →
  (∀ g, g ∈ [snd_max; t_maxseg; t_flags; snd_scale] → tp' g = tp g) →
  TCPS_ESTABLISHED <= tp' t_state <= TCPS_TIME_WAIT →
  (fin_state tp' = true → fin_state tp = true ∧ a <= snd_cc so) →
  (tp' t_state <= TCPS_CLOSE_WAIT → tp t_state <= TCPS_CLOSE_WAIT) → sender so' tp'.
Proof.
  intros [A B C D Ht] Ha Hcc Hch Ht' Hu Hcw Hn Hs Hst Hfin Hcl.
  assert (Hm : tp' snd_max = tp snd_max) by (apply Hs; repeat constructor).
  assert (Hg : tp' t_maxseg = tp t_maxseg) by (apply Hs; repeat constructor).
  assert (Hf : ∀ k, tflag tp' k = tflag tp k) by (intros k; unfold tflag; rewrite (Hs t_flags); [done|repeat constructor]).
  assert (Hc : tp' snd_scale = tp snd_scale) by (apply Hs; repeat constructor).
  destruct A as [A1 A2 A3 A4 A5 A6 A7 A8 A9 A10 A11 A12].
  assert (Hb : 0 <= b2z (tflag tp TF_SENTFIN) <= 1) by (unfold b2z; destruct (tflag tp _); lia).
  assert (Hmax : max_of tp' = max_of tp - a).
  { unfold max_of in *. rewrite Hm, Hu. clear - Ha A10 A7 Hb A2.
    revert Ha A10 A7 Hb A2. generalize (tp snd_max) (tp snd_una) (snd_cc so) (b2z (tflag tp TF_SENTFIN)). intros. wraplia. }
  assert (Hoff : off_of tp' = Z.max 0 (off_of tp - a)).
  { change (off_of tp') with (s32 (tp' snd_nxt - tp' snd_una)). rewrite Hn. destruct (Z.ltb_spec (off_of tp) a) as [Hl|Hl].
    - rewrite Z.sub_diag. change (s32 0) with 0. lia.
    - rewrite Hu. clear - Hl Ha A9 A7 A2 A10 Hb. unfold off_of in *. revert Hl Ha A9 A7 A2 A10 Hb.
      generalize (tp snd_nxt) (tp snd_una) (snd_cc so) (b2z (tflag tp TF_SENTFIN)) (max_of tp). intros. wraplia. }
  constructor; try done; [|by rewrite Hf; auto|by rewrite Hc].
  constructor; rewrite ?Hf, ?Hmax, ?Hoff, ?Hg, ?Hcc; try done; try lia.
  - rewrite Hu. apply u32_range.
  - rewrite Hn. destruct (_ <? _); [rewrite Hu; apply u32_range|done].
  - by rewrite Hm.
  - rewrite <- (Ht' snd_wnd). apply u32_range.
  - intros Hft Hsf. destruct (Hfin Hft) as [F1 F2]. rewrite (A11 F1 Hsf). lia.
  - intros Hft. destruct (Hfin Hft) as [F1 _]. unfold tstamps. rewrite Hf, (Hs t_flags) by (repeat constructor). by apply A12.
Qed.

End Stream.
End TcpRecv.
