(* ===== verification/TcpStream.v ===== *)
(** * The streams across a segment (netinet/tcp_input.c)

    Total correctness of [tcp_input] on a synchronised connection: header
    prediction, trimming, acknowledgements, reassembly, the FIN and output together.
    The handler returns; the socket gains the next bytes of the peer's stream and
    nothing else, the send buffer loses exactly the bytes acknowledged, and a
    segment that fits the window is taken in full, with its acknowledgement. *)

From stdpp Require Import options.
From S2P Require Import Prelude Mbuf Sockbuf Tcp TcpReass TcpOpt TcpOutput TcpConn TcpFrame TcpInput TcpRecv.
Import Tcp TcpOpt TcpOutput TcpConn TcpFrame TcpInput TcpRecv.

Module TcpStream.
#[local] Existing Instance Mbuf.same_store_preorder.

(** ** Flags and options *)

Lemma fl_clear a b k : fl (Z.land a (Z.lnot b)) k = true → fl a k = true.
Proof.
  unfold fl, ztrue. rewrite !negb_true_iff, !Z.eqb_neq. intros H E. apply H.
  by rewrite (Z.land_comm a), <- Z.land_assoc, E, Z.land_0_r.
Qed.

Lemma fl_cleared a b k : Z.land k b = k → fl (Z.land a (Z.lnot b)) k = false.
Proof.
  intros H. unfold fl, ztrue. apply negb_false_iff, Z.eqb_eq. rewrite <- H.
  apply Z.bits_inj_0. intros n. rewrite !Z.land_spec. destruct (decide (0 <= n)).
  - rewrite Z.lnot_spec by done. by destruct (Z.testbit b n), (Z.testbit a n), (Z.testbit k n).
  - by rewrite !Z.testbit_neg_r by lia.
Qed.

(** Without a SYN the options only yield the timestamps. *)
Lemma do_option_nosyn sb_max dflt route now flags cp opt len tp so t :
  fl flags TH_SYN = false → (10 <= length cp)%nat →
  ∃ t', do_option sb_max dflt route now flags cp opt len tp so t = Some (tp, so, t').
Proof.
  unfold fl, do_option. intros -> Hl. rewrite !orb_true_r. destruct (opt =? TCPOPT_MAXSEG); [by eexists|].
  destruct (opt =? TCPOPT_WINDOW); [by eexists|]. destruct (opt =? TCPOPT_TIMESTAMP); [|by eexists].
  destruct (negb _); [by eexists|]. rewrite !read_bytes_Some by lia. by eexists.
Qed.

Lemma dooptions_nosyn sb_max dflt route now flags cp cnt tp so t :
  fl flags TH_SYN = false → 0 <= cnt → cnt + 9 <= Z.of_nat (length cp) →
  ∃ t', tcp_dooptions sb_max dflt route now flags cp cnt tp so t = Some (tp, so, t').
Proof.
  intros Hs Hc Hl. unfold tcp_dooptions.
  assert (Hf : cnt <= Z.of_nat (Z.to_nat cnt)) by lia. revert Hf Hl. generalize (Z.to_nat cnt) as fuel. clear Hc.
  intros fuel. revert cp cnt t. induction fuel as [|fuel IH]; intros cp cnt t Hf Hl; simpl;
    destruct (Z.ltb_spec 0 cnt) as [Hc|Hc]; simpl; try (by eexists); [lia|].
  destruct cp as [|opt [|l rest]]; simpl in Hl; try lia. destruct (opt =? TCPOPT_EOL); [by eexists|].
  set (ol := if opt =? TCPOPT_NOP then Some 1 else _).
  assert (∃ n, ol = Some n) as [n ->] by (unfold ol; destruct (_ =? _); by eexists).
  destruct (Z.leb_spec n 0) as [Hn|Hn]; [by eexists|].
  destruct (do_option_nosyn sb_max dflt route now flags (opt :: l :: rest) opt n tp so t) as (t' & ->); [done|simpl; lia|].
  apply IH; [lia|]. rewrite length_drop. simpl length. lia.
Qed.

Section Segment.
Context (f : Z → Z) (base fin : Z).
#[local] Abbreviation conn_ok := (conn_ok f base fin).
#[local] Abbreviation slice := (TcpReass.slice f).
#[local] Abbreviation W := TcpReass.W.

(** The connection [c0] with [tp0], which has received [r0] positions (and the FIN
    after them if [b0 = 1]), and the segment [x0] that carries [o0] on. *)
Context (e : env) (c0 : conn) (tp0 : tcpcb) (b0 r0 : Z) (q0 : list (Z * queued)) (x0 : locals) (o0 : Z).

(** ** Where a segment may take the connection *)

(** The connection is in order, has gained the bytes from [r0] to [r] (if its
    socket can take them) and has lost those acknowledged. *)
Record inv (b r : Z) (q : list (Z * queued)) (tp : tcpcb) (c : conn) : Prop := Inv
  { in_ok : conn_ok b r q tp c;
    in_r : r0 <= r;
    in_rb : sflag (c_so c0) SS_CANTRCVMORE = false → rbytes c = rbytes c0 ++ slice r0 (r - r0);
    in_una : tp snd_una = tp0 snd_una ∨
      tp snd_una = ti_ack x0 ∧ SEQ_GT (ti_ack x0) (tp0 snd_una) = true ∧ SEQ_LEQ (ti_ack x0) (tp0 snd_max) = true;
    in_sb : sbytes c = drop (Z.to_nat (s32 (tp snd_una - tp0 snd_una))) (sbytes c0);
    in_cc : snd_cc (so_buf (c_so c)) <= snd_cc (so_buf (c_so c0)) }.

(** The window offered when the segment arrives. *)
Definition rwnd : Z :=
  Z.max (u32 (Z.max 0 (Sockbuf.sbspace (rcvbuf c0)))) (u32 (tp0 rcv_adv - tp0 rcv_nxt)).

(** The conditions under which the connection may end, and those under which a
    segment need not be taken in full. *)
Definition may_close : Prop :=
  fl (tiflags x0) TH_RST = true ∨ tp0 t_state = TCPS_LAST_ACK ∨ sflag (c_so c0) SS_NOFDREF = true.
Definition may_refuse : Prop :=
  fl (tiflags x0) TH_RST = true ∨ fl (tiflags x0) TH_ACK = false ∨ SEQ_GT (ti_ack x0) (tp0 snd_max) = true ∨
  tp0 ts_recent ≠ 0 ∨ ¬ (tp0 t_state = TCPS_ESTABLISHED ∨ tp0 t_state = TCPS_FIN_WAIT_1 ∨ tp0 t_state = TCPS_FIN_WAIT_2) ∨
  W <= rwnd ∨ r0 + b0 + rwnd < o0 + ti_len x0.

(** The segment is in sequence and has new data. *)
Definition news : Prop := o0 <= r0 < o0 + ti_len x0.

(** The conditions under which an acknowledgement need not be taken, whatever the state. *)
Definition may_ignore : Prop :=
  fl (tiflags x0) TH_RST = true ∨ fl (tiflags x0) TH_ACK = false ∨ SEQ_GT (ti_ack x0) (tp0 snd_max) = true ∨
  tp0 ts_recent ≠ 0 ∨ W <= rwnd ∨ r0 + b0 + rwnd < o0 + ti_len x0.

(** The segment is not an old one: it begins at or after the next position, or ends after
    it. *)
Definition timely : Prop := r0 + b0 <= o0 ∨ r0 + b0 < o0 + ti_len x0.

(** The acknowledgement has been taken, if it must be and acknowledges anything. *)
Definition settled (tp : tcpcb) : Prop :=
  may_ignore ∨ (timely → SEQ_GT (ti_ack x0) (tp0 snd_una) = true → tp snd_una = ti_ack x0).

Definition final (c : conn) : Prop :=
  c_tp c = None ∧ may_close ∨
  ∃ b r q tp, inv b r q tp c ∧ (may_refuse ∨ (news → o0 + ti_len x0 <= r)) ∧ settled tp.

(** There is nothing to take. *)
Definition idle : Prop := may_ignore ∨ ¬ timely ∨ SEQ_GT (ti_ack x0) (tp0 snd_una) = false.

Lemma idle_settled tp : idle → settled tp.
Proof. clear f base. unfold idle, settled. intros [H|[H|H]]; [by left|right; tauto|right; intros _ H2; congruence]. Qed.

Lemma settled_same tp tp' : settled tp → tp' snd_una = tp snd_una → settled tp'.
Proof. clear f base. unfold settled. by intros H ->. Qed.

(** At a label that still has the packet. *)
Definition leave (l : label) (x : locals) (c : conn) : Prop :=
  final c ∧ pkt_ok (c_ms c) (m x) ∧ dropsocket x = false ∧
  match l with Ldropafterack => c_tp c ≠ None | Lfindpcb _ => False | _ => True end.

Definition goes (F : locals → conn → Prop) (r : next) (c : conn) : Prop :=
  match r with
  | Fall x => F x c
  | Goto Lreturn _ => final c
  | Goto l x => leave l x c
  end.

Lemma wp_andthen (g h : stage) x c (F G : locals → conn → Prop) :
  wp (g x) c (goes F) → (∀ x c, F x c → wp (h x) c (goes G)) → wp (andthen g h x) c (goes G).
Proof.
  intros Hg Hh. apply wp_bind. eapply wp_mono; [exact Hg|]. intros [x'|l x'] c' H; [by apply Hh|exact H].
Qed.

(** ** Keeping the invariant *)

Lemma inv_tp b r q tp tp' c :
  inv b r q tp c → conn_ok b r q tp' (set_tp (Some tp') c) → tp' snd_una = tp snd_una → inv b r q tp' (set_tp (Some tp') c).
Proof. intros [A B C D E F] H Hu. constructor; try done; by rewrite Hu. Qed.

(** Assignments neither side depends on. *)
Lemma inv_writes F b r q tp tp' c :
  inv b r q tp c → writes F tp tp' → Forall (λ f, ¬ F f) (rcv_nxt :: vital) → inv b r q tp' (set_tp (Some tp') c).
Proof.
  intros H Hw Hf. apply (inv_tp _ _ _ tp); [done|by apply (conn_writes f base fin F _ _ _ tp); [apply H|..]|].
  apply (writes_frame _ _ _ _ Hw). rewrite Forall_forall in Hf. apply Hf. right. repeat constructor.
Qed.

Lemma inv_tflag fl b r q tp c :
  inv b r q tp c → fl = TF_ACKNOW ∨ fl = TF_DELACK → inv b r q (set_tflag fl tp) (set_tp (Some (set_tflag fl tp)) c).
Proof.
  intros H Hf. apply (inv_tp _ _ _ tp); [done|by apply conn_tflag; [apply H|]|]. unfold set_tflag. by tsimpl.
Qed.

Lemma inv_store b r q tp c s : inv b r q tp c → Mbuf.same_store (c_ms c) s → inv b r q tp (set_ms s c).
Proof.
  intros [A B C D E F] Hs. constructor; try done; [by apply conn_store|..]; unfold rbytes, sbytes, Sockbuf.sb_bytes in *; simpl;
    by rewrite (Mbuf.bytes_store (c_ms c) s).
Qed.

Lemma inv_data b r q tp c so : inv b r q tp c → same_data (c_so c) so → inv b r q tp (set_so so c).
Proof.
  intros [A B C D E F] H. destruct (H so_snd) as (H1 & H2 & H3); [auto|]. destruct (H so_rcv) as (H4 & H5 & H6); [auto|].
  constructor; try done; [by apply conn_data|..]; unfold rbytes, sbytes, Sockbuf.sb_bytes, Sockbuf.mbufs, sndbuf, rcvbuf in *; simpl.
  - by rewrite H6.
  - by rewrite H3.
  - unfold snd_cc in *. by rewrite H1.
Qed.

(** What the handler needs of its environment: [m_copy] succeeds, and there is fuel
    for all the data to send. *)
Definition env_ok : Prop :=
  (∀ n, e_mcopy e n = true) ∧ snd_cc (so_buf (c_so c0)) + 2 <= Z.of_nat (e_fuel e).

Lemma inv_output b r q tp c :
  env_ok → inv b r q tp c →
  wp (output e) c (λ _ c', ∃ tp', inv b r q tp' c' ∧ (writes sync_field tp tp' ∧ tp' snd_una = tp snd_una) ∧ max_of tp <= max_of tp' ∧
    c_ms c' = c_ms c ∧ c_so c' = c_so c).
Proof.
  intros [He1 He2] H. eapply wp_mono; [apply (output_ok f base fin e b r q tp); [apply H|done|pose proof (in_cc _ _ _ _ _ H); lia]|].
  intros er c' (tp' & es & -> & Hok & Hw & Hm). assert (tp' snd_una = tp snd_una) as Hu by (apply (writes_frame _ _ _ _ Hw); simpl; tauto).
  exists tp'. split; [|by split_and!; try apply Hm]. destruct H as [A B C D E F]. constructor; try done; by rewrite Hu.
Qed.

Lemma final_inv b r q tp c : inv b r q tp c → may_refuse ∨ (news → o0 + ti_len x0 <= r) → settled tp → final c.
Proof. intros H Hn Hs. right. by exists b, r, q, tp. Qed.

(** ** The labels *)

Lemma free_packet x c :
  pkt_ok (c_ms c) (m x) →
  wp (low (Mbuf.m_freem (m x))) c (λ _ c', ∃ s, c' = set_ms s c ∧ Mbuf.same_store (c_ms c) s).
Proof. intros H. apply wp_low. eapply wp_mono; [by apply m_freem_ok|]. intros [] s Hs. by exists s. Qed.

Lemma final_store c s : final c → Mbuf.same_store (c_ms c) s → final (set_ms s c).
Proof.
  intros [H|(b & r & q & tp & H & Hn)] Hs; [by left|right]. exists b, r, q, tp. split; [by apply inv_store|done].
Qed.

Lemma at_drop_ok l x c : leave l x c → wp (at_drop e x) c (λ _ c', final c').
Proof.
  intros (H1 & H2 & H3 & _). unfold at_drop. apply wp_bind. eapply wp_mono; [by apply free_packet|].
  intros [] c' (s & -> & Hs). rewrite H3. apply wp_ret. by apply final_store.
Qed.

Lemma at_dropafterack_ok x c : env_ok → leave Ldropafterack x c → wp (at_dropafterack e x) c (λ _ c', final c').
Proof.
  intros He H. unfold at_dropafterack. destruct (has_flag x TH_RST); [by eapply at_drop_ok|].
  destruct H as (H1 & H2 & H3 & H4). apply wp_bind. eapply wp_mono; [by apply free_packet|].
  intros [] c' (s & -> & Hs). destruct H1 as [[H1 _]|(b & r & q & tp & H1 & Hn & Hse)]; [done|].
  apply (inv_store _ _ _ _ _ s) in H1; [|done]. apply wp_bind. eapply wp_mod_tp; [apply H1|].
  apply wp_bind. eapply wp_mono; [eapply inv_output; [done|]; by apply inv_tflag; [|left]|].
  intros er c' (tp' & H' & [_ Hu] & _). apply wp_ret. eapply final_inv; [done..|]. apply (settled_same tp); [done|].
  rewrite Hu. unfold set_tflag. by tsimpl.
Qed.

Lemma respond_final seg ack seq flags c : final c → wp (tcp_respond e seg ack seq flags) c (λ _ c', final c').
Proof.
  intros H. assert (∀ es, final (emit es c)) as He.
  { intros es. destruct H as [H|(b & r & q & tp & [[A B C D E F G] A2 A3 A4 A5 A6] & Hn)]; [by left|right].
    exists b, r, q, tp. by split. }
  unfold wp, tcp_respond. destruct seg; [apply He|]. destruct (e_header e); [apply He|done].
Qed.

Lemma at_dropwithreset_ok x c : leave Ldropwithreset x c → wp (at_dropwithreset e x) c (λ _ c', final c').
Proof.
  intros H. unfold at_dropwithreset. destruct (_ || _); [by eapply at_drop_ok|].
  destruct H as (H1 & [K1 K2] & H3 & _). apply wp_bind, wp_low. eapply wp_mono; [apply m_freem_ok|].
  { destruct (m x); [by split|]. simpl. inversion_clear K1. inversion_clear K2. by split. }
  intros [] s Hs. apply (final_store _ s) in H1; [|done]. apply wp_bind. eapply (wp_mono _ _ (λ _ c', final c')).
  { destruct (has_flag x TH_ACK); by apply respond_final. }
  intros [] c' H'. by rewrite H3.
Qed.

(** ** The segment on its way *)

(** The header: position [o], data before the FIN, a FIN where it belongs.  The
    trimming clears bits of [tiflags] but neither RST nor ACK. *)
Record hdr (o : Z) (x : locals) : Prop := Hdr
  { h_seq : ti_seq x = u32 (base + o);
    h_len : 0 <= ti_len x < 32768;
    h_near : r0 - W < o;
    h_end : o + ti_len x <= r0 + W;
    h_fin : fl (ti_flags x0) TH_FIN = true → o + ti_len x = fin;
    h_data : ti_len x = 0 ∨ o + ti_len x <= fin;
    h_flags : ti_flags x = ti_flags x0;
    h_sub : ∀ k, fl (tiflags x) k = true → fl (ti_flags x0) k = true;
    h_rst : has_flag x TH_RST = fl (tiflags x0) TH_RST;
    h_ackf : has_flag x TH_ACK = fl (tiflags x0) TH_ACK;
    h_syn : fl (ti_flags x0) TH_SYN = false;
    h_urg : fl (ti_flags x0) TH_URG = false;
    h_ds : dropsocket x = false;
    h_ack : ti_ack x = ti_ack x0 }.

Lemma hdr_nosyn o x : hdr o x → has_flag x TH_SYN = false.
Proof. intros H. apply not_true_iff_false. intros E%(h_sub _ _ H). by rewrite (h_syn _ _ H) in E. Qed.

Lemma hdr_nourg o x : hdr o x → has_flag x TH_URG = false.
Proof. intros H. apply not_true_iff_false. intros E%(h_sub _ _ H). by rewrite (h_urg _ _ H) in E. Qed.

Lemma hdr_same o x x' :
  hdr o x → ti_seq x' = ti_seq x → ti_len x' = ti_len x → ti_flags x' = ti_flags x → tiflags x' = tiflags x →
  dropsocket x' = dropsocket x → ti_ack x' = ti_ack x → hdr o x'.
Proof.
  intros [A1 A2 A3 A4 A5 A6 A7 A8 A9 A10 A11 A12 A13 A14] E1 E2 E3 E4 E5 E6.
  constructor; unfold has_flag in *; rewrite ?E1, ?E2, ?E3, ?E4, ?E5, ?E6; done.
Qed.

Lemma hdr_clear o x b :
  hdr o x → Z.land TH_RST b = 0 → Z.land TH_ACK b = 0 → hdr o (clear_flag b x).
Proof.
  intros [A1 A2 A3 A4 A5 A6 A7 A8 A9 A10 A11 A12 A13 A14] Hr Ha.
  assert (Hk : ∀ k, Z.land k b = 0 → fl (Z.land (tiflags x) (Z.lnot b)) k = fl (tiflags x) k).
  { intros k Hk. unfold fl. f_equal. rewrite <- Z.land_assoc. f_equal. apply Z.bits_inj'. intros n Hn.
    assert (Z.testbit (Z.land k b) n = false) as Ht by (by rewrite Hk, Z.bits_0). rewrite Z.land_spec in *.
    rewrite Z.lnot_spec by done. by destruct (Z.testbit b n), (Z.testbit k n). }
  constructor; try done; simpl.
  - intros k Hf%fl_clear. by apply A8.
  - rewrite <- A9. by apply Hk.
  - rewrite <- A10. by apply Hk.
Qed.

(** The fields that do not change before the acknowledgement is processed. *)
Definition front : list tfield := [t_state; snd_una; snd_nxt; snd_max; snd_cwnd; t_maxseg; rcv_nxt; rcv_adv].

(** The connection before the acknowledgement is processed. *)
Record early (tp : tcpcb) (c : conn) : Prop := Early
  { ea_inv : inv b0 r0 q0 tp c;
    ea_same : ∀ g, g ∈ front → tp g = tp0 g;
    ea_so : c_so c = c_so c0 }.

Lemma early_writes F tp tp' c :
  early tp c → writes F tp tp' → Forall (λ f, ¬ F f) (rcv_adv :: rcv_nxt :: vital) → early tp' (set_tp (Some tp') c).
Proof.
  intros [A B C] Hw Hf. constructor; [by apply (inv_writes F _ _ _ tp); [..|inversion Hf]| |done]. intros g Hg. rewrite <- B by done.
  apply (writes_frame _ _ _ _ Hw). rewrite Forall_forall in Hf. apply Hf. unfold front in Hg.
  repeat (apply elem_of_cons in Hg as [-> |Hg]; [by repeat first [left; done|right]|]). by apply elem_of_nil in Hg.
Qed.

Lemma early_acknow tp c : early tp c → early (set_tflag TF_ACKNOW tp) (set_tp (Some (set_tflag TF_ACKNOW tp)) c).
Proof.
  intros [A B C]. constructor; [by apply inv_tflag; [|left]| |done]. intros g Hg. rewrite <- B by done.
  unfold set_tflag. apply wr_ne. intros <-. unfold front in Hg.
  by repeat (apply elem_of_cons in Hg as [Hg|Hg]; [done|]); apply elem_of_nil in Hg.
Qed.

Lemma early_store tp c s : early tp c → Mbuf.same_store (c_ms c) s → early tp (set_ms s c).
Proof. intros [A B C] Hs. constructor; [by apply inv_store|done|done]. Qed.

Lemma early_synced tp c : early tp c → tp t_state = tp0 t_state ∧ TCPS_ESTABLISHED <= tp t_state <= TCPS_TIME_WAIT.
Proof.
  intros [A B C]. split; [apply B; repeat constructor|]. apply (ok_state _ _ (se_ok _ _ (co_send _ _ _ _ _ _ _ _ (in_ok _ _ _ _ _ A)))).
Qed.

(** [rcv_nxt] is position [r0 + b0]. *)
Lemma early_nxt tp c : early tp c → tp rcv_nxt = u32 (base + (r0 + b0)) ∧ (b0 = 0 ∨ b0 = 1 ∧ r0 = fin).
Proof.
  intros [A B C]. destruct (co_recv _ _ _ _ _ _ _ _ (in_ok _ _ _ _ _ A)) as ((H1 & H2 & H3) & H4 & H5 & _).
  rewrite wr_eq in H2. cbn [conv] in H2. split; [|destruct H5 as [->|(-> & -> & _)]; auto]. clear - H2 H4. wraplia.
Qed.

(** Before the headers are stripped. *)
Definition stripped (x : locals) : Z := TCPIPHDR_SIZE + off x - 20.
Definition raw_packet (s : Mbuf.mstate) (x : locals) : Prop :=
  ∃ m0 rest, m x = m0 :: rest ∧ 0 <= stripped x <= Mbuf.m_len m0 ∧ pkt_ok s (m x) ∧
    drop (Z.to_nat (stripped x)) (Mbuf.bytes s (m x)) = slice o0 (ti_len x0).

Definition options_ok (x : locals) : Prop :=
  match optp x with Some (cp, cnt) => 0 <= cnt ∧ cnt + 9 <= Z.of_nat (length cp) | None => True end.

(** A timestamp that PAWS finds too old. *)
Definition ts_fresh (x : locals) (tp : tcpcb) : Prop :=
  ztrue (tp ts_recent) = true → tp0 ts_recent ≠ 0 ∨ TSTMP_LT (ts_val (ts x)) (tp ts_recent) = false.

Record raw (x : locals) (tp : tcpcb) (c : conn) : Prop := Raw
  { raw_early : early tp c; raw_hdr : hdr o0 x; raw_len : ti_len x = ti_len x0;
    raw_pkt : raw_packet (c_ms c) x }.

(** After they are: the packet carries the data from [o] on. *)
Record flow (o : Z) (x : locals) (tp : tcpcb) (c : conn) : Prop := Flow
  { fw_early : early tp c; fw_hdr : hdr o x; fw_pkt : pkt_ok (c_ms c) (m x);
    fw_bytes : Mbuf.bytes (c_ms c) (m x) = slice o (ti_len x) }.

(** A segment that must be taken in full still begins before [r0] and ends where it
    did; one with text begins at [rcv_nxt]. *)
Definition keeps (o : Z) (x : locals) : Prop :=
  may_refuse ∨ ¬ news ∨ o <= r0 ∧ o + ti_len x = o0 + ti_len x0.
Definition trimmed (o : Z) (x : locals) : Prop :=
  ti_len x ≠ 0 ∨ has_flag x TH_FIN = true → r0 + b0 <= o.

(** ** The segment that arrives *)

Record arriving : Prop := Arriving
  { ar_conn : conn_ok b0 r0 q0 tp0 c0;
    ar_env : env_ok;
    ar_hdr : hdr o0 x0;
    ar_pkt : raw_packet (c_ms c0) x0;
    ar_opt : options_ok x0;
    ar_ack : is_u32 (ti_ack x0);
    ar_room : tp0 snd_cwnd + tp0 t_maxseg < 2147483648;
    ar_fits : fl (ti_flags x0) TH_FIN = true → rwnd < W ∧ o0 + ti_len x0 <= r0 + b0 + rwnd }.

Lemma arriving_raw : arriving → raw x0 tp0 c0.
Proof.
  intros [A B C D E F G H]. constructor; try done. constructor; [|done|done]. constructor; try done.
  - intros _. by rewrite Z.sub_diag, TcpReass.slice_nil, app_nil_r.
  - by left.
  - by rewrite Z.sub_diag.
Qed.

(** ** Up to the receive window *)

Lemma raw_writes F x tp tp' c :
  raw x tp c → writes F tp tp' → Forall (λ f, ¬ F f) (rcv_adv :: rcv_nxt :: vital) → raw x tp' (set_tp (Some tp') c).
Proof. intros [A B C D] Hw Hf. constructor; try done. by apply (early_writes F tp). Qed.

(** The timestamp to compare with is still that of the connection. *)
Definition aged (x : locals) (c : conn) : Prop := ∃ tp, raw x tp c ∧ tp ts_recent = tp0 ts_recent.

Lemma arrive_ok x c : aged x c → options_ok x → wp (arrive e x) c (goes (λ x c, aged x c ∧ options_ok x)).
Proof.
  intros (tp & H & Ht) Ho. unfold arrive. apply wp_bind. eapply wp_mod_tp; [apply H|]. apply wp_ret. split; [|done].
  eexists. split; [apply (raw_writes (λ f, f = t_idle ∨ f = t_timer TCPT_KEEP) _ tp); [done|writes|]|by tsimpl].
  repeat constructor; by intros [|].
Qed.

Lemma do_options_ok x c : aged x c → options_ok x → wp (do_options e x) c aged.
Proof.
  intros (tp & H & Ht) Ho. unfold do_options, options_ok in *. destruct (optp x) as [[cp cnt]|]; [|by exists tp].
  apply wp_bind. eapply wp_get_tp; [apply H|]. apply wp_bind, wp_get.
  destruct (dooptions_nosyn (e_sbmax e) (e_mssdflt e) (c_route c) (e_now e) (ti_flags x) cp cnt tp (so_buf (c_so c)) (ts x))
    as (t' & ->); [rewrite (h_flags _ _ (raw_hdr _ _ _ H)); apply H|apply Ho|apply Ho|].
  apply wp_bind. cbn [lift]. apply wp_ret. cbv beta iota. apply wp_bind, wp_put_tp, wp_bind, wp_mod_so, wp_ret.
  exists tp. split; [|done]. destruct H as [A B C D]. simpl.
  assert (set_so (with_buf (so_buf (c_so c)) (c_so c)) (set_tp (Some tp) c) = c) as ->.
  { rewrite with_buf_same. pose proof (co_tp _ _ _ _ _ _ _ _ (in_ok _ _ _ _ _ (ea_inv _ _ A))). destruct c; simpl in *. by subst. }
  constructor; try done. by apply (hdr_same o0 x).
Qed.

Lemma options_stage_ok x c : aged x c → options_ok x → wp (options e x) c (goes aged).
Proof.
  intros H Ho. pose proof H as (tp & Hr & _). unfold options. apply wp_bind. eapply wp_get_tp; [apply Hr|].
  destruct (negb _); [|by apply wp_ret]. apply wp_bind. eapply wp_mono; [by apply do_options_ok|]. intros x' c' H'. by apply wp_ret.
Qed.

Lemma strip_ok x c :
  raw_packet (c_ms c) x →
  wp (strip x) c (λ x' c', c' = c ∧ ∃ p, x' = set_m p x ∧ pkt_ok (c_ms c) p ∧ Mbuf.bytes (c_ms c) p = slice o0 (ti_len x0)).
Proof.
  intros (m0 & rest & E & Hn & [K1 K2] & Hb). unfold strip. rewrite E in *. fold (stripped x). apply wp_ret. split; [done|].
  inversion K1 as [|? ? M1 M2]; subst. inversion K2 as [|? ? N1 N2]; subst.
  destruct (Mbuf.mbytes_trim (c_ms c) m0 (stripped x) M1 Hn) as [T1 T2]. eexists. split; [done|].
  split; [split; simpl; by constructor|]. rewrite <- Hb, !Mbuf.bytes_cons, T1.
  pose proof (Mbuf.mbytes_length _ _ M1). by rewrite drop_app_le by lia.
Qed.

(** *** Acknowledgements *)

Lemma ack_SEQ tp a :
  is_u32 (ti_ack x0) → is_u32 (tp snd_una) → a = s32 (ti_ack x0 - tp snd_una) → 0 < a <= max_of tp → max_of tp < 2000000000 →
  ti_ack x0 = u32 (tp snd_una + a) ∧ SEQ_GT (ti_ack x0) (tp snd_una) = true ∧ SEQ_LEQ (ti_ack x0) (tp snd_max) = true.
Proof.
  intros Hk Hu Ha Hr Hm. split; [clear - Hk Hu Ha; wraplia|]. unfold SEQ_GT, SEQ_LEQ. rewrite <- Ha. split; [apply Z.ltb_lt; lia|].
  unfold max_of in *. rewrite (s32_diff _ _ (tp snd_una)); rewrite <- Ha; [apply Z.leb_le; lia|unfold is_s32; lia].
Qed.

Lemma ack_bounds so tp v :
  send_ok so tp → SEQ_GT v (tp snd_una) = true → SEQ_GT v (tp snd_max) = false → 0 < s32 (v - tp snd_una) <= max_of tp.
Proof.
  intros Hok Hgt Hle. pose proof (ok_order _ _ Hok) as Hord. pose proof (ok_data _ _ Hok). pose proof (ok_cc _ _ Hok).
  assert (b2z (tflag tp TF_SENTFIN) <= 1) by (unfold b2z; destruct (tflag tp _); lia).
  assert (0 <= max_of tp < 1073741826) as Hm by lia. clear Hord. unfold SEQ_GT, max_of in *. zbool. split; [done|].
  clear - Hgt Hle Hm. revert Hgt Hle Hm. generalize (tp snd_max) (tp snd_una). intros. wraplia.
Qed.

(** Nothing acknowledged yet. *)
Record unacked (tp : tcpcb) (c : conn) : Prop := Unacked
  { un_inv : inv b0 r0 q0 tp c; un_una : tp snd_una = tp0 snd_una; un_max : tp snd_max = tp0 snd_max }.

Lemma early_unacked tp c : early tp c → unacked tp c.
Proof. intros [A B _]. constructor; [done|apply B; repeat constructor..]. Qed.

(** The acknowledgement of [a] positions, with what is left of the send buffer. *)
Lemma inv_acked tp c a s so' tp' :
  unacked tp c → is_u32 (ti_ack x0) → a = s32 (ti_ack x0 - tp snd_una) → 0 < a <= max_of tp →
  Mbuf.same_store (c_ms c) s → Sockbuf.sb_ok s (so_snd (so_buf so')) → so_rcv (so_buf so') = rcvbuf c →
  Sockbuf.sb_bytes s (so_snd (so_buf so')) = drop (Z.to_nat a) (sbytes c) →
  snd_cc (so_buf so') <= snd_cc (so_buf (c_so c)) →
  sender (so_buf so') tp' → tp' snd_una = ti_ack x0 → tp' rcv_nxt = tp rcv_nxt →
  (tp' t_state = TCPS_ESTABLISHED → tp t_state = TCPS_ESTABLISHED) →
  inv b0 r0 q0 tp' (set_tp (Some tp') (set_so so' (set_ms s c))).
Proof.
  intros [H Hua Hmx] Hk Ha Hr Hst Hok Hrcv Hby Hcc Hse Hu Hn Hes. apply (inv_store _ _ _ _ _ s) in H; [|done].
  destruct H as [[A1 A2 A3 A4 A5 A6 A7] B C D E F].
  pose proof (ok_data _ _ (se_ok _ _ A3)). pose proof (ok_cc _ _ (se_ok _ _ A3)).
  assert (b2z (tflag tp TF_SENTFIN) <= 1) by (unfold b2z; destruct (tflag tp _); lia).
  destruct (ack_SEQ tp a Hk (ok_una _ _ (se_ok _ _ A3)) Ha Hr) as (K1 & K2 & K3); [lia|].
  constructor; try done; unfold rbytes, sbytes, sndbuf, rcvbuf in *; simpl in *.
  - constructor; try done; simpl; unfold rcvbuf, sndbuf; simpl; [by rewrite Hrcv|]. destruct A7 as (G1 & G2 & G3 & G4).
    unfold receiving. rewrite Hn. split_and!; try done. destruct G3 as [G3|(G3 & G5 & G6)]; [by left|right]. split_and!; auto.
  - rewrite Hrcv. done.
  - right. rewrite Hu, <- Hua, <- Hmx. done.
  - rewrite Hu, Hby. rewrite Hua, Z.sub_diag in E. rewrite <- Hua, <- Ha. unfold Sockbuf.sb_bytes in *.
    rewrite (Mbuf.bytes_store (c_ms c) s) in E by done. by rewrite E.
  - lia.
Qed.

(** The two together: [snd_drop] has left [sb], and [tp'] is the control block. *)
Lemma inv_ack tp c a s sb tp' :
  unacked tp c → is_u32 (ti_ack x0) → a = s32 (ti_ack x0 - tp snd_una) → 0 < a <= max_of tp → Mbuf.same_store (c_ms c) s →
  let cc := snd_cc (so_buf (c_so c)) in
  Sockbuf.sb_ok s sb → Sockbuf.sb_bytes s sb = drop (Z.to_nat (Z.min a cc)) (sbytes c) →
  Sockbuf.sb_cc sb = cc - Z.min a cc → Sockbuf.sb_cc sb = Mbuf.chain_len (Sockbuf.mbufs sb) →
  typed tp' → tp' snd_una = ti_ack x0 → 0 <= tp' snd_cwnd < 2147483648 →
  tp' snd_nxt = (if off_of tp <? a then ti_ack x0 else tp snd_nxt) →
  (∀ g, g ∈ [snd_max; t_maxseg; t_flags; snd_scale; rcv_nxt] → tp' g = tp g) →
  TCPS_ESTABLISHED <= tp' t_state <= TCPS_TIME_WAIT →
  (fin_state tp' = true → fin_state tp = true ∧ a <= cc) →
  (tp' t_state <= TCPS_CLOSE_WAIT → tp t_state = tp' t_state) →
  inv b0 r0 q0 tp' (set_tp (Some tp') (set_so (with_buf (Sock sb (rcvbuf c)) (c_so c)) (set_ms s c))).
Proof.
  intros He Hk Ha Hr Hs cc Hok Hby Hcc Hch Ht Hu Hcw Hnx Hf Hst Hfin Hcl.
  pose proof (in_ok _ _ _ _ _ (un_inv _ _ He)) as Hc. pose proof (co_send _ _ _ _ _ _ _ _ Hc) as Hse. pose proof (se_ok _ _ Hse) as Hso.
  pose proof (ok_cc _ _ Hso) as Hc1. pose proof (ok_data _ _ Hso) as Hd.
  assert (b2z (tflag tp TF_SENTFIN) <= 1) by (unfold b2z; destruct (tflag tp _); lia).
  assert (Hlen : Z.of_nat (length (sbytes c)) = cc).
  { destruct (co_snd _ _ _ _ _ _ _ _ Hc) as (_ & _ & K & _). pose proof (Mbuf.bytes_length _ _ K) as Hl.
    unfold cc. by rewrite (se_cc _ _ Hse). }
  destruct (ack_SEQ tp a Hk (ok_una _ _ Hso) Ha Hr) as (K1 & _); [lia|].
  set (so' := with_buf _ _). assert (snd_cc (so_buf so') = Sockbuf.sb_cc sb) as Hcc' by done.
  apply (inv_acked tp c a s so'); try done.
  - simpl. rewrite Hby. destruct (Z.min_spec a cc) as [[_ ->]|[Hle ->]]; [done|].
    by rewrite !drop_ge by lia.
  - fold cc. lia.
  - apply (sender_ack (so_buf (c_so c)) _ tp _ a); try done; [fold cc; lia|congruence|by rewrite Hu| |intros E; by rewrite Hcl].
    intros g Hg. apply Hf. by repeat (apply elem_of_cons in Hg as [-> |Hg]; [by repeat first [left; done|right]|]); apply elem_of_nil in Hg.
  - apply Hf. by repeat first [left; done|right].
  - intros E. rewrite Hcl; [done|]. rewrite E. done.
Qed.

(** ** Header prediction *)

Lemma measure_writes x tp : writes rtt_field tp (measure e x tp).
Proof. unfold measure. destruct (ts_present _); [apply xmit_writes|]. destruct (_ && _); [apply xmit_writes|writes]. Qed.

Ltac fields := repeat constructor; simpl; tauto.

(** The connection after output is still in order. *)
Lemma output_final b r q tp c :
  env_ok → inv b r q tp c → may_refuse ∨ (news → o0 + ti_len x0 <= r) → settled tp → wp (output e) c (λ _ c', final c').
Proof.
  intros He H Hn Hs. eapply wp_mono; [by apply (inv_output b r q tp)|]. intros er c' (tp' & H' & [_ Hu] & _).
  eapply final_inv; [done..|]. by apply (settled_same tp).
Qed.

(** A pure acknowledgement carries no news. *)
Lemma no_news : ti_len x0 = 0 → news → False.
Proof. unfold news. lia. Qed.

Lemma predict_ack_ok x tp c :
  arriving → raw x tp c → ti_len x = 0 → tp t_state = TCPS_ESTABLISHED → tp snd_nxt = tp snd_max →
  SEQ_GT (ti_ack x) (tp snd_una) = true → SEQ_GT (ti_ack x) (tp snd_max) = false →
  wp (predict_ack e x) c (goes (λ _ _, False)).
Proof.
  intros Hin Hraw Hl Hst Hnx Hgt Hle. pose proof (raw_hdr _ _ _ Hraw) as Hh. rewrite (h_ack _ _ Hh) in *.
  assert (Hz : ti_len x0 = 0) by (rewrite <- (raw_len _ _ _ Hraw); done).
  unfold predict_ack. apply wp_bind. eapply wp_mod_tp; [apply Hraw|]. set (tp1 := measure e x tp).
  pose proof (raw_writes _ x tp tp1 c Hraw (measure_writes x tp) ltac:(fields)) as Hraw1.
  assert (Hf : ∀ g, ¬ rtt_field g → tp1 g = tp g) by (intros g; apply writes_frame, measure_writes).
  clearbody tp1. set (c1 := set_tp (Some tp1) c) in *. apply wp_bind. eapply wp_get_tp; [apply Hraw1|].
  pose proof (raw_early _ _ _ Hraw1) as He1. pose proof (in_ok _ _ _ _ _ (ea_inv _ _ He1)) as Hc1.
  pose proof (co_send _ _ _ _ _ _ _ _ Hc1) as Hse. pose proof (se_ok _ _ Hse) as Hok.
  set (a := s32 (ti_ack x0 - tp1 snd_una)).
  assert (Ha : 0 < a <= max_of tp1 ∧ max_of tp1 <= snd_cc (so_buf (c_so c1))).
  { split; [apply (ack_bounds (so_buf (c_so c1))); by rewrite ?Hf by (simpl; tauto)|]. pose proof (ok_data _ _ Hok) as Hd.
    rewrite (se_nofin _ _ Hse) in Hd by (rewrite Hf by (simpl; tauto); rewrite Hst; done). unfold b2z in Hd. lia. }
  apply wp_bind. rewrite (h_ack _ _ Hh). fold a. eapply wp_mono.
  { apply (snd_drop_ok a c1); [apply Hc1|apply Hse|lia|]. pose proof (ok_cc _ _ Hok). lia. }
  intros [] c2 (s & sb & -> & Hs & Hsb & Hby & Hcc & Hch).
  apply wp_bind, wp_put_tp. set (tp2 := wr snd_una (ti_ack x0) tp1).
  assert (Hin2 : inv b0 r0 q0 tp2 (set_tp (Some tp2) (set_so (with_buf (Sock sb (rcvbuf c1)) (c_so c1)) (set_ms s c1)))).
  { apply (inv_ack tp1 c1 a); try done; [by apply early_unacked|..]; try apply Hin; try lia; try (unfold tp2; tsimpl); try apply Hok.
    - rewrite Z.min_l by lia. done.
    - apply typed_wr, Hse.
    - apply u32_id, Hin.
    - assert (off_of tp1 = max_of tp1) as ->; [unfold off_of, max_of; by rewrite !Hf, Hnx by (simpl; tauto)|].
      by rewrite (proj2 (Z.ltb_ge _ _)) by lia.
    - intros g Hg. apply wr_ne. intros <-. by repeat (apply elem_of_cons in Hg as [Hg|Hg]; [done|]); apply elem_of_nil in Hg.
    - intros Hft. split; [|lia]. revert Hft. unfold fin_state. by tsimpl. }
  assert (pkt_ok s (m x)) as Hp.
  { destruct (raw_pkt _ _ _ Hraw) as (m0 & rest & _ & _ & Hp & _). by apply (pkt_ok_store (c_ms c)). }
  apply wp_bind. eapply wp_mono; [by apply free_packet|]. intros [] c3 (s' & -> & Hs'). apply (inv_store _ _ _ _ _ s') in Hin2; [|done].
  apply wp_bind. eapply wp_get_tp; [done|]. apply wp_bind, wp_put_tp.
  match goal with |- context [set_tp (Some (if _ then _ else _)) _] => idtac end.
  match goal with |- wp _ (set_tp (Some ?t) ?cc) _ => set (tp3 := t); set (c4 := cc) in * end.
  assert (Hin3 : inv b0 r0 q0 tp3 (set_tp (Some tp3) c4)).
  { apply (inv_writes timer_field _ _ _ tp2); [done|unfold tp3; writes|fields]. }
  assert (Hs3 : settled tp3).
  { right. intros _ _. assert (writes timer_field tp2 tp3) as W3 by (unfold tp3; writes).
    rewrite (writes_frame _ _ _ _ W3) by (simpl; tauto). unfold tp2. tsimpl. apply u32_id, Hin. }
  clearbody tp3. apply wp_bind, wp_get_so, wp_bind.
  eapply (wp_mono _ _ (λ _ c', inv b0 r0 q0 tp3 c')).
  { destruct (ztrue _); [|by apply wp_ret]. apply wp_mod_so. apply inv_data; [done|]. apply sowwakeup_data. }
  intros [] c5 H5. apply wp_bind, wp_get_so, wp_bind.
  eapply (wp_mono _ _ (λ _ c', final c')); [|by intros [] c' H'; apply wp_ret].
  destruct (ztrue _); [|apply wp_ret; eapply final_inv; [done| |done]; right; by intros ?%no_news].
  apply wp_bind. eapply wp_mono; [eapply output_final; [apply Hin|done| |done]; right; by intros ?%no_news|]. intros er c' H'. by apply wp_ret.
Qed.

(** The receiver has taken the positions up to [r']. *)
Lemma inv_recv tp c r' q' s so' tp' c' :
  inv 0 r0 q0 tp c → Mbuf.same_store (c_ms c) s → r0 <= r' →
  so_snd (so_buf so') = sndbuf c → Sockbuf.sb_ok s (so_rcv (so_buf so')) →
  (sflag (c_so c0) SS_CANTRCVMORE = false → Sockbuf.sb_bytes s (so_rcv (so_buf so')) = rbytes c ++ slice r0 (r' - r0)) →
  sender (so_buf (c_so c)) tp' → receiving f base fin s 0 r' q' tp' → tp' snd_una = tp snd_una →
  c_tp c' = Some tp' → c_template c' = c_template c → c_so c' = so' → c_ms c' = s → c_q c' = q'.*2 →
  inv 0 r' q' tp' c'.
Proof.
  intros H Hs Hr Hsn Hok Hby Hse Hre Hu Ct Cp Co Cm Cq. apply (inv_store _ _ _ _ _ s) in H; [|done].
  destruct H as [[A1 A2 A3 A4 A5 A6 A7] B C D E F]. unfold rbytes, sbytes, sndbuf, rcvbuf in *; simpl in *.
  constructor; unfold rbytes, sbytes, sndbuf, rcvbuf; rewrite ?Co, ?Cm, ?Hsn, ?Hu; try done.
  - constructor; unfold sndbuf, rcvbuf; rewrite ?Co, ?Cm, ?Hsn; try done; [congruence|].
    destruct Hse as [S1 S2 S3 S4 S5]. constructor; try done.
    + apply (send_ok_cc (so_buf (c_so c))); [|done]. unfold snd_cc. by rewrite Hsn.
    + unfold snd_cc in *. by rewrite Hsn.
  - intros Hc. rewrite (Hby Hc). unfold Sockbuf.sb_bytes in *.
    specialize (C Hc). rewrite Z.sub_diag, TcpReass.slice_nil, app_nil_r in C.
    rewrite (Mbuf.bytes_store (c_ms c) s) in C by done. by rewrite C.
  - unfold snd_cc in *. by rewrite Hsn.
Qed.

Lemma predict_data_ok x tp c :
  arriving → raw x tp c → tp t_state = TCPS_ESTABLISHED → ti_seq x = tp rcv_nxt → c_q c = [] → ti_ack x = tp snd_una →
  wp (predict_data x) c (goes (λ _ _, False)).
Proof.
  intros Hin Hraw Hst Hseq Hq Hack. pose proof (raw_hdr _ _ _ Hraw) as Hh. pose proof (raw_early _ _ _ Hraw) as He.
  pose proof (ea_inv _ _ He) as Hi. pose proof (in_ok _ _ _ _ _ Hi) as Hc. pose proof (co_recv _ _ _ _ _ _ _ _ Hc) as Hre.
  destruct Hre as ((R1 & R2 & R3) & R4 & R5 & R6). destruct R5 as [Hb|(_ & _ & ?)]; [|done].
  rewrite (co_q _ _ _ _ _ _ _ _ Hc) in Hq. assert (Hqn : q0 = []) by (by destruct q0).
  destruct (early_nxt _ _ He) as [Hn _]. rewrite Hb, Z.add_0_r in Hn.
  assert (o0 = r0) as Ho.
  { pose proof (h_near _ _ Hh) as N1. pose proof (h_end _ _ Hh) as N2. pose proof (h_len _ _ Hh). unfold W, TcpReass.W in *.
    rewrite (h_seq _ _ Hh), Hn in Hseq. apply Z.eqb_eq. rewrite <- (TcpReass.seq_same base) by lia. by apply Z.eqb_eq. }
  pose proof (h_len _ _ Hh) as Hl. rewrite (raw_len _ _ _ Hraw) in Hl.
  unfold predict_data. apply wp_bind. eapply wp_mod_tp; [apply Hraw|]. set (tp1 := wr rcv_nxt _ tp).
  apply wp_bind. eapply wp_mono; [apply strip_ok, Hraw|]. intros x' c' (-> & p & -> & Hp & Hby). simpl in Hp, Hby.
  apply wp_bind. eapply wp_mono; [apply rcv_append_ok; [apply Hc|done]|].
  intros [] c' (s & sb & -> & Hs & Hok & Hb'). apply wp_bind, wp_mod_so, wp_bind. eapply wp_mod_tp; [done|]. apply wp_ret.
  set (tp2 := set_tflag TF_DELACK tp1). set (c3 := set_tp _ _).
  assert (Hn2 : tp2 rcv_nxt = u32 (base + (r0 + ti_len x0))).
  { unfold tp2, tp1, set_tflag. tsimpl. rewrite (raw_len _ _ _ Hraw), Hn. clear. wraplia. }
  apply (final_inv 0 (r0 + ti_len x0) [] tp2); [|right; unfold news; lia|].
  2: { apply idle_settled. right. right. rewrite <- (h_ack _ _ Hh), Hack. rewrite <- (ea_same _ _ He) by (by repeat first [left; done|right]).
       unfold SEQ_GT. by rewrite Z.sub_diag. }
  apply (inv_recv tp c _ _ s (c_so c3) _ c3); try done.
  - by rewrite <- Hb.
  - lia.
  - simpl. apply (sb_ok_data _ sb); try done; destruct (sorwakeup_data (with_buf (Sock (sndbuf c) sb) (c_so c)) so_rcv) as (? & ? & ?); auto.
  - intros _. simpl. unfold Sockbuf.sb_bytes, Sockbuf.mbufs.
    destruct (sorwakeup_data (with_buf (Sock (sndbuf c) sb) (c_so c)) so_rcv) as (_ & _ & Hmb); [auto|]. simpl in Hmb. rewrite Hmb.
    unfold Sockbuf.sb_bytes, Sockbuf.mbufs in Hb'. rewrite Hb'. simpl. rewrite Hby, Ho. f_equal. f_equal. lia.
  - unfold tp2. apply sender_tflag; [|by right]. apply (sender_vital _ tp); [|by apply typed_wr, Hc|apply Hc].
    intros g Hg. unfold tp1. apply wr_ne. intros <-. by repeat (apply elem_of_cons in Hg as [Hg|Hg]; [done|]); apply elem_of_nil in Hg.
  - split_and!; [split_and!| |by left|by intros ?%Exists_nil].
    + lia.
    + tsimpl. rewrite Z.sub_0_r, Hn2. apply u32_id, u32_range.
    + simpl. unfold TcpReass.W. lia.
    + rewrite Hn2. apply u32_range.
  - simpl. by rewrite (co_q _ _ _ _ _ _ _ _ Hc), Hqn.
Qed.

(** The timestamp is no older than the last one, or the segment may be refused. *)
Definition fresh (x : locals) (c : conn) : Prop := ∃ tp, raw x tp c ∧ ts_fresh x tp.

Lemma predict_ok x c : arriving → aged x c → wp (predict e x) c (goes fresh).
Proof.
  intros Hin (tp & Hraw & Ht). assert (Hts : ts_fresh x tp).
  { intros Hz. left. rewrite Ht in Hz. unfold ztrue in Hz. by zbool. }
  unfold predict. apply wp_bind. eapply wp_get_tp; [apply Hraw|]. destruct (negb (predicted x tp)) eqn:Ep; [apply wp_ret; by exists tp|].
  apply negb_false_iff in Ep. unfold predicted in Ep. rewrite !andb_true_iff in Ep. destruct Ep as ((((((E1 & E2) & E3) & E4) & E5) & E6) & E7).
  zbool. set (tp1 := if _ && _ && _ then _ else tp).
  assert (Hf : ∀ g, g ≠ ts_recent → g ≠ ts_recent_age → tp1 g = tp g).
  { intros g G1 G2. unfold tp1. destruct (_ && _ && _); by rewrite ?wr_ne. }
  assert (Hraw1 : raw x tp1 (set_tp (Some tp1) c)).
  { apply (raw_writes (λ f, f = ts_recent ∨ f = ts_recent_age) _ tp); [done|unfold tp1; writes|]. repeat constructor; by intros [|]. }
  assert (Hts1 : ts_fresh x tp1).
  { unfold tp1. destruct (_ && _ && _); [|done]. intros _. right. tsimpl. unfold TSTMP_LT. clear. apply Z.ltb_ge. wraplia. }
  clearbody tp1. apply wp_bind, wp_put_tp, wp_bind, wp_get. rewrite !Hf by done. simpl.
  destruct (ti_len x =? 0) eqn:El.
  - destruct (SEQ_GT _ _ && _ && _) eqn:Eg; [|apply wp_ret; by exists tp1]. zbool.
    match goal with H : SEQ_GT _ _ = true, H' : SEQ_LEQ _ _ = true |- _ => rename H into Eg1, H' into Eg2 end.
    eapply wp_mono; [apply (predict_ack_ok x tp1); try done; rewrite ?Hf by done; try done|by intros [?|[] ?] ?].
    unfold SEQ_LEQ in Eg2. unfold SEQ_GT. zbool. by apply Z.ltb_ge.
  - destruct (_ && _ && _) eqn:Eg; [|apply wp_ret; by exists tp1].
    rewrite !andb_true_iff in Eg. destruct Eg as ((Eg0 & Eg) & _). zbool.
    eapply wp_mono; [apply (predict_data_ok x tp1); try done; rewrite ?Hf by done; try done|by intros [?|[] ?] ?].
    simpl. by destruct (c_q c).
Qed.

(** ** The window *)

Definition windowed (x : locals) (c : conn) : Prop :=
  ∃ tp, flow o0 x tp c ∧ ti_len x = ti_len x0 ∧ ts_fresh x tp ∧ tp rcv_wnd = rwnd.

Lemma receive_window_ok x c : fresh x c → wp (receive_window x) c (goes windowed).
Proof.
  intros (tp & Hraw & Hts). pose proof Hraw as [He Hh Hl Hp]. unfold receive_window. apply wp_bind.
  eapply wp_mono; [apply strip_ok, Hp|]. intros x' c' (-> & p & -> & Hpk & Hby). apply wp_bind, wp_get_so, wp_bind.
  eapply wp_mod_tp; [apply Hraw|]. apply wp_ret. eexists. split; [|split; [done|split]].
  - constructor; [|by apply (hdr_same o0 x)|done|etrans; [exact Hby|]; simpl; by rewrite Hl].
    apply (early_writes (λ f, f = rcv_wnd) tp); [done|writes|]. by repeat constructor.
  - unfold ts_fresh in *. by tsimpl.
  - tsimpl. rewrite (ea_so _ _ He). rewrite !(ea_same _ _ He) by (by repeat first [left; done|right]).
    unfold rwnd, rcvbuf. set (w := Sockbuf.sbspace _). clearbody w.
    assert ((if w <? 0 then 0 else w) = Z.max 0 w) as -> by (destruct (Z.ltb_spec w 0); lia).
    apply u32_id. pose proof (u32_range (Z.max 0 w)). pose proof (u32_range (tp0 rcv_adv - tp0 rcv_nxt)). unfold is_u32 in *. lia.
Qed.

(** ** Trimming *)

Lemma flow_leave o x tp c l :
  flow o x tp c → may_refuse ∨ (news → o0 + ti_len x0 <= r0) → idle → (∀ i, l ≠ Lfindpcb i) → leave l x c.
Proof.
  intros [[A _ _] B C _] Hn Hi Hl. split_and!; [by apply (final_inv b0 r0 q0 tp); [..|apply idle_settled]|done|apply B|].
  destruct l; try done; [|by eapply Hl]. by rewrite (co_tp _ _ _ _ _ _ _ _ (in_ok _ _ _ _ _ A)).
Qed.

Lemma flow_writes F o x tp tp' c :
  flow o x tp c → writes F tp tp' → Forall (λ f, ¬ F f) (rcv_adv :: rcv_nxt :: vital) → flow o x tp' (set_tp (Some tp') c).
Proof. intros [A B C D] Hw Hf. constructor; try done. by apply (early_writes F tp). Qed.

Lemma flow_tp o x tp c : flow o x tp c → c_tp c = Some tp.
Proof. intros H. apply H. Qed.

(** The segment, its window known. *)
Definition placed (x : locals) (c : conn) : Prop :=
  ∃ tp, flow o0 x tp c ∧ ti_len x = ti_len x0 ∧ tp rcv_wnd = rwnd.

Lemma paws_ok x c : windowed x c → wp (paws e x) c (goes placed).
Proof.
  intros (tp & H & Hl & Hts & Hw). unfold paws. apply wp_bind. eapply wp_get_tp; [by apply (flow_tp o0 x)|].
  destruct (_ && _) eqn:E; [|apply wp_ret; by exists tp]. rewrite !andb_true_iff in E. destruct E as (((_ & _) & E3) & E4).
  destruct (_ <? _).
  - apply wp_bind, wp_put_tp, wp_ret. exists (wr ts_recent 0 tp). split; [|split; [done|by tsimpl]].
    apply (flow_writes (λ f, f = ts_recent) _ _ tp); [done|writes|by repeat constructor].
  - apply wp_ret. destruct (Hts E3) as [?|E5]; [|by rewrite E5 in E4].
    apply (flow_leave o0 _ tp); [done|left; unfold may_refuse; tauto|left; unfold may_ignore; tauto|done].
Qed.

Lemma slice_take o n k : 0 <= k <= n → take (Z.to_nat (n - k)) (slice o n) = slice o (n - k).
Proof.
  intros H. replace n with ((n - k) + k) at 2 by lia. rewrite <- TcpReass.slice_app by lia.
  apply take_app_length'. pose proof (TcpReass.slice_length f o (n - k)). lia.
Qed.

(** [d] bytes come off the front. *)
Lemma cut_front_ok o x tp c d :
  flow o x tp c → 0 <= d <= ti_len x →
  wp (cut_front x d) c (goes (λ x' c', c' = c ∧ flow (o + d) x' tp c ∧ ti_len x' = ti_len x - d ∧
    (has_flag x' TH_FIN = true → has_flag x TH_FIN = true))).
Proof.
  intros [A B C D] Hd. unfold cut_front, adj. destruct (m_adj_bytes (c_ms c) (m x) d C) as (p & -> & Hp & Hb).
  rewrite (proj2 (Z.leb_le _ _)), D, TcpReass.slice_drop in Hb by lia. apply wp_bind, wp_bind. cbn [lift]. apply wp_ret, wp_ret, wp_ret. simpl.
  pose proof (h_len _ _ B) as Hl. set (y := set_len (ti_len x - d) (set_seq (ti_seq x + d) (set_m p x))).
  assert (Hy : hdr (o + d) y ∧ ti_len y = ti_len x - d).
  { assert (ti_len y = ti_len x - d) as Hy by (apply s16_id; unfold is_s16; lia). split; [|done].
    destruct B as [B1 B2 B3 B4 B5 B6 B7 B8 B9 B10 B11 B12 B13 B14]. constructor; rewrite ?Hy; try done; try lia.
    - simpl. rewrite B1. clear. wraplia.
    - intros Hf. specialize (B5 Hf). lia. }
  destruct Hy as [Hy Hyl]. change (ti_urp x) with (ti_urp y). destruct (_ <? _).
  - split; [done|]. split; [|by split]. constructor; try done; [by apply (hdr_same (o + d) y)|]. simpl. by rewrite Hb, s16_id by (unfold is_s16; lia).
  - split; [done|]. split; [|split; [done|by apply fl_clear]].
    constructor; try done; [|simpl; by rewrite Hb, s16_id by (unfold is_s16; lia)].
    by apply (hdr_same (o + d) (clear_flag TH_URG y)); [apply hdr_clear|..].
Qed.

(** [d] bytes come off the end, of a segment without a FIN. *)
Lemma cut_back_ok o x tp c d :
  flow o x tp c → 0 <= d <= ti_len x → fl (ti_flags x0) TH_FIN = false →
  wp (cut_back x d) c (goes (λ x' c', c' = c ∧ flow o x' tp c ∧ ti_len x' = ti_len x - d ∧ has_flag x' TH_FIN = false)).
Proof.
  intros [A B C D] Hd Hf. unfold cut_back, adj. destruct (m_adj_bytes (c_ms c) (m x) (- d) C) as (p & -> & Hp & Hb).
  pose proof (h_len _ _ B) as Hl. assert (Hb' : Mbuf.bytes (c_ms c) p = slice o (ti_len x - d)).
  { rewrite Hb, D. pose proof (TcpReass.slice_length f o (ti_len x)). destruct (Z.leb_spec 0 (- d)).
    - replace d with 0 by lia. simpl. by rewrite drop_0, Z.sub_0_r.
    - rewrite <- slice_take by lia. f_equal. lia. }
  apply wp_bind, wp_bind. cbn [lift]. apply wp_ret, wp_ret, wp_ret. simpl. set (y := set_len (ti_len x - d) (set_m p x)).
  assert (Hyl : ti_len y = ti_len x - d) by (apply s16_id; unfold is_s16; lia).
  split; [done|]. split; [|split; [done|by apply fl_cleared]]. constructor; try done; [|simpl; by rewrite Hb', s16_id by (unfold is_s16; lia)].
  apply hdr_clear; [|done|done].
  destruct B as [B1 B2 B3 B4 B5 B6 B7 B8 B9 B10 B11 B12 B13 B14]. constructor; rewrite ?Hyl; try done; try lia. congruence.
Qed.

(** After the trimming on the left. *)
Definition begun (x : locals) (c : conn) : Prop :=
  ∃ o tp, flow o x tp c ∧ o + ti_len x = o0 + ti_len x0 ∧ tp rcv_wnd = rwnd ∧ trimmed o x ∧ keeps o x.

Lemma trim_left_ok x c : placed x c → wp (trim_left x) c (goes begun).
Proof.
  intros (tp & H & Hl & Hw). pose proof H as [He Hh _ _]. destruct (early_nxt _ _ He) as [Hn Hb].
  pose proof (h_near _ _ Hh). pose proof (h_end _ _ Hh). pose proof (h_len _ _ Hh). pose proof (h_data _ _ Hh) as Hd.
  unfold W, TcpReass.W in *. unfold trim_left. apply wp_bind. eapply wp_get_tp; [by apply (flow_tp o0 x)|].
  rewrite Hn, (h_seq _ _ Hh), TcpReass.seq_pos by lia. cbv zeta. set (todrop := r0 + b0 - o0).
  destruct (Z.ltb_spec 0 todrop) as [Ht|Ht]; simpl negb; cbv iota.
  2: { apply wp_ret. exists o0, tp. split_and!; [done|lia|done|unfold trimmed; lia|]. unfold keeps, news. rewrite Hl. lia. }
  unfold skip_syn. rewrite (hdr_nosyn _ _ Hh). destruct (Z.leb_spec (ti_len x) todrop) as [Hle|Hlt].
  - destruct (has_flag x TH_FIN && _) eqn:Ef.
    + apply andb_true_iff in Ef as [Ef1 Ef2]. zbool. apply wp_bind, wp_put_tp. set (c' := set_tp _ c).
      assert (H' : flow o0 (clear_flag TH_FIN x) (set_tflag TF_ACKNOW tp) c').
      { destruct H as [_ _ C D]. constructor; try done; [by apply early_acknow|by apply hdr_clear]. }
      eapply wp_mono; [apply (cut_front_ok o0 _ (set_tflag TF_ACKNOW tp)); [exact H'|simpl; lia]|].
      intros [x'|l x'] c'' Hg; [|exact Hg]. destruct Hg as (-> & G1 & G2 & G3). simpl in G2, G3.
      exists (o0 + ti_len x), (set_tflag TF_ACKNOW tp). split_and!; [exact G1|lia|unfold set_tflag; by tsimpl| |].
      * intros [?|Hf%G3]; [lia|]. unfold has_flag in Hf. simpl in Hf. by rewrite fl_cleared in Hf.
      * right. left. unfold news. rewrite <- Hl. lia.
    + rewrite (proj2 (Z.eqb_neq todrop 0)) by lia. cbn [negb orb]. apply wp_ret. apply (flow_leave o0 _ tp); [done|right|right; left|done].
      * unfold news. rewrite <- Hl. lia.
      * unfold timely. rewrite <- Hl. lia.
  - eapply wp_mono; [apply (cut_front_ok o0 _ tp); [done|lia]|]. intros [x'|l x'] c'' Hg; [|exact Hg]. destruct Hg as (-> & G1 & G2 & G3).
    exists (o0 + todrop), tp. split_and!; [exact G1|lia|done|unfold trimmed; lia|]. unfold keeps, news. rewrite <- Hl. lia.
Qed.

(** ** Closing *)

Lemma free_queue_ok s0 q : ∀ s,
  Mbuf.same_store s0 s → Forall (λ t : queued, pkt_ok s0 (TcpReass.ti_m t)) q → wp (free_queue q) s (λ _ s', Mbuf.same_store s0 s').
Proof.
  induction q as [|t q IH]; intros s Hs Hq; [by apply wp_ret|]. inversion_clear Hq. simpl. apply wp_bind.
  eapply wp_mono; [by apply m_freem_ok, (pkt_ok_store s0)|]. intros [] s' Hs'. apply IH; [by etrans|done].
Qed.

Lemma save_metrics_ok tp rt : tp t_maxseg ≠ 0 → ∃ rt', save_metrics e tp rt = Some rt'.
Proof.
  intros Hm. unfold save_metrics. destruct (_ =? 0), (_ =? 0); cbv beta iota; destruct (_ || _); try (by eexists);
    rewrite (proj2 (Z.eqb_neq _ _) Hm); by eexists.
Qed.

Lemma tcp_close_ok tp c :
  c_tp c = Some tp → tp t_maxseg ≠ 0 → Forall (λ t, pkt_ok (c_ms c) (TcpReass.ti_m t)) (c_q c) →
  wp (tcp_close e) c (λ _ c', c_tp c' = None ∧ Mbuf.same_store (c_ms c) (c_ms c')).
Proof.
  intros Ht Hm Hq. unfold tcp_close. apply wp_bind. eapply wp_get_tp; [done|]. apply wp_bind, wp_get, wp_bind.
  eapply (wp_mono _ _ (λ _ c', c' = c)).
  { destruct (c_route c) as [rt|]; [|by apply wp_ret]. destruct (_ && _); [|by apply wp_ret].
    destruct (save_metrics_ok tp rt Hm) as (rt' & ->). by apply wp_ret. }
  intros rt c' ->. apply wp_bind, wp_modify, wp_bind, wp_low. eapply wp_mono; [by apply (free_queue_ok (c_ms c))|].
  intros [] s Hs. repeat first [apply wp_bind, wp_modify | apply wp_bind, wp_mod_so | apply wp_modify]. done.
Qed.

Lemma ordered_ok s lo hi q :
  @TcpReass.ordered _ (mbuf_payload s) f base fin lo hi q → Forall (λ t, pkt_ok s (TcpReass.ti_m t)) q.*2.
Proof.
  revert lo; induction q as [|[o t] q IH]; intros lo; [constructor|]. intros (_ & (_ & _ & H & _) & Hq). constructor; [exact H|by eapply IH].
Qed.

(** A connection in order can be closed, whatever its state. *)
Lemma close_ok b r q tp tp' so c :
  conn_ok b r q tp c → tp' t_maxseg = tp t_maxseg → may_close →
  wp (tcp_close e) (set_so so (set_tp (Some tp') c)) (λ _ c', final c' ∧ c_tp c' = None ∧ Mbuf.same_store (c_ms c) (c_ms c')).
Proof.
  intros H Hm Hc. eapply wp_mono; [apply (tcp_close_ok tp')|].
  - done.
  - rewrite Hm. pose proof (ok_maxseg _ _ (se_ok _ _ (co_send _ _ _ _ _ _ _ _ H))). unfold TCPOLEN_TSTAMP_APPA, TCPOLEN_TIMESTAMP in *. lia.
  - simpl. rewrite (co_q _ _ _ _ _ _ _ _ H). destruct (co_recv _ _ _ _ _ _ _ _ H) as ((_ & _ & Ho) & _). by eapply ordered_ok.
  - intros [] c' [A B]. split; [by left|done].
Qed.

Lemma set_same tp c : c_tp c = Some tp → set_so (c_so c) (set_tp (Some tp) c) = c.
Proof. intros H. destruct c. simpl in *. by subst. Qed.

Lemma nobody_ok x c : begun x c → wp (nobody e x) c (goes begun).
Proof.
  intros (o & tp & H & Hr). unfold nobody. apply wp_bind. eapply wp_get_tp; [by apply (flow_tp o x)|]. apply wp_bind, wp_get_so.
  destruct (_ && _) eqn:E; [|apply wp_ret; by exists o, tp]. rewrite !andb_true_iff in E. destruct E as ((E & _) & _).
  destruct H as [[A B C] D F _]. rewrite C in E. apply wp_bind. rewrite <- (set_same tp c) at 1 by apply A.
  eapply wp_mono; [apply (close_ok b0 r0 q0 tp); [apply A|done|by right; right]|].
  intros [] c' (F1 & F2 & F3). apply wp_ret. split_and!; try done; [by apply (pkt_ok_store (c_ms c))|apply D].
Qed.

(** After the trimming on the right. *)
Definition cut (x : locals) (c : conn) : Prop := ∃ o tp, flow o x tp c ∧ trimmed o x ∧ keeps o x.

Lemma trim_right_ok x c : arriving → begun x c → wp (trim_right e x) c (goes cut).
Proof.
  intros Hin (o & tp & H & Hl & Hw & Ht & Hk). pose proof H as [He Hh _ _]. destruct (early_nxt _ _ He) as [Hn Hb].
  pose proof (h_near _ _ Hh). pose proof (h_end _ _ Hh). pose proof (h_len _ _ Hh). unfold W, TcpReass.W in *.
  assert (Hwr : is_u32 rwnd).
  { unfold rwnd. pose proof (u32_range (Z.max 0 (Sockbuf.sbspace (rcvbuf c0)))). pose proof (u32_range (tp0 rcv_adv - tp0 rcv_nxt)). unfold is_u32 in *. lia. }
  unfold trim_right. apply wp_bind. eapply wp_get_tp; [by apply (flow_tp o x)|]. rewrite Hn, Hw, (h_seq _ _ Hh).
  set (todrop := s32 _).
  assert (Htd : todrop = s32 (o + ti_len x - (r0 + b0 + rwnd))) by (unfold todrop; clear; wraplia). clearbody todrop.
  destruct (Z.ltb_spec 0 todrop) as [Hpos|Hpos]; simpl negb; cbv iota; [|apply wp_ret; by exists o, tp].
  assert (Href : may_refuse ∧ may_ignore ∧ fl (ti_flags x0) TH_FIN = false).
  { assert (W <= rwnd ∨ r0 + b0 + rwnd < o0 + ti_len x0) as Hr.
    { destruct (Z.le_gt_cases W rwnd) as [?|Hlt]; [by left|right]. unfold W, TcpReass.W in *. rewrite <- Hl.
      destruct (Z.le_gt_cases (o + ti_len x) (r0 + b0 + rwnd)) as [Hle|?]; [|lia].
      rewrite s32_id in Htd by (unfold is_s32, is_u32 in *; lia). lia. }
    split; [unfold may_refuse; tauto|]. split; [unfold may_ignore; tauto|]. apply not_true_iff_false. intros Hf. destruct (ar_fits Hin Hf). unfold W, TcpReass.W in *. lia. }
  destruct Href as (Href & Hig & Hnf).
  assert (Hcut : ∀ tp' c' d, flow o x tp' c' → 0 <= d <= ti_len x → wp (cut_back x d) c' (goes cut)).
  { intros tp' c' d H' Hd. eapply wp_mono; [by apply (cut_back_ok o _ tp')|]. intros [x'|l x'] c'' Hg; [|exact Hg].
    destruct Hg as (-> & G1 & G2 & G3). exists o, tp'. split; [done|]. split; [|by left].
    unfold trimmed in *. rewrite G2, G3. intros [?|?]; [apply Ht; left; lia|done]. }
  destruct (Z.leb_spec (ti_len x) todrop).
  - rewrite (hdr_nosyn _ _ Hh). cbn [andb]. destruct (_ && _) eqn:E; [|apply wp_ret; apply (flow_leave o _ tp); [done|by left|by left|done]].
    apply andb_true_iff in E as [E1 E2]. rewrite TcpReass.seq_same in E2 by lia. zbool. apply wp_bind, wp_put_tp.
    apply (Hcut (set_tflag TF_ACKNOW tp)); [destruct H; constructor; try done; by apply early_acknow|].
    rewrite E1, E2 in Htd. rewrite s32_id in Htd by (unfold is_s32; lia). lia.
  - by apply (Hcut tp); [|lia].
Qed.

Lemma record_ts_ok x c : cut x c → wp (record_ts e x) c (goes cut).
Proof.
  intros (o & tp & H & Hr). unfold record_ts. apply wp_bind. eapply wp_mod_tp; [by apply (flow_tp o x)|]. apply wp_ret. eexists o, _. split; [|done].
  apply (flow_writes (λ f, f = ts_recent ∨ f = ts_recent_age) _ _ tp); [done|writes|]. repeat constructor; by intros [|].
Qed.

(** ** RST, SYN and ACK *)

Lemma check_rst_ok x c : cut x c → wp (check_rst e x) c (goes cut).
Proof.
  intros (o & tp & H & Hr). unfold check_rst. destruct (has_flag x TH_RST) eqn:E; cbn [negb]; cbv iota; [|apply wp_ret; by exists o, tp].
  destruct H as [[A B C] D F G]. rewrite (h_rst _ _ D) in E.
  assert (Hend : ∀ tp' so, tp' t_maxseg = tp t_maxseg →
    wp (let! _ := tcp_close e in goto Ldrop x) (set_so so (set_tp (Some tp') c)) (goes cut)).
  { intros tp' so Hm. apply wp_bind. eapply wp_mono; [apply (close_ok b0 r0 q0 tp); [apply A|done|by left]|].
    intros [] c' (F1 & F2 & F3). apply wp_ret. split_and!; try done; [by apply (pkt_ok_store (c_ms c))|apply D]. }
  assert (Hreset : ∀ err, wp (reset_by e err x) c (goes cut)).
  { intros err. unfold reset_by. apply wp_bind, wp_mod_so, wp_bind. eapply wp_mod_tp; [apply A|].
    apply (Hend (wr t_state TCPS_CLOSED tp) (with_error err (c_so c))). by tsimpl. }
  apply wp_bind. eapply wp_get_tp; [apply A|]. destruct (_ =? TCPS_SYN_RECEIVED); [apply Hreset|].
  destruct (_ || _ || _ || _); [apply Hreset|]. destruct (_ || _ || _).
  - rewrite <- (set_same tp c) by apply A. by apply Hend.
  - apply wp_ret. by exists o, tp.
Qed.

Lemma check_syn_ok x c : cut x c → wp (check_syn e x) c (goes cut).
Proof.
  intros H. pose proof H as (o & tp & Hf & _). unfold check_syn. rewrite (hdr_nosyn _ _ (fw_hdr _ _ _ _ Hf)). by apply wp_ret.
Qed.

Lemma need_ack_ok x c : cut x c → wp (need_ack x) c (goes cut).
Proof.
  intros H. pose proof H as (o & tp & Hf & _). unfold need_ack. destruct (has_flag x TH_ACK) eqn:E; [by apply wp_ret|].
  rewrite (h_ackf _ _ (fw_hdr _ _ _ _ Hf)) in E.
  apply wp_ret. apply (flow_leave o _ tp); [done|left; unfold may_refuse; tauto|left; unfold may_ignore; tauto|done].
Qed.

Lemma ack_syn_ok x c : cut x c → wp (ack_syn x) c (goes cut).
Proof.
  intros H. pose proof H as (o & tp & Hf & _). unfold ack_syn. apply wp_bind. eapply wp_get_tp; [by apply (flow_tp o x)|].
  destruct (early_synced _ _ (fw_early _ _ _ _ Hf)) as [_ Hs]. unfold TCPS_ESTABLISHED in Hs.
  rewrite (proj2 (Z.eqb_neq _ _)) by (unfold TCPS_SYN_RECEIVED; lia). by apply wp_ret.
Qed.

(** ** Acknowledgements *)

(** The fields the send side needs when only its position or its window moves. *)
Definition steady : list tfield := [t_state; snd_una; snd_max; t_maxseg; t_flags; snd_scale; rcv_nxt].

Lemma inv_move b r q tp tp' c :
  inv b r q tp c → typed tp' → (∀ g, g ∈ steady → tp' g = tp g) → 0 <= tp' snd_cwnd < 2147483648 →
  0 <= off_of tp' <= max_of tp → inv b r q tp' (set_tp (Some tp') c).
Proof.
  intros H Ht Hs Hc Ho. unfold steady in Hs. pose proof (in_ok _ _ _ _ _ H) as Hok.
  assert (Hf : ∀ k, tflag tp' k = tflag tp k) by (intros k; unfold tflag; by rewrite (Hs t_flags) by (repeat constructor)).
  assert (Hfs : fin_state tp' = fin_state tp) by (unfold fin_state; by rewrite (Hs t_state) by (repeat constructor)).
  assert (Hmx : max_of tp' = max_of tp) by (unfold max_of; by rewrite (Hs snd_max), (Hs snd_una) by (repeat constructor)).
  apply (inv_tp b r q tp); [done| |apply Hs; repeat constructor].
  apply (conn_tp f base fin b r q tp); [done| |apply (receiving_nxt f base fin _ _ _ _ tp); [apply Hs; repeat constructor..|apply Hok]].
  destruct (co_send _ _ _ _ _ _ _ _ Hok) as [A B C D E]. destruct A as [A1 A2 A3 A4 A5 A6 A7 A8 A9 A10 A11 A12].
  constructor; try done; [|by rewrite Hf, (Hs t_state) by (repeat constructor)|by rewrite (Hs snd_scale) by (repeat constructor)].
  constructor; rewrite ?Hmx, ?Hf, ?Hfs; try done;
    try (rewrite Hs by (by repeat first [left; done|right]); done); try (rewrite <- Ht; apply u32_range).
  unfold tstamps. rewrite Hf, (Hs t_flags) by (repeat constructor). done.
Qed.

(** [inv_move] for assignments to other fields. *)
Lemma inv_moves F b r q tp tp' c :
  inv b r q tp c → writes F tp tp' → Forall (λ f, ¬ F f) steady → 0 <= tp' snd_cwnd < 2147483648 →
  0 <= off_of tp' <= max_of tp → inv b r q tp' (set_tp (Some tp') c).
Proof.
  intros H Hw Hf. rewrite Forall_forall in Hf. apply inv_move; [done| |].
  - apply (writes_typed _ _ _ Hw). apply (in_ok _ _ _ _ _ H).
  - intros g Hg. apply (writes_frame _ _ _ _ Hw). by apply Hf.
Qed.

(** What later stages need: the segment, and whether it may still be refused. *)
Definition acked (x : locals) (c : conn) : Prop :=
  ∃ o tp, inv b0 r0 q0 tp c ∧ hdr o x ∧ pkt_ok (c_ms c) (m x) ∧ Mbuf.bytes (c_ms c) (m x) = slice o (ti_len x) ∧
    trimmed o x ∧ keeps o x ∧ (TCPS_TIME_WAIT <= tp t_state → may_refuse) ∧
    (sflag (c_so c) SS_CANTRCVMORE = sflag (c_so c0) SS_CANTRCVMORE ∨ TCPS_TIME_WAIT <= tp t_state) ∧ settled tp.

Lemma late_state s : TCPS_TIME_WAIT <= s → tp0 t_state = s → may_refuse.
Proof. intros H <-. unfold may_refuse, TCPS_TIME_WAIT, TCPS_ESTABLISHED, TCPS_FIN_WAIT_1, TCPS_FIN_WAIT_2 in *. lia. Qed.

(** An acknowledgement without effect on the send buffer. *)
Lemma still_acked o x x' tp c tp' :
  flow o x tp c → trimmed o x → keeps o x → inv b0 r0 q0 tp' (set_tp (Some tp') c) → tp' t_state = tp t_state →
  hdr o x' → m x' = m x → ti_len x' = ti_len x → tiflags x' = tiflags x → idle → acked x' (set_tp (Some tp') c).
Proof.
  intros [A B C D] Ht Hk Hi Hst Hh Hm Hl Hf Hid. exists o, tp'. rewrite Hm, Hl. split_and!; try done.
  - unfold trimmed, has_flag in *. by rewrite Hl, Hf.
  - unfold keeps in *. by rewrite Hl.
  - rewrite Hst. intros Hs. apply (late_state _ Hs). by destruct (early_synced _ _ A).
  - left. simpl. by rewrite (ea_so _ _ A).
  - by apply idle_settled.
Qed.

Lemma keeps_empty o x : keeps o x → ti_len x = 0 → may_refuse ∨ (news → o0 + ti_len x0 <= r0).
Proof.
  clear f base. unfold keeps, news. intros [H|[H|H]] Hl; [by left|right; tauto|right; lia].
Qed.

(** The retransmission: [snd_nxt] goes back for one segment and returns. *)
Definition rexmit_field (f : tfield) : Prop :=
  match f with snd_ssthresh | t_rtt | t_timer _ | snd_nxt | snd_cwnd => True | _ => False end.

Lemma fast_retransmit_ok o x tp c :
  arriving → flow o x tp c → keeps o x → ti_len x = 0 → ti_ack x = tp snd_una → tp t_dupacks = tcprexmtthresh →
  inv b0 r0 q0 tp (set_tp (Some tp) c) → idle → wp (fast_retransmit e x tp) c (goes acked).
Proof.
  intros Hin Hfl Hk Hl Hack Hdup Hi Hid. pose proof (in_ok _ _ _ _ _ Hi) as Hc. pose proof (co_send _ _ _ _ _ _ _ _ Hc) as Hse.
  pose proof (se_ok _ _ Hse) as Hok. pose proof (ok_maxseg _ _ Hok) as Hms. unfold TCPOLEN_TSTAMP_APPA, TCPOLEN_TIMESTAMP in Hms.
  pose proof (ok_order _ _ Hok) as Hord. pose proof (ok_cwnd _ _ Hok) as Hcw. pose proof (ok_wnd _ _ Hok) as Hwn.
  unfold fast_retransmit. rewrite (proj2 (Z.eqb_neq (tp t_maxseg) 0)) by lia. cbv zeta.
  set (win := if _ <? 2 then 2 else _).
  assert (Hwin : 0 <= win * tp t_maxseg < 1073741824 + 131072).
  { unfold win. set (h := Z.min _ _ / 2). assert (0 <= h < 1073741824) by (unfold h, is_u32 in *; split; [apply Z.div_pos; lia|apply Z.div_lt_upper_bound; lia]).
    pose proof (Z.mul_div_le h (tp t_maxseg)). assert (0 <= h / tp t_maxseg) by (apply Z.div_pos; lia).
    destruct (Z.ltb_spec (h / tp t_maxseg) 2); nia. }
  clearbody win. apply wp_bind, wp_put_tp.
  match goal with |- wp _ (set_tp (Some ?t) _) _ => set (tp1 := t) end.
  assert (W1 : writes rexmit_field tp tp1) by (unfold tp1; writes).
  assert (H1 : inv b0 r0 q0 tp1 (set_tp (Some tp1) c)).
  { apply (inv_moves rexmit_field _ _ _ tp _ (set_tp (Some tp) c) Hi W1); [fields|..].
    - unfold tp1. tsimpl. rewrite u32_id; unfold is_u32; lia.
    - unfold off_of, tp1. tsimpl. rewrite Hack. replace (s32 _) with 0 by (clear; wraplia). lia. }
  apply wp_bind. eapply wp_mono; [by apply (inv_output b0 r0 q0 tp1); [apply Hin|]|].
  intros er c' (tp2 & H2 & [W2 _] & Hmx & Hms2 & Hso2). apply wp_bind. eapply wp_get_tp; [apply H2|].
  assert (Hf : ∀ g, ¬ sync_field g → tp2 g = tp1 g) by (intros g; by apply writes_frame).
  assert (Hf1 : ∀ g, ¬ rexmit_field g → tp1 g = tp g) by (intros g; by apply writes_frame).
  apply wp_bind, wp_put_tp, wp_ret. match goal with |- goes _ _ (set_tp (Some ?t) _) => set (tp3 := t) end.
  assert (Hmax : max_of tp <= max_of tp2).
  { etrans; [|exact Hmx]. unfold max_of. by rewrite !Hf1 by (simpl; tauto). }
  assert (H3 : inv b0 r0 q0 tp3 (set_tp (Some tp3) c')).
  { apply (inv_moves rexmit_field _ _ _ tp2); [done|unfold tp3; writes|fields|..].
    - replace (tp3 snd_cwnd) with (u32 (tp2 snd_ssthresh + tp2 t_maxseg * tp2 t_dupacks)) by (unfold tp3; destruct (SEQ_GT _ _); by tsimpl).
      rewrite !Hf, (Hf1 t_maxseg), (Hf1 t_dupacks), Hdup by (simpl; tauto). unfold tp1. tsimpl. unfold tcprexmtthresh.
      rewrite (u32_id (win * _)) by (unfold is_u32; lia). rewrite u32_id; unfold is_u32; lia.
    - pose proof (ok_order _ _ (se_ok _ _ (co_send _ _ _ _ _ _ _ _ (in_ok _ _ _ _ _ H2)))) as Hord2.
      assert (tp3 snd_una = tp2 snd_una) as Hu3 by (unfold tp3; destruct (SEQ_GT _ _); by tsimpl).
      assert (tp2 snd_una = tp snd_una) as Hu2 by (rewrite Hf, Hf1 by (simpl; tauto); done).
      unfold off_of. rewrite Hu3. unfold tp3. destruct (SEQ_GT _ _); tsimpl; [|by fold (off_of tp2)]. rewrite Hu2, u32_id by apply Hok. fold (off_of tp). lia. }
  split_and!; [|simpl; rewrite Hms2; apply Hfl|apply Hfl|done].
  eapply final_inv; [exact H3|by eapply keeps_empty|by apply idle_settled].
Qed.

Lemma duplicate_ack_ok o x tp c :
  arriving → flow o x tp c → trimmed o x → keeps o x → idle → wp (duplicate_ack e x tp) c (goes acked).
Proof.
  intros Hin Hfl Ht Hk Hid. pose proof Hfl as [He Hh Hp Hb]. pose proof (ea_inv _ _ He) as Hi.
  pose proof (se_ok _ _ (co_send _ _ _ _ _ _ _ _ (in_ok _ _ _ _ _ Hi))) as Hok.
  assert (Hd : ∀ v, inv b0 r0 q0 (wr t_dupacks v tp) (set_tp (Some (wr t_dupacks v tp)) c)).
  { intros v. apply (inv_writes (λ f, f = t_dupacks) _ _ _ tp); [done|writes|by repeat constructor]. }
  assert (Hfall : ∀ v, wp (do! put_tp (wr t_dupacks v tp) in fall x) c (goes acked)).
  { intros v. by apply wp_bind, wp_put_tp, wp_ret, (still_acked o x x tp). }
  unfold duplicate_ack. destruct (_ && _) eqn:E1; [|apply Hfall].
  apply andb_true_iff in E1 as [E1 _]. zbool. destruct (_ || _) eqn:E2; [apply Hfall|].
  apply orb_false_iff in E2 as [_ E2]. zbool. set (tp1 := wr t_dupacks _ tp) in *. specialize (Hd (tp t_dupacks + 1)). fold tp1 in Hd.
  destruct (Z.eqb_spec (tp1 t_dupacks) tcprexmtthresh) as [E3|E3].
  { assert (Hfl1 : flow o x tp1 (set_tp (Some tp1) c)).
    { apply (flow_writes (λ f, f = t_dupacks) _ _ tp); [done|unfold tp1; writes|by repeat constructor]. }
    assert (H : wp (fast_retransmit e x tp1) (set_tp (Some tp1) c) (goes acked)).
    { by apply (fast_retransmit_ok o). }
    unfold fast_retransmit in *. destruct (_ =? 0); [done|]. exact H. }
  destruct (_ <? _); [|apply Hfall].
  apply wp_bind, wp_put_tp. set (tp2 := wr snd_cwnd _ tp1).
  assert (H2 : inv b0 r0 q0 tp2 (set_tp (Some tp2) c)).
  { apply (inv_moves rexmit_field _ _ _ tp1 _ (set_tp (Some tp1) c)); [done|unfold tp2; writes|fields|..].
    - pose proof (ar_room Hin) as Hr. rewrite <- (ea_same _ _ He snd_cwnd), <- (ea_same _ _ He t_maxseg) in Hr by (by repeat first [left; done|right]).
      pose proof (ok_cwnd _ _ Hok). pose proof (ok_maxseg _ _ Hok). unfold TCPOLEN_TSTAMP_APPA, TCPOLEN_TIMESTAMP in *.
      unfold tp2, tp1. tsimpl. rewrite u32_id; unfold is_u32; lia.
    - unfold off_of, max_of, tp2, tp1. tsimpl. apply Hok. }
  apply wp_bind. eapply wp_mono; [by apply (inv_output b0 r0 q0 tp2); [apply Hin|]|]. intros er c' (tp3 & H3 & _ & _ & Hms & _).
  apply wp_ret. split_and!; [|by rewrite Hms|apply Hh|done]. eapply final_inv; [exact H3|by eapply keeps_empty|by apply idle_settled].
Qed.

Definition ackwin_field (f : tfield) : Prop := match f with snd_wnd | snd_una | snd_nxt => True | _ => False end.
Definition state_field (f : tfield) : Prop := match f with t_state | t_timer _ => True | _ => False end.

(** The states a connection may be in once [a] of [cc] and a FIN are acknowledged. *)
Definition next_state (a cc : Z) (tp tp' : tcpcb) : Prop :=
  TCPS_ESTABLISHED <= tp' t_state <= TCPS_TIME_WAIT ∧ (fin_state tp' = true → fin_state tp = true ∧ a <= cc) ∧
  (tp' t_state <= TCPS_CLOSE_WAIT → tp t_state = tp' t_state).

Lemma drop_acked_ok x tp c a :
  arriving → unacked tp c → ti_ack x = ti_ack x0 → a = s32 (ti_ack x0 - tp snd_una) → 0 < a <= max_of tp →
  let cc := snd_cc (so_buf (c_so c)) in
  wp (drop_acked x a) c (λ our c', ∃ tp', our = (cc <? a) ∧ c_tp c' = Some tp' ∧ (writes ackwin_field tp tp' ∧ tp' snd_una = ti_ack x0) ∧
    c_q c' = c_q c ∧ so_state (c_so c') = so_state (c_so c) ∧ Mbuf.same_store (c_ms c) (c_ms c') ∧
    (∀ tp'', writes state_field tp' tp'' → next_state a cc tp tp'' → inv b0 r0 q0 tp'' (set_tp (Some tp'') c'))).
Proof.
  intros Hin Hun Hack Ha Hr cc. pose proof (in_ok _ _ _ _ _ (un_inv _ _ Hun)) as Hc. pose proof (co_send _ _ _ _ _ _ _ _ Hc) as Hse.
  pose proof (se_ok _ _ Hse) as Hok. pose proof (ok_cc _ _ Hok) as Hcc. pose proof (ok_data _ _ Hok) as Hd. fold cc in Hcc, Hd.
  assert (b2z (tflag tp TF_SENTFIN) <= 1) by (unfold b2z; destruct (tflag tp _); lia).
  destruct (ack_SEQ tp a (ar_ack Hin) (ok_una _ _ Hok) Ha Hr) as (K1 & _ & K3); [lia|].
  unfold drop_acked. apply wp_bind. eapply wp_get_tp; [apply Hc|]. apply wp_bind, wp_get_so. fold cc. rewrite u32_id by (unfold is_u32; lia).
  apply wp_bind. eapply (wp_mono _ _ (λ our c', ∃ s sb v, our = (cc <? a) ∧
    c' = set_tp (Some (wr snd_wnd v tp)) (set_so (with_buf (Sock sb (rcvbuf c)) (c_so c)) (set_ms s c)) ∧
    Mbuf.same_store (c_ms c) s ∧ Sockbuf.sb_ok s sb ∧ Sockbuf.sb_bytes s sb = drop (Z.to_nat (Z.min a cc)) (sbytes c) ∧
    Sockbuf.sb_cc sb = cc - Z.min a cc ∧ Sockbuf.sb_cc sb = Mbuf.chain_len (Sockbuf.mbufs sb))).
  { destruct (Z.ltb_spec cc a).
    - rewrite Z.min_r by lia. apply wp_bind, wp_put_tp, wp_bind. rewrite s32_id by (unfold is_s32; lia).
      eapply wp_mono; [apply (snd_drop_ok cc); [apply Hc|apply Hse|simpl; fold cc; lia|simpl; fold cc; lia]|].
      intros [] c' (s & sb & -> & Hs). apply wp_ret. exists s, sb. eexists. split; [done|]. by split.
    - rewrite Z.min_l by lia. apply wp_bind.
      eapply wp_mono; [apply (snd_drop_ok a); [apply Hc|apply Hse|fold cc; lia|fold cc; lia]|].
      intros [] c' (s & sb & -> & Hs). apply wp_bind, wp_put_tp, wp_ret. exists s, sb. eexists. split; [done|]. by split. }
  intros our c1 (s & sb & v & -> & -> & Hs & Hsb & Hby & Hcc' & Hch). apply wp_bind, wp_get_so, wp_bind.
  set (so1 := with_buf _ _). set (tpw := wr snd_wnd v tp).
  eapply (wp_mono _ _ (λ _ c', ∃ so, c' = set_tp (Some tpw) (set_so so (set_ms s c)) ∧ same_data so1 so ∧ so_state so = so_state so1)).
  { destruct (ztrue _); [apply wp_mod_so|apply wp_ret]; eexists; (split; [done|]); [split; [apply sowwakeup_data|done]|done]. }
  intros [] c2 (so & -> & Hsd & Hss). apply wp_bind. eapply wp_mod_tp; [done|]. apply wp_ret.
  match goal with |- context [set_tp (Some ?t) (set_tp _ _)] => set (tp' := t) end.
  assert (Wt : writes ackwin_field tp tp') by (unfold tp', tpw; writes).
  assert (Hnx : tp' snd_una = ti_ack x0 ∧ tp' snd_nxt = (if off_of tp <? a then ti_ack x0 else tp snd_nxt)).
  { unfold tp', tpw. rewrite Hack. tsimpl. rewrite (u32_id (ti_ack x0)) by apply Hin.
    assert (SEQ_LT (tp snd_nxt) (ti_ack x0) = (off_of tp <? a)) as ->.
    { unfold SEQ_LT, off_of. pose proof (ok_order _ _ Hok) as Ho. unfold off_of in Ho.
      rewrite (s32_diff _ _ (tp snd_una)); rewrite <- Ha; [|unfold is_s32; lia]. apply Bool.eq_true_iff_eq. rewrite !Z.ltb_lt. lia. }
    destruct (_ <? _); tsimpl; rewrite ?(u32_id (ti_ack x0)) by apply Hin; done. }
  destruct Hnx as [Hu Hnx]. clearbody tp'. exists tp'. split_and!; try done.
  intros tp'' Wst (N1 & N2 & N3). apply (inv_data _ _ _ _ (set_tp (Some tp'') (set_so so1 (set_ms s c)))); [|exact Hsd].
  assert (Hf : ∀ g, ¬ ackwin_field g → ¬ state_field g → tp'' g = tp g).
  { intros g G1 G2. rewrite (writes_frame _ _ _ _ Wst G2). by apply (writes_frame _ _ _ _ Wt). }
  apply (inv_ack tp c a); try done; try apply Hin.
  - apply (writes_typed _ _ _ Wst), (writes_typed _ _ _ Wt), Hse.
  - by rewrite (writes_frame _ _ _ _ Wst) by (simpl; tauto).
  - rewrite Hf by (simpl; tauto). apply Hok.
  - by rewrite (writes_frame _ _ _ _ Wst) by (simpl; tauto).
  - intros g Hg. apply Hf; repeat (apply elem_of_cons in Hg as [-> |Hg]; [simpl; tauto|]); by apply elem_of_nil in Hg.
Qed.

Lemma disconnected_cant so : sflag (soisdisconnected so) SS_CANTRCVMORE = true.
Proof.
  unfold sflag, soisdisconnected, set_sflag, with_state. simpl. rewrite land_s16 by done.
  match goal with |- context [Z.lor ?a _] => generalize a end. intros z. unfold ztrue. apply negb_true_iff, Z.eqb_neq. intros E.
  assert (Z.testbit (Z.land (Z.lor z (Z.lor SS_CANTRCVMORE SS_CANTSENDMORE)) SS_CANTRCVMORE) 5 = false) as T by (by rewrite E).
  rewrite Z.land_spec, Z.lor_spec in T. change (Z.testbit (Z.lor SS_CANTRCVMORE SS_CANTSENDMORE) 5) with true in T.
  by rewrite orb_true_r in T.
Qed.

(** The segment whose acknowledgement is being processed. *)
Record pending (o : Z) (x : locals) (tp : tcpcb) (c : conn) : Prop := Pending
  { pe_un : unacked tp c; pe_hdr : hdr o x; pe_pkt : pkt_ok (c_ms c) (m x);
    pe_bytes : Mbuf.bytes (c_ms c) (m x) = slice o (ti_len x); pe_trim : trimmed o x; pe_keep : keeps o x;
    pe_state : tp t_state = tp0 t_state; pe_so : c_so c = c_so c0 }.

Lemma pending_acked o x tp c tp' c' :
  pending o x tp c → Mbuf.same_store (c_ms c) (c_ms c') → inv b0 r0 q0 tp' c' →
  (TCPS_TIME_WAIT <= tp' t_state → may_refuse) →
  (sflag (c_so c') SS_CANTRCVMORE = sflag (c_so c0) SS_CANTRCVMORE ∨ TCPS_TIME_WAIT <= tp' t_state) →
  tp' snd_una = ti_ack x0 → acked x c'.
Proof.
  intros [A B C D E F G H] Hs Hi Ht Hc Hu. exists o, tp'. split_and!; try done; [by apply (pkt_ok_store (c_ms c))| |by right].
  by rewrite (Mbuf.bytes_store (c_ms c) (c_ms c')).
Qed.

Lemma fin_state_iff tp :
  fin_state tp = true ↔ tp t_state = TCPS_FIN_WAIT_1 ∨ tp t_state = TCPS_CLOSING ∨ tp t_state = TCPS_LAST_ACK.
Proof. clear. unfold fin_state. rewrite !orb_true_iff, !Z.eqb_eq. tauto. Qed.

(** The state after an acknowledgement of [a] positions of [cc] and perhaps a FIN. *)
Lemma ack_fin_ok o x tp c a tp' c' :
  pending o x tp c → let cc := snd_cc (so_buf (c_so c)) in
  c_tp c' = Some tp' → writes ackwin_field tp tp' → tp' snd_una = ti_ack x0 → c_q c' = c_q c → so_state (c_so c') = so_state (c_so c) →
  Mbuf.same_store (c_ms c) (c_ms c') →
  (∀ tp'', writes state_field tp' tp'' → next_state a cc tp tp'' → inv b0 r0 q0 tp'' (set_tp (Some tp'') c')) →
  wp (ack_fin e x (cc <? a)) c' (goes acked).
Proof.
  intros Hp cc Htp Wt Hun Hq Hss Hs Hinv. pose proof (in_ok _ _ _ _ _ (un_inv _ _ (pe_un _ _ _ _ Hp))) as Hc.
  pose proof (ok_state _ _ (se_ok _ _ (co_send _ _ _ _ _ _ _ _ Hc))) as Hst. pose proof (pe_state _ _ _ _ Hp) as Hst0.
  assert (Hst' : tp' t_state = tp t_state) by (apply (writes_frame _ _ _ _ Wt); simpl; tauto).
  assert (Hcant : ∀ so, so_state so = so_state (c_so c') → sflag so SS_CANTRCVMORE = sflag (c_so c0) SS_CANTRCVMORE).
  { intros so E. unfold sflag. by rewrite E, Hss, (pe_so _ _ _ _ Hp). }
  assert (Hself : set_tp (Some tp') c' = c') by (clear - Htp; destruct c'; simpl in *; by subst).
  (* the state does not change *)
  assert (Hstay : (fin_state tp = true → a <= cc) → wp (fall x) c' (goes acked)).
  { intros Hf. assert (inv b0 r0 q0 tp' (set_tp (Some tp') c')) as Hi.
    { apply Hinv; [writes|]. split_and!; rewrite ?Hst'; try done; [apply Hst|apply Hst|].
      intros Hft. assert (fin_state tp = true) as Hft2 by (revert Hft; unfold fin_state; by rewrite Hst'). auto. }
    rewrite Hself in Hi. apply wp_ret, (pending_acked o x tp c tp'); try done; [|left; by apply Hcant].
    rewrite Hst', Hst0. intros H. by apply (late_state _ H). }
  (* the FIN is acknowledged *)
  assert (Hmove : ∀ v tp2, writes state_field tp' tp2 → tp2 t_state = v → v = TCPS_FIN_WAIT_2 ∨ v = TCPS_TIME_WAIT → inv b0 r0 q0 tp2 (set_tp (Some tp2) c')).
  { intros v tp2 W2 E2 Hv. apply Hinv; [done|]. unfold next_state. rewrite fin_state_iff, E2.
    destruct Hv as [-> | ->]; (split; [done|]); split; [by intros [|[|]]|done|by intros [|[|]]|done]. }
  assert (Hmu : ∀ tp2, writes state_field tp' tp2 → tp2 snd_una = ti_ack x0).
  { intros tp2 W2. rewrite <- Hun. apply (writes_frame _ _ _ _ W2). simpl. tauto. }
  unfold ack_fin. apply wp_bind. eapply wp_get_tp; [done|]. rewrite Hst'. cbv zeta.
  destruct (Z.eqb_spec (tp t_state) TCPS_FIN_WAIT_1) as [E1|E1].
  { destruct (Z.ltb_spec cc a) as [Hl|Hl]; [|by apply Hstay]. apply wp_bind, wp_get_so, wp_bind.
    eapply (wp_mono _ _ (λ _ c'', ∃ tp2 so2, c'' = set_so so2 (set_tp (Some tp2) c') ∧ writes state_field tp' tp2 ∧ same_data (c_so c') so2 ∧
      sflag so2 SS_CANTRCVMORE = sflag (c_so c0) SS_CANTRCVMORE)).
    - destruct (sflag (c_so c') SS_CANTRCVMORE) eqn:Ec; [apply wp_bind, wp_mod_so, wp_put_tp|apply wp_ret].
      + exists (wr (t_timer TCPT_2MSL) (e_maxidle e) tp'), (soisdisconnected (c_so c')). split; [done|]. split; [writes|]. split; [apply soisdisconnected_data|]. rewrite disconnected_cant, <- Ec. by apply Hcant.
      + exists tp', (c_so c'). split; [by rewrite set_same|]. split; [writes|]. split; [done|by apply Hcant].
    - intros [] c'' (tp2 & so2 & -> & W2 & Hsd & Hc2). apply wp_bind. eapply wp_mod_tp; [done|]. apply wp_ret.
      apply (pending_acked o x tp c (wr t_state TCPS_FIN_WAIT_2 tp2)); try done; [|by left|tsimpl; by apply Hmu].
      apply (inv_data _ _ _ _ (set_tp (Some (wr t_state TCPS_FIN_WAIT_2 tp2)) c')); [|done]. apply (Hmove TCPS_FIN_WAIT_2); [writes|by tsimpl|by left]. }
  destruct (Z.eqb_spec (tp t_state) TCPS_CLOSING) as [E2|E2].
  { destruct (Z.ltb_spec cc a) as [Hl|Hl]; [|by apply Hstay]. apply wp_bind, wp_put_tp, wp_bind, wp_mod_so, wp_ret.
    match goal with |- context [set_tp (Some ?t) c'] => set (tp2 := t) end.
    assert (W2 : writes state_field tp' tp2).
    { unfold tp2. apply writes_wr; [done|]. eapply writes_trans; [|eapply writes_mono; [|apply cancel_writes]; by intros []]. writes. }
    assert (E3 : tp2 t_state = TCPS_TIME_WAIT).
    { unfold tp2. tsimpl. rewrite (writes_frame _ _ _ _ (cancel_writes _)) by (simpl; tauto). by tsimpl. }
    clearbody tp2. apply (pending_acked o x tp c tp2); try done; [|intros _|right; by rewrite E3|by apply Hmu].
    - apply (inv_data _ _ _ _ (set_tp (Some tp2) c')); [|apply soisdisconnected_data]. by apply (Hmove TCPS_TIME_WAIT); [| |right].
    - rewrite Hst0 in E2. unfold may_refuse. rewrite E2. do 4 right. left. by intros [|[|]]. }
  destruct (Z.eqb_spec (tp t_state) TCPS_LAST_ACK) as [E3|E3].
  { destruct (Z.ltb_spec cc a) as [Hl|Hl]; [|by apply Hstay]. apply wp_bind. eapply wp_mono; [apply (tcp_close_ok tp')|].
    - done.
    - rewrite (writes_frame _ _ _ _ Wt) by (simpl; tauto). pose proof (ok_maxseg _ _ (se_ok _ _ (co_send _ _ _ _ _ _ _ _ Hc))).
      unfold TCPOLEN_TSTAMP_APPA, TCPOLEN_TIMESTAMP in *. lia.
    - rewrite Hq, (co_q _ _ _ _ _ _ _ _ Hc). destruct (co_recv _ _ _ _ _ _ _ _ Hc) as ((_ & _ & Ho) & _).
      eapply Forall_impl; [by eapply ordered_ok|]. intros t. by apply pkt_ok_store.
    - intros [] c'' [C1 C2]. apply wp_ret. split_and!; try done; [left; split; [done|right; left; congruence]| |apply Hp].
      apply (pkt_ok_store (c_ms c)); [by etrans|apply Hp]. }
  destruct (Z.eqb_spec (tp t_state) TCPS_TIME_WAIT) as [E4|E4].
  { apply wp_bind, wp_put_tp, wp_ret. set (tp2 := wr _ _ tp').
    assert (inv b0 r0 q0 tp2 (set_tp (Some tp2) c')) as H2.
    { apply (Hmove TCPS_TIME_WAIT); [unfold tp2; writes| |by right]. unfold tp2. tsimpl. congruence. }
    split_and!; [|by apply (pkt_ok_store (c_ms c)); [|apply Hp]|apply Hp|done]. eapply final_inv; [exact H2| |].
    - left. apply (late_state TCPS_TIME_WAIT); [done|congruence].
    - right. intros _ _. unfold tp2. tsimpl. done. }
  apply Hstay. rewrite fin_state_iff. tauto.
Qed.

Lemma open_cwnd_range tp : 0 <= tp snd_scale <= TCP_MAX_WINSHIFT → 0 <= open_cwnd tp snd_cwnd < 2147483648.
Proof.
  intros H. unfold open_cwnd. tsimpl. set (i := u32 (_ + _)).
  assert (0 <= TCP_MAXWIN * 2 ^ tp snd_scale < 2147483648) as Hs.
  { unfold TCP_MAXWIN, TCP_MAX_WINSHIFT in *. pose proof (Z.pow_le_mono_r 2 (tp snd_scale) 14). pose proof (Z.pow_nonneg 2 (tp snd_scale)). lia. }
  pose proof (u32_range i) as Hi. rewrite (u32_id (TCP_MAXWIN * _)) by (unfold is_u32; lia).
  assert (0 <= i) by (unfold i; apply u32_range). rewrite u32_id; unfold is_u32 in *; lia.
Qed.

Definition ackcw_field (f : tfield) : Prop :=
  match f with snd_cwnd | t_dupacks | t_timer _ => True | f => rtt_field f end.

Lemma new_ack_ok o x tp c :
  arriving → flow o x tp c → trimmed o x → keeps o x → SEQ_GT (ti_ack x) (tp snd_una) = true → wp (new_ack e x tp) c (goes acked).
Proof.
  intros Hin Hfl Ht Hk Hgt. pose proof Hfl as [He Hh Hp Hb]. pose proof (ea_inv _ _ He) as Hi. pose proof (h_ack _ _ Hh) as Hack.
  pose proof (co_send _ _ _ _ _ _ _ _ (in_ok _ _ _ _ _ Hi)) as Hse. pose proof (se_ok _ _ Hse) as Hok. pose proof (ok_cwnd _ _ Hok) as Hcw.
  unfold new_ack. set (tp1 := wr t_dupacks 0 _).
  assert (W1 : writes ackcw_field tp tp1) by (unfold tp1; writes).
  assert (Hoff : ∀ tp2, writes ackcw_field tp tp2 → off_of tp2 = off_of tp ∧ max_of tp2 = max_of tp).
  { intros tp2 W2. unfold off_of, max_of. by rewrite !(writes_frame _ _ _ _ W2) by (simpl; tauto). }
  assert (Hc1 : 0 <= tp1 snd_cwnd < 2147483648).
  { unfold tp1. tsimpl. destruct (_ && _) eqn:E; [|done]. apply andb_true_iff in E as [_ E]. zbool. tsimpl.
    rewrite (se_typed _ _ Hse snd_ssthresh : u32 _ = _). pose proof (u32_range (tp snd_ssthresh)) as Hr.
    rewrite (se_typed _ _ Hse snd_ssthresh : u32 _ = _) in Hr. unfold is_u32 in *. lia. }
  apply wp_bind, wp_put_tp.
  assert (Hf1 : ∀ g, ¬ ackcw_field g → tp1 g = tp g) by (intros g; by apply writes_frame).
  destruct (SEQ_GT (ti_ack x) (tp1 snd_max)) eqn:Eg.
  { apply wp_ret. assert (inv b0 r0 q0 tp1 (set_tp (Some tp1) c)) as H1.
    { apply (inv_moves ackcw_field _ _ _ tp); [done|done|fields|done|]. destruct (Hoff tp1 W1) as [-> _]. apply Hok. }
    split_and!; [|done|apply Hh|done].
    rewrite Hf1, (ea_same _ _ He), Hack in Eg by (by repeat first [left; done|right] || (simpl; tauto)).
    eapply final_inv; [exact H1|left; unfold may_refuse; tauto|left; unfold may_ignore; tauto]. }
  rewrite (Hf1 snd_una) by (simpl; tauto). rewrite Hack in *. set (a := s32 (ti_ack x0 - tp snd_una)).
  destruct (ack_timer x (measure e x tp1)) as [tp2 x2] eqn:Ea.
  assert (W2 : writes ackcw_field tp tp2).
  { eapply writes_trans; [exact W1|]. eapply writes_trans; [eapply writes_mono; [|apply measure_writes]; by intros []|].
    unfold ack_timer in Ea. destruct (_ =? _); [|destruct (_ =? 0)]; injection Ea as <- _; writes. }
  assert (Hx : hdr o x2 ∧ m x2 = m x ∧ ti_len x2 = ti_len x ∧ tiflags x2 = tiflags x ∧ ti_ack x2 = ti_ack x0).
  { unfold ack_timer in Ea. destruct (_ =? _); [|destruct (_ =? 0)]; injection Ea as _ <-; split_and!; try done. by apply (hdr_same o x). }
  destruct Hx as (X1 & X2 & X3 & X4 & X5). clear Ea. apply wp_bind, wp_put_tp. set (tp3 := open_cwnd tp2).
  assert (W3 : writes ackcw_field tp tp3) by (eapply writes_trans; [exact W2|]; unfold tp3, open_cwnd; writes).
  assert (Hc3 : 0 <= tp3 snd_cwnd < 2147483648).
  { apply open_cwnd_range. rewrite (writes_frame _ _ _ _ W2) by (simpl; tauto). apply Hse. }
  destruct (Hoff tp3 W3) as [O3 M3]. clearbody tp3. clear tp2 W2.
  assert (Hf3 : ∀ g, ¬ ackcw_field g → tp3 g = tp g) by (intros g; by apply writes_frame).
  assert (Hpe : pending o x2 tp3 (set_tp (Some tp3) c)).
  { constructor; rewrite ?X2, ?X3, ?Hf3 by (simpl; tauto); try done; [|unfold trimmed, has_flag in *; by rewrite X3, X4|unfold keeps in *; by rewrite X3| |apply He].
    - constructor; [|rewrite Hf3 by (simpl; tauto); apply He; by repeat first [left; done|right]..].
      apply (inv_moves ackcw_field _ _ _ tp); [done|done|fields|done|]. rewrite O3. apply Hok.
    - apply He. repeat constructor. }
  apply wp_bind. eapply wp_mono; [apply (drop_acked_ok x2 tp3 _ a); [done|apply Hpe|done|by rewrite Hf3 by (simpl; tauto)|]|].
  - rewrite M3. apply (ack_bounds (so_buf (c_so c))); [done|done|]. by rewrite Hf1 in Eg by (simpl; tauto).
  - intros our c' (tp' & -> & Ctp & [Wt Hun] & Cq & Css & Cms & Hcl). by apply (ack_fin_ok o x2 tp3 (set_tp (Some tp3) c) a tp').
Qed.

Lemma process_ack_ok x c : arriving → cut x c → wp (process_ack e x) c (goes acked).
Proof.
  intros Hin (o & tp & H & Ht & Hk). unfold process_ack. apply wp_bind. eapply wp_get_tp; [by apply (flow_tp o x)|].
  destruct (early_synced _ _ (fw_early _ _ _ _ H)) as [_ Hs]. rewrite (proj2 (Z.leb_le _ _)) by lia.
  destruct (SEQ_LEQ _ _) eqn:E.
  { apply (duplicate_ack_ok o); try done. right. right. rewrite (h_ack _ _ (fw_hdr _ _ _ _ H)) in E.
    rewrite (ea_same _ _ (fw_early _ _ _ _ H)) in E by (by repeat first [left; done|right]). unfold SEQ_LEQ, SEQ_GT in *. zbool. by apply Z.ltb_ge. }
  apply (new_ack_ok o); try done.
  unfold SEQ_LEQ, SEQ_GT in *. zbool. by apply Z.ltb_lt.
Qed.

(** ** From [step6] on *)

Lemma acked_tp F x x' c c' tp tp' o :
  inv b0 r0 q0 tp c → hdr o x → pkt_ok (c_ms c) (m x) → Mbuf.bytes (c_ms c) (m x) = slice o (ti_len x) →
  trimmed o x → keeps o x → (TCPS_TIME_WAIT <= tp t_state → may_refuse) →
  (sflag (c_so c) SS_CANTRCVMORE = sflag (c_so c0) SS_CANTRCVMORE ∨ TCPS_TIME_WAIT <= tp t_state) → settled tp →
  writes F tp tp' → Forall (λ f, ¬ F f) (snd_cwnd :: snd_nxt :: steady) → c' = set_tp (Some tp') c → x' = x ∨ x' = set_needoutput x → acked x' c'.
Proof.
  intros A B C D E G H I J Hw Hf -> Hx. inversion Hf as [|? ? Hf1 Hf2]; subst. inversion Hf2 as [|? ? Hf3 Hf4]; subst.
  pose proof (se_ok _ _ (co_send _ _ _ _ _ _ _ _ (in_ok _ _ _ _ _ A))) as Hok.
  assert (Hs : tp' t_state = tp t_state).
  { apply (writes_frame _ _ _ _ Hw). by inversion Hf4. }
  assert (Hu : tp' snd_una = tp snd_una).
  { apply (writes_frame _ _ _ _ Hw). by inversion Hf4 as [|? ? ? Hf5]; inversion Hf5. }
  assert (Hh : hdr o x' ∧ m x' = m x ∧ ti_len x' = ti_len x ∧ tiflags x' = tiflags x).
  { destruct Hx as [-> | ->]; [done|]. split_and!; try done. by apply (hdr_same o x). }
  destruct Hh as (X1 & X2 & X3 & X4). exists o, tp'. rewrite X2, X3, Hs. split_and!; try done.
  - apply (inv_moves F _ _ _ tp); try done.
    + rewrite (writes_frame _ _ _ _ Hw Hf1). apply Hok.
    + unfold off_of. rewrite (writes_frame _ _ _ _ Hw Hf3), Hu. apply Hok.
  - unfold trimmed, has_flag in *. by rewrite X3, X4.
  - unfold keeps in *. by rewrite X3.
  - by apply (settled_same tp).
Qed.

Definition window_field (f : tfield) : Prop :=
  match f with snd_wnd | snd_wl1 | snd_wl2 | max_sndwnd | rcv_up => True | _ => False end.

Lemma update_window_ok x c : acked x c → wp (update_window x) c (goes acked).
Proof.
  intros (o & tp & A & B & C & D & E & G & H & I & J). unfold update_window. apply wp_bind. eapply wp_get_tp; [apply A|].
  destruct (_ && _); [|apply wp_ret; by exists o, tp]. apply wp_bind, wp_put_tp, wp_ret.
  eapply (acked_tp window_field x); try done; [writes|fields|by right].
Qed.

Lemma urgent_ok x c : acked x c → wp (urgent e x) c (goes acked).
Proof.
  intros (o & tp & A & B & C & D & E & G & H & I & J). unfold urgent. apply wp_bind. eapply wp_get_tp; [apply A|]. apply wp_bind, wp_get_so.
  rewrite (hdr_nourg _ _ B). cbn [andb]. apply wp_bind. destruct (SEQ_GT _ _).
  - apply wp_put_tp, wp_ret. eapply (acked_tp window_field x); try done; [writes|fields|by left].
  - apply wp_ret, wp_ret. by exists o, tp.
Qed.

(** *** The text *)

(** The socket after the packets [ps] have been presented. *)
Definition received (c : conn) (ps : list packet) (c' : conn) : Prop :=
  ∃ s sb, c' = set_so (with_buf (Sock (sndbuf c) sb) (c_so c)) (set_ms s c) ∧ Mbuf.same_store (c_ms c) s ∧ Sockbuf.sb_ok s sb ∧
    (sflag (c_so c) SS_CANTRCVMORE = false → Sockbuf.sb_bytes s sb = rbytes c ++ concat (Mbuf.bytes (c_ms c) <$> ps)).

Lemma present_all_ok ps : ∀ c,
  Sockbuf.sb_ok (c_ms c) (rcvbuf c) → Forall (pkt_ok (c_ms c)) ps → wp (present_all ps) c (λ _ c', received c ps c').
Proof.
  induction ps as [|p ps IH]; intros c Hok Hps; simpl.
  { apply wp_ret. exists (c_ms c), (rcvbuf c). split_and!; try done.
    - destruct c as [? ? ? ? [? ? ? ? ? ? []]]; done.
    - intros _. unfold rbytes. simpl. by rewrite app_nil_r. }
  inversion_clear Hps as [|? ? Hp Hps']. apply wp_bind, wp_get_so, wp_bind.
  eapply (wp_mono _ _ (λ _ c', received c [p] c')).
  { destruct (sflag (c_so c) SS_CANTRCVMORE) eqn:Ec.
    - apply wp_low. eapply wp_mono; [by apply m_freem_ok|]. intros [] s Hs. exists s, (rcvbuf c). split_and!; try done.
      + destruct c as [? ? ? ? [? ? ? ? ? ? []]]; done.
      + by apply (Sockbuf.sb_ok_store (c_ms c)).
      + by rewrite Ec.
    - eapply wp_mono; [by apply rcv_append_ok|]. intros [] c' (s & sb & -> & Hs & Hsb & Hb). exists s, sb. split_and!; try done.
      intros _. simpl. by rewrite app_nil_r. }
  intros [] c' (s & sb & -> & Hs & Hsb & Hb). eapply wp_mono; [apply IH; [done|]|].
  - eapply Forall_impl; [exact Hps'|]. intros y. by apply pkt_ok_store.
  - intros [] c'' (s2 & sb2 & -> & Hs2 & Hsb2 & Hb2). exists s2, sb2. split_and!; try done; [by etrans|]. intros Hc. rewrite (Hb2 Hc).
    etrans; [apply (f_equal (.++ _)); exact (Hb Hc)|]. simpl. rewrite app_nil_r, <- app_assoc. do 2 f_equal.
    f_equal. apply list_fmap_ext. intros i y _. by apply Mbuf.bytes_store.
Qed.

(** What [TCP_REASS] does to the control block. *)
Lemma reass_writes s tp q ti : writes (λ f, f = rcv_nxt) tp (@TcpReass.tcp_reass _ (mbuf_payload s) tp q ti).1.1.1.
Proof.
  assert (Hl : ∀ q tp fl, writes (λ f, f = rcv_nxt) tp (@TcpReass.present_loop packet tp fl q).1.1.1).
  { clear. induction q as [|t q IH]; intros tp fl; simpl; [writes|]. destruct (_ =? _); [|writes].
    specialize (IH (wr rcv_nxt (tp rcv_nxt + TcpReass.ti_len t) tp) (Z.land (TcpReass.ti_flags t) TH_FIN)).
    destruct (TcpReass.present_loop _ _ q) as [[[tp' fl'] ms] q']. simpl in *. eapply writes_trans; [|exact IH]. writes. }
  assert (Hp : ∀ q, writes (λ f, f = rcv_nxt) tp (@TcpReass.present packet tp q).1.1.1).
  { intros q'. unfold TcpReass.present. destruct (negb _); [writes|]. destruct q'; [writes|]. destruct (negb _); [writes|].
    destruct (_ && _); [writes|apply Hl]. }
  unfold TcpReass.tcp_reass. destruct ti; [|apply Hp]. destruct (TcpReass.split_at _ _). destruct (last _); [|apply Hp].
  destruct (0 <? _); [|apply Hp]. destruct (_ <=? _); [writes|apply Hp].
Qed.

Lemma REASS_sender s so tp q ti : sender so tp → sender so (@TcpReass.TCP_REASS _ (mbuf_payload s) tp q ti).1.1.1.
Proof.
  intros H. assert (Hw : ∀ tp tp', sender so tp → writes (λ f, f = rcv_nxt) tp tp' → sender so tp').
  { intros tp1 tp2 H1 W. apply (sender_vital so tp1); [|apply (writes_typed _ _ _ W), H1|done]. intros g Hg. apply (writes_frame _ _ _ _ W).
    intros ->. by repeat (apply elem_of_cons in Hg as [Hg|Hg]; [done|]); apply elem_of_nil in Hg. }
  unfold TcpReass.TCP_REASS. destruct (_ && _ && _).
  - simpl. eapply Hw; [apply (sender_tflag TF_DELACK); [exact H|by right]|writes].
  - pose proof (reass_writes s tp q (Some ti)) as W. destruct (TcpReass.tcp_reass _ _ _) as [[[tp' fl'] ms] q']. simpl in *.
    apply sender_tflag; [by eapply Hw|by left].
Qed.

(** The text is taken; a FIN is left to process. *)
Definition taken (x : locals) (c : conn) : Prop :=
  ∃ b r q tp, inv b r q tp c ∧ ((may_refuse ∨ (news → o0 + ti_len x0 <= r)) ∧ settled tp) ∧
    (has_flag x TH_FIN = true → b = 0 ∧ r = fin ∧ tp t_state < TCPS_TIME_WAIT).

(** A segment with text or a FIN, once it is trimmed, is carried from [o] on, and the
    FIN of the peer has not been taken. *)
Lemma text_carries o x tp c :
  inv b0 r0 q0 tp c → hdr o x → pkt_ok (c_ms c) (m x) → Mbuf.bytes (c_ms c) (m x) = slice o (ti_len x) → trimmed o x →
  ti_len x ≠ 0 ∨ has_flag x TH_FIN = true →
  b0 = 0 ∧ r0 <= o ∧ @TcpReass.receiver _ (mbuf_payload (c_ms c)) f base fin r0 tp q0 ∧
  @TcpReass.carries _ (mbuf_payload (c_ms c)) f base fin o (TcpReass.TSeg (ti_seq x) (ti_len x) (ti_flags x) (m x)).
Proof.
  intros Hi Hh Hp Hb Ht Hx. specialize (Ht Hx). destruct (co_recv _ _ _ _ _ _ _ _ (in_ok _ _ _ _ _ Hi)) as (R1 & R2 & R3 & _).
  assert (b0 = 0) as Hb0.
  { destruct R3 as [?|(-> & -> & _)]; [done|exfalso]. destruct Hx as [Hx|Hx].
    - destruct (h_data _ _ Hh); [done|]. pose proof (h_len _ _ Hh). lia.
    - apply (h_sub _ _ Hh), (h_fin _ _ Hh) in Hx. pose proof (h_len _ _ Hh). lia. }
  split_and!; [done|lia| |].
  - revert R1. apply receiver_nxt. tsimpl. rewrite Hb0, Z.sub_0_r. symmetry. by apply u32_id.
  - split_and!; simpl; try apply Hh; try done. rewrite (h_flags _ _ Hh). intros Hf. apply (h_fin _ _ Hh). unfold fl, ztrue. by apply negb_true_iff, Z.eqb_neq.
Qed.

(** *** [TCP_REASS] on the connection *)

Lemma inline_present s tp q ti tp' flags ms q' :
  @TcpReass.TCP_REASS _ (mbuf_payload s) tp q ti = (tp', flags, ms, q') →
  (TcpReass.ti_seq ti =? tp rcv_nxt) && (match q with [] => true | _ => false end) && (tp t_state =? TCPS_ESTABLISHED) = true →
  ms = [TcpReass.ti_m ti].
Proof.
  clear. unfold TcpReass.TCP_REASS. intros H E.
  replace (if q is [] then true else false) with (match q with [] => true | _ => false end) in H by (by destruct q).
  rewrite E in H. by injection H as _ _ <- _.
Qed.

Lemma segment_text_ok x c : acked x c → wp (segment_text x) c (goes taken).
Proof.
  intros (o & tp & A & B & C & D & E & G & H & I & J). unfold segment_text. apply wp_bind. eapply wp_get_tp; [apply A|]. apply wp_bind, wp_get.
  destruct ((ztrue _ || _) && _) eqn:Ex.
  2: { apply wp_bind. eapply wp_mono; [by apply free_packet|]. intros [] c' (s & -> & Hs). apply wp_ret.
       exists b0, r0, q0, tp. split; [by apply inv_store|]. split.
       - split; [|done]. apply andb_false_iff in Ex as [Ex|Ex].
         + apply orb_false_iff in Ex as [Ex _]. unfold ztrue in Ex. zbool. by apply (keeps_empty o x).
         + apply negb_false_iff, Z.leb_le in Ex. left. by apply H.
       - unfold has_flag. simpl. by rewrite fl_cleared. }
  apply andb_true_iff in Ex as [Ex1 Ex2]. apply negb_true_iff, Z.leb_gt in Ex2.
  destruct I as [I|I]; [|lia].
  destruct (text_carries o x tp c A B C D E) as (Hb0 & Ho & Hrec & Hcar).
  { apply orb_true_iff in Ex1 as [Ex1|Ex1]; [left|by right]. unfold ztrue in Ex1. by zbool. }
  set (ti := TcpReass.TSeg _ _ _ _) in *. rewrite Hb0 in A. pose proof (in_ok _ _ _ _ _ A) as Hok. pose proof (co_send _ _ _ _ _ _ _ _ Hok) as Hse.
  destruct (@TcpReass.TCP_REASS_step _ (mbuf_payload (c_ms c)) f base fin r0 tp q0 o ti) as (r' & q' & Hstep); [done|done|done|apply B|].
  pose proof (REASS_sender (c_ms c) (so_buf (c_so c)) tp (c_q c) ti Hse) as Hse'. pose proof (co_q _ _ _ _ _ _ _ _ Hok) as Hcq. rewrite Hcq in *.
  destruct (@TcpReass.TCP_REASS _ (mbuf_payload (c_ms c)) tp q0.*2 ti) as [[[tp' flags] ms] qr] eqn:ER. simpl in Hse'.
  destruct Hstep as (-> & P2 & P3 & P4 & P5 & P6 & P7 & P8 & P9 & P10).
  set (inline := (_ =? _) && _ && _). apply wp_bind, wp_put_tp, wp_bind, wp_modify, wp_bind. set (c1 := set_q _ _).
  eapply (wp_mono _ _ (λ _ c', received c1 ms c')).
  { destruct inline eqn:Ei; [|apply present_all_ok; [apply Hok|exact P9]]. apply (inline_present _ _ _ _ _ _ _ _ ER) in Ei as ->.
    eapply wp_mono; [apply rcv_append_ok; [apply Hok|exact C]|]. intros [] c' (s & sb & -> & Hs & Hsb & Hb). exists s, sb. split_and!; try done.
    intros _. simpl. by rewrite app_nil_r. }
  intros [] c2 (s & sb & -> & Hs & Hsb & Hb). apply wp_bind. set (so2 := with_buf _ _).
  eapply (wp_mono _ _ (λ _ c', ∃ so, c' = set_so so (set_ms s c1) ∧ same_data so2 so ∧ so_snd (so_buf so) = sndbuf c)).
  { destruct ms; [apply wp_ret|apply wp_mod_so]; eexists; (split; [done|]); [done|]. split; [apply sorwakeup_data|done]. }
  intros [] c3 (so & -> & Hsd & Hsn). apply wp_ret. destruct (Hsd so_rcv) as (D1 & D2 & D3); [by right|].
  exists 0, r', q', tp'. split_and!.
  - apply (inv_recv tp c r' q' s so); try done.
    + by apply (sb_ok_data _ sb).
    + intros Hc. unfold Sockbuf.sb_bytes, Sockbuf.mbufs. rewrite D3. rewrite <- I in Hc. etrans; [exact (Hb Hc)|]. f_equal. exact P5.
    + assert (tp' rcv_nxt = u32 (base + r')) as Hn by apply P3. split_and!.
      * apply (receiver_store f base fin (c_ms c)); [done|]. revert P3. apply receiver_nxt. tsimpl. rewrite Z.sub_0_r, Hn. apply u32_id, u32_range.
      * rewrite Hn. apply u32_range.
      * by left.
      * apply P10; [|apply Hok]. unfold TcpReass.open_state.
        pose proof (ok_state _ _ (se_ok _ _ Hse)). unfold TCPS_ESTABLISHED, TCPS_SYN_RECEIVED in *. lia.
    + by apply P4.
  - destruct G as [G|[G|[G1 G2]]]; [by left|by right|right]. intros _. rewrite <- G2.
    destruct (Z.le_gt_cases (o + ti_len x) r') as [?|Hlt]; [done|exfalso].
    apply P10; [|apply Hok|apply P6; [lia|right; simpl; lia]]. unfold TcpReass.open_state.
    pose proof (ok_state _ _ (se_ok _ _ Hse)). unfold TCPS_ESTABLISHED, TCPS_SYN_RECEIVED in *. lia.
  - apply (settled_same tp); [done|]. by apply P4.
  - intros Hf. split_and!; [done| |by rewrite P4]. unfold has_flag, fl, ztrue in Hf. simpl in Hf. apply P8. zbool.
    intros ->. by rewrite Z.land_0_l in Hf.
Qed.

(** *** The FIN *)

(** Another state, with the timers that go with it. *)
Lemma sender_state so tp tp' :
  sender so tp → writes state_field tp tp' → TCPS_ESTABLISHED <= tp' t_state <= TCPS_TIME_WAIT →
  (fin_state tp' = true → fin_state tp = true) → (tp' t_state <= TCPS_CLOSE_WAIT → tp t_state <= TCPS_CLOSE_WAIT) → sender so tp'.
Proof.
  clear. intros [A B C D E] W Hst Hfs Hcl. assert (Hf : ∀ g, ¬ state_field g → tp' g = tp g) by (intros g; by apply writes_frame).
  assert (Hk : ∀ k, tflag tp' k = tflag tp k) by (intros k; unfold tflag; by rewrite Hf by (simpl; tauto)).
  assert (Ho : off_of tp' = off_of tp) by (unfold off_of; by rewrite !Hf by (simpl; tauto)).
  assert (Hm : max_of tp' = max_of tp) by (unfold max_of; by rewrite !Hf by (simpl; tauto)).
  constructor; try done; [|by rewrite Hk; auto|by rewrite Hf by (simpl; tauto)|by apply (writes_typed _ _ _ W)].
  destruct A as [A1 A2 A3 A4 A5 A6 A7 A8 A9 A10 A11 A12].
  constructor; rewrite ?Ho, ?Hm, ?Hk; try done; try (rewrite Hf by (simpl; tauto); done); [auto|].
  intros Hx. unfold tstamps. rewrite Hk, Hf by (simpl; tauto). apply A12. auto.
Qed.

(** The FIN at [fin] is taken: [rcv_nxt] moves past it and the state on. *)
Lemma inv_fin q tp c tp' so' :
  inv 0 fin q tp c → writes state_field (wr rcv_nxt (tp rcv_nxt + 1) (set_tflag TF_ACKNOW tp)) tp' →
  TCPS_CLOSE_WAIT <= tp' t_state <= TCPS_TIME_WAIT → (fin_state tp' = true → fin_state tp = true) →
  (tp' t_state <= TCPS_CLOSE_WAIT → tp t_state <= TCPS_CLOSE_WAIT) → same_data (c_so c) so' →
  inv 1 fin q tp' (set_so so' (set_tp (Some tp') c)).
Proof.
  intros H W Hst Hfs Hcl Hsd. apply (inv_data _ _ _ _ (set_tp (Some tp') c)); [|done].
  pose proof (in_ok _ _ _ _ _ H) as Hok. set (tpa := wr rcv_nxt _ _) in W.
  assert (Hsa : sender (so_buf (c_so c)) tpa).
  { pose proof (sender_tflag TF_ACKNOW _ _ (co_send _ _ _ _ _ _ _ _ Hok) ltac:(by left)) as Hs.
    apply (sender_vital _ (set_tflag TF_ACKNOW tp)); [|apply typed_wr, Hs|done]. intros g Hg. apply wr_ne. intros <-.
    by repeat (apply elem_of_cons in Hg as [Hg|Hg]; [done|]); apply elem_of_nil in Hg. }
  assert (Hta : tpa t_state = tp t_state) by (unfold tpa, set_tflag; by tsimpl).
  assert (Hn : tp' rcv_nxt = u32 (tp rcv_nxt + 1)).
  { rewrite (writes_frame _ _ _ _ W) by (simpl; tauto). unfold tpa, set_tflag. by tsimpl. }
  assert (Hu : tp' snd_una = tp snd_una).
  { rewrite (writes_frame _ _ _ _ W) by (simpl; tauto). unfold tpa, set_tflag. by tsimpl. }
  destruct H as [[O1 O2 O3 O4 O5 O6 ((R1 & R2 & R3) & R4 & _ & R5)] B C D E F]. constructor; try done; [|by rewrite Hu..].
  constructor; try done; simpl.
  - apply (sender_state _ tpa); try done.
    unfold TCPS_CLOSE_WAIT, TCPS_ESTABLISHED in *. lia.
  - rewrite wr_eq in R2. cbn [conv] in R2. split_and!; try done.
    + split_and!; try done. tsimpl. rewrite Hn, <- R2. clear. wraplia.
    + rewrite Hn. apply u32_range.
    + right. split_and!; try done. intros Ee. rewrite Ee in Hst. unfold TCPS_CLOSE_WAIT, TCPS_ESTABLISHED in *. lia.
Qed.

Definition answered (x : locals) (c : conn) : Prop :=
  ∃ b r q tp, inv b r q tp c ∧ (may_refuse ∨ (news → o0 + ti_len x0 <= r)) ∧ settled tp.

Lemma process_fin_ok x c : taken x c → wp (process_fin x) c (goes answered).
Proof.
  intros (b & r & q & tp & H & Hn & Hf). unfold process_fin. destruct (has_flag x TH_FIN); [|apply wp_ret; by exists b, r, q, tp].
  destruct (Hf eq_refl) as (-> & Hr & Hlt). rewrite Hr in H, Hn. cbn [negb]. cbv iota.
  pose proof (ok_state _ _ (se_ok _ _ (co_send _ _ _ _ _ _ _ _ (in_ok _ _ _ _ _ H)))) as Hst.
  apply wp_bind. eapply wp_get_tp; [apply H|]. apply wp_bind.
  rewrite (proj2 (Z.leb_gt _ _) Hlt : TCPS_HAVERCVDFIN _ = false). cbn [negb]. cbv iota. apply wp_bind, wp_mod_so, wp_put_tp.
  apply wp_bind. eapply wp_get_tp; [done|]. apply wp_bind. set (tp1 := wr rcv_nxt _ _).
  assert (Hs1 : tp1 t_state = tp t_state) by (unfold tp1, set_tflag; by tsimpl). rewrite Hs1. cbv zeta.
  assert (Hend : ∀ tp' so', writes state_field tp1 tp' → TCPS_CLOSE_WAIT <= tp' t_state <= TCPS_TIME_WAIT →
    (fin_state tp' = true → fin_state tp = true) → (tp' t_state <= TCPS_CLOSE_WAIT → tp t_state <= TCPS_CLOSE_WAIT) → same_data (c_so c) so' →
    goes answered (Fall x) (set_so so' (set_tp (Some tp') c))).
  { intros tp' so' W1 W2 W3 W4 W5. exists 1, fin, q, tp'. split; [by apply (inv_fin q tp)|]. split; [apply Hn|].
    apply (settled_same tp); [apply Hn|]. rewrite (writes_frame _ _ _ _ W1) by (simpl; tauto). unfold tp1, set_tflag. by tsimpl. }
  unfold TCPS_ESTABLISHED, TCPS_TIME_WAIT, TCPS_CLOSE_WAIT in *.
  destruct (_ || _) eqn:E1.
  { apply wp_put_tp, wp_ret. apply (Hend (wr t_state TCPS_CLOSE_WAIT tp1) (socantrcvmore (c_so c))); [writes|by tsimpl| | |apply socantrcvmore_data].
    - rewrite fin_state_iff. by tsimpl; intros [|[|]].
    - intros _. apply orb_true_iff in E1 as [E1|E1]; apply Z.eqb_eq in E1; rewrite E1; done. }
  apply orb_false_iff in E1 as [_ E1]. apply Z.eqb_neq in E1.
  destruct (Z.eqb_spec (tp t_state) TCPS_FIN_WAIT_1) as [E2|E2].
  { apply wp_put_tp, wp_ret. apply (Hend (wr t_state TCPS_CLOSING tp1) (socantrcvmore (c_so c))); [writes|by tsimpl| |by tsimpl|apply socantrcvmore_data].
    intros _. apply fin_state_iff. by left. }
  destruct (Z.eqb_spec (tp t_state) TCPS_FIN_WAIT_2) as [E3|E3].
  { apply wp_bind, wp_put_tp, wp_mod_so, wp_ret. set (tp2 := wr (t_timer TCPT_2MSL) _ _).
    assert (W2 : writes state_field tp1 tp2 ∧ tp2 t_state = TCPS_TIME_WAIT).
    { unfold tp2. split; [apply writes_wr; [done|]; eapply writes_trans; [|eapply writes_mono; [|apply cancel_writes]; by intros []]; writes|].
      tsimpl. rewrite (writes_frame _ _ _ _ (cancel_writes _)) by (simpl; tauto). by tsimpl. }
    destruct W2 as [W2 S2]. clearbody tp2. apply (Hend tp2 (soisdisconnected (socantrcvmore (c_so c)))); try done; rewrite ?fin_state_iff, ?S2; try done.
    - by intros [|[|]].
    - eapply same_data_trans; [apply socantrcvmore_data|apply soisdisconnected_data]. }
  rewrite (proj2 (Z.eqb_neq (tp t_state) 10)) by lia.
  apply wp_ret, wp_ret. apply (Hend tp1 (socantrcvmore (c_so c))); [writes|rewrite Hs1; unfold TCPS_ESTABLISHED in E1; lia| |by rewrite Hs1|apply socantrcvmore_data].
  unfold fin_state. by rewrite Hs1.
Qed.

Lemma send_reply_ok x c : env_ok → answered x c → wp (send_reply e x) c (goes (λ _ _, False)).
Proof.
  intros He (b & r & q & tp & H & Hn & Hse). unfold send_reply. apply wp_bind. eapply wp_get_tp; [apply H|]. apply wp_bind.
  eapply (wp_mono _ _ (λ _ c', final c')); [|by intros [] c' Hc; apply wp_ret].
  destruct (_ || _); [|apply wp_ret; by eapply final_inv]. apply wp_bind. eapply wp_mono; [by eapply output_final|]. intros er c' Hc. by apply wp_ret.
Qed.

(** ** The whole handler *)

Lemma process_ok : arriving → wp (process e x0) c0 (goes (λ _ _, False)).
Proof.
  intros Hin. pose proof (arriving_raw Hin) as Hraw. unfold process.
  eapply wp_andthen; [apply arrive_ok; [by exists tp0|apply Hin]|]. intros x c [H1 H2].
  eapply wp_andthen; [by apply options_stage_ok|]. clear x c H1 H2. intros x c H.
  eapply wp_andthen; [by apply predict_ok|]. clear x c H. intros x c H.
  eapply wp_andthen; [by apply receive_window_ok|]. clear x c H. intros x c H.
  eapply (wp_andthen _ _ _ _ acked).
  { pose proof H as (tp & Hf & _). unfold by_state. apply wp_bind. eapply wp_get_tp; [by apply (flow_tp o0 x)|].
    destruct (early_synced _ _ (fw_early _ _ _ _ Hf)) as [_ Hs]. unfold TCPS_ESTABLISHED in Hs.
    rewrite !(proj2 (Z.eqb_neq _ _)) by (unfold TCPS_LISTEN, TCPS_SYN_SENT; lia). clear tp Hf Hs. unfold synchronised.
    eapply wp_andthen; [by apply paws_ok|]. clear x c H. intros x c H.
    eapply wp_andthen; [by apply trim_left_ok|]. clear x c H. intros x c H.
    eapply wp_andthen; [by apply nobody_ok|]. clear x c H. intros x c H.
    eapply wp_andthen; [by apply trim_right_ok|]. clear x c H. intros x c H.
    eapply wp_andthen; [by apply record_ts_ok|]. clear x c H. intros x c H.
    eapply wp_andthen; [by apply check_rst_ok|]. clear x c H. intros x c H.
    eapply wp_andthen; [by apply check_syn_ok|]. clear x c H. intros x c H.
    eapply wp_andthen; [by apply need_ack_ok|]. clear x c H. intros x c H.
    eapply wp_andthen; [by apply ack_syn_ok|]. clear x c H. intros x c H. by apply process_ack_ok. }
  clear x c H. intros x c H. unfold step6.
  eapply wp_andthen; [by apply update_window_ok|]. clear x c H. intros x c H.
  eapply wp_andthen; [by apply urgent_ok|]. clear x c H. intros x c H.
  eapply wp_andthen; [by apply segment_text_ok|]. clear x c H. intros x c H.
  eapply wp_andthen; [by apply process_fin_ok|]. clear x c H. intros x c H. apply send_reply_ok; [apply Hin|done].
Qed.


End Segment.

(** ** An example *)

(** A packet with 40 bytes of headers and [n] bytes of data 1, 2, ... *)
Definition ex_data (n : nat) : packet :=
  [Mbuf.MB (40 + Z.of_nat n) 8 Mbuf.MT_DATA Mbuf.M_PKTHDR (40 + Z.of_nat n) 0 0 0
     (replicate 48 0 ++ (Z.of_nat <$> seq 1 n) ++ replicate (60 - n) 0)].
Definition ex_c0 : conn := ex_conn ex_tp (ex_socket (ex_buf 0 8192 []) (ex_buf 0 8192 [])).
Definition ex_x0 : locals := set_m (ex_data 10) (ex_seg 77 4294967000 TH_ACK 4096 10).

Lemma ex_typed : typed ex_tp.
Proof. intros []; by vm_compute. Qed.

Lemma ex_arriving : arriving (λ p, p + 1) 77 1000 ex_env ex_c0 ex_tp 0 0 [] ex_x0 0.
Proof.
  constructor.
  - constructor; try done.
    + constructor; try done. exact ex_typed.
    + split_and!; [by vm_compute|by vm_compute|by left|by intros ?%Exists_nil].
  - split; [done|by vm_compute].
  - constructor; try (by vm_compute). by right.
  - eexists _, _. split; [done|]. split; [by vm_compute|]. split; [|by vm_compute]. split; repeat constructor; try (by vm_compute).
    eexists. split; [done|]. split; [by vm_compute|]. intros _. split; [done|by vm_compute].
  - done.
  - by vm_compute.
  - by vm_compute.
  - by vm_compute.
Qed.


(** The ten bytes are delivered. *)
Lemma ex_delivered :
  ex_result (tcp_input ex_env ex_x0 ex_c0) = Some (TCPS_ESTABLISHED, 87, 4096, [1; 2; 3; 4; 5; 6; 7; 8; 9; 10]).
Proof. by vm_compute. Qed.

End TcpStream.
