(* ===== verification/SlComp.v ===== *)
(** * TCP/IP header compression (net/slcompress.c, net/slcompress.h)

    The compressor keeps the header of the last packet of each of sixteen
    conversations and sends the differences; the decompressor keeps the same
    headers and adds the differences back.  A header is the list of its bytes, a
    pointer to a state is its index in the array of states, and a field of a header
    is read and stored at its offset in network order.  The states of the
    transmitter form a circular list in order of use.

    [None] is an access outside of the objects of the program: a header that does
    not lie in the first mbuf of its packet, or that is longer than the [MAX_HDR]
    bytes of a state.  The counters are left out. *)

From S2P Require Import Prelude Cksum Tcp.
From stdpp Require Import options.

Module SlComp.

Import Tcp.

(** ** Constants *)

Definition MAX_STATES : nat := 16.
Definition MAX_HDR : nat := 108.
Definition TYPE_IP : Z := 0x40.
Definition TYPE_UNCOMPRESSED_TCP : Z := 0x70.
Definition TYPE_COMPRESSED_TCP : Z := 0x80.
Definition NEW_C : Z := 0x40.
Definition NEW_I : Z := 0x20.
Definition NEW_S : Z := 0x08.
Definition NEW_A : Z := 0x04.
Definition NEW_W : Z := 0x02.
Definition NEW_U : Z := 0x01.
Definition SPECIAL_I : Z := Z.lor NEW_S (Z.lor NEW_W NEW_U).
Definition SPECIAL_D : Z := Z.lor NEW_S (Z.lor NEW_A (Z.lor NEW_W NEW_U)).
Definition SPECIALS_MASK : Z := Z.lor NEW_S (Z.lor NEW_A (Z.lor NEW_W NEW_U)).
Definition TCP_PUSH_BIT : Z := 0x10.
Definition SLF_TOSS : Z := 1.
Definition IPPROTO_TCP : Z := 6.

(** ** Headers *)

(** [n] bytes from offset [i] on. *)
Definition sub (i n : nat) (l : list Z) : list Z := take n (drop i l).

(** The fields of 16 and of 32 bits at offset [i], in host order. *)
Definition be16 (l : list Z) (i : nat) : Z := l !!! i * 256 + l !!! S i.
Definition be32 (l : list Z) (i : nat) : Z := be16 l i * 65536 + be16 l (i + 2).

(** The stores [f = htons(v)] and [f = htonl(v)]. *)
Definition put16 (i : nat) (v : Z) (l : list Z) : list Z :=
  <[S i := u8 v]> (<[i := u8 (Z.shiftr v 8)]> l).
Definition put32 (i : nat) (v : Z) (l : list Z) : list Z :=
  put16 (i + 2) (u16 v) (put16 i (Z.shiftr v 16) l).

(** Lengths in words: [ip_hl] and [th_off] of a TCP header at offset [t]. *)
Definition ip_hl (l : list Z) : nat := Z.to_nat (Z.land (l !!! 0%nat) 0xf).
Definition th_off (t : nat) (l : list Z) : nat := Z.to_nat (Z.shiftr (l !!! (t + 12)%nat) 4).

(** [bcopy] of [n] bytes into a header, or any other buffer. *)
Definition bcopy (n : nat) (src dst : list Z) : list Z := take n src ++ drop n dst.

(** ** The state *)

Record cstate := CS { cs_next : nat; cs_hlen : Z; cs_id : Z; cs_hdr : list Z }.

Record slcompress := SLC
  { last_cs : nat; last_recv : Z; last_xmit : Z; flags : Z;
    tstate : list cstate; rstate : list cstate }.

Definition set_next (n : nat) (s : cstate) : cstate := CS n (cs_hlen s) (cs_id s) (cs_hdr s).
Definition set_hdr (h : list Z) (s : cstate) : cstate := CS (cs_next s) (cs_hlen s) (cs_id s) h.

Definition set_last_cs (n : nat) (c : slcompress) : slcompress :=
  SLC n (last_recv c) (last_xmit c) (flags c) (tstate c) (rstate c).
Definition set_tstate (ts : list cstate) (c : slcompress) : slcompress :=
  SLC (last_cs c) (last_recv c) (last_xmit c) (flags c) ts (rstate c).
Definition set_xmit (x : Z) (ts : list cstate) (c : slcompress) : slcompress :=
  SLC (last_cs c) (last_recv c) x (flags c) ts (rstate c).
Definition set_recv (r f : Z) (rs : list cstate) (c : slcompress) : slcompress :=
  SLC (last_cs c) r (last_xmit c) f (tstate c) rs.

(** A state as [bzero] leaves it. *)
Definition zero_cstate : cstate := CS 0 0 0 (replicate MAX_HDR 0).

(** [sl_compress_init]: each state points to the one before it, the first to the
    last. *)
Definition sl_compress_init : slcompress :=
  SLC 0 255 255 SLF_TOSS
    ((λ i, CS (match i with O => (MAX_STATES - 1)%nat | S j => j end) 0 (Z.of_nat i) (replicate MAX_HDR 0))
       <$> seq 0 MAX_STATES)
    (replicate MAX_STATES zero_cstate).

(** ** The coding of numbers *)

(** ENCODE and ENCODEZ: the bytes they append to [new_seq]. *)
Definition ENCODE (n : Z) : list Z :=
  if 256 <=? u16 n then [0; u8 (Z.shiftr n 8); u8 n] else [u8 n].
Definition ENCODEZ (n : Z) : list Z :=
  if (256 <=? u16 n) || (u16 n =? 0) then [0; u8 (Z.shiftr n 8); u8 n] else [u8 n].

(** The number DECODEL, DECODES and DECODEU take from the bytes at [cp], and what
    is left of them. *)
Definition DECODE (cp : list Z) : option (Z * list Z) :=
  match cp with
  | c0 :: cp =>
      if c0 =? 0 then
        match cp with c1 :: c2 :: cp => Some (Z.lor (Z.shiftl c1 8) c2, cp) | _ => None end
      else Some (c0, cp)
  | [] => None
  end.

(** DECODEL, DECODES and DECODEU on the field at offset [i] of a header. *)
Definition DECODEL (i : nat) (h cp : list Z) : option (list Z * list Z) :=
  '(n, cp) ← DECODE cp; Some (put32 i (u32 (be32 h i + n)) h, cp).
Definition DECODES (i : nat) (h cp : list Z) : option (list Z * list Z) :=
  '(n, cp) ← DECODE cp; Some (put16 i (u16 (be16 h i + n)) h, cp).
Definition DECODEU (i : nat) (h cp : list Z) : option (list Z * list Z) :=
  '(n, cp) ← DECODE cp; Some (put16 i (u16 n) h, cp).

(** ** Compression *)

(** The test for the conversation of a packet: addresses and ports. *)
Definition same_conversation (d : list Z) (cs : cstate) : bool :=
  bool_decide (sub 12 4 d = sub 12 4 (cs_hdr cs)) &&
  bool_decide (sub 16 4 d = sub 16 4 (cs_hdr cs)) &&
  bool_decide (sub (4 * ip_hl d) 4 d = sub (4 * ip_hl (cs_hdr cs)) 4 (cs_hdr cs)).

(** The search loop: the state it stops at, the one before it, and whether it is
    the one of the conversation. *)
Fixpoint search (fuel : nat) (d : list Z) (ts : list cstate) (lastcs cs : nat) : option (nat * nat * bool) :=
  match fuel with
  | O => None
  | S fuel =>
      let lcs := cs in
      s ← ts !! cs;
      let cs := cs_next s in
      s' ← ts !! cs;
      if same_conversation d s' then Some (lcs, cs, true)
      else if bool_decide (cs = lastcs) then Some (lcs, cs, false)
      else search fuel d ts lastcs cs
  end.

(** Moving a state to the front of the list. *)
Definition to_front (lcs cs lastcs : nat) (ts : list cstate) : option (list cstate) :=
  s ← ts !! cs;
  let ts := alter (set_next (cs_next s)) lcs ts in
  l ← ts !! lastcs;
  let ts := alter (set_next (cs_next l)) cs ts in
  Some (alter (set_next cs) lastcs ts).

(** The state of the conversation of a packet, or the one used least recently. *)
Definition locate (d : list Z) (comp : slcompress) : option (slcompress * nat * bool) :=
  l ← tstate comp !! last_cs comp;
  let cs := cs_next l in
  s ← tstate comp !! cs;
  if same_conversation d s then Some (comp, cs, true)
  else
    '(lcs, cs, found) ← search MAX_STATES d (tstate comp) (last_cs comp) cs;
    if (found : bool) then
      if bool_decide (cs = last_cs comp) then Some (set_last_cs lcs comp, cs, true)
      else ts ← to_front lcs cs (last_cs comp) (tstate comp); Some (set_tstate ts comp, cs, true)
    else Some (set_last_cs lcs comp, cs, false).

(** Whether something changed that the compressed form cannot express. *)
Definition other_change (d c : list Z) : bool :=
  let t := (4 * ip_hl d)%nat in
  negb (bool_decide (sub 0 2 d = sub 0 2 c)) || negb (bool_decide (sub 6 2 d = sub 6 2 c)) ||
  negb (bool_decide (sub 8 2 d = sub 8 2 c)) || negb (bool_decide (th_off t d = th_off t c)) ||
  ((5 <? ip_hl d)%nat && negb (bool_decide (sub 20 (4 * (ip_hl d - 5)) d = sub 20 (4 * (ip_hl d - 5)) c))) ||
  ((5 <? th_off t d)%nat &&
     negb (bool_decide (sub (t + 20) (4 * (th_off t d - 5)) d = sub (t + 20) (4 * (th_off t d - 5)) c))).

(** A change of one field: the bit and the code, when there is one. *)
Definition add_change (b : bool) (bit : Z) (code : list Z) (r : Z * list Z) : Z * list Z :=
  if b then (Z.lor r.1 bit, r.2 ++ code) else r.

(** The mask of changes and the numbers, [None] for [goto uncompressed]. *)
Definition encode_changes (d c : list Z) (hlen : Z) : option (Z * list Z) :=
  let t := (4 * ip_hl d)%nat in
  let urg := ztrue (Z.land (d !!! (t + 13)%nat) TH_URG) in
  if negb urg && negb (be16 d (t + 18) =? be16 c (t + 18)) then None
  else
    let r := add_change urg NEW_U (ENCODEZ (be16 d (t + 18))) (0, []) in
    let deltaW := u16 (be16 d (t + 14) - be16 c (t + 14)) in
    let r := add_change (ztrue deltaW) NEW_W (ENCODE deltaW) r in
    let deltaA := u32 (be32 d (t + 8) - be32 c (t + 8)) in
    if 0xffff <? deltaA then None
    else
      let r := add_change (ztrue deltaA) NEW_A (ENCODE deltaA) r in
      let deltaS := u32 (be32 d (t + 4) - be32 c (t + 4)) in
      if 0xffff <? deltaS then None
      else
        let '(changes, new_seq) := add_change (ztrue deltaS) NEW_S (ENCODE deltaS) r in
        if changes =? 0 then
          if negb (be16 d 2 =? be16 c 2) && (be16 c 2 =? hlen) then Some (changes, new_seq) else None
        else if (changes =? SPECIAL_I) || (changes =? SPECIAL_D) then None
        else if changes =? Z.lor NEW_S NEW_A then
          if (deltaS =? deltaA) && (deltaS =? u32 (be16 c 2 - hlen)) then Some (SPECIAL_I, [])
          else Some (changes, new_seq)
        else if changes =? NEW_S then
          if deltaS =? u32 (be16 c 2 - hlen) then Some (SPECIAL_D, []) else Some (changes, new_seq)
        else Some (changes, new_seq).

(** The identification and the push bit. *)
Definition encode_rest (d c : list Z) (r : Z * list Z) : Z * list Z :=
  let deltaI := u32 (be16 d 4 - be16 c 4) in
  let '(changes, new_seq) := add_change (negb (deltaI =? 1)) NEW_I (ENCODEZ deltaI) r in
  (if ztrue (Z.land (d !!! (4 * ip_hl d + 13)%nat) TH_PUSH) then Z.lor changes TCP_PUSH_BIT else changes, new_seq).

(** The label [uncompressed]. *)
Definition send_uncompressed (d : list Z) (hlen : nat) (cs : nat) (comp : slcompress) :
    option (slcompress * list Z * Z) :=
  s ← tstate comp !! cs;
  Some (set_xmit (cs_id s) (<[cs := set_hdr (bcopy hlen d (cs_hdr s)) s]> (tstate comp)) comp,
        <[9%nat := cs_id s]> d, TYPE_UNCOMPRESSED_TCP).

(** The compressed packet in place of the header. *)
Definition send_compressed (d : list Z) (hlen : nat) (cs : nat) (changes : Z) (new_seq : list Z)
    (compress_cid : Z) (comp : slcompress) : option (slcompress * list Z * Z) :=
  s ← tstate comp !! cs;
  let deltaA := be16 d (4 * ip_hl d + 16) in
  let cp := if (compress_cid =? 0) || negb (last_xmit comp =? cs_id s) then [u8 (Z.lor changes NEW_C); cs_id s] else [u8 changes] in
  let hdr := cp ++ [u8 (Z.shiftr deltaA 8); u8 deltaA] ++ new_seq in
  if (hlen <? length hdr)%nat then None
  else Some (set_xmit (cs_id s) (<[cs := set_hdr (bcopy hlen d (cs_hdr s)) s]> (tstate comp)) comp,
             hdr ++ drop hlen d, TYPE_COMPRESSED_TCP).

(** [sl_compress_tcp]: [d] is the data of the first mbuf, the result its data and
    the type of the packet. *)
Definition sl_compress_tcp (d : list Z) (comp : slcompress) (compress_cid : Z) :
    option (slcompress * list Z * Z) :=
  if ztrue (Z.land (be16 d 6) 0x3fff) || (length d <? 40)%nat then Some (comp, d, TYPE_IP)
  else
    let t := (4 * ip_hl d)%nat in
    if (length d <? t + 14)%nat then None
    else if negb (Z.land (d !!! (t + 13)%nat) (Z.lor TH_SYN (Z.lor TH_FIN (Z.lor TH_RST TH_ACK))) =? TH_ACK)
    then Some (comp, d, TYPE_IP)
    else
      '(comp, cs, found) ← locate d comp;
      let hlen := (4 * (ip_hl d + th_off t d))%nat in
      if (length d <? hlen)%nat || (MAX_HDR <? hlen)%nat then None
      else if negb found then send_uncompressed d hlen cs comp
      else
        s ← tstate comp !! cs;
        if other_change d (cs_hdr s) then send_uncompressed d hlen cs comp
        else if (length d <? t + 20)%nat then None
        else
          match encode_changes d (cs_hdr s) (Z.of_nat hlen) with
          | None => send_uncompressed d hlen cs comp
          | Some r =>
              let '(changes, new_seq) := encode_rest d (cs_hdr s) r in
              send_compressed d hlen cs changes new_seq compress_cid comp
          end.

(** ** Decompression *)

Section Machine.
Context (big : bool).

(** The label [bad]. *)
Definition bad (comp : slcompress) : slcompress * option (list Z) :=
  (set_recv (last_recv comp) (Z.lor (flags comp) SLF_TOSS) (rstate comp) comp, None).

(** TYPE_UNCOMPRESSED_TCP. *)
Definition recv_uncompressed (mem : list Z) (len : nat) (comp : slcompress) :
    option (slcompress * option (list Z)) :=
  p ← mem !! 9%nat;
  if Z.of_nat MAX_STATES <=? p then Some (bad comp)
  else
    let mem := <[9%nat := IPPROTO_TCP]> mem in
    s ← rstate comp !! Z.to_nat p;
    let t := (4 * ip_hl mem)%nat in
    let hlen := (4 * (ip_hl mem + th_off t mem))%nat in
    if (length mem <? t + 13)%nat || (length mem <? hlen)%nat || (MAX_HDR <? hlen)%nat then None
    else
      let h := put16 10 0 (bcopy hlen mem (cs_hdr s)) in
      Some (set_recv p (Z.land (flags comp) (Z.lnot SLF_TOSS))
              (<[Z.to_nat p := CS (cs_next s) (Z.of_nat hlen) (cs_id s) h]> (rstate comp)) comp,
            Some (take len mem)).

(** The state index of a compressed packet: [inl] is a packet that is dropped. *)
Definition state_index (changes : Z) (cp : list Z) (comp : slcompress) :
    option (slcompress * option (list Z) + slcompress * list Z) :=
  if ztrue (Z.land changes NEW_C) then
    match cp with
    | id :: cp =>
        if Z.of_nat MAX_STATES <=? id then Some (inl (bad comp))
        else Some (inr (set_recv id (Z.land (flags comp) (Z.lnot SLF_TOSS)) (rstate comp) comp, cp))
    | [] => None
    end
  else if ztrue (Z.land (flags comp) SLF_TOSS) then Some (inl (comp, None))
  else Some (inr (comp, cp)).

(** One field, decoded when its bit is set. *)
Definition optional (b : bool) (dec : list Z → list Z → option (list Z * list Z)) (r : list Z * list Z) :
    option (list Z * list Z) := if b then dec r.1 r.2 else Some r.

Definition set_flag (i : nat) (b : bool) (f : Z) (h : list Z) : list Z :=
  <[i := if b then u8 (Z.lor (h !!! i) f) else u8 (Z.land (h !!! i) (Z.lnot f))]> h.

(** The switch on the special cases. *)
Definition decode_changes (t : nat) (changes hlen : Z) (h cp : list Z) : option (list Z * list Z) :=
  let sp := Z.land changes SPECIALS_MASK in
  if sp =? SPECIAL_I then
    let i := u32 (be16 h 2 - hlen) in
    let h := put32 (t + 8) (u32 (be32 h (t + 8) + i)) h in
    Some (put32 (t + 4) (u32 (be32 h (t + 4) + i)) h, cp)
  else if sp =? SPECIAL_D then Some (put32 (t + 4) (u32 (be32 h (t + 4) + be16 h 2 - hlen)) h, cp)
  else
    let urg := ztrue (Z.land changes NEW_U) in
    r ← optional urg (DECODEU (t + 18)) (set_flag (t + 13) urg TH_URG h, cp);
    r ← optional (ztrue (Z.land changes NEW_W)) (DECODES (t + 14)) r;
    r ← optional (ztrue (Z.land changes NEW_A)) (DECODEL (t + 8)) r;
    optional (ztrue (Z.land changes NEW_S)) (DECODEL (t + 4)) r.

Definition decode_id (changes : Z) (r : list Z * list Z) : option (list Z * list Z) :=
  if ztrue (Z.land changes NEW_I) then DECODES 4 r.1 r.2
  else Some (put16 4 (u16 (be16 r.1 4 + 1)) r.1, r.2).

(** The IP checksum: the sum of the words of the header, folded twice, and the
    store of its complement. *)
Definition ip_header_sum (h : list Z) : Z :=
  let changes := u32 (Cksum.word_sum big h) in
  let changes := Z.land changes 0xffff + Z.shiftr changes 16 in
  let changes := Z.land changes 0xffff + Z.shiftr changes 16 in
  u16 (Z.lnot changes).

Definition store_sum (v : Z) (h : list Z) : list Z :=
  if big then <[11%nat := v mod 256]> (<[10%nat := v / 256]> h) else <[11%nat := v / 256]> (<[10%nat := v mod 256]> h).

(** TYPE_COMPRESSED_TCP. *)
Definition recv_compressed (mem : list Z) (len : nat) (comp : slcompress) :
    option (slcompress * option (list Z)) :=
  match mem with
  | [] => None
  | changes :: cp =>
      x ← state_index changes cp comp;
      match x with
      | inl r => Some r
      | inr (comp, cp) =>
          s ← rstate comp !! Z.to_nat (last_recv comp);
          let t := (4 * ip_hl (cs_hdr s))%nat in
          match cp with
          | c0 :: c1 :: cp =>
              let h := put16 (t + 16) (Z.lor (Z.shiftl c0 8) c1) (cs_hdr s) in
              let h := set_flag (t + 13) (ztrue (Z.land changes TCP_PUSH_BIT)) TH_PUSH h in
              r ← decode_changes t changes (cs_hlen s) h cp;
              '(h, cp) ← decode_id changes r;
              let upd h := set_recv (last_recv comp) (flags comp)
                (<[Z.to_nat (last_recv comp) := set_hdr h s]> (rstate comp)) comp in
              let used := (length mem - length cp)%nat in
              if (len <? used)%nat then Some (bad (upd h))
              else
                let hlen := Z.to_nat (cs_hlen s) in
                let h := put16 2 (u16 (Z.of_nat (len - used + hlen))) h in
                if (MAX_HDR <? hlen)%nat then None
                else
                  let pkt := take hlen h ++ take (len - used) cp in
                  Some (upd h, Some (store_sum (ip_header_sum (take t pkt)) pkt))
          | _ => None
          end
      end
  end.

(** [sl_uncompress_tcp]: [mem] are the bytes of the input buffer from [*bufp] on,
    the packet is the first [len] of them; the packet, or nothing where the code
    returns 0. *)
Definition sl_uncompress_tcp (mem : list Z) (len : nat) (type : Z) (comp : slcompress) :
    option (slcompress * option (list Z)) :=
  if type =? TYPE_UNCOMPRESSED_TCP then recv_uncompressed mem len comp
  else if type =? TYPE_COMPRESSED_TCP then recv_compressed mem len comp
  else Some (bad comp).

End Machine.

(** ** The list of states in order of use *)

(** [path ts a l]: following the links from [a] one passes through [l]. *)
Fixpoint path (ts : list cstate) (a : nat) (l : list nat) : Prop :=
  match l with
  | [] => True
  | b :: l => cs_next <$> ts !! a = Some b ∧ path ts b l
  end.

(** The circular list: [o] are the states, the one used last first. *)
Definition ring (ts : list cstate) (lastcs : nat) (o : list nat) : Prop :=
  path ts lastcs o ∧ last o = Some lastcs ∧ o ≡ₚ seq 0 MAX_STATES ∧ length ts = MAX_STATES.

(** What a state holds apart from its link. *)
Definition contents (ts : list cstate) : list (Z * Z * list Z) :=
  (λ s, (cs_hlen s, cs_id s, cs_hdr s)) <$> ts.

Definition talks (d : list Z) (ts : list cstate) (i : nat) : Prop :=
  same_conversation d <$> ts !! i = Some true.

Lemma path_app ts a l b r : path ts a (l ++ b :: r) ↔ path ts a (l ++ [b]) ∧ path ts b r.
Proof. revert a. induction l as [|c l IH]; intros a; simpl; [|rewrite IH]; tauto. Qed.

Lemma path_alter ts a l b i n :
  path ts a (l ++ [b]) → i ∉ a :: l → path (alter (set_next n) i ts) a (l ++ [b]).
Proof.
  revert a. induction l as [|c l IH]; intros a; simpl; intros [H1 H2] Hi;
    rewrite not_elem_of_cons in Hi; destruct Hi as [Hi Hl]; rewrite list_lookup_alter_ne by done; [done|].
  by split; [|apply IH].
Qed.

Lemma contents_alter ts i n : contents (alter (set_next n) i ts) = contents ts.
Proof.
  unfold contents. apply list_eq. intros j. rewrite !list_lookup_fmap, list_lookup_alter.
  case_decide; [subst|done]. by destruct (ts !! j).
Qed.

Lemma ring_lookup ts lastcs o i : ring ts lastcs o → i ∈ o → ∃ s, ts !! i = Some s.
Proof.
  intros (_ & _ & Hp & Hl) Hi. rewrite Hp, elem_of_seq in Hi. apply lookup_lt_is_Some_2. lia.
Qed.

Lemma ring_NoDup ts lastcs o : ring ts lastcs o → NoDup o.
Proof. intros (_ & _ & Hp & _). rewrite Hp. apply NoDup_seq. Qed.

(** The search finds the first state of the conversation after its start, or stops
    at the end of the list. *)
Lemma search_spec d ts lastcs o1 : ∀ fuel h,
  path ts h o1 → o1 ≠ [] → last o1 = Some lastcs → NoDup o1 → (∀ i, i ∈ h :: o1 → is_Some (ts !! i)) →
  (length o1 <= fuel)%nat →
  ∃ l1 lcs x l2 found, search fuel d ts lastcs h = Some (lcs, x, found) ∧ h :: o1 = l1 ++ lcs :: x :: l2 ∧
    Forall (λ i, ¬ talks d ts i) (tail (l1 ++ [lcs])) ∧
    if (found : bool) then talks d ts x else ¬ talks d ts x ∧ l2 = [].
Proof.
  induction o1 as [|b o1 IH]; [done|]. intros fuel h [Hh Hp] _ Hl Hd Hin Hf.
  destruct fuel as [|fuel]; simpl in Hf; [lia|]. cbn [search].
  destruct (Hin h) as [s Es]; [left|]. rewrite Es in Hh |- *. cbn in Hh |- *. injection Hh as Hh. rewrite Hh.
  destruct (Hin b) as [s' Es']; [right; left|]. rewrite Es'. cbn.
  destruct (same_conversation d s') eqn:Em.
  { exists [], h, b, o1, true. split_and!; try done. unfold talks. rewrite Es'. cbn. by rewrite Em. }
  assert (Hn : ¬ talks d ts b) by (unfold talks; rewrite Es'; cbn; rewrite Em; congruence).
  case_bool_decide as Eb.
  { exists [], h, b, o1, false. split_and!; try done. destruct o1 as [|c o1]; [done|].
    rewrite last_cons_cons in Hl. apply last_Some_elem_of in Hl. rewrite NoDup_cons in Hd. subst. tauto. }
  assert (Hne : o1 ≠ []) by (intros ->; simpl in Hl; congruence).
  rewrite NoDup_cons in Hd. destruct (IH fuel b) as (l1 & lcs & x & l2 & found & Hs & Ho & Ht & Hr); try done.
  - destruct o1; [done|]. by rewrite last_cons_cons in Hl.
  - tauto.
  - intros i Hi. apply Hin. by right.
  - lia.
  - exists (h :: l1), lcs, x, l2, found. split_and!; try done; [by rewrite Ho|]. simpl.
    destruct (l1 ++ [lcs]) as [|y l] eqn:El; [by destruct l1|]. simpl in Ht.
    assert (y = b) as ->; [|by apply Forall_cons].
    destruct l1 as [|z l1]; simpl in Ho, El; congruence.
Qed.

(** Making the state before the last one the last turns the list by one. *)
Lemma ring_rotate ts lastcs l1 lcs :
  ring ts lastcs (l1 ++ [lcs; lastcs]) → ring ts lcs (lastcs :: l1 ++ [lcs]).
Proof.
  intros (Hp & _ & Hperm & Hlen). split_and!.
  - rewrite path_app in Hp. destruct Hp as [H1 [H2 _]]. split; [done|]. done.
  - by rewrite app_comm_cons, last_snoc.
  - rewrite <- Hperm. rewrite Permutation_middle. by rewrite (Permutation_swap lastcs lcs []).
  - done.
Qed.

(** Moving a state that is neither the first nor the last to the front. *)
Lemma ring_to_front ts lastcs l1 lcs x l2 :
  ring ts lastcs (l1 ++ lcs :: x :: l2) → x ≠ lastcs →
  ∃ ts', to_front lcs x lastcs ts = Some ts' ∧ ring ts' lastcs (x :: l1 ++ lcs :: l2) ∧ contents ts' = contents ts.
Proof.
  intros Hr Hx. pose proof (ring_NoDup _ _ _ Hr) as Hd. destruct Hr as (Hp & Hl & Hperm & Hlen).
  assert (Hl2 : ∃ l3, l2 = l3 ++ [lastcs]).
  { destruct l2 as [|y l2 _] using rev_ind.
    - change (l1 ++ [lcs; x]) with (l1 ++ [lcs] ++ [x]) in Hl. rewrite app_assoc, last_snoc in Hl. congruence.
    - rewrite app_comm_cons, app_comm_cons, app_assoc, last_snoc in Hl. injection Hl as ->. by exists l2. }
  destruct Hl2 as [l3 ->].
  apply NoDup_app in Hd. destruct Hd as (Hd1 & Hd2 & Hd3). rewrite !NoDup_cons in Hd3. destruct Hd3 as (Hlcs & Hxx & Hd3).
  apply NoDup_app in Hd3. destruct Hd3 as (Hd3 & Hd4 & _).
  assert (Hlx : lcs ≠ x) by (intros ->; apply Hlcs; left).
  assert (Hll : lcs ≠ lastcs) by (intros ->; apply Hlcs; right; apply elem_of_app; right; left).
  assert (Hl3 : ∀ i, i ∈ l3 → i ≠ lcs ∧ i ≠ x ∧ i ≠ lastcs).
  { intros i Hi. split_and!; intros ->.
    - apply Hlcs. right. apply elem_of_app. by left.
    - apply Hxx. apply elem_of_app. by left.
    - apply (Hd4 lastcs Hi). left. }
  assert (Hl1 : ∀ i, i ∈ l1 → i ≠ lcs ∧ i ≠ x ∧ i ≠ lastcs).
  { intros i Hi. split_and!; intros ->; apply (Hd2 _ Hi); [left|right; left|right; right; apply elem_of_app; right; left]. }
  rewrite path_app in Hp. destruct Hp as [Hp1 [Hn1 Hp2]].
  (* the links out of the last state, of [x] and into the rest *)
  destruct (ts !! lastcs) as [sl|] eqn:El; [|by destruct l1; simpl in Hp1; rewrite El in Hp1; destruct Hp1].
  destruct (ts !! x) as [sx|] eqn:Ex; [|by destruct l3; simpl in Hp2; rewrite Ex in Hp2; destruct Hp2].
  destruct (ts !! lcs) as [sc|] eqn:Ec; [|done].
  unfold to_front. rewrite Ex. cbn. rewrite list_lookup_alter_ne by done. rewrite El. cbn.
  eexists. split; [done|]. split; [|by rewrite !contents_alter].
  split_and!.
  - set (ts' := alter (set_next x) lastcs _).
    assert (Eh : ∀ i, i ≠ lcs → i ≠ x → i ≠ lastcs → ts' !! i = ts !! i).
    { intros i H1 H2 H3. unfold ts'. by rewrite !list_lookup_alter_ne by done. }
    assert (Hmono : ∀ l a b, (∀ i, i ∈ a :: l → i ≠ lcs ∧ i ≠ x ∧ i ≠ lastcs) → path ts a (l ++ [b]) → path ts' a (l ++ [b])).
    { intros l a b Hal Hpath. unfold ts'. repeat apply path_alter; try done; intros Hin; apply Hal in Hin; tauto. }
    assert (path ts' x (l1 ++ [lcs])) as Hq1.
    { assert (cs_next <$> ts' !! x = Some (cs_next sl)) as Ex'.
      { unfold ts'. rewrite list_lookup_alter_ne by done. rewrite list_lookup_alter_eq, list_lookup_alter_ne by done. by rewrite Ex. }
      destruct l1 as [|h l1]; simpl in Hp1 |- *; rewrite Ex'; rewrite El in Hp1; [done|].
      split; [tauto|]. apply Hmono; [done|tauto]. }
    assert (path ts' lcs (l3 ++ [lastcs])) as Hq2.
    { assert (cs_next <$> ts' !! lcs = Some (cs_next sx)) as Ec'.
      { unfold ts'. rewrite !list_lookup_alter_ne by done. rewrite list_lookup_alter_eq. by rewrite Ec. }
      destruct l3 as [|h l3]; simpl in Hp2 |- *; rewrite Ec'; rewrite Ex in Hp2; [done|].
      split; [tauto|]. apply Hmono; [done|tauto]. }
    split.
    + unfold ts'. rewrite list_lookup_alter_eq, !list_lookup_alter_ne by done. by rewrite El.
    + rewrite path_app. by split.
  - by rewrite app_comm_cons, app_comm_cons, app_assoc, last_snoc.
  - rewrite <- Hperm. rewrite Permutation_middle. by rewrite (Permutation_swap x lcs).
  - by rewrite !length_alter.
Qed.

(** The part of [locate] that matters to its caller: the states apart from the
    links and everything else are as before. *)
Definition relinked (c c' : slcompress) : Prop :=
  contents (tstate c') = contents (tstate c) ∧ last_recv c' = last_recv c ∧ last_xmit c' = last_xmit c ∧
  flags c' = flags c ∧ rstate c' = rstate c.

#[local] Arguments search : simpl never.

Lemma locate_lru d c o :
  ring (tstate c) (last_cs c) o →
  ∃ c' x found l1 l2, locate d c = Some (c', x, found) ∧ o = l1 ++ x :: l2 ∧
    Forall (λ i, ¬ talks d (tstate c) i) l1 ∧
    (if (found : bool) then talks d (tstate c) x else ¬ talks d (tstate c) x ∧ l2 = []) ∧
    ring (tstate c') (last_cs c') (x :: l1 ++ l2) ∧ relinked c c'.
Proof.
  intros Hr. pose proof (λ i, ring_lookup _ _ _ i Hr) as Hin. pose proof (ring_NoDup _ _ _ Hr) as Hd.
  pose proof Hr as (Hp & Hl & Hperm & Hlen).
  destruct o as [|h o1]; [done|]. destruct Hp as [Hh Hp].
  assert (Hlast : last_cs c ∈ h :: o1) by (apply last_Some_elem_of; done).
  destruct (Hin _ Hlast) as [sl El]. destruct (Hin h) as [sh Eh]; [left|].
  unfold locate. rewrite El in Hh |- *. cbn in Hh |- *. injection Hh as ->. rewrite Eh. cbn.
  destruct (same_conversation d sh) eqn:Em.
  { exists c, h, true, [], o1. split_and!; try done. unfold talks. rewrite Eh. cbn. by rewrite Em. }
  assert (Hne : o1 ≠ []). { intros ->. apply Permutation_length in Hperm. simpl in Hperm. done. }
  rewrite NoDup_cons in Hd. destruct (search_spec d (tstate c) (last_cs c) o1 MAX_STATES h) as (l1 & lcs & x & l2 & found & -> & Ho & Ht & Hf); try done.
  - destruct o1; [done|]. by rewrite last_cons_cons in Hl.
  - tauto.
  - apply Permutation_length in Hperm. rewrite length_seq in Hperm. simpl in Hperm. lia.
  - assert (Hl1 : Forall (λ i, ¬ talks d (tstate c) i) (l1 ++ [lcs])).
    { destruct (l1 ++ [lcs]) as [|y l] eqn:E; [done|]. apply Forall_cons. split; [|done].
      assert (y = h) as -> by (destruct l1; simpl in E, Ho; congruence). unfold talks. rewrite Eh. cbn. rewrite Em. congruence. }
    rewrite Ho in Hr, Hl. cbn.
    assert (Hrot : x = last_cs c → l2 = []).
    { intros ->. destruct l2 as [|y l2 _] using rev_ind; [done|]. exfalso. pose proof (ring_NoDup _ _ _ Hr) as Hn.
      rewrite !app_comm_cons, app_assoc, last_snoc in Hl. injection Hl as ->.
      apply NoDup_app in Hn. destruct Hn as (_ & _ & Hn). rewrite !NoDup_cons in Hn. destruct Hn as (_ & Hn & _).
      apply Hn. apply elem_of_app. right. left. }
    assert (Hend : l2 = [] → x = last_cs c).
    { intros ->. change (l1 ++ [lcs; x]) with (l1 ++ [lcs] ++ [x]) in Hl. rewrite app_assoc, last_snoc in Hl. congruence. }
    destruct found.
    + case_bool_decide as Ex.
      * exists (set_last_cs lcs c), x, true, (l1 ++ [lcs]), l2. rewrite <- app_assoc. specialize (Hrot Ex). subst. split_and!; try done.
        rewrite app_nil_r. by apply ring_rotate.
      * destruct (ring_to_front (tstate c) (last_cs c) l1 lcs x l2) as (ts' & -> & Hr' & Hc'); [done..|].
        exists (set_tstate ts' c), x, true, (l1 ++ [lcs]), l2. rewrite <- !app_assoc. split_and!; done.
    + destruct Hf as [Hf ->]. rewrite (Hend eq_refl) in Hr. exists (set_last_cs lcs c), x, false, (l1 ++ [lcs]), [].
      rewrite <- app_assoc, app_nil_r, (Hend eq_refl) in *. split_and!; try done. by apply ring_rotate.
Qed.

End SlComp.
