(* ===== verification/SlSync.v ===== *)
(** * Header compression: the two ends of a line

    The relation between the states of the compressor at one end of a line and of
    the decompressor at the other, and the proof that it is kept and that every
    packet comes out as it went in. *)

From S2P Require Import Prelude Cksum Tcp SlComp.
From stdpp Require Import options.

Module SlSync.

Import Tcp SlComp.

(** ** Fields *)

Lemma put16_length i v l : length (put16 i v l) = length l.
Proof. unfold put16. by rewrite !length_insert. Qed.

Lemma put32_length i v l : length (put32 i v l) = length l.
Proof. unfold put32. by rewrite !put16_length. Qed.

Lemma set_flag_length i b f l : length (set_flag i b f l) = length l.
Proof. unfold set_flag. by rewrite length_insert. Qed.

#[local] Hint Rewrite put16_length put32_length set_flag_length : anp.

Lemma put16_out i v l j : (j < i ∨ i + 2 <= j)%nat → put16 i v l !!! j = l !!! j.
Proof. intros H. unfold put16. by rewrite !list_lookup_total_insert_ne by lia. Qed.

Lemma put32_out i v l j : (j < i ∨ i + 4 <= j)%nat → put32 i v l !!! j = l !!! j.
Proof. intros H. unfold put32. by rewrite !put16_out by lia. Qed.

Lemma set_flag_out i b f l j : j ≠ i → set_flag i b f l !!! j = l !!! j.
Proof. intros H. unfold set_flag. by rewrite list_lookup_total_insert_ne. Qed.

Lemma put16_hi i v l : (i < length l)%nat → put16 i v l !!! i = u8 (Z.shiftr v 8).
Proof. intros H. unfold put16. rewrite list_lookup_total_insert_ne by lia. by rewrite list_lookup_total_insert_eq. Qed.

Lemma put16_lo i v l : (S i < length l)%nat → put16 i v l !!! S i = u8 v.
Proof. intros H. unfold put16. apply list_lookup_total_insert_eq. by rewrite length_insert. Qed.

(** The bytes of a header of [n] bytes. *)
Definition bytes (n : nat) (l : list Z) : Prop := ∀ j, (j < n)%nat → is_u8 (l !!! j).

Lemma be16_range n l i : bytes n l → (i + 1 < n)%nat → is_u16 (be16 l i).
Proof.
  intros Hb Hi. unfold be16. pose proof (Hb i ltac:(lia)). pose proof (Hb (S i) ltac:(lia)). unfold_ints. lia.
Qed.

Lemma be32_range n l i : bytes n l → (i + 3 < n)%nat → is_u32 (be32 l i).
Proof.
  intros Hb Hi. unfold be32. pose proof (be16_range n l i Hb ltac:(lia)).
  pose proof (be16_range n l (i + 2) Hb ltac:(lia)). unfold_ints. lia.
Qed.

(** Storing the value of a field of [d] makes the field that of [d]. *)
Lemma put16_same n d i l j :
  bytes n d → (i + 1 < n)%nat → (i + 1 < length l)%nat → (i <= j < i + 2)%nat → put16 i (be16 d i) l !!! j = d !!! j.
Proof.
  intros Hb Hn Hl Hj. pose proof (Hb i ltac:(lia)) as H1. pose proof (Hb (S i) ltac:(lia)) as H2.
  assert (j = i ∨ j = S i) as [-> | ->] by lia.
  - rewrite put16_hi by lia. unfold be16. rewrite Z.shiftr_div_pow2 by lia. change (2 ^ 8) with 256. wraplia.
  - rewrite put16_lo by lia. unfold be16. wraplia.
Qed.

Lemma put32_same n d i l j :
  bytes n d → (i + 3 < n)%nat → (i + 3 < length l)%nat → (i <= j < i + 4)%nat → put32 i (be32 d i) l !!! j = d !!! j.
Proof.
  intros Hb Hn Hl Hj. pose proof (be16_range n d i Hb ltac:(lia)) as H1.
  pose proof (be16_range n d (i + 2) Hb ltac:(lia)) as H2. unfold put32.
  assert (Z.shiftr (be32 d i) 16 = be16 d i) as ->.
  { unfold be32. rewrite Z.shiftr_div_pow2 by lia. change (2 ^ 16) with 65536. wraplia. }
  assert (u16 (be32 d i) = be16 d (i + 2)) as -> by (unfold be32; wraplia).
  destruct (decide (j < i + 2)%nat).
  - rewrite put16_out by lia. apply (put16_same n); try done; lia.
  - apply (put16_same n); rewrite ?put16_length; try done; lia.
Qed.

(** Equal bytes, equal fields. *)
Lemma be16_ext l l' i : (∀ j, (i <= j < i + 2)%nat → l !!! j = l' !!! j) → be16 l i = be16 l' i.
Proof. intros H. unfold be16. rewrite !H by lia. done. Qed.

Lemma be32_ext l l' i : (∀ j, (i <= j < i + 4)%nat → l !!! j = l' !!! j) → be32 l i = be32 l' i.
Proof. intros H. unfold be32. f_equal; [f_equal|]; apply be16_ext; intros; apply H; lia. Qed.

Lemma be16_inj n l l' i j :
  bytes n l → bytes n l' → (i + 1 < n)%nat → be16 l i = be16 l' i → (i <= j < i + 2)%nat → l !!! j = l' !!! j.
Proof.
  intros H H' Hi E Hj. pose proof (H i ltac:(lia)). pose proof (H (S i) ltac:(lia)).
  pose proof (H' i ltac:(lia)). pose proof (H' (S i) ltac:(lia)).
  unfold be16 in E. unfold_ints. assert (j = i ∨ j = S i) as [-> | ->] by lia; lia.
Qed.

Lemma be32_inj n l l' i j :
  bytes n l → bytes n l' → (i + 3 < n)%nat → be32 l i = be32 l' i → (i <= j < i + 4)%nat → l !!! j = l' !!! j.
Proof.
  intros H H' Hi E Hj. pose proof (be16_range n l i H ltac:(lia)). pose proof (be16_range n l (i + 2) H ltac:(lia)).
  pose proof (be16_range n l' i H' ltac:(lia)). pose proof (be16_range n l' (i + 2) H' ltac:(lia)).
  unfold be32 in E. unfold_ints.
  destruct (decide (j < i + 2)%nat); [apply (be16_inj n l l' i j)|apply (be16_inj n l l' (i + 2) j)]; try done; lia.
Qed.

(** Equal substrings, equal bytes. *)
Lemma sub_lookup i n l j : (i <= j < i + n)%nat → sub i n l !!! (j - i)%nat = l !!! j.
Proof.
  intros Hj. unfold sub. rewrite lookup_total_take_lt by lia. rewrite lookup_total_drop. f_equal. lia.
Qed.

Lemma sub_eq i n l l' j : sub i n l = sub i n l' → (i <= j < i + n)%nat → l !!! j = l' !!! j.
Proof. intros E Hj. by rewrite <- (sub_lookup i n l j), E, sub_lookup. Qed.

(** ** The coding of numbers *)

Lemma shiftr8 n : Z.shiftr n 8 = n / 256.
Proof. by rewrite Z.shiftr_div_pow2. Qed.

Lemma decode_long n cp : DECODE ([0; u8 (Z.shiftr n 8); u8 n] ++ cp) = Some (u16 n, cp).
Proof.
  cbn. f_equal. f_equal. rewrite lor_shiftl_add; [|lia|apply u8_range]. rewrite shiftr8. wraplia.
Qed.

Lemma decode_short n cp : u16 n ≠ 0 → u16 n < 256 → DECODE ([u8 n] ++ cp) = Some (u16 n, cp).
Proof.
  intros H0 H1. assert (u8 n = u16 n) as -> by wraplia. cbn. by rewrite (proj2 (Z.eqb_neq _ _) H0).
Qed.

Lemma decode_ENCODE n cp : u16 n ≠ 0 → DECODE (ENCODE n ++ cp) = Some (u16 n, cp).
Proof. intros H. unfold ENCODE. ifs; [apply decode_long|by apply decode_short]. Qed.

Lemma decode_ENCODEZ n cp : DECODE (ENCODEZ n ++ cp) = Some (u16 n, cp).
Proof.
  unfold ENCODEZ. destruct (256 <=? u16 n) eqn:E; cbn [orb]; [apply decode_long|].
  destruct (u16 n =? 0) eqn:E0; [apply decode_long|]. zbool. apply decode_short; lia.
Qed.

Lemma ENCODE_length n : (length (ENCODE n) <= 3)%nat.
Proof. unfold ENCODE. ifs; simpl; lia. Qed.

Lemma ENCODEZ_length n : (length (ENCODEZ n) <= 3)%nat.
Proof. unfold ENCODEZ. ifs; simpl; lia. Qed.

Lemma ENCODE_bytes n : Forall is_u8 (ENCODE n).
Proof. unfold ENCODE. ifs; repeat constructor; first [apply u8_range|done]. Qed.

Lemma ENCODEZ_bytes n : Forall is_u8 (ENCODEZ n).
Proof. unfold ENCODEZ. ifs; repeat constructor; first [apply u8_range|done]. Qed.

(** ** Headers *)

(** A TCP/IP header of [n] bytes that can be compressed: an acknowledgement without
    other control bits, reserved bits zero, and an urgent pointer exactly when the
    urgent bit is set. *)
Record header (n : nat) (c : list Z) : Prop := Header
  { hd_bytes : bytes n c;
    hd_hl : (5 <= ip_hl c)%nat;
    hd_off : (5 <= th_off (4 * ip_hl c) c)%nat;
    hd_len : n = (4 * (ip_hl c + th_off (4 * ip_hl c) c))%nat;
    hd_max : (n <= MAX_HDR)%nat;
    hd_x2 : Z.land (c !!! (4 * ip_hl c + 12)%nat) 15 = 0;
    hd_flags : Z.land (c !!! (4 * ip_hl c + 13)%nat) (Z.lnot (Z.lor TH_PUSH TH_URG)) = TH_ACK;
    hd_urg : ztrue (Z.land (c !!! (4 * ip_hl c + 13)%nat) TH_URG) = negb (be16 c (4 * ip_hl c + 18) =? 0) }.

Lemma header_ext n c c' : (∀ j, (j < n)%nat → c' !!! j = c !!! j) → header n c → header n c'.
Proof.
  intros E [Hb Hh Ho Hn Hm Hx Hf Hu].
  assert (Eh : ip_hl c' = ip_hl c) by (unfold ip_hl; by rewrite E by lia).
  assert (Eo : th_off (4 * ip_hl c) c' = th_off (4 * ip_hl c) c) by (unfold th_off; by rewrite E by lia).
  split; rewrite ?Eh, ?Eo; try done; rewrite ?E by lia; try done.
  - intros j Hj. rewrite E by done. by apply Hb.
  - rewrite Hu. do 2 f_equal. apply be16_ext. intros j Hj. symmetry. apply E. lia.
Qed.

Lemma forall_u8 (P : Z → bool) : forallb P (seqZ 0 256) = true → ∀ z, is_u8 z → P z = true.
Proof. intros H z Hz. rewrite forallb_forall in H. apply H. apply list_elem_of_In, elem_of_seqZ. unfold is_u8 in Hz. lia. Qed.

(** The flags of such a header are known from two bits. *)
Lemma flags_form f : is_u8 f → Z.land f (Z.lnot (Z.lor TH_PUSH TH_URG)) = TH_ACK →
  f = TH_ACK + (if ztrue (Z.land f TH_PUSH) then TH_PUSH else 0) + (if ztrue (Z.land f TH_URG) then TH_URG else 0).
Proof.
  intros Hu Hf. pose proof (forall_u8 (λ f, negb (Z.land f (Z.lnot (Z.lor TH_PUSH TH_URG)) =? TH_ACK) ||
    (f =? TH_ACK + (if ztrue (Z.land f TH_PUSH) then TH_PUSH else 0) + (if ztrue (Z.land f TH_URG) then TH_URG else 0)))) as H.
  specialize (H ltac:(by vm_compute) f Hu). cbv beta in H. rewrite (proj2 (Z.eqb_eq _ _) Hf) in H. by apply Z.eqb_eq.
Qed.

Lemma off_form b b' : is_u8 b → is_u8 b' → Z.land b 15 = 0 → Z.land b' 15 = 0 →
  Z.to_nat (Z.shiftr b 4) = Z.to_nat (Z.shiftr b' 4) → b = b'.
Proof.
  intros Hb Hb' H H' E. change 15 with (Z.ones 4) in *. rewrite Z.land_ones in * by lia.
  rewrite !Z.shiftr_div_pow2 in E by lia. change (2 ^ 4) with 16 in *. unfold is_u8 in *.
  apply Z2Nat.inj in E; [|Z.div_mod_to_equations; lia..]. Z.div_mod_to_equations. lia.
Qed.

(** ** What the compressor says *)

Definition mask4 (s a w u : bool) : Z :=
  (if s then NEW_S else 0) + (if a then NEW_A else 0) + (if w then NEW_W else 0) + (if u then NEW_U else 0).
Definition opt (b : bool) (l : list Z) : list Z := if b then l else [].

Lemma emits s a w u cs ca cw cu :
  add_change s NEW_S cs (add_change a NEW_A ca (add_change w NEW_W cw (add_change u NEW_U cu (0, [])))) =
  (mask4 s a w u, opt u cu ++ opt w cw ++ opt a ca ++ opt s cs).
Proof.
  unfold add_change, opt. destruct s, a, w, u; cbn [fst snd app]; rewrite ?app_nil_r, <- ?app_assoc; done.
Qed.

(** The changes and their codes for a header [d] after [c], by the case of the
    switch they come from. *)
Inductive coded (t : nat) (d c : list Z) (hlen : Z) : Z → list Z → Prop :=
  | coded_echo :
      ztrue (Z.land (d !!! (t + 13)%nat) TH_URG) = false → be16 d (t + 18) = be16 c (t + 18) →
      u16 (be16 d (t + 14) - be16 c (t + 14)) = 0 →
      u32 (be32 d (t + 8) - be32 c (t + 8)) = u32 (be16 c 2 - hlen) →
      u32 (be32 d (t + 4) - be32 c (t + 4)) = u32 (be16 c 2 - hlen) →
      coded t d c hlen SPECIAL_I []
  | coded_data :
      ztrue (Z.land (d !!! (t + 13)%nat) TH_URG) = false → be16 d (t + 18) = be16 c (t + 18) →
      u16 (be16 d (t + 14) - be16 c (t + 14)) = 0 →
      u32 (be32 d (t + 8) - be32 c (t + 8)) = 0 →
      u32 (be32 d (t + 4) - be32 c (t + 4)) = u32 (be16 c 2 - hlen) →
      coded t d c hlen SPECIAL_D []
  | coded_fields u dW dA dS :
      u = ztrue (Z.land (d !!! (t + 13)%nat) TH_URG) → (u = false → be16 d (t + 18) = be16 c (t + 18)) →
      dW = u16 (be16 d (t + 14) - be16 c (t + 14)) →
      dA = u32 (be32 d (t + 8) - be32 c (t + 8)) → dA <= 0xffff →
      dS = u32 (be32 d (t + 4) - be32 c (t + 4)) → dS <= 0xffff →
      mask4 (ztrue dS) (ztrue dA) (ztrue dW) u ≠ SPECIAL_I → mask4 (ztrue dS) (ztrue dA) (ztrue dW) u ≠ SPECIAL_D →
      coded t d c hlen (mask4 (ztrue dS) (ztrue dA) (ztrue dW) u)
        (opt u (ENCODEZ (be16 d (t + 18))) ++ opt (ztrue dW) (ENCODE dW) ++
         opt (ztrue dA) (ENCODE dA) ++ opt (ztrue dS) (ENCODE dS)).

Lemma mask4_inj s a w u s' a' w' u' : mask4 s a w u = mask4 s' a' w' u' → s = s' ∧ a = a' ∧ w = w' ∧ u = u'.
Proof. destruct s, a, w, u, s', a', w', u'; intros H; vm_compute in H; by split_and!. Qed.

Lemma ztrue_false z : ztrue z = false → z = 0.
Proof. unfold ztrue. intros H. by zbool. Qed.

Lemma encode_changes_coded d c hlen ch seq :
  encode_changes d c hlen = Some (ch, seq) → coded (4 * ip_hl d) d c hlen ch seq.
Proof.
  unfold encode_changes. set (t := (4 * ip_hl d)%nat). intros H.
  set (u := ztrue (Z.land (d !!! (t + 13)%nat) TH_URG)) in *.
  destruct (negb u && negb (be16 d (t + 18) =? be16 c (t + 18))) eqn:Eu; [done|].
  assert (Hu : u = false → be16 d (t + 18) = be16 c (t + 18)).
  { intros E. rewrite E in Eu. by destruct (Z.eqb_spec (be16 d (t + 18)) (be16 c (t + 18))). }
  set (dW := u16 _) in *. set (dA := u32 (be32 d (t + 8) - _)) in *. set (dS := u32 (be32 d (t + 4) - _)) in *.
  destruct (0xffff <? dA) eqn:EA; [done|]. destruct (0xffff <? dS) eqn:ES; [done|]. zbool.
  cbv zeta in H. rewrite emits in H.
  assert (Hf : mask4 (ztrue dS) (ztrue dA) (ztrue dW) u ≠ SPECIAL_I → mask4 (ztrue dS) (ztrue dA) (ztrue dW) u ≠ SPECIAL_D →
    coded t d c hlen (mask4 (ztrue dS) (ztrue dA) (ztrue dW) u)
        (opt u (ENCODEZ (be16 d (t + 18))) ++ opt (ztrue dW) (ENCODE dW) ++
         opt (ztrue dA) (ENCODE dA) ++ opt (ztrue dS) (ENCODE dS))) by (intros; by apply coded_fields).
  set (ch' := mask4 _ _ _ _) in *. destruct (ch' =? 0) eqn:E0.
  { zbool. rewrite E0 in *. destruct (negb (be16 d 2 =? be16 c 2) && (be16 c 2 =? hlen)); [|done]. injection H as <- <-. apply Hf; by vm_compute. }
  destruct ((ch' =? SPECIAL_I) || (ch' =? SPECIAL_D)) eqn:Esp; [done|]. zbool.
  destruct (ch' =? Z.lor NEW_S NEW_A) eqn:E1.
  { zbool. destruct ((dS =? dA) && _) eqn:E2; injection H as <- <-; [|by apply Hf]. zbool.
    apply (mask4_inj _ _ _ _ true true false false) in E1. destruct E1 as (? & ? & HW & E1).
    apply ztrue_false in HW. apply coded_echo; try tauto; unfold dA, dS in *; congruence. }
  destruct (ch' =? NEW_S) eqn:E2; [|injection H as <- <-; by apply Hf]. zbool.
  destruct (dS =? _) eqn:E3; injection H as <- <-; [|by apply Hf]. zbool.
  apply (mask4_inj _ _ _ _ true false false false) in E2. destruct E2 as (? & HA & HW & E2).
  apply ztrue_false in HW, HA. by apply coded_data; try tauto.
Qed.

(** ** What the decompressor makes of it

    [pending n fs old d h]: of the header [d] to be rebuilt, [h] has every byte but
    those of the fields [fs], which are still as in [old]. *)

Definition within (j : nat) (f : nat * nat) : Prop := (f.1 <= j < f.1 + f.2)%nat.

Record pending (n : nat) (fs : list (nat * nat)) (old d h : list Z) : Prop := Pending
  { pd_len : (n <= length h)%nat; pd_same : length h = length old;
    pd_done : ∀ j, (j < n)%nat → Forall (λ f, ¬ within j f) fs → h !!! j = d !!! j;
    pd_old : ∀ j, (j < n)%nat → Exists (within j) fs → h !!! j = old !!! j }.

(** [f] shares no byte with the fields [fs]. *)
Definition apart (f : nat * nat) (fs : list (nat * nat)) : Prop :=
  ∀ j, within j f → Forall (λ f, ¬ within j f) fs.

Ltac solve_apart :=
  let j := fresh in intros j; unfold within; simpl; intros; repeat constructor; simpl; lia.

Lemma settle n i k fs old d h h' :
  pending n ((i, k) :: fs) old d h → apart (i, k) fs → length h' = length h →
  (∀ j, (j < i ∨ i + k <= j)%nat → h' !!! j = h !!! j) →
  (∀ j, (j < n)%nat → (i <= j < i + k)%nat → h' !!! j = d !!! j) → pending n fs old d h'.
Proof.
  intros [Hl Hl' Hd Ho] Ha El Eo Ei. split; [lia|lia| |].
  - intros j Hj Hf. destruct (decide (i <= j < i + k)%nat); [by apply Ei|]. rewrite Eo by lia. apply Hd; [done|].
    apply Forall_cons. split; [|done]. unfold within. simpl. lia.
  - intros j Hj He. rewrite Eo; [by apply Ho; [|by apply Exists_cons_tl]|].
    destruct (decide (i <= j < i + k)%nat) as [Hin|]; [|lia]. exfalso.
    apply Ha in Hin. rewrite Exists_exists in He. destruct He as (f & Hf & Hw). rewrite Forall_forall in Hin. by apply (Hin f Hf).
Qed.

Lemma settle_keep n i k fs old d h :
  pending n ((i, k) :: fs) old d h → apart (i, k) fs →
  (∀ j, (j < n)%nat → (i <= j < i + k)%nat → old !!! j = d !!! j) → pending n fs old d h.
Proof.
  intros Hp Ha E. apply (settle n i k fs old d h h Hp Ha); try done. intros j Hj Hin. rewrite <- E by done.
  apply (pd_old _ _ _ _ _ Hp); [done|]. by left.
Qed.

Lemma pending_be16 n i fs old d h : pending n ((i, 2%nat) :: fs) old d h → (i + 1 < n)%nat → be16 h i = be16 old i.
Proof. intros Hp Hi. apply be16_ext. intros j Hj. apply (pd_old _ _ _ _ _ Hp); [lia|]. by left. Qed.

Lemma pending_be32 n i fs old d h : pending n ((i, 4%nat) :: fs) old d h → (i + 3 < n)%nat → be32 h i = be32 old i.
Proof. intros Hp Hi. apply be32_ext. intros j Hj. apply (pd_old _ _ _ _ _ Hp); [lia|]. by left. Qed.

Lemma settle_put16 n i fs old d h v :
  pending n ((i, 2%nat) :: fs) old d h → apart (i, 2%nat) fs → bytes n d → (i + 1 < n)%nat → v = be16 d i →
  pending n fs old d (put16 i v h).
Proof.
  intros Hp Ha Hb Hi ->. pose proof (pd_len _ _ _ _ _ Hp). apply (settle n i 2 fs old d h); try done.
  - apply put16_length.
  - intros j Hj. by apply put16_out.
  - intros j Hj Hin. apply (put16_same n); try done; lia.
Qed.

Lemma settle_put32 n i fs old d h v :
  pending n ((i, 4%nat) :: fs) old d h → apart (i, 4%nat) fs → bytes n d → (i + 3 < n)%nat → v = be32 d i →
  pending n fs old d (put32 i v h).
Proof.
  intros Hp Ha Hb Hi ->. pose proof (pd_len _ _ _ _ _ Hp). apply (settle n i 4 fs old d h); try done.
  - apply put32_length.
  - intros j Hj. by apply put32_out.
  - intros j Hj Hin. apply (put32_same n); try done; lia.
Qed.

(** One field of each kind. *)
Lemma step_DECODES n i fs old d h delta cp :
  pending n ((i, 2%nat) :: fs) old d h → apart (i, 2%nat) fs → bytes n d → bytes n old → (i + 1 < n)%nat →
  delta = u16 (be16 d i - be16 old i) →
  ∃ h', optional (ztrue delta) (DECODES i) (h, opt (ztrue delta) (ENCODE delta) ++ cp) = Some (h', cp) ∧
    pending n fs old d h'.
Proof.
  intros Hp Ha Hb Hb' Hi Hd. pose proof (be16_range _ _ i Hb ltac:(lia)) as R1.
  pose proof (be16_range _ _ i Hb' ltac:(lia)) as R2. pose proof (u16_range (be16 d i - be16 old i)) as R.
  rewrite <- Hd in R. unfold optional, opt. destruct (ztrue delta) eqn:Ed.
  - cbn [fst snd]. unfold DECODES. rewrite decode_ENCODE by (rewrite u16_id by done; intros E; by rewrite E in Ed).
    cbn. eexists. split; [done|]. apply settle_put16; try done. rewrite (pending_be16 _ _ _ _ _ _ Hp Hi), (u16_id delta) by done.
    rewrite Hd. wraplia.
  - exists h. split; [done|]. apply (settle_keep n i 2); try done. intros j Hj Hin. symmetry.
    apply (be16_inj n _ _ i); try done. apply ztrue_false in Ed. rewrite Ed in Hd. wraplia.
Qed.

Lemma step_DECODEL n i fs old d h delta cp :
  pending n ((i, 4%nat) :: fs) old d h → apart (i, 4%nat) fs → bytes n d → bytes n old → (i + 3 < n)%nat →
  delta = u32 (be32 d i - be32 old i) → delta <= 0xffff →
  ∃ h', optional (ztrue delta) (DECODEL i) (h, opt (ztrue delta) (ENCODE delta) ++ cp) = Some (h', cp) ∧
    pending n fs old d h'.
Proof.
  intros Hp Ha Hb Hb' Hi Hd Hm. pose proof (be32_range _ _ i Hb ltac:(lia)) as R1.
  pose proof (be32_range _ _ i Hb' ltac:(lia)) as R2. pose proof (u32_range (be32 d i - be32 old i)) as R.
  rewrite <- Hd in R. assert (is_u16 delta) as R' by (unfold_ints; lia). unfold optional, opt. destruct (ztrue delta) eqn:Ed.
  - cbn [fst snd]. unfold DECODEL. rewrite decode_ENCODE by (rewrite u16_id by done; intros E; by rewrite E in Ed).
    cbn. eexists. split; [done|]. apply settle_put32; try done. rewrite (pending_be32 _ _ _ _ _ _ Hp Hi), (u16_id delta) by done.
    rewrite Hd. wraplia.
  - exists h. split; [done|]. apply (settle_keep n i 4); try done. intros j Hj Hin. symmetry.
    apply (be32_inj n _ _ i); try done. apply ztrue_false in Ed. rewrite Ed in Hd. wraplia.
Qed.

Lemma step_DECODEU n i fs old d h u cp :
  pending n ((i, 2%nat) :: fs) old d h → apart (i, 2%nat) fs → bytes n d → bytes n old → (i + 1 < n)%nat →
  (u = false → be16 d i = be16 old i) →
  ∃ h', optional u (DECODEU i) (h, opt u (ENCODEZ (be16 d i)) ++ cp) = Some (h', cp) ∧ pending n fs old d h'.
Proof.
  intros Hp Ha Hb Hb' Hi Hu. pose proof (be16_range _ _ i Hb ltac:(lia)) as R1. destruct u; cbn.
  - unfold DECODEU. rewrite decode_ENCODEZ. cbn. eexists. split; [done|]. apply settle_put16; try done.
    by rewrite !u16_id by (try done; apply u16_range).
  - exists h. split; [done|]. apply (settle_keep n i 2); try done. intros j Hj Hin. symmetry.
    apply (be16_inj n _ _ i); try done. by apply Hu.
Qed.

Lemma land_mask changes ch k :
  Z.land changes SPECIALS_MASK = ch → Z.land SPECIALS_MASK k = k → Z.land changes k = Z.land ch k.
Proof. intros <- H. by rewrite <- Z.land_assoc, H. Qed.

Lemma mask4_bits s a w u :
  ztrue (Z.land (mask4 s a w u) NEW_U) = u ∧ ztrue (Z.land (mask4 s a w u) NEW_W) = w ∧
  ztrue (Z.land (mask4 s a w u) NEW_A) = a ∧ ztrue (Z.land (mask4 s a w u) NEW_S) = s.
Proof. by destruct s, a, w, u. Qed.

(** The fields the switch of the decompressor may change, and the others it leaves
    for later. *)
Definition late : list (nat * nat) := [(4, 2); (2, 2); (10, 2)]%nat.
Definition early (t : nat) : list (nat * nat) :=
  ((t + 13, 1) :: (t + 18, 2) :: (t + 14, 2) :: (t + 8, 4) :: (t + 4, 4) :: late)%nat.

(** The header before the switch: the receiver has the fields of [c], and of the
    flags all but the urgent bit are those of [d]. *)
Record before (n t : nat) (c d old : list Z) : Prop := Before
  { bf_t : (20 <= t)%nat; bf_n : (t + 20 <= n)%nat; bf_d : bytes n d; bf_o : bytes n old;
    bf_pending : pending n (early t) old d old;
    bf_len : be16 old 2 = be16 c 2; bf_win : be16 old (t + 14) = be16 c (t + 14);
    bf_urp : be16 old (t + 18) = be16 c (t + 18);
    bf_ack : be32 old (t + 8) = be32 c (t + 8); bf_seq : be32 old (t + 4) = be32 c (t + 4);
    bf_old_flags : old !!! (t + 13)%nat = TH_ACK + (if ztrue (Z.land (d !!! (t + 13)%nat) TH_PUSH) then TH_PUSH else 0) +
      (if be16 c (t + 18) =? 0 then 0 else TH_URG);
    bf_flags : d !!! (t + 13)%nat = TH_ACK + (if ztrue (Z.land (d !!! (t + 13)%nat) TH_PUSH) then TH_PUSH else 0) +
      (if ztrue (Z.land (d !!! (t + 13)%nat) TH_URG) then TH_URG else 0);
    bf_urg : ztrue (Z.land (d !!! (t + 13)%nat) TH_URG) = negb (be16 d (t + 18) =? 0) }.

(** Without an urgent bit before and after, the flags and the urgent pointer need
    no change. *)
Lemma before_not_urgent n t c d old :
  before n t c d old → ztrue (Z.land (d !!! (t + 13)%nat) TH_URG) = false → be16 d (t + 18) = be16 c (t + 18) →
  u16 (be16 d (t + 14) - be16 c (t + 14)) = 0 →
  pending n ((t + 8, 4) :: (t + 4, 4) :: late)%nat old d old.
Proof.
  intros B Hu Ep Ew. pose proof B as [Ht Hn Hd Ho Hp El Eww Eu _ _ Hof Hf Hg].
  rewrite Hu in Hg, Hf. symmetry in Hg. zbool. rewrite <- Ep, Hg in Hof.
  apply settle_keep in Hp; [|solve_apart|].
  { apply settle_keep in Hp; [|solve_apart|].
    { apply settle_keep in Hp; [done|solve_apart|]. intros j Hj Hin. symmetry. apply (be16_inj n _ _ (t + 14)); try done; [lia|].
      pose proof (be16_range n d (t + 14) Hd ltac:(lia)). pose proof (be16_range n old (t + 14) Ho ltac:(lia)).
      rewrite <- Eww in Ew. wraplia. }
    intros j Hj Hin. symmetry. apply (be16_inj n _ _ (t + 18)); try done; [lia|]. congruence. }
  intros j Hj Hin. assert (j = t + 13)%nat as -> by lia. rewrite Hof. symmetry. exact Hf.
Qed.

Lemma decode_changes_coded n t c d old hlen changes ch seq cp :
  before n t c d old → coded t d c hlen ch seq → Z.land changes SPECIALS_MASK = ch →
  ∃ h, decode_changes t changes hlen old (seq ++ cp) = Some (h, cp) ∧ pending n late old d h.
Proof.
  intros B Hc Hch. pose proof B as [Ht Hn Hd Ho Hp El Ew Eu Ea Es Hof Hf Hg]. unfold decode_changes. rewrite Hch.
  destruct Hc as [Hu Ep Hw HA HS|Hu Ep Hw HA HS|u dW dA dS Hu Ep HW HA HAm HS HSm N1 N2].
  - rewrite Z.eqb_refl. eexists. split; [done|].
    pose proof (before_not_urgent _ _ _ _ _ B Hu Ep Hw) as Hq.
    assert (Hq1 : pending n ((t + 4, 4) :: late)%nat old d (put32 (t + 8) (u32 (be32 old (t + 8) + u32 (be16 old 2 - hlen))) old)).
    { apply settle_put32; try done; [solve_apart|lia|]. pose proof (be32_range n d (t + 8) Hd ltac:(lia)).
      rewrite Ea, El, <- HA. wraplia. }
    apply settle_put32; try done; [solve_apart|lia|]. pose proof (be32_range n d (t + 4) Hd ltac:(lia)).
    rewrite (pending_be32 _ _ _ _ _ _ Hq1) by lia. rewrite Es, El, <- HS. wraplia.
  - change (SPECIAL_D =? SPECIAL_I) with false. rewrite Z.eqb_refl. eexists. split; [done|].
    pose proof (before_not_urgent _ _ _ _ _ B Hu Ep Hw) as Hq.
    apply settle_keep in Hq; [|solve_apart|].
    + apply settle_put32; try done; [solve_apart|lia|]. pose proof (be32_range n d (t + 4) Hd ltac:(lia)).
      rewrite Es, El. clear -H HS. wraplia.
    + intros j Hj Hin. symmetry. apply (be32_inj n _ _ (t + 8)); try done; [lia|].
      pose proof (be32_range n d (t + 8) Hd ltac:(lia)). pose proof (be32_range n old (t + 8) Ho ltac:(lia)).
      rewrite <- Ea in HA. clear -H H0 HA. wraplia.
  - rewrite (proj2 (Z.eqb_neq _ _) N1), (proj2 (Z.eqb_neq _ _) N2).
    rewrite !(land_mask _ _ _ Hch) by done. destruct (mask4_bits (ztrue dS) (ztrue dA) (ztrue dW) u) as (-> & -> & -> & ->).
    assert (H0 : pending n ((t + 18, 2) :: (t + 14, 2) :: (t + 8, 4) :: (t + 4, 4) :: late)%nat old d (set_flag (t + 13) u TH_URG old)).
    { apply (settle n (t + 13) 1 _ old d old); try done; [solve_apart|apply set_flag_length|intros j Hj; apply set_flag_out; lia|].
      intros j Hj Hin. assert (j = t + 13)%nat as -> by lia. unfold set_flag.
      rewrite list_lookup_total_insert_eq by (pose proof (pd_len _ _ _ _ _ Hp); lia).
      rewrite <- Hu in Hf. etransitivity; [|symmetry; exact Hf]. rewrite Hof. clear.
      destruct u, (ztrue (Z.land (d !!! (t + 13)%nat) TH_PUSH)), (be16 c (t + 18) =? 0); by vm_compute. }
    rewrite <- app_assoc. destruct (step_DECODEU _ _ _ _ _ _ u (opt (ztrue dW) (ENCODE dW) ++
      opt (ztrue dA) (ENCODE dA) ++ opt (ztrue dS) (ENCODE dS) ++ cp) H0) as (h1 & E1 & H1); try done; [solve_apart|lia| |].
    { intros Hf0. rewrite Eu. by apply Ep. }
    rewrite <- !app_assoc. rewrite E1. cbn [mbind option_bind].
    destruct (step_DECODES _ _ _ _ _ _ dW (opt (ztrue dA) (ENCODE dA) ++ opt (ztrue dS) (ENCODE dS) ++ cp) H1) as (h2 & E2 & H2);
      try done; [solve_apart|lia|by rewrite Ew|].
    rewrite E2. cbn [mbind option_bind].
    destruct (step_DECODEL _ _ _ _ _ _ dA (opt (ztrue dS) (ENCODE dS) ++ cp) H2) as (h3 & E3 & H3);
      try done; [solve_apart|lia|by rewrite Ea|].
    rewrite E3. cbn [mbind option_bind].
    destruct (step_DECODEL _ _ _ _ _ _ dS cp H3) as (h4 & E4 & H4); try done; [solve_apart|lia|by rewrite Es|].
    exists h4. by rewrite E4.
Qed.

(** ** What does not change *)

Lemma no_other_change d c :
  other_change d c = false →
  sub 0 2 d = sub 0 2 c ∧ sub 6 2 d = sub 6 2 c ∧ sub 8 2 d = sub 8 2 c ∧
  th_off (4 * ip_hl d) d = th_off (4 * ip_hl d) c ∧
  ((5 < ip_hl d)%nat → sub 20 (4 * (ip_hl d - 5)) d = sub 20 (4 * (ip_hl d - 5)) c) ∧
  ((5 < th_off (4 * ip_hl d) d)%nat →
    sub (4 * ip_hl d + 20) (4 * (th_off (4 * ip_hl d) d - 5)) d = sub (4 * ip_hl d + 20) (4 * (th_off (4 * ip_hl d) d - 5)) c).
Proof.
  unfold other_change. rewrite !orb_false_iff, !andb_false_iff, !negb_false_iff, !bool_decide_eq_true, !Nat.ltb_ge.
  intros (((((? & ?) & ?) & ?) & [?|?]) & [?|?]); split_and!; try done; lia.
Qed.

Lemma static_same n n' d s :
  header n (cs_hdr s) → header n' d → same_conversation d s = true → other_change d (cs_hdr s) = false →
  n' = n ∧ ip_hl d = ip_hl (cs_hdr s) ∧
  ∀ j, (j < n)%nat → Forall (λ f, ¬ within j f) ((4 * ip_hl d + 16, 2) :: early (4 * ip_hl d))%nat → d !!! j = cs_hdr s !!! j.
Proof.
  intros [Hb Hh Hof Hn Hm Hx Hf Hu] [Hb' Hh' Hof' Hn' Hm' Hx' Hf' Hu'] Hs Ho.
  apply no_other_change in Ho. destruct Ho as (E0 & E6 & E8 & Eo & Ei & Et).
  unfold same_conversation in Hs. rewrite !andb_true_iff, !bool_decide_eq_true in Hs. destruct Hs as ((E12 & E16) & Ep).
  assert (El : ip_hl d = ip_hl (cs_hdr s)) by (unfold ip_hl; by rewrite (sub_eq 0 2 _ _ 0 E0) by lia).
  rewrite <- El in *. split_and!; [lia|done|].
  intros j Hj Hout. set (t := (4 * ip_hl d)%nat) in *. unfold early, late, within in Hout. rewrite !Forall_cons in Hout. simpl in Hout.
  assert (j < 2 ∨ 6 <= j < 8 ∨ 8 <= j < 10 ∨ 12 <= j < 16 ∨ 16 <= j < 20 ∨ 20 <= j < t ∨ t <= j < t + 4 ∨ j = t + 12 ∨
    t + 20 <= j)%nat as Hc by lia.
  destruct Hc as [?|[?|[?|[?|[?|[?|[?|[?|?]]]]]]]].
  - apply (sub_eq 0 2); [done|lia].
  - apply (sub_eq 6 2); [done|lia].
  - apply (sub_eq 8 2); [done|lia].
  - apply (sub_eq 12 4); [done|lia].
  - apply (sub_eq 16 4); [done|lia].
  - apply (sub_eq 20 (4 * (ip_hl d - 5))); [apply Ei|]; lia.
  - apply (sub_eq t 4); [done|lia].
  - subst j. apply off_form; try done; [apply Hb'|apply Hb]; lia.
  - apply (sub_eq (t + 20) (4 * (th_off t d - 5))); [apply Et|]; lia.
Qed.

(** The header the receiver has after the transmitter sent [c]: the same, but for
    the checksum of the IP header. *)
Definition mirrors (n : nat) (c r : list Z) : Prop :=
  length r = MAX_HDR ∧ r !!! 10%nat = 0 ∧ r !!! 11%nat = 0 ∧
  ∀ j, (j < n)%nat → j ≠ 10%nat → j ≠ 11%nat → r !!! j = c !!! j.

Definition push_bit (t : nat) (d : list Z) : bool := ztrue (Z.land (d !!! (t + 13)%nat) TH_PUSH).

Lemma mirrors_before n d s r :
  header n (cs_hdr s) → header n d → same_conversation d s = true → other_change d (cs_hdr s) = false →
  mirrors n (cs_hdr s) r →
  let t := (4 * ip_hl d)%nat in
  before n t (cs_hdr s) d (set_flag (t + 13) (push_bit t d) TH_PUSH (put16 (t + 16) (be16 d (t + 16)) r)).
Proof.
  intros Hc Hd Hs Ho (Hr & R10 & R11 & Hm) t. destruct (static_same n n d s Hc Hd Hs Ho) as (_ & El & Hst). fold t in Hst.
  destruct Hc as [Cb Ch Co Cn Cm Cx Cf Cu]. destruct Hd as [Db Dh Do Dn Dm Dx Df Du]. rewrite <- El in *.
  fold t in Co, Cn, Cx, Cf, Cu, Do, Dn, Dx, Df, Du.
  set (c := cs_hdr s) in *. set (old := set_flag _ _ _ _).
  assert (Hold : ∀ j, (j < n)%nat → j ≠ (t + 13)%nat → (j < t + 16 ∨ t + 18 <= j)%nat → j ≠ 10%nat → j ≠ 11%nat → old !!! j = c !!! j).
  { intros j Hj N1 N2 N3 N4. unfold old. rewrite set_flag_out by done. rewrite put16_out by lia. by apply Hm. }
  assert (Hsum : ∀ j, (t + 16 <= j < t + 18)%nat → old !!! j = d !!! j).
  { intros j Hj. unfold old. rewrite set_flag_out by lia. apply (put16_same n); try done; [|unfold MAX_HDR in *|]; lia. }
  assert (Hfl : old !!! (t + 13)%nat = TH_ACK + (if push_bit t d then TH_PUSH else 0) + (if be16 c (t + 18) =? 0 then 0 else TH_URG)).
  { unfold old, set_flag. rewrite list_lookup_total_insert_eq by (rewrite put16_length, Hr; unfold MAX_HDR in *; lia).
    rewrite put16_out by lia. rewrite Hm by lia.
    pose proof (flags_form _ (Cb (t + 13)%nat ltac:(lia)) Cf) as F. rewrite Cu in F. rewrite F. clear.
    destruct (push_bit t d), (ztrue (Z.land (c !!! (t + 13)%nat) TH_PUSH)), (be16 c (t + 18) =? 0); by vm_compute. }
  assert (Hbo : bytes n old).
  { intros j Hj. destruct (decide (j = t + 13)%nat) as [->|N1].
    { rewrite Hfl. clear. destruct (push_bit t d), (be16 c (t + 18) =? 0); by vm_compute. }
    destruct (decide (t + 16 <= j < t + 18)%nat); [rewrite Hsum by done; by apply Db|].
    destruct (decide (j = 10 ∨ j = 11)%nat) as [[-> | ->]|]; [| |rewrite Hold by lia; by apply Cb];
      (unfold old; rewrite set_flag_out, put16_out by lia; rewrite ?R10, ?R11; done). }
  split; try done; try lia.
  - split.
    + unfold old. rewrite set_flag_length, put16_length, Hr. done.
    + done.
    + intros j Hj Hout. destruct (decide (t + 16 <= j < t + 18)%nat) as [Hi|Hi]; [by apply Hsum|].
      pose proof Hout as Hout'. unfold early, late, within in Hout'. rewrite !Forall_cons in Hout'. simpl in Hout'.
      rewrite Hold by lia. symmetry. apply Hst; [done|]. apply Forall_cons. split; [unfold within; simpl; lia|done].
    + done.
  - apply be16_ext. intros j Hj. apply Hold; lia.
  - apply be16_ext. intros j Hj. apply Hold; lia.
  - apply be16_ext. intros j Hj. apply Hold; lia.
  - apply be32_ext. intros j Hj. apply Hold; lia.
  - apply be32_ext. intros j Hj. apply Hold; lia.
  - apply flags_form; [apply Db; lia|done].
Qed.

(** ** The checksum of the IP header *)

Lemma list_ext (l l' : list Z) : length l = length l' → (∀ j, (j < length l)%nat → l !!! j = l' !!! j) → l = l'.
Proof.
  intros El E. apply (list_eq_same_length _ _ (length l)); [done..|]. intros i x y Hi Hx Hy.
  apply list_lookup_total_correct in Hx, Hy. rewrite <- Hx, <- Hy. by apply E.
Qed.

Lemma word_sum_bound big l : Forall is_u8 l → 0 <= Cksum.word_sum big l <= 65535 * Z.of_nat (length l).
Proof.
  revert l. fix IH 1. intros [|a [|b l]] H; [simpl; lia| |].
  - rewrite Forall_singleton in H. cbn [Cksum.word_sum]. pose proof (Cksum.word_range big a 0 H ltac:(done)). simpl length. lia.
  - rewrite !Forall_cons in H. destruct H as (Ha & Hb & Hl). cbn [Cksum.word_sum]. pose proof (Cksum.word_range big a b Ha Hb).
    specialize (IH l Hl). simpl length. lia.
Qed.

(** Folding twice is enough for a header: the result is the checksum of RFC 1071,
    the one [in_cksum] computes. *)
Lemma ip_header_sum_checksum big h :
  Forall is_u8 h → (length h <= 60)%nat → ip_header_sum big h = Cksum.checksum big h.
Proof.
  intros Hb Hl. pose proof (word_sum_bound big h Hb) as Hs. unfold ip_header_sum, Cksum.checksum.
  set (S := Cksum.word_sum big h) in *. rewrite (u32_id S) by (unfold is_u32; lia).
  assert (Hland : ∀ x, Z.land x 65535 = x mod 65536) by (intros x; apply (Z.land_ones x 16); lia).
  rewrite !Hland, !Z.shiftr_div_pow2 by lia. change (2 ^ 16) with 65536.
  set (c1 := S mod 65536 + S / 65536). set (c2 := c1 mod 65536 + c1 / 65536).
  assert (H1 : 0 <= c1 /\ c1 < 65536 + 60 /\ (∃ k, c1 = S + 65535 * k) /\ (c1 = 0 ↔ S = 0)).
  { unfold c1. split_and!; [Z.div_mod_to_equations; lia..|exists (- (S / 65536)); Z.div_mod_to_equations; lia|Z.div_mod_to_equations; lia]. }
  assert (H2 : 0 <= c2 /\ c2 <= 65535 /\ (∃ k, c2 = c1 + 65535 * k) /\ (c2 = 0 ↔ c1 = 0)).
  { unfold c2. destruct H1 as (? & ? & _ & _).
    split_and!; [Z.div_mod_to_equations; lia..|exists (- (c1 / 65536)); Z.div_mod_to_equations; lia|Z.div_mod_to_equations; lia]. }
  rewrite <- (Cksum.ones_complement_spec c2 S); [| |lia].
  - unfold Z.lnot, u16. replace (Z.pred (- c2)) with (65535 - c2 + (-1) * 65536) by lia.
    rewrite Z.mod_add by lia. apply Z.mod_small. lia.
  - destruct H1 as (? & ? & [k1 ?] & ?), H2 as (? & ? & [k2 ?] & ?). split_and!; try lia. exists (k1 + k2). lia.
Qed.

(** ** Packets *)

(** A packet of TCP that can be compressed: its header of [n] bytes lies in the data
    [d] of the first mbuf, the rest of its data is [rest], and length and checksum of
    the IP header are as IP sends them. *)
Record tcp_packet (big : bool) (n : nat) (d rest : list Z) : Prop := TcpPacket
  { tp_header : header n d;
    tp_len : (n <= length d)%nat;
    tp_version : Z.land (d !!! 0%nat) 0xf0 = 0x40;
    tp_p : d !!! 9%nat = IPPROTO_TCP;
    tp_total : be16 d 2 = Z.of_nat (length d + length rest);
    tp_sum : Cksum.word big (d !!! 10%nat) (d !!! 11%nat) = Cksum.checksum big (put16 10 0 (take (4 * ip_hl d) d)) }.

(** The packet from a header that lacks the checksum only. *)
Lemma store_sum_packet big n d rest h :
  tcp_packet big n d rest → (n <= length h)%nat → h !!! 10%nat = 0 → h !!! 11%nat = 0 →
  (∀ j, (j < n)%nat → j ≠ 10%nat → j ≠ 11%nat → h !!! j = d !!! j) →
  let pkt := take n h ++ drop n d ++ rest in
  store_sum big (ip_header_sum big (take (4 * ip_hl d) pkt)) pkt = d ++ rest.
Proof.
  intros [Hd Hl Hv Hp Ht Hs] Hh H10 H11 E pkt. pose proof Hd as [Db Dh Do Dn Dm _ _ _]. set (t := (4 * ip_hl d)%nat) in *.
  pose proof (Db 10%nat ltac:(lia)) as B10. pose proof (Db 11%nat ltac:(lia)) as B11.
  assert (Hlt : length (take n h) = n) by (rewrite length_take; lia).
  assert (Et : take t pkt = put16 10 0 (take t d)).
  { apply list_ext; [rewrite put16_length, !length_take; unfold pkt; rewrite !length_app, Hlt, length_drop; lia|].
    intros j Hj. assert (j < t)%nat by (rewrite length_take in Hj; lia). rewrite lookup_total_take_lt by done.
    unfold pkt. rewrite lookup_total_app_l by lia. rewrite lookup_total_take_lt by lia.
    destruct (decide (j = 10)%nat) as [->|]; [rewrite put16_hi by (rewrite length_take; lia); by rewrite H10|].
    destruct (decide (j = 11)%nat) as [->|]; [rewrite (put16_lo 10) by (rewrite length_take; lia); by rewrite H11|].
    rewrite put16_out by lia. rewrite lookup_total_take_lt by done. apply E; lia. }
  rewrite Et, ip_header_sum_checksum, <- Hs.
  - apply list_ext; [unfold store_sum, pkt; destruct big; rewrite !length_insert, !length_app, Hlt, length_drop; lia|].
    intros j Hj. assert (Ej : store_sum big (Cksum.word big (d !!! 10%nat) (d !!! 11%nat)) pkt !!! j =
      if decide (j = 10)%nat then d !!! 10%nat else if decide (j = 11)%nat then d !!! 11%nat else pkt !!! j).
    { unfold store_sum, Cksum.word. unfold is_u8 in *. assert (12 <= length pkt)%nat by (unfold pkt; rewrite length_app, Hlt; lia).
      destruct big; rewrite !list_lookup_total_insert, ?length_insert;
        repeat case_decide; subst; try lia; Z.div_mod_to_equations; lia. }
    rewrite Ej. destruct (decide (j = 10)%nat) as [->|]; [by rewrite lookup_total_app_l by lia|].
    destruct (decide (j = 11)%nat) as [->|]; [by rewrite lookup_total_app_l by lia|]. unfold pkt.
    destruct (decide (j < n)%nat).
    + rewrite lookup_total_app_l by lia. rewrite lookup_total_take_lt by lia. rewrite lookup_total_app_l by lia. by apply E.
    + rewrite lookup_total_app_r by lia. rewrite Hlt.
      assert (d ++ rest = take n d ++ drop n d ++ rest) as -> by (by rewrite app_assoc, take_drop).
      rewrite (lookup_total_app_r (take n d)) by (rewrite length_take; lia). rewrite length_take. f_equal. lia.
  - apply (Forall_lookup_total_2 is_u8). intros j Hj. rewrite put16_length, length_take in Hj.
    destruct (decide (j = 10)%nat) as [->|]; [rewrite put16_hi by (rewrite length_take; lia); done|].
    destruct (decide (j = 11)%nat) as [->|]; [rewrite (put16_lo 10) by (rewrite length_take; lia); done|].
    rewrite put16_out by lia. rewrite lookup_total_take_lt by lia. apply Db. lia.
  - rewrite put16_length, length_take. unfold ip_hl in t. pose proof (Db 0%nat ltac:(lia)) as B0.
    assert (Z.land (d !!! 0%nat) 15 < 16); [|lia]. change 15 with (Z.ones 4). rewrite Z.land_ones by lia. wraplia.
Qed.

(** ** Receiving *)

Lemma decode_id_ok n old d h b0 dI cp :
  pending n late old d h → bytes n d → bytes n old → (12 <= n)%nat →
  dI = u32 (be16 d 4 - be16 old 4) → ztrue (Z.land b0 NEW_I) = negb (dI =? 1) →
  ∃ h', decode_id b0 (h, opt (negb (dI =? 1)) (ENCODEZ dI) ++ cp) = Some (h', cp) ∧
    pending n [(2, 2); (10, 2)]%nat old d h'.
Proof.
  intros Hp Hb Hb' Hn Hd Hi. unfold decode_id. rewrite Hi. pose proof (be16_range _ _ 4 Hb ltac:(lia)) as R1.
  pose proof (be16_range _ _ 4 Hb' ltac:(lia)) as R2.
  destruct (Z.eqb_spec dI 1) as [E|E]; cbn [negb opt fst snd app].
  - eexists. split; [done|]. apply settle_put16; [done|solve_apart|done|lia|].
    rewrite (pending_be16 _ _ _ _ _ _ Hp) by lia. rewrite E in Hd. wraplia.
  - unfold DECODES. rewrite decode_ENCODEZ. cbn. eexists. split; [done|]. apply settle_put16; [done|solve_apart|done|lia|].
    rewrite (pending_be16 _ _ _ _ _ _ Hp) by lia. rewrite Hd. wraplia.
Qed.

(** What the first byte of a compressed packet says. *)
Record says (b0 ch : Z) (i p c : bool) : Prop := Says
  { sy_ch : Z.land b0 SPECIALS_MASK = ch; sy_i : ztrue (Z.land b0 NEW_I) = i;
    sy_p : ztrue (Z.land b0 TCP_PUSH_BIT) = p; sy_c : ztrue (Z.land b0 NEW_C) = c }.

(** The receiver's copy of conversation [id] after the packet. *)
Definition received (id : nat) (n : nat) (d : list Z) (r : cstate) (rc rc' : slcompress) : Prop :=
  ∃ r', rc' = set_recv (Z.of_nat id) (Z.land (flags rc) (Z.lnot SLF_TOSS)) (<[id := r']> (rstate rc)) rc ∧
    cs_hlen r' = Z.of_nat n ∧ mirrors n d (cs_hdr r').

Lemma land_toss f : Z.land f SLF_TOSS = 0 → Z.land f (Z.lnot SLF_TOSS) = f.
Proof.
  intros H. apply Z.bits_inj'. intros i Hi. apply (f_equal (λ z, Z.testbit z i)) in H.
  rewrite Z.land_spec, Z.bits_0 in H. rewrite Z.land_spec, Z.lnot_spec by done.
  destruct (Z.testbit f i), (Z.testbit SLF_TOSS i); done.
Qed.

(** The state index, explicit or that of the packet before. *)
Definition selected (id : nat) (rc : slcompress) : slcompress :=
  set_recv (Z.of_nat id) (Z.land (flags rc) (Z.lnot SLF_TOSS)) (rstate rc) rc.

Lemma state_index_ok b0 c id cp rc :
  ztrue (Z.land b0 NEW_C) = c → (id < MAX_STATES)%nat →
  (c = false → last_recv rc = Z.of_nat id ∧ Z.land (flags rc) SLF_TOSS = 0) →
  state_index b0 (opt c [Z.of_nat id] ++ cp) rc = Some (inr (selected id rc, cp)).
Proof.
  intros HC Hid Hlast. unfold state_index. rewrite HC. destruct c; cbn [opt app].
  - rewrite (proj2 (Z.leb_gt _ _)) by (unfold MAX_STATES in *; lia). done.
  - destruct (Hlast eq_refl) as [El Ef]. rewrite Ef. change (ztrue 0) with false. cbv iota. unfold selected.
    rewrite (land_toss _ Ef), <- El. by destruct rc.
Qed.

(** The two bytes of a field read back. *)
Lemma word_bytes v : is_u16 v → Z.lor (Z.shiftl (u8 (Z.shiftr v 8)) 8) (u8 v) = v.
Proof. intros Hv. rewrite lor_shiftl_add; [|lia|apply u8_range]. rewrite shiftr8. wraplia. Qed.

(** The length: the last field but the checksum. *)
Lemma settle_length big n d rest old h :
  tcp_packet big n d rest → (12 <= n)%nat → pending n [(2, 2); (10, 2)]%nat old d h → old !!! 10%nat = 0 → old !!! 11%nat = 0 →
  let h' := put16 2 (u16 (Z.of_nat (length (drop n d ++ rest) + n))) h in
  length h' = length old ∧ (n <= length h')%nat ∧ h' !!! 10%nat = 0 ∧ h' !!! 11%nat = 0 ∧
  ∀ j, (j < n)%nat → j ≠ 10%nat → j ≠ 11%nat → h' !!! j = d !!! j.
Proof.
  intros [Hd Hl _ _ Ht _] Hn Hp O10 O11 h'. pose proof (hd_bytes _ _ Hd) as Db. pose proof (be16_range n d 2 Db ltac:(lia)) as R2.
  assert (P : pending n [(10, 2)]%nat old d h').
  { apply settle_put16; [done|solve_apart|done|lia|]. rewrite Ht, length_app, length_drop. rewrite u16_id; [lia|].
    rewrite Ht in R2. unfold is_u16 in *. lia. }
  destruct P as [L L' D O]. split; [done|]. split; [done|].
  split; [rewrite O; [done|lia|left; unfold within; simpl; lia]|]. split; [rewrite O; [done|lia|left; unfold within; simpl; lia]|].
  intros j Hj N1 N2. apply D; [done|]. repeat constructor. unfold within. simpl. lia.
Qed.

Lemma recv_compressed_ok big n d rest s r rc ch seq id b0 c stale :
  tcp_packet big n d rest → header n (cs_hdr s) → same_conversation d s = true → other_change d (cs_hdr s) = false →
  cs_hlen r = Z.of_nat n → mirrors n (cs_hdr s) (cs_hdr r) → rstate rc !! id = Some r → (id < MAX_STATES)%nat →
  coded (4 * ip_hl d) d (cs_hdr s) (Z.of_nat n) ch seq →
  let dI := u32 (be16 d 4 - be16 (cs_hdr s) 4) in
  let t := (4 * ip_hl d)%nat in
  says b0 ch (negb (dI =? 1)) (push_bit t d) c →
  (c = false → last_recv rc = Z.of_nat id ∧ Z.land (flags rc) SLF_TOSS = 0) →
  let wire := b0 :: opt c [Z.of_nat id] ++ [u8 (Z.shiftr (be16 d (t + 16)) 8); u8 (be16 d (t + 16))] ++
    seq ++ opt (negb (dI =? 1)) (ENCODEZ dI) ++ drop n d ++ rest in
  ∃ rc', recv_compressed big (wire ++ stale) (length wire) rc = Some (rc', Some (d ++ rest)) ∧ received id n d r rc rc'.
Proof.
  intros Hpk Hc Hs Ho Hlen Hm Hr Hid Hcd dI t [Hch Hi Hp HC] Hlast wire.
  pose proof (tp_header _ _ _ _ Hpk) as Hd. pose proof (mirrors_before n d s (cs_hdr r) Hc Hd Hs Ho Hm) as B. cbv zeta in B. fold t in B.
  destruct (static_same n n d s Hc Hd Hs Ho) as (_ & Ehl & _).
  pose proof B as [Ht Hn Db Bo _ _ _ _ _ _ _ _ _].
  pose proof (be16_range n d (t + 16) Db ltac:(lia)) as Rs.
  (* the state index *)
  set (tail := u8 (Z.shiftr (be16 d (t + 16)) 8) :: u8 (be16 d (t + 16)) :: seq ++ opt (negb (dI =? 1)) (ENCODEZ dI) ++ drop n d ++ rest ++ stale).
  set (rc1 := selected id rc).
  assert (Ew : wire ++ stale = b0 :: opt c [Z.of_nat id] ++ tail).
  { unfold wire, tail. cbn [app]. f_equal. rewrite <- !app_assoc. do 2 f_equal. cbn [app]. do 2 f_equal. by rewrite <- !app_assoc. }
  rewrite Ew. unfold recv_compressed. rewrite (state_index_ok b0 c id tail rc HC Hid Hlast). fold rc1. cbn [mbind option_bind].
  change (rstate rc1) with (rstate rc). change (last_recv rc1) with (Z.of_nat id). rewrite Nat2Z.id, Hr. cbn [mbind option_bind].
  unfold tail at 1. cbv iota beta zeta.
  (* the header *)
  assert (Et : (4 * ip_hl (cs_hdr r))%nat = t).
  { unfold t. rewrite Ehl. f_equal. unfold ip_hl. destruct Hm as (_ & _ & _ & Hm). by rewrite Hm by lia. }
  rewrite Et, Hp, (word_bytes (be16 d (t + 16)) Rs).
  set (old := set_flag _ _ _ _) in B |- *.
  destruct (decode_changes_coded n t (cs_hdr s) d old (cs_hlen r) b0 ch seq
    (opt (negb (dI =? 1)) (ENCODEZ dI) ++ drop n d ++ rest ++ stale) B) as (h1 & -> & P1); [by rewrite Hlen|done|].
  cbn [mbind option_bind].
  assert (EdI : dI = u32 (be16 d 4 - be16 old 4)).
  { unfold dI. do 2 f_equal. unfold old. apply be16_ext. intros j Hj. rewrite set_flag_out, put16_out by lia.
    destruct Hm as (_ & _ & _ & Hm). symmetry. apply Hm; lia. }
  destruct (decode_id_ok n old d h1 b0 dI (drop n d ++ rest ++ stale) P1) as (h2 & -> & P2); try done; [lia|].
  cbn [mbind option_bind].
  (* the length *)
  assert (Hused : (length (b0 :: opt c [Z.of_nat id] ++ tail) - length (drop n d ++ rest ++ stale))%nat = (length wire - length (drop n d ++ rest))%nat).
  { rewrite <- Ew, !length_app. lia. }
  assert (Hwl : (length (drop n d ++ rest) <= length wire)%nat).
  { unfold wire. simpl length. rewrite !length_app. simpl length. rewrite !length_app. lia. }
  rewrite Hused. rewrite (proj2 (Nat.ltb_ge _ _)) by lia.
  replace (length wire - (length wire - length (drop n d ++ rest)))%nat with (length (drop n d ++ rest)) by lia.
  rewrite Hlen, Nat2Z.id. pose proof (hd_max _ _ Hd) as Hmax. rewrite (proj2 (Nat.ltb_ge MAX_HDR n)) by lia.
  pose proof Hm as (Hrl & R10 & R11 & _).
  destruct (settle_length big n d rest old h2) as (L3' & L3 & S10 & S11 & H3); try done; [lia|by unfold old; rewrite set_flag_out, put16_out by lia..|].
  set (h3 := put16 2 _ h2) in *.
  assert (take (length (drop n d ++ rest)) (drop n d ++ rest ++ stale) = drop n d ++ rest) as ->.
  { rewrite app_assoc. by rewrite take_app_length. }
  pose proof (store_sum_packet big n d rest h3 Hpk L3 S10 S11 H3) as Epk. cbv zeta in Epk.
  fold t in Epk. rewrite Epk.
  eexists. split; [done|]. exists (set_hdr h3 r). split_and!; try done.
  cbn. unfold mirrors. split_and!; try done. rewrite L3'. unfold old. by rewrite set_flag_length, put16_length.
Qed.

Lemma bcopy_lookup n src dst j : (n <= length src)%nat → (j < n)%nat → bcopy n src dst !!! j = src !!! j.
Proof.
  intros Hn Hj. unfold bcopy. rewrite lookup_total_app_l by (rewrite length_take; lia). by apply lookup_total_take_lt.
Qed.

Lemma bcopy_length n src dst : (n <= length src)%nat → (n <= length dst)%nat → length (bcopy n src dst) = length dst.
Proof. intros H1 H2. unfold bcopy. rewrite length_app, length_take, length_drop. lia. Qed.

Lemma recv_uncompressed_ok big n d rest r rc id stale :
  tcp_packet big n d rest → rstate rc !! id = Some r → (id < MAX_STATES)%nat → length (cs_hdr r) = MAX_HDR →
  let wire := <[9%nat := Z.of_nat id]> d ++ rest in
  ∃ rc', recv_uncompressed (wire ++ stale) (length wire) rc = Some (rc', Some (d ++ rest)) ∧ received id n d r rc rc'.
Proof.
  intros Hpk Hr Hid Hl wire. destruct Hpk as [[Db Dh Do Dn Dm _ _ _] Hld _ Hp _ _]. unfold recv_uncompressed, wire.
  rewrite <- app_assoc, lookup_app_l by (rewrite length_insert; lia).
  rewrite list_lookup_insert_eq by lia. cbn [mbind option_bind].
  rewrite (proj2 (Z.leb_gt _ _)) by (unfold MAX_STATES in *; lia).
  rewrite insert_app_l by (rewrite length_insert; lia). rewrite list_insert_insert_eq.
  assert (<[9%nat := IPPROTO_TCP]> d = d) as ->.
  { apply list_insert_id. rewrite <- Hp. apply list_lookup_lookup_total_lt. lia. }
  rewrite Nat2Z.id, Hr. cbn [mbind option_bind].
  assert (E : ∀ j, (j < n)%nat → (d ++ rest ++ stale) !!! j = d !!! j) by (intros; apply lookup_total_app_l; lia).
  assert (Eh : ip_hl (d ++ rest ++ stale) = ip_hl d) by (unfold ip_hl; by rewrite E by lia).
  assert (Eo : th_off (4 * ip_hl d) (d ++ rest ++ stale) = th_off (4 * ip_hl d) d) by (unfold th_off; by rewrite E by lia).
  rewrite Eh, Eo, <- Dn. rewrite !length_app, !length_insert.
  rewrite (proj2 (Nat.ltb_ge _ (4 * ip_hl d + 13))) by lia. rewrite (proj2 (Nat.ltb_ge _ n)) by lia.
  rewrite (proj2 (Nat.ltb_ge MAX_HDR n)) by lia. cbn [orb].
  rewrite (app_assoc d rest stale), <- length_app, take_app_length, <- (app_assoc d rest stale).
  eexists. split; [done|]. eexists. split; [done|]. split; [done|]. cbn [cs_hdr].
  assert (Hbl : length (bcopy n (d ++ rest ++ stale) (cs_hdr r)) = MAX_HDR) by (rewrite bcopy_length; rewrite ?length_app; lia).
  split_and!.
  - by rewrite put16_length.
  - rewrite put16_hi; [done|]. rewrite Hbl. unfold MAX_HDR. lia.
  - rewrite (put16_lo 10); [done|]. rewrite Hbl. unfold MAX_HDR. lia.
  - intros j Hj N1 N2. rewrite put16_out by lia. rewrite bcopy_lookup by (rewrite ?length_app; lia). by apply E.
Qed.

(** ** Both ends *)

(** A state of the transmitter and the one of the receiver: never used, or holding
    the same header. *)
Definition in_step (s r : cstate) : Prop :=
  length (cs_hdr s) = MAX_HDR ∧ length (cs_hdr r) = MAX_HDR ∧
  (cs_hdr s !!! 0%nat = 0 ∨
   ∃ n, header n (cs_hdr s) ∧ cs_hlen r = Z.of_nat n ∧ mirrors n (cs_hdr s) (cs_hdr r)).

Record synced (tc rc : slcompress) : Prop := Synced
  { sc_ring : ∃ o, ring (tstate tc) (last_cs tc) o;
    sc_rlen : length (rstate rc) = MAX_STATES;
    sc_states : ∀ i s r, tstate tc !! i = Some s → rstate rc !! i = Some r → cs_id s = Z.of_nat i ∧ in_step s r;
    sc_last : last_xmit tc = 255 ∨ (last_recv rc = last_xmit tc ∧ Z.land (flags rc) SLF_TOSS = 0) }.

Lemma path_ext ts ts' a l : (∀ i, cs_next <$> ts' !! i = cs_next <$> ts !! i) → path ts a l → path ts' a l.
Proof. intros E. revert a. induction l as [|b l IH]; intros a; simpl; [done|]. rewrite E. intros [? ?]. split; [done|by apply IH]. Qed.

Lemma ring_set_hdr ts lastcs o x s h :
  ring ts lastcs o → ts !! x = Some s → ring (<[x := set_hdr h s]> ts) lastcs o.
Proof.
  intros (Hp & Hl & Ho & Hn) Hx. split_and!; try done; [|by rewrite length_insert].
  eapply path_ext; [|done]. intros i. destruct (decide (i = x)) as [->|].
  - rewrite list_lookup_insert_eq by (by eapply lookup_lt_Some). by rewrite Hx.
  - by rewrite list_lookup_insert_ne.
Qed.

Lemma contents_lookup ts ts' i s' :
  contents ts' = contents ts → ts' !! i = Some s' →
  ∃ s, ts !! i = Some s ∧ cs_hlen s' = cs_hlen s ∧ cs_id s' = cs_id s ∧ cs_hdr s' = cs_hdr s.
Proof.
  intros E H. apply (f_equal (.!! i)) in E. unfold contents in E. rewrite !list_lookup_fmap, H in E.
  destruct (ts !! i) as [s|]; [|done]. simpl in E. injection E as ? ? ?. by exists s.
Qed.

(** Finding the state of a packet keeps the two ends in step. *)
Lemma relinked_synced tc tc' rc o :
  synced tc rc → relinked tc tc' → ring (tstate tc') (last_cs tc') o → synced tc' rc.
Proof.
  intros [_ Hl Hs Hx] (Ec & _ & Ex & _ & _) Ho. split; [by exists o|done| |by rewrite Ex].
  intros i s' r Hs' Hr. destruct (contents_lookup _ _ _ _ Ec Hs') as (s & Hi & _ & Eid & Eh).
  unfold in_step. rewrite Eid, Eh. by apply Hs.
Qed.

(** After a packet both ends hold its header. *)
Lemma received_synced tc rc rc' x s r n d :
  synced tc rc → tstate tc !! x = Some s → rstate rc !! x = Some r → header n d → (n <= length d)%nat →
  received x n d r rc rc' →
  synced (set_xmit (cs_id s) (<[x := set_hdr (bcopy n d (cs_hdr s)) s]> (tstate tc)) tc) rc'.
Proof.
  intros [[o Ho] Hl Hs Hx] Hs' Hr Hd Hn (r' & -> & Eh & Hm). destruct (Hs x s r Hs' Hr) as (Eid & Ls & Lr & _).
  assert (Hb : ∀ j, (j < n)%nat → bcopy n d (cs_hdr s) !!! j = d !!! j) by (intros; by apply bcopy_lookup).
  split.
  - exists o. by apply ring_set_hdr.
  - cbn. by rewrite length_insert.
  - intros i s1 r1 H1 H2. cbn in H1, H2. destruct (decide (i = x)) as [->|N].
    + rewrite list_lookup_insert_eq in H1, H2 by (by eapply lookup_lt_Some). injection H1 as <-. injection H2 as <-.
      split; [done|]. cbn. pose proof Hm as (Lm & M10 & M11 & Mm). pose proof (hd_max _ _ Hd).
      split; [cbn; rewrite bcopy_length; [done|done|by rewrite Ls]|]. split; [done|]. right. exists n.
      split; [by apply (header_ext n d)|]. split; [done|]. split_and!; try done.
      intros j Hj N1 N2. cbn. rewrite Hb by done. by apply Mm.
    + rewrite list_lookup_insert_ne in H1, H2 by done. by apply Hs.
  - right. cbn. split; [by rewrite Eid|]. rewrite <- Z.land_assoc. change (Z.land (Z.lnot SLF_TOSS) SLF_TOSS) with 0. apply Z.land_0_r.
Qed.

(** The first byte of a compressed packet on the line. *)
Definition first_byte (ch : Z) (i p c : bool) : Z :=
  let x := if i then Z.lor ch NEW_I else ch in
  let x := if p then Z.lor x TCP_PUSH_BIT else x in u8 (if c then Z.lor x NEW_C else x).

Lemma first_byte_says ch i p c : 0 <= ch < 16 →
  says (Z.lor (first_byte ch i p c) TYPE_COMPRESSED_TCP) ch i p c ∧ 0 <= first_byte ch i p c < 128.
Proof.
  intros H. assert (∃ k : nat, ch = Z.of_nat k ∧ (k < 16)%nat) as (k & -> & Hk) by (exists (Z.to_nat ch); lia). clear H.
  do 16 (destruct k as [|k]; [by destruct i, p, c|]). lia.
Qed.

Lemma coded_range t d c hlen ch seq : coded t d c hlen ch seq → 0 <= ch < 16.
Proof. intros [ | |u dW dA dS]; [done|done|]. destruct (ztrue dS), (ztrue dA), (ztrue dW), u; done. Qed.

Lemma coded_length t d c hlen ch seq : coded t d c hlen ch seq → (length seq <= 12)%nat.
Proof.
  intros [ | |u dW dA dS]; [simpl; lia..|]. rewrite !length_app.
  pose proof (ENCODEZ_length (be16 d (t + 18))). pose proof (ENCODE_length dW). pose proof (ENCODE_length dA). pose proof (ENCODE_length dS).
  unfold opt. ifs; simpl; lia.
Qed.

Lemma coded_bytes t d c hlen ch seq : coded t d c hlen ch seq → Forall is_u8 seq.
Proof.
  intros [ | |u dW dA dS]; [done..|]. unfold opt. rewrite !Forall_app.
  split_and!; ifs; auto using ENCODE_bytes, ENCODEZ_bytes.
Qed.

(** A packet that is sent as it is. *)
Definition sent_plain (d : list Z) : Prop :=
  Z.land (be16 d 6) 0x3fff ≠ 0 ∨ (length d < 40)%nat ∨
  ((4 * ip_hl d + 14 <= length d)%nat ∧
   Z.land (d !!! (4 * ip_hl d + 13)%nat) (Z.lor TH_SYN (Z.lor TH_FIN (Z.lor TH_RST TH_ACK))) ≠ TH_ACK).

Lemma ztrue_spec z : ztrue z = true ↔ z ≠ 0.
Proof. unfold ztrue. rewrite negb_true_iff. apply Z.eqb_neq. Qed.

Lemma compress_plain d tc cid : sent_plain d → sl_compress_tcp d tc cid = Some (tc, d, TYPE_IP).
Proof.
  intros H. unfold sl_compress_tcp. destruct (ztrue (Z.land (be16 d 6) 0x3fff)) eqn:Ef; [done|]. cbn [orb].
  destruct (length d <? 40)%nat eqn:El; [done|]. apply Nat.ltb_ge in El. apply ztrue_false in Ef.
  destruct H as [H|[H|[H1 H2]]]; [done|lia|]. rewrite (proj2 (Nat.ltb_ge _ _)) by done.
  by rewrite (proj2 (Z.eqb_neq _ _) H2).
Qed.

Lemma header_not_syn n d : header n d →
  Z.land (d !!! (4 * ip_hl d + 13)%nat) (Z.lor TH_SYN (Z.lor TH_FIN (Z.lor TH_RST TH_ACK))) = TH_ACK.
Proof.
  intros [Hb Hh Ho Hn _ _ Hf _]. rewrite (flags_form _ (Hb (4 * ip_hl d + 13)%nat ltac:(lia)) Hf).
  by destruct (ztrue (Z.land _ TH_PUSH)), (ztrue (Z.land _ TH_URG)).
Qed.

(** What the other end does with the data [d'] and the rest of the packet, of type
    [ty], after [slstart] put the type into the first byte. *)
Definition delivers (big : bool) (tc' : slcompress) (d' : list Z) (ty : Z) (d rest : list Z) (rc : slcompress) : Prop :=
  (ty = TYPE_UNCOMPRESSED_TCP ∧ d' !!! 0%nat = d !!! 0%nat ∧ length d' = length d ∧ (Forall is_u8 d → Forall is_u8 d') ∧
    ∀ stale, ∃ rc', sl_uncompress_tcp big (d' ++ rest ++ stale) (length (d' ++ rest)) ty rc = Some (rc', Some (d ++ rest)) ∧
      synced tc' rc') ∨
  (ty = TYPE_COMPRESSED_TCP ∧ ∃ b0 b, d' = b0 :: b ∧ 0 <= b0 < 128 ∧ (2 <= length b)%nat ∧ (length d' <= length d)%nat ∧
    (Forall is_u8 d → Forall is_u8 b) ∧
    ∀ stale, ∃ rc', sl_uncompress_tcp big (Z.lor b0 TYPE_COMPRESSED_TCP :: b ++ rest ++ stale) (length (d' ++ rest)) ty rc =
        Some (rc', Some (d ++ rest)) ∧ synced tc' rc').

Lemma uncompressed_delivers big n d rest tc rc x s r :
  synced tc rc → tcp_packet big n d rest → tstate tc !! x = Some s → rstate rc !! x = Some r →
  ∃ tc' d', send_uncompressed d n x tc = Some (tc', d', TYPE_UNCOMPRESSED_TCP) ∧
    delivers big tc' d' TYPE_UNCOMPRESSED_TCP d rest rc.
Proof.
  intros Hy Hpk Hs Hr. destruct (sc_states _ _ Hy x s r Hs Hr) as (Eid & _ & Lr & _).
  unfold send_uncompressed. rewrite Hs. cbn [mbind option_bind]. do 2 eexists. split; [done|]. left.
  assert (Hx : (x < MAX_STATES)%nat) by (rewrite <- (sc_rlen _ _ Hy); by eapply lookup_lt_Some).
  split_and!; [done|by rewrite list_lookup_total_insert_ne|by rewrite length_insert| |].
  { intros Hu. rewrite Eid. apply Forall_insert; [done|]. unfold is_u8, MAX_STATES in *. lia. }
  intros stale. rewrite Eid.
  destruct (recv_uncompressed_ok big n d rest r rc x stale Hpk Hr Hx Lr) as (rc' & E & Hrec).
  exists rc'. split; [by rewrite app_assoc|]. rewrite <- Eid.
  by eapply received_synced; [..|exact (tp_header _ _ _ _ Hpk)|exact (tp_len _ _ _ _ Hpk)|].
Qed.

Lemma encode_rest_eq d c ch seq :
  let dI := u32 (be16 d 4 - be16 c 4) in let i := negb (dI =? 1) in
  encode_rest d c (ch, seq) =
    (let x := if i then Z.lor ch NEW_I else ch in if push_bit (4 * ip_hl d) d then Z.lor x TCP_PUSH_BIT else x,
     seq ++ opt i (ENCODEZ dI)).
Proof.
  unfold encode_rest, add_change, opt. fold (push_bit (4 * ip_hl d) d).
  destruct (negb _); cbn; rewrite ?app_nil_r; by destruct (push_bit _ _).
Qed.

Lemma compressed_delivers big n d rest tc rc x s r ch seq cid :
  synced tc rc → tcp_packet big n d rest → tstate tc !! x = Some s → rstate rc !! x = Some r →
  same_conversation d s = true → other_change d (cs_hdr s) = false →
  header n (cs_hdr s) → cs_hlen r = Z.of_nat n → mirrors n (cs_hdr s) (cs_hdr r) →
  coded (4 * ip_hl d) d (cs_hdr s) (Z.of_nat n) ch seq →
  let '(changes, new_seq) := encode_rest d (cs_hdr s) (ch, seq) in
  ∃ tc' d', send_compressed d n x changes new_seq cid tc = Some (tc', d', TYPE_COMPRESSED_TCP) ∧
    delivers big tc' d' TYPE_COMPRESSED_TCP d rest rc.
Proof.
  intros Hy Hpk Hs Hr Hsame Hoth Hh Hlen Hm Hcd. rewrite encode_rest_eq. set (dI := u32 _). set (i := negb (dI =? 1)).
  set (t := (4 * ip_hl d)%nat) in *. set (changes := if push_bit t d then _ else _).
  pose proof (tp_len _ _ _ _ Hpk) as Hld. pose proof (tp_header _ _ _ _ Hpk) as Hd. pose proof Hd as [Db Dh Do Dn Dm _ _ _]. fold t in Do, Dn.
  destruct (sc_states _ _ Hy x s r Hs Hr) as (Eid & _ & Lr & _).
  assert (Hx : (x < MAX_STATES)%nat) by (rewrite <- (sc_rlen _ _ Hy); by eapply lookup_lt_Some).
  set (c := (cid =? 0) || negb (last_xmit tc =? cs_id s)).
  unfold send_compressed. rewrite Hs. cbn [mbind option_bind]. fold t. fold c.
  set (cp := if c then _ else _). assert (Ecp : cp = first_byte ch i (push_bit t d) c :: opt c [Z.of_nat x]).
  { unfold cp. rewrite Eid. by destruct c. }
  pose proof (coded_length _ _ _ _ _ _ Hcd) as Lseq. pose proof (ENCODEZ_length dI) as Lid.
  assert (Lopt : (length (opt i (ENCODEZ dI)) <= 3)%nat) by (unfold opt; destruct i; simpl; lia).
  assert (Lcp : (1 <= length cp <= 2)%nat) by (rewrite Ecp; destruct c; simpl; lia).
  match goal with |- context [(n <? length ?h)%nat] => set (hdr := h) end.
  assert (Lh : (length hdr = length cp + 2 + length seq + length (opt i (ENCODEZ dI)))%nat).
  { unfold hdr. rewrite !length_app. simpl. lia. }
  rewrite (proj2 (Nat.ltb_ge _ _)) by lia. do 2 eexists. split; [done|]. right. split; [done|].
  destruct (first_byte_says ch i (push_bit t d) c (coded_range _ _ _ _ _ _ Hcd)) as [Hsay Hb0].
  assert (Ehdr : hdr ++ drop n d = first_byte ch i (push_bit t d) c :: opt c [Z.of_nat x] ++
    [u8 (Z.shiftr (be16 d (t + 16)) 8); u8 (be16 d (t + 16))] ++ seq ++ opt i (ENCODEZ dI) ++ drop n d).
  { unfold hdr. rewrite Ecp. cbn [app]. f_equal. rewrite <- !app_assoc. cbn [app]. by rewrite <- !app_assoc. }
  do 2 eexists. split; [exact Ehdr|]. split; [done|].
  split; [rewrite !length_app; simpl; lia|]. split; [rewrite length_app, length_drop; lia|].
  split.
  { intros Hu. rewrite !Forall_app. split_and!.
    - destruct c; [|done]. apply Forall_singleton. unfold is_u8, MAX_STATES in *. lia.
    - repeat constructor; apply u8_range.
    - by eapply coded_bytes.
    - unfold opt. destruct i; [apply ENCODEZ_bytes|done].
    - by apply Forall_drop. }
  intros stale.
  destruct (recv_compressed_ok big n d rest s r rc ch seq x (Z.lor (first_byte ch i (push_bit t d) c) TYPE_COMPRESSED_TCP) c stale)
    as (rc' & E & Hrec); try done.
  { intros Ec. unfold c in Ec. apply orb_false_iff in Ec. destruct Ec as [_ Ec]. zbool.
    destruct (sc_last _ _ Hy) as [E255|[E1 E2]]; [|split; [congruence|done]].
    rewrite E255, Eid in Ec. unfold MAX_STATES in Hx. lia. }
  exists rc'. split; [|by eapply received_synced].
  unfold sl_uncompress_tcp. cbn [Z.eqb TYPE_COMPRESSED_TCP TYPE_UNCOMPRESSED_TCP Pos.eqb].
  etransitivity; [|exact E]. f_equal.
  - cbn [app]. f_equal. rewrite <- !app_assoc. cbn [app]. by rewrite <- !app_assoc.
  - rewrite Ehdr. cbn [app length]. f_equal. rewrite <- !app_assoc. cbn [app]. by rewrite <- !app_assoc.
Qed.

(** A state that was never used holds no header a packet could match. *)
Lemma unused_other_change d c : Z.land (d !!! 0%nat) 0xf0 = 0x40 → c !!! 0%nat = 0 → other_change d c = true.
Proof.
  intros Hv Hc. destruct (other_change d c) eqn:E; [done|]. apply no_other_change in E. destruct E as (E0 & _).
  rewrite (sub_eq 0 2 _ _ 0 E0), Hc in Hv by lia. done.
Qed.

Lemma compress_delivers big n d rest tc rc cid :
  synced tc rc → tcp_packet big n d rest →
  ∃ tc' d' ty, sl_compress_tcp d tc cid = Some (tc', d', ty) ∧
    ((ty = TYPE_IP ∧ d' = d ∧ tc' = tc) ∨ delivers big tc' d' ty d rest rc).
Proof.
  intros Hy Hpk. pose proof (tp_header _ _ _ _ Hpk) as Hd. pose proof Hd as [Db Dh Do Dn Dm _ _ _]. pose proof (tp_len _ _ _ _ Hpk) as Hl.
  destruct (decide (Z.land (be16 d 6) 0x3fff = 0)) as [Ef|Nf].
  2: { exists tc, d, TYPE_IP. split; [|by left]. apply compress_plain. by left. }
  unfold sl_compress_tcp. rewrite Ef. change (ztrue 0) with false. cbn [orb].
  rewrite (proj2 (Nat.ltb_ge _ 40)) by lia. rewrite (proj2 (Nat.ltb_ge _ (4 * ip_hl d + 14))) by lia.
  rewrite (header_not_syn n d Hd), Z.eqb_refl. cbn [negb].
  destruct (sc_ring _ _ Hy) as [o Ho]. destruct (locate_lru d tc o Ho) as (c1 & x & found & l1 & l2 & -> & Eo & _ & Hf & Ho1 & Hrel).
  pose proof (relinked_synced _ _ _ _ Hy Hrel Ho1) as Hy1. cbn [mbind option_bind]. rewrite <- Dn.
  rewrite (proj2 (Nat.ltb_ge _ n)) by lia. rewrite (proj2 (Nat.ltb_ge MAX_HDR n)) by lia. cbn [orb].
  assert (Hxo : x ∈ o) by (rewrite Eo; apply elem_of_app; right; left).
  destruct (ring_lookup _ _ _ x Ho1 ltac:(left)) as [s Hs].
  destruct (lookup_lt_is_Some_2 (rstate rc) x) as [r Hr].
  { rewrite (sc_rlen _ _ Hy). destruct Ho as (_ & _ & Hperm & _). rewrite Hperm, elem_of_seq in Hxo. lia. }
  pose proof (uncompressed_delivers big n d rest c1 rc x s r Hy1 Hpk Hs Hr) as (tcu & du & Eu & Du).
  destruct found; cbn [negb]; [|exists tcu, du, TYPE_UNCOMPRESSED_TCP; split; [done|by right]].
  rewrite Hs. cbn [mbind option_bind].
  destruct (other_change d (cs_hdr s)) eqn:Eoth; [exists tcu, du, TYPE_UNCOMPRESSED_TCP; split; [done|by right]|].
  rewrite (proj2 (Nat.ltb_ge _ (4 * ip_hl d + 20))) by lia.
  destruct (encode_changes d (cs_hdr s) (Z.of_nat n)) as [[ch seq]|] eqn:Eenc;
    [|exists tcu, du, TYPE_UNCOMPRESSED_TCP; split; [done|by right]].
  destruct (sc_states _ _ Hy1 x s r Hs Hr) as (_ & Ls & Lr & [H0|(n' & Hh & Hlen & Hm)]).
  { rewrite unused_other_change in Eoth; [done|exact (tp_version _ _ _ _ Hpk)|done]. }
  destruct Hrel as (Econt & _). destruct (contents_lookup _ _ _ _ Econt Hs) as (s0 & Hs0 & _ & _ & Eh0).
  assert (Hsame : same_conversation d s = true).
  { unfold talks in Hf. rewrite Hs0 in Hf. simpl in Hf. injection Hf as Hf. unfold same_conversation in *. by rewrite Eh0. }
  destruct (static_same n' n d s Hh Hd Hsame Eoth) as (<- & _).
  pose proof (compressed_delivers big n d rest c1 rc x s r ch seq cid Hy1 Hpk Hs Hr Hsame Eoth Hh Hlen Hm
    (encode_changes_coded _ _ _ _ _ Eenc)) as Hcomp.
  destruct (encode_rest d (cs_hdr s) (ch, seq)) as [changes new_seq].
  destruct Hcomp as (tc' & d' & Ec & Hdel). exists tc', d', TYPE_COMPRESSED_TCP. split; [done|by right].
Qed.

(** The initial states are in step. *)
Lemma init_synced : synced sl_compress_init sl_compress_init.
Proof.
  split; [exists (reverse (seq 0 MAX_STATES))| | |by left].
  - split_and!; [|done| |done].
    + by vm_compute.
    + apply reverse_Permutation.
  - done.
  - intros i s r Hs Hr. unfold sl_compress_init in Hs, Hr. cbn [tstate rstate] in Hs, Hr.
    rewrite list_lookup_fmap in Hs. apply lookup_replicate in Hr. destruct Hr as [-> Hi].
    rewrite lookup_seq_lt in Hs by done. simpl in Hs. injection Hs as <-. split; [done|]. split_and!; [done|done|by left].
Qed.

(** ** The states as a cache

    The specification of the list of states: a list of conversation numbers and
    headers, the one used last first.  A packet uses the first entry of its
    conversation, or the last entry of the list; the entry gets the header of the
    packet and moves to the front. *)

Definition entry : Type := Z * list Z.

Definition for_packet (d : list Z) (e : entry) : bool := same_conversation d (CS 0 0 e.1 e.2).

Fixpoint lru_use (d : list Z) (l : list entry) : option (entry * list entry) :=
  match l with
  | [] => None
  | [e] => Some (e, [])
  | e :: l => if for_packet d e then Some (e, l) else '(x, r) ← lru_use d l; Some (x, e :: r)
  end.

Definition lru_step (d : list Z) (l : list entry) : option (list entry) :=
  '(e, r) ← lru_use d l; Some ((e.1, bcopy (4 * (ip_hl d + th_off (4 * ip_hl d) d)) d e.2) :: r).

(** The cache a list of states stands for. *)
Definition state_entry (ts : list cstate) (i : nat) : entry :=
  match ts !! i with Some s => (cs_id s, cs_hdr s) | None => (0, []) end.
Definition cache (ts : list cstate) (o : list nat) : list entry := state_entry ts <$> o.

Lemma lru_use_first d l1 e l2 :
  Forall (λ e, for_packet d e = false) l1 → (for_packet d e = true ∨ l2 = []) →
  lru_use d (l1 ++ e :: l2) = Some (e, l1 ++ l2).
Proof.
  induction 1 as [|a l1 Ha _ IH]; intros He.
  - simpl. destruct l2 as [|b l2]; [done|]. by destruct He as [->|].
  - simpl. destruct (l1 ++ e :: l2) as [|b l] eqn:E; [by destruct l1|]. rewrite Ha. by rewrite IH.
Qed.

Lemma talks_entry d ts i s : ts !! i = Some s → (talks d ts i ↔ for_packet d (state_entry ts i) = true).
Proof.
  intros Hi. unfold talks, state_entry, for_packet. rewrite Hi. simpl. split; [intros [= H]; exact H|].
  intros H. f_equal. exact H.
Qed.

Lemma contents_entry ts ts' i : contents ts' = contents ts → state_entry ts' i = state_entry ts i.
Proof.
  intros E. unfold state_entry. apply (f_equal (.!! i)) in E. unfold contents in E. rewrite !list_lookup_fmap in E.
  destruct (ts !! i), (ts' !! i); simpl in E; try done. by injection E as _ -> ->.
Qed.

(** What [sl_compress_tcp] does to the states of the transmitter. *)
Lemma compress_states d c cid c' d' ty :
  sl_compress_tcp d c cid = Some (c', d', ty) → ty ≠ TYPE_IP →
  ∃ c1 x found s, locate d c = Some (c1, x, found) ∧ tstate c1 !! x = Some s ∧ last_cs c' = last_cs c1 ∧
    tstate c' = <[x := set_hdr (bcopy (4 * (ip_hl d + th_off (4 * ip_hl d) d)) d (cs_hdr s)) s]> (tstate c1).
Proof.
  unfold sl_compress_tcp. intros H Hty. destruct (_ || _); [by injection H as _ _ <-|].
  destruct (_ <? _)%nat; [done|]. destruct (negb _); [by injection H as _ _ <-|].
  destruct (locate d c) as [[[c1 x] found]|]; [|done]. cbn [mbind option_bind] in H.
  exists c1, x, found. destruct (_ || _); [done|].
  assert (Hu : ∀ n c' d' ty, send_uncompressed d n x c1 = Some (c', d', ty) → ∃ s, tstate c1 !! x = Some s ∧ last_cs c' = last_cs c1 ∧
    tstate c' = <[x := set_hdr (bcopy n d (cs_hdr s)) s]> (tstate c1)).
  { intros n c2 d2 ty2 Hs. unfold send_uncompressed in Hs. destruct (tstate c1 !! x) as [s|]; [|done]. cbn in Hs.
    injection Hs as <- _ _. by exists s. }
  destruct (negb found).
  { destruct (Hu _ _ _ _ H) as (s & ?). by exists s. }
  destruct (tstate c1 !! x) as [s|] eqn:Es; [|done]. cbn [mbind option_bind] in H.
  destruct (other_change d (cs_hdr s)).
  { destruct (Hu _ _ _ _ H) as (s' & ? & ?). exists s'. by simplify_eq. }
  destruct (_ <? _)%nat; [done|].
  destruct (encode_changes d (cs_hdr s) _) as [r|].
  2: { destruct (Hu _ _ _ _ H) as (s' & ? & ?). exists s'. by simplify_eq. }
  destruct (encode_rest d (cs_hdr s) r) as [changes new_seq]. unfold send_compressed in H. rewrite Es in H. cbn [mbind option_bind] in H.
  destruct (_ <? _)%nat; [done|]. injection H as <- _ _. by exists s.
Qed.

(** C32: the circular list of the transmitter is an LRU cache: whenever
    [sl_compress_tcp] handles a packet as TCP, the states, read along the links,
    change as the specification says, and the links are again one ring through all
    the states. *)
Theorem compress_refines_lru d c cid c' d' ty o :
  ring (tstate c) (last_cs c) o → sl_compress_tcp d c cid = Some (c', d', ty) → ty ≠ TYPE_IP →
  ∃ o', ring (tstate c') (last_cs c') o' ∧ lru_step d (cache (tstate c) o) = Some (cache (tstate c') o').
Proof.
  intros Ho Hc Hty. destruct (compress_states d c cid c' d' ty Hc Hty) as (c1 & x & found & s & Hl & Hs & El & Et).
  destruct (locate_lru d c o Ho) as (c1' & x' & found' & l1 & l2 & Hl' & Eo & Hn & Hf & Ho1 & Hrel).
  rewrite Hl in Hl'. injection Hl' as <- <- <-. exists (x :: l1 ++ l2). rewrite Et, El. split; [by apply ring_set_hdr|].
  destruct Hrel as (Hcont & _). pose proof (λ i, ring_lookup _ _ _ i Ho) as Hin.
  assert (Hx : ∃ s0, tstate c !! x = Some s0) by (apply Hin; rewrite Eo; apply elem_of_app; right; left). destruct Hx as [s0 Hs0].
  unfold lru_step, cache. rewrite Eo, fmap_app, fmap_cons. rewrite lru_use_first.
  - cbn [mbind option_bind]. f_equal. rewrite fmap_cons. f_equal.
    + rewrite <- (contents_entry _ _ x Hcont). unfold state_entry. rewrite list_lookup_insert_eq by (by eapply lookup_lt_Some).
      by rewrite Hs.
    + rewrite <- fmap_app. apply list_fmap_ext. intros k i Hi. rewrite <- (contents_entry _ _ i Hcont). unfold state_entry.
      rewrite list_lookup_insert_ne; [done|]. intros ->. apply ring_NoDup in Ho1. rewrite NoDup_cons in Ho1.
      destruct Ho1 as [Hno _]. apply Hno. by eapply list_elem_of_lookup_2.
  - rewrite Forall_fmap. rewrite Forall_forall in Hn |- *. intros i Hi. simpl. destruct (Hin i) as [si Hsi]; [rewrite Eo; apply elem_of_app; by left|].
    destruct (for_packet d (state_entry (tstate c) i)) eqn:E; [|done]. exfalso. apply (Hn i Hi). by eapply talks_entry.
  - destruct found; [left; by eapply talks_entry|right; destruct Hf as [_ ->]; done].
Qed.

(** Segments of a conversation: a header, the checksum of IP in place, and data. *)
Definition ex_tcp (len id sq fl urp : Z) (data : list Z) : list Z :=
  let h := [0x45; 0; 0; len; 0; id; 0; 0; 64; 6; 0; 0; 10; 0; 0; 1; 10; 0; 0; 2;
            4; 1; 0; 23; 0; 0; sq / 256; sq mod 256; 0; 0; 0; 9; 0x50; fl; 0x10; 0; 0xbe; id; 0; urp] in
  put16 10 (Cksum.checksum true (take 20 h)) h ++ data.

Lemma compress_refines_lru_witness :
  ∃ c' d', sl_compress_tcp (ex_tcp 43 1 1000 0x10 0 [1; 2; 3]) sl_compress_init 1 = Some (c', d', TYPE_UNCOMPRESSED_TCP) ∧
    ∃ o', ring (tstate c') (last_cs c') o' ∧
      lru_step (ex_tcp 43 1 1000 0x10 0 [1; 2; 3]) (cache (tstate sl_compress_init) (reverse (seq 0 MAX_STATES))) =
        Some (cache (tstate c') o').
Proof.
  do 2 eexists. split; [vm_compute; reflexivity|].
  eapply (compress_refines_lru _ sl_compress_init 1 _ _ TYPE_UNCOMPRESSED_TCP).
  - split; [by vm_compute|]. split; [done|]. split; [apply reverse_Permutation|done].
  - vm_compute. reflexivity.
  - discriminate.
Defined.

End SlSync.
