(* ===== verification/Slip.v ===== *)
(** * The serial line: character queues and SLIP framing

    (kern/tty_subr.c, sys/aclist.h, uspace/serline.c, net/if_sl.c)

    The port replaces the clists of the kernel by lists of blocks of 56 characters
    ([putc], [b_to_q]), which [ser_oproc] writes to a stream.  [slstart] takes
    packets off the queues of the interface and frames them; [slinput] receives the
    characters one at a time and hands complete packets to IP. *)

From stdpp Require Import options.
From S2P Require Import Prelude.

Module Clist.

Definition ACBUFSIZE : Z := 56.

(** [ac_data] are the [ac_len] characters that are still to be written; [ac_start]
    is how many of the block have been. *)
Record acblock := ACB { ac_start : Z; ac_data : list Z }.
Definition ac_len (b : acblock) : Z := Z.of_nat (length (ac_data b)).

(** The blocks from [c_cf] to [c_cl]. *)
Record clist := CL { c_cc : Z; c_blocks : list acblock }.

(** [putc]; [None] is an access through a null [c_cl]. *)
Definition putc (c : Z) (q : clist) : option clist :=
  if c_cc q =? 0 then Some (CL (c_cc q + 1) [ACB 0 [c]])
  else
    match last (c_blocks q) with
    | None => None
    | Some acb =>
        if ACBUFSIZE <=? ac_start acb + ac_len acb
        then Some (CL (c_cc q + 1) (c_blocks q ++ [ACB 0 [c]]))
        else Some (CL (c_cc q + 1) (removelast (c_blocks q) ++ [ACB (ac_start acb) (ac_data acb ++ [c])]))
    end.

(** The blocks made of the characters of a buffer. *)
Fixpoint b_to_q_loop (fuel : nat) (buf : list Z) : list acblock :=
  match fuel, buf with
  | S fuel, _ :: _ =>
      ACB 0 (take (Z.to_nat ACBUFSIZE) buf) :: b_to_q_loop fuel (drop (Z.to_nat ACBUFSIZE) buf)
  | _, _ => []
  end.

Definition b_to_q (buf : list Z) (q : clist) : clist :=
  CL (c_cc q + Z.of_nat (length buf)) (c_blocks q ++ b_to_q_loop (length buf) buf).

(** [ser_oproc]: [write n len] is the number of characters the [n]th call of
    [write] takes of the [len] it is given.  The result is the queue and what was
    written; [None] is an access through a null [c_cf], or the fuel. *)
Section Output.
Context (write : nat → Z → Z).

Fixpoint ser_oproc (fuel n : nat) (q : clist) : option (clist * list Z) :=
  if 0 <? c_cc q then
    match fuel, c_blocks q with
    | S fuel, acb :: rest =>
        let nbytes := write n (ac_len acb) in
        let k := Z.to_nat nbytes in
        let acb' := ACB (ac_start acb + nbytes) (drop k (ac_data acb)) in
        let blocks := if ac_len acb' =? 0 then rest else acb' :: rest in
        match ser_oproc fuel (S n) (CL (c_cc q - nbytes) blocks) with
        | Some (q, out) => Some (q, take k (ac_data acb) ++ out)
        | None => None
        end
    | _, _ => None
    end
  else Some (q, []).
End Output.

(** ** A queue of characters *)

Definition q_bytes (q : clist) : list Z := concat (ac_data <$> c_blocks q).

(** The count is right, and the blocks hold characters and do not overflow. *)
Definition q_ok (q : clist) : Prop :=
  c_cc q = Z.of_nat (length (q_bytes q)) ∧
  Forall (λ b, ac_data b ≠ [] ∧ 0 <= ac_start b ∧ ac_start b + ac_len b <= ACBUFSIZE) (c_blocks q).

Lemma q_ok_empty q : q_ok q → c_cc q = 0 → c_blocks q = [].
Proof.
  intros [Hc Hb] H0. destruct q as [cc bs]. simpl in *. destruct bs as [|b bs]; [done|]. exfalso.
  rewrite Forall_cons in Hb. destruct Hb as [[Hd _] _]. unfold q_bytes in Hc. simpl in Hc. rewrite length_app in Hc.
  destruct (ac_data b); [done|]. simpl in Hc. lia.
Qed.

Lemma putc_ok c q : q_ok q → ∃ q', putc c q = Some q' ∧ q_ok q' ∧ q_bytes q' = q_bytes q ++ [c].
Proof.
  intros Hq. pose proof (q_ok_empty q Hq) as H0. destruct Hq as [Hc Hb]. unfold putc.
  destruct (Z.eqb_spec (c_cc q) 0) as [E|E].
  { specialize (H0 E). eexists. split; [done|]. unfold q_ok, q_bytes in *. simpl. rewrite H0 in *. simpl. split; [split|]; [lia| |done].
    apply Forall_singleton. unfold ac_len, ACBUFSIZE. simpl. split; [done|lia]. }
  destruct q as [cc bs]. simpl in *. destruct bs as [|b bs _] using rev_ind; [done|].
  rewrite last_snoc. unfold q_bytes in *. simpl in *. rewrite fmap_app, concat_app in Hc. simpl in Hc.
  rewrite app_nil_r, length_app in Hc. apply Forall_app in Hb as [Hb Hl]. rewrite Forall_singleton in Hl.
  destruct (Z.leb_spec ACBUFSIZE (ac_start b + ac_len b)) as [Hf|Hf].
  - eexists. split; [done|]. unfold q_ok, q_bytes. simpl.
    rewrite !fmap_app, !concat_app. simpl. rewrite !app_nil_r. split; [split|done].
    + rewrite !length_app. simpl. lia.
    + apply Forall_app. split; [apply Forall_app; split; [exact Hb|apply Forall_singleton; exact Hl]|]. apply Forall_singleton.
      unfold ac_len, ACBUFSIZE. simpl. split; [done|lia].
  - eexists. split; [done|]. rewrite removelast_last. unfold q_ok, q_bytes. simpl.
    rewrite !fmap_app, !concat_app. simpl. rewrite !app_nil_r, app_assoc. split; [split|done].
    + rewrite !length_app. simpl. lia.
    + apply Forall_app. split; [done|]. apply Forall_singleton. unfold ac_len in *. simpl. rewrite length_app. simpl.
      split; [by destruct (ac_data b)|lia].
Qed.

Lemma b_to_q_loop_ok fuel : ∀ buf, (length buf <= fuel)%nat →
  concat (ac_data <$> b_to_q_loop fuel buf) = buf ∧
  Forall (λ b, ac_data b ≠ [] ∧ 0 <= ac_start b ∧ ac_start b + ac_len b <= ACBUFSIZE) (b_to_q_loop fuel buf).
Proof.
  induction fuel as [|fuel IH]; intros buf Hf; [by destruct buf; simpl in Hf; [|lia]|].
  destruct buf as [|c buf]; [done|]. cbn [b_to_q_loop]. set (k := Z.to_nat ACBUFSIZE). simpl in Hf.
  destruct (IH (drop k (c :: buf))) as [H1 H2].
  { rewrite length_drop. simpl. unfold k, ACBUFSIZE. lia. }
  split; [rewrite fmap_cons; cbn [concat ac_data]; rewrite H1; apply take_drop|].
  apply Forall_cons. split; [|done]. unfold ac_len. simpl. rewrite length_take. unfold k, ACBUFSIZE. split; [done|lia].
Qed.

Lemma b_to_q_ok buf q : q_ok q → q_ok (b_to_q buf q) ∧ q_bytes (b_to_q buf q) = q_bytes q ++ buf.
Proof.
  intros [Hc Hb]. destruct (b_to_q_loop_ok (length buf) buf) as [H1 H2]; [done|].
  assert (Hq : q_bytes (b_to_q buf q) = q_bytes q ++ buf).
  { unfold q_bytes, b_to_q. simpl. by rewrite fmap_app, concat_app, H1. }
  split; [|done]. split; [rewrite Hq, length_app; unfold b_to_q; simpl; lia|]. unfold b_to_q. simpl. by apply Forall_app.
Qed.

(** Writing out a queue. *)
Lemma ser_oproc_ok write fuel : ∀ n q,
  (∀ n len, 0 < len → 0 < write n len <= len) → q_ok q → c_cc q <= Z.of_nat fuel →
  ser_oproc write fuel n q = Some (CL 0 [], q_bytes q).
Proof.
  induction fuel as [|fuel IH]; intros n q Hw Hq Hf; cbn [ser_oproc];
    destruct (Z.ltb_spec 0 (c_cc q)) as [Hc|Hc]; try lia.
  1, 3: pose proof (proj1 Hq) as Hcc; assert (c_cc q = 0) as E by lia; pose proof (q_ok_empty q Hq E) as Hbs;
    destruct q as [cc bs]; simpl in *; by subst.
  destruct Hq as [Hcc Hb]. destruct q as [cc [|b bs]]; simpl in *; [unfold q_bytes in Hcc; simpl in Hcc; lia|].
  rewrite Forall_cons in Hb. destruct Hb as [(B1 & B2 & B3) Hb].
  assert (Hl : 0 < ac_len b) by (unfold ac_len; destruct (ac_data b); [done|simpl; lia]).
  specialize (Hw n _ Hl) as Hwn. set (nb := write n (ac_len b)) in *. set (k := Z.to_nat nb).
  set (b' := ACB _ (drop k (ac_data b))). unfold q_bytes in Hcc |- *. simpl in Hcc. rewrite length_app in Hcc.
  change (list_fmap _ _ ac_data bs) with (ac_data <$> bs) in Hcc.
  assert (Hl' : ac_len b' = ac_len b - nb) by (unfold ac_len, b', k; simpl; rewrite length_drop; unfold ac_len in Hwn; lia).
  set (q' := CL (cc - nb) (if ac_len b' =? 0 then bs else b' :: bs)).
  assert (Hq' : q_ok q' ∧ q_bytes q' = drop k (ac_data b) ++ concat (ac_data <$> bs)).
  { assert (Hby : q_bytes q' = drop k (ac_data b) ++ concat (ac_data <$> bs)).
    { unfold q', q_bytes. simpl. destruct (Z.eqb_spec (ac_len b') 0) as [E|E]; [|done].
      assert (drop k (ac_data b) = []) as ->; [|done]. apply nil_length_inv. unfold ac_len, b' in E. simpl in E. lia. }
    split; [|done]. split.
    - rewrite Hby, length_app, length_drop. unfold q', k. simpl. unfold ac_len in *. lia.
    - unfold q'. simpl. destruct (Z.eqb_spec (ac_len b') 0) as [E|E]; [done|]. apply Forall_cons. split; [|done].
      rewrite Hl' in *. unfold b' at 2 3. simpl. split; [|lia]. intros Hn. apply E.
      rewrite <- Hl'. unfold ac_len, b'. simpl. by rewrite Hn. }
  destruct Hq' as [Hq' Hby]. rewrite (IH (S n) q' Hw Hq'), Hby by (unfold q'; simpl; lia).
  simpl. rewrite app_assoc, take_drop. done.
Qed.

End Clist.

Module Slip.
Import Clist.

Definition FRAME_END : Z := 0xc0.
Definition FRAME_ESCAPE : Z := 0xdb.
Definition TRANS_FRAME_END : Z := 0xdc.
Definition TRANS_FRAME_ESCAPE : Z := 0xdd.
Definition ABT_ESC : Z := 27.
Definition ABT_IDLE : Z := 1.
Definition ABT_COUNT : Z := 3.
Definition ABT_WINDOW : Z := ABT_COUNT * 2 + 2.
Definition SLIP_HIWAT : Z := 52.
Definition SC_ERROR : Z := 0x0001.
Definition IFF_DEBUG : Z := 0x4.
Definition SC_COMPRESS : Z := 0x1000.
Definition SC_AUTOCOMP : Z := 0x4000.
Definition TTY_CHARMASK : Z := 0xff.
Definition TTY_ERRORMASK : Z := 0xff000000.
Definition TYPE_UNCOMPRESSED_TCP : Z := 0x70.
Definition TYPE_COMPRESSED_TCP : Z := 0x80.
Definition IPPROTO_TCP : Z := 6.
Definition IPPROTO_ICMP : Z := 1.
Definition IPTOS_LOWDELAY : Z := 0x10.
Definition SC_NOICMP : Z := 0x2000.
Definition FASTQ_MAXLEN : Z := 32.
Definition SND_MAXLEN : Z := 50.
Definition EAFNOSUPPORT : Z := 47.
Definition ENETDOWN : Z := 50.
Definition ENETRESET : Z := 52.
Definition ENOBUFS : Z := 55.
Definition EHOSTUNREACH : Z := 65.

(** A packet: the data of the mbufs of its chain. *)
Definition packet : Type := list (list Z).
Definition flat (m : packet) : list Z := concat m.

Section Slip.

(** [SLMAX] depends on whether the packet filter is configured (a generated
    header); [comp] is the state of the header compression, with [sl_compress_tcp]
    (the new state, the chain and the type) and [sl_uncompress_tcp] (the new state
    and the packet, if it could be restored).  Either can fault. *)
Context (SLMAX : Z) {comp : Type}.
Context (sl_compress_tcp : comp → packet → option (comp * packet * Z)).
Context (sl_uncompress_tcp : comp → list Z → Z → option (comp * option (list Z))).

(** The part of [struct sl_softc] the framing uses.  [sc_buf] are the characters
    from [sc_buf] to [sc_mp]. *)
Record sl_softc := SL
  { attached : bool; if_flags : Z; sc_fastq : list packet; if_snd : list packet;
    sc_buf : list Z; sc_flags : Z; sc_escape : Z; sc_lasttime : Z; sc_abortcount : Z;
    sc_starttime : Z; sc_comp : comp }.

Definition with_input (buf : list Z) (flags escape : Z) (sc : sl_softc) : sl_softc :=
  SL (attached sc) (if_flags sc) (sc_fastq sc) (if_snd sc) buf flags escape
    (sc_lasttime sc) (sc_abortcount sc) (sc_starttime sc) (sc_comp sc).
Definition with_abort (last count start : Z) (sc : sl_softc) : sl_softc :=
  SL (attached sc) (if_flags sc) (sc_fastq sc) (if_snd sc) (sc_buf sc) (sc_flags sc) (sc_escape sc)
    last count start (sc_comp sc).
Definition with_comp (flags : Z) (c : comp) (sc : sl_softc) : sl_softc :=
  SL (attached sc) flags (sc_fastq sc) (if_snd sc) (sc_buf sc) (sc_flags sc) (sc_escape sc)
    (sc_lasttime sc) (sc_abortcount sc) (sc_starttime sc) c.
Definition with_queues (fast snd : list packet) (sc : sl_softc) : sl_softc :=
  SL (attached sc) (if_flags sc) fast snd (sc_buf sc) (sc_flags sc) (sc_escape sc)
    (sc_lasttime sc) (sc_abortcount sc) (sc_starttime sc) (sc_comp sc).

(** ** Output *)

Definition special (c : Z) : bool := (c =? FRAME_ESCAPE) || (c =? FRAME_END).

(** The characters that need nothing special, and the rest. *)
Fixpoint plain (cp : list Z) : list Z * list Z :=
  match cp with
  | [] => ([], [])
  | c :: cp' => if special c then ([], cp) else let '(bp, r) := plain cp' in (c :: bp, r)
  end.

(** One mbuf.  [putc] and [b_to_q] of the port always succeed. *)
Fixpoint frame_mbuf (fuel : nat) (cp : list Z) (q : clist) : option clist :=
  match fuel, cp with
  | S fuel, _ :: _ =>
      let '(bp, r) := plain cp in
      let q := match bp with [] => q | _ => b_to_q bp q end in
      match r with
      | [] => Some q
      | c :: r =>
          match putc FRAME_ESCAPE q with
          | None => None
          | Some q =>
              match putc (if c =? FRAME_ESCAPE then TRANS_FRAME_ESCAPE else TRANS_FRAME_END) q with
              | None => None
              | Some q => frame_mbuf fuel r q
              end
          end
      end
  | _, _ => Some q
  end.

Fixpoint frame_packet (m : packet) (q : clist) : option clist :=
  match m with
  | [] => Some q
  | d :: m => match frame_mbuf (length d) d q with None => None | Some q => frame_packet m q end
  end.

(** [ip->ip_p] of a packet whose first mbuf holds the IP header. *)
Definition ip_p (m : packet) : option Z := match m with d :: _ => d !! 9%nat | [] => None end.

(** The type is or-ed into the first byte of the packet. *)
Definition or_first (type : Z) (m : packet) : packet :=
  match m with (c :: d) :: m => (Z.lor c type :: d) :: m | _ => m end.

(** The header compression of a packet that is sent. *)
Definition compress_packet (flags : Z) (c : comp) (m : packet) : option (comp * packet) :=
  p ← ip_p m;
  if (p =? IPPROTO_TCP) && ztrue (Z.land flags SC_COMPRESS) then
    '(c, m, type) ← sl_compress_tcp c m; Some (c, or_first type m)
  else Some (c, m).

(** [slstart]: the loop, with the characters written; [write] as in [ser_oproc]. *)
Fixpoint slstart (write : nat → Z → Z) (fuel : nat) (sc : sl_softc) (q : clist) :
    option (sl_softc * clist * list Z) :=
  match fuel with
  | O => None
  | S fuel =>
      match (if c_cc q =? 0 then Some (q, []) else ser_oproc write (Z.to_nat (c_cc q)) 0 q) with
      | None => None
      | Some (q, out) =>
          if SLIP_HIWAT <? c_cc q then Some (sc, q, out)
          else if negb (attached sc) then Some (sc, q, out)
          else
            match (match sc_fastq sc with
                   | m :: fast => Some (m, with_queues fast (if_snd sc) sc)
                   | [] => match if_snd sc with
                           | m :: snd => Some (m, with_queues [] snd sc)
                           | [] => None
                           end
                   end) with
            | None => Some (sc, q, out)
            | Some (m, sc) =>
                match compress_packet (if_flags sc) (sc_comp sc) m with
                | None => None
                | Some (c, m) =>
                    let sc := with_comp (if_flags sc) c sc in
                    match (if c_cc q =? 0 then putc FRAME_END q else Some q) with
                    | None => None
                    | Some q =>
                        match frame_packet m q with
                        | None => None
                        | Some q =>
                            match putc FRAME_END q with
                            | None => None
                            | Some q =>
                                match slstart write fuel sc q with
                                | None => None
                                | Some (sc, q, out') => Some (sc, q, out ++ out')
                                end
                            end
                        end
                    end
                end
            end
      end
  end.

(** [sloutput]: [inet] is whether the destination is an Internet address, [carrier]
    the state of the line; the error and what was written. *)
Definition sloutput (write : nat → Z → Z) (fuel : nat) (inet carrier : bool) (m : packet)
    (sc : sl_softc) (q : clist) : option (sl_softc * clist * list Z * Z) :=
  if negb inet then Some (sc, q, [], EAFNOSUPPORT)
  else if negb (attached sc) then Some (sc, q, [], ENETDOWN)
  else if negb carrier then Some (sc, q, [], EHOSTUNREACH)
  else
    match ip_p m, m with
    | Some p, (_ :: ip_tos :: _) :: _ =>
        if ztrue (Z.land (if_flags sc) SC_NOICMP) && (p =? IPPROTO_ICMP) then Some (sc, q, [], ENETRESET)
        else
          let fast := ztrue (Z.land ip_tos IPTOS_LOWDELAY) in
          let full := if fast then FASTQ_MAXLEN <=? Z.of_nat (length (sc_fastq sc))
                      else SND_MAXLEN <=? Z.of_nat (length (if_snd sc)) in
          if full then Some (sc, q, [], ENOBUFS)
          else
            let sc := if fast then with_queues (sc_fastq sc ++ [m]) (if_snd sc) sc
                      else with_queues (sc_fastq sc) (if_snd sc ++ [m]) sc in
            if c_cc q =? 0 then
              match slstart write fuel sc q with
              | Some (sc, q, out) => Some (sc, q, out, 0)
              | None => None
              end
            else Some (sc, q, [], 0)
    | _, _ => None
    end.

(** ** Input *)

(** The escape sequence that ends SLIP mode: the interface, or [None] when it was
    closed. *)
Definition abort_escape (now c : Z) (sc : sl_softc) : option sl_softc :=
  if ztrue (Z.land (if_flags sc) IFF_DEBUG) then
    if c =? ABT_ESC then
      let count := if ztrue (sc_abortcount sc) && (s32 (sc_starttime sc + ABT_WINDOW) <=? now)
                   then 0 else sc_abortcount sc in
      if s32 (sc_lasttime sc + ABT_IDLE) <=? now then
        let count := s32 (count + 1) in
        let start := if count =? 1 then now else sc_starttime sc in
        if ABT_COUNT <=? count then None
        else Some (with_abort now count start sc)
      else Some (with_abort now count (sc_starttime sc) sc)
    else Some (with_abort now 0 (sc_starttime sc) sc)
  else Some sc.

(** [slclose], as far as the framing is concerned. *)
Definition slclose (sc : sl_softc) : sl_softc :=
  SL false (if_flags sc) (sc_fastq sc) (if_snd sc) [] (sc_flags sc) (sc_escape sc)
    (sc_lasttime sc) (sc_abortcount sc) (sc_starttime sc) (sc_comp sc).

(** The label [newpack]. *)
Definition newpack (sc : sl_softc) : sl_softc := with_input [] (sc_flags sc) 0 sc.

(** The packet in the buffer at the end of a frame: no packet is the label [error]. *)
Definition frame_packet_in (sc : sl_softc) : option (sl_softc * option (list Z)) :=
  match sc_buf sc with
  | [] => Some (sc, None)
  | b0 :: buf =>
      let c := Z.land b0 0xf0 in
      if c =? 0x40 then Some (sc, Some (b0 :: buf))
      else
        let '(c, b0) :=
          if ztrue (Z.land c 0x80) then (TYPE_COMPRESSED_TCP, b0)
          else if c =? TYPE_UNCOMPRESSED_TCP then (c, Z.land b0 0x4f) else (c, b0) in
        if ztrue (Z.land (if_flags sc) SC_COMPRESS) then
          '(cs, r) ← sl_uncompress_tcp (sc_comp sc) (b0 :: buf) c;
          Some (with_comp (if_flags sc) cs sc, r)
        else if ztrue (Z.land (if_flags sc) SC_AUTOCOMP) && (c =? TYPE_UNCOMPRESSED_TCP) &&
                (40 <=? Z.of_nat (length (sc_buf sc))) then
          '(cs, r) ← sl_uncompress_tcp (sc_comp sc) (b0 :: buf) c;
          Some (with_comp (match r with Some _ => Z.lor (if_flags sc) SC_COMPRESS | None => if_flags sc end) cs sc, r)
        else Some (sc, None)
  end.

(** [slinput]: [now] is the time, [carrier] the state of the line, [btom] whether
    [sl_btom] gets its mbufs, [full] whether the queue of IP is full; the packet
    handed to IP, if there is one. *)
Definition slinput (now : Z) (carrier btom full : bool) (c : Z) (sc : sl_softc) :
    option (sl_softc * option (list Z)) :=
  if negb (attached sc) then Some (sc, None)
  else if ztrue (Z.land c TTY_ERRORMASK) || negb carrier
  then Some (with_input (sc_buf sc) (Z.lor (sc_flags sc) SC_ERROR) (sc_escape sc) sc, None)
  else
    let c := Z.land c TTY_CHARMASK in
    match abort_escape now c sc with
    | None => Some (slclose sc, None)
    | Some sc =>
        if c =? FRAME_ESCAPE then Some (with_input (sc_buf sc) (sc_flags sc) 1 sc, None)
        else if c =? FRAME_END then
          if ztrue (Z.land (sc_flags sc) SC_ERROR)
          then Some (newpack (with_input (sc_buf sc) (Z.land (sc_flags sc) (Z.lnot SC_ERROR)) (sc_escape sc) sc), None)
          else if Z.of_nat (length (sc_buf sc)) <? 3 then Some (newpack sc, None)
          else
            '(sc, p) ← frame_packet_in sc;
            Some (newpack sc, if btom && negb full then p else None)
        else
          let c := if c =? TRANS_FRAME_ESCAPE then if ztrue (sc_escape sc) then FRAME_ESCAPE else c
                   else if c =? TRANS_FRAME_END then if ztrue (sc_escape sc) then FRAME_END else c
                   else c in
          if Z.of_nat (length (sc_buf sc)) <? SLMAX
          then Some (with_input (sc_buf sc ++ [c]) (sc_flags sc) 0 sc, None)
          else Some (newpack (with_input (sc_buf sc) (Z.lor (sc_flags sc) SC_ERROR) (sc_escape sc) sc), None)
    end.

(** The characters of a line, one after the other; the packets handed to IP. *)
Fixpoint slinput_all (now : Z) (cs : list Z) (sc : sl_softc) : option (sl_softc * list (list Z)) :=
  match cs with
  | [] => Some (sc, [])
  | c :: cs =>
      '(sc, p) ← slinput now true true false c sc;
      '(sc, ps) ← slinput_all now cs sc;
      Some (sc, match p with Some p => p :: ps | None => ps end)
  end.

(** ** The framing *)

Definition esc1 (c : Z) : list Z :=
  if special c then [FRAME_ESCAPE; if c =? FRAME_ESCAPE then TRANS_FRAME_ESCAPE else TRANS_FRAME_END] else [c].
Definition esc (cp : list Z) : list Z := concat (esc1 <$> cp).
Definition frame (m : packet) : list Z := FRAME_END :: esc (concat m) ++ [FRAME_END].

Lemma esc_app a b : esc (a ++ b) = esc a ++ esc b.
Proof. unfold esc. by rewrite fmap_app, concat_app. Qed.

Lemma plain_spec cp :
  let '(bp, r) := plain cp in
  cp = bp ++ r ∧ esc bp = bp ∧ match r with [] => True | c :: _ => special c = true end.
Proof.
  induction cp as [|c cp IH]; [done|]. simpl. destruct (special c) eqn:E; [done|].
  destruct (plain cp) as [bp r]. destruct IH as (-> & IH & Hr). split_and!; [done| |done].
  change (esc (c :: bp)) with (esc1 c ++ esc bp). unfold esc1. by rewrite E, IH.
Qed.

Lemma frame_mbuf_ok fuel : ∀ cp q, q_ok q → (length cp <= fuel)%nat →
  ∃ q', frame_mbuf fuel cp q = Some q' ∧ q_ok q' ∧ q_bytes q' = q_bytes q ++ esc cp.
Proof.
  induction fuel as [|fuel IH]; intros cp q Hq Hf; (destruct cp as [|c0 cp0]; [by exists q; rewrite app_nil_r|]); simpl in Hf; [lia|].
  cbn [frame_mbuf]. pose proof (plain_spec (c0 :: cp0)) as Hp. destruct (plain (c0 :: cp0)) as [bp r].
  destruct Hp as (Hcp & Hbp & Hr). rewrite Hcp.
  set (q1 := match bp with [] => q | _ => b_to_q bp q end).
  assert (H1 : q_ok q1 ∧ q_bytes q1 = q_bytes q ++ bp).
  { unfold q1. destruct bp as [|b bp]; [by rewrite app_nil_r|]. by apply b_to_q_ok. }
  destruct H1 as [Hq1 Hb1]. rewrite esc_app, Hbp. destruct r as [|c r].
  { exists q1. by rewrite app_nil_r. }
  destruct (putc_ok FRAME_ESCAPE q1 Hq1) as (q2 & -> & Hq2 & Hb2).
  destruct (putc_ok (if c =? FRAME_ESCAPE then TRANS_FRAME_ESCAPE else TRANS_FRAME_END) q2 Hq2) as (q3 & -> & Hq3 & Hb3).
  destruct (IH r q3 Hq3) as (q4 & -> & Hq4 & Hb4).
  { apply (f_equal length) in Hcp. rewrite length_app in Hcp. simpl in Hcp. lia. }
  exists q4. split_and!; try done. rewrite Hb4, Hb3, Hb2, Hb1. change (esc (c :: r)) with (esc1 c ++ esc r). unfold esc1. rewrite Hr.
  by rewrite <- !app_assoc.
Qed.

Lemma frame_packet_ok m : ∀ q, q_ok q →
  ∃ q', frame_packet m q = Some q' ∧ q_ok q' ∧ q_bytes q' = q_bytes q ++ esc (concat m).
Proof.
  induction m as [|d m IH]; intros q Hq; simpl; [by exists q; rewrite app_nil_r|].
  destruct (frame_mbuf_ok (length d) d q Hq) as (q1 & -> & Hq1 & Hb1); [done|].
  destruct (IH q1 Hq1) as (q2 & -> & Hq2 & Hb2). exists q2. split_and!; try done.
  by rewrite Hb2, Hb1, esc_app, app_assoc.
Qed.

Lemma q_ok_nil : q_ok (CL 0 []).
Proof. by split; [|apply Forall_nil]. Qed.

(** The packets of a queue, one after the other. *)
Fixpoint compress_all (flags : Z) (c : comp) (ms : list packet) : option (comp * list packet) :=
  match ms with
  | [] => Some (c, [])
  | m :: ms =>
      '(c, m) ← compress_packet flags c m;
      '(c, ms) ← compress_all flags c ms;
      Some (c, m :: ms)
  end.

(** [slstart] writes what is in the queue and then every packet, the interactive
    ones first, in frames of their own. *)
Lemma slstart_ok write fuel : ∀ sc q c' ms',
  (∀ n len, 0 < len → 0 < write n len <= len) → attached sc = true → q_ok q →
  compress_all (if_flags sc) (sc_comp sc) (sc_fastq sc ++ if_snd sc) = Some (c', ms') →
  (length (sc_fastq sc ++ if_snd sc) < fuel)%nat →
  slstart write fuel sc q =
    Some (with_comp (if_flags sc) c' (with_queues [] [] sc), CL 0 [], q_bytes q ++ concat (frame <$> ms')).
Proof.
  induction fuel as [|fuel IH]; intros sc q c' ms' Hw Ha Hq Hc Hf; [lia|]. cbn [slstart].
  assert (E : (if c_cc q =? 0 then Some (q, []) else ser_oproc write (Z.to_nat (c_cc q)) 0 q) = Some (CL 0 [], q_bytes q)).
  { pose proof (q_ok_empty q Hq) as H0. destruct (Z.eqb_spec (c_cc q) 0) as [Z0|Z0].
    - specialize (H0 Z0). destruct q as [cc bs]. simpl in *. by subst.
    - apply ser_oproc_ok; try done. pose proof (proj1 Hq). lia. }
  rewrite E. clear E. generalize (q_bytes q). intros out. cbn [c_cc]. change (SLIP_HIWAT <? 0) with false. rewrite Ha. cbn [negb]. cbv iota.
  set (next := match sc_fastq sc with _ :: _ => _ | [] => _ end).
  assert (Hnext : match next with
    | None => sc_fastq sc ++ if_snd sc = [] ∧ with_queues [] [] sc = sc
    | Some (m, sc1) => sc_fastq sc ++ if_snd sc = m :: sc_fastq sc1 ++ if_snd sc1 ∧ with_queues [] [] sc1 = with_queues [] [] sc
    end).
  { unfold next. destruct (sc_fastq sc) as [|m fast] eqn:Ef; [destruct (if_snd sc) as [|m snd] eqn:Es|]; try done.
    split; [done|]. destruct sc. simpl in *. by subst. }
  destruct next as [[m sc1]|].
  2: { destruct Hnext as [En Es]. rewrite En in Hc. injection Hc as <- <-. rewrite Es, app_nil_r. by destruct sc. }
  destruct Hnext as [En Es]. rewrite En in Hc, Hf. simpl in Hf.
  assert (E1 : if_flags sc1 = if_flags sc ∧ sc_comp sc1 = sc_comp sc ∧ attached sc1 = attached sc).
  { destruct sc, sc1. unfold with_queues in Es. simpl in *. by injection Es as -> -> -> -> -> -> -> -> ->. }
  destruct E1 as (E1 & E2 & E3). cbn [compress_all] in Hc. rewrite <- E1, <- E2 in Hc.
  destruct (compress_packet (if_flags sc1) (sc_comp sc1) m) as [[c1 m1]|]; [|done]. cbn [mbind option_bind] in Hc.
  destruct (compress_all (if_flags sc1) c1 (sc_fastq sc1 ++ if_snd sc1)) as [[c2 ms1]|] eqn:Er; [|done]. injection Hc as <- <-.
  change (0 =? 0) with true. cbv iota.
  destruct (putc_ok FRAME_END (CL 0 []) q_ok_nil) as (q1 & -> & Hq1 & Hb1).
  destruct (frame_packet_ok m1 q1 Hq1) as (q2 & -> & Hq2 & Hb2).
  destruct (putc_ok FRAME_END q2 Hq2) as (q3 & -> & Hq3 & Hb3).
  rewrite (IH (with_comp (if_flags sc1) c1 sc1) q3 c2 ms1); try done; [|by rewrite <- Ha, <- E3|simpl; lia].
  rewrite Hb3, Hb2, Hb1. change (q_bytes (CL 0 [])) with (@nil Z). rewrite fmap_cons. cbn [concat].
  assert ((([] ++ [FRAME_END]) ++ esc (concat m1)) ++ [FRAME_END] = frame m1) as -> by done.
  assert (with_comp (if_flags (with_comp (if_flags sc1) c1 sc1)) c2 (with_queues [] [] (with_comp (if_flags sc1) c1 sc1)) =
    with_comp (if_flags sc1) c2 (with_queues [] [] sc1)) as -> by done.
  by rewrite Es, E1.
Qed.

(** Without header compression the packets are sent as they are. *)
Lemma compress_all_off flags c ms :
  Z.land flags SC_COMPRESS = 0 → Forall (λ m, is_Some (ip_p m)) ms → compress_all flags c ms = Some (c, ms).
Proof.
  intros Hf. induction 1 as [|m ms [p Hp] _ IH]; [done|]. cbn [compress_all]. unfold compress_packet. rewrite Hp. cbn [mbind option_bind].
  rewrite Hf. change (ztrue 0) with false. rewrite andb_false_r. cbn [mbind option_bind]. by rewrite IH.
Qed.

Lemma slinput_all_app now a b sc :
  slinput_all now (a ++ b) sc =
  '(sc, ps) ← slinput_all now a sc; '(sc, qs) ← slinput_all now b sc; Some (sc, ps ++ qs).
Proof.
  revert sc. induction a as [|c a IH]; intros sc; cbn [app slinput_all mbind option_bind].
  { by destruct (slinput_all now b sc) as [[sc1 ps]|]. }
  destruct (slinput now true true false c sc) as [[sc1 p]|]; [|done]. cbn [mbind option_bind]. rewrite IH.
  destruct (slinput_all now a sc1) as [[sc2 ps]|]; [|done]. cbn [mbind option_bind].
  destruct (slinput_all now b sc2) as [[sc3 qs]|]; [|done]. by destruct p.
Qed.

(** A receiver without the abort escape and without an error. *)
Definition listening (sc : sl_softc) : Prop :=
  attached sc = true ∧ Z.land (if_flags sc) IFF_DEBUG = 0 ∧ Z.land (sc_flags sc) SC_ERROR = 0.

Lemma slinput_char now c sc :
  listening sc → is_u8 c →
  slinput now true true false c sc =
    if c =? FRAME_ESCAPE then Some (with_input (sc_buf sc) (sc_flags sc) 1 sc, None)
    else if c =? FRAME_END then
      if Z.of_nat (length (sc_buf sc)) <? 3 then Some (newpack sc, None)
      else '(sc, p) ← frame_packet_in sc; Some (newpack sc, p)
    else
      let c := if c =? TRANS_FRAME_ESCAPE then if ztrue (sc_escape sc) then FRAME_ESCAPE else c
               else if c =? TRANS_FRAME_END then if ztrue (sc_escape sc) then FRAME_END else c
               else c in
      if Z.of_nat (length (sc_buf sc)) <? SLMAX
      then Some (with_input (sc_buf sc ++ [c]) (sc_flags sc) 0 sc, None)
      else Some (newpack (with_input (sc_buf sc) (Z.lor (sc_flags sc) SC_ERROR) (sc_escape sc) sc), None).
Proof.
  intros (H1 & H2 & H3) Hc. unfold slinput, abort_escape. rewrite H1, H2. unfold is_u8 in Hc.
  assert (Z.land c TTY_ERRORMASK = 0) as ->.
  { apply Z.bits_inj'; intros i Hi. rewrite Z.land_spec, Z.bits_0. destruct (Z.lt_ge_cases i 8).
    - assert (i = 0 ∨ i = 1 ∨ i = 2 ∨ i = 3 ∨ i = 4 ∨ i = 5 ∨ i = 6 ∨ i = 7) as Hi8 by lia.
      assert (Z.testbit TTY_ERRORMASK i = false) as -> by (by repeat (destruct Hi8 as [-> | Hi8]); [..|subst]).
      apply andb_false_r.
    - by rewrite (testbit_high c 8 i) by lia. }
  assert (Z.land c TTY_CHARMASK = c) as ->.
  { change TTY_CHARMASK with (Z.ones 8). rewrite Z.land_ones by lia. apply Z.mod_small. lia. }
  change (ztrue 0) with false. cbn [negb orb]. cbv iota. rewrite H3. change (ztrue 0) with false. cbn [negb andb]. done.
Qed.

(** The escaped bytes of a packet fill the buffer. *)
Lemma slinput_esc now cp : ∀ sc,
  listening sc → sc_escape sc = 0 → Forall is_u8 cp → Z.of_nat (length (sc_buf sc) + length cp) <= SLMAX →
  slinput_all now (esc cp) sc = Some (with_input (sc_buf sc ++ cp) (sc_flags sc) 0 sc, []).
Proof.
  induction cp as [|c cp IH]; intros sc Hs He Hb Hl.
  { simpl. destruct sc; simpl in *; subst. by rewrite app_nil_r. }
  rewrite Forall_cons in Hb. destruct Hb as [Hc Hb]. simpl in Hl.
  change (esc (c :: cp)) with (esc1 c ++ esc cp). rewrite slinput_all_app.
  assert (H1 : slinput_all now (esc1 c) sc = Some (with_input (sc_buf sc ++ [c]) (sc_flags sc) 0 sc, [])).
  { assert (Hlt : (Z.of_nat (length (sc_buf sc)) <? SLMAX) = true) by (apply Z.ltb_lt; lia).
    unfold esc1, special. destruct (Z.eqb_spec c FRAME_ESCAPE) as [->|N1]; [|destruct (Z.eqb_spec c FRAME_END) as [->|N2]]; cbn [orb].
    - cbn [slinput_all]. rewrite slinput_char by done. cbn -[slinput with_input].
      rewrite slinput_char by done. cbn -[with_input]. simpl (sc_buf (with_input _ _ _ _)). by rewrite Hlt.
    - cbn [slinput_all]. rewrite slinput_char by done. cbn -[slinput with_input].
      rewrite slinput_char by done. cbn -[with_input]. simpl (sc_buf (with_input _ _ _ _)). by rewrite Hlt.
    - cbn [slinput_all]. rewrite slinput_char by done.
      rewrite (proj2 (Z.eqb_neq _ _) N1), (proj2 (Z.eqb_neq _ _) N2), He. change (ztrue 0) with false. cbv iota zeta.
      assert ((if c =? TRANS_FRAME_ESCAPE then c else if c =? TRANS_FRAME_END then c else c) = c) as ->
        by (destruct (c =? _); [done|by destruct (c =? _)]). by rewrite Hlt. }
  rewrite H1. cbn [mbind option_bind]. rewrite IH; simpl; try done.
  - rewrite <- app_assoc. done.
  - rewrite length_app. simpl. lia.
Qed.

(** A frame: what is in the buffer at its end decides. *)
Lemma slinput_frame now m sc sc' p :
  listening sc → sc_escape sc = 0 → sc_buf sc = [] → Forall is_u8 (flat m) →
  3 <= Z.of_nat (length (flat m)) <= SLMAX →
  frame_packet_in (with_input (flat m) (sc_flags sc) 0 sc) = Some (sc', Some p) →
  slinput_all now (frame m) sc = Some (newpack sc', [p]).
Proof.
  intros Hs He Hb Hu Hl Hp. unfold flat in *.
  assert (Hn : newpack sc = sc) by (destruct sc; unfold newpack, with_input; simpl in *; by subst).
  unfold frame. cbn [slinput_all]. rewrite slinput_char by done.
  change (FRAME_END =? FRAME_ESCAPE) with false. change (FRAME_END =? FRAME_END) with true. cbv iota.
  rewrite Hb, Hn. change (Z.of_nat (length []) <? 3) with true. cbv iota. cbn [mbind option_bind]. rewrite slinput_all_app.
  rewrite slinput_esc by (try done; rewrite Hb; simpl; lia). cbn [mbind option_bind slinput_all].
  rewrite slinput_char by done. change (FRAME_END =? FRAME_ESCAPE) with false. change (FRAME_END =? FRAME_END) with true. cbv iota.
  rewrite Hb. simpl (sc_buf (with_input _ _ _ _)). rewrite (proj2 (Z.ltb_ge _ 3)) by (simpl; lia).
  cbn [app]. by rewrite Hp.
Qed.

(** A packet IP could have sent: an IP header in its first mbuf, and a size the
    receiver has room for. *)
Definition packet_ok (m : packet) : Prop :=
  is_Some (ip_p m) ∧ Forall is_u8 (flat m) ∧ 3 <= Z.of_nat (length (flat m)) <= SLMAX ∧
  Z.land (default 0 (head (flat m))) 0xf0 = 0x40.

Lemma newpack_input buf sc : sc_escape sc = 0 → sc_buf sc = [] → newpack (with_input buf (sc_flags sc) 0 sc) = sc.
Proof. intros He Hb. destruct sc. unfold newpack, with_input. simpl in *. by subst. Qed.

(** A packet that was not compressed. *)
Lemma slinput_ip_frame now m sc :
  listening sc → sc_escape sc = 0 → sc_buf sc = [] → packet_ok m →
  slinput_all now (frame m) sc = Some (sc, [flat m]).
Proof.
  intros Hs He Hb (_ & Hu & Hl & Hv). rewrite (slinput_frame now m sc (with_input (flat m) (sc_flags sc) 0 sc) (flat m)); try done.
  - by rewrite newpack_input.
  - unfold frame_packet_in. simpl (sc_buf (with_input _ _ _ _)).
    destruct (flat m) as [|b0 buf] eqn:Ec; [simpl in Hl; lia|]. simpl in Hv. by rewrite Hv.
Qed.

Lemma slinput_frames now ms : ∀ sc,
  listening sc → sc_escape sc = 0 → sc_buf sc = [] → Forall packet_ok ms →
  slinput_all now (concat (frame <$> ms)) sc = Some (sc, flat <$> ms).
Proof.
  induction ms as [|m ms IH]; intros sc Hs He Hb Hm; [done|]. rewrite Forall_cons in Hm. destruct Hm as [Hm Hms].
  rewrite fmap_cons. cbn [concat]. rewrite slinput_all_app, slinput_ip_frame by done. cbn [mbind option_bind]. by rewrite IH.
Qed.

End Slip.

(** ** Header compression

    What the line expects of the header compression: two states can be in step, and
    a packet that is compressed at one end is restored at the other, which leaves
    the states in step. *)
Section Compression.
Context {comp : Type}.
Context (compress : comp → packet → option (comp * packet * Z)).
Context (uncompress : comp → list Z → Z → option (comp * option (list Z))).

(** The frame [w] makes the receiver [rc] restore the packet [p]. *)
Definition restores (w p : list Z) (rc rc' : comp) : Prop :=
  ∃ b0 buf, w = b0 :: buf ∧
    ((ztrue (Z.land (Z.land b0 0xf0) 0x80) = true ∧ uncompress rc w TYPE_COMPRESSED_TCP = Some (rc', Some p)) ∨
     (Z.land b0 0xf0 = TYPE_UNCOMPRESSED_TCP ∧
      uncompress rc (Z.land b0 0x4f :: buf) TYPE_UNCOMPRESSED_TCP = Some (rc', Some p))).

Class HeaderCompression := {
  in_sync : comp → comp → Prop;
  carried : packet → Prop;
  compress_carried tc rc m : in_sync tc rc → carried m → Forall is_u8 (flat m) →
    Z.land (default 0 (head (flat m))) 0xf0 = 0x40 →
    ∃ tc' m' type, compress tc m = Some (tc', m', type) ∧
      ((tc' = tc ∧ or_first type m' = m) ∨
       (Forall is_u8 (flat (or_first type m')) ∧ (3 <= length (flat (or_first type m')) <= length (flat m))%nat ∧
        ∃ rc', restores (flat (or_first type m')) (flat m) rc rc' ∧ in_sync tc' rc'))
}.
End Compression.

(** A packet for a line with header compression. *)
Definition comp_packet_ok SLMAX {comp} (compress : comp → packet → option (comp * packet * Z)) uncompress
    `{HeaderCompression comp compress uncompress} (m : packet) : Prop :=
  packet_ok SLMAX m ∧ (ip_p m = Some IPPROTO_TCP → carried compress uncompress m).

(** A frame that is restored. *)
Lemma slinput_comp_frame SLMAX {comp} uncompress now m p (sc : @sl_softc comp) rc' :
  listening sc → sc_escape sc = 0 → sc_buf sc = [] → ztrue (Z.land (if_flags sc) SC_COMPRESS) = true →
  Forall is_u8 (flat m) → 3 <= Z.of_nat (length (flat m)) <= SLMAX →
  restores uncompress (flat m) p (sc_comp sc) rc' →
  slinput_all SLMAX uncompress now (frame m) sc = Some (with_comp (if_flags sc) rc' sc, [p]).
Proof.
  intros Hs He Hb Hf Hu Hl (b0 & buf & Ew & Hr).
  assert (Hn : ∀ w, newpack (with_comp (if_flags sc) rc' (with_input w (sc_flags sc) 0 sc)) = with_comp (if_flags sc) rc' sc).
  { intros w. destruct sc. unfold newpack, with_comp, with_input. simpl in *. by subst. }
  rewrite (slinput_frame SLMAX uncompress now m sc (with_comp (if_flags sc) rc' (with_input (flat m) (sc_flags sc) 0 sc)) p); try done.
  { by rewrite Hn. }
  unfold frame_packet_in. simpl (sc_buf (with_input _ _ _ _)). rewrite Ew in Hr |- *. cbv zeta.
  simpl (if_flags (with_input _ _ _ _)). simpl (sc_comp (with_input _ _ _ _)). rewrite Hf.
  destruct Hr as [[Hc Hr]|[Hc Hr]].
  - destruct (Z.eqb_spec (Z.land b0 0xf0) 0x40) as [E|_]; [by rewrite E in Hc|]. rewrite Hc, Hr. done.
  - rewrite Hc. change (TYPE_UNCOMPRESSED_TCP =? 0x40) with false. change (ztrue (Z.land TYPE_UNCOMPRESSED_TCP 0x80)) with false.
    rewrite Z.eqb_refl. rewrite Hr. done.
Qed.

(** All packets, with what is on the line. *)
Lemma compressed_frames SLMAX {comp} compress uncompress `{!HeaderCompression compress uncompress} now flags ms :
  ztrue (Z.land flags SC_COMPRESS) = true →
  ∀ (tc : comp) (rc : @sl_softc comp), in_sync compress uncompress tc (sc_comp rc) →
  listening rc → sc_escape rc = 0 → sc_buf rc = [] → ztrue (Z.land (if_flags rc) SC_COMPRESS) = true →
  Forall (comp_packet_ok SLMAX compress uncompress) ms →
  ∃ tc' ms' rc', compress_all compress flags tc ms = Some (tc', ms') ∧
    slinput_all SLMAX uncompress now (concat (frame <$> ms')) rc = Some (with_comp (if_flags rc) rc' rc, flat <$> ms) ∧
    in_sync compress uncompress tc' rc'.
Proof.
  intros Hf. induction ms as [|m ms IH]; intros tc rc Hy Hs He Hb Hr Hm.
  { exists tc, [], (sc_comp rc). by destruct rc. }
  rewrite Forall_cons in Hm. destruct Hm as [[Hok Hcar] Hms]. pose proof Hok as ([p Hp] & Hu & Hl & Hv).
  assert (Hone : ∃ tc1 m1 rc1, compress_packet compress flags tc m = Some (tc1, m1) ∧
    slinput_all SLMAX uncompress now (frame m1) rc = Some (with_comp (if_flags rc) rc1 rc, [flat m]) ∧ in_sync compress uncompress tc1 rc1).
  { unfold compress_packet. rewrite Hp. cbn [mbind option_bind]. rewrite Hf, andb_true_r.
    destruct (Z.eqb_spec p IPPROTO_TCP) as [->|Np].
    - destruct (compress_carried compress uncompress tc (sc_comp rc) m Hy (Hcar Hp) Hu Hv) as (tc1 & m1 & ty & -> & Hcase).
      cbn [mbind option_bind]. destruct Hcase as [[-> Em]|(Hu1 & Hl1 & rc1 & Hres & Hy1)].
      + exists tc, m, (sc_comp rc). rewrite Em. split; [done|]. split; [|done]. rewrite slinput_ip_frame by done. by destruct rc.
      + exists tc1, (or_first ty m1), rc1. split; [done|]. split; [|done].
        by apply slinput_comp_frame; try done; lia.
    - exists tc, m, (sc_comp rc). split; [done|]. split; [|done]. rewrite slinput_ip_frame by done. by destruct rc. }
  destruct Hone as (tc1 & m1 & rc1 & E1 & E2 & Hy1). cbn [compress_all]. rewrite E1. cbn [mbind option_bind].
  destruct (IH tc1 (with_comp (if_flags rc) rc1 rc)) as (tc2 & ms2 & rc2 & E3 & E4 & Hy2); try done.
  exists tc2, (m1 :: ms2), rc2. rewrite E3. split; [done|]. split; [|done].
  rewrite fmap_cons. cbn [concat]. rewrite slinput_all_app, E2. cbn [mbind option_bind]. rewrite E4. done.
Qed.

(** C31: the serial line carries packets unchanged: whatever IP packets are queued
    at one end, [slstart] writes them out completely, however the line takes the
    characters, and the receiver at the other end hands exactly these packets to
    IP, the interactive ones first, and is ready for the next. *)
Theorem slip_roundtrip SLMAX {comp : Type} sl_compress_tcp sl_uncompress_tcp write fuel now (sc rc : @sl_softc comp) :
  (∀ n len, 0 < len → 0 < write n len <= len) →
  attached sc = true → Z.land (if_flags sc) SC_COMPRESS = 0 →
  Forall (packet_ok SLMAX) (sc_fastq sc ++ if_snd sc) → (length (sc_fastq sc ++ if_snd sc) < fuel)%nat →
  listening rc → sc_escape rc = 0 → sc_buf rc = [] →
  ∃ wire, slstart sl_compress_tcp write fuel sc (CL 0 []) = Some (with_queues [] [] sc, CL 0 [], wire) ∧
    slinput_all SLMAX sl_uncompress_tcp now wire rc = Some (rc, flat <$> (sc_fastq sc ++ if_snd sc)).
Proof.
  intros Hw Ha Hc Hp Hf Hl He Hb. eexists. split.
  - rewrite (slstart_ok sl_compress_tcp write fuel sc (CL 0 []) (sc_comp sc) (sc_fastq sc ++ if_snd sc)); try done.
    apply compress_all_off; [done|]. eapply Forall_impl; [exact Hp|]. by intros m [Hm _].
  - by apply slinput_frames.
Qed.

(** Two packets with bytes that have to be escaped, on a line that takes one
    character at a time. *)
Definition ex_packet (n : Z) : packet := [[0x45; 0; 0; 24; 0; n; 0; 0; 0xc0; 17; 0xdb; 0xdc]; [0xc0; 0xdd; n]].
Definition ex_sl (fast snd : list packet) : sl_softc := SL true 0 fast snd [] 0 0 0 0 0 tt.

Lemma slip_roundtrip_witness :
  ∃ wire, slstart (λ _ _, None) (λ _ _, 1) 3 (ex_sl [ex_packet 2] [ex_packet 1]) (CL 0 []) =
      Some (ex_sl [] [], CL 0 [], wire) ∧
    slinput_all 1916 (λ _ _ _, None) 0 wire (ex_sl [] []) = Some (ex_sl [] [], [flat (ex_packet 2); flat (ex_packet 1)]).
Proof.
  apply (slip_roundtrip 1916 (λ _ _, None) (λ _ _ _, None) (λ _ _, 1) 3 0 (ex_sl [ex_packet 2] [ex_packet 1]) (ex_sl [] [])).
  - intros n len Hlen. lia.
  - reflexivity.
  - reflexivity.
  - repeat (apply Forall_cons; split; [|]); [| |apply Forall_nil_2];
      (split; [by eexists|]; split; [repeat (apply Forall_cons; split; [by vm_compute|]); apply Forall_nil_2|by vm_compute]).
  - simpl. lia.
  - by vm_compute.
  - reflexivity.
  - reflexivity.
Defined.

End Slip.
