(* ===== verification/SlipComp.v ===== *)
(** * A serial line with header compression

    The compression of SlComp is what the line of Slip expects of it, so a line with
    compression carries packets unchanged. *)

From S2P Require Import Prelude Cksum Tcp SlComp SlSync Slip.
From stdpp Require Import options.

Module SlipComp.

Import Clist Slip SlComp SlSync.

Section Line.

(** [big] is the byte order, [stale] what the input buffer holds after a frame: the
    bytes of earlier frames. *)
Context (big : bool) (stale : list Z → list Z).

(** The calls in [slstart] and [slinput]. *)
Definition compress_chain (c : slcompress) (m : packet) : option (slcompress * packet * Z) :=
  match m with
  | d :: rest => '(c, d, type) ← sl_compress_tcp d c 1; Some (c, d :: rest, type)
  | [] => None
  end.

Definition uncompress_buf (c : slcompress) (buf : list Z) (type : Z) : option (slcompress * option (list Z)) :=
  sl_uncompress_tcp big (buf ++ stale buf) (length buf) type c.

(** The packets the compression takes: those it sends as they are, and TCP segments
    with a header as TCP and IP make it. *)
Definition comp_carried (m : packet) : Prop :=
  ∃ d rest, m = d :: rest ∧ (sent_plain d ∨ ∃ n, tcp_packet big n d (concat rest)).

(** The type in the first byte. *)
Lemma type_ip b : is_u8 b → Z.land b 0xf0 = 0x40 → Z.lor b TYPE_IP = b.
Proof.
  intros Hb Hv. pose proof (forall_u8 (λ b, negb (Z.land b 0xf0 =? 0x40) || (Z.lor b TYPE_IP =? b)) ltac:(by vm_compute) b Hb) as H.
  cbv beta in H. rewrite Hv in H. by apply Z.eqb_eq.
Qed.

Lemma type_uncompressed b : is_u8 b → Z.land b 0xf0 = 0x40 →
  is_u8 (Z.lor b SlComp.TYPE_UNCOMPRESSED_TCP) ∧ Z.land (Z.lor b SlComp.TYPE_UNCOMPRESSED_TCP) 0xf0 = 0x70 ∧
  Z.land (Z.lor b SlComp.TYPE_UNCOMPRESSED_TCP) 0x4f = b.
Proof.
  intros Hb Hv. pose proof (forall_u8 (λ b, negb (Z.land b 0xf0 =? 0x40) ||
    let x := Z.lor b SlComp.TYPE_UNCOMPRESSED_TCP in
    (0 <=? x) && (x <? 256) && (Z.land x 0xf0 =? 0x70) && (Z.land x 0x4f =? b)) ltac:(by vm_compute) b Hb) as H.
  cbv beta zeta in H. rewrite Hv in H. change (negb (0x40 =? 0x40)) with false in H. cbn [orb] in H. zbool. unfold is_u8. split_and!; try done; lia.
Qed.

Lemma type_compressed b : 0 <= b < 128 →
  is_u8 (Z.lor b SlComp.TYPE_COMPRESSED_TCP) ∧ ztrue (Z.land (Z.land (Z.lor b SlComp.TYPE_COMPRESSED_TCP) 0xf0) 0x80) = true.
Proof.
  intros Hb. pose proof (forall_u8 (λ b, (128 <=? b) || let x := Z.lor b SlComp.TYPE_COMPRESSED_TCP in
    (0 <=? x) && (x <? 256) && ztrue (Z.land (Z.land x 0xf0) 0x80)) ltac:(by vm_compute) b ltac:(unfold is_u8; lia)) as H.
  cbv beta zeta in H. rewrite (proj2 (Z.leb_gt _ _)) in H by lia. cbn [orb] in H. zbool. unfold is_u8. split_and!; try done; lia.
Qed.

Lemma compress_chain_carried tc rc m :
  synced tc rc → comp_carried m → Forall is_u8 (flat m) → Z.land (default 0 (head (flat m))) 0xf0 = 0x40 →
  ∃ tc' m' type, compress_chain tc m = Some (tc', m', type) ∧
    ((tc' = tc ∧ or_first type m' = m) ∨
     (Forall is_u8 (flat (or_first type m')) ∧ (3 <= length (flat (or_first type m')) <= length (flat m))%nat ∧
      ∃ rc', restores uncompress_buf (flat (or_first type m')) (flat m) rc rc' ∧ synced tc' rc')).
Proof.
  intros Hy (d & rest & -> & Hc) Hu Hv. unfold flat in *. cbn [concat] in Hu, Hv. rewrite Forall_app in Hu. destruct Hu as [Hud Hur].
  assert (Hip : or_first TYPE_IP (d :: rest) = d :: rest).
  { destruct d as [|b d]; [done|]. cbn. rewrite type_ip; [done| |done]. by rewrite Forall_cons in Hud; destruct Hud. }
  destruct Hc as [Hp|[n Hn]].
  { exists tc, (d :: rest), TYPE_IP. unfold compress_chain. rewrite compress_plain by done. split; [done|]. by left. }
  destruct (compress_delivers big n d (concat rest) tc rc 1 Hy Hn) as (tc' & d' & ty & E & Hcase).
  exists tc', (d' :: rest), ty. unfold compress_chain. rewrite E. split; [done|].
  destruct Hcase as [(-> & -> & ->)|[(-> & E0 & El & Hu' & Hd)|(-> & b0 & b & -> & Hb0 & Hl3 & El & Hub & Hd)]]; [by left|right|right].
  - specialize (Hu' Hud). pose proof (tp_len _ _ _ _ Hn) as Hnl. pose proof (tp_header _ _ _ _ Hn) as [_ Hh _ Hnn _ _ _ _].
    destruct d' as [|b0 b]; [simpl in El; lia|]. destruct d as [|d0 d]; [simpl in El; lia|]. cbn in E0. subst d0.
    rewrite Forall_cons in Hu'. destruct Hu' as [Hb0 Hb]. cbn [app head default from_option] in Hv.
    destruct (type_uncompressed b0 Hb0 Hv) as (T1 & T2 & T3). cbn [or_first concat].
    split; [rewrite Forall_app, Forall_cons; done|].
    split; [rewrite !length_app; simpl in *; lia|].
    destruct (Hd (stale (b0 :: b ++ concat rest))) as (rc' & Er & Hyr). exists rc'. split; [|done].
    exists (Z.lor b0 SlComp.TYPE_UNCOMPRESSED_TCP), (b ++ concat rest). split; [done|]. right. split; [done|].
    rewrite T3. unfold uncompress_buf. rewrite <- Er. cbn [app]. by rewrite <- !app_assoc.
  - specialize (Hub Hud). destruct (type_compressed b0 Hb0) as (T1 & T2). cbn [or_first concat].
    split; [rewrite Forall_app, Forall_cons; done|].
    split; [rewrite !length_app; simpl in *; lia|].
    destruct (Hd (stale (Z.lor b0 SlComp.TYPE_COMPRESSED_TCP :: b ++ concat rest))) as (rc' & Er & Hyr). exists rc'. split; [|done].
    exists (Z.lor b0 SlComp.TYPE_COMPRESSED_TCP), (b ++ concat rest). split; [done|]. left. split; [done|].
    unfold uncompress_buf. rewrite <- Er. cbn [app]. by rewrite <- !app_assoc.
Qed.

#[export] Instance vj_compression : HeaderCompression compress_chain uncompress_buf :=
  {| in_sync := synced; carried := comp_carried; compress_carried := compress_chain_carried |}.

End Line.


(** The first segment of a conversation is sent uncompressed, the data after it in
    three bytes of header, an urgent segment in six, the next plain segment
    uncompressed again. *)
Definition ex_queue : list packet :=
  [[ex_tcp 43 1 1000 0x10 0 [1; 2; 3]]; [ex_tcp 42 2 1003 0x18 0 [0xc0]; [5]];
   [ex_tcp 42 4 1005 0x30 2 [6; 7]]; [ex_tcp 40 5 1007 0x10 0 []]].

Definition ex_line (snd : list packet) : @sl_softc slcompress :=
  SL true SC_COMPRESS [] snd [] 0 0 0 0 0 sl_compress_init.

Example ex_wire_sizes :
  match compress_all compress_chain SC_COMPRESS sl_compress_init ex_queue with
  | Some (_, ms) => map (λ m, length (flat m)) ms = [43; 5; 8; 40]%nat
  | None => False
  end.
Proof. by vm_compute. Qed.

(** A concrete packet is well formed by evaluation, its bytes one by one. *)
Ltac solve_tcp_packet :=
  let j := fresh in let Hj := fresh in
  split; try (by vm_compute); try (apply Nat.leb_le; by vm_compute);
  split; try (by vm_compute); try (apply Nat.leb_le; by vm_compute);
  intros j Hj; do 40 (destruct j as [|j]; [by vm_compute|]); lia.


(** ** What the compression gets wrong *)

(** The bytes a receiver hands to IP for a queue of packets, on a fresh line. *)
Definition ex_received (q : list packet) : option (list (list Z)) :=
  '(_, ms) ← compress_all compress_chain SC_COMPRESS sl_compress_init q;
  '(_, ps) ← slinput_all 1916 (uncompress_buf true (λ _, [0])) 0 (concat (map frame ms)) (ex_line []);
  Some ps.

(** A segment after an urgent one, without the urgent bit but with the same urgent
    pointer, is encoded as unidirectional data; that form does not clear the urgent
    bit at the receiver, which hands on a different segment. *)
Lemma urgent_bit_survives :
  let m1 := ex_tcp 43 1 1000 0x30 2 [1; 2; 3] in
  let m2 := ex_tcp 41 2 1003 0x10 2 [4] in
  ∃ m2', ex_received [[m1]; [m2]] = Some [m1; m2'] ∧ m2' = <[33%nat := 0x30]> m2 ∧ m2' ≠ m2.
Proof. eexists. split; [vm_compute; reflexivity|]. split; [vm_compute; reflexivity|]. vm_compute. discriminate. Qed.

(** An IP header and a TCP header of 60 bytes each, which IP allows, do not fit
    into the [MAX_HDR] bytes of a state: the copy runs past its end. *)
Lemma long_header_overruns :
  let m := [0x4f; 0; 0; 120; 0; 1; 0; 0; 64; 6; 0; 0; 10; 0; 0; 1; 10; 0; 0; 2] ++ replicate 40 1 ++
           [4; 1; 0; 23; 0; 0; 0; 1; 0; 0; 0; 9; 0xf0; 0x10; 0x10; 0; 0; 0; 0; 0] ++ replicate 40 1 in
  length m = 120%nat ∧ sl_compress_tcp m sl_compress_init 1 = None.
Proof. by vm_compute. Qed.

(** A line error drops the frame it hits but leaves the decompressor ready to take
    the next packet without a conversation number: the flag that would make it toss
    such packets is set only by packets it cannot read. *)
Lemma line_error_not_told now (rc : @sl_softc slcompress) :
  listening rc → sc_escape rc = 0 →
  slinput_all 1916 (uncompress_buf true (λ _, [])) now [0x1000000; FRAME_END] rc =
    Some (newpack (with_input (sc_buf rc) (Z.land (Z.lor (sc_flags rc) SC_ERROR) (Z.lnot SC_ERROR)) (sc_escape rc) rc), []).
Proof.
  intros (H1 & H2 & H3) He. set (f := Z.lor (sc_flags rc) SC_ERROR). set (rc1 := with_input (sc_buf rc) f (sc_escape rc) rc).
  assert (E1 : slinput 1916 (uncompress_buf true (λ _, [])) now true true false 0x1000000 rc = Some (rc1, None)).
  { unfold slinput. by rewrite H1. }
  assert (Ef : ztrue (Z.land f SC_ERROR) = true).
  { apply ztrue_spec. intros E. apply (f_equal (λ z, Z.testbit z 0)) in E. unfold f in E.
    rewrite Z.land_spec, Z.lor_spec, orb_true_r in E. done. }
  assert (E2 : slinput 1916 (uncompress_buf true (λ _, [])) now true true false FRAME_END rc1 =
    Some (newpack (with_input (sc_buf rc) (Z.land f (Z.lnot SC_ERROR)) (sc_escape rc) rc1), None)).
  { unfold slinput, abort_escape. change (attached rc1) with (attached rc). change (if_flags rc1) with (if_flags rc).
    rewrite H1, H2. change (Z.land FRAME_END TTY_CHARMASK) with FRAME_END. change (sc_flags rc1) with f.
    change (ztrue 0) with false. cbn [negb orb]. cbv iota zeta. change (sc_flags rc1) with f. by rewrite Ef. }
  cbn [slinput_all]. rewrite E1. cbn [mbind option_bind]. rewrite E2. done.
Qed.

End SlipComp.
